(* ===== verification/_CoqProject ===== *)
-Q . S2P
Prelude.v
Wire.v
Chain.v
Route.v
Skb.v
Net.v
Arp.v
Ipv4.v
Reassembly.v
NetRx.v
Sched.v
Cstring.v
Malloc.v
Printf.v
Time.v
Wait.v
Pipe.v
PipeProto.v
Udp.v
Futex.v
Threads.v
Mutex.v
Barrier.v
Rwlock.v
Pmm.v
Paging.v
AddressSpace.v
Fork.v
Destroy.v
UserMemory.v
Brk.v
Memory.v
Slab.v
SlabParts.v
SlabSpace.v
SlabLists.v
SlabHeap.v
SlabOps.v
SlabAlloc.v
SlabFree.v
SlabCalls.v
SlabRefines.v
SlabPages.v
SlabRun.v
TcpConn.v
TcpWire.v
TcpRx.v
TcpSegment.v
Tcp.v
TcpData.v
TcpStream.v
TcpTable.v
TcpHandshake.v
TcpNet.v
TcpRun.v
