(* ===== verification/Prelude.v ===== *)
(** * LikeOS-64: a verification development

    LikeOS-64 is a hobby operating system for x86-64 in C: a kernel with a
    preemptive SMP scheduler, paged memory with copy-on-write, pipes, futexes and a
    network stack ([src/kernel/], headers in [src/include/kernel/]), and a user land
    with its own C library ([src/userland/libc/]).  This development translates parts
    of both into Rocq definitions and proves that they do what they are for.  All paths
    below are relative to [src/].

    ** How the code is represented

    The embedding is shallow.  A C function is a Rocq function on the state it
    reads and writes; it keeps its name.  Machine integers are [Z] with the
    conversions [u8] ... [i64] of this file where C converts.  Structures are
    records, arrays are lists, objects reached by pointers live in finite maps
    ([gmap]) and a pointer is an address, an index or [option nat] (None is NULL).
    A critical section of a spinlock is one atomic step; a function that blocks or
    drops its lock is cut there, and the concurrent theorems quantify over all
    interleavings of the pieces.  The answers of code that is not modelled (memory
    allocators, page tables, network cards, the clock) are arguments or section
    variables, and the theorems hold for every answer.  What one component promises
    another is a class with its laws (waiting, futexes, the layer below TCP, the pages
    of the kernel heap).

    Loops with a bound recurse on it.  Loops that run until a condition take fuel;
    the theorems state the fuel that is enough (the length of the string or list,
    the number of queued packets, the number of waiters plus the number of moves in
    [futex_requeue]) or are proved for every fuel above such a bound, so no theorem
    is about a loop that gave up.

    ** The files

    - Prelude: machine integers, array searches, [write_at], tactics and the hint
      database [likeos].  Chain: linked lists through a [next] field.
    - Wire ([include/kernel/net.h], [ipv4_checksum]): byte order, header layouts,
      the Internet checksum: the header the sender completes verifies.
    - Route ([kernel/net/route.c]): the routing table refines a finite map; the
      lookup finds the longest prefix of least metric.
    - Skb ([kernel/net/skb.c]): the packet buffer pool with its free lists,
      reference counts and FIFO queues; [pool_inv] says that every buffer is either
      free or referenced.
    - Net, NetRx ([kernel/net/net.c], [ethernet.c]): the state of the network
      layers, transmit, loopback, the receive queue and the receive softirq,
      [net_init].
    - Arp ([kernel/net/arp.c]): the cache as a map with eviction, the packets that
      wait for an address, the protocol handlers.
    - Ipv4, Reassembly ([kernel/net/ipv4.c]): path-MTU cache, fragmentation,
      reassembly, receive.  The fragments sent are exactly those of the datagram;
      received in any order they give the datagram once.
    - Udp ([kernel/net/udp.c], part of [socket.c] and [icmp.c]): datagrams end to end
      over the loopback device, the bounded receive queue of a socket.
    - Sched ([kernel/ke/sched.c]): task list, run queues of the CPUs, choice of the
      next task, wake-up, load balancing.  The invariant ties the links, lengths
      and flags of all queues to lists; from it follow round robin and wake-up.
    - Wait: the interface of a sleeping thread and its waker ([WaitOps],
      [WaitLaws]) with the scheduler as its instance.
    - Pipe, PipeProto ([kernel/ke/pipe.c], the pipe calls and [sys_pipe] of
      [kernel/ke/syscall.c]): the pipe object, then the protocol of any number of
      reading, writing and closing threads: the bytes form a stream, no wake-up is
      lost, no freed memory is used.
    - Futex ([kernel/ke/futex.c], [sys_futex]): the table of waiting threads.
    - Threads: the interface of a futex user ([FutexOps], [FutexLaws]), the
      instance for the table of Futex and the scheduler of Sched, and programs
      that interleave small steps over shared memory with it.
    - Mutex ([userland/libc/src/pthread/pthread_mutex.c]), Barrier and Rwlock
      ([pthread_sync.c]): the pthread code as such programs; mutual exclusion,
      separation of barrier rounds and absence of lost wake-ups in every reachable
      state.
    - Cstring ([userland/libc/src/string/string.c]): memory blocks and strings.
    - Malloc ([malloc.c], [sbrk], [sys_brk]): the heap as a tiling of the area below
      the break; allocation, release and resizing against the set of payloads.
    - Printf ([stdio.c], [stdlib.c]): [vsnprintf] without floating point and the
      [strtol] family; what is printed is read back.
    - Time ([time.c]): [gmtime_r] and [mktime] against the calendar formulas,
      [strftime] and its relatives.
    - Pmm ([kernel/mm/memory.c]): the bitmap of physical pages, its set-up from the
      firmware's map, reference counts.
    - Paging: page tables as words of memory, the pool they come from, mapping,
      lookup, cloning and destruction of an address space, the page fault handler.
    - AddressSpace, Fork, Destroy, UserMemory, Brk: what each of these operations
      does to the tree of tables, the reference counts and the other processes.
    - Memory: processes with private memories as the specification, and the
      refinement of it by the above: fork copies, a store is seen by its process
      only, nothing leaks.
    - Slab ([kernel/mm/slab.c]): the kernel heap: slab pages with their bitmaps and
      lists, large blocks, the free ranges of addresses, over an interface of pages
      and mappings ([PageOps]).  SlabParts, SlabSpace, SlabLists: bitmaps, address
      ranges, regions and their frames against the laws of the interface
      ([PageLaws]), and the lists of pages.  SlabHeap: the invariant, the allocated
      blocks and their contents.  SlabOps, SlabAlloc, SlabFree, SlabCalls: what each
      operation does to them.
    - SlabRefines: the calls of several processors as a step relation, cut where
      the code drops a lock, and the heap its clients are promised; the one
      implements the other.  SlabPages: the interface implemented by Pmm and the
      kernel's page tables of Paging.  SlabRun: the two together, witnesses, and
      what the code does outside the rules.
    - TcpConn, TcpWire, TcpRx, Tcp ([kernel/net/tcp.c], [siphash_2_4] of
      [kernel/hal/random.c]): a connection with its timers, queues and cookies; the
      segments with their options; the state machine of [tcp_rx]; the table with
      opening, accepting, closing, deferred release and the timer.
    - TcpSegment, TcpData: what is sent is what is read; the receive ring and the
      queues as pieces of a byte stream.
    - TcpStream: two hosts and a network that loses, repeats and reorders messages
      as a step relation; the stream property and the agreement of the sequence
      numbers.  TcpTable: the invariant of the table under all calls.
      TcpHandshake: a connection set-up on the tables of two hosts.  TcpNet:
      [ipv4_send] as the layer below.  TcpRun: executable runs, witnesses, and what
      the code does at the edges.

    ** The theorems

    Each property carries its number (C1, C2, ...) in the comment before it; where
    it has hypotheses, the lemma [..._witness] applies it to a concrete state.
    Three kinds of statements prevail: refinement of an abstract object (map, FIFO
    queue, byte stream, set of payloads), invariants of all reachable states of a
    concurrent protocol, and end-to-end behaviour of a composition of functions.
    Some lemmas show what the code gets wrong on concrete inputs
    ([sched_wake_channel_strands], [ipv4_rx_short_total_overread],
    [strncpy_overflows], [malloc_huge_overlaps], [printf_unsigned_negative],
    [pipe_write_without_readers], [udp_loopback_alias_dropped],
    [futex_keys_collide], [futex_requeue_dangles], [rwlock_reader_stranded],
    [tcp_accept_twice], [tcp_fin_loses_data], [slab_header_forged],
    [slab_sizes_wrap] and others); the theorems exclude those inputs by explicit
    hypotheses.

    ** Assumptions

    Memory is sequentially consistent.  Spinlocks exclude each other.  Reference
    counts and counters of threads do not reach 2^31.  A thread does not close a
    pipe end while another thread is inside a call on it, and no thread dies while
    it holds a mutex; the code does not handle these cases.  A page has fewer than
    0x7FFF references when a process forks.  The range the heap grows into is
    unmapped.  Page faults of one process do not overlap, and the TLB is flushed as
    the code asks for.  A TCP function reads the clock once and runs without
    interruption; the stream theorem is about connections opened by a SYN that
    carry fewer than 2^32 bytes in each direction, not about those made from SYN
    cookies, whose first sequence number the code does not check.  Clients of the
    kernel heap ask for less than 1 GB at a time, use and free only the blocks they
    hold, and leave no magic number of a large block where [slab_free] looks for
    one; the page tables above the heap's addresses exist before the first call, and
    the processor runs on the kernel's tables, whose upper half all address spaces
    share.

    ** Not modelled

    - Hardware access: boot code, interrupt entry, GDT, APIC, PCI, ACPI (the ACPICA
      sources), USB, keyboard, console, network card drivers.
    - [mmap], the set-up of the kernel's own page tables, device mappings, the file
      systems ([kernel/fs/]), the ELF loader, signals, the
      terminal, the timer.
    - DHCP, DNS, IGMP, Unix sockets, poll, the rest of sockets and ICMP.
    - System calls other than those named above.
    - The remaining C library: floating-point conversions, stdio streams, thread
      creation, condition variables, thread-specific data, the dynamic linker.
    - The programs of the user land and the ports.

    These parts are largely independent of what is modelled; where modelled code
    calls them, they are arguments as described above. *)

From Stdlib Require Import ZArith Lia Bool.
From stdpp Require Import base list gmap.

Open Scope Z_scope.

(** ** Machine integers

    A C object of an unsigned w-bit type is a [Z] in [0 .. 2^w); the functions
    below are the conversions the C semantics inserts (wrap-around modulo 2^w).
    [i32] and [i64] are the two's-complement conversions GCC implements. *)

Definition u8 (z : Z) : Z := z mod 2 ^ 8.
Definition u16 (z : Z) : Z := z mod 2 ^ 16.
Definition u32 (z : Z) : Z := z mod 2 ^ 32.
Definition u64 (z : Z) : Z := z mod 2 ^ 64.
Definition i32 (z : Z) : Z := (z + 2 ^ 31) mod 2 ^ 32 - 2 ^ 31.
Definition i64 (z : Z) : Z := (z + 2 ^ 63) mod 2 ^ 64 - 2 ^ 63.

(** The range of an unsigned w-bit object. *)
Definition urange (w z : Z) : Prop := 0 <= z < 2 ^ w.

(** A bit test [x & m], as the C condition [if (x & m)]. *)
Definition has (x m : Z) : bool := negb (Z.land x m =? 0).

(** ** Array searches

    [find_idx p l] is the index the loop
    [for (i = 0; i < N; i++) if (p(a[i])) return i;] stops at. *)

Fixpoint find_idx {A : Type} (p : A -> bool) (l : list A) : option nat :=
  match l with
  | [] => None
  | x :: l' => if p x then Some O else option_map S (find_idx p l')
  end.

(** [min_idx key best i l] continues the loop
    [for (; i < N; i++) if (key(a[i]) < key(best)) best = i;]. *)
Fixpoint min_idx {A : Type} (key : A -> Z) (best : nat) (bestv : Z) (i : nat)
    (l : list A) : nat :=
  match l with
  | [] => best
  | x :: l' =>
      if key x <? bestv then min_idx key i (key x) (S i) l'
      else min_idx key best bestv (S i) l'
  end.

(** [write_at off bs buf]: the bytes [bs] stored one by one at [buf[off..]];
    a store outside the buffer is dropped, so every client proves the bounds. *)
Fixpoint write_at (off : nat) (bs buf : list Z) : list Z :=
  match bs with
  | [] => buf
  | b :: bs' => write_at (S off) bs' (<[off := b]> buf)
  end.

(** The sub-array [buf[off .. off+len)]. *)
Definition read_at (off len : nat) (buf : list Z) : list Z :=
  take len (drop off buf).

(** ** Automation *)

Create HintDb likeos.
Create Rewrite HintDb likeos.

(** Turns boolean integer comparisons into propositions and back. *)
Ltac zify_bool :=
  repeat match goal with
  | H : (_ && _) = true |- _ => apply andb_true_iff in H; destruct H
  | H : (_ || _) = false |- _ => apply orb_false_iff in H; destruct H
  | H : negb _ = true |- _ => apply negb_true_iff in H
  | H : negb _ = false |- _ => apply negb_false_iff in H
  | H : (_ =? _) = true |- _ => apply Z.eqb_eq in H
  | H : (_ =? _) = false |- _ => apply Z.eqb_neq in H
  | H : (_ <? _) = true |- _ => apply Z.ltb_lt in H
  | H : (_ <? _) = false |- _ => apply Z.ltb_ge in H
  | H : (_ <=? _) = true |- _ => apply Z.leb_le in H
  | H : (_ <=? _) = false |- _ => apply Z.leb_gt in H
  end.

(** Case analysis on the innermost [if] of the goal. *)
Ltac case_if :=
  match goal with
  | |- context [if ?b then _ else _] =>
      lazymatch b with
      | context [if _ then _ else _] => fail
      | _ => let E := fresh "E" in destruct b eqn:E
      end
  end.

(** The same in a hypothesis. *)
Ltac case_if_in H :=
  match type of H with
  | context [if ?b then _ else _] =>
      lazymatch b with
      | context [if _ then _ else _] => fail
      | _ => let E := fresh "E" in destruct b eqn:E
      end
  end.

(** [lia] with division and modulo by constants eliminated. *)
Ltac zlia := Z.div_mod_to_equations; lia.

(** ** Machine-integer lemmas *)

Lemma u8_range z : 0 <= u8 z < 256.
Proof. unfold u8. apply Z.mod_pos_bound. lia. Qed.

Lemma u16_range z : 0 <= u16 z < 65536.
Proof. unfold u16. apply Z.mod_pos_bound. lia. Qed.

Lemma u32_range z : 0 <= u32 z < 2 ^ 32.
Proof. unfold u32. apply Z.mod_pos_bound. lia. Qed.

Lemma u64_range z : 0 <= u64 z < 2 ^ 64.
Proof. unfold u64. apply Z.mod_pos_bound. lia. Qed.

Lemma u8_small z : 0 <= z < 256 -> u8 z = z.
Proof. intros. apply Z.mod_small. lia. Qed.

Lemma u16_small z : 0 <= z < 65536 -> u16 z = z.
Proof. intros. apply Z.mod_small. lia. Qed.

Lemma u32_small z : 0 <= z < 2 ^ 32 -> u32 z = z.
Proof. intros. apply Z.mod_small. lia. Qed.

Lemma u64_small z : 0 <= z < 2 ^ 64 -> u64 z = z.
Proof. intros. apply Z.mod_small. lia. Qed.

Lemma i32_small z : - 2 ^ 31 <= z < 2 ^ 31 -> i32 z = z.
Proof. intros. unfold i32. rewrite Z.mod_small by lia. lia. Qed.

Lemma i64_small z : - 2 ^ 63 <= z < 2 ^ 63 -> i64 z = z.
Proof. intros. unfold i64. rewrite Z.mod_small by lia. lia. Qed.

#[export] Hint Resolve u8_range u16_range u32_range u64_range : likeos.

(** ** Search lemmas *)

Section Search.
Context {A : Type}.
Implicit Types (p : A -> bool) (l : list A).

Lemma find_idx_Some p l i :
  find_idx p l = Some i <->
  exists x, l !! i = Some x /\ p x = true /\
    forall j y, (j < i)%nat -> l !! j = Some y -> p y = false.
Proof.
  revert i; induction l as [|a l IH]; intros i; simpl.
  - split; [done|]. intros (x & Hx & _). done.
  - destruct (p a) eqn:Ea.
    + split.
      * intros [= <-]. exists a. repeat split; try done. intros; lia.
      * intros (x & Hx & Hp & Hmin). destruct i as [|i]; [done|].
        specialize (Hmin O a ltac:(lia) eq_refl). congruence.
    + split.
      * destruct (find_idx p l) as [k|] eqn:Ek; simpl; [|done].
        intros [= <-]. destruct (proj1 (IH k) eq_refl) as (x & Hx & Hp & Hmin).
        exists x. repeat split; try done.
        intros [|j] y Hj Hy; simpl in Hy; [congruence|].
        apply (Hmin j); [lia|done].
      * intros (x & Hx & Hp & Hmin). destruct i as [|i]; simpl in Hx; [congruence|].
        rewrite (proj2 (IH i)); [done|].
        exists x. repeat split; try done.
        intros j y Hj Hy. apply (Hmin (S j)); [lia|done].
Qed.

Lemma find_idx_None p l :
  find_idx p l = None <-> forall i x, l !! i = Some x -> p x = false.
Proof.
  induction l as [|a l IH]; simpl; [done|].
  destruct (p a) eqn:Ea.
  - split; [done|]. intros H. specialize (H O a eq_refl). congruence.
  - destruct (find_idx p l) as [k|]; simpl; split; try done.
    + intros H. exfalso. assert (Some k = None) as Hk; [|done].
      apply (proj2 IH). intros i x Hx. by apply (H (S i)).
    + intros _ [|i] x Hx; simpl in Hx; [congruence|].
      by apply (proj1 IH eq_refl i).
Qed.

Lemma find_idx_lt p l i : find_idx p l = Some i -> (i < length l)%nat.
Proof.
  intros (x & Hx & _)%find_idx_Some. by apply lookup_lt_Some in Hx.
Qed.

End Search.

(** [min_idx] returns an index of a least element. *)
Lemma min_idx_spec {A : Type} (key : A -> Z) (l pre : list A) best bestv bx :
  pre !! best = Some bx -> bestv = key bx ->
  (forall j y, pre !! j = Some y -> bestv <= key y) ->
  exists x, (pre ++ l) !! (min_idx key best bestv (length pre) l) = Some x /\
    forall j y, (pre ++ l) !! j = Some y -> key x <= key y.
Proof.
  revert pre best bestv bx. induction l as [|a l IH]; intros pre best bestv bx Hb Hv Hmin.
  - simpl. rewrite app_nil_r. exists bx. split; [done|]. intros; subst. eauto.
  - simpl. replace (pre ++ a :: l) with ((pre ++ [a]) ++ l) by (rewrite <- app_assoc; done).
    replace (S (length pre)) with (length (pre ++ [a])) by (rewrite length_app; simpl; lia).
    assert (Hl : (best < length pre)%nat) by (by apply lookup_lt_Some in Hb).
    destruct (Z.ltb_spec (key a) bestv).
    + eapply IH; [by rewrite lookup_app_r, Nat.sub_diag by lia|done|].
      intros j y [Hj|[_ Hj]]%lookup_app_Some; [specialize (Hmin j y Hj); lia|].
      apply list_lookup_singleton_Some in Hj as [_ ->]. lia.
    + eapply IH; [by rewrite lookup_app_l by lia|done|].
      intros j y [Hj|[_ Hj]]%lookup_app_Some; [by apply (Hmin j)|].
      apply list_lookup_singleton_Some in Hj as [_ <-]. lia.
Qed.

(** ** Buffer lemmas *)

Lemma length_write_at off bs buf : length (write_at off bs buf) = length buf.
Proof.
  revert off buf; induction bs as [|b bs IH]; intros off buf; simpl; [done|].
  by rewrite IH, length_insert.
Qed.

Lemma write_at_app off bs buf :
  (off + length bs <= length buf)%nat ->
  write_at off bs buf = take off buf ++ bs ++ drop (off + length bs) buf.
Proof.
  revert off buf; induction bs as [|b bs IH]; intros off buf Hl; simpl in *.
  - by rewrite Nat.add_0_r, take_drop.
  - rewrite IH by (rewrite length_insert; lia).
    rewrite insert_take_drop by lia.
    rewrite take_app_ge by (rewrite length_take; lia).
    rewrite drop_app_ge by (rewrite length_take; lia).
    rewrite length_take, Nat.min_l by lia.
    replace (S off - off)%nat with 1%nat by lia.
    replace (S off + length bs - off)%nat with (S (length bs)) by lia.
    simpl. rewrite drop_drop, <- app_assoc. simpl.
    by rewrite <- Nat.add_succ_r.
Qed.

Lemma read_write_at off bs buf :
  (off + length bs <= length buf)%nat ->
  read_at off (length bs) (write_at off bs buf) = bs.
Proof.
  intros Hl. unfold read_at. rewrite write_at_app by done.
  rewrite drop_app_ge by (rewrite length_take; lia).
  rewrite length_take, Nat.min_l by lia. rewrite Nat.sub_diag, drop_0.
  by rewrite take_app_length.
Qed.

Lemma lookup_write_at off bs buf i :
  (off + length bs <= length buf)%nat ->
  write_at off bs buf !! i =
    if decide (off <= i < off + length bs)%nat then bs !! (i - off)%nat else buf !! i.
Proof.
  revert off buf; induction bs as [|b bs IH]; intros off buf Hl; simpl in *.
  - case_decide; [lia|done].
  - rewrite IH by (rewrite length_insert; lia).
    destruct (decide (i = off)) as [->|Hne].
    + rewrite decide_False by lia. rewrite decide_True by lia.
      rewrite Nat.sub_diag. simpl. apply list_lookup_insert_eq. lia.
    + destruct (decide (S off <= i < S off + length bs)%nat).
      * rewrite decide_True by lia. by replace (i - off)%nat with (S (i - S off)) by lia.
      * rewrite decide_False by lia. by rewrite list_lookup_insert_ne by done.
Qed.

#[export] Hint Rewrite length_write_at @length_insert : likeos.
