(* ===== verification/Wire.v ===== *)
(** * Wire formats: byte order, header layouts and the Internet checksum

    Models the byte-order helpers and packed header structures of
    [include/kernel/net.h], the device record, and [ipv4_checksum] of
    [kernel/net/ipv4.c].  The kernel runs on a little-endian machine: a 16-bit
    store of [net_htons(v)] is [le16 (net_htons v)], and a 16-bit load followed
    by [net_ntohs] is [net_ntohs (ld16 ...)]. *)

From Stdlib Require Import ZArith Lia Bool.
From stdpp Require Import base list gmap.
From coqutil Require Import Z.bitblast.
From S2P Require Import Prelude.

(** ** Byte order *)

Definition net_htons (x : Z) : Z :=
  u16 (Z.lor (Z.shiftr x 8) (Z.shiftl x 8)).

Definition net_ntohs (x : Z) : Z := net_htons x.

Definition net_htonl (x : Z) : Z :=
  Z.lor (Z.lor (Z.lor (Z.land (Z.shiftr x 24) 0xFF)
                      (Z.land (Z.shiftr x 8) 0xFF00))
               (Z.land (u32 (Z.shiftl x 8)) 0xFF0000))
        (Z.land (u32 (Z.shiftl x 24)) 0xFF000000).

Definition net_ntohl (x : Z) : Z := net_htonl x.

(** Little-endian memory: stores and loads of 8-, 16- and 32-bit objects.  A
    load of bytes that are not there yields 0; every client proves the bounds. *)

Definition byte_at (buf : list Z) (i : nat) : Z := default 0 (buf !! i).

Definition le16 (v : Z) : list Z := [v mod 256; v / 256 mod 256].

Definition le32 (v : Z) : list Z :=
  [v mod 256; v / 256 mod 256; v / 65536 mod 256; v / 16777216 mod 256].

Definition ld16 (buf : list Z) (off : nat) : Z :=
  byte_at buf off + 256 * byte_at buf (off + 1).

Definition ld32 (buf : list Z) (off : nat) : Z :=
  byte_at buf off + 256 * byte_at buf (off + 1) +
  65536 * byte_at buf (off + 2) + 16777216 * byte_at buf (off + 3).

(** ** Devices *)

Definition ETH_ALEN : nat := 6.
Definition ETH_HLEN : Z := 14.
Definition NET_MTU_DEFAULT : Z := 1500.
Definition ETH_P_IP : Z := 0x0800.
Definition ETH_P_ARP : Z := 0x0806.
Definition IP_PROTO_ICMP : Z := 1.
Definition IP_PROTO_TCP : Z := 6.
Definition IP_PROTO_UDP : Z := 17.
Definition eth_broadcast_addr : list Z := [0xFF; 0xFF; 0xFF; 0xFF; 0xFF; 0xFF].

(** A [net_device_t*] is [None] (NULL) or the identity of a device. *)
Abbreviation devptr := (option nat).

Record net_device := mk_net_device {
  name : option (list Z);
  mac_addr : list Z;
  mtu : Z;
  ip_addr : Z;
  netmask : Z;
  gateway : Z;
  dns_server : Z;
  send : bool;   (* dev->send != NULL *)
  rx_packets : Z;
  tx_packets : Z;
  rx_bytes : Z;
  tx_bytes : Z;
  rx_errors : Z;
}.

(** ** The IPv4 header *)

Record ipv4_header := mk_ipv4_header {
  version_ihl : Z;
  tos : Z;
  total_length : Z;
  identification : Z;
  flags_fragment : Z;
  ttl : Z;
  protocol : Z;
  checksum : Z;
  src_addr : Z;
  dst_addr : Z;
}.

(** The packed structure in memory, and the fields a cast of a byte buffer to
    [ipv4_header_t*] reads. *)
Definition ipv4_header_bytes (ip : ipv4_header) : list Z :=
  [version_ihl ip; tos ip] ++ le16 (total_length ip) ++ le16 (identification ip) ++
  le16 (flags_fragment ip) ++ [ttl ip; protocol ip] ++ le16 (checksum ip) ++
  le32 (src_addr ip) ++ le32 (dst_addr ip).

Definition ipv4_header_of (data : list Z) : ipv4_header :=
  {| version_ihl := byte_at data 0; tos := byte_at data 1;
     total_length := ld16 data 2; identification := ld16 data 4;
     flags_fragment := ld16 data 6; ttl := byte_at data 8;
     protocol := byte_at data 9; checksum := ld16 data 10;
     src_addr := ld32 data 12; dst_addr := ld32 data 16 |}.

Definition sizeof_ipv4_header : Z := 20.

(** ** The one's complement checksum *)

(** The summation loops; [sum] is a [uint32_t]. *)
Fixpoint checksum_words (data : list Z) (sum : Z) : Z :=
  match data with
  | a :: b :: rest => checksum_words rest (u32 (sum + (a + 256 * b)))
  | [a] => u32 (sum + a)
  | [] => sum
  end.

(** [while (sum >> 16) sum = (sum & 0xFFFF) + (sum >> 16);] *)
Fixpoint checksum_fold (fuel : nat) (sum : Z) : Z :=
  match fuel with
  | O => sum
  | S fuel' =>
      if Z.shiftr sum 16 =? 0 then sum
      else checksum_fold fuel' (u32 (Z.land sum 0xFFFF + Z.shiftr sum 16))
  end.

(** Two rounds reach the exit test for every 32-bit sum ([checksum_fold_exit]). *)
Definition ipv4_checksum (data : list Z) (len : Z) : Z :=
  u16 (Z.lnot (checksum_fold 2 (checksum_words (take (Z.to_nat len) data) 0))).

(** ** Well-formed data *)

Definition byte (b : Z) : Prop := 0 <= b < 256.
Definition bytes (l : list Z) : Prop := Forall byte l.

Record ipv4_header_ok (ip : ipv4_header) : Prop := {
  ok_version_ihl : byte (version_ihl ip);
  ok_tos : byte (tos ip);
  ok_total_length : urange 16 (total_length ip);
  ok_identification : urange 16 (identification ip);
  ok_flags_fragment : urange 16 (flags_fragment ip);
  ok_ttl : byte (ttl ip);
  ok_protocol : byte (protocol ip);
  ok_checksum : urange 16 (checksum ip);
  ok_src_addr : urange 32 (src_addr ip);
  ok_dst_addr : urange 32 (dst_addr ip);
}.

(** The same header with another checksum field. *)
Definition with_checksum (ip : ipv4_header) (c : Z) : ipv4_header :=
  {| version_ihl := version_ihl ip; tos := tos ip;
     total_length := total_length ip; identification := identification ip;
     flags_fragment := flags_fragment ip; ttl := ttl ip;
     protocol := protocol ip; checksum := c;
     src_addr := src_addr ip; dst_addr := dst_addr ip |}.

(** Specification side: the sum of the 16-bit words, without wrap-around, and
    the one's complement residue of a sum. *)
Fixpoint word_sum (data : list Z) : Z :=
  match data with
  | a :: b :: rest => a + 256 * b + word_sum rest
  | [a] => a
  | [] => 0
  end.

Definition ones_residue (s : Z) : Z := if s =? 0 then 0 else (s - 1) mod 65535 + 1.

(** ** Byte-order lemmas *)

Lemma lor_add a b k :
  0 <= k -> 0 <= a < 2 ^ k -> Z.lor a (b * 2 ^ k) = a + b * 2 ^ k.
Proof.
  intros Hk Ha. symmetry. apply Z.add_nocarry_lor.
  rewrite <- Z.shiftl_mul_pow2 by done.
  apply Z.bits_inj'. intros n Hn. rewrite Z.land_spec, Z.bits_0.
  destruct (Z.ltb_spec n k).
  - rewrite Z.shiftl_spec_low by done. apply andb_false_r.
  - rewrite <- (Z.mod_small a (2 ^ k)) by done.
    by rewrite Z.mod_pow2_bits_high by lia.
Qed.

Lemma land_byte_mask y k :
  0 <= k -> Z.land y (255 * 2 ^ k) = (y / 2 ^ k) mod 256 * 2 ^ k.
Proof.
  intros Hk. change 256 with (2 ^ 8).
  rewrite <- Z.land_ones, <- Z.shiftr_div_pow2, <- !Z.shiftl_mul_pow2 by lia.
  change 255 with (Z.ones 8). Z.bitblast.
Qed.

(** The four bytes of a 32-bit value, least significant first. *)
Lemma bytes_of_sum a b c d :
  0 <= a < 256 -> 0 <= b < 256 -> 0 <= c < 256 -> 0 <= d < 256 ->
  let v := a + 256 * b + 65536 * c + 16777216 * d in
  v mod 256 = a /\ v / 256 mod 256 = b /\ v / 65536 mod 256 = c /\ v / 16777216 mod 256 = d.
Proof.
  intros Ha Hb Hc Hd v.
  assert (v / 256 = b + 256 * c + 65536 * d) as E1
    by (symmetry; apply (Z.div_unique_pos _ _ _ a); lia).
  assert (v / 65536 = c + 256 * d) as E2
    by (symmetry; apply (Z.div_unique_pos _ _ _ (a + 256 * b)); lia).
  assert (v / 16777216 = d) as E3
    by (symmetry; apply (Z.div_unique_pos _ _ _ (a + 256 * b + 65536 * c)); lia).
  rewrite E1, E2, E3. repeat split.
  - symmetry; apply (Z.mod_unique_pos _ _ (b + 256 * c + 65536 * d)); lia.
  - symmetry; apply (Z.mod_unique_pos _ _ (c + 256 * d)); lia.
  - symmetry; apply (Z.mod_unique_pos _ _ d); lia.
  - apply Z.mod_small; lia.
Qed.

Lemma sum_of_bytes x :
  0 <= x < 2 ^ 32 ->
  x = x mod 256 + 256 * (x / 256 mod 256) + 65536 * (x / 65536 mod 256) +
      16777216 * (x / 16777216 mod 256).
Proof.
  intros Hx.
  replace (x / 65536) with (x / 256 / 256) by (rewrite Z.div_div by lia; done).
  replace (x / 16777216) with (x / 256 / 256 / 256) by (rewrite !Z.div_div by lia; done).
  zlia.
Qed.

(** Reversal of the four bytes. *)
Lemma net_htonl_bytes x :
  0 <= x < 2 ^ 32 ->
  net_htonl x = x / 16777216 mod 256 + 256 * (x / 65536 mod 256) +
                65536 * (x / 256 mod 256) + 16777216 * (x mod 256).
Proof.
  intros Hx. unfold net_htonl, u32.
  change 0xFF with (255 * 2 ^ 0). change 0xFF00 with (255 * 2 ^ 8).
  change 0xFF0000 with (255 * 2 ^ 16). change 0xFF000000 with (255 * 2 ^ 24).
  rewrite !land_byte_mask, !Z.shiftr_div_pow2, !Z.shiftl_mul_pow2 by lia.
  change (2 ^ 0) with 1. rewrite Z.div_1_r, Z.mul_1_r.
  change (2 ^ 24) with 16777216. change (2 ^ 16) with 65536. change (2 ^ 8) with 256.
  rewrite (Z.div_div x 256 256) by lia. change (256 * 256) with 65536.
  replace ((x * 256) mod 2 ^ 32 / 65536 mod 256) with (x / 256 mod 256) by zlia.
  replace ((x * 16777216) mod 2 ^ 32 / 16777216 mod 256) with (x mod 256) by zlia.
  assert (0 <= x / 16777216 mod 256 < 256) by (apply Z.mod_pos_bound; lia).
  assert (0 <= x / 65536 mod 256 < 256) by (apply Z.mod_pos_bound; lia).
  assert (0 <= x / 256 mod 256 < 256) by (apply Z.mod_pos_bound; lia).
  assert (0 <= x mod 256 < 256) by (apply Z.mod_pos_bound; lia).
  rewrite (lor_add _ _ 8), (lor_add _ _ 16), (lor_add _ _ 24) by lia. lia.
Qed.

Lemma net_htons_bytes x :
  0 <= x < 2 ^ 16 -> net_htons x = x / 256 + 256 * (x mod 256).
Proof.
  intros Hx. unfold net_htons, u16.
  rewrite Z.shiftr_div_pow2, Z.shiftl_mul_pow2, lor_add by zlia.
  zlia.
Qed.

Lemma net_htons_range x : 0 <= net_htons x < 2 ^ 16.
Proof. unfold net_htons. apply u16_range. Qed.

Lemma net_htonl_range x : 0 <= x < 2 ^ 32 -> 0 <= net_htonl x < 2 ^ 32.
Proof.
  intros Hx. rewrite net_htonl_bytes by done.
  pose proof (Z.mod_pos_bound (x / 16777216) 256 ltac:(lia)).
  pose proof (Z.mod_pos_bound (x / 65536) 256 ltac:(lia)).
  pose proof (Z.mod_pos_bound (x / 256) 256 ltac:(lia)).
  pose proof (Z.mod_pos_bound x 256 ltac:(lia)). lia.
Qed.

Lemma net_ntohs_htons x : 0 <= x < 2 ^ 16 -> net_ntohs (net_htons x) = x.
Proof.
  intros Hx. unfold net_ntohs. rewrite (net_htons_bytes (net_htons x)) by apply net_htons_range.
  rewrite net_htons_bytes by done. zlia.
Qed.

Lemma net_ntohl_htonl x : 0 <= x < 2 ^ 32 -> net_ntohl (net_htonl x) = x.
Proof.
  intros Hx. unfold net_ntohl.
  rewrite (net_htonl_bytes (net_htonl x)) by (by apply net_htonl_range).
  rewrite net_htonl_bytes by done.
  destruct (bytes_of_sum (x / 16777216 mod 256) (x / 65536 mod 256) (x / 256 mod 256) (x mod 256))
    as (E1 & E2 & E3 & E4); try (apply Z.mod_pos_bound; lia).
  rewrite E1, E2, E3, E4. rewrite (sum_of_bytes x Hx) at 5. lia.
Qed.

#[export] Hint Rewrite net_ntohs_htons net_ntohl_htonl using lia : likeos.

(** ** Header layout *)

Lemma byte_at_app_r pre l i : byte_at (pre ++ l) (length pre + i) = byte_at l i.
Proof. unfold byte_at. by rewrite lookup_app_r, Nat.add_comm, Nat.add_sub by lia. Qed.

Lemma ld16_le16 pre v post :
  urange 16 v -> ld16 (pre ++ le16 v ++ post) (length pre) = v.
Proof.
  intros Hv. unfold ld16. rewrite <- (Nat.add_0_r (length pre)) at 1.
  rewrite !byte_at_app_r. cbn -[Z.mul Z.add Z.div Z.modulo].
  unfold urange in Hv. zlia.
Qed.

Lemma ld32_le32 pre v post :
  urange 32 v -> ld32 (pre ++ le32 v ++ post) (length pre) = v.
Proof.
  intros Hv. unfold ld32. rewrite <- (Nat.add_0_r (length pre)) at 1.
  rewrite !byte_at_app_r. cbn -[Z.mul Z.add Z.div Z.modulo].
  symmetry. by apply sum_of_bytes.
Qed.

(** Reading a header back from its packed bytes gives the header. *)
Lemma ipv4_header_of_bytes ip rest :
  ipv4_header_ok ip -> ipv4_header_of (ipv4_header_bytes ip ++ rest) = ip.
Proof.
  intros Hok. destruct ip as [vi ts tl id ff tt pr ck sa da].
  destruct Hok as [? ? Htl Hid Hff ? ? Hck Hsa Hda]; simpl in *.
  unfold ipv4_header_of, ipv4_header_bytes; simpl. f_equal; try done.
  - by apply (ld16_le16 [vi; ts]).
  - by apply (ld16_le16 ([vi; ts] ++ le16 tl)).
  - by apply (ld16_le16 ([vi; ts] ++ le16 tl ++ le16 id)).
  - by apply (ld16_le16 ([vi; ts] ++ le16 tl ++ le16 id ++ le16 ff ++ [tt; pr])).
  - by apply (ld32_le32 ([vi; ts] ++ le16 tl ++ le16 id ++ le16 ff ++ [tt; pr] ++ le16 ck)).
  - by apply (ld32_le32 ([vi; ts] ++ le16 tl ++ le16 id ++ le16 ff ++ [tt; pr] ++
                         le16 ck ++ le32 sa)).
Qed.

Lemma length_ipv4_header_bytes ip : length (ipv4_header_bytes ip) = 20%nat.
Proof. done. Qed.

(** ** Checksum lemmas *)

Lemma list_ind2 {A} (P : list A -> Prop) :
  P [] -> (forall a, P [a]) -> (forall a b l, P l -> P (a :: b :: l)) -> forall l, P l.
Proof.
  intros H0 H1 H2. fix IH 1. intros [|a [|b l]]; [done|apply H1|apply H2, IH].
Qed.

Lemma word_sum_bounds l :
  bytes l -> 0 <= word_sum l <= 65535 * ((Z.of_nat (length l) + 1) / 2).
Proof.
  induction l as [|a|a b l IH] using list_ind2; intros Hb; simpl.
  - zlia.
  - inversion Hb as [|? ? Ha]; subst. unfold byte in Ha. zlia.
  - inversion Hb as [|? ? Ha Hb']; subst. inversion Hb' as [|? ? Hb2 Hl]; subst.
    unfold byte in *. specialize (IH Hl). zlia.
Qed.

Lemma checksum_words_sum l s :
  0 <= s < 2 ^ 32 -> checksum_words l s = u32 (s + word_sum l).
Proof.
  revert s. induction l as [|a|a b l IH] using list_ind2; intros s Hs; simpl.
  - rewrite Z.add_0_r. by rewrite u32_small.
  - done.
  - rewrite IH by apply u32_range. unfold u32.
    rewrite Z.add_mod_idemp_l by lia. f_equal. lia.
Qed.

Lemma checksum_fold_step s :
  0 <= s < 2 ^ 32 ->
  u32 (Z.land s 0xFFFF + Z.shiftr s 16) = s mod 65536 + s / 65536.
Proof.
  intros Hs. change 0xFFFF with (Z.ones 16).
  rewrite Z.land_ones, Z.shiftr_div_pow2 by lia.
  change (2 ^ 16) with 65536. apply u32_small. zlia.
Qed.

Lemma checksum_fold_residue s :
  0 <= s < 2 ^ 32 -> checksum_fold 2 s = ones_residue s.
Proof.
  intros Hs. unfold ones_residue. cbn [checksum_fold].
  rewrite (checksum_fold_step s) by done.
  rewrite checksum_fold_step by zlia.
  rewrite !Z.shiftr_div_pow2 by lia. change (2 ^ 16) with 65536.
  destruct (Z.eqb_spec (s / 65536) 0).
  - destruct (Z.eqb_spec s 0); [done|]. rewrite Z.mod_small by zlia. lia.
  - destruct (Z.eqb_spec s 0) as [->|]; [done|].
    destruct (Z.eqb_spec ((s mod 65536 + s / 65536) / 65536) 0).
    + rewrite <- (Z.mod_unique_pos (s - 1) 65535 (s / 65536) (s mod 65536 + s / 65536 - 1));
        zlia.
    + rewrite <- (Z.mod_unique_pos (s - 1) 65535 (s / 65536 + 1) (s mod 65536 + s / 65536 - 65536));
        zlia.
Qed.

(** The folding loop has reached its exit test. *)
Lemma checksum_fold_exit s :
  0 <= s < 2 ^ 32 -> Z.shiftr (checksum_fold 2 s) 16 = 0.
Proof.
  intros Hs. rewrite checksum_fold_residue by done. unfold ones_residue.
  rewrite Z.shiftr_div_pow2 by lia. change (2 ^ 16) with 65536.
  case_if; [done|]. zlia.
Qed.

Lemma ipv4_checksum_residue data len :
  bytes data -> 0 <= len <= 65535 ->
  ipv4_checksum data len = 65535 - ones_residue (word_sum (take (Z.to_nat len) data)).
Proof.
  intros Hb Hl. unfold ipv4_checksum.
  assert (Hb' : bytes (take (Z.to_nat len) data)) by (by apply Forall_take).
  pose proof (word_sum_bounds _ Hb') as Hw.
  assert (Hlen : Z.of_nat (length (take (Z.to_nat len) data)) <= 65535)
    by (rewrite length_take; lia).
  assert (0 <= word_sum (take (Z.to_nat len) data) < 2 ^ 32) by zlia.
  rewrite checksum_words_sum, Z.add_0_l, u32_small, checksum_fold_residue by lia.
  unfold Z.lnot, u16, ones_residue. case_if; zlia.
Qed.

Lemma word_sum_app pre l :
  Nat.Even (length pre) -> word_sum (pre ++ l) = word_sum pre + word_sum l.
Proof.
  induction pre as [|a|a b pre IH] using list_ind2; intros [k Hk]; simpl in *; [done|lia|].
  rewrite IH by (exists (k - 1)%nat; lia). lia.
Qed.

Lemma word_sum_le16 v l : urange 16 v -> word_sum (le16 v ++ l) = v + word_sum l.
Proof.
  intros Hv. unfold le16, urange in *. cbn -[Z.mul Z.add Z.div Z.modulo]. zlia.
Qed.

Lemma ones_residue_full s : 0 <= s -> ones_residue s = 65535 <-> 0 < s /\ s mod 65535 = 0.
Proof. intros Hs. unfold ones_residue. case_if; zify_bool; zlia. Qed.

(** Acceptance test of the receive path, as a congruence. *)
Lemma ipv4_checksum_zero data len :
  bytes data -> 0 <= len <= 65535 ->
  ipv4_checksum data len = 0 <->
  0 < word_sum (take (Z.to_nat len) data) /\
  word_sum (take (Z.to_nat len) data) mod 65535 = 0.
Proof.
  intros Hb Hl. rewrite ipv4_checksum_residue by done.
  pose proof (word_sum_bounds _ (Forall_take _ (Z.to_nat len) _ Hb)).
  rewrite <- ones_residue_full by lia. lia.
Qed.

Lemma bytes_le16 v : bytes (le16 v).
Proof. repeat constructor; unfold byte; zlia. Qed.

Lemma bytes_le32 v : bytes (le32 v).
Proof. repeat constructor; unfold byte; zlia. Qed.

#[export] Hint Resolve bytes_le16 bytes_le32 : likeos.

Lemma bytes_app l k : bytes (l ++ k) <-> bytes l /\ bytes k.
Proof. apply Forall_app. Qed.

(** Splits a [bytes] goal into its elements. *)
Ltac solve_bytes :=
  repeat match goal with
  | |- bytes (_ ++ _) => apply bytes_app; split
  | |- bytes (le16 _) => apply bytes_le16
  | |- bytes (le32 _) => apply bytes_le32
  | |- bytes (_ :: _) => constructor
  | |- bytes [] => constructor
  | |- Forall _ (_ :: _) => constructor
  | |- Forall _ [] => constructor
  end; try done.

Lemma bytes_ipv4_header ip : ipv4_header_ok ip -> bytes (ipv4_header_bytes ip).
Proof.
  intros []. unfold ipv4_header_bytes. solve_bytes.
Qed.

(** The words of a header around its checksum field. *)
Lemma word_sum_header ip c :
  urange 16 c ->
  word_sum (ipv4_header_bytes (with_checksum ip c)) =
  c + word_sum (ipv4_header_bytes (with_checksum ip 0)).
Proof.
  intros Hc. unfold ipv4_header_bytes; cbn -[Z.mul Z.add Z.div Z.modulo].
  replace (0 mod 256) with 0 by done. replace (0 / 256 mod 256) with 0 by done.
  unfold urange in Hc. zlia.
Qed.

(** A header with a non-zero first byte has a positive sum. *)
Lemma word_sum_header_pos ip :
  ipv4_header_ok ip -> 0 < version_ihl ip ->
  0 < word_sum (ipv4_header_bytes (with_checksum ip 0)).
Proof.
  intros Hok Hv.
  assert (Hb : bytes (ipv4_header_bytes (with_checksum ip 0))).
  { apply bytes_ipv4_header. destruct Hok. by split. }
  pose proof (word_sum_bounds _ (Forall_drop _ 2 _ Hb)) as Hd.
  pose proof (ok_tos _ Hok) as Ht. unfold byte in Ht.
  change (word_sum (ipv4_header_bytes (with_checksum ip 0))) with
    (version_ihl ip + 256 * tos ip + word_sum (drop 2 (ipv4_header_bytes (with_checksum ip 0)))).
  lia.
Qed.

Lemma ipv4_checksum_ok ip :
  ipv4_header_ok ip -> 0 < version_ihl ip ->
  let c := ipv4_checksum (ipv4_header_bytes (with_checksum ip 0)) sizeof_ipv4_header in
  urange 16 c /\
  ipv4_checksum (ipv4_header_bytes (with_checksum ip c)) sizeof_ipv4_header = 0.
Proof.
  intros Hok Hv c.
  assert (Hc : urange 16 c) by apply u16_range.
  split; [done|].
  assert (Hb : forall k, urange 16 k -> bytes (ipv4_header_bytes (with_checksum ip k))).
  { intros k Hk. apply bytes_ipv4_header. by destruct Hok. }
  apply ipv4_checksum_zero; [by apply Hb|unfold sizeof_ipv4_header; lia|].
  change (take (Z.to_nat sizeof_ipv4_header) (ipv4_header_bytes (with_checksum ip c)))
    with (ipv4_header_bytes (with_checksum ip c)).
  rewrite word_sum_header by done.
  assert (H0 : urange 16 0) by (unfold urange; lia).
  pose proof (ipv4_checksum_residue _ sizeof_ipv4_header (Hb 0 H0)
                ltac:(unfold sizeof_ipv4_header; lia)) as Er.
  change (take (Z.to_nat sizeof_ipv4_header) (ipv4_header_bytes (with_checksum ip 0)))
    with (ipv4_header_bytes (with_checksum ip 0)) in Er.
  fold c in Er. rewrite Er.
  pose proof (word_sum_header_pos ip Hok Hv).
  unfold ones_residue. case_if; zify_bool; zlia.
Qed.

(**  The checksum the send path stores in a header makes the receive path's
    verification succeed: with [c] the checksum of the header whose checksum
    field is zero, [c] fits in 16 bits and the completed header sums to 0. *)
Theorem ipv4_checksum_roundtrip ip :
  ipv4_header_ok ip -> 0 < version_ihl ip ->
  let c := ipv4_checksum (ipv4_header_bytes (with_checksum ip 0)) sizeof_ipv4_header in
  urange 16 c /\
  ipv4_checksum (ipv4_header_bytes (with_checksum ip c)) sizeof_ipv4_header = 0.
Proof. apply ipv4_checksum_ok. Qed.

(** The checksum detects the corruption of any one 16-bit word: if two
    packets differ in one aligned word only and both pass the receive test, the
    two words are equal or are the two representations 0 and 0xFFFF of zero. *)
Theorem ipv4_checksum_detects_word pre w w' post :
  bytes pre -> bytes post -> Nat.Even (length pre) -> urange 16 w -> urange 16 w' ->
  Z.of_nat (length pre + 2 + length post) <= 65535 ->
  let len := Z.of_nat (length pre + 2 + length post) in
  ipv4_checksum (pre ++ le16 w ++ post) len = 0 ->
  ipv4_checksum (pre ++ le16 w' ++ post) len = 0 ->
  w = w' \/ (w = 0 /\ w' = 65535) \/ (w = 65535 /\ w' = 0).
Proof.
  intros Hpre Hpost Hev Hw Hw' Hlen len.
  assert (Hsum : forall k, urange 16 k ->
    ipv4_checksum (pre ++ le16 k ++ post) len = 0 ->
    (word_sum pre + (k + word_sum post)) mod 65535 = 0).
  { intros k Hk [_ H]%ipv4_checksum_zero; [|by solve_bytes|lia].
    rewrite take_ge in H by (rewrite !length_app; simpl; lia).
    by rewrite word_sum_app, word_sum_le16 in H. }
  intros H1%Hsum H2%Hsum; try done. unfold urange in *.
  apply Z.mod_divide in H1 as [q1 H1]; [|lia]. apply Z.mod_divide in H2 as [q2 H2]; [|lia].
  lia.
Qed.

Lemma ipv4_checksum_roundtrip_witness :
  let ip := {| version_ihl := 69; tos := 0; total_length := net_htons 60;
               identification := net_htons 7238; flags_fragment := net_htons 16384;
               ttl := 64; protocol := 6; checksum := 0;
               src_addr := net_htonl 2886729740; dst_addr := net_htonl 2886729738 |} in
  ipv4_checksum (ipv4_header_bytes (with_checksum ip
    (ipv4_checksum (ipv4_header_bytes (with_checksum ip 0)) 20))) 20 = 0.
Proof.
  intros ip. refine (proj2 (ipv4_checksum_roundtrip ip _ _)); [|reflexivity].
  split; split; vm_compute; congruence.
Defined.

Lemma ipv4_checksum_detects_word_witness :
  ipv4_checksum ([1; 2] ++ le16 0xFCFD ++ [1; 1]) 6 = 0 /\
  (0xFCFD = 0xFCFD \/ (0xFCFD = 0 /\ 0xFCFD = 65535) \/ (0xFCFD = 65535 /\ 0xFCFD = 0)).
Proof.
  split; [vm_compute; reflexivity|].
  apply (ipv4_checksum_detects_word [1; 2] 0xFCFD 0xFCFD [1; 1]);
    try (vm_compute; reflexivity); try (vm_compute; split; congruence);
    try (by exists 1%nat); solve_bytes; unfold byte; lia.
Defined.
