(* ===== verification/Chain.v ===== *)
(** * Linked lists through a [next] field

    The kernel links packet buffers and tasks through pointers stored in the
    objects themselves.  [chain nx p l] says that following [nx] from [p] visits
    exactly the objects of [l] and then NULL, [seg] that it visits them and then
    reaches a given object; both are shared by the files that model such lists. *)

From Stdlib Require Import ZArith Lia.
From stdpp Require Import base list gmap.
From S2P Require Import Prelude.

Section Chain.
Context {A : Type} `{EqDecision A}.

(** A NULL-terminated list. *)
Fixpoint chain (nx : A -> option A) (p : option A) (l : list A) : Prop :=
  match l with
  | [] => p = None
  | x :: l' => p = Some x /\ chain nx (nx x) l'
  end.

(** A list segment from [p] to the (exclusive) end pointer [q]. *)
Fixpoint seg (nx : A -> option A) (p : option A) (l : list A) (q : option A) : Prop :=
  match l with
  | [] => p = q
  | x :: l' => p = Some x /\ seg nx (nx x) l' q
  end.

(** [nx] with one pointer redirected. *)
Definition redirect (nx : A -> option A) (x : A) (q : option A) : A -> option A :=
  fun y => if decide (y = x) then q else nx y.

Lemma chain_ext nx nx' p l :
  (forall x, x ∈ l -> nx x = nx' x) -> chain nx p l -> chain nx' p l.
Proof.
  revert p. induction l as [|x l IH]; intros p He; simpl; [done|].
  intros [-> Hc]. split; [done|]. rewrite <- He by left.
  apply IH; [|done]. intros y Hy. apply He. by right.
Qed.

Lemma seg_ext nx nx' p l q :
  (forall x, x ∈ l -> nx x = nx' x) -> seg nx p l q -> seg nx' p l q.
Proof.
  revert p. induction l as [|x l IH]; intros p He; simpl; [done|].
  intros [-> Hc]. split; [done|]. rewrite <- He by left.
  apply IH; [|done]. intros y Hy. apply He. by right.
Qed.

Lemma chain_inj nx p l l' : chain nx p l -> chain nx p l' -> l = l'.
Proof.
  revert p l'. induction l as [|x l IH]; intros p [|y l']; simpl; [done|by intros -> [? _]|by intros [-> _]|].
  intros [-> Hc] [[= ->] Hc']. f_equal. by eapply IH.
Qed.

Lemma chain_seg nx p l : chain nx p l <-> seg nx p l None.
Proof. revert p. induction l as [|x l IH]; intros p; simpl; [done|]. by rewrite IH. Qed.

Lemma seg_app nx p l1 l2 q :
  seg nx p (l1 ++ l2) q <-> exists r, seg nx p l1 r /\ seg nx r l2 q.
Proof.
  revert p. induction l1 as [|x l1 IH]; intros p; simpl.
  - split; [by eauto|]. by intros (r & -> & H).
  - rewrite IH. split.
    + intros (-> & r & H1 & H2). eauto.
    + intros (r & [-> H1] & H2). eauto.
Qed.

Lemma chain_app nx p l1 l2 :
  chain nx p (l1 ++ l2) <-> exists r, seg nx p l1 r /\ chain nx r l2.
Proof.
  rewrite chain_seg, seg_app. by setoid_rewrite chain_seg.
Qed.

(** The last node of a chain points to NULL. *)
Lemma chain_last nx p l x : chain nx p (l ++ [x]) -> nx x = None.
Proof. intros (r & _ & _ & H)%chain_app. done. Qed.

Lemma redirect_eq nx x q : redirect nx x q x = q.
Proof. unfold redirect. by rewrite decide_True. Qed.

Lemma redirect_ne nx x q y : y <> x -> redirect nx x q y = nx y.
Proof. intros. unfold redirect. by rewrite decide_False. Qed.

Lemma chain_redirect nx x q p l : x ∉ l -> chain nx p l -> chain (redirect nx x q) p l.
Proof.
  intros Hx. apply chain_ext. intros y Hy. rewrite redirect_ne; [done|]. by intros ->.
Qed.

Lemma seg_redirect nx x q p l r : x ∉ l -> seg nx p l r -> seg (redirect nx x q) p l r.
Proof.
  intros Hx. apply seg_ext. intros y Hy. rewrite redirect_ne; [done|]. by intros ->.
Qed.

(** Pushing at the head of a chain. *)
Lemma chain_push nx x p l : x ∉ l -> chain nx p l -> chain (redirect nx x p) (Some x) (x :: l).
Proof. intros Hx Hc. simpl. rewrite redirect_eq. split; [done|]. by apply chain_redirect. Qed.

(** Linking a fresh node after the last one. *)
Lemma chain_snoc nx x p l y :
  x ∉ l ++ [y] -> NoDup (l ++ [y]) -> nx x = None -> chain nx p (l ++ [y]) ->
  chain (redirect nx y (Some x)) p ((l ++ [y]) ++ [x]).
Proof.
  intros Hx Hnd Hnx (r & Hs & [-> _])%chain_app.
  apply NoDup_app in Hnd as (_ & Hy & _).
  assert (Hyl : y ∉ l) by (intros Hl; apply (Hy y Hl); left).
  assert (Hxy : x <> y) by set_solver.
  rewrite <- app_assoc. apply chain_app. exists (Some y).
  split; [by apply seg_redirect|]. simpl. rewrite redirect_eq.
  by rewrite redirect_ne.
Qed.

(** Unlinking the node after a prefix. *)
Lemma chain_unlink nx p l1 y x l2 :
  NoDup (l1 ++ y :: x :: l2) -> chain nx p (l1 ++ y :: x :: l2) ->
  chain (redirect nx y (nx x)) p (l1 ++ y :: l2).
Proof.
  intros Hnd (r & Hs & -> & Hyx & Hc)%chain_app.
  apply NoDup_app in Hnd as (_ & Hd & Hnd2).
  apply NoDup_cons in Hnd2 as [Hy _].
  apply chain_app. exists (Some y). split.
  - apply seg_redirect; [|done]. intros Hl. apply (Hd y Hl). left.
  - simpl. rewrite redirect_eq. split; [done|]. apply chain_redirect; [set_solver|done].
Qed.

End Chain.
