(* ===== verification/Route.v ===== *)
(** * The IP routing table ([kernel/net/route.c])

    A static table of [MAX_ROUTES] slots.  Each function runs under
    [route_lock], so it is one atomic step of the table; the model is state
    passing over the table.  The specification is a finite map from
    (network, netmask) to the route's value. *)

From Stdlib Require Import ZArith Lia Bool.
From stdpp Require Import base list gmap.
From S2P Require Import Prelude Wire.

Definition RTF_UP : Z := 0x0001.
Definition RTF_GATEWAY : Z := 0x0002.
Definition RTF_REJECT : Z := 0x0200.
Definition MAX_ROUTES : nat := 32.
Definition ENOSPC : Z := 28.
Definition ESRCH : Z := 3.

Record rt_entry := mk_rt_entry {
  rt_dst_net : Z;
  rt_netmask : Z;
  rt_gateway : Z;
  rt_dev : devptr;
  rt_metric : Z;
  rt_flags : Z;
  rt_active : bool;
}.

Abbreviation route_table := (list rt_entry).

(** [while (mask & 0x80000000) { bits++; mask <<= 1; }] *)
Fixpoint mask_len_loop (fuel : nat) (mask bits : Z) : Z :=
  match fuel with
  | O => bits
  | S fuel' =>
      if has mask 0x80000000 then mask_len_loop fuel' (u32 (Z.shiftl mask 1)) (bits + 1)
      else bits
  end.

(** A 32-bit mask leaves the loop after at most 32 rounds ([mask_len_exits]). *)
Definition mask_len (mask : Z) : Z := mask_len_loop 33 mask 0.

Definition route_deactivate (e : rt_entry) : rt_entry :=
  {| rt_dst_net := rt_dst_net e; rt_netmask := rt_netmask e;
     rt_gateway := rt_gateway e; rt_dev := rt_dev e;
     rt_metric := rt_metric e; rt_flags := rt_flags e; rt_active := false |}.

Definition route_init (t : route_table) : route_table :=
  map route_deactivate t.

(** The duplicate test of [route_add] and the match of [route_del]. *)
Definition route_same (dst_net nmask : Z) (e : rt_entry) : bool :=
  rt_active e && (rt_dst_net e =? dst_net) && (rt_netmask e =? nmask).

Definition route_add (t : route_table) (dst_net nmask gw : Z) (dev : devptr)
    (metric flags : Z) : route_table * Z :=
  match find_idx (route_same dst_net nmask) t with
  | Some i =>
      match t !! i with
      | Some e =>
          (<[i := {| rt_dst_net := rt_dst_net e; rt_netmask := rt_netmask e;
                     rt_gateway := gw; rt_dev := dev; rt_metric := metric;
                     rt_flags := flags; rt_active := rt_active e |}]> t, 0)
      | None => (t, 0)
      end
  | None =>
      match find_idx (fun e => negb (rt_active e)) t with
      | Some i =>
          (<[i := {| rt_dst_net := dst_net; rt_netmask := nmask;
                     rt_gateway := gw; rt_dev := dev; rt_metric := metric;
                     rt_flags := flags; rt_active := true |}]> t, 0)
      | None => (t, - ENOSPC)
      end
  end.

Definition route_del (t : route_table) (dst_net nmask gw : Z) : route_table * Z :=
  match find_idx (fun e => route_same dst_net nmask e &&
                           ((gw =? 0) || (rt_gateway e =? gw))) t with
  | Some i =>
      match t !! i with
      | Some e => (<[i := route_deactivate e]> t, 0)
      | None => (t, 0)
      end
  | None => (t, - ESRCH)
  end.

(** The candidate test of the lookup loop. *)
Definition route_usable (dst_ip : Z) (e : rt_entry) : bool :=
  rt_active e && has (rt_flags e) RTF_UP && negb (has (rt_flags e) RTF_REJECT) &&
  (Z.land dst_ip (rt_netmask e) =? rt_dst_net e).

(** The lookup loop, with its three accumulators; [best] is [None] for -1. *)
Fixpoint route_scan (dst_ip : Z) (t : route_table) (i : nat)
    (best : option nat) (best_prefix best_metric : Z) : option nat :=
  match t with
  | [] => best
  | e :: t' =>
      if route_usable dst_ip e then
        let prefix := mask_len (rt_netmask e) in
        if (best_prefix <? prefix) ||
           ((prefix =? best_prefix) && (rt_metric e <? best_metric))
        then route_scan dst_ip t' (S i) (Some i) prefix (rt_metric e)
        else route_scan dst_ip t' (S i) best best_prefix best_metric
      else route_scan dst_ip t' (S i) best best_prefix best_metric
  end.

(** Result: the device and the value stored in [*next_hop_out]. *)
Definition route_lookup (t : route_table) (dst_ip : Z) : devptr * Z :=
  match route_scan dst_ip t 0 None (-1) 0xFFFFFFFF with
  | None => (None, dst_ip)
  | Some best =>
      match t !! best with
      | Some e =>
          (rt_dev e, if has (rt_flags e) RTF_GATEWAY then rt_gateway e else dst_ip)
      | None => (None, dst_ip)
      end
  end.

(** [route_get_table]: the entries copied out; [count] is the list's length. *)
Fixpoint route_get_table_loop (t : route_table) (count max_entries : Z) : list rt_entry :=
  match t with
  | [] => []
  | e :: t' =>
      if count <? max_entries then
        if rt_active e then e :: route_get_table_loop t' (count + 1) max_entries
        else route_get_table_loop t' count max_entries
      else []
  end.

Definition route_get_table (t : route_table) (max_entries : Z) : list rt_entry * Z :=
  let out := route_get_table_loop t 0 max_entries in (out, Z.of_nat (length out)).

(** The record copied to userspace; [ri_dev_name] is the string up to its NUL. *)
Record net_route_info := mk_net_route_info {
  ri_dst_net : Z;
  ri_netmask : Z;
  ri_gateway : Z;
  ri_flags : Z;
  ri_metric : Z;
  ri_dev_name : list Z;
}.

(** [while (n[j] && j < 15) ...]: at most 15 characters of the name. *)
Definition route_dev_name (devs : gmap nat net_device) (d : devptr) : list Z :=
  match d ≫= (devs !!.) with
  | Some dev => match name dev with Some n => take 15 n | None => [42] end
  | None => [42]
  end.

Fixpoint net_get_route_table_loop (devs : gmap nat net_device) (t : route_table)
    (count max_entries : Z) : list net_route_info :=
  match t with
  | [] => []
  | e :: t' =>
      if count <? max_entries then
        if rt_active e then
          {| ri_dst_net := rt_dst_net e; ri_netmask := rt_netmask e;
             ri_gateway := rt_gateway e; ri_flags := rt_flags e;
             ri_metric := u16 (rt_metric e);
             ri_dev_name := route_dev_name devs (rt_dev e) |}
          :: net_get_route_table_loop devs t' (count + 1) max_entries
        else net_get_route_table_loop devs t' count max_entries
      else []
  end.

Definition net_get_route_table (devs : gmap nat net_device) (t : route_table)
    (max_entries : Z) : list net_route_info * Z :=
  let out := net_get_route_table_loop devs t 0 max_entries in
  (out, Z.of_nat (length out)).

(** ** Invariant and specification *)

(** The table has its fixed size and no two active slots share a key. *)
Definition route_unique_keys (t : route_table) : Prop :=
  forall i j e e',
    t !! i = Some e -> t !! j = Some e' -> rt_active e = true -> rt_active e' = true ->
    rt_dst_net e = rt_dst_net e' -> rt_netmask e = rt_netmask e' -> i = j.

Record route_ok (t : route_table) : Prop := {
  route_size : length t = MAX_ROUTES;
  route_unique : route_unique_keys t;
}.

(** The routes as a map: key (network, netmask), value
    (gateway, device, metric, flags). *)
Abbreviation route_map := (gmap (Z * Z) (Z * devptr * Z * Z)).

Definition route_value (e : rt_entry) : Z * devptr * Z * Z :=
  (rt_gateway e, rt_dev e, rt_metric e, rt_flags e).

Definition route_key (e : rt_entry) : Z * Z := (rt_dst_net e, rt_netmask e).

Definition route_abs (t : route_table) : route_map :=
  list_to_map ((fun e => (route_key e, route_value e)) <$>
               filter (fun e => rt_active e = true) t).

(** [e] is at least as good a route as [e']: longer prefix, then lower metric. *)
Definition route_better (e e' : rt_entry) : Prop :=
  mask_len (rt_netmask e') < mask_len (rt_netmask e) \/
  (mask_len (rt_netmask e') = mask_len (rt_netmask e) /\ rt_metric e <= rt_metric e').

(** The loop invariant: [best] is the best candidate of the slots before [i]. *)
Definition scan_inv (dst_ip : Z) (pre : route_table) (best : option nat) (bp bm : Z) : Prop :=
  match best with
  | None => bp = -1 /\ forall j e, pre !! j = Some e -> route_usable dst_ip e = false
  | Some b => exists e, pre !! b = Some e /\ route_usable dst_ip e = true /\
      bp = mask_len (rt_netmask e) /\ bm = rt_metric e /\
      forall j e', pre !! j = Some e' -> route_usable dst_ip e' = true -> route_better e e'
  end.

(** ** Prefix length *)

Lemma mask_len_loop_bits n mask bits :
  0 <= mask < 2 ^ 32 ->
  bits <= mask_len_loop n mask bits <= bits + Z.of_nat n.
Proof.
  revert mask bits. induction n as [|n IH]; intros mask bits Hm; cbn [mask_len_loop]; [lia|].
  case_if; [|lia].
  pose proof (IH (u32 (Z.shiftl mask 1)) (bits + 1) (u32_range _)). lia.
Qed.

(** The top-bit test of the loop, as an order test. *)
Lemma has_top_bit mask : 0 <= mask < 2 ^ 32 -> has mask 0x80000000 = (2 ^ 31 <=? mask).
Proof.
  intros Hm. unfold has. change 0x80000000 with (Z.shiftl 1 31).
  assert (E : Z.land mask (Z.shiftl 1 31) = Z.b2z (Z.testbit mask 31) * 2 ^ 31).
  { rewrite <- Z.shiftl_mul_pow2 by lia. apply Z.bits_inj'. intros n Hn.
    rewrite Z.land_spec, !Z.shiftl_spec by lia.
    destruct (Z.eqb_spec n 31) as [->|Hne].
    - simpl (31 - 31). by destruct (Z.testbit mask 31).
    - destruct (Z.ltb_spec n 31).
      + by rewrite !(Z.testbit_neg_r _ (n - 31)), andb_false_r by lia.
      + rewrite (Z.bits_above_log2 1), andb_false_r by (simpl; lia).
        destruct (Z.testbit mask 31); simpl Z.b2z.
        * rewrite Z.bits_above_log2; [done|lia|simpl; lia].
        * by rewrite Z.bits_0. }
  rewrite E. rewrite Z.testbit_odd, Z.shiftr_div_pow2 by lia.
  destruct (Z.leb_spec (2 ^ 31) mask).
  - assert (mask / 2 ^ 31 = 1) as -> by (symmetry; apply (Z.div_unique_pos _ _ _ (mask - 2 ^ 31)); lia).
    done.
  - rewrite Z.div_small by lia. done.
Qed.

(** [mask_len] of the contiguous mask of length [p] is [p]. *)
Lemma mask_len_loop_contiguous p n bits :
  (p <= 32)%nat -> (p < n)%nat ->
  mask_len_loop n (2 ^ 32 - 2 ^ (32 - Z.of_nat p)) bits = bits + Z.of_nat p.
Proof.
  revert n bits. induction p as [|p IH]; intros n bits Hp Hn.
  - destruct n as [|n]; [lia|]. change (2 ^ 32 - 2 ^ (32 - Z.of_nat 0)) with 0.
    cbn [mask_len_loop]. rewrite has_top_bit by lia. simpl. lia.
  - destruct n as [|n]; [lia|]. cbn [mask_len_loop].
    set (k := 2 ^ (32 - Z.of_nat (S p))).
    assert (Hk : 2 ^ (32 - Z.of_nat p) = 2 * k).
    { unfold k. rewrite <- Z.pow_succ_r by lia. f_equal. lia. }
    assert (0 < k) by (apply Z.pow_pos_nonneg; lia).
    assert (Hk2 : 2 * k <= 2 ^ 32) by (rewrite <- Hk; apply Z.pow_le_mono_r; lia).
    rewrite has_top_bit by lia.
    destruct (Z.leb_spec (2 ^ 31) (2 ^ 32 - k)); [|lia].
    replace (u32 (Z.shiftl (2 ^ 32 - k) 1)) with (2 ^ 32 - 2 ^ (32 - Z.of_nat p)).
    + rewrite IH by lia. lia.
    + unfold u32. rewrite Z.shiftl_mul_pow2 by lia. rewrite Hk.
      apply (Z.mod_unique_pos _ _ 1); lia.
Qed.

Lemma mask_len_contiguous p :
  (p <= 32)%nat -> mask_len (2 ^ 32 - 2 ^ (32 - Z.of_nat p)) = Z.of_nat p.
Proof. intros Hp. unfold mask_len. rewrite mask_len_loop_contiguous; lia. Qed.

(** After [j] rounds the low [j] bits are zero, so the loop exits by round 32
    whatever the mask. *)
Lemma mask_len_loop_exits n j mask bits :
  0 <= mask < 2 ^ 32 -> mask mod 2 ^ Z.of_nat j = 0 -> (j <= 32)%nat -> (32 <= n + j)%nat ->
  mask_len_loop (S n) mask bits = mask_len_loop (S (S n)) mask bits.
Proof.
  revert j mask bits. induction n as [|n IH]; intros j mask bits Hm Hj Hj32 Hn.
  - assert (j = 32)%nat as -> by lia.
    assert (mask = 0) as -> by (rewrite Z.mod_small in Hj by (simpl; lia); done). done.
  - cbn [mask_len_loop]. destruct (has mask 0x80000000) eqn:E; [|done].
    destruct (decide (j = 32)%nat) as [->|].
    { rewrite Z.mod_small in Hj by (simpl; lia). subst mask. done. }
    apply (IH (S j)); [apply u32_range| |lia|lia].
    unfold u32. rewrite Z.shiftl_mul_pow2 by lia.
    apply Z.mod_divide; [lia|]. apply Z.mod_divide in Hj; [|lia].
    destruct Hj as [q ->]. exists (q mod 2 ^ (32 - Z.of_nat (S j))).
    replace (2 ^ 32) with (2 ^ (32 - Z.of_nat (S j)) * 2 ^ Z.of_nat (S j))
      by (rewrite <- Z.pow_add_r by lia; f_equal; lia).
    rewrite <- Z.mul_mod_distr_r by lia. f_equal.
    rewrite Nat2Z.inj_succ, Z.pow_succ_r by lia. lia.
Qed.

Lemma mask_len_exits mask bits :
  0 <= mask < 2 ^ 32 -> forall k, mask_len_loop (33 + k) mask bits = mask_len_loop 33 mask bits.
Proof.
  intros Hm k. induction k as [|k IH]; [done|].
  rewrite <- IH. replace (33 + S k)%nat with (S (S (32 + k))) by lia.
  symmetry. apply (mask_len_loop_exits (32 + k) 0); try lia. simpl. apply Z.mod_1_r.
Qed.

(** ** Lookup *)

Lemma route_better_refl e : route_better e e.
Proof. unfold route_better; lia. Qed.

Lemma route_better_trans e1 e2 e3 : route_better e1 e2 -> route_better e2 e3 -> route_better e1 e3.
Proof. unfold route_better; lia. Qed.

Lemma mask_len_nonneg mask : 0 <= mask < 2 ^ 32 -> 0 <= mask_len mask.
Proof. intros Hm. pose proof (mask_len_loop_bits 33 mask 0 Hm). unfold mask_len. lia. Qed.

(** A slot that is not a candidate, or not better, leaves [best] in place. *)
Lemma scan_inv_keep dst_ip pre e best bp bm :
  scan_inv dst_ip pre best bp bm ->
  (route_usable dst_ip e = true ->
   match best with
   | None => False
   | Some _ => mask_len (rt_netmask e) < bp \/ (mask_len (rt_netmask e) = bp /\ bm <= rt_metric e)
   end) ->
  scan_inv dst_ip (pre ++ [e]) best bp bm.
Proof.
  intros Hinv He. destruct best as [b|]; simpl in *.
  - destruct Hinv as (x & Hx & Hu & -> & -> & Hall). exists x.
    split; [by apply lookup_app_l_Some|]. repeat split; try done.
    intros j e' [Hj|[_ Hj]]%lookup_app_Some Hu'; [by eapply Hall|].
    apply list_lookup_singleton_Some in Hj as [_ <-].
    specialize (He Hu'). unfold route_better. lia.
  - destruct Hinv as [-> Hall]. split; [done|].
    intros j e' [Hj|[_ Hj]]%lookup_app_Some; [by eapply Hall|].
    apply list_lookup_singleton_Some in Hj as [_ <-].
    destruct (route_usable dst_ip e); [destruct He; done|done].
Qed.

(** A better candidate replaces [best]. *)
Lemma scan_inv_replace dst_ip pre e best bp bm :
  scan_inv dst_ip pre best bp bm -> route_usable dst_ip e = true ->
  bp < mask_len (rt_netmask e) \/ (mask_len (rt_netmask e) = bp /\ rt_metric e < bm) ->
  (best = None -> 0 <= mask_len (rt_netmask e)) ->
  scan_inv dst_ip (pre ++ [e]) (Some (length pre)) (mask_len (rt_netmask e)) (rt_metric e).
Proof.
  intros Hinv Hu Hlt Hpos. simpl. exists e.
  split; [by rewrite lookup_app_r, Nat.sub_diag by lia|]. repeat split; try done.
  intros j e' [Hj|[_ Hj]]%lookup_app_Some Hu'.
  - destruct best as [b|]; simpl in Hinv.
    + destruct Hinv as (x & _ & _ & -> & -> & Hall).
      eapply route_better_trans; [|by eapply Hall]. unfold route_better. lia.
    + destruct Hinv as [_ Hall]. by rewrite (Hall _ _ Hj) in Hu'.
  - apply list_lookup_singleton_Some in Hj as [_ <-]. apply route_better_refl.
Qed.

Lemma route_scan_spec dst_ip t pre best bp bm :
  (forall e, e ∈ t -> urange 32 (rt_netmask e)) ->
  scan_inv dst_ip pre best bp bm ->
  exists bp' bm',
    scan_inv dst_ip (pre ++ t) (route_scan dst_ip t (length pre) best bp bm) bp' bm'.
Proof.
  revert pre best bp bm. induction t as [|e t IH]; intros pre best bp bm Hr Hinv.
  - rewrite app_nil_r. eauto.
  - assert (Hm : 0 <= mask_len (rt_netmask e)) by (apply mask_len_nonneg, Hr; left).
    assert (Hr' : forall e', e' ∈ t -> urange 32 (rt_netmask e')) by (intros; apply Hr; by right).
    replace (pre ++ e :: t) with ((pre ++ [e]) ++ t) by (by rewrite <- app_assoc).
    cbn [route_scan].
    replace (S (length pre)) with (length (pre ++ [e])) by (rewrite length_app; simpl; lia).
    destruct (route_usable dst_ip e) eqn:Hu; cbn [negb].
    + case_if.
      * apply IH; [done|]. eapply scan_inv_replace; try done.
        apply orb_true_iff in E as [E|E]; zify_bool; lia.
      * apply IH; [done|]. apply scan_inv_keep; [done|]. intros _. zify_bool.
        destruct best as [b|]; simpl in Hinv.
        -- apply andb_false_iff in H0 as [?|?]; zify_bool; lia.
        -- destruct Hinv as [-> _]. lia.
    + apply IH; [done|]. apply scan_inv_keep; [done|]. congruence.
Qed.

(** C22.  Longest-prefix match: a lookup returns no route exactly when no active,
    up, non-reject entry matches the destination; otherwise it returns the
    device and next hop of a matching entry with the longest prefix and, among
    those, the least metric.  The next hop is the gateway of a gateway route
    and the destination itself otherwise. *)
Theorem route_lookup_longest_prefix t dst_ip :
  (forall e, e ∈ t -> urange 32 (rt_netmask e)) ->
  ((forall e, e ∈ t -> route_usable dst_ip e = false) /\
     route_lookup t dst_ip = (None, dst_ip)) \/
  exists e, e ∈ t /\ route_usable dst_ip e = true /\
    (forall e', e' ∈ t -> route_usable dst_ip e' = true -> route_better e e') /\
    route_lookup t dst_ip =
      (rt_dev e, if has (rt_flags e) RTF_GATEWAY then rt_gateway e else dst_ip).
Proof.
  intros Hr. destruct (route_scan_spec dst_ip t [] None (-1) 0xFFFFFFFF) as (bp & bm & Hs); [done| |].
  { split; [done|]. by intros j e Hj. }
  unfold route_lookup. simpl app in Hs. simpl length in Hs.
  destruct (route_scan dst_ip t 0 None (-1) 0xFFFFFFFF) as [b|]; simpl in Hs.
  - right. destruct Hs as (e & He & Hu & _ & _ & Hall). exists e. rewrite He.
    repeat split; try done; [by apply list_elem_of_lookup_2 in He|].
    intros e' [j Hj]%list_elem_of_lookup Hu'. by eapply Hall.
  - left. destruct Hs as [_ Hall]. split; [|done].
    intros e [j Hj]%list_elem_of_lookup. by eapply Hall.
Qed.

Lemma route_lookup_longest_prefix_witness :
  let t := [mk_rt_entry 0 0 0x0A000001 (Some 1%nat) 5 3 true;
            mk_rt_entry 0x0A000000 0xFF000000 0 (Some 2%nat) 1 1 true;
            mk_rt_entry 0x0A010000 0xFFFF0000 0 (Some 3%nat) 1 0x201 true] in
  (forall e, e ∈ t -> urange 32 (rt_netmask e)) /\
  (((forall e, e ∈ t -> route_usable 0x0A010203 e = false) /\
     route_lookup t 0x0A010203 = (None, 0x0A010203)) \/
   exists e, e ∈ t /\ route_usable 0x0A010203 e = true /\
     (forall e', e' ∈ t -> route_usable 0x0A010203 e' = true -> route_better e e') /\
     route_lookup t 0x0A010203 =
       (rt_dev e, if has (rt_flags e) RTF_GATEWAY then rt_gateway e else 0x0A010203)).
Proof.
  intros t. assert (H : forall e, e ∈ t -> urange 32 (rt_netmask e)).
  { apply Forall_forall. repeat (apply Forall_cons; split; [vm_compute; split; congruence|]).
    by apply Forall_nil. }
  split; [exact H|]. exact (route_lookup_longest_prefix t 0x0A010203 H).
Defined.

(** ** The table as a map *)

Lemma route_same_spec d m e :
  route_same d m e = true <-> rt_active e = true /\ rt_dst_net e = d /\ rt_netmask e = m.
Proof. unfold route_same. rewrite !andb_true_iff, !Z.eqb_eq. tauto. Qed.

Lemma route_keys_NoDup t :
  route_unique_keys t -> NoDup (route_key <$> filter (fun e => rt_active e = true) t).
Proof.
  induction t as [|a t IH]; intros Hu; [constructor|].
  assert (Hu' : route_unique_keys t).
  { intros i j e e' Hi Hj Ha Ha' Hd Hm. assert (S i = S j) by (by eapply (Hu (S i) (S j))). lia. }
  rewrite filter_cons. case_decide as Ha; [|by apply IH].
  simpl. apply NoDup_cons. split; [|by apply IH].
  intros (e & He & [Hact [i Hi]%list_elem_of_lookup]%list_elem_of_filter)%list_elem_of_fmap.
  injection He as Hd Hm. assert (0 = S i)%nat; [|lia]. by eapply (Hu 0%nat (S i)).
Qed.

Lemma route_abs_lookup t k v :
  route_unique_keys t ->
  route_abs t !! k = Some v <->
  exists i e, t !! i = Some e /\ rt_active e = true /\ route_key e = k /\ route_value e = v.
Proof.
  intros Hu. unfold route_abs. rewrite <- elem_of_list_to_map.
  - rewrite list_elem_of_fmap. split.
    + intros (e & [= -> ->] & [Ha [i Hi]%list_elem_of_lookup]%list_elem_of_filter). eauto 6.
    + intros (i & e & Hi & Ha & <- & <-). exists e. split; [done|].
      apply list_elem_of_filter. split; [done|]. by eapply list_elem_of_lookup_2.
  - rewrite <- list_fmap_compose. by apply (route_keys_NoDup t).
Qed.

(** Replacing slot [i], whose key is not that of another active slot. *)
Lemma route_set_unique t i e :
  route_unique_keys t ->
  (rt_active e = true ->
   forall j e', t !! j = Some e' -> rt_active e' = true -> route_key e' = route_key e -> j = i) ->
  route_unique_keys (<[i := e]> t).
Proof.
  intros Hu He j k x y Hj Hk Hx Hy Hd Hm.
  apply list_lookup_insert_Some in Hj as [(<- & -> & _)|[Hij Hj]];
  apply list_lookup_insert_Some in Hk as [(<- & -> & _)|[Hik Hk]]; [done| | |].
  - symmetry. eapply He; try done. unfold route_key. congruence.
  - eapply He; try done. unfold route_key. congruence.
  - by eapply (Hu j k).
Qed.

(** Storing an active entry [e] in slot [i] is a map insertion when slot [i] is
    free or already holds [e]'s key. *)
Lemma route_set_abs t i e old :
  route_unique_keys t -> t !! i = Some old -> rt_active e = true ->
  (rt_active old = true -> route_key old = route_key e) ->
  (forall j e', t !! j = Some e' -> rt_active e' = true -> route_key e' = route_key e -> j = i) ->
  route_abs (<[i := e]> t) = <[route_key e := route_value e]> (route_abs t).
Proof.
  intros Hu Hold Ha Hk Hj.
  assert (Hu' : route_unique_keys (<[i := e]> t)) by (by apply route_set_unique).
  assert (Hlt := lookup_lt_Some _ _ _ Hold).
  apply map_eq. intros k. apply option_eq. intros v.
  rewrite route_abs_lookup by done. rewrite lookup_insert_Some, route_abs_lookup by done. split.
  - intros (j & x & Hx & Hax & <- & <-).
    apply list_lookup_insert_Some in Hx as [(<- & <- & _)|[Hij Hx]]; [by left|].
    right. split; [|eauto 6]. intros Hke. apply Hij. symmetry. by apply (Hj j x).
  - intros [[<- <-]|[Hne (j & x & Hx & Hax & <- & <-)]].
    + exists i, e. by rewrite list_lookup_insert_eq.
    + exists j, x. rewrite list_lookup_insert_ne; [done|]. intros <-.
      apply Hne. rewrite Hold in Hx. injection Hx as ->. by rewrite Hk.
Qed.

(** Deactivating slot [i] is a map deletion. *)
Lemma route_clear_abs t i e :
  route_unique_keys t -> t !! i = Some e -> rt_active e = true ->
  route_abs (<[i := route_deactivate e]> t) = delete (route_key e) (route_abs t).
Proof.
  intros Hu He Ha.
  assert (Hu' : route_unique_keys (<[i := route_deactivate e]> t)) by (by apply route_set_unique).
  apply map_eq. intros k. apply option_eq. intros v.
  rewrite route_abs_lookup by done. rewrite lookup_delete_Some, route_abs_lookup by done. split.
  - intros (j & x & Hx & Hax & <- & <-).
    apply list_lookup_insert_Some in Hx as [(<- & <- & _)|[Hij Hx]]; [done|].
    split; [|eauto 6]. intros Hke. apply Hij. unfold route_key in Hke. injection Hke as ??.
    by eapply (Hu i j).
  - intros [Hne (j & x & Hx & Hax & <- & <-)].
    exists j, x. rewrite list_lookup_insert_ne; [done|]. intros <-. congruence.
Qed.

(**  [route_add] refines map insertion: it keeps the table well formed, and
    either succeeds with the new route as the only one of its key and every
    other route unchanged, or fails with [-ENOSPC], which happens only when all
    slots are taken by other keys, and changes nothing. *)
Theorem route_add_refines t d m gw dev metric flags :
  route_ok t ->
  let '(t', r) := route_add t d m gw dev metric flags in
  route_ok t' /\
  ((r = 0 /\ route_abs t' = <[(d, m) := (gw, dev, metric, flags)]> (route_abs t)) \/
   (r = - ENOSPC /\ t' = t /\ route_abs t !! (d, m) = None /\
    forall e, e ∈ t -> rt_active e = true)).
Proof.
  intros [Hsz Hu]. unfold route_add.
  destruct (find_idx (route_same d m) t) as [i|] eqn:Ei.
  - apply find_idx_Some in Ei as (e & He & Hs & _). rewrite He.
    apply route_same_spec in Hs as (Ha & Hd & Hm).
    set (e' := {| rt_dst_net := rt_dst_net e |}).
    assert (Hk : forall j x, t !! j = Some x -> rt_active x = true -> route_key x = route_key e' -> j = i).
    { intros j x Hx Hax [= ??]. by eapply (Hu j i). }
    split; [split; [by rewrite length_insert|by apply route_set_unique]|].
    left. split; [done|]. rewrite (route_set_abs t i e' e) by done.
    unfold route_key, route_value; simpl. by rewrite Hd, Hm.
  - pose proof (proj1 (find_idx_None _ _) Ei) as Hnone.
    assert (Hfresh : forall j x, t !! j = Some x -> rt_active x = true -> route_key x <> (d, m)).
    { intros j x Hx Hax [= ??]. specialize (Hnone j x Hx).
      by rewrite (proj2 (route_same_spec d m x)) in Hnone. }
    destruct (find_idx (fun e => negb (rt_active e)) t) as [i|] eqn:Ef.
    + apply find_idx_Some in Ef as (e & He & Hs & _). apply negb_true_iff in Hs.
      set (e' := {| rt_dst_net := d |}).
      assert (Hk : forall j x, t !! j = Some x -> rt_active x = true -> route_key x = route_key e' -> j = i).
      { intros j x Hx Hax Hkx. by destruct (Hfresh j x). }
      split; [split; [by rewrite length_insert|by apply route_set_unique]|].
      left. split; [done|]. rewrite (route_set_abs t i e' e); try done. congruence.
    + split; [done|]. right. repeat split.
      * apply eq_None_not_Some. intros [v (j & x & Hx & Hax & Hk & _)%route_abs_lookup]; [|done].
        by eapply Hfresh.
      * intros e [j Hj]%list_elem_of_lookup.
        pose proof (proj1 (find_idx_None _ _) Ef j e Hj) as Hact. by apply negb_false_iff in Hact.
Qed.

(** A table with no active slot is well formed and denotes the empty map. *)
Lemma route_inactive_ok t :
  length t = MAX_ROUTES -> (forall e, e ∈ t -> rt_active e = false) ->
  route_ok t /\ route_abs t = ∅.
Proof.
  intros Hl Ha.
  assert (Hu : route_unique_keys t).
  { intros i j e e' Hi _ Hact. rewrite (Ha e) in Hact; [done|]. by eapply list_elem_of_lookup_2. }
  split; [done|]. apply map_empty. intros k. apply eq_None_not_Some.
  intros [v (i & e & He & Hact & _)%route_abs_lookup]; [|done].
  rewrite (Ha e) in Hact; [done|]. by eapply list_elem_of_lookup_2.
Qed.

Lemma route_init_ok t :
  length t = MAX_ROUTES -> route_ok (route_init t) /\ route_abs (route_init t) = ∅.
Proof.
  intros Hl. apply route_inactive_ok; [by unfold route_init; rewrite length_map|].
  intros e (x & -> & _)%list_elem_of_fmap. done.
Qed.

(**  [route_del] refines map deletion: it keeps the table well formed, and
    either removes the route of the given key (whose gateway is the given one,
    or any when the given gateway is 0) and leaves the others alone, or fails
    with [-ESRCH], which happens exactly when there is no such route, and
    changes nothing. *)
Theorem route_del_refines t d m gw :
  route_ok t ->
  let '(t', r) := route_del t d m gw in
  route_ok t' /\
  ((r = 0 /\ route_abs t' = delete (d, m) (route_abs t) /\
    exists g dev metric flags, route_abs t !! (d, m) = Some (g, dev, metric, flags) /\
      (gw = 0 \/ g = gw)) \/
   (r = - ESRCH /\ t' = t /\
    forall g dev metric flags, route_abs t !! (d, m) = Some (g, dev, metric, flags) ->
      gw <> 0 /\ g <> gw)).
Proof.
  intros [Hsz Hu]. unfold route_del. destruct (find_idx _ t) as [i|] eqn:Ei.
  - apply find_idx_Some in Ei as (e & He & Hs & _). rewrite He.
    apply andb_true_iff in Hs as [(Ha & Hd & Hm)%route_same_spec Hg].
    assert (Hk : route_key e = (d, m)) by (unfold route_key; congruence).
    split; [split; [by rewrite length_insert|by apply route_set_unique]|].
    left. split; [done|]. rewrite (route_clear_abs t i e), Hk by done. split; [done|].
    exists (rt_gateway e), (rt_dev e), (rt_metric e), (rt_flags e). split.
    + apply route_abs_lookup; [done|]. eauto 6.
    + apply orb_true_iff in Hg as [?|?]; zify_bool; auto.
  - split; [done|]. right. repeat split; try done;
      apply route_abs_lookup in H as (i & e & He & Ha & Hk & Hv); try done;
      injection Hk as Hd Hm; injection Hv as Hg _ _ _;
      pose proof (proj1 (find_idx_None _ _) Ei i e He) as Hnone; cbv beta in Hnone;
      rewrite (proj2 (route_same_spec d m e)) in Hnone by done; simpl in Hnone;
      zify_bool; congruence.
Qed.

(** The 32 inactive slots of the boot-time table. *)
Lemma route_boot_ok : route_ok (replicate 32 (mk_rt_entry 0 0 0 None 0 0 false)).
Proof.
  apply route_inactive_ok; [done|]. intros e [-> _]%elem_of_replicate. done.
Qed.

Lemma route_one_ok e :
  route_ok (<[0%nat := e]> (replicate 32 (mk_rt_entry 0 0 0 None 0 0 false))).
Proof.
  destruct route_boot_ok as [Hsz Hu]. split; [by rewrite length_insert|].
  apply route_set_unique; [done|].
  intros _ j e' [-> _]%list_elem_of_lookup_2%elem_of_replicate. done.
Qed.

Lemma route_add_refines_witness :
  let t := replicate 32 (mk_rt_entry 0 0 0 None 0 0 false) in
  let t' := (route_add t 0x7F000000 0xFF000000 0 (Some 0%nat) 0 RTF_UP).1 in
  route_ok t' /\ route_abs t' !! (0x7F000000, 0xFF000000) = Some (0, Some 0%nat, 0, RTF_UP).
Proof.
  intros t t'.
  pose proof (route_add_refines t 0x7F000000 0xFF000000 0 (Some 0%nat) 0 RTF_UP route_boot_ok) as H.
  assert (E : route_add t 0x7F000000 0xFF000000 0 (Some 0%nat) 0 RTF_UP = (t', 0))
    by (vm_compute; reflexivity).
  rewrite E in H. destruct H as [Hok [[_ Ht]|[? _]]]; [|discriminate].
  split; [exact Hok|]. rewrite Ht. apply lookup_insert_eq.
Defined.

Lemma route_del_refines_witness :
  let t := <[0%nat := mk_rt_entry 0x7F000000 0xFF000000 0 (Some 0%nat) 0 RTF_UP true]>
             (replicate 32 (mk_rt_entry 0 0 0 None 0 0 false)) in
  let t' := (route_del t 0x7F000000 0xFF000000 0).1 in
  route_ok t' /\ route_abs t' !! (0x7F000000, 0xFF000000) = None.
Proof.
  intros t t'.
  pose proof (route_del_refines t 0x7F000000 0xFF000000 0 (route_one_ok _)) as H.
  assert (E : route_del t 0x7F000000 0xFF000000 0 = (t', 0)) by (vm_compute; reflexivity).
  rewrite E in H. destruct H as [Hok [[_ [Ht _]]|[? _]]]; [|discriminate].
  split; [exact Hok|]. rewrite Ht. apply lookup_delete_eq.
Defined.

(** The user-visible tables list the active entries in slot order, at most
    [max_entries] of them. *)
Lemma route_get_table_loop_spec t c max :
  0 <= c ->
  route_get_table_loop t c max =
  take (Z.to_nat (max - c)) (filter (fun e => rt_active e = true) t).
Proof.
  revert c. induction t as [|e t IH]; intros c Hc; cbn [route_get_table_loop].
  - by rewrite filter_nil, take_nil.
  - rewrite filter_cons. destruct (Z.ltb_spec c max).
    + destruct (rt_active e) eqn:Ea; simpl.
      * rewrite IH by lia. replace (Z.to_nat (max - c)) with (S (Z.to_nat (max - (c + 1)))) by lia.
        done.
      * by rewrite IH.
    + replace (Z.to_nat (max - c)) with 0%nat by lia. done.
Qed.

Lemma net_get_route_table_loop_spec devs t c max :
  net_get_route_table_loop devs t c max =
  (fun e => {| ri_dst_net := rt_dst_net e; ri_netmask := rt_netmask e;
               ri_gateway := rt_gateway e; ri_flags := rt_flags e;
               ri_metric := u16 (rt_metric e);
               ri_dev_name := route_dev_name devs (rt_dev e) |}) <$> route_get_table_loop t c max.
Proof.
  revert c. induction t as [|e t IH]; intros c; [done|].
  cbn [net_get_route_table_loop route_get_table_loop].
  case_if; [|done]. case_if; [|done]. rewrite IH. done.
Qed.
