(* ===== verification/Skb.v ===== *)
(** * Socket buffers ([kernel/net/skb.c], [include/kernel/skb.h])

    The two-class pool of packet buffers with its free lists, the reference
    counts, the data pointers and the FIFO queues.  A [sk_buff_t*] is the
    address of its slot: the slots of [small_pool] are 0..511, those of
    [jumbo_pool] 512..519.  The pointers [head], [data], [tail] and [end] of an
    sk_buff are offsets in the data area of its slot.  The free-list and queue
    manipulations are short critical sections of their spinlocks, so each is one
    atomic step of the pool. *)

From Stdlib Require Import ZArith Lia Bool.
From stdpp Require Import base list gmap sets fin_maps.
From S2P Require Import Prelude Wire Chain.

Definition SKB_SMALL_COUNT : nat := 512.
Definition SKB_JUMBO_COUNT : nat := 8.
Definition SKB_SIG_SMALL : Z := 0x534B5342.
Definition SKB_SIG_JUMBO : Z := 0x4A4B5342.
Definition SKB_SMALL_DATA : Z := 1536.
Definition SKB_JUMBO_DATA : Z := 65535.
Definition SKB_HEADROOM : Z := 128.

(** A [sk_buff_t*]. *)
Abbreviation skbptr := (option nat).

Record sk_buff := mk_sk_buff {
  next : skbptr;
  refcount : Z;
  pool_sig : Z;
  skb_dev : devptr;
  head : Z;
  data : Z;
  tail : Z;
  end_ : Z;
  len : Z;
  skb_protocol : Z;
  src_ip : Z;
  dst_ip : Z;
  ip_proto : Z;
  rx_ttl : Z;
  timestamp_us : Z;
  cb : Z;
}.

(** One slot: the header followed by its data area. *)
Record skb_slot := mk_skb_slot { skb : sk_buff; area : list Z }.

Record skb_pool := mk_skb_pool {
  slots : gmap nat skb_slot;
  small_freelist : skbptr;
  jumbo_freelist : skbptr;
  skb_pool_ready : bool;
  skb_alloc_small_ok : Z;
  skb_alloc_jumbo_ok : Z;
  skb_alloc_smallfail_promote : Z;
  skb_alloc_jumbofail_demote : Z;
  skb_alloc_total_fail : Z;
}.

Definition small_addr (i : nat) : nat := i.
Definition jumbo_addr (i : nat) : nat := SKB_SMALL_COUNT + i.

(** ** Field updates *)

Definition set_next (q : skbptr) (s : sk_buff) : sk_buff :=
  mk_sk_buff q (refcount s) (pool_sig s) (skb_dev s) (head s) (data s) (tail s) (end_ s) (len s)
    (skb_protocol s) (src_ip s) (dst_ip s) (ip_proto s) (rx_ttl s) (timestamp_us s) (cb s).

Definition set_refcount (r : Z) (s : sk_buff) : sk_buff :=
  mk_sk_buff (next s) r (pool_sig s) (skb_dev s) (head s) (data s) (tail s) (end_ s) (len s)
    (skb_protocol s) (src_ip s) (dst_ip s) (ip_proto s) (rx_ttl s) (timestamp_us s) (cb s).

Definition set_skb_dev (d : devptr) (s : sk_buff) : sk_buff :=
  mk_sk_buff (next s) (refcount s) (pool_sig s) d (head s) (data s) (tail s) (end_ s) (len s)
    (skb_protocol s) (src_ip s) (dst_ip s) (ip_proto s) (rx_ttl s) (timestamp_us s) (cb s).

Definition set_window (d t l : Z) (s : sk_buff) : sk_buff :=
  mk_sk_buff (next s) (refcount s) (pool_sig s) (skb_dev s) (head s) d t (end_ s) l
    (skb_protocol s) (src_ip s) (dst_ip s) (ip_proto s) (rx_ttl s) (timestamp_us s) (cb s).

(** Applies a header update to the sk_buff at address [p]. *)
Definition upd_skb (p : nat) (f : sk_buff -> sk_buff) (st : skb_pool) : skb_pool :=
  mk_skb_pool (alter (fun sl => mk_skb_slot (f (skb sl)) (area sl)) p (slots st))
    (small_freelist st) (jumbo_freelist st) (skb_pool_ready st)
    (skb_alloc_small_ok st) (skb_alloc_jumbo_ok st) (skb_alloc_smallfail_promote st)
    (skb_alloc_jumbofail_demote st) (skb_alloc_total_fail st).

(** Stores bytes at offset [off] of the data area of the sk_buff at [p]. *)
Definition skb_write (p : nat) (off : Z) (bs : list Z) (st : skb_pool) : skb_pool :=
  mk_skb_pool (alter (fun sl => mk_skb_slot (skb sl) (write_at (Z.to_nat off) bs (area sl))) p (slots st))
    (small_freelist st) (jumbo_freelist st) (skb_pool_ready st)
    (skb_alloc_small_ok st) (skb_alloc_jumbo_ok st) (skb_alloc_smallfail_promote st)
    (skb_alloc_jumbofail_demote st) (skb_alloc_total_fail st).

Definition set_small_freelist (q : skbptr) (st : skb_pool) : skb_pool :=
  mk_skb_pool (slots st) q (jumbo_freelist st) (skb_pool_ready st)
    (skb_alloc_small_ok st) (skb_alloc_jumbo_ok st) (skb_alloc_smallfail_promote st)
    (skb_alloc_jumbofail_demote st) (skb_alloc_total_fail st).

Definition set_jumbo_freelist (q : skbptr) (st : skb_pool) : skb_pool :=
  mk_skb_pool (slots st) (small_freelist st) q (skb_pool_ready st)
    (skb_alloc_small_ok st) (skb_alloc_jumbo_ok st) (skb_alloc_smallfail_promote st)
    (skb_alloc_jumbofail_demote st) (skb_alloc_total_fail st).

(** The diagnostic counters after adding the given increments. *)
Definition bump (ds dj dp dt : Z) (st : skb_pool) : skb_pool :=
  mk_skb_pool (slots st) (small_freelist st) (jumbo_freelist st) (skb_pool_ready st)
    (u64 (skb_alloc_small_ok st + ds)) (u64 (skb_alloc_jumbo_ok st + dj))
    (u64 (skb_alloc_smallfail_promote st + dp)) (skb_alloc_jumbofail_demote st)
    (u64 (skb_alloc_total_fail st + dt)).

(** ** Pool operations *)

(** The header after [skb_init_slot]. *)
Definition skb_init_slot (end_off sig : Z) : sk_buff :=
  {| next := None; refcount := 0; pool_sig := sig; skb_dev := None;
     head := 0; data := 0; tail := 0; end_ := end_off; len := 0;
     skb_protocol := 0; src_ip := 0; dst_ip := 0; ip_proto := 0; rx_ttl := 0;
     timestamp_us := 0; cb := 0 |}.

(** [for (int i = n - 1; i >= 0; i--)] over the small pool. *)
Fixpoint skb_init_small (n : nat) (st : skb_pool) : skb_pool :=
  match n with
  | O => st
  | S i =>
      let p := small_addr i in
      let st := upd_skb p (fun _ => skb_init_slot SKB_SMALL_DATA SKB_SIG_SMALL) st in
      let st := upd_skb p (set_next (small_freelist st)) st in
      skb_init_small i (set_small_freelist (Some p) st)
  end.

Fixpoint skb_init_jumbo (n : nat) (st : skb_pool) : skb_pool :=
  match n with
  | O => st
  | S i =>
      let p := jumbo_addr i in
      let st := upd_skb p (fun _ => skb_init_slot SKB_JUMBO_DATA SKB_SIG_JUMBO) st in
      let st := upd_skb p (set_next (jumbo_freelist st)) st in
      skb_init_jumbo i (set_jumbo_freelist (Some p) st)
  end.

Definition set_ready (st : skb_pool) : skb_pool :=
  mk_skb_pool (slots st) (small_freelist st) (jumbo_freelist st) true
    (skb_alloc_small_ok st) (skb_alloc_jumbo_ok st) (skb_alloc_smallfail_promote st)
    (skb_alloc_jumbofail_demote st) (skb_alloc_total_fail st).

Definition skb_pool_init (st : skb_pool) : skb_pool :=
  let st := skb_init_small SKB_SMALL_COUNT (set_small_freelist None st) in
  let st := skb_init_jumbo SKB_JUMBO_COUNT (set_jumbo_freelist None st) in
  set_ready st.

(** [skb->next] read through a pointer. *)
Definition next_of (st : skb_pool) (p : nat) : skbptr :=
  slots st !! p ≫= fun sl => next (skb sl).

Definition skb_pop_small (st : skb_pool) : skb_pool * skbptr :=
  match small_freelist st with
  | Some p => (set_small_freelist (next_of st p) st, Some p)
  | None => (st, None)
  end.

Definition skb_pop_jumbo (st : skb_pool) : skb_pool * skbptr :=
  match jumbo_freelist st with
  | Some p => (set_jumbo_freelist (next_of st p) st, Some p)
  | None => (st, None)
  end.

Definition skb_push_small (p : nat) (st : skb_pool) : skb_pool :=
  let st := upd_skb p (set_next (small_freelist st)) st in
  set_small_freelist (Some p) st.

Definition skb_push_jumbo (p : nat) (st : skb_pool) : skb_pool :=
  let st := upd_skb p (set_next (jumbo_freelist st)) st in
  set_jumbo_freelist (Some p) st.

Definition skb_reset (s : sk_buff) : sk_buff :=
  {| next := None; refcount := 1; pool_sig := pool_sig s; skb_dev := None;
     head := head s; data := head s + SKB_HEADROOM; tail := head s + SKB_HEADROOM;
     end_ := end_ s; len := 0;
     skb_protocol := 0; src_ip := 0; dst_ip := 0; ip_proto := 0; rx_ttl := 0;
     timestamp_us := 0; cb := 0 |}.

Definition skb_alloc (min_payload : Z) (st : skb_pool) : skb_pool * skbptr :=
  if negb (skb_pool_ready st) then (st, None)
  else
    let need := u32 (min_payload + SKB_HEADROOM) in
    let want_jumbo := SKB_SMALL_DATA <? need in
    if SKB_JUMBO_DATA <? need then (bump 0 0 0 1 st, None)
    else if want_jumbo then
      match skb_pop_jumbo st with
      | (st, None) => (bump 0 0 0 1 st, None)
      | (st, Some p) => (upd_skb p skb_reset (bump 0 1 0 0 st), Some p)
      end
    else
      match skb_pop_small st with
      | (st, None) =>
          match skb_pop_jumbo st with
          | (st, None) => (bump 0 0 0 1 st, None)
          | (st, Some p) => (upd_skb p skb_reset (bump 0 0 1 0 st), Some p)
          end
      | (st, Some p) => (upd_skb p skb_reset (bump 1 0 0 0 st), Some p)
      end.

Definition skb_get (p : skbptr) (st : skb_pool) : skb_pool * skbptr :=
  match p with
  | Some a => (upd_skb a (fun s => set_refcount (u32 (refcount s + 1)) s) st, p)
  | None => (st, None)
  end.

(** [__atomic_fetch_sub], then the return to the pool at zero. *)
Definition skb_put (p : skbptr) (st : skb_pool) : skb_pool :=
  match p with
  | None => st
  | Some a =>
      match slots st !! a with
      | None => st
      | Some sl =>
          let old := refcount (skb sl) in
          let st := upd_skb a (fun s => set_refcount (u32 (refcount s - 1)) s) st in
          if negb (old =? 1) then st
          else if pool_sig (skb sl) =? SKB_SIG_SMALL then skb_push_small a st
          else if pool_sig (skb sl) =? SKB_SIG_JUMBO then skb_push_jumbo a st
          else st
      end
  end.

(** ** Data pointers *)

Definition skb_reserve (n : Z) (s : sk_buff) : sk_buff :=
  set_window (data s + n) (tail s + n) (len s) s.

(** Returns the old [tail]; [len] is a [uint16_t]. *)
Definition skb_append (n : Z) (s : sk_buff) : sk_buff * Z :=
  (set_window (data s) (tail s + n) (u16 (len s + n)) s, tail s).

Definition skb_prepend (n : Z) (s : sk_buff) : sk_buff * Z :=
  (set_window (data s - n) (tail s) (u16 (len s + n)) s, data s - n).

Definition skb_pull (n : Z) (s : sk_buff) : sk_buff :=
  set_window (data s + n) (tail s) (u16 (len s - n)) s.

(** ** Queues *)

Record skb_queue := mk_skb_queue { q_head : skbptr; q_tail : skbptr; q_len : Z }.

Definition skb_queue_init : skb_queue := mk_skb_queue None None 0.

Definition skb_queue_tail (p : skbptr) (q : skb_queue) (st : skb_pool) : skb_queue * skb_pool :=
  match p with
  | None => (q, st)
  | Some a =>
      let st := upd_skb a (set_next None) st in
      match q_tail q with
      | Some t =>
          (mk_skb_queue (q_head q) (Some a) (u32 (q_len q + 1)),
           upd_skb t (set_next (Some a)) st)
      | None => (mk_skb_queue (Some a) (Some a) (u32 (q_len q + 1)), st)
      end
  end.

Definition skb_queue_head (q : skb_queue) (st : skb_pool) : skb_queue * skb_pool * skbptr :=
  match q_head q with
  | None => (q, st, None)
  | Some a =>
      let h := next_of st a in
      (mk_skb_queue h (match h with None => None | Some _ => q_tail q end) (u32 (q_len q - 1)),
       upd_skb a (set_next None) st, Some a)
  end.

(** The bytes of the data window, as passed to [dev->send(dev, skb->data, skb->len)]. *)
Definition skb_payload (st : skb_pool) (p : nat) : list Z :=
  match slots st !! p with
  | Some sl => read_at (Z.to_nat (data (skb sl))) (Z.to_nat (len (skb sl))) (area sl)
  | None => []
  end.

(** The idiom of every packet builder: [skb = skb_alloc(n); skb->dev = dev;
    p = skb_append(skb, n);] and then the bytes [bs] stored at [p]. *)
Definition skb_build (dev : devptr) (n : Z) (bs : list Z) (st : skb_pool) : skb_pool * skbptr :=
  match skb_alloc n st with
  | (st, None) => (st, None)
  | (st, Some p) =>
      let st := upd_skb p (set_skb_dev dev) st in
      let off := match slots st !! p with Some sl => tail (skb sl) | None => 0 end in
      let st := upd_skb p (fun s => (skb_append n s).1) st in
      (skb_write p off bs st, Some p)
  end.

(** ** Invariant *)

(** The data area and signature an address must have. *)
Definition class_sig (p : nat) : Z :=
  if decide (p < SKB_SMALL_COUNT)%nat then SKB_SIG_SMALL else SKB_SIG_JUMBO.
Definition class_size (p : nat) : Z :=
  if decide (p < SKB_SMALL_COUNT)%nat then SKB_SMALL_DATA else SKB_JUMBO_DATA.

(** A slot of the pool: fixed bounds, and a data window inside them. *)
Record slot_ok (p : nat) (sl : skb_slot) : Prop := {
  slot_sig : pool_sig (skb sl) = class_sig p;
  slot_head : head (skb sl) = 0;
  slot_end : end_ (skb sl) = class_size p;
  slot_area : Z.of_nat (length (area sl)) = class_size p;
  slot_ref : urange 32 (refcount (skb sl));
}.

(** The data window of a buffer in use. *)
Definition window_ok (s : sk_buff) : Prop :=
  head s <= data s <= tail s /\ tail s <= end_ s /\ len s = tail s - data s.

(** [fs] and [fj] are the free small and jumbo buffers: their lists are well
    linked, disjoint by class, and hold exactly the buffers with no reference. *)
Record pool_inv (fs fj : list nat) (st : skb_pool) : Prop := {
  pool_slots : forall p, (p < SKB_SMALL_COUNT + SKB_JUMBO_COUNT)%nat ->
    exists sl, slots st !! p = Some sl /\ slot_ok p sl;
  pool_dom : forall p sl, slots st !! p = Some sl -> (p < SKB_SMALL_COUNT + SKB_JUMBO_COUNT)%nat;
  pool_small : chain (next_of st) (small_freelist st) fs;
  pool_jumbo : chain (next_of st) (jumbo_freelist st) fj;
  pool_nodup : NoDup (fs ++ fj);
  pool_small_class : Forall (fun p => p < SKB_SMALL_COUNT)%nat fs;
  pool_jumbo_class : Forall (fun p => SKB_SMALL_COUNT <= p < SKB_SMALL_COUNT + SKB_JUMBO_COUNT)%nat fj;
  pool_free : forall p sl, slots st !! p = Some sl -> (refcount (skb sl) = 0 <-> p ∈ fs ++ fj);
}.

(** The pool is well formed and its free buffers are those of [F], in any order. *)
Definition pool_has (F : list nat) (st : skb_pool) : Prop :=
  exists fs fj, fs ++ fj ≡ₚ F /\ pool_inv fs fj st.

(** Buffer [p] has exactly one reference and carries the bytes [bs]. *)
Definition owns (st : skb_pool) (p : nat) (bs : list Z) : Prop :=
  skb_payload st p = bs /\
  exists sl, slots st !! p = Some sl /\ refcount (skb sl) = 1 /\
    len (skb sl) = Z.of_nat (length bs).

(** A queue holding the buffers [l], oldest first; none of them is free. *)
Record queue_inv (l fs fj : list nat) (q : skb_queue) (st : skb_pool) : Prop := {
  queue_chain : chain (next_of st) (q_head q) l;
  queue_tail : q_tail q = last l;
  queue_len : q_len q = u32 (Z.of_nat (length l));
  queue_nodup : NoDup l;
  queue_used : forall p, p ∈ l -> (p ∉ fs ++ fj) /\ is_Some (slots st !! p);
}.

(** What the caller of [skb_alloc] gets. *)
Definition fresh_skb (p : nat) (min_payload : Z) (st st' : skb_pool) : Prop :=
  exists sl, slots st !! p = Some sl /\ refcount (skb sl) = 0 /\
    slots st' !! p = Some (mk_skb_slot (skb_reset (skb sl)) (area sl)) /\
    data (skb_reset (skb sl)) = SKB_HEADROOM /\
    min_payload <= end_ (skb_reset (skb sl)) - data (skb_reset (skb sl)) /\
    window_ok (skb_reset (skb sl)) /\
    forall q, q <> p -> slots st' !! q = slots st !! q.

(** The static arrays before initialisation: every slot exists and its data
    area has the size of its class. *)
Definition boot_slots (st : skb_pool) : Prop :=
  (forall p, (p < SKB_SMALL_COUNT + SKB_JUMBO_COUNT)%nat ->
     exists sl, slots st !! p = Some sl /\ Z.of_nat (length (area sl)) = class_size p) /\
  (forall p sl, slots st !! p = Some sl -> (p < SKB_SMALL_COUNT + SKB_JUMBO_COUNT)%nat).

(** ** Frame lemmas *)

Lemma lookup_upd_skb p f st q :
  slots (upd_skb p f st) !! q =
  if decide (q = p) then (fun sl => mk_skb_slot (f (skb sl)) (area sl)) <$> slots st !! q
  else slots st !! q.
Proof.
  simpl. destruct (decide (q = p)) as [->|Hne]; [by rewrite lookup_alter_eq|].
  by rewrite lookup_alter_ne.
Qed.

Lemma lookup_upd_skb_eq p f st sl :
  slots st !! p = Some sl ->
  slots (upd_skb p f st) !! p = Some (mk_skb_slot (f (skb sl)) (area sl)).
Proof. intros H. by rewrite lookup_upd_skb, decide_True, H. Qed.

Lemma lookup_upd_skb_ne p f st q : q <> p -> slots (upd_skb p f st) !! q = slots st !! q.
Proof. intros. by rewrite lookup_upd_skb, decide_False. Qed.

(** Updates that keep [next] keep every chain. *)
Lemma next_of_upd_keep p f st y :
  (forall s, next (f s) = next s) -> next_of (upd_skb p f st) y = next_of st y.
Proof.
  intros Hf. unfold next_of. rewrite lookup_upd_skb. case_decide; [|done].
  destruct (slots st !! y); simpl; [apply Hf|done].
Qed.

Lemma next_of_set_next p q st y :
  is_Some (slots st !! p) ->
  next_of (upd_skb p (set_next q) st) y = redirect (next_of st) p q y.
Proof.
  intros [sl Hsl]. unfold next_of, redirect. rewrite lookup_upd_skb.
  case_decide as E; [|done]. by rewrite E, Hsl.
Qed.

Lemma next_of_upd_other p f st y : y <> p -> next_of (upd_skb p f st) y = next_of st y.
Proof. intros. unfold next_of. by rewrite lookup_upd_skb_ne. Qed.

Lemma chain_upd_other p f st q l :
  p ∉ l -> chain (next_of st) q l -> chain (next_of (upd_skb p f st)) q l.
Proof.
  intros Hp. apply chain_ext. intros x Hx. symmetry. apply next_of_upd_other. by intros ->.
Qed.

(** [slot_ok] depends on the class fields, the area and the reference count. *)
Lemma slot_ok_upd p sl f :
  slot_ok p sl ->
  pool_sig (f (skb sl)) = pool_sig (skb sl) -> head (f (skb sl)) = head (skb sl) ->
  end_ (f (skb sl)) = end_ (skb sl) -> urange 32 (refcount (f (skb sl))) ->
  slot_ok p (mk_skb_slot (f (skb sl)) (area sl)).
Proof. intros [] ????. split; simpl; congruence. Qed.

Lemma pool_slot_at fs fj st p sl :
  pool_inv fs fj st -> slots st !! p = Some sl -> slot_ok p sl.
Proof.
  intros H Hp. destruct (pool_slots _ _ _ H p) as (sl' & Hsl & Hok); [by eapply pool_dom|].
  congruence.
Qed.

Lemma free_slot fs fj st p :
  pool_inv fs fj st -> p ∈ fs ++ fj ->
  exists sl, slots st !! p = Some sl /\ slot_ok p sl /\ refcount (skb sl) = 0.
Proof.
  intros H Hp. assert (Hlt : (p < SKB_SMALL_COUNT + SKB_JUMBO_COUNT)%nat).
  { apply elem_of_app in Hp as [Hp|Hp].
    - pose proof (proj1 (Forall_forall _ _) (pool_small_class _ _ _ H) p Hp) as Hc.
      cbv beta in Hc. lia.
    - pose proof (proj1 (Forall_forall _ _) (pool_jumbo_class _ _ _ H) p Hp) as Hc.
      cbv beta in Hc. lia. }
  destruct (pool_slots _ _ _ H p Hlt) as (sl & Hsl & Hok).
  exists sl. split_and!; try done. by apply (pool_free _ _ _ H p sl).
Qed.

(** Updating one slot keeps the slot facts of the pool. *)
Lemma upd_slots fs fj st p f sl :
  pool_inv fs fj st -> slots st !! p = Some sl ->
  slot_ok p (mk_skb_slot (f (skb sl)) (area sl)) ->
  (forall q, (q < SKB_SMALL_COUNT + SKB_JUMBO_COUNT)%nat ->
     exists sl', slots (upd_skb p f st) !! q = Some sl' /\ slot_ok q sl') /\
  (forall q sl', slots (upd_skb p f st) !! q = Some sl' ->
     (q < SKB_SMALL_COUNT + SKB_JUMBO_COUNT)%nat).
Proof.
  intros H Hp Hok. split.
  - intros q Hq. destruct (decide (q = p)) as [->|Hne].
    + rewrite (lookup_upd_skb_eq p f st sl) by done. eauto.
    + rewrite lookup_upd_skb_ne by done. by apply (pool_slots _ _ _ H).
  - intros q sl'. rewrite lookup_upd_skb. case_decide as E.
    + intros _. subst q. by apply (pool_dom _ _ _ H p sl).
    + intros Hq. by apply (pool_dom _ _ _ H q sl').
Qed.

(** The free test after one slot's reference count has changed. *)
Lemma upd_free fs fj fs' fj' st p f sl :
  pool_inv fs fj st -> slots st !! p = Some sl ->
  (refcount (f (skb sl)) = 0 <-> p ∈ fs' ++ fj') ->
  (forall q, q <> p -> q ∈ fs' ++ fj' <-> q ∈ fs ++ fj) ->
  forall q sl', slots (upd_skb p f st) !! q = Some sl' ->
    (refcount (skb sl') = 0 <-> q ∈ fs' ++ fj').
Proof.
  intros H Hp Hr Hq q sl'. rewrite lookup_upd_skb. case_decide as E.
  - subst q. rewrite Hp. intros [= <-]. done.
  - intros Hsl. rewrite (pool_free _ _ _ H q sl' Hsl). symmetry. by apply Hq.
Qed.

(** Facts of [skb_reset] on a slot of the pool. *)
Lemma slot_ok_reset p sl : slot_ok p sl -> slot_ok p (mk_skb_slot (skb_reset (skb sl)) (area sl)).
Proof. intros H. by apply slot_ok_upd. Qed.

(** Taking a free buffer: [st'] differs from [st] by the reset of [p] and by
    free-list heads that link the remaining free buffers. *)
Lemma pool_take fs fj fs' fj' p st st' :
  pool_inv fs fj st ->
  fs ++ fj ≡ₚ p :: (fs' ++ fj') -> fs' ⊆ fs -> fj' ⊆ fj ->
  slots st' = slots (upd_skb p skb_reset st) ->
  chain (next_of st) (small_freelist st') fs' ->
  chain (next_of st) (jumbo_freelist st') fj' ->
  pool_inv fs' fj' st'.
Proof.
  intros H Hperm Hfs Hfj Hsl Hcs Hcj.
  assert (Hnd : NoDup (p :: (fs' ++ fj'))) by (rewrite <- Hperm; apply (pool_nodup _ _ _ H)).
  apply NoDup_cons in Hnd as [Hp Hnd].
  destruct (free_slot fs fj st p) as (sl & Hlk & Hok & _); [done|rewrite Hperm; left|].
  destruct (upd_slots fs fj st p skb_reset sl) as [Hall Hdom]; [done|done|by apply slot_ok_reset|].
  assert (Hnx : forall x, next_of st' x = next_of (upd_skb p skb_reset st) x)
    by (intros; unfold next_of; by rewrite Hsl).
  split.
  - by rewrite Hsl.
  - by rewrite Hsl.
  - apply (chain_ext (next_of (upd_skb p skb_reset st))); [done|].
    apply chain_upd_other; [set_solver|done].
  - apply (chain_ext (next_of (upd_skb p skb_reset st))); [done|].
    apply chain_upd_other; [set_solver|done].
  - done.
  - pose proof (pool_small_class _ _ _ H) as Hc. rewrite Forall_forall in *. set_solver.
  - pose proof (pool_jumbo_class _ _ _ H) as Hc. rewrite Forall_forall in *. set_solver.
  - rewrite Hsl. apply (upd_free fs fj fs' fj' st p skb_reset sl); try done.
    intros q Hq. rewrite Hperm. set_solver.
Qed.

(** Changing only the counters. *)
Lemma pool_inv_bump fs fj a b c d st : pool_inv fs fj (bump a b c d st) <-> pool_inv fs fj st.
Proof. split; intros []; split; done. Qed.

Lemma fresh_skb_intro fs fj p min_payload st st' :
  pool_inv fs fj st -> p ∈ fs ++ fj ->
  slots st' = slots (upd_skb p skb_reset st) ->
  min_payload + SKB_HEADROOM <= class_size p ->
  fresh_skb p min_payload st st'.
Proof.
  intros H Hp Hsl Hsz. destruct (free_slot fs fj st p H Hp) as (sl & Hlk & Hok & Hr).
  destruct Hok as [Hs Hh He Ha _].
  exists sl. rewrite Hsl. rewrite (lookup_upd_skb_eq p skb_reset st sl) by done.
  unfold window_ok. simpl. rewrite Hh, He.
  assert (SKB_SMALL_DATA <= class_size p) by (unfold class_size; case_decide; unfold SKB_SMALL_DATA, SKB_JUMBO_DATA; lia).
  unfold SKB_HEADROOM, SKB_SMALL_DATA in *.
  split_and!; try done; try lia. intros q Hq. by apply lookup_alter_ne.
Qed.

Lemma class_size_small fs fj st p :
  pool_inv fs fj st -> p ∈ fs -> class_size p = SKB_SMALL_DATA.
Proof.
  intros H Hp. pose proof (proj1 (Forall_forall _ _) (pool_small_class _ _ _ H) p Hp) as Hc.
  unfold class_size. rewrite decide_True; [done|]. exact Hc.
Qed.

Lemma class_size_jumbo fs fj st p :
  pool_inv fs fj st -> p ∈ fj -> class_size p = SKB_JUMBO_DATA.
Proof.
  intros H Hp. pose proof (proj1 (Forall_forall _ _) (pool_jumbo_class _ _ _ H) p Hp) as Hc.
  cbv beta in Hc. unfold class_size. rewrite decide_False; [done|]. lia.
Qed.

(** All branches of [skb_alloc]. *)
Lemma skb_alloc_ok fs fj min_payload st :
  pool_inv fs fj st -> skb_pool_ready st = true ->
  0 <= min_payload < 2 ^ 32 - SKB_HEADROOM ->
  let '(st', r) := skb_alloc min_payload st in
  match r with
  | Some p =>
      fresh_skb p min_payload st st' /\
      exists fs' fj', fs ++ fj ≡ₚ p :: (fs' ++ fj') /\ pool_inv fs' fj' st'
  | None =>
      slots st' = slots st /\ pool_inv fs fj st' /\
      (SKB_JUMBO_DATA < min_payload + SKB_HEADROOM \/
       (SKB_SMALL_DATA < min_payload + SKB_HEADROOM /\ fj = []) \/
       (fs = [] /\ fj = []))
  end.
Proof.
  intros H Hr Hm. unfold skb_alloc. rewrite Hr. cbn [negb].
  rewrite u32_small by (unfold SKB_HEADROOM in *; lia).
  destruct (Z.ltb_spec SKB_JUMBO_DATA (min_payload + SKB_HEADROOM)) as [Hj|Hj].
  { split_and!; [done|by apply pool_inv_bump|by left]. }
  destruct (Z.ltb_spec SKB_SMALL_DATA (min_payload + SKB_HEADROOM)) as [Hs|Hs].
  - unfold skb_pop_jumbo. pose proof (pool_jumbo _ _ _ H) as Hc.
    destruct fj as [|p fj]; simpl in Hc.
    + rewrite Hc. split_and!; [done|by apply pool_inv_bump|auto].
    + destruct Hc as [-> Hc]. split.
      * apply (fresh_skb_intro fs (p :: fj)); [done|set_solver|done|].
        erewrite class_size_jumbo; [done|done|left].
      * exists fs, fj. split; [symmetry; apply Permutation_middle|].
        apply (pool_take fs (p :: fj) fs fj p st); try done; try set_solver.
        -- symmetry; apply Permutation_middle.
        -- apply (pool_small _ _ _ H).
  - unfold skb_pop_small. pose proof (pool_small _ _ _ H) as Hc.
    destruct fs as [|p fs]; simpl in Hc.
    + rewrite Hc. unfold skb_pop_jumbo. pose proof (pool_jumbo _ _ _ H) as Hcj.
      destruct fj as [|p fj]; simpl in Hcj.
      * rewrite Hcj. split_and!; [done|by apply pool_inv_bump|auto].
      * destruct Hcj as [-> Hcj]. split.
        -- apply (fresh_skb_intro [] (p :: fj)); [done|set_solver|done|].
           erewrite class_size_jumbo; [done|done|left].
        -- exists [], fj. split; [done|].
           apply (pool_take [] (p :: fj) [] fj p st); try done; set_solver.
    + destruct Hc as [-> Hc]. split.
      * apply (fresh_skb_intro (p :: fs) fj); [done|set_solver|done|].
        erewrite class_size_small; [done|done|left].
      * exists fs, fj. split; [done|].
        apply (pool_take (p :: fs) fj fs fj p st); try done; try set_solver.
        apply (pool_jumbo _ _ _ H).
Qed.

(**  Allocation.  From a well-formed pool, for a request that does not wrap
    a [uint32_t], [skb_alloc] either returns a buffer that was free, with one
    reference, an empty window behind the headroom and room for the request,
    leaving every other buffer alone and the pool well formed with one free
    buffer less; or returns NULL with the pool unchanged, which happens only
    when the request exceeds the jumbo capacity, when a jumbo request finds no
    free jumbo, or when both classes are exhausted. *)
Theorem skb_alloc_spec fs fj min_payload st :
  pool_inv fs fj st -> skb_pool_ready st = true ->
  0 <= min_payload < 2 ^ 32 - SKB_HEADROOM ->
  let '(st', r) := skb_alloc min_payload st in
  match r with
  | Some p =>
      fresh_skb p min_payload st st' /\
      exists fs' fj', fs ++ fj ≡ₚ p :: (fs' ++ fj') /\ pool_inv fs' fj' st'
  | None =>
      slots st' = slots st /\ pool_inv fs fj st' /\
      (SKB_JUMBO_DATA < min_payload + SKB_HEADROOM \/
       (SKB_SMALL_DATA < min_payload + SKB_HEADROOM /\ fj = []) \/
       (fs = [] /\ fj = []))
  end.
Proof. apply skb_alloc_ok. Qed.

(** Changing a reference count that stays positive. *)
Lemma pool_set_refcount fs fj p sl r st :
  pool_inv fs fj st -> slots st !! p = Some sl -> refcount (skb sl) <> 0 ->
  0 < r < 2 ^ 32 -> pool_inv fs fj (upd_skb p (set_refcount r) st).
Proof.
  intros H Hp Hr0 Hr.
  destruct (upd_slots fs fj st p (set_refcount r) sl) as [Hall Hdom]; [done|done| |].
  { apply slot_ok_upd; try done; [by eapply pool_slot_at|unfold urange; simpl; lia]. }
  assert (Hf : p ∉ fs ++ fj) by (by rewrite <- (pool_free _ _ _ H p sl Hp)).
  split; try done; try apply H.
  - apply chain_upd_other; [set_solver|apply (pool_small _ _ _ H)].
  - apply chain_upd_other; [set_solver|apply (pool_jumbo _ _ _ H)].
  - apply (upd_free fs fj fs fj st p _ sl); try done. simpl. split; [lia|done].
Qed.

(** Linking a buffer whose last reference is gone in front of its free list. *)
Lemma pool_give fs fj fs' fj' p sl st st' :
  pool_inv fs fj st -> slots st !! p = Some sl -> refcount (skb sl) <> 0 ->
  fs' ++ fj' ≡ₚ p :: (fs ++ fj) ->
  (fs' = p :: fs /\ fj' = fj /\ small_freelist st' = Some p /\ jumbo_freelist st' = jumbo_freelist st /\
     slots st' = slots (upd_skb p (fun s => set_next (small_freelist st) (set_refcount 0 s)) st) /\
     (p < SKB_SMALL_COUNT)%nat \/
   fs' = fs /\ fj' = p :: fj /\ small_freelist st' = small_freelist st /\ jumbo_freelist st' = Some p /\
     slots st' = slots (upd_skb p (fun s => set_next (jumbo_freelist st) (set_refcount 0 s)) st) /\
     (SKB_SMALL_COUNT <= p)%nat) ->
  pool_inv fs' fj' st'.
Proof.
  intros H Hp Hr Hperm Hcase.
  assert (Hf : p ∉ fs ++ fj) by (by rewrite <- (pool_free _ _ _ H p sl Hp)).
  assert (Hps : p ∉ fs) by (intros ?; apply Hf, elem_of_app; auto).
  assert (Hpj : p ∉ fj) by (intros ?; apply Hf, elem_of_app; auto).
  assert (Hnd : NoDup (fs' ++ fj')).
  { rewrite Hperm. apply NoDup_cons. split; [done|apply (pool_nodup _ _ _ H)]. }
  pose proof (pool_small _ _ _ H) as Hcs. pose proof (pool_jumbo _ _ _ H) as Hcj.
  pose proof (pool_small_class _ _ _ H) as Hks. pose proof (pool_jumbo_class _ _ _ H) as Hkj.
  assert (Hlt := pool_dom _ _ _ H p sl Hp).
  assert (Hgen : forall q f, f = (fun s => set_next q (set_refcount 0 s)) ->
    slots st' = slots (upd_skb p f st) ->
    (forall x, next_of st' x = redirect (next_of st) p q x) /\
    (forall x, (x < SKB_SMALL_COUNT + SKB_JUMBO_COUNT)%nat ->
       exists sl', slots st' !! x = Some sl' /\ slot_ok x sl') /\
    (forall x sl', slots st' !! x = Some sl' -> (x < SKB_SMALL_COUNT + SKB_JUMBO_COUNT)%nat) /\
    (forall x sl', slots st' !! x = Some sl' -> (refcount (skb sl') = 0 <-> x ∈ fs' ++ fj'))).
  { intros q f -> Hsl.
    destruct (upd_slots fs fj st p (fun s => set_next q (set_refcount 0 s)) sl) as [Hall Hdom];
      [done|done| |].
    { apply (slot_ok_upd p sl (fun s => set_next q (set_refcount 0 s))); try done.
      by eapply pool_slot_at. }
    rewrite Hsl. split_and!; try done.
    - intros x. unfold next_of, redirect. rewrite Hsl, lookup_upd_skb.
      case_decide as E; [|done]. by rewrite E, Hp.
    - apply (upd_free fs fj fs' fj' st p _ sl); try done.
      + split; [|done]. intros _. rewrite Hperm. left.
      + intros x Hx. rewrite Hperm. rewrite elem_of_cons. tauto. }
  destruct Hcase as [(-> & -> & Es & Ej & Hsl & Hc)|(-> & -> & Es & Ej & Hsl & Hc)];
    destruct (Hgen _ _ eq_refl Hsl) as (Hnx & Hall & Hdom & Hfree); split; try done.
  - rewrite Es. eapply chain_ext; [intros x _; symmetry; apply Hnx|]. by apply chain_push.
  - rewrite Ej. eapply chain_ext; [intros x _; symmetry; apply Hnx|]. by apply chain_redirect.
  - by apply Forall_cons.
  - rewrite Es. eapply chain_ext; [intros x _; symmetry; apply Hnx|]. by apply chain_redirect.
  - rewrite Ej. eapply chain_ext; [intros x _; symmetry; apply Hnx|]. by apply chain_push.
  - apply Forall_cons. split; [lia|done].
Qed.

(** The invariant depends on the slots and the free-list heads only. *)
Lemma pool_inv_slots fs fj st st' :
  slots st' = slots st -> small_freelist st' = small_freelist st ->
  jumbo_freelist st' = jumbo_freelist st -> pool_inv fs fj st -> pool_inv fs fj st'.
Proof.
  intros Es Ef Ej []. split; rewrite ?Es, ?Ef, ?Ej; try done.
  - by apply (chain_ext (next_of st)); [intros x _; unfold next_of; rewrite Es|].
  - by apply (chain_ext (next_of st)); [intros x _; unfold next_of; rewrite Es|].
Qed.

(** Two updates of one header that agree with a third on the stored value. *)
Lemma upd_skb_compose p f g h sl st :
  slots st !! p = Some sl -> f (g (skb sl)) = h (skb sl) ->
  slots (upd_skb p f (upd_skb p g st)) = slots (upd_skb p h st).
Proof.
  intros Hp E. apply map_eq. intros q. rewrite !lookup_upd_skb.
  case_decide as Eq; [|done]. subst q. rewrite Hp. simpl. by rewrite E.
Qed.

(** Both branches of [skb_put]. *)
Lemma skb_put_ok fs fj p sl st :
  pool_inv fs fj st -> slots st !! p = Some sl -> refcount (skb sl) <> 0 ->
  let st' := skb_put (Some p) st in
  (forall q, q <> p -> slots st' !! q = slots st !! q) /\
  (refcount (skb sl) <> 1 ->
     pool_inv fs fj st' /\
     slots st' !! p = Some (mk_skb_slot (set_refcount (refcount (skb sl) - 1) (skb sl)) (area sl))) /\
  (refcount (skb sl) = 1 ->
     if decide (p < SKB_SMALL_COUNT)%nat then pool_inv (p :: fs) fj st'
     else pool_inv fs (p :: fj) st').
Proof.
  intros H Hp Hr st'. pose proof (pool_slot_at _ _ _ _ _ H Hp) as Hok.
  pose proof (slot_ref _ _ Hok) as Hrange. unfold urange in Hrange.
  assert (Est : st' = skb_put (Some p) st) by done. clearbody st'.
  unfold skb_put in Est. rewrite Hp in Est.
  assert (Edec : u32 (refcount (skb sl) - 1) = refcount (skb sl) - 1) by (apply u32_small; lia).
  destruct (Z.eqb_spec (refcount (skb sl)) 1) as [E|E]; cbn [negb] in Est.
  - rewrite (slot_sig _ _ Hok) in Est. unfold class_sig in Est.
    destruct (decide (p < SKB_SMALL_COUNT)%nat) as [Hc|Hc]; simpl in Est; subst st'.
    + split_and!; [|done|intros _].
      * intros q Hq. unfold skb_push_small. cbn [slots set_small_freelist]. by rewrite !lookup_upd_skb_ne.
      * apply (pool_give fs fj (p :: fs) fj p sl st); try done.
        left. split_and!; try done. apply (upd_skb_compose p _ _ _ sl); [done|].
        by rewrite Edec, E.
    + split_and!; [|done|intros _].
      * intros q Hq. unfold skb_push_jumbo. cbn [slots set_jumbo_freelist]. by rewrite !lookup_upd_skb_ne.
      * apply (pool_give fs fj fs (p :: fj) p sl st); try done.
        { symmetry. apply Permutation_middle. }
        right. split_and!; try done; [|lia]. apply (upd_skb_compose p _ _ _ sl); [done|].
        by rewrite Edec, E.
  - subst st'. split_and!; [|intros _|done].
    + intros q Hq. by rewrite lookup_upd_skb_ne.
    + rewrite (lookup_upd_skb_eq p _ st sl) by done. rewrite Edec. split; [|done].
      pose proof (pool_set_refcount fs fj p sl (refcount (skb sl) - 1) st H Hp Hr ltac:(lia)) as Hinv.
      eapply pool_inv_slots; [| | |exact Hinv]; try done.
      simpl. apply alter_ext. intros x Hx. rewrite Hp in Hx. injection Hx as <-. by rewrite Edec.
Qed.

(** Release.  Dropping a reference of a buffer in use never touches another
    buffer; while other references remain it only lowers the count, and with the
    last one the buffer goes back to the head of the free list of the class it
    was allocated from.  The pool stays well formed. *)
Theorem skb_put_spec fs fj p sl st :
  pool_inv fs fj st -> slots st !! p = Some sl -> refcount (skb sl) <> 0 ->
  let st' := skb_put (Some p) st in
  (forall q, q <> p -> slots st' !! q = slots st !! q) /\
  (refcount (skb sl) <> 1 ->
     pool_inv fs fj st' /\
     slots st' !! p = Some (mk_skb_slot (set_refcount (refcount (skb sl) - 1) (skb sl)) (area sl))) /\
  (refcount (skb sl) = 1 ->
     if decide (p < SKB_SMALL_COUNT)%nat then pool_inv (p :: fs) fj st'
     else pool_inv fs (p :: fj) st').
Proof. apply skb_put_ok. Qed.

(** ** Initialisation *)

Lemma skb_init_small_spec n k st :
  (forall p, (p < n)%nat -> is_Some (slots st !! p)) ->
  chain (next_of st) (small_freelist st) (seq n k) ->
  let st' := skb_init_small n st in
  chain (next_of st') (small_freelist st') (seq 0 (n + k)) /\
  jumbo_freelist st' = jumbo_freelist st /\
  (forall p, (n <= p)%nat -> slots st' !! p = slots st !! p) /\
  (forall p sl, (p < n)%nat -> slots st !! p = Some sl ->
     exists q, slots st' !! p =
       Some (mk_skb_slot (set_next q (skb_init_slot SKB_SMALL_DATA SKB_SIG_SMALL)) (area sl))).
Proof.
  revert k st. induction n as [|n IH]; intros k st Hs Hc; cbn [skb_init_small].
  - split_and!; try done. intros; lia.
  - set (st1 := upd_skb (small_addr n) _ st).
    set (st2 := upd_skb (small_addr n) (set_next (small_freelist st1)) st1).
    destruct (Hs n) as [sln Hsln]; [lia|].
    assert (H2 : forall p, (p <> n)%nat -> slots st2 !! p = slots st !! p).
    { intros p Hp. unfold st2, st1, small_addr. by rewrite !lookup_upd_skb_ne. }
    assert (H2n : slots st2 !! n = Some (mk_skb_slot (set_next (small_freelist st)
                    (skb_init_slot SKB_SMALL_DATA SKB_SIG_SMALL)) (area sln))).
    { unfold st2, small_addr. erewrite lookup_upd_skb_eq; [|by apply (lookup_upd_skb_eq n _ st sln)].
      done. }
    destruct (IH (S k) (set_small_freelist (Some (small_addr n)) st2)) as (I1 & I2 & I3 & I4).
    + intros p Hp. simpl. rewrite H2 by lia. apply Hs. lia.
    + cbn [seq]. split; [done|]. simpl small_freelist.
      unfold next_of at 2. cbn [slots set_small_freelist]. rewrite H2n. simpl.
      eapply chain_ext; [|exact Hc]. intros x Hx%elem_of_seq.
      unfold next_of. simpl slots. rewrite H2; [done|lia].
    + replace (n + S k)%nat with (S n + k)%nat in I1 by lia. split_and!; [done|done| |].
      * intros p Hp. rewrite I3 by lia. apply H2. lia.
      * intros p sl Hp Hsl. destruct (decide (p = n)) as [->|Hne].
        -- rewrite I3 by lia. rewrite Hsln in Hsl. injection Hsl as <-. eauto.
        -- apply I4; [lia|]. simpl. by rewrite H2.
Qed.

Lemma skb_init_jumbo_spec n k st :
  (forall p, (p < n)%nat -> is_Some (slots st !! jumbo_addr p)) ->
  chain (next_of st) (jumbo_freelist st) (seq (jumbo_addr n) k) ->
  let st' := skb_init_jumbo n st in
  chain (next_of st') (jumbo_freelist st') (seq (jumbo_addr 0) (n + k)) /\
  small_freelist st' = small_freelist st /\
  (forall p, (p < jumbo_addr 0)%nat \/ (jumbo_addr n <= p)%nat -> slots st' !! p = slots st !! p) /\
  (forall p sl, (p < n)%nat -> slots st !! jumbo_addr p = Some sl ->
     exists q, slots st' !! jumbo_addr p =
       Some (mk_skb_slot (set_next q (skb_init_slot SKB_JUMBO_DATA SKB_SIG_JUMBO)) (area sl))).
Proof.
  revert k st. induction n as [|n IH]; intros k st Hs Hc; cbn [skb_init_jumbo].
  - split_and!; try done. intros; lia.
  - set (st1 := upd_skb (jumbo_addr n) _ st).
    set (st2 := upd_skb (jumbo_addr n) (set_next (jumbo_freelist st1)) st1).
    destruct (Hs n) as [sln Hsln]; [lia|].
    assert (H2 : forall p, (p <> jumbo_addr n)%nat -> slots st2 !! p = slots st !! p).
    { intros p Hp. unfold st2, st1. by rewrite !lookup_upd_skb_ne. }
    assert (H2n : slots st2 !! jumbo_addr n = Some (mk_skb_slot (set_next (jumbo_freelist st)
                    (skb_init_slot SKB_JUMBO_DATA SKB_SIG_JUMBO)) (area sln))).
    { unfold st2. erewrite lookup_upd_skb_eq; [|by apply (lookup_upd_skb_eq _ _ st sln)]. done. }
    assert (Haddr : jumbo_addr (S n) = S (jumbo_addr n)) by (unfold jumbo_addr; lia).
    destruct (IH (S k) (set_jumbo_freelist (Some (jumbo_addr n)) st2)) as (I1 & I2 & I3 & I4).
    + intros p Hp. simpl. rewrite H2 by (unfold jumbo_addr; lia). apply Hs. lia.
    + cbn [seq]. split; [done|]. simpl jumbo_freelist.
      unfold next_of at 2. cbn [slots set_jumbo_freelist]. rewrite H2n. simpl.
      rewrite Haddr in Hc. eapply chain_ext; [|exact Hc]. intros x Hx%elem_of_seq.
      unfold next_of. simpl slots. rewrite H2; [done|lia].
    + replace (n + S k)%nat with (S n + k)%nat in I1 by lia. split_and!; [done|done| |].
      * intros p Hp. rewrite I3 by (unfold jumbo_addr in *; lia).
        apply H2. unfold jumbo_addr in *; lia.
      * intros p sl Hp Hsl. destruct (decide (p = n)) as [->|Hne].
        -- rewrite I3 by lia. rewrite Hsln in Hsl. injection Hsl as <-. eauto.
        -- apply I4; [lia|]. simpl. rewrite H2; [done|]. unfold jumbo_addr; lia.
Qed.

(** The pool after both loops. *)
Lemma pool_inv_after_init st0 sm st2 :
  boot_slots st0 ->
  chain (next_of sm) (small_freelist sm) (seq 0 SKB_SMALL_COUNT) ->
  (forall p, (SKB_SMALL_COUNT <= p)%nat -> slots sm !! p = slots st0 !! p) ->
  (forall p sl, (p < SKB_SMALL_COUNT)%nat -> slots st0 !! p = Some sl ->
     exists q, slots sm !! p =
       Some (mk_skb_slot (set_next q (skb_init_slot SKB_SMALL_DATA SKB_SIG_SMALL)) (area sl))) ->
  chain (next_of st2) (jumbo_freelist st2) (seq SKB_SMALL_COUNT SKB_JUMBO_COUNT) ->
  small_freelist st2 = small_freelist sm ->
  (forall p, (p < SKB_SMALL_COUNT)%nat \/ (SKB_SMALL_COUNT + SKB_JUMBO_COUNT <= p)%nat ->
     slots st2 !! p = slots sm !! p) ->
  (forall p sl, (p < SKB_JUMBO_COUNT)%nat -> slots sm !! jumbo_addr p = Some sl ->
     exists q, slots st2 !! jumbo_addr p =
       Some (mk_skb_slot (set_next q (skb_init_slot SKB_JUMBO_DATA SKB_SIG_JUMBO)) (area sl))) ->
  pool_inv (seq 0 SKB_SMALL_COUNT) (seq SKB_SMALL_COUNT SKB_JUMBO_COUNT) st2.
Proof.
  intros [Hb Hd] S1 S3 S4 J1 J2 J3 J4.
  assert (Hslot : forall p, (p < SKB_SMALL_COUNT + SKB_JUMBO_COUNT)%nat ->
    exists sl q, slots st2 !! p = Some sl /\ Z.of_nat (length (area sl)) = class_size p /\
      skb sl = set_next q (skb_init_slot (class_size p) (class_sig p))).
  { intros p Hp. destruct (Hb p Hp) as (sl & Hsl & Ha). unfold class_size, class_sig in *.
    destruct (decide (p < SKB_SMALL_COUNT)%nat) as [Hc|Hc].
    - destruct (S4 p sl Hc Hsl) as [q Hq]. rewrite J3 by (left; lia). rewrite Hq. eauto 6.
    - assert (Hpj : p = jumbo_addr (p - SKB_SMALL_COUNT)) by (unfold jumbo_addr; lia).
      destruct (J4 (p - SKB_SMALL_COUNT)%nat sl) as [q Hq]; [lia| |].
      + rewrite <- Hpj, S3 by lia. done.
      + rewrite <- Hpj in Hq. rewrite Hq. eauto 6. }
  assert (Hdom : forall p sl, slots st2 !! p = Some sl -> (p < SKB_SMALL_COUNT + SKB_JUMBO_COUNT)%nat).
  { intros p sl Hp. destruct (decide (p < SKB_SMALL_COUNT + SKB_JUMBO_COUNT)%nat); [done|].
    rewrite J3, S3 in Hp by lia. by apply (Hd p sl). }
  assert (Hmem : forall p, (p < SKB_SMALL_COUNT + SKB_JUMBO_COUNT)%nat <->
    p ∈ seq 0 SKB_SMALL_COUNT ++ seq SKB_SMALL_COUNT SKB_JUMBO_COUNT).
  { intros p. rewrite elem_of_app, !elem_of_seq. lia. }
  split; try done.
  - intros p Hp. destruct (Hslot p Hp) as (sl & q & Hsl & Ha & Hskb). exists sl. split; [done|].
    split; rewrite ?Hskb; done.
  - rewrite J2. eapply chain_ext; [|exact S1].
    intros x Hx%elem_of_seq. unfold next_of. rewrite J3 by lia. done.
  - apply NoDup_app. split_and!; [apply NoDup_seq| |apply NoDup_seq].
    intros x Hx%elem_of_seq Hy%elem_of_seq. lia.
  - apply Forall_forall. intros x Hx%elem_of_seq. lia.
  - apply Forall_forall. intros x Hx%elem_of_seq. lia.
  - intros p sl Hsl. rewrite <- Hmem. split; [by intros _; apply (Hdom p sl)|].
    intros Hp. destruct (Hslot p Hp) as (sl' & q & Hsl' & _ & Hskb).
    rewrite Hsl in Hsl'. injection Hsl' as <-. by rewrite Hskb.
Qed.

Lemma skb_pool_init_inv st :
  boot_slots st ->
  pool_inv (seq 0 SKB_SMALL_COUNT) (seq SKB_SMALL_COUNT SKB_JUMBO_COUNT) (skb_pool_init st).
Proof.
  intros Hboot. destruct Hboot as [Hb Hd]. unfold skb_pool_init.
  pose proof (skb_init_small_spec SKB_SMALL_COUNT 0 (set_small_freelist None st)) as Hsm.
  revert Hsm. generalize (skb_init_small SKB_SMALL_COUNT (set_small_freelist None st)).
  intros sm Hsm. cbv zeta in *.
  pose proof (skb_init_jumbo_spec SKB_JUMBO_COUNT 0 (set_jumbo_freelist None sm)) as Hj.
  revert Hj. generalize (skb_init_jumbo SKB_JUMBO_COUNT (set_jumbo_freelist None sm)).
  intros st2 Hj. cbv zeta in *.
  rewrite !Nat.add_0_r in *.
  destruct Hsm as (S1 & _ & S3 & S4).
  { intros p Hp. destruct (Hb p) as (sl & Hsl & _); [lia|]. by exists sl. }
  { reflexivity. }
  destruct Hj as (J1 & J2 & J3 & J4).
  { intros p Hp. cbn [slots set_jumbo_freelist]. rewrite S3 by (unfold jumbo_addr; lia).
    destruct (Hb (jumbo_addr p)) as (sl & Hsl & _); [unfold jumbo_addr; lia|]. by exists sl. }
  { reflexivity. }
  apply (pool_inv_slots _ _ st2); try reflexivity.
  assert (E0 : jumbo_addr 0 = SKB_SMALL_COUNT) by (unfold jumbo_addr; lia).
  rewrite E0 in *.
  apply (pool_inv_after_init st sm st2); [by split|exact S1|exact S3|exact S4|exact J1|exact J2| |exact J4].
  intros p Hp. apply J3. unfold jumbo_addr. lia.
Qed.

(** [skb_pool_init] establishes the pool invariant with all 512 small and 8
    jumbo buffers free, in address order, and marks the pool ready. *)
Theorem skb_pool_init_ok st :
  boot_slots st ->
  pool_inv (seq 0 SKB_SMALL_COUNT) (seq SKB_SMALL_COUNT SKB_JUMBO_COUNT) (skb_pool_init st) /\
  skb_pool_ready (skb_pool_init st) = true.
Proof. intros Hb. split; [by apply skb_pool_init_inv|reflexivity]. Qed.

(** ** Queues *)

(** Relinking a buffer in use keeps the pool invariant. *)
Lemma pool_set_next fs fj p q st :
  pool_inv fs fj st -> p ∉ fs ++ fj -> is_Some (slots st !! p) ->
  pool_inv fs fj (upd_skb p (set_next q) st).
Proof.
  intros H Hf [sl Hp].
  destruct (upd_slots fs fj st p (set_next q) sl) as [Hall Hdom]; [done|done| |].
  { apply slot_ok_upd; try done; [by eapply pool_slot_at|]. simpl.
    by apply (slot_ref p), (pool_slot_at fs fj st). }
  rewrite elem_of_app in Hf.
  split; try done; try apply H.
  - apply chain_upd_other; [tauto|apply (pool_small _ _ _ H)].
  - apply chain_upd_other; [tauto|apply (pool_jumbo _ _ _ H)].
  - apply (upd_free fs fj fs fj st p _ sl); try done. simpl. by apply (pool_free _ _ _ H).
Qed.

Lemma is_Some_upd p f st x : is_Some (slots (upd_skb p f st) !! x) <-> is_Some (slots st !! x).
Proof. rewrite lookup_upd_skb. case_decide; [|done]. by rewrite fmap_is_Some. Qed.

Lemma queue_inv_nil fs fj st : queue_inv [] fs fj skb_queue_init st.
Proof. split; try done; [constructor|]. intros p Hp. by apply elem_of_nil in Hp. Qed.

Lemma queue_tail_ok l fs fj q p st :
  pool_inv fs fj st -> queue_inv l fs fj q st ->
  p ∉ fs ++ fj -> p ∉ l -> is_Some (slots st !! p) ->
  let '(q', st') := skb_queue_tail (Some p) q st in
  pool_inv fs fj st' /\ queue_inv (l ++ [p]) fs fj q' st'.
Proof.
  intros H [Hc Ht Hl Hnd Hu] Hf Hpl Hp. unfold skb_queue_tail. rewrite Ht.
  set (st1 := upd_skb p (set_next None) st).
  assert (H1 : pool_inv fs fj st1) by (by apply pool_set_next).
  assert (Hc1 : chain (next_of st1) (q_head q) l) by (by apply chain_upd_other).
  assert (Hn1 : next_of st1 p = None).
  { unfold st1. rewrite next_of_set_next by done. apply redirect_eq. }
  assert (Hlen : u32 (q_len q + 1) = u32 (Z.of_nat (length (l ++ [p])))).
  { rewrite Hl, length_app. simpl. unfold u32. rewrite Z.add_mod_idemp_l by lia. f_equal. lia. }
  assert (Hnd' : NoDup (l ++ [p])).
  { apply NoDup_app. split_and!; [done| |apply NoDup_singleton].
    intros x Hx ->%list_elem_of_singleton. done. }
  assert (Hu' : forall x, x ∈ l ++ [p] -> (x ∉ fs ++ fj) /\ is_Some (slots st !! x)).
  { intros x [Hx| ->%list_elem_of_singleton]%elem_of_app; [by apply Hu|done]. }
  destruct l as [|y l _] using rev_ind.
  - cbn [last]. split; [done|]. split; try done.
    intros x Hx. unfold st1. rewrite is_Some_upd. by apply Hu'.
  - rewrite last_snoc. assert (Hy : is_Some (slots st1 !! y)).
    { apply is_Some_upd, Hu. set_solver. }
    split; [apply pool_set_next; [done|apply Hu; set_solver|done]|].
    split; try done.
    + cbn [q_head]. eapply chain_ext; [intros x _; symmetry; by apply next_of_set_next|].
      by apply chain_snoc.
    + simpl. by rewrite last_snoc.
    + intros x Hx. unfold st1. rewrite !is_Some_upd. by apply Hu'.
Qed.

Lemma queue_head_ok l fs fj q st :
  pool_inv fs fj st -> queue_inv l fs fj q st -> Z.of_nat (length l) < 2 ^ 32 ->
  let '(q', st', r) := skb_queue_head q st in
  match l with
  | [] => r = None /\ q' = q /\ st' = st
  | p :: l' => r = Some p /\ pool_inv fs fj st' /\ queue_inv l' fs fj q' st' /\
               next_of st' p = None
  end.
Proof.
  intros H [Hc Ht Hl Hnd Hu] Hlen. unfold skb_queue_head.
  destruct l as [|p l]; simpl in Hc.
  - by rewrite Hc.
  - destruct Hc as [-> Hc].
    destruct (Hu p) as [Hf Hp]; [left|]. apply NoDup_cons in Hnd as [Hpl Hnd].
    split_and!; [done|by apply pool_set_next| |].
    + split; try done.
      * cbn [q_head]. by apply chain_upd_other.
      * cbn [q_tail]. destruct l as [|x l]; simpl in Hc; [by rewrite Hc|].
        destruct Hc as [-> _]. by rewrite Ht.
      * cbn [q_len]. rewrite Hl. cbn [length] in *. rewrite (u32_small (Z.of_nat _)) by lia. f_equal. lia.
      * intros x Hx. rewrite is_Some_upd. apply Hu. by right.
    + rewrite next_of_set_next by done. apply redirect_eq.
Qed.

(**  A queue is a FIFO: enqueueing a buffer in use appends it, dequeueing
    removes the oldest buffer (NULL when empty) and unlinks it; neither
    operation disturbs the free lists. *)
Theorem skb_queue_fifo l fs fj q st :
  pool_inv fs fj st -> queue_inv l fs fj q st -> Z.of_nat (length l) < 2 ^ 32 ->
  (forall p, p ∉ fs ++ fj -> p ∉ l -> is_Some (slots st !! p) ->
     let '(q', st') := skb_queue_tail (Some p) q st in
     pool_inv fs fj st' /\ queue_inv (l ++ [p]) fs fj q' st') /\
  (let '(q', st', r) := skb_queue_head q st in
   match l with
   | [] => r = None /\ q' = q /\ st' = st
   | p :: l' => r = Some p /\ pool_inv fs fj st' /\ queue_inv l' fs fj q' st' /\
                next_of st' p = None
   end).
Proof.
  intros H Hq Hl. split.
  - intros p Hf Hpl Hp. by apply queue_tail_ok.
  - by apply queue_head_ok.
Qed.

(** ** Data window *)

(** Appending, prepending and pulling within bounds keep the window inside the
    buffer and [len] equal to its size. *)
Lemma skb_append_window n s :
  window_ok s -> 0 <= n -> tail s + n <= end_ s -> tail s - data s + n < 65536 ->
  window_ok (skb_append n s).1 /\ (skb_append n s).2 = tail s.
Proof.
  intros [Hd [He Hl]] Hn Hb H16. split; [|done]. unfold window_ok. simpl.
  rewrite u16_small by lia. lia.
Qed.

Lemma skb_prepend_window n s :
  window_ok s -> 0 <= n -> head s + n <= data s -> tail s - data s + n < 65536 ->
  window_ok (skb_prepend n s).1.
Proof.
  intros [Hd [He Hl]] Hn Hb H16. unfold window_ok. simpl. rewrite u16_small by lia. lia.
Qed.

Lemma skb_pull_window n s :
  window_ok s -> 0 <= n <= len s -> len s < 65536 -> window_ok (skb_pull n s).
Proof.
  intros [Hd [He Hl]] Hn H16. unfold window_ok. simpl. rewrite u16_small by lia. lia.
Qed.

(** ** Packet building *)

Lemma lookup_skb_write p off bs st q :
  slots (skb_write p off bs st) !! q =
  if decide (q = p) then
    (fun sl => mk_skb_slot (skb sl) (write_at (Z.to_nat off) bs (area sl))) <$> slots st !! q
  else slots st !! q.
Proof.
  simpl. destruct (decide (q = p)) as [->|Hne]; [by rewrite lookup_alter_eq|].
  by rewrite lookup_alter_ne.
Qed.

(** Replacing the slot of a buffer in use by one with the same link and class
    keeps the invariant. *)
Lemma pool_replace fs fj p sl sl' st st' :
  pool_inv fs fj st -> slots st !! p = Some sl -> refcount (skb sl) <> 0 ->
  slots st' !! p = Some sl' -> (forall q, q <> p -> slots st' !! q = slots st !! q) ->
  small_freelist st' = small_freelist st -> jumbo_freelist st' = jumbo_freelist st ->
  slot_ok p sl' -> refcount (skb sl') <> 0 ->
  pool_inv fs fj st'.
Proof.
  intros H Hp Hr Hp' Hq Es Ej Hok Hr'.
  assert (Hf : p ∉ fs ++ fj) by (by rewrite <- (pool_free _ _ _ H p sl Hp)).
  rewrite elem_of_app in Hf.
  assert (Hnx : forall x, x <> p -> next_of st' x = next_of st x)
    by (intros; unfold next_of; by rewrite Hq).
  split; try apply H.
  - intros q Hlt. destruct (decide (q = p)) as [->|]; [eauto|].
    rewrite Hq by done. by apply (pool_slots _ _ _ H).
  - intros q x. destruct (decide (q = p)) as [->|]; [intros _; by apply (pool_dom _ _ _ H p sl)|].
    rewrite Hq by done. apply (pool_dom _ _ _ H).
  - rewrite Es. eapply chain_ext; [|apply (pool_small _ _ _ H)].
    intros x Hx. symmetry. apply Hnx. intros ->. tauto.
  - rewrite Ej. eapply chain_ext; [|apply (pool_jumbo _ _ _ H)].
    intros x Hx. symmetry. apply Hnx. intros ->. tauto.
  - intros q x Hx. destruct (decide (q = p)) as [->|].
    + rewrite Hp' in Hx. injection Hx as <-. rewrite elem_of_app. tauto.
    + rewrite Hq in Hx by done. by apply (pool_free _ _ _ H).
Qed.

(** A successful build owns one buffer that holds exactly the given bytes. *)
Lemma skb_build_ok F dev bs st :
  pool_has F st -> skb_pool_ready st = true -> Z.of_nat (length bs) < 65536 ->
  let '(st', r) := skb_build dev (Z.of_nat (length bs)) bs st in
  match r with
  | Some p =>
      owns st' p bs /\ (exists sl, slots st' !! p = Some sl /\ skb_dev (skb sl) = dev) /\
      (forall q, q <> p -> slots st' !! q = slots st !! q) /\
      exists F', F ≡ₚ p :: F' /\ pool_has F' st'
  | None =>
      slots st' = slots st /\ pool_has F st' /\
      (SKB_SMALL_DATA < Z.of_nat (length bs) + SKB_HEADROOM \/ F = [])
  end.
Proof.
  intros (fs & fj & HF & H) Hr Hn. unfold skb_build.
  pose proof (skb_alloc_ok fs fj (Z.of_nat (length bs)) st H Hr ltac:(unfold SKB_HEADROOM; lia)) as Ha.
  destruct (skb_alloc (Z.of_nat (length bs)) st) as [st1 [p|]] eqn:E.
  2: { destruct Ha as (? & ? & Hwhy). split_and!; [done|by exists fs, fj|].
       destruct Hwhy as [?|[[? _]|[-> ->]]]; [left|by left|right].
       - unfold SKB_SMALL_DATA, SKB_JUMBO_DATA in *. lia.
       - simpl in HF. by apply Permutation_nil_l in HF. }
  destruct Ha as [(sl & Hsl & Hr0 & Hsl1 & Hd & Hcap & _ & Hother) (fs' & fj' & Hperm & H1)].
  set (sl1 := mk_skb_slot (skb_reset (skb sl)) (area sl)) in *.
  pose proof (pool_slot_at _ _ _ _ _ H1 Hsl1) as Hok1.
  set (st2 := upd_skb p (set_skb_dev dev) st1).
  assert (Hsl2 : slots st2 !! p = Some (mk_skb_slot (set_skb_dev dev (skb sl1)) (area sl)))
    by (by apply (lookup_upd_skb_eq p _ st1 sl1)).
  rewrite Hsl2. cbn [skb tail set_skb_dev].
  set (st3 := skb_write _ _ _ _).
  set (n := Z.of_nat (length bs)) in *.
  assert (Htail : tail (skb sl1) = SKB_HEADROOM /\ data (skb sl1) = SKB_HEADROOM).
  { split; [|exact Hd]. rewrite <- Hd. done. }
  destruct Htail as [Ht Hda].
  set (sl3 := mk_skb_slot (skb_append n (set_skb_dev dev (skb sl1))).1
                (write_at (Z.to_nat (tail (skb sl1))) bs (area sl))).
  assert (Hsl3 : slots st3 !! p = Some sl3).
  { unfold st3. rewrite lookup_skb_write, decide_True by done.
    erewrite lookup_upd_skb_eq; [|exact Hsl2]. done. }
  assert (Hother3 : forall q, q <> p -> slots st3 !! q = slots st1 !! q).
  { intros q Hq. unfold st3. rewrite lookup_skb_write, decide_False by done.
    unfold st2. by rewrite !lookup_upd_skb_ne. }
  assert (Hlen : u16 (0 + n) = n) by (rewrite Z.add_0_l; apply u16_small; lia).
  assert (Harea : (Z.to_nat SKB_HEADROOM + length bs <= length (area sl))%nat).
  { pose proof (slot_area _ _ Hok1) as Ea. pose proof (slot_end _ _ Hok1) as Ee.
    cbn [area sl1] in Ea. unfold SKB_HEADROOM in *. simpl in *. lia. }
  split_and!.
  - split.
    + unfold skb_payload. rewrite Hsl3. unfold sl3.
      cbn [skb area skb_append fst set_window data len set_skb_dev].
      rewrite Hda, Ht. change (len (skb sl1)) with 0. rewrite Hlen.
      unfold n. rewrite Nat2Z.id. by apply read_write_at.
    + exists sl3. split_and!; try done.
  - exists sl3. split; done.
  - intros q Hq. rewrite Hother3, Hother by done. done.
  - exists (fs' ++ fj'). split; [by rewrite <- HF|]. exists fs', fj'. split; [done|].
    apply (pool_replace fs' fj' p sl1 sl3 st1 st3); try done.
    destruct Hok1 as [? ? ? Ha _]. split; try done. cbn [area sl3]. by rewrite length_write_at.
Qed.

(** Releasing the only reference gives back the buffer. *)
Lemma skb_put_last F p bs st :
  pool_has F st -> owns st p bs ->
  pool_has (p :: F) (skb_put (Some p) st) /\
  (forall q, q <> p -> slots (skb_put (Some p) st) !! q = slots st !! q).
Proof.
  intros (fs & fj & HF & H) (_ & sl & Hp & Hr & _).
  destruct (skb_put_ok fs fj p sl st H Hp ltac:(lia)) as (Hq & _ & H1).
  split; [|done]. specialize (H1 Hr). case_decide.
  - exists (p :: fs), fj. by rewrite <- HF.
  - exists fs, (p :: fj). rewrite <- HF. split; [symmetry; apply Permutation_middle|done].
Qed.

#[export] Instance pool_has_proper : Proper ((≡ₚ) ==> eq ==> iff) pool_has.
Proof.
  intros F F' HF st st' <-. split; intros (fs & fj & HF' & H); exists fs, fj; split; try done.
  - by rewrite HF'.
  - by rewrite HF'.
Qed.

(** Buffers in use are not free. *)
Lemma owns_not_free F st p bs : pool_has F st -> owns st p bs -> p ∉ F.
Proof.
  intros (fs & fj & HF & H) (_ & sl & Hp & Hr & _). rewrite <- HF.
  rewrite <- (pool_free _ _ _ H p sl Hp). lia.
Qed.

Lemma owns_frame st st' p bs : slots st' !! p = slots st !! p -> owns st p bs -> owns st' p bs.
Proof. intros E. unfold owns, skb_payload. by rewrite E. Qed.

Lemma skb_alloc_ready n st : skb_pool_ready (skb_alloc n st).1 = skb_pool_ready st.
Proof.
  unfold skb_alloc, skb_pop_small, skb_pop_jumbo. repeat case_if; try done;
  destruct (small_freelist st), (jumbo_freelist st); done.
Qed.

Lemma skb_put_ready p st : skb_pool_ready (skb_put p st) = skb_pool_ready st.
Proof.
  unfold skb_put. destruct p as [a|]; [|done]. destruct (slots st !! a); [|done].
  repeat case_if; done.
Qed.

Lemma skb_build_ready dev n bs st : skb_pool_ready (skb_build dev n bs st).1 = skb_pool_ready st.
Proof.
  unfold skb_build. pose proof (skb_alloc_ready n st) as H.
  destruct (skb_alloc _ st) as [st1 [p|]]; done.
Qed.

(** ** Witnesses *)

(** The static arrays at boot: zeroed headers and areas. *)
Definition boot_pool : skb_pool :=
  {| slots := list_to_map
       (((fun p => (p, mk_skb_slot (skb_init_slot 0 0) (replicate (Z.to_nat (class_size p)) 0)))
          <$> seq 0 (SKB_SMALL_COUNT + SKB_JUMBO_COUNT)));
     small_freelist := None; jumbo_freelist := None; skb_pool_ready := false;
     skb_alloc_small_ok := 0; skb_alloc_jumbo_ok := 0; skb_alloc_smallfail_promote := 0;
     skb_alloc_jumbofail_demote := 0; skb_alloc_total_fail := 0 |}.

Lemma boot_pool_slots : boot_slots boot_pool.
Proof.
  assert (Hl : forall p sl, slots boot_pool !! p = Some sl <->
    (p < SKB_SMALL_COUNT + SKB_JUMBO_COUNT)%nat /\
    sl = mk_skb_slot (skb_init_slot 0 0) (replicate (Z.to_nat (class_size p)) 0)).
  { intros p sl. unfold boot_pool. cbn [slots]. rewrite <- elem_of_list_to_map.
    - rewrite list_elem_of_fmap. split.
      + intros (x & [= -> ->] & Hx%elem_of_seq). split; [lia|done].
      + intros [Hp ->]. exists p. split; [done|]. apply elem_of_seq. lia.
    - rewrite <- list_fmap_compose. rewrite (list_fmap_ext _ id); [|done].
      rewrite list_fmap_id. apply NoDup_seq. }
  split.
  - intros p Hp. eexists. split; [by apply Hl|]. cbn [area]. rewrite length_replicate.
    rewrite Z2Nat.id; [done|]. unfold class_size. case_decide; done.
  - intros p sl Hp. by apply Hl in Hp as [Hp _].
Qed.

Lemma skb_pool_init_ok_witness : skb_pool_ready (skb_pool_init boot_pool) = true.
Proof. exact (proj2 (skb_pool_init_ok boot_pool boot_pool_slots)). Defined.

Lemma skb_alloc_spec_witness :
  let '(st', r) := skb_alloc 1514 (skb_pool_init boot_pool) in
  match r with
  | Some p => fresh_skb p 1514 (skb_pool_init boot_pool) st'
  | None => slots st' = slots (skb_pool_init boot_pool)
  end.
Proof.
  pose proof (skb_alloc_spec _ _ 1514 _ (skb_pool_init_inv boot_pool boot_pool_slots) eq_refl
                ltac:(unfold SKB_HEADROOM; lia)) as H.
  destruct (skb_alloc 1514 (skb_pool_init boot_pool)) as [st' [p|]]; [exact (proj1 H)|exact (proj1 H)].
Defined.

(** The booted pool with buffer 0 taken. *)
Definition used_pool : skb_pool :=
  let st := skb_pool_init boot_pool in
  upd_skb 0 skb_reset (set_small_freelist (next_of st 0) st).

Lemma used_pool_ok :
  pool_inv (seq 1 511) (seq SKB_SMALL_COUNT SKB_JUMBO_COUNT) used_pool /\
  exists sl, slots used_pool !! 0%nat = Some sl /\ refcount (skb sl) = 1.
Proof.
  pose proof (skb_pool_init_inv boot_pool boot_pool_slots) as H. unfold used_pool.
  revert H. generalize (skb_pool_init boot_pool). intros st H. cbv zeta.
  destruct (free_slot _ _ _ 0%nat H) as (sl & Hsl & _).
  { apply elem_of_app. left. apply elem_of_seq. unfold SKB_SMALL_COUNT. lia. }
  pose proof (pool_small _ _ _ H) as [E Hc].
  split.
  - eapply (pool_take _ _ _ _ 0%nat st); [exact H|reflexivity| | |reflexivity|exact Hc|apply (pool_jumbo _ _ _ H)].
    + intros x Hx%elem_of_seq. apply elem_of_seq. unfold SKB_SMALL_COUNT. lia.
    + done.
  - exists (mk_skb_slot (skb_reset (skb sl)) (area sl)). split; [|done].
    by apply lookup_upd_skb_eq.
Qed.

Lemma skb_put_spec_witness :
  pool_inv (0%nat :: seq 1 511) (seq SKB_SMALL_COUNT SKB_JUMBO_COUNT) (skb_put (Some 0%nat) used_pool).
Proof.
  destruct used_pool_ok as [H (sl & Hsl & Hr)].
  pose proof (skb_put_spec _ _ 0%nat sl used_pool H Hsl ltac:(lia)) as (_ & _ & H1).
  exact (H1 Hr).
Defined.

Lemma skb_queue_fifo_witness :
  queue_inv [0%nat] (seq 1 511) (seq SKB_SMALL_COUNT SKB_JUMBO_COUNT)
    (skb_queue_tail (Some 0%nat) skb_queue_init used_pool).1
    (skb_queue_tail (Some 0%nat) skb_queue_init used_pool).2.
Proof.
  destruct used_pool_ok as [H (sl & Hsl & Hr)].
  pose proof (skb_queue_fifo [] _ _ skb_queue_init used_pool H (queue_inv_nil _ _ _) ltac:(simpl; lia))
    as [Hq _].
  refine (proj2 (Hq 0%nat _ _ _)).
  - unfold SKB_SMALL_COUNT. intros [?%elem_of_seq|?%elem_of_seq]%elem_of_app; lia.
  - apply not_elem_of_nil.
  - by exists sl.
Defined.
