(* ===== verification/Net.v ===== *)
(** * The network core: state, Ethernet transmit, loopback and receive queue

    Models [eth_send] of [kernel/net/ethernet.c] and the device and receive
    queue part of [kernel/net/net.c].  [net_state] is the state the network
    layers share.  The transmit routine of a hardware NIC is not part of the
    model: [nic_send] is a parameter that gives the value it returns, and the
    frames handed to it are recorded in [tx], oldest first.  The packets the
    IPv4 layer passes to the protocols above it are recorded in [upcalls]. *)

From Stdlib Require Import ZArith Lia Bool.
From stdpp Require Import base list gmap.
From S2P Require Import Prelude Wire Chain Skb Route.

(** ** ARP and IPv4 tables (their code is in the files Arp and Ipv4) *)

Record arp_entry := mk_arp_entry {
  ae_ip : Z;
  ae_mac : list Z;
  ae_timestamp : Z;
  ae_valid : bool;
}.

Record arp_pending := mk_arp_pending {
  ap_in_use : bool;
  ap_next_hop_ip : Z;
  ap_dev : devptr;
  ap_skb : skbptr;
  ap_enqueued_tick : Z;
}.

Record pmtu_entry := mk_pmtu_entry {
  pm_dst_ip : Z;
  pm_mtu : Z;
  pm_last_use : Z;
}.

(** One datagram under reassembly; [ra_bitmap] has one element per 8-byte block. *)
Record ipv4_reassembly_slot := mk_ipv4_reassembly_slot {
  ra_active : bool;
  ra_src_ip : Z;
  ra_dst_ip : Z;
  ra_identification : Z;
  ra_protocol : Z;
  ra_have_last : Z;
  ra_total_len : Z;
  ra_expire_tick : Z;
  ra_data : list Z;
  ra_bitmap : list Z;
}.

(** What the IPv4 layer passes up. *)
Inductive upcall :=
| Up_icmp (dev : devptr) (src : Z) (payload : list Z) (ttl : Z)
| Up_udp (dev : devptr) (src dst : Z) (payload : list Z) (ttl tos : Z)
| Up_tcp (dev : devptr) (src dst : Z) (payload : list Z)
| Up_igmp (dev : devptr) (src : Z) (payload : list Z)
| Up_raw (src dst proto : Z) (packet : list Z).

Record net_state := mk_net_state {
  pool : skb_pool;
  devs : gmap nat net_device;
  lo : devptr;                       (* net_get_loopback() *)
  rx_queue_inited : bool;
  rx_queue : skb_queue;              (* of the executing CPU *)
  routes : route_table;
  arp_table : list arp_entry;
  arp_pending_pool : list arp_pending;
  arp_reply_ip : Z;
  arp_reply_mac : list Z;
  arp_reply_ready : bool;
  pmtu_cache : list pmtu_entry;
  reassembly : list ipv4_reassembly_slot;
  ticks : Z;                         (* timer_ticks() *)
  random : list Z;                   (* successive values of random_u32() *)
  tx : list (nat * list Z);
  upcalls : list upcall;
}.

(** ** Field updates *)

Definition set_pool (x : skb_pool) (s : net_state) : net_state :=
  mk_net_state x (devs s) (lo s) (rx_queue_inited s) (rx_queue s) (routes s) (arp_table s)
    (arp_pending_pool s) (arp_reply_ip s) (arp_reply_mac s) (arp_reply_ready s) (pmtu_cache s)
    (reassembly s) (ticks s) (random s) (tx s) (upcalls s).

Definition set_devs (x : gmap nat net_device) (s : net_state) : net_state :=
  mk_net_state (pool s) x (lo s) (rx_queue_inited s) (rx_queue s) (routes s) (arp_table s)
    (arp_pending_pool s) (arp_reply_ip s) (arp_reply_mac s) (arp_reply_ready s) (pmtu_cache s)
    (reassembly s) (ticks s) (random s) (tx s) (upcalls s).

Definition set_rx_queue (x : skb_queue) (s : net_state) : net_state :=
  mk_net_state (pool s) (devs s) (lo s) (rx_queue_inited s) x (routes s) (arp_table s)
    (arp_pending_pool s) (arp_reply_ip s) (arp_reply_mac s) (arp_reply_ready s) (pmtu_cache s)
    (reassembly s) (ticks s) (random s) (tx s) (upcalls s).

Definition set_arp_table (x : list arp_entry) (s : net_state) : net_state :=
  mk_net_state (pool s) (devs s) (lo s) (rx_queue_inited s) (rx_queue s) (routes s) x
    (arp_pending_pool s) (arp_reply_ip s) (arp_reply_mac s) (arp_reply_ready s) (pmtu_cache s)
    (reassembly s) (ticks s) (random s) (tx s) (upcalls s).

Definition set_arp_pending_pool (x : list arp_pending) (s : net_state) : net_state :=
  mk_net_state (pool s) (devs s) (lo s) (rx_queue_inited s) (rx_queue s) (routes s) (arp_table s)
    x (arp_reply_ip s) (arp_reply_mac s) (arp_reply_ready s) (pmtu_cache s)
    (reassembly s) (ticks s) (random s) (tx s) (upcalls s).

Definition set_arp_reply (ip : Z) (mac : list Z) (rdy : bool) (s : net_state) : net_state :=
  mk_net_state (pool s) (devs s) (lo s) (rx_queue_inited s) (rx_queue s) (routes s) (arp_table s)
    (arp_pending_pool s) ip mac rdy (pmtu_cache s)
    (reassembly s) (ticks s) (random s) (tx s) (upcalls s).

Definition set_pmtu_cache (x : list pmtu_entry) (s : net_state) : net_state :=
  mk_net_state (pool s) (devs s) (lo s) (rx_queue_inited s) (rx_queue s) (routes s) (arp_table s)
    (arp_pending_pool s) (arp_reply_ip s) (arp_reply_mac s) (arp_reply_ready s) x
    (reassembly s) (ticks s) (random s) (tx s) (upcalls s).

Definition set_reassembly (x : list ipv4_reassembly_slot) (s : net_state) : net_state :=
  mk_net_state (pool s) (devs s) (lo s) (rx_queue_inited s) (rx_queue s) (routes s) (arp_table s)
    (arp_pending_pool s) (arp_reply_ip s) (arp_reply_mac s) (arp_reply_ready s) (pmtu_cache s)
    x (ticks s) (random s) (tx s) (upcalls s).

Definition set_random (x : list Z) (s : net_state) : net_state :=
  mk_net_state (pool s) (devs s) (lo s) (rx_queue_inited s) (rx_queue s) (routes s) (arp_table s)
    (arp_pending_pool s) (arp_reply_ip s) (arp_reply_mac s) (arp_reply_ready s) (pmtu_cache s)
    (reassembly s) (ticks s) x (tx s) (upcalls s).

Definition log_tx (d : nat) (frame : list Z) (s : net_state) : net_state :=
  mk_net_state (pool s) (devs s) (lo s) (rx_queue_inited s) (rx_queue s) (routes s) (arp_table s)
    (arp_pending_pool s) (arp_reply_ip s) (arp_reply_mac s) (arp_reply_ready s) (pmtu_cache s)
    (reassembly s) (ticks s) (random s) (tx s ++ [(d, frame)]) (upcalls s).

Definition log_up (u : upcall) (s : net_state) : net_state :=
  mk_net_state (pool s) (devs s) (lo s) (rx_queue_inited s) (rx_queue s) (routes s) (arp_table s)
    (arp_pending_pool s) (arp_reply_ip s) (arp_reply_mac s) (arp_reply_ready s) (pmtu_cache s)
    (reassembly s) (ticks s) (random s) (tx s) (upcalls s ++ [u]).

(** Adds to the statistics of a device. *)
Definition count_dev (drxp drxb dtxp dtxb derr : Z) (d : net_device) : net_device :=
  mk_net_device (name d) (mac_addr d) (mtu d) (ip_addr d) (netmask d) (gateway d) (dns_server d)
    (send d) (u64 (rx_packets d + drxp)) (u64 (tx_packets d + dtxp)) (u64 (rx_bytes d + drxb))
    (u64 (tx_bytes d + dtxb)) (u64 (rx_errors d + derr)).

(** ** Well-formedness *)

(** A NIC: a device with a transmit routine and a 6-byte address that is not
    the loopback device, with an Ethernet MTU. *)
Record nic_ok (s : net_state) (d : nat) (dv : net_device) : Prop := {
  nic_dev : devs s !! d = Some dv;
  nic_not_lo : lo s <> Some d;
  nic_send_set : send dv = true;
  nic_mac : length (mac_addr dv) = ETH_ALEN;
  nic_mtu : 0 <= mtu dv <= 65521;
}.

(** The buffer pool is ready and its free buffers are those of [F]. *)
Definition net_free (F : list nat) (s : net_state) : Prop :=
  pool_has F (pool s) /\ skb_pool_ready (pool s) = true.

(** ** Operations *)

Section Net.
(** The value the transmit routine of NIC [d] returns for a frame. *)
Variable nic_send : nat -> list Z -> Z.

Definition loopback_send (s : net_state) (d : nat) (bytes : list Z) : net_state * Z :=
  let n := Z.of_nat (length bytes) in
  let s := set_devs (alter (count_dev 1 n 1 n 0) d (devs s)) s in
  if negb (rx_queue_inited s) || (n =? 0) then (s, 0)
  else
    match skb_build (Some d) n bytes (pool s) with
    | (p, None) => (set_devs (alter (count_dev 0 0 0 0 1) d (devs s)) (set_pool p s), -1)
    | (p, Some a) =>
        let '(q, p) := skb_queue_tail (Some a) (rx_queue s) p in
        (set_rx_queue q (set_pool p s), 0)
    end.

(** [dev->send(dev, data, len)]: the loopback routine or the NIC driver's. *)
Definition dev_send (s : net_state) (d : nat) (bytes : list Z) : net_state * Z :=
  if decide (lo s = Some d) then loopback_send s d bytes
  else (log_tx d bytes s, nic_send d bytes).

Definition eth_frame (dst src : list Z) (ethertype : Z) (payload : list Z) : list Z :=
  dst ++ src ++ le16 (net_htons ethertype) ++ payload.

Definition eth_send (s : net_state) (dev : devptr) (dst_mac : list Z) (ethertype : Z)
    (payload : list Z) : net_state * Z :=
  match dev ≫= fun d => pair d <$> devs s !! d with
  | None => (s, -1)
  | Some (d, dv) =>
      if negb (send dv) then (s, -1)
      else if mtu dv <? Z.of_nat (length payload) then (s, -1)
      else
        let frame_len := u16 (ETH_HLEN + Z.of_nat (length payload)) in
        match skb_build dev frame_len (eth_frame dst_mac (mac_addr dv) ethertype payload) (pool s) with
        | (p, None) => (set_pool p s, -1)
        | (p, Some a) =>
            let '(s, ret) := dev_send (set_pool p s) d (skb_payload p a) in
            (set_pool (skb_put (Some a) (pool s)) s, ret)
        end
  end.

(** Receive interrupt: copy the frame into a buffer and queue it. *)
Definition net_rx_packet (s : net_state) (d : nat) (frame : list Z) : net_state :=
  let n := Z.of_nat (length frame) in
  let s := set_devs (alter (count_dev 1 n 0 0 0) d (devs s)) s in
  if negb (rx_queue_inited s) || (n =? 0) then s
  else
    match skb_build (Some d) n frame (pool s) with
    | (p, None) => set_devs (alter (count_dev 0 0 0 0 1) d (devs s)) (set_pool p s)
    | (p, Some a) =>
        let '(q, p) := skb_queue_tail (Some a) (rx_queue s) p in
        set_rx_queue q (set_pool p s)
    end.

(** ** Lemmas *)

Lemma set_pool_twice p p' s : set_pool p (set_pool p' s) = set_pool p s.
Proof. done. Qed.

(** Sending through a NIC: the frame handed to the driver is the destination,
    the device's address, the type in network order and the payload; the buffer
    used goes back to the pool; failure means that no buffer was free (or that a
    jumbo frame found none). *)
Lemma eth_send_nic F s d dv dst et payload :
  net_free F s -> nic_ok s d dv -> length dst = ETH_ALEN ->
  Z.of_nat (length payload) <= mtu dv ->
  let '(s', r) := eth_send s (Some d) dst et payload in
  let frame := eth_frame dst (mac_addr dv) et payload in
  net_free F s' /\
  (forall q, q ∉ F -> slots (pool s') !! q = slots (pool s) !! q) /\
  ((s' = log_tx d frame (set_pool (pool s') s) /\ r = nic_send d frame) \/
   (s' = set_pool (pool s') s /\ r = -1 /\
    (SKB_SMALL_DATA < ETH_HLEN + Z.of_nat (length payload) + SKB_HEADROOM \/ F = []))).
Proof.
  intros [HF Hr] [Hd Hlo Hsend Hmac Hmtu] Hdst Hp. unfold eth_send. cbn [mbind option_bind].
  rewrite Hd. cbn [fmap option_fmap option_map]. rewrite Hsend. cbn [negb].
  destruct (Z.ltb_spec (mtu dv) (Z.of_nat (length payload))); [lia|].
  set (frame := eth_frame dst (mac_addr dv) et payload).
  assert (Hlen : Z.of_nat (length frame) = ETH_HLEN + Z.of_nat (length payload)).
  { unfold frame, eth_frame. rewrite !length_app, Hdst, Hmac. unfold ETH_HLEN, ETH_ALEN. simpl. lia. }
  rewrite u16_small by (unfold ETH_HLEN in *; lia). rewrite <- Hlen.
  pose proof (skb_build_ok F (Some d) frame (pool s) HF Hr ltac:(unfold ETH_HLEN in *; lia)) as Hb.
  pose proof (skb_build_ready (Some d) (Z.of_nat (length frame)) frame (pool s)) as Hrd.
  destruct (skb_build (Some d) (Z.of_nat (length frame)) frame (pool s)) as [P [a|]];
    cbn [fst] in Hrd.
  - destruct Hb as (Hown & _ & Hq & F' & HFF & HP).
    unfold dev_send. rewrite decide_False by done.
    destruct (skb_put_last F' a frame P HP Hown) as [HP' Hq'].
    pose proof (owns_not_free F' P a frame HP Hown).
    split_and!.
    + split; cbn [pool set_pool log_tx].
      * by rewrite HFF.
      * by rewrite skb_put_ready, Hrd.
    + intros q HqF. cbn [pool set_pool log_tx].
      assert (q <> a) by (intros ->; apply HqF; rewrite HFF; left).
      by rewrite Hq', Hq.
    + left. destruct Hown as [-> _]. done.
  - destruct Hb as (Hs & HP & Hwhy). split_and!; [split; [done|by rewrite <- Hr]| |].
    + intros q _. cbn [pool set_pool]. by rewrite Hs.
    + right. done.
Qed.

End Net.
