(* ===== verification/Arp.v ===== *)
(** * ARP ([kernel/net/arp.c])

    The address cache, the queue of packets that wait for an address, and the
    protocol handlers.  The table and the pending pool are updated under their
    own locks; the frames are sent and the buffers released after the lock is
    dropped, and the model composes the parts in that order. *)

From Stdlib Require Import ZArith Lia Bool.
From stdpp Require Import base list gmap.
From S2P Require Import Prelude Wire Chain Skb Route Net.

Definition ARP_TABLE_SIZE : nat := 64.
Definition ARP_PENDING_MAX : nat := 128.
Definition ARP_PENDING_TIMEOUT : Z := 100.
Definition ARP_OP_REQUEST : Z := 1.
Definition ARP_OP_REPLY : Z := 2.
Definition ARP_HW_ETHER : Z := 1.
Definition sizeof_arp_header : Z := 28.

(** The packed ARP header; the addresses are given as stored in memory. *)
Definition arp_header_bytes (opcode : Z) (sender_mac : list Z) (sender_ip : Z)
    (target_mac : list Z) (target_ip : Z) : list Z :=
  le16 (net_htons ARP_HW_ETHER) ++ le16 (net_htons ETH_P_IP) ++ [6; 4] ++
  le16 (net_htons opcode) ++ sender_mac ++ le32 sender_ip ++ target_mac ++ le32 target_ip.

(** Fields of a received ARP packet. *)
Definition arp_sender_mac (data : list Z) : list Z := read_at 8 6 data.
Definition arp_sender_ip (data : list Z) : Z := ld32 data 14.
Definition arp_target_ip (data : list Z) : Z := ld32 data 24.

Definition arp_invalidate (e : arp_entry) : arp_entry :=
  mk_arp_entry (ae_ip e) (ae_mac e) (ae_timestamp e) false.

Definition arp_pending_clear (a : arp_pending) : arp_pending :=
  mk_arp_pending false (ap_next_hop_ip a) (ap_dev a) None (ap_enqueued_tick a).

Definition arp_init (s : net_state) : net_state :=
  set_arp_pending_pool (map arp_pending_clear (arp_pending_pool s))
    (set_arp_table (map arp_invalidate (arp_table s)) s).

(** [now - enqueued_tick > ARP_PENDING_TIMEOUT], on [uint64_t]. *)
Definition arp_expired (now : Z) (a : arp_pending) : bool :=
  ARP_PENDING_TIMEOUT <? u64 (now - ap_enqueued_tick a).

(** The valid entry for an address. *)
Definition arp_match (ip : Z) (e : arp_entry) : bool := ae_valid e && (ae_ip e =? ip).

(** [for (...) skb_put(expired_skbs[i]);] *)
Definition put_all (l : list skbptr) (s : net_state) : net_state :=
  set_pool (foldl (fun p a => skb_put a p) (pool s) l) s.

(** The broadcast address of a device's subnet. *)
Definition subnet_broadcast (dv : net_device) : Z :=
  Z.lor (ip_addr dv) (u32 (Z.lnot (netmask dv))).

Section Arp.
Variable nic_send : nat -> list Z -> Z.

Definition arp_request (s : net_state) (dev : devptr) (target_ip : Z) : net_state :=
  match dev ≫= (devs s !!.) with
  | None => s
  | Some dv =>
      (eth_send nic_send s dev eth_broadcast_addr ETH_P_ARP
         (arp_header_bytes ARP_OP_REQUEST (mac_addr dv) (net_htonl (ip_addr dv))
            [0; 0; 0; 0; 0; 0] (net_htonl target_ip))).1
  end.

(** First pass of [arp_queue_pending]: collects the expired buffers and finds
    the first free slot. *)
Fixpoint arp_gc (now : Z) (i : nat) (l : list arp_pending) (slot : option nat)
    : list arp_pending * list skbptr * option nat :=
  match l with
  | [] => ([], [], slot)
  | a :: l' =>
      let expired := ap_in_use a && arp_expired now a in
      let a' := if expired then arp_pending_clear a else a in
      let slot := match slot with
                  | None => if ap_in_use a' then None else Some i
                  | Some _ => slot
                  end in
      let '(l'', ex, slot) := arp_gc now (S i) l' slot in
      (a' :: l'', if expired then ap_skb a :: ex else ex, slot)
  end.

Definition arp_queue_pending (s : net_state) (dev : devptr) (next_hop_ip : Z) (skb : skbptr)
    : net_state * Z :=
  match dev, skb with
  | Some _, Some _ =>
      let now := ticks s in
      let '(l, expired, slot) := arp_gc now 0 (arp_pending_pool s) None in
      match slot with
      | None => (put_all expired (set_arp_pending_pool l s), -1)
      | Some i =>
          let l := <[i := mk_arp_pending true next_hop_ip dev skb now]> l in
          let s := put_all expired (set_arp_pending_pool l s) in
          (arp_request s dev next_hop_ip, 0)
      end
  | _, _ => (s, -1)
  end.

(** The collection loop of [arp_drain_pending]: remaining slots, ready
    (buffer, device) pairs, expired buffers. *)
Fixpoint arp_collect (now ip : Z) (l : list arp_pending)
    : list arp_pending * list (skbptr * devptr) * list skbptr :=
  match l with
  | [] => ([], [], [])
  | a :: l' =>
      let '(l'', ready, ex) := arp_collect now ip l' in
      if negb (ap_in_use a) then (a :: l'', ready, ex)
      else if arp_expired now a then (arp_pending_clear a :: l'', ready, ap_skb a :: ex)
      else if ap_next_hop_ip a =? ip
      then (arp_pending_clear a :: l'', (ap_skb a, ap_dev a) :: ready, ex)
      else (a :: l'', ready, ex)
  end.

(** Transmits and releases the ready buffers, in slot order. *)
Fixpoint arp_send_ready (s : net_state) (mac : list Z) (ready : list (skbptr * devptr))
    : net_state :=
  match ready with
  | [] => s
  | (skb, dev) :: ready' =>
      let payload := match skb with Some a => skb_payload (pool s) a | None => [] end in
      let s := (eth_send nic_send s dev mac ETH_P_IP payload).1 in
      arp_send_ready (set_pool (skb_put skb (pool s)) s) mac ready'
  end.

Definition arp_drain_pending (s : net_state) (ip : Z) (mac : list Z) : net_state :=
  let '(l, ready, expired) := arp_collect (ticks s) ip (arp_pending_pool s) in
  let s := set_arp_pending_pool l s in
  let s := arp_send_ready s mac ready in
  put_all expired s.

(** The table part of [arp_add_entry], under [arp_lock]. *)
Definition arp_table_add (now ip : Z) (mac : list Z) (t : list arp_entry) : list arp_entry :=
  match find_idx (arp_match ip) t with
  | Some i =>
      match t !! i with
      | Some e => <[i := mk_arp_entry (ae_ip e) mac now (ae_valid e)]> t
      | None => t
      end
  | None =>
      let slot :=
        match find_idx (fun e => negb (ae_valid e)) t with
        | Some i => i
        | None =>
            match t with
            | [] => 0%nat
            | e0 :: t' => min_idx ae_timestamp 0 (ae_timestamp e0) 1 t'
            end
        end in
      <[slot := mk_arp_entry ip mac now true]> t
  end.

Definition arp_add_entry (s : net_state) (ip : Z) (mac : list Z) : net_state :=
  let s := set_arp_table (arp_table_add (ticks s) ip mac (arp_table s)) s in
  arp_drain_pending s ip mac.

(** Table search shared by the lookup functions. *)
Definition arp_find (ip : Z) (t : list arp_entry) : option (list Z) :=
  match find_idx (arp_match ip) t with
  | Some i => ae_mac <$> t !! i
  | None => None
  end.

(** Result: state, return value, and the address stored in [mac_out] if any. *)
Definition arp_resolve (s : net_state) (dev : devptr) (ip : Z)
    : net_state * Z * option (list Z) :=
  match dev ≫= (devs s !!.) with
  | None => (s, -1, None)
  | Some dv =>
      if (ip =? 0xFFFFFFFF) || (ip =? subnet_broadcast dv)
      then (s, 0, Some [0xFF; 0xFF; 0xFF; 0xFF; 0xFF; 0xFF])
      else match arp_find ip (arp_table s) with
           | Some mac => (s, 0, Some mac)
           | None => (arp_request s dev ip, -1, None)
           end
  end.

Definition arp_cache_lookup (s : net_state) (ip : Z) : Z * option (list Z) :=
  match arp_find ip (arp_table s) with
  | Some mac => (0, Some mac)
  | None => (-1, None)
  end.

Definition arp_rx (s : net_state) (d : nat) (data : list Z) : net_state :=
  match devs s !! d with
  | None => s
  | Some dv =>
      if Z.of_nat (length data) <? sizeof_arp_header then s
      else if negb (net_ntohs (ld16 data 0) =? ARP_HW_ETHER) then s
      else if negb (net_ntohs (ld16 data 2) =? ETH_P_IP) then s
      else if negb (byte_at data 4 =? 6) || negb (byte_at data 5 =? 4) then s
      else
        let sender_ip := net_ntohl (arp_sender_ip data) in
        let target_ip := net_ntohl (arp_target_ip data) in
        let sender_mac := arp_sender_mac data in
        let s := arp_add_entry s sender_ip sender_mac in
        let opcode := net_ntohs (ld16 data 6) in
        let s :=
          if (opcode =? ARP_OP_REQUEST) && (target_ip =? ip_addr dv) && negb (ip_addr dv =? 0)
          then (eth_send nic_send s (Some d) sender_mac ETH_P_ARP
                  (arp_header_bytes ARP_OP_REPLY (mac_addr dv) (net_htonl (ip_addr dv))
                     sender_mac (arp_sender_ip data))).1
          else s in
        if opcode =? ARP_OP_REPLY then set_arp_reply sender_ip sender_mac true s else s
  end.

(** Entries copied to userspace: address pairs of the valid entries. *)
Fixpoint arp_table_loop (t : list arp_entry) (count max_entries : Z) : list (Z * list Z) :=
  match t with
  | [] => []
  | e :: t' =>
      if count <? max_entries then
        if ae_valid e then (ae_ip e, ae_mac e) :: arp_table_loop t' (count + 1) max_entries
        else arp_table_loop t' count max_entries
      else []
  end.

Definition net_get_arp_table (s : net_state) (max_entries : Z) : list (Z * list Z) * Z :=
  let out := arp_table_loop (arp_table s) 0 max_entries in (out, Z.of_nat (length out)).

Definition arp_send_request (s : net_state) (dev : devptr) (target_ip : Z) : net_state * Z :=
  (arp_request (set_arp_reply 0 (arp_reply_mac s) false s) dev target_ip, 0).

(** One round of the wait loop of [arp_recv_reply]: [None] means that the task
    blocks and comes back to the loop test after a wake-up. *)
Definition arp_recv_reply (s : net_state) (target_ip start timeout_ticks : Z)
    : option (net_state * Z * list Z) :=
  if negb (arp_reply_ready s) || negb (arp_reply_ip s =? target_ip) then
    if timeout_ticks <? u64 (ticks s - start) then Some (s, -1, []) else None
  else Some (set_arp_reply (arp_reply_ip s) (arp_reply_mac s) false s, 0, arp_reply_mac s).

Definition arp_del_entry (s : net_state) (ip : Z) : net_state :=
  set_arp_table (map (fun e => if arp_match ip e then arp_invalidate e else e) (arp_table s)) s.

(** [arp_probe]: [env k s] is what the other contexts do after probe [k] sent
    from [s]: the states the wait loop polls before the deadline, in order, and
    the state at the deadline. *)
Fixpoint arp_probe_loop (env : nat -> net_state -> list net_state * net_state) (s : net_state)
    (dev : devptr) (dv : net_device) (ip : Z) (probes : nat) : net_state * Z :=
  match probes with
  | O => (s, 0)
  | S k =>
      let s := (eth_send nic_send s dev eth_broadcast_addr ETH_P_ARP
                  (arp_header_bytes ARP_OP_REQUEST (mac_addr dv) 0 [0; 0; 0; 0; 0; 0]
                     (net_htonl ip))).1 in
      let '(polls, s) := env k s in
      match find_idx (fun t => arp_reply_ready t && (arp_reply_ip t =? ip)) polls with
      | Some i => (default s (polls !! i), -1)
      | None => arp_probe_loop env s dev dv ip k
      end
  end.

Definition arp_probe (env : nat -> net_state -> list net_state * net_state) (s : net_state)
    (dev : devptr) (ip : Z) : net_state * Z :=
  match dev ≫= (devs s !!.) with
  | None => (s, -1)
  | Some dv => arp_probe_loop env (set_arp_reply 0 (arp_reply_mac s) false s) dev dv ip 3
  end.

Definition arp_gratuitous (s : net_state) (dev : devptr) (ip : Z) : net_state :=
  match dev ≫= (devs s !!.) with
  | None => s
  | Some dv =>
      (eth_send nic_send s dev eth_broadcast_addr ETH_P_ARP
         (arp_header_bytes ARP_OP_REPLY (mac_addr dv) (net_htonl ip)
            [0xFF; 0xFF; 0xFF; 0xFF; 0xFF; 0xFF] (net_htonl ip))).1
  end.

End Arp.

(** ** Invariants and specifications *)

(** The cache has its fixed size and one valid entry per address at most. *)
Record arp_table_ok (t : list arp_entry) : Prop := {
  arp_size : length t = ARP_TABLE_SIZE;
  arp_unique : forall i j e e', t !! i = Some e -> t !! j = Some e' ->
    ae_valid e = true -> ae_valid e' = true -> ae_ip e = ae_ip e' -> i = j;
}.

(** What a pending slot that is in use holds: a buffer owned by the queue and a
    NIC able to send its bytes with a small buffer. *)
Definition pending_holds (s : net_state) (a : arp_pending) (p d : nat) : Prop :=
  ap_skb a = Some p /\ ap_dev a = Some d /\
  exists dv bs, nic_ok s d dv /\ owns (pool s) p bs /\
    Z.of_nat (length bs) <= mtu dv /\
    ETH_HLEN + Z.of_nat (length bs) + SKB_HEADROOM <= SKB_SMALL_DATA.

(** The slots in use hold distinct buffers. *)
Record pending_ok (s : net_state) : Prop := {
  pend_holds : forall a, a ∈ arp_pending_pool s -> ap_in_use a = true ->
    exists p d, pending_holds s a p d;
  pend_distinct : forall i j a b, arp_pending_pool s !! i = Some a -> arp_pending_pool s !! j = Some b ->
    ap_in_use a = true -> ap_in_use b = true -> ap_skb a = ap_skb b -> i = j;
}.

(** The slots a drain for [ip] sends, and those it drops. *)
Definition is_ready (now ip : Z) (a : arp_pending) : bool :=
  ap_in_use a && negb (arp_expired now a) && (ap_next_hop_ip a =? ip).
Definition is_dropped (now : Z) (a : arp_pending) : bool :=
  ap_in_use a && arp_expired now a.

(** Frames appended to the transmit log. *)
Definition log_all (frames : list (nat * list Z)) (s : net_state) : net_state :=
  foldl (fun s f => log_tx f.1 f.2 s) s frames.

(** The frame a pending slot becomes. *)
Definition pending_frame (s : net_state) (mac : list Z) (a : arp_pending) : nat * list Z :=
  match ap_dev a, ap_skb a with
  | Some d, Some p =>
      (d, eth_frame mac (default [] (mac_addr <$> devs s !! d)) ETH_P_IP (skb_payload (pool s) p))
  | _, _ => (0%nat, [])
  end.

(** The buffer of a slot. *)
Definition pending_buf (a : arp_pending) : nat := default 0%nat (ap_skb a).

(** ** The cache *)

Lemma arp_match_spec ip e : arp_match ip e = true <-> ae_valid e = true /\ ae_ip e = ip.
Proof. unfold arp_match. by rewrite andb_true_iff, Z.eqb_eq. Qed.

Lemma arp_find_Some t ip mac :
  arp_table_ok t ->
  arp_find ip t = Some mac <->
  exists i e, t !! i = Some e /\ ae_valid e = true /\ ae_ip e = ip /\ ae_mac e = mac.
Proof.
  intros Ht. unfold arp_find. split.
  - destruct (find_idx (arp_match ip) t) as [i|] eqn:E; [|done].
    apply find_idx_Some in E as (e & He & [Hv Hi]%arp_match_spec & _). rewrite He.
    intros [= <-]. eauto 6.
  - intros (i & e & He & Hv & Hi & <-).
    destruct (find_idx (arp_match ip) t) as [j|] eqn:E.
    + apply find_idx_Some in E as (e' & He' & [Hv' Hi']%arp_match_spec & _).
      assert (i = j) as -> by (eapply (arp_unique _ Ht i j e e'); congruence). by rewrite He.
    + pose proof (proj1 (find_idx_None _ _) E i e He) as Hf.
      by rewrite (proj2 (arp_match_spec ip e)) in Hf.
Qed.

Lemma arp_find_None t ip :
  arp_find ip t = None <-> forall i e, t !! i = Some e -> ae_valid e = true -> ae_ip e <> ip.
Proof.
  unfold arp_find. destruct (find_idx (arp_match ip) t) as [i|] eqn:E.
  - apply find_idx_Some in E as (e & He & [Hv Hi]%arp_match_spec & _). rewrite He. simpl.
    split; [done|]. intros H. by destruct (H i e).
  - split; [|done]. intros _ i e He Hv Hi.
    pose proof (proj1 (find_idx_None _ _) E i e He) as Hf.
    by rewrite (proj2 (arp_match_spec ip e)) in Hf.
Qed.

(** Storing a valid entry for [ip] in slot [i], when no other valid slot has
    [ip]: the slot's previous address is forgotten, the rest is kept. *)
Lemma arp_store t i old ip mac now :
  arp_table_ok t -> t !! i = Some old ->
  (forall j e, t !! j = Some e -> ae_valid e = true -> ae_ip e = ip -> j = i) ->
  let t' := <[i := mk_arp_entry ip mac now true]> t in
  arp_table_ok t' /\ arp_find ip t' = Some mac /\
  forall ip', ip' <> ip -> (ae_valid old = true -> ae_ip old <> ip') ->
    arp_find ip' t' = arp_find ip' t.
Proof.
  intros Ht Ho Hu t'. assert (Hlt := lookup_lt_Some _ _ _ Ho).
  assert (Ht' : arp_table_ok t').
  { split; [by unfold t'; rewrite length_insert; apply Ht|].
    intros j k e e' Hj Hk Hv Hv' Hip. unfold t' in *.
    apply list_lookup_insert_Some in Hj as [(<- & <- & _)|[Hij Hj]];
    apply list_lookup_insert_Some in Hk as [(<- & <- & _)|[Hik Hk]]; simpl in *; [done| | |].
    - symmetry. by apply (Hu k e').
    - by apply (Hu j e).
    - by eapply (arp_unique _ Ht j k). }
  split; [done|]. split.
  - apply (arp_find_Some _ _ _ Ht'). exists i. eexists. unfold t'.
    by rewrite list_lookup_insert_eq.
  - intros ip' Hne Hold. apply option_eq. intros m.
    rewrite (arp_find_Some _ _ _ Ht'), (arp_find_Some _ _ _ Ht). unfold t'. split.
    + intros (j & e & Hj & Hv & Hi & Hm).
      apply list_lookup_insert_Some in Hj as [(<- & <- & _)|[Hij Hj]]; [by destruct Hne|eauto 6].
    + intros (j & e & Hj & Hv & Hi & Hm). exists j, e. split; [|done].
      rewrite list_lookup_insert_ne; [done|]. intros <-.
      rewrite Ho in Hj. injection Hj as ->. by apply Hold.
Qed.

Lemma arp_table_add_ok t now ip mac :
  arp_table_ok t ->
  let t' := arp_table_add now ip mac t in
  arp_table_ok t' /\ arp_find ip t' = Some mac /\
  ((forall ip', ip' <> ip -> arp_find ip' t' = arp_find ip' t) \/
   (arp_find ip t = None /\ (forall e, e ∈ t -> ae_valid e = true) /\
    exists old, old ∈ t /\ (forall e, e ∈ t -> ae_timestamp old <= ae_timestamp e) /\
      forall ip', ip' <> ip -> ip' <> ae_ip old -> arp_find ip' t' = arp_find ip' t)).
Proof.
  intros Ht. unfold arp_table_add. destruct (find_idx (arp_match ip) t) as [i|] eqn:E.
  - apply find_idx_Some in E as (e & He & [Hv Hi]%arp_match_spec & _). rewrite He, Hv, Hi.
    destruct (arp_store t i e ip mac now Ht He) as (H1 & H2 & H3).
    { intros j x Hj Hvx Hx. eapply (arp_unique _ Ht j i x e); congruence. }
    split_and!; [done|done|]. left. intros ip' Hne. apply H3; [done|]. congruence.
  - assert (Hnone : forall j e, t !! j = Some e -> ae_valid e = true -> ae_ip e = ip -> False).
    { intros j e Hj Hv Hi. pose proof (proj1 (find_idx_None _ _) E j e Hj) as Hf.
      by rewrite (proj2 (arp_match_spec ip e)) in Hf. }
    destruct (find_idx (fun e => negb (ae_valid e)) t) as [i|] eqn:Ef.
    + apply find_idx_Some in Ef as (e & He & Hv & _). apply negb_true_iff in Hv.
      destruct (arp_store t i e ip mac now Ht He) as (H1 & H2 & H3).
      { intros j x Hj Hvx Hx. by destruct (Hnone j x). }
      split_and!; [done|done|]. left. intros ip' Hne. apply H3; [done|]. congruence.
    + assert (Hall : forall e, e ∈ t -> ae_valid e = true).
      { intros e [j Hj]%list_elem_of_lookup.
        pose proof (proj1 (find_idx_None _ _) Ef j e Hj) as Hf. by apply negb_false_iff in Hf. }
      pose proof (arp_size _ Ht) as Hsz. destruct t as [|e0 t0] eqn:Et; [done|]. rewrite <- Et in *.
      destruct (min_idx_spec ae_timestamp t0 [e0] 0 (ae_timestamp e0) e0) as (old & Hold & Hmin);
        [done|done| |].
      { intros j y Hj. apply list_lookup_singleton_Some in Hj as [_ <-]. lia. }
      change ([e0] ++ t0) with (e0 :: t0) in *. rewrite <- Et in *. simpl length in Hold.
      destruct (arp_store t _ old ip mac now Ht Hold) as (H1 & H2 & H3).
      { intros j x Hj Hvx Hx. by destruct (Hnone j x). }
      split_and!; [done|done|]. right. split_and!; [|done|].
      * apply arp_find_None. intros j e Hj Hv Hi. by apply (Hnone j e).
      * exists old. split_and!.
        -- by eapply list_elem_of_lookup_2.
        -- intros e [j Hj]%list_elem_of_lookup. by apply (Hmin j).
        -- intros ip' Hne Hne'. apply H3; [done|]. intros _. congruence.
Qed.

Lemma arp_table_add_find t now ip mac :
  arp_table_ok t -> arp_find ip (arp_table_add now ip mac t) = Some mac.
Proof. intros Ht. apply (arp_table_add_ok t now ip mac Ht). Qed.

(**  Learning an address: afterwards the cache maps [ip] to [mac] and is
    well formed; no other binding is lost unless [ip] was unknown and all slots
    were in use, in which case exactly the binding with the oldest timestamp is
    evicted. *)
Theorem arp_table_add_refines t now ip mac :
  arp_table_ok t ->
  let t' := arp_table_add now ip mac t in
  arp_table_ok t' /\ arp_find ip t' = Some mac /\
  ((forall ip', ip' <> ip -> arp_find ip' t' = arp_find ip' t) \/
   (arp_find ip t = None /\ (forall e, e ∈ t -> ae_valid e = true) /\
    exists old, old ∈ t /\ (forall e, e ∈ t -> ae_timestamp old <= ae_timestamp e) /\
      forall ip', ip' <> ip -> ip' <> ae_ip old -> arp_find ip' t' = arp_find ip' t)).
Proof. apply arp_table_add_ok. Qed.

(** ** The pending queue *)

Lemma arp_collect_spec now ip l :
  arp_collect now ip l =
  ((fun a => if is_ready now ip a || is_dropped now a then arp_pending_clear a else a) <$> l,
   (fun a => (ap_skb a, ap_dev a)) <$> filter (fun a => is_ready now ip a = true) l,
   ap_skb <$> filter (fun a => is_dropped now a = true) l).
Proof.
  induction l as [|a l IH]; [done|]. cbn [arp_collect]. rewrite IH.
  rewrite !filter_cons. cbn [fmap list_fmap]. unfold is_ready, is_dropped.
  destruct (ap_in_use a), (arp_expired now a), (ap_next_hop_ip a =? ip); simpl;
    repeat (rewrite decide_True by done || rewrite decide_False by done); done.
Qed.

Lemma log_all_frame frames s :
  pool (log_all frames s) = pool s /\ devs (log_all frames s) = devs s /\
  lo (log_all frames s) = lo s /\ tx (log_all frames s) = tx s ++ frames.
Proof.
  revert s. induction frames as [|f frames IH]; intros s; simpl.
  - by rewrite app_nil_r.
  - destruct (IH (log_tx f.1 f.2 s)) as (-> & -> & -> & ->). simpl.
    rewrite <- app_assoc. by destruct f.
Qed.

Lemma log_all_pending frames s : arp_pending_pool (log_all frames s) = arp_pending_pool s.
Proof. revert s. induction frames as [|f frames IH]; intros s; simpl; [done|]. by rewrite IH. Qed.

Lemma log_all_arp_table frames s : arp_table (log_all frames s) = arp_table s.
Proof. revert s. induction frames as [|f frames IH]; intros s; simpl; [done|]. by rewrite IH. Qed.

Lemma log_all_set_pool frames P s :
  log_all frames (set_pool P s) = set_pool P (log_all frames s).
Proof.
  revert s. induction frames as [|f frames IH]; intros s; simpl; [done|].
  by rewrite <- IH.
Qed.

Lemma nic_ok_frame s s' d dv : devs s' = devs s -> lo s' = lo s -> nic_ok s d dv -> nic_ok s' d dv.
Proof. intros Ed El []. split; try done; [by rewrite Ed|by rewrite El]. Qed.

(** A slot's contents survive changes that leave its buffer and the devices alone. *)
Lemma pending_holds_frame s s' a p d :
  devs s' = devs s -> lo s' = lo s -> slots (pool s') !! p = slots (pool s) !! p ->
  pending_holds s a p d -> pending_holds s' a p d.
Proof.
  intros Ed El Es (H1 & H2 & dv & bs & Hn & Ho & H3). split_and!; [done|done|].
  exists dv, bs. split_and!; [by eapply nic_ok_frame|by eapply owns_frame|by destruct H3..].
Qed.

Section Drain.
Variable nic_send : nat -> list Z -> Z.

(** The transmit loop: every buffer is sent once, in order, and released. *)
Lemma arp_send_ready_spec mac l F s :
  length mac = ETH_ALEN -> net_free F s -> F <> [] ->
  NoDup (pending_buf <$> l) ->
  (forall a, a ∈ l -> exists p d, pending_holds s a p d) ->
  exists P,
    arp_send_ready nic_send s mac ((fun a => (ap_skb a, ap_dev a)) <$> l) =
      set_pool P (log_all (pending_frame s mac <$> l) s) /\
    pool_has ((pending_buf <$> l) ++ F) P /\ skb_pool_ready P = true /\
    forall q, q ∉ F -> q ∉ (pending_buf <$> l) -> slots P !! q = slots (pool s) !! q.
Proof.
  intros Hmac. revert F s. induction l as [|a l IH]; intros F s [HF Hr] HFn Hnd Hh; simpl.
  - exists (pool s). split_and!; try done. by destruct s.
  - apply NoDup_cons in Hnd as [Hfresh Hnd].
    destruct (Hh a) as (p & d & Hs & Hd & dv & bs & Hn & Ho & Hm & Hsz); [left|].
    rewrite Hs, Hd. pose proof Ho as [Hpay _].
    pose proof (eth_send_nic nic_send F s d dv mac ETH_P_IP (skb_payload (pool s) p) (conj HF Hr) Hn
                  Hmac ltac:(rewrite Hpay; lia)) as He.
    destruct (eth_send nic_send s (Some d) mac ETH_P_IP (skb_payload (pool s) p)) as [s1 r1].
    destruct He as ([HF1 Hr1] & Hq1 & [[Es1 _]|(_ & _ & [?|?])]); [|rewrite Hpay in *; lia|done].
    cbn [fst]. set (frame := eth_frame _ _ _ _) in *.
    pose proof (owns_not_free F (pool s) p bs HF Ho) as HpF.
    assert (Ho1 : owns (pool s1) p bs) by (eapply owns_frame; [by apply Hq1|done]).
    destruct (skb_put_last F p bs (pool s1) HF1 Ho1) as [HF2 Hq2].
    set (P2 := skb_put (Some p) (pool s1)) in *. set (s2 := set_pool P2 s1).
    assert (Es2 : s2 = set_pool P2 (log_tx d frame s)).
    { unfold s2. rewrite Es1. done. }
    assert (Hbuf : pending_buf a = p) by (unfold pending_buf; by rewrite Hs).
    rewrite Hbuf in Hfresh.
    assert (Hrest : forall b, b ∈ l -> exists p' d', pending_holds s b p' d' /\
      slots (pool s2) !! p' = slots (pool s) !! p').
    { intros b Hb. destruct (Hh b) as (p' & d' & Hh'); [by right|]. exists p', d'. split; [done|].
      destruct Hh' as (Hs' & _ & dv' & bs' & _ & Ho' & _).
      pose proof (owns_not_free F (pool s) p' bs' HF Ho').
      assert (p' <> p).
      { intros ->. apply Hfresh. apply list_elem_of_fmap. exists b. split; [|done].
        unfold pending_buf. by rewrite Hs'. }
      unfold s2, P2. cbn [pool set_pool]. by rewrite Hq2, Hq1. }
    destruct (IH (p :: F) s2) as (P & HE & HP & HPr & HPq).
    + split; [done|]. unfold s2, P2. cbn [pool set_pool]. by rewrite skb_put_ready.
    + done.
    + done.
    + intros b Hb. destruct (Hrest b Hb) as (p' & d' & Hh' & Hsl). exists p', d'.
      eapply pending_holds_frame; [| |exact Hsl|exact Hh']; by rewrite Es2.
    + exists P. split_and!; try done.
      * etransitivity; [exact HE|].
        assert (pending_frame s mac a = (d, frame)) as ->.
        { unfold pending_frame. rewrite Hd, Hs, (nic_dev _ _ _ Hn). done. }
        rewrite (list_fmap_ext (pending_frame s2 mac) (pending_frame s mac)).
        { by rewrite Es2, log_all_set_pool, set_pool_twice. }
        intros i b Hb%list_elem_of_lookup_2.
        destruct (Hrest b Hb) as (p' & d' & (Hs' & Hd' & _) & Hsl).
        unfold pending_frame. rewrite Hs', Hd'. unfold skb_payload. rewrite Hsl.
        by rewrite Es2.
      * rewrite Hbuf. cbn [app]. rewrite Permutation_middle. exact HP.
      * rewrite Hbuf. intros q HqF [Hqp Hql]%not_elem_of_cons.
        rewrite HPq; [|by apply not_elem_of_cons|done]. unfold s2, P2. cbn [pool set_pool].
        by rewrite Hq2, Hq1.
Qed.

(** Dropping the expired buffers returns them to the pool. *)
Lemma put_all_spec l F s :
  net_free F s -> NoDup (pending_buf <$> l) ->
  (forall a, a ∈ l -> exists p d, pending_holds s a p d) ->
  exists P, put_all (ap_skb <$> l) s = set_pool P s /\
    pool_has ((pending_buf <$> l) ++ F) P /\ skb_pool_ready P = true /\
    forall q, q ∉ (pending_buf <$> l) -> slots P !! q = slots (pool s) !! q.
Proof.
  unfold put_all. revert F s. induction l as [|a l IH]; intros F s [HF Hr] Hnd Hh; simpl.
  - exists (pool s). split_and!; done.
  - apply NoDup_cons in Hnd as [Hfresh Hnd].
    destruct (Hh a) as (p & d & Hs & _ & _ & bs & _ & Ho & _); [left|].
    assert (Hbuf : pending_buf a = p) by (unfold pending_buf; by rewrite Hs).
    rewrite Hs, Hbuf in *.
    destruct (skb_put_last F p bs (pool s) HF Ho) as [HF2 Hq2].
    destruct (IH (p :: F) (set_pool (skb_put (Some p) (pool s)) s)) as (P & HE & HP & HPr & HPq).
    + split; [done|]. cbn [pool set_pool]. by rewrite skb_put_ready.
    + done.
    + intros b Hb. destruct (Hh b) as (p' & d' & Hh'); [by right|]. exists p', d'.
      apply (pending_holds_frame s); [done|done| |exact Hh']. cbn [pool set_pool].
      apply Hq2. intros ->. apply Hfresh. apply list_elem_of_fmap. exists b. split; [|done].
      destruct Hh' as (Hs' & _). unfold pending_buf. by rewrite Hs'.
    + exists P. split_and!; try done.
      * rewrite Permutation_middle. exact HP.
      * intros q [Hqp Hql]%not_elem_of_cons. rewrite HPq by done. cbn [pool set_pool].
        by apply Hq2.
Qed.

(** The buffers of the slots a filter selects are distinct. *)
Lemma pending_bufs_NoDup s (f : arp_pending -> bool) :
  pending_ok s -> (forall a, f a = true -> ap_in_use a = true) ->
  NoDup (pending_buf <$> filter (fun a => f a = true) (arp_pending_pool s)).
Proof.
  intros [Hh Hd] Hf. revert Hh Hd. generalize (arp_pending_pool s) as l.
  induction l as [|a l IH]; intros Hh Hd; [constructor|].
  assert (IH' : NoDup (pending_buf <$> filter (fun a => f a = true) l)).
  { apply IH; [intros b Hb; apply Hh; by right|].
    intros i j x y Hx Hy ? ? ?. assert (S i = S j) by (by eapply (Hd (S i) (S j))). lia. }
  rewrite filter_cons. case_decide as Ha; [|done].
  simpl. apply NoDup_cons. split; [|done].
  intros (b & Hb & [Hfb [i Hi]%list_elem_of_lookup]%list_elem_of_filter)%list_elem_of_fmap.
  destruct (Hh a) as (p & d & Hs & _); [left|by apply Hf|].
  destruct (Hh b) as (p' & d' & Hs' & _); [right; by eapply list_elem_of_lookup_2|by apply Hf|].
  unfold pending_buf in Hb. rewrite Hs, Hs' in Hb. simpl in Hb. subst p'.
  assert (0 = S i)%nat; [|lia]. eapply (Hd 0%nat (S i) a b); [done|done|by apply Hf|by apply Hf|congruence].
Qed.

(** A buffer is held by one slot. *)
Lemma pending_buf_inj s a b :
  pending_ok s -> a ∈ arp_pending_pool s -> b ∈ arp_pending_pool s ->
  ap_in_use a = true -> ap_in_use b = true -> pending_buf a = pending_buf b -> a = b.
Proof.
  intros Hp Ha Hb Hua Hub E.
  destruct (pend_holds _ Hp a Ha Hua) as (p & d & Hs & _).
  destruct (pend_holds _ Hp b Hb Hub) as (p' & d' & Hs' & _).
  apply list_elem_of_lookup in Ha as [i Hi]. apply list_elem_of_lookup in Hb as [j Hj].
  unfold pending_buf in E. rewrite Hs, Hs' in E. simpl in E. subst p'.
  assert (i = j) as -> by (eapply (pend_distinct _ Hp i j a b); congruence). congruence.
Qed.

Lemma is_ready_in_use now ip a : is_ready now ip a = true -> ap_in_use a = true.
Proof. unfold is_ready. intros H. by zify_bool. Qed.

Lemma is_dropped_in_use now a : is_dropped now a = true -> ap_in_use a = true.
Proof. unfold is_dropped. intros H. by zify_bool. Qed.

(** The drain as one update of the state. *)
Lemma arp_drain_ok F s ip mac :
  length mac = ETH_ALEN -> net_free F s -> F <> [] -> pending_ok s ->
  let sent := filter (fun a => is_ready (ticks s) ip a = true) (arp_pending_pool s) in
  let dropped := filter (fun a => is_dropped (ticks s) a = true) (arp_pending_pool s) in
  let l' := (fun a => if is_ready (ticks s) ip a || is_dropped (ticks s) a
                      then arp_pending_clear a else a) <$> arp_pending_pool s in
  exists P,
    arp_drain_pending nic_send s ip mac =
      set_pool P (log_all (pending_frame s mac <$> sent) (set_arp_pending_pool l' s)) /\
    pool_has ((pending_buf <$> dropped) ++ (pending_buf <$> sent) ++ F) P /\
    skb_pool_ready P = true /\
    (forall q, q ∉ F -> q ∉ (pending_buf <$> sent) -> q ∉ (pending_buf <$> dropped) ->
       slots P !! q = slots (pool s) !! q).
Proof.
  intros Hmac HF HFn Hp sent dropped l'.
  assert (Hsent : forall a, a ∈ sent -> exists p d, pending_holds s a p d).
  { intros a [Ha Hin]%list_elem_of_filter. apply (pend_holds _ Hp); [done|].
    by eapply is_ready_in_use. }
  assert (Hdrop : forall a, a ∈ dropped -> exists p d, pending_holds s a p d).
  { intros a [Ha Hin]%list_elem_of_filter. apply (pend_holds _ Hp); [done|].
    by eapply is_dropped_in_use. }
  assert (Hdisj : forall a b, a ∈ sent -> b ∈ dropped -> pending_buf a <> pending_buf b).
  { intros a b [Ha Hia]%list_elem_of_filter [Hb Hib]%list_elem_of_filter E.
    assert (a = b) as -> by (eapply pending_buf_inj; eauto using is_ready_in_use, is_dropped_in_use).
    unfold is_ready, is_dropped in *. zify_bool. congruence. }
  unfold arp_drain_pending. rewrite arp_collect_spec. fold sent dropped l'.
  set (s0 := set_arp_pending_pool l' s).
  assert (Hframes : forall a, pending_frame s0 mac a = pending_frame s mac a) by done.
  destruct (arp_send_ready_spec mac sent F s0) as (P1 & E1 & HP1 & Hr1 & Hq1); try done.
  { apply pending_bufs_NoDup; [done|]. intros a. apply is_ready_in_use. }
  { intros a Ha. destruct (Hsent a Ha) as (p & d & Hh). exists p, d.
    by apply (pending_holds_frame s). }
  rewrite E1.
  set (s1 := set_pool P1 (log_all (pending_frame s0 mac <$> sent) s0)).
  destruct (log_all_frame (pending_frame s0 mac <$> sent) s0) as (_ & Edev & Elo & Etx).
  destruct (put_all_spec dropped ((pending_buf <$> sent) ++ F) s1) as (P2 & E2 & HP2 & Hr2 & Hq2).
  { by split. }
  { apply pending_bufs_NoDup; [done|]. intros a. apply is_dropped_in_use. }
  { intros b Hb. destruct (Hdrop b Hb) as (p & d & Hh). exists p, d.
    apply (pending_holds_frame s); [exact Edev|exact Elo| |done].
    destruct Hh as (Hs & _ & _ & bs & _ & Ho & _). cbn [pool set_pool].
    apply Hq1; [by apply (owns_not_free F (pool s) p bs); [apply HF|]|].
    intros (a & Ea & Ha)%list_elem_of_fmap. apply (Hdisj a b Ha Hb).
    rewrite <- Ea. unfold pending_buf. by rewrite Hs. }
  exists P2. split_and!; [by rewrite E2|done|done|].
  intros q HqF Hqs Hqd. rewrite Hq2 by done. by apply Hq1.
Qed.

(**  Learning [mac] for [ip] flushes the pending queue exactly: the buffers
    waiting for [ip] that have not expired are transmitted once each, in slot
    order, as Ethernet frames to [mac] carrying the queued datagram; those
    buffers and the expired ones go back to the pool; their slots are free and
    every other slot, and every other buffer, is untouched. *)
Theorem arp_drain_pending_spec F s ip mac :
  length mac = ETH_ALEN -> net_free F s -> F <> [] -> pending_ok s ->
  let sent := filter (fun a => is_ready (ticks s) ip a = true) (arp_pending_pool s) in
  let dropped := filter (fun a => is_dropped (ticks s) a = true) (arp_pending_pool s) in
  let s' := arp_drain_pending nic_send s ip mac in
  tx s' = tx s ++ (pending_frame s mac <$> sent) /\
  net_free ((pending_buf <$> dropped) ++ (pending_buf <$> sent) ++ F) s' /\
  arp_pending_pool s' =
    ((fun a => if is_ready (ticks s) ip a || is_dropped (ticks s) a
               then arp_pending_clear a else a) <$> arp_pending_pool s) /\
  (forall q, q ∉ F -> q ∉ (pending_buf <$> sent) -> q ∉ (pending_buf <$> dropped) ->
     slots (pool s') !! q = slots (pool s) !! q).
Proof.
  intros Hmac HF HFn Hp sent dropped s'.
  destruct (arp_drain_ok F s ip mac Hmac HF HFn Hp) as (P & E & HP & Hr & Hq).
  fold sent dropped in E, HP, Hq. subst s'. rewrite E. cbn [tx pool arp_pending_pool set_pool].
  split_and!; [|by split| |done].
  - match goal with |- tx (log_all ?f ?t) = _ => by destruct (log_all_frame f t) as (_ & _ & _ & ->) end.
  - apply log_all_pending.
Qed.

End Drain.

(** ** The protocol handlers *)

(** Parsing a header the code writes gives back its fields. *)
Lemma arp_header_fields op smac sip tmac tip :
  length smac = 6%nat -> length tmac = 6%nat ->
  urange 16 op -> urange 32 sip -> urange 32 tip ->
  let data := arp_header_bytes op smac sip tmac tip in
  length data = 28%nat /\
  net_ntohs (ld16 data 0) = ARP_HW_ETHER /\ net_ntohs (ld16 data 2) = ETH_P_IP /\
  byte_at data 4 = 6 /\ byte_at data 5 = 4 /\ net_ntohs (ld16 data 6) = op /\
  arp_sender_mac data = smac /\ arp_sender_ip data = sip /\ arp_target_ip data = tip.
Proof.
  intros Hs Ht Hop Hsip Htip.
  destruct smac as [|s0 [|s1 [|s2 [|s3 [|s4 [|s5 [|]]]]]]]; try done.
  destruct tmac as [|t0 [|t1 [|t2 [|t3 [|t4 [|t5 [|]]]]]]]; try done.
  intros data. split_and!; try done.
  - transitivity (net_ntohs (net_htons op)); [|by apply net_ntohs_htons]. f_equal.
    apply (ld16_le16 (le16 (net_htons ARP_HW_ETHER) ++ le16 (net_htons ETH_P_IP) ++ [6; 4])).
    apply net_htons_range.
  - by apply (ld32_le32 (le16 (net_htons ARP_HW_ETHER) ++ le16 (net_htons ETH_P_IP) ++ [6; 4] ++
      le16 (net_htons op) ++ [s0; s1; s2; s3; s4; s5])).
  - by apply (ld32_le32 (le16 (net_htons ARP_HW_ETHER) ++ le16 (net_htons ETH_P_IP) ++ [6; 4] ++
      le16 (net_htons op) ++ [s0; s1; s2; s3; s4; s5] ++ le32 sip ++ [t0; t1; t2; t3; t4; t5])
      tip []).
Qed.

Section Rx.
Variable nic_send : nat -> list Z -> Z.

(**  A request for the device's own address is answered: the requester's
    binding is learnt, the packets that waited for it are flushed, and then one
    reply goes out to the requester, whose fields, as [arp_rx] of the requester
    parses them, bind the device's address to its MAC. *)
Theorem arp_rx_request F s d dv smac sip tmac :
  net_free F s -> F <> [] -> pending_ok s -> arp_table_ok (arp_table s) ->
  nic_ok s d dv -> 28 <= mtu dv -> urange 32 (ip_addr dv) -> ip_addr dv <> 0 ->
  length smac = ETH_ALEN -> length tmac = ETH_ALEN -> urange 32 sip ->
  let s' := arp_rx nic_send s d
    (arp_header_bytes ARP_OP_REQUEST smac (net_htonl sip) tmac (net_htonl (ip_addr dv))) in
  let reply := arp_header_bytes ARP_OP_REPLY (mac_addr dv) (net_htonl (ip_addr dv))
                 smac (net_htonl sip) in
  arp_find sip (arp_table s') = Some smac /\
  (exists flushed, tx s' = tx s ++ flushed ++ [(d, eth_frame smac (mac_addr dv) ETH_P_ARP reply)]) /\
  net_ntohs (ld16 reply 6) = ARP_OP_REPLY /\ arp_sender_mac reply = mac_addr dv /\
  net_ntohl (arp_sender_ip reply) = ip_addr dv /\ net_ntohl (arp_target_ip reply) = sip.
Proof.
  intros HF HFn Hp Ht Hn Hmtu Hip Hip0 Hsm Htm Hsip s' reply.
  pose proof (net_htonl_range sip Hsip) as Hr1. pose proof (net_htonl_range _ Hip) as Hr2.
  destruct (arp_header_fields ARP_OP_REPLY (mac_addr dv) (net_htonl (ip_addr dv)) smac (net_htonl sip))
    as (Rl & _ & _ & _ & _ & Ro & Rm & Rs & Rt); try done; [apply Hn|].
  fold reply in Rl, Ro, Rm, Rs, Rt.
  assert (E : s' = (eth_send nic_send (arp_add_entry nic_send s sip smac) (Some d) smac ETH_P_ARP reply).1).
  { unfold s', arp_rx. rewrite (nic_dev _ _ _ Hn).
    destruct (arp_header_fields ARP_OP_REQUEST smac (net_htonl sip) tmac (net_htonl (ip_addr dv)))
      as (Ql & Q0 & Q2 & Q4 & Q5 & Q6 & Qm & Qs & Qt); try done.
    rewrite Ql, Q0, Q2, Q4, Q5, Q6, Qm, Qs, Qt, !net_ntohl_htonl by done.
    rewrite !Z.eqb_refl. apply Z.eqb_neq in Hip0 as ->. done. }
  set (s0 := set_arp_table (arp_table_add (ticks s) sip smac (arp_table s)) s) in *.
  destruct (arp_drain_ok nic_send F s0 sip smac) as (P & Ed & HP & Hrd & _); try done.
  { split; [|apply (pend_distinct _ Hp)]. intros a Ha Hu.
    destruct (pend_holds _ Hp a Ha Hu) as (p & d' & Hh). exists p, d'.
    by apply (pending_holds_frame s). }
  set (fr := pending_frame s0 smac <$> _) in Ed. set (l' := _ <$> _) in Ed.
  destruct (log_all_frame fr (set_arp_pending_pool l' s0)) as (_ & Edev & Elo & Etx).
  set (s1 := arp_add_entry nic_send s sip smac) in *.
  assert (Es1 : s1 = set_pool P (log_all fr (set_arp_pending_pool l' s0))) by exact Ed. clearbody s1.
  pose proof (eth_send_nic nic_send _ s1 d dv smac ETH_P_ARP reply
    ltac:(rewrite Es1; by split) ltac:(rewrite Es1; by apply (nic_ok_frame s)) Hsm
    ltac:(rewrite Rl; lia)) as He.
  destruct (eth_send nic_send s1 (Some d) smac ETH_P_ARP reply) as [s2 r]. cbn [fst] in E. subst s2.
  destruct He as (_ & _ & [[E2 _]|(_ & _ & [?|[_ [_ ?]%app_nil]%app_nil])]);
    [|rewrite Rl in *; unfold SKB_SMALL_DATA, ETH_HLEN, SKB_HEADROOM in *; lia|done].
  rewrite E2. cbn [tx arp_table log_tx set_pool]. rewrite Es1. cbn [tx arp_table set_pool].
  split_and!; try done.
  - rewrite log_all_arp_table. cbn [arp_table set_arp_pending_pool s0 set_arp_table].
    by apply arp_table_add_find.
  - exists fr. rewrite Etx. by rewrite <- app_assoc.
  - by rewrite Rs, net_ntohl_htonl.
  - by rewrite Rt, net_ntohl_htonl.
Qed.

End Rx.

(** ** Witnesses *)

(** A machine with one NIC, one datagram waiting for 10.0.2.2 and an empty cache. *)
Definition demo_dev : net_device :=
  mk_net_device (Some [101; 116; 104; 48]) [2; 0; 0; 0; 0; 1] 1500 0x0A00020F 0xFFFFFF00 0x0A000202 0
    true 0 0 0 0 0.

Definition demo_pending : list Z := [69; 0; 0; 4].

Definition demo_built : skb_pool * skbptr :=
  skb_build (Some 0%nat) 4 demo_pending (skb_pool_init boot_pool).

Definition demo_state : net_state :=
  mk_net_state demo_built.1 {[ 0%nat := demo_dev ]} None true skb_queue_init []
    (replicate ARP_TABLE_SIZE (mk_arp_entry 0 [] 0 false))
    (mk_arp_pending true 0x0A000202 (Some 0%nat) demo_built.2 5 ::
     replicate 127 (mk_arp_pending false 0 None None 0))
    0 [] false [] [] 7 [] [] [].

Lemma demo_built_ok :
  exists p F, demo_built.2 = Some p /\ (3 <= length F)%nat /\ F <> [] /\ pool_has F demo_built.1 /\
    skb_pool_ready demo_built.1 = true /\ owns demo_built.1 p demo_pending.
Proof.
  pose proof (skb_pool_init_inv boot_pool boot_pool_slots) as Hi.
  pose proof (skb_build_ok (seq 0 520) (Some 0%nat) demo_pending (skb_pool_init boot_pool)) as Hb.
  pose proof (skb_build_ready (Some 0%nat) 4 demo_pending (skb_pool_init boot_pool)) as Hr.
  change (Z.of_nat (length demo_pending)) with 4 in Hb.
  assert (E : skb_build (Some 0%nat) 4 demo_pending (skb_pool_init boot_pool) = demo_built)
    by (unfold demo_built; reflexivity).
  rewrite E in Hb, Hr. clear E.
  revert Hb Hr. generalize demo_built. intros [P r] Hb Hr. cbn [fst snd] in *.
  assert (Hp : pool_has (seq 0 520) (skb_pool_init boot_pool)).
  { eexists _, _. split; [|exact Hi]. by rewrite <- seq_app. }
  specialize (Hb Hp eq_refl ltac:(lia)). destruct r as [p|].
  - destruct Hb as (Ho & _ & _ & F & HF & HP). exists p, F. apply Permutation_length in HF.
    rewrite length_seq in HF. cbn [length] in HF. split_and!; try done; [lia|]. by intros ->.
  - destruct Hb as (_ & _ & [?|?]); [unfold SKB_SMALL_DATA, SKB_HEADROOM in *; lia|done].
Qed.

Lemma demo_nic : nic_ok demo_state 0 demo_dev.
Proof. split; cbn; try done; lia. Qed.

Lemma demo_pending_ok : pending_ok demo_state.
Proof.
  destruct demo_built_ok as (p & F & Hp & _ & _ & HP & Hr & Ho).
  split.
  - intros a [->|[-> _]%elem_of_replicate]%elem_of_cons Hu; [|done].
    exists p, 0%nat. split_and!; [done|done|]. exists demo_dev, demo_pending.
    split_and!; [apply demo_nic|done|cbn; lia|unfold SKB_SMALL_DATA, SKB_HEADROOM, ETH_HLEN; cbn; lia].
  - intros [|i] [|j] a b Ha Hb Hua Hub _; [done| | |].
    + apply lookup_replicate in Hb as [-> _]. done.
    + apply lookup_replicate in Ha as [-> _]. done.
    + apply lookup_replicate in Ha as [-> _]. done.
Qed.

Lemma demo_table_ok : arp_table_ok (arp_table demo_state).
Proof. split; [done|]. intros i j e e' [-> _]%lookup_replicate _ Hv. done. Qed.

Lemma arp_table_add_refines_witness :
  arp_find 0x0A000202 (arp_table_add 7 0x0A000202 [2; 0; 0; 0; 0; 2] (arp_table demo_state)) =
    Some [2; 0; 0; 0; 0; 2].
Proof.
  exact (proj1 (proj2 (arp_table_add_refines _ 7 0x0A000202 [2; 0; 0; 0; 0; 2] demo_table_ok))).
Defined.

Lemma arp_drain_pending_spec_witness :
  tx (arp_drain_pending (fun _ _ => 0) demo_state 0x0A000202 [2; 0; 0; 0; 0; 2]) =
    [(0%nat, [2; 0; 0; 0; 0; 2; 2; 0; 0; 0; 0; 1; 8; 0; 69; 0; 0; 4])].
Proof.
  destruct demo_built_ok as (p & F & Hp & _ & HF & HP & Hr & Ho).
  rewrite (proj1 (arp_drain_pending_spec (fun _ _ => 0) F demo_state 0x0A000202 [2; 0; 0; 0; 0; 2]
                    eq_refl (conj HP Hr) HF demo_pending_ok)).
  assert (E : filter (fun a => is_ready (ticks demo_state) 0x0A000202 a = true)
    (arp_pending_pool demo_state) = [mk_arp_pending true 0x0A000202 (Some 0%nat) demo_built.2 5])
    by reflexivity.
  rewrite E. cbn [fmap list_fmap]. unfold pending_frame. cbn [ap_dev ap_skb]. rewrite Hp.
  change (pool demo_state) with demo_built.1. rewrite (proj1 Ho). reflexivity.
Defined.

Lemma arp_rx_request_witness :
  arp_find 0x0A000202 (arp_table (arp_rx (fun _ _ => 0) demo_state 0
    (arp_header_bytes ARP_OP_REQUEST [2; 0; 0; 0; 0; 2] (net_htonl 0x0A000202) [0; 0; 0; 0; 0; 0]
       (net_htonl 0x0A00020F)))) = Some [2; 0; 0; 0; 0; 2].
Proof.
  destruct demo_built_ok as (p & F & Hp & _ & HF & HP & Hr & Ho).
  refine (proj1 (arp_rx_request (fun _ _ => 0) F demo_state 0 demo_dev [2; 0; 0; 0; 0; 2] 0x0A000202
    [0; 0; 0; 0; 0; 0] (conj HP Hr) HF demo_pending_ok demo_table_ok demo_nic _ _ _ _ _ _));
    try reflexivity; unfold urange; cbn; lia.
Defined.
