(* ===== verification/Ipv4.v ===== *)
(** * IPv4 ([kernel/net/ipv4.c])

    The path-MTU cache, fragmentation on the send path, reassembly on the
    receive path, and the receive demultiplexer.  The received packet is given
    as the memory [data] from the packet's first byte on, together with its
    length [len], as in the code: the header and the payload are read from
    [data], so a read past [len] is visible in the model. *)

From Stdlib Require Import ZArith Lia Bool.
From stdpp Require Import base list gmap.
From S2P Require Import Prelude Wire Chain Skb Route Net Arp.

Definition PMTU_CACHE_SIZE : nat := 32.
Definition IPV4_FLAG_MF : Z := 0x2000.
Definition IPV4_FLAG_DF : Z := 0x4000.
Definition IPV4_FRAG_OFFSET_MASK : Z := 0x1FFF.
Definition IPV4_REASSEMBLY_SLOTS : nat := 4.
Definition IPV4_REASSEMBLY_TIMEOUT : Z := 300.
Definition REASSEMBLY_DATA : Z := 65535.          (* sizeof(slot->data) *)
Definition REASSEMBLY_BITMAP : Z := 8192.         (* sizeof(slot->bitmap) *)

(** ** The path-MTU cache *)

Definition pmtu_match (dst_ip : Z) (e : pmtu_entry) : bool := pm_dst_ip e =? dst_ip.

(** The slot [pmtu_set] writes: the entry of the destination, else the first
    free one, else the least recently used. *)
Definition pmtu_slot (dst_ip : Z) (t : list pmtu_entry) : nat :=
  match find_idx (pmtu_match dst_ip) t with
  | Some i => i
  | None =>
      match find_idx (pmtu_match 0) t with
      | Some i => i
      | None =>
          match t with
          | [] => 0%nat
          | e0 :: t' => min_idx pm_last_use 0 (pm_last_use e0) 1 t'
          end
      end
  end.

Definition pmtu_set (s : net_state) (dst_ip mtu : Z) : net_state :=
  let mtu := if mtu <? 68 then 68 else mtu in
  set_pmtu_cache (<[pmtu_slot dst_ip (pmtu_cache s) := mk_pmtu_entry dst_ip mtu (ticks s)]>
                    (pmtu_cache s)) s.

Definition pmtu_get (s : net_state) (dst_ip : Z) : net_state * Z :=
  match find_idx (pmtu_match dst_ip) (pmtu_cache s) with
  | Some i =>
      match pmtu_cache s !! i with
      | Some e =>
          (set_pmtu_cache (<[i := mk_pmtu_entry (pm_dst_ip e) (pm_mtu e) (ticks s)]> (pmtu_cache s)) s,
           pm_mtu e)
      | None => (s, 0)
      end
  | None => (s, 0)
  end.

(** ** Reassembly *)

Definition ipv4_dispatch_payload (s : net_state) (dev : devptr) (src_ip dst_ip proto : Z)
    (payload : list Z) (ttl tos : Z) : net_state :=
  if proto =? IP_PROTO_ICMP then log_up (Up_icmp dev src_ip payload ttl) s
  else if proto =? IP_PROTO_UDP then log_up (Up_udp dev src_ip dst_ip payload ttl tos) s
  else if proto =? IP_PROTO_TCP then log_up (Up_tcp dev src_ip dst_ip payload) s
  else s.

Definition ra_deactivate (sl : ipv4_reassembly_slot) : ipv4_reassembly_slot :=
  mk_ipv4_reassembly_slot false (ra_src_ip sl) (ra_dst_ip sl) (ra_identification sl)
    (ra_protocol sl) (ra_have_last sl) (ra_total_len sl) (ra_expire_tick sl) (ra_data sl)
    (ra_bitmap sl).

Definition ra_key (src_ip dst_ip ident proto : Z) (sl : ipv4_reassembly_slot) : bool :=
  (ra_src_ip sl =? src_ip) && (ra_dst_ip sl =? dst_ip) && (ra_identification sl =? ident) &&
  (ra_protocol sl =? proto).

(** The search loop of [ipv4_get_reassembly_slot]: slots with the expired ones
    deactivated, the first free slot, and the slot of the datagram if found. *)
Fixpoint reassembly_scan (now src_ip dst_ip ident proto : Z) (i : nat)
    (l : list ipv4_reassembly_slot) (free_slot : option nat)
    : list ipv4_reassembly_slot * option nat * option nat :=
  match l with
  | [] => ([], free_slot, None)
  | slot :: l' =>
      let slot := if ra_active slot && (ra_expire_tick slot <=? now) then ra_deactivate slot
                  else slot in
      if negb (ra_active slot) then
        let free_slot := match free_slot with None => Some i | Some _ => free_slot end in
        let '(l'', f, r) := reassembly_scan now src_ip dst_ip ident proto (S i) l' free_slot in
        (slot :: l'', f, r)
      else if ra_key src_ip dst_ip ident proto slot then (slot :: l', free_slot, Some i)
      else
        let '(l'', f, r) := reassembly_scan now src_ip dst_ip ident proto (S i) l' free_slot in
        (slot :: l'', f, r)
  end.

Definition reassembly_reset (now src_ip dst_ip ident proto : Z) (sl : ipv4_reassembly_slot)
    : ipv4_reassembly_slot :=
  mk_ipv4_reassembly_slot true src_ip dst_ip ident proto 0 0 (u64 (now + IPV4_REASSEMBLY_TIMEOUT))
    (ra_data sl) ((fun _ => 0) <$> ra_bitmap sl).

Definition ipv4_get_reassembly_slot (now src_ip dst_ip ident proto : Z)
    (l : list ipv4_reassembly_slot) : list ipv4_reassembly_slot * nat :=
  let '(l, free_slot, found) := reassembly_scan now src_ip dst_ip ident proto 0 l None in
  match found with
  | Some i => (l, i)
  | None =>
      let i := default 0%nat free_slot in
      (alter (reassembly_reset now src_ip dst_ip ident proto) i l, i)
  end.

Definition ipv4_reassembly_complete (sl : ipv4_reassembly_slot) : bool :=
  if ra_have_last sl =? 0 then false
  else
    let blocks := u16 ((ra_total_len sl + 7) / 8) in
    forallb (fun b => negb (Z.land b 1 =? 0)) (take (Z.to_nat blocks) (ra_bitmap sl)).

(** [for (block = start; block < end; block++) bitmap[block] |= 1;] *)
Definition ipv4_mark_fragment (bitmap : list Z) (offset len : Z) : list Z :=
  let start := Z.to_nat (u16 (offset / 8)) in
  let stop := Z.to_nat (u16 ((offset + len + 7) / 8)) in
  foldl (fun bm block => alter (fun b => Z.lor b 1) block bm) bitmap (seq start (stop - start)).

(** The slot after a fragment has been stored in it. *)
Definition ra_store (now offset : Z) (mf : bool) (payload : list Z) (payload_len : Z)
    (sl : ipv4_reassembly_slot) : ipv4_reassembly_slot :=
  mk_ipv4_reassembly_slot (ra_active sl) (ra_src_ip sl) (ra_dst_ip sl) (ra_identification sl)
    (ra_protocol sl) (if mf then ra_have_last sl else 1)
    (if mf then ra_total_len sl else u16 (offset + payload_len))
    (u64 (now + IPV4_REASSEMBLY_TIMEOUT))
    (write_at (Z.to_nat offset) (take (Z.to_nat payload_len) payload) (ra_data sl))
    (ipv4_mark_fragment (ra_bitmap sl) offset payload_len).

Definition ipv4_reassemble_fragment (s : net_state) (dev : devptr) (ip : ipv4_header)
    (src_ip dst_ip : Z) (payload : list Z) (payload_len ttl : Z) : net_state * Z :=
  let frag := net_ntohs (flags_fragment ip) in
  let offset := u16 (Z.land frag IPV4_FRAG_OFFSET_MASK * 8) in
  let ident := net_ntohs (identification ip) in
  let '(l, i) := ipv4_get_reassembly_slot (ticks s) src_ip dst_ip ident (protocol ip)
                   (reassembly s) in
  if REASSEMBLY_DATA <? offset + payload_len then
    (set_reassembly (alter ra_deactivate i l) s, -1)
  else
    let l := alter (ra_store (ticks s) offset (has frag IPV4_FLAG_MF) payload payload_len) i l in
    match l !! i with
    | None => (set_reassembly l s, 0)
    | Some slot =>
        if negb (ipv4_reassembly_complete slot) then (set_reassembly l s, 0)
        else
          let s := ipv4_dispatch_payload (set_reassembly l s) dev src_ip dst_ip (protocol ip)
                     (take (Z.to_nat (ra_total_len slot)) (ra_data slot)) ttl (tos ip) in
          (set_reassembly (alter ra_deactivate i l) s, 1)
    end.

(** ** Receive *)

Definition is_mcast (ip : Z) : bool := (0xE0000000 <=? ip) && (ip <? 0xF0000000).

(** The address filter. *)
Definition ipv4_accepts (s : net_state) (d : nat) (dv : net_device) (dst_ip : Z) : bool :=
  negb (negb (bool_decide (lo s = Some d)) && negb (dst_ip =? ip_addr dv) &&
        negb (dst_ip =? 0xFFFFFFFF) && negb (dst_ip =? subnet_broadcast dv) &&
        negb (Z.land dst_ip 0xFF000000 =? 0x7F000000) && negb (is_mcast dst_ip) &&
        negb (ip_addr dv =? 0)).

Definition ipv4_rx (s : net_state) (d : nat) (data : list Z) (len : Z) : net_state :=
  match devs s !! d with
  | None => s
  | Some dv =>
      if len <? sizeof_ipv4_header then s
      else
        let ip := ipv4_header_of data in
        if negb (Z.shiftr (version_ihl ip) 4 =? 4) then s
        else
          let ihl := Z.land (version_ihl ip) 0x0F * 4 in
          if (ihl <? 20) || (len <? ihl) then s
          else
            let total_len := net_ntohs (total_length ip) in
            if len <? total_len then s
            else if negb (ipv4_checksum data ihl =? 0) then s
            else
              let dst_ip := net_ntohl (dst_addr ip) in
              let src_ip := net_ntohl (src_addr ip) in
              let frag := net_ntohs (flags_fragment ip) in
              if negb (ipv4_accepts s d dv dst_ip) then s
              else
                let payload_len := u16 (total_len - ihl) in
                let payload := read_at (Z.to_nat ihl) (Z.to_nat payload_len) data in
                if has frag IPV4_FLAG_MF || has frag IPV4_FRAG_OFFSET_MASK then
                  (ipv4_reassemble_fragment s (Some d) ip src_ip dst_ip payload payload_len
                     (ttl ip)).1
                else
                  let s := log_up (Up_raw src_ip dst_ip (protocol ip)
                                     (take (Z.to_nat total_len) data)) s in
                  if protocol ip =? 2 then log_up (Up_igmp (Some d) src_ip payload) s
                  else ipv4_dispatch_payload s (Some d) src_ip dst_ip (protocol ip) payload
                         (ttl ip) (tos ip)
  end.

(** ** Send *)

(** [random_u32()]. *)
Definition random_u32 (s : net_state) : net_state * Z :=
  match random s with
  | [] => (s, 0)
  | r :: rs => (set_random rs s, r)
  end.

(** What the loop of [ipv4_send_common] keeps fixed. *)
Record ip_send := mk_ip_send {
  is_dev : nat;                  (* out_dev *)
  is_next_hop : Z;
  is_mac : option (list Z);      (* dst_mac when dst_mac_known *)
  is_max : Z;                    (* max_payload *)
  is_frag : Z;                   (* fragment_payload *)
  is_id : Z;
  is_src : Z;
  is_dst : Z;
  is_proto : Z;
  is_ttl : Z;
  is_tos : Z;
}.

Definition frag_chunk (c : ip_send) (len offset : Z) : Z :=
  let chunk := u16 (len - offset) in
  if is_max c <? chunk then is_frag c else chunk.

Definition frag_flags (len offset chunk : Z) : Z :=
  Z.lor (if offset + chunk <? len then IPV4_FLAG_MF else 0)
        (u16 (Z.land (offset / 8) IPV4_FRAG_OFFSET_MASK)).

(** The header stores, the checksum last. *)
Definition frag_header (c : ip_send) (total_len flags : Z) : ipv4_header :=
  let ip := {| version_ihl := 0x45; tos := is_tos c; total_length := net_htons total_len;
               identification := net_htons (is_id c); flags_fragment := net_htons flags;
               ttl := is_ttl c; protocol := is_proto c; checksum := 0;
               src_addr := net_htonl (is_src c); dst_addr := net_htonl (is_dst c) |} in
  with_checksum ip (ipv4_checksum (ipv4_header_bytes ip) sizeof_ipv4_header).

(** The IP packet of the fragment at [offset]. *)
Definition frag_packet (c : ip_send) (payload : list Z) (len offset : Z) : list Z :=
  let chunk := frag_chunk c len offset in
  ipv4_header_bytes (frag_header c (u16 (sizeof_ipv4_header + chunk)) (frag_flags len offset chunk)) ++
  read_at (Z.to_nat offset) (Z.to_nat chunk) payload.

Section Send.
Variable nic_send : nat -> list Z -> Z.

(** The fragment loop.  [offset] grows in every round, so [len] rounds are enough. *)
Fixpoint ipv4_send_loop (fuel : nat) (s : net_state) (c : ip_send) (payload : list Z)
    (len offset : Z) : net_state * Z :=
  match fuel with
  | O => (s, 0)
  | S fuel' =>
      if offset <? len then
        let chunk := frag_chunk c len offset in
        let total_len := u16 (sizeof_ipv4_header + chunk) in
        match skb_build (Some (is_dev c)) total_len (frag_packet c payload len offset) (pool s) with
        | (p, None) => (set_pool p s, -1)
        | (p, Some skb) =>
            let s := set_pool p s in
            if decide (lo s = Some (is_dev c)) then
              let '(s, ret) := dev_send nic_send s (is_dev c) (skb_payload (pool s) skb) in
              let s := set_pool (skb_put (Some skb) (pool s)) s in
              if ret <? 0 then (s, ret)
              else ipv4_send_loop fuel' s c payload len (u16 (offset + chunk))
            else
              match is_mac c with
              | Some mac =>
                  let '(s, ret) := eth_send nic_send s (Some (is_dev c)) mac ETH_P_IP
                                     (skb_payload (pool s) skb) in
                  let s := set_pool (skb_put (Some skb) (pool s)) s in
                  if ret <? 0 then (s, ret)
                  else ipv4_send_loop fuel' s c payload len (u16 (offset + chunk))
              | None =>
                  let '(s, ret) := arp_queue_pending nic_send s (Some (is_dev c)) (is_next_hop c)
                                     (Some skb) in
                  if ret <? 0 then (set_pool (skb_put (Some skb) (pool s)) s, -1)
                  else ipv4_send_loop fuel' s c payload len (u16 (offset + chunk))
              end
        end
      else (s, 0)
  end.

(** RFC 1112: 01:00:5e and the low 23 bits of the group. *)
Definition mcast_mac (dst_ip : Z) : list Z :=
  [0x01; 0x00; 0x5E; Z.land (Z.shiftr dst_ip 16) 0x7F; Z.land (Z.shiftr dst_ip 8) 0xFF;
   Z.land dst_ip 0xFF].

(** The route of a datagram: output device and next hop. *)
Definition ipv4_route (s : net_state) (dev : devptr) (dst_ip : Z) : option (nat * Z) :=
  match route_lookup (routes s) dst_ip with
  | (Some d, next_hop) => Some (d, next_hop)
  | (None, _) =>
      match dev ≫= fun d => pair d <$> devs s !! d with
      | None => None
      | Some (d, dv) =>
          Some (d, if negb (gateway dv =? 0) &&
                      negb (Z.land dst_ip (netmask dv) =? Z.land (ip_addr dv) (netmask dv))
                   then gateway dv else dst_ip)
      end
  end.

(** A datagram to the device's own address goes over the loopback device, with
    that address as its source. *)
Definition lo_redirect (s : net_state) (d : nat) (dv : net_device) (dst_ip : Z) : nat * Z :=
  if negb (bool_decide (lo s = Some d)) && negb (ip_addr dv =? 0) && (dst_ip =? ip_addr dv)
  then (default d (lo s), ip_addr dv) else (d, 0).

(** The destination address: [None] when the ARP lookup fails (which sends a request). *)
Definition ipv4_dst_mac (s : net_state) (d : nat) (dst_ip next_hop : Z)
    : net_state * option (list Z) :=
  if bool_decide (lo s = Some d) then (s, None)
  else if dst_ip =? 0xFFFFFFFF then (s, Some [0xFF; 0xFF; 0xFF; 0xFF; 0xFF; 0xFF])
  else if is_mcast dst_ip then (s, Some (mcast_mac dst_ip))
  else let '(s, ret, mac) := arp_resolve nic_send s (Some d) next_hop in
       (s, if ret =? 0 then mac else None).

Definition ipv4_send_common (s : net_state) (dev : devptr) (dst_ip proto : Z) (payload : list Z)
    (ttl tos : Z) : net_state * Z :=
  let len := Z.of_nat (length payload) in
  match ipv4_route s dev dst_ip ≫= fun r => pair r <$> devs s !! r.1 with
  | None => (s, -1)
  | Some (d, next_hop, dv) =>
      let '(d, lo_src_override) := lo_redirect s d dv dst_ip in
      match devs s !! d with
      | None => (s, -1)
      | Some dv =>
          let '(s, dst_mac) := ipv4_dst_mac s d dst_ip next_hop in
          let is_lo := bool_decide (lo s = Some d) in
          let mtu := if is_lo then NET_MTU_DEFAULT else mtu dv in
          if mtu <? sizeof_ipv4_header + 8 then (s, -1)
          else
            let max_payload := u16 (mtu - sizeof_ipv4_header) in
            let fragment_payload := u16 (Z.land max_payload (u32 (Z.lnot 7))) in
            let fragment_payload := if (fragment_payload =? 0) || (len <=? max_payload)
                                    then max_payload else fragment_payload in
            let '(s, r) := random_u32 s in
            let src_ip := if is_lo then (if negb (lo_src_override =? 0) then lo_src_override
                                         else dst_ip)
                          else ip_addr dv in
            ipv4_send_loop (Z.to_nat len) s
              (mk_ip_send d next_hop dst_mac max_payload fragment_payload (u16 r) src_ip dst_ip
                 proto ttl tos) payload len 0
      end
  end.

Definition ipv4_send (s : net_state) (dev : devptr) (dst_ip proto : Z) (payload : list Z)
    : net_state * Z := ipv4_send_common s dev dst_ip proto payload 64 0.

Definition ipv4_send_ttl (s : net_state) (dev : devptr) (dst_ip proto : Z) (payload : list Z)
    (ttl : Z) : net_state * Z := ipv4_send_common s dev dst_ip proto payload ttl 0.

Definition ipv4_send_full (s : net_state) (dev : devptr) (dst_ip proto : Z) (payload : list Z)
    (ttl tos : Z) : net_state * Z := ipv4_send_common s dev dst_ip proto payload ttl tos.

(** [full_ip_packet] is NULL or the packet. *)
Definition ipv4_send_raw (s : net_state) (dev : devptr) (dst_ip : Z)
    (full_ip_packet : option (list Z)) : net_state * Z :=
  match dev, full_ip_packet with
  | Some d0, Some packet =>
      let total_len := Z.of_nat (length packet) in
      if total_len <? sizeof_ipv4_header then (s, -1)
      else
        let '(out_dev, next_hop) := route_lookup (routes s) dst_ip in
        let d := default d0 out_dev in
        if decide (lo s = Some d) then dev_send nic_send s d packet
        else if is_mcast dst_ip
        then eth_send nic_send s (Some d) (mcast_mac dst_ip) ETH_P_IP packet
        else if dst_ip =? 0xFFFFFFFF
        then eth_send nic_send s (Some d) [0xFF; 0xFF; 0xFF; 0xFF; 0xFF; 0xFF] ETH_P_IP packet
        else
          let '(s, ret, mac) := arp_resolve nic_send s (Some d) next_hop in
          match mac with
          | Some mac => eth_send nic_send s (Some d) mac ETH_P_IP packet
          | None =>
              match skb_build (Some d) total_len packet (pool s) with
              | (p, None) => (set_pool p s, -1)
              | (p, Some skb) =>
                  let '(s, ret) := arp_queue_pending nic_send (set_pool p s) (Some d) next_hop
                                     (Some skb) in
                  if ret <? 0 then (set_pool (skb_put (Some skb) (pool s)) s, -1) else (s, 0)
              end
          end
  | _, _ => (s, -1)
  end.

End Send.

(** ** Specifications *)

(** The number of fragments and the fragments of a datagram. *)
Definition nfrags (c : ip_send) (len : Z) : nat :=
  if len <=? is_max c then 1%nat
  else Z.to_nat ((len - is_max c + is_frag c - 1) / is_frag c + 1).

Definition frag_offset (c : ip_send) (i : nat) : Z := Z.of_nat i * is_frag c.

Definition fragments (c : ip_send) (payload : list Z) : list (list Z) :=
  let len := Z.of_nat (length payload) in
  (fun i => frag_packet c payload len (frag_offset c i)) <$> seq 0 (nfrags c len).

(** The values [ipv4_send_common] computes for a datagram of [len] bytes. *)
Record ip_send_ok (c : ip_send) (len : Z) : Prop := {
  so_id : urange 16 (is_id c);
  so_src : urange 32 (is_src c);
  so_dst : urange 32 (is_dst c);
  so_proto : byte (is_proto c);
  so_ttl : byte (is_ttl c);
  so_tos : byte (is_tos c);
  so_max : 8 <= is_max c <= 65501;
  so_len : 0 < len <= 65535;
  so_frag : len <= is_max c \/
    (is_max c < len /\ is_frag c mod 8 = 0 /\ 0 < is_frag c <= is_max c);
}.

(** ** Geometry of the fragments *)

Lemma nfrags_spec c len :
  ip_send_ok c len ->
  exists k, nfrags c len = S k /\
    (forall i, (i < k)%nat -> is_max c < len - frag_offset c i /\ is_max c < len) /\
    0 < len - frag_offset c k <= is_max c.
Proof.
  intros H. pose proof (so_len _ _ H). unfold nfrags, frag_offset.
  destruct (Z.leb_spec len (is_max c)) as [Hl|Hl].
  - exists 0%nat. split_and!; [done| |lia|lia]. intros i Hi. lia.
  - destruct (so_frag _ _ H) as [?|(_ & _ & Hf)]; [lia|].
    set (q := (len - is_max c + is_frag c - 1) / is_frag c).
    assert (Hq : (q - 1) * is_frag c < len - is_max c <= q * is_frag c).
    { unfold q. pose proof (Z.div_mod (len - is_max c + is_frag c - 1) (is_frag c) ltac:(lia)).
      pose proof (Z.mod_pos_bound (len - is_max c + is_frag c - 1) (is_frag c) ltac:(lia)). nia. }
    assert (0 < q) by nia.
    exists (Z.to_nat q). split_and!; [lia| | |].
    + intros i Hi. nia.
    + rewrite Z2Nat.id by lia. nia.
    + rewrite Z2Nat.id by lia. nia.
Qed.

(** Fragment [i] of [S k]: all but the last are full. *)
Lemma frag_chunk_spec c len k i :
  ip_send_ok c len -> nfrags c len = S k -> (i <= k)%nat ->
  0 <= frag_offset c i < len /\
  (i = k /\ frag_chunk c len (frag_offset c i) = len - frag_offset c i /\
   len - frag_offset c i <= is_max c \/
   (i < k)%nat /\ frag_chunk c len (frag_offset c i) = is_frag c /\
   frag_offset c (S i) = frag_offset c i + is_frag c /\ frag_offset c (S i) < len /\
   0 < is_frag c <= is_max c /\ is_frag c mod 8 = 0).
Proof.
  intros H Hk Hi. destruct (nfrags_spec c len H) as (k' & Hk' & Hfull & Hlast).
  assert (k' = k) as -> by lia. pose proof (so_len _ _ H). pose proof (so_max _ _ H).
  unfold frag_chunk. destruct (decide (i = k)) as [->|Hne].
  - assert (0 <= frag_offset c k).
    { unfold frag_offset. destruct k; [lia|]. destruct (Hfull 0%nat ltac:(lia)) as [_ ?].
      destruct (so_frag _ _ H) as [?|(_ & _ & ?)]; [lia|nia]. }
    split; [lia|]. left. rewrite u16_small by lia.
    destruct (Z.ltb_spec (is_max c) (len - frag_offset c k)); [lia|]. split_and!; lia.
  - destruct (Hfull i ltac:(lia)) as [Hg1 Hg2].
    destruct (so_frag _ _ H) as [?|(_ & Hm & Hf)]; [lia|].
    assert (0 <= frag_offset c i) by (unfold frag_offset; nia).
    split; [lia|]. right. rewrite u16_small by lia.
    destruct (Z.ltb_spec (is_max c) (len - frag_offset c i)); [|lia].
    assert (frag_offset c (S i) = frag_offset c i + is_frag c) by (unfold frag_offset; lia).
    split_and!; try lia.
Qed.

Lemma frag_chunk_bounds c len k i :
  ip_send_ok c len -> nfrags c len = S k -> (i <= k)%nat ->
  let off := frag_offset c i in
  0 <= off /\ 0 < frag_chunk c len off <= is_max c /\ off + frag_chunk c len off <= len.
Proof.
  intros H Hk Hi off. pose proof (so_max _ _ H).
  destruct (frag_chunk_spec c len k i H Hk Hi) as [? [(_ & E & ?)|(_ & E & ? & ? & ? & _)]];
    fold off in E; rewrite E; unfold off; lia.
Qed.

(** The index of a fragment is at most its offset. *)
Lemma frag_offset_le c len k i :
  ip_send_ok c len -> nfrags c len = S k -> (i <= k)%nat -> Z.of_nat i <= frag_offset c i.
Proof.
  intros H Hk Hi. destruct i as [|i]; [done|].
  destruct (frag_chunk_spec c len k i H Hk ltac:(lia)) as [_ [(? & _)|(_ & _ & _ & _ & ? & _)]]; [lia|].
  unfold frag_offset. nia.
Qed.

(** When there are several fragments, the second one starts at 8 at least. *)
Lemma frag_offset_pos c len k i :
  ip_send_ok c len -> nfrags c len = S k -> is_max c < len -> (0 < i)%nat -> 8 <= frag_offset c i.
Proof.
  intros H Hk Hm Hi. destruct (so_frag _ _ H) as [?|(_ & Hmod & Hf)]; [lia|].
  unfold frag_offset. assert (8 <= is_frag c) by zlia. nia.
Qed.

Lemma length_frag_packet c payload k i :
  let len := Z.of_nat (length payload) in
  ip_send_ok c len -> nfrags c len = S k -> (i <= k)%nat ->
  Z.of_nat (length (frag_packet c payload len (frag_offset c i))) =
    sizeof_ipv4_header + frag_chunk c len (frag_offset c i).
Proof.
  intros len H Hk Hi. pose proof (frag_chunk_bounds c len k i H Hk Hi) as (? & ? & ?).
  unfold frag_packet, read_at. rewrite length_app, length_ipv4_header_bytes, length_take, length_drop.
  unfold sizeof_ipv4_header, len in *. lia.
Qed.

(** ** The send path *)

Section SendProofs.
Variable nic_send : nat -> list Z -> Z.

(** One round over a NIC with a known address: two buffers are taken and given
    back, and the packet goes out in a frame, unless a buffer of the jumbo class
    was needed and none was free. *)
Lemma ipv4_tx_step F s d dv mac pk :
  net_free F s -> (2 <= length F)%nat -> nic_ok s d dv -> length mac = ETH_ALEN ->
  Z.of_nat (length pk) <= mtu dv ->
  let big := SKB_SMALL_DATA < ETH_HLEN + mtu dv + SKB_HEADROOM in
  let frame := eth_frame mac (mac_addr dv) ETH_P_IP pk in
  let '(P, r) := skb_build (Some d) (Z.of_nat (length pk)) pk (pool s) in
  match r with
  | None => net_free F (set_pool P s) /\ big
  | Some a =>
      let '(s2, ret) := eth_send nic_send (set_pool P s) (Some d) mac ETH_P_IP (skb_payload P a) in
      let P3 := skb_put (Some a) (pool s2) in
      net_free F (set_pool P3 s2) /\
      ((ret = nic_send d frame /\ set_pool P3 s2 = set_pool P3 (log_tx d frame s)) \/
       (ret = -1 /\ set_pool P3 s2 = set_pool P3 s /\ big))
  end.
Proof.
  intros [HF Hr] HFl Hn Hmac Hl big frame. pose proof (nic_mtu _ _ _ Hn).
  pose proof (skb_build_ok F (Some d) pk (pool s) HF Hr ltac:(lia)) as Hb.
  pose proof (skb_build_ready (Some d) (Z.of_nat (length pk)) pk (pool s)) as Hrd.
  destruct (skb_build (Some d) (Z.of_nat (length pk)) pk (pool s)) as [P [a|]]; cbn [fst] in Hrd.
  - destruct Hb as (Hown & _ & _ & F' & HFF & HP).
    assert (HF' : F' <> []).
    { intros ->. apply Permutation_length in HFF. simpl in HFF. lia. }
    rewrite (proj1 Hown).
    pose proof (eth_send_nic nic_send F' (set_pool P s) d dv mac ETH_P_IP pk
      (conj HP (eq_trans Hrd Hr)) ltac:(by apply (nic_ok_frame s)) Hmac Hl) as He.
    destruct (eth_send nic_send (set_pool P s) (Some d) mac ETH_P_IP pk) as [s2 ret].
    destruct He as ([HF2 Hr2] & Hq2 & Hcase).
    pose proof (owns_not_free F' P a pk HP Hown) as HaF.
    assert (Hown2 : owns (pool s2) a pk) by (eapply owns_frame; [by apply Hq2|done]).
    destruct (skb_put_last F' a pk (pool s2) HF2 Hown2) as [HF3 _].
    split; [split; cbn [pool set_pool]; [by rewrite HFF|by rewrite skb_put_ready]|].
    destruct Hcase as [[Es Er]|(Es & Er & [?|?])]; [left|right|done].
    + split; [done|]. rewrite Es. done.
    + split_and!; [done|by rewrite Es|unfold big; lia].
  - destruct Hb as (_ & HP & [?|?]); [|subst F; simpl in HFl; lia].
    split; [exact (conj HP (eq_trans Hrd Hr))|]. unfold big, ETH_HLEN. lia.
Qed.

Lemma log_all_app f g s : log_all (f ++ g) s = log_all g (log_all f s).
Proof. unfold log_all. by rewrite foldl_app. Qed.

(** The frames of the fragments from [i] on. *)
Definition frag_frames (c : ip_send) (dv : net_device) (mac : list Z) (payload : list Z) (i m : nat)
    : list (nat * list Z) :=
  (fun j => (is_dev c, eth_frame mac (mac_addr dv) ETH_P_IP
     (frag_packet c payload (Z.of_nat (length payload)) (frag_offset c j)))) <$> seq i m.

Lemma ipv4_send_loop_nic F c dv mac payload k fuel :
  let len := Z.of_nat (length payload) in
  ip_send_ok c len -> nfrags c len = S k -> is_mac c = Some mac -> length mac = ETH_ALEN ->
  is_max c + sizeof_ipv4_header <= mtu dv -> (2 <= length F)%nat ->
  (forall f, 0 <= nic_send (is_dev c) f) ->
  forall s i o,
  net_free F s -> nic_ok s (is_dev c) dv ->
  ((i <= k)%nat /\ o = frag_offset c i \/ i = S k /\ o = len) -> (S k - i <= fuel)%nat ->
  let '(s', r) := ipv4_send_loop nic_send fuel s c payload len o in
  exists m P, s' = set_pool P (log_all (frag_frames c dv mac payload i m) s) /\
    net_free F s' /\
    ((r = 0 /\ m = (S k - i)%nat) \/
     (r = -1 /\ (m < S k - i)%nat /\ SKB_SMALL_DATA < ETH_HLEN + mtu dv + SKB_HEADROOM)).
Proof.
  intros len Hok Hk Hmac Hml Hmtu HFl Hnic. induction fuel as [|fuel IH]; intros s i o HF Hn Ho Hfuel.
  { exists 0%nat, (pool s). split_and!; [by destruct s|done|left; split; [done|lia]]. }
  cbn [ipv4_send_loop]. destruct (Z.ltb_spec o len) as [Hlt|Hge].
  2: { destruct Ho as [[Hi ->]|[-> ->]].
       - destruct (frag_chunk_spec c len k i Hok Hk Hi); lia.
       - exists 0%nat, (pool s). split_and!; [by destruct s|done|left; split; [done|lia]]. }
  destruct Ho as [[Hi ->]|[-> ->]]; [|lia].
  pose proof (frag_chunk_bounds c len k i Hok Hk Hi) as (Hb1 & Hb2 & Hb3).
  pose proof (so_max _ _ Hok) as Hmx. pose proof (so_len _ _ Hok) as Hln.
  pose proof (length_frag_packet c payload k i Hok Hk Hi) as Hlen. fold len in Hlen.
  set (pk := frag_packet c payload len (frag_offset c i)) in *.
  set (chunk := frag_chunk c len (frag_offset c i)) in *.
  rewrite u16_small by (unfold sizeof_ipv4_header; lia). rewrite <- Hlen.
  pose proof (ipv4_tx_step F s (is_dev c) dv mac pk HF HFl Hn Hml ltac:(lia)) as Hstep.
  destruct (skb_build (Some (is_dev c)) (Z.of_nat (length pk)) pk (pool s)) as [P [a|]].
  2: { destruct Hstep as [HFP Hbig]. exists 0%nat, P. split_and!; [done|done|right].
       split_and!; [done|lia|done]. }
  cbn [pool set_pool lo]. rewrite decide_False by apply Hn. rewrite Hmac.
  destruct (eth_send nic_send (set_pool P s) (Some (is_dev c)) mac ETH_P_IP (skb_payload P a)) as [s2 ret].
  destruct Hstep as [HF3 [[-> Es3]|(-> & Es3 & Hbig)]].
  2: { exists 0%nat, (skb_put (Some a) (pool s2)). split_and!; [done|done|right].
       split_and!; [done|lia|done]. }
  set (frame := eth_frame mac (mac_addr dv) ETH_P_IP pk) in *.
  specialize (Hnic frame) as Hnn. destruct (Z.ltb_spec (nic_send (is_dev c) frame) 0); [lia|].
  set (s3 := set_pool (skb_put (Some a) (pool s2)) s2) in *.
  specialize (IH s3 (S i) (u16 (frag_offset c i + chunk)) HF3).
  destruct (ipv4_send_loop nic_send fuel s3 c payload len (u16 (frag_offset c i + chunk))) as [s4 r].
  destruct IH as (m & P4 & -> & HF4 & Hr).
  - rewrite Es3. by apply (nic_ok_frame s).
  - rewrite u16_small by lia. unfold chunk in *.
    destruct (frag_chunk_spec c len k i Hok Hk Hi) as [_ [(-> & E & _)|(Hik & E & E2 & _)]];
      rewrite E in *; [right|left]; split; lia.
  - lia.
  - exists (S m), P4. split_and!; [|done|].
    + change (frag_frames c dv mac payload i (S m)) with
        ([(is_dev c, frame)] ++ frag_frames c dv mac payload (S i) m).
      rewrite log_all_app. rewrite Es3. by rewrite log_all_set_pool.
    + destruct Hr as [[-> ->]|(-> & ? & ?)]; [left; split; [done|lia]|right; split_and!; [done|lia|done]].
Qed.

(** The parameters [ipv4_send_common] computes for a datagram over a NIC. *)
Definition nic_send_params (d : nat) (dv : net_device) (next_hop : Z) (mac : list Z) (ident : Z)
    (dst_ip proto len ttl tos : Z) : ip_send :=
  let max_payload := mtu dv - sizeof_ipv4_header in
  mk_ip_send d next_hop (Some mac) max_payload
    (if len <=? max_payload then max_payload else max_payload / 8 * 8) ident (ip_addr dv) dst_ip
    proto ttl tos.

Lemma land_not7 x : 0 <= x < 2 ^ 16 -> Z.land x (u32 (Z.lnot 7)) = x / 8 * 8.
Proof.
  intros Hx. change (u32 (Z.lnot 7)) with (Z.shiftl (Z.ones 29) 3).
  assert (Z.land x (Z.shiftl (Z.ones 29) 3) = Z.shiftl (Z.land (Z.shiftr x 3) (Z.ones 29)) 3) as ->.
  { apply Z.bits_inj'. intros n Hn. rewrite Z.land_spec, !Z.shiftl_spec by done.
    rewrite Z.land_spec. destruct (Z.ltb_spec n 3).
    - rewrite (Z.testbit_neg_r (Z.ones 29)) by lia. by rewrite !andb_false_r.
    - rewrite Z.shiftr_spec by lia. by replace (n - 3 + 3) with n by lia. }
  rewrite Z.land_ones by lia. rewrite Z.shiftl_mul_pow2, Z.shiftr_div_pow2 by lia.
  change (2 ^ 3) with 8. rewrite Z.mod_small; [done|]. zlia.
Qed.

Lemma nic_send_params_ok d dv next_hop mac ident dst_ip proto len ttl tos :
  urange 16 ident -> urange 32 (ip_addr dv) -> urange 32 dst_ip -> byte proto -> byte ttl ->
  byte tos -> 28 <= mtu dv <= 65521 -> 0 < len <= 65535 ->
  ip_send_ok (nic_send_params d dv next_hop mac ident dst_ip proto len ttl tos) len.
Proof.
  intros. unfold nic_send_params, sizeof_ipv4_header. split; cbn; try done; try lia.
  destruct (Z.leb_spec len (mtu dv - 20)); [left; lia|right]. zlia.
Qed.

Lemma ipv4_send_common_nic s dev dst_ip proto payload ttl tos d next_hop dv mac :
  let len := Z.of_nat (length payload) in
  ipv4_route s dev dst_ip = Some (d, next_hop) -> nic_ok s d dv ->
  (ip_addr dv = 0 \/ dst_ip <> ip_addr dv) ->
  ipv4_dst_mac nic_send s d dst_ip next_hop = (s, Some mac) -> 28 <= mtu dv ->
  ipv4_send_common nic_send s dev dst_ip proto payload ttl tos =
  ipv4_send_loop nic_send (Z.to_nat len) (random_u32 s).1
    (nic_send_params d dv next_hop mac (u16 (random_u32 s).2) dst_ip proto len ttl tos) payload len 0.
Proof.
  intros len Hroute Hn Hself Hmac Hmtu. pose proof (nic_mtu _ _ _ Hn).
  unfold ipv4_send_common. rewrite Hroute. cbn [mbind option_bind fst].
  rewrite (nic_dev _ _ _ Hn). cbn [fmap option_fmap option_map].
  assert (lo_redirect s d dv dst_ip = (d, 0)) as ->.
  { unfold lo_redirect. destruct Hself as [->|Hne].
    - by rewrite andb_false_r.
    - apply Z.eqb_neq in Hne as ->. by rewrite andb_false_r. }
  rewrite (nic_dev _ _ _ Hn), Hmac. rewrite bool_decide_false by apply Hn.
  destruct (Z.ltb_spec (mtu dv) (sizeof_ipv4_header + 8)); [unfold sizeof_ipv4_header in *; lia|].
  rewrite u16_small by (unfold sizeof_ipv4_header; lia).
  rewrite land_not7 by (unfold sizeof_ipv4_header; lia).
  rewrite u16_small by (unfold sizeof_ipv4_header; zlia).
  destruct (random_u32 s) as [s1 r]. cbn [fst snd].
  destruct (Z.eqb_spec ((mtu dv - sizeof_ipv4_header) / 8 * 8) 0) as [E|_];
    [unfold sizeof_ipv4_header in E; zlia|]. done.
Qed.

(** C15.  Fragmentation on the wire: sending a datagram through a NIC whose
    neighbour is known transmits exactly the fragments of the datagram, in
    order, each in one Ethernet frame to the neighbour; every buffer used goes
    back to the pool.  It returns 0 when all of them were sent; it can only stop
    early, after a prefix and with -1, when the MTU requires jumbo buffers. *)
Theorem ipv4_send_fragments F s dev dst_ip proto payload ttl tos d next_hop dv mac :
  net_free F s -> (2 <= length F)%nat ->
  ipv4_route s dev dst_ip = Some (d, next_hop) -> nic_ok s d dv ->
  (ip_addr dv = 0 \/ dst_ip <> ip_addr dv) ->
  ipv4_dst_mac nic_send s d dst_ip next_hop = (s, Some mac) -> length mac = ETH_ALEN ->
  28 <= mtu dv -> (0 < length payload)%nat -> Z.of_nat (length payload) <= 65535 ->
  (forall f, 0 <= nic_send d f) ->
  urange 32 (ip_addr dv) -> urange 32 dst_ip -> byte proto -> byte ttl -> byte tos ->
  let c := nic_send_params d dv next_hop mac (u16 (random_u32 s).2) dst_ip proto
             (Z.of_nat (length payload)) ttl tos in
  let frames := (fun pk => (d, eth_frame mac (mac_addr dv) ETH_P_IP pk)) <$> fragments c payload in
  let '(s', r) := ipv4_send_common nic_send s dev dst_ip proto payload ttl tos in
  net_free F s' /\
  exists m, tx s' = tx s ++ take m frames /\
    ((r = 0 /\ m = length frames) \/
     (r = -1 /\ (m < length frames)%nat /\ SKB_SMALL_DATA < ETH_HLEN + mtu dv + SKB_HEADROOM)).
Proof.
  intros HF HFl Hroute Hn Hself Hmac Hml Hmtu Hl0 Hl Hnic Hip Hdst Hpr Htt Hto c frames.
  pose proof (nic_mtu _ _ _ Hn) as Hmt.
  assert (Hok : ip_send_ok c (Z.of_nat (length payload))).
  { apply nic_send_params_ok; try done; [apply u16_range|lia|lia]. }
  destruct (nfrags_spec _ _ Hok) as (k & Hk & _).
  rewrite (ipv4_send_common_nic s dev dst_ip proto payload ttl tos d next_hop dv mac) by done.
  fold c. assert (Hrs : forall P, random_u32 s = P -> pool P.1 = pool s /\ tx P.1 = tx s /\
    devs P.1 = devs s /\ lo P.1 = lo s).
  { intros P <-. unfold random_u32. by destruct (random s). }
  destruct (Hrs _ eq_refl) as (E1 & E2 & E3 & E4).
  pose proof (ipv4_send_loop_nic F c dv mac payload k (length payload) Hok Hk eq_refl Hml) as HL.
  specialize (HL ltac:(unfold c, nic_send_params; cbn; lia) HFl Hnic (random_u32 s).1 0%nat 0).
  rewrite Nat2Z.id. destruct (ipv4_send_loop _ _ _ _ _ _ _) as [s' r].
  destruct HL as (m & P & -> & HF' & Hr).
  - unfold net_free. by rewrite E1.
  - by apply (nic_ok_frame s).
  - left. split; [lia|done].
  - destruct (frag_chunk_spec _ _ k k Hok Hk (le_n k)) as [? _].
    pose proof (frag_offset_le _ _ k k Hok Hk (le_n k)). lia.
  - split; [done|]. exists m. destruct (log_all_frame (frag_frames c dv mac payload 0 m) (random_u32 s).1)
      as (_ & _ & _ & Etx).
    assert (Hlf : length frames = S k) by (unfold frames, fragments; by rewrite !length_fmap, length_seq).
    split.
    + cbn [tx set_pool]. rewrite Etx, E2. f_equal. unfold frames, fragments, frag_frames.
      rewrite <- list_fmap_compose, <- fmap_take, take_seq, Hk. f_equal.
      f_equal. destruct Hr as [[_ ->]|(_ & ? & _)]; lia.
    + rewrite Hlf. destruct Hr as [[-> ->]|(-> & ? & ?)]; [left|right]; split_and!; try done; lia.
Qed.

End SendProofs.

(** ** Parsing the fragments *)

Lemma land_pow2_small x n : 0 <= n -> 0 <= x < 2 ^ n -> Z.land x (2 ^ n) = 0.
Proof.
  intros Hn Hx. apply Z.bits_inj'. intros i Hi. rewrite Z.land_spec, Z.bits_0.
  rewrite Z.pow2_bits_eqb by done. destruct (Z.eqb_spec n i) as [->|]; [|by rewrite andb_false_r].
  rewrite andb_true_r. destruct (decide (x = 0)) as [->|]; [apply Z.bits_0|].
  apply Z.bits_above_log2; [lia|]. apply Z.log2_lt_pow2; lia.
Qed.

Lemma frag_flags_spec len off chunk :
  0 <= off < 65536 ->
  let f := frag_flags len off chunk in
  urange 16 f /\ Z.land f IPV4_FRAG_OFFSET_MASK = off / 8 /\
  has f IPV4_FLAG_MF = (off + chunk <? len).
Proof.
  intros Ho f. assert (Hx : 0 <= off / 8 < 2 ^ 13) by zlia.
  assert (Ef : f = Z.lor (if off + chunk <? len then 2 ^ 13 else 0) (off / 8)).
  { unfold f, frag_flags. f_equal. change IPV4_FRAG_OFFSET_MASK with (Z.ones 13).
    rewrite Z.land_ones, Z.mod_small by lia. apply u16_small. lia. }
  unfold has. change IPV4_FRAG_OFFSET_MASK with (Z.ones 13). change IPV4_FLAG_MF with (2 ^ 13).
  assert (Hmf : Z.land f (2 ^ 13) = if off + chunk <? len then 2 ^ 13 else 0).
  { rewrite Ef, Z.land_lor_distr_l, (land_pow2_small (off / 8)), Z.lor_0_r by lia.
    by destruct (off + chunk <? len). }
  rewrite Hmf, Ef. destruct (off + chunk <? len).
  - assert (E : Z.lor (2 ^ 13) (off / 8) = 2 ^ 13 + off / 8).
    { rewrite <- Z.add_lor_land. rewrite Z.land_comm, land_pow2_small by lia. lia. }
    split_and!; [rewrite E; unfold urange; lia| |done].
    rewrite E, Z.land_ones by lia. zlia.
  - rewrite Z.lor_0_l. split_and!; [unfold urange; lia| |done].
    rewrite Z.land_ones by lia. zlia.
Qed.

Lemma frag_header_ok c len k i :
  ip_send_ok c len -> nfrags c len = S k -> (i <= k)%nat ->
  let off := frag_offset c i in let chunk := frag_chunk c len off in
  let ip := frag_header c (u16 (sizeof_ipv4_header + chunk)) (frag_flags len off chunk) in
  ipv4_header_ok ip /\ ipv4_checksum (ipv4_header_bytes ip) sizeof_ipv4_header = 0.
Proof.
  intros H Hk Hi off chunk ip. pose proof (net_htonl_range (is_src c) (so_src _ _ H)).
  pose proof (net_htonl_range (is_dst c) (so_dst _ _ H)).
  assert (Hok0 : forall ck, urange 16 ck -> ipv4_header_ok (with_checksum ip ck)).
  { intros ck Hck. destruct H. split; cbn; try done; try apply net_htons_range. }
  assert (Hz0 : urange 16 0) by (unfold urange; lia).
  destruct (ipv4_checksum_ok (with_checksum ip 0) (Hok0 0 Hz0) ltac:(cbn; lia)) as [Hc Hz].
  split; [|exact Hz]. exact (Hok0 _ Hc).
Qed.

(** What [ipv4_rx] does with a packet of the send path. *)
Lemma ipv4_rx_packet s d dv c payload k i rest :
  let len := Z.of_nat (length payload) in
  let off := frag_offset c i in let chunk := frag_chunk c len off in
  let pk := frag_packet c payload len off in
  ip_send_ok c len -> nfrags c len = S k -> (i <= k)%nat ->
  devs s !! d = Some dv -> ipv4_accepts s d dv (is_dst c) = true ->
  exists ip, net_ntohs (flags_fragment ip) = frag_flags len off chunk /\
    net_ntohs (identification ip) = is_id c /\ protocol ip = is_proto c /\ tos ip = is_tos c /\
    ipv4_rx s d (pk ++ rest) (Z.of_nat (length pk)) =
      let fl := frag_flags len off chunk in
      let bytes := read_at (Z.to_nat off) (Z.to_nat chunk) payload in
      if has fl IPV4_FLAG_MF || has fl IPV4_FRAG_OFFSET_MASK then
        (ipv4_reassemble_fragment s (Some d) ip (is_src c) (is_dst c) bytes chunk (is_ttl c)).1
      else
        let s := log_up (Up_raw (is_src c) (is_dst c) (is_proto c) pk) s in
        if is_proto c =? 2 then log_up (Up_igmp (Some d) (is_src c) bytes) s
        else ipv4_dispatch_payload s (Some d) (is_src c) (is_dst c) (is_proto c) bytes
               (is_ttl c) (is_tos c).
Proof.
  intros len off chunk pk H Hk Hi Hd Hacc.
  pose proof (frag_chunk_bounds c len k i H Hk Hi) as (Hb1 & Hb2 & Hb3). fold off chunk in Hb1, Hb2, Hb3.
  pose proof (so_max _ _ H). pose proof (so_len _ _ H).
  pose proof (length_frag_packet c payload k i H Hk Hi) as Hlen. fold len off pk chunk in Hlen.
  destruct (frag_header_ok c len k i H Hk Hi) as [Hh Hck]. fold off chunk in Hh, Hck.
  set (ip := frag_header c (u16 (sizeof_ipv4_header + chunk)) (frag_flags len off chunk)) in *.
  destruct (frag_flags_spec len off chunk ltac:(lia)) as (Hf1 & Hf2 & Hf3).
  assert (Epk : pk = ipv4_header_bytes ip ++ read_at (Z.to_nat off) (Z.to_nat chunk) payload) by done.
  exists ip. split_and!; [by apply net_ntohs_htons| |done|done|].
  { apply net_ntohs_htons. apply H. }
  unfold ipv4_rx. rewrite Hd, Hlen.
  assert (ipv4_header_of (pk ++ rest) = ip) as ->.
  { rewrite Epk, <- app_assoc. by apply ipv4_header_of_bytes. }
  assert (Hck' : ipv4_checksum (pk ++ rest) 20 = 0).
  { rewrite <- Hck. unfold ipv4_checksum. do 4 f_equal. }
  assert (Htot : net_ntohs (total_length ip) = 20 + chunk).
  { unfold ip, frag_header. cbn [total_length with_checksum]. unfold sizeof_ipv4_header.
    rewrite u16_small by lia. apply net_ntohs_htons. lia. }
  assert (Hsrc : net_ntohl (src_addr ip) = is_src c) by apply net_ntohl_htonl, H.
  assert (Hdst : net_ntohl (dst_addr ip) = is_dst c) by apply net_ntohl_htonl, H.
  assert (Hfl : net_ntohs (flags_fragment ip) = frag_flags len off chunk) by (by apply net_ntohs_htons).
  assert (Hrd : read_at 20 (Z.to_nat chunk) (pk ++ rest) =
                read_at (Z.to_nat off) (Z.to_nat chunk) payload).
  { unfold read_at at 1. rewrite Epk, <- app_assoc. rewrite drop_app_ge by done.
    change (20 - length (ipv4_header_bytes ip))%nat with 0%nat. rewrite drop_0.
    assert (length (read_at (Z.to_nat off) (Z.to_nat chunk) payload) = Z.to_nat chunk).
    { unfold read_at. rewrite length_take, length_drop. lia. }
    rewrite take_app_le by lia. by rewrite take_ge by lia. }
  assert (Htk : take (Z.to_nat (20 + chunk)) (pk ++ rest) = pk).
  { rewrite take_app_le by (unfold sizeof_ipv4_header in Hlen; lia).
    apply take_ge. unfold sizeof_ipv4_header in Hlen. lia. }
  rewrite Htot, Hsrc, Hdst, Hfl, Hacc, Htk. change (version_ihl ip) with 69.
  change (Z.shiftr 69 4 =? 4) with true. change (Z.land 69 15 * 4) with 20. rewrite Hck'.
  unfold sizeof_ipv4_header. rewrite Z.ltb_irrefl.
  destruct (Z.ltb_spec (20 + chunk) 20); [lia|]. cbn [negb orb Z.eqb].
  change (20 <? 20) with false. cbn [orb].
  replace (20 + chunk - 20) with chunk by lia. rewrite u16_small by lia.
  change (Z.to_nat 20) with 20%nat. by rewrite Hrd, Z.ltb_irrefl.
Qed.

(** The fragments of a datagram that needed several go to reassembly. *)
Lemma ipv4_rx_fragment s d dv c payload k i rest :
  let len := Z.of_nat (length payload) in
  let off := frag_offset c i in let chunk := frag_chunk c len off in
  let pk := frag_packet c payload len off in
  ip_send_ok c len -> is_max c < len -> nfrags c len = S k -> (i <= k)%nat ->
  devs s !! d = Some dv -> ipv4_accepts s d dv (is_dst c) = true ->
  exists ip, net_ntohs (flags_fragment ip) = frag_flags len off chunk /\
    net_ntohs (identification ip) = is_id c /\ protocol ip = is_proto c /\ tos ip = is_tos c /\
    ipv4_rx s d (pk ++ rest) (Z.of_nat (length pk)) =
      (ipv4_reassemble_fragment s (Some d) ip (is_src c) (is_dst c)
         (read_at (Z.to_nat off) (Z.to_nat chunk) payload) chunk (is_ttl c)).1.
Proof.
  intros len off chunk pk H Hmax Hk Hi Hd Hacc.
  destruct (ipv4_rx_packet s d dv c payload k i rest H Hk Hi Hd Hacc) as (ip & H1 & H2 & H3 & H4 & H5).
  exists ip. split_and!; try done. fold len off pk in H5. etransitivity; [exact H5|]. fold chunk.
  pose proof (frag_chunk_bounds c len k i H Hk Hi) as (Hb1 & Hb2 & Hb3). fold off chunk in Hb1, Hb2, Hb3.
  pose proof (so_len _ _ H). pose proof (so_max _ _ H).
  destruct (frag_flags_spec len off chunk ltac:(lia)) as (Hf1 & Hf2 & Hf3).
  assert (Hfrag : has (frag_flags len off chunk) IPV4_FLAG_MF ||
                  has (frag_flags len off chunk) IPV4_FRAG_OFFSET_MASK = true).
  { rewrite Hf3. unfold has. rewrite Hf2.
    pose proof (frag_chunk_spec c len k i H Hk Hi) as HS. fold off chunk in HS.
    destruct HS as [_ [(Ei & E & ?)|(_ & E & ? & ? & ? & _)]].
    - assert (8 <= off).
      { apply (frag_offset_pos c len k i H Hk); [done|]. destruct i; [|lia]. unfold off, frag_offset in *. lia. }
      destruct (Z.eqb_spec (off / 8) 0); [zlia|]. by rewrite orb_true_r.
    - destruct (Z.ltb_spec (off + chunk) len); [done|lia]. }
  cbv zeta. fold len off. fold chunk. by rewrite Hfrag.
Qed.

(** A datagram that fits in one packet is passed up as it is. *)
Lemma ipv4_rx_whole s d dv c payload rest :
  let len := Z.of_nat (length payload) in
  let pk := frag_packet c payload len 0 in
  ip_send_ok c len -> len <= is_max c ->
  devs s !! d = Some dv -> ipv4_accepts s d dv (is_dst c) = true ->
  ipv4_rx s d (pk ++ rest) (Z.of_nat (length pk)) =
    let s := log_up (Up_raw (is_src c) (is_dst c) (is_proto c) pk) s in
    if is_proto c =? 2 then log_up (Up_igmp (Some d) (is_src c) payload) s
    else ipv4_dispatch_payload s (Some d) (is_src c) (is_dst c) (is_proto c) payload
           (is_ttl c) (is_tos c).
Proof.
  intros len pk H Hmax Hd Hacc. pose proof (so_len _ _ H).
  assert (Hk : nfrags c len = 1%nat) by (unfold nfrags; destruct (Z.leb_spec len (is_max c)); [done|lia]).
  destruct (ipv4_rx_packet s d dv c payload 0 0 rest H Hk (le_n 0) Hd Hacc) as (ip & _ & _ & _ & _ & H5).
  etransitivity; [exact H5|]. cbv zeta. fold len. change (frag_offset c 0) with 0.
  assert (Hch : frag_chunk c len 0 = len).
  { unfold frag_chunk. rewrite Z.sub_0_r, u16_small by lia. destruct (Z.ltb_spec (is_max c) len); [lia|done]. }
  rewrite Hch. destruct (frag_flags_spec len 0 len ltac:(lia)) as (_ & Hf2 & Hf3).
  rewrite Hf3. unfold has at 1. rewrite Hf2. destruct (Z.ltb_spec (0 + len) len); [lia|].
  assert (Hrd : read_at (Z.to_nat 0) (Z.to_nat len) payload = payload).
  { unfold read_at, len. rewrite Nat2Z.id. cbn [drop]. by apply take_ge. }
  by rewrite Hrd.
Qed.

(** ** Reads of the receive path *)

Lemma byte_at_app_l (data rest : list Z) i :
  (i < length data)%nat -> byte_at (data ++ rest) i = byte_at data i.
Proof. intros Hi. unfold byte_at. by rewrite lookup_app_l. Qed.

Lemma ipv4_header_of_app data rest :
  (20 <= length data)%nat -> ipv4_header_of (data ++ rest) = ipv4_header_of data.
Proof. intros H. unfold ipv4_header_of, ld16, ld32. by rewrite !byte_at_app_l by lia. Qed.

(** C35.  Memory safety of the receive path: when the header's total length is
    not smaller than its header length, what [ipv4_rx] does depends on the bytes
    of the packet only, whatever follows it in memory. *)
Theorem ipv4_rx_reads_packet s d data rest :
  let ip := ipv4_header_of data in
  Z.land (version_ihl ip) 0x0F * 4 <= net_ntohs (total_length ip) ->
  ipv4_rx s d (data ++ rest) (Z.of_nat (length data)) = ipv4_rx s d data (Z.of_nat (length data)).
Proof.
  intros ip Htot. unfold ipv4_rx. destruct (devs s !! d) as [dv|]; [|done].
  destruct (Z.ltb_spec (Z.of_nat (length data)) sizeof_ipv4_header) as [|Hl]; [done|].
  unfold sizeof_ipv4_header in Hl. rewrite ipv4_header_of_app by lia. fold ip.
  destruct (negb (Z.shiftr (version_ihl ip) 4 =? 4)); [done|].
  set (ihl := Z.land (version_ihl ip) 15 * 4) in *. set (tot := net_ntohs (total_length ip)) in *.
  destruct (Z.ltb_spec ihl 20), (Z.ltb_spec (Z.of_nat (length data)) ihl); cbn [orb]; try done.
  destruct (Z.ltb_spec (Z.of_nat (length data)) tot); [done|].
  assert (ipv4_checksum (data ++ rest) ihl = ipv4_checksum data ihl) as ->.
  { unfold ipv4_checksum. by rewrite take_app_le by lia. }
  assert (Hu : 0 <= u16 (tot - ihl) <= tot - ihl).
  { unfold u16. split; [apply Z.mod_pos_bound; lia|apply Z.mod_le; lia]. }
  assert (read_at (Z.to_nat ihl) (Z.to_nat (u16 (tot - ihl))) (data ++ rest) =
          read_at (Z.to_nat ihl) (Z.to_nat (u16 (tot - ihl))) data) as ->.
  { unfold read_at. rewrite drop_app_le by lia. rewrite take_app_le; [done|].
    rewrite length_drop. lia. }
  by rewrite (take_app_le data rest (Z.to_nat tot)) by lia.
Qed.

(** Without that condition the length of the payload wraps around: a 20-byte
    UDP packet whose total length is 10 is passed up with 65526 bytes, read
    from whatever follows the packet. *)
Lemma ipv4_rx_short_total_overread s d dv data rest :
  let ip := ipv4_header_of data in
  length data = 20%nat -> 65526 <= Z.of_nat (length rest) ->
  devs s !! d = Some dv -> version_ihl ip = 0x45 -> net_ntohs (total_length ip) = 10 ->
  ipv4_checksum data 20 = 0 -> ipv4_accepts s d dv (net_ntohl (dst_addr ip)) = true ->
  flags_fragment ip = 0 -> protocol ip = IP_PROTO_UDP ->
  exists payload, upcalls (ipv4_rx s d (data ++ rest) 20) = upcalls s ++
      [Up_raw (net_ntohl (src_addr ip)) (net_ntohl (dst_addr ip)) IP_PROTO_UDP (take 10 data);
       Up_udp (Some d) (net_ntohl (src_addr ip)) (net_ntohl (dst_addr ip)) payload (ttl ip) (tos ip)] /\
    Z.of_nat (length payload) = 65526.
Proof.
  intros ip Hl Hrest Hd Hv Htot Hck Hacc Hfl Hpr. unfold ipv4_rx. rewrite Hd.
  change (20 <? sizeof_ipv4_header) with false. cbn [negb].
  rewrite ipv4_header_of_app by lia. fold ip. rewrite Hv, Htot, Hfl.
  change (Z.shiftr 69 4 =? 4) with true. change (Z.land 69 15 * 4) with 20. cbn [negb orb].
  change (20 <? 20) with false. change (20 <? 10) with false. cbn [negb orb].
  assert (ipv4_checksum (data ++ rest) 20 = 0) as ->.
  { rewrite <- Hck. unfold ipv4_checksum. by rewrite take_app_le by (change (Z.to_nat 20) with 20%nat; lia). }
  rewrite Hacc, Hpr. change (has (net_ntohs 0) IPV4_FLAG_MF || has (net_ntohs 0) IPV4_FRAG_OFFSET_MASK)
    with false.
  change (u16 (10 - 20)) with 65526. eexists. split.
  - unfold ipv4_dispatch_payload. cbn [Z.eqb]. unfold IP_PROTO_UDP, IP_PROTO_ICMP.
    change (17 =? 2) with false. change (17 =? 1) with false. change (17 =? 17) with true.
    cbn [negb Z.eqb upcalls log_up]. rewrite <- app_assoc. rewrite take_app_le by (change (Z.to_nat 10) with 10%nat; lia).
    reflexivity.
  - unfold read_at. rewrite length_take, length_drop, length_app, Hl. lia.
Qed.

(** ** The path-MTU cache *)

(** One entry per destination; address 0 marks the free entries. *)
Record pmtu_ok (t : list pmtu_entry) : Prop := {
  pmtu_size : length t = PMTU_CACHE_SIZE;
  pmtu_unique : forall i j e e', t !! i = Some e -> t !! j = Some e' ->
    pm_dst_ip e <> 0 -> pm_dst_ip e = pm_dst_ip e' -> i = j;
}.

Lemma pmtu_get_Some s dst i e :
  pmtu_ok (pmtu_cache s) -> dst <> 0 -> pmtu_cache s !! i = Some e -> pm_dst_ip e = dst ->
  (pmtu_get s dst).2 = pm_mtu e.
Proof.
  intros Hok Hd Hi He. unfold pmtu_get.
  destruct (find_idx (pmtu_match dst) (pmtu_cache s)) as [j|] eqn:E.
  - apply find_idx_Some in E as (e' & Hj & Hm%Z.eqb_eq & _). rewrite Hj. cbn [snd].
    assert (i = j) as -> by (eapply (pmtu_unique _ Hok i j e e'); congruence). congruence.
  - pose proof (proj1 (find_idx_None _ _) E i e Hi) as Hf. unfold pmtu_match in Hf.
    apply Z.eqb_neq in Hf. done.
Qed.

Lemma pmtu_get_None s dst :
  (forall i e, pmtu_cache s !! i = Some e -> pm_dst_ip e <> dst) -> (pmtu_get s dst).2 = 0.
Proof.
  intros H. unfold pmtu_get. destruct (find_idx (pmtu_match dst) (pmtu_cache s)) as [j|] eqn:E; [|done].
  apply find_idx_Some in E as (e' & Hj & Hm%Z.eqb_eq & _). by destruct (H j e').
Qed.

(** The slot chosen: no other entry is for the destination, and the entry that
    is overwritten is the destination's, a free one, or the oldest of a full table. *)
Lemma pmtu_slot_spec dst t :
  pmtu_ok t -> dst <> 0 ->
  exists old, t !! pmtu_slot dst t = Some old /\
    (forall j e, t !! j = Some e -> pm_dst_ip e = dst -> j = pmtu_slot dst t) /\
    (pm_dst_ip old = dst \/ pm_dst_ip old = 0 \/
     (forall e, e ∈ t -> pm_dst_ip e <> 0 /\ pm_last_use old <= pm_last_use e)).
Proof.
  intros Hok Hd. unfold pmtu_slot. destruct (find_idx (pmtu_match dst) t) as [i|] eqn:E.
  - apply find_idx_Some in E as (e & Hi & Hm%Z.eqb_eq & _). exists e. split_and!; [done| |by left].
    intros j e' Hj He'. eapply (pmtu_unique _ Hok j i e' e); congruence.
  - assert (Hno : forall j e, t !! j = Some e -> pm_dst_ip e <> dst).
    { intros j e Hj. pose proof (proj1 (find_idx_None _ _) E j e Hj) as Hf. by apply Z.eqb_neq in Hf. }
    destruct (find_idx (pmtu_match 0) t) as [i|] eqn:E0.
    + apply find_idx_Some in E0 as (e & Hi & Hm%Z.eqb_eq & _). exists e.
      split_and!; [done| |by right; left]. intros j e' Hj He'. by destruct (Hno j e').
    + pose proof (pmtu_size _ Hok) as Hsz. destruct t as [|e0 t0] eqn:Et; [done|]. rewrite <- Et in *.
      destruct (min_idx_spec pm_last_use t0 [e0] 0 (pm_last_use e0) e0) as (old & Hold & Hmin);
        [done|done| |].
      { intros j y Hj. apply list_lookup_singleton_Some in Hj as [_ <-]. lia. }
      change ([e0] ++ t0) with (e0 :: t0) in *. rewrite <- Et in *. simpl length in Hold.
      exists old. split_and!; [done| |].
      * intros j e' Hj He'. by destruct (Hno j e').
      * right; right. intros e [j Hj]%list_elem_of_lookup. split; [|by apply (Hmin j)].
        pose proof (proj1 (find_idx_None _ _) E0 j e Hj) as Hf. by apply Z.eqb_neq in Hf.
Qed.

(** The path-MTU cache: after [pmtu_set], [pmtu_get] gives the value for
    the destination, at least the RFC 791 minimum of 68; every other destination
    keeps its value, except that a full table forgets its least recently used
    entry; there is still one entry per destination. *)
Theorem pmtu_set_refines s dst mtu :
  pmtu_ok (pmtu_cache s) -> dst <> 0 ->
  let s' := pmtu_set s dst mtu in
  pmtu_ok (pmtu_cache s') /\ (pmtu_get s' dst).2 = Z.max 68 mtu /\
  forall dst', dst' <> 0 -> dst' <> dst ->
    (pmtu_get s' dst').2 = (pmtu_get s dst').2 \/
    exists old, old ∈ pmtu_cache s /\ pm_dst_ip old = dst' /\
      forall e, e ∈ pmtu_cache s -> pm_dst_ip e <> 0 /\ pm_last_use old <= pm_last_use e.
Proof.
  intros Hok Hd s'. destruct (pmtu_slot_spec dst (pmtu_cache s) Hok Hd) as (old & Hold & Huniq & Hcase).
  set (i := pmtu_slot dst (pmtu_cache s)) in *.
  assert (Hmax : (if mtu <? 68 then 68 else mtu) = Z.max 68 mtu) by (destruct (Z.ltb_spec mtu 68); lia).
  assert (Es : pmtu_cache s' = <[i := mk_pmtu_entry dst (Z.max 68 mtu) (ticks s)]> (pmtu_cache s)).
  { unfold s', pmtu_set. by rewrite Hmax. }
  assert (Hi : pmtu_cache s' !! i = Some (mk_pmtu_entry dst (Z.max 68 mtu) (ticks s))).
  { rewrite Es. apply list_lookup_insert_eq. by eapply lookup_lt_Some. }
  assert (Hne : forall j, j <> i -> pmtu_cache s' !! j = pmtu_cache s !! j).
  { intros j Hj. rewrite Es. by apply list_lookup_insert_ne. }
  assert (Hok' : pmtu_ok (pmtu_cache s')).
  { split; [rewrite Es, length_insert; apply Hok|]. intros a b e e' Ha Hb Hz He.
    destruct (decide (a = i)) as [->|Hai], (decide (b = i)) as [->|Hbi]; [done| | |].
    - rewrite Hi in Ha. injection Ha as <-. rewrite Hne in Hb by done. cbn in He.
      by rewrite (Huniq b e').
    - rewrite Hi in Hb. injection Hb as <-. rewrite Hne in Ha by done. cbn in He.
      by rewrite (Huniq a e).
    - rewrite Hne in Ha, Hb by done. by eapply (pmtu_unique _ Hok a b e e'). }
  split_and!; [done|by rewrite (pmtu_get_Some s' dst i _ Hok' Hd Hi eq_refl)|].
  intros dst' Hd0 Hdd. destruct (decide (pm_dst_ip old = dst')) as [Ho|Ho].
  - right. exists old. split_and!; [by eapply list_elem_of_lookup_2|done|].
    destruct Hcase as [?|[?|?]]; [congruence|congruence|done].
  - left. destruct (decide (Exists (fun e => pm_dst_ip e = dst') (pmtu_cache s))) as [Hex|Hnex].
    + apply Exists_exists in Hex as (e & [j Hj]%list_elem_of_lookup & He).
      assert (j <> i) by congruence.
      rewrite (pmtu_get_Some s dst' j e), (pmtu_get_Some s' dst' j e) by (rewrite ?Hne by done; done). done.
    + assert (Hno : forall j e, pmtu_cache s !! j = Some e -> pm_dst_ip e <> dst').
      { intros j e Hj He. apply Hnex, Exists_exists. exists e. split; [by eapply list_elem_of_lookup_2|done]. }
      rewrite (pmtu_get_None s dst') by done. apply pmtu_get_None.
      intros j e Hj. destruct (decide (j = i)) as [->|]; [|apply (Hno j); by rewrite <- Hne].
      rewrite Hi in Hj. injection Hj as <-. cbn. congruence.
Qed.

(** ** Witnesses *)

Definition demo_small_dev : net_device :=
  mk_net_device None [2; 0; 0; 0; 0; 1] 1000 0x0A00020F 0xFFFFFF00 0x0A000202 0 true 0 0 0 0 0.

Definition demo_ip_state : net_state := set_devs {[ 0%nat := demo_small_dev ]} demo_state.

Lemma ipv4_send_fragments_witness :
  (ipv4_send_common (fun _ _ => 0) demo_ip_state (Some 0%nat) 0xFFFFFFFF 17 [1; 2; 3; 4] 64 0).2 = 0.
Proof.
  destruct demo_built_ok as (p & F & Hp & HFl & _ & HP & Hr & Ho).
  assert (HF2 : (2 <= length F)%nat) by (revert HFl; clear; lia).
  assert (Hn : nic_ok demo_ip_state 0 demo_small_dev).
  { split; [reflexivity|discriminate|reflexivity|reflexivity|cbn; lia]. }
  assert (Hb : byte 17 /\ byte 64 /\ byte 0) by (unfold byte; lia). destruct Hb as (Hb1 & Hb2 & Hb3).
  assert (Hu : urange 32 0x0A00020F /\ urange 32 0xFFFFFFFF) by (unfold urange; lia).
  destruct Hu as [Hu1 Hu2].
  assert (HF : net_free F demo_ip_state).
  { unfold net_free. change (pool demo_ip_state) with demo_built.1. by split. }
  assert (Hroute : ipv4_route demo_ip_state (Some 0%nat) 0xFFFFFFFF = Some (0%nat, 0x0A000202)) by reflexivity.
  assert (Hmac : ipv4_dst_mac (fun _ _ => 0) demo_ip_state 0 0xFFFFFFFF 0x0A000202 =
                 (demo_ip_state, Some [0xFF; 0xFF; 0xFF; 0xFF; 0xFF; 0xFF])).
  { unfold ipv4_dst_mac. by rewrite bool_decide_false by discriminate. }
  assert (Hne : 0xFFFFFFFF <> ip_addr demo_small_dev) by discriminate.
  assert (Hmtu : 28 <= mtu demo_small_dev) by discriminate.
  assert (Hl0 : (0 < length [1; 2; 3; 4])%nat) by apply Nat.lt_0_succ.
  assert (Hl1 : Z.of_nat (length [1; 2; 3; 4]) <= 65535) by discriminate.
  pose proof (ipv4_send_fragments (fun _ _ => 0) F demo_ip_state (Some 0%nat) 0xFFFFFFFF 17 [1; 2; 3; 4]
    64 0 0%nat 0x0A000202 demo_small_dev [0xFF; 0xFF; 0xFF; 0xFF; 0xFF; 0xFF] HF HF2 Hroute Hn
    (or_intror Hne) Hmac eq_refl Hmtu Hl0 Hl1 (fun _ => Z.le_refl 0) Hu1 Hu2 Hb1 Hb2 Hb3) as H.
  destruct (ipv4_send_common _ _ _ _ _ _ _ _) as [s' r].
  destruct H as (_ & m & _ & [[-> _]|(_ & _ & Hbig)]); [reflexivity|discriminate].
Defined.

Lemma ipv4_rx_reads_packet_witness :
  ipv4_rx demo_ip_state 0 (replicate 20 0 ++ [1; 2; 3]) 20 = ipv4_rx demo_ip_state 0 (replicate 20 0) 20.
Proof. apply (ipv4_rx_reads_packet demo_ip_state 0 (replicate 20 0) [1; 2; 3]). vm_compute. congruence. Defined.

Lemma pmtu_set_refines_witness :
  let s := set_pmtu_cache (replicate PMTU_CACHE_SIZE (mk_pmtu_entry 0 0 0)) demo_ip_state in
  (pmtu_get (pmtu_set s 0x0A000202 40) 0x0A000202).2 = 68.
Proof.
  intros s. refine (proj1 (proj2 (pmtu_set_refines s 0x0A000202 40 _ ltac:(done)))).
  split; [done|]. intros i j e e' [-> _]%lookup_replicate. done.
Defined.
