(* ===== verification/Reassembly.v ===== *)
(** * Correctness of IPv4 reassembly

    The receive side of [kernel/net/ipv4.c] (modelled in Ipv4) against its send
    side: the fragments [ipv4_send_common] makes of a datagram, received in any
    order and with duplicates, give back the datagram, once, when the last
    missing fragment arrives and not before. *)

From Stdlib Require Import ZArith Lia Bool.
From stdpp Require Import base list gmap.
From S2P Require Import Prelude Wire Chain Skb Route Net Arp Ipv4.

(** ** Invariants *)

Definition marked (b : Z) : bool := negb (Z.land b 1 =? 0).

(** A slot that the search takes into account. *)
Definition ra_live (now : Z) (sl : ipv4_reassembly_slot) : bool :=
  ra_active sl && negb (ra_expire_tick sl <=? now).

Definition ra_expire (now : Z) (sl : ipv4_reassembly_slot) : ipv4_reassembly_slot :=
  if ra_active sl && (ra_expire_tick sl <=? now) then ra_deactivate sl else sl.

(** The arrays of a slot have their declared sizes. *)
Definition ra_sized (sl : ipv4_reassembly_slot) : Prop :=
  Z.of_nat (length (ra_data sl)) = REASSEMBLY_DATA /\
  Z.of_nat (length (ra_bitmap sl)) = REASSEMBLY_BITMAP.

(** [block_in c len i b]: block [b] belongs to fragment [i]. *)
Definition block_in (c : ip_send) (len : Z) (i : nat) (b : Z) : Prop :=
  let off := frag_offset c i in
  off / 8 <= b < (off + frag_chunk c len off + 7) / 8.

Section Reassembly.
Variables (c : ip_send) (payload : list Z).
Let len := Z.of_nat (length payload).

Abbreviation key := (ra_key (is_src c) (is_dst c) (is_id c) (is_proto c)).

(** What a slot holds when the fragments of [got] have arrived, of [S k]. *)
Record slot_holds (k : nat) (got : list nat) (sl : ipv4_reassembly_slot) : Prop := {
  sh_key : key sl = true;
  sh_sized : ra_sized sl;
  sh_marked : forall b x, ra_bitmap sl !! b = Some x ->
    (marked x = true <-> exists i, i ∈ got /\ block_in c len i (Z.of_nat b));
  sh_data : forall i p, i ∈ got ->
    frag_offset c i <= Z.of_nat p < frag_offset c i + frag_chunk c len (frag_offset c i) ->
    ra_data sl !! p = payload !! p;
  sh_last : ra_have_last sl = (if decide (k ∈ got) then 1 else 0);
  sh_total : k ∈ got -> ra_total_len sl = len;
}.

(** No slot before [j] is in use for the datagram. *)
Definition none_before (now : Z) (j : nat) (l : list ipv4_reassembly_slot) : Prop :=
  forall i sl, l !! i = Some sl -> (i < j)%nat -> ra_live now sl = true -> key sl = false.

(** The table between two fragments: nothing has arrived and no slot is in use
    for the datagram, or the datagram has a slot. *)
Inductive phase (now : Z) (k : nat) : list nat -> list ipv4_reassembly_slot -> Prop :=
| phase_none l :
    l <> [] -> Forall ra_sized l -> (forall sl, sl ∈ l -> ra_live now sl = true -> key sl = false) ->
    phase now k [] l
| phase_some got j l sl :
    l !! j = Some sl -> ra_live now sl = true -> slot_holds k got sl -> none_before now j l ->
    phase now k got l.

(** ** The slot search *)

Lemma ra_live_expire now sl : ra_live now (ra_expire now sl) = ra_live now sl.
Proof. unfold ra_live, ra_expire. by destruct (ra_active sl) eqn:Ha, (ra_expire_tick sl <=? now) eqn:He;
  simpl; rewrite ?Ha, ?He. Qed.

Lemma ra_active_expire now sl : ra_active (ra_expire now sl) = true -> ra_live now sl = true.
Proof.
  unfold ra_live, ra_expire.
  by destruct (ra_active sl) eqn:Ha, (ra_expire_tick sl <=? now); simpl; rewrite ?Ha.
Qed.

Lemma ra_key_expire now sl : key (ra_expire now sl) = key sl.
Proof. unfold ra_expire. by destruct (_ && _). Qed.

Lemma ra_sized_expire now sl : ra_sized (ra_expire now sl) <-> ra_sized sl.
Proof. unfold ra_expire. by destruct (_ && _). Qed.

Lemma scan_found now i l free j sl :
  l !! j = Some sl -> ra_live now sl = true -> key sl = true -> none_before now j l ->
  exists l' f, reassembly_scan now (is_src c) (is_dst c) (is_id c) (is_proto c) i l free =
      (l', f, Some (i + j)%nat) /\ l' !! j = Some sl /\ none_before now j l'.
Proof.
  revert i j free. induction l as [|x l IH]; intros i j free Hj Hlive Hkey Hnone; [done|].
  simpl. change (if ra_active x && (ra_expire_tick x <=? now) then ra_deactivate x else x)
    with (ra_expire now x).
  destruct j as [|j].
  - injection Hj as ->. unfold ra_live in Hlive. apply andb_true_iff in Hlive as [Ha He].
    apply negb_true_iff in He. unfold ra_expire. rewrite Ha, He. simpl. rewrite Ha. simpl.
    rewrite Hkey. eexists _, _. split_and!; [by rewrite Nat.add_0_r|done|].
    intros ? ? ? ?. lia.
  - assert (Hn' : none_before now j l).
    { intros a b Ha Hb. apply (Hnone (S a)); [done|lia]. }
    assert (Hx : ra_active (ra_expire now x) = true -> key (ra_expire now x) = false).
    { intros Ha. rewrite ra_key_expire. apply (Hnone 0%nat); [done|lia|].
      by apply ra_active_expire. }
    assert (Hext : forall l', l' !! j = Some sl -> none_before now j l' ->
      (ra_expire now x :: l') !! S j = Some sl /\ none_before now (S j) (ra_expire now x :: l')).
    { intros l' Hl' Hnb. split; [done|]. intros [|a] y Ha Hlt Hy.
      - injection Ha as <-. rewrite ra_key_expire. rewrite ra_live_expire in Hy.
        by apply (Hnone 0%nat); [|lia|].
      - apply (Hnb a); [done|lia|done]. }
    destruct (ra_active (ra_expire now x)) eqn:Ea; simpl.
    + rewrite Hx by done. destruct (IH (S i) j free Hj Hlive Hkey Hn') as (l' & f & -> & Hl' & Hnb).
      eexists _, _. split; [f_equal; f_equal; lia|by apply Hext].
    + destruct (IH (S i) j (match free with Some _ => free | None => Some i end) Hj Hlive Hkey Hn')
        as (l' & f & -> & Hl' & Hnb).
      eexists _, _. split; [f_equal; f_equal; lia|by apply Hext].
Qed.

Lemma scan_none now i l free :
  (forall sl, sl ∈ l -> ra_live now sl = true -> key sl = false) ->
  exists f, reassembly_scan now (is_src c) (is_dst c) (is_id c) (is_proto c) i l free =
      (ra_expire now <$> l, f, None) /\
    (f = free \/ exists j, f = Some (i + j)%nat /\ (j < length l)%nat).
Proof.
  revert i free. induction l as [|x l IH]; intros i free Hnone; simpl.
  { exists free. split; [done|by left]. }
  change (if ra_active x && (ra_expire_tick x <=? now) then ra_deactivate x else x)
    with (ra_expire now x).
  assert (Hl : forall sl, sl ∈ l -> ra_live now sl = true -> key sl = false).
  { intros sl Hs. apply Hnone. by right. }
  destruct (ra_active (ra_expire now x)) eqn:Ea; simpl.
  - assert (key (ra_expire now x) = false) as ->.
    { rewrite ra_key_expire. apply Hnone; [left|]. by apply ra_active_expire. }
    destruct (IH (S i) free Hl) as (f & -> & Hf). exists f. split; [done|].
    destruct Hf as [->|(j & -> & ?)]; [by left|right]. exists (S j). split; [f_equal; lia|lia].
  - destruct (IH (S i) (match free with Some _ => free | None => Some i end) Hl) as (f & -> & Hf).
    exists f. split; [done|]. destruct Hf as [->|(j & -> & ?)].
    + destruct free; [by left|right]. exists 0%nat. split; [f_equal; lia|lia].
    + right. exists (S j). split; [f_equal; lia|lia].
Qed.

Lemma get_slot_phase now k got l :
  0 <= now -> now + IPV4_REASSEMBLY_TIMEOUT < 2 ^ 64 -> phase now k got l ->
  exists l' j sl,
    ipv4_get_reassembly_slot now (is_src c) (is_dst c) (is_id c) (is_proto c) l = (l', j) /\
    l' !! j = Some sl /\ ra_live now sl = true /\ slot_holds k got sl /\ none_before now j l'.
Proof.
  intros Hn0 Hn1 Hph. unfold ipv4_get_reassembly_slot. destruct Hph as [l Hne Hsz Hnone|got j l sl Hj Hlive Hsh Hnb].
  - destruct (scan_none now 0 l None Hnone) as (f & -> & Hf). set (j := default 0%nat f).
    assert (Hj : (j < length l)%nat).
    { destruct Hf as [->|(j' & -> & ?)]; [|done]. unfold j. cbn [default]. destruct l; [done|cbn [length]; lia]. }
    destruct (lookup_lt_is_Some_2 l j Hj) as [sl Hsl].
    assert (Hlk : (ra_expire now <$> l) !! j = Some (ra_expire now sl)) by (by rewrite list_lookup_fmap, Hsl).
    eexists _, j, _. split_and!; [done|by rewrite list_lookup_alter_eq, Hlk| | |].
    + unfold ra_live. cbn [ra_active ra_expire_tick reassembly_reset]. rewrite u64_small by
        (unfold IPV4_REASSEMBLY_TIMEOUT in *; lia).
      destruct (Z.leb_spec (now + IPV4_REASSEMBLY_TIMEOUT) now); [unfold IPV4_REASSEMBLY_TIMEOUT in *; lia|done].
    + assert (Hs : ra_sized (ra_expire now sl)).
      { apply ra_sized_expire. by eapply Forall_lookup_1 in Hsz. }
      split; cbn [reassembly_reset ra_bitmap ra_data ra_have_last ra_total_len].
      * unfold ra_key. cbn. by rewrite !Z.eqb_refl.
      * destruct Hs as [H1 H2]. split; cbn [reassembly_reset ra_data ra_bitmap]; [done|by rewrite length_fmap].
      * intros b x Hb. rewrite list_lookup_fmap in Hb. destruct (_ !! b); [|done].
        injection Hb as <-. split; [done|]. intros (i & []%not_elem_of_nil & _).
      * intros i p []%not_elem_of_nil.
      * done.
      * intros []%not_elem_of_nil.
    + intros i y Hi Hlt Hy. rewrite list_lookup_alter_ne in Hi by lia.
      rewrite list_lookup_fmap in Hi. destruct (l !! i) as [x|] eqn:Hx; [|done].
      injection Hi as <-. rewrite ra_key_expire. rewrite ra_live_expire in Hy.
      apply Hnone; [by eapply list_elem_of_lookup_2|done].
  - destruct (scan_found now 0 l None j sl Hj Hlive (sh_key _ _ _ Hsh) Hnb) as (l' & f & -> & Hl' & Hnb').
    eexists l', j, sl. split_and!; done.
Qed.

(** ** Storing a fragment *)

Lemma foldl_alter_seq (f : Z -> Z) start n (bm : list Z) b :
  foldl (fun bm block => alter f block bm) bm (seq start n) !! b =
    if decide (start <= b < start + n)%nat then f <$> bm !! b else bm !! b.
Proof.
  revert start bm. induction n as [|n IH]; intros start bm; simpl.
  - case_decide; [lia|done].
  - rewrite IH. destruct (decide (b = start)) as [->|Hne].
    + rewrite list_lookup_alter_eq. rewrite decide_False by lia. by rewrite decide_True by lia.
    + rewrite list_lookup_alter_ne by done.
      destruct (decide (S start <= b < S start + n)%nat).
      * by rewrite decide_True by lia.
      * by rewrite decide_False by lia.
Qed.

Lemma length_foldl_alter (f : Z -> Z) idx (bm : list Z) :
  length (foldl (fun bm block => alter f block bm) bm idx) = length bm.
Proof. revert bm. induction idx as [|i idx IH]; intros bm; simpl; [done|]. by rewrite IH, length_alter. Qed.

Lemma marked_lor x : marked (Z.lor x 1) = true.
Proof.
  unfold marked. rewrite Z.land_lor_distr_l. change (Z.land 1 1) with 1.
  destruct (Z.eqb_spec (Z.lor (Z.land x 1) 1) 0) as [E|]; [|done].
  apply Z.lor_eq_0_iff in E as [_ E]. done.
Qed.

Lemma mark_fragment_spec bm off n b :
  0 <= off -> 0 <= n -> off + n <= 65535 ->
  ipv4_mark_fragment bm off n !! b =
    if decide (off / 8 <= Z.of_nat b < (off + n + 7) / 8) then (fun x => Z.lor x 1) <$> bm !! b
    else bm !! b.
Proof.
  intros Ho Hn Hl. unfold ipv4_mark_fragment. rewrite foldl_alter_seq.
  rewrite !u16_small by zlia.
  assert (0 <= off / 8 <= (off + n + 7) / 8) by zlia.
  destruct (decide (off / 8 <= Z.of_nat b < (off + n + 7) / 8)).
  - by rewrite decide_True by lia.
  - by rewrite decide_False by lia.
Qed.

Section Store.
Variable k : nat.
Hypothesis Hok : ip_send_ok c len.
Hypothesis Hmany : is_max c < len.
Hypothesis Hk : nfrags c len = S k.

(** The last fragment, and only the last, has no more-fragments flag. *)
Lemma frag_mf i :
  (i <= k)%nat ->
  (frag_offset c i + frag_chunk c len (frag_offset c i) <? len) = negb (bool_decide (i = k)).
Proof.
  intros Hi. destruct (frag_chunk_spec c len k i Hok Hk Hi) as [Ho [(-> & E & _)|(Hik & E & E2 & E3 & _)]];
    rewrite E.
  - rewrite bool_decide_true by done. apply Z.ltb_ge. lia.
  - rewrite bool_decide_false by lia. apply Z.ltb_lt. lia.
Qed.

Lemma slot_store now i got sl :
  (i <= k)%nat -> slot_holds k got sl ->
  let off := frag_offset c i in let chunk := frag_chunk c len off in
  slot_holds k (i :: got)
    (ra_store now off (off + chunk <? len) (read_at (Z.to_nat off) (Z.to_nat chunk) payload) chunk sl).
Proof.
  intros Hi Hsh off chunk. pose proof (frag_chunk_bounds c len k i Hok Hk Hi) as (Hb1 & Hb2 & Hb3).
  fold off chunk in Hb1, Hb2, Hb3. pose proof (so_len _ _ Hok) as Hl.
  destruct (sh_sized _ _ _ Hsh) as [Hsd Hsb].
  assert (Hread : length (take (Z.to_nat chunk) (read_at (Z.to_nat off) (Z.to_nat chunk) payload)) =
                  Z.to_nat chunk).
  { unfold read_at. rewrite !length_take, length_drop. unfold len in *. lia. }
  assert (Hfit : (Z.to_nat off + Z.to_nat chunk <= length (ra_data sl))%nat)
    by (unfold REASSEMBLY_DATA in *; lia).
  split; cbn [ra_store ra_bitmap ra_data ra_have_last ra_total_len].
  - apply Hsh.
  - split; cbn [ra_store ra_data ra_bitmap]; [by rewrite length_write_at|].
    unfold ipv4_mark_fragment. rewrite length_foldl_alter. done.
  - intros b x Hx. rewrite mark_fragment_spec in Hx by lia. case_decide as Hd.
    + destruct (ra_bitmap sl !! b); [|done]. injection Hx as <-. rewrite marked_lor.
      split; [|done]. intros _. exists i. split; [left|done].
    + rewrite (sh_marked _ _ _ Hsh b x Hx). split.
      * intros (i' & Hin & Hbl). exists i'. split; [by right|done].
      * intros (i' & [->|Hin]%elem_of_cons & Hbl); [by destruct Hd|]. by exists i'.
  - intros i' p Hin Hp. rewrite lookup_write_at by (rewrite Hread; lia). rewrite Hread.
    case_decide as Hd.
    + rewrite lookup_take_lt by lia. unfold read_at.
      rewrite lookup_take_lt, lookup_drop by lia. f_equal. lia.
    + apply elem_of_cons in Hin as [->|Hin]; [fold off chunk in Hp; lia|].
      by apply (sh_data _ _ _ Hsh i').
  - pose proof (frag_mf i Hi) as Hmf. fold off chunk in Hmf. rewrite Hmf. clear Hmf. destruct (decide (i = k)) as [->|Hne].
    + rewrite bool_decide_true by done. cbn [negb]. rewrite decide_True by left. done.
    + rewrite bool_decide_false by done. cbn [negb]. rewrite (sh_last _ _ _ Hsh).
      destruct (decide (k ∈ got)); [by rewrite decide_True by (by right)|].
      rewrite decide_False; [done|]. by intros [->|?]%elem_of_cons.
  - pose proof (frag_mf i Hi) as Hmf. fold off chunk in Hmf. rewrite Hmf. clear Hmf. intros Hin. destruct (decide (i = k)) as [->|Hne].
    + rewrite bool_decide_true by done. cbn [negb].
      destruct (frag_chunk_spec c len k k Hok Hk (le_n k)) as [Ho [(_ & E & _)|(? & _)]]; [|lia].
      unfold chunk, off. rewrite E. rewrite u16_small by lia. lia.
    + rewrite bool_decide_false by done. cbn [negb]. apply (sh_total _ _ _ Hsh).
      by apply elem_of_cons in Hin as [->|?].
Qed.

(** ** Completeness *)

(** Every byte of the payload is in a fragment. *)
Lemma byte_owner p :
  0 <= p < len ->
  exists i, (i <= k)%nat /\
    frag_offset c i <= p < frag_offset c i + frag_chunk c len (frag_offset c i).
Proof.
  intros Hp. destruct (so_frag _ _ Hok) as [?|(_ & _ & Hf)]; [lia|].
  destruct (decide (p < frag_offset c k)) as [Hlt|Hge].
  - exists (Z.to_nat (p / is_frag c)).
    assert (0 <= p / is_frag c) by (apply Z.div_pos; lia).
    pose proof (Z.div_mod p (is_frag c) ltac:(lia)). pose proof (Z.mod_pos_bound p (is_frag c) ltac:(lia)).
    assert (p / is_frag c < Z.of_nat k) by (unfold frag_offset in Hlt; nia).
    split; [lia|].
    destruct (frag_chunk_spec c len k (Z.to_nat (p / is_frag c)) Hok Hk ltac:(lia))
      as [_ [(? & _)|(_ & E & _)]]; [lia|].
    rewrite E. unfold frag_offset. rewrite Z2Nat.id by lia. nia.
  - exists k. split; [done|].
    destruct (frag_chunk_spec c len k k Hok Hk (le_n k)) as [_ [(_ & E & _)|(? & _)]]; [|lia].
    rewrite E. lia.
Qed.

Lemma block_owner b : 0 <= b < (len + 7) / 8 -> exists i, (i <= k)%nat /\ block_in c len i b.
Proof.
  intros Hb. destruct (byte_owner (8 * b)) as (i & Hi & Ho); [zlia|].
  exists i. split; [done|]. unfold block_in. zlia.
Qed.

(** The first block of a fragment is in no other fragment. *)
Lemma block_first_unique i i' :
  (i <= k)%nat -> (i' <= k)%nat -> block_in c len i' (frag_offset c i / 8) -> i' = i.
Proof.
  intros Hi Hi' Hb. unfold block_in in Hb.
  destruct (so_frag _ _ Hok) as [?|(_ & Hmod & Hf)]; [lia|].
  apply Z.mod_divide in Hmod as [w Hw]; [|lia].
  assert (Hoff : forall j, frag_offset c j / 8 = Z.of_nat j * w).
  { intros j. unfold frag_offset. rewrite Hw. replace (Z.of_nat j * (w * 8)) with (Z.of_nat j * w * 8) by lia.
    apply Z.div_mul. lia. }
  rewrite !Hoff in Hb.
  destruct (frag_chunk_spec c len k i' Hok Hk Hi') as [_ [(-> & _ & _)|(Hlt & E & _ & _)]]; [nia|].
  rewrite E in Hb.
  assert ((frag_offset c i' + is_frag c + 7) / 8 = (Z.of_nat i' + 1) * w) as E2.
  { unfold frag_offset. rewrite Hw. symmetry. apply (Z.div_unique _ 8 _ 7); lia. }
  rewrite E2 in Hb. nia.
Qed.

Lemma slot_complete got sl :
  slot_holds k got sl -> (forall i, i ∈ got -> (i <= k)%nat) ->
  ipv4_reassembly_complete sl = true <-> (forall i, (i <= k)%nat -> i ∈ got).
Proof.
  intros Hsh Hgot. unfold ipv4_reassembly_complete. rewrite (sh_last _ _ _ Hsh).
  pose proof (so_len _ _ Hok) as Hl. destruct (sh_sized _ _ _ Hsh) as [_ Hsb].
  destruct (decide (k ∈ got)) as [Hin|Hout]; cbn [Z.eqb].
  2: { split; [done|]. intros H. destruct Hout. by apply H. }
  rewrite (sh_total _ _ _ Hsh Hin). rewrite u16_small by zlia. rewrite forallb_forall. split.
  - intros Hall i Hi.
    destruct (frag_chunk_spec c len k i Hok Hk Hi) as [Ho _].
    set (b := Z.to_nat (frag_offset c i / 8)).
    assert (Hb : Z.of_nat b = frag_offset c i / 8) by (unfold b; zlia).
    destruct (lookup_lt_is_Some_2 (ra_bitmap sl) b) as [x Hx].
    { unfold REASSEMBLY_BITMAP in *. zlia. }
    destruct (proj1 (sh_marked _ _ _ Hsh b x Hx)) as (i' & Hi' & Hbl).
    { apply Hall. apply list_elem_of_In. apply (list_elem_of_lookup_2 _ b).
      rewrite lookup_take_lt; [done|]. zlia. }
    rewrite Hb in Hbl. by rewrite (block_first_unique i i' Hi (Hgot i' Hi') Hbl) in Hi'.
  - intros Hall x Hx. apply list_elem_of_In in Hx. apply list_elem_of_lookup in Hx as [b Hb].
    apply lookup_take_Some in Hb as [Hb Hlt].
    apply (sh_marked _ _ _ Hsh b x Hb). destruct (block_owner (Z.of_nat b)) as (i & Hi & Hbl); [lia|].
    exists i. split; [by apply Hall|done].
Qed.

Lemma slot_payload got sl :
  slot_holds k got sl -> (forall i, (i <= k)%nat -> i ∈ got) ->
  take (Z.to_nat (ra_total_len sl)) (ra_data sl) = payload.
Proof.
  intros Hsh Hall. rewrite (sh_total _ _ _ Hsh (Hall k (le_n k))).
  destruct (sh_sized _ _ _ Hsh) as [Hsd _]. pose proof (so_len _ _ Hok) as Hl.
  unfold len. rewrite Nat2Z.id. apply list_eq. intros p.
  destruct (decide (p < length payload)%nat) as [Hp|Hp].
  - rewrite lookup_take_lt by done. destruct (byte_owner (Z.of_nat p)) as (i & Hi & Ho); [unfold len; lia|].
    apply (sh_data _ _ _ Hsh i); [by apply Hall|done].
  - rewrite !lookup_ge_None_2; [done|lia|]. rewrite length_take. lia.
Qed.

(** ** One fragment *)

Lemma frag_offset_8 i : frag_offset c i / 8 * 8 = frag_offset c i.
Proof.
  destruct (so_frag _ _ Hok) as [?|(_ & Hmod & _)]; [lia|].
  apply Z.mod_divide in Hmod as [w Hw]; [|lia]. unfold frag_offset. rewrite Hw.
  replace (Z.of_nat i * (w * 8)) with (Z.of_nat i * w * 8) by lia. by rewrite Z.div_mul.
Qed.

Lemma rx_fragment_step s d dv got i rest :
  let pk := frag_packet c payload len (frag_offset c i) in
  0 <= ticks s -> ticks s + IPV4_REASSEMBLY_TIMEOUT < 2 ^ 64 ->
  devs s !! d = Some dv -> ipv4_accepts s d dv (is_dst c) = true ->
  phase (ticks s) k got (reassembly s) -> (i <= k)%nat -> (forall j, j ∈ got -> (j <= k)%nat) ->
  let s' := ipv4_rx s d (pk ++ rest) (Z.of_nat (length pk)) in
  if decide (Forall (fun j => j ∈ i :: got) (seq 0 (S k))) then
    upcalls s' = upcalls (ipv4_dispatch_payload s (Some d) (is_src c) (is_dst c) (is_proto c)
                            payload (is_ttl c) (is_tos c))
  else exists l', s' = set_reassembly l' s /\ phase (ticks s) k (i :: got) l'.
Proof.
  intros pk Hn0 Hn1 Hd Hacc Hph Hi Hgot s'.
  destruct (ipv4_rx_fragment s d dv c payload k i rest Hok Hmany Hk Hi Hd Hacc)
    as (ip & Hfl & Hid & Hpr & Htos & Hrx).
  fold len pk in Hrx. fold s' in Hrx. fold len in Hfl.
  pose proof (frag_chunk_bounds c len k i Hok Hk Hi) as (Hb1 & Hb2 & Hb3).
  pose proof (so_len _ _ Hok) as Hl.
  set (off := frag_offset c i) in *. set (chunk := frag_chunk c len off) in *.
  destruct (frag_flags_spec len off chunk ltac:(lia)) as (_ & Hmask & Hmf).
  unfold ipv4_reassemble_fragment in Hrx. rewrite Hfl, Hmask, Hmf, Hid, Hpr, Htos in Hrx.
  assert (E8 : u16 (off / 8 * 8) = off) by (unfold off; rewrite frag_offset_8; apply u16_small; lia).
  rewrite E8 in Hrx.
  destruct (get_slot_phase (ticks s) k got (reassembly s) Hn0 Hn1 Hph)
    as (l & j & sl & Hget & Hj & Hlive & Hsh & Hnb).
  rewrite Hget in Hrx. destruct (Z.ltb_spec REASSEMBLY_DATA (off + chunk)); [unfold REASSEMBLY_DATA in *; lia|].
  rewrite list_lookup_alter_eq, Hj in Hrx. cbn [fmap option_fmap option_map] in Hrx.
  pose proof (slot_store (ticks s) i got sl Hi Hsh) as Hsh'. cbv zeta in Hsh'.
  fold off in Hsh'. fold chunk in Hsh'.
  match type of Hsh' with slot_holds _ _ ?x => set (sl' := x) in * end.
  assert (Hgot' : forall j, j ∈ i :: got -> (j <= k)%nat).
  { intros x [->|Hx]%elem_of_cons; [done|by apply Hgot]. }
  pose proof (slot_complete (i :: got) sl' Hsh' Hgot') as Hcomp.
  case_decide as Hall.
  - assert (Hall' : forall j, (j <= k)%nat -> j ∈ i :: got).
    { intros x Hx. rewrite Forall_forall in Hall. apply Hall. apply elem_of_seq. lia. }
    rewrite (proj2 Hcomp Hall') in Hrx. cbn [negb fst] in Hrx.
    rewrite (slot_payload (i :: got) sl' Hsh' Hall') in Hrx. rewrite Hrx.
    unfold ipv4_dispatch_payload. by repeat case_if.
  - destruct (ipv4_reassembly_complete sl') eqn:Ec.
    { destruct Hall. apply Forall_forall. intros x Hx%elem_of_seq. apply Hcomp; [done|lia]. }
    cbn [negb fst] in Hrx. eexists. split; [exact Hrx|].
    eapply (phase_some _ _ _ j _ sl').
    + rewrite list_lookup_alter_eq, Hj. done.
    + unfold ra_live, sl'. cbn [ra_active ra_expire_tick ra_store].
      unfold ra_live in Hlive. apply andb_true_iff in Hlive as [-> _].
      rewrite u64_small by (unfold IPV4_REASSEMBLY_TIMEOUT in *; lia).
      destruct (Z.leb_spec (ticks s + IPV4_REASSEMBLY_TIMEOUT) (ticks s)); [unfold IPV4_REASSEMBLY_TIMEOUT in *; lia|done].
    + done.
    + intros x y Hx Hlt. rewrite list_lookup_alter_ne in Hx by lia. by apply (Hnb x).
Qed.

End Store.
End Reassembly.

(** ** Any order *)

(** Fragments of a datagram received one after the other; [order] lists their
    indices, with repetitions for duplicates. *)
Definition rx_fragments (s : net_state) (d : nat) (c : ip_send) (payload : list Z)
    (order : list nat) : net_state :=
  foldl (fun s i => let pk := default [] (fragments c payload !! i) in
                    ipv4_rx s d pk (Z.of_nat (length pk))) s order.

(** The indices in [order] are all the fragments of the datagram. *)
Definition all_arrived (c : ip_send) (payload : list Z) (order : list nat) : Prop :=
  forall i, (i < length (fragments c payload))%nat -> i ∈ order.

(** A table in which no slot is in use for the datagram. *)
Definition reassembly_ready (s : net_state) (c : ip_send) : Prop :=
  reassembly s <> [] /\ Forall ra_sized (reassembly s) /\
  forall sl, sl ∈ reassembly s -> ra_live (ticks s) sl = true ->
    ra_key (is_src c) (is_dst c) (is_id c) (is_proto c) sl = false.

Lemma fragments_lookup c payload i :
  (i < nfrags c (Z.of_nat (length payload)))%nat ->
  fragments c payload !! i = Some (frag_packet c payload (Z.of_nat (length payload)) (frag_offset c i)).
Proof. intros Hi. unfold fragments. by rewrite list_lookup_fmap, lookup_seq_lt. Qed.

Lemma length_fragments c payload : length (fragments c payload) = nfrags c (Z.of_nat (length payload)).
Proof. unfold fragments. by rewrite length_fmap, length_seq. Qed.

(** Before the last missing fragment arrives, only the table changes. *)
Lemma rx_fragments_partial s d dv c payload order :
  let len := Z.of_nat (length payload) in
  ip_send_ok c len -> is_max c < len ->
  0 <= ticks s -> ticks s + IPV4_REASSEMBLY_TIMEOUT < 2 ^ 64 ->
  devs s !! d = Some dv -> ipv4_accepts s d dv (is_dst c) = true -> reassembly_ready s c ->
  Forall (fun i => (i < length (fragments c payload))%nat) order -> ~ all_arrived c payload order ->
  exists l k, nfrags c len = S k /\ rx_fragments s d c payload order = set_reassembly l s /\
    phase c payload (ticks s) k (reverse order) l.
Proof.
  intros len Hok Hmany Hn0 Hn1 Hd Hacc (Hr1 & Hr2 & Hr3) Hord Hnot.
  destruct (nfrags_spec c len Hok) as (k & Hk & _).
  induction order as [|i order IH] using rev_ind.
  { exists (reassembly s), k. split_and!; [done|by destruct s|by apply phase_none]. }
  apply Forall_app in Hord as [Hord [Hi _]%Forall_cons].
  rewrite length_fragments in Hi. fold len in Hi. rewrite Hk in Hi.
  destruct IH as (l & k' & Hk' & Hs & Hph); [done| |].
  { intros Hall. apply Hnot. intros x Hx. apply elem_of_app. left. by apply Hall. }
  assert (k' = k) as -> by lia.
  unfold rx_fragments in *. rewrite foldl_snoc, Hs. rewrite fragments_lookup by (fold len; lia). cbn [default].
  pose proof (rx_fragment_step c payload k Hok Hmany Hk (set_reassembly l s) d dv (reverse order) i []
    Hn0 Hn1 Hd Hacc Hph ltac:(lia)) as Hstep.
  rewrite app_nil_r in Hstep. fold len in Hstep. case_decide as Hc.
  - destruct Hnot. intros x Hx. rewrite length_fragments in Hx. fold len in Hx. rewrite Hk in Hx.
    assert (Hin : x ∈ i :: reverse order) by (rewrite Forall_forall in Hc; apply Hc, elem_of_seq; lia).
    apply elem_of_app. apply elem_of_cons in Hin as [->|Hin]; [right; left|left].
    by apply elem_of_reverse.
  - destruct Hstep as (l' & E & Hph').
    { intros j Hj. rewrite elem_of_reverse in Hj. rewrite Forall_forall in Hord. specialize (Hord j Hj). cbv beta in Hord.
      rewrite length_fragments in Hord. fold len in Hord. lia. }
    exists l', k. split_and!; [done|exact E|]. rewrite reverse_snoc. exact Hph'.
Qed.

(** C10.  Reassembly inverts fragmentation: the fragments [ipv4_send_common]
    makes of a datagram, received in any order and with any duplicates, pass
    nothing up while one is missing, and pass exactly the payload up, once, to
    the protocol's handler, when the last missing one arrives. *)
Theorem reassembly_any_order s d dv c payload order i :
  let len := Z.of_nat (length payload) in
  ip_send_ok c len -> is_max c < len ->
  0 <= ticks s -> ticks s + IPV4_REASSEMBLY_TIMEOUT < 2 ^ 64 ->
  devs s !! d = Some dv -> ipv4_accepts s d dv (is_dst c) = true -> reassembly_ready s c ->
  Forall (fun i => (i < length (fragments c payload))%nat) (order ++ [i]) ->
  ~ all_arrived c payload order ->
  upcalls (rx_fragments s d c payload order) = upcalls s /\
  (all_arrived c payload (order ++ [i]) ->
   upcalls (rx_fragments s d c payload (order ++ [i])) =
     upcalls (ipv4_dispatch_payload s (Some d) (is_src c) (is_dst c) (is_proto c) payload
                (is_ttl c) (is_tos c))).
Proof.
  intros len Hok Hmany Hn0 Hn1 Hd Hacc Hready Hord Hnot.
  apply Forall_app in Hord as [Hord [Hi _]%Forall_cons].
  destruct (rx_fragments_partial s d dv c payload order Hok Hmany Hn0 Hn1 Hd Hacc Hready Hord Hnot)
    as (l & k & Hk & Hs & Hph).
  split; [by rewrite Hs|]. intros Hall. unfold rx_fragments in *. rewrite foldl_snoc, Hs.
  rewrite length_fragments in Hi. fold len in Hk. fold len in Hi.
  rewrite fragments_lookup by done. cbn [default]. rewrite Hk in Hi.
  pose proof (rx_fragment_step c payload k Hok Hmany Hk (set_reassembly l s) d dv (reverse order) i []
    Hn0 Hn1 Hd Hacc Hph ltac:(lia)) as Hstep.
  rewrite app_nil_r in Hstep. fold len in Hstep. rewrite decide_True in Hstep.
  - etransitivity; [apply Hstep|].
    + intros j Hj. rewrite elem_of_reverse in Hj. rewrite Forall_forall in Hord. specialize (Hord j Hj). cbv beta in Hord.
      rewrite length_fragments in Hord. fold len in Hord. lia.
    + unfold ipv4_dispatch_payload. by repeat case_if.
  - apply Forall_forall. intros x Hx%elem_of_seq. assert (Hin : x ∈ order ++ [i]).
    { apply Hall. rewrite length_fragments. fold len. lia. }
    apply elem_of_app in Hin as [Hin|Hin%list_elem_of_singleton]; [right; by apply elem_of_reverse|].
    subst x. left.
Qed.

(** ** Witnesses *)

(** A UDP datagram of 20 bytes in fragments of 16 and 4, the second one first. *)
Definition demo_send : ip_send :=
  mk_ip_send 0 0x0A00020F None 16 16 7238 0x0A000202 0x0A00020F 17 64 0.

Definition demo_payload : list Z := Z.of_nat <$> seq 0 20.

Definition demo_slot : ipv4_reassembly_slot :=
  mk_ipv4_reassembly_slot false 0 0 0 0 0 0 0 (replicate (Z.to_nat REASSEMBLY_DATA) 0)
    (replicate (Z.to_nat REASSEMBLY_BITMAP) 0).

Definition demo_rx_state : net_state :=
  set_reassembly (replicate IPV4_REASSEMBLY_SLOTS demo_slot) demo_ip_state.

Lemma demo_rx_ready : reassembly_ready demo_rx_state demo_send.
Proof.
  assert (Hin : forall sl, sl ∈ reassembly demo_rx_state -> sl = demo_slot).
  { intros sl [-> _]%elem_of_replicate. done. }
  split_and!; [done| |].
  - apply Forall_forall. intros sl ->%Hin. split; unfold demo_slot; cbn [ra_data ra_bitmap];
      rewrite length_replicate; apply Z2Nat.id; done.
  - intros sl ->%Hin. done.
Qed.

Lemma reassembly_any_order_witness :
  upcalls (rx_fragments demo_rx_state 0 demo_send demo_payload ([1%nat] ++ [0%nat])) =
    [Up_udp (Some 0%nat) 0x0A000202 0x0A00020F demo_payload 64 0].
Proof.
  assert (Hlen : length (fragments demo_send demo_payload) = 2%nat) by reflexivity.
  refine (proj2 (reassembly_any_order demo_rx_state 0 demo_small_dev demo_send demo_payload [1%nat] 0%nat
    _ _ _ _ _ _ demo_rx_ready _ _) _); try reflexivity; try done.
  - split; unfold urange, byte; cbn; try lia. right. repeat split; (reflexivity || discriminate).
  - rewrite Hlen. repeat constructor.
  - unfold all_arrived. rewrite Hlen. intros H. specialize (H 0%nat ltac:(lia)).
    by apply list_elem_of_singleton in H.
  - unfold all_arrived. rewrite Hlen. intros [|[|i]] Hi; [right; left|left|lia].
Defined.
