(* ===== verification/NetRx.v ===== *)
(** * Receive dispatch and initialisation

    Models [eth_rx] of [kernel/net/ethernet.c] and the receive softirq, the
    device registry, the host name and [net_init] of [kernel/net/net.c].  The
    state has the receive queue of one CPU: the loopback device and the softirq
    that drains the queue use the same one.  The protocols above IPv4 and the
    NIC drivers are not part of this file. *)

From Stdlib Require Import ZArith Lia Bool.
From stdpp Require Import base list gmap.
From S2P Require Import Prelude Wire Chain Skb Route Net Arp Ipv4.

(** ** Receive *)

Section Rx.
Variable nic_send : nat -> list Z -> Z.

(** [frame] is the memory from the frame's first byte on, [len] its length. *)
Definition eth_rx (s : net_state) (d : nat) (frame : list Z) (len : Z) : net_state :=
  if len <? ETH_HLEN then s
  else
    let ethertype := net_ntohs (ld16 frame 12) in
    let payload := drop 14 frame in
    let payload_len := u16 (len - ETH_HLEN) in
    if ethertype =? ETH_P_ARP then arp_rx nic_send s d (take (Z.to_nat payload_len) payload)
    else if ethertype =? ETH_P_IP then
      let s :=
        if sizeof_ipv4_header <=? payload_len then
          let src_ip := net_ntohl (src_addr (ipv4_header_of payload)) in
          if negb (src_ip =? 0) && negb (Z.land src_ip 0xF0000000 =? 0xE0000000) &&
             negb (src_ip =? 0xFFFFFFFF)
          then arp_add_entry nic_send s src_ip (read_at 6 6 frame) else s
        else s in
      ipv4_rx s d payload payload_len
    else s.

(** The memory from [skb->data] on, [skb->len] and [skb->dev]. *)
Definition skb_mem (st : skb_pool) (p : nat) : list Z :=
  match slots st !! p with
  | Some sl => drop (Z.to_nat (data (skb sl))) (area sl)
  | None => []
  end.

Definition skb_len (st : skb_pool) (p : nat) : Z :=
  match slots st !! p with Some sl => len (skb sl) | None => 0 end.

Definition skb_dev_of (st : skb_pool) (p : nat) : devptr :=
  slots st !! p ≫= fun sl => skb_dev (skb sl).

Definition skb_is_loopback (s : net_state) (dev : devptr) : bool :=
  bool_decide (dev <> None) && bool_decide (dev = lo s).

(** The loop of the softirq handler; a round takes one buffer off the queue. *)
Fixpoint net_rx_softirq (fuel : nat) (s : net_state) : net_state :=
  match fuel with
  | O => s
  | S fuel' =>
      let '(q, p, r) := skb_queue_head (rx_queue s) (pool s) in
      let s := set_rx_queue q (set_pool p s) in
      match r with
      | None => s
      | Some skb =>
          let dev := skb_dev_of p skb in
          let s :=
            match dev with
            | None => s
            | Some d =>
                if skb_is_loopback s dev then ipv4_rx s d (skb_mem p skb) (skb_len p skb)
                else eth_rx s d (skb_mem p skb) (skb_len p skb)
            end in
          net_rx_softirq fuel' (set_pool (skb_put (Some skb) (pool s)) s)
      end
  end.

End Rx.

(** ** The device registry and the host name *)

Definition NET_MAX_DEVICES : Z := 4.

Record net_registry := mk_net_registry { net_devices : list devptr; net_device_num : Z }.

Definition net_register (r : net_registry) (dev : devptr) : net_registry * Z :=
  if NET_MAX_DEVICES <=? net_device_num r then (r, -1)
  else (mk_net_registry (<[Z.to_nat (net_device_num r) := dev]> (net_devices r))
          (net_device_num r + 1), 0).

Definition net_get_device (r : net_registry) (index : Z) : devptr :=
  if (index <? 0) || (net_device_num r <=? index) then None
  else default None (net_devices r !! Z.to_nat index).

Definition net_get_default_device (r : net_registry) : devptr :=
  if 0 <? net_device_num r then default None (net_devices r !! 0%nat) else None.

(** [g_hostname] after [net_set_hostname(name)]: at most 63 bytes, up to the
    first NUL, and the terminator. *)
Fixpoint hostname_copy (name : list Z) (room : nat) : list Z :=
  match name, room with
  | b :: name', S room' => if b =? 0 then [] else b :: hostname_copy name' room'
  | _, _ => []
  end.

Definition net_set_hostname (g_hostname name : list Z) : list Z :=
  write_at 0 (hostname_copy name 63 ++ [0]) g_hostname.

(** ** Initialisation *)

(** The loopback device, and its address among the devices. *)
Definition LO_DEVICE : nat := 4.
Definition lo_device : net_device :=
  mk_net_device (Some [108; 111]) [0; 0; 0; 0; 0; 0] 65535 0x7F000001 0xFF000000 0 0 true 0 0 0 0 0.

(** [net_init] up to the probing of the NICs, on the modelled components. *)
Definition net_init (s : net_state) : net_state :=
  let s := mk_net_state (skb_pool_init (pool s)) (<[LO_DEVICE := lo_device]> (devs s))
    (Some LO_DEVICE) true skb_queue_init (routes s) (arp_table s) (arp_pending_pool s)
    (arp_reply_ip s) (arp_reply_mac s) (arp_reply_ready s) (pmtu_cache s) (reassembly s) (ticks s)
    (random s) (tx s) (upcalls s) in
  let s := arp_init s in
  let t := (route_add (route_init (routes s)) 0x7F000000 0xFF000000 0 (Some LO_DEVICE) 0 RTF_UP).1 in
  mk_net_state (pool s) (devs s) (lo s) (rx_queue_inited s) (rx_queue s) t (arp_table s)
    (arp_pending_pool s) (arp_reply_ip s) (arp_reply_mac s) (arp_reply_ready s) (pmtu_cache s)
    (reassembly s) (ticks s) (random s) (tx s) (upcalls s).

(** ** Specification *)

(** What the handlers above IPv4 get for a datagram. *)
Definition dispatched (dev : devptr) (src_ip dst_ip proto : Z) (payload : list Z) (ttl tos : Z)
    : list upcall :=
  if proto =? 2 then [Up_igmp dev src_ip payload]
  else if proto =? IP_PROTO_ICMP then [Up_icmp dev src_ip payload ttl]
  else if proto =? IP_PROTO_UDP then [Up_udp dev src_ip dst_ip payload ttl tos]
  else if proto =? IP_PROTO_TCP then [Up_tcp dev src_ip dst_ip payload]
  else [].

(** A state that differs in the log of upcalls only. *)
Definition log_ups (us : list upcall) (s : net_state) : net_state :=
  mk_net_state (pool s) (devs s) (lo s) (rx_queue_inited s) (rx_queue s) (routes s) (arp_table s)
    (arp_pending_pool s) (arp_reply_ip s) (arp_reply_mac s) (arp_reply_ready s) (pmtu_cache s)
    (reassembly s) (ticks s) (random s) (tx s) (upcalls s ++ us).

(** ** Buffers in the queue *)

Lemma owns_set_next q p st x bs : owns st x bs -> owns (upd_skb p (set_next q) st) x bs.
Proof.
  intros [Hp (sl & Hsl & Hr & Hl)]. destruct (decide (x = p)) as [->|Hne].
  - pose proof (lookup_upd_skb_eq p (set_next q) st sl Hsl) as Hsl'. split.
    + unfold skb_payload in *. rewrite Hsl in Hp. by rewrite Hsl'.
    + eexists. split_and!; [exact Hsl'|done|done].
  - apply (owns_frame st); [by apply lookup_upd_skb_ne|]. split; [done|]. by exists sl.
Qed.

Lemma pool_has_set_next F q p st bs :
  pool_has F st -> owns st p bs -> pool_has F (upd_skb p (set_next q) st).
Proof.
  intros HF Ho. pose proof (owns_not_free F st p bs HF Ho) as Hp.
  destruct HF as (fs & fj & HF & Hi). exists fs, fj. split; [done|].
  apply pool_set_next; [done|by rewrite HF|]. destruct Ho as [_ (sl & Hsl & _)]. by exists sl.
Qed.

Lemma skb_dev_of_set_next q p st x : skb_dev_of (upd_skb p (set_next q) st) x = skb_dev_of st x.
Proof.
  unfold skb_dev_of. rewrite lookup_upd_skb. case_decide; [|done].
  subst. by destruct (slots st !! p).
Qed.

Lemma owns_mem st p bs :
  owns st p bs -> skb_len st p = Z.of_nat (length bs) /\ exists rest, skb_mem st p = bs ++ rest.
Proof.
  intros [Hp (sl & Hsl & _ & Hl)]. unfold skb_len, skb_mem, skb_payload in *. rewrite Hsl in *.
  split; [done|]. unfold read_at in Hp. eexists. rewrite <- Hp at 1. by rewrite take_drop.
Qed.

(** Building a packet that fits in a small buffer succeeds. *)
Lemma skb_build_small F dev bs st :
  pool_has F st -> skb_pool_ready st = true -> F <> [] ->
  Z.of_nat (length bs) + SKB_HEADROOM <= SKB_SMALL_DATA ->
  exists P p F', skb_build dev (Z.of_nat (length bs)) bs st = (P, Some p) /\ F ≡ₚ p :: F' /\
    pool_has F' P /\ skb_pool_ready P = true /\ owns P p bs /\ skb_dev_of P p = dev /\
    (forall q, q <> p -> slots P !! q = slots st !! q).
Proof.
  intros HF Hr HFn Hl.
  assert (Z.of_nat (length bs) < 65536) by (unfold SKB_SMALL_DATA, SKB_HEADROOM in *; lia).
  pose proof (skb_build_ok F dev bs st HF Hr ltac:(lia)) as Hb.
  pose proof (skb_build_ready dev (Z.of_nat (length bs)) bs st) as Hrd.
  destruct (skb_build dev (Z.of_nat (length bs)) bs st) as [P [p|]]; cbn [fst] in Hrd.
  - destruct Hb as (Ho & (sl & Hsl & Hdv) & Hq & F' & HFF & HP). exists P, p, F'.
    split_and!; try done; [congruence|]. unfold skb_dev_of. rewrite Hsl. done.
  - destruct Hb as (_ & _ & [?|?]); [lia|done].
Qed.

(** ** The loopback path *)

Section Loopback.
Variable nic_send : nat -> list Z -> Z.

(** One datagram on the queue: buffer [b] holds [pk] and is the only element. *)
Record one_queued (F : list nat) (s : net_state) (d b : nat) (pk : list Z) : Prop := {
  oq_queue : rx_queue s = mk_skb_queue (Some b) (Some b) 1;
  oq_owns : owns (pool s) b pk;
  oq_dev : skb_dev_of (pool s) b = Some d;
  oq_next : next_of (pool s) b = None;
  oq_free : pool_has F (pool s);
  oq_ready : skb_pool_ready (pool s) = true;
}.

Lemma loopback_send_queues F s d pk :
  net_free F s -> F <> [] -> rx_queue_inited s = true -> rx_queue s = skb_queue_init ->
  0 < Z.of_nat (length pk) -> Z.of_nat (length pk) + SKB_HEADROOM <= SKB_SMALL_DATA ->
  exists b F' P,
    let s' := set_rx_queue (mk_skb_queue (Some b) (Some b) 1) (set_pool P
      (set_devs (alter (count_dev 1 (Z.of_nat (length pk)) 1 (Z.of_nat (length pk)) 0) d (devs s)) s)) in
    loopback_send s d pk = (s', 0) /\ F ≡ₚ b :: F' /\ one_queued F' s' d b pk /\
    (forall q, q <> b -> slots P !! q = slots (pool s) !! q).
Proof.
  intros [HF Hr] HFn Hi Hq Hl0 Hl. unfold loopback_send. cbn [rx_queue_inited set_devs].
  rewrite Hi. destruct (Z.eqb_spec (Z.of_nat (length pk)) 0); [lia|]. cbn [negb orb pool set_devs rx_queue].
  destruct (skb_build_small F (Some d) pk (pool s) HF Hr HFn Hl)
    as (P & b & F' & -> & HFF & HP & HPr & Ho & Hdv & Hne).
  rewrite Hq. unfold skb_queue_tail. cbn [q_tail skb_queue_init q_len].
  change (u32 (0 + 1)) with 1.
  exists b, F', (upd_skb b (set_next None) P). split_and!; [done|done| |].
  - split; cbn [rx_queue pool set_rx_queue set_pool]; try done.
    + by apply owns_set_next.
    + by rewrite skb_dev_of_set_next.
    + destruct Ho as [_ (sl & Hsl & _)]. rewrite next_of_set_next by (by exists sl). apply redirect_eq.
    + by eapply pool_has_set_next.
  - intros q Hqb. rewrite lookup_upd_skb_ne by done. by apply Hne.
Qed.

(** The softirq takes the one buffer off the queue, hands the datagram to
    [ipv4_rx] and releases the buffer. *)
Lemma softirq_one F s d b c payload dv n :
  let len := Z.of_nat (length payload) in
  let pk := frag_packet c payload len 0 in
  one_queued F s d b pk -> lo s = Some d -> devs s !! d = Some dv ->
  ip_send_ok c len -> len <= is_max c ->
  let s' := net_rx_softirq nic_send (S (S n)) s in
  net_free (b :: F) s' /\ rx_queue s' = skb_queue_init /\
  upcalls s' = upcalls s ++ [Up_raw (is_src c) (is_dst c) (is_proto c) pk] ++
    dispatched (Some d) (is_src c) (is_dst c) (is_proto c) payload (is_ttl c) (is_tos c).
Proof.
  intros len pk [Hq Ho Hdv Hnx HF Hr] Hlo Hd Hok Hl s'.
  assert (Es : s' = net_rx_softirq nic_send (S (S n)) s) by done. clearbody s'.
  cbn [net_rx_softirq] in Es. rewrite Hq in Es. unfold skb_queue_head at 1 in Es.
  cbn [q_head q_tail q_len] in Es. rewrite Hnx in Es. change (u32 (1 - 1)) with 0 in Es.
  rewrite skb_dev_of_set_next, Hdv in Es.
  set (P := upd_skb b (set_next None) (pool s)) in *.
  assert (HoP : owns P b pk) by (by apply owns_set_next).
  assert (HFP : pool_has F P) by (by eapply pool_has_set_next).
  set (s1 := set_rx_queue (mk_skb_queue None None 0) (set_pool P s)) in *.
  assert (Hlb : skb_is_loopback s1 (Some d) = true).
  { unfold skb_is_loopback. change (lo s1) with (lo s). rewrite Hlo. by rewrite !bool_decide_true. }
  rewrite Hlb in Es. destruct (owns_mem P b pk HoP) as [Hlen [rest Hmem]]. rewrite Hlen, Hmem in Es.
  assert (Hacc : ipv4_accepts s1 d dv (is_dst c) = true).
  { unfold ipv4_accepts. change (lo s1) with (lo s). by rewrite bool_decide_true. }
  pose proof (ipv4_rx_whole s1 d dv c payload rest Hok Hl Hd Hacc) as Hrx. fold len pk in Hrx.
  rewrite Hrx in Es. cbv zeta in Es.
  set (ups := [Up_raw (is_src c) (is_dst c) (is_proto c) pk] ++
    dispatched (Some d) (is_src c) (is_dst c) (is_proto c) payload (is_ttl c) (is_tos c)).
  match type of Es with context [if is_proto c =? 2 then ?a else ?b] =>
    assert (Hup : (if is_proto c =? 2 then a else b) = log_ups ups s1) end.
  { unfold ups, dispatched, ipv4_dispatch_payload, log_ups, log_up. cbn [upcalls].
    repeat case_if; cbn [app]; by rewrite ?app_nil_r, <- ?app_assoc. }
  rewrite Hup in Es. clear Hup Hrx.
  destruct (skb_put_last F b pk P HFP HoP) as [HF2 _].
  rewrite Es. cbn [pool log_ups s1 set_rx_queue set_pool rx_queue]. unfold skb_queue_head.
  cbn [q_head pool set_pool set_rx_queue rx_queue upcalls log_ups].
  split_and!; [split; cbn [pool set_pool set_rx_queue]; [done|by rewrite skb_put_ready]|done|done].
Qed.

(** The parameters of a datagram that fits in one packet over loopback. *)
Definition lo_send_params (d : nat) (next_hop ident dst_ip proto ttl tos : Z) : ip_send :=
  mk_ip_send d next_hop None 1480 1480 ident dst_ip dst_ip proto ttl tos.

Lemma ipv4_send_common_lo s dev dst_ip proto payload ttl tos d next_hop dv :
  let len := Z.of_nat (length payload) in
  ipv4_route s dev dst_ip = Some (d, next_hop) -> lo s = Some d -> devs s !! d = Some dv ->
  len <= 1480 ->
  ipv4_send_common nic_send s dev dst_ip proto payload ttl tos =
  ipv4_send_loop nic_send (length payload) (random_u32 s).1
    (lo_send_params d next_hop (u16 (random_u32 s).2) dst_ip proto ttl tos) payload len 0.
Proof.
  intros len Hroute Hlo Hd Hl. unfold ipv4_send_common. rewrite Hroute. cbn [mbind option_bind fst].
  rewrite Hd. cbn [fmap option_fmap option_map].
  assert (lo_redirect s d dv dst_ip = (d, 0)) as ->.
  { unfold lo_redirect. by rewrite bool_decide_true. }
  rewrite Hd. unfold ipv4_dst_mac. rewrite bool_decide_true by done. cbv iota beta.
  rewrite bool_decide_true by done. change (NET_MTU_DEFAULT <? sizeof_ipv4_header + 8) with false.
  change (u16 (NET_MTU_DEFAULT - sizeof_ipv4_header)) with 1480.
  change (u16 (Z.land 1480 (u32 (Z.lnot 7)))) with 1480.
  destruct (random_u32 s) as [s1 r]. cbn [fst snd]. fold len.
  unfold len at 1. rewrite Nat2Z.id. by destruct ((1480 =? 0) || (len <=? 1480)).
Qed.

Lemma random_u32_frame s :
  let s' := (random_u32 s).1 in
  pool s' = pool s /\ devs s' = devs s /\ lo s' = lo s /\ rx_queue s' = rx_queue s /\
  rx_queue_inited s' = rx_queue_inited s /\ upcalls s' = upcalls s.
Proof. unfold random_u32. by destruct (random s). Qed.

(** Sending one packet over loopback leaves it on the queue. *)
Lemma ipv4_send_loop_lo F s c payload dv fuel :
  let len := Z.of_nat (length payload) in
  net_free F s -> (2 <= length F)%nat -> lo s = Some (is_dev c) -> devs s !! is_dev c = Some dv ->
  rx_queue_inited s = true -> rx_queue s = skb_queue_init ->
  ip_send_ok c len -> len <= is_max c -> len <= 1388 ->
  exists s' b F' dv', ipv4_send_loop nic_send (S fuel) s c payload len 0 = (s', 0) /\
    F ≡ₚ b :: F' /\ one_queued F' s' (is_dev c) b (frag_packet c payload len 0) /\
    lo s' = lo s /\ devs s' !! is_dev c = Some dv' /\ upcalls s' = upcalls s /\
    (forall q, q ∉ F -> slots (pool s') !! q = slots (pool s) !! q).
Proof.
  intros len [HF Hr] HFl Hlo Hd Hi Hq Hok Hmax Hl. pose proof (so_len _ _ Hok) as Hl0.
  assert (Hk : nfrags c len = 1%nat) by (unfold nfrags; destruct (Z.leb_spec len (is_max c)); [done|lia]).
  assert (Hch : frag_chunk c len 0 = len).
  { unfold frag_chunk. rewrite Z.sub_0_r, u16_small by lia. destruct (Z.ltb_spec (is_max c) len); [lia|done]. }
  pose proof (length_frag_packet c payload 0 0 Hok Hk (le_n 0)) as Hlen.
  change (frag_offset c 0) with 0 in Hlen. fold len in Hlen. rewrite Hch in Hlen.
  cbn [ipv4_send_loop]. destruct (Z.ltb_spec 0 len); [|lia]. rewrite Hch.
  set (pk := frag_packet c payload len 0) in *.
  rewrite u16_small by (unfold sizeof_ipv4_header; lia). rewrite <- Hlen.
  assert (Hsmall : Z.of_nat (length pk) + SKB_HEADROOM <= SKB_SMALL_DATA)
    by (unfold sizeof_ipv4_header, SKB_HEADROOM, SKB_SMALL_DATA in *; lia).
  destruct (skb_build_small F (Some (is_dev c)) pk (pool s) HF Hr) as
    (P1 & a & F1 & -> & HFF1 & HP1 & Hr1 & Ho1 & _ & Hne1); [by intros ->; simpl in HFl; lia|done|].
  cbn [lo set_pool pool]. rewrite decide_True by done.
  unfold dev_send. cbn [lo set_pool]. rewrite decide_True by done.
  rewrite (proj1 Ho1).
  destruct (loopback_send_queues F1 (set_pool P1 s) (is_dev c) pk) as
    (b & F2 & P2 & -> & HFF2 & Hone & Hne); try done.
  { intros ->. apply Permutation_length in HFF1. simpl in HFF1. lia. }
  change (0 <? 0) with false. cbv iota. rewrite Z.add_0_l, u16_small by lia.
  pose proof (owns_not_free F1 P1 a pk HP1 Ho1) as HaF1.
  assert (Hab : a <> b) by (intros ->; apply HaF1; rewrite HFF2; left).
  assert (Ho2 : owns P2 a pk) by (apply (owns_frame P1); [by apply Hne|done]).
  destruct Hone as [Hq2 Hob Hdb Hnb HF2 Hr2]. cbn [pool set_rx_queue set_pool] in *.
  destruct (skb_put_last F2 a pk P2 HF2 Ho2) as [HF3 Hne3].
  assert (Hslot : slots (skb_put (Some a) P2) !! b = slots P2 !! b) by (apply Hne3; congruence).
  match goal with |- context [set_pool (skb_put (Some a) P2) ?t] => set (s3 := set_pool (skb_put (Some a) P2) t) end.
  exists s3, b, (a :: F2), (count_dev 1 (Z.of_nat (length pk)) 1 (Z.of_nat (length pk)) 0 dv).
  split_and!; try done.
  - destruct fuel as [|fuel]; [done|]. cbn [ipv4_send_loop].
    destruct (Z.ltb_spec len len); [lia|done].
  - rewrite HFF1, HFF2. apply perm_swap.
  - split; cbn [rx_queue pool s3 set_pool set_rx_queue]; try done.
    + by apply (owns_frame P2).
    + unfold skb_dev_of. by rewrite Hslot.
    + unfold next_of. by rewrite Hslot.
    + by rewrite skb_put_ready.
  - cbn [devs s3 set_pool set_rx_queue set_devs]. rewrite lookup_alter_eq, Hd. done.
  - intros q Hq'. cbn [pool s3 set_pool set_rx_queue]. rewrite HFF1, HFF2 in Hq'.
    rewrite Hne3, Hne, Hne1 by set_solver. done.
Qed.

(** The loopback path, for the layers above. *)
Lemma loopback_path F s dev dst_ip proto payload ttl tos d next_hop dv n :
  net_free F s -> (2 <= length F)%nat -> lo s = Some d -> devs s !! d = Some dv ->
  ipv4_route s dev dst_ip = Some (d, next_hop) ->
  rx_queue_inited s = true -> rx_queue s = skb_queue_init ->
  (0 < length payload)%nat -> Z.of_nat (length payload) <= 1388 ->
  urange 32 dst_ip -> byte proto -> byte ttl -> byte tos ->
  let '(s1, r) := ipv4_send_common nic_send s dev dst_ip proto payload ttl tos in
  let s2 := net_rx_softirq nic_send (S (S n)) s1 in
  r = 0 /\ net_free F s2 /\ rx_queue s2 = skb_queue_init /\
  exists packet, upcalls s2 = upcalls s ++ [Up_raw dst_ip dst_ip proto packet] ++
    dispatched (Some d) dst_ip dst_ip proto payload ttl tos.
Proof.
  intros HF HFl Hlo Hd Hroute Hi Hq Hl0 Hl Hdst Hpr Htt Hto.
  rewrite (ipv4_send_common_lo s dev dst_ip proto payload ttl tos d next_hop dv) by (done || lia).
  destruct (random_u32_frame s) as (E1 & E2 & E3 & E4 & E5 & E6).
  set (c := lo_send_params d next_hop (u16 (random_u32 s).2) dst_ip proto ttl tos).
  assert (Hok : ip_send_ok c (Z.of_nat (length payload))).
  { split; cbn; try done; try lia. apply u16_range. }
  assert (Hfuel : exists fuel, length payload = S fuel) by (exists (length payload - 1)%nat; lia).
  destruct Hfuel as [fuel Hfuel]. 
  replace (ipv4_send_loop nic_send (length payload)) with (ipv4_send_loop nic_send (S fuel))
    by (by rewrite Hfuel).
  destruct (ipv4_send_loop_lo F (random_u32 s).1 c payload dv fuel)
    as (s' & b & F' & dv' & -> & HFF & Hone & Hlo' & Hd' & Hup & _); try done; try congruence.
  { unfold net_free. by rewrite E1. }
  { by rewrite E3. }
  { by rewrite E2. }
  { unfold c. cbn. lia. }
  destruct (softirq_one F' s' d b c payload dv' n) as (HF2 & Hq2 & Hu2); try done.
  { by rewrite Hlo', E3. }
  { unfold c. cbn. lia. }
  cbv zeta. split_and!; [done| |done|].
  - destruct HF2 as [HF2 Hr2]. split; [by rewrite HFF|done].
  - eexists. rewrite Hu2, Hup, E6. done.
Qed.


End Loopback.

(** ** Initialisation *)

Lemma find_idx_all_false {A} (p : A -> bool) (l : list A) :
  (forall x, x ∈ l -> p x = false) -> find_idx p l = None.
Proof. intros H. apply find_idx_None. intros i x Hx. apply H. by eapply list_elem_of_lookup_2. Qed.

Lemma route_scan_inactive dst t i best bp bm :
  (forall e, e ∈ t -> rt_active e = false) -> route_scan dst t i best bp bm = best.
Proof.
  revert i. induction t as [|e t IH]; intros i Ha; simpl; [done|].
  assert (route_usable dst e = false) as ->.
  { unfold route_usable. rewrite Ha by left. done. }
  apply IH. intros e' He'. apply Ha. by right.
Qed.

Lemma route_init_inactive t e : e ∈ route_init t -> rt_active e = false.
Proof. intros (x & -> & _)%list_elem_of_fmap. done. Qed.

(** The route [net_init] installs, as the only active one. *)
Lemma route_add_first t d m gw dev metric flags :
  t <> [] -> (forall e, e ∈ t -> rt_active e = false) ->
  (route_add t d m gw dev metric flags).1 = mk_rt_entry d m gw dev metric flags true :: list.tail t.
Proof.
  intros Hne Ha. unfold route_add.
  rewrite find_idx_all_false by (intros e He; unfold route_same; by rewrite Ha).
  destruct t as [|e t]; [done|]. simpl. rewrite Ha by left. done.
Qed.

(** [net_init] establishes the invariants the network layers rely on: all
    buffers are free, the address cache, the pending queue and the routing table
    are well formed and empty but for the loopback route, the receive queue is
    empty; addresses in 127.0.0.0/8 route to the loopback device and no other
    address has a route. *)
Theorem net_init_ok s :
  boot_slots (pool s) -> length (routes s) = MAX_ROUTES -> length (arp_table s) = ARP_TABLE_SIZE ->
  let s' := net_init s in
  net_free (seq 0 (SKB_SMALL_COUNT + SKB_JUMBO_COUNT)) s' /\
  arp_table_ok (arp_table s') /\ (forall ip, arp_find ip (arp_table s') = None) /\
  pending_ok s' /\ rx_queue_inited s' = true /\ rx_queue s' = skb_queue_init /\
  lo s' = Some LO_DEVICE /\ devs s' !! LO_DEVICE = Some lo_device /\
  length (routes s') = MAX_ROUTES /\
  (forall dst, Z.land dst 0xFF000000 = 0x7F000000 ->
     route_lookup (routes s') dst = (Some LO_DEVICE, dst)) /\
  (forall dst, Z.land dst 0xFF000000 <> 0x7F000000 -> route_lookup (routes s') dst = (None, dst)).
Proof.
  intros Hb Hr Ha s'.
  assert (Hinv : forall e, e ∈ arp_table s' -> ae_valid e = false).
  { intros e He. change (arp_table s') with (map arp_invalidate (arp_table s)) in He.
    apply list_elem_of_fmap in He as (x & -> & _). done. }
  assert (Eroute : routes s' = mk_rt_entry 0x7F000000 0xFF000000 0 (Some LO_DEVICE) 0 RTF_UP true ::
                                 list.tail (route_init (routes s))).
  { unfold s', net_init. cbn [routes]. apply route_add_first; [by destruct (routes s)|].
    apply route_init_inactive. }
  assert (Htl : forall e, e ∈ list.tail (route_init (routes s)) -> rt_active e = false).
  { intros e He. apply (route_init_inactive (routes s)).
    destruct (route_init (routes s)); [by apply not_elem_of_nil in He|by right]. }
  split_and!; try done.
  - split; [|done]. exists (seq 0 SKB_SMALL_COUNT), (seq SKB_SMALL_COUNT SKB_JUMBO_COUNT).
    split; [by rewrite seq_app|]. by apply skb_pool_init_inv.
  - split; [change (arp_table s') with (map arp_invalidate (arp_table s)); by rewrite length_map|].
    intros i j e e' Hi _ Hv. rewrite Hinv in Hv by (by eapply list_elem_of_lookup_2). done.
  - intros ip. apply arp_find_None. intros i e Hi Hv. rewrite Hinv in Hv by (by eapply list_elem_of_lookup_2). done.
  - assert (Hp : forall a, a ∈ arp_pending_pool s' -> ap_in_use a = false).
    { intros a Hin. change (arp_pending_pool s') with (map arp_pending_clear (arp_pending_pool s)) in Hin.
      apply list_elem_of_fmap in Hin as (x & -> & _). done. }
    split; [intros a Hin Hu; by rewrite Hp in Hu|].
    intros i j a b Hi _ Hu. rewrite Hp in Hu by (by eapply list_elem_of_lookup_2). done.
  - change (devs s' !! LO_DEVICE) with (<[LO_DEVICE := lo_device]> (devs s) !! LO_DEVICE).
    apply lookup_insert_eq.
  - rewrite Eroute. unfold route_init. destruct (routes s) as [|e t]; [done|]. simpl in *. by rewrite length_map.
  - intros dst Hd. rewrite Eroute. unfold route_lookup. cbn [route_scan].
    assert (route_usable dst (mk_rt_entry 0x7F000000 0xFF000000 0 (Some LO_DEVICE) 0 RTF_UP true) = true) as ->.
    { unfold route_usable. cbn [rt_active rt_flags rt_netmask rt_dst_net]. rewrite Hd. done. }
    change (_ || _) with true. cbv iota. by rewrite route_scan_inactive.
  - intros dst Hd. rewrite Eroute. unfold route_lookup. cbn [route_scan].
    assert (route_usable dst (mk_rt_entry 0x7F000000 0xFF000000 0 (Some LO_DEVICE) 0 RTF_UP true) = false) as ->.
    { unfold route_usable. cbn [rt_active rt_flags rt_netmask rt_dst_net]. apply Z.eqb_neq in Hd as ->.
      by rewrite andb_false_r. }
    by rewrite route_scan_inactive.
Qed.

(** ** Witnesses *)

(** Memory at power-on. *)
Definition off_state : net_state :=
  mk_net_state boot_pool ∅ None false skb_queue_init
    (replicate MAX_ROUTES (mk_rt_entry 0 0 0 None 0 0 false))
    (replicate ARP_TABLE_SIZE (mk_arp_entry 0 [] 0 false))
    (replicate ARP_PENDING_MAX (mk_arp_pending false 0 None None 0))
    0 [] false [] [] 0 [] [] [].

Lemma net_init_ok_witness :
  route_lookup (routes (net_init off_state)) 0x7F000001 = (Some LO_DEVICE, 0x7F000001).
Proof.
  assert (Hl : Z.land 0x7F000001 0xFF000000 = 0x7F000000) by reflexivity.
  pose proof (net_init_ok off_state boot_pool_slots eq_refl eq_refl) as (_ & _ & _ & _ & _ & _ & _ & _ & _ & H & _).
  exact (H 0x7F000001 Hl).
Defined.

