(* ===== verification/Sched.v ===== *)
(** * The scheduler's run queues ([kernel/ke/sched.c])

    The global task list, the per-CPU run queues, the choice of the next task
    and the wake-up functions.  Tasks and CPUs are objects in a store, linked by
    the pointers of the code ([next] for the task list, [rq_next] for the run
    queues).  Each critical section is an atomic step.  The context switch
    itself (stacks, address spaces, zombies that wait to be reaped) is not
    modelled: the scheduling functions return the task that runs next. *)

From Stdlib Require Import ZArith Lia Bool.
From stdpp Require Import base list gmap.
From S2P Require Import Prelude Chain.

Inductive task_state := TASK_READY | TASK_RUNNING | TASK_BLOCKED | TASK_STOPPED | TASK_ZOMBIE.

#[export] Instance task_state_eq_dec : EqDecision task_state.
Proof. solve_decision. Defined.

Definition SCHED_TIME_SLICE : Z := 2.
Definition MAX_CPUS : nat := 64.

(** The fields of [task_t] the scheduler uses; [t_sp_ok] is [sp != 0] and
    [t_signal] is [signal_pending(task)]. *)
Record task := mk_task {
  t_state : task_state;
  t_user : bool;
  t_on_cpu : Z;
  t_affinity : Z;
  t_on_rq : bool;
  t_rq_next : option nat;
  t_next : option nat;
  t_has_exited : bool;
  t_wait_channel : option nat;
  t_wakeup_tick : Z;
  t_sp_ok : bool;
  t_remaining_ticks : Z;
  t_need_resched : bool;
  t_signal : bool;
}.

Record percpu := mk_percpu {
  runqueue_head : option nat;
  runqueue_tail : option nat;
  runqueue_length : Z;
  current_task : option nat;
  idle_task : option nat;
}.

Record sched := mk_sched {
  tasks : gmap nat task;
  cpus : gmap nat percpu;            (* g_percpu_ptrs *)
  g_task_list_head : option nat;
  idle_tasks : list nat;             (* g_idle_task and g_ap_idle_tasks *)
  bootstrap_task : nat;
  g_smp_initialized : bool;
  ipis : list nat;                   (* reschedule IPIs sent, oldest first *)
}.

(** ** Field updates *)

Definition set_state (x : task_state) (t : task) : task :=
  mk_task x (t_user t) (t_on_cpu t) (t_affinity t) (t_on_rq t) (t_rq_next t) (t_next t)
    (t_has_exited t) (t_wait_channel t) (t_wakeup_tick t) (t_sp_ok t) (t_remaining_ticks t)
    (t_need_resched t) (t_signal t).

Definition set_on_cpu (x : Z) (t : task) : task :=
  mk_task (t_state t) (t_user t) x (t_affinity t) (t_on_rq t) (t_rq_next t) (t_next t)
    (t_has_exited t) (t_wait_channel t) (t_wakeup_tick t) (t_sp_ok t) (t_remaining_ticks t)
    (t_need_resched t) (t_signal t).

Definition set_rq (on : bool) (nx : option nat) (t : task) : task :=
  mk_task (t_state t) (t_user t) (t_on_cpu t) (t_affinity t) on nx (t_next t)
    (t_has_exited t) (t_wait_channel t) (t_wakeup_tick t) (t_sp_ok t) (t_remaining_ticks t)
    (t_need_resched t) (t_signal t).

Definition set_rq_next (nx : option nat) (t : task) : task := set_rq (t_on_rq t) nx t.

Definition set_t_next (x : option nat) (t : task) : task :=
  mk_task (t_state t) (t_user t) (t_on_cpu t) (t_affinity t) (t_on_rq t) (t_rq_next t) x
    (t_has_exited t) (t_wait_channel t) (t_wakeup_tick t) (t_sp_ok t) (t_remaining_ticks t)
    (t_need_resched t) (t_signal t).

Definition set_wait (ch : option nat) (tick : Z) (t : task) : task :=
  mk_task (t_state t) (t_user t) (t_on_cpu t) (t_affinity t) (t_on_rq t) (t_rq_next t) (t_next t)
    (t_has_exited t) ch tick (t_sp_ok t) (t_remaining_ticks t) (t_need_resched t) (t_signal t).

Definition set_slice (ticks : Z) (resched : bool) (t : task) : task :=
  mk_task (t_state t) (t_user t) (t_on_cpu t) (t_affinity t) (t_on_rq t) (t_rq_next t) (t_next t)
    (t_has_exited t) (t_wait_channel t) (t_wakeup_tick t) (t_sp_ok t) ticks resched (t_signal t).

(** [state = RUNNING], a fresh time slice, [need_resched = 0]. *)
Definition set_running (t : task) : task :=
  set_slice SCHED_TIME_SLICE false (set_state TASK_RUNNING t).

Definition set_tasks (x : gmap nat task) (s : sched) : sched :=
  mk_sched x (cpus s) (g_task_list_head s) (idle_tasks s) (bootstrap_task s) (g_smp_initialized s)
    (ipis s).

Definition set_cpus (x : gmap nat percpu) (s : sched) : sched :=
  mk_sched (tasks s) x (g_task_list_head s) (idle_tasks s) (bootstrap_task s) (g_smp_initialized s)
    (ipis s).

Definition set_list_head (x : option nat) (s : sched) : sched :=
  mk_sched (tasks s) (cpus s) x (idle_tasks s) (bootstrap_task s) (g_smp_initialized s) (ipis s).

Definition add_ipi (c : nat) (s : sched) : sched :=
  mk_sched (tasks s) (cpus s) (g_task_list_head s) (idle_tasks s) (bootstrap_task s)
    (g_smp_initialized s) (ipis s ++ [c]).

Definition upd_task (t : nat) (f : task -> task) (s : sched) : sched :=
  set_tasks (alter f t (tasks s)) s.

Definition set_queue (h tl : option nat) (n : Z) (p : percpu) : percpu :=
  mk_percpu h tl n (current_task p) (idle_task p).

Definition set_current_task (t : option nat) (p : percpu) : percpu :=
  mk_percpu (runqueue_head p) (runqueue_tail p) (runqueue_length p) t (idle_task p).

Definition upd_cpu (c : nat) (f : percpu -> percpu) (s : sched) : sched :=
  set_cpus (alter f c (cpus s)) s.

(** ** The global task list *)

Definition task_list_add (s : sched) (t : nat) : sched :=
  set_list_head (Some t) (upd_task t (set_t_next (g_task_list_head s)) s).

Definition t_next_of (s : sched) (t : nat) : option nat := tasks s !! t ≫= t_next.

(** The object before [t] on the list through [nx]: [for (prev = p; prev; prev
    = nx(prev)) if (nx(prev) == t) ...]. *)
Fixpoint find_prev (fuel : nat) (nx : nat -> option nat) (p : option nat) (t : nat) : option nat :=
  match fuel, p with
  | S fuel', Some prev =>
      if decide (nx prev = Some t) then Some prev else find_prev fuel' nx (nx prev) t
  | _, _ => None
  end.

Definition task_list_remove (s : sched) (t : nat) : sched :=
  if decide (g_task_list_head s = Some t) then
    upd_task t (set_t_next None) (set_list_head (t_next_of s t) s)
  else
    match find_prev (size (tasks s)) (t_next_of s) (g_task_list_head s) t with
    | Some prev => upd_task t (set_t_next None) (upd_task prev (set_t_next (t_next_of s t)) s)
    | None => s
    end.

(** ** Run queues *)

Definition is_idle_task (s : sched) (t : nat) : bool := bool_decide (t ∈ idle_tasks s).
Definition is_bootstrap_task (s : sched) (t : nat) : bool := bool_decide (t = bootstrap_task s).
Definition rq_next_of (s : sched) (t : nat) : option nat := tasks s !! t ≫= t_rq_next.
Definition percpu_get (s : sched) (c : Z) : option nat :=
  if (c <? 0) || (Z.of_nat MAX_CPUS <=? c) then None else
  match cpus s !! Z.to_nat c with Some _ => Some (Z.to_nat c) | None => None end.

Definition rq_enqueue_locked (s : sched) (c t : nat) : sched :=
  match cpus s !! c, tasks s !! t with
  | Some cpu, Some tk =>
      if t_on_rq tk then s
      else if bool_decide (runqueue_head cpu = Some t) || bool_decide (runqueue_tail cpu = Some t)
      then s
      else if bool_decide (t_state tk = TASK_RUNNING) then s
      else
        let s := upd_task t (set_rq true None) s in
        let n := u32 (runqueue_length cpu + 1) in
        match runqueue_tail cpu with
        | Some tl =>
            upd_cpu c (set_queue (runqueue_head cpu) (Some t) n) (upd_task tl (set_rq_next (Some t)) s)
        | None => upd_cpu c (set_queue (Some t) (Some t) n) s
        end
  | _, _ => s
  end.

Definition rq_dequeue_locked (s : sched) (c : nat) : sched * option nat :=
  match cpus s !! c with
  | None => (s, None)
  | Some cpu =>
      match runqueue_head cpu with
      | None => (s, None)
      | Some t =>
          let h := rq_next_of s t in
          let tl := match h with None => None | Some _ => runqueue_tail cpu end in
          (upd_task t (set_rq false None)
             (upd_cpu c (set_queue h tl (u32 (runqueue_length cpu - 1))) s), Some t)
      end
  end.

Definition rq_remove (s : sched) (t : nat) : sched :=
  match tasks s !! t with
  | None => s
  | Some tk =>
      if negb (t_on_rq tk) then s
      else
        match percpu_get s (t_on_cpu tk) with
        | None => s
        | Some c =>
            match cpus s !! c with
            | None => s
            | Some cpu =>
                let n := u32 (runqueue_length cpu - 1) in
                let s' :=
                  if decide (runqueue_head cpu = Some t) then
                    upd_cpu c (set_queue (t_rq_next tk)
                      (match t_rq_next tk with None => None | Some _ => runqueue_tail cpu end) n) s
                  else
                    match find_prev (size (tasks s)) (rq_next_of s) (runqueue_head cpu) t with
                    | Some prev =>
                        upd_cpu c (set_queue (runqueue_head cpu)
                          (if decide (runqueue_tail cpu = Some t) then Some prev
                           else runqueue_tail cpu) n)
                          (upd_task prev (set_rq_next (t_rq_next tk)) s)
                    | None => upd_cpu c (set_queue (runqueue_head cpu) (runqueue_tail cpu) n) s
                    end in
                upd_task t (set_rq false None) s'
            end
        end
  end.

(** [me] is the executing CPU. *)
Definition sched_enqueue_ready (me : nat) (s : sched) (t : nat) : sched :=
  if is_idle_task s t then s
  else
    match tasks s !! t with
    | None => s
    | Some tk =>
        let '(s, c) := match percpu_get s (t_on_cpu tk) with
                       | Some c => (s, c)
                       | None => (upd_task t (set_on_cpu 0) s, 0%nat)
                       end in
        let s :=
          if negb (t_on_rq tk) && bool_decide (t_state tk = TASK_READY)
          then rq_enqueue_locked s c t else s in
        if g_smp_initialized s && negb (c =? me)%nat then add_ipi c s else s
    end.

(** ** Choosing the next task *)

Definition has_exited (s : sched) (t : nat) : bool :=
  match tasks s !! t with Some tk => t_has_exited tk | None => true end.
Definition state_of (s : sched) (t : nat) : option task_state := t_state <$> tasks s !! t.
Definition sp_ok (s : sched) (t : nat) : bool :=
  match tasks s !! t with Some tk => t_sp_ok tk | None => false end.
Definition on_rq (s : sched) (t : nat) : bool :=
  match tasks s !! t with Some tk => t_on_rq tk | None => false end.

(** A dequeued task that cannot run goes back (unless it is a zombie or idle)
    and the idle task is taken. *)
Definition check_next (s : sched) (c : nat) (cpu : percpu) (next : nat) : sched * option nat :=
  if negb (sp_ok s next) || bool_decide (state_of s next = Some TASK_ZOMBIE) then
    (if negb (is_idle_task s next) && negb (bool_decide (state_of s next = Some TASK_ZOMBIE))
     then rq_enqueue_locked s c next else s, idle_task cpu)
  else (s, Some next).

(** The current task goes to the tail of the queue if it can run. *)
Definition runnable (s : sched) (t : nat) : bool :=
  negb (has_exited s t) &&
  (bool_decide (state_of s t = Some TASK_READY) || bool_decide (state_of s t = Some TASK_RUNNING)) &&
  negb (is_idle_task s t).

Definition requeue_current (s : sched) (c cur : nat) : sched :=
  if runnable s cur && negb (on_rq s cur)
  then rq_enqueue_locked (upd_task cur (set_state TASK_READY) s) c cur else s.

(** Result: the state and, if there is a switch, the tasks switched from and to. *)
Definition sched_schedule (s : sched) (c : nat) : sched * option (nat * nat) :=
  if negb (g_smp_initialized s) then (s, None)
  else
    match cpus s !! c with
    | None => (s, None)
    | Some cpu =>
        match current_task cpu with
        | None => (s, None)
        | Some cur =>
            let stay (resched : bool) (s : sched) :=
              if has_exited s cur then s
              else upd_task cur (fun tk => set_slice SCHED_TIME_SLICE
                     (if resched then false else t_need_resched tk) (set_state TASK_RUNNING tk)) s in
            let '(s, next) := rq_dequeue_locked s c in
            if decide (next = Some cur) then (upd_task cur set_running s, None)
            else
              match (match next with None => idle_task cpu | Some _ => next end) with
              | None => (stay true s, None)
              | Some n =>
                  if decide (n = cur) then (stay true s, None)
                  else
                    let '(s, next) := check_next s c cpu n in
                    match next with
                    | None => (stay false s, None)
                    | Some n =>
                        if bool_decide (n = cur) || negb (sp_ok s n) then (stay false s, None)
                        else
                          let s := requeue_current s c cur in
                          let s := upd_cpu c (set_current_task (Some n)) s in
                          (upd_task n set_running s, Some (cur, n))
                    end
              end
        end
    end.

(** The timer's preemption: [in_switch] is [cpu->in_context_switch] and [locked]
    the result of the try-lock. *)
Definition sched_preempt (s : sched) (c : nat) (in_switch locked : bool)
    : sched * option (nat * nat) :=
  if negb (g_smp_initialized s) || in_switch then (s, None)
  else
    match cpus s !! c with
    | None => (s, None)
    | Some cpu =>
        match current_task cpu with
        | None => (s, None)
        | Some cur =>
            if is_bootstrap_task s cur || negb locked then (s, None)
            else
              let slice := upd_task cur (fun tk => set_slice SCHED_TIME_SLICE (t_need_resched tk) tk) in
              let stay (s : sched) :=
                if has_exited s cur then s else slice (upd_task cur (set_state TASK_RUNNING) s) in
              let s := upd_task cur (fun tk => set_slice (t_remaining_ticks tk) false tk) s in
              let '(s, next) := rq_dequeue_locked s c in
              if decide (next = Some cur)
              then (slice (upd_task cur (set_state TASK_RUNNING) s), None)
              else
                match (match next with None => idle_task cpu | Some _ => next end) with
                | None => (stay s, None)
                | Some n =>
                    if decide (n = cur) then (stay s, None)
                    else
                      let '(s, next) := check_next s c cpu n in
                      match next with
                      | None => (if has_exited s cur then s else slice s, None)
                      | Some n =>
                          if bool_decide (n = cur) || negb (sp_ok s n)
                          then (if has_exited s cur then s else slice s, None)
                          else
                            let s := requeue_current s c cur in
                            let s := upd_cpu c (set_current_task (Some n)) s in
                            let s := upd_task cur (fun tk =>
                              if decide (t_state tk = TASK_RUNNING) then set_state TASK_READY tk else tk) s in
                            (upd_task n (fun tk => set_slice SCHED_TIME_SLICE (t_need_resched tk)
                               (set_state TASK_RUNNING tk)) s, Some (cur, n))
                      end
                end
        end
    end.

(** ** Wake-ups *)

Definition sched_wake_task (me : nat) (s : sched) (t : nat) : sched :=
  if bool_decide (state_of s t = Some TASK_BLOCKED)
  then sched_enqueue_ready me (upd_task t (fun tk => set_wait None 0 (set_state TASK_READY tk)) s) t
  else s.

Definition MAX_WAKE : nat := 16.

(** The loop over the task list: every task blocked on the channel becomes
    READY; the first [room] of them are collected. *)
Fixpoint wake_loop (fuel : nat) (s : sched) (p : option nat) (channel : nat) (room : nat)
    : sched * list nat :=
  match fuel, p with
  | S fuel', Some t =>
      match tasks s !! t with
      | None => (s, [])
      | Some tk =>
          if bool_decide (t_state tk = TASK_BLOCKED) && bool_decide (t_wait_channel tk = Some channel)
          then
            let s := upd_task t (fun tk => set_wait None (t_wakeup_tick tk) (set_state TASK_READY tk)) s in
            match room with
            | O => wake_loop fuel' s (t_next tk) channel O
            | S room' =>
                let '(s, w) := wake_loop fuel' s (t_next tk) channel room' in (s, t :: w)
            end
          else wake_loop fuel' s (t_next tk) channel room
      end
  | _, _ => (s, [])
  end.

Definition sched_wake_channel (me : nat) (s : sched) (channel : option nat) : sched :=
  match channel with
  | None => s
  | Some ch =>
      let '(s, to_wake) := wake_loop (size (tasks s)) s (g_task_list_head s) ch MAX_WAKE in
      foldl (sched_enqueue_ready me) s to_wake
  end.

(** ** Load balancing *)

(** The test of the search loop: a READY user task whose affinity allows [me]. *)
Definition migratable (s : sched) (me t : nat) : bool :=
  match tasks s !! t with
  | None => false
  | Some tk =>
      let affinity_ok := (t_affinity tk =? 0) || Z.testbit (t_affinity tk) (Z.of_nat me) in
      negb (is_idle_task s t) && negb (is_bootstrap_task s t) && t_user tk &&
      bool_decide (t_state tk = TASK_READY) && affinity_ok
  end.

(** The first task of [src]'s queue that may move to CPU [me], with the task
    before it on the queue. *)
Fixpoint find_migratable (fuel : nat) (s : sched) (me : nat) (prev p : option nat)
    : option (option nat * nat) :=
  match fuel, p with
  | S fuel', Some t =>
      if migratable s me t then Some (prev, t)
      else find_migratable fuel' s me (Some t) (rq_next_of s t)
  | _, _ => None
  end.

(** The busiest CPU below [online], other than [me]; ties keep the first. *)
Fixpoint find_busiest (s : sched) (me : nat) (cs : list nat) (best : nat) (len : Z) : nat * Z :=
  match cs with
  | [] => (best, len)
  | c :: cs' =>
      match cpus s !! c with
      | Some cpu =>
          if negb (c =? me)%nat && (len <? runqueue_length cpu)
          then find_busiest s me cs' c (runqueue_length cpu)
          else find_busiest s me cs' best len
      | None => find_busiest s me cs' best len
      end
  end.

Definition sched_load_balance (s : sched) (me online : nat) : sched :=
  if negb (g_smp_initialized s) || (online <=? 1)%nat then s
  else
    match cpus s !! me with
    | None => s
    | Some mine =>
        let my_len := runqueue_length mine in
        let '(busiest, len) := find_busiest s me (seq 0 online) me my_len in
        if (busiest =? me)%nat || (len <? u32 (my_len + 1)) then s
        else
          match cpus s !! busiest with
          | None => s
          | Some src =>
              if runqueue_length src <? u32 (runqueue_length mine + 1) then s
              else
                match find_migratable (size (tasks s)) s me None (runqueue_head src) with
                | None => s
                | Some (prev, t) =>
                    let nx := rq_next_of s t in
                    let s := match prev with
                             | Some p => upd_task p (set_rq_next nx) s
                             | None => s
                             end in
                    let h := match prev with Some _ => runqueue_head src | None => nx end in
                    let tl := if decide (runqueue_tail src = Some t) then prev
                              else runqueue_tail src in
                    let s := upd_cpu busiest (set_queue h tl (u32 (runqueue_length src - 1))) s in
                    let s := upd_task t (fun tk => set_on_cpu (Z.of_nat me) (set_rq false None tk)) s in
                    rq_enqueue_locked s me t
                end
          end
    end.

Definition sched_yield_in_kernel (s : sched) (c : nat) : sched * option (nat * nat) :=
  match cpus s !! c ≫= current_task with
  | None => (s, None)
  | Some cur =>
      sched_schedule (upd_task cur (fun tk => set_slice 0 (t_need_resched tk) (set_state TASK_READY tk)) s) c
  end.

(** ** Invariants *)

(** A task that may sit in a queue. *)
Record queueable (s : sched) (t : nat) (tk : task) : Prop := {
  qb_task : tasks s !! t = Some tk;
  qb_idle : t ∉ idle_tasks s;
  qb_live : t_has_exited tk = false;
  qb_sp : t_sp_ok tk = true;
}.

(** The run queues hold the tasks [Q c]: each queue is a chain without
    repetition with matching tail and length, its tasks are READY and assigned
    to its CPU, and the [on_rq] flags are exact. *)
Record rq_ok (s : sched) (Q : nat -> list nat) : Prop := {
  rq_cpu : forall c cpu, cpus s !! c = Some cpu ->
    chain (rq_next_of s) (runqueue_head cpu) (Q c) /\ runqueue_tail cpu = last (Q c) /\
    runqueue_length cpu = u32 (Z.of_nat (length (Q c))) /\ NoDup (Q c);
  rq_none : forall c, cpus s !! c = None -> Q c = [];
  rq_task : forall c t, t ∈ Q c -> exists tk, queueable s t tk /\
    t_on_rq tk = true /\ t_on_cpu tk = Z.of_nat c /\ t_state tk = TASK_READY;
  rq_flag : forall t tk, tasks s !! t = Some tk -> t_on_rq tk = true ->
    exists c, t_on_cpu tk = Z.of_nat c /\ t ∈ Q c;
  rq_max : forall c, is_Some (cpus s !! c) -> (c < MAX_CPUS)%nat;
}.

Definition upd_queue (Q : nat -> list nat) (c : nat) (l : list nat) : nat -> list nat :=
  fun x => if decide (x = c) then l else Q x.

(** The tasks without their queue links. *)
Definition core (tk : task) : task := set_rq false None tk.
Definition cores (s : sched) : gmap nat task := core <$> tasks s.

(** ** Stores *)

Lemma lookup_upd_task s t f x :
  tasks (upd_task t f s) !! x = if decide (x = t) then f <$> tasks s !! x else tasks s !! x.
Proof.
  unfold upd_task, set_tasks. cbn [tasks]. case_decide as H; [subst; apply lookup_alter_eq|].
  by apply lookup_alter_ne.
Qed.

Lemma cpus_upd_task s t f : cpus (upd_task t f s) = cpus s.
Proof. done. Qed.

Lemma upd_task_compose s t f g : upd_task t g (upd_task t f s) = upd_task t (fun tk => g (f tk)) s.
Proof.
  unfold upd_task, set_tasks. cbn [tasks]. f_equal. apply map_eq. intros x.
  destruct (decide (x = t)) as [->|]; [|by rewrite !lookup_alter_ne].
  rewrite !lookup_alter_eq. by destruct (tasks s !! t).
Qed.

Lemma lookup_upd_cpu s c f x :
  cpus (upd_cpu c f s) !! x = if decide (x = c) then f <$> cpus s !! x else cpus s !! x.
Proof.
  unfold upd_cpu, set_cpus. cbn [cpus]. case_decide as H; [subst; apply lookup_alter_eq|].
  by apply lookup_alter_ne.
Qed.

Lemma is_Some_upd_cpu s c f x : is_Some (cpus (upd_cpu c f s) !! x) <-> is_Some (cpus s !! x).
Proof. rewrite lookup_upd_cpu. case_decide; [apply fmap_is_Some|done]. Qed.

Lemma percpu_get_ok s c cpu :
  cpus s !! c = Some cpu -> (c < MAX_CPUS)%nat -> percpu_get s (Z.of_nat c) = Some c.
Proof.
  intros Hc Hm. unfold percpu_get. rewrite (proj2 (Z.ltb_ge _ _)), (proj2 (Z.leb_gt _ _)) by lia.
  cbn [orb]. by rewrite Nat2Z.id, Hc.
Qed.

Lemma upd_queue_eq Q c l : upd_queue Q c l c = l.
Proof. unfold upd_queue. by rewrite decide_True. Qed.

Lemma upd_queue_ne Q c l x : x <> c -> upd_queue Q c l x = Q x.
Proof. intros. unfold upd_queue. by rewrite decide_False. Qed.

Lemma rq_next_of_set_rq s t b nx x tk :
  tasks s !! t = Some tk ->
  rq_next_of (upd_task t (set_rq b nx) s) x = redirect (rq_next_of s) t nx x.
Proof.
  intros Ht. unfold rq_next_of, redirect. rewrite lookup_upd_task. case_decide; [subst; by rewrite Ht|done].
Qed.

Lemma rq_next_of_set_rq_next s t nx x tk :
  tasks s !! t = Some tk ->
  rq_next_of (upd_task t (set_rq_next nx) s) x = redirect (rq_next_of s) t nx x.
Proof.
  intros Ht. unfold rq_next_of, redirect. rewrite lookup_upd_task. case_decide; [subst; by rewrite Ht|done].
Qed.

Lemma cores_upd_rq s t f : (forall tk, core (f tk) = core tk) -> cores (upd_task t f s) = cores s.
Proof.
  intros Hf. unfold cores. apply map_eq. intros x. rewrite !lookup_fmap, lookup_upd_task.
  case_decide; [|done]. destruct (tasks s !! x); simpl; [by rewrite Hf|done].
Qed.

Lemma cores_lookup s s' t tk :
  cores s' = cores s -> tasks s !! t = Some tk ->
  exists tk', tasks s' !! t = Some tk' /\ core tk' = core tk.
Proof.
  intros E Ht. assert (H : cores s' !! t = Some (core tk)) by (rewrite E; unfold cores; by rewrite lookup_fmap, Ht).
  unfold cores in H. rewrite lookup_fmap in H. destruct (tasks s' !! t) as [tk'|]; [|done].
  apply (inj Some) in H. by exists tk'.
Qed.

Lemma core_fields tk tk' :
  core tk' = core tk ->
  t_state tk' = t_state tk /\ t_on_cpu tk' = t_on_cpu tk /\ t_has_exited tk' = t_has_exited tk /\
  t_sp_ok tk' = t_sp_ok tk /\ t_wait_channel tk' = t_wait_channel tk /\ t_next tk' = t_next tk.
Proof. destruct tk, tk'. unfold core, set_rq. simpl. intros [=]. by subst. Qed.

Lemma queueable_core s s' t tk tk' :
  queueable s t tk -> tasks s' !! t = Some tk' -> core tk' = core tk -> idle_tasks s' = idle_tasks s ->
  queueable s' t tk'.
Proof.
  intros [? ? ? ?] Ht Hc Hi. apply core_fields in Hc as (? & ? & ? & ? & ? & ?).
  split; congruence.
Qed.

(** ** Enqueue and dequeue *)

Lemma rq_not_in Q s c t tk : rq_ok s Q -> tasks s !! t = Some tk -> t_on_rq tk = false -> t ∉ Q c.
Proof.
  intros H Ht Hf Hin. destruct (rq_task _ _ H c t Hin) as (tk' & [Ht' _ _ _] & Hr & _). congruence.
Qed.

Lemma rq_disjoint Q s c c' t : rq_ok s Q -> t ∈ Q c -> t ∈ Q c' -> c = c'.
Proof.
  intros H H1 H2. destruct (rq_task _ _ H c t H1) as (tk & [Ht _ _ _] & _ & Hc & _).
  destruct (rq_task _ _ H c' t H2) as (tk' & [Ht' _ _ _] & _ & Hc' & _).
  assert (tk' = tk) by congruence. subst. lia.
Qed.

Lemma queue_len_snoc (n : Z) (l : list nat) (t : nat) :
  n = u32 (Z.of_nat (length l)) -> u32 (n + 1) = u32 (Z.of_nat (length (l ++ [t]))).
Proof.
  intros ->. rewrite length_app. simpl. unfold u32. rewrite Z.add_mod_idemp_l by lia. f_equal. lia.
Qed.

Lemma queue_len_tail (n : Z) (t : nat) (l : list nat) :
  n = u32 (Z.of_nat (length (t :: l))) -> u32 (n - 1) = u32 (Z.of_nat (length l)).
Proof.
  intros ->. simpl length. unfold u32. rewrite Zminus_mod_idemp_l. f_equal. lia.
Qed.

(** The link updates of an enqueue, as one redirected [rq_next]. *)
Lemma rq_enqueue_eq s c t cpu tk :
  cpus s !! c = Some cpu -> tasks s !! t = Some tk -> t_on_rq tk = false ->
  t_state tk <> TASK_RUNNING -> runqueue_head cpu <> Some t -> runqueue_tail cpu <> Some t ->
  let n := u32 (runqueue_length cpu + 1) in
  rq_enqueue_locked s c t =
    match runqueue_tail cpu with
    | Some tl => upd_cpu c (set_queue (runqueue_head cpu) (Some t) n)
                   (upd_task tl (set_rq_next (Some t)) (upd_task t (set_rq true None) s))
    | None => upd_cpu c (set_queue (Some t) (Some t) n) (upd_task t (set_rq true None) s)
    end.
Proof.
  intros Hc Ht Hr Hs Hh Htl n. unfold rq_enqueue_locked. rewrite Hc, Ht, Hr.
  rewrite !bool_decide_false by done. done.
Qed.

Lemma cores_enqueue s c t : cores (rq_enqueue_locked s c t) = cores s.
Proof.
  unfold rq_enqueue_locked. destruct (cpus s !! c) as [cpu|]; [|done].
  destruct (tasks s !! t) as [tk|]; [|done]. destruct (t_on_rq tk); [done|].
  destruct (_ || _); [done|]. destruct (bool_decide _); [done|].
  destruct (runqueue_tail cpu); unfold upd_cpu, cores; cbn [tasks set_cpus];
    change (core <$> tasks ?x) with (cores x); rewrite !cores_upd_rq; done.
Qed.

Lemma idle_enqueue s c t :
  let s' := rq_enqueue_locked s c t in
  idle_tasks s' = idle_tasks s /\ g_smp_initialized s' = g_smp_initialized s /\
  g_task_list_head s' = g_task_list_head s /\ bootstrap_task s' = bootstrap_task s.
Proof.
  unfold rq_enqueue_locked. destruct (cpus s !! c) as [cpu|]; [|done].
  destruct (tasks s !! t) as [tk|]; [|done]. destruct (t_on_rq tk); [done|].
  destruct (_ || _); [done|]. destruct (bool_decide _); [done|]. by destruct (runqueue_tail cpu).
Qed.

(** What a change of the queues has to establish: the links and flags; the rest
    follows from the tasks being otherwise the same. *)
Lemma rq_ok_intro s s' Q Q' :
  rq_ok s Q -> cores s' = cores s -> idle_tasks s' = idle_tasks s ->
  (forall c cpu, cpus s' !! c = Some cpu ->
     chain (rq_next_of s') (runqueue_head cpu) (Q' c) /\ runqueue_tail cpu = last (Q' c) /\
     runqueue_length cpu = u32 (Z.of_nat (length (Q' c))) /\ NoDup (Q' c)) ->
  (forall c, cpus s' !! c = None -> Q' c = []) ->
  (forall c t, t ∈ Q' c -> on_rq s' t = true /\
     (t ∈ Q c \/ exists tk, queueable s t tk /\ t_on_cpu tk = Z.of_nat c /\ t_state tk = TASK_READY)) ->
  (forall t, on_rq s' t = true -> exists c, t ∈ Q' c) ->
  (forall c, is_Some (cpus s' !! c) -> is_Some (cpus s !! c)) ->
  rq_ok s' Q'.
Proof.
  intros H Hco Hid Hcpu Hnone Hin Hfl Hdom.
  assert (Htask : forall c t, t ∈ Q' c -> exists tk, queueable s' t tk /\
    t_on_rq tk = true /\ t_on_cpu tk = Z.of_nat c /\ t_state tk = TASK_READY).
  { intros c t Ht. destruct (Hin c t Ht) as [Hon Hold].
    assert (Ho : exists tk, queueable s t tk /\ t_on_cpu tk = Z.of_nat c /\ t_state tk = TASK_READY).
    { destruct Hold as [Hold|Hold]; [|done]. destruct (rq_task _ _ H c t Hold) as (tk & ? & _ & ? & ?). eauto. }
    destruct Ho as (tk & Hq & Hc & Hs). destruct (cores_lookup s s' t tk Hco (qb_task _ _ _ Hq)) as (tk' & Ht' & Hcr).
    pose proof (core_fields _ _ Hcr) as (E1 & E2 & _). exists tk'.
    split_and!; [by eapply queueable_core| |congruence|congruence].
    unfold on_rq in Hon. by rewrite Ht' in Hon. }
  split; [done|done|done| |intros c Hc; by apply (rq_max _ _ H), Hdom].
  intros t tk Ht Hon. assert (Hon' : on_rq s' t = true) by (unfold on_rq; by rewrite Ht).
  destruct (Hfl t Hon') as [c Hc]. destruct (Htask c t Hc) as (tk' & [Ht' _ _ _] & _ & Hcp & _).
  exists c. split; [congruence|done].
Qed.

Lemma on_rq_upd s t f x :
  on_rq (upd_task t f s) x =
    match tasks s !! x with
    | Some tk => if decide (x = t) then t_on_rq (f tk) else t_on_rq tk
    | None => false
    end.
Proof. unfold on_rq. rewrite lookup_upd_task. case_decide; destruct (tasks s !! x); done. Qed.

Lemma on_rq_iff Q s t : rq_ok s Q -> on_rq s t = true <-> exists c, t ∈ Q c.
Proof.
  intros H. unfold on_rq. split.
  - destruct (tasks s !! t) as [tk|] eqn:Ht; [|done]. intros Hr.
    destruct (rq_flag _ _ H t tk Ht Hr) as (c & _ & Hc). by exists c.
  - intros [c Hc]. destruct (rq_task _ _ H c t Hc) as (tk & [-> _ _ _] & -> & _). done.
Qed.

Lemma chain_head nx p (l : list nat) : chain nx p l -> p = head l.
Proof. destruct l; simpl; [done|]. by intros [-> _]. Qed.

(** The links, CPUs and flags after an enqueue. *)
Lemma rq_enqueue_links Q s c t cpu tk :
  rq_ok s Q -> cpus s !! c = Some cpu -> tasks s !! t = Some tk -> t_on_rq tk = false ->
  t_state tk = TASK_READY ->
  let s' := rq_enqueue_locked s c t in
  (forall c' p, c' <> c -> chain (rq_next_of s) p (Q c') -> chain (rq_next_of s') p (Q c')) /\
  chain (rq_next_of s') (head (Q c ++ [t])) (Q c ++ [t]) /\
  (forall x, on_rq s' x = if decide (x = t) then true else on_rq s x) /\
  (forall c', cpus s' !! c' = if decide (c' = c)
    then Some (set_queue (head (Q c ++ [t])) (Some t) (u32 (runqueue_length cpu + 1)) cpu)
    else cpus s !! c').
Proof.
  intros H Hc Ht Hrq Hst s'. destruct (rq_cpu _ _ H c cpu Hc) as (Hch & Htl & Hlen & Hnd).
  assert (Hnin : forall c', t ∉ Q c') by (intros c'; by eapply rq_not_in).
  pose proof (chain_head _ _ _ Hch) as Hhd.
  assert (Htail : runqueue_tail cpu <> Some t).
  { rewrite Htl. intros [l' E]%last_Some. apply (Hnin c). rewrite E. set_solver. }
  assert (Hhead : runqueue_head cpu <> Some t).
  { rewrite Hhd. intros Hl. apply (Hnin c). destruct (Q c); [done|]. injection Hl as ->. left. }
  assert (Es' : s' = rq_enqueue_locked s c t) by done.
  rewrite (rq_enqueue_eq s c t cpu tk) in Es' by (done || congruence). clearbody s'.
  set (s1 := upd_task t (set_rq true None) s) in *.
  assert (Hnx1 : forall x, rq_next_of s1 x = redirect (rq_next_of s) t None x)
    by (intros x; by eapply rq_next_of_set_rq).
  assert (Hon1 : forall x, on_rq s1 x = if decide (x = t) then true else on_rq s x).
  { intros x. unfold s1. rewrite on_rq_upd. unfold on_rq. case_decide; [subst; by rewrite Ht|done]. }
  destruct (runqueue_tail cpu) as [tl|].
  - symmetry in Htl. apply last_Some in Htl as [l El].
    assert (Htlq : tl ∈ Q c) by (rewrite El; set_solver).
    destruct (rq_task _ _ H c tl Htlq) as (tktl & [Httl _ _ _] & _).
    assert (tl <> t) by congruence.
    assert (Httl1 : tasks s1 !! tl = Some tktl) by (unfold s1; by rewrite lookup_upd_task, decide_False).
    assert (Hhd2 : head (Q c ++ [t]) = runqueue_head cpu) by (rewrite Hhd, El; by destruct l).
    assert (Hnx : forall x, rq_next_of s' x = redirect (redirect (rq_next_of s) t None) tl (Some t) x).
    { intros x. rewrite Es'. change (rq_next_of (upd_cpu ?a ?b ?u) x) with (rq_next_of u x).
      rewrite (rq_next_of_set_rq_next _ _ _ _ tktl) by done. unfold redirect. case_decide; [done|]. apply Hnx1. }
    split_and!.
    + intros c' p Hne Hp. eapply chain_ext; [intros x _; symmetry; apply Hnx|].
      apply chain_redirect; [intros Hin; apply Hne; by eapply rq_disjoint|]. by apply chain_redirect.
    + eapply chain_ext; [intros x _; symmetry; apply Hnx|]. rewrite Hhd2, El. rewrite El in Hch, Hnd.
      apply chain_snoc; [rewrite <- El; apply Hnin|done|apply redirect_eq|].
      apply chain_redirect; [rewrite <- El; apply Hnin|done].
    + intros x. rewrite Es'. change (on_rq (upd_cpu ?a ?b ?u) x) with (on_rq u x).
      rewrite on_rq_upd. rewrite <- Hon1. unfold on_rq. destruct (tasks s1 !! x); [|done]. by case_decide.
    + intros c'. rewrite Es', lookup_upd_cpu. case_decide; [subst|done]. rewrite Hhd2.
      change (cpus (upd_task ?a ?b s1)) with (cpus s). by rewrite Hc.
  - symmetry in Htl. apply last_None in Htl. rewrite Htl in *.
    assert (Hnx : forall x, rq_next_of s' x = redirect (rq_next_of s) t None x).
    { intros x. rewrite Es'. apply Hnx1. }
    split_and!.
    + intros c' p Hne Hp. eapply chain_ext; [intros x _; symmetry; apply Hnx|]. by apply chain_redirect.
    + simpl. split; [done|]. rewrite Hnx. apply redirect_eq.
    + intros x. rewrite Es'. apply Hon1.
    + intros c'. rewrite Es', lookup_upd_cpu. case_decide; [subst|done]. change (cpus s1) with (cpus s).
      by rewrite Hc.
Qed.

(** Enqueueing a READY task appends it to the queue of its CPU. *)
Lemma rq_enqueue_ok Q s c t cpu tk :
  rq_ok s Q -> cpus s !! c = Some cpu -> queueable s t tk -> t_on_rq tk = false ->
  t_state tk = TASK_READY -> t_on_cpu tk = Z.of_nat c ->
  rq_ok (rq_enqueue_locked s c t) (upd_queue Q c (Q c ++ [t])).
Proof.
  intros H Hc Hqb Hrq Hst Hcpu. pose proof (qb_task _ _ _ Hqb) as Ht.
  destruct (rq_cpu _ _ H c cpu Hc) as (_ & _ & Hlen & Hnd).
  assert (Hnin : forall c', t ∉ Q c') by (intros c'; by eapply rq_not_in).
  destruct (rq_enqueue_links Q s c t cpu tk H Hc Ht Hrq Hst) as (Hoth & Hself & Hon & Hcpus).
  apply (rq_ok_intro s _ Q); try done; [apply cores_enqueue|apply idle_enqueue| | | | |].
  - intros c' cpu' Hc'. rewrite Hcpus in Hc'. case_decide as E; [subst c'|].
    + injection Hc' as <-. rewrite upd_queue_eq. cbn [set_queue runqueue_head runqueue_tail runqueue_length].
      split_and!; [done|by rewrite last_snoc|by rewrite (queue_len_snoc _ (Q c) t Hlen)|].
      apply NoDup_app. split_and!; [done| |apply NoDup_singleton].
      intros x Hx ->%list_elem_of_singleton. by apply (Hnin c).
    + rewrite upd_queue_ne by done. destruct (rq_cpu _ _ H c' cpu' Hc') as (? & ? & ? & ?).
      split_and!; try done. by apply Hoth.
  - intros c' Hc'. rewrite Hcpus in Hc'. case_decide; [done|]. rewrite upd_queue_ne by done.
    by apply (rq_none _ _ H).
  - intros c' x Hx. rewrite Hon. destruct (decide (x = t)) as [->|Hne].
    + split; [done|]. right. exists tk. unfold upd_queue in Hx. case_decide; [by subst|]. by destruct (Hnin c').
    + assert (Hx' : x ∈ Q c').
      { unfold upd_queue in Hx. case_decide; [subst|done]. set_solver. }
      split; [|by left]. apply (on_rq_iff Q s x H). by exists c'.
  - intros x. rewrite Hon. destruct (decide (x = t)) as [->|Hne].
    + intros _. exists c. rewrite upd_queue_eq. set_solver.
    + intros [c' Hc']%(on_rq_iff Q s x H). exists c'. unfold upd_queue. case_decide; [subst; set_solver|done].
  - intros c'. rewrite Hcpus. case_decide; [subst; by rewrite Hc|done].
Qed.

Lemma cores_dequeue s c : cores (rq_dequeue_locked s c).1 = cores s.
Proof.
  unfold rq_dequeue_locked. destruct (cpus s !! c) as [cpu|]; [|done].
  destruct (runqueue_head cpu); [|done]. cbn [fst]. by rewrite cores_upd_rq.
Qed.

Lemma idle_dequeue s c :
  let s' := (rq_dequeue_locked s c).1 in
  idle_tasks s' = idle_tasks s /\ g_smp_initialized s' = g_smp_initialized s /\
  g_task_list_head s' = g_task_list_head s /\ bootstrap_task s' = bootstrap_task s.
Proof.
  unfold rq_dequeue_locked. destruct (cpus s !! c) as [cpu|]; [|done]. by destruct (runqueue_head cpu).
Qed.

(** Dequeueing takes the first task of the queue. *)
Lemma rq_dequeue_ok Q s c cpu :
  rq_ok s Q -> cpus s !! c = Some cpu ->
  match Q c with
  | [] => rq_dequeue_locked s c = (s, None)
  | t :: l =>
      exists s', rq_dequeue_locked s c = (s', Some t) /\ rq_ok s' (upd_queue Q c l) /\
        on_rq s' t = false /\
        (forall c', cpus s' !! c' = if decide (c' = c)
           then Some (set_queue (head l) (last l) (u32 (runqueue_length cpu - 1)) cpu) else cpus s !! c')
  end.
Proof.
  intros H Hc. destruct (rq_cpu _ _ H c cpu Hc) as (Hch & Htl & Hlen & Hnd).
  unfold rq_dequeue_locked. rewrite Hc. destruct (Q c) as [|t l] eqn:EQ; simpl in Hch.
  { by rewrite Hch. }
  destruct Hch as [Hh Hch]. rewrite Hh. rewrite <- EQ in *.
  assert (Htq : t ∈ Q c) by (rewrite EQ; left).
  destruct (rq_task _ _ H c t Htq) as (tk & [Ht _ _ _] & _).
  rewrite EQ in Hnd. apply NoDup_cons in Hnd as [Htl' Hnd].
  pose proof (chain_head _ _ _ Hch) as Hnh.
  set (s' := upd_task t _ _). exists s'. split; [done|].
  assert (Hnx : forall x, rq_next_of s' x = redirect (rq_next_of s) t None x).
  { intros x. unfold s'. by erewrite rq_next_of_set_rq. }
  assert (Hon : forall x, on_rq s' x = if decide (x = t) then false else on_rq s x).
  { intros x. unfold s'. rewrite on_rq_upd. cbn [tasks upd_cpu set_cpus]. unfold on_rq.
    destruct (decide (x = t)); [subst; by rewrite Ht|done]. }
  assert (Hcpus : forall c', cpus s' !! c' = if decide (c' = c)
     then Some (set_queue (head l) (last l) (u32 (runqueue_length cpu - 1)) cpu) else cpus s !! c').
  { intros c'. unfold s'. change (cpus (upd_task ?a ?b ?u)) with (cpus u). rewrite lookup_upd_cpu.
    case_decide; [subst|done]. rewrite Hc. cbn [fmap option_fmap option_map]. do 2 f_equal; [by rewrite Hnh|].
    rewrite Hnh, Htl, EQ. destruct l; [done|]. done. }
  split_and!; [|by rewrite Hon, decide_True|done].
  apply (rq_ok_intro s s' Q); try done.
  - unfold s'. by rewrite cores_upd_rq.
  - intros c' cpu' Hc'. rewrite Hcpus in Hc'. case_decide as E; [subst c'|].
    + injection Hc' as <-. rewrite upd_queue_eq. cbn [set_queue runqueue_head runqueue_tail runqueue_length].
      split_and!; [|done|rewrite EQ in Hlen; by rewrite (queue_len_tail _ t l Hlen)|done].
      eapply chain_ext; [intros x _; symmetry; apply Hnx|]. rewrite <- Hnh. by apply chain_redirect.
    + rewrite upd_queue_ne by done. destruct (rq_cpu _ _ H c' cpu' Hc') as (? & ? & ? & ?).
      split_and!; try done. eapply chain_ext; [intros x _; symmetry; apply Hnx|].
      apply chain_redirect; [|done]. intros Hin. apply E. by eapply rq_disjoint.
  - intros c' Hc'. rewrite Hcpus in Hc'. case_decide; [done|]. rewrite upd_queue_ne by done.
    by apply (rq_none _ _ H).
  - intros c' x Hx. assert (Hx' : x ∈ Q c' /\ x <> t).
    { unfold upd_queue in Hx. case_decide as E; [subst; rewrite EQ; split; [by right|by intros ->]|].
      split; [done|]. intros ->. apply E. by eapply rq_disjoint. }
    destruct Hx' as [Hx' Hne]. rewrite Hon, decide_False by done.
    split; [|by left]. apply (on_rq_iff Q s x H). by exists c'.
  - intros x. rewrite Hon. destruct (decide (x = t)) as [->|Hne]; [done|].
    intros [c' Hc']%(on_rq_iff Q s x H). exists c'. unfold upd_queue. case_decide; [subst|done].
    rewrite EQ in Hc'. by apply elem_of_cons in Hc' as [?|?].
  - intros c'. rewrite Hcpus. case_decide; [subst; by rewrite Hc|done].
Qed.

(** ** Removing a task from its queue *)

Lemma find_prev_spec nx (l1 : list nat) y x l2 p fuel :
  NoDup (l1 ++ y :: x :: l2) -> chain nx p (l1 ++ y :: x :: l2) -> (length l1 < fuel)%nat ->
  find_prev fuel nx p x = Some y.
Proof.
  revert p fuel. induction l1 as [|z l1 IH]; intros p fuel Hnd Hch Hf; destruct fuel as [|fuel]; simpl in *; try lia.
  - destruct Hch as [-> [Hy _]]. by rewrite decide_True.
  - destruct Hch as [-> Hch]. rewrite decide_False.
    + apply IH; [by apply NoDup_cons in Hnd as [_ ?]|done|lia].
    + intros E. rewrite E in Hch. apply NoDup_cons in Hnd as [Hz Hnd].
      destruct l1 as [|w l1]; simpl in Hch.
      * destruct Hch as [[= ->] _]. apply NoDup_cons in Hnd as [Hnd _]. apply Hnd. left.
      * destruct Hch as [[= ->] _]. apply NoDup_cons in Hnd as [Hnd _]. apply Hnd. set_solver.
Qed.

Lemma length_le_size {A} (m : gmap nat A) (l : list nat) :
  NoDup l -> (forall x, x ∈ l -> is_Some (m !! x)) -> (length l <= size m)%nat.
Proof.
  intros Hnd Hin. rewrite <- size_dom. rewrite <- (size_list_to_set (C := gset nat)) by done.
  apply subseteq_size. intros x Hx%elem_of_list_to_set. apply elem_of_dom. by apply Hin.
Qed.

(** The links, CPUs and flags after a removal, in the shape of [rq_remove]. *)
Lemma rq_unlink_ok Q s s' c cpu t l1 l2 h tl :
  rq_ok s Q -> cpus s !! c = Some cpu -> Q c = l1 ++ t :: l2 ->
  cores s' = cores s -> idle_tasks s' = idle_tasks s ->
  (forall x, on_rq s' x = if decide (x = t) then false else on_rq s x) ->
  (forall c', cpus s' !! c' = if decide (c' = c)
     then Some (set_queue h tl (u32 (runqueue_length cpu - 1)) cpu) else cpus s !! c') ->
  chain (rq_next_of s') h (l1 ++ l2) -> tl = last (l1 ++ l2) ->
  (forall c' p, c' <> c -> chain (rq_next_of s) p (Q c') -> chain (rq_next_of s') p (Q c')) ->
  rq_ok s' (upd_queue Q c (l1 ++ l2)).
Proof.
  intros H Hc EQ Hco Hid Hon Hcpus Hch Htl Hoth.
  destruct (rq_cpu _ _ H c cpu Hc) as (_ & _ & Hlen & Hnd). rewrite EQ in Hlen, Hnd.
  assert (Hnd' : t ∉ l1 ++ l2 /\ NoDup (l1 ++ l2)).
  { rewrite <- Permutation_middle in Hnd. by apply NoDup_cons in Hnd. }
  destruct Hnd' as [Htn Hnd'].
  apply (rq_ok_intro s s' Q); try done.
  - intros c' cpu' Hc'. rewrite Hcpus in Hc'. case_decide as E; [subst c'|].
    + injection Hc' as <-. rewrite upd_queue_eq. cbn [set_queue runqueue_head runqueue_tail runqueue_length].
      split_and!; try done. apply (queue_len_tail _ t). rewrite Hlen. do 2 f_equal.
      by rewrite Permutation_middle.
    + rewrite upd_queue_ne by done. destruct (rq_cpu _ _ H c' cpu' Hc') as (? & ? & ? & ?).
      split_and!; try done. by apply Hoth.
  - intros c' Hc'. rewrite Hcpus in Hc'. case_decide; [done|]. rewrite upd_queue_ne by done.
    by apply (rq_none _ _ H).
  - intros c' x Hx. assert (Htq : t ∈ Q c) by (rewrite EQ; set_solver).
    assert (Hx' : x ∈ Q c' /\ x <> t).
    { unfold upd_queue in Hx. case_decide as E; [subst; rewrite EQ; split; [set_solver|by intros ->]|].
      split; [done|]. intros ->. apply E. by eapply rq_disjoint. }
    destruct Hx' as [Hx' Hne]. rewrite Hon, decide_False by done.
    split; [|by left]. apply (on_rq_iff Q s x H). by exists c'.
  - intros x. rewrite Hon. destruct (decide (x = t)) as [->|Hne]; [done|].
    intros [c' Hc']%(on_rq_iff Q s x H). exists c'. unfold upd_queue. case_decide; [subst|done].
    rewrite EQ in Hc'. set_solver.
  - intros c'. rewrite Hcpus. case_decide; [subst; by rewrite Hc|done].
Qed.

Lemma rq_max_cpu s Q c cpu : rq_ok s Q -> cpus s !! c = Some cpu -> (c < MAX_CPUS)%nat.
Proof. intros H Hc. apply (rq_max _ _ H). by exists cpu. Qed.

Lemma rq_remove_unfold s t tk c cpu :
  tasks s !! t = Some tk -> t_on_rq tk = true -> t_on_cpu tk = Z.of_nat c -> cpus s !! c = Some cpu ->
  (c < MAX_CPUS)%nat ->
  let n := u32 (runqueue_length cpu - 1) in
  rq_remove s t = upd_task t (set_rq false None)
    (if decide (runqueue_head cpu = Some t) then
       upd_cpu c (set_queue (rq_next_of s t)
         (match rq_next_of s t with None => None | Some _ => runqueue_tail cpu end) n) s
     else
       match find_prev (size (tasks s)) (rq_next_of s) (runqueue_head cpu) t with
       | Some prev =>
           upd_cpu c (set_queue (runqueue_head cpu)
             (if decide (runqueue_tail cpu = Some t) then Some prev else runqueue_tail cpu) n)
             (upd_task prev (set_rq_next (rq_next_of s t)) s)
       | None => upd_cpu c (set_queue (runqueue_head cpu) (runqueue_tail cpu) n) s
       end).
Proof.
  intros Ht Hr Hcpu Hc Hm n. unfold rq_remove. rewrite Ht, Hr. cbn [negb].
  rewrite Hcpu, (percpu_get_ok s c cpu), Hc by done.
  assert (t_rq_next tk = rq_next_of s t) as -> by (unfold rq_next_of; by rewrite Ht). done.
Qed.

Lemma cores_upd_cpu s c f : cores (upd_cpu c f s) = cores s.
Proof. done. Qed.

Lemma cores_remove s t : cores (rq_remove s t) = cores s.
Proof.
  unfold rq_remove. destruct (tasks s !! t) as [tk|]; [|done]. destruct (negb (t_on_rq tk)); [done|].
  destruct (percpu_get s (t_on_cpu tk)) as [c|]; [|done]. destruct (cpus s !! c) as [cpu|]; [|done].
  rewrite cores_upd_rq by done. case_decide; [done|]. destruct (find_prev _ _ _ _); [|done].
  by rewrite cores_upd_cpu, cores_upd_rq.
Qed.

Lemma rq_remove_first Q s t tk c cpu l :
  rq_ok s Q -> tasks s !! t = Some tk -> t_on_rq tk = true -> t_on_cpu tk = Z.of_nat c ->
  cpus s !! c = Some cpu -> Q c = t :: l -> rq_ok (rq_remove s t) (upd_queue Q c l).
Proof.
  intros H Ht Hr Hcpu Hc EQ. destruct (rq_cpu _ _ H c cpu Hc) as (Hch & Htl & Hlen & Hnd).
  rewrite EQ in Hch, Hnd. destruct Hch as [Hh Hch]. apply NoDup_cons in Hnd as [Htn _].
  pose proof (chain_head _ _ _ Hch) as Hnh.
  pose proof (cores_remove s t) as Hco. pose proof (rq_remove_unfold s t tk c cpu Ht Hr Hcpu Hc (rq_max_cpu _ _ _ _ H Hc)) as E.
  cbv zeta in E. rewrite decide_True in E by done.
  eapply (rq_unlink_ok Q s _ c cpu t [] l (head l) (last l)); try done; rewrite E.
  - done.
  - intros x. rewrite on_rq_upd. cbn [tasks upd_cpu set_cpus]. unfold on_rq.
    destruct (decide (x = t)) as [->|]; [by rewrite Ht|done].
  - intros c'. change (cpus (upd_task ?a ?b ?u)) with (cpus u). rewrite lookup_upd_cpu.
    case_decide; [subst|done]. rewrite Hc. cbn [fmap option_fmap option_map]. rewrite Hnh, Htl, EQ.
    do 2 f_equal. by destruct l.
  - rewrite <- Hnh. eapply chain_ext; [|by apply (chain_redirect (rq_next_of s) t None)].
    intros x _. by erewrite rq_next_of_set_rq.
  - intros c' p Hne Hp. eapply chain_ext; [|apply (chain_redirect (rq_next_of s) t None); [|exact Hp]].
    + intros x _. by erewrite rq_next_of_set_rq.
    + intros Hin'. apply Hne. eapply rq_disjoint; [done|done|]. rewrite EQ. left.
Qed.

Lemma last_app_cons {A} (l1 : list A) x l2 : last (l1 ++ x :: l2) = last (x :: l2).
Proof. rewrite last_app. by destruct (last (x :: l2)) eqn:E; [|apply last_None in E]. Qed.

Lemma rq_remove_later Q s t tk c cpu l1 z l2 :
  rq_ok s Q -> tasks s !! t = Some tk -> t_on_rq tk = true -> t_on_cpu tk = Z.of_nat c ->
  cpus s !! c = Some cpu -> Q c = l1 ++ z :: t :: l2 ->
  rq_ok (rq_remove s t) (upd_queue Q c ((l1 ++ [z]) ++ l2)).
Proof.
  intros H Ht Hr Hcpu Hc EQ. destruct (rq_cpu _ _ H c cpu Hc) as (Hch & Htl & Hlen & Hnd).
  rewrite EQ in Hch, Hnd. pose proof (chain_head _ _ _ Hch) as Hhd.
  assert (Hnin : t ∉ l1 /\ t <> z /\ t ∉ l2).
  { apply NoDup_app in Hnd as (_ & Hd & [Hn1 [Hn2 _]%NoDup_cons]%NoDup_cons).
    split_and!; [intros Hin; apply (Hd t Hin); set_solver|set_solver|done]. }
  destruct Hnin as (Hn1 & Hzt & Hn2).
  assert (Hzq : z ∈ Q c) by (rewrite EQ; set_solver). assert (Htq : t ∈ Q c) by (rewrite EQ; set_solver).
  destruct (rq_task _ _ H c z Hzq) as (tkz & [Hz _ _ _] & _).
  assert (Hfuel : (length l1 < size (tasks s))%nat).
  { assert (length (Q c) <= size (tasks s))%nat.
    { apply length_le_size; [by rewrite EQ|]. intros x Hx.
      destruct (rq_task _ _ H c x Hx) as (tkx & [Hx' _ _ _] & _). by exists tkx. }
    rewrite EQ, length_app in *. simpl in *. lia. }
  pose proof (cores_remove s t) as Hco. pose proof (rq_remove_unfold s t tk c cpu Ht Hr Hcpu Hc (rq_max_cpu _ _ _ _ H Hc)) as E.
  cbv zeta in E. rewrite decide_False in E.
  2: { rewrite Hhd. destruct l1 as [|w l1]; simpl; [congruence|]. intros [= ->]. apply Hn1. left. }
  rewrite (find_prev_spec (rq_next_of s) l1 z t l2) in E by done.
  assert (Hnx : forall x, rq_next_of (rq_remove s t) x =
    redirect (redirect (rq_next_of s) z (rq_next_of s t)) t None x).
  { intros x. rewrite E. erewrite rq_next_of_set_rq; [|cbn [tasks upd_cpu set_cpus]; by rewrite lookup_upd_task, decide_False].
    unfold redirect at 1 2. destruct (decide (x = t)); [done|].
    change (rq_next_of (upd_cpu ?a ?b ?u) x) with (rq_next_of u x).
    by rewrite (rq_next_of_set_rq_next _ _ _ _ tkz). }
  eapply (rq_unlink_ok Q s _ c cpu t (l1 ++ [z]) l2 (runqueue_head cpu) (last ((l1 ++ [z]) ++ l2))); try done.
  - by rewrite EQ, <- app_assoc.
  - by rewrite E.
  - intros x. rewrite E, on_rq_upd. cbn [tasks upd_cpu set_cpus]. rewrite lookup_upd_task. unfold on_rq.
    destruct (decide (x = t)) as [->|]; [rewrite decide_False by done; by rewrite Ht|].
    destruct (decide (x = z)) as [->|]; [by rewrite Hz|done].
  - intros c'. rewrite E. change (cpus (upd_task ?a ?b ?u)) with (cpus u). rewrite lookup_upd_cpu.
    destruct (decide (c' = c)) as [->|]; [|done]. change (cpus (upd_task ?a ?b s)) with (cpus s). rewrite Hc.
    cbn [fmap option_fmap option_map]. do 2 f_equal. rewrite Htl, EQ, <- app_assoc. simpl.
    rewrite !last_app_cons. destruct l2 as [|w l2]; [by rewrite decide_True|].
    rewrite decide_False; [done|]. intros Hl. change (last (w :: l2) = Some t) in Hl.
    apply last_Some in Hl as [l' El]. apply Hn2. rewrite El. set_solver.
  - eapply chain_ext; [intros x _; symmetry; apply Hnx|]. rewrite <- app_assoc. simpl.
    apply chain_redirect; [set_solver|]. by apply chain_unlink.
  - intros c' p Hne Hp. eapply chain_ext; [intros x _; symmetry; apply Hnx|].
    apply chain_redirect; [intros Hin'; apply Hne; by eapply rq_disjoint|].
    apply chain_redirect; [intros Hin'; apply Hne; by eapply rq_disjoint|done].
Qed.

(** Removing a task takes exactly that task out of its CPU's queue: the
    others stay in order, the links, tail, length and flags stay exact, and
    nothing else about any task changes. *)
Theorem rq_remove_spec Q s t tk :
  rq_ok s Q -> tasks s !! t = Some tk -> t_on_rq tk = true ->
  exists c l1 l2, Q c = l1 ++ t :: l2 /\ rq_ok (rq_remove s t) (upd_queue Q c (l1 ++ l2)) /\
    cores (rq_remove s t) = cores s.
Proof.
  intros H Ht Hr. destruct (rq_flag _ _ H t tk Ht Hr) as (c & Hcpu & Hin).
  destruct (cpus s !! c) as [cpu|] eqn:Hc;
    [|by rewrite (rq_none _ _ H c Hc) in Hin; apply not_elem_of_nil in Hin].
  destruct (list_elem_of_split _ _ Hin) as (l1 & l2 & EQ). exists c, l1, l2.
  split_and!; [done| |apply cores_remove].
  destruct l1 as [|z l1 _] using rev_ind; [by eapply rq_remove_first|].
  rewrite <- app_assoc in EQ. by eapply rq_remove_later.
Qed.

(** ** Scheduling *)

(** Updates of a task that is on no queue. *)
Lemma rq_ok_upd_off Q s t f :
  rq_ok s Q -> on_rq s t = false -> (forall tk, t_on_rq (f tk) = t_on_rq tk) -> rq_ok (upd_task t f s) Q.
Proof.
  intros H Hoff Hf.
  assert (Hne : forall c x, x ∈ Q c -> x <> t).
  { intros c x Hx ->. assert (on_rq s t = true) by (apply (on_rq_iff Q s t H); by exists c). congruence. }
  split.
  - intros c cpu Hc. destruct (rq_cpu _ _ H c cpu Hc) as (Hch & ? & ? & ?). split_and!; try done.
    eapply chain_ext; [|exact Hch]. intros x Hx. unfold rq_next_of. rewrite lookup_upd_task.
    by rewrite decide_False by (by eapply Hne).
  - apply H.
  - intros c x Hx. destruct (rq_task _ _ H c x Hx) as (tk & [? ? ? ?] & ? & ? & ?). exists tk.
    split_and!; try done. split; try done. rewrite lookup_upd_task.
    by rewrite decide_False by (by eapply Hne).
  - intros x tk Hx Hon. rewrite lookup_upd_task in Hx. case_decide as E; [subst x|by apply (rq_flag _ _ H)].
    destruct (tasks s !! t) as [tk0|] eqn:Ht; [|done]. injection Hx as <-. rewrite Hf in Hon.
    unfold on_rq in Hoff. rewrite Ht in Hoff. congruence.
  - apply H.
Qed.

Lemma rq_ok_set_current Q s c x : rq_ok s Q -> rq_ok (upd_cpu c (set_current_task x) s) Q.
Proof.
  intros H. split.
  - intros c' cpu Hc. rewrite lookup_upd_cpu in Hc. case_decide; [subst|by apply (rq_cpu _ _ H)].
    destruct (cpus s !! c) as [cpu0|] eqn:Hc0; [|done]. injection Hc as <-. exact (rq_cpu _ _ H c cpu0 Hc0).
  - intros c' Hc. apply (rq_none _ _ H). rewrite lookup_upd_cpu in Hc. case_decide; [|done].
    by destruct (cpus s !! c').
  - intros c' y Hy. destruct (rq_task _ _ H c' y Hy) as (tk & [? ? ? ?] & ?). by exists tk.
  - apply (rq_flag _ _ H).
  - intros c'. rewrite is_Some_upd_cpu. apply (rq_max _ _ H).
Qed.

Lemma state_of_cores s s' t : cores s' = cores s -> state_of s' t = state_of s t /\
  has_exited s' t = has_exited s t /\ sp_ok s' t = sp_ok s t.
Proof.
  intros E. unfold state_of, has_exited, sp_ok.
  destruct (tasks s !! t) as [tk|] eqn:Ht.
  - destruct (cores_lookup s s' t tk E Ht) as (tk' & -> & Hc). apply core_fields in Hc as (? & ? & ? & ? & _).
    simpl. split_and!; congruence.
  - assert (tasks s' !! t = None) as ->.
    { assert (H : cores s' !! t = None) by (rewrite E; unfold cores; by rewrite lookup_fmap, Ht).
      unfold cores in H. rewrite lookup_fmap in H. by destruct (tasks s' !! t). }
    done.
Qed.

Lemma runnable_cores s s' t :
  cores s' = cores s -> idle_tasks s' = idle_tasks s -> runnable s' t = runnable s t.
Proof.
  intros E Hi. unfold runnable, is_idle_task. destruct (state_of_cores s s' t E) as (-> & -> & _). by rewrite Hi.
Qed.

Lemma rq_ok_ext s Q Q' : (forall x, Q' x = Q x) -> rq_ok s Q -> rq_ok s Q'.
Proof.
  intros HQ [H1 H2 H3 H4 H5]. split; [..|exact H5].
  - intros c' cpu'. rewrite HQ. apply H1.
  - intros c'. rewrite HQ. apply H2.
  - intros c' x. rewrite HQ. apply H3.
  - intros x tk' Hx Hon. destruct (H4 x tk' Hx Hon) as (c' & ? & ?). exists c'. by rewrite HQ.
Qed.

(** Moving the current task to the tail of the queue. *)
Lemma requeue_current_ok Q s c cpu cur tk :
  rq_ok s Q -> cpus s !! c = Some cpu -> tasks s !! cur = Some tk ->
  (runnable s cur = true -> queueable s cur tk /\ t_on_cpu tk = Z.of_nat c) ->
  let s' := requeue_current s c cur in
  let again := runnable s cur && negb (on_rq s cur) in
  rq_ok s' (upd_queue Q c (Q c ++ if again then [cur] else [])) /\
  (exists cpu', cpus s' !! c = Some cpu') /\
  idle_tasks s' = idle_tasks s /\ g_smp_initialized s' = g_smp_initialized s /\
  (forall x tx, x <> cur -> tasks s !! x = Some tx -> exists tx', tasks s' !! x = Some tx' /\ core tx' = core tx) /\
  (again = true -> exists tk', tasks s' !! cur = Some tk' /\ core tk' = core (set_state TASK_READY tk)).
Proof.
  intros H Hc Ht Hq s' again.
  destruct again eqn:Ea; subst again.
  - unfold s', requeue_current. rewrite Ea. apply andb_true_iff in Ea as [Er Eo%negb_true_iff].
    destruct (Hq Er) as [[_ Hi Hl Hs] Hcpu].
    set (s1 := upd_task cur (set_state TASK_READY) s).
    assert (H1 : rq_ok s1 Q) by (by apply rq_ok_upd_off).
    assert (Ht1 : tasks s1 !! cur = Some (set_state TASK_READY tk))
      by (unfold s1; by rewrite lookup_upd_task, decide_True, Ht).
    assert (Hoff : t_on_rq tk = false) by (unfold on_rq in Eo; by rewrite Ht in Eo).
    assert (Hqb : queueable s1 cur (set_state TASK_READY tk)) by (by split).
    pose proof (rq_enqueue_ok Q s1 c cur cpu _ H1 Hc Hqb Hoff eq_refl Hcpu) as H2.
    destruct (rq_enqueue_links Q s1 c cur cpu _ H1 Hc Ht1 Hoff eq_refl) as (_ & _ & _ & Hcpus).
    pose proof (cores_enqueue s1 c cur) as Hco. destruct (idle_enqueue s1 c cur) as (Ei & Esm & _).
    split_and!; try done.
    + eexists. rewrite Hcpus, decide_True by done. done.
    + intros x tx Hne Hx.
      assert (Hx1 : tasks s1 !! x = Some tx) by (unfold s1; by rewrite lookup_upd_task, decide_False).
      destruct (cores_lookup _ _ x tx Hco Hx1) as (tx' & Hx' & Hcx). by exists tx'.
    + intros _. destruct (cores_lookup _ _ cur _ Hco Ht1) as (tk' & ? & ?). by exists tk'.
  - unfold s', requeue_current. rewrite Ea. split_and!; try done.
    + apply (rq_ok_ext s Q); [|done]. intros x. unfold upd_queue. case_decide; [subst; by rewrite app_nil_r|done].
    + by eexists.
    + intros x tx _ Hx. by exists tx.
Qed.

(** A switch: the first task of the queue runs, the current one goes to the tail
    if it can run and is not queued already. *)
Lemma sched_schedule_switch Q s c cpu cur tk n l :
  rq_ok s Q -> g_smp_initialized s = true -> cpus s !! c = Some cpu ->
  current_task cpu = Some cur -> tasks s !! cur = Some tk ->
  (runnable s cur = true -> queueable s cur tk /\ t_on_cpu tk = Z.of_nat c) ->
  Q c = n :: l -> n <> cur ->
  let again := runnable s cur && negb (on_rq s cur) in
  exists s' cpu' tn, sched_schedule s c = (s', Some (cur, n)) /\
    rq_ok s' (upd_queue Q c (l ++ if again then [cur] else [])) /\
    g_smp_initialized s' = true /\ cpus s' !! c = Some cpu' /\ current_task cpu' = Some n /\
    queueable s' n tn /\ t_state tn = TASK_RUNNING /\ t_on_cpu tn = Z.of_nat c /\ t_on_rq tn = false /\
    (again = true -> exists tk', tasks s' !! cur = Some tk' /\ core tk' = core (set_state TASK_READY tk)).
Proof.
  intros H Hsmp Hc Hcur Ht Hq EQ Hne again.
  pose proof (rq_dequeue_ok Q s c cpu H Hc) as Hd. rewrite EQ in Hd.
  destruct Hd as (s1 & Ed & H1 & Hoff & Hcpus).
  pose proof (cores_dequeue s c) as Hco. destruct (idle_dequeue s c) as (Hi & Hsm & _).
  rewrite Ed in Hco, Hi, Hsm. cbn [fst] in Hco, Hi, Hsm.
  assert (Hnq : n ∈ Q c) by (rewrite EQ; left).
  destruct (rq_task _ _ H c n Hnq) as (tkn & Hqn & Hon & Hcpn & Hstn).
  destruct (cores_lookup s s1 n tkn Hco (qb_task _ _ _ Hqn)) as (tkn1 & Hn1 & Hcn1).
  destruct (cores_lookup s s1 cur tk Hco Ht) as (tk1 & Ht1 & Hct1).
  destruct (state_of_cores s s1 n Hco) as (Es1 & _ & Ep1).
  pose proof (queueable_core s s1 n tkn tkn1 Hqn Hn1 Hcn1 Hi) as Hqn1.
  pose proof (core_fields _ _ Hct1) as (Fst & Fcpu & Fex & Fsp & _).
  unfold sched_schedule. rewrite Hsmp, Hc, Hcur, Ed. cbn [negb].
  rewrite decide_False by congruence. rewrite decide_False by done.
  assert (Hck : check_next s1 c cpu n = (s1, Some n)).
  { unfold check_next. rewrite Ep1, Es1. unfold sp_ok, state_of.
    rewrite (qb_task _ _ _ Hqn), (qb_sp _ _ _ Hqn). cbn. rewrite Hstn. by rewrite bool_decide_false. }
  rewrite Hck. rewrite bool_decide_false by done. unfold sp_ok at 1. rewrite Hn1, (qb_sp _ _ _ Hqn1).
  cbn [orb negb].
  assert (Hoc : on_rq s1 cur = on_rq s cur).
  { apply eq_true_iff_eq. rewrite (on_rq_iff _ _ _ H), (on_rq_iff _ _ _ H1). unfold upd_queue.
    split; intros [x Hx]; exists x; case_decide; subst; try done; rewrite EQ in *; set_solver. }
  destruct (requeue_current_ok (upd_queue Q c l) s1 c (set_queue (head l) (last l) (u32 (runqueue_length cpu - 1)) cpu) cur tk1)
    as (H2 & (cpu2 & Hc2) & Hi2 & Hsm2 & Hoth & Hself); [done|by rewrite Hcpus, decide_True|done| |].
  { rewrite (runnable_cores s s1 cur Hco Hi). intros Hr. destruct (Hq Hr) as [Hqb Hcp].
    split; [by eapply queueable_core|congruence]. }
  rewrite (runnable_cores s s1 cur Hco Hi), Hoc in H2, Hself. fold again in H2, Hself.
  rewrite upd_queue_eq in H2. set (s2 := requeue_current s1 c cur) in *.
  destruct (Hoth n tkn1 Hne Hn1) as (tkn2 & Hn2 & Hcn2).
  pose proof (queueable_core s1 s2 n tkn1 tkn2 Hqn1 Hn2 Hcn2 Hi2) as Hqn2.
  pose proof (core_fields _ _ Hcn2) as (_ & Fc2 & _). pose proof (core_fields _ _ Hcn1) as (_ & Fc1 & _).
  assert (Hnd : n ∉ l) by (destruct (rq_cpu _ _ H c cpu Hc) as (_ & _ & _ & Hnd); rewrite EQ in Hnd; by apply NoDup_cons in Hnd as [? _]).
  assert (H2' : rq_ok s2 (upd_queue Q c (l ++ if again then [cur] else []))).
  { eapply rq_ok_ext; [|exact H2]. intros x. unfold upd_queue. by destruct (decide (x = c)). }
  assert (Hoff2 : on_rq s2 n = false).
  { apply not_true_iff_false. rewrite (on_rq_iff _ _ _ H2'). intros [x Hx].
    destruct (decide (x = c)) as [->|E]; [rewrite upd_queue_eq in Hx|rewrite upd_queue_ne in Hx by done].
    - apply elem_of_app in Hx as [?|Hx]; [done|]. destruct again; [|by apply not_elem_of_nil in Hx].
      by apply list_elem_of_singleton in Hx.
    - apply E. by apply (rq_disjoint Q s x c n). }
  eexists _, (set_current_task (Some n) cpu2), (set_running tkn2). split; [done|]. split_and!; try done.
  - apply rq_ok_upd_off; [|exact Hoff2|done]. by apply rq_ok_set_current.
  - cbn. congruence.
  - cbn [cpus upd_task set_tasks]. rewrite lookup_upd_cpu, decide_True by done. by rewrite Hc2.
  - destruct Hqn2 as [Ha Hb Hl Hs]. split; try done. rewrite lookup_upd_task, decide_True by done.
    cbn [tasks upd_cpu set_cpus]. by rewrite Ha.
  - cbn. congruence.
  - unfold on_rq in Hoff2. by rewrite Hn2 in Hoff2.
  - intros Hag. destruct (Hself Hag) as (tk' & Htk' & Hck'). exists tk'.
    rewrite lookup_upd_task, decide_False by done. split; [done|]. rewrite Hck'.
    change (set_state TASK_READY (core tk1) = set_state TASK_READY (core tk)). by rewrite Hct1.
Qed.

(** CPU [c] runs task [cur], which is on no queue. *)
Definition runs (s : sched) (c cur : nat) : Prop :=
  exists cpu tk, cpus s !! c = Some cpu /\ current_task cpu = Some cur /\ queueable s cur tk /\
    t_on_cpu tk = Z.of_nat c /\ t_on_rq tk = false.

Lemma yield_step Q s c cur n l :
  rq_ok s Q -> g_smp_initialized s = true -> runs s c cur -> Q c = n :: l ->
  let s' := (sched_yield_in_kernel s c).1 in
  rq_ok s' (upd_queue Q c (l ++ [cur])) /\ g_smp_initialized s' = true /\ runs s' c n.
Proof.
  intros H Hsmp (cpu & tk & Hc & Hcur & Hqb & Hcpu & Hoff) EQ s'.
  pose proof (qb_task _ _ _ Hqb) as Ht.
  unfold s', sched_yield_in_kernel. rewrite Hc. cbn [mbind option_bind]. rewrite Hcur.
  set (f := fun tk => set_slice 0 (t_need_resched tk) (set_state TASK_READY tk)).
  set (s1 := upd_task cur f s).
  assert (Hoff' : on_rq s cur = false) by (unfold on_rq; by rewrite Ht).
  assert (H1 : rq_ok s1 Q) by (by apply rq_ok_upd_off).
  assert (Ht1 : tasks s1 !! cur = Some (f tk)) by (unfold s1; by rewrite lookup_upd_task, decide_True, Ht).
  assert (Hqb1 : queueable s1 cur (f tk)) by (destruct Hqb; by split).
  assert (Hrun : runnable s1 cur = true).
  { unfold runnable, has_exited, state_of, is_idle_task. rewrite Ht1. cbn [f t_has_exited set_slice set_state fmap option_fmap option_map t_state].
    rewrite (qb_live _ _ _ Hqb), bool_decide_true by done. cbn [orb negb andb].
    rewrite bool_decide_false; [done|]. apply Hqb. }
  assert (Hoff1 : on_rq s1 cur = false) by (unfold on_rq; by rewrite Ht1).
  assert (Hne : n <> cur).
  { intros ->. assert (on_rq s cur = true) by (apply (on_rq_iff Q s cur H); exists c; rewrite EQ; left). congruence. }
  destruct (sched_schedule_switch Q s1 c cpu cur (f tk) n l) as
    (s2 & cpu2 & tn & -> & H2 & Hsm2 & Hc2 & Hcur2 & Hqn & _ & Hcpn & Hoffn & _); try done.
  rewrite Hrun, Hoff1 in H2. cbn [andb negb fst] in *. split_and!; [done|done|].
  by exists cpu2, tn.
Qed.

(** C16.  Round-robin scheduling with bounded waiting: when the tasks on a CPU
    give up their time slice, the task at position [i] of the run queue runs
    after [i + 1] yields, and the queues of all CPUs stay well formed. *)
Theorem sched_round_robin Q s c cur i t :
  rq_ok s Q -> g_smp_initialized s = true -> runs s c cur -> Q c !! i = Some t ->
  let s' := Nat.iter (S i) (fun s => (sched_yield_in_kernel s c).1) s in
  runs s' c t /\ rq_ok s' (upd_queue Q c (drop (S i) (Q c) ++ cur :: take i (Q c))).
Proof.
  revert Q s cur. induction i as [|i IH]; intros Q s cur H Hsmp Hrun Hi.
  - destruct (Q c) as [|n l] eqn:EQ; [done|]. injection Hi as <-.
    destruct (yield_step Q s c cur n l H Hsmp Hrun EQ) as (H' & _ & Hr). split; [exact Hr|].
    cbn [drop take]. by rewrite drop_0.
  - destruct (Q c) as [|n l] eqn:EQ; [done|]. cbn [lookup list_lookup] in Hi. cbv zeta. rewrite Nat.iter_succ_r.
    destruct (yield_step Q s c cur n l H Hsmp Hrun EQ) as (H' & Hsm & Hr).
    destruct (IH (upd_queue Q c (l ++ [cur])) _ n H' Hsm Hr) as [Hr' H''].
    { rewrite upd_queue_eq. by rewrite lookup_app_l by (by eapply lookup_lt_Some). }
    split; [done|]. eapply rq_ok_ext; [|exact H'']. intros x. unfold upd_queue. case_decide; [|done].
    rewrite decide_True by done. pose proof (lookup_lt_Some _ _ _ Hi).
    rewrite drop_app_le, take_app_le by lia. cbn [drop take]. by rewrite <- app_assoc.
Qed.

(** ** Wake-ups *)

Definition blocked_on (s : sched) (ch t : nat) : bool :=
  match tasks s !! t with
  | Some tk => bool_decide (t_state tk = TASK_BLOCKED) && bool_decide (t_wait_channel tk = Some ch)
  | None => false
  end.

Definition make_ready (tk : task) : task := set_wait None (t_wakeup_tick tk) (set_state TASK_READY tk).
Definition make_all_ready (W : list nat) (s : sched) : sched :=
  foldl (fun s t => upd_task t make_ready s) s W.

Definition cpu_of (s : sched) (t : nat) : option Z := t_on_cpu <$> tasks s !! t.

Lemma lookup_make_all_ready W s x :
  tasks (make_all_ready W s) !! x = if decide (x ∈ W) then make_ready <$> tasks s !! x else tasks s !! x.
Proof.
  unfold make_all_ready. revert s. induction W as [|t W IH]; intros s; simpl; [done|].
  rewrite IH, lookup_upd_task. destruct (decide (x = t)) as [->|Hne].
  - rewrite (decide_True (P := t ∈ t :: W)) by left. destruct (decide (t ∈ W)); [|done].
    by destruct (tasks s !! t).
  - destruct (decide (x ∈ W)) as [Hin|Hin].
    + by rewrite decide_True by (by right).
    + by rewrite decide_False by (by intros [?|?]%elem_of_cons).
Qed.

Lemma make_all_ready_frame W s :
  cpus (make_all_ready W s) = cpus s /\ idle_tasks (make_all_ready W s) = idle_tasks s /\
  g_smp_initialized (make_all_ready W s) = g_smp_initialized s.
Proof.
  unfold make_all_ready. revert s. induction W as [|t W IH]; intros s; simpl; [done|].
  by destruct (IH (upd_task t make_ready s)) as (-> & -> & ->).
Qed.

Lemma filter_ext_in {A} (f g : A -> bool) (l : list A) :
  (forall x, x ∈ l -> f x = g x) ->
  filter (fun x => f x = true) l = filter (fun x => g x = true) l.
Proof.
  induction l as [|x l IH]; intros H; [done|]. rewrite !filter_cons.
  rewrite IH by (intros y Hy; apply H; by right).
  destruct (decide (f x = true)) as [E|E]; rewrite (H x ltac:(left)) in E.
  - by rewrite decide_True.
  - by rewrite decide_False.
Qed.

Lemma wake_loop_spec ch L : forall fuel s p room,
  chain (t_next_of s) p L -> NoDup L -> (length L <= fuel)%nat -> (forall x, x ∈ L -> is_Some (tasks s !! x)) ->
  let W := filter (fun t => blocked_on s ch t = true) L in
  wake_loop fuel s p ch room = (make_all_ready W s, take room W).
Proof.
  induction L as [|x L IH]; intros fuel s p room Hch Hnd Hf Hex.
  { simpl in Hch. subst p. change (filter _ []) with (@nil nat). cbv zeta. rewrite take_nil. by destruct fuel. }
  destruct Hch as [-> Hch]. apply NoDup_cons in Hnd as [Hx Hnd]. destruct fuel as [|fuel]; [simpl in Hf; lia|].
  simpl in Hf. destruct (Hex x) as [tk Htk]; [left|]. cbn [wake_loop]. rewrite Htk.
  rewrite filter_cons.
  assert (Hb : blocked_on s ch x = bool_decide (t_state tk = TASK_BLOCKED) &&
    bool_decide (t_wait_channel tk = Some ch)) by (unfold blocked_on; by rewrite Htk).
  assert (Hnx : t_next_of s x = t_next tk) by (unfold t_next_of; by rewrite Htk). rewrite Hnx in Hch.
  destruct (decide (blocked_on s ch x = true)) as [Hyb|Hyb%not_true_iff_false]; rewrite <- Hb, Hyb.
  - set (s1 := upd_task x make_ready s).
    assert (Hsame : forall y, y ∈ L -> tasks s1 !! y = tasks s !! y).
    { intros y Hy. unfold s1. rewrite lookup_upd_task, decide_False; [done|]. by intros ->. }
    assert (Hch1 : chain (t_next_of s1) (t_next tk) L).
    { eapply chain_ext; [|exact Hch]. intros y Hy. unfold t_next_of. by rewrite Hsame. }
    assert (HW : filter (fun t => blocked_on s1 ch t = true) L = filter (fun t => blocked_on s ch t = true) L).
    { apply filter_ext_in. intros y Hy. unfold blocked_on. by rewrite Hsame. }
    assert (Hex1 : forall y, y ∈ L -> is_Some (tasks s1 !! y)).
    { intros y Hy. rewrite Hsame by done. apply Hex. by right. }
    change (upd_task x (fun tk => set_wait None (t_wakeup_tick tk) (set_state TASK_READY tk)) s) with s1.
    destruct room as [|room].
    + pose proof (IH fuel s1 (t_next tk) 0%nat Hch1 Hnd ltac:(lia) Hex1) as E. cbv zeta in E. rewrite HW in E. exact E.
    + pose proof (IH fuel s1 (t_next tk) room Hch1 Hnd ltac:(lia) Hex1) as E. cbv zeta in E. rewrite HW in E.
      rewrite E. done.
  - apply IH; [done|done|lia|]. intros y Hy. apply Hex. by right.
Qed.

Lemma rq_ok_same s s' Q :
  tasks s' = tasks s -> cpus s' = cpus s -> idle_tasks s' = idle_tasks s -> rq_ok s Q -> rq_ok s' Q.
Proof.
  intros Et Ec Ei [H1 H2 H3 H4 H5]. split; rewrite ?Et, ?Ec; [..|exact H5].
  - intros c cpu Hc. destruct (H1 c cpu Hc) as (Hch & ?). split; [|done].
    eapply chain_ext; [|exact Hch]. intros x _. unfold rq_next_of. by rewrite Et.
  - done.
  - intros c t Ht. destruct (H3 c t Ht) as (tk & [? ? ? ?] & ?). exists tk. split; [split; congruence|done].
  - done.
Qed.

(** A READY task that can be enqueued on an existing CPU. *)
Definition enqueueable (s : sched) (t : nat) : Prop :=
  exists tk c cpu, queueable s t tk /\ t_on_cpu tk = Z.of_nat c /\ cpus s !! c = Some cpu.

Lemma sched_enqueue_ready_ok me Q s t tk c cpu :
  rq_ok s Q -> queueable s t tk -> t_on_cpu tk = Z.of_nat c -> cpus s !! c = Some cpu ->
  t_state tk = TASK_READY -> t_on_rq tk = false ->
  let s' := sched_enqueue_ready me s t in
  rq_ok s' (upd_queue Q c (Q c ++ [t])) /\ cores s' = cores s /\ idle_tasks s' = idle_tasks s /\
  (forall c', is_Some (cpus s' !! c') <-> is_Some (cpus s !! c')) /\
  (forall x, on_rq s' x = if decide (x = t) then true else on_rq s x).
Proof.
  intros H Hqb Hcpu Hc Hst Hoff. unfold sched_enqueue_ready.
  unfold is_idle_task. rewrite bool_decide_false by apply Hqb. rewrite (qb_task _ _ _ Hqb).
  rewrite Hcpu, (percpu_get_ok s c cpu) by (done || by eapply rq_max_cpu).
  rewrite Hoff, bool_decide_true by done. cbn [negb andb].
  pose proof (rq_enqueue_ok Q s c t cpu tk H Hc Hqb Hoff Hst Hcpu) as H1.
  destruct (rq_enqueue_links Q s c t cpu tk H Hc (qb_task _ _ _ Hqb) Hoff Hst) as (_ & _ & Hon & Hcpus).
  destruct (idle_enqueue s c t) as (Hi & _). pose proof (cores_enqueue s c t) as Hco.
  set (s1 := rq_enqueue_locked s c t) in *.
  assert (Hdom : forall c', is_Some (cpus s1 !! c') <-> is_Some (cpus s !! c')).
  { intros c'. rewrite Hcpus. case_decide; [subst; by rewrite Hc|done]. }
  destruct (g_smp_initialized s1 && negb (c =? me)%nat); [|done].
  split_and!; try done. by apply (rq_ok_same s1).
Qed.

Lemma enqueue_all_ok me V : forall Q s,
  rq_ok s Q -> NoDup V ->
  (forall t, t ∈ V -> enqueueable s t /\ state_of s t = Some TASK_READY /\ on_rq s t = false) ->
  let s' := foldl (sched_enqueue_ready me) s V in
  rq_ok s' (fun c => Q c ++ filter (fun t => cpu_of s t = Some (Z.of_nat c)) V) /\ cores s' = cores s.
Proof.
  induction V as [|t V IH]; intros Q s H Hnd HV; cbn [foldl].
  { split; [|done]. eapply rq_ok_ext; [|exact H]. intros x. by rewrite app_nil_r. }
  apply NoDup_cons in Hnd as [Htn Hnd].
  destruct (HV t) as ((tk & c & cpu & Hqb & Hcpu & Hc) & Hst & Hoff); [left|].
  pose proof (qb_task _ _ _ Hqb) as Ht. unfold state_of in Hst. rewrite Ht in Hst. injection Hst as Hst.
  unfold on_rq in Hoff. rewrite Ht in Hoff.
  destruct (sched_enqueue_ready_ok me Q s t tk c cpu H Hqb Hcpu Hc Hst Hoff) as (H1 & Hco & Hi & Hdom & Hon).
  set (s1 := sched_enqueue_ready me s t) in *.
  assert (Hcpu_of : forall x, cpu_of s1 x = cpu_of s x).
  { intros x. unfold cpu_of. destruct (tasks s !! x) as [tx|] eqn:Hx.
    - destruct (cores_lookup s s1 x tx Hco Hx) as (tx' & -> & Hcx). apply core_fields in Hcx as (_ & E & _).
      simpl. by rewrite E.
    - destruct (state_of_cores s s1 x Hco) as (E & _). unfold state_of in E. rewrite Hx in E.
      by destruct (tasks s1 !! x). }
  destruct (IH (upd_queue Q c (Q c ++ [t])) s1 H1 Hnd) as [H2 Hco2].
  { intros x Hx. destruct (HV x) as ((tx & cx & cpx & Hqx & Hcx & Hcpx) & Hsx & Hox); [by right|].
    destruct (cores_lookup s s1 x tx Hco (qb_task _ _ _ Hqx)) as (tx' & Hx' & Hcr).
    split_and!.
    - destruct (proj2 (Hdom cx) ltac:(by eexists)) as [cpx' Hcpx'].
      exists tx', cx, cpx'. split_and!; [by eapply queueable_core| |done].
      apply core_fields in Hcr as (_ & E & _). congruence.
    - destruct (state_of_cores s s1 x Hco) as (-> & _). done.
    - rewrite Hon, decide_False; [done|]. by intros ->. }
  split; [|congruence]. eapply rq_ok_ext; [|exact H2]. intros x. cbv beta.
  rewrite filter_cons.
  rewrite (list_filter_iff (fun y => cpu_of s1 y = Some (Z.of_nat x)) (fun y => cpu_of s y = Some (Z.of_nat x)) V)
    by (intros y; by rewrite Hcpu_of).
  assert (Ect : cpu_of s t = Some (Z.of_nat c)) by (unfold cpu_of; rewrite Ht; simpl; by rewrite Hcpu).
  unfold upd_queue. destruct (decide (x = c)) as [->|Hne].
  - rewrite decide_True by done. by rewrite <- app_assoc.
  - rewrite decide_False; [done|]. rewrite Ect. intros [=]. lia.
Qed.

Lemma make_all_ready_rq Q s W :
  rq_ok s Q -> (forall t, t ∈ W -> on_rq s t = false) -> rq_ok (make_all_ready W s) Q.
Proof.
  unfold make_all_ready. revert s. induction W as [|t W IH]; intros s H HW; [done|]. simpl. apply IH.
  - apply rq_ok_upd_off; [done|apply HW; left|done].
  - intros x Hx. rewrite on_rq_upd. specialize (HW x ltac:(by right)). unfold on_rq in HW.
    destruct (tasks s !! x); [|done]. by case_decide.
Qed.

(** The wake-up as an update of the queues: every waiter becomes READY, the
    first 16 are enqueued. *)
Lemma sched_wake_channel_ok me Q s ch L :
  rq_ok s Q -> chain (t_next_of s) (g_task_list_head s) L -> NoDup L ->
  (forall t, t ∈ L -> is_Some (tasks s !! t)) ->
  let W := filter (fun t => blocked_on s ch t = true) L in
  (forall t, t ∈ W -> enqueueable s t) ->
  let s' := sched_wake_channel me s (Some ch) in
  rq_ok s' (fun c => Q c ++ filter (fun t => cpu_of s t = Some (Z.of_nat c)) (take MAX_WAKE W)) /\
  cores s' = cores (make_all_ready W s).
Proof.
  intros H Hch Hnd Hex W HW s'. unfold s', sched_wake_channel.
  assert (Hfuel : (length L <= size (tasks s))%nat) by (by apply length_le_size).
  rewrite (wake_loop_spec ch L (size (tasks s)) s _ MAX_WAKE Hch Hnd Hfuel Hex). fold W.
  set (s1 := make_all_ready W s). destruct (make_all_ready_frame W s) as (Ec & Ei & _). fold s1 in Ec, Ei.
  assert (Hblk : forall t, t ∈ W -> exists tk, tasks s !! t = Some tk /\ t_state tk = TASK_BLOCKED).
  { intros t [Hb Hin]%list_elem_of_filter. unfold blocked_on in Hb. destruct (tasks s !! t) as [tk|]; [|done].
    apply andb_true_iff in Hb as [Hb _]. apply bool_decide_eq_true_1 in Hb. by exists tk. }
  assert (Hoff : forall t, t ∈ W -> on_rq s t = false).
  { intros t Ht. destruct (Hblk t Ht) as (tk & Htk & Hst). apply not_true_iff_false.
    rewrite (on_rq_iff Q s t H). intros [c Hc]. destruct (rq_task _ _ H c t Hc) as (tk' & [Htk' _ _ _] & _ & _ & Hst').
    congruence. }
  pose proof (make_all_ready_rq Q s W H Hoff) as H1. fold s1 in H1.
  assert (HndW : NoDup W) by (by apply NoDup_filter).
  assert (Hsub : forall t, t ∈ take MAX_WAKE W -> t ∈ W) by (intros t Ht; by eapply subseteq_take).
  destruct (enqueue_all_ok me (take MAX_WAKE W) Q s1 H1) as [H2 Hco].
  { eapply sublist_NoDup; [exact HndW|apply sublist_take]. }
  { intros t Ht%Hsub. destruct (HW t Ht) as (tk & c & cpu & [Htk Hid Hlv Hsp] & Hcpu & Hc).
    assert (Ht1 : tasks s1 !! t = Some (make_ready tk)) by (unfold s1; by rewrite lookup_make_all_ready, decide_True, Htk).
    split_and!.
    - exists (make_ready tk), c, cpu. split_and!; [split; try done; by rewrite Ei|done|by rewrite Ec].
    - unfold state_of. by rewrite Ht1.
    - specialize (Hoff t Ht). unfold on_rq in *. rewrite Ht1. by rewrite Htk in Hoff. }
  split; [|exact Hco]. eapply rq_ok_ext; [|exact H2]. intros c. cbv beta. f_equal.
  apply list_filter_iff. intros y. unfold cpu_of, s1. rewrite lookup_make_all_ready.
  case_decide; [|done]. by destruct (tasks s !! y).
Qed.

(**  Waking a channel with at most 16 waiters: every task blocked on the
    channel becomes READY and is appended to the run queue of its CPU, in task
    list order; no task stays blocked on the channel; every other task keeps its
    state; the queues stay well formed. *)
Theorem sched_wake_channel_wakes me Q s ch L :
  rq_ok s Q -> chain (t_next_of s) (g_task_list_head s) L -> NoDup L ->
  (forall t, t ∈ L -> is_Some (tasks s !! t)) ->
  let W := filter (fun t => blocked_on s ch t = true) L in
  (forall t, t ∈ W -> enqueueable s t) -> (length W <= MAX_WAKE)%nat ->
  let s' := sched_wake_channel me s (Some ch) in
  rq_ok s' (fun c => Q c ++ filter (fun t => cpu_of s t = Some (Z.of_nat c)) W) /\
  (forall t, t ∈ W -> state_of s' t = Some TASK_READY /\ on_rq s' t = true) /\
  (forall t, t ∈ L -> blocked_on s' ch t = false) /\
  (forall t, t ∉ W -> state_of s' t = state_of s t).
Proof.
  intros H Hch Hnd Hex W HW Hlen s'.
  destruct (sched_wake_channel_ok me Q s ch L H Hch Hnd Hex HW) as [H2 Hco]. fold W in H2, Hco.
  rewrite take_ge in H2 by done. fold s' in H2, Hco.
  assert (Hst : forall t, state_of s' t = if decide (t ∈ W) then (fun _ => TASK_READY) <$> state_of s t else state_of s t).
  { intros t. destruct (state_of_cores _ s' t Hco) as (-> & _). unfold state_of. rewrite lookup_make_all_ready.
    case_decide; [|done]. by destruct (tasks s !! t). }
  split_and!; [done| | |].
  - intros t Ht. destruct (HW t Ht) as (tk & c & cpu & Hqb & Hcpu & Hc). split.
    + rewrite Hst, decide_True by done. unfold state_of. by rewrite (qb_task _ _ _ Hqb).
    + apply (on_rq_iff _ _ _ H2). exists c. apply elem_of_app. right. apply list_elem_of_filter. split; [|done].
      unfold cpu_of. rewrite (qb_task _ _ _ Hqb). simpl. by rewrite Hcpu.
  - intros t Ht. destruct (blocked_on s' ch t) eqn:E; [|done]. exfalso. unfold blocked_on in E.
    destruct (tasks s' !! t) as [tk'|] eqn:Ht'; [|done]. apply andb_true_iff in E as [E1%bool_decide_eq_true_1 E2%bool_decide_eq_true_1].
    destruct (cores_lookup s' _ t tk' (eq_sym Hco) Ht') as (tk1 & Ht1 & Hc1).
    apply core_fields in Hc1 as (F1 & _ & _ & _ & F5 & _). rewrite lookup_make_all_ready in Ht1.
    destruct (decide (t ∈ W)) as [Hin|Hout]; [destruct (tasks s !! t); [|done]; injection Ht1 as <-; cbn in F1; congruence|].
    apply Hout. apply list_elem_of_filter. split; [|done]. unfold blocked_on. rewrite Ht1.
    by rewrite !bool_decide_true by congruence.
  - intros t Ht. by rewrite Hst, decide_False.
Qed.

(** With more than 16 waiters the 17th and later ones become READY but are put
    on no run queue; being READY, they are skipped by every later wake-up of a
    blocked task. *)
Lemma sched_wake_channel_strands me Q s ch L :
  rq_ok s Q -> chain (t_next_of s) (g_task_list_head s) L -> NoDup L ->
  (forall t, t ∈ L -> is_Some (tasks s !! t)) ->
  let W := filter (fun t => blocked_on s ch t = true) L in
  (forall t, t ∈ W -> enqueueable s t) ->
  let s' := sched_wake_channel me s (Some ch) in
  forall i t, (MAX_WAKE <= i)%nat -> W !! i = Some t ->
    state_of s' t = Some TASK_READY /\ on_rq s' t = false.
Proof.
  intros H Hch Hnd Hex W HW s' i t Hi Ht.
  destruct (sched_wake_channel_ok me Q s ch L H Hch Hnd Hex HW) as [H2 Hco]. fold W s' in H2, Hco.
  assert (HtW : t ∈ W) by (by eapply list_elem_of_lookup_2).
  destruct (HW t HtW) as (tk & c & cpu & Hqb & _). split.
  - destruct (state_of_cores _ s' t Hco) as (-> & _). unfold state_of. rewrite lookup_make_all_ready, decide_True by done.
    by rewrite (qb_task _ _ _ Hqb).
  - apply not_true_iff_false. rewrite (on_rq_iff _ _ _ H2). intros [c' [Hc'|Hc']%elem_of_app].
    + destruct (rq_task _ _ H c' t Hc') as (tk' & [Htk' _ _ _] & _ & _ & Hst).
      apply list_elem_of_filter in HtW as [Hb _]. unfold blocked_on in Hb. rewrite Htk' in Hb.
      apply andb_true_iff in Hb as [Hb%bool_decide_eq_true_1 _]. congruence.
    + apply list_elem_of_filter in Hc' as [_ [j Hj]%list_elem_of_lookup].
      apply lookup_take_Some in Hj as [Hj Hlt].
      assert (HndW : NoDup W) by (by apply NoDup_filter).
      assert (i = j) by (by eapply (NoDup_lookup W)). lia.
Qed.

(** ** Load balancing *)

Lemma queue_fits Q s c : rq_ok s Q -> NoDup (Q c) -> (length (Q c) <= size (tasks s))%nat.
Proof.
  intros H Hnd. apply length_le_size; [done|]. intros x Hx.
  destruct (rq_task _ _ H c x Hx) as (tk & [Hx' _ _ _] & _). by exists tk.
Qed.

Lemma find_migratable_spec s me : forall fuel l prev p,
  chain (rq_next_of s) p l -> (length l <= fuel)%nat ->
  match find_migratable fuel s me prev p with
  | Some (pr, t) => exists l1 l2, l = l1 ++ t :: l2 /\ migratable s me t = true /\
      pr = match last l1 with Some y => Some y | None => prev end
  | None => forall t, t ∈ l -> migratable s me t = false
  end.
Proof.
  induction fuel as [|fuel IH]; intros l prev p Hch Hf;
    (destruct l as [|x l]; simpl in Hch, Hf; [subst p; try destruct fuel; by intros ? ?%not_elem_of_nil|]); [lia|].
  destruct Hch as [-> Hch]. cbn [find_migratable]. destruct (migratable s me x) eqn:Ec; [by exists [], l|].
  specialize (IH l (Some x) _ Hch ltac:(lia)).
  destruct (find_migratable fuel s me (Some x) (rq_next_of s x)) as [[pr t]|].
  - destruct IH as (l1 & l2 & -> & Hm & ->). exists (x :: l1), l2. split_and!; try done.
    destruct l1 as [|y l1]; [done|]. change (last (x :: y :: l1)) with (last (y :: l1)).
    by destruct (last (y :: l1)) eqn:E; [|apply last_None in E].
  - intros t [->|]%elem_of_cons; auto.
Qed.

(** Unlinking a task found with its predecessor. *)
Lemma rq_unlink_prev Q s c cpu t l1 l2 :
  rq_ok s Q -> cpus s !! c = Some cpu -> Q c = l1 ++ t :: l2 ->
  let nx := rq_next_of s t in
  let s1 := match last l1 with Some p => upd_task p (set_rq_next nx) s | None => s end in
  let h := match last l1 with Some _ => runqueue_head cpu | None => nx end in
  let tl := if decide (runqueue_tail cpu = Some t) then last l1 else runqueue_tail cpu in
  let s2 := upd_task t (set_rq false None)
              (upd_cpu c (set_queue h tl (u32 (runqueue_length cpu - 1))) s1) in
  rq_ok s2 (upd_queue Q c (l1 ++ l2)) /\ cores s2 = cores s.
Proof.
  intros H Hc EQ nx s1 h tl s2.
  assert (Htq : t ∈ Q c) by (rewrite EQ; set_solver).
  destruct (rq_task _ _ H c t Htq) as (tk & [Ht _ _ _] & Hr & Hcpu & _).
  assert (Hcore : cores s2 = cores s).
  { unfold s2. rewrite cores_upd_rq by done. rewrite cores_upd_cpu. unfold s1. destruct (last l1); [|done].
    by rewrite cores_upd_rq. }
  split; [|done].
  destruct (rq_cpu _ _ H c cpu Hc) as (Hch & Htl & _ & Hnd).
  pose proof (rq_remove_unfold s t tk c cpu Ht Hr Hcpu Hc (rq_max_cpu _ _ _ _ H Hc)) as E. cbv zeta in E. fold nx in E.
  assert (Es2 : s2 = rq_remove s t).
  { rewrite E. unfold s2, s1, h, tl. rewrite EQ in Hch, Hnd, Htl. pose proof (chain_head _ _ _ Hch) as Hhd.
    destruct l1 as [|z l1 _] using rev_ind.
    - simpl in Hhd. rewrite (decide_True (P := runqueue_head cpu = Some t)) by done. do 3 f_equal. cbn [last].
      destruct Hch as [_ Hch]. fold nx in Hch. pose proof (chain_head _ _ _ Hch) as Hn2. simpl in Htl.
      rewrite Hn2, Htl. destruct l2 as [|w l2]; [by rewrite decide_True|]. rewrite decide_False; [done|].
      intros Hl. simpl in Hnd. apply NoDup_cons in Hnd as [Hnd _]. apply last_Some in Hl as [l' El].
      destruct l' as [|x l']; [done|]. injection El as _ El. apply Hnd. rewrite El. set_solver.
    - rewrite last_snoc. rewrite <- app_assoc in Hch, Hnd, Htl, Hhd. simpl in Hch, Hnd, Htl, Hhd.
      assert (Hfuel : (length l1 < size (tasks s))%nat).
      { assert (length (Q c) <= size (tasks s))%nat.
        { apply length_le_size; [rewrite EQ, <- app_assoc; done|]. intros x Hx.
          destruct (rq_task _ _ H c x Hx) as (tkx & [Hx' _ _ _] & _). by exists tkx. }
        rewrite EQ, <- app_assoc, length_app in *. simpl in *. lia. }
      rewrite (decide_False (P := runqueue_head cpu = Some t)); [by rewrite (find_prev_spec (rq_next_of s) l1 z t l2)|].
      rewrite Hhd. destruct l1 as [|w l1]; simpl in *; intros [= ->]; apply NoDup_cons in Hnd as [Hnd _]; apply Hnd; set_solver. }
  rewrite Es2. destruct l1 as [|z l1 _] using rev_ind; [by eapply rq_remove_first|].
  rewrite <- app_assoc in EQ. by eapply rq_remove_later.
Qed.

Lemma find_busiest_spec s me cs best len c n :
  find_busiest s me cs best len = (c, n) ->
  (c = best /\ n = len \/ c <> me /\ exists cpu, cpus s !! c = Some cpu /\ runqueue_length cpu = n) /\ len <= n /\
  (forall x cpu, x ∈ cs -> x <> me -> cpus s !! x = Some cpu -> runqueue_length cpu <= n).
Proof.
  revert best len. induction cs as [|x cs IH]; intros best len Hf; simpl in Hf.
  { injection Hf as <- <-. split_and!; [by left|lia|by intros ? ? ?%not_elem_of_nil]. }
  assert (Hskip : (forall cpu, x <> me -> cpus s !! x = Some cpu -> runqueue_length cpu <= len) ->
    forall y cpu, len <= n -> (forall z cpu, z ∈ cs -> z <> me -> cpus s !! z = Some cpu -> runqueue_length cpu <= n) ->
    y ∈ x :: cs -> y <> me -> cpus s !! y = Some cpu -> runqueue_length cpu <= n).
  { intros Hx y cpu Hl Hr [->|Hy]%elem_of_cons Hne Hc; [|by eapply Hr]. specialize (Hx cpu Hne Hc). lia. }
  destruct (cpus s !! x) as [cpu|] eqn:Ex; [|destruct (IH _ _ Hf) as (? & ? & ?); split_and!; eauto; intros; by eapply Hskip].
  destruct (negb (x =? me)%nat && (len <? runqueue_length cpu)) eqn:E.
  - apply andb_true_iff in E as [E%negb_true_iff%Nat.eqb_neq El%Z.ltb_lt].
    destruct (IH _ _ Hf) as (H1 & H2 & H3). split_and!; [|lia|].
    + right. destruct H1 as [[-> ->]|?]; eauto.
    + intros y cpu' [->|Hy]%elem_of_cons Hne Hc; [|by eapply H3]. assert (cpu' = cpu) by congruence. by subst.
  - destruct (IH _ _ Hf) as (? & ? & ?). split_and!; eauto. intros. eapply Hskip; eauto.
    intros cpu' Hne [= <-]. apply andb_false_iff in E as [E%negb_false_iff%Nat.eqb_eq|E%Z.ltb_ge]; [done|lia].
Qed.

(** The move itself: [t] leaves the queue of [c] for the tail of [me]'s. *)
Lemma load_balance_move Q s me mine c src t l1 l2 :
  rq_ok s Q -> cpus s !! me = Some mine -> c <> me -> cpus s !! c = Some src -> Q c = l1 ++ t :: l2 ->
  let nx := rq_next_of s t in
  let s1 := match last l1 with Some p => upd_task p (set_rq_next nx) s | None => s end in
  let h := match last l1 with Some _ => runqueue_head src | None => nx end in
  let tl := if decide (runqueue_tail src = Some t) then last l1 else runqueue_tail src in
  let s2 := upd_cpu c (set_queue h tl (u32 (runqueue_length src - 1))) s1 in
  let s3 := upd_task t (fun tk => set_on_cpu (Z.of_nat me) (set_rq false None tk)) s2 in
  rq_ok (rq_enqueue_locked s3 me t) (upd_queue (upd_queue Q c (l1 ++ l2)) me (Q me ++ [t])).
Proof.
  intros H Hme Hne Hc EQ nx s1 h tl s2' s3'.
  destruct (rq_unlink_prev Q s c src t l1 l2 H Hc EQ) as [H2 Hco]. cbv zeta in H2, Hco. fold nx s1 h tl s2' in H2, Hco.
  set (s2 := upd_task t (set_rq false None) s2') in *.
  assert (Eu : s3' = upd_task t (set_on_cpu (Z.of_nat me)) s2) by (unfold s2; by rewrite upd_task_compose).
  rewrite Eu. set (s3 := upd_task t (set_on_cpu (Z.of_nat me)) s2).
  assert (Htq : t ∈ Q c) by (rewrite EQ; set_solver).
  destruct (rq_task _ _ H c t Htq) as (tk0 & Hqb & _ & _ & Hst).
  destruct (cores_lookup s s2 t tk0 Hco (qb_task _ _ _ Hqb)) as (tk2 & Ht2 & Hc2).
  assert (Hi2 : idle_tasks s2 = idle_tasks s) by (unfold s2, s2', s1; by destruct (last l1)).
  pose proof (queueable_core s s2 t tk0 tk2 Hqb Ht2 Hc2 Hi2) as Hqb2.
  pose proof (core_fields _ _ Hc2) as (Fs & _).
  assert (Hoff2 : t_on_rq tk2 = false).
  { unfold s2 in Ht2. rewrite lookup_upd_task, decide_True in Ht2 by done.
    by apply fmap_Some in Ht2 as (? & _ & ->). }
  assert (Hme3 : cpus s3 !! me = Some mine).
  { unfold s3, s2, s2'. rewrite !cpus_upd_task, lookup_upd_cpu, decide_False by done. unfold s1. by destruct (last l1). }
  assert (H3 : rq_ok s3 (upd_queue Q c (l1 ++ l2))) by (apply rq_ok_upd_off; [done|by unfold on_rq; rewrite Ht2|done]).
  assert (Hqb3 : queueable s3 t (set_on_cpu (Z.of_nat me) tk2)).
  { destruct Hqb2 as [? ? ? ?]. split; try done. unfold s3. by rewrite lookup_upd_task, decide_True, Ht2. }
  pose proof (rq_enqueue_ok _ s3 me t mine _ H3 Hme3 Hqb3 Hoff2 ltac:(cbn; congruence) eq_refl) as H4.
  by rewrite upd_queue_ne in H4.
Qed.

(** The length of the queue of [c]; 0 when there is no such CPU. *)
Definition load (s : sched) (c : nat) : Z :=
  match cpus s !! c with Some cpu => runqueue_length cpu | None => 0 end.

Lemma load_bound Q s c : rq_ok s Q -> 0 <= load s c < 2 ^ 32.
Proof.
  intros H. unfold load. destruct (cpus s !! c) as [cpu|] eqn:Hc; [|lia].
  destruct (rq_cpu _ _ H c cpu Hc) as (_ & _ & -> & _). unfold u32. apply Z.mod_pos_bound. lia.
Qed.

(**  Load balancing: when some other online CPU has a longer queue, the
    first migratable task of a busiest CPU (a READY user task whose affinity
    allows the calling CPU) moves to the tail of the calling CPU's queue, unless
    that queue holds no migratable task; nothing else changes, and all queues
    stay well formed. *)
Theorem sched_load_balance_moves Q s me online x :
  rq_ok s Q -> g_smp_initialized s = true -> is_Some (cpus s !! me) ->
  (1 < online)%nat -> (x < online)%nat -> load s me < load s x ->
  let s' := sched_load_balance s me online in
  exists c, c <> me /\ load s x <= load s c /\
    ((exists t l1 l2, Q c = l1 ++ t :: l2 /\ migratable s me t = true /\
        rq_ok s' (upd_queue (upd_queue Q c (l1 ++ l2)) me (Q me ++ [t]))) \/
     s' = s /\ forall t, t ∈ Q c -> migratable s me t = false).
Proof.
  intros H Hsmp [mine Hme] Hon Hx Hload s'. pose proof (load_bound Q s x H) as Hb.
  pose proof (load_bound Q s me H) as Hb'. unfold s', sched_load_balance. rewrite Hsmp, Hme.
  replace (online <=? 1)%nat with false by (symmetry; apply Nat.leb_gt; lia). cbn [negb orb].
  assert (Hm : runqueue_length mine = load s me) by (unfold load; by rewrite Hme). rewrite Hm.
  destruct (find_busiest s me (seq 0 online) me (load s me)) as [c n] eqn:Eb.
  destruct (find_busiest_spec _ _ _ _ _ _ _ Eb) as (Hc & _ & Hall).
  assert (Hxn : load s x <= n).
  { unfold load in Hb, Hload |- *. destruct (cpus s !! x) as [cx|] eqn:Ecx; [|rewrite Hme in Hload; lia].
    apply (Hall x); [apply elem_of_seq; lia| |done]. intros ->. rewrite Ecx in Hload. lia. }
  destruct Hc as [[-> ->]|(Hne & src & Hc & Hn)]; [lia|].
  exists c. assert (Hl : load s c = n) by (unfold load; by rewrite Hc). split_and!; [done|lia|].
  rewrite (proj2 (Nat.eqb_neq c me)) by done. cbn [orb]. rewrite Hc, Hn.
  assert (Hge : n <? u32 (load s me + 1) = false).
  { apply Z.ltb_ge. unfold u32. rewrite Z.mod_small; [lia|]. pose proof (load_bound Q s c H). lia. }
  rewrite Hge. destruct (rq_cpu _ _ H c src Hc) as (Hch & _ & _ & Hnd).
  pose proof (find_migratable_spec s me (size (tasks s)) (Q c) None _ Hch) as Hf.
  destruct (find_migratable _ s me None (runqueue_head src)) as [[prev t]|].
  - destruct Hf as (l1 & l2 & EQ & Hmig & Hp); [by apply (queue_fits Q)|].
    assert (Hprev : prev = last l1) by (rewrite Hp; by destruct (last l1)). clear Hp. subst prev.
    left. exists t, l1, l2. split_and!; [done..|]. rewrite <- Hn. by apply (load_balance_move Q s me mine c src t l1 l2).
  - right. split; [done|]. apply Hf. by apply (queue_fits Q).
Qed.

(** ** A concrete machine

    Two CPUs.  CPU 0 runs task 1 and has tasks 2 and 3 queued; CPU 1 runs task
    4; task 5 is blocked on channel 7. *)

Definition demo_task (st : task_state) (cpu : Z) (on : bool) (rqn nx ch : option nat) : task :=
  mk_task st true cpu 0 on rqn nx false ch 0 true 2 false false.

Definition demo_sched : sched :=
  mk_sched
    (list_to_map
       [(1, demo_task TASK_RUNNING 0 false None (Some 2) None);
        (2, demo_task TASK_READY 0 true (Some 3) (Some 3) None);
        (3, demo_task TASK_READY 0 true None (Some 4) None);
        (4, demo_task TASK_RUNNING 1 false None (Some 5) None);
        (5, demo_task TASK_BLOCKED 1 false None None (Some 7))]%nat)
    (list_to_map
       [(0, mk_percpu (Some 2) (Some 3) 2 (Some 1) (Some 10));
        (1, mk_percpu None None 0 (Some 4) (Some 11))]%nat)
    (Some 1%nat) [10; 11]%nat 12 true [].

Definition demo_queues (c : nat) : list nat := match c with O => [2; 3]%nat | _ => [] end.

Lemma list_to_map_cases {A} (l : list (nat * A)) k v :
  (list_to_map l : gmap nat A) !! k = Some v -> (k, v) ∈ l.
Proof. apply elem_of_list_to_map_2. Qed.

Ltac elem_cases H :=
  repeat (apply elem_of_cons in H as [H|H]; [try injection H as -> ->; try subst|]);
  try by apply not_elem_of_nil in H.

Lemma demo_rq_ok : rq_ok demo_sched demo_queues.
Proof.
  split.
  - intros c cpu H. apply list_to_map_cases in H.
    elem_cases H; (split_and!; [by cbn|done|done|]); cbn [demo_queues]; repeat constructor; set_solver.
  - intros [|[|c]] H; done.
  - intros [|c] t H; cbn [demo_queues] in H; elem_cases H; (eexists; split_and!; [split; [reflexivity| |done..]|done..]);
      cbn; set_solver.
  - intros t tk H Hon. apply list_to_map_cases in H.
    elem_cases H; try done; exists 0%nat; split; cbn; try done; set_solver.
  - intros c [cpu H]. apply list_to_map_cases in H. unfold MAX_CPUS. elem_cases H; lia.
Qed.

Lemma rq_remove_spec_witness :
  exists c l1 l2, demo_queues c = l1 ++ 3%nat :: l2 /\
    rq_ok (rq_remove demo_sched 3) (upd_queue demo_queues c (l1 ++ l2)) /\
    cores (rq_remove demo_sched 3) = cores demo_sched.
Proof. eapply rq_remove_spec; [apply demo_rq_ok|reflexivity|reflexivity]. Defined.

Lemma sched_round_robin_witness :
  let s' := Nat.iter 2 (fun s => (sched_yield_in_kernel s 0).1) demo_sched in
  runs s' 0 3 /\ rq_ok s' (upd_queue demo_queues 0 [1; 2]%nat).
Proof.
  apply (sched_round_robin demo_queues demo_sched 0 1 1 3); [apply demo_rq_ok|reflexivity| |reflexivity].
  eexists _, _. split_and!; [reflexivity|reflexivity|split; [reflexivity| |reflexivity|reflexivity]|reflexivity..].
  cbn. set_solver.
Defined.

Lemma sched_wake_channel_wakes_witness :
  let s' := sched_wake_channel 0 demo_sched (Some 7%nat) in
  state_of s' 5 = Some TASK_READY /\ on_rq s' 5 = true.
Proof.
  assert (HW : filter (fun t => blocked_on demo_sched 7 t = true) [1; 2; 3; 4; 5]%nat = [5%nat]) by reflexivity.
  destruct (sched_wake_channel_wakes 0 demo_queues demo_sched 7 [1; 2; 3; 4; 5]%nat) as (_ & H & _).
  - apply demo_rq_ok.
  - by cbn.
  - repeat constructor; set_solver.
  - intros t Ht. elem_cases Ht; by eexists.
  - rewrite HW. intros t Ht. elem_cases Ht. eexists _, 1%nat, _.
    split_and!; [split; [reflexivity| |reflexivity|reflexivity]|reflexivity|reflexivity]. cbn. set_solver.
  - rewrite HW. unfold MAX_WAKE. cbn. lia.
  - apply H. rewrite HW. set_solver.
Defined.

Lemma sched_load_balance_moves_witness :
  let s' := sched_load_balance demo_sched 1 2 in
  exists c, c <> 1%nat /\ 2 <= load demo_sched c /\
    ((exists t l1 l2, demo_queues c = l1 ++ t :: l2 /\ migratable demo_sched 1 t = true /\
        rq_ok s' (upd_queue (upd_queue demo_queues c (l1 ++ l2)) 1 (demo_queues 1 ++ [t]))) \/
     s' = demo_sched /\ forall t, t ∈ demo_queues c -> migratable demo_sched 1 t = false).
Proof.
  apply (sched_load_balance_moves demo_queues demo_sched 1 2 0);
    [apply demo_rq_ok|reflexivity|by eexists|lia|lia|reflexivity].
Defined.
