(* ===== verification/Cstring.v ===== *)
(** * C strings and memory blocks ([userland/libc/src/string/string.c])

    Memory is a finite map from addresses to bytes.  Functions that write return
    the new memory; pointers are integers, 0 is NULL.  Loops bounded by a size
    recurse on it; loops that run to a terminator take fuel and return [None] when
    it runs out, and the theorems give the fuel that is enough. *)

From Stdlib Require Import ZArith Lia Bool.
From stdpp Require Import base list gmap.
From S2P Require Import Prelude.

Notation memory := (gmap Z Z).

Definition byte_at (m : memory) (a : Z) : Z := default 0 (m !! a).
Definition put (m : memory) (a c : Z) : memory := <[a := c]> m.

(** ** Memory blocks *)

Fixpoint memcpy (m : memory) (dest src : Z) (n : nat) : memory :=
  match n with
  | O => m
  | S n' => memcpy (put m dest (byte_at m src)) (dest + 1) (src + 1) n'
  end.

(** The downward loop of [memmove]: [d] and [s] point behind the blocks. *)
Fixpoint memcpy_down (m : memory) (d s : Z) (n : nat) : memory :=
  match n with
  | O => m
  | S n' => memcpy_down (put m (d - 1) (byte_at m (s - 1))) (d - 1) (s - 1) n'
  end.

Definition memmove (m : memory) (dest src : Z) (n : nat) : memory :=
  if dest <? src then memcpy m dest src n
  else memcpy_down m (dest + Z.of_nat n) (src + Z.of_nat n) n.

Fixpoint memset (m : memory) (p c : Z) (n : nat) : memory :=
  match n with
  | O => m
  | S n' => memset (put m p (u8 c)) (p + 1) c n'
  end.

Fixpoint memcmp (m : memory) (p1 p2 : Z) (n : nat) : Z :=
  match n with
  | O => 0
  | S n' =>
      if negb (byte_at m p1 =? byte_at m p2) then byte_at m p1 - byte_at m p2
      else memcmp m (p1 + 1) (p2 + 1) n'
  end.

Fixpoint memchr (m : memory) (p c : Z) (n : nat) : Z :=
  match n with
  | O => 0
  | S n' => if byte_at m p =? u8 c then p else memchr m (p + 1) c n'
  end.

(** ** Strings *)

Fixpoint strlen_loop (fuel : nat) (m : memory) (s len : Z) : option Z :=
  match fuel with
  | O => None
  | S fuel' => if byte_at m s =? 0 then Some len else strlen_loop fuel' m (s + 1) (len + 1)
  end.

Definition strlen (fuel : nat) (m : memory) (s : Z) : option Z := strlen_loop fuel m s 0.

(** [while (( *d++ = *src++));] *)
Fixpoint strcpy (fuel : nat) (m : memory) (d src : Z) : option memory :=
  match fuel with
  | O => None
  | S fuel' =>
      let c := byte_at m src in
      if c =? 0 then Some (put m d c) else strcpy fuel' (put m d c) (d + 1) (src + 1)
  end.

(** [while (n && ( *d++ = *src++)) n--;]: the memory, [d] and [n] after the loop. *)
Fixpoint copy_n (m : memory) (d src : Z) (n : nat) : memory * Z * nat :=
  match n with
  | O => (m, d, O)
  | S n' =>
      let c := byte_at m src in
      if c =? 0 then (put m d c, d + 1, n) else copy_n (put m d c) (d + 1) (src + 1) n'
  end.

Definition strncpy (m : memory) (dest src : Z) (n : nat) : memory :=
  let '(m, d, n) := copy_n m dest src n in memset m d 0 n.

(** The address of the terminator: [while ( *d) d++;]. *)
Fixpoint str_end (fuel : nat) (m : memory) (d : Z) : option Z :=
  match fuel with
  | O => None
  | S fuel' => if byte_at m d =? 0 then Some d else str_end fuel' m (d + 1)
  end.

Definition strcat (fuel : nat) (m : memory) (dest src : Z) : option memory :=
  d ← str_end fuel m dest; strcpy fuel m d src.

Definition strncat (fuel : nat) (m : memory) (dest src : Z) (n : nat) : option memory :=
  d ← str_end fuel m dest;
  let '(m, d, _) := copy_n m d src n in Some (put m d 0).

Fixpoint strcmp (fuel : nat) (m : memory) (s1 s2 : Z) : option Z :=
  match fuel with
  | O => None
  | S fuel' =>
      if negb (byte_at m s1 =? 0) && (byte_at m s1 =? byte_at m s2) then strcmp fuel' m (s1 + 1) (s2 + 1)
      else Some (byte_at m s1 - byte_at m s2)
  end.

Fixpoint strncmp (m : memory) (s1 s2 : Z) (n : nat) : Z :=
  match n with
  | O => 0
  | S n' =>
      if negb (byte_at m s1 =? 0) && (byte_at m s1 =? byte_at m s2) then strncmp m (s1 + 1) (s2 + 1) n'
      else byte_at m s1 - byte_at m s2
  end.

Fixpoint strchr (fuel : nat) (m : memory) (s c : Z) : option Z :=
  match fuel with
  | O => None
  | S fuel' =>
      if byte_at m s =? 0 then Some (if c =? 0 then s else 0)
      else if byte_at m s =? u8 c then Some s else strchr fuel' m (s + 1) c
  end.

Fixpoint strrchr_loop (fuel : nat) (m : memory) (s c last : Z) : option Z :=
  match fuel with
  | O => None
  | S fuel' =>
      if byte_at m s =? 0 then Some (if c =? 0 then s else last)
      else strrchr_loop fuel' m (s + 1) c (if byte_at m s =? u8 c then s else last)
  end.

Definition strrchr (fuel : nat) (m : memory) (s c : Z) : option Z := strrchr_loop fuel m s c 0.

(** The inner loop of [strstr]: does the needle match at [h]? *)
Fixpoint str_prefix (fuel : nat) (m : memory) (h n : Z) : option bool :=
  match fuel with
  | O => None
  | S fuel' =>
      if negb (byte_at m h =? 0) && negb (byte_at m n =? 0) && (byte_at m h =? byte_at m n)
      then str_prefix fuel' m (h + 1) (n + 1) else Some (byte_at m n =? 0)
  end.

Fixpoint strstr_loop (fuel : nat) (m : memory) (haystack needle : Z) : option Z :=
  match fuel with
  | O => None
  | S fuel' =>
      if byte_at m haystack =? 0 then Some 0
      else
        b ← str_prefix fuel m haystack needle;
        if b : bool then Some haystack else strstr_loop fuel' m (haystack + 1) needle
  end.

Definition strstr (fuel : nat) (m : memory) (haystack needle : Z) : option Z :=
  if byte_at m needle =? 0 then Some haystack else strstr_loop fuel m haystack needle.

(** [while ( *saved && (strchr(delim, *saved) != NULL) == want) saved++;] *)
Fixpoint strtok_skip (fuel : nat) (m : memory) (saved delim : Z) (want : bool) : option Z :=
  match fuel with
  | O => None
  | S fuel' =>
      if byte_at m saved =? 0 then Some saved
      else
        r ← strchr fuel m delim (byte_at m saved);
        if Bool.eqb (negb (r =? 0)) want then strtok_skip fuel' m (saved + 1) delim want else Some saved
  end.

(** Result: the memory, the static [saved], and the token or NULL. *)
Definition strtok (fuel : nat) (m : memory) (saved str delim : Z) : option (memory * Z * Z) :=
  let saved := if negb (str =? 0) then str else saved in
  if saved =? 0 then Some (m, saved, 0)
  else
    token ← strtok_skip fuel m saved delim true;
    if byte_at m token =? 0 then Some (m, token, 0)
    else
      e ← strtok_skip fuel m token delim false;
      if negb (byte_at m e =? 0) then Some (put m e 0, e + 1, token) else Some (m, 0, token).

(** The copy loop of [strlcpy], with [n] already decremented:
    the memory, [dst], [s] and whether the source was copied completely. *)
Fixpoint strlcpy_loop (m : memory) (dst s : Z) (n : nat) : memory * Z * Z * bool :=
  match n with
  | O => (m, dst, s, false)
  | S n' =>
      let c := byte_at m s in
      if c =? 0 then (put m dst c, dst + 1, s + 1, true)
      else strlcpy_loop (put m dst c) (dst + 1) (s + 1) n'
  end.

Definition strlcpy (fuel : nat) (m : memory) (dst src : Z) (siz : nat) : option (memory * Z) :=
  let '(m, dst, s, complete) :=
    match siz with O => (m, dst, src, false) | S n => strlcpy_loop m dst src n end in
  if complete : bool then Some (m, s - src - 1)
  else
    let m := match siz with O => m | S _ => put m dst 0 end in
    e ← str_end fuel m s;
    Some (m, e - src).

Fixpoint strlcat_end (m : memory) (d : Z) (n : nat) : Z :=
  match n with
  | O => d
  | S n' => if byte_at m d =? 0 then d else strlcat_end m (d + 1) n'
  end.

(** [while ( *s) { if (n != 1) { *d++ = *s; n--; } s++; } *d = 0;] *)
Fixpoint strlcat_copy (fuel : nat) (m : memory) (d s : Z) (n : Z) : option (memory * Z) :=
  match fuel with
  | O => None
  | S fuel' =>
      if byte_at m s =? 0 then Some (put m d 0, s)
      else if negb (n =? 1) then strlcat_copy fuel' (put m d (byte_at m s)) (d + 1) (s + 1) (n - 1)
      else strlcat_copy fuel' m d (s + 1) n
  end.

Definition strlcat (fuel : nat) (m : memory) (dst src : Z) (siz : nat) : option (memory * Z) :=
  let d := strlcat_end m dst siz in
  let dlen := d - dst in
  let n := Z.of_nat siz - dlen in
  if n =? 0 then slen ← strlen fuel m src; Some (m, dlen + slen)
  else '(m, s) ← strlcat_copy fuel m d src n; Some (m, dlen + (s - src)).

(** The inner loop of [strsep]: is [c] in the delimiters or their terminator? *)
Fixpoint strsep_match (fuel : nat) (m : memory) (sp c : Z) : option bool :=
  match fuel with
  | O => None
  | S fuel' =>
      let sc := byte_at m sp in
      if sc =? c then Some true
      else if negb (sc =? 0) then strsep_match fuel' m (sp + 1) c else Some false
  end.

Fixpoint strsep_loop (fuel : nat) (m : memory) (s tok delim : Z) : option (memory * Z * Z) :=
  match fuel with
  | O => None
  | S fuel' =>
      let c := byte_at m s in
      b ← strsep_match fuel m delim c;
      if b : bool then Some (if c =? 0 then (m, 0, tok) else (put m s 0, s + 1, tok))
      else strsep_loop fuel' m (s + 1) tok delim
  end.

(** Result: the memory, the new [*stringp] and the token. *)
Definition strsep (fuel : nat) (m : memory) (stringp delim : Z) : option (memory * Z * Z) :=
  if stringp =? 0 then Some (m, 0, 0) else strsep_loop fuel m stringp stringp delim.

(** ** Specifications *)

(** The string [s] (without NUL bytes) is stored at [p]. *)
Fixpoint cstr (m : memory) (p : Z) (s : list Z) : Prop :=
  match s with
  | [] => byte_at m p = 0
  | c :: s' => byte_at m p = c /\ 0 < c < 256 /\ cstr m (p + 1) s'
  end.

(** The words of [s] between delimiters [D]; [cur] is the word being read. *)
Fixpoint words (D s cur : list Z) : list (list Z) :=
  match s with
  | [] => match cur with [] => [] | _ => [cur] end
  | c :: s' =>
      if bool_decide (c ∈ D) then match cur with [] => words D s' [] | _ => cur :: words D s' [] end
      else words D s' (cur ++ [c])
  end.

(** The pattern of use of [strtok]: the first call with [str], then calls with
    NULL until NULL is returned; [calls] bounds their number. *)
Fixpoint strtok_all (calls fuel : nat) (m : memory) (saved str delim : Z) : option (memory * list Z) :=
  match calls with
  | O => None
  | S calls' =>
      '(m, saved, token) ← strtok fuel m saved str delim;
      if token =? 0 then Some (m, [])
      else '(m, ts) ← strtok_all calls' fuel m saved 0 delim; Some (m, token :: ts)
  end.

(** ** Memory lemmas *)

Lemma byte_put m a c x : byte_at (put m a c) x = if decide (x = a) then c else byte_at m x.
Proof.
  unfold byte_at, put. case_decide; [subst; by rewrite lookup_insert_eq|by rewrite lookup_insert_ne].
Qed.

Lemma byte_put_eq m a c : byte_at (put m a c) a = c.
Proof. by rewrite byte_put, decide_True. Qed.

Lemma byte_put_ne m a c x : x <> a -> byte_at (put m a c) x = byte_at m x.
Proof. intros. by rewrite byte_put, decide_False. Qed.

Lemma byte_memset n m p c x :
  byte_at (memset m p c n) x = if decide (p <= x < p + Z.of_nat n) then u8 c else byte_at m x.
Proof.
  revert m p. induction n as [|n IH]; intros m p; cbn [memset]; [by rewrite decide_False by lia|].
  rewrite IH, byte_put. destruct (decide (x = p)) as [->|Hne].
  - rewrite decide_False, decide_True by lia. done.
  - destruct (decide (p + 1 <= x < p + 1 + Z.of_nat n)); [rewrite decide_True by lia|rewrite decide_False by lia]; done.
Qed.

(** Copying upwards is right unless the destination starts inside the source. *)
Lemma byte_memcpy n m d s x :
  d <= s \/ s + Z.of_nat n <= d ->
  byte_at (memcpy m d s n) x = if decide (d <= x < d + Z.of_nat n) then byte_at m (s + (x - d)) else byte_at m x.
Proof.
  revert m d s. induction n as [|n IH]; intros m d s Hd; cbn [memcpy]; [by rewrite decide_False by lia|].
  rewrite IH by lia. rewrite !byte_put. destruct (decide (x = d)) as [->|Hne].
  - rewrite (decide_False (P := d + 1 <= d < _)), (decide_True (P := d <= d < _)) by lia.
    f_equal. lia.
  - destruct (decide (d + 1 <= x < d + 1 + Z.of_nat n)) as [Hr|Hr].
    + rewrite decide_False, decide_True by lia. f_equal. lia.
    + rewrite decide_False by lia. done.
Qed.

Lemma byte_memcpy_down n m d s x :
  s <= d -> byte_at (memcpy_down m d s n) x =
    if decide (d - Z.of_nat n <= x < d) then byte_at m (s + (x - d)) else byte_at m x.
Proof.
  revert m d s. induction n as [|n IH]; intros m d s Hd; cbn [memcpy_down]; [by rewrite decide_False by lia|].
  rewrite IH by lia. rewrite !byte_put. destruct (decide (x = d - 1)) as [->|Hne].
  - rewrite (decide_False (P := d - 1 - Z.of_nat n <= d - 1 < _)), (decide_True (P := d - _ <= d - 1 < _)) by lia.
    f_equal. lia.
  - destruct (decide (d - 1 - Z.of_nat n <= x < d - 1)) as [Hr|Hr].
    + rewrite decide_False, decide_True by lia. f_equal. lia.
    + rewrite decide_False by lia. done.
Qed.

(**  [memmove] copies [n] bytes correctly for every position of source and
    destination, overlapping or not, and changes no other byte. *)
Theorem memmove_spec m dest src n x :
  byte_at (memmove m dest src n) x =
    if decide (dest <= x < dest + Z.of_nat n) then byte_at m (src + (x - dest)) else byte_at m x.
Proof.
  unfold memmove. destruct (Z.ltb_spec dest src); [apply byte_memcpy; lia|].
  rewrite byte_memcpy_down by lia.
  destruct (decide (dest <= x < dest + Z.of_nat n)); [rewrite decide_True by lia; f_equal; lia|].
  rewrite decide_False by lia. done.
Qed.

(** ** String lemmas *)

Lemma cstr_ext m m' p s :
  (forall x, p <= x <= p + Z.of_nat (length s) -> byte_at m' x = byte_at m x) -> cstr m p s -> cstr m' p s.
Proof.
  revert p. induction s as [|c s IH]; intros p Hx; cbn [cstr length] in *; [rewrite Hx by lia; done|].
  intros (H1 & H2 & H3). rewrite Hx by lia. split; [done|]. split; [done|]. apply IH; [|done]. intros x Hr. apply Hx. lia.
Qed.

Lemma cstr_app m p s1 s2 :
  cstr m p (s1 ++ s2) -> cstr m (p + Z.of_nat (length s1)) s2.
Proof.
  revert p. induction s1 as [|c s1 IH]; intros p; cbn [app cstr length]; [by rewrite Z.add_0_r|].
  intros (_ & _ & H). apply IH in H. by replace (p + Z.of_nat (S (length s1))) with (p + 1 + Z.of_nat (length s1)) by lia.
Qed.

(** Cutting a string at [e]. *)
Lemma cstr_app_l m p s1 s2 e :
  e = p + Z.of_nat (length s1) -> cstr m p (s1 ++ s2) -> cstr (put m e 0) p s1.
Proof.
  revert p. induction s1 as [|c s1 IH]; intros p He; cbn [app cstr length] in *.
  - intros _. subst. by rewrite Z.add_0_r, byte_put_eq.
  - intros (H1 & H2 & H3). rewrite byte_put_ne by lia. split_and!; [done|lia|lia|]. apply IH; [lia|done].
Qed.

Lemma cstr_byte m p s i c : cstr m p s -> s !! i = Some c -> byte_at m (p + Z.of_nat i) = c /\ 0 < c < 256.
Proof.
  revert p i. induction s as [|c' s IH]; intros p [|i] Hs Hi; try done; cbn [cstr] in Hs; destruct Hs as (H1 & H2 & H3).
  - injection Hi as <-. by rewrite Z.add_0_r.
  - replace (p + Z.of_nat (S i)) with (p + 1 + Z.of_nat i) by lia. by apply IH.
Qed.

Lemma cstr_end m p s : cstr m p s -> byte_at m (p + Z.of_nat (length s)) = 0.
Proof. intros H. rewrite <- (app_nil_r s) in H. by apply cstr_app in H. Qed.

Lemma str_end_spec m s : forall fuel p,
  cstr m p s -> (length s < fuel)%nat -> str_end fuel m p = Some (p + Z.of_nat (length s)).
Proof.
  induction s as [|c s IH]; intros [|fuel] p Hs Hf; cbn [length] in Hf; try lia; cbn [str_end].
  - cbn [cstr length] in *. rewrite Hs. cbn [Z.eqb]. f_equal. lia.
  - destruct Hs as (H1 & H2 & H3). rewrite H1, (proj2 (Z.eqb_neq c 0)) by lia. rewrite IH by (done || lia). f_equal. cbn [length]. lia.
Qed.

Lemma strlen_spec m p s fuel :
  cstr m p s -> (length s < fuel)%nat -> strlen fuel m p = Some (Z.of_nat (length s)).
Proof.
  unfold strlen. intros Hs Hf. enough (H : forall k, strlen_loop fuel m p k = Some (k + Z.of_nat (length s))) by apply H.
  revert p fuel Hs Hf. induction s as [|c s IH]; intros p [|fuel] Hs Hf k; cbn [length] in Hf; try lia; cbn [strlen_loop].
  - cbn [cstr length] in *. rewrite Hs. cbn [Z.eqb]. f_equal. lia.
  - destruct Hs as (H1 & H2 & H3). rewrite H1, (proj2 (Z.eqb_neq c 0)) by lia. rewrite IH by (done || lia). f_equal. cbn [length]. lia.
Qed.

(** ** Bounded copies *)

Fixpoint store (m : memory) (d : Z) (l : list Z) : memory :=
  match l with [] => m | c :: l' => store (put m d c) (d + 1) l' end.

Lemma byte_store_out l : forall m d x,
  x < d \/ d + Z.of_nat (length l) <= x -> byte_at (store m d l) x = byte_at m x.
Proof.
  induction l as [|c l IH]; intros m d x Hx; cbn [store length] in *; [done|].
  rewrite IH by lia. apply byte_put_ne. lia.
Qed.

Lemma store_app l1 l2 : forall m d, store m d (l1 ++ l2) = store (store m d l1) (d + Z.of_nat (length l1)) l2.
Proof.
  induction l1 as [|c l1 IH]; intros m d; cbn [app store length]; [by rewrite Z.add_0_r|].
  rewrite IH. f_equal. lia.
Qed.

(** A stored string with its terminator. *)
Lemma cstr_store l : forall m d e,
  Forall (fun c => 0 < c < 256) l -> e = d + Z.of_nat (length l) -> cstr (put (store m d l) e 0) d l.
Proof.
  induction l as [|c l IH]; intros m d e Hl He; cbn [store length cstr] in *; [subst; by rewrite Z.add_0_r, byte_put_eq|].
  apply Forall_cons in Hl as [Hc Hl]. rewrite byte_put_ne, byte_store_out, byte_put_eq by lia.
  split_and!; [done|lia|lia|]. apply IH; [done|lia].
Qed.

Lemma cstr_chars m p s : cstr m p s -> Forall (fun c => 0 < c < 256) s.
Proof.
  revert p. induction s as [|c s IH]; intros p Hs; [done|]. destruct Hs as (_ & ? & ?). apply Forall_cons. eauto.
Qed.

Lemma strlcpy_loop_spec s : forall n m dst src,
  cstr m src s -> dst + Z.of_nat n <= src \/ src + Z.of_nat (length s) < dst ->
  strlcpy_loop m dst src n =
    if decide (length s < n)%nat
    then (store m dst (s ++ [0]), dst + Z.of_nat (length s) + 1, src + Z.of_nat (length s) + 1, true)
    else (store m dst (take n s), dst + Z.of_nat n, src + Z.of_nat n, false).
Proof.
  induction s as [|c s IH]; intros [|n] m dst src Hs Hd; cbn [strlcpy_loop take store app length] in *;
    try (rewrite decide_False by lia; by rewrite !Z.add_0_r).
  - cbn [cstr] in Hs. rewrite Hs, Z.eqb_refl, decide_True by lia. cbn [store]. by rewrite !Z.add_0_r.
  - destruct Hs as (H1 & H2 & H3). rewrite H1, (proj2 (Z.eqb_neq c 0)) by lia. rewrite IH; [|eapply cstr_ext; [|exact H3]|lia].
    + destruct (decide (length s < n)%nat); [rewrite decide_True by lia|rewrite decide_False by lia];
        match goal with |- (_, ?b, ?c, _) = (_, ?b', ?c', _) => replace b' with b by lia; by replace c' with c by lia end.
    + intros x Hx. apply byte_put_ne. lia.
Qed.

(** [strlcpy] to a buffer of [siz] bytes that does not overlap the source
    returns the length of the source, stores its longest prefix that fits together
    with the terminator (if [siz > 0]), and writes only inside the buffer. *)
Theorem strlcpy_spec fuel m dst src siz s :
  cstr m src s -> (length s < fuel)%nat ->
  dst + Z.of_nat siz <= src \/ src + Z.of_nat (length s) < dst ->
  exists m', strlcpy fuel m dst src siz = Some (m', Z.of_nat (length s)) /\
    ((0 < siz)%nat -> cstr m' dst (take (siz - 1) s)) /\
    (forall x, x < dst \/ dst + Z.of_nat siz <= x -> byte_at m' x = byte_at m x).
Proof.
  intros Hs Hf Hd. unfold strlcpy. pose proof (cstr_chars _ _ _ Hs) as Hch. destruct siz as [|n].
  - rewrite (str_end_spec m s) by done. exists m. cbn. split_and!; [do 2 f_equal; lia|lia|done].
  - rewrite (strlcpy_loop_spec s) by (done || lia). replace (S n - 1)%nat with n by lia.
    destruct (decide (length s < n)%nat) as [Hlt|Hge].
    + eexists. split_and!; [do 2 f_equal; lia| |].
      * intros _. rewrite take_ge by lia. rewrite store_app. by apply cstr_store.
      * intros x Hx. rewrite byte_store_out; [done|]. rewrite length_app. cbn. lia.
    + set (m1 := put (store m dst (take n s)) (dst + Z.of_nat n) 0).
      assert (Hlen : length (take n s) = n) by (rewrite length_take; lia).
      assert (Hs1 : cstr m1 (src + Z.of_nat n) (drop n s)).
      { rewrite <- (take_drop n s) in Hs. apply cstr_app in Hs. rewrite Hlen in Hs.
        eapply cstr_ext; [|exact Hs]. intros x Hx. rewrite length_drop in Hx. unfold m1.
        rewrite byte_put_ne, byte_store_out by lia. done. }
      rewrite (str_end_spec m1 (drop n s)) by (done || rewrite length_drop; lia). cbn.
      exists m1. rewrite length_drop. split_and!; [do 2 f_equal; lia| |].
      * intros _. apply cstr_store; [by apply Forall_take|by rewrite Hlen].
      * intros x Hx. unfold m1. rewrite byte_put_ne, byte_store_out by lia. done.
Qed.

(** ** Searching *)

Lemma str_prefix_spec m N : forall fuel h n H,
  cstr m h H -> cstr m n N -> (length N < fuel)%nat ->
  str_prefix fuel m h n = Some (bool_decide (N `prefix_of` H)).
Proof.
  induction N as [|b N IH]; intros [|fuel] h n H HH HN Hf; cbn [length] in Hf; try lia; cbn [str_prefix].
  - cbn [cstr] in HN. rewrite HN. cbn [Z.eqb negb]. rewrite andb_false_r. cbn [andb].
    rewrite bool_decide_true by apply prefix_nil. done.
  - destruct HN as (N1 & N2 & N3). rewrite N1, (proj2 (Z.eqb_neq b 0)) by lia. destruct H as [|a H].
    + cbn [cstr] in HH. rewrite HH. cbn. rewrite bool_decide_false; [done|]. intros Hp%prefix_nil_inv. done.
    + destruct HH as (H1 & H2 & H3). rewrite H1, (proj2 (Z.eqb_neq a 0)) by lia. cbn [negb andb].
      destruct (Z.eqb_spec a b) as [->|Hne].
      * rewrite (IH fuel (h + 1) (n + 1) H) by (done || lia). f_equal. apply bool_decide_ext.
        split; [apply prefix_cons|apply prefix_cons_inv_2].
      * rewrite bool_decide_false; [done|]. intros Hp%prefix_cons_inv_1. by subst.
Qed.

(** The first position of [N] in [H]. *)
Definition first_at (N H : list Z) (k : nat) : Prop :=
  N `prefix_of` drop k H /\ forall j, (j < k)%nat -> ~ N `prefix_of` drop j H.

Lemma strstr_loop_spec m n N : forall H fuel h,
  0 < h -> N <> [] -> cstr m h H -> cstr m n N -> (length H + length N < fuel)%nat ->
  (exists k, strstr_loop fuel m h n = Some (h + Z.of_nat k) /\ first_at N H k) \/
  strstr_loop fuel m h n = Some 0 /\ forall k, ~ N `prefix_of` drop k H.
Proof.
  induction H as [|a H IH]; intros [|fuel] h Hh HNe HH HN Hf; cbn [length] in Hf; try lia; cbn [strstr_loop].
  - right. cbn [cstr] in HH. rewrite HH. split; [done|]. intros k Hp. rewrite drop_nil in Hp. by apply prefix_nil_inv in Hp.
  - pose proof HH as (H1 & H2 & H3). rewrite H1, (proj2 (Z.eqb_neq a 0)) by lia.
    rewrite (str_prefix_spec m N (S fuel) h n (a :: H)) by (done || lia). cbn [mbind option_bind].
    case_bool_decide as Hp.
    + left. exists 0%nat. rewrite Z.add_0_r. split; [done|]. split; [done|]. intros; lia.
    + destruct (IH fuel (h + 1)) as [(k & -> & Hk1 & Hk2)|[-> Hk]]; try done; try lia.
      * left. exists (S k). split; [f_equal; lia|]. split; [done|]. intros [|j] Hj; [done|]. apply Hk2. lia.
      * right. split; [done|]. intros [|k]; [done|]. apply Hk.
Qed.

(** [strstr] returns the address of the first occurrence of the needle, or
    NULL if there is none. *)
Theorem strstr_spec fuel m h n H N :
  0 < h -> cstr m h H -> cstr m n N -> (length H + length N < fuel)%nat ->
  (exists k, strstr fuel m h n = Some (h + Z.of_nat k) /\ first_at N H k) \/
  strstr fuel m h n = Some 0 /\ forall k, ~ N `prefix_of` drop k H.
Proof.
  intros Hh HH HN Hf. unfold strstr. destruct N as [|b N].
  - cbn [cstr] in HN. rewrite HN. left. exists 0%nat. rewrite Z.add_0_r. split; [done|]. split; [apply prefix_nil|intros; lia].
  - pose proof HN as (N1 & N2 & _). rewrite N1, (proj2 (Z.eqb_neq b 0)) by lia. by apply strstr_loop_spec.
Qed.

(** ** Tokens *)

Lemma strchr_spec m D : forall fuel d c,
  0 < d -> 0 < c < 256 -> cstr m d D -> (length D < fuel)%nat ->
  exists r, strchr fuel m d c = Some r /\ negb (r =? 0) = bool_decide (c ∈ D).
Proof.
  induction D as [|b D IH]; intros [|fuel] d c Hd Hc HD Hf; cbn [length] in Hf; try lia; cbn [strchr].
  - cbn [cstr] in HD. rewrite HD, (proj2 (Z.eqb_neq c 0)) by lia. cbn [Z.eqb].
    exists 0. rewrite bool_decide_false by apply not_elem_of_nil. done.
  - destruct HD as (H1 & H2 & H3). rewrite H1, (proj2 (Z.eqb_neq b 0)), u8_small by lia.
    destruct (Z.eqb_spec b c) as [->|Hne].
    + exists d. rewrite (proj2 (Z.eqb_neq d 0)), bool_decide_true by (lia || left). done.
    + destruct (IH fuel (d + 1) c) as (r & -> & Hr); try done; try lia. exists r. split; [done|]. rewrite Hr.
      apply bool_decide_ext. rewrite elem_of_cons. split; [auto|]. intros [->|]; done.
Qed.

(** A maximal run of characters whose membership in [D] is [want]. *)
Definition run (D : list Z) (want : bool) (s1 s2 : list Z) : Prop :=
  Forall (fun c => bool_decide (c ∈ D) = want) s1 /\
  match s2 with [] => True | c :: _ => bool_decide (c ∈ D) = negb want end.

Lemma strtok_skip_spec m delim D want : forall s fuel p,
  0 < delim -> cstr m delim D -> cstr m p s -> (length s + length D < fuel)%nat ->
  exists s1 s2, s = s1 ++ s2 /\ run D want s1 s2 /\
    strtok_skip fuel m p delim want = Some (p + Z.of_nat (length s1)).
Proof.
  induction s as [|c s IH]; intros [|fuel] p Hd HD Hs Hf; cbn [length] in Hf; try lia; cbn [strtok_skip].
  - cbn [cstr] in Hs. rewrite Hs. exists [], []. cbn. rewrite Z.add_0_r. done.
  - destruct Hs as (H1 & H2 & H3). rewrite H1, (proj2 (Z.eqb_neq c 0)) by lia.
    destruct (strchr_spec m D (S fuel) delim c) as (r & -> & Hr); try done; try lia. cbn [mbind option_bind]. rewrite Hr.
    destruct (Bool.eqb _ want) eqn:E; [apply eqb_prop in E|apply eqb_false_iff in E].
    + destruct (IH fuel (p + 1)) as (s1 & s2 & -> & [Hr1 Hr2] & ->); try done; try lia.
      exists (c :: s1), s2. split_and!; [done|by split; [apply Forall_cons|]|]. cbn [length]. f_equal. lia.
    + exists [], (c :: s). cbn [length]. rewrite Z.add_0_r. split_and!; [done| |done]. split; [done|].
      by destruct (bool_decide _), want.
Qed.

Lemma words_skip D s1 s2 : Forall (fun c => bool_decide (c ∈ D) = true) s1 -> words D (s1 ++ s2) [] = words D s2 [].
Proof. induction 1 as [|c s1 Hc _ IH]; cbn [app words]; [done|]. by rewrite Hc. Qed.

Lemma words_run D w s cur :
  run D false w s -> cur ++ w <> [] ->
  words D (w ++ s) cur = (cur ++ w) :: match s with [] => [] | _ :: s' => words D s' [] end.
Proof.
  intros [Hw Hs]. revert cur. induction Hw as [|c w Hc _ IH]; intros cur Hne; cbn [app words].
  - rewrite app_nil_r in *. destruct s as [|c s]; cbn [words]; [by destruct cur|]. rewrite Hs. cbn [negb]. by destruct cur.
  - rewrite Hc, IH; rewrite <- app_assoc; done.
Qed.

(** One call: the rest of the string, if any, stays behind the token. *)
Lemma strtok_step fuel m p delim saved str D s :
  0 < p -> 0 < delim -> p = (if negb (str =? 0) then str else saved) ->
  cstr m delim D -> cstr m p s -> (length s + length D < fuel)%nat ->
  delim + Z.of_nat (length D) < p \/ p + Z.of_nat (length s) < delim ->
  (words D s [] = [] /\ exists saved', strtok fuel m saved str delim = Some (m, saved', 0)) \/
  exists tok w s' saved' m', words D s [] = w :: words D s' [] /\
    strtok fuel m saved str delim = Some (m', saved', tok) /\ p <= tok /\ cstr m' tok w /\
    cstr m' delim D /\ (length s' < length s)%nat /\
    (forall x, x < p \/ p + Z.of_nat (length s) < x -> byte_at m' x = byte_at m x) /\
    (saved' = 0 /\ s' = [] \/
     tok + Z.of_nat (length w) < saved' /\ cstr m' saved' s' /\ saved' + Z.of_nat (length s') = p + Z.of_nat (length s)).
Proof.
  intros Hp Hd Ep HD Hs Hf Hdis. unfold strtok. rewrite <- Ep, (proj2 (Z.eqb_neq p 0)) by lia.
  destruct (strtok_skip_spec m delim D true s fuel p) as (s1 & s2 & -> & [R1 R2] & ->); try done.
  cbn [mbind option_bind]. rewrite words_skip by done. pose proof (cstr_app _ _ _ _ Hs) as Hs2.
  rewrite length_app in *. destruct s2 as [|c s2].
  { left. cbn [cstr] in Hs2. rewrite Hs2. cbn [words]. eauto. }
  right. set (tok := p + Z.of_nat (length s1)) in *. pose proof Hs2 as (C1 & C2 & _).
  rewrite C1, (proj2 (Z.eqb_neq c 0)) by lia.
  destruct (strtok_skip_spec m delim D false (c :: s2) fuel tok) as (w & s3 & Ew & Rw & ->); try done; try lia.
  cbn [mbind option_bind]. assert (Hw : w <> []).
  { intros ->. cbn in Ew. subst s3. destruct Rw as [_ Hc]. cbn in Hc, R2. congruence. }
  rewrite Ew in Hs2 |- *. rewrite (words_run D w s3 []) by done. cbn [app].
  pose proof (cstr_app _ _ _ _ Hs2) as Hs3. rewrite length_app. destruct s3 as [|b s3].
  - cbn [cstr] in Hs3. rewrite Hs3. cbn [Z.eqb negb]. exists tok, w, [], 0, m. rewrite app_nil_r in Hs2.
    destruct w; [done|]. cbn [words length]. split_and!; try done; try lia. by left.
  - pose proof Hs3 as (B1 & B2 & B3). rewrite B1, (proj2 (Z.eqb_neq b 0)) by lia. cbn [negb].
    set (e := tok + Z.of_nat (length w)) in *. assert (Hlen : length (c :: s2) = (length w + S (length s3))%nat) by (rewrite Ew, length_app; done).
    rewrite Hlen in *. exists tok, w, s3, (e + 1), (put m e 0). cbn [length]. split_and!; try done; try lia.
    + apply cstr_app_l with (s2 := b :: s3) (e := e); done.
    + eapply cstr_ext; [|exact HD]. intros x Hx. apply byte_put_ne. lia.
    + intros x Hx. apply byte_put_ne. lia.
    + right. split_and!; [lia| |lia]. eapply cstr_ext; [|exact B3]. intros x Hx. apply byte_put_ne. lia.
Qed.

Lemma strtok_all_ok calls fuel delim D : forall m p saved str s,
  0 < p -> 0 < delim -> p = (if negb (str =? 0) then str else saved) ->
  cstr m delim D -> cstr m p s -> (length s + length D < fuel)%nat -> (length s < calls)%nat ->
  delim + Z.of_nat (length D) < p \/ p + Z.of_nat (length s) < delim ->
  exists m' ts, strtok_all calls fuel m saved str delim = Some (m', ts) /\
    Forall2 (cstr m') ts (words D s []) /\
    (forall x, x < p \/ p + Z.of_nat (length s) < x -> byte_at m' x = byte_at m x).
Proof.
  induction calls as [|calls IH]; intros m p saved str s Hp Hd Ep HD Hs Hf Hc Hdis; [lia|]. cbn [strtok_all].
  destruct (strtok_step fuel m p delim saved str D s) as [(Hw & sv & ->)|Hstep]; try done.
  { cbn. exists m, []. rewrite Hw. done. }
  destruct Hstep as (tok & w & s' & sv & m1 & -> & -> & Ht & Hcw & HD1 & Hlt & Hfr & Hnext). cbn [mbind option_bind].
  rewrite (proj2 (Z.eqb_neq tok 0)) by lia. destruct Hnext as [[-> ->]|(Hsv & Hs' & Hend)].
  - destruct calls as [|calls]; [lia|]. cbn. exists m1, [tok]. split_and!; [done| |done]. by constructor.
  - destruct (IH m1 sv sv 0 s') as (m2 & ts & -> & Hts & Hfr2); try done; try lia. cbn.
    exists m2, (tok :: ts). split_and!; [done| |].
    + constructor; [|done]. eapply cstr_ext; [|exact Hcw]. intros x Hx. apply Hfr2. lia.
    + intros x Hx. rewrite Hfr2, Hfr by lia. done.
Qed.

(**  Calling [strtok] first with the string and then with NULL until it
    returns NULL yields exactly the maximal words of the string between
    delimiters, in order, each NUL-terminated in place; only the string itself is
    modified. *)
Theorem strtok_words calls fuel m str delim saved D s :
  0 < str -> 0 < delim -> cstr m delim D -> cstr m str s ->
  (length s + length D < fuel)%nat -> (length s < calls)%nat ->
  delim + Z.of_nat (length D) < str \/ str + Z.of_nat (length s) < delim ->
  exists m' ts, strtok_all calls fuel m saved str delim = Some (m', ts) /\
    Forall2 (cstr m') ts (words D s []) /\
    (forall x, x < str \/ str + Z.of_nat (length s) < x -> byte_at m' x = byte_at m x).
Proof.
  intros Hp Hd HD Hs Hf Hc Hdis. apply (strtok_all_ok calls fuel delim D m str); try done.
  by rewrite (proj2 (Z.eqb_neq str 0)) by lia.
Qed.

(** ** Copies that write too much

    When the source is shorter than [n], [strncpy] does not count the terminator
    it copied: it writes [n + 1] bytes. *)

Lemma copy_n_spec s : forall n m d src,
  cstr m src s -> (length s < n)%nat -> d + Z.of_nat n <= src \/ src + Z.of_nat (length s) < d ->
  copy_n m d src n = (store m d (s ++ [0]), d + Z.of_nat (length s) + 1, (n - length s)%nat).
Proof.
  induction s as [|c s IH]; intros [|n] m d src Hs Hn Hd; cbn [length] in Hn, Hd; try lia; cbn [copy_n app store length].
  - cbn [cstr] in Hs. rewrite Hs, Z.eqb_refl. by rewrite Z.add_0_r.
  - destruct Hs as (H1 & H2 & H3). rewrite H1, (proj2 (Z.eqb_neq c 0)) by lia. rewrite IH; [|eapply cstr_ext; [|exact H3]|lia|lia].
    + match goal with |- (_, ?b, _) = (_, ?b', _) => by replace b' with b by lia end.
    + intros x Hx. apply byte_put_ne. lia.
Qed.

Lemma strncpy_overflows m dest src n s :
  cstr m src s -> (length s < n)%nat -> dest + Z.of_nat n <= src \/ src + Z.of_nat (length s) < dest ->
  byte_at (strncpy m dest src n) (dest + Z.of_nat n) = 0.
Proof.
  intros Hs Hn Hd. unfold strncpy. rewrite (copy_n_spec s) by done.
  rewrite byte_memset, decide_True by lia. done.
Qed.

(** [strncat] of a source shorter than [n] writes a second terminator behind the
    first. *)
Lemma strncat_overflows fuel m dest src n t s :
  cstr m dest t -> cstr m src s -> (length t < fuel)%nat -> (length s < n)%nat ->
  let d := dest + Z.of_nat (length t) in
  d + Z.of_nat n <= src \/ src + Z.of_nat (length s) < d ->
  exists m', strncat fuel m dest src n = Some m' /\ byte_at m' (d + Z.of_nat (length s) + 1) = 0.
Proof.
  intros Ht Hs Hf Hn d Hd. unfold strncat. rewrite (str_end_spec m t) by done. cbn [mbind option_bind]. fold d.
  rewrite (copy_n_spec s) by done. eexists. split; [done|]. apply byte_put_eq.
Qed.

(** ** Witnesses *)

(** Two strings: [,;] at 100 and [a,bc;;d] at 200. *)
Definition demo_mem : memory := store (store ∅ 100 [44; 59]) 200 [97; 44; 98; 99; 59; 59; 100].

Lemma strlcpy_spec_witness :
  exists m', strlcpy 8 demo_mem 300 200 4 = Some (m', 7) /\
    ((0 < 4)%nat -> cstr m' 300 [97; 44; 98]) /\
    (forall x, x < 300 \/ 300 + 4 <= x -> byte_at m' x = byte_at demo_mem x).
Proof.
  apply (strlcpy_spec 8 demo_mem 300 200 4 [97; 44; 98; 99; 59; 59; 100]); [by vm_compute|cbn; lia|cbn; lia].
Defined.

Lemma strstr_spec_witness :
  (exists k, strstr 12 demo_mem 200 204 = Some (200 + Z.of_nat k) /\ first_at [59; 59; 100] [97; 44; 98; 99; 59; 59; 100] k) \/
  strstr 12 demo_mem 200 204 = Some 0 /\ forall k, ~ [59; 59; 100] `prefix_of` drop k [97; 44; 98; 99; 59; 59; 100].
Proof. apply strstr_spec; [lia|by vm_compute|by vm_compute|cbn; lia]. Defined.

Lemma strtok_words_witness :
  exists m' ts, strtok_all 8 12 demo_mem 0 200 100 = Some (m', ts) /\
    Forall2 (cstr m') ts [[97]; [98; 99]; [100]] /\
    (forall x, x < 200 \/ 200 + 7 < x -> byte_at m' x = byte_at demo_mem x).
Proof.
  apply (strtok_words 8 12 demo_mem 200 100 0 [44; 59] [97; 44; 98; 99; 59; 59; 100]);
    [lia|lia|by vm_compute|by vm_compute|cbn; lia|cbn; lia|cbn; lia].
Defined.
