(* ===== verification/Malloc.v ===== *)
(** * The user-space heap ([userland/libc/src/malloc/malloc.c])

    [malloc], [free], [calloc] and [realloc] over [sbrk]
    ([userland/libc/src/syscalls/unistd.c]) and the kernel's [sys_brk]
    ([kernel/ke/syscall.c]).  Pointers are integers, 0 is NULL.  The block
    headers and the bytes of the payloads are kept in two stores: the tiling
    invariant shows that headers and allocated payloads never overlap.  The
    physical page allocator and the page tables answer, for each page, whether it
    can be mapped ([can_map]); every theorem holds for every answer. *)

From Stdlib Require Import ZArith Lia Bool.
From stdpp Require Import base list gmap.
From S2P Require Import Prelude Cstring.

Definition PAGE_SIZE : Z := 0x1000.
Definition PAGE_ALIGN (addr : Z) : Z := Z.land (u64 (addr + PAGE_SIZE - 1)) (Z.lnot (PAGE_SIZE - 1)).
Definition ENOMEM : Z := 12.
Definition BLOCK_SIZE : Z := 24.
Definition align8 (x : Z) : Z := Z.land (u64 (x + 7)) (Z.lnot 7).

Record block := mk_block { b_size : Z; b_free : bool; b_next : Z }.

(** What the kernel keeps for the process: the break and the mapped heap pages. *)
Record kproc := mk_kproc {
  brk : Z;
  brk_start : Z;
  user_stack_top : Z;
  mapped : gset Z;
}.

Record heap := mk_heap {
  hdr : gmap Z block;
  mem : memory;
  heap_start : Z;
  current_brk : Z;
  proc : kproc;
  errno : Z;
}.

Definition set_hdr (x : gmap Z block) (h : heap) : heap :=
  mk_heap x (mem h) (heap_start h) (current_brk h) (proc h) (errno h).
Definition set_mem (x : memory) (h : heap) : heap :=
  mk_heap (hdr h) x (heap_start h) (current_brk h) (proc h) (errno h).
Definition set_start (x : Z) (h : heap) : heap :=
  mk_heap (hdr h) (mem h) x (current_brk h) (proc h) (errno h).
Definition set_brk (x : Z) (p : kproc) (h : heap) : heap :=
  mk_heap (hdr h) (mem h) (heap_start h) x p (errno h).
Definition set_errno (x : Z) (h : heap) : heap :=
  mk_heap (hdr h) (mem h) (heap_start h) (current_brk h) (proc h) x.

(** ** The system call *)

Section Brk.
Variable can_map : Z -> bool.

(** Maps [n] pages from [addr]; on failure the pages mapped so far ([done]) are
    unmapped. *)
Fixpoint map_pages (n : nat) (addr : Z) (done : list Z) (m : gset Z) : gset Z * bool :=
  match n with
  | O => (m, true)
  | S n' =>
      if can_map addr then map_pages n' (addr + PAGE_SIZE) (done ++ [addr]) ({[addr]} ∪ m)
      else (m ∖ list_to_set done, false)
  end.

Definition set_kbrk (x : Z) (m : gset Z) (p : kproc) : kproc :=
  mk_kproc x (brk_start p) (user_stack_top p) m.

Definition sys_brk (p : kproc) (new_brk : Z) : kproc * Z :=
  if new_brk =? 0 then (p, brk p)
  else if new_brk <? brk_start p then (p, brk p)
  else if u64 (user_stack_top p - 2 * 1024 * 1024) <=? new_brk then (p, brk p)
  else if brk p <? new_brk then
    let old_page := PAGE_ALIGN (brk p) in
    let new_page := PAGE_ALIGN new_brk in
    let n := Z.to_nat ((new_page - old_page + PAGE_SIZE - 1) / PAGE_SIZE) in
    let '(m, ok) := map_pages n old_page [] (mapped p) in
    if ok then (set_kbrk new_brk m p, new_brk) else (set_kbrk (brk p) m p, brk p)
  else (set_kbrk new_brk (mapped p) p, new_brk).

Definition FAILED : Z := u64 (-1).

Definition sbrk (h : heap) (increment : Z) : heap * Z :=
  let h := if current_brk h =? 0 then
             let '(p, r) := sys_brk (proc h) 0 in set_brk r p h
           else h in
  if increment =? 0 then (h, current_brk h)
  else
    let new_brk := u64 (current_brk h + increment) in
    let '(p, result) := sys_brk (proc h) new_brk in
    if result =? current_brk h then (set_errno ENOMEM (set_brk (current_brk h) p h), FAILED)
    else (set_brk result p h, current_brk h).

(** ** The block list *)

Definition size_at (h : heap) (a : Z) : Z := match hdr h !! a with Some b => b_size b | None => 0 end.
Definition free_at (h : heap) (a : Z) : bool := match hdr h !! a with Some b => b_free b | None => false end.
Definition next_at (h : heap) (a : Z) : Z := match hdr h !! a with Some b => b_next b | None => 0 end.
Definition upd_block (a : Z) (f : block -> block) (h : heap) : heap := set_hdr (alter f a (hdr h)) h.
Definition put_block (a : Z) (b : block) (h : heap) : heap := set_hdr (<[a := b]> (hdr h)) h.

Definition set_next (n : Z) (b : block) : block := mk_block (b_size b) (b_free b) n.
Definition set_free (f : bool) (b : block) : block := mk_block (b_size b) f (b_next b).
Definition set_size_next (s n : Z) (b : block) : block := mk_block s (b_free b) n.

(** Result: the block or NULL, and [*last]. *)
Fixpoint find_free_block (fuel : nat) (h : heap) (current last size : Z) : Z * Z :=
  match fuel with
  | O => (0, last)
  | S fuel' =>
      if current =? 0 then (0, last)
      else if free_at h current && (size <=? size_at h current) then (current, last)
      else find_free_block fuel' h (next_at h current) current size
  end.

Definition split_block (h : heap) (block size : Z) : heap :=
  if u64 (size + BLOCK_SIZE + 16) <=? size_at h block then
    let new_block := u64 (block + BLOCK_SIZE + size) in
    let h := put_block new_block
               (mk_block (u64 (size_at h block - size - BLOCK_SIZE)) true (next_at h block)) h in
    upd_block block (set_size_next size new_block) h
  else h.

Definition request_space (h : heap) (last size : Z) : heap * Z :=
  let '(h, block) := sbrk h 0 in
  let '(h, request) := sbrk h (i64 (u64 (BLOCK_SIZE + size))) in
  if request =? FAILED then (h, 0)
  else
    let h := if negb (last =? 0) then upd_block last (set_next block) h else h in
    (put_block block (mk_block size false 0) h, block).

Definition malloc (h : heap) (size : Z) : heap * Z :=
  let size := align8 (if size =? 0 then 1 else size) in
  if heap_start h =? 0 then
    let '(h, block) := request_space h 0 size in
    if block =? 0 then (h, 0) else (set_start block h, u64 (block + BLOCK_SIZE))
  else
    let '(block, last) := find_free_block (base.size (hdr h)) h (heap_start h) (heap_start h) size in
    if block =? 0 then
      let '(h, block) := request_space h last size in
      if block =? 0 then (h, 0) else (h, u64 (block + BLOCK_SIZE))
    else
      let h := split_block h block size in
      (upd_block block (set_free false) h, u64 (block + BLOCK_SIZE)).

Definition get_block_ptr (ptr : Z) : Z := u64 (ptr - BLOCK_SIZE).

(** The walk of [free]: the block before [block], or NULL. *)
Fixpoint find_prev_block (fuel : nat) (h : heap) (prev current block : Z) : Z :=
  match fuel with
  | O => prev
  | S fuel' =>
      if (current =? 0) || (current =? block) then prev
      else find_prev_block fuel' h current (next_at h current) block
  end.

Definition free (h : heap) (ptr : Z) : heap :=
  if ptr =? 0 then h
  else
    let block := get_block_ptr ptr in
    let h := upd_block block (set_free true) h in
    let nx := next_at h block in
    let h :=
      if negb (nx =? 0) && free_at h nx then
        upd_block block (set_size_next (u64 (size_at h block + (BLOCK_SIZE + size_at h nx)))
                           (next_at h nx)) h
      else h in
    let prev := find_prev_block (base.size (hdr h)) h 0 (heap_start h) block in
    if negb (prev =? 0) && free_at h prev then
      upd_block prev (set_size_next (u64 (size_at h prev + (BLOCK_SIZE + size_at h block)))
                        (next_at h block)) h
    else h.

Definition calloc (h : heap) (nmemb size : Z) : heap * Z :=
  let total := u64 (nmemb * size) in
  let '(h, ptr) := malloc h total in
  if negb (ptr =? 0) then (set_mem (memset (mem h) ptr 0 (Z.to_nat total)) h, ptr) else (h, ptr).

Definition realloc (h : heap) (ptr size : Z) : heap * Z :=
  if ptr =? 0 then malloc h size
  else if size =? 0 then (free h ptr, 0)
  else
    let block := get_block_ptr ptr in
    if size <=? size_at h block then (h, ptr)
    else
      let '(h, new_ptr) := malloc h size in
      if new_ptr =? 0 then (h, 0)
      else
        let h := set_mem (memcpy (mem h) new_ptr ptr (Z.to_nat (size_at h block))) h in
        (free h ptr, new_ptr).

End Brk.

(** ** The abstract heap

    A list of blocks (size, free), laid out one after the other from the start
    of the heap; each occupies its header and its payload. *)

Definition ablock : Type := Z * bool.

Fixpoint extent (B : list ablock) : Z :=
  match B with [] => 0 | (s, _) :: B' => BLOCK_SIZE + s + extent B' end.

(** The address [a] of a list of blocks, or [q] if there are none. *)
Definition first (a : Z) (B : list ablock) (q : Z) : Z := match B with [] => q | _ => a end.

(** The headers in memory from [a] are the blocks [B], the last one pointing to [q]. *)
Fixpoint blocks (hd : gmap Z block) (a : Z) (B : list ablock) (q : Z) : Prop :=
  match B with
  | [] => True
  | (s, f) :: B' =>
      hd !! a = Some (mk_block s f (first (a + BLOCK_SIZE + s) B' q)) /\
      blocks hd (a + BLOCK_SIZE + s) B' q
  end.

Definition size_ok (b : ablock) : Prop := 0 < b.1 /\ (8 | b.1).

(** No two neighbours are both free. *)
Fixpoint merged (B : list ablock) : Prop :=
  match B with
  | (_, f) :: (((_, f') :: _) as B') => (f && f' = false) /\ merged B'
  | _ => True
  end.

(** The payloads in use: address and size. *)
Fixpoint allocated (a : Z) (B : list ablock) : list (Z * Z) :=
  match B with
  | [] => []
  | (s, f) :: B' =>
      (if f then [] else [(a + BLOCK_SIZE, s)]) ++ allocated (a + BLOCK_SIZE + s) B'
  end.

Definition limit (p : kproc) : Z := user_stack_top p - 2 * 1024 * 1024.

Record proc_ok (p : kproc) : Prop := {
  po_start : 0 < brk_start p /\ (PAGE_SIZE | brk_start p);
  po_brk : brk_start p <= brk p;
  po_limit : brk p < limit p;
  po_top : user_stack_top p < 2 ^ 62;
  po_mapped : forall x, brk_start p <= x < brk p -> PAGE_SIZE * (x / PAGE_SIZE) ∈ mapped p;
}.

Record heap_ok (h : heap) (B : list ablock) : Prop := {
  hk_proc : proc_ok (proc h);
  hk_brk : current_brk h = brk (proc h) \/ current_brk h = 0 /\ B = [];
  hk_extent : brk (proc h) = brk_start (proc h) + extent B;
  hk_start : heap_start h = first (brk_start (proc h)) B 0;
  hk_blocks : blocks (hdr h) (brk_start (proc h)) B 0;
  hk_sizes : Forall size_ok B;
  hk_merged : merged B;
}.

(** The payloads in use in a state with blocks [B]. *)
Definition in_use (h : heap) (B : list ablock) : list (Z * Z) := allocated (brk_start (proc h)) B.

(** ** Layout lemmas *)

Lemma extent_app B1 B2 : extent (B1 ++ B2) = extent B1 + extent B2.
Proof. induction B1 as [|[s f] B1 IH]; cbn [app extent]; lia. Qed.

Lemma extent_nonneg B : Forall size_ok B -> 0 <= extent B.
Proof.
  induction 1 as [|[s f] B [Hs _] _ IH]; cbn [extent fst] in *; unfold BLOCK_SIZE; lia.
Qed.

Lemma extent_aligned B : Forall size_ok B -> (8 | extent B).
Proof.
  induction 1 as [|[s f] B [_ Hs] _ IH]; cbn [extent]; [by exists 0|].
  apply Z.divide_add_r; [apply Z.divide_add_r; [by exists 3|done]|done].
Qed.

Lemma blocks_app hd a B1 B2 q :
  blocks hd a (B1 ++ B2) q <->
  blocks hd a B1 (first (a + extent B1) B2 q) /\ blocks hd (a + extent B1) B2 q.
Proof.
  revert a. induction B1 as [|[s f] B1 IH]; intros a; cbn [app blocks extent].
  - rewrite Z.add_0_r. tauto.
  - rewrite IH. replace (a + (BLOCK_SIZE + s + extent B1)) with (a + BLOCK_SIZE + s + extent B1) by lia.
    assert (first (a + BLOCK_SIZE + s) (B1 ++ B2) q =
            first (a + BLOCK_SIZE + s) B1 (first (a + BLOCK_SIZE + s + extent B1) B2 q)) as ->; [|tauto].
    destruct B1; [|done]. cbn [app extent first]. by rewrite Z.add_0_r.
Qed.

Lemma blocks_frame hd hd' a B q :
  Forall size_ok B -> (forall x, a <= x < a + extent B -> hd' !! x = hd !! x) ->
  blocks hd a B q -> blocks hd' a B q.
Proof.
  intros HB. revert a. induction HB as [|[s f] B [Hs _] HB IH]; intros a Hx; [done|].
  cbn [blocks extent fst] in *. pose proof (extent_nonneg B HB). unfold BLOCK_SIZE in *. intros [H1 H2]. split.
  - rewrite Hx by lia. done.
  - apply IH; [|done]. intros x Hr. apply Hx. lia.
Qed.

(** Changing where the last block points. *)
Lemma blocks_last hd a B s f q q' :
  Forall size_ok B -> blocks hd a (B ++ [(s, f)]) q ->
  blocks (alter (set_next q') (a + extent B) hd) a (B ++ [(s, f)]) q'.
Proof.
  intros HB [H1 H2]%blocks_app. apply blocks_app. cbn [first blocks] in *. destruct H2 as [H2 _]. split.
  - eapply blocks_frame; [done| |exact H1]. intros x Hx. by rewrite lookup_alter_ne by lia.
  - split; [|done]. by rewrite lookup_alter_eq, H2.
Qed.

Lemma allocated_app a B1 B2 :
  allocated a (B1 ++ B2) = allocated a B1 ++ allocated (a + extent B1) B2.
Proof.
  revert a. induction B1 as [|[s f] B1 IH]; intros a; cbn [app allocated extent].
  - by rewrite Z.add_0_r.
  - rewrite IH, <- app_assoc. do 3 f_equal. lia.
Qed.

Lemma allocated_split a B p n :
  (p, n) ∈ allocated a B -> exists B1 B2, B = B1 ++ (n, false) :: B2 /\ p = a + extent B1 + BLOCK_SIZE.
Proof.
  revert a. induction B as [|[s f] B IH]; intros a Hin; cbn [allocated] in Hin; [by apply not_elem_of_nil in Hin|].
  apply elem_of_app in Hin as [Hin|Hin].
  - destruct f; [by apply not_elem_of_nil in Hin|]. apply list_elem_of_singleton in Hin. injection Hin as -> ->.
    exists [], B. cbn [app extent]. split; [done|lia].
  - destruct (IH _ Hin) as (B1 & B2 & -> & ->). exists ((s, f) :: B1), B2. cbn [app extent]. split; [done|lia].
Qed.

(** The addresses of the headers. *)
Fixpoint addrs (a : Z) (B : list ablock) : list Z :=
  match B with [] => [] | (s, _) :: B' => a :: addrs (a + BLOCK_SIZE + s) B' end.

Lemma addrs_range a B x : Forall size_ok B -> x ∈ addrs a B -> a <= x < a + extent B.
Proof.
  intros HB. revert a. induction HB as [|[s f] B [Hs _] HB IH]; intros a Hx; cbn [addrs extent fst] in *.
  - by apply not_elem_of_nil in Hx.
  - pose proof (extent_nonneg B HB). unfold BLOCK_SIZE in *.
    apply elem_of_cons in Hx as [->|Hx]; [lia|]. specialize (IH _ Hx). lia.
Qed.

Lemma blocks_fuel hd a B q : Forall size_ok B -> blocks hd a B q -> (length B <= size hd)%nat.
Proof.
  intros HB Hbl.
  assert (Hnd : NoDup (addrs a B)).
  { clear Hbl. revert a. induction HB as [|[s f] B [Hs _] HB IH]; intros a; cbn [addrs]; constructor; [|apply IH].
    intros Hin%addrs_range; [|done]. cbn [fst] in Hs. unfold BLOCK_SIZE in Hin. lia. }
  assert (Hdom : forall x, x ∈ addrs a B -> is_Some (hd !! x)).
  { clear HB Hnd. revert a Hbl. induction B as [|[s f] B IH]; intros a Hbl x Hx; cbn [addrs blocks] in *;
      [by apply not_elem_of_nil in Hx|]. destruct Hbl as [H1 H2].
    apply elem_of_cons in Hx as [->|Hx]; [by eexists|by eapply IH]. }
  replace (length B) with (length (addrs a B)).
  - rewrite <- size_dom, <- (size_list_to_set (C := gset Z)) by done.
    apply subseteq_size. intros x Hx%elem_of_list_to_set. apply elem_of_dom. by apply Hdom.
  - clear. revert a. induction B as [|[s f] B IH]; intros a; cbn [addrs length]; [done|]. by rewrite IH.
Qed.

(** Is the first (last) block free? *)
Definition headf (B : list ablock) : bool := match B with (_, f) :: _ => f | [] => false end.
Definition lastf (B : list ablock) : bool := match last B with Some (_, f) => f | None => false end.

Lemma merged_cons s f B : merged ((s, f) :: B) <-> f && headf B = false /\ merged B.
Proof. destruct B as [|[s' f'] B]; cbn [merged headf]; [by rewrite andb_false_r|done]. Qed.

Lemma lastf_snoc B s f : lastf (B ++ [(s, f)]) = f.
Proof. unfold lastf. by rewrite last_snoc. Qed.

Lemma merged_app B1 B2 : merged (B1 ++ B2) <-> merged B1 /\ merged B2 /\ lastf B1 && headf B2 = false.
Proof.
  induction B1 as [|[s f] B1 IH]; [cbn; tauto|]. cbn [app]. rewrite !merged_cons, IH.
  destruct B1 as [|[s' f'] B1]; cbn [app headf]; [|unfold lastf; cbn [last]; tauto].
  unfold lastf. cbn. rewrite andb_false_r. tauto.
Qed.

(** ** Alignment *)

Lemma land_lnot_ones x n : 0 <= n -> Z.land x (Z.lnot (2 ^ n - 1)) = 2 ^ n * (x / 2 ^ n).
Proof.
  intros Hn. rewrite <- Z.ldiff_land. replace (2 ^ n - 1) with (Z.ones n) by (rewrite Z.ones_equiv; lia).
  rewrite Z.ldiff_ones_r by done. rewrite Z.shiftl_mul_pow2, Z.shiftr_div_pow2 by done. lia.
Qed.

Lemma PAGE_ALIGN_eq x : 0 <= x < 2 ^ 63 -> PAGE_ALIGN x = PAGE_SIZE * ((x + (PAGE_SIZE - 1)) / PAGE_SIZE).
Proof.
  intros Hx. unfold PAGE_ALIGN, PAGE_SIZE. rewrite u64_small by lia.
  change 0x1000 with (2 ^ 12). rewrite land_lnot_ones by lia. do 2 f_equal. lia.
Qed.

Lemma align8_spec x : 0 < x < 2 ^ 63 -> x <= align8 x < x + 8 /\ (8 | align8 x).
Proof.
  intros Hx. unfold align8. rewrite u64_small by lia.
  change (Z.lnot 7) with (Z.lnot (2 ^ 3 - 1)). rewrite land_lnot_ones by lia. change (2 ^ 3) with 8. split; [|apply Z.divide_factor_l].
  zlia.
Qed.

(** ** Growing the heap *)

Section Grow.
Variable can_map : Z -> bool.

Lemma map_pages_spec n : forall addr dn (m : gset Z) lo,
  lo <= addr -> (forall y, y ∈ dn -> lo <= y) ->
  let '(m', ok) := map_pages can_map n addr dn m in
  (forall x, x ∈ m -> x < lo -> x ∈ m') /\ (ok = false -> exists x, can_map x = false) /\
  (ok = true -> m ⊆ m' /\ forall i, 0 <= i < Z.of_nat n -> addr + PAGE_SIZE * i ∈ m').
Proof.
  induction n as [|n IH]; intros addr dn m lo Hlo Hdn; cbn [map_pages].
  - split_and!; [done|done|]. intros _. split; [done|]. intros; lia.
  - destruct (can_map addr) eqn:Ecm.
    + specialize (IH (addr + PAGE_SIZE) (dn ++ [addr]) ({[addr]} ∪ m) lo).
      destruct (map_pages can_map n _ _ _) as [m' ok]. destruct IH as (H1 & H0 & H2).
      { unfold PAGE_SIZE. lia. }
      { intros y [Hy|Hy%list_elem_of_singleton]%elem_of_app; [by apply Hdn|lia]. }
      split_and!; [intros x Hx ?; apply H1; [set_solver|done]|done|].
      intros Hok. destruct (H2 Hok) as [H3 H4]. split; [set_solver|]. intros i Hi.
      destruct (Z.eq_dec i 0) as [->|]; [apply H3; rewrite Z.mul_0_r, Z.add_0_r; set_solver|].
      replace (addr + PAGE_SIZE * i) with (addr + PAGE_SIZE + PAGE_SIZE * (i - 1)) by lia. apply H4. lia.
    + split_and!; [|by exists addr|done]. intros x Hx Hlt. apply elem_of_difference. split; [done|].
      intros Hd%elem_of_list_to_set%Hdn. lia.
Qed.

(** A successful growth maps every page of the new heap. *)
Lemma sys_brk_grow p new :
  proc_ok p -> brk p < new < 2 ^ 64 ->
  let '(p', r) := sys_brk can_map p new in
  proc_ok p' /\ brk_start p' = brk_start p /\ user_stack_top p' = user_stack_top p /\
  brk p' = r /\ (r = new \/ r = brk p /\ (limit p <= new \/ exists x, can_map x = false)).
Proof.
  intros [[Hs1 Hs2] Hb Hl Ht Hm] Hn. unfold sys_brk.
  rewrite (proj2 (Z.eqb_neq new 0)), (proj2 (Z.ltb_ge new (brk_start p))) by lia.
  fold (limit p). rewrite (u64_small (limit p)) by (unfold limit in *; lia).
  destruct (Z.leb_spec (limit p) new) as [|Hnl]; [by repeat split; auto 6|].
  rewrite (proj2 (Z.ltb_lt (brk p) new)) by lia.
  assert (Hlim : limit p < 2 ^ 62) by (unfold limit; lia).
  rewrite !PAGE_ALIGN_eq by lia.
  set (c0 := (brk p + (PAGE_SIZE - 1)) / PAGE_SIZE). set (c1 := (new + (PAGE_SIZE - 1)) / PAGE_SIZE).
  assert (Hn' : (PAGE_SIZE * c1 - PAGE_SIZE * c0 + PAGE_SIZE - 1) / PAGE_SIZE = c1 - c0).
  { unfold PAGE_SIZE. zlia. }
  rewrite Hn'. pose proof (map_pages_spec (Z.to_nat (c1 - c0)) (PAGE_SIZE * c0) [] (mapped p) (PAGE_SIZE * c0)) as H.
  destruct (map_pages _ _ _ _ _) as [m ok]. destruct H as (H1 & H0 & H2); [lia|by intros y Hy%not_elem_of_nil|].
  assert (Hold : forall x, brk_start p <= x < brk p -> PAGE_SIZE * (x / PAGE_SIZE) ∈ m).
  { intros x Hx. apply H1; [by apply Hm|]. unfold c0, PAGE_SIZE. zlia. }
  destruct ok; (split_and!; [split|..]; cbn [set_kbrk brk brk_start user_stack_top mapped]; auto 6; try done; try lia).
  destruct (H2 eq_refl) as [_ H4]. intros x Hx. destruct (Z.lt_ge_cases x (brk p)) as [Hlt|Hge]; [apply Hold; lia|].
  destruct (Z.lt_ge_cases (x / PAGE_SIZE) c0) as [Hc|Hc].
  - destruct Hs2 as [k Hk]. assert (brk_start p <> brk p).
    { intros E. unfold c0, PAGE_SIZE in *. zlia. }
    replace (x / PAGE_SIZE) with ((brk p - 1) / PAGE_SIZE) by (unfold c0, PAGE_SIZE in *; zlia).
    apply Hold. lia.
  - replace (PAGE_SIZE * (x / PAGE_SIZE)) with (PAGE_SIZE * c0 + PAGE_SIZE * (x / PAGE_SIZE - c0)) by lia.
    apply H4. rewrite Z2Nat.id; unfold c1, c0, PAGE_SIZE in *; zlia.
Qed.

(** [last] points to the last block, NULL if there is none. *)
Definition last_block (a : Z) (B : list ablock) (last : Z) : Prop :=
  B = [] /\ last = 0 \/ exists B1 b, B = B1 ++ [b] /\ last = a + extent B1.

Lemma heap_bound h B : heap_ok h B -> 0 < brk (proc h) < 2 ^ 62.
Proof.
  intros H. destruct (hk_proc _ _ H) as [[? _] ? ? ? _]. unfold limit in *. lia.
Qed.

Lemma sbrk_0 h B :
  heap_ok h B -> sbrk can_map h 0 = (set_brk (brk (proc h)) (proc h) h, brk (proc h)).
Proof.
  intros H. pose proof (heap_bound h B H). unfold sbrk. destruct (hk_brk _ _ H) as [E|[E _]]; rewrite E.
  - rewrite (proj2 (Z.eqb_neq (brk (proc h)) 0)) by lia. cbn [Z.eqb]. unfold set_brk. rewrite <- E. by destruct h.
  - done.
Qed.

Lemma last_block_append hd a B s f last x :
  Forall size_ok B -> 0 < a -> x = a + extent B -> last_block a B last -> blocks hd a B 0 ->
  blocks (<[x := mk_block s f 0]> (if negb (last =? 0) then alter (set_next x) last hd else hd))
    a (B ++ [(s, f)]) 0.
Proof.
  intros HB Ha -> Hl Hbl. apply blocks_app. cbn [first blocks].
  split; [|by rewrite lookup_insert_eq].
  eapply blocks_frame; [done|intros x Hx; rewrite lookup_insert_ne by lia; reflexivity|].
  destruct Hl as [[-> ->]|(B1 & [s1 f1] & -> & ->)]; [done|].
  apply Forall_app in HB as [HB1 HB2]. pose proof (extent_nonneg B1 HB1).
  rewrite (proj2 (Z.eqb_neq _ 0)) by lia. cbn [negb]. by eapply blocks_last.
Qed.

(** A new block at the end of the heap. *)
Lemma request_space_ok h B last size :
  heap_ok h B -> 0 < size < 2 ^ 63 - 24 -> (8 | size) -> last_block (brk_start (proc h)) B last ->
  let '(h', block) := request_space can_map h last size in
  brk_start (proc h') = brk_start (proc h) /\ mem h' = mem h /\ heap_start h' = heap_start h /\
  (block = 0 /\ heap_ok h' B /\ errno h' = ENOMEM /\
     (limit (proc h) <= brk (proc h) + BLOCK_SIZE + size \/ exists x, can_map x = false) \/
   block = brk (proc h) /\ heap_ok (set_start (brk_start (proc h)) h') (B ++ [(size, false)])).
Proof.
  intros H Hs Hd Hl. pose proof (heap_bound h B H) as Hb. unfold request_space. rewrite (sbrk_0 h B H).
  destruct H as [Hp Hcb Hex Hst Hbl Hsz Hmg]. unfold sbrk at 1. cbn [set_brk current_brk proc].
  rewrite (proj2 (Z.eqb_neq (brk _) 0)) by lia. 
  assert (Hinc : i64 (u64 (BLOCK_SIZE + size)) = 24 + size).
  { unfold BLOCK_SIZE. rewrite u64_small, i64_small by lia. done. }
  rewrite Hinc, (proj2 (Z.eqb_neq (24 + size) 0)) by lia.
  cbn [set_brk proc current_brk]. rewrite (u64_small (brk (proc h) + _)) by lia. pose proof (sys_brk_grow (proc h) (brk (proc h) + (24 + size)) Hp ltac:(lia)) as Hg.
  cbn [set_brk proc current_brk]. destruct (sys_brk can_map (proc h) _) as [p r].
  destruct Hg as (Hp' & Es & Et & Er & Hr). destruct Hr as [->|[-> Hwhy]].
  - rewrite (proj2 (Z.eqb_neq _ (brk (proc h)))) by lia. cbv zeta iota.
    assert (Hf : (brk (proc h) =? FAILED) = false) by (apply Z.eqb_neq; change FAILED with (2 ^ 64 - 1); lia).
    cbn [set_brk proc current_brk]. rewrite Hf. split_and!; [by destruct (negb _)..|].
    right. split; [done|].
    assert (Hbl' : blocks (<[brk (proc h) := mk_block size false 0]>
        (if negb (last =? 0) then alter (set_next (brk (proc h))) last (hdr h) else hdr h))
        (brk_start (proc h)) (B ++ [(size, false)]) 0).
    { destruct (po_start _ Hp) as [? _]. by apply last_block_append. }
    split; destruct (negb (last =? 0)); cbn; try done; rewrite ?Es; try done; try (by left).
    all: try (rewrite Er, extent_app; cbn [extent]; unfold BLOCK_SIZE; lia).
    all: try (by apply Forall_app; split; [|apply Forall_singleton; split; [cbn; lia|]]).
    all: try by (apply merged_app; rewrite andb_false_r).
    all: by destruct B.
  - rewrite Z.eqb_refl. cbn [set_errno set_brk proc hdr mem errno]. split_and!; [done..|]. left.
    split_and!; try done; [|unfold BLOCK_SIZE; by replace (brk (proc h) + 24 + size) with (brk (proc h) + (24 + size)) by lia].
    split; cbn; try done; rewrite ?Es; try done; [by left|congruence].
Qed.

End Grow.

(** ** Allocation *)

Lemma find_free_block_spec h B a last size fuel :
  0 < a -> Forall size_ok B -> blocks (hdr h) a B 0 -> (length B <= fuel)%nat ->
  (exists B1 s B2 last', B = B1 ++ (s, true) :: B2 /\ size <= s /\
     find_free_block fuel h (first a B 0) last size = (a + extent B1, last')) \/
  exists last', find_free_block fuel h (first a B 0) last size = (0, last') /\
    Forall (fun b => b.2 = true -> b.1 < size) B /\ (B = [] /\ last' = last \/ exists B1 b, B = B1 ++ [b] /\ last' = a + extent B1).
Proof.
  intros Ha HB. revert a last fuel Ha.
  induction HB as [|[s f] B [Hs _] HB IH]; intros a last fuel Ha Hbl Hf.
  - right. exists last. split_and!; [by destruct fuel|done|by left].
  - destruct fuel as [|fuel]; [cbn in Hf; lia|]. cbn [blocks first find_free_block] in *. destruct Hbl as [H1 H2].
    rewrite (proj2 (Z.eqb_neq a 0)) by lia. unfold free_at, size_at, next_at. rewrite H1. cbn [b_free b_size b_next].
    destruct (f && (size <=? s)) eqn:E.
    + left. exists [], s, B, last. apply andb_true_iff in E as [-> E%Z.leb_le]. cbn [app extent].
      by rewrite Z.add_0_r.
    + destruct (IH (a + BLOCK_SIZE + s) a fuel ltac:(cbn in Hs; unfold BLOCK_SIZE; lia) H2 ltac:(cbn in Hf; lia))
        as [(B1 & s' & B2 & l' & -> & Hle & ->)|(l' & -> & Hno & Hl)].
      * left. exists ((s, f) :: B1), s', B2, l'. cbn [app extent]. split_and!; [done..|]. f_equal. lia.
      * right. exists l'. split_and!; [done| |].
        { apply Forall_cons. split; [|done]. cbn. intros ->. apply andb_false_iff in E as [?|?%Z.leb_gt]; done. }
        right. destruct Hl as [[-> ->]|(B1 & b & -> & ->)].
        -- exists [], (s, f). cbn. split; [done|lia].
        -- exists ((s, f) :: B1), b. cbn [app extent]. split; [done|lia].
Qed.

(** The invariant only depends on the headers of the heap. *)
Lemma heap_ok_set_hdr h B B' hd :
  heap_ok h B -> extent B' = extent B -> B <> [] -> B' <> [] ->
  blocks hd (brk_start (proc h)) B' 0 -> Forall size_ok B' -> merged B' -> heap_ok (set_hdr hd h) B'.
Proof.
  intros [Hp Hcb Hex Hst Hbl Hsz Hmg] He Hne Hne' Hb Hs Hm. split; cbn; try done; [|congruence|].
  - destruct Hcb as [?|[_ ?]]; [by left|done].
  - rewrite Hst. by destruct B, B'.
Qed.

(** What allocating from the free block [s] leaves in its place. *)
Definition take_block (s size : Z) : list ablock :=
  if size + BLOCK_SIZE + 16 <=? s then [(size, false); (s - size - BLOCK_SIZE, true)] else [(s, false)].

Lemma extent_take_block s size : extent (take_block s size) = BLOCK_SIZE + s.
Proof. unfold take_block. case_if; cbn [extent]; unfold BLOCK_SIZE; lia. Qed.

Lemma split_block_ok h B1 s B2 size :
  let a := brk_start (proc h) + extent B1 in
  heap_ok h (B1 ++ (s, true) :: B2) -> 0 < size <= s -> (8 | size) ->
  heap_ok (upd_block a (set_free false) (split_block h a size)) (B1 ++ take_block s size ++ B2).
Proof.
  intros a H Hs Hd. pose proof (heap_bound _ _ H) as Hbd. destruct (po_start _ (hk_proc _ _ H)) as [Hst0 _].
  pose proof (hk_extent _ _ H) as Hex. pose proof (hk_sizes _ _ H) as Hsz. pose proof (hk_merged _ _ H) as Hmg.
  pose proof (hk_blocks _ _ H) as Hbl. apply blocks_app in Hbl as [Hb1 [Hb2 Hb3]]. cbn [first] in Hb1. fold a in Hb1, Hb2, Hb3.
  rewrite extent_app in Hex. cbn [extent] in Hex.
  apply Forall_app in Hsz as [Hz1 [[_ Hz2] Hz3]%Forall_cons]. cbn [fst] in Hz2.
  apply merged_app in Hmg as (Hm1 & [Hm2 Hm3]%merged_cons & Hm4). cbn [headf] in Hm4.
  pose proof (extent_nonneg _ Hz1). pose proof (extent_nonneg _ Hz3).
  unfold split_block, size_at, next_at. rewrite Hb2. cbn [b_size b_next]. unfold BLOCK_SIZE in *.
  rewrite (u64_small (size + 24 + 16)) by lia. unfold take_block, BLOCK_SIZE.
  destruct (Z.leb_spec (size + 24 + 16) s) as [Hle|Hgt].
  - rewrite !u64_small by lia.
    apply (heap_ok_set_hdr h (B1 ++ (s, true) :: B2)); try done; try (by destruct B1).
    + rewrite !extent_app. cbn [extent]. unfold BLOCK_SIZE. lia.
    + cbn [upd_block put_block set_hdr hdr]. apply blocks_app. split.
      * eapply blocks_frame; [done| |exact Hb1]. intros x Hx.
        rewrite !lookup_alter_ne, lookup_insert_ne by lia. done.
      * fold a. cbn [app blocks first]. unfold BLOCK_SIZE. split_and!.
        -- rewrite !lookup_alter_eq, lookup_insert_ne, Hb2 by lia. done.
        -- rewrite !lookup_alter_ne, lookup_insert_eq by lia.
           do 3 f_equal. lia.
        -- replace (a + 24 + size + 24 + (s - size - 24)) with (a + 24 + s) by lia.
           eapply blocks_frame; [done| |exact Hb3]. intros x Hx.
           rewrite !lookup_alter_ne, lookup_insert_ne by lia. done.
    + apply Forall_app. split; [done|]. cbn [app]. rewrite !Forall_cons. split_and!; [split; [cbn; lia|done]|split; [cbn; lia|]|done].
      apply Z.divide_sub_r; [by apply Z.divide_sub_r|by exists 3].
    + apply merged_app. cbn [app]. rewrite !merged_cons. cbn [headf]. rewrite !andb_false_r. cbn [andb] in Hm2. by rewrite Hm2.
  - apply (heap_ok_set_hdr h (B1 ++ (s, true) :: B2)); try done; try (by destruct B1).
    + rewrite !extent_app. cbn [extent app]. unfold BLOCK_SIZE. lia.
    + cbn [set_hdr hdr]. apply blocks_app. split.
      * eapply blocks_frame; [done| |exact Hb1]. intros x Hx. by rewrite lookup_alter_ne by lia.
      * fold a. cbn [app blocks]. split; [by rewrite lookup_alter_eq, Hb2|].
        eapply blocks_frame; [done| |exact Hb3]. intros x Hx. unfold BLOCK_SIZE in *. by rewrite lookup_alter_ne by lia.
    + apply Forall_app. split; [done|]. cbn [app]. rewrite Forall_cons. split; [split; [cbn; lia|done]|done].
    + apply merged_app. cbn [app]. rewrite !merged_cons. cbn [headf]. rewrite !andb_false_r. done.
Qed.

Lemma in_use_take_block a s size :
  allocated a (take_block s size) =
    [(a + BLOCK_SIZE, if size + BLOCK_SIZE + 16 <=? s then size else s)].
Proof. unfold take_block. by case_if. Qed.

(** The largest request: beyond it the size computations wrap around. *)
Definition max_request : Z := 2 ^ 63 - 32.

(** No free block has [size] bytes and the heap cannot grow: it would reach the
    stack, or some page cannot be mapped. *)
Definition exhausted (can_map : Z -> bool) (h : heap) (B : list ablock) (size : Z) : Prop :=
  Forall (fun b => b.2 = true -> b.1 < size) B /\
  (limit (proc h) <= brk (proc h) + BLOCK_SIZE + size \/ exists x, can_map x = false).

(** The outcomes of [malloc]: NULL and an unchanged heap if memory is exhausted,
    else one more payload. *)
Definition malloc_result (can_map : Z -> bool) (h : heap) (B : list ablock) (sz : Z) (h' : heap) (p : Z) : Prop :=
  exists B', heap_ok h' B' /\ brk_start (proc h') = brk_start (proc h) /\ mem h' = mem h /\
  (p = 0 /\ B' = B /\ errno h' = ENOMEM /\ exhausted can_map h B (align8 (Z.max 1 sz)) \/
   exists n, 0 < p < 2 ^ 62 /\ (8 | p) /\ 0 < n /\ sz <= n /\
     Permutation (in_use h' B') ((p, n) :: in_use h B)).

Lemma malloc_size sz :
  0 <= sz <= max_request ->
  let size := align8 (if sz =? 0 then 1 else sz) in 0 < size < 2 ^ 63 - 24 /\ sz <= size /\ (8 | size) /\
  size = align8 (Z.max 1 sz).
Proof.
  intros Hsz. unfold max_request in Hsz. cbv zeta. destruct (Z.eqb_spec sz 0) as [->|].
  - split_and!; [done..|by exists 1|done].
  - destruct (align8_spec sz) as ([??] & Hd); [lia|]. rewrite Z.max_r by lia. split_and!; try lia; done.
Qed.

(** Where the payloads of a heap can be. *)
Lemma payload_addr h B1 b B2 :
  heap_ok h (B1 ++ b :: B2) ->
  let p := brk_start (proc h) + extent B1 + BLOCK_SIZE in (8 | p) /\ 24 < p < 2 ^ 62 /\ p + b.1 <= brk (proc h).
Proof.
  intros H p. pose proof (heap_bound _ _ H). destruct (po_start _ (hk_proc _ _ H)) as [Hst0 [k Hk]].
  pose proof (hk_extent _ _ H) as Hex. destruct b as [s f]. rewrite extent_app in Hex. cbn [extent fst] in *.
  pose proof (hk_sizes _ _ H) as [Hf1 [[Hs _] Hf2]%Forall_cons]%Forall_app. cbn [fst] in Hs.
  pose proof (extent_nonneg _ Hf1). pose proof (extent_nonneg _ Hf2). unfold p, BLOCK_SIZE in *. split; [|lia].
  apply Z.divide_add_r; [apply Z.divide_add_r; [exists (k * 512); unfold PAGE_SIZE in *; lia|by apply extent_aligned]|by exists 3].
Qed.

Lemma set_start_id h : set_start (heap_start h) h = h.
Proof. by destruct h. Qed.

Section Malloc.
Variable can_map : Z -> bool.

(** No free block fits: the heap grows. *)
Lemma malloc_extend h B last sz size :
  heap_ok h B -> 0 < size < 2 ^ 63 - 24 -> sz <= size -> (8 | size) -> size = align8 (Z.max 1 sz) ->
  Forall (fun b => b.2 = true -> b.1 < size) B -> last_block (brk_start (proc h)) B last ->
  let '(h1, block) := request_space can_map h last size in
  let start := first (brk_start (proc h)) B block in
  malloc_result can_map h B sz (if block =? 0 then h1 else set_start start h1)
    (if block =? 0 then 0 else u64 (block + BLOCK_SIZE)).
Proof.
  intros H Hs Hle Hd Hsz Hno Hl. pose proof (request_space_ok can_map h B last size H Hs Hd Hl) as Hr.
  pose proof (heap_bound _ _ H) as Hbd.
  destruct (request_space can_map h last size) as [h' blk]. destruct Hr as (E1 & E2 & E3 & [(-> & H' & Ee & Hwhy)|[-> H']]).
  - exists B. split_and!; try done. left. split_and!; try done. unfold exhausted. by rewrite <- Hsz.
  - cbv zeta. rewrite (proj2 (Z.eqb_neq _ 0)) by lia. exists (B ++ [(size, false)]).
    assert (Ef : first (brk_start (proc h)) B (brk (proc h)) = brk_start (proc h)).
    { destruct B; [|done]. rewrite (hk_extent _ _ H). cbn [first extent]. lia. }
    rewrite Ef. split_and!; [done|by cbn|by cbn|]. right. exists size.
    pose proof (payload_addr _ _ _ _ H') as (Hp1 & Hp2 & _). cbn [proc set_start] in Hp1, Hp2. rewrite E1 in Hp1, Hp2.
    rewrite <- (hk_extent _ _ H) in Hp1, Hp2. rewrite u64_small by lia. split_and!; try lia; [done|].
    unfold in_use. cbn [proc set_start]. rewrite E1, allocated_app, <- (hk_extent _ _ H). cbn [allocated app].
    by rewrite <- Permutation_cons_append.
Qed.

(** A free block fits: it is used, split when it is much larger. *)
Lemma malloc_found h B1 s B2 sz size :
  let a := brk_start (proc h) + extent B1 in
  heap_ok h (B1 ++ (s, true) :: B2) -> 0 < size <= s -> sz <= size -> (8 | size) ->
  malloc_result can_map h (B1 ++ (s, true) :: B2) sz
    (upd_block a (set_free false) (split_block h a size)) (u64 (a + BLOCK_SIZE)).
Proof.
  intros a H Hs Hle Hd. exists (B1 ++ take_block s size ++ B2).
  assert (Es : proc (split_block h a size) = proc h) by (unfold split_block; by case_if).
  assert (Em : mem (split_block h a size) = mem h) by (unfold split_block; by case_if).
  split_and!; [by apply split_block_ok|cbn; by rewrite Es|by cbn|]. right.
  pose proof (payload_addr _ _ _ _ H) as (Hp1 & Hp2 & _). fold a in Hp1, Hp2. rewrite u64_small by lia.
  exists (if size + BLOCK_SIZE + 16 <=? s then size else s).
  split_and!; try lia; [done|case_if; lia|case_if; lia|].
  unfold in_use. cbn [upd_block set_hdr proc]. rewrite Es, !allocated_app, in_use_take_block, extent_take_block.
  fold a. cbn [allocated app]. rewrite Z.add_assoc. symmetry. apply Permutation_middle.
Qed.

Lemma malloc_ok h B sz :
  heap_ok h B -> 0 <= sz <= max_request ->
  malloc_result can_map h B sz (malloc can_map h sz).1 (malloc can_map h sz).2.
Proof.
  intros H Hsz. destruct (malloc_size sz Hsz) as (Hs1 & Hs2 & Hs3 & Hs4). unfold malloc.
  set (size := align8 _) in *. clearbody size. pose proof (hk_start _ _ H) as Hst.
  destruct (po_start _ (hk_proc _ _ H)) as [Hst0 _]. destruct (decide (B = [])) as [EB|HneB].
  - pose proof (malloc_extend h B 0 sz size H Hs1 Hs2 Hs3 Hs4 ltac:(by rewrite EB) ltac:(by left)) as Hr.
    rewrite Hst. rewrite EB in *. cbn [first] in *. rewrite Z.eqb_refl.
    destruct (request_space can_map h 0 size) as [h' blk]. by destruct (blk =? 0).
  - assert (Hf : forall q, first (brk_start (proc h)) B q = brk_start (proc h)) by (by destruct B).
    rewrite Hf in Hst. rewrite Hst, (proj2 (Z.eqb_neq _ 0)) by lia.
    pose proof (find_free_block_spec h B _ (brk_start (proc h)) size (base.size (hdr h)) Hst0 (hk_sizes _ _ H) (hk_blocks _ _ H)
      (blocks_fuel _ _ _ _ (hk_sizes _ _ H) (hk_blocks _ _ H))) as Hff.
    rewrite Hf in Hff. destruct Hff as [(B1 & s & B2 & l' & -> & Hle & ->)|(l' & -> & Hno & Hl)].
    + pose proof (payload_addr _ _ _ _ H) as (_ & Hp & _). unfold BLOCK_SIZE in Hp.
      rewrite (proj2 (Z.eqb_neq _ 0)) by lia. apply malloc_found; [done|lia|done..].
    + cbn [Z.eqb]. pose proof (request_space_ok can_map h B l' size H Hs1 Hs3) as Hr.
      pose proof (malloc_extend h B l' sz size H Hs1 Hs2 Hs3 Hs4 Hno) as Hm.
      assert (Hlb : last_block (brk_start (proc h)) B l') by (destruct Hl as [[? _]|Hl]; [done|by right]).
      specialize (Hr Hlb). specialize (Hm Hlb).
      destruct (request_space can_map h l' size) as [h' blk]. destruct Hr as (_ & _ & E3 & _).
      cbv zeta in Hm. rewrite Hf, <- Hst, <- E3, set_start_id in Hm. by destruct (blk =? 0).
Qed.

End Malloc.

(** ** Release *)

(** Changing the free flag of one block. *)
Lemma blocks_set_free hd a B1 s f f' B2 :
  Forall size_ok (B1 ++ (s, f) :: B2) -> blocks hd a (B1 ++ (s, f) :: B2) 0 ->
  blocks (alter (set_free f') (a + extent B1) hd) a (B1 ++ (s, f') :: B2) 0.
Proof.
  intros [Hz1 [[Hs _] Hz2]%Forall_cons]%Forall_app [H1 [H2 H3]]%blocks_app.
  apply blocks_app. cbn [blocks first fst] in *. unfold BLOCK_SIZE in *. split_and!.
  - eapply blocks_frame; [done| |exact H1]. intros x Hx. by rewrite lookup_alter_ne by lia.
  - by rewrite lookup_alter_eq, H2.
  - eapply blocks_frame; [done| |exact H3]. intros x Hx. unfold BLOCK_SIZE in *. by rewrite lookup_alter_ne by lia.
Qed.

(** Merging a block with its successor. *)
Lemma blocks_coalesce hd a B1 s1 s2 f1 f2 B2 :
  Forall size_ok (B1 ++ (s1, f1) :: (s2, f2) :: B2) -> blocks hd a (B1 ++ (s1, f1) :: (s2, f2) :: B2) 0 ->
  let x := a + extent B1 in
  blocks (alter (set_size_next (s1 + (BLOCK_SIZE + s2)) (first (x + BLOCK_SIZE + s1 + BLOCK_SIZE + s2) B2 0)) x hd)
    a (B1 ++ (s1 + (BLOCK_SIZE + s2), f1) :: B2) 0.
Proof.
  intros [Hz1 [[Hs1 _] [[Hs2 _] Hz2]%Forall_cons]%Forall_cons]%Forall_app [H1 (H2 & H3 & H4)]%blocks_app x.
  apply blocks_app. cbn [blocks first fst] in *. fold x in H1, H2, H3, H4 |- *. split_and!.
  - eapply blocks_frame; [done| |exact H1]. intros y Hy. by rewrite lookup_alter_ne by lia.
  - rewrite lookup_alter_eq, H2. unfold set_size_next. cbn. do 3 f_equal. by rewrite !Z.add_assoc.
  - replace (x + BLOCK_SIZE + (s1 + (BLOCK_SIZE + s2))) with (x + BLOCK_SIZE + s1 + BLOCK_SIZE + s2) by lia.
    eapply blocks_frame; [done| |exact H4]. intros y Hy. unfold BLOCK_SIZE in *. by rewrite lookup_alter_ne by lia.
Qed.

Lemma block_at hd a B1 s f B2 :
  blocks hd a (B1 ++ (s, f) :: B2) 0 ->
  hd !! (a + extent B1) = Some (mk_block s f (first (a + extent B1 + BLOCK_SIZE + s) B2 0)).
Proof. intros [_ [H _]]%blocks_app. exact H. Qed.

(** The walk from the start of the heap finds the predecessor. *)
Lemma find_prev_block_spec h B a q b B2 fuel :
  0 < a -> Forall size_ok (B ++ b :: B2) -> blocks (hdr h) a (B ++ b :: B2) 0 -> (length B < fuel)%nat ->
  find_prev_block fuel h q a (a + extent B) =
    match last B with Some (s, _) => a + extent B - s - BLOCK_SIZE | None => q end.
Proof.
  revert a q fuel. induction B as [|[s f] B IH]; intros a q fuel Ha HB Hbl Hf; (destruct fuel as [|fuel]; [cbn in Hf; lia|]).
  - cbn [find_prev_block extent last]. by rewrite Z.add_0_r, Z.eqb_refl, orb_true_r.
  - cbn [app] in HB, Hbl. apply Forall_cons in HB as [[Hs _] HB]. destruct Hbl as [H1 H2]. cbn [fst] in Hs.
    pose proof (proj1 (Forall_app _ _ _) HB) as [HB1 _]. pose proof (extent_nonneg _ HB1).
    cbn [find_prev_block extent]. unfold BLOCK_SIZE in *.
    rewrite (proj2 (Z.eqb_neq a 0)), (proj2 (Z.eqb_neq a _)) by lia. cbn [orb]. unfold next_at. rewrite H1. cbn [b_next].
    assert (Hn : first (a + 24 + s) (B ++ b :: B2) 0 = a + 24 + s) by (by destruct B). rewrite Hn.
    replace (a + (24 + s + extent B)) with (a + 24 + s + extent B) by lia.
    rewrite IH; [|lia|done|done|cbn in Hf; lia]. destruct B as [|b1 B']; [cbn; lia|].
    change (last ((s, f) :: b1 :: B')) with (last (b1 :: B')). destruct (last (b1 :: B')) as [[sl fl]|] eqn:E; [lia|].
    by apply last_None in E.
Qed.

(** The list after freeing a block between [B1] and [B2]. *)
Definition merge_next (n : Z) (B2 : list ablock) : list ablock :=
  match B2 with
  | (s, true) :: B2' => (n + (BLOCK_SIZE + s), true) :: B2'
  | _ => (n, true) :: B2
  end.

Definition freed (B1 : list ablock) (n : Z) (B2 : list ablock) : list ablock :=
  match last B1, merge_next n B2 with
  | Some (s, true), (n', _) :: B2' => removelast B1 ++ (s + (BLOCK_SIZE + n'), true) :: B2'
  | _, B => B1 ++ B
  end.

Lemma merge_next_shape n B2 :
  Forall size_ok B2 -> size_ok (n, false) -> merged B2 -> exists n' B2', merge_next n B2 = (n', true) :: B2' /\
    size_ok (n', true) /\ Forall size_ok B2' /\ merged ((n', true) :: B2') /\
    BLOCK_SIZE + n' + extent B2' = BLOCK_SIZE + n + extent B2 /\
    (forall a, allocated (a + BLOCK_SIZE + n') B2' = allocated (a + BLOCK_SIZE + n) B2).
Proof.
  intros HB Hn Hm. destruct B2 as [|[s f] B2]; [by exists n, []|]. destruct f.
  - exists (n + (BLOCK_SIZE + s)), B2. apply Forall_cons in HB as [[Hs1 Hs2] HB]. apply merged_cons in Hm as [Hm1 Hm2].
    split_and!; [done| |done|by apply merged_cons|cbn [extent]; lia|].
    + destruct Hn as [? ?]. unfold BLOCK_SIZE. cbn in *. split; cbn; [lia|].
      apply Z.divide_add_r; [done|apply Z.divide_add_r; [by exists 3|done]].
    + intros a. cbn [allocated app]. f_equal. lia.
  - exists n, ((s, false) :: B2). split_and!; try done.
Qed.

Lemma freed_shape B1 n' B2' :
  Forall size_ok B1 -> size_ok (n', true) -> Forall size_ok B2' -> merged B1 -> merged ((n', true) :: B2') ->
  let B := match last B1 with
           | Some (s, true) => removelast B1 ++ (s + (BLOCK_SIZE + n'), true) :: B2'
           | _ => B1 ++ (n', true) :: B2'
           end in
  B <> [] /\ Forall size_ok B /\ merged B /\ extent B = extent (B1 ++ (n', true) :: B2') /\
  (forall a, allocated a B = allocated a (B1 ++ (n', true) :: B2')).
Proof.
  intros H1 Hn H2 Hm1 Hm2 B. unfold B. destruct B1 as [|[s f] B1 _] using rev_ind.
  - cbn [last app]. split_and!; try done. by apply Forall_cons.
  - rewrite last_snoc, removelast_last. apply merged_app in Hm1 as (Hm1 & _ & Hm3). cbn [headf] in Hm3.
    apply Forall_app in H1 as [H1 [[Hs1 Hs2] _]%Forall_cons].
    destruct f; (split_and!; [by destruct B1| | | |]).
    + apply Forall_app. split; [done|]. apply Forall_cons. split; [|done]. destruct Hn as [? ?].
      cbn in *. unfold BLOCK_SIZE. split; cbn; [lia|].
      apply Z.divide_add_r; [done|apply Z.divide_add_r; [by exists 3|done]].
    + apply merged_cons in Hm2 as [Hm2 Hm4]. apply merged_app. cbn [headf]. split_and!; [done| |done]. by apply merged_cons.
    + rewrite !extent_app. cbn [extent]. lia.
    + intros a. rewrite !allocated_app. cbn [allocated app]. rewrite app_nil_r. f_equal. rewrite extent_app. cbn [extent].
      f_equal. lia.
    + apply Forall_app. split; [apply Forall_app; split; [done|by apply Forall_singleton]|by apply Forall_cons].
    + apply merged_app. rewrite lastf_snoc. split_and!; [|done|done]. apply merged_app. by rewrite andb_false_r.
    + done.
    + done.
Qed.

(** The forward merge of [free]. *)
Lemma free_next_ok h a B1 n B2 :
  let x := a + extent B1 in
  0 < a -> Forall size_ok (B1 ++ (n, true) :: B2) -> blocks (hdr h) a (B1 ++ (n, true) :: B2) 0 ->
  a + extent (B1 ++ (n, true) :: B2) < 2 ^ 62 ->
  let nx := next_at h x in
  exists hd, (if negb (nx =? 0) && free_at h nx then
      upd_block x (set_size_next (u64 (size_at h x + (BLOCK_SIZE + size_at h nx))) (next_at h nx)) h
    else h) = set_hdr hd h /\ blocks hd a (B1 ++ merge_next n B2) 0.
Proof.
  intros x Ha HB Hbl Hlt nx. pose proof (block_at _ _ _ _ _ _ Hbl) as Hx. fold x in Hx.
  assert (Hid : set_hdr (hdr h) h = h) by (by destruct h).
  assert (Enx : nx = first (x + BLOCK_SIZE + n) B2 0) by (unfold nx, next_at; by rewrite Hx).
  assert (Esx : size_at h x = n) by (unfold size_at; by rewrite Hx). rewrite Esx. rewrite Enx in *. clear nx Enx Esx.
  pose proof (proj1 (Forall_app _ _ _) HB) as [HB1 [[Hn _] HB2]%Forall_cons]. cbn [fst] in Hn.
  pose proof (extent_nonneg _ HB1). rewrite extent_app in Hlt. cbn [extent] in Hlt.
  destruct B2 as [|[s f] B2]; [exists (hdr h); cbn; by rewrite Hid|]. cbn [first].
  assert (Hn2 : hdr h !! (x + BLOCK_SIZE + n) = Some (mk_block s f (first (x + BLOCK_SIZE + n + BLOCK_SIZE + s) B2 0))).
  { destruct (proj1 (blocks_app _ _ _ _ _) Hbl) as [_ (_ & H3 & _)]. exact H3. }
  unfold free_at, next_at, size_at. rewrite Hn2. cbn [b_free b_size b_next].
  apply Forall_cons in HB2 as [[Hs _] HB2]. cbn [fst] in Hs. pose proof (extent_nonneg _ HB2). cbn [extent] in Hlt.
  unfold BLOCK_SIZE in *. rewrite (proj2 (Z.eqb_neq _ 0)) by lia. cbn [negb andb].
  destruct f; [|exists (hdr h); cbn; by rewrite Hid]. rewrite u64_small by lia.
  eexists. split; [reflexivity|]. cbn [merge_next]. unfold BLOCK_SIZE. by apply (blocks_coalesce (hdr h) a B1 n s true true B2).
Qed.

(** The backward merge. *)
Lemma free_prev_ok h a B1 n B2 fuel :
  let x := a + extent B1 in
  0 < a -> Forall size_ok (B1 ++ (n, true) :: B2) -> blocks (hdr h) a (B1 ++ (n, true) :: B2) 0 ->
  a + extent (B1 ++ (n, true) :: B2) < 2 ^ 62 -> (length B1 < fuel)%nat ->
  let prev := find_prev_block fuel h 0 a x in
  exists hd, (if negb (prev =? 0) && free_at h prev then
      upd_block prev (set_size_next (u64 (size_at h prev + (BLOCK_SIZE + size_at h x))) (next_at h x)) h
    else h) = set_hdr hd h /\
    blocks hd a (match last B1 with
                 | Some (s, true) => removelast B1 ++ (s + (BLOCK_SIZE + n), true) :: B2
                 | _ => B1 ++ (n, true) :: B2
                 end) 0.
Proof.
  intros x Ha HB Hbl Hlt Hf prev. pose proof (block_at _ _ _ _ _ _ Hbl) as Hx. fold x in Hx.
  assert (Hid : set_hdr (hdr h) h = h) by (by destruct h).
  unfold prev, x. rewrite (find_prev_block_spec h B1 a 0 (n, true) B2) by done. fold x.
  destruct B1 as [|[s f] B1 _] using rev_ind; [exists (hdr h); by rewrite Hid|].
  rewrite last_snoc, removelast_last. rewrite <- app_assoc in HB, Hbl, Hlt. cbn [app] in HB, Hbl, Hlt.
  pose proof (proj1 (Forall_app _ _ _) HB) as [HB1 [[Hs _] [[Hn _] HB2]%Forall_cons]%Forall_cons]. cbn [fst] in Hn, Hs.
  pose proof (extent_nonneg _ HB1). pose proof (extent_nonneg _ HB2). rewrite extent_app in Hlt. cbn [extent] in Hlt.
  assert (Ex : x - s - BLOCK_SIZE = a + extent B1) by (unfold x; rewrite extent_app; cbn [extent]; lia). rewrite Ex.
  pose proof (block_at _ _ _ _ _ _ Hbl) as Hp. unfold free_at, size_at, next_at. rewrite Hp, Hx. cbn [b_free b_size b_next].
  unfold BLOCK_SIZE in *. rewrite (proj2 (Z.eqb_neq _ 0)) by lia. cbn [negb andb].
  destruct f; [|exists (hdr h); rewrite <- app_assoc; by rewrite Hid]. rewrite u64_small by lia.
  eexists. split; [reflexivity|]. pose proof (blocks_coalesce (hdr h) a B1 s n true true B2 HB Hbl) as Hc. cbv zeta in Hc.
  unfold BLOCK_SIZE in Hc. replace (x + 24 + n) with (a + extent B1 + 24 + s + 24 + n) by lia. exact Hc.
Qed.

Lemma free_ok h B p n :
  heap_ok h B -> (p, n) ∈ in_use h B ->
  exists B', heap_ok (free h p) B' /\ proc (free h p) = proc h /\ mem (free h p) = mem h /\
    Permutation (in_use h B) ((p, n) :: in_use (free h p) B').
Proof.
  intros H Hin. destruct (allocated_split _ _ _ _ Hin) as (B1 & B2 & EB & Ep). rewrite EB in H.
  pose proof (payload_addr _ _ _ _ H) as (_ & Hpr & _). pose proof (heap_bound _ _ H) as Hbd.
  destruct (po_start _ (hk_proc _ _ H)) as [Ha _]. pose proof (hk_extent _ _ H) as Hex.
  pose proof (proj1 (Forall_app _ _ _) (hk_sizes _ _ H)) as [HB1 [Hn HB2]%Forall_cons].
  pose proof (proj1 (merged_app _ _) (hk_merged _ _ H)) as (Hm1 & [_ Hm2]%merged_cons & _).
  destruct (merge_next_shape n B2 HB2 Hn Hm2) as (n' & B2' & Emn & Hn' & HB2' & Hm2' & Hext & Hall).
  destruct (freed_shape B1 n' B2' HB1 Hn' HB2' Hm1 Hm2') as (Hne & HBf & Hmf & Hef & Haf).
  set (a := brk_start (proc h)) in *. set (x := a + extent B1) in *.
  assert (HBt : Forall size_ok (B1 ++ (n, true) :: B2)) by (apply Forall_app; split; [done|by apply Forall_cons]).
  unfold free. rewrite (proj2 (Z.eqb_neq p 0)) by lia.
  assert (Hblk : get_block_ptr p = x) by (unfold get_block_ptr; rewrite u64_small; unfold BLOCK_SIZE in *; lia).
  rewrite Hblk. pose proof (blocks_set_free _ _ _ _ _ true _ (hk_sizes _ _ H) (hk_blocks _ _ H)) as Hb1.
  fold a x in Hb1. set (h1 := upd_block x (set_free true) h).
  rewrite extent_app in Hex. cbn [extent] in Hex.
  destruct (free_next_ok h1 a B1 n B2 Ha HBt Hb1) as (hd2 & E2 & Hb2); [rewrite extent_app; cbn [extent]; lia|].
  cbv zeta in E2. fold x in E2. cbv zeta. rewrite E2. rewrite Emn in Hb2.
  assert (HBt2 : Forall size_ok (B1 ++ (n', true) :: B2')) by (apply Forall_app; split; [done|by apply Forall_cons]).
  set (h2 := set_hdr hd2 h1).
  assert (Hst : heap_start h2 = a) by (unfold h2, h1; cbn; rewrite (hk_start _ _ H); by destruct B1).
  destruct (free_prev_ok h2 a B1 n' B2' (base.size (hdr h2)) Ha HBt2 Hb2) as (hd3 & E3 & Hb3).
  { rewrite extent_app. cbn [extent]. lia. }
  { pose proof (blocks_fuel _ _ _ _ HBt2 Hb2) as Hf. rewrite length_app in Hf. eapply Nat.lt_le_trans; [|exact Hf]. apply Nat.lt_add_pos_r, Nat.lt_0_succ. }
  cbv zeta in E3. fold x in E3. rewrite Hst, E3. eexists. split_and!; [|done|done|].
  - apply (heap_ok_set_hdr h _ _ hd3 H); [|by destruct B1|exact Hne|exact Hb3|exact HBf|exact Hmf].
    rewrite Hef, !extent_app. cbn [extent]. lia.
  - unfold in_use. cbn [set_hdr proc]. change (proc h2) with (proc h). fold a. rewrite Haf, EB, !allocated_app.
    cbn [allocated app]. fold x. rewrite Hall, Ep. fold x. symmetry. apply Permutation_middle.
Qed.

(** ** Separation *)

Lemma allocated_range a B p n :
  Forall size_ok B -> (p, n) ∈ allocated a B -> a + BLOCK_SIZE <= p /\ p + n <= a + extent B /\ 0 < n.
Proof.
  intros HB Hin. destruct (allocated_split _ _ _ _ Hin) as (B1 & B2 & -> & ->).
  apply Forall_app in HB as [H1 [[H2 _] H3]%Forall_cons]. cbn [fst] in H2.
  pose proof (extent_nonneg _ H1). pose proof (extent_nonneg _ H3). rewrite extent_app. cbn [extent].
  unfold BLOCK_SIZE. lia.
Qed.

Definition disjoint_from (x y : Z * Z) : Prop := x.1 + x.2 <= y.1 \/ y.1 + y.2 <= x.1.

Lemma allocated_separate a B :
  Forall size_ok B ->
  NoDup (allocated a B) /\
  (forall x y, x ∈ allocated a B -> y ∈ allocated a B -> x = y \/ disjoint_from x y).
Proof.
  intros HB. revert a. induction HB as [|[s f] B [Hs _] HB IH]; intros a; cbn [allocated fst] in *.
  - split; [constructor|]. by intros x y ?%not_elem_of_nil.
  - destruct (IH (a + BLOCK_SIZE + s)) as [IH1 IH2]. destruct f; [done|]. cbn [app].
    assert (Hfar : forall y, y ∈ allocated (a + BLOCK_SIZE + s) B -> a + BLOCK_SIZE + s < y.1).
    { intros [q m] Hy. apply allocated_range in Hy as [? _]; [|done]. unfold BLOCK_SIZE in *. cbn. lia. }
    split; [constructor; [|done]; intros Hin%Hfar; cbn in Hin; lia|].
    intros x y [->|Hx]%elem_of_cons [->|Hy]%elem_of_cons; auto; right; unfold disjoint_from; cbn.
    + left. specialize (Hfar _ Hy). lia.
    + right. specialize (Hfar _ Hx). lia.
Qed.

Lemma header_separate a B p n x :
  Forall size_ok B -> (p, n) ∈ allocated a B -> x ∈ addrs a B -> p + n <= x \/ x + BLOCK_SIZE <= p.
Proof.
  intros HB. revert a. induction HB as [|[s f] B [Hs _] HB IH]; intros a Hin Hx; cbn [allocated addrs fst] in *;
    [by apply not_elem_of_nil in Hx|].
  apply elem_of_app in Hin as [Hin|Hin].
  - destruct f; [by apply not_elem_of_nil in Hin|]. apply list_elem_of_singleton in Hin. injection Hin as -> ->.
    apply elem_of_cons in Hx as [->|Hx]; [lia|]. apply addrs_range in Hx; [|done]. lia.
  - apply elem_of_cons in Hx as [->|Hx]; [|by apply (IH _ Hin Hx)]. apply allocated_range in Hin; [|done].
    unfold BLOCK_SIZE in *. lia.
Qed.

(** ** Properties *)

Lemma size_at_payload h B p n : heap_ok h B -> (p, n) ∈ in_use h B -> size_at h (get_block_ptr p) = n.
Proof.
  intros H Hin. destruct (allocated_split _ _ _ _ Hin) as (B1 & B2 & -> & Ep).
  pose proof (payload_addr _ _ _ _ H) as (_ & Hr & _). unfold get_block_ptr. rewrite Ep.
  rewrite u64_small by (unfold BLOCK_SIZE in *; lia). rewrite Z.add_simpl_r. unfold size_at.
  by rewrite (block_at _ _ _ _ _ _ (hk_blocks _ _ H)).
Qed.

Lemma all_free a B : merged B -> allocated a B = [] -> B = [] \/ exists s, B = [(s, true)].
Proof.
  destruct B as [|[s f] B]; [by left|]. intros [Hm1 Hm2]%merged_cons Ha. cbn [allocated] in Ha. destruct f; [|done].
  right. exists s. destruct B as [|[s' f'] B]; [done|]. cbn [headf andb] in Hm1. subst f'. done.
Qed.


(**  [free] of a payload in use takes exactly that payload out of use, keeps
    the tiling invariant (neighbouring free blocks are merged) and all bytes; when
    nothing is left in use the heap is a single free block. *)
Theorem free_spec h B p n :
  heap_ok h B -> (p, n) ∈ in_use h B ->
  exists B', heap_ok (free h p) B' /\ mem (free h p) = mem h /\
    Permutation (in_use h B) ((p, n) :: in_use (free h p) B') /\
    (in_use (free h p) B' = [] -> B' = [(extent B - BLOCK_SIZE, true)]).
Proof.
  intros H Hin. destruct (free_ok h B p n H Hin) as (B' & H' & Ep & Em & Hp). exists B'. split_and!; try done.
  intros Hnil. pose proof (hk_extent _ _ H') as Hex. rewrite Ep, (hk_extent _ _ H) in Hex.
  destruct (all_free _ _ (hk_merged _ _ H') Hnil) as [->|[s ->]].
  - cbn [extent] in Hex. pose proof (allocated_range _ _ _ _ (hk_sizes _ _ H) Hin). unfold BLOCK_SIZE in *. lia.
  - cbn [extent] in Hex. do 2 f_equal. lia.
Qed.


(** C29.  [realloc] of a payload in use either fails and changes neither payloads
    nor bytes, or replaces the payload by one of at least the requested size that
    starts with the same bytes, leaving the bytes of every other payload as they
    were. *)
Theorem realloc_spec can_map h B p n sz :
  heap_ok h B -> (p, n) ∈ in_use h B -> 0 < sz <= max_request ->
  let h' := (realloc can_map h p sz).1 in
  let q := (realloc can_map h p sz).2 in
  exists B', heap_ok h' B' /\
  (q = 0 /\ Permutation (in_use h' B') (in_use h B) /\ mem h' = mem h \/
   exists m, 0 < q /\ sz <= m /\
     Permutation ((p, n) :: in_use h' B') ((q, m) :: in_use h B) /\
     (forall i, 0 <= i < Z.min n sz -> byte_at (mem h') (q + i) = byte_at (mem h) (p + i)) /\
     (forall r k i, (r, k) ∈ in_use h B -> (r, k) <> (p, n) -> 0 <= i < k ->
        byte_at (mem h') (r + i) = byte_at (mem h) (r + i))).
Proof.
  intros H Hin Hsz. destruct (allocated_range _ _ _ _ (hk_sizes _ _ H) Hin) as (Hp1 & _ & Hn).
  destruct (po_start _ (hk_proc _ _ H)) as [Ha _]. unfold BLOCK_SIZE in Hp1.
  unfold realloc. rewrite (proj2 (Z.eqb_neq p 0)), (proj2 (Z.eqb_neq sz 0)), (size_at_payload h B p n H Hin) by lia.
  destruct (Z.leb_spec sz n) as [Hle|Hgt].
  { exists B. split; [done|]. right. exists n. cbn [fst snd]. split_and!; try done; lia. }
  pose proof (malloc_ok can_map h B sz H ltac:(lia)) as Hm. destruct (malloc can_map h sz) as [h1 q].
  cbn [fst snd] in Hm. destruct Hm as (B1 & H1 & Es & Em & [(-> & -> & _)|(m & Hq & _ & Hm0 & Hm & Hperm)]).
  { cbn [Z.eqb fst snd]. exists B. split; [done|]. left. split_and!; [done| |done]. unfold in_use. by rewrite Es. }
  rewrite (proj2 (Z.eqb_neq q 0)) by lia. cbn [fst snd].
  destruct (allocated_separate (brk_start (proc h1)) B1 (hk_sizes _ _ H1)) as [Hnd Hsep]. fold (in_use h1 B1) in Hnd, Hsep.
  rewrite Hperm in Hnd. apply NoDup_cons in Hnd as [Hqn _].
  assert (Hin1 : forall x, x ∈ in_use h B -> x ∈ in_use h1 B1 /\ disjoint_from (q, m) x).
  { intros x Hx. assert (Hx1 : x ∈ in_use h1 B1) by (rewrite Hperm; by right). split; [done|].
    assert (Hq1 : (q, m) ∈ in_use h1 B1) by (rewrite Hperm; left).
    destruct (Hsep _ _ Hq1 Hx1) as [<-|?]; done. }
  rewrite (size_at_payload h1 B1 p n H1) by (by apply Hin1). set (h2 := set_mem _ h1).
  assert (H2 : heap_ok h2 B1) by (by destruct H1; split).
  destruct (free_ok h2 B1 p n H2) as (B2 & H3 & _ & Em2 & Hp2); [by apply Hin1|].
  change (in_use h2 B1) with (in_use h1 B1) in Hp2.
  destruct (Hin1 (p, n) Hin) as [_ Hd]. unfold disjoint_from in Hd. cbn [fst snd] in Hd.
  assert (Hby : forall x, byte_at (mem h2) x = if decide (q <= x < q + n) then byte_at (mem h) (p + (x - q)) else byte_at (mem h) x).
  { intros x. unfold h2. cbn [set_mem mem]. rewrite byte_memcpy, Z2Nat.id, Em by lia. done. }
  exists B2. split; [done|]. right. exists m. rewrite Em2. split_and!; [lia|lia|by rewrite <- Hp2| |].
  - intros i Hi. rewrite Hby, decide_True by lia. f_equal. lia.
  - intros r k i Hr _ Hi. destruct (Hin1 (r, k) Hr) as [_ Hdr]. unfold disjoint_from in Hdr. cbn [fst snd] in Hdr.
    rewrite Hby, decide_False by lia. done.
Qed.

(** [calloc] without multiplication overflow returns NULL or a payload in
    use whose first [nmemb * size] bytes are zero; the bytes of the other payloads
    keep their values. *)
Theorem calloc_spec can_map h B nmemb sz :
  heap_ok h B -> 0 <= nmemb -> 0 <= sz -> nmemb * sz <= max_request ->
  let h' := (calloc can_map h nmemb sz).1 in
  let p := (calloc can_map h nmemb sz).2 in
  exists B', heap_ok h' B' /\
  (p = 0 /\ in_use h' B' = in_use h B /\ mem h' = mem h /\
     exhausted can_map h B (align8 (Z.max 1 (nmemb * sz))) \/
   exists n, 0 < p /\ nmemb * sz <= n /\ Permutation (in_use h' B') ((p, n) :: in_use h B) /\
     (forall i, 0 <= i < nmemb * sz -> byte_at (mem h') (p + i) = 0) /\
     (forall r k i, (r, k) ∈ in_use h B -> 0 <= i < k ->
        byte_at (mem h') (r + i) = byte_at (mem h) (r + i))).
Proof.
  intros H Hn Hs Hmax. unfold max_request in Hmax. unfold calloc. rewrite u64_small by nia.
  assert (H0 : 0 <= nmemb * sz) by nia. set (total := nmemb * sz) in *. clearbody total.
  pose proof (malloc_ok can_map h B total H ltac:(unfold max_request; lia)) as Hm.
  destruct (malloc can_map h total) as [h1 p]. cbn [fst snd] in Hm.
  destruct Hm as (B1 & H1 & Es & Em & [(-> & -> & _ & He)|(m & Hq & _ & Hm0 & Hm & Hperm)]).
  { exists B. split; [done|]. left. split_and!; try done. unfold in_use. cbn. by rewrite Es. }
  rewrite (proj2 (Z.eqb_neq p 0)) by lia. cbn [negb fst snd]. exists B1. split; [by destruct H1; split|].
  right. exists m. cbn [set_mem mem]. split_and!; [lia|lia|done| |].
  - intros i Hi. by rewrite byte_memset, decide_True by lia.
  - intros r k i Hr Hi. rewrite byte_memset, Em, decide_False; [done|].
    destruct (allocated_separate (brk_start (proc h1)) B1 (hk_sizes _ _ H1)) as [Hnd Hsep]. fold (in_use h1 B1) in Hnd, Hsep.
    rewrite Hperm in Hnd. apply NoDup_cons in Hnd as [Hqn _].
    destruct (Hsep (p, m) (r, k)) as [E|Hd]; [rewrite Hperm; left|rewrite Hperm; by right|by rewrite E in Hqn|].
    unfold disjoint_from in Hd. cbn [fst snd] in Hd. lia.
Qed.

(** ** Witnesses *)

Definition all_pages (_ : Z) : bool := true.

Definition demo_proc : kproc := mk_kproc 0x500000 0x500000 0x7FFF0000 ∅.
Definition fresh_heap : heap := mk_heap ∅ ∅ 0 0 demo_proc 0.

Lemma fresh_heap_ok : heap_ok fresh_heap [].
Proof.
  split; try done; [|by right]. split; cbn; try done; try lia. split; [lia|by exists 0x500].
Qed.

(** The heap after two allocations of 100 and 40 bytes. *)
Definition demo_heap : heap := Eval vm_compute in
  (malloc all_pages (malloc all_pages fresh_heap 100).1 40).1.

Lemma demo_heap_ok : heap_ok demo_heap [(104, false); (40, false)].
Proof.
  split; try done.
  - split; [split; [done|by exists 0x500]|done..|]. intros x Hx.
    replace (x / PAGE_SIZE) with 0x500 by (change (brk (proc demo_heap)) with 0x5000C0 in Hx;
      change (brk_start (proc demo_heap)) with 0x500000 in Hx; unfold PAGE_SIZE; zlia).
    by vm_compute.
  - by left.
  - repeat constructor; try done; [by exists 13|by exists 5].
Qed.


Lemma free_spec_witness :
  exists B', heap_ok (free demo_heap 0x500018) B' /\ mem (free demo_heap 0x500018) = mem demo_heap /\
    Permutation [(0x500018, 104); (0x500098, 40)] ((0x500018, 104) :: in_use (free demo_heap 0x500018) B') /\
    (in_use (free demo_heap 0x500018) B' = [] -> B' = [(168, true)]).
Proof. apply (free_spec demo_heap [(104, false); (40, false)]); [apply demo_heap_ok|left]. Defined.


Lemma realloc_spec_witness :
  let h' := (realloc all_pages demo_heap 0x500018 200).1 in
  let q := (realloc all_pages demo_heap 0x500018 200).2 in
  exists B', heap_ok h' B' /\
  (q = 0 /\ Permutation (in_use h' B') (in_use demo_heap [(104, false); (40, false)]) /\ mem h' = mem demo_heap \/
   exists m, 0 < q /\ 200 <= m /\
     Permutation ((0x500018, 104) :: in_use h' B') ((q, m) :: in_use demo_heap [(104, false); (40, false)]) /\
     (forall i, 0 <= i < Z.min 104 200 -> byte_at (mem h') (q + i) = byte_at (mem demo_heap) (0x500018 + i)) /\
     (forall r k i, (r, k) ∈ in_use demo_heap [(104, false); (40, false)] -> (r, k) <> (0x500018, 104) -> 0 <= i < k ->
        byte_at (mem h') (r + i) = byte_at (mem demo_heap) (r + i))).
Proof. apply realloc_spec; [apply demo_heap_ok|left|by split]. Defined.

Lemma calloc_spec_witness :
  let h' := (calloc all_pages demo_heap 4 8).1 in
  let p := (calloc all_pages demo_heap 4 8).2 in
  exists B', heap_ok h' B' /\
  (p = 0 /\ in_use h' B' = in_use demo_heap [(104, false); (40, false)] /\ mem h' = mem demo_heap /\
     exhausted all_pages demo_heap [(104, false); (40, false)] (align8 (Z.max 1 32)) \/
   exists n, 0 < p /\ 32 <= n /\ Permutation (in_use h' B') ((p, n) :: in_use demo_heap [(104, false); (40, false)]) /\
     (forall i, 0 <= i < 32 -> byte_at (mem h') (p + i) = 0) /\
     (forall r k i, (r, k) ∈ in_use demo_heap [(104, false); (40, false)] -> 0 <= i < k ->
        byte_at (mem h') (r + i) = byte_at (mem demo_heap) (r + i))).
Proof. apply (calloc_spec all_pages demo_heap _ 4 8); [apply demo_heap_ok|lia|lia|by vm_compute]. Defined.

(** ** Requests that overflow

    Close to [SIZE_MAX] the size computation wraps around: the request of
    2^64 - 40 bytes succeeds and moves the break down by 16 bytes, so the next
    block is placed over the payload of the last one. *)
Lemma malloc_huge_overlaps :
  let h1 := (malloc all_pages demo_heap (2 ^ 64 - 40)).1 in
  (malloc all_pages demo_heap (2 ^ 64 - 40)).2 = 0x5000D8 /\
  brk (proc h1) = brk (proc demo_heap) - 16 /\ (malloc all_pages h1 8).2 = 0x5000C8.
Proof. by vm_compute. Qed.

(** [SIZE_MAX] itself is rounded to 0. *)
Lemma malloc_max_rounds : align8 (2 ^ 64 - 1) = 0.
Proof. by vm_compute. Qed.
