(* ===== verification/Printf.v ===== *)
(** * Formatted output and number parsing

    [vsnprintf] ([userland/libc/src/stdio/stdio.c]) for the integer, pointer,
    string and character conversions, and the [strtol] family
    ([userland/libc/src/stdlib/stdlib.c]).  A C string is the list of its bytes
    without the terminator; [None] stands for undefined behaviour (a missing or
    mistyped argument, a format that ends inside a directive, so that the code
    steps over the terminator).  The floating-point conversions are not modelled
    and also give [None]. *)

From Stdlib Require Import ZArith Lia Bool Ascii String.
From stdpp Require Import base list gmap.
From S2P Require Import Prelude.

Open Scope Z_scope.

Fixpoint str (s : string) : list Z :=
  match s with EmptyString => [] | String a s' => Z.of_nat (nat_of_ascii a) :: str s' end.

Definition ch (a : ascii) : Z := Z.of_nat (nat_of_ascii a).

(** ** Numbers to digits *)

Definition digit_char (uppercase : bool) (d : Z) : Z :=
  if d <? 10 then ch "0" + d else (if uppercase then ch "A" else ch "a") + (d - 10).

(** [temp] holds the digits, least significant first; they are copied in
    reverse, so [acc] is built most significant first. *)
Fixpoint num_digits (fuel : nat) (unum base : Z) (uppercase : bool) (acc : list Z) : list Z :=
  match fuel with
  | O => acc
  | S fuel' =>
      if unum =? 0 then acc
      else num_digits fuel' (unum / base) base uppercase (digit_char uppercase (unum mod base) :: acc)
  end.

Definition num_to_str (num base : Z) (uppercase : bool) : list Z :=
  if num =? 0 then [ch "0"]
  else
    let is_negative := (num <? 0) && (base =? 10) in
    let num := if is_negative then i64 (- num) else num in
    (if is_negative then [ch "-"] else []) ++ num_digits 64 (u64 num) base uppercase [].

(** ** Directives *)

Inductive arg := AInt (v : Z) | AStr (s : option (list Z)).

Record flags := mk_flags {
  fl_minus : bool; fl_zero : bool; fl_plus : bool; fl_space : bool; fl_hash : bool;
}.

Record directive := mk_directive { d_fl : flags; d_width : Z; d_prec : Z; d_lng : Z }.

Fixpoint parse_flags (fmt : list Z) (f : flags) : flags * list Z :=
  match fmt with
  | [] => (f, [])
  | c :: fmt' =>
      if c =? ch "-" then parse_flags fmt' (mk_flags true (fl_zero f) (fl_plus f) (fl_space f) (fl_hash f))
      else if c =? ch "0" then parse_flags fmt' (mk_flags (fl_minus f) true (fl_plus f) (fl_space f) (fl_hash f))
      else if c =? ch "+" then parse_flags fmt' (mk_flags (fl_minus f) (fl_zero f) true (fl_space f) (fl_hash f))
      else if c =? ch " " then parse_flags fmt' (mk_flags (fl_minus f) (fl_zero f) (fl_plus f) true (fl_hash f))
      else if c =? ch "#" then parse_flags fmt' (mk_flags (fl_minus f) (fl_zero f) (fl_plus f) (fl_space f) true)
      else (f, fmt)
  end.

Definition is_digit (c : Z) : bool := (ch "0" <=? c) && (c <=? ch "9").

Fixpoint parse_number (fmt : list Z) (acc : Z) : Z * list Z :=
  match fmt with
  | [] => (acc, [])
  | c :: fmt' => if is_digit c then parse_number fmt' (i32 (acc * 10 + (c - ch "0"))) else (acc, fmt)
  end.

(** [va_arg(ap, int)] *)
Definition va_int (args : list arg) : option (Z * list arg) :=
  match args with AInt v :: args' => Some (i32 v, args') | _ => None end.

Definition first_char (fmt : list Z) : Z := match fmt with c :: _ => c | [] => 0 end.

(** Flags, width, precision and length modifier. *)
Definition parse_width (fmt : list Z) (f : flags) (args : list arg)
    : option (flags * Z * list Z * list arg) :=
  if first_char fmt =? ch "*" then
    '(w, args) ← va_int args;
    let '(f, w) := if w <? 0 then (mk_flags true (fl_zero f) (fl_plus f) (fl_space f) (fl_hash f), i32 (- w))
                   else (f, w) in
    Some (f, w, tail fmt, args)
  else let '(w, fmt) := parse_number fmt 0 in Some (f, w, fmt, args).

Definition parse_prec (fmt : list Z) (args : list arg) : option (Z * list Z * list arg) :=
  if first_char fmt =? ch "." then
    let fmt := tail fmt in
    if first_char fmt =? ch "*" then
      '(p, args) ← va_int args;
      Some (if p <? 0 then -1 else p, tail fmt, args)
    else let '(p, fmt) := parse_number fmt 0 in Some (p, fmt, args)
  else Some (-1, fmt, args).

Definition parse_length (fmt : list Z) : Z * list Z :=
  if first_char fmt =? ch "l" then
    let fmt := tail fmt in if first_char fmt =? ch "l" then (2, tail fmt) else (1, fmt)
  else if (first_char fmt =? ch "z") || (first_char fmt =? ch "j") then (2, tail fmt)
  else if first_char fmt =? ch "h" then
    let fmt := tail fmt in (0, if first_char fmt =? ch "h" then tail fmt else fmt)
  else (0, fmt).

Definition parse_directive (fmt : list Z) (args : list arg) : option (directive * list Z * list arg) :=
  let '(f, fmt) := parse_flags fmt (mk_flags false false false false false) in
  let f := if fl_minus f then mk_flags true false (fl_plus f) (fl_space f) (fl_hash f) else f in
  '(f, w, fmt, args) ← parse_width fmt f args;
  '(p, fmt, args) ← parse_prec fmt args;
  let '(l, fmt) := parse_length fmt in
  Some (mk_directive f w p l, fmt, args).

(** ** Conversions: the bytes a directive produces, in order *)

Definition pad (n : Z) (c : Z) : list Z := replicate (Z.to_nat n) c.
Definition len (l : list Z) : Z := Z.of_nat (length l).
Definition when (b : bool) (l : list Z) : list Z := if b then l else [].

Definition signed_arg (lng v : Z) : Z := if (lng =? 2) || (lng =? 1) then i64 v else i32 v.
Definition unsigned_arg (lng v : Z) : Z := if (lng =? 2) || (lng =? 1) then u64 v else u32 v.

Definition conv_d (d : directive) (v : Z) : list Z :=
  let f := d_fl d in
  let val := signed_arg (d_lng d) v in
  let sign := if val <? 0 then [ch "-"] else if fl_plus f then [ch "+"]
              else when (fl_space f) [ch " "] in
  let uval := if val <? 0 then u64 (u64 (- (val + 1)) + 1) else val in
  let buf := num_to_str (i64 uval) 10 false in
  let total := len buf + len sign in
  let p := if total <? d_width d then d_width d - total else 0 in
  when (negb (fl_minus f) && negb (fl_zero f)) (pad p (ch " ")) ++ sign ++
  when (negb (fl_minus f) && fl_zero f) (pad p (ch "0")) ++ buf ++
  when (fl_minus f) (pad p (ch " ")).

(** [%u] and [%o] *)
Definition conv_u (d : directive) (base v : Z) : list Z :=
  let f := d_fl d in
  let buf := num_to_str (i64 (unsigned_arg (d_lng d) v)) base false in
  let p := if len buf <? d_width d then d_width d - len buf else 0 in
  when (negb (fl_minus f)) (pad p (if fl_zero f then ch "0" else ch " ")) ++ buf ++
  when (fl_minus f) (pad p (ch " ")).

Definition conv_x (d : directive) (upper : bool) (v : Z) : list Z :=
  let f := d_fl d in
  let val := unsigned_arg (d_lng d) v in
  let buf := num_to_str (i64 val) 16 upper in
  let pfx := when (fl_hash f && negb (val =? 0)) [ch "0"; if upper then ch "X" else ch "x"] in
  let total := len buf + len pfx in
  let p := if total <? d_width d then d_width d - total else 0 in
  (if negb (fl_minus f) then
     if fl_zero f then pfx ++ pad p (ch "0") else pad p (ch " ") ++ pfx
   else pfx) ++ buf ++ when (fl_minus f) (pad p (ch " ")).

Definition conv_p (v : Z) : list Z := [ch "0"; ch "x"] ++ num_to_str (i64 (u64 v)) 16 false.

Definition conv_s (d : directive) (s : option (list Z)) : list Z :=
  let s := match s with Some s => s | None => str "(null)" end in
  let slen := if (0 <=? d_prec d) && (d_prec d <? len s) then d_prec d else len s in
  let p := if slen <? d_width d then d_width d - slen else 0 in
  when (negb (fl_minus (d_fl d))) (pad p (ch " ")) ++ take (Z.to_nat slen) s ++
  when (fl_minus (d_fl d)) (pad p (ch " ")).

Definition conv_c (d : directive) (v : Z) : list Z :=
  let p := if 1 <? d_width d then d_width d - 1 else 0 in
  when (negb (fl_minus (d_fl d))) (pad p (ch " ")) ++ [u8 v] ++
  when (fl_minus (d_fl d)) (pad p (ch " ")).

Definition is_float_conv (c : Z) : bool :=
  existsb (Z.eqb c) (str "fFeEgG").

(** The switch on the conversion character. *)
Definition convert (d : directive) (c : Z) (args : list arg) : option (list Z * list arg) :=
  let int_arg (k : Z -> list Z) :=
    match args with AInt v :: args' => Some (k v, args') | _ => None end in
  if (c =? ch "d") || (c =? ch "i") then int_arg (conv_d d)
  else if c =? ch "u" then int_arg (conv_u d 10)
  else if (c =? ch "x") || (c =? ch "X") then int_arg (conv_x d (c =? ch "X"))
  else if c =? ch "o" then int_arg (conv_u d 8)
  else if c =? ch "p" then int_arg conv_p
  else if c =? ch "s" then match args with AStr s :: args' => Some (conv_s d s, args') | _ => None end
  else if c =? ch "c" then int_arg (conv_c d)
  else if is_float_conv c then None
  else Some ([c], args).

(** ** The output loop *)

(** [if (pos < size - 1) str[pos++] = c;] for each byte; [lim] is [size - 1]. *)
Fixpoint emit (lim : nat) (out l : list Z) : list Z :=
  match l with
  | [] => out
  | c :: l' => emit lim (if (length out <? lim)%nat then out ++ [c] else out) l'
  end.

Fixpoint format_loop (fuel lim : nat) (out fmt : list Z) (args : list arg) : option (list Z) :=
  match fuel with
  | O => None
  | S fuel' =>
      match fmt with
      | [] => Some out
      | c :: fmt' =>
          if (lim <=? length out)%nat then Some out
          else if negb (c =? ch "%") then format_loop fuel' lim (out ++ [c]) fmt' args
          else if first_char fmt' =? ch "%" then format_loop fuel' lim (out ++ [ch "%"]) (tail fmt') args
          else
            '(d, fmt, args) ← parse_directive fmt' args;
            match fmt with
            | [] => None
            | c :: fmt => '(piece, args) ← convert d c args; format_loop fuel' lim (emit lim out piece) fmt args
            end
      end
  end.

(** Result: the buffer and the return value; a NULL buffer is [None]. *)
Definition vsnprintf (buf : option (list Z)) (size : nat) (fmt : list Z) (args : list arg)
    : option (option (list Z) * Z) :=
  match buf, size with
  | Some b, S lim =>
      out ← format_loop (S (length fmt)) lim [] fmt args;
      Some (Some (write_at 0 (out ++ [0]) b), len out)
  | _, _ =>
      out ← format_loop (S (length fmt)) 8191 [] fmt args;
      Some (buf, len out)
  end.

(** ** Parsing numbers *)

Definition is_space (c : Z) : bool :=
  (c =? ch " ") || (c =? 9) || (c =? 10) || (c =? 13) || (c =? 12) || (c =? 11).

Fixpoint skip_space (s : list Z) : list Z :=
  match s with c :: s' => if is_space c then skip_space s' else s | [] => [] end.

Definition digit_value (c : Z) : option Z :=
  if is_digit c then Some (c - ch "0")
  else if (ch "a" <=? c) && (c <=? ch "z") then Some (c - ch "a" + 10)
  else if (ch "A" <=? c) && (c <=? ch "Z") then Some (c - ch "A" + 10)
  else None.

Fixpoint strtol_digits (s : list Z) (base acc : Z) : Z * list Z :=
  match s with
  | [] => (acc, [])
  | c :: s' =>
      match digit_value c with
      | Some digit => if base <=? digit then (acc, s) else strtol_digits s' base (i64 (acc * base + digit))
      | None => (acc, s)
      end
  end.

(** The value and what is left at [*endptr]. *)
Definition strtol (nptr : list Z) (base : Z) : Z * list Z :=
  let s := skip_space nptr in
  let '(neg, s) := if first_char s =? ch "-" then (true, tail s)
                   else if first_char s =? ch "+" then (false, tail s) else (false, s) in
  let hex := (first_char (tail s) =? ch "x") || (first_char (tail s) =? ch "X") in
  let '(base, s) :=
    if base =? 0 then
      if first_char s =? ch "0" then if hex then (16, tail (tail s)) else (8, s) else (10, s)
    else if (base =? 16) && (first_char s =? ch "0") && hex then (base, tail (tail s))
    else (base, s) in
  let '(acc, s) := strtol_digits s base 0 in
  (if neg : bool then i64 (- acc) else acc, s).

Definition strtoul (nptr : list Z) (base : Z) : Z * list Z :=
  let '(v, s) := strtol nptr base in (u64 v, s).
Definition strtoll (nptr : list Z) (base : Z) : Z * list Z := strtol nptr base.
Definition strtoull (nptr : list Z) (base : Z) : Z * list Z :=
  let '(v, s) := strtoll nptr base in (u64 v, s).
Definition atol (nptr : list Z) : Z := (strtol nptr 10).1.
Definition atoi (nptr : list Z) : Z := i32 (atol nptr).
Definition atoll (nptr : list Z) : Z := (strtoll nptr 10).1.

(** ** The unbounded output

    What a format produces when the buffer is large enough. *)
Fixpoint render (fuel : nat) (fmt : list Z) (args : list arg) : option (list Z) :=
  match fuel with
  | O => None
  | S fuel' =>
      match fmt with
      | [] => Some []
      | c :: fmt' =>
          if negb (c =? ch "%") then s ← render fuel' fmt' args; Some (c :: s)
          else if first_char fmt' =? ch "%" then s ← render fuel' (tail fmt') args; Some (ch "%" :: s)
          else
            '(d, fmt, args) ← parse_directive fmt' args;
            match fmt with
            | [] => None
            | c :: fmt =>
                '(piece, args) ← convert d c args;
                s ← render fuel' fmt args; Some (piece ++ s)
            end
      end
  end.

Definition printf_output (fmt : list Z) (args : list arg) : option (list Z) :=
  render (S (length fmt)) fmt args.

(** Directives consume the format, so [S (length fmt)] rounds are enough. *)
Lemma parse_flags_length fmt : forall f, (length (parse_flags fmt f).2 <= length fmt)%nat.
Proof.
  induction fmt as [|c fmt IH]; intros f; cbn [parse_flags length]; [done|].
  repeat case_if; cbn [snd length]; try (etrans; [apply IH|lia]); lia.
Qed.

Lemma parse_number_length fmt : forall k, (length (parse_number fmt k).2 <= length fmt)%nat.
Proof.
  induction fmt as [|c fmt IH]; intros k; cbn [parse_number length]; [done|].
  case_if; cbn [snd length]; [etrans; [apply IH|]; lia|lia].
Qed.

Lemma length_tail {A} (l : list A) : (length (tail l) <= length l)%nat.
Proof. destruct l; cbn; lia. Qed.

Lemma parse_width_length fmt f args f' w fmt' args' :
  parse_width fmt f args = Some (f', w, fmt', args') -> (length fmt' <= length fmt)%nat.
Proof.
  unfold parse_width. case_if.
  - destruct (va_int args) as [[x a]|]; [|done]. cbn. destruct (if x <? 0 then _ else _). intros [= _ _ <- _]. apply length_tail.
  - pose proof (parse_number_length fmt 0). destruct (parse_number fmt 0). intros [= _ _ <- _]. done.
Qed.

Lemma parse_prec_length fmt args p fmt' args' :
  parse_prec fmt args = Some (p, fmt', args') -> (length fmt' <= length fmt)%nat.
Proof.
  unfold parse_prec. case_if; [|intros [= _ <- _]; lia]. pose proof (length_tail fmt). case_if.
  - destruct (va_int args) as [[x a]|]; [|done]. cbn. intros [= _ <- _]. etrans; [apply length_tail|done].
  - pose proof (parse_number_length (tail fmt) 0). destruct (parse_number (tail fmt) 0). intros [= _ <- _]. cbn in *. lia.
Qed.

Lemma parse_length_length fmt : (length (parse_length fmt).2 <= length fmt)%nat.
Proof.
  unfold parse_length. pose proof (length_tail fmt). pose proof (length_tail (tail fmt)).
  repeat case_if; cbn [snd]; lia.
Qed.

Lemma parse_directive_length fmt args d fmt' args' :
  parse_directive fmt args = Some (d, fmt', args') -> (length fmt' <= length fmt)%nat.
Proof.
  unfold parse_directive. pose proof (parse_flags_length fmt (mk_flags false false false false false)) as H1.
  destruct (parse_flags fmt _) as [f fmt1]. cbn [snd] in H1.
  destruct (parse_width fmt1 _ args) as [[[[f2 w] fmt2] args2]|] eqn:E2; [|done]. apply parse_width_length in E2.
  cbn [mbind option_bind]. destruct (parse_prec fmt2 args2) as [[[p fmt3] args3]|] eqn:E3; [|done].
  apply parse_prec_length in E3. cbn [mbind option_bind]. pose proof (parse_length_length fmt3) as H4.
  destruct (parse_length fmt3) as [l fmt4]. cbn [snd] in H4. intros [= _ <- _]. lia.
Qed.

Lemma render_fuel fuel k : forall fmt args,
  (length fmt < fuel)%nat -> render (fuel + k) fmt args = render fuel fmt args.
Proof.
  induction fuel as [|fuel IH]; intros fmt args Hf; [lia|]. cbn [Nat.add render]. destruct fmt as [|c fmt]; [done|].
  cbn [length] in Hf. pose proof (length_tail fmt). case_if; [rewrite IH by lia; done|]. case_if; [rewrite IH by lia; done|].
  destruct (parse_directive fmt args) as [[[d fmt'] args']|] eqn:Ed; [|done]. apply parse_directive_length in Ed.
  cbn [mbind option_bind]. destruct fmt' as [|c' fmt']; [done|]. cbn [length] in Ed.
  destruct (convert d c' args') as [[piece args'']|]; [|done]. cbn [mbind option_bind]. rewrite IH by lia. done.
Qed.

(** ** Truncation *)

Lemma emit_spec lim l : forall out, (length out <= lim)%nat -> emit lim out l = take lim (out ++ l).
Proof.
  induction l as [|c l IH]; intros out Hl; cbn [emit].
  - by rewrite app_nil_r, take_ge.
  - destruct (Nat.ltb_spec (length out) lim) as [Hlt|Hge].
    + rewrite IH by (rewrite length_app; cbn; lia). by rewrite <- app_assoc.
    + rewrite IH by done. rewrite !take_app_le by lia. done.
Qed.

Lemma take_app_take {A} n (l1 l2 : list A) : take n (take n l1 ++ l2) = take n (l1 ++ l2).
Proof.
  destruct (decide (length l1 <= n)%nat); [by rewrite (take_ge l1)|].
  rewrite !take_app_le by (rewrite ?length_take; lia). by rewrite take_take, Nat.min_id.
Qed.

Lemma format_loop_spec fuel lim : forall out fmt args s,
  (length out <= lim)%nat -> render fuel fmt args = Some s ->
  format_loop fuel lim out fmt args = Some (take lim (out ++ s)).
Proof.
  induction fuel as [|fuel IH]; intros out fmt args s Hl Hr; [done|]. cbn [render format_loop] in *.
  destruct fmt as [|c fmt]; [injection Hr as <-; by rewrite app_nil_r, take_ge|].
  destruct (Nat.leb_spec lim (length out)) as [Hge|Hlt]; [by rewrite take_app_le, take_ge by lia|].
  assert (Hone : forall b, (length (out ++ [b]) <= lim)%nat) by (intros; rewrite length_app; cbn; lia).
  destruct (negb (c =? ch "%")).
  { destruct (render fuel fmt args) as [s'|] eqn:E; [|done]. injection Hr as <-.
    by rewrite (IH _ _ _ s'), <- app_assoc by done. }
  destruct (first_char fmt =? ch "%").
  { destruct (render fuel (tail fmt) args) as [s'|] eqn:E; [|done]. injection Hr as <-.
    by rewrite (IH _ _ _ s'), <- app_assoc by done. }
  destruct (parse_directive fmt args) as [[[d fmt'] args']|]; [|done]. cbn [mbind option_bind] in *.
  destruct fmt' as [|c' fmt']; [done|]. destruct (convert d c' args') as [[piece args'']|]; [|done].
  cbn [mbind option_bind] in *. destruct (render fuel fmt' args'') as [s'|] eqn:E; [|done]. injection Hr as <-.
  rewrite emit_spec by done. rewrite (IH _ _ _ s') by (done || rewrite length_take; lia).
  by rewrite take_app_take, <- app_assoc.
Qed.

(** C34.  [vsnprintf] into a buffer of [size > 0] bytes stores exactly the longest
    prefix of the unbounded output that leaves room for the terminator, and the
    terminator; it returns the number of bytes stored and touches no byte behind
    the terminator, so it never writes outside the buffer. *)
Theorem vsnprintf_truncates b size fmt args s :
  printf_output fmt args = Some s -> (0 < size)%nat -> (size <= length b)%nat ->
  let n := Nat.min (length s) (size - 1) in
  vsnprintf (Some b) size fmt args =
    Some (Some (take n s ++ [0] ++ drop (S n) b), Z.of_nat n).
Proof.
  intros Hr Hs Hb n. destruct size as [|lim]; [lia|]. unfold vsnprintf.
  rewrite (format_loop_spec _ lim [] fmt args s); [|cbn; lia|exact Hr]. cbn [mbind option_bind app].
  assert (En : take lim s = take n s).
  { unfold n. replace (S lim - 1)%nat with lim by lia. destruct (decide (length s <= lim)%nat).
    - rewrite Nat.min_l by lia. by rewrite !take_ge by lia.
    - by rewrite Nat.min_r by lia. }
  rewrite En. assert (Hn : length (take n s) = n) by (rewrite length_take; lia).
  unfold len. rewrite Hn. do 3 f_equal. rewrite write_at_app by (rewrite length_app, Hn; cbn; lia).
  rewrite take_0, length_app, Hn. cbn [app length]. rewrite <- app_assoc. do 2 f_equal. f_equal. lia.
Qed.

(** ** Digits and their values *)

Lemma digit_value_char up d : 0 <= d < 16 -> digit_value (digit_char up d) = Some d.
Proof.
  intros Hd. assert (Hc : d ∈ map Z.of_nat (seq 0 16)).
  { apply list_elem_of_In, in_map_iff. exists (Z.to_nat d). split; [lia|]. apply in_seq. lia. }
  repeat (apply elem_of_cons in Hc as [->|Hc]; [by destruct up|]). by apply not_elem_of_nil in Hc.
Qed.

Lemma num_digits_app fuel : forall n base up acc rest,
  num_digits fuel n base up (acc ++ rest) = num_digits fuel n base up acc ++ rest.
Proof.
  induction fuel as [|fuel IH]; intros n base up acc rest; cbn [num_digits]; [done|]. case_if; [done|]. apply (IH _ _ _ (_ :: acc)).
Qed.

(** Reading the digits of [n] in front of [tl] brings the accumulator from 0 to [n]. *)
Lemma strtol_num_digits fuel : forall n base up tl,
  2 <= base <= 16 -> 0 <= n < 2 ^ 63 -> n < base ^ Z.of_nat fuel ->
  strtol_digits (num_digits fuel n base up tl) base 0 = strtol_digits tl base n.
Proof.
  induction fuel as [|fuel IH]; intros n base up tl Hb Hn Hf; cbn [num_digits].
  - change (base ^ Z.of_nat 0) with 1 in Hf. by replace n with 0 by lia.
  - destruct (Z.eqb_spec n 0) as [->|Hne]; [done|]. rewrite Nat2Z.inj_succ, Z.pow_succ_r in Hf by lia.
    pose proof (Z.div_mod n base ltac:(lia)) as Hdm. pose proof (Z.mod_pos_bound n base ltac:(lia)) as Hm.
    rewrite IH; [|done|split; [apply Z.div_pos; lia|apply Z.le_lt_trans with n; [apply Z.div_le_upper_bound; nia|lia]]|apply Z.div_lt_upper_bound; lia].
    cbn [strtol_digits]. rewrite digit_value_char by lia. rewrite (proj2 (Z.leb_gt _ _)) by lia.
    replace (n / base * base + n mod base) with n by lia. by rewrite i64_small by lia.
Qed.

Lemma strtol_num_to_str n base up tl :
  2 <= base <= 16 -> 0 <= n < 2 ^ 63 ->
  strtol_digits (num_to_str n base up ++ tl) base 0 = strtol_digits tl base n.
Proof.
  intros Hb Hn. unfold num_to_str. destruct (Z.eqb_spec n 0) as [->|Hne].
  - cbn [app strtol_digits]. change (ch "0") with (digit_char up 0). rewrite digit_value_char by lia.
    rewrite (proj2 (Z.leb_gt _ _)) by lia. done.
  - rewrite (proj2 (Z.ltb_ge n 0)) by lia. cbn [andb app]. rewrite <- num_digits_app. cbn [app].
    rewrite u64_small by lia. apply strtol_num_digits; [done..|]. change (Z.of_nat 64) with 64.
    apply Z.lt_le_trans with (2 ^ 64); [lia|]. apply Z.pow_le_mono_l. lia.
Qed.

(** Decimal digits. *)
Definition decimal (s : list Z) : Prop := s <> [] /\ Forall (fun c => is_digit c = true) s.

Lemma digit_char_decimal up d : 0 <= d < 10 -> is_digit (digit_char up d) = true.
Proof.
  intros Hd. unfold is_digit, digit_char. rewrite (proj2 (Z.ltb_lt d 10)) by lia.
  change (ch "0") with 48. change (ch "9") with 57. apply andb_true_iff. rewrite !Z.leb_le. lia.
Qed.

Lemma num_to_str_decimal n : 0 <= n < 2 ^ 63 -> decimal (num_to_str n 10 false).
Proof.
  intros Hn. unfold num_to_str. destruct (Z.eqb_spec n 0) as [->|Hne]; [by repeat constructor|].
  rewrite (proj2 (Z.ltb_ge n 0)) by lia. cbn [andb app]. rewrite u64_small by lia.
  assert (H : forall fuel k acc, 0 <= k -> Forall (fun c => is_digit c = true) acc ->
    Forall (fun c => is_digit c = true) (num_digits fuel k 10 false acc) /\ (acc <> [] -> num_digits fuel k 10 false acc <> [])).
  { induction fuel as [|fuel IH]; intros k acc Hk Ha; cbn [num_digits]; [done|]. case_if; [done|].
    destruct (IH (k / 10) (digit_char false (k mod 10) :: acc)) as [H1 H2]; [apply Z.div_pos; lia| |].
    - apply Forall_cons. split; [|done]. apply digit_char_decimal, Z.mod_pos_bound. lia.
    - split; [done|]. intros _. by apply H2. }
  cbn [num_digits]. rewrite (proj2 (Z.eqb_neq n 0)) by lia.
  destruct (H 63%nat (n / 10) [digit_char false (n mod 10)]) as [H1 H2]; [apply Z.div_pos; lia| |].
  - apply Forall_singleton. apply digit_char_decimal, Z.mod_pos_bound. lia.
  - split; [|done]. by apply H2.
Qed.

Lemma skip_space_pad n s : skip_space (pad n (ch " ") ++ s) = skip_space s.
Proof. unfold pad. induction (Z.to_nat n) as [|k IH]; [done|]. cbn [replicate app skip_space]. exact IH. Qed.

Lemma strtol_digits_zeros n s : strtol_digits (pad n (ch "0") ++ s) 10 0 = strtol_digits s 10 0.
Proof. unfold pad. induction (Z.to_nat n) as [|k IH]; [done|]. cbn [replicate app strtol_digits]. exact IH. Qed.

(** What [strtol] does after the white space. *)
Lemma strtol_sign sign s :
  (sign = [] \/ sign = [ch "-"] \/ sign = [ch "+"]) -> is_digit (first_char s) = true ->
  strtol (sign ++ s) 10 =
    let '(acc, rest) := strtol_digits s 10 0 in
    (if bool_decide (sign = [ch "-"]) then i64 (- acc) else acc, rest).
Proof.
  intros Hs Hd. assert (Hsk : skip_space s = s).
  { destruct s as [|c s]; [done|]. cbn [first_char] in Hd. cbn [skip_space]. unfold is_space, is_digit in *.
    change (ch "0") with 48 in Hd. change (ch "9") with 57 in Hd. change (ch " ") with 32. zify_bool.
    repeat (rewrite (proj2 (Z.eqb_neq c _)) by lia). done. }
  assert (Hne : first_char s =? ch "-" = false /\ first_char s =? ch "+" = false).
  { unfold is_digit in Hd. change (ch "0") with 48 in Hd. change (ch "9") with 57 in Hd. zify_bool.
    change (ch "-") with 45. change (ch "+") with 43. rewrite !Z.eqb_neq. lia. }
  destruct Hne as [N1 N2]. unfold strtol. destruct Hs as [->|[->| ->]].
  - cbn [app]. rewrite Hsk, N1, N2. change (10 =? 0) with false. change (10 =? 16) with false. cbn [andb]. by destruct (strtol_digits s 10 0).
  - change (skip_space ([ch "-"] ++ s)) with ([ch "-"] ++ s). cbn [app first_char tail]. rewrite Z.eqb_refl.
    change (10 =? 0) with false. change (10 =? 16) with false. cbn [andb]. rewrite bool_decide_true by done. by destruct (strtol_digits s 10 0).
  - change (skip_space ([ch "+"] ++ s)) with ([ch "+"] ++ s). cbn [app first_char tail].
    change (ch "+" =? ch "-") with false. rewrite Z.eqb_refl. change (10 =? 0) with false. change (10 =? 16) with false. cbn [andb].
    by destruct (strtol_digits s 10 0).
Qed.

(** A signed conversion: spaces, sign, zeros, the digits of the magnitude, spaces. *)
Lemma conv_d_shape d v :
  d_lng d = 1 \/ d_lng d = 2 -> - 2 ^ 63 < v < 2 ^ 63 ->
  exists n1 n2 n3 sign, conv_d d v =
    pad n1 (ch " ") ++ sign ++ pad n2 (ch "0") ++ num_to_str (Z.abs v) 10 false ++ pad n3 (ch " ") /\
    (v < 0 /\ sign = [ch "-"] \/ 0 <= v /\ (sign = [ch "+"] \/ sign = [ch " "] \/ sign = [])).
Proof.
  intros Hl Hv. unfold conv_d. cbv zeta.
  assert (Hval : signed_arg (d_lng d) v = v).
  { unfold signed_arg. destruct Hl as [->| ->]; cbn [Z.eqb orb]; apply i64_small; lia. }
  assert (Huv : i64 (if v <? 0 then u64 (u64 (- (v + 1)) + 1) else v) = Z.abs v).
  { destruct (Z.ltb_spec v 0); [rewrite !u64_small by (rewrite ?u64_small; lia)|]; rewrite i64_small; lia. }
  rewrite Hval, Huv. set (sign := if v <? 0 then [ch "-"] else _). set (p := if _ <? _ then _ else _). clearbody p.
  assert (Hw : forall b c, exists n, when b (pad p c) = pad n c) by (intros [] c; [by exists p|by exists 0]).
  destruct (Hw (negb (fl_minus (d_fl d)) && negb (fl_zero (d_fl d))) (ch " ")) as [n1 ->].
  destruct (Hw (negb (fl_minus (d_fl d)) && fl_zero (d_fl d)) (ch "0")) as [n2 ->].
  destruct (Hw (fl_minus (d_fl d)) (ch " ")) as [n3 ->].
  exists n1, n2, n3, sign. split; [done|]. unfold sign, when. destruct (Z.ltb_spec v 0); [by left|]. right.
  split; [done|]. destruct (fl_plus _); [by left|]. right. destruct (fl_space _); [by left|by right].
Qed.


(** ** Values it prints wrongly *)

(** Unsigned values of 2^63 and above are printed as negative numbers. *)
Lemma printf_unsigned_negative :
  printf_output (str "%lu") [AInt (2 ^ 64 - 1)] = Some (str "-1").
Proof. by vm_compute. Qed.

(** The least [long long] is printed with two signs. *)
Lemma printf_min_double_sign :
  printf_output (str "%lld") [AInt (- 2 ^ 63)] = Some (str "--9223372036854775808").
Proof. by vm_compute. Qed.

(** The size computed for a NULL buffer is limited to 8191. *)
Lemma printf_size_capped fmt args s :
  printf_output fmt args = Some s ->
  vsnprintf None 0 fmt args = Some (None, Z.of_nat (Nat.min 8191 (length s))).
Proof.
  intros Hr. unfold vsnprintf. rewrite (format_loop_spec _ _ [] fmt args s); [|apply Nat.le_0_l|exact Hr].
  cbn [mbind option_bind app]. unfold len. by rewrite length_take.
Qed.

(** ** Witnesses *)

Lemma vsnprintf_truncates_witness :
  vsnprintf (Some (replicate 8 1)) 6 (str "%s=%04d") [AStr (Some (str "ab")); AInt 42] =
    Some (Some (str "ab=00" ++ [0] ++ [1; 1]), 5).
Proof.
  apply (vsnprintf_truncates (replicate 8 1) 6 (str "%s=%04d") [AStr (Some (str "ab")); AInt 42] (str "ab=0042"));
    [by vm_compute|lia|cbn; lia].
Defined.

