(* ===== verification/Time.v ===== *)
(** * Calendar time ([userland/libc/src/time/time.c])

    [gmtime_r], [mktime], [strftime] and [asctime_r].  The fields of [struct tm]
    are integers; an index outside a table is undefined behaviour and gives
    [None].  The text functions return the bytes they store. *)

From Stdlib Require Import ZArith Lia Bool Ascii String.
From stdpp Require Import base list gmap.
From S2P Require Import Prelude Printf.

Open Scope Z_scope.

(** ** Tables *)

Definition mon_days (leap : bool) : list Z :=
  [31; if leap then 29 else 28; 31; 30; 31; 30; 31; 31; 30; 31; 30; 31].

Definition wday_abbr : list (list Z) := map str ["Sun"; "Mon"; "Tue"; "Wed"; "Thu"; "Fri"; "Sat"]%string.
Definition wday_full : list (list Z) :=
  map str ["Sunday"; "Monday"; "Tuesday"; "Wednesday"; "Thursday"; "Friday"; "Saturday"]%string.
Definition mon_abbr : list (list Z) :=
  map str ["Jan"; "Feb"; "Mar"; "Apr"; "May"; "Jun"; "Jul"; "Aug"; "Sep"; "Oct"; "Nov"; "Dec"]%string.
Definition mon_full : list (list Z) :=
  map str ["January"; "February"; "March"; "April"; "May"; "June"; "July"; "August"; "September";
           "October"; "November"; "December"]%string.

Record tm := mk_tm {
  tm_sec : Z; tm_min : Z; tm_hour : Z; tm_mday : Z; tm_mon : Z; tm_year : Z;
  tm_wday : Z; tm_yday : Z; tm_isdst : Z;
}.

Definition is_leap (year : Z) : bool :=
  ((Z.rem year 4 =? 0) && negb (Z.rem year 100 =? 0)) || (Z.rem year 400 =? 0).

Definition year_days (year : Z) : Z := if is_leap year then 366 else 365.

(** ** Seconds to calendar *)

(** [while (1) { yd = ...; if (days < yd) break; days -= yd; year++; }] *)
Fixpoint year_loop (fuel : nat) (days year : Z) : Z * Z :=
  match fuel with
  | O => (year, days)
  | S fuel' =>
      if days <? year_days year then (year, days)
      else year_loop fuel' (days - year_days year) (year + 1)
  end.

(** [for (mon = 0; mon < 11; mon++)]; [l] holds the lengths of the months from
    [mon] to the eleventh. *)
Fixpoint month_loop (l : list Z) (days mon : Z) : Z * Z :=
  match l with
  | [] => (mon, days)
  | d :: l' => if days <? d then (mon, days) else month_loop l' (days - d) (mon + 1)
  end.

Definition gmtime_r (timep : Z) : tm :=
  let t := if timep <? 0 then 0 else timep in
  let days := i32 (Z.quot t 86400) in
  let rem := i32 (Z.rem t 86400) in
  let hour := Z.quot rem 3600 in
  let rem := Z.rem rem 3600 in
  let min := Z.quot rem 60 in
  let sec := Z.rem rem 60 in
  let wday := Z.rem (i32 (days + 4)) 7 in
  let wday := if wday <? 0 then wday + 7 else wday in
  let '(year, yday) := year_loop (Z.to_nat (days / 365 + 1)) days 1970 in
  let '(mon, d) := month_loop (take 11 (mon_days (is_leap year))) yday 0 in
  mk_tm sec min hour (d + 1) mon (year - 1900) wday yday 0.

(** ** Calendar to seconds *)

(** [for (int y = 1970; y < year; y++) t += ...] *)
Fixpoint year_sum (n : nat) (y : Z) : Z :=
  match n with O => 0 | S n' => year_days y + year_sum n' (y + 1) end.

(** [for (int m = 0; m < mon; m++) t += _mon_days[leap][m];] *)
Definition month_sum (leap : bool) (mon : Z) : option Z :=
  if 12 <? mon then None else Some (foldr Z.add 0 (take (Z.to_nat mon) (mon_days leap))).

(** The result and the normalised fields. *)
Definition mktime (t : tm) : option (Z * tm) :=
  let year := tm_year t + 1900 in
  let days := year_sum (Z.to_nat (year - 1970)) 1970 in
  md ← month_sum (is_leap year) (tm_mon t);
  let days := days + md + (tm_mday t - 1) in
  let secs := days * 86400 + tm_hour t * 3600 + tm_min t * 60 + tm_sec t in
  let check := gmtime_r secs in
  Some (secs, mk_tm (tm_sec t) (tm_min t) (tm_hour t) (tm_mday t) (tm_mon t) (tm_year t)
                (tm_wday check) (tm_yday check) 0).

(** ** Formatting *)

(** Appends to [out] as much of [s] as fits below [lim]. *)
Definition fmt_str (lim : nat) (out s : list Z) : list Z := out ++ take (lim - length out) s.

(** The digits of [_fmt_num], least significant first. *)
Fixpoint num_rev (fuel : nat) (uv : Z) : list Z :=
  match fuel with
  | O => []
  | S fuel' => (ch "0" + uv mod 10) :: if 0 <? uv / 10 then num_rev fuel' (uv / 10) else []
  end.

Definition fmt_num_str (val width : Z) : list Z :=
  let neg := val <? 0 in
  let uv := if neg then u32 (- val) else val in
  let tmp := num_rev 10 uv in
  let tmp := tmp ++ replicate (Z.to_nat (width - (if neg then 1 else 0) - len tmp)) (ch "0") in
  reverse (tmp ++ when neg [ch "-"]).

Definition fmt_num (lim : nat) (out : list Z) (val width : Z) : list Z :=
  fmt_str lim out (fmt_num_str val width).

(** A one-digit number is preceded by a blank if there is room. *)
Definition fmt_blank (lim : nat) (out : list Z) (val : Z) : list Z :=
  let out' := fmt_num lim out val 1 in
  if ((length out' - length out =? 1) && (length out + 1 <? lim))%nat
  then out ++ [ch " "] ++ drop (length out) out' else out'.

(** [snprintf] into a local buffer of [size] bytes, read as a string. *)
Definition tmp_printf (size : nat) (fmt : string) (args : list arg) : option (list Z) :=
  format_loop (S (length (str fmt))) (size - 1) [] (str fmt) args.

Definition name_at (names : list (list Z)) (i : Z) : option (list Z) :=
  if i <? 0 then None else names !! Z.to_nat i.

Definition hour12 (t : tm) : Z := let h := Z.rem (tm_hour t) 12 in if h =? 0 then 12 else h.
Definition ampm (t : tm) (am pm : string) : list Z := if tm_hour t <? 12 then str am else str pm.

(** The numeric and name conversions of the switch. *)
Definition strftime_field (lim : nat) (out : list Z) (c : Z) (t : tm) : option (list Z) :=
  let S := fmt_str lim out in
  let N := fmt_num lim out in
  if c =? ch "a" then S <$> name_at wday_abbr (Z.rem (tm_wday t) 7)
  else if c =? ch "A" then S <$> name_at wday_full (Z.rem (tm_wday t) 7)
  else if (c =? ch "b") || (c =? ch "h") then S <$> name_at mon_abbr (Z.rem (tm_mon t) 12)
  else if c =? ch "B" then S <$> name_at mon_full (Z.rem (tm_mon t) 12)
  else if c =? ch "C" then Some (N (Z.quot (tm_year t + 1900) 100) 2)
  else if c =? ch "d" then Some (N (tm_mday t) 2)
  else if c =? ch "e" then Some (fmt_blank lim out (tm_mday t))
  else if c =? ch "H" then Some (N (tm_hour t) 2)
  else if c =? ch "I" then Some (N (hour12 t) 2)
  else if c =? ch "j" then Some (N (tm_yday t + 1) 3)
  else if c =? ch "k" then Some (fmt_blank lim out (tm_hour t))
  else if c =? ch "l" then Some (fmt_blank lim out (hour12 t))
  else if c =? ch "m" then Some (N (tm_mon t + 1) 2)
  else if c =? ch "M" then Some (N (tm_min t) 2)
  else if c =? ch "p" then Some (S (ampm t "AM" "PM"))
  else if c =? ch "P" then Some (S (ampm t "am" "pm"))
  else if c =? ch "S" then Some (N (tm_sec t) 2)
  else if c =? ch "u" then Some (N (if tm_wday t =? 0 then 7 else tm_wday t) 1)
  else if c =? ch "w" then Some (N (tm_wday t) 1)
  else if c =? ch "y" then Some (N (Z.rem (tm_year t) 100) 2)
  else if c =? ch "Y" then Some (N (tm_year t + 1900) 4)
  else if c =? ch "z" then Some (S (str "+0000"))
  else if c =? ch "Z" then Some (S (str "UTC"))
  else if (length out + 1 <? lim)%nat then Some (out ++ [ch "%"; c]) else Some out.

(** The conversions that go through [snprintf] and the single characters. *)
Definition strftime_conv (lim : nat) (out : list Z) (c : Z) (t : tm) : option (list Z) :=
  let I x := AInt x in
  let S := fmt_str lim out in
  let hms := [I (tm_hour t); I (tm_min t); I (tm_sec t)] in
  let mdy := [I (tm_mon t + 1); I (tm_mday t); I (Z.rem (tm_year t) 100)] in
  if c =? ch "%" then Some (out ++ [ch "%"])
  else if c =? ch "n" then Some (out ++ [10])
  else if c =? ch "t" then Some (out ++ [9])
  else if c =? ch "c" then
    w ← name_at wday_abbr (Z.rem (tm_wday t) 7);
    m ← name_at mon_abbr (Z.rem (tm_mon t) 12);
    S <$> tmp_printf 64 "%s %s %2d %02d:%02d:%02d %d"
            ([AStr (Some w); AStr (Some m); I (tm_mday t)] ++ hms ++ [I (tm_year t + 1900)])
  else if (c =? ch "D") || (c =? ch "x") then S <$> tmp_printf 16 "%02d/%02d/%02d" mdy
  else if c =? ch "F" then
    S <$> tmp_printf 16 "%04d-%02d-%02d" [I (tm_year t + 1900); I (tm_mon t + 1); I (tm_mday t)]
  else if c =? ch "r" then
    S <$> tmp_printf 16 "%02d:%02d:%02d %s"
            [I (hour12 t); I (tm_min t); I (tm_sec t); AStr (Some (ampm t "AM" "PM"))]
  else if c =? ch "R" then S <$> tmp_printf 8 "%02d:%02d" [I (tm_hour t); I (tm_min t)]
  else if (c =? ch "T") || (c =? ch "X") then S <$> tmp_printf 12 "%02d:%02d:%02d" hms
  else strftime_field lim out c t.

(** [lim] is [max - 1]. *)
Fixpoint strftime_loop (lim : nat) (out fmt : list Z) (t : tm) (pct : bool) : option (list Z) :=
  match fmt with
  | [] => Some out
  | c :: fmt' =>
      if pct then out ← strftime_conv lim out c t; strftime_loop lim out fmt' t false
      else if (lim <=? length out)%nat then Some out
      else if c =? ch "%" then strftime_loop lim out fmt' t true
      else strftime_loop lim (out ++ [c]) fmt' t false
  end.

(** The buffer and the return value. *)
Definition strftime (s : list Z) (max : nat) (fmt : list Z) (t : tm) : option (list Z * Z) :=
  match max with
  | O => Some (s, 0)
  | S lim => out ← strftime_loop lim [] fmt t false; Some (write_at 0 (out ++ [0]) s, len out)
  end.

Definition put2 (n : Z) : list Z := [ch "0" + Z.rem (Z.quot n 10) 10; ch "0" + Z.rem n 10].

(** The 26 bytes of [asctime_r]. *)
Definition asctime_r (t : tm) : list Z :=
  let wday := Z.land (tm_wday t) 7 in
  let mon := Z.land (tm_mon t) 15 in
  let wday := if 7 <=? wday then 0 else wday in
  let mon := if 12 <=? mon then 0 else mon in
  let year := tm_year t + 1900 in
  default [] (name_at wday_abbr wday) ++ str " " ++ default [] (name_at mon_abbr mon) ++ str " " ++
  put2 (tm_mday t) ++ str " " ++ put2 (tm_hour t) ++ str ":" ++ put2 (tm_min t) ++ str ":" ++
  put2 (tm_sec t) ++ str " " ++
  [ch "0" + Z.rem (Z.quot year 1000) 10; ch "0" + Z.rem (Z.quot year 100) 10;
   ch "0" + Z.rem (Z.quot year 10) 10; ch "0" + Z.rem year 10] ++ [10; 0].

Definition ctime_r (t : Z) : list Z := asctime_r (gmtime_r t).

(** ** The Gregorian calendar

    Closed formulas, independent of the loops: leap years up to [y], days before
    1 January of [y] and before the month [m] (counted from 0), both since the
    epoch. *)

Definition leaps (y : Z) : Z := y / 4 - y / 100 + y / 400.
Definition days_before_year (y : Z) : Z := 365 * (y - 1970) + leaps (y - 1) - leaps 1969.
Definition days_before_month (leap : bool) (m : Z) : Z :=
  foldr Z.add 0 (take (Z.to_nat m) (mon_days leap)).
Definition month_days (leap : bool) (m : Z) : Z := default 0 (mon_days leap !! Z.to_nat m).

(** A date in range, as [struct tm] represents it. *)
Record valid_tm (t : tm) : Prop := {
  vt_sec : 0 <= tm_sec t < 60;
  vt_min : 0 <= tm_min t < 60;
  vt_hour : 0 <= tm_hour t < 24;
  vt_mon : 0 <= tm_mon t < 12;
  vt_mday : 1 <= tm_mday t <= month_days (is_leap (tm_year t + 1900)) (tm_mon t);
  vt_year : 1970 <= tm_year t + 1900;
}.

(** The day number of a date and its seconds since the epoch. *)
Definition day_number (t : tm) : Z :=
  let y := tm_year t + 1900 in
  days_before_year y + days_before_month (is_leap y) (tm_mon t) + (tm_mday t - 1).

Definition seconds (t : tm) : Z :=
  day_number t * 86400 + tm_hour t * 3600 + tm_min t * 60 + tm_sec t.

(** The largest time whose day number fits an [int]. *)
Definition max_time : Z := 2 ^ 31 * 86400 - 4 * 86400.

Lemma is_leap_mod y :
  0 <= y -> is_leap y = ((y mod 4 =? 0) && negb (y mod 100 =? 0)) || (y mod 400 =? 0).
Proof. intros Hy. unfold is_leap. by rewrite !Z.rem_mod_nonneg by lia. Qed.

Lemma leaps_succ y : 0 < y -> leaps y = leaps (y - 1) + (if is_leap y then 1 else 0).
Proof.
  intros Hy. rewrite is_leap_mod by lia. unfold leaps.
  assert (H : forall k, 0 < k -> y / k = (y - 1) / k + (if y mod k =? 0 then 1 else 0)).
  { intros k Hk. pose proof (Z.div_mod y k ltac:(lia)) as E1. pose proof (Z.mod_pos_bound y k Hk) as B1.
    destruct (Z.eqb_spec (y mod k) 0) as [E|E].
    - rewrite E in E1. symmetry. rewrite E1 at 1. replace (k * (y / k) + 0 - 1) with ((y / k - 1) * k + (k - 1)) by ring.
      rewrite Z.div_add_l by lia. rewrite (Z.div_small (k - 1)) by lia. lia.
    - rewrite Z.add_0_r. rewrite E1 at 2. replace (k * (y / k) + y mod k - 1) with ((y / k) * k + (y mod k - 1)) by ring.
      rewrite Z.div_add_l by lia. rewrite (Z.div_small (y mod k - 1)) by lia. lia. }
  rewrite (H 4), (H 100), (H 400) by lia.
  destruct (Z.eqb_spec (y mod 4) 0), (Z.eqb_spec (y mod 100) 0), (Z.eqb_spec (y mod 400) 0); cbn [andb orb negb]; try lia;
    exfalso; zlia.
Qed.

Lemma days_before_year_succ y : 0 < y -> days_before_year (y + 1) = days_before_year y + year_days y.
Proof.
  intros Hy. unfold days_before_year, year_days. replace (y + 1 - 1) with y by lia. rewrite (leaps_succ y) by lia.
  destruct (is_leap y); lia.
Qed.

Lemma year_days_pos y : 365 <= year_days y <= 366.
Proof. unfold year_days. case_if; lia. Qed.

(** The loop finds the year and the day in it. *)
Lemma year_loop_spec fuel : forall d y,
  0 < y -> 0 <= d < 365 * Z.of_nat fuel ->
  let '(y', d') := year_loop fuel d y in
  y <= y' /\ 0 <= d' < year_days y' /\ days_before_year y' + d' = days_before_year y + d.
Proof.
  induction fuel as [|fuel IH]; intros d y Hy Hd; [lia|]. cbn [year_loop]. pose proof (year_days_pos y).
  destruct (Z.ltb_spec d (year_days y)); [lia|].
  specialize (IH (d - year_days y) (y + 1) ltac:(lia) ltac:(lia)).
  destruct (year_loop fuel _ _) as [y' d']. rewrite days_before_year_succ in IH by done. lia.
Qed.

(** Day numbers determine the year. *)
Lemma days_before_year_lt n y :
  0 < y -> days_before_year y + 365 * Z.of_nat n <= days_before_year (y + Z.of_nat n).
Proof.
  intros Hy. induction n as [|n IH]; [by rewrite !Z.add_0_r|].
  replace (y + Z.of_nat (S n)) with (y + Z.of_nat n + 1) by lia. rewrite days_before_year_succ by lia.
  pose proof (year_days_pos (y + Z.of_nat n)). lia.
Qed.

Lemma year_unique y1 d1 y2 d2 :
  0 < y1 -> 0 < y2 -> 0 <= d1 < year_days y1 -> 0 <= d2 < year_days y2 ->
  days_before_year y1 + d1 = days_before_year y2 + d2 -> y1 = y2 /\ d1 = d2.
Proof.
  assert (H : forall y1 d1 y2 d2, 0 < y1 -> 0 <= d1 < year_days y1 -> 0 <= d2 ->
    days_before_year y1 + d1 = days_before_year y2 + d2 -> y1 < y2 -> False).
  { intros a b c d Ha Hb Hd E Hlt. pose proof (days_before_year_lt (Z.to_nat (c - (a + 1))) (a + 1) ltac:(lia)) as Hle.
    rewrite Z2Nat.id in Hle by lia. replace (a + 1 + (c - (a + 1))) with c in Hle by lia.
    rewrite days_before_year_succ in Hle by done. lia. }
  intros H1 H2 B1 B2 E. destruct (Z.lt_trichotomy y1 y2) as [Hlt|[->|Hlt]].
  - destruct (H y1 d1 y2 d2); lia.
  - lia.
  - destruct (H y2 d2 y1 d1); lia.
Qed.

Lemma year_sum_spec n : forall y, 0 < y -> year_sum n y = days_before_year (y + Z.of_nat n) - days_before_year y.
Proof.
  induction n as [|n IH]; intros y Hy; cbn [year_sum]; [rewrite Z.add_0_r; lia|].
  rewrite IH, days_before_year_succ by lia. replace (y + 1 + Z.of_nat n) with (y + Z.of_nat (S n)) by lia. lia.
Qed.

(** Months: the loop inverts the sum. *)
Lemma month_cases m : 0 <= m < 12 -> m ∈ map Z.of_nat (seq 0 12).
Proof.
  intros Hm. apply list_elem_of_In, in_map_iff. exists (Z.to_nat m). split; [lia|]. apply in_seq. lia.
Qed.

(** Splits on the outermost comparison of the goal. *)
Ltac case_ltb := match goal with |- context [if ?a <? ?b then _ else _] => destruct (Z.ltb_spec a b) end.

(** Evaluates the table functions at constants. *)
Ltac eval_months :=
  repeat match goal with
  | |- context [days_before_month ?l ?m] =>
      let v := eval vm_compute in (days_before_month l m) in change (days_before_month l m) with v
  | |- context [month_days ?l ?m] =>
      let v := eval vm_compute in (month_days l m) in change (month_days l m) with v
  | H : context [month_days ?l ?m] |- _ =>
      let v := eval vm_compute in (month_days l m) in change (month_days l m) with v in H
  | H : context [days_before_month ?l ?m] |- _ =>
      let v := eval vm_compute in (days_before_month l m) in change (days_before_month l m) with v in H
  end.

Lemma month_loop_exact leap m d :
  0 <= m < 12 -> 0 <= d < month_days leap m ->
  month_loop (take 11 (mon_days leap)) (days_before_month leap m + d) 0 = (m, d).
Proof.
  intros Hm Hd. pose proof (month_cases m Hm) as Hc.
  repeat (apply elem_of_cons in Hc as [->|Hc];
    [destruct leap; eval_months; cbn [mon_days take month_loop]; repeat (case_ltb; [f_equal; lia|]); f_equal; lia|]).
  by apply not_elem_of_nil in Hc.
Qed.

Lemma month_loop_spec (leap : bool) yd :
  0 <= yd < (if leap then 366 else 365) ->
  let '(m, d) := month_loop (take 11 (mon_days leap)) yd 0 in
  0 <= m < 12 /\ 0 <= d < month_days leap m /\ days_before_month leap m + d = yd.
Proof.
  intros Hd. destruct leap; cbn [mon_days take month_loop];
    repeat (case_ltb; [eval_months; lia|]); eval_months; lia.
Qed.

(** What [gmtime_r] computes. *)
Lemma gmtime_fields t :
  0 <= t < max_time ->
  exists y yd m d, 1970 <= y /\ 0 <= yd < year_days y /\ 0 <= m < 12 /\ 0 <= d < month_days (is_leap y) m /\
    days_before_year y + yd = t / 86400 /\ days_before_month (is_leap y) m + d = yd /\
    gmtime_r t = mk_tm (t mod 60) (t mod 3600 / 60) (t mod 86400 / 3600) (d + 1) m (y - 1900)
                   ((t / 86400 + 4) mod 7) yd 0.
Proof.
  intros Ht. unfold max_time in Ht. unfold gmtime_r. rewrite (proj2 (Z.ltb_ge t 0)) by lia. cbv zeta.
  rewrite (Z.quot_div_nonneg t 86400), (Z.rem_mod_nonneg t 86400) by lia.
  assert (Hd : 0 <= t / 86400 < 2 ^ 31 - 4) by zlia. assert (Hr : 0 <= t mod 86400 < 86400) by (apply Z.mod_pos_bound; lia).
  rewrite (i32_small (t / 86400)), (i32_small (t mod 86400)), (i32_small (t / 86400 + 4)) by lia.
  rewrite (Z.rem_mod_nonneg (t mod 86400) 3600), (Z.quot_div_nonneg (t mod 86400) 3600) by lia.
  pose proof (Z.mod_pos_bound (t mod 86400) 3600 ltac:(lia)) as Hr2.
  rewrite Z.quot_div_nonneg, !Z.rem_mod_nonneg by lia.
  rewrite (proj2 (Z.ltb_ge ((t / 86400 + 4) mod 7) 0)) by (apply Z.mod_pos_bound; lia).
  pose proof (year_loop_spec (Z.to_nat (t / 86400 / 365 + 1)) (t / 86400) 1970 ltac:(lia)) as Hy.
  destruct (year_loop _ _ _) as [y yd]. destruct Hy as (Hy1 & Hy2 & Hy3); [rewrite Z2Nat.id; zlia|].
  pose proof (month_loop_spec (is_leap y) yd Hy2) as Hm. destruct (month_loop _ _ _) as [m d].
  destruct Hm as (Hm1 & Hm2 & Hm3). exists y, yd, m, d. change (days_before_year 1970) with 0 in Hy3.
  split_and!; try lia. f_equal; try lia; clear; zlia.
Qed.

(** C31.  For every non-negative time whose day number fits an [int], [gmtime_r]
    yields the Gregorian date: all fields are in range, date and time of day give
    back the time by the closed calendar formula, and the day of the week and of
    the year are right (1 January 1970 was a Thursday). *)
Theorem gmtime_calendar t :
  0 <= t < max_time ->
  valid_tm (gmtime_r t) /\ seconds (gmtime_r t) = t /\
  tm_wday (gmtime_r t) = (t / 86400 + 4) mod 7 /\
  tm_yday (gmtime_r t) = t / 86400 - days_before_year (tm_year (gmtime_r t) + 1900).
Proof.
  intros Ht. destruct (gmtime_fields t Ht) as (y & yd & m & d & Hy & Hyd & Hm & Hd & E1 & E2 & ->).
  unfold seconds, day_number. cbn. replace (y - 1900 + 1900) with y by lia. split_and!.
  - split; cbn; replace (y - 1900 + 1900) with y by lia; try lia; zlia.
  - replace (days_before_year y + days_before_month (is_leap y) m + (d + 1 - 1)) with (t / 86400) by lia.
    clear. zlia.
  - done.
  - lia.
Qed.

Lemma month_sum_spec leap m : 0 <= m < 12 -> month_sum leap m = Some (days_before_month leap m).
Proof. intros Hm. unfold month_sum. by rewrite (proj2 (Z.ltb_ge 12 m)) by lia. Qed.

Lemma mktime_seconds t :
  valid_tm t -> mktime t = Some (seconds t, mk_tm (tm_sec t) (tm_min t) (tm_hour t) (tm_mday t) (tm_mon t) (tm_year t)
    (tm_wday (gmtime_r (seconds t))) (tm_yday (gmtime_r (seconds t))) 0).
Proof.
  intros [Hs Hm Hh Hmo Hd Hy]. unfold mktime. cbv zeta. rewrite year_sum_spec, month_sum_spec by lia.
  cbn [mbind option_bind]. rewrite Z2Nat.id by lia. replace (1970 + (tm_year t + 1900 - 1970)) with (tm_year t + 1900) by lia.
  change (days_before_year 1970) with 0. unfold seconds, day_number. by rewrite Z.sub_0_r.
Qed.

Lemma days_before_month_range leap m d :
  0 <= m < 12 -> 0 <= d < month_days leap m -> 0 <= days_before_month leap m + d < (if leap then 366 else 365).
Proof.
  intros Hm Hd. pose proof (month_cases m Hm) as Hc.
  repeat (apply elem_of_cons in Hc as [->|Hc]; [destruct leap; eval_months; lia|]). by apply not_elem_of_nil in Hc.
Qed.

(** C32.  [mktime] and [gmtime_r] are inverse: [mktime] of the fields of a time
    gives back the time and the same fields, and [gmtime_r] of the result of
    [mktime] on a valid date gives back the date with the derived fields filled
    in. *)
Theorem mktime_gmtime_inverse :
  (forall t, 0 <= t < max_time -> mktime (gmtime_r t) = Some (t, gmtime_r t)) /\
  (forall d, valid_tm d -> seconds d < max_time ->
     exists t d', mktime d = Some (t, d') /\ gmtime_r t = d').
Proof.
  split.
  - intros t Ht. destruct (gmtime_fields t Ht) as (y & yd & m & d & Hy & Hyd & Hm & Hd & E1 & E2 & E).
    assert (Hv : valid_tm (gmtime_r t)).
    { rewrite E. split; cbn; replace (y - 1900 + 1900) with y by lia; try lia; zlia. }
    assert (Hs : seconds (gmtime_r t) = t).
    { rewrite E. unfold seconds, day_number. cbn. replace (y - 1900 + 1900) with y by lia.
      replace (days_before_year y + days_before_month (is_leap y) m + (d + 1 - 1)) with (t / 86400) by lia. clear. zlia. }
    rewrite (mktime_seconds _ Hv), Hs. do 2 f_equal. rewrite E. done.
  - intros dt Hv Hmax. exists (seconds dt). eexists. split; [by apply mktime_seconds|].
    destruct Hv as [Hs Hm Hh Hmo Hd Hy]. set (y := tm_year dt + 1900) in *.
    pose proof (days_before_month_range (is_leap y) (tm_mon dt) (tm_mday dt - 1) Hmo ltac:(lia)) as Hr.
    pose proof (days_before_year_lt (Z.to_nat (y - 1970)) 1970 ltac:(lia)) as Hpos. change (days_before_year 1970) with 0 in Hpos.
    rewrite Z2Nat.id in Hpos by lia. replace (1970 + (y - 1970)) with y in Hpos by lia.
    assert (Hday : day_number dt = days_before_year y + (days_before_month (is_leap y) (tm_mon dt) + (tm_mday dt - 1))).
    { unfold day_number. fold y. lia. }
    destruct (gmtime_fields (seconds dt)) as (y' & yd & m & d & Hy' & Hyd & Hm' & Hd' & E1 & E2 & E).
    { split; [unfold seconds; lia|done]. }
    assert (Hq : seconds dt / 86400 = day_number dt) by (unfold seconds; zlia).
    destruct (year_unique y' yd y (days_before_month (is_leap y) (tm_mon dt) + (tm_mday dt - 1))) as [-> Eyd];
      [lia|lia|done|exact Hr|lia|].
    pose proof (month_loop_exact (is_leap y) m d Hm' Hd') as L1. rewrite E2, Eyd in L1.
    rewrite (month_loop_exact (is_leap y) (tm_mon dt) (tm_mday dt - 1)) in L1 by lia. injection L1 as <- <-.
    rewrite E at 1. f_equal; try (rewrite E; done); try (unfold y; lia); unfold seconds; zlia.
Qed.

(** ** Bounds of the formatter *)

Lemma length_fmt_str lim out s : (length out <= lim)%nat -> (length (fmt_str lim out s) <= lim)%nat.
Proof. intros H. unfold fmt_str. rewrite length_app, length_take. lia. Qed.

Lemma length_fmt_num lim out v w : (length out <= lim)%nat -> (length (fmt_num lim out v w) <= lim)%nat.
Proof. apply length_fmt_str. Qed.

Lemma length_fmt_blank lim out v : (length out <= lim)%nat -> (length (fmt_blank lim out v) <= lim)%nat.
Proof.
  intros H. unfold fmt_blank. pose proof (length_fmt_num lim out v 1 H). case_if; [|done].
  apply andb_true_iff in E as [E1%Nat.eqb_eq E2%Nat.ltb_lt]. rewrite !length_app, length_drop. cbn [length]. lia.
Qed.

Lemma name_at_some names i n : length names = Z.to_nat n -> 0 < n -> 0 <= i -> is_Some (name_at names (Z.rem i n)).
Proof.
  intros Hl Hn Hi. rewrite Z.rem_mod_nonneg by lia. pose proof (Z.mod_pos_bound i n Hn). unfold name_at.
  rewrite (proj2 (Z.ltb_ge _ 0)) by lia. apply lookup_lt_is_Some. lia.
Qed.

(** An outcome that stays within the buffer. *)
Definition fits (lim : nat) (o : option (list Z)) : Prop :=
  exists out, o = Some out /\ (length out <= lim)%nat.

Section Fits.
Context (lim : nat) (out : list Z) (Hroom : (length out < lim)%nat).

Lemma fits_if (b : bool) x y : fits lim x -> fits lim y -> fits lim (if b then x else y).
Proof. by destruct b. Qed.

Lemma fits_str s : fits lim (Some (fmt_str lim out s)).
Proof. eexists. split; [done|]. apply length_fmt_str. lia. Qed.

Lemma fits_num v w : fits lim (Some (fmt_num lim out v w)).
Proof. apply fits_str. Qed.

Lemma fits_blank v : fits lim (Some (fmt_blank lim out v)).
Proof. eexists. split; [done|]. apply length_fmt_blank. lia. Qed.

Lemma fits_char c : fits lim (Some (out ++ [c])).
Proof. eexists. split; [done|]. rewrite length_app. cbn. lia. Qed.

Lemma fits_unknown c : fits lim (if (length out + 1 <? lim)%nat then Some (out ++ [ch "%"; c]) else Some out).
Proof.
  destruct (Nat.ltb_spec (length out + 1) lim); (eexists; split; [done|]); rewrite ?length_app; cbn; lia.
Qed.

Lemma fits_fmap o : is_Some o -> fits lim (fmt_str lim out <$> o).
Proof. intros [s ->]. apply fits_str. Qed.

Lemma fits_name names i n :
  length names = Z.to_nat n -> 0 < n -> 0 <= i -> fits lim (fmt_str lim out <$> name_at names (Z.rem i n)).
Proof. intros. by apply fits_fmap, name_at_some. Qed.

(** The local [snprintf] calls have the arguments their formats ask for. *)
Lemma fits_printf size fmt args :
  is_Some (printf_output (str fmt) args) -> fits lim (fmt_str lim out <$> tmp_printf size fmt args).
Proof.
  intros [s Hs]. unfold tmp_printf. rewrite (format_loop_spec _ _ [] _ _ s); [apply fits_str|cbn; lia|done].
Qed.

End Fits.

#[local] Hint Resolve fits_str fits_num fits_blank fits_char fits_unknown : fits.

Section Conv.
Context (lim : nat) (out : list Z) (c : Z) (t : tm).
Context (Hroom : (length out < lim)%nat) (Hwday : 0 <= tm_wday t) (Hmon : 0 <= tm_mon t).

Lemma strftime_field_fits : fits lim (strftime_field lim out c t).
Proof.
  unfold strftime_field. cbv zeta. do 4 (apply fits_if; [by apply fits_name|]).
  do 19 (apply fits_if; [auto with fits|]). auto with fits.
Qed.

Lemma strftime_conv_fits : fits lim (strftime_conv lim out c t).
Proof.
  unfold strftime_conv. cbv zeta. do 3 (apply fits_if; [auto with fits|]). apply fits_if.
  { destruct (name_at_some wday_abbr (tm_wday t) 7) as [w ->]; try done.
    destruct (name_at_some mon_abbr (tm_mon t) 12) as [m ->]; try done. cbn [mbind option_bind].
    apply fits_printf; [done|]. eexists. reflexivity. }
  do 5 (apply fits_if; [apply fits_printf; [done|]; eexists; reflexivity|]). apply strftime_field_fits.
Qed.

End Conv.

Lemma strftime_loop_fits lim t : 0 <= tm_wday t -> 0 <= tm_mon t -> forall fmt out pct,
  (length out <= lim)%nat -> (pct = true -> (length out < lim)%nat) -> fits lim (strftime_loop lim out fmt t pct).
Proof.
  intros Hw Hm. induction fmt as [|c fmt IH]; intros out pct Hl Hp; cbn [strftime_loop]; [by exists out|].
  destruct pct.
  - destruct (strftime_conv_fits lim out c t (Hp eq_refl) Hw Hm) as (out' & -> & Hl'). by apply IH.
  - destruct (Nat.leb_spec lim (length out)); [by exists out|]. case_if; apply IH; try done.
    rewrite length_app. cbn. lia.
Qed.

(**  For every format and every date with non-negative weekday and month,
    [strftime] returns: it stores fewer than [max] bytes and the terminator,
    returns their number, and leaves the rest of the buffer alone. *)
Theorem strftime_bounded s max fmt t :
  0 <= tm_wday t -> 0 <= tm_mon t -> (0 < max <= length s)%nat ->
  exists out, (length out < max)%nat /\
    strftime s max fmt t = Some (out ++ [0] ++ drop (S (length out)) s, len out).
Proof.
  intros Hw Hm Hmax. destruct max as [|lim]; [lia|]. unfold strftime.
  destruct (strftime_loop_fits lim t Hw Hm fmt [] false) as (out & -> & Hl); [cbn; lia|done|].
  exists out. split; [lia|]. cbn [mbind option_bind]. do 2 f_equal.
  rewrite write_at_app by (rewrite length_app; cbn; lia). rewrite take_0, length_app, <- app_assoc. cbn [app length].
  do 2 f_equal. f_equal. lia.
Qed.

(** ** Witnesses *)

(** 2024-02-29 12:34:56 UTC, a Thursday. *)
Lemma gmtime_example : gmtime_r 1709210096 = mk_tm 56 34 12 29 1 124 4 59 0.
Proof. by vm_compute. Qed.

Lemma gmtime_calendar_witness :
  valid_tm (gmtime_r 1709210096) /\ seconds (gmtime_r 1709210096) = 1709210096 /\
  tm_wday (gmtime_r 1709210096) = (1709210096 / 86400 + 4) mod 7 /\
  tm_yday (gmtime_r 1709210096) = 1709210096 / 86400 - days_before_year (tm_year (gmtime_r 1709210096) + 1900).
Proof. apply gmtime_calendar. by split. Defined.

Lemma strftime_bounded_witness :
  exists out, (length out < 12)%nat /\
    strftime (replicate 12 1) 12 (str "%F at %T") (gmtime_r 1709210096) =
      Some (out ++ [0] ++ drop (S (length out)) (replicate 12 1), len out).
Proof.
  apply strftime_bounded; [by vm_compute|by vm_compute|cbn; lia].
Defined.
