(* ===== verification/Wait.v ===== *)
(** * Sleeping on a channel

    The interface between the scheduler and the kernel code that blocks:
    [cur->state = TASK_BLOCKED; cur->wait_channel = ch; sched_schedule()] on one
    side, [sched_wake_channel(ch)] and [sched_wake_task(t)] on the other
    ([kernel/ke/sched.c]).  [WaitOps] names the operations and observations,
    [WaitLaws] states what a client may rely on, and the instance at the end
    shows that the scheduler of the file Sched keeps the promise. *)

From Stdlib Require Import ZArith Lia Bool.
From stdpp Require Import base list gmap.
From S2P Require Import Prelude Chain Sched.

Open Scope Z_scope.

(** ** The interface *)

Class WaitOps (K : Type) := {
  executing : K -> nat -> bool;         (* the task runs on a CPU *)
  asleep : K -> nat -> option nat;      (* the channel a blocked task waits for *)
  scheduled : K -> nat -> bool;         (* the task runs or is on a run queue *)
  sleep_on : nat -> nat -> K -> K;      (* task, channel *)
  wake_channel : nat -> nat -> K -> K;  (* CPU, channel *)
  wake_task : nat -> nat -> K -> K;     (* CPU, task *)
  schedule : nat -> K -> K;             (* CPU *)
}.

(** At most [n] tasks sleep on the channel. *)
Definition sleepers_bound {K : Type} `{WaitOps K} (k : K) (ch n : nat) : Prop :=
  forall l, NoDup l -> (forall t, t ∈ l -> asleep k t = Some ch) -> (length l <= n)%nat.

Class WaitLaws (K : Type) `{WaitOps K} := {
  wait_ok : K -> Prop;
  wake_limit : nat;
  executing_awake : forall k t, wait_ok k -> executing k t = true -> asleep k t = None /\ scheduled k t = true;
  sleep_on_spec : forall k t ch, wait_ok k -> executing k t = true ->
    wait_ok (sleep_on t ch k) /\
    (forall x, asleep (sleep_on t ch k) x = if decide (x = t) then Some ch else asleep k x) /\
    (forall x, x <> t -> scheduled (sleep_on t ch k) x = scheduled k x);
  wake_channel_spec : forall k me ch, wait_ok k -> sleepers_bound k ch wake_limit ->
    wait_ok (wake_channel me ch k) /\
    (forall x, asleep (wake_channel me ch k) x = if decide (asleep k x = Some ch) then None else asleep k x) /\
    (forall x, asleep k x = Some ch \/ scheduled k x = true -> scheduled (wake_channel me ch k) x = true);
  wake_task_spec : forall k me t, wait_ok k ->
    wait_ok (wake_task me t k) /\
    (forall x, asleep (wake_task me t k) x = if decide (x = t) then None else asleep k x) /\
    (forall x, (x = t /\ is_Some (asleep k t)) \/ scheduled k x = true -> scheduled (wake_task me t k) x = true);
  schedule_spec : forall k c, wait_ok k ->
    wait_ok (schedule c k) /\
    (forall x, asleep (schedule c k) x = asleep k x) /\
    (forall x, scheduled k x = true -> scheduled (schedule c k) x = true);
}.

(** ** The scheduler's side *)

Definition current_of (s : sched) (c : nat) : option nat := cpus s !! c ≫= current_task.
Definition idle_of (s : sched) (c : nat) : option nat := cpus s !! c ≫= idle_task.

Definition is_executing (s : sched) (t : nat) : bool :=
  bool_decide (state_of s t = Some TASK_RUNNING) && negb (is_idle_task s t).

Definition asleep_on (s : sched) (t : nat) : option nat :=
  tk ← tasks s !! t; if decide (t_state tk = TASK_BLOCKED) then t_wait_channel tk else None.

Definition is_scheduled (s : sched) (t : nat) : bool :=
  on_rq s t || bool_decide (state_of s t = Some TASK_RUNNING).

Definition block_on (t ch : nat) (s : sched) : sched :=
  upd_task t (fun tk => set_wait (Some ch) (t_wakeup_tick tk) (set_state TASK_BLOCKED tk)) s.

#[export] Instance sched_wait_ops : WaitOps sched := {|
  executing := is_executing;
  asleep := asleep_on;
  scheduled := is_scheduled;
  sleep_on := block_on;
  wake_channel := fun me ch s => sched_wake_channel me s (Some ch);
  wake_task := fun me t s => sched_wake_task me s t;
  schedule := fun c s => (sched_schedule s c).1;
|}.

(** The tasks and the CPUs, apart from the queues: every task is live and
    assigned to a CPU, the tasks other than the idle tasks are on the task list,
    every CPU has an idle task and runs a task assigned to it, and a RUNNING task
    is the current one of a CPU. *)
Record tasks_ok (s : sched) : Prop := {
  to_list : exists L, chain (t_next_of s) (g_task_list_head s) L /\ NoDup L /\
    (forall t, t ∈ L -> is_Some (tasks s !! t)) /\
    (forall t, is_Some (tasks s !! t) -> t ∉ idle_tasks s -> t ∈ L);
  to_smp : g_smp_initialized s = true;
  to_task : forall t, is_Some (tasks s !! t) -> has_exited s t = false /\ sp_ok s t = true /\
    exists c, cpu_of s t = Some (Z.of_nat c) /\ is_Some (cpus s !! c);
  to_idle : forall t, t ∈ idle_tasks s ->
    state_of s t <> Some TASK_BLOCKED /\ state_of s t <> Some TASK_ZOMBIE;
  to_current : forall c, is_Some (cpus s !! c) -> exists cur i,
    current_of s c = Some cur /\ cpu_of s cur = Some (Z.of_nat c) /\
    idle_of s c = Some i /\ i ∈ idle_tasks s /\ cpu_of s i = Some (Z.of_nat c);
  to_run : forall t, state_of s t = Some TASK_RUNNING -> t ∉ idle_tasks s -> exists c, current_of s c = Some t;
}.

(** The whole invariant: a READY task is on the queue of its CPU. *)
Record sys_ok (s : sched) : Prop := {
  so_queues : exists Q, rq_ok s Q;
  so_tasks : tasks_ok s;
  so_ready : forall t, state_of s t = Some TASK_READY -> t ∉ idle_tasks s -> on_rq s t = true;
}.

(** ** Frames: everything but the queues *)

Definition cpu_cores (s : sched) : gmap nat percpu := set_queue None None 0 <$> cpus s.

Record frame (s s' : sched) : Prop := {
  fr_cores : cores s' = cores s;
  fr_cpus : cpu_cores s' = cpu_cores s;
  fr_idle : idle_tasks s' = idle_tasks s;
  fr_head : g_task_list_head s' = g_task_list_head s;
  fr_smp : g_smp_initialized s' = g_smp_initialized s;
}.

#[export] Instance frame_preorder : PreOrder frame.
Proof.
  split; [by split|]. intros a b c [? ? ? ? ?] [? ? ? ? ?]. split; congruence.
Qed.

Lemma cpu_cores_upd s c f :
  (forall p, set_queue None None 0 (f p) = set_queue None None 0 p) -> cpu_cores (upd_cpu c f s) = cpu_cores s.
Proof.
  intros Hf. unfold cpu_cores. apply map_eq. intros x. rewrite !lookup_fmap, lookup_upd_cpu.
  case_decide; [|done]. destruct (cpus s !! x); simpl; [by rewrite Hf|done].
Qed.

Lemma frame_enqueue s c t : frame s (rq_enqueue_locked s c t).
Proof.
  destruct (idle_enqueue s c t) as (? & ? & ? & _). split; try done; [apply cores_enqueue|].
  unfold rq_enqueue_locked. destruct (cpus s !! c) as [cpu|]; [|done].
  destruct (tasks s !! t) as [tk|]; [|done]. destruct (t_on_rq tk); [done|].
  destruct (_ || _); [done|]. destruct (bool_decide _); [done|].
  by destruct (runqueue_tail cpu); rewrite cpu_cores_upd.
Qed.

Lemma frame_dequeue s c : frame s (rq_dequeue_locked s c).1.
Proof.
  destruct (idle_dequeue s c) as (? & ? & ? & _). split; try done; [apply cores_dequeue|].
  unfold rq_dequeue_locked. destruct (cpus s !! c) as [cpu|]; [|done]. destruct (runqueue_head cpu); [|done].
  cbn [fst]. change (cpu_cores (upd_task ?a ?b ?u)) with (cpu_cores u). by rewrite cpu_cores_upd.
Qed.

(** *** What a frame determines *)

Section Frame.
Context (s s' : sched) (F : frame s s').

Lemma frame_task t : core <$> tasks s' !! t = core <$> tasks s !! t.
Proof. pose proof (fr_cores _ _ F) as E. unfold cores in E. by rewrite <- !lookup_fmap, E. Qed.

Lemma frame_obs t :
  state_of s' t = state_of s t /\ has_exited s' t = has_exited s t /\ sp_ok s' t = sp_ok s t /\
  cpu_of s' t = cpu_of s t /\ asleep_on s' t = asleep_on s t /\ t_next_of s' t = t_next_of s t /\
  (is_Some (tasks s' !! t) <-> is_Some (tasks s !! t)).
Proof.
  pose proof (frame_task t) as E. unfold state_of, has_exited, sp_ok, cpu_of, asleep_on, t_next_of.
  destruct (tasks s' !! t) as [tk'|], (tasks s !! t) as [tk|]; try done.
  apply (inj Some), core_fields in E as (E1 & E2 & E3 & E4 & E5 & E6). cbn. rewrite E1, E2, E3, E4, E5, E6.
  split_and!; try done.
Qed.

Lemma frame_cpu c :
  current_of s' c = current_of s c /\ idle_of s' c = idle_of s c /\ (is_Some (cpus s' !! c) <-> is_Some (cpus s !! c)).
Proof.
  assert (E : cpu_cores s' !! c = cpu_cores s !! c) by (by rewrite (fr_cpus _ _ F)).
  unfold cpu_cores in E. rewrite !lookup_fmap in E. unfold current_of, idle_of.
  destruct (cpus s' !! c) as [p'|], (cpus s !! c) as [p|]; try done.
  apply (inj Some) in E. injection E as E1 E2. cbn. rewrite E1, E2. split_and!; try done.
Qed.

Lemma tasks_ok_frame : tasks_ok s -> tasks_ok s'.
Proof.
  intros [(L & Hch & Hnd & H1 & H2) Hsm Ht Hi Hc Hr].
  split; [|by rewrite (fr_smp _ _ F)|..]; rewrite ?(fr_idle _ _ F), ?(fr_head _ _ F).
  - exists L. split_and!; [|done|..].
    + eapply chain_ext; [|exact Hch]. intros x _. symmetry. apply frame_obs.
    + intros t Hin. apply frame_obs. by apply H1.
    + intros t Hs. apply H2, frame_obs, Hs.
  - intros t Hs. destruct (frame_obs t) as (_ & -> & -> & -> & _ & _ & Es). destruct (Ht t) as (? & ? & c & ? & ?); [by apply Es|].
    split_and!; try done. exists c. split; [done|]. by apply frame_cpu.
  - intros t Hin. destruct (frame_obs t) as (-> & _). by apply Hi.
  - intros c Hs. destruct (frame_cpu c) as (-> & -> & Es). destruct (Hc c) as (cur & i & H3 & H4 & H5 & H6 & H7); [by apply Es|].
    exists cur, i. destruct (frame_obs cur) as (_ & _ & _ & -> & _). by destruct (frame_obs i) as (_ & _ & _ & -> & _).
  - intros t. destruct (frame_obs t) as (-> & _). intros Hst Hn. destruct (Hr t Hst Hn) as [c Hcur]. exists c.
    by destruct (frame_cpu c) as (-> & _).
Qed.

End Frame.

(** ** Updates of one task *)

Definition keeps_task (f : task -> task) : Prop :=
  forall tk, t_on_cpu (f tk) = t_on_cpu tk /\ t_has_exited (f tk) = t_has_exited tk /\
    t_sp_ok (f tk) = t_sp_ok tk /\ t_next (f tk) = t_next tk.

Section Update.
Context (s : sched) (t : nat) (f : task -> task) (Hf : keeps_task f).

Lemma upd_obs x :
  has_exited (upd_task t f s) x = has_exited s x /\ sp_ok (upd_task t f s) x = sp_ok s x /\
  cpu_of (upd_task t f s) x = cpu_of s x /\ t_next_of (upd_task t f s) x = t_next_of s x /\
  (is_Some (tasks (upd_task t f s) !! x) <-> is_Some (tasks s !! x)).
Proof.
  unfold has_exited, sp_ok, cpu_of, t_next_of. rewrite lookup_upd_task.
  case_decide; [|done]. destruct (tasks s !! x) as [tk|]; [|done]. cbn.
  destruct (Hf tk) as (-> & -> & -> & ->). split_and!; try done.
Qed.

Lemma state_of_upd x :
  state_of (upd_task t f s) x = if decide (x = t) then (fun tk => t_state (f tk)) <$> tasks s !! x else state_of s x.
Proof. unfold state_of. rewrite lookup_upd_task. case_decide; [|done]. by destruct (tasks s !! x). Qed.

Lemma tasks_ok_upd st :
  tasks_ok s -> (forall tk, t_state (f tk) = st) ->
  st = TASK_READY \/ (st = TASK_BLOCKED /\ t ∉ idle_tasks s) \/
    (st = TASK_RUNNING /\ (t ∈ idle_tasks s \/ exists c, current_of s c = Some t)) ->
  tasks_ok (upd_task t f s).
Proof.
  intros [(L & Hch & Hnd & H1 & H2) Hsm Ht Hi Hc Hr] Hst Hcase.
  split; [|done|..]; cbn [upd_task set_tasks idle_tasks g_task_list_head].
  - exists L. split_and!; [|done|..].
    + eapply chain_ext; [|exact Hch]. intros x _. symmetry. apply upd_obs.
    + intros x Hin. apply upd_obs. by apply H1.
    + intros x Hs. apply H2, upd_obs, Hs.
  - intros x Hs. destruct (upd_obs x) as (-> & -> & -> & _ & Es). apply Ht, Es, Hs.
  - intros x Hin. rewrite state_of_upd. case_decide as E; [subst x|by apply Hi].
    destruct (tasks s !! t) as [tk|]; [|done]. cbn. rewrite Hst.
    destruct Hcase as [->|[[-> Hn]|[-> _]]]; [done|done|done].
  - intros c Hs. destruct (Hc c Hs) as (cur & i & H3 & H4 & H5 & H6 & H7). exists cur, i.
    destruct (upd_obs cur) as (_ & _ & -> & _). destruct (upd_obs i) as (_ & _ & -> & _). done.
  - intros x. rewrite state_of_upd. case_decide as E; [subst x|by apply Hr].
    destruct (tasks s !! t) as [tk|]; [|done]. cbn. rewrite Hst. intros [= ->] Hn.
    destruct Hcase as [?|[[? _]|[_ [?|?]]]]; done.
Qed.

End Update.

(** A CPU switches to a task assigned to it; the task it leaves is not RUNNING,
    unless it is idle. *)
Lemma tasks_ok_switch s c n cur :
  tasks_ok s -> cpu_of s n = Some (Z.of_nat c) -> current_of s c = Some cur ->
  (state_of s cur <> Some TASK_RUNNING \/ cur ∈ idle_tasks s) ->
  tasks_ok (upd_cpu c (set_current_task (Some n)) s).
Proof.
  intros [Hl Hsm Ht Hi Hc Hr] Hn Hcur Hleft.
  assert (Hcs : forall x, current_of (upd_cpu c (set_current_task (Some n)) s) x =
      if decide (x = c) then Some n else current_of s x).
  { intros x. unfold current_of in *. rewrite lookup_upd_cpu. case_decide; [subst|done]. by destruct (cpus s !! c). }
  split; try done.
  - intros t Hs. destruct (Ht t Hs) as (? & ? & c' & ? & ?). split_and!; try done. exists c'. split; [done|].
    by apply is_Some_upd_cpu.
  - intros c' Hs%is_Some_upd_cpu. destruct (Hc c' Hs) as (cur' & i & H3 & H4 & H5 & H6 & H7).
    exists (if decide (c' = c) then n else cur'), i. rewrite Hcs. split_and!; try done.
    + by case_decide.
    + case_decide; [by subst|done].
    + unfold idle_of in *. rewrite lookup_upd_cpu. case_decide; [subst|done]. by destruct (cpus s !! c).
  - intros t Hst Hni. destruct (Hr t Hst Hni) as [c' Hc']. exists c'. rewrite Hcs. case_decide as E; [|done]. subst c'.
    assert (t = cur) as -> by congruence. by destruct Hleft.
Qed.

(** ** Sleeping *)

Lemma off_queue Q s t st : rq_ok s Q -> state_of s t = Some st -> st <> TASK_READY -> on_rq s t = false.
Proof.
  intros H Hst Hne. apply not_true_iff_false. rewrite (on_rq_iff Q s t H). intros [c Hc].
  destruct (rq_task _ _ H c t Hc) as (tk & [Htk _ _ _] & _ & _ & Hr). unfold state_of in Hst. rewrite Htk in Hst.
  injection Hst as <-. done.
Qed.

Lemma is_executing_spec s t : is_executing s t = true <-> state_of s t = Some TASK_RUNNING /\ t ∉ idle_tasks s.
Proof.
  unfold is_executing, is_idle_task. rewrite andb_true_iff, negb_true_iff, bool_decide_eq_true, bool_decide_eq_false. done.
Qed.

Lemma asleep_on_blocked s t ch : asleep_on s t = Some ch <-> blocked_on s ch t = true.
Proof.
  unfold asleep_on, blocked_on. destruct (tasks s !! t) as [tk|]; [|done]. cbn.
  rewrite andb_true_iff, !bool_decide_eq_true. case_decide; naive_solver.
Qed.

Lemma asleep_on_state s t ch : asleep_on s t = Some ch -> state_of s t = Some TASK_BLOCKED.
Proof.
  unfold asleep_on, state_of. destruct (tasks s !! t) as [tk|]; [|done]. cbn. by case_decide; [intros; f_equal|].
Qed.

Lemma asleep_on_upd s t f x :
  asleep_on (upd_task t f s) x =
    if decide (x = t) then tk ← tasks s !! x; (if decide (t_state (f tk) = TASK_BLOCKED) then t_wait_channel (f tk) else None)
    else asleep_on s x.
Proof. unfold asleep_on. rewrite lookup_upd_task. case_decide; [|done]. by destruct (tasks s !! x). Qed.

Lemma on_rq_upd_keep s t f x : (forall tk, t_on_rq (f tk) = t_on_rq tk) -> on_rq (upd_task t f s) x = on_rq s x.
Proof. intros Hf. rewrite on_rq_upd. unfold on_rq. destruct (tasks s !! x); [|done]. by case_decide. Qed.

Lemma executing_awake_ok s t :
  sys_ok s -> is_executing s t = true -> asleep_on s t = None /\ is_scheduled s t = true.
Proof.
  intros _ [Hst _]%is_executing_spec. split.
  - destruct (asleep_on s t) eqn:E; [|done]. apply asleep_on_state in E. congruence.
  - unfold is_scheduled. rewrite Hst. by rewrite bool_decide_true, orb_true_r.
Qed.

Lemma sleep_on_ok s t ch :
  sys_ok s -> is_executing s t = true ->
  sys_ok (block_on t ch s) /\
  (forall x, asleep_on (block_on t ch s) x = if decide (x = t) then Some ch else asleep_on s x) /\
  (forall x, x <> t -> is_scheduled (block_on t ch s) x = is_scheduled s x).
Proof.
  intros [[Q H] Ht Hr] [Hst Hni]%is_executing_spec.
  set (f := fun tk => set_wait (Some ch) (t_wakeup_tick tk) (set_state TASK_BLOCKED tk)).
  assert (Hoff : on_rq s t = false) by (by eapply off_queue).
  assert (Est : forall x, x <> t -> state_of (block_on t ch s) x = state_of s x)
    by (intros x Hx; unfold block_on; rewrite state_of_upd; by case_decide).
  assert (Erq : forall x, on_rq (block_on t ch s) x = on_rq s x) by (intros x; by apply on_rq_upd_keep).
  split_and!.
  - split.
    + exists Q. by apply rq_ok_upd_off.
    + apply (tasks_ok_upd s t f ltac:(done) TASK_BLOCKED); [done|done|]. by right; left.
    + intros x. rewrite Erq. destruct (decide (x = t)) as [->|Hx]; [|rewrite Est by done; apply Hr].
      unfold block_on. rewrite state_of_upd, decide_True by done. by destruct (tasks s !! t).
  - intros x. unfold block_on. rewrite asleep_on_upd. case_decide as E; [subst x|done].
    unfold state_of in Hst. by destruct (tasks s !! t).
  - intros x Hx. unfold is_scheduled. by rewrite Erq, Est.
Qed.

(** ** Waking *)

Lemma frame_enqueue_ready me s t :
  let s' := sched_enqueue_ready me s t in
  cpu_cores s' = cpu_cores s /\ idle_tasks s' = idle_tasks s /\
  g_task_list_head s' = g_task_list_head s /\ g_smp_initialized s' = g_smp_initialized s.
Proof.
  cbv zeta. unfold sched_enqueue_ready. destruct (is_idle_task s t); [done|]. destruct (tasks s !! t) as [tk|]; [|done].
  assert (E : forall u c, cpu_cores u = cpu_cores s -> idle_tasks u = idle_tasks s ->
    g_task_list_head u = g_task_list_head s -> g_smp_initialized u = g_smp_initialized s ->
    let v := if negb (t_on_rq tk) && bool_decide (t_state tk = TASK_READY) then rq_enqueue_locked u c t else u in
    let w := if g_smp_initialized v && negb (c =? me)%nat then add_ipi c v else v in
    cpu_cores w = cpu_cores s /\ idle_tasks w = idle_tasks s /\
    g_task_list_head w = g_task_list_head s /\ g_smp_initialized w = g_smp_initialized s).
  { intros u c <- <- <- <- v w.
    assert (Fv : cpu_cores v = cpu_cores u /\ idle_tasks v = idle_tasks u /\
      g_task_list_head v = g_task_list_head u /\ g_smp_initialized v = g_smp_initialized u).
    { unfold v. destruct (_ && _); [|done]. destruct (frame_enqueue u c t). done. }
    unfold w. by destruct (g_smp_initialized v && _). }
  destruct (percpu_get s (t_on_cpu tk)) as [c|]; by apply E.
Qed.

Lemma frame_enqueue_all me V s :
  let s' := foldl (sched_enqueue_ready me) s V in
  cpu_cores s' = cpu_cores s /\ idle_tasks s' = idle_tasks s /\
  g_task_list_head s' = g_task_list_head s /\ g_smp_initialized s' = g_smp_initialized s.
Proof.
  cbv zeta. revert s. induction V as [|t V IH]; intros s; cbn [foldl]; [done|].
  destruct (IH (sched_enqueue_ready me s t)) as (-> & -> & -> & ->). apply frame_enqueue_ready.
Qed.

Lemma tasks_ok_ready W : forall s, tasks_ok s -> tasks_ok (make_all_ready W s).
Proof.
  unfold make_all_ready. induction W as [|t W IH]; intros s H; [done|]. cbn [foldl]. apply IH.
  apply (tasks_ok_upd s t make_ready ltac:(done) TASK_READY); [done|done|by left].
Qed.

(** The tasks that sleep on a channel, in task list order, are those the wake-up
    finds. *)
Lemma sleepers_list s (L : list nat) ch x :
  tasks_ok s -> (forall t, is_Some (tasks s !! t) -> t ∉ idle_tasks s -> t ∈ L) ->
  x ∈ filter (fun t => blocked_on s ch t = true) L <-> asleep_on s x = Some ch.
Proof.
  intros Ht HL. rewrite list_elem_of_filter, <- asleep_on_blocked. split; [by intros [? _]|]. intros Hs. split; [done|].
  pose proof (asleep_on_state _ _ _ Hs) as Hst. apply HL.
  - unfold state_of in Hst. by destruct (tasks s !! x).
  - intros Hi. by destruct (to_idle _ Ht x Hi) as [? _].
Qed.

Lemma sleeper_enqueueable s t ch : tasks_ok s -> asleep_on s t = Some ch -> enqueueable s t.
Proof.
  intros Ht Hs. pose proof (asleep_on_state _ _ _ Hs) as Hst.
  assert (is_Some (tasks s !! t)) as Hx by (unfold state_of in Hst; by destruct (tasks s !! t)).
  assert (Hni : t ∉ idle_tasks s) by (intros Hi; by destruct (to_idle _ Ht t Hi) as [? _]).
  destruct (to_task _ Ht t Hx) as (He & Hsp & c & Hc & [cpu Hcpu]). destruct Hx as [tk Htk].
  unfold has_exited, sp_ok, cpu_of in *. rewrite Htk in *. injection Hc as Hc. exists tk, c, cpu. by split_and!; [split|..].
Qed.

Lemma wake_channel_frame me Q s ch L :
  rq_ok s Q -> tasks_ok s -> chain (t_next_of s) (g_task_list_head s) L -> NoDup L ->
  (forall t, t ∈ L -> is_Some (tasks s !! t)) ->
  let W := filter (fun t => blocked_on s ch t = true) L in
  (forall t, t ∈ W -> enqueueable s t) ->
  frame (make_all_ready W s) (sched_wake_channel me s (Some ch)).
Proof.
  intros H Ht Hch Hnd Hex W HW. destruct (sched_wake_channel_ok me Q s ch L H Hch Hnd Hex HW) as [_ Hco].
  unfold sched_wake_channel in *. assert (Hfuel : (length L <= size (tasks s))%nat) by (by apply length_le_size).
  rewrite (wake_loop_spec ch L (size (tasks s)) s _ MAX_WAKE Hch Hnd Hfuel Hex) in *. fold W in Hco |- *.
  destruct (frame_enqueue_all me (take MAX_WAKE W) (make_all_ready W s)) as (? & ? & ? & ?). by split.
Qed.

Lemma wake_channel_ok s me ch :
  sys_ok s -> sleepers_bound s ch MAX_WAKE ->
  let s' := sched_wake_channel me s (Some ch) in
  sys_ok s' /\
  (forall x, asleep_on s' x = if decide (asleep_on s x = Some ch) then None else asleep_on s x) /\
  (forall x, asleep_on s x = Some ch \/ is_scheduled s x = true -> is_scheduled s' x = true).
Proof.
  intros [[Q H] Ht Hr] Hb s'. destruct (to_list _ Ht) as (L & Hch & Hnd & H1 & H2).
  pose proof (fun x => sleepers_list s L ch x Ht H2) as HW. set (W := filter _ L) in HW.
  assert (HWe : forall t, t ∈ W -> enqueueable s t) by (intros t Hin%HW; by eapply sleeper_enqueueable).
  destruct (sched_wake_channel_ok me Q s ch L H Hch Hnd H1 HWe) as [H' _]. fold W s' in H'.
  pose proof (wake_channel_frame me Q s ch L H Ht Hch Hnd H1 HWe) as F. fold W s' in F.
  rewrite take_ge in H'; [|apply Hb; [by apply NoDup_filter|by intros t Hin%HW]].
  assert (Hrq : forall x, (x ∈ W \/ on_rq s x = true) -> on_rq s' x = true).
  { intros x Hx. apply (on_rq_iff _ _ _ H'). destruct Hx as [Hx|[c Hc]%(on_rq_iff Q s x H)].
    - destruct (HWe x Hx) as (tk & c & cpu & [Htk _ _ _] & Hc & _). exists c. apply elem_of_app. right.
      apply list_elem_of_filter. split; [|done]. unfold cpu_of. rewrite Htk. cbn. by rewrite Hc.
    - exists c. apply elem_of_app. by left. }
  assert (Hst : forall x, x ∉ W -> state_of s' x = state_of s x).
  { intros x Hx. destruct (frame_obs _ _ F x) as (-> & _). unfold state_of. rewrite lookup_make_all_ready.
    by rewrite decide_False. }
  split_and!.
  - split; [by eexists|eapply tasks_ok_frame; [done|by apply tasks_ok_ready]|]. intros x Hx Hni. apply Hrq.
    destruct (decide (x ∈ W)) as [|Hn]; [by left|right]. rewrite Hst in Hx by done. apply Hr; [done|].
    destruct (make_all_ready_frame W s) as (_ & Ei & _). by rewrite (fr_idle _ _ F), Ei in Hni.
  - intros x. destruct (frame_obs _ _ F x) as (_ & _ & _ & _ & -> & _). unfold asleep_on at 1.
    rewrite lookup_make_all_ready. destruct (decide (x ∈ W)) as [Hx|Hx].
    + rewrite decide_True by (by apply HW). by destruct (tasks s !! x).
    + rewrite decide_False; [done|]. by intros ?%HW.
  - intros x [Hx|Hx].
    + unfold is_scheduled. rewrite Hrq; [done|left; by apply HW].
    + unfold is_scheduled in *. apply orb_true_iff in Hx as [Hx|Hx]; [by rewrite Hrq by (by right)|].
      rewrite Hst; [by rewrite Hx, orb_true_r|]. intros Hin%HW%asleep_on_state. rewrite Hin in Hx.
      by apply bool_decide_eq_true_1 in Hx.
Qed.

Lemma wake_task_blocked s me t :
  sys_ok s -> state_of s t = Some TASK_BLOCKED ->
  let s1 := upd_task t (fun tk => set_wait None 0 (set_state TASK_READY tk)) s in
  let s' := sched_enqueue_ready me s1 t in
  (exists Q, rq_ok s' Q) /\ tasks_ok s1 /\ frame s1 s' /\
  (forall x, on_rq s' x = if decide (x = t) then true else on_rq s x).
Proof.
  intros [[Q H] Ht Hr] Hst s1 s'. set (f := fun tk => set_wait None 0 (set_state TASK_READY tk)) in s1.
  assert (Hoff : on_rq s t = false) by (by eapply off_queue).
  assert (Hni : t ∉ idle_tasks s) by (intros Hi; by destruct (to_idle _ Ht t Hi)).
  assert (is_Some (tasks s !! t)) as Hx by (unfold state_of in Hst; by destruct (tasks s !! t)).
  destruct (to_task _ Ht t Hx) as (He & Hsp & c & Hc & [cpu Hcpu]). destruct Hx as [tk Htk].
  unfold has_exited, sp_ok, cpu_of in *. rewrite Htk in *. injection Hc as Hc.
  assert (Ht1 : tasks s1 !! t = Some (f tk)) by (unfold s1; by rewrite lookup_upd_task, decide_True, Htk).
  assert (H1 : rq_ok s1 Q) by (by apply rq_ok_upd_off).
  destruct (sched_enqueue_ready_ok me Q s1 t (f tk) c cpu) as (H2 & Hco & Hid & _ & Hon); [done|by split|done|done|done| |].
  { unfold on_rq in Hoff. by rewrite Htk in Hoff. }
  destruct (frame_enqueue_ready me s1 t) as (? & ? & ? & ?). fold s' in H2, Hco, Hid, Hon.
  split_and!; [by eexists| |by split|].
  - apply (tasks_ok_upd s t f ltac:(done) TASK_READY); [done|done|by left].
  - intros x. rewrite Hon. case_decide; [done|]. by apply on_rq_upd_keep.
Qed.

Lemma wake_task_ok s me t :
  sys_ok s ->
  let s' := sched_wake_task me s t in
  sys_ok s' /\
  (forall x, asleep_on s' x = if decide (x = t) then None else asleep_on s x) /\
  (forall x, (x = t /\ is_Some (asleep_on s t)) \/ is_scheduled s x = true -> is_scheduled s' x = true).
Proof.
  intros Hok s'. unfold s', sched_wake_task. destruct (bool_decide_reflect (state_of s t = Some TASK_BLOCKED)) as [Hst|Hst].
  - destruct (wake_task_blocked s me t Hok Hst) as ([Q' H'] & Ht' & F & Hon). destruct Hok as [_ _ Hr].
    set (f := fun tk => set_wait None 0 (set_state TASK_READY tk)) in *. set (s1 := upd_task t f s) in *.
    set (s2 := sched_enqueue_ready me s1 t) in *.
    assert (Est : forall x, x <> t -> state_of s2 x = state_of s x).
    { intros x Hx. destruct (frame_obs _ _ F x) as (-> & _). unfold s1. by rewrite state_of_upd, decide_False. }
    split_and!.
    + split; [by eexists|by eapply tasks_ok_frame|]. intros x. rewrite Hon, (fr_idle _ _ F). case_decide; [done|].
      rewrite Est by done. apply Hr.
    + intros x. destruct (frame_obs _ _ F x) as (_ & _ & _ & _ & -> & _). unfold s1. rewrite asleep_on_upd.
      case_decide; [|done]. by destruct (tasks s !! x).
    + intros x Hx. unfold is_scheduled in *. rewrite Hon. destruct (decide (x = t)) as [|Hne]; [done|].
      rewrite Est by done. by destruct Hx as [[? _]|Hx].
  - assert (Hn : asleep_on s t = None).
    { destruct (asleep_on s t) eqn:E; [|done]. by apply asleep_on_state in E. }
    split_and!; [done| |].
    + intros x. by case_decide; subst.
    + intros x [[_ [ch Hs]]|Hx]; [congruence|done].
Qed.

(** ** Scheduling *)

(** The task [sched_schedule] switches to: the first of the queue, else idle. *)
Definition next_task (Q : nat -> list nat) (s : sched) (c : nat) : option nat :=
  match Q c with n :: _ => Some n | [] => idle_of s c end.

Lemma next_task_ok Q s c n :
  rq_ok s Q -> tasks_ok s -> is_Some (cpus s !! c) -> next_task Q s c = Some n ->
  cpu_of s n = Some (Z.of_nat c) /\ sp_ok s n = true /\ has_exited s n = false /\
  state_of s n <> Some TASK_ZOMBIE /\ (state_of s n = Some TASK_READY \/ n ∈ idle_tasks s).
Proof.
  intros H Ht Hs Hn. unfold next_task in Hn. destruct (Q c) as [|m l] eqn:EQ.
  - destruct (to_current _ Ht c Hs) as (cur & i & _ & _ & Hi & Hin & Hcpu). assert (n = i) as -> by congruence.
    assert (is_Some (tasks s !! i)) as Hx by (unfold cpu_of in Hcpu; by destruct (tasks s !! i)).
    destruct (to_task _ Ht i Hx) as (? & ? & _). destruct (to_idle _ Ht i Hin). by split_and!; try right.
  - injection Hn as ->. assert (Hin : n ∈ Q c) by (rewrite EQ; left).
    destruct (rq_task _ _ H c n Hin) as (tk & [Htk _ He Hsp] & _ & Hc & Hst).
    unfold cpu_of, sp_ok, has_exited, state_of. rewrite Htk. cbn. rewrite Hc, Hst. by split_and!; try left.
Qed.

Lemma frame_requeue s c cur :
  frame (if runnable s cur && negb (on_rq s cur) then upd_task cur (set_state TASK_READY) s else s)
    (requeue_current s c cur).
Proof. unfold requeue_current. destruct (_ && _); [apply frame_enqueue|done]. Qed.

Lemma schedule_stay Q s c cur :
  rq_ok s Q -> tasks_ok s -> current_of s c = Some cur -> next_task Q s c = Some cur ->
  (sched_schedule s c).1 = upd_task cur set_running (rq_dequeue_locked s c).1.
Proof.
  intros H Ht Hcur Hn. unfold current_of, next_task, idle_of in *. destruct (cpus s !! c) as [cpu|] eqn:Hc; [|done]. cbn in *.
  unfold sched_schedule. rewrite (to_smp _ Ht), Hc, Hcur. cbn [negb].
  pose proof (rq_dequeue_ok Q s c cpu H Hc) as Hd. destruct (Q c) as [|m l] eqn:EQ.
  - rewrite Hd. cbn [fst]. rewrite decide_False by done. rewrite Hn, decide_True by done. cbn [fst].
    assert (Hex : has_exited s cur = false); [|by rewrite Hex].
    apply (next_task_ok Q s c); [done|done|by eexists|]. unfold next_task, idle_of. by rewrite EQ, Hc.
  - destruct Hd as (s1 & -> & _). injection Hn as ->. by rewrite decide_True.
Qed.

Lemma schedule_switch Q s c cur n :
  rq_ok s Q -> tasks_ok s -> current_of s c = Some cur -> next_task Q s c = Some n -> n <> cur ->
  (sched_schedule s c).1 =
    upd_task n set_running (upd_cpu c (set_current_task (Some n)) (requeue_current (rq_dequeue_locked s c).1 c cur)).
Proof.
  intros H Ht Hcur Hn Hne. pose proof Hn as Hn'. unfold current_of, next_task, idle_of in *.
  destruct (cpus s !! c) as [cpu|] eqn:Hc; [|done]. cbn in *.
  destruct (next_task_ok Q s c n H Ht ltac:(by eexists)) as (_ & Hsp & _ & Hz & _); [unfold next_task, idle_of; by rewrite Hc|].
  pose proof (frame_dequeue s c) as F. destruct (frame_obs _ _ F n) as (Es & _ & Ep & _).
  assert (Hck : check_next (rq_dequeue_locked s c).1 c cpu n = ((rq_dequeue_locked s c).1, Some n)).
  { unfold check_next. by rewrite Ep, Es, Hsp, bool_decide_false. }
  assert (Hsp' : sp_ok (rq_dequeue_locked s c).1 n = true) by congruence.
  unfold sched_schedule. rewrite (to_smp _ Ht), Hc, Hcur. cbn [negb].
  pose proof (rq_dequeue_ok Q s c cpu H Hc) as Hd. destruct (Q c) as [|m l] eqn:EQ.
  - rewrite Hd in Hck, Hsp' |- *. cbn [fst] in *. rewrite Hn. rewrite decide_False by done. rewrite decide_False by done.
    rewrite Hck, Hsp', bool_decide_false by done. done.
  - destruct Hd as (s1 & E & _). rewrite E in Hck, Hsp' |- *. cbn [fst] in *. injection Hn as ->.
    rewrite decide_False by congruence. rewrite decide_False by done. rewrite Hck, Hsp', bool_decide_false by done. done.
Qed.

(** Dequeueing, as seen through the frame. *)
Lemma dequeue_view Q s c n :
  rq_ok s Q -> is_Some (cpus s !! c) -> tasks_ok s -> next_task Q s c = Some n ->
  let s1 := (rq_dequeue_locked s c).1 in
  (exists Q1, rq_ok s1 Q1) /\ forall x, on_rq s1 x = if decide (x = n) then false else on_rq s x.
Proof.
  intros H Hs Ht Hn s1. destruct (next_task_ok Q s c n H Ht Hs Hn) as (_ & _ & _ & _ & Hcase).
  destruct Hs as [cpu Hc]. pose proof (rq_dequeue_ok Q s c cpu H Hc) as Hd. unfold next_task in Hn.
  destruct (Q c) as [|m l] eqn:EQ.
  - unfold s1. rewrite Hd. cbn [fst]. split; [by eexists|]. intros x. case_decide; [subst x|done].
    apply not_true_iff_false. rewrite (on_rq_iff Q s n H). intros [c' Hin].
    destruct (rq_task _ _ H c' n Hin) as (tk & [_ Hni _ _] & _ & Hcp & _).
    unfold idle_of in Hn. rewrite Hc in Hn. cbn in Hn.
    destruct (to_current _ Ht c ltac:(by eexists)) as (cur & i & _ & _ & Hi & Hin' & _). unfold idle_of in Hi. rewrite Hc in Hi.
    cbn in Hi. congruence.
  - destruct Hd as (s1' & E & H1 & Hoff & Hcpus). unfold s1. rewrite E. cbn [fst]. injection Hn as ->.
    split; [by eexists|]. intros x. case_decide as Hx; [by subst|]. apply eq_true_iff_eq.
    rewrite (on_rq_iff _ _ _ H1), (on_rq_iff _ _ _ H). unfold upd_queue.
    split; intros [c' Hc']; exists c'; case_decide; subst; try done; rewrite EQ in *; set_solver.
Qed.

Lemma runnable_states s t :
  runnable s t = true -> t ∉ idle_tasks s /\ asleep_on s t = None /\ has_exited s t = false.
Proof.
  unfold runnable, is_idle_task. rewrite !andb_true_iff, orb_true_iff, !negb_true_iff, !bool_decide_eq_true, bool_decide_eq_false.
  intros [[He Hst] Hi]. split_and!; [done| |done]. destruct (asleep_on s t) eqn:E; [|done].
  apply asleep_on_state in E. rewrite E in Hst. by destruct Hst.
Qed.

(** The effect of [sched_schedule]: the next task runs, the current one goes back
    to the queue if it can run and is not queued. *)
Definition again (s : sched) (n cur : nat) : bool := bool_decide (n <> cur) && runnable s cur && negb (on_rq s cur).

Record schedule_view (s s' : sched) (n cur : nat) : Prop := {
  sv_queues : exists Q, rq_ok s' Q;
  sv_tasks : tasks_ok s';
  sv_idle : idle_tasks s' = idle_tasks s;
  sv_state : forall x, state_of s' x = if decide (x = n) then Some TASK_RUNNING
    else if decide (x = cur) then if again s n cur then Some TASK_READY else state_of s x else state_of s x;
  sv_on_rq : forall x, on_rq s' x = if decide (x = n) then false
    else if decide (x = cur) then again s n cur || on_rq s x else on_rq s x;
  sv_asleep : forall x, asleep_on s' x = asleep_on s x;
}.

Lemma next_awake s n : tasks_ok s -> state_of s n = Some TASK_READY \/ n ∈ idle_tasks s -> asleep_on s n = None.
Proof.
  intros Ht Hcase. destruct (asleep_on s n) eqn:E; [|done]. apply asleep_on_state in E.
  destruct Hcase as [?|Hi]; [congruence|]. by destruct (to_idle _ Ht n Hi).
Qed.

Lemma schedule_stay_view Q s c cur :
  rq_ok s Q -> tasks_ok s -> current_of s c = Some cur -> next_task Q s c = Some cur ->
  schedule_view s (sched_schedule s c).1 cur cur.
Proof.
  intros H Ht Hcur Hn. assert (Hs : is_Some (cpus s !! c)) by (unfold current_of in Hcur; by destruct (cpus s !! c)).
  rewrite (schedule_stay Q s c cur) by done. destruct (next_task_ok Q s c cur H Ht Hs Hn) as (Hcpu & _ & _ & _ & Hcase).
  destruct (dequeue_view Q s c cur H Hs Ht Hn) as ([Q1 H1] & Hon). pose proof (frame_dequeue s c) as F.
  set (s1 := (rq_dequeue_locked s c).1) in *.
  assert (Hoff : on_rq s1 cur = false) by (by rewrite Hon, decide_True).
  assert (Hx : is_Some (tasks s1 !! cur)).
  { apply (frame_obs _ _ F). unfold cpu_of in Hcpu. by destruct (tasks s !! cur). }
  split.
  - exists Q1. by apply rq_ok_upd_off.
  - apply (tasks_ok_upd s1 cur set_running ltac:(done) TASK_RUNNING); [by eapply tasks_ok_frame|done|].
    right; right. split; [done|]. right. exists c. by destruct (frame_cpu _ _ F c) as (-> & _).
  - apply F.
  - intros x. rewrite state_of_upd. destruct (frame_obs _ _ F x) as (-> & _). case_decide; [subst x|done].
    by destruct Hx as [tk ->].
  - intros x. rewrite on_rq_upd_keep, Hon by done. by case_decide.
  - intros x. rewrite asleep_on_upd. destruct (frame_obs _ _ F x) as (_ & _ & _ & _ & -> & _). case_decide; [subst x|done].
    rewrite (next_awake s cur) by done. by destruct Hx as [tk ->].
Qed.

Lemma requeue_view Q s c cur :
  rq_ok s Q -> tasks_ok s -> current_of s c = Some cur ->
  let again := runnable s cur && negb (on_rq s cur) in
  let s' := requeue_current s c cur in
  (exists Q', rq_ok s' Q') /\ tasks_ok s' /\
  (forall x, on_rq s' x = if decide (x = cur) then again || on_rq s x else on_rq s x) /\
  (forall x, state_of s' x = if decide (x = cur) then if again then Some TASK_READY else state_of s x else state_of s x) /\
  (forall x, asleep_on s' x = asleep_on s x) /\ (forall x, cpu_of s' x = cpu_of s x) /\
  current_of s' c = Some cur /\ idle_tasks s' = idle_tasks s.
Proof.
  intros H Ht Hcur ag s'. assert (Hs : is_Some (cpus s !! c)) by (unfold current_of in Hcur; by destruct (cpus s !! c)).
  destruct (to_current _ Ht c Hs) as (cur' & _ & Hcur' & Hcpu & _). assert (cur' = cur) as -> by congruence.
  assert (is_Some (tasks s !! cur)) as Hx by (unfold cpu_of in Hcpu; by destruct (tasks s !! cur)).
  destruct (to_task _ Ht cur Hx) as (He & Hsp & _). destruct Hs as [cpu Hc], Hx as [tk Htk].
  unfold has_exited, sp_ok, cpu_of in He, Hsp, Hcpu. rewrite Htk in *. injection Hcpu as Hcpu.
  destruct (requeue_current_ok Q s c cpu cur tk H Hc Htk) as (H2 & _).
  { intros (Hni & _)%runnable_states. by split; [split|]. }
  fold ag s' in H2. pose proof (frame_requeue s c cur) as F. fold ag s' in F.
  assert (Hsame : ag = true -> asleep_on s cur = None).
  { intros [Hr _]%andb_true_iff. by apply runnable_states in Hr as (_ & ? & _). }
  assert (Hon : forall x, on_rq s' x = if decide (x = cur) then ag || on_rq s x else on_rq s x).
  { intros x. apply eq_true_iff_eq. rewrite (on_rq_iff _ _ _ H2). unfold upd_queue.
    destruct (decide (x = cur)) as [->|Hne]; rewrite ?orb_true_iff, (on_rq_iff _ _ _ H).
    - split.
      + intros [c' Hc']. case_decide; [subst c'|right; by exists c']. apply elem_of_app in Hc' as [?|Hc']; [right; by exists c|].
        left. by destruct ag; [|apply not_elem_of_nil in Hc'].
      + intros [->|[c' Hc']]; [exists c; rewrite decide_True by done; set_solver|].
        exists c'. case_decide; [subst; set_solver|done].
    - split; intros [c' Hc']; exists c'; case_decide; subst; try done; [|set_solver].
      apply elem_of_app in Hc' as [?|Hc']; [done|]. destruct ag; set_solver. }
  split_and!; [by eexists| |done| | | | |by rewrite (fr_idle _ _ F); destruct ag].
  - eapply tasks_ok_frame; [exact F|]. destruct ag; [|done].
    apply (tasks_ok_upd s cur (set_state TASK_READY) ltac:(done) TASK_READY); [done|done|by left].
  - intros x. destruct (frame_obs _ _ F x) as (-> & _). destruct ag; [|by case_decide]. rewrite state_of_upd.
    case_decide; [subst x; by rewrite Htk|done].
  - intros x. destruct (frame_obs _ _ F x) as (_ & _ & _ & _ & -> & _). destruct ag; [|done]. rewrite asleep_on_upd.
    case_decide; [subst x|done]. rewrite Hsame by done. by rewrite Htk.
  - intros x. destruct (frame_obs _ _ F x) as (_ & _ & _ & -> & _). destruct ag; [|done].
    apply (upd_obs s cur (set_state TASK_READY)). done.
  - destruct (frame_cpu _ _ F c) as (-> & _). by destruct ag.
Qed.

Lemma schedule_switch_view Q s c cur n :
  rq_ok s Q -> tasks_ok s -> current_of s c = Some cur -> next_task Q s c = Some n -> n <> cur ->
  schedule_view s (sched_schedule s c).1 n cur.
Proof.
  intros H Ht Hcur Hn Hne. assert (Hs : is_Some (cpus s !! c)) by (unfold current_of in Hcur; by destruct (cpus s !! c)).
  rewrite (schedule_switch Q s c cur n) by done. destruct (next_task_ok Q s c n H Ht Hs Hn) as (Hcpu & _ & _ & _ & Hcase).
  destruct (dequeue_view Q s c n H Hs Ht Hn) as ([Q1 H1] & Hon1). pose proof (frame_dequeue s c) as F.
  set (s1 := (rq_dequeue_locked s c).1) in *. pose proof (tasks_ok_frame _ _ F Ht) as Ht1.
  destruct (frame_cpu _ _ F c) as (Hcur1 & _). rewrite Hcur in Hcur1.
  destruct (requeue_view Q1 s1 c cur H1 Ht1 Hcur1) as ([Q2 H2] & Ht2 & Hon2 & Hst2 & Has2 & Hcp2 & Hcur2 & Hid2).
  rewrite (runnable_cores s s1 cur (fr_cores _ _ F) (fr_idle _ _ F)), Hon1, decide_False in Hon2, Hst2 by done.
  set (s2 := requeue_current s1 c cur) in *.
  assert (Eag : runnable s cur && negb (on_rq s cur) = again s n cur) by (unfold again; by rewrite bool_decide_true).
  rewrite Eag in Hon2, Hst2. destruct (frame_obs _ _ F n) as (Esn & _ & _ & Ecn & _).
  assert (Hoff : on_rq s2 n = false) by (by rewrite Hon2, decide_False, Hon1, decide_True).
  assert (Hx : is_Some (tasks s2 !! n)).
  { assert (is_Some (state_of s2 n)) as Hi; [|unfold state_of in Hi; by destruct (tasks s2 !! n); [|destruct Hi]].
    rewrite Hst2, decide_False, Esn by done. unfold cpu_of in Hcpu. unfold state_of. by destruct (tasks s !! n). }
  assert (Hcpu2 : cpu_of s2 n = Some (Z.of_nat c)) by (by rewrite Hcp2, Ecn).
  assert (Hleft : state_of s2 cur <> Some TASK_RUNNING \/ cur ∈ idle_tasks s2).
  { destruct (decide (cur ∈ idle_tasks s2)) as [|Hni]; [by right|left]. rewrite Hst2, decide_True by done.
    destruct (again s n cur) eqn:Ea; [done|]. destruct (frame_obs _ _ F cur) as (-> & _). intros Hst.
    rewrite Hid2, (fr_idle _ _ F) in Hni. unfold again, runnable, is_idle_task in Ea.
    rewrite (off_queue Q s cur TASK_RUNNING H), Hst in Ea by done.
    destruct (to_task _ Ht cur) as (He & _); [unfold state_of in Hst; by destruct (tasks s !! cur)|].
    rewrite He, (bool_decide_true (n <> cur)), (bool_decide_false (cur ∈ _)) in Ea by done. done. }
  split.
  - exists Q2. apply rq_ok_upd_off; [by apply rq_ok_set_current|done|done].
  - apply (tasks_ok_upd _ n set_running ltac:(done) TASK_RUNNING); [by eapply tasks_ok_switch|done|].
    right; right. split; [done|]. right. exists c. unfold current_of in *. rewrite lookup_upd_cpu, decide_True by done.
    by destruct (cpus s2 !! c).
  - cbn. by rewrite Hid2, (fr_idle _ _ F).
  - intros x. rewrite state_of_upd. case_decide; [subst x; cbn; by destruct Hx as [tk ->]|].
    change (state_of (upd_cpu ?a ?b ?u) x) with (state_of u x). rewrite Hst2. by destruct (frame_obs _ _ F x) as (-> & _).
  - intros x. rewrite on_rq_upd_keep by done. change (on_rq (upd_cpu ?a ?b ?u) x) with (on_rq u x). rewrite Hon2, Hon1.
    destruct (decide (x = n)) as [->|]; [by rewrite decide_False|done].
  - intros x. rewrite asleep_on_upd. change (asleep_on (upd_cpu ?a ?b ?u) x) with (asleep_on u x). rewrite Has2.
    destruct (frame_obs _ _ F x) as (_ & _ & _ & _ & -> & _). case_decide; [subst x|done].
    rewrite (next_awake s n) by done. cbn. by destruct Hx as [tk ->].
Qed.

Lemma schedule_ok s c :
  sys_ok s ->
  let s' := (sched_schedule s c).1 in
  sys_ok s' /\ (forall x, asleep_on s' x = asleep_on s x) /\
  (forall x, is_scheduled s x = true -> is_scheduled s' x = true).
Proof.
  intros Hok s'. pose proof Hok as [[Q H] Ht Hr].
  destruct (cpus s !! c) as [cpu|] eqn:Hc.
  2: { unfold s', sched_schedule. by rewrite (to_smp _ Ht), Hc. }
  destruct (to_current _ Ht c ltac:(by eexists)) as (cur & i & Hcur & _ & Hi & _).
  assert (exists n, next_task Q s c = Some n) as [n Hn].
  { unfold next_task. destruct (Q c) as [|m l]; [by exists i|by exists m]. }
  assert (V : schedule_view s s' n cur).
  { destruct (decide (n = cur)) as [->|]; [by eapply schedule_stay_view|by eapply schedule_switch_view]. }
  destruct V as [HQ' Ht' Hid Hst Hon Has]. split_and!; [split; [done|done|]|done|].
  - intros x. rewrite Hst, Hon, Hid. destruct (decide (x = n)); [done|]. destruct (decide (x = cur)) as [->|]; [|apply Hr].
    destruct (again s n cur); [done|apply Hr].
  - intros x. unfold is_scheduled. rewrite Hst, Hon. destruct (decide (x = n)); [done|].
    destruct (decide (x = cur)) as [->|]; [|done]. destruct (again s n cur) eqn:Ea; [done|]. by rewrite orb_false_l.
Qed.

#[export] Program Instance sched_wait_laws : WaitLaws sched := {| wait_ok := sys_ok; wake_limit := MAX_WAKE |}.
Next Obligation. exact executing_awake_ok. Qed.
Next Obligation. exact sleep_on_ok. Qed.
Next Obligation. exact wake_channel_ok. Qed.
Next Obligation. exact wake_task_ok. Qed.
Next Obligation. exact schedule_ok. Qed.

(** ** An example: two CPUs that run the tasks 1 and 2; their idle tasks are 10
    and 11. *)

Definition demo_smp : sched :=
  mk_sched
    (list_to_map
       [(1, demo_task TASK_RUNNING 0 false None (Some 2) None);
        (2, demo_task TASK_RUNNING 1 false None None None);
        (10, demo_task TASK_READY 0 false None None None);
        (11, demo_task TASK_READY 1 false None None None)]%nat)
    (list_to_map
       [(0, mk_percpu None None 0 (Some 1) (Some 10));
        (1, mk_percpu None None 0 (Some 2) (Some 11))]%nat)
    (Some 1%nat) [10; 11]%nat 12 true [].

Lemma demo_smp_ok : sys_ok demo_smp.
Proof.
  assert (Hfree : forall t tk, tasks demo_smp !! t = Some tk ->
    t_on_rq tk = false /\ t_has_exited tk = false /\ t_sp_ok tk = true).
  { intros t tk Ht. apply list_to_map_cases in Ht. elem_cases Ht; done. }
  split; [exists (fun _ => []); split|split|].
  - intros c cpu Hc. apply list_to_map_cases in Hc. elem_cases Hc; split_and!; try done; constructor.
  - done.
  - intros c t Ht. by apply not_elem_of_nil in Ht.
  - intros t tk Ht Hon. destruct (Hfree t tk Ht). congruence.
  - intros c [cpu Hc]. apply list_to_map_cases in Hc. unfold MAX_CPUS. elem_cases Hc; lia.
  - exists [1; 2]%nat. split_and!; [by cbn|repeat constructor; set_solver| |].
    + intros t Ht. elem_cases Ht; by eexists.
    + intros t [tk Ht] Hi. apply list_to_map_cases in Ht. cbn in Hi. elem_cases Ht; set_solver.
  - done.
  - intros t [tk Ht]. pose proof (Hfree t tk Ht) as (_ & He & Hs). unfold has_exited, sp_ok, cpu_of. rewrite Ht.
    split_and!; [done|done|]. apply list_to_map_cases in Ht.
    elem_cases Ht; [exists 0%nat|exists 1%nat|exists 0%nat|exists 1%nat]; (split; [done|by eexists]).
  - intros t Ht. cbn in Ht. elem_cases Ht; by vm_compute.
  - intros c [cpu Hc]. apply list_to_map_cases in Hc.
    elem_cases Hc; [exists 1%nat, 10%nat|exists 2%nat, 11%nat]; split_and!; try done; cbn; set_solver.
  - intros t Ht Hi. unfold state_of in Ht. destruct (tasks demo_smp !! t) as [tk|] eqn:E; [|done].
    apply list_to_map_cases in E. elem_cases E; try done; [by exists 0%nat|by exists 1%nat].
  - intros t Ht Hi. unfold state_of in Ht. destruct (tasks demo_smp !! t) as [tk|] eqn:E; [|done].
    apply list_to_map_cases in E. cbn in Hi. elem_cases E; try done; set_solver.
Qed.
