(* ===== verification/Pipe.v ===== *)
(** * Pipes ([kernel/ke/pipe.c], [include/kernel/pipe.h])

    The pipe object with its ring buffer, the pipe ends with their reference
    counts, [pipe_read_to_user], [pipe_write_from_user] and [sys_pipe] of
    [kernel/ke/syscall.c].  Addresses are naturals.  The answers of [kalloc] are
    arguments: [None] is a failure, the bytes of a fresh buffer are arbitrary.  A
    critical section of the pipe's lock is one atomic step; a call that blocks is
    a sequence of them ([woken] tells the first from the later ones).  The
    scheduler is any implementation of the interface of the file Wait.  The
    reference counts are [int]s; their overflow needs 2^31 open ends and is not
    modelled. *)

From Stdlib Require Import ZArith Lia Bool.
From stdpp Require Import base list gmap.
From S2P Require Import Prelude Sched Wait.

Open Scope Z_scope.

Definition PIPE_MAGIC : Z := 0x50495045.
Definition O_NONBLOCK : Z := 0x0800.
Definition EINTR : Z := 4.
Definition EBADF : Z := 9.
Definition EAGAIN : Z := 11.
Definition ENOMEM : Z := 12.
Definition EFAULT : Z := 14.
Definition EMFILE : Z := 24.
Definition EPIPE : Z := 32.

Record pipe_t := mk_pipe {
  buffer : list Z;
  p_size : Z;
  read_pos : Z;
  write_pos : Z;
  used : Z;
  readers : Z;
  writers : Z;
}.

Record pipe_end_t := mk_end {
  magic : Z;
  is_read : bool;
  e_pipe : nat;
  e_flags : Z;
}.

(** The allocated pipes and ends. *)
Record pmem := mk_pmem {
  pipes : gmap nat pipe_t;
  ends : gmap nat pipe_end_t;
}.

Definition set_pipes (f : gmap nat pipe_t -> gmap nat pipe_t) (m : pmem) : pmem := mk_pmem (f (pipes m)) (ends m).
Definition set_ends (f : gmap nat pipe_end_t -> gmap nat pipe_end_t) (m : pmem) : pmem := mk_pmem (pipes m) (f (ends m)).

Definition set_ring (buf : list Z) (rp wp us : Z) (p : pipe_t) : pipe_t :=
  mk_pipe buf (p_size p) rp wp us (readers p) (writers p).
Definition set_counts (r w : Z) (p : pipe_t) : pipe_t :=
  mk_pipe (buffer p) (p_size p) (read_pos p) (write_pos p) (used p) r w.

(** ** Creation and reference counts *)

(** [pa]: the answer of [kalloc] for the pipe, [ba]: for the buffer. *)
Definition pipe_create (size : Z) (pa : option nat) (ba : option (list Z)) (m : pmem) : pmem * option nat :=
  if size =? 0 then (m, None)
  else
    match pa, ba with
    | None, _ | Some _, None => (m, None)
    | Some p, Some buf => (set_pipes <[p := mk_pipe buf size 0 0 0 0 0]> m, Some p)
    end.

Definition pipe_create_end (p : nat) (rd : bool) (ea : option nat) (m : pmem) : pmem * option nat :=
  match ea with
  | None => (m, None)
  | Some e =>
      let m := set_ends <[e := mk_end PIPE_MAGIC rd p 0]> m in
      (set_pipes (alter (fun x => if rd then set_counts (readers x + 1) (writers x) x
                                  else set_counts (readers x) (writers x + 1) x) p) m, Some e)
  end.

Definition pipe_dup_end (e : nat) (ea : option nat) (m : pmem) : pmem * option nat :=
  match ends m !! e with
  | Some en => if magic en =? PIPE_MAGIC then pipe_create_end (e_pipe en) (is_read en) ea m else (m, None)
  | None => (m, None)
  end.

(** The part of [pipe_close_end] up to the release of the lock: the end loses its
    magic and its reference.  The result has the pipe and [should_free]; there is
    none for an end that is closed already. *)
Definition pipe_close_begin (e : nat) (m : pmem) : option (pmem * nat * bool) :=
  en ← ends m !! e;
  if magic en =? PIPE_MAGIC then
    let m := set_ends <[e := mk_end 0 (is_read en) (e_pipe en) (e_flags en)]> m in
    x ← pipes m !! e_pipe en;
    let x := if is_read en
             then (if 0 <? readers x then set_counts (readers x - 1) (writers x) x else x)
             else (if 0 <? writers x then set_counts (readers x) (writers x - 1) x else x) in
    Some (set_pipes <[e_pipe en := x]> m, e_pipe en, (readers x =? 0) && (writers x =? 0))
  else None.

(** The part after the wake-up. *)
Definition pipe_close_finish (e p : nat) (should_free : bool) (m : pmem) : pmem :=
  set_ends (delete e) (if should_free then set_pipes (delete p) m else m).

(** ** Reading and writing *)

(** How a critical section ends: the call returns; it returns with SIGPIPE for
    the caller; it has moved bytes, wakes the other side and returns their number;
    or the task blocks on the pipe. *)
Inductive outcome :=
  | Return (ret : Z)
  | ReturnSigpipe (ret : Z)
  | Moved (bytes : list Z)
  | Block.

(** The two [memcpy]s out of the ring. *)
Definition ring_read (p : pipe_t) (to_read : Z) : list Z :=
  let first := Z.min (p_size p - read_pos p) to_read in
  read_at (Z.to_nat (read_pos p)) (Z.to_nat first) (buffer p) ++
  read_at 0 (Z.to_nat (to_read - first)) (buffer p).

(** The two [memcpy]s into the ring. *)
Definition ring_write (p : pipe_t) (bytes : list Z) : list Z :=
  let first := Z.to_nat (Z.min (p_size p - write_pos p) (Z.of_nat (length bytes))) in
  write_at 0 (drop first bytes) (write_at (Z.to_nat (write_pos p)) (take first bytes) (buffer p)).

Section Sections.
Context (woken cur sig : bool).
(** [woken]: the task comes back from [sched_schedule]; [cur]: there is a current
    task; [sig]: a signal is pending for it. *)

Definition pipe_read_section (flags count : Z) (p : pipe_t) : pipe_t * outcome :=
  if woken && sig then (p, Return (- EINTR))
  else if used p =? 0 then
    if writers p =? 0 then (p, Return 0)
    else if has flags O_NONBLOCK then (p, Return (- EAGAIN))
    else if cur && sig then (p, Return (- EINTR))
    else if cur then (p, Block)
    else (p, Return (- EAGAIN))
  else
    let to_read := if count <? used p then count else used p in
    (set_ring (buffer p) ((read_pos p + to_read) mod p_size p) (write_pos p) (used p - to_read) p,
     Moved (ring_read p to_read)).

(** [ubuf]: the [count] bytes of the user's buffer. *)
Definition pipe_write_section (ubuf : list Z) (p : pipe_t) : pipe_t * outcome :=
  let epipe := if cur then ReturnSigpipe (- EPIPE) else Return (- EPIPE) in
  let count := Z.of_nat (length ubuf) in
  if negb woken && (readers p =? 0) then (p, epipe)
  else if woken && sig then (p, Return (- EINTR))
  else if used p =? p_size p then
    if readers p =? 0 then (p, epipe)
    else if cur && sig then (p, Return (- EINTR))
    else if cur then (p, Block)
    else (p, Return (- EAGAIN))
  else
    let space := p_size p - used p in
    let to_write := if count <? space then count else space in
    let bytes := take (Z.to_nat to_write) ubuf in
    (set_ring (ring_write p bytes) (read_pos p) ((write_pos p + to_write) mod p_size p) (used p + to_write) p,
     Moved bytes).

End Sections.

(** The checks before the lock is taken; [None]: go on. *)
Definition pipe_call_check (want_read : bool) (en : option pipe_end_t) (count : Z) : option Z :=
  match en with
  | None => Some (- EBADF)
  | Some en => if negb (eqb (is_read en) want_read) then Some (- EBADF) else if count =? 0 then Some 0 else None
  end.

(** ** The system call *)

Section Syscall.
Context {K : Type} `{WaitOps K}.

(** The whole of [pipe_close_end], run without interruption. *)
Definition pipe_close_end (me e : nat) (st : pmem * K) : pmem * K :=
  match pipe_close_begin e st.1 with
  | None => st
  | Some (m, p, should_free) => (pipe_close_finish e p should_free m, wake_channel me p st.2)
  end.

Definition TASK_MAX_FDS : nat := 1024.

Definition alloc_fd (fd_table : list (option nat)) : Z :=
  match find_idx (fun f : option nat => match f with None => true | Some _ => false end) (drop 3 (take TASK_MAX_FDS fd_table)) with
  | Some i => Z.of_nat (3 + i)
  | None => - EMFILE
  end.

Definition validate_user_ptr (ptr len : Z) : bool :=
  if ptr <? 0x10000 then false
  else if 0x7FFFFFFFFFFF <=? ptr then false
  else if u64 (ptr + len) <? ptr then false
  else true.

(** The result: the return value, the two descriptors stored in the user's array
    if any, the descriptor table, and the state. *)
Record sys_result := mk_result {
  ret : Z;
  user_fds : option (Z * Z);
  table : list (option nat);
  state : pmem * K;
}.

Definition sys_pipe (me : nat) (pipefd_ptr : Z) (pa : option nat) (ba : option (list Z)) (ra wa : option nat)
    (fd_table : list (option nat)) (st : pmem * K) : sys_result :=
  let '(m, k) := st in
  if negb (validate_user_ptr pipefd_ptr 8) then mk_result (- EFAULT) None fd_table st
  else
    match pipe_create 4096 pa ba m with
    | (_, None) => mk_result (- ENOMEM) None fd_table st
    | (m1, Some p) =>
        match pipe_create_end p true ra m1 with
        | (_, None) => mk_result (- ENOMEM) None fd_table (set_pipes (delete p) m1, k)
        | (m2, Some r) =>
            match pipe_create_end p false wa m2 with
            | (_, None) => mk_result (- ENOMEM) None fd_table (pipe_close_end me r (m2, k))
            | (m3, Some w) =>
                let close_both st := pipe_close_end me w (pipe_close_end me r st) in
                let fd_read := alloc_fd fd_table in
                if fd_read <? 0 then mk_result fd_read None fd_table (close_both (m3, k))
                else
                  let table1 := <[Z.to_nat fd_read := Some r]> fd_table in
                  let fd_write := alloc_fd table1 in
                  if fd_write <? 0 then
                    mk_result fd_write None (<[Z.to_nat fd_read := None]> table1) (close_both (m3, k))
                  else
                    mk_result 0 (Some (fd_read, fd_write)) (<[Z.to_nat fd_write := Some w]> table1) (m3, k)
            end
        end
    end.

End Syscall.

(** ** The ring buffer *)

(** The bytes in the pipe, oldest first. *)
Definition contents (p : pipe_t) : list Z :=
  take (Z.to_nat (used p)) (drop (Z.to_nat (read_pos p)) (buffer p) ++ take (Z.to_nat (read_pos p)) (buffer p)).

Record ring_ok (p : pipe_t) : Prop := {
  ro_len : Z.of_nat (length (buffer p)) = p_size p;
  ro_size : 0 < p_size p;
  ro_read : 0 <= read_pos p < p_size p;
  ro_used : 0 <= used p <= p_size p;
  ro_write : write_pos p = (read_pos p + used p) mod p_size p;
}.

(** Positions in the ring. *)
Lemma ring_mod a n : 0 <= a < 2 * n -> a mod n = if decide (a < n) then a else a - n.
Proof.
  intros Ha. case_decide; [apply Z.mod_small; lia|].
  replace a with (a - n + 1 * n) at 1 by lia. rewrite Z.mod_add by lia. apply Z.mod_small. lia.
Qed.

Lemma length_contents p : ring_ok p -> Z.of_nat (length (contents p)) = used p.
Proof. intros [? ? ? ? ?]. unfold contents. rewrite length_take, length_app, length_drop, length_take. lia. Qed.

Lemma lookup_contents p i :
  ring_ok p -> (i < Z.to_nat (used p))%nat ->
  contents p !! i = buffer p !! Z.to_nat ((read_pos p + Z.of_nat i) mod p_size p).
Proof.
  intros [Hl Hs Hr Hu _] Hi. unfold contents. rewrite lookup_take_lt by done. rewrite ring_mod by lia.
  case_decide.
  - rewrite lookup_app_l by (rewrite length_drop; lia). rewrite lookup_drop. f_equal. lia.
  - rewrite lookup_app_r by (rewrite length_drop; lia). rewrite length_drop, lookup_take_lt by lia. f_equal. lia.
Qed.

(** Two byte lists agree if they have the same length and bytes. *)
Lemma list_eq_upto {A} (l k : list A) :
  length l = length k -> (forall i, (i < length l)%nat -> l !! i = k !! i) -> l = k.
Proof.
  intros Hl H. apply list_eq. intros i. destruct (decide (i < length l)%nat); [by apply H|].
  rewrite !lookup_ge_None_2 by lia. done.
Qed.

Lemma ring_read_ok p n : ring_ok p -> 0 <= n <= used p -> ring_read p n = take (Z.to_nat n) (contents p).
Proof.
  intros H Hn. pose proof (length_contents p H) as Hlc. pose proof H as [Hl Hs Hr Hu _].
  set (first := Z.min (p_size p - read_pos p) n).
  assert (Hlen : length (ring_read p n) = Z.to_nat n).
  { unfold ring_read, read_at. fold first. rewrite length_app, !length_take, !length_drop. lia. }
  apply list_eq_upto; [rewrite Hlen, length_take; lia|]. rewrite Hlen. intros i Hi.
  rewrite lookup_take_lt by done. rewrite lookup_contents by (done || lia). rewrite ring_mod by lia.
  unfold ring_read, read_at. fold first. case_decide.
  - rewrite lookup_app_l by (rewrite length_take, length_drop; lia). rewrite lookup_take_lt by lia.
    rewrite lookup_drop. f_equal. lia.
  - rewrite lookup_app_r by (rewrite length_take, length_drop; lia). rewrite length_take, length_drop.
    rewrite lookup_take_lt by lia. rewrite lookup_drop. f_equal. lia.
Qed.

Lemma ring_consume p n :
  ring_ok p -> 0 <= n <= used p ->
  let p' := set_ring (buffer p) ((read_pos p + n) mod p_size p) (write_pos p) (used p - n) p in
  ring_ok p' /\ contents p' = drop (Z.to_nat n) (contents p).
Proof.
  intros H Hn p'. pose proof (length_contents p H) as Hlc. pose proof H as [Hl Hs Hr Hu Hw].
  assert (H' : ring_ok p').
  { split; cbn; [done|done|apply Z.mod_pos_bound; lia|lia|]. rewrite Hw, Zplus_mod_idemp_l. f_equal. lia. }
  split; [done|]. pose proof (length_contents p' H') as Hlc'. cbn in Hlc'.
  apply list_eq_upto; [rewrite length_drop; lia|]. intros i Hi.
  rewrite lookup_drop, !lookup_contents by (done || cbn; lia). cbn. rewrite Zplus_mod_idemp_l. do 3 f_equal. lia.
Qed.

(** The position [j] of the buffer after a write, as the code's two copies. *)
Lemma lookup_ring_write p bytes i :
  ring_ok p -> Z.of_nat (length bytes) <= p_size p - used p -> (i < Z.to_nat (p_size p))%nat ->
  ring_write p bytes !! Z.to_nat ((write_pos p + Z.of_nat i) mod p_size p) =
    if decide (i < length bytes)%nat then bytes !! i
    else buffer p !! Z.to_nat ((write_pos p + Z.of_nat i) mod p_size p).
Proof.
  intros H Hb Hi. pose proof H as [Hl Hs Hr Hu Hw].
  assert (Hwp : 0 <= write_pos p < p_size p) by (rewrite Hw; apply Z.mod_pos_bound; lia).
  rewrite ring_mod by lia. unfold ring_write. set (first := Z.to_nat (Z.min _ _)).
  rewrite lookup_write_at by (rewrite length_write_at, length_drop; lia).
  rewrite lookup_write_at by (rewrite length_take; lia). rewrite length_drop, length_take.
  destruct (decide (write_pos p + Z.of_nat i < p_size p)).
  - rewrite decide_False by lia. destruct (decide (i < length bytes)%nat).
    + rewrite decide_True by lia. rewrite lookup_take_lt by lia. f_equal. lia.
    + by rewrite decide_False by lia.
  - destruct (decide (i < length bytes)%nat).
    + rewrite decide_True by lia. rewrite lookup_drop. f_equal. lia.
    + rewrite decide_False by lia. by rewrite decide_False by lia.
Qed.

Lemma length_ring_write p bytes : length (ring_write p bytes) = length (buffer p).
Proof. unfold ring_write. by rewrite !length_write_at. Qed.

Lemma ring_produce p bytes n :
  ring_ok p -> n = Z.of_nat (length bytes) -> n <= p_size p - used p ->
  let p' := set_ring (ring_write p bytes) (read_pos p) ((write_pos p + n) mod p_size p) (used p + n) p in
  ring_ok p' /\ contents p' = contents p ++ bytes.
Proof.
  intros H -> Hb p'. pose proof (length_contents p H) as Hlc. pose proof H as [Hl Hs Hr Hu Hw].
  assert (H' : ring_ok p').
  { split; cbn; rewrite ?length_ring_write; [done|done|done|lia|]. rewrite Hw, Zplus_mod_idemp_l. f_equal. lia. }
  split; [done|]. pose proof (length_contents p' H') as Hlc'. cbn in Hlc'.
  apply list_eq_upto; [rewrite length_app; lia|]. intros i Hi. rewrite lookup_contents by (done || cbn; lia). cbn.
  destruct (decide (i < Z.to_nat (used p))%nat) as [Hin|Hout].
  - rewrite lookup_app_l, lookup_contents by (done || lia).
    set (j := Z.to_nat (p_size p - used p + Z.of_nat i)).
    assert (E : (read_pos p + Z.of_nat i) mod p_size p = (write_pos p + Z.of_nat j) mod p_size p).
    { rewrite Hw, Zplus_mod_idemp_l. unfold j. rewrite Z2Nat.id by lia.
      replace (read_pos p + used p + (p_size p - used p + Z.of_nat i)) with (read_pos p + Z.of_nat i + 1 * p_size p) by lia.
      by rewrite Z.mod_add by lia. }
    rewrite E, lookup_ring_write by (done || lia). by rewrite decide_False by lia.
  - rewrite lookup_app_r by lia. set (j := (i - length (contents p))%nat).
    assert (E : (read_pos p + Z.of_nat i) mod p_size p = (write_pos p + Z.of_nat j) mod p_size p).
    { rewrite Hw, Zplus_mod_idemp_l. f_equal. lia. }
    rewrite E, lookup_ring_write by (done || lia). by rewrite decide_True by lia.
Qed.

(** ** What a critical section does to the byte queue *)

Definition no_counts (p : pipe_t) : Z * Z * Z := (p_size p, readers p, writers p).

Lemma pipe_read_section_ok woken cur sig flags count p p' o :
  ring_ok p -> 0 < count -> pipe_read_section woken cur sig flags count p = (p', o) ->
  ring_ok p' /\ no_counts p' = no_counts p /\
  match o with
  | Moved bytes => contents p = bytes ++ contents p' /\ Z.of_nat (length bytes) = Z.min count (used p) /\ 0 < used p
  | Block => p' = p /\ used p = 0 /\ writers p <> 0 /\ cur = true
  | _ => p' = p
  end.
Proof.
  intros H Hc. pose proof H as [Hl Hs Hr Hu Hw]. unfold pipe_read_section.
  destruct (woken && sig); [by intros [= <- <-]|]. destruct (Z.eqb_spec (used p) 0) as [Hz|Hz].
  - destruct (Z.eqb_spec (writers p) 0); [by intros [= <- <-]|]. destruct (has flags O_NONBLOCK); [by intros [= <- <-]|].
    destruct (cur && sig); [by intros [= <- <-]|]. by destruct cur; intros [= <- <-].
  - set (n := if count <? used p then count else used p).
    assert (Hn : 0 <= n <= used p /\ n = Z.min count (used p)) by (unfold n; destruct (Z.ltb_spec count (used p)); lia).
    destruct Hn as [Hn En]. intros [= <- <-]. destruct (ring_consume p n H Hn) as [H' Hd].
    rewrite (ring_read_ok p n H Hn), Hd, take_drop. pose proof (length_contents p H).
    split_and!; [done|done|done|rewrite length_take; lia|lia].
Qed.

Lemma pipe_write_section_ok woken cur sig ubuf p p' o :
  ring_ok p -> ubuf <> [] -> pipe_write_section woken cur sig ubuf p = (p', o) ->
  ring_ok p' /\ no_counts p' = no_counts p /\
  match o with
  | Moved bytes => contents p' = contents p ++ bytes /\ bytes `prefix_of` ubuf /\ bytes <> []
  | Block => p' = p /\ used p = p_size p /\ readers p <> 0 /\ cur = true
  | _ => p' = p
  end.
Proof.
  intros H Hb. pose proof H as [Hl Hs Hr Hu Hw]. unfold pipe_write_section.
  assert (He : forall o', (p, if cur then ReturnSigpipe (- EPIPE) else Return (- EPIPE)) = (p', o') ->
    ring_ok p' /\ no_counts p' = no_counts p /\
    match o' with
    | Moved bytes => contents p' = contents p ++ bytes /\ bytes `prefix_of` ubuf /\ bytes <> []
    | Block => p' = p /\ used p = p_size p /\ readers p <> 0 /\ cur = true
    | _ => p' = p
    end) by (intros o' [= <- <-]; by destruct cur).
  destruct (negb woken && (readers p =? 0)); [apply He|]. destruct (woken && sig); [by intros [= <- <-]|].
  destruct (Z.eqb_spec (used p) (p_size p)) as [Hz|Hz].
  - destruct (Z.eqb_spec (readers p) 0); [apply He|]. destruct (cur && sig); [by intros [= <- <-]|].
    by destruct cur; intros [= <- <-].
  - destruct ubuf as [|b ubuf]; [done|]. set (count := Z.of_nat (length (b :: ubuf))).
    assert (Hcount : 0 < count) by (unfold count; cbn; lia).
    set (n := if count <? p_size p - used p then count else p_size p - used p).
    assert (Hn : 0 < n <= p_size p - used p /\ n <= count) by (unfold n; destruct (Z.ltb_spec count (p_size p - used p)); lia).
    destruct Hn as [Hn Hnc]. intros [= <- <-].
    assert (Hlen : n = Z.of_nat (length (take (Z.to_nat n) (b :: ubuf)))) by (rewrite length_take; lia).
    destruct (ring_produce p (take (Z.to_nat n) (b :: ubuf)) n H Hlen) as [H' Hd]; [lia|].
    split_and!; [done|done|exact Hd|apply prefix_take|]. intros E. rewrite E in Hlen. cbn in Hlen. lia.
Qed.

(** A writer that waited for space does not notice that the last reader left after
    making room: it stores its bytes in a pipe that nobody can read and reports
    success. *)
Lemma pipe_write_without_readers ubuf p :
  readers p = 0 -> used p <> p_size p ->
  exists bytes, (pipe_write_section true true false ubuf p).2 = Moved bytes.
Proof.
  intros Hr Hu. unfold pipe_write_section. cbn [negb andb]. rewrite (proj2 (Z.eqb_neq _ _) Hu). by eexists.
Qed.

(** ** Reference counts *)

Definition is_open (p : nat) (rd : bool) (en : pipe_end_t) : Prop :=
  magic en = PIPE_MAGIC /\ is_read en = rd /\ e_pipe en = p.

#[export] Instance is_open_dec p rd en : Decision (is_open p rd en).
Proof. unfold is_open. apply _. Defined.

(** The number of open ends. *)
Definition refs (m : pmem) (p : nat) (rd : bool) : Z :=
  Z.of_nat (base.size (filter (fun ee => is_open p rd ee.2) (ends m))).

Definition one_if (P : Prop) `{Decision P} : Z := if decide P then 1 else 0.

Lemma one_if_false (P : Prop) `{Decision P} : ~ P -> one_if P = 0.
Proof. intros. unfold one_if. by rewrite decide_False. Qed.

Lemma one_if_flag (q : nat) (a b : bool) : one_if (q = q /\ a = b) = if eqb a b then 1 else 0.
Proof. unfold one_if. by destruct a, b; case_decide; naive_solver. Qed.

Lemma refs_fresh m p rd e en :
  ends m !! e = None -> refs (set_ends <[e := en]> m) p rd = refs m p rd + one_if (is_open p rd en).
Proof.
  intros He. unfold refs, one_if. cbn [ends set_ends]. case_decide as H.
  - rewrite map_filter_insert_True by done. rewrite map_size_insert_None; [lia|].
    apply map_lookup_filter_None. by left.
  - rewrite map_filter_insert_not' by (intros y; congruence || done). lia.
Qed.

Lemma refs_replace m p rd e en en' :
  ends m !! e = Some en ->
  refs (set_ends <[e := en']> m) p rd = refs m p rd - one_if (is_open p rd en) + one_if (is_open p rd en').
Proof.
  intros He. set (m0 := set_ends (delete e) m). assert (He0 : ends m0 !! e = None) by apply lookup_delete_eq.
  assert (E1 : set_ends <[e := en']> m = set_ends <[e := en']> m0) by (unfold m0, set_ends; cbn; by rewrite insert_delete_eq).
  assert (E2 : refs m p rd = refs (set_ends <[e := en]> m0) p rd).
  { unfold refs, m0. cbn. by rewrite insert_delete_id. }
  rewrite E1, E2, !refs_fresh by done. lia.
Qed.

Lemma refs_delete m p rd e en :
  ends m !! e = Some en -> refs (set_ends (delete e) m) p rd = refs m p rd - one_if (is_open p rd en).
Proof.
  intros He. set (m0 := set_ends (delete e) m). assert (He0 : ends m0 !! e = None) by apply lookup_delete_eq.
  assert (E2 : refs m p rd = refs (set_ends <[e := en]> m0) p rd).
  { unfold refs, m0. cbn. by rewrite insert_delete_id. }
  rewrite E2, refs_fresh by done. lia.
Qed.

Lemma refs_pos m p rd e en : ends m !! e = Some en -> is_open p rd en -> 0 < refs m p rd.
Proof.
  intros He Ho. pose proof (refs_delete m p rd e en He) as E. unfold one_if in E. rewrite decide_True in E by done.
  unfold refs in *. lia.
Qed.

Lemma refs_nonneg m p rd : 0 <= refs m p rd.
Proof. unfold refs. lia. Qed.

(** The counts are exact and open ends have a pipe. *)
Record mem_ok (m : pmem) : Prop := {
  mo_pipe : forall p x, pipes m !! p = Some x ->
    ring_ok x /\ readers x = refs m p true /\ writers x = refs m p false;
  mo_end : forall e en, ends m !! e = Some en -> magic en = PIPE_MAGIC -> is_Some (pipes m !! e_pipe en);
}.

(** A change of one pipe that keeps its counts and its ring well formed. *)
Lemma mem_ok_section m p x x' :
  mem_ok m -> pipes m !! p = Some x -> ring_ok x' -> no_counts x' = no_counts x -> mem_ok (set_pipes <[p := x']> m).
Proof.
  intros [Hp He] Hx Hr [= _ Hrd Hwr]. split.
  - intros q y Hy. cbn in Hy. change (refs (set_pipes _ m) q) with (refs m q).
    destruct (decide (q = p)) as [->|Hne].
    + rewrite lookup_insert_eq in Hy. injection Hy as <-. destruct (Hp p x Hx) as (_ & ? & ?). split_and!; [done|congruence..].
    + rewrite lookup_insert_ne in Hy by done. by apply Hp.
  - intros e en Hen Hm. cbn. destruct (decide (e_pipe en = p)) as [->|]; [by rewrite lookup_insert_eq|].
    rewrite lookup_insert_ne by done. by eapply He.
Qed.

Lemma mem_ok_create_end m p rd e :
  mem_ok m -> is_Some (pipes m !! p) -> ends m !! e = None -> mem_ok (pipe_create_end p rd (Some e) m).1.
Proof.
  intros [Hp He] Hx Hf. set (m' := set_ends <[e := mk_end PIPE_MAGIC rd p 0]> m).
  assert (Hrefs : forall q b, refs m' q b = refs m q b + one_if (p = q /\ rd = b)).
  { intros q b. unfold m'. rewrite refs_fresh by done. f_equal. unfold one_if, is_open. cbn.
    apply decide_ext. naive_solver. }
  split; cbn [pipe_create_end fst]; fold m'.
  - intros q y Hy. change (refs (set_pipes _ m') q) with (refs m' q). cbn in Hy. rewrite !Hrefs.
    destruct (decide (q = p)) as [->|Hne].
    + rewrite lookup_alter_eq in Hy. destruct (pipes m !! p) as [x|] eqn:Ex; [|done]. injection Hy as <-.
      destruct (Hp p x Ex) as ([? ? ? ? ?] & Hr & Hw).
      destruct rd; (split; [by split|]); rewrite !one_if_flag; cbn; lia.
    + rewrite lookup_alter_ne in Hy by done. destruct (Hp q y Hy) as (? & ? & ?). rewrite !one_if_false by (by intros [? _]).
      split_and!; [done|lia..].
  - intros e' en Hen Hm. cbn. rewrite lookup_alter_is_Some. cbn in Hen.
    apply lookup_insert_Some in Hen as [[_ <-]|[_ Hen]]; [done|]. by eapply He.
Qed.

(** The first part of a close: the pipe's counts drop, and [should_free] says
    whether the pipe has lost its last end. *)
Lemma mem_ok_close_begin m e en :
  mem_ok m -> ends m !! e = Some en -> magic en = PIPE_MAGIC ->
  exists x x', pipes m !! e_pipe en = Some x /\
    let m' := set_pipes <[e_pipe en := x']> (set_ends <[e := mk_end 0 (is_read en) (e_pipe en) (e_flags en)]> m) in
    pipe_close_begin e m = Some (m', e_pipe en, bool_decide (refs m' (e_pipe en) true = 0 /\ refs m' (e_pipe en) false = 0)) /\
    mem_ok m' /\ contents x' = contents x /\
    (forall q b, refs m' q b = refs m q b - one_if (e_pipe en = q /\ is_read en = b)).
Proof.
  intros [Hp He] Hen Hm. destruct (He e en Hen Hm) as [x Hx]. destruct (Hp _ _ Hx) as (Hring & Hrd & Hwr).
  pose proof (refs_pos m (e_pipe en) (is_read en) e en Hen ltac:(done)) as Hpos.
  set (x' := if is_read en then set_counts (readers x - 1) (writers x) x else set_counts (readers x) (writers x - 1) x).
  exists x, x'. split; [done|]. intros m'.
  assert (Hrefs : forall q b, refs m' q b = refs m q b - one_if (e_pipe en = q /\ is_read en = b)).
  { intros q b. unfold m'. change (refs (set_pipes _ ?u) q b) with (refs u q b). rewrite (refs_replace m q b e en) by done.
    unfold one_if, is_open. cbn. rewrite (decide_False (P := 0 = PIPE_MAGIC /\ _)) by (by intros [? _]).
    rewrite (decide_ext (magic en = PIPE_MAGIC /\ is_read en = b /\ e_pipe en = q) (e_pipe en = q /\ is_read en = b)) by naive_solver.
    lia. }
  assert (Hring' : ring_ok x') by (unfold x'; destruct Hring, (is_read en); by split).
  assert (Hcnt : readers x' = refs m' (e_pipe en) true /\ writers x' = refs m' (e_pipe en) false).
  { rewrite !Hrefs. unfold x'.
    destruct (is_read en); rewrite !one_if_flag; cbn; lia. }
  split_and!.
  - unfold pipe_close_begin. rewrite Hen. cbn [mbind option_bind]. rewrite Hm, Z.eqb_refl. cbn [pipes set_ends]. rewrite Hx.
    cbn [mbind option_bind].
    assert (Ex : (if is_read en then if 0 <? readers x then set_counts (readers x - 1) (writers x) x else x
       else if 0 <? writers x then set_counts (readers x) (writers x - 1) x else x) = x').
    { unfold x'. destruct (is_read en); rewrite (proj2 (Z.ltb_lt _ _)) by lia; done. }
    rewrite Ex. destruct Hcnt as [-> ->]. f_equal. f_equal. apply eq_true_iff_eq.
    by rewrite andb_true_iff, !Z.eqb_eq, bool_decide_eq_true.
  - split.
    + intros q y Hy. cbn in Hy. apply lookup_insert_Some in Hy as [[<- <-]|[Hne Hy]]; [done|].
      destruct (Hp q y Hy) as (? & ? & ?). rewrite !Hrefs, !one_if_false by (by intros [? _]).
      split_and!; [done|lia..].
    + intros e' en' Hen' Hm'. cbn in Hen' |- *. rewrite lookup_insert_is_Some.
      destruct (decide (e_pipe en = e_pipe en')); [by left|right; split; [done|]].
      apply lookup_insert_Some in Hen' as [[_ <-]|[_ Hen']]; [done|]. by eapply He.
  - unfold x'. by destruct (is_read en).
  - exact Hrefs.
Qed.

Lemma mem_ok_close_finish m e en p (free : bool) :
  mem_ok m -> ends m !! e = Some en -> magic en = 0 ->
  (free = true -> refs m p true = 0 /\ refs m p false = 0) -> mem_ok (pipe_close_finish e p free m).
Proof.
  intros [Hp He] Hen Hm Hz. unfold pipe_close_finish.
  set (m1 := if free then set_pipes (delete p) m else m).
  assert (E1 : ends m1 = ends m) by (unfold m1; by destruct free).
  assert (Hrefs : forall q b, refs (set_ends (delete e) m1) q b = refs m q b).
  { intros q b. rewrite (refs_delete m1 q b e en) by congruence. rewrite one_if_false by (intros [Ho _]; by rewrite Hm in Ho).
    unfold refs. rewrite E1. lia. }
  split.
  - intros q y Hy. rewrite !Hrefs. apply Hp. unfold m1 in Hy. destruct free; [|done].
    cbn in Hy. by apply lookup_delete_Some in Hy as [_ ?].
  - intros e' en' Hen' Hm'. cbn [ends set_ends] in Hen'. rewrite E1 in Hen'. apply lookup_delete_Some in Hen' as [_ Hen'].
    destruct (He e' en' Hen' Hm') as [y Hy]. unfold m1. destruct free; [|by exists y]. cbn [pipes set_ends set_pipes].
    exists y. apply lookup_delete_Some. split; [|done]. intros ->. destruct (Hz eq_refl) as [Hr Hw].
    pose proof (refs_pos m (e_pipe en') (is_read en') e' en' Hen' ltac:(done)). destruct (is_read en'); lia.
Qed.

Lemma refs_dead m p rd : mem_ok m -> pipes m !! p = None -> refs m p rd = 0.
Proof.
  intros Hm Hp. unfold refs.
  assert (filter (fun ee => is_open p rd ee.2) (ends m) = ∅) as ->; [|by rewrite map_size_empty].
  apply map_eq. intros e. rewrite lookup_empty. apply map_lookup_filter_None. right. intros en Hen (Hmg & _ & Hpe). cbn in *.
  destruct (mo_end _ Hm e en Hen Hmg) as [x Hx]. congruence.
Qed.

(** ** [sys_pipe] *)

Definition is_free (f : option nat) : bool := match f with None => true | Some _ => false end.

(** A free descriptor: a slot of the table, not one of the first three. *)
Definition free_fd (fd : list (option nat)) (i : nat) : Prop := (3 <= i)%nat /\ fd !! i = Some None.

Lemma alloc_fd_cases fd :
  length fd = TASK_MAX_FDS ->
  (exists i, alloc_fd fd = Z.of_nat i /\ free_fd fd i /\ forall j, free_fd fd j -> (i <= j)%nat) \/
  (alloc_fd fd = - EMFILE /\ forall j, ~ free_fd fd j).
Proof.
  intros Hl. unfold alloc_fd. rewrite take_ge by lia. change (fun f : option nat => _) with is_free.
  assert (Hfree : forall j, free_fd fd j -> drop 3 fd !! (j - 3)%nat = Some None).
  { intros j [H3 Hj]. rewrite lookup_drop. by replace (3 + (j - 3))%nat with j by lia. }
  destruct (find_idx is_free (drop 3 fd)) as [i|] eqn:E; [left|right].
  - apply find_idx_Some in E as ([f|] & Hf & Hfr & Hmin); [done|]. exists (3 + i)%nat. rewrite lookup_drop in Hf.
    split_and!; [done|split; [lia|done]|]. intros j Hj. pose proof (Hfree j Hj) as Hj'.
    destruct (decide (3 + i <= j)%nat); [done|]. exfalso. destruct Hj as [H3 _].
    specialize (Hmin (j - 3)%nat None ltac:(lia) Hj'). done.
  - split; [done|]. intros j Hj. pose proof (proj1 (find_idx_None _ _) E _ _ (Hfree j Hj)). done.
Qed.

Section SysPipe.
Context {K : Type} `{WaitOps K}.

(** Closing the only end of a fresh pipe releases everything. *)
Lemma close_fresh_read me m p r buf (k : K) :
  pipes m !! p = None -> ends m !! r = None ->
  (pipe_close_end me r
     (mk_pmem (<[p := mk_pipe buf 4096 0 0 0 1 0]> (pipes m)) (<[r := mk_end PIPE_MAGIC true p 0]> (ends m)), k)).1 = m.
Proof.
  intros Hp Hr. unfold pipe_close_end, pipe_close_begin, pipe_close_finish, set_pipes, set_ends. cbn [fst snd pipes ends].
  rewrite lookup_insert_eq. cbn. rewrite lookup_insert_eq. cbn. change (1 - 1) with 0. cbn.
  rewrite !insert_insert_eq, !delete_insert_id by done. by destruct m.
Qed.

Lemma close_fresh_both me m p r w buf (k : K) :
  pipes m !! p = None -> ends m !! r = None -> ends m !! w = None -> r <> w ->
  (pipe_close_end me w (pipe_close_end me r
     (mk_pmem (<[p := mk_pipe buf 4096 0 0 0 1 1]> (pipes m))
        (<[w := mk_end PIPE_MAGIC false p 0]> (<[r := mk_end PIPE_MAGIC true p 0]> (ends m))), k))).1 = m.
Proof.
  intros Hp Hr Hw Hne. unfold pipe_close_end at 2. unfold pipe_close_begin, pipe_close_finish, set_pipes, set_ends.
  cbn [fst snd pipes ends]. rewrite lookup_insert_ne by done. rewrite lookup_insert_eq. cbn. rewrite lookup_insert_eq. cbn.
  change (1 - 1) with 0. cbn. unfold pipe_close_end, pipe_close_begin, pipe_close_finish, set_pipes, set_ends. cbn [fst snd pipes ends].
  rewrite lookup_delete_ne, lookup_insert_ne, lookup_insert_eq by done. cbn. rewrite lookup_insert_eq. cbn.
  change (1 - 1) with 0. cbn. destruct m as [mp me']. cbn in *. f_equal.
  - by rewrite !insert_insert_eq, delete_insert_id.
  - apply map_eq. intros i. rewrite lookup_delete. case_decide; [by subst|]. rewrite lookup_insert_ne by done.
    rewrite lookup_delete. case_decide; [by subst|]. by rewrite !lookup_insert_ne.
Qed.

Context (m : pmem) (pa ra wa : option nat) (ba : option (list Z)).
Hypothesis Hpa : forall p, pa = Some p -> pipes m !! p = None.
Hypothesis Hra : forall r, ra = Some r -> ends m !! r = None.
Hypothesis Hwa : forall w, wa = Some w -> ends m !! w = None /\ ra <> Some w.

(** C36.  [sys_pipe] either returns the two lowest free descriptors for the ends
    of a fresh empty pipe with one reader and one writer, or it fails with EFAULT,
    ENOMEM or EMFILE for exactly the stated reason, and then it has changed
    neither the descriptor table nor the allocated objects. *)
Theorem sys_pipe_spec me ptr fd (k : K) :
  length fd = TASK_MAX_FDS ->
  let res := sys_pipe me ptr pa ba ra wa fd (m, k) in
  (exists p buf r w i j, pa = Some p /\ ba = Some buf /\ ra = Some r /\ wa = Some w /\
     validate_user_ptr ptr 8 = true /\ free_fd fd i /\ free_fd fd j /\ (i < j)%nat /\
     (forall x, free_fd fd x -> x = i \/ (j <= x)%nat) /\
     ret res = 0 /\ user_fds res = Some (Z.of_nat i, Z.of_nat j) /\
     table res = <[j := Some w]> (<[i := Some r]> fd) /\
     state res = (mk_pmem (<[p := mk_pipe buf 4096 0 0 0 1 1]> (pipes m))
       (<[w := mk_end PIPE_MAGIC false p 0]> (<[r := mk_end PIPE_MAGIC true p 0]> (ends m))), k)) \/
  (user_fds res = None /\ table res = fd /\ (state res).1 = m /\
    (ret res = - EFAULT /\ validate_user_ptr ptr 8 = false \/
     ret res = - ENOMEM /\ (pa = None \/ ba = None \/ ra = None \/ wa = None) \/
     ret res = - EMFILE /\ forall i j, free_fd fd i -> free_fd fd j -> i = j)).
Proof.
  intros Hl res. unfold res, sys_pipe. destruct (validate_user_ptr ptr 8) eqn:Ev; cbn [negb]; [|right; naive_solver].
  destruct pa as [p|]; [|right; naive_solver]. destruct ba as [buf|]; [|right; naive_solver].
  unfold pipe_create. change (4096 =? 0) with false. cbv iota. specialize (Hpa p eq_refl).
  destruct ra as [r|].
  2: { right. cbn [pipe_create_end user_fds table state ret fst]. unfold set_pipes. cbn [pipes ends].
       rewrite delete_insert_id by done. split_and!; [done|done|by destruct m|naive_solver]. }
  specialize (Hra r eq_refl). unfold pipe_create_end, set_pipes, set_ends. cbn [fst snd pipes ends].
  rewrite !alter_insert_eq. unfold set_counts. cbn [buffer p_size read_pos write_pos used readers writers].
  change (0 + 1) with 1. destruct wa as [w|].
  2: { right. cbn [user_fds table state ret]. rewrite close_fresh_read by done. naive_solver. }
  destruct (Hwa w eq_refl) as [Hw Hne]. assert (r <> w) by congruence.
  destruct (alloc_fd_cases fd Hl) as [(i & -> & Hi & Hmin)|[-> Hno]].
  2: { right. change (- EMFILE <? 0) with true. cbn [user_fds table state ret]. rewrite close_fresh_both by done.
       split_and!; try done. right; right. split; [done|]. intros i j Hi. by destruct (Hno i). }
  rewrite (proj2 (Z.ltb_ge _ _)) by lia. rewrite Nat2Z.id. set (fd1 := <[i := Some r]> fd).
  assert (Hfd1 : forall x, free_fd fd1 x <-> free_fd fd x /\ x <> i).
  { intros x. unfold free_fd, fd1. destruct (decide (x = i)) as [->|Hx]; [|rewrite list_lookup_insert_ne by done; naive_solver].
    rewrite list_lookup_insert_eq by (destruct Hi as [_ Hi]; by apply lookup_lt_Some in Hi). naive_solver. }
  destruct (alloc_fd_cases fd1) as [(j & -> & Hj & Hmin')|[-> Hno]]; [by unfold fd1; rewrite length_insert|..].
  - rewrite (proj2 (Z.ltb_ge _ _)) by lia. rewrite Nat2Z.id. left. apply Hfd1 in Hj as [Hj Hji].
    exists p, buf, r, w, i, j. split_and!; try done; [specialize (Hmin j Hj); lia|].
    intros x Hx. destruct (decide (x = i)) as [|Hxi]; [by left|right]. apply Hmin', Hfd1. done.
  - right. change (- EMFILE <? 0) with true. cbn [user_fds table state ret]. rewrite close_fresh_both by done. split_and!; try done.
    + unfold fd1. rewrite list_insert_insert_eq. apply list_insert_id. apply Hi.
    + right; right. split; [done|]. intros x y Hx Hy.
      assert (Hxi : forall z, free_fd fd z -> z = i); [|by rewrite (Hxi x), (Hxi y)].
      intros z Hz. destruct (decide (z = i)); [done|]. exfalso. apply (Hno z), Hfd1. done.
Qed.

End SysPipe.

(** A process with descriptors 0 to 3 in use. *)
Definition demo_fds : list (option nat) := map Some [1; 1; 1; 2]%nat ++ replicate 1020 None.

Lemma sys_pipe_spec_witness :
  let res := sys_pipe 0 0x20000 (Some 100%nat) (Some (replicate 4096 0)) (Some 101%nat) None demo_fds
               (mk_pmem ∅ ∅, demo_smp) in
  user_fds res = None /\ table res = demo_fds /\ (state res).1 = mk_pmem ∅ ∅ /\ ret res = - ENOMEM.
Proof.
  destruct (sys_pipe_spec (K := sched) (mk_pmem ∅ ∅) (Some 100%nat) (Some 101%nat) None (Some (replicate 4096 0))
    ltac:(done) ltac:(done) ltac:(done) 0 0x20000 demo_fds demo_smp) as [(p & buf & r & w & i & j & _ & _ & _ & Hw & _)|(H1 & H2 & H3 & _)].
  - reflexivity.
  - discriminate Hw.
  - split; [exact H1|split; [exact H2|split; [exact H3|reflexivity]]].
Defined.
