(* ===== verification/PipeProto.v ===== *)
(** * The pipe protocol

    The threads that use pipes, as a state machine: each critical section of
    [pipe_read_to_user], [pipe_write_from_user] and [pipe_close_end] (file Pipe) is
    one step, the wake-up after it is another, and the steps of all threads
    interleave freely with signals, with scheduling decisions and with the other
    tasks of the system.  The scheduler is any implementation of the interface of
    the file Wait.  A thread closes an end only when no thread is inside a call on
    it: the code takes no reference for the duration of a call. *)

From Stdlib Require Import ZArith Lia Bool.
From stdpp Require Import base list gmap relations.
From S2P Require Import Prelude Sched Wait Pipe.

Open Scope Z_scope.

(** Where a thread is: outside the pipe code; inside a read or write, waiting or
    about to look again; about to wake the other side; in the three stages of a
    close. *)
Inductive pc :=
  | Idle
  | Reading (e : nat) (count : Z)
  | Writing (e : nat) (count : Z)
  | Waking (p : nat)
  | Closing (e p : nat) (should_free : bool)
  | Freeing (e p : nat) (should_free : bool).

(** [sent] and [received] record, for each pipe, the bytes written and read since
    its creation. *)
Record kern (K : Type) := mk_kern {
  mem : pmem;
  pcs : gmap nat pc;
  waits : K;
  sent : nat -> list Z;
  received : nat -> list Z;
}.
Arguments mk_kern {K}.
Arguments mem {K}.
Arguments pcs {K}.
Arguments waits {K}.
Arguments sent {K}.
Arguments received {K}.

Definition fn_upd (f : nat -> list Z) (p : nat) (l : list Z) : nat -> list Z :=
  fun q => if decide (q = p) then l else f q.

(** The end a thread is inside a call on. *)
Definition pc_end (c : pc) : option nat :=
  match c with Reading e _ | Writing e _ => Some e | _ => None end.

(** A thread that is about to wake the channel. *)
Definition pending (p : nat) (c : pc) : Prop :=
  match c with Waking q => q = p | Closing _ q _ => q = p | _ => False end.

Section Machine.
Context {K : Type} `{WaitLaws K}.

Definition goto (t : nat) (c : pc) (k : kern K) : kern K :=
  mk_kern (mem k) (<[t := c]> (pcs k)) (waits k) (sent k) (received k).

Definition with_mem (m : pmem) (k : kern K) : kern K := mk_kern m (pcs k) (waits k) (sent k) (received k).

Definition with_waits (w : K) (k : kern K) : kern K := mk_kern (mem k) (pcs k) w (sent k) (received k).

Definition with_log (s r : nat -> list Z) (k : kern K) : kern K := mk_kern (mem k) (pcs k) (waits k) s r.

(** The end of a critical section of thread [t] on pipe [p]; [blocked] is the
    place where the thread waits. *)
Definition leave (t p : nat) (x : pipe_t) (o : outcome) (blocked : pc) (k : kern K) : kern K :=
  let k := with_mem (set_pipes <[p := x]> (mem k)) k in
  match o with
  | Moved _ => goto t (Waking p) k
  | Block => with_waits (sleep_on t p (waits k)) (goto t blocked k)
  | _ => goto t Idle k
  end.

(** The thread enters a call through a descriptor, or comes back from
    [sched_schedule]. *)
Definition in_call (k : kern K) (t e : nat) (en : pipe_end_t) (rd woken : bool) (count : Z) (inside : pc) : Prop :=
  executing (waits k) t = true /\ ends (mem k) !! e = Some en /\
  if woken then pcs k !! t = Some inside
  else pcs k !! t = Some Idle /\ magic en = PIPE_MAGIC /\ pipe_call_check rd (Some en) count = None.

Inductive step : kern K -> kern K -> Prop :=
  | step_read k t e en x count woken sig x' o :
      in_call k t e en true woken count (Reading e count) -> 0 <= count ->
      pipes (mem k) !! e_pipe en = Some x ->
      pipe_read_section woken true sig (e_flags en) count x = (x', o) ->
      step k (with_log (sent k)
                (fn_upd (received k) (e_pipe en)
                   (received k (e_pipe en) ++ match o with Moved bytes => bytes | _ => [] end))
                (leave t (e_pipe en) x' o (Reading e count) k))
  | step_write k t e en x ubuf woken sig x' o :
      let count := Z.of_nat (length ubuf) in
      in_call k t e en false woken count (Writing e count) ->
      pipes (mem k) !! e_pipe en = Some x ->
      pipe_write_section woken true sig ubuf x = (x', o) ->
      step k (with_log
                (fn_upd (sent k) (e_pipe en)
                   (sent k (e_pipe en) ++ match o with Moved bytes => bytes | _ => [] end))
                (received k) (leave t (e_pipe en) x' o (Writing e count) k))
  | step_wake k t p me :
      executing (waits k) t = true -> pcs k !! t = Some (Waking p) ->
      step k (goto t Idle (with_waits (wake_channel me p (waits k)) k))
  | step_close_begin k t e m p should_free :
      executing (waits k) t = true -> pcs k !! t = Some Idle ->
      (forall t' c, pcs k !! t' = Some c -> pc_end c <> Some e) ->
      pipe_close_begin e (mem k) = Some (m, p, should_free) ->
      step k (goto t (Closing e p should_free) (with_mem m k))
  | step_close_wake k t e p should_free me :
      executing (waits k) t = true -> pcs k !! t = Some (Closing e p should_free) ->
      step k (goto t (Freeing e p should_free) (with_waits (wake_channel me p (waits k)) k))
  | step_close_free k t e p should_free :
      executing (waits k) t = true -> pcs k !! t = Some (Freeing e p should_free) ->
      step k (goto t Idle (with_mem (pipe_close_finish e p should_free (mem k)) k))
  | step_dup k e e' m :
      ends (mem k) !! e' = None -> pipe_dup_end e (Some e') (mem k) = (m, Some e') ->
      step k (with_mem m k)
  | step_pipe k p buf r w m1 m2 m3 :
      pipes (mem k) !! p = None -> ends (mem k) !! r = None -> ends (mem k) !! w = None -> r <> w ->
      length buf = 4096%nat ->
      (forall t, asleep (waits k) t <> Some p) ->
      pipe_create 4096 (Some p) (Some buf) (mem k) = (m1, Some p) ->
      pipe_create_end p true (Some r) m1 = (m2, Some r) ->
      pipe_create_end p false (Some w) m2 = (m3, Some w) ->
      step k (with_log (fn_upd (sent k) p []) (fn_upd (received k) p []) (with_mem m3 k))
  | step_setfl k e en flags :
      ends (mem k) !! e = Some en -> magic en = PIPE_MAGIC ->
      step k (with_mem (set_ends <[e := mk_end (magic en) (is_read en) (e_pipe en) flags]> (mem k)) k)
  | step_signal k me t : step k (with_waits (wake_task me t (waits k)) k)
  | step_schedule k c : step k (with_waits (schedule c (waits k)) k)
  | step_other_sleep k t ch :
      executing (waits k) t = true -> pcs k !! t = None ->
      pipes (mem k) !! ch = None -> (forall t' c, pcs k !! t' = Some c -> ~ pending ch c) ->
      step k (with_waits (sleep_on t ch (waits k)) k)
  | step_other_wake k me ch :
      sleepers_bound (waits k) ch wake_limit ->
      step k (with_waits (wake_channel me ch (waits k)) k).

(** Initially no pipe exists, and the threads that will use pipes are outside the
    pipe code and can run. *)
Record init (k : kern K) : Prop := {
  init_waits : wait_ok (waits k);
  init_mem : mem k = mk_pmem ∅ ∅;
  init_pcs : forall t c, pcs k !! t = Some c -> c = Idle /\ scheduled (waits k) t = true;
  init_size : (base.size (pcs k) <= wake_limit)%nat;
}.

Definition reachable (k : kern K) : Prop := exists k0, init k0 /\ rtc step k0 k.

(** ** The invariant *)

(** The pipe a thread inside a call works on. *)
Definition waits_on (m : pmem) (c : pc) : option nat := e ← pc_end c; e_pipe <$> ends m !! e.

(** The reason to wait. *)
Definition must_wait (c : pc) (x : pipe_t) : Prop :=
  match c with
  | Reading _ _ => used x = 0 /\ writers x <> 0
  | Writing _ _ => used x = p_size x /\ readers x <> 0
  | _ => False
  end.

Definition end_ok (m : pmem) (e : nat) (rd : bool) : Prop :=
  exists en, ends m !! e = Some en /\ magic en = PIPE_MAGIC /\ is_read en = rd.

(** The end and the pipe a closing thread will release. *)
Definition releases (c : pc) : option (nat * nat * bool) :=
  match c with Closing e p f | Freeing e p f => Some (e, p, f) | _ => None end.

Definition closed_ok (m : pmem) (e p : nat) (f : bool) : Prop :=
  (exists en, ends m !! e = Some en /\ magic en = 0) /\
  (f = true -> is_Some (pipes m !! p) /\ refs m p true = 0 /\ refs m p false = 0).

Definition pc_ok (m : pmem) (c : pc) : Prop :=
  match c with
  | Idle | Waking _ => True
  | Reading e n => 0 < n /\ end_ok m e true
  | Writing e n => 0 < n /\ end_ok m e false
  | Closing e p f | Freeing e p f => closed_ok m e p f
  end.

Record inv (k : kern K) : Prop := {
  inv_wait : wait_ok (waits k);
  inv_size : (base.size (pcs k) <= wake_limit)%nat;
  inv_mem : mem_ok (mem k);
  inv_log : forall p x, pipes (mem k) !! p = Some x -> sent k p = received k p ++ contents x;
  inv_pc : forall t c, pcs k !! t = Some c -> pc_ok (mem k) c;
  inv_excl : forall t t' c c' e p f e' p' f', pcs k !! t = Some c -> pcs k !! t' = Some c' -> t <> t' ->
    releases c = Some (e, p, f) -> releases c' = Some (e', p', f') ->
    e <> e' /\ (f = true -> f' = true -> p <> p');
  inv_live : forall p x, pipes (mem k) !! p = Some x -> refs (mem k) p true = 0 -> refs (mem k) p false = 0 ->
    exists t c e, pcs k !! t = Some c /\ releases c = Some (e, p, true);
  inv_sleep : forall t p, asleep (waits k) t = Some p ->
    is_Some (pipes (mem k) !! p) \/ (exists t' c', pcs k !! t' = Some c' /\ pending p c') ->
    exists c, pcs k !! t = Some c /\ waits_on (mem k) c = Some p;
  inv_awake : forall t c, pcs k !! t = Some c ->
    scheduled (waits k) t = true \/ exists p, waits_on (mem k) c = Some p /\ asleep (waits k) t = Some p;
  inv_wakeup : forall t c p x, pcs k !! t = Some c -> waits_on (mem k) c = Some p ->
    asleep (waits k) t = Some p -> pipes (mem k) !! p = Some x ->
    must_wait c x \/ exists t' c', pcs k !! t' = Some c' /\ pending p c';
}.

(** ** Steps that touch the scheduler only *)

Lemma executing_facts k t :
  inv k -> executing (waits k) t = true -> asleep (waits k) t = None /\ scheduled (waits k) t = true.
Proof. intros Hk. apply executing_awake. apply Hk. Qed.

(** Waking tasks, by whatever means. *)
Lemma inv_waits_only k w :
  inv k -> wait_ok w ->
  (forall x, asleep w x = asleep (waits k) x \/ (asleep w x = None /\ scheduled w x = true)) ->
  (forall x, scheduled (waits k) x = true -> scheduled w x = true) -> inv (with_waits w k).
Proof.
  intros [Hw Hsz Hm Hl Hpc Hx Hlv Hs Ha Hwk] Hw' Hsl Hsc. split; cbn; try done.
  - intros t p Hp. apply Hs. destruct (Hsl t) as [<-|[E _]]; [done|congruence].
  - intros t c Hc. destruct (Ha t c Hc) as [?|(p & Hp & Has)]; [left; by apply Hsc|].
    destruct (Hsl t) as [E|[_ ?]]; [right; exists p; by rewrite E|by left].
  - intros t c p x Hc Hp Has. apply (Hwk t c p x Hc Hp). destruct (Hsl t) as [<-|[E _]]; [done|congruence].
Qed.

Lemma wake_channel_sleep k me ch :
  wait_ok (waits k) -> sleepers_bound (waits k) ch wake_limit ->
  let w := wake_channel me ch (waits k) in
  wait_ok w /\ (forall x, asleep w x <> Some ch) /\
  (forall x, asleep w x = asleep (waits k) x \/ (asleep w x = None /\ scheduled w x = true)) /\
  (forall x, scheduled (waits k) x = true -> scheduled w x = true).
Proof.
  intros Hw Hb w. destruct (wake_channel_spec (waits k) me ch Hw Hb) as (Hw' & Has & Hsc). fold w in Hw', Has, Hsc.
  split_and!; [done| | |].
  - intros x. rewrite Has. case_decide; [done|congruence].
  - intros x. rewrite Has. case_decide; [right; split; [done|]; apply Hsc; by left|by left].
  - intros x Hx. apply Hsc. by right.
Qed.

Lemma step_signal_inv k me t : inv k -> inv (with_waits (wake_task me t (waits k)) k).
Proof.
  intros Hk. destruct (wake_task_spec (waits k) me t (inv_wait _ Hk)) as (Hw & Has & Hsc).
  apply inv_waits_only; [done|done| |intros x Hx; apply Hsc; by right].
  intros x. rewrite Has. case_decide as E; [subst x|by left]. destruct (asleep (waits k) t) eqn:Et; [right|by left].
  split; [done|]. apply Hsc. by left.
Qed.

Lemma step_schedule_inv k c : inv k -> inv (with_waits (schedule c (waits k)) k).
Proof.
  intros Hk. destruct (schedule_spec (waits k) c (inv_wait _ Hk)) as (Hw & Has & Hsc).
  apply inv_waits_only; [done|done| |done]. intros x. left. apply Has.
Qed.

Lemma step_other_wake_inv k me ch :
  inv k -> sleepers_bound (waits k) ch wake_limit -> inv (with_waits (wake_channel me ch (waits k)) k).
Proof.
  intros Hk Hb. destruct (wake_channel_sleep k me ch (inv_wait _ Hk) Hb) as (Hw & _ & Has & Hsc).
  by apply inv_waits_only.
Qed.

Lemma step_other_sleep_inv k t ch :
  inv k -> executing (waits k) t = true -> pcs k !! t = None -> pipes (mem k) !! ch = None ->
  (forall t' c, pcs k !! t' = Some c -> ~ pending ch c) -> inv (with_waits (sleep_on t ch (waits k)) k).
Proof.
  intros [Hw Hsz Hm Hl Hpc Hx Hlv Hs Ha Hwk] Hex Hn Hch Hnp.
  destruct (sleep_on_spec (waits k) t ch Hw Hex) as (Hw' & Has & Hsc). split; cbn; try done.
  - intros x p. rewrite Has. case_decide as E; [intros [= <-]|apply Hs]. intros [[? ?]|(t' & c' & Hc' & Hp')]; [congruence|].
    by destruct (Hnp t' c').
  - intros x c Hc. assert (x <> t) by congruence. rewrite Hsc, Has, decide_False by done. by apply Ha.
  - intros x c p y Hc. rewrite Has, decide_False by congruence. by apply Hwk.
Qed.

(** ** Wake-ups after a critical section *)

Lemma lookup_goto k t c t' c' :
  pcs (goto t c k) !! t' = Some c' -> (t' = t /\ c' = c) \/ (t' <> t /\ pcs k !! t' = Some c').
Proof. cbn. intros [[<- <-]|[? ?]]%lookup_insert_Some; [by left|by right]. Qed.

(** The sleepers of a live pipe, and of one a wake-up is pending for, are among
    the threads. *)
Lemma inv_sleepers k p :
  inv k -> is_Some (pipes (mem k) !! p) \/ (exists t c, pcs k !! t = Some c /\ pending p c) ->
  sleepers_bound (waits k) p wake_limit.
Proof.
  intros Hk Hp l Hnd Hl. pose proof (inv_size _ Hk) as Hsz.
  assert (length l <= base.size (pcs k))%nat; [|lia].
  rewrite <- size_dom, <- (size_list_to_set (C := gset nat)) by done.
  apply subseteq_size. intros x Hx%elem_of_list_to_set. apply elem_of_dom.
  destruct (inv_sleep _ Hk x p (Hl x Hx) Hp) as (c & -> & _). done.
Qed.

Lemma size_goto (k : kern K) t c c' : pcs k !! t = Some c -> base.size (<[t := c']> (pcs k)) = base.size (pcs k).
Proof. intros Hc. by rewrite map_size_insert, Hc. Qed.

Lemma inv_woken k t c c' p me :
  inv k -> executing (waits k) t = true -> pcs k !! t = Some c -> pending p c ->
  pc_ok (mem k) c' -> pc_end c' = None -> (forall q, ~ pending q c') -> releases c' = releases c ->
  inv (goto t c' (with_waits (wake_channel me p (waits k)) k)).
Proof.
  intros Hk Hex Hc Hpend Hpc' Hend Hnp Hrel.
  assert (Hb : sleepers_bound (waits k) p wake_limit) by (apply inv_sleepers; [done|right; by eexists _, _]).
  destruct (wake_channel_sleep k me p (inv_wait _ Hk) Hb) as (Hw & Hno & Has & Hsc).
  destruct (executing_facts k t Hk Hex) as [Hna Hst]. set (w := wake_channel me p (waits k)) in *.
  destruct (inv_waits_only k w Hk Hw Has Hsc) as [_ Hsz Hm Hl Hpc Hx Hlv Hs Ha Hwk]. cbn in *.
  assert (Hwo : waits_on (mem k) c' = None) by (unfold waits_on; by rewrite Hend).
  assert (Hpd : forall q, (exists t' c2, <[t:=c']> (pcs k) !! t' = Some c2 /\ pending q c2) ->
    exists t' c2, pcs k !! t' = Some c2 /\ pending q c2).
  { intros q (t' & c2 & [[<- <-]|[? ?]]%lookup_insert_Some & Hq); [by destruct (Hnp q)|by eexists _, _]. }
  split; cbn; try done.
  - by rewrite (size_goto _ _ c).
  - intros t' c2 [[<- <-]|[_ Hc2]]%lookup_insert_Some; [done|by eapply Hpc].
  - intros t1 t2 c1 c2 e1 p1 f1 e2 p2 f2 [[<- <-]|[_ Hc1]]%lookup_insert_Some [[<- <-]|[_ Hc2]]%lookup_insert_Some Hne;
      rewrite ?Hrel; [done|by apply (Hx t t2)|by apply (Hx t1 t)|by apply (Hx t1 t2)].
  - intros q x Hq Hr Hw0. destruct (Hlv q x Hq Hr Hw0) as (t' & c2 & e & Ht' & Hrl).
    destruct (decide (t' = t)) as [->|Hne]; [|exists t', c2, e; by rewrite lookup_insert_ne].
    exists t, c', e. rewrite lookup_insert_eq, Hrel. by replace c with c2 by congruence.
  - intros t' q Hq Hal. destruct (Hs t' q Hq) as (c2 & Hc2 & Hw2); [by destruct Hal as [?|?]; [left|right; apply Hpd]|].
    exists c2. rewrite lookup_insert_ne; [done|]. intros <-. destruct (Has t) as [E|[E _]]; congruence.
  - intros t' c2 [[<- <-]|[_ Hc2]]%lookup_insert_Some; [left; by apply Hsc|by apply Ha].
  - intros t' c2 q x [[<- <-]|[_ Hc2]]%lookup_insert_Some Hwq Haq Hq; [congruence|].
    destruct (Hwk t' c2 q x Hc2 Hwq Haq Hq) as [?|(t1 & c1 & Hc1 & Hp1)]; [by left|right].
    exists t1, c1. split; [|done]. rewrite lookup_insert_ne; [done|]. intros <-.
    assert (c1 = c) as -> by congruence. assert (q = p) as ->; [|by destruct (Hno t')].
    unfold pending in *. destruct c; try done; congruence.
Qed.

Lemma step_wake_inv k t p me :
  inv k -> executing (waits k) t = true -> pcs k !! t = Some (Waking p) ->
  inv (goto t Idle (with_waits (wake_channel me p (waits k)) k)).
Proof. intros Hk Hex Hc. apply (inv_woken k t (Waking p)); try done. by intros q []. Qed.

Lemma step_close_wake_inv k t e p f me :
  inv k -> executing (waits k) t = true -> pcs k !! t = Some (Closing e p f) ->
  inv (goto t (Freeing e p f) (with_waits (wake_channel me p (waits k)) k)).
Proof. intros Hk Hex Hc. apply (inv_woken k t (Closing e p f)); try done; [apply (inv_pc _ Hk t _ Hc)|by intros q []]. Qed.

(** ** Critical sections of reads and writes *)

Section Section_.
Context (k : kern K) (t : nat) (c c' : pc) (p : nat) (x x' : pipe_t) (s r : nat -> list Z) (w : K).
Hypothesis Hk : inv k.
Hypothesis Hc : pcs k !! t = Some c.
Hypothesis Hcp : forall q, ~ pending q c.
Hypothesis Hcr : releases c = None.
Hypothesis Hx : pipes (mem k) !! p = Some x.
Hypothesis Hring : ring_ok x'.
Hypothesis Hcnt : no_counts x' = no_counts x.
Hypothesis Hlog : s p = r p ++ contents x'.
Hypothesis Hlog' : forall q, q <> p -> s q = sent k q /\ r q = received k q.
Hypothesis Hpc' : pc_ok (mem k) c'.
Hypothesis Hcr' : releases c' = None.
Hypothesis Hcp' : forall q, pending q c' -> q = p.
Hypothesis Hdone : x' = x \/ pending p c'.
Hypothesis Hw : wait_ok w.
Hypothesis Hoth : forall y, y <> t -> asleep w y = asleep (waits k) y /\ (scheduled (waits k) y = true -> scheduled w y = true).
Hypothesis Hself : (asleep w t = None /\ scheduled w t = true) \/
  (asleep w t = Some p /\ waits_on (mem k) c' = Some p /\ must_wait c' x').

Lemma section_pending q :
  is_Some (pipes (mem k) !! q) \/ (exists t' c2, <[t := c']> (pcs k) !! t' = Some c2 /\ pending q c2) ->
  is_Some (pipes (mem k) !! q) \/ (exists t' c2, pcs k !! t' = Some c2 /\ pending q c2).
Proof.
  intros [?|(t' & c2 & [[<- <-]|[? ?]]%lookup_insert_Some & Hq)]; [by left| |right; by eexists _, _].
  left. by rewrite (Hcp' q Hq), Hx.
Qed.

Lemma section_mem_pipe q : is_Some (<[p := x']> (pipes (mem k)) !! q) <-> is_Some (pipes (mem k) !! q).
Proof. rewrite lookup_insert_is_Some. destruct (decide (p = q)) as [<-|]; [rewrite Hx|]; naive_solver. Qed.

Lemma section_pc_ok c2 : pc_ok (mem k) c2 -> pc_ok (set_pipes <[p := x']> (mem k)) c2.
Proof.
  assert (Hcl : forall e q f, closed_ok (mem k) e q f -> closed_ok (set_pipes <[p := x']> (mem k)) e q f).
  { intros e q f [He Hf]. split; [done|]. intros Hft. destruct (Hf Hft) as (? & ? & ?).
    split_and!; [by apply section_mem_pipe|done|done]. }
  destruct c2; cbn; try done; apply Hcl.
Qed.

Lemma section_kept t' c2 : <[t := c']> (pcs k) !! t' = Some c2 -> releases c2 <> None -> t' <> t /\ pcs k !! t' = Some c2.
Proof. intros [[<- <-]|[? ?]]%lookup_insert_Some; [by rewrite Hcr'|done]. Qed.

Lemma inv_section : inv (with_log s r (with_waits w (goto t c' (with_mem (set_pipes <[p := x']> (mem k)) k)))).
Proof.
  pose proof Hk as [_ Hsz Hm Hl Hpc Hxc Hlv Hs Ha Hwk]. split; cbn; try done.
  - by rewrite (size_goto _ _ c).
  - by eapply mem_ok_section.
  - intros q y [[<- <-]|[Hne Hy]]%lookup_insert_Some; [done|]. destruct (Hlog' q) as [-> ->]; [done|]. by apply Hl.
  - intros t' c2 [[<- <-]|[_ Hc2]]%lookup_insert_Some; apply section_pc_ok; [done|by eapply Hpc].
  - intros t1 t2 c1 c2 e1 p1 f1 e2 p2 f2 Hc1 Hc2 Hne Hr1 Hr2.
    apply section_kept in Hc1 as [_ Hc1]; [|by rewrite Hr1]. apply section_kept in Hc2 as [_ Hc2]; [|by rewrite Hr2].
    by apply (Hxc t1 t2 c1 c2).
  - intros q y Hy Hr0 Hw0. assert (is_Some (pipes (mem k) !! q)) as [y0 Hy0] by (apply section_mem_pipe; by eexists).
    destruct (Hlv q y0 Hy0 Hr0 Hw0) as (t' & c2 & e & Ht' & Hrl). exists t', c2, e. split; [|done].
    rewrite lookup_insert_ne; [done|]. intros <-. congruence.
  - intros t' q Hq Hal. rewrite section_mem_pipe in Hal. apply section_pending in Hal.
    destruct (decide (t' = t)) as [->|Hne].
    + exists c'. rewrite lookup_insert_eq. split; [done|]. change (waits_on (mem k) c' = Some q).
      destruct Hself as [[? _]|(E & ? & _)]; congruence.
    + rewrite lookup_insert_ne by done. apply Hs; [|done]. destruct (Hoth t' Hne) as [<- _]. done.
  - intros t' c2 [[<- <-]|[Hne Hc2]]%lookup_insert_Some.
    + destruct Hself as [[_ ?]|(E & ? & _)]; [by left|right; by exists p].
    + destruct (Hoth t' ltac:(done)) as [-> Hsc]. destruct (Ha t' c2 Hc2) as [?|?]; [left; by apply Hsc|by right].
  - intros t' c2 q y [[<- <-]|[Hne Hc2]]%lookup_insert_Some Hwo Haq Hy.
    + destruct Hself as [[? _]|(E & _ & Hmw)]; [congruence|]. assert (q = p) as -> by congruence.
      rewrite lookup_insert_eq in Hy. injection Hy as <-. by left.
    + destruct (Hoth t' ltac:(done)) as [Has _]. rewrite Has in Haq.
      assert (Hkeep : forall t1 c1, pcs k !! t1 = Some c1 -> pending q c1 ->
        exists t1 c1, <[t := c']> (pcs k) !! t1 = Some c1 /\ pending q c1).
      { intros t1 c1 Hc1 Hp1. exists t1, c1. split; [|done]. rewrite lookup_insert_ne; [done|]. intros <-.
        apply (Hcp q). congruence. }
      apply lookup_insert_Some in Hy as [[<- <-]|[Hqp Hy]].
      * destruct Hdone as [->|Hp]; [|right; exists t, c'; by rewrite lookup_insert_eq].
        destruct (Hwk t' c2 p x Hc2 Hwo Haq Hx) as [?|(t1 & c1 & Hc1 & Hp1)]; [by left|right; by eapply Hkeep].
      * destruct (Hwk t' c2 q y Hc2 Hwo Haq Hy) as [?|(t1 & c1 & Hc1 & Hp1)]; [by left|right; by eapply Hkeep].
Qed.

End Section_.

Definition inside (rd : bool) (e : nat) (count : Z) : pc := if rd then Reading e count else Writing e count.

Lemma in_call_facts k t e en (rd woken : bool) count :
  inv k -> in_call k t e en rd woken count (inside rd e count) -> 0 <= count ->
  exists c, pcs k !! t = Some c /\ (forall q, ~ pending q c) /\ releases c = None /\ 0 < count /\
    pc_ok (mem k) (inside rd e count) /\ waits_on (mem k) (inside rd e count) = Some (e_pipe en).
Proof.
  intros Hk (Hex & Hen & Hw) Hc.
  assert (Hwo : waits_on (mem k) (inside rd e count) = Some (e_pipe en)).
  { unfold waits_on, inside. destruct rd; cbn; by rewrite Hen. }
  destruct woken.
  - exists (inside rd e count). pose proof (inv_pc _ Hk t _ Hw) as Hpc.
    destruct rd; cbn in *; split_and!; try done; try (by intros q []); apply Hpc.
  - destruct Hw as (Hi & Hm & Hck). exists Idle. unfold pipe_call_check in Hck.
    destruct (eqb_spec (is_read en) rd) as [Hrd|]; [|done]. cbn [negb] in Hck. destruct (Z.eqb_spec count 0); [done|].
    split_and!; try done; [by intros q []|lia|].
    destruct rd; (split; [lia|by exists en]).
Qed.

(** The three ways a section ends. *)
Section Leave.
Context (k : kern K) (t : nat) (c blocked : pc) (p : nat) (x x' : pipe_t) (o : outcome) (s r : nat -> list Z).
Hypothesis Hk : inv k.
Hypothesis Hex : executing (waits k) t = true.
Hypothesis Hc : pcs k !! t = Some c.
Hypothesis Hcp : forall q, ~ pending q c.
Hypothesis Hcr : releases c = None.
Hypothesis Hx : pipes (mem k) !! p = Some x.
Hypothesis Hring : ring_ok x'.
Hypothesis Hcnt : no_counts x' = no_counts x.
Hypothesis Hlog : s p = r p ++ contents x'.
Hypothesis Hlog' : forall q, q <> p -> s q = sent k q /\ r q = received k q.
Hypothesis Hpc' : pc_ok (mem k) blocked.
Hypothesis Hcr' : releases blocked = None.
Hypothesis Hcp' : forall q, ~ pending q blocked.
Hypothesis Hwo : waits_on (mem k) blocked = Some p.
Hypothesis Hdone : match o with Moved _ => True | Block => x' = x /\ must_wait blocked x | _ => x' = x end.

Lemma inv_leave : inv (with_log s r (leave t p x' o blocked k)).
Proof.
  destruct (executing_facts k t Hk Hex) as [Hna Hst].
  assert (Hstay : forall y, y <> t -> asleep (waits k) y = asleep (waits k) y /\
    (scheduled (waits k) y = true -> scheduled (waits k) y = true)) by done.
  pose proof (fun c' w => inv_section k t c c' p x x' s r w Hk Hc Hcp Hcr Hx Hring Hcnt Hlog Hlog') as Hsec.
  destruct o; cbn [leave].
  - apply (Hsec Idle (waits k)); try done; [by left|apply Hk|by left].
  - apply (Hsec Idle (waits k)); try done; [by left|apply Hk|by left].
  - apply (Hsec (Waking p) (waits k)); try done; [by right|apply Hk|by left].
  - destruct Hdone as [-> Hmw]. destruct (sleep_on_spec (waits k) t p (inv_wait _ Hk) Hex) as (Hw' & Has & Hsc).
    apply (Hsec blocked (sleep_on t p (waits k))); try done; [by intros q ?%Hcp'|by left|..].
    + intros y Hy. rewrite Has, decide_False, Hsc by done. done.
    + right. by rewrite Has, decide_True.
Qed.

End Leave.

Lemma step_read_inv k t e en x count woken sig x' o :
  inv k -> in_call k t e en true woken count (Reading e count) -> 0 <= count ->
  pipes (mem k) !! e_pipe en = Some x ->
  pipe_read_section woken true sig (e_flags en) count x = (x', o) ->
  inv (with_log (sent k)
        (fn_upd (received k) (e_pipe en)
           (received k (e_pipe en) ++ match o with Moved bytes => bytes | _ => [] end))
        (leave t (e_pipe en) x' o (Reading e count) k)).
Proof.
  intros Hk Hin Hc0 Hx Hsec. destruct (in_call_facts k t e en true woken count Hk Hin Hc0) as (c & Hc & Hcp & Hcr & Hpos & Hpc & Hwo).
  destruct Hin as (Hex & _). destruct (mo_pipe _ (inv_mem _ Hk) _ _ Hx) as (Hring & _).
  destruct (pipe_read_section_ok woken true sig (e_flags en) count x x' o Hring Hpos Hsec) as (Hring' & Hcnt & Ho).
  pose proof (inv_log _ Hk _ _ Hx) as Hl.
  assert (Hlog' : forall q, q <> e_pipe en -> forall l, sent k q = sent k q /\ fn_upd (received k) (e_pipe en) l q = received k q)
    by (intros q Hq l; unfold fn_upd; by rewrite decide_False).
  assert (Hlog : forall l, fn_upd (received k) (e_pipe en) l (e_pipe en) = l) by (intros l; unfold fn_upd; by rewrite decide_True).
  apply (inv_leave k t c _ _ x); try done; [..|by intros q []|].
  - rewrite Hlog. destruct o; rewrite ?app_nil_r; subst; try done; [|by destruct Ho as [-> _]].
    destruct Ho as (Ho & _). by rewrite <- app_assoc, <- Ho.
  - intros q Hq. by apply Hlog'.
  - destruct o; try done. by destruct Ho as (? & ? & ? & _).
Qed.

Lemma step_write_inv k t e en x ubuf woken sig x' o :
  let count := Z.of_nat (length ubuf) in
  inv k -> in_call k t e en false woken count (Writing e count) ->
  pipes (mem k) !! e_pipe en = Some x -> pipe_write_section woken true sig ubuf x = (x', o) ->
  inv (with_log
        (fn_upd (sent k) (e_pipe en)
           (sent k (e_pipe en) ++ match o with Moved bytes => bytes | _ => [] end))
        (received k) (leave t (e_pipe en) x' o (Writing e count) k)).
Proof.
  intros count Hk Hin Hx Hsec. destruct (in_call_facts k t e en false woken count Hk Hin) as (c & Hc & Hcp & Hcr & Hpos & Hpc & Hwo); [lia|].
  destruct Hin as (Hex & _). destruct (mo_pipe _ (inv_mem _ Hk) _ _ Hx) as (Hring & _).
  assert (Hne : ubuf <> []) by (intros ->; by unfold count in Hpos).
  destruct (pipe_write_section_ok woken true sig ubuf x x' o Hring Hne Hsec) as (Hring' & Hcnt & Ho).
  pose proof (inv_log _ Hk _ _ Hx) as Hl.
  assert (Hlog' : forall q, q <> e_pipe en -> forall l, fn_upd (sent k) (e_pipe en) l q = sent k q /\ received k q = received k q)
    by (intros q Hq l; unfold fn_upd; by rewrite decide_False).
  assert (Hlog : forall l, fn_upd (sent k) (e_pipe en) l (e_pipe en) = l) by (intros l; unfold fn_upd; by rewrite decide_True).
  apply (inv_leave k t c _ _ x); try done; [..|by intros q []|].
  - rewrite Hlog. destruct o; rewrite ?app_nil_r; subst; try done; [|by destruct Ho as [-> _]].
    destruct Ho as (Ho & _). by rewrite Ho, Hl, app_assoc.
  - intros q Hq. by apply Hlog'.
  - destruct o; try done. by destruct Ho as (? & ? & ? & _).
Qed.

(** ** Closing *)

Lemma refs_open m e en : ends m !! e = Some en -> magic en = PIPE_MAGIC -> 0 < refs m (e_pipe en) (is_read en).
Proof. intros He Hm. by eapply refs_pos. Qed.

(** An end inside a call is open, so it is not one that is being closed. *)
Lemma pc_end_open m c e : pc_ok m c -> pc_end c = Some e -> exists en, ends m !! e = Some en /\ magic en = PIPE_MAGIC.
Proof. destruct c; try done; cbn; intros [_ (en & ? & ? & _)] [= <-]; by exists en. Qed.

(** The memory after the first stage of a close. *)
Section CloseBegin.
Context (m : pmem) (e : nat) (en : pipe_end_t) (x x' : pipe_t).
Hypothesis Hen : ends m !! e = Some en.
Hypothesis Hm : magic en = PIPE_MAGIC.
Hypothesis Hx : pipes m !! e_pipe en = Some x.
Let m' : pmem :=
  set_pipes <[e_pipe en := x']> (set_ends <[e := mk_end 0 (is_read en) (e_pipe en) (e_flags en)]> m).
Hypothesis Hrefs : forall q b, refs m' q b = refs m q b - one_if (e_pipe en = q /\ is_read en = b).

Lemma cb_refs q b : q <> e_pipe en -> refs m' q b = refs m q b.
Proof. intros Hq. rewrite Hrefs, one_if_false; [lia|by intros [? _]]. Qed.

Lemma cb_pipes q : is_Some (pipes m' !! q) <-> is_Some (pipes m !! q).
Proof. cbn. rewrite lookup_insert_is_Some. destruct (decide (e_pipe en = q)) as [<-|]; [rewrite Hx|]; naive_solver. Qed.

Lemma cb_waits_on c : waits_on m' c = waits_on m c.
Proof.
  unfold waits_on. destruct (pc_end c) as [e'|]; [|done]. cbn. destruct (decide (e' = e)) as [->|].
  - by rewrite lookup_insert_eq, Hen.
  - by rewrite lookup_insert_ne.
Qed.

(** A pipe that is about to be released is not the one of an open end. *)
Lemma cb_busy e' q : closed_ok m e' q true -> q <> e_pipe en.
Proof.
  intros [_ Hf] ->. destruct (Hf eq_refl) as (_ & ? & ?). pose proof (refs_open _ _ _ Hen Hm). destruct (is_read en); lia.
Qed.

Lemma cb_closed e' q f : closed_ok m e' q f -> closed_ok m' e' q f /\ e' <> e.
Proof.
  intros Hcl. pose proof Hcl as [(en' & Hen' & Hm') Hf].
  assert (e' <> e) by (intros ->; assert (en' = en) as -> by congruence; by rewrite Hm in Hm').
  split; [|done]. split; [exists en'; cbn; by rewrite lookup_insert_ne|]. intros ->. destruct (Hf eq_refl) as (? & ? & ?).
  rewrite !cb_refs by (by eapply cb_busy). by rewrite cb_pipes.
Qed.

Lemma cb_pc_ok c : pc_ok m c -> pc_end c <> Some e -> pc_ok m' c.
Proof.
  intros Hok Hnu. destruct c; cbn in *; try done; try (by apply cb_closed);
    destruct Hok as [? (en2 & ? & ?)]; (split; [done|]); exists en2; cbn; rewrite lookup_insert_ne; [done|congruence|done|congruence].
Qed.

Lemma releases_ok c e' q f : pc_ok m c -> releases c = Some (e', q, f) -> closed_ok m e' q f.
Proof. by destruct c; try done; intros ? [= <- <- <-]. Qed.

End CloseBegin.

Lemma step_close_begin_inv k t e m p f :
  inv k -> executing (waits k) t = true -> pcs k !! t = Some Idle ->
  (forall t' c, pcs k !! t' = Some c -> pc_end c <> Some e) ->
  pipe_close_begin e (mem k) = Some (m, p, f) -> inv (goto t (Closing e p f) (with_mem m k)).
Proof.
  intros Hk Hex Hc Hnouse Hcl. destruct (executing_facts k t Hk Hex) as [Hna Hst].
  assert (exists en, ends (mem k) !! e = Some en /\ magic en = PIPE_MAGIC) as (en & Hen & Hm).
  { unfold pipe_close_begin in Hcl. destruct (ends (mem k) !! e) as [en|]; [|done]. exists en. split; [done|].
    cbn in Hcl. by destruct (Z.eqb_spec (magic en) PIPE_MAGIC). }
  destruct (mem_ok_close_begin (mem k) e en (inv_mem _ Hk) Hen Hm) as (x & x' & Hx & E & Hmem & Hcont & Hrefs).
  rewrite E in Hcl. injection Hcl as <- <- <-. set (m' := set_pipes _ _) in *.
  pose proof Hk as [Hw Hsz Hmk Hl Hpc Hxc Hlv Hs Ha Hwk].
  assert (Hrel : forall t1 c1 e1 p1 f1, pcs k !! t1 = Some c1 -> releases c1 = Some (e1, p1, f1) ->
    e1 <> e /\ (f1 = true -> p1 <> e_pipe en)).
  { intros t1 c1 e1 p1 f1 Hc1 Hr1. pose proof (releases_ok _ _ _ _ _ (Hpc _ _ Hc1) Hr1) as Hok.
    split; [by eapply cb_closed|]. intros ->. by eapply cb_busy. }
  assert (Hidle : forall t1 c1, pcs k !! t1 = Some c1 -> c1 <> Idle -> t1 <> t) by (intros t1 c1 ? ? ->; congruence).
  split; cbn; try done.
  - by rewrite (size_goto _ _ Idle).
  - intros q y [[<- <-]|[? Hy]]%lookup_insert_Some; [rewrite Hcont; by apply Hl|by apply Hl].
  - intros t' c2 [[<- <-]|[Hne Hc2]]%lookup_insert_Some; [|eapply cb_pc_ok; eauto].
    split; [eexists; cbn; by rewrite lookup_insert_eq|]. intros Hb%bool_decide_eq_true_1.
    split_and!; [cbn; by rewrite lookup_insert_eq|apply Hb..].
  - intros t1 t2 c1 c2 e1 p1 f1 e2 p2 f2 [[<- <-]|[? Hc1]]%lookup_insert_Some [[<- <-]|[? Hc2]]%lookup_insert_Some Hne Hr1 Hr2; [done|..].
    + injection Hr1 as <- <- <-. destruct (Hrel _ _ _ _ _ Hc2 Hr2) as [? Hp2]. split; [done|]. intros _ ?%Hp2. done.
    + injection Hr2 as <- <- <-. destruct (Hrel _ _ _ _ _ Hc1 Hr1) as [? Hp1]. split; [done|]. intros ?%Hp1 _. done.
    + by apply (Hxc t1 t2 c1 c2).
  - intros q y Hy Hr0 Hw0. destruct (decide (q = e_pipe en)) as [->|Hq].
    + eexists t, _, e. rewrite lookup_insert_eq. cbn. by rewrite bool_decide_true.
    + rewrite lookup_insert_ne in Hy by done. unfold m' in Hr0, Hw0. rewrite (cb_refs _ _ en x') in Hr0, Hw0 by done.
      destruct (Hlv q y Hy Hr0 Hw0) as (t' & c2 & e2 & Ht' & Hrl). exists t', c2, e2. rewrite lookup_insert_ne; [done|].
      apply not_eq_sym. eapply Hidle; [done|]. by intros ->.
  - intros t' q Hq Hal. destruct (Hs t' q Hq) as (c2 & Hc2 & Hw2).
    { destruct Hal as [Hal|(t1 & c1 & [[<- <-]|[? ?]]%lookup_insert_Some & Hp1)]; [left; by apply (cb_pipes (mem k) e en x x' Hx)| |right; by eexists _, _].
      left. cbn in Hp1. subst q. by rewrite Hx. }
    exists c2. unfold m'. rewrite cb_waits_on, lookup_insert_ne; [done| |done]. intros <-. congruence.
  - intros t' c2 [[<- <-]|[_ Hc2]]%lookup_insert_Some; [by left|]. unfold m'. rewrite cb_waits_on by done. by apply Ha.
  - intros t' c2 q y [[<- <-]|[_ Hc2]]%lookup_insert_Some Hw2 Haq Hy; [done|]. unfold m' in Hw2. rewrite cb_waits_on in Hw2 by done.
    destruct (decide (q = e_pipe en)) as [->|Hq].
    + right. eexists t, _. rewrite lookup_insert_eq. done.
    + rewrite lookup_insert_ne in Hy by done. destruct (Hwk t' c2 q y Hc2 Hw2 Haq Hy) as [?|(t1 & c1 & Hc1 & Hp1)]; [by left|right].
      exists t1, c1. rewrite lookup_insert_ne; [done|]. apply not_eq_sym. eapply Hidle; [done|]. by intros ->.
Qed.

(** The memory after the last stage. *)
Section CloseFree.
Context (m : pmem) (e p : nat) (f : bool) (en : pipe_end_t).
Hypothesis Hen : ends m !! e = Some en.
Hypothesis Hm : magic en = 0.
Let m' : pmem := pipe_close_finish e p f m.

Lemma cf_ends e' : ends m' !! e' = if decide (e' = e) then None else ends m !! e'.
Proof.
  unfold m', pipe_close_finish. cbn [ends set_ends]. replace (ends (if f then _ else m)) with (ends m) by (by destruct f).
  rewrite lookup_delete. repeat case_decide; congruence.
Qed.

Lemma cf_pipes q : pipes m' !! q = if decide (f = true /\ q = p) then None else pipes m !! q.
Proof.
  unfold m', pipe_close_finish. cbn [pipes set_ends]. destruct f; [|by rewrite decide_False by naive_solver].
  cbn [pipes set_pipes]. rewrite lookup_delete. repeat case_decide; naive_solver.
Qed.

Lemma cf_refs q b : refs m' q b = refs m q b.
Proof.
  unfold m', pipe_close_finish. rewrite (refs_delete _ q b e en) by (by destruct f).
  rewrite one_if_false by (intros [Ho _]; by rewrite Hm in Ho). by destruct f; rewrite Z.sub_0_r.
Qed.

Lemma cf_open e' en' : ends m !! e' = Some en' -> magic en' = PIPE_MAGIC -> ends m' !! e' = Some en'.
Proof.
  intros He' Hm'. rewrite cf_ends. case_decide; [subst e'|done]. assert (en' = en) as -> by congruence. by rewrite Hm in Hm'.
Qed.

Lemma cf_waits_on c : pc_ok m c -> waits_on m' c = waits_on m c.
Proof.
  intros Hok. unfold waits_on. destruct (pc_end c) as [e'|] eqn:E; [|done]. cbn [mbind option_bind].
  destruct (pc_end_open _ _ _ Hok E) as (en' & He' & Hm'). by rewrite (cf_open e' en'), He'.
Qed.

Lemma cf_pc_ok c :
  pc_ok m c -> (forall e' q g, releases c = Some (e', q, g) -> e <> e' /\ (f = true -> g = true -> p <> q)) -> pc_ok m' c.
Proof.
  intros Hok Hr. destruct c; cbn in *; try done.
  3, 4: destruct Hok as [(en' & He' & Hm') Hf]; destruct (Hr _ _ _ eq_refl) as [Hne Hp];
    (split; [exists en'; by rewrite cf_ends, decide_False by congruence|]); intros ->; rewrite !cf_refs, cf_pipes;
    destruct (Hf eq_refl) as (? & ? & ?); split_and!; try done; rewrite decide_False; [done|]; intros [-> ->]; by apply Hp.
  all: destruct Hok as [? (en' & He' & Hm' & ?)]; split; [done|]; exists en'; by rewrite (cf_open _ en').
Qed.

End CloseFree.

Lemma step_close_free_inv k t e p f :
  inv k -> executing (waits k) t = true -> pcs k !! t = Some (Freeing e p f) ->
  inv (goto t Idle (with_mem (pipe_close_finish e p f (mem k)) k)).
Proof.
  intros Hk Hex Hc. destruct (executing_facts k t Hk Hex) as [Hna Hst].
  pose proof Hk as [Hw Hsz Hmk Hl Hpc Hxc Hlv Hs Ha Hwk].
  destruct (Hpc _ _ Hc) as [(en & Hen & Hm) Hf]. set (m' := pipe_close_finish e p f (mem k)).
  assert (Hsub : forall q y, pipes m' !! q = Some y -> pipes (mem k) !! q = Some y /\ ~ (f = true /\ q = p)).
  { intros q y. unfold m'. rewrite cf_pipes. by case_decide. }
  assert (Hpend : forall q, (exists t' c2, <[t := Idle]> (pcs k) !! t' = Some c2 /\ pending q c2) <->
    exists t' c2, pcs k !! t' = Some c2 /\ pending q c2).
  { intros q. split; intros (t' & c2 & Hc2 & Hp2).
    - apply lookup_insert_Some in Hc2 as [[<- <-]|[? ?]]; [done|by eexists _, _].
    - exists t', c2. rewrite lookup_insert_ne; [done|]. intros <-. assert (c2 = Freeing e p f) as -> by congruence. done. }
  split; cbn; try done.
  - by rewrite (size_goto _ _ (Freeing e p f)).
  - eapply mem_ok_close_finish; [done|done|done|]. intros ->. by destruct (Hf eq_refl) as (_ & ? & ?).
  - intros q y Hy%Hsub. apply Hl. apply Hy.
  - intros t' c2 [[<- <-]|[Hne Hc2]]%lookup_insert_Some; [done|]. eapply cf_pc_ok; eauto.
  - intros t1 t2 c1 c2 e1 p1 f1 e2 p2 f2 [[<- <-]|[? Hc1]]%lookup_insert_Some [[<- <-]|[? Hc2]]%lookup_insert_Some; try done.
    by apply (Hxc t1 t2).
  - intros q y [Hy Hnp]%Hsub. unfold m'. rewrite !(cf_refs _ _ _ _ en) by done. intros Hr0 Hw0.
    destruct (Hlv q y Hy Hr0 Hw0) as (t' & c2 & e2 & Ht' & Hrl). exists t', c2, e2. rewrite lookup_insert_ne; [done|].
    intros <-. assert (c2 = Freeing e p f) as -> by congruence. injection Hrl as <- <- ->. by apply Hnp.
  - intros t' q Hq Hal. rewrite Hpend in Hal. destruct (Hs t' q Hq) as (c2 & Hc2 & Hw2).
    { destruct Hal as [[y [Hy _]%Hsub]|?]; [left; by exists y|by right]. }
    exists c2. unfold m'. rewrite (cf_waits_on _ _ _ _ en), lookup_insert_ne; try done; [intros <-; congruence|by eapply Hpc].
  - intros t' c2 [[<- <-]|[_ Hc2]]%lookup_insert_Some; [by left|]. unfold m'. rewrite (cf_waits_on _ _ _ _ en); try done; [|by eapply Hpc].
    by apply Ha.
  - intros t' c2 q y [[<- <-]|[_ Hc2]]%lookup_insert_Some Hw2 Haq [Hy _]%Hsub; [done|]. unfold m' in Hw2.
    rewrite (cf_waits_on _ _ _ _ en) in Hw2; try done; [|by eapply Hpc]. rewrite Hpend. by apply (Hwk t').
Qed.

(** ** Steps that add ends or pipes *)

Definition same_end (en en' : pipe_end_t) : Prop :=
  magic en' = magic en /\ is_read en' = is_read en /\ e_pipe en' = e_pipe en.

(** The pipe keeps its bytes and loses no reference. *)
Definition grown (x x' : pipe_t) : Prop :=
  contents x' = contents x /\ used x' = used x /\ p_size x' = p_size x /\
  readers x <= readers x' /\ writers x <= writers x'.

Section Grow.
Context (k : kern K) (m' : pmem) (s r : nat -> list Z).
Hypothesis Hk : inv k.
Hypothesis Hm' : mem_ok m'.
Hypothesis Hends : forall e en, ends (mem k) !! e = Some en -> exists en', ends m' !! e = Some en' /\ same_end en en'.
Hypothesis Hpipes : forall q x', pipes m' !! q = Some x' ->
  (exists x, pipes (mem k) !! q = Some x /\ grown x x' /\ s q = sent k q /\ r q = received k q) \/
  (pipes (mem k) !! q = None /\ 0 < refs m' q true /\ (forall t, asleep (waits k) t <> Some q) /\ s q = r q ++ contents x').
Hypothesis Hkeep : forall q, is_Some (pipes (mem k) !! q) -> is_Some (pipes m' !! q).
Hypothesis Hgrow : forall q b, refs (mem k) q b <= refs m' q b.
Hypothesis Hdead : forall q, is_Some (pipes (mem k) !! q) -> refs (mem k) q true = 0 -> refs (mem k) q false = 0 ->
  refs m' q true = 0 /\ refs m' q false = 0.

Lemma grow_waits_on c : pc_ok (mem k) c -> waits_on m' c = waits_on (mem k) c.
Proof.
  intros Hok. unfold waits_on. destruct (pc_end c) as [e|] eqn:E; [|done]. cbn [mbind option_bind].
  destruct (pc_end_open _ _ _ Hok E) as (en & He & _). destruct (Hends e en He) as (en' & -> & _ & _ & Hp).
  rewrite He. cbn. by rewrite Hp.
Qed.

Lemma grow_pc_ok c : pc_ok (mem k) c -> pc_ok m' c.
Proof.
  assert (Hcl : forall e q f, closed_ok (mem k) e q f -> closed_ok m' e q f).
  { intros e q f [(en & He & Hm) Hf]. destruct (Hends e en He) as (en' & He' & Hm1 & _).
    split; [exists en'; split; [done|congruence]|]. intros Hft. destruct (Hf Hft) as (? & ? & ?). split; [by apply Hkeep|by apply Hdead]. }
  assert (Hop : forall e rd, end_ok (mem k) e rd -> end_ok m' e rd).
  { intros e rd (en & He & ? & ?). destruct (Hends e en He) as (en' & He' & ? & ? & _). exists en'. split_and!; [done|congruence..]. }
  destruct c; cbn; try done; try (by apply Hcl); intros [? ?]; (split; [done|by apply Hop]).
Qed.

Lemma inv_grow : inv (with_log s r (with_mem m' k)).
Proof.
  pose proof Hk as [Hw Hsz Hmk Hl Hpc Hxc Hlv Hs Ha Hwk]. split; cbn; try done.
  - intros q y Hy. destruct (Hpipes q y Hy) as [(x & Hx & Hg & -> & ->)|(_ & _ & _ & ?)]; [|done].
    destruct Hg as (-> & _). by apply Hl.
  - intros t c Hc. apply grow_pc_ok. by eapply Hpc.
  - intros q y Hy Hr0 Hw0. destruct (Hpipes q y Hy) as [(x & Hx & _)|(_ & ? & _)]; [|lia].
    apply (Hlv q x Hx); [pose proof (Hgrow q true); pose proof (refs_nonneg (mem k) q true); lia|].
    pose proof (Hgrow q false). pose proof (refs_nonneg (mem k) q false). lia.
  - intros t q Hq Hal. destruct (Hs t q Hq) as (c & Hc & Hwc).
    { destruct Hal as [[y Hy]|?]; [|by right]. destruct (Hpipes q y Hy) as [(x & Hx & _)|(_ & _ & Hn & _)]; [left; by rewrite Hx|].
      by destruct (Hn t). }
    exists c. rewrite grow_waits_on; [done|by eapply Hpc].
  - intros t c Hc. rewrite grow_waits_on; [by apply Ha|by eapply Hpc].
  - intros t c q y Hc Hwc Haq Hy. rewrite grow_waits_on in Hwc; [|by eapply Hpc].
    destruct (Hpipes q y Hy) as [(x & Hx & (_ & Hu & Hsz' & Hrd & Hwr) & _)|(_ & _ & Hn & _)]; [|by destruct (Hn t)].
    destruct (Hwk t c q x Hc Hwc Haq Hx) as [Hmw|?]; [left|by right].
    destruct (mo_pipe _ Hmk _ _ Hx) as (_ & Er & Ew).
    pose proof (refs_nonneg (mem k) q true). pose proof (refs_nonneg (mem k) q false).
    destruct c; try done; cbn in *; lia.
Qed.

End Grow.

(** Adding one end. *)
Lemma create_end_refs m p rd e q b :
  ends m !! e = None -> refs (pipe_create_end p rd (Some e) m).1 q b = refs m q b + one_if (p = q /\ rd = b).
Proof.
  intros He. unfold pipe_create_end. cbn [fst]. change (refs (set_pipes _ ?u) q b) with (refs u q b). rewrite refs_fresh by done.
  f_equal. unfold one_if, is_open. cbn. apply decide_ext. naive_solver.
Qed.

Lemma one_if_range (P : Prop) `{Decision P} : 0 <= one_if P <= 1.
Proof. unfold one_if. case_decide; lia. Qed.

Lemma create_end_pipes m p rd e q x' :
  pipes (pipe_create_end p rd (Some e) m).1 !! q = Some x' -> exists x, pipes m !! q = Some x /\ grown x x'.
Proof.
  unfold pipe_create_end. cbn. intros Hx. apply lookup_alter_Some in Hx as [(<- & x & Hx & ->)|[? Hx]].
  - exists x. split; [done|]. unfold grown. destruct rd; cbn; split_and!; try done; lia.
  - exists x'. split; [done|]. unfold grown. split_and!; try done; lia.
Qed.

Lemma step_dup_inv k e e' m :
  inv k -> ends (mem k) !! e' = None -> pipe_dup_end e (Some e') (mem k) = (m, Some e') -> inv (with_mem m k).
Proof.
  intros Hk Hf Hd. unfold pipe_dup_end in Hd. destruct (ends (mem k) !! e) as [en|] eqn:He; [|done].
  destruct (Z.eqb_spec (magic en) PIPE_MAGIC) as [Hm|]; [|done]. destruct (mo_end _ (inv_mem _ Hk) e en He Hm) as [x Hx].
  assert (m = (pipe_create_end (e_pipe en) (is_read en) (Some e') (mem k)).1) as -> by (by rewrite Hd).
  set (m' := (pipe_create_end _ _ _ _).1).
  pose proof (create_end_refs (mem k) (e_pipe en) (is_read en) e') as Hrefs. fold m' in Hrefs.
  apply (inv_grow k m' (sent k) (received k)); try done.
  - apply mem_ok_create_end; [apply Hk|by rewrite Hx|done].
  - intros e2 en2 He2. exists en2. split; [|done]. cbn. rewrite lookup_insert_ne; [done|]. intros <-. congruence.
  - intros q y Hy. left. destruct (create_end_pipes _ _ _ _ _ _ Hy) as (x0 & Hx0 & Hg). by exists x0.
  - intros q Hq. unfold m'. cbn. by rewrite lookup_alter_is_Some.
  - intros q b. rewrite Hrefs by done. pose proof (one_if_range (e_pipe en = q /\ is_read en = b)). lia.
  - intros q Hq Hr0 Hw0. assert (e_pipe en <> q).
    { intros <-. pose proof (refs_open _ _ _ He Hm). destruct (is_read en); lia. }
    rewrite !Hrefs, !one_if_false by (done || by intros [? _]). lia.
Qed.

Lemma step_setfl_inv k e en fl :
  inv k -> ends (mem k) !! e = Some en -> magic en = PIPE_MAGIC ->
  inv (with_mem (set_ends <[e := mk_end (magic en) (is_read en) (e_pipe en) fl]> (mem k)) k).
Proof.
  intros Hk He Hm. set (m' := set_ends _ _).
  assert (Hrefs : forall q b, refs m' q b = refs (mem k) q b).
  { intros q b. unfold m'. rewrite (refs_replace _ q b e en) by done.
    assert (one_if (is_open q b (mk_end (magic en) (is_read en) (e_pipe en) fl)) = one_if (is_open q b en)) as ->; [|lia].
    unfold one_if. by apply decide_ext. }
  assert (Hgr : forall x, grown x x) by (intros x; unfold grown; split_and!; done || lia).
  apply (inv_grow k m' (sent k) (received k)); try done.
  - destruct (inv_mem _ Hk) as [Hp Hen]. split.
    + intros q y Hy. rewrite !Hrefs. by apply Hp.
    + intros e2 en2 He2 Hm2. cbn in He2. apply lookup_insert_Some in He2 as [[<- <-]|[_ He2]]; [exact (Hen e en He Hm)|by apply (Hen e2)].
  - intros e2 en2 He2. cbn. destruct (decide (e2 = e)) as [->|]; [|exists en2; by rewrite lookup_insert_ne].
    assert (en2 = en) as -> by congruence. eexists. rewrite lookup_insert_eq. done.
  - intros q y Hy. left. exists y. done.
  - intros q b. rewrite Hrefs. lia.
  - intros q _ ? ?. by rewrite !Hrefs.
Qed.

Lemma mem_ok_create m p buf :
  mem_ok m -> pipes m !! p = None -> length buf = 4096%nat -> mem_ok (set_pipes <[p := mk_pipe buf 4096 0 0 0 0 0]> m).
Proof.
  intros Hm Hp Hb. pose proof (refs_dead m p true Hm Hp) as Hr. pose proof (refs_dead m p false Hm Hp) as Hw.
  destruct Hm as [H1 H2]. split.
  - intros q y Hy. cbn in Hy. change (refs (set_pipes _ m) q) with (refs m q).
    apply lookup_insert_Some in Hy as [[<- <-]|[_ Hy]]; [|by apply H1].
    rewrite Hr, Hw. split_and!; try done. split; cbn; try lia; done.
  - intros e en He Hmg. cbn. rewrite lookup_insert_is_Some. destruct (decide (p = e_pipe en)); [by left|right]. split; [done|]. by eapply H2.
Qed.

Lemma grown_trans x y z : grown x y -> grown y z -> grown x z.
Proof. intros (? & ? & ? & ? & ?) (? & ? & ? & ? & ?). unfold grown. split_and!; try congruence; lia. Qed.

Lemma step_pipe_inv k p buf r w m1 m2 m3 :
  inv k -> pipes (mem k) !! p = None -> ends (mem k) !! r = None -> ends (mem k) !! w = None -> r <> w ->
  length buf = 4096%nat -> (forall t, asleep (waits k) t <> Some p) ->
  pipe_create 4096 (Some p) (Some buf) (mem k) = (m1, Some p) ->
  pipe_create_end p true (Some r) m1 = (m2, Some r) -> pipe_create_end p false (Some w) m2 = (m3, Some w) ->
  inv (with_log (fn_upd (sent k) p []) (fn_upd (received k) p []) (with_mem m3 k)).
Proof.
  intros Hk Hp Hr Hw Hrw Hb Has E1 E2 E3. unfold pipe_create in E1. change (4096 =? 0) with false in E1. cbv iota in E1.
  injection E1 as <-. set (m1 := set_pipes _ _) in *.
  assert (m2 = (pipe_create_end p true (Some r) m1).1) as -> by (by rewrite E2). set (m2 := (pipe_create_end p true _ _).1) in *.
  assert (m3 = (pipe_create_end p false (Some w) m2).1) as -> by (by rewrite E3). set (m3 := (pipe_create_end p false _ _).1).
  assert (Hw2 : ends m2 !! w = None) by (unfold m2; cbn; by rewrite lookup_insert_ne).
  assert (Hrefs : forall q b, refs m3 q b = refs (mem k) q b + one_if (p = q /\ true = b) + one_if (p = q /\ false = b)).
  { intros q b. unfold m3. rewrite create_end_refs by done. unfold m2. by rewrite create_end_refs. }
  assert (Hm1 : mem_ok m1) by (by apply mem_ok_create; [apply Hk|..]).
  assert (Hm2 : mem_ok m2) by (apply mem_ok_create_end; [done|unfold m1; cbn; by rewrite lookup_insert_eq|done]).
  assert (Hm3 : mem_ok m3).
  { apply mem_ok_create_end; [done|unfold m2, m1; cbn; by rewrite lookup_alter_eq, lookup_insert_eq|done]. }
  apply inv_grow; try done.
  - intros e en He. exists en. split; [|done]. cbn. by rewrite !lookup_insert_ne by congruence.
  - intros q z Hz. destruct (create_end_pipes _ _ _ _ _ _ Hz) as (y & Hy & Hg2). destruct (create_end_pipes _ _ _ _ _ _ Hy) as (x & Hx & Hg1).
    pose proof (grown_trans _ _ _ Hg1 Hg2) as Hg. cbn in Hx. unfold fn_upd. apply lookup_insert_Some in Hx as [[<- <-]|[Hne Hx]].
    + right. rewrite Hrefs, !decide_True, !one_if_flag by done. split_and!; try done.
      * pose proof (refs_nonneg (mem k) p true). cbn. lia.
      * by destruct Hg as (-> & _).
    + left. exists x. by rewrite !decide_False.
  - intros q Hq. unfold m3, m2, m1. cbn. rewrite !lookup_alter_is_Some, lookup_insert_is_Some.
    destruct (decide (p = q)); [by left|by right].
  - intros q b. rewrite Hrefs. pose proof (one_if_range (p = q /\ true = b)). pose proof (one_if_range (p = q /\ false = b)). lia.
  - intros q Hq Hr0 Hw0. assert (p <> q) by (intros <-; rewrite Hp in Hq; by destruct Hq).
    rewrite !Hrefs, !one_if_false by (by intros [? _]). lia.
Qed.

(** ** Every reachable state *)

Lemma init_inv k : init k -> inv k.
Proof.
  intros [Hw Hm Hp Hsz]. split; rewrite ?Hm; try done.
  - intros t c Hc. by destruct (Hp t c Hc) as [-> _].
  - intros t t' c c' e p f e' p' f' Hc. by destruct (Hp t c Hc) as [-> _].
  - intros t p Has [[x ?]|(t' & c' & Hc' & Hpd)]; [done|]. by destruct (Hp t' c' Hc') as [-> _].
  - intros t c Hc. left. by apply (Hp t c).
Qed.

Lemma step_inv k k' : step k k' -> inv k -> inv k'.
Proof.
  intros Hst Hk. destruct Hst.
  - by eapply step_read_inv.
  - by eapply step_write_inv.
  - by apply step_wake_inv.
  - by apply step_close_begin_inv.
  - by apply step_close_wake_inv.
  - by apply step_close_free_inv.
  - by eapply step_dup_inv.
  - by apply (step_pipe_inv k p buf r w m1 m2 m3).
  - by apply step_setfl_inv.
  - by apply step_signal_inv.
  - by apply step_schedule_inv.
  - by apply step_other_sleep_inv.
  - by apply step_other_wake_inv.
Qed.

Lemma reachable_inv k : reachable k -> inv k.
Proof.
  intros (k0 & Hi & Hr). apply init_inv in Hi. induction Hr as [k|k k1 k2 Hst _ IH]; [done|]. by apply IH, (step_inv k).
Qed.




End Machine.

(** ** An example: task 1 sleeps in a read of an empty pipe, then task 2 writes and
    is about to wake it. *)

Lemma demo_pipe_run (buf : list Z) :
  length buf = 4096%nat ->
  exists (k : kern sched) x, reachable k /\ pipes (mem k) !! 100%nat = Some x /\
    pcs k !! 1%nat = Some (Reading 101 10) /\ asleep (waits k) 1 = Some 100%nat /\
    sent k 100%nat = [7; 8].
Proof.
  intros Hbuf. set (k0 := mk_kern (mk_pmem ∅ ∅) {[1%nat := Idle; 2%nat := Idle]} demo_smp (fun _ => []) (fun _ => [])).
  eexists _, _. split; [exists k0; split|].
  - split; cbn.
    + exact demo_smp_ok.
    + done.
    + intros t c [[<- <-]|[_ [<- <-]%lookup_singleton_Some]]%lookup_insert_Some; done.
    + unfold MAX_WAKE. rewrite map_size_insert_None, map_size_singleton by done. lia.
  - eapply rtc_l.
    { eapply (step_pipe k0 100 buf 101 102); try reflexivity; [done|exact Hbuf|].
      intros t. cbn. intros Hs. pose proof (asleep_on_state _ _ _ Hs) as Hst. unfold state_of in Hst.
      destruct (tasks demo_smp !! t) as [tk|] eqn:E; [|done]. apply list_to_map_cases in E. elem_cases E; done. }
    eapply rtc_l.
    { eapply (step_read _ 1 101 _ _ 10 false false); [split; [reflexivity|split; [reflexivity|split; [reflexivity|split; reflexivity]]]|lia|reflexivity|reflexivity]. }
    eapply rtc_l; [|apply rtc_refl].
    eapply (step_write _ 2 102 _ _ [7; 8] false false); [split; [reflexivity|split; [reflexivity|split; [reflexivity|split; reflexivity]]]|reflexivity|reflexivity].
  - split_and!; reflexivity.
Qed.



