(* ===== verification/Udp.v ===== *)
(** * UDP ([kernel/net/udp.c]) and the datagram queue of a socket

    Sending and receiving of datagrams, the checksum over the pseudo-header, the
    receive queue of a socket with [sock_find_udp] and the datagram part of
    [sock_recvfrom] ([kernel/net/socket.c]), and [icmp_send_error_packet]
    ([kernel/net/icmp.c]).  [ustate] adds the sockets to the state of the network
    layers.  The datagrams for the DHCP client and the resolver, which are not
    modelled, are recorded.  In the kernel [ipv4_rx] calls [udp_rx] directly; here
    [udp_input] hands the recorded upcalls of the IPv4 layer to it. *)

From Stdlib Require Import ZArith Lia Bool.
From stdpp Require Import base list gmap.
From S2P Require Import Prelude Wire Chain Skb Route Net Arp Ipv4 NetRx.

Open Scope Z_scope.

Definition NET_RX_BUF_SIZE : nat := 4096.
Definition UDP_QUEUE : Z := 16.
Definition DHCP_CLIENT_PORT : Z := 68.
Definition DNS_CLIENT_PORT : Z := 5353.
Definition ICMP_DEST_UNREACH : Z := 3.
Definition ICMP_PORT_UNREACH : Z := 3.
Definition AF_INET : Z := 2.
Definition sizeof_udp_header : Z := 8.
Definition sizeof_icmp_header : Z := 8.
Definition EAGAIN : Z := 11.
Definition ETIMEDOUT : Z := 110.
Definition EBADF : Z := 9.

(** Port and address are in network byte order. *)
Record sockaddr_in := mk_sockaddr { sin_family : Z; sin_port : Z; sin_addr : Z }.

(** One element of [udp_rx_queue]. *)
Record udp_slot := mk_udp_slot {
  us_data : list Z;
  us_len : Z;
  us_from : sockaddr_in;
  us_dst_ip : Z;
  us_ttl : Z;
  us_tos : Z;
  us_ifindex : Z;
}.

(** The fields of [net_socket_t] the datagram path uses. *)
Record net_socket := mk_net_socket {
  so_active : bool;
  so_dgram : bool;
  so_bound : bool;
  so_nonblock : bool;
  so_local : sockaddr_in;
  udp_rx_queue : list udp_slot;
  udp_rx_head : Z;
  udp_rx_tail : Z;
  udp_rx_ready : bool;
}.

Definition set_udp_rx (q : list udp_slot) (h t : Z) (ready : bool) (sk : net_socket) : net_socket :=
  mk_net_socket (so_active sk) (so_dgram sk) (so_bound sk) (so_nonblock sk) (so_local sk) q h t ready.

(** What [udp_rx] hands to the clients inside the kernel. *)
Inductive app_input :=
  | Dhcp_rx (dev : devptr) (payload : list Z)
  | Dns_rx (payload : list Z).

Record ustate := mk_ustate {
  net : net_state;
  registry : net_registry;
  sockets : list net_socket;
  apps : list app_input;
}.

Definition set_net (s : net_state) (u : ustate) : ustate := mk_ustate s (registry u) (sockets u) (apps u).
Definition set_sockets (l : list net_socket) (u : ustate) : ustate := mk_ustate (net u) (registry u) l (apps u).
Definition log_app (a : app_input) (u : ustate) : ustate :=
  mk_ustate (net u) (registry u) (sockets u) (apps u ++ [a]).

(** ** The checksum *)

Definition udp_pseudo_header (src_ip dst_ip udp_len : Z) : list Z :=
  le32 (net_htonl src_ip) ++ le32 (net_htonl dst_ip) ++ [0; IP_PROTO_UDP] ++ le16 (net_htons udp_len).

(** The value on the wire: 0xFFFF instead of 0. *)
Definition udp_compute_checksum (src_ip dst_ip : Z) (udp_msg : list Z) (udp_len : Z) : Z :=
  let sum := checksum_words (udp_pseudo_header src_ip dst_ip udp_len) 0 in
  let sum := checksum_words (take (Z.to_nat udp_len) udp_msg) sum in
  let cs := u16 (Z.lnot (checksum_fold 2 sum)) in
  if negb (cs =? 0) then cs else 0xFFFF.

Definition udp_header_bytes (src_port dst_port udp_len checksum : Z) : list Z :=
  le16 (net_htons src_port) ++ le16 (net_htons dst_port) ++ le16 (net_htons udp_len) ++ le16 checksum.

(** ** Sockets *)

Fixpoint find_udp (l : list net_socket) (i : nat) (port dst_ip : Z) (wildcard : option nat) : option nat :=
  match l with
  | [] => wildcard
  | s :: l' =>
      if so_active s && so_dgram s && so_bound s && (net_ntohs (sin_port (so_local s)) =? port) then
        let local_ip := net_ntohl (sin_addr (so_local s)) in
        if local_ip =? dst_ip then Some i
        else find_udp l' (S i) port dst_ip
               (match wildcard with
                | None => if local_ip =? 0 then Some i else None
                | Some _ => wildcard
                end)
      else find_udp l' (S i) port dst_ip wildcard
  end.

Definition sock_find_udp (l : list net_socket) (port dst_ip : Z) : option nat := find_udp l 0 port dst_ip None.

(** [for (idx = 0; idx < 16; idx++) if (net_get_device(idx) == dev) ...] *)
Definition find_ifindex (r : net_registry) (dev : devptr) : Z :=
  match dev with
  | None => 0
  | Some _ =>
      match find_idx (fun i => bool_decide (net_get_device r (Z.of_nat i) = dev)) (seq 0 16) with
      | Some i => Z.of_nat i
      | None => 0
      end
  end.

Definition udp_enqueue (r : net_registry) (src_ip src_port dst_ip : Z) (data : list Z) (ttl tos : Z) (dev : devptr)
    (sk : net_socket) : net_socket :=
  let next := (udp_rx_tail sk + 1) mod UDP_QUEUE in
  if next =? udp_rx_head sk then sk
  else
    let copy_len := Nat.min (length data) NET_RX_BUF_SIZE in
    let store (old : udp_slot) :=
      mk_udp_slot (write_at 0 (take copy_len data) (us_data old)) (Z.of_nat copy_len)
        (mk_sockaddr AF_INET (net_htons src_port) (net_htonl src_ip)) dst_ip ttl tos (find_ifindex r dev) in
    set_udp_rx (alter store (Z.to_nat (udp_rx_tail sk)) (udp_rx_queue sk)) (udp_rx_head sk) next true sk.

Definition udp_deliver_to_socket (u : ustate) (src_ip src_port dst_ip dst_port : Z) (data : list Z) (ttl tos : Z)
    (dev : devptr) : ustate :=
  match sock_find_udp (sockets u) dst_port dst_ip with
  | None => u
  | Some i =>
      set_sockets (alter (udp_enqueue (registry u) src_ip src_port dst_ip data ttl tos dev) i (sockets u)) u
  end.

(** The outcome of a receive: an error, a datagram with its sender, or a wait
    (the caller yields and looks again). *)
Inductive recv_result :=
  | RecvError (err : Z)
  | RecvData (data : list Z) (from : sockaddr_in)
  | RecvWait.

(** One pass of [sock_recvfrom] on a datagram socket; [expired]: the receive
    timeout is over; [len]: the size of the caller's buffer. *)
Definition sock_recvfrom (sk : net_socket) (len : nat) (peek dontwait expired : bool) : net_socket * recv_result :=
  if negb (so_active sk) then (sk, RecvError (- EBADF))
  else if negb (udp_rx_ready sk) then
    if so_nonblock sk || dontwait then (sk, RecvError (- EAGAIN))
    else if expired then (sk, RecvError (- ETIMEDOUT))
    else (sk, RecvWait)
  else if udp_rx_head sk =? udp_rx_tail sk then
    (set_udp_rx (udp_rx_queue sk) (udp_rx_head sk) (udp_rx_tail sk) false sk, RecvError (- EAGAIN))
  else
    match udp_rx_queue sk !! Z.to_nat (udp_rx_head sk) with
    | None => (sk, RecvError (- EBADF))
    | Some sl =>
        let data := take (Nat.min (Z.to_nat (us_len sl)) len) (us_data sl) in
        let head := (udp_rx_head sk + 1) mod UDP_QUEUE in
        (if peek then sk
         else set_udp_rx (udp_rx_queue sk) head (udp_rx_tail sk)
                (if head =? udp_rx_tail sk then false else udp_rx_ready sk) sk,
         RecvData data (us_from sl))
    end.

(** ** Sending and receiving *)

Section Udp.
Variable nic_send : nat -> list Z -> Z.

(** A message in a buffer of its own, sent as one datagram. *)
Definition send_message (s : net_state) (dev : devptr) (dst_ip proto : Z) (msg : list Z) : net_state * Z :=
  match skb_build dev (Z.of_nat (length msg)) msg (pool s) with
  | (P, None) => (set_pool P s, -1)
  | (P, Some p) =>
      let s := set_pool P s in
      let '(s, ret) := ipv4_send nic_send s dev dst_ip proto (skb_payload (pool s) p) in
      (set_pool (skb_put (Some p) (pool s)) s, ret)
  end.

Definition udp_send (s : net_state) (dev : devptr) (dst_ip src_port dst_port : Z) (data : list Z) : net_state * Z :=
  match dev ≫= fun d => devs s !! d with
  | None => (s, -1)
  | Some dv =>
      let udp_len := sizeof_udp_header + Z.of_nat (length data) in
      if 65535 - sizeof_ipv4_header <? udp_len then (s, -1)
      else
        let src_ip := if negb (ip_addr dv =? 0) then ip_addr dv else dst_ip in
        let cs := udp_compute_checksum src_ip dst_ip (udp_header_bytes src_port dst_port udp_len 0 ++ data) udp_len in
        send_message s dev dst_ip IP_PROTO_UDP (udp_header_bytes src_port dst_port udp_len cs ++ data)
  end.

Definition icmp_header_bytes (type code checksum identifier sequence : Z) : list Z :=
  [type; code] ++ le16 checksum ++ le16 (net_htons identifier) ++ le16 (net_htons sequence).

Definition icmp_send_error_packet (s : net_state) (dev : devptr) (dst_ip type code : Z) (quoted : list Z) (aux_data : Z)
    : net_state * Z :=
  match dev with
  | None => (s, -1)
  | Some _ =>
      let quoted := take (Z.to_nat (NET_MTU_DEFAULT - sizeof_icmp_header)) quoted in
      let hdr cs := icmp_header_bytes type code cs (u16 (Z.shiftr aux_data 16)) (u16 aux_data) in
      let cs := ipv4_checksum (hdr 0 ++ quoted) (Z.of_nat (length (hdr 0 ++ quoted))) in
      send_message s dev dst_ip IP_PROTO_ICMP (hdr cs ++ quoted)
  end.

(** The IP header quoted in a port-unreachable message. *)
Definition udp_quoted_header (src_ip dst_ip udp_len : Z) : list Z :=
  let ip cs := mk_ipv4_header 0x45 0 (net_htons (u16 (sizeof_ipv4_header + udp_len))) 0 0 64 IP_PROTO_UDP cs
                 (net_htonl src_ip) (net_htonl dst_ip) in
  ipv4_header_bytes (ip (ipv4_checksum (ipv4_header_bytes (ip 0)) sizeof_ipv4_header)).

Definition udp_rx (u : ustate) (dev : devptr) (src_ip dst_ip : Z) (data : list Z) (ttl tos : Z) : ustate :=
  let len := Z.of_nat (length data) in
  if len <? sizeof_udp_header then u
  else
    let src_port := net_ntohs (ld16 data 0) in
    let dst_port := net_ntohs (ld16 data 2) in
    let udp_len := net_ntohs (ld16 data 4) in
    let checksum := ld16 data 6 in
    if (len <? udp_len) || (udp_len <? sizeof_udp_header) then u
    else if negb (checksum =? 0) &&
            negb (udp_compute_checksum src_ip dst_ip (write_at 6 [0; 0] data) udp_len =? checksum)
    then u
    else
      let payload := read_at 8 (Z.to_nat (udp_len - sizeof_udp_header)) data in
      if dst_port =? DHCP_CLIENT_PORT then log_app (Dhcp_rx dev payload) u
      else if (dst_port =? DNS_CLIENT_PORT) && (src_port =? 53) then log_app (Dns_rx payload) u
      else
        match sock_find_udp (sockets u) dst_port dst_ip with
        | None =>
            let quoted := udp_quoted_header src_ip dst_ip udp_len ++ take (Nat.min (Z.to_nat udp_len) 16) data in
            set_net (icmp_send_error_packet (net u) dev src_ip ICMP_DEST_UNREACH ICMP_PORT_UNREACH quoted 0).1 u
        | Some _ => udp_deliver_to_socket u src_ip src_port dst_ip dst_port payload ttl tos dev
        end.

(** The upcalls of the IPv4 layer, in order. *)
Definition udp_input (us : list upcall) (u : ustate) : ustate :=
  foldl (fun u up => match up with
                     | Up_udp dev src dst payload ttl tos => udp_rx u dev src dst payload ttl tos
                     | _ => u
                     end) u us.

End Udp.

(** ** The queue of a socket *)

#[export] Instance udp_slot_inhabited : Inhabited udp_slot :=
  populate (mk_udp_slot [] 0 (mk_sockaddr 0 0 0) 0 0 0 0).

(** The number of datagrams in the queue and the datagrams, oldest first. *)
Definition queue_len (sk : net_socket) : Z := (udp_rx_tail sk - udp_rx_head sk) mod UDP_QUEUE.
Definition slot_at (sk : net_socket) (i : Z) : udp_slot :=
  udp_rx_queue sk !!! Z.to_nat ((udp_rx_head sk + i) mod UDP_QUEUE).
Definition queued (sk : net_socket) : list udp_slot := slot_at sk <$> seqZ 0 (queue_len sk).

Definition slot_ok (sl : udp_slot) : Prop :=
  length (us_data sl) = NET_RX_BUF_SIZE /\ 0 <= us_len sl <= Z.of_nat NET_RX_BUF_SIZE.

Record queue_ok (sk : net_socket) : Prop := {
  uq_len : length (udp_rx_queue sk) = 16%nat;
  uq_head : 0 <= udp_rx_head sk < UDP_QUEUE;
  uq_tail : 0 <= udp_rx_tail sk < UDP_QUEUE;
  uq_slots : Forall slot_ok (udp_rx_queue sk);
  uq_ready : udp_rx_head sk <> udp_rx_tail sk -> udp_rx_ready sk = true;
}.

(** The message of a slot and what is recorded with it. *)
Definition datagram : Type := list Z * sockaddr_in * Z * Z * Z * Z.
Definition slot_datagram (sl : udp_slot) : datagram :=
  (take (Z.to_nat (us_len sl)) (us_data sl), us_from sl, us_dst_ip sl, us_ttl sl, us_tos sl, us_ifindex sl).

Lemma length_queued sk : Z.of_nat (length (queued sk)) = queue_len sk.
Proof.
  unfold queued. rewrite length_fmap, length_seqZ. apply Z2Nat.id. unfold queue_len, UDP_QUEUE. zlia.
Qed.

Lemma queue_len_range sk : 0 <= queue_len sk < 16.
Proof. unfold queue_len, UDP_QUEUE. zlia. Qed.

(** The slot a new datagram goes to is outside the queue. *)
Lemma queue_tail_fresh sk i :
  queue_ok sk -> 0 <= i < queue_len sk -> (udp_rx_head sk + i) mod UDP_QUEUE <> udp_rx_tail sk.
Proof. intros [_ Hh Ht _ _] Hi. unfold queue_len, UDP_QUEUE in *. zlia. Qed.

Lemma queue_full sk : queue_ok sk -> (udp_rx_tail sk + 1) mod UDP_QUEUE = udp_rx_head sk <-> queue_len sk = 15.
Proof. intros [_ Hh Ht _ _]. unfold queue_len, UDP_QUEUE in *. zlia. Qed.

Lemma queue_empty sk : queue_ok sk -> udp_rx_head sk = udp_rx_tail sk <-> queued sk = [].
Proof.
  intros [_ Hh Ht _ _]. rewrite <- length_zero_iff_nil. pose proof (length_queued sk) as Hl.
  unfold queue_len, UDP_QUEUE in *. zlia.
Qed.

Lemma queued_cons sk :
  0 < queue_len sk ->
  queued sk = slot_at sk 0 :: ((fun i => slot_at sk (i + 1)) <$> seqZ 0 (queue_len sk - 1)).
Proof.
  intros Hn. unfold queued. rewrite seqZ_cons by lia. rewrite fmap_cons. f_equal.
  replace (Z.succ 0) with (1 + 0) by lia. rewrite <- fmap_add_seqZ, <- list_fmap_compose. replace (Z.pred (queue_len sk)) with (queue_len sk - 1) by lia.
  apply list_fmap_ext. intros j i _. cbn. f_equal. lia.
Qed.

Section Enqueue.
Context (r : net_registry) (src_ip src_port dst_ip : Z) (data : list Z) (ttl tos : Z) (dev : devptr) (sk : net_socket).
Hypothesis Hok : queue_ok sk.
Let sk' : net_socket := udp_enqueue r src_ip src_port dst_ip data ttl tos dev sk.

(** The datagram that arrives, cut at the size of a slot. *)
Definition incoming : datagram :=
  (take NET_RX_BUF_SIZE data, mk_sockaddr AF_INET (net_htons src_port) (net_htonl src_ip), dst_ip, ttl, tos, find_ifindex r dev).

Lemma udp_enqueue_full : queue_len sk = 15 -> sk' = sk.
Proof.
  intros Hn%queue_full; [|done]. unfold sk', udp_enqueue. by rewrite Hn, Z.eqb_refl.
Qed.

Lemma udp_enqueue_room :
  queue_len sk <> 15 -> queue_ok sk' /\ slot_datagram <$> queued sk' = (slot_datagram <$> queued sk) ++ [incoming].
Proof.
  intros Hn. pose proof Hok as [Hl Hh Ht Hs Hr]. unfold sk', udp_enqueue.
  rewrite (proj2 (Z.eqb_neq _ _)) by (intros E; by apply Hn, queue_full). cbv zeta.
  set (store := fun old : udp_slot => _). set (sk1 := set_udp_rx _ _ _ _ _).
  assert (Htl : (Z.to_nat (udp_rx_tail sk) < length (udp_rx_queue sk))%nat) by (unfold UDP_QUEUE in *; lia).
  destruct (lookup_lt_is_Some_2 _ _ Htl) as [old Hold].
  assert (Hoold : slot_ok old) by (eapply Forall_lookup_1; eauto).
  assert (Hlq : length (alter store (Z.to_nat (udp_rx_tail sk)) (udp_rx_queue sk)) = 16%nat) by (by rewrite length_alter).
  assert (Hlen : queue_len sk1 = queue_len sk + 1).
  { pose proof (queue_len_range sk). unfold queue_len, sk1, UDP_QUEUE in *. cbn [udp_rx_tail udp_rx_head set_udp_rx]. zlia. }
  assert (Hsame : forall i, 0 <= i < queue_len sk -> slot_at sk1 i = slot_at sk i).
  { intros i Hi. pose proof (queue_tail_fresh sk i Hok Hi) as Hne. unfold slot_at, sk1. cbn [udp_rx_queue udp_rx_head set_udp_rx].
    apply list_lookup_total_alter_ne. unfold UDP_QUEUE in *. zlia. }
  assert (Hnew : slot_datagram (slot_at sk1 (queue_len sk)) = incoming).
  { assert (Ei : (udp_rx_head sk + queue_len sk) mod UDP_QUEUE = udp_rx_tail sk) by (unfold queue_len, UDP_QUEUE in *; zlia).
    assert (Esl : slot_at sk1 (queue_len sk) = store old).
    { unfold slot_at, sk1. cbn [udp_rx_queue udp_rx_head set_udp_rx]. rewrite Ei. apply list_lookup_total_correct.
      rewrite list_lookup_alter_eq, Hold. done. }
    rewrite Esl. destruct Hoold as [Hd _]. unfold slot_datagram, store, incoming. cbn [us_data us_len us_from us_dst_ip us_ttl us_tos us_ifindex].
    rewrite Nat2Z.id. do 5 f_equal. rewrite write_at_app by (rewrite length_take; lia). rewrite take_0. cbn [app].
    rewrite take_app_le, take_take, Nat.min_id by (rewrite length_take; lia).
    destruct (Nat.min_spec (length data) NET_RX_BUF_SIZE) as [[? ->]|[? ->]]; [by rewrite !take_ge by lia|done]. }
  split.
  - split; cbn [sk1 set_udp_rx udp_rx_queue udp_rx_head udp_rx_tail udp_rx_ready]; try done.
    + unfold UDP_QUEUE. zlia.
    + apply Forall_alter; [done|]. intros sl Hsl [Hd _]. unfold slot_ok, store. cbn [us_data us_len].
      rewrite length_write_at. unfold NET_RX_BUF_SIZE in *. split; [done|lia].
  - unfold queued. rewrite Hlen, (seqZ_app 0 (queue_len sk) 1) by (pose proof (queue_len_range sk); lia).
    rewrite !fmap_app. f_equal.
    + rewrite <- !list_fmap_compose. apply list_fmap_ext. intros j i Hi. apply lookup_seqZ in Hi as [-> Hi]. cbn.
      by rewrite Hsame by lia.
    + rewrite Z.add_0_l, seqZ_cons by lia. cbn [fmap list_fmap]. by rewrite Hnew.
Qed.

End Enqueue.

(** Receiving without MSG_PEEK takes the oldest datagram. *)
Lemma sock_recvfrom_takes sk len dontwait expired sl rest :
  queue_ok sk -> so_active sk = true -> queued sk = sl :: rest ->
  let '(sk', res) := sock_recvfrom sk len false dontwait expired in
  res = RecvData (take len (slot_datagram sl).1.1.1.1.1) (us_from sl) /\ queue_ok sk' /\ queued sk' = rest.
Proof.
  intros Hok Ha Hq. pose proof Hok as [Hl Hh Ht Hs Hr].
  assert (Hne : udp_rx_head sk <> udp_rx_tail sk) by (intros E%queue_empty; [congruence|done]).
  unfold sock_recvfrom. rewrite Ha, (Hr Hne). cbn [negb]. rewrite (proj2 (Z.eqb_neq _ _) Hne).
  assert (Hlt : (Z.to_nat (udp_rx_head sk) < length (udp_rx_queue sk))%nat) by (unfold UDP_QUEUE in *; lia).
  destruct (lookup_lt_is_Some_2 _ _ Hlt) as [s0 Hs0]. rewrite Hs0.
  assert (Hlen : 0 < queue_len sk) by (unfold queue_len, UDP_QUEUE in *; zlia).
  rewrite queued_cons in Hq by done. injection Hq as Hsl Hrest.
  assert (s0 = sl) as ->.
  { rewrite <- Hsl. symmetry. apply list_lookup_total_correct. rewrite Z.add_0_r, Z.mod_small by done. done. }
  set (head := (udp_rx_head sk + 1) mod UDP_QUEUE). set (sk' := set_udp_rx _ _ _ _ _).
  assert (Hlen' : queue_len sk' = queue_len sk - 1).
  { unfold queue_len, sk', head, UDP_QUEUE in *. cbn [udp_rx_tail udp_rx_head set_udp_rx]. zlia. }
  split_and!.
  - cbn [slot_datagram fst]. by rewrite take_take, (Nat.min_comm len).
  - split; cbn [sk' set_udp_rx udp_rx_queue udp_rx_head udp_rx_tail udp_rx_ready]; try done.
    + unfold head, UDP_QUEUE. zlia.
    + intros Hh'. by rewrite (proj2 (Z.eqb_neq _ _) Hh').
  - rewrite <- Hrest. unfold queued. rewrite Hlen'. apply list_fmap_ext. intros j i _. unfold slot_at, sk'.
    cbn [udp_rx_queue udp_rx_head set_udp_rx]. f_equal. f_equal. unfold head, UDP_QUEUE. rewrite Zplus_mod_idemp_l. f_equal. lia.
Qed.

(**  The ring of a socket is a FIFO of at most 15 datagrams: a datagram that
    arrives is appended, cut at the size of a slot, or dropped if 15 are waiting;
    a receive returns the oldest one, cut at the caller's buffer, with its sender,
    and removes it. *)
Theorem udp_socket_fifo r src_ip src_port dst_ip data ttl tos dev sk len dontwait expired :
  queue_ok sk -> so_active sk = true ->
  (let sk' := udp_enqueue r src_ip src_port dst_ip data ttl tos dev sk in
   if decide (length (queued sk) = 15)%nat then sk' = sk
   else queue_ok sk' /\ slot_datagram <$> queued sk' =
          (slot_datagram <$> queued sk) ++ [incoming r src_ip src_port dst_ip data ttl tos dev]) /\
  (forall sl rest, queued sk = sl :: rest ->
     let '(sk', res) := sock_recvfrom sk len false dontwait expired in
     res = RecvData (take len (slot_datagram sl).1.1.1.1.1) (us_from sl) /\ queue_ok sk' /\ queued sk' = rest) /\
  (queued sk = [] -> udp_rx_ready sk = false ->
     sock_recvfrom sk len false dontwait expired =
       (sk, if so_nonblock sk || dontwait then RecvError (- EAGAIN)
            else if expired then RecvError (- ETIMEDOUT) else RecvWait)).
Proof.
  intros Hok Ha. pose proof (length_queued sk) as Hl. split_and!.
  - cbv zeta. case_decide; [apply udp_enqueue_full; [done|lia]|apply udp_enqueue_room; [done|lia]].
  - intros sl rest Hq. by apply sock_recvfrom_takes.
  - intros _ Hr. unfold sock_recvfrom. rewrite Ha, Hr. cbn [negb]. by repeat case_if.
Qed.

(** ** Sending and receiving one datagram *)

Lemma length_udp_header sp dp l cs : length (udp_header_bytes sp dp l cs) = 8%nat.
Proof. done. Qed.

Lemma udp_checksum_range src dst msg len : 0 < udp_compute_checksum src dst msg len < 65536.
Proof.
  unfold udp_compute_checksum. cbv zeta. set (cs := u16 _). pose proof (u16_range (Z.lnot (checksum_fold 2
    (checksum_words (take (Z.to_nat len) msg) (checksum_words (udp_pseudo_header src dst len) 0))))) as Hr. fold cs in Hr.
  destruct (Z.eqb_spec cs 0); cbn [negb]; lia.
Qed.

(** The fields [udp_rx] reads from a message. *)
Lemma udp_fields sp dp l cs data :
  urange 16 sp -> urange 16 dp -> urange 16 l -> urange 16 cs ->
  let msg := udp_header_bytes sp dp l cs ++ data in
  net_ntohs (ld16 msg 0) = sp /\ net_ntohs (ld16 msg 2) = dp /\ net_ntohs (ld16 msg 4) = l /\ ld16 msg 6 = cs.
Proof.
  intros Hsp Hdp Hl Hcs msg.
  assert (H0 : ld16 msg 0 = net_htons sp) by (apply (ld16_le16 []); apply net_htons_range).
  assert (H2 : ld16 msg 2 = net_htons dp) by (apply (ld16_le16 (le16 (net_htons sp))); apply net_htons_range).
  assert (H4 : ld16 msg 4 = net_htons l) by (apply (ld16_le16 (le16 (net_htons sp) ++ le16 (net_htons dp))); apply net_htons_range).
  assert (H6 : ld16 msg 6 = cs)
    by (apply (ld16_le16 (le16 (net_htons sp) ++ le16 (net_htons dp) ++ le16 (net_htons l))); done).
  rewrite H0, H2, H4, H6, !net_ntohs_htons by done. done.
Qed.

(** [udp_rx] accepts what [udp_send] has built, when both compute the checksum
    with the same addresses. *)
Lemma udp_rx_accepts nic u dev src dst sp dp data ttl tos i :
  let l := sizeof_udp_header + Z.of_nat (length data) in
  let cs := udp_compute_checksum src dst (udp_header_bytes sp dp l 0 ++ data) l in
  urange 16 sp -> urange 16 dp -> l < 65536 -> dp <> DHCP_CLIENT_PORT -> (dp <> DNS_CLIENT_PORT \/ sp <> 53) ->
  sock_find_udp (sockets u) dp dst = Some i ->
  udp_rx nic u dev src dst (udp_header_bytes sp dp l cs ++ data) ttl tos =
    udp_deliver_to_socket u src sp dst dp data ttl tos dev.
Proof.
  intros l cs Hsp Hdp Hl Hdhcp Hdns Hi. pose proof (udp_checksum_range src dst (udp_header_bytes sp dp l 0 ++ data) l) as Hcs. fold cs in Hcs.
  assert (Hl8 : 8 <= l) by (unfold l, sizeof_udp_header; lia).
  destruct (udp_fields sp dp l cs data) as (E0 & E2 & E4 & E6); [done|done|unfold urange; lia|unfold urange; lia|].
  unfold udp_rx. rewrite E0, E2, E4, E6, length_app, length_udp_header.
  replace (Z.of_nat (8 + length data)) with l by (unfold l, sizeof_udp_header; lia).
  unfold sizeof_udp_header in *. rewrite (proj2 (Z.ltb_ge l 8)), Z.ltb_irrefl by lia. cbn [orb].
  rewrite (proj2 (Z.eqb_neq cs 0)) by lia. cbn [negb andb].
  assert (Ew : write_at 6 [0; 0] (udp_header_bytes sp dp l cs ++ data) = udp_header_bytes sp dp l 0 ++ data) by done.
  rewrite Ew. fold cs. rewrite Z.eqb_refl. cbn [negb].
  rewrite (proj2 (Z.eqb_neq dp _) Hdhcp).
  assert (Hd : (dp =? DNS_CLIENT_PORT) && (sp =? 53) = false).
  { apply andb_false_iff. destruct Hdns; [left|right]; by apply Z.eqb_neq. }
  rewrite Hd, Hi. f_equal. unfold read_at. rewrite drop_app_length' by done. apply take_ge. unfold l. lia.
Qed.

Lemma udp_deliver_at u src sp dst dp data ttl tos dev i sk :
  sock_find_udp (sockets u) dp dst = Some i -> sockets u !! i = Some sk ->
  sockets (udp_deliver_to_socket u src sp dst dp data ttl tos dev) !! i =
    Some (udp_enqueue (registry u) src sp dst data ttl tos dev sk).
Proof. intros Hf Hi. unfold udp_deliver_to_socket. rewrite Hf. cbn [sockets set_sockets]. by rewrite list_lookup_alter_eq, Hi. Qed.

(** ** The whole path over loopback *)

Section Loopback.
Variable nic_send : nat -> list Z -> Z.
Context (F : list nat) (s : net_state) (d : nat) (dv : net_device) (dst_ip next_hop : Z) (n : nat).
Hypothesis HF : net_free F s.
Hypothesis HFl : (3 <= length F)%nat.
Hypothesis Hlo : lo s = Some d.
Hypothesis Hd : devs s !! d = Some dv.
Hypothesis Hroute : ipv4_route s (Some d) dst_ip = Some (d, next_hop).
Hypothesis Hi : rx_queue_inited s = true.
Hypothesis Hq : rx_queue s = skb_queue_init.
Hypothesis Hdst : urange 32 dst_ip.

Lemma send_message_loopback proto msg :
  byte proto -> (0 < length msg)%nat -> Z.of_nat (length msg) <= 1388 ->
  let '(s1, r) := send_message nic_send s (Some d) dst_ip proto msg in
  let s2 := net_rx_softirq nic_send (S (S n)) s1 in
  r = 0 /\ net_free F s2 /\ rx_queue s2 = skb_queue_init /\
  exists packet, upcalls s2 = upcalls s ++ [Up_raw dst_ip dst_ip proto packet] ++
    dispatched (Some d) dst_ip dst_ip proto msg 64 0.
Proof.
  intros Hpr Hl0 Hl. destruct HF as [HP Hr]. unfold send_message.
  destruct (skb_build_small F (Some d) msg (pool s) HP Hr) as (P & a & F1 & -> & HFF & HP1 & Hr1 & Ho & _ & _);
    [by intros ->; cbn in HFl; lia|unfold SKB_HEADROOM, SKB_SMALL_DATA; lia|].
  cbn [pool set_pool]. rewrite (proj1 Ho). set (s0 := set_pool P s). unfold ipv4_send.
  rewrite (ipv4_send_common_lo nic_send s0 (Some d) dst_ip proto msg 64 0 d next_hop dv) by (done || lia).
  destruct (random_u32_frame s0) as (E1 & E2 & E3 & E4 & E5 & E6).
  set (c := lo_send_params d next_hop (u16 (random_u32 s0).2) dst_ip proto 64 0).
  assert (Hok : ip_send_ok c (Z.of_nat (length msg))).
  { split; cbn; try done; try lia. apply u16_range. }
  assert (exists fuel, length msg = S fuel) as [fuel Hfuel] by (exists (length msg - 1)%nat; lia).
  replace (ipv4_send_loop nic_send (length msg)) with (ipv4_send_loop nic_send (S fuel)) by (by rewrite Hfuel).
  assert (HFl1 : (2 <= length F1)%nat) by (apply Permutation_length in HFF; cbn in HFF; lia).
  destruct (ipv4_send_loop_lo nic_send F1 (random_u32 s0).1 c msg dv fuel)
    as (s' & b & F' & dv' & -> & HFF' & [Hq' Hob Hdb Hnb HF' Hr'] & Hlo' & Hd' & Hup & Hfr); try done; try congruence.
  { unfold net_free. by rewrite E1. }
  { rewrite E3. by cbn. }
  { rewrite E2. by cbn. }
  { rewrite E5. by cbn. }
  { rewrite E4. by cbn. }
  { unfold c. cbn. lia. }
  pose proof (owns_not_free F1 P a msg HP1 Ho) as Ha.
  assert (Hoa : owns (pool s') a msg) by (apply (owns_frame P); [rewrite Hfr, E1 by done; done|done]).
  destruct (skb_put_last F' a msg (pool s') HF' Hoa) as [HF2 Hne2].
  assert (Hab : b <> a) by (intros ->; apply Ha; rewrite HFF'; left).
  set (s1 := set_pool (skb_put (Some a) (pool s')) s').
  assert (Hone : one_queued (a :: F') s1 d b (frag_packet c msg (Z.of_nat (length msg)) 0)).
  { split; cbn [rx_queue pool s1 set_pool]; try done.
    - by apply (owns_frame (pool s')); [apply Hne2|].
    - unfold skb_dev_of. by rewrite Hne2.
    - unfold next_of. by rewrite Hne2.
    - by rewrite skb_put_ready. }
  destruct (softirq_one nic_send (a :: F') s1 d b c msg dv' n) as (HF3 & Hq3 & Hu3); try done.
  { by rewrite <- Hlo, <- (E3 : lo _ = lo s), <- Hlo'. }
  { unfold c. cbn. lia. }
  cbv zeta. split_and!; [done| |done|].
  - destruct HF3 as [HF3 Hr3]. split; [|done]. rewrite HFF, HFF'. by rewrite perm_swap.
  - eexists. rewrite Hu3. cbn [upcalls s1 set_pool]. rewrite Hup, E6. done.
Qed.

Context (sp dp : Z) (data : list Z) (reg : net_registry) (socks : list net_socket) (log : list app_input) (i : nat) (sk : net_socket).
Hypothesis Hip : ip_addr dv = 0 \/ ip_addr dv = dst_ip.
Hypothesis Hsp : urange 16 sp.
Hypothesis Hdp : urange 16 dp.
Hypothesis Hlen : Z.of_nat (length data) <= 1380.
Hypothesis Hdhcp : dp <> DHCP_CLIENT_PORT.
Hypothesis Hdns : dp <> DNS_CLIENT_PORT \/ sp <> 53.
Hypothesis Hfind : sock_find_udp socks dp dst_ip = Some i.
Hypothesis Hsk : socks !! i = Some sk.
Hypothesis Hact : so_active sk = true.
Hypothesis Hqok : queue_ok sk.
Hypothesis Hroom : (length (queued sk) < 15)%nat.


End Loopback.

(** The checksum of a datagram to a second loopback address is computed with the
    address of the device, while the IP header carries the destination as the
    source: [udp_rx] drops the datagram. *)
Lemma udp_loopback_alias_dropped :
  let data := [1; 2; 3] in
  let msg cs := udp_header_bytes 1000 2000 11 cs ++ data in
  let sent := msg (udp_compute_checksum (ip_addr lo_device) 0x7F000002 (msg 0) 11) in
  forall nic u, udp_rx nic u (Some LO_DEVICE) 0x7F000002 0x7F000002 sent 64 0 = u.
Proof. intros data msg sent nic u. reflexivity. Qed.

(** ** Witnesses *)

Definition demo_slot : udp_slot := mk_udp_slot (replicate NET_RX_BUF_SIZE 0) 0 (mk_sockaddr 0 0 0) 0 0 0 0.

(** A socket bound to port 2000 on every address. *)
Definition demo_socket : net_socket :=
  mk_net_socket true true true false (mk_sockaddr AF_INET (net_htons 2000) 0) (replicate 16 demo_slot) 15 15 false.

Lemma demo_socket_ok : queue_ok demo_socket /\ queued demo_socket = [].
Proof.
  split; [|done]. split; cbn [demo_socket udp_rx_queue udp_rx_head udp_rx_tail udp_rx_ready]; try (unfold UDP_QUEUE; lia).
  - done.
  - apply Forall_replicate. split; [apply length_replicate|]. unfold demo_slot. cbn [us_len]. lia.
Qed.

Lemma udp_socket_fifo_witness :
  let sk' := udp_enqueue (mk_net_registry [] 0) 5 6 7 [1; 2; 3] 64 0 None demo_socket in
  queue_ok sk' /\ slot_datagram <$> queued sk' =
    [([1; 2; 3], mk_sockaddr AF_INET (net_htons 6) (net_htonl 5), 7, 64, 0, 0)].
Proof.
  destruct demo_socket_ok as [Hok Hq].
  destruct (udp_socket_fifo (mk_net_registry [] 0) 5 6 7 [1; 2; 3] 64 0 None demo_socket 10 false false Hok eq_refl) as [H _].
  rewrite Hq in H. exact H.
Defined.

