(* ===== verification/Futex.v ===== *)
(** * Futexes ([kernel/ke/futex.c])

    The hash table of waiting threads with [futex_wait], [futex_wake],
    [futex_requeue], [futex_cleanup_task] and the system call [sys_futex], on top
    of the scheduler of the file Sched.  A bucket is the list of its waiters in
    the order of the links; the waiters are objects in a store.  [futex_wait] is
    split at the places where the thread can be interrupted: the checks before
    the lock, the section under the bucket lock that ends with the thread BLOCKED,
    and the section that runs when the thread is scheduled again.

    The second half states the invariant of the table and shows that the operations
    keep it; the file Threads builds the interface of user-space synchronisation
    on it.  The last section shows two faults of the code on concrete states. *)

From Stdlib Require Import ZArith Lia Bool.
From stdpp Require Import base list gmap.
From S2P Require Import Prelude Chain Sched Wait.

Open Scope Z_scope.

Definition FUTEX_HASH_BUCKETS : Z := 256.
Definition MAX_DEFERRED_WAKE : Z := 32.
Definition FUTEX_WAIT : Z := 0.
Definition FUTEX_WAKE : Z := 1.
Definition FUTEX_REQUEUE : Z := 3.
Definition FUTEX_CMP_REQUEUE : Z := 4.
Definition FUTEX_PRIVATE_FLAG : Z := 128.
Definition ESRCH : Z := 3.
Definition EAGAIN : Z := 11.
Definition ENOMEM : Z := 12.
Definition EFAULT : Z := 14.
Definition EINVAL : Z := 22.
Definition ENOSYS : Z := 38.
Definition ETIMEDOUT : Z := 110.

Record futex_waiter := mk_waiter {
  w_uaddr : Z;
  w_key : Z;
  w_task : nat;
  w_bitset : Z;
  w_removed : bool;      (* removed_by_wake *)
}.

Record fstate := mk_fstate {
  f_sched : sched;
  f_buckets : list (list nat);
  f_waiters : gmap nat futex_waiter;
}.

Definition set_f_sched (s : sched) (st : fstate) : fstate := mk_fstate s (f_buckets st) (f_waiters st).
Definition set_bucket (b : nat) (l : list nat) (st : fstate) : fstate :=
  mk_fstate (f_sched st) (<[b := l]> (f_buckets st)) (f_waiters st).
Definition set_f_waiters (m : gmap nat futex_waiter) (st : fstate) : fstate := mk_fstate (f_sched st) (f_buckets st) m.

Definition bucket (st : fstate) (b : nat) : list nat := default [] (f_buckets st !! b).
Definition mark_removed (x : futex_waiter) : futex_waiter :=
  mk_waiter (w_uaddr x) (w_key x) (w_task x) (w_bitset x) true.
Definition move_waiter (uaddr key : Z) (x : futex_waiter) : futex_waiter :=
  mk_waiter uaddr key (w_task x) (w_bitset x) (w_removed x).

(** [futex_init] *)
Definition futex_init (s : sched) : fstate := mk_fstate s (replicate (Z.to_nat FUTEX_HASH_BUCKETS) []) ∅.

Definition validate_user_ptr (ptr len : Z) : bool :=
  negb (ptr <? 0x10000) && negb (0x7FFFFFFFFFFF <=? ptr) && negb (u64 (ptr + len) <? ptr).

Definition futex_hash_fn (key : Z) : Z :=
  let key := Z.lxor key (Z.shiftr key 33) in
  let key := u64 (key * 0xff51afd7ed558ccd) in
  let key := Z.lxor key (Z.shiftr key 33) in
  let key := u64 (key * 0xc4ceb9fe1a85ec53) in
  let key := Z.lxor key (Z.shiftr key 33) in
  u32 (key mod FUTEX_HASH_BUCKETS).

Definition bucket_idx (key : Z) : nat := Z.to_nat (futex_hash_fn key).

(** [for (pp = head; *pp; pp = next) if ( *pp == w ) { *pp = w->next; break; }] *)
Fixpoint remove_one (w : nat) (l : list nat) : list nat :=
  match l with
  | [] => []
  | x :: l' => if decide (x = w) then l' else x :: remove_one w l'
  end.

(** [task->state = TASK_READY; wait_channel = NULL; wakeup_tick = 0] *)
Definition wake_mark (tk : task) : task := set_wait None 0 (set_state TASK_READY tk).

Section Futex.
Variable pml4 : nat -> Z.        (* [task->pml4]; 0 is NULL *)
Variable channel : Z -> nat.     (* a user address as a wait channel *)

(** All callers ask for a private futex. *)
Definition futex_get_key_for_task (uaddr : Z) (t : option nat) : Z :=
  Z.lxor (match t with Some t => pml4 t | None => 0 end) uaddr.

Definition futex_get_key (cur : option nat) (uaddr : Z) : Z := futex_get_key_for_task uaddr cur.

(** ** Waiting *)

(** The checks before the lock; [curval] is the value of the word.  A result is
    the return value of the call. *)
Definition futex_wait_check (cur : option nat) (uaddr expected_val curval : Z) : option Z :=
  if negb (validate_user_ptr uaddr 4) then Some (- EFAULT)
  else match cur with
       | None => Some (- ESRCH)
       | Some _ => if negb (curval =? expected_val) then Some (- EAGAIN) else None
       end.

(** The section under the lock: [w] is the waiter from [kalloc], [curval] the
    value read under the lock, [now] the timer tick.  Without a result the thread
    is BLOCKED and calls [sched_schedule]. *)
Definition futex_wait_begin (cur : nat) (w : option nat) (uaddr expected_val curval timeout_ns now : Z) (st : fstate)
    : fstate * option Z :=
  let key := futex_get_key (Some cur) uaddr in
  let b := bucket_idx key in
  match w with
  | None => (st, Some (- ENOMEM))
  | Some w =>
      if negb (curval =? expected_val) then (st, Some (- EAGAIN))
      else
        let st := set_f_waiters (<[w := mk_waiter uaddr key cur 0xFFFFFFFF false]> (f_waiters st)) st in
        let st := set_bucket b (w :: bucket st b) st in
        let s := upd_task cur (fun tk =>
                   set_wait (Some (channel uaddr))
                     (if 0 <? timeout_ns then u64 (now + u64 (timeout_ns / 10000000 + 1)) else t_wakeup_tick tk)
                     (set_state TASK_BLOCKED tk)) (f_sched st) in
        (set_f_sched s st, None)
  end.

(** After [sched_schedule] returns; [b] is the bucket chosen at the beginning. *)
Definition futex_wait_end (w b : nat) (st : fstate) : fstate * Z :=
  match f_waiters st !! w with
  | None => (st, - ETIMEDOUT)
  | Some x =>
      let st := if negb (w_removed x) then set_bucket b (remove_one w (bucket st b)) st else st in
      (set_f_waiters (delete w (f_waiters st)) st, if w_removed x then 0 else - ETIMEDOUT)
  end.

(** ** Waking *)

(** The walk over a bucket: the remaining links, the tasks collected, their
    number and the new state. *)
Fixpoint wake_scan (key nr_wake : Z) (l : list nat) (wake_list : list nat) (woken : Z) (st : fstate)
    : list nat * list nat * Z * fstate :=
  match l with
  | [] => ([], wake_list, woken, st)
  | w :: l' =>
      if (woken <? nr_wake) && (Z.of_nat (length wake_list) <? MAX_DEFERRED_WAKE) then
        match f_waiters st !! w with
        | None => (l, wake_list, woken, st)
        | Some x =>
            if w_key x =? key then
              let st := set_f_waiters (<[w := mark_removed x]> (f_waiters st)) st in
              if bool_decide (state_of (f_sched st) (w_task x) = Some TASK_BLOCKED) then
                wake_scan key nr_wake l' (wake_list ++ [w_task x]) (woken + 1)
                  (set_f_sched (upd_task (w_task x) wake_mark (f_sched st)) st)
              else wake_scan key nr_wake l' wake_list woken st
            else
              let '(r, wl, n, st) := wake_scan key nr_wake l' wake_list woken st in (w :: r, wl, n, st)
        end
      else (l, wake_list, woken, st)
  end.

Definition futex_wake_key (me : nat) (key nr_wake : Z) (st : fstate) : fstate * Z :=
  if nr_wake <=? 0 then (st, 0)
  else
    let b := bucket_idx key in
    let '(r, wake_list, woken, st) := wake_scan key nr_wake (bucket st b) [] 0 st in
    let st := set_bucket b r st in
    (set_f_sched (foldl (sched_enqueue_ready me) (f_sched st) wake_list) st, woken).

(** [me] is the executing CPU, [cur] its current task. *)
Definition futex_wake (me : nat) (cur : option nat) (uaddr nr_wake : Z) (st : fstate) : fstate * Z :=
  futex_wake_key me (futex_get_key cur uaddr) nr_wake st.

Definition futex_wake_for_task (me : nat) (uaddr nr_wake : Z) (on_behalf_of : option nat) (st : fstate) : fstate * Z :=
  futex_wake_key me (futex_get_key_for_task uaddr on_behalf_of) nr_wake st.

(** ** Requeueing *)

(** The loop of [futex_requeue]: [pre] are the links behind [pp], [rest] the links
    from [*pp] on, [other] the second bucket when it is another one ([same] is
    false).  A waiter that is requeued within one bucket goes to its head, which
    is [*pp] itself while [pre] is empty. *)
Record rq_loop := mk_rq_loop {
  rl_pre : list nat;
  rl_rest : list nat;
  rl_other : list nat;
  rl_wake : list nat;
  rl_woken : Z;
  rl_requeued : Z;
  rl_st : fstate;
}.

Definition requeue_step (key1 key2 uaddr2 nr_wake nr_requeue : Z) (same : bool) (r : rq_loop) : rq_loop :=
  match rl_rest r with
  | [] => r
  | w :: l =>
      let st := rl_st r in
      match f_waiters st !! w with
      | None => mk_rq_loop (rl_pre r ++ w :: l) [] (rl_other r) (rl_wake r) (rl_woken r) (rl_requeued r) st
      | Some x =>
          if w_key x =? key1 then
            if (rl_woken r <? nr_wake) && (Z.of_nat (length (rl_wake r)) <? MAX_DEFERRED_WAKE) then
              let st := set_f_waiters (<[w := mark_removed x]> (f_waiters st)) st in
              if bool_decide (state_of (f_sched st) (w_task x) = Some TASK_BLOCKED) then
                mk_rq_loop (rl_pre r) l (rl_other r) (rl_wake r ++ [w_task x]) (rl_woken r + 1) (rl_requeued r)
                  (set_f_sched (upd_task (w_task x) wake_mark (f_sched st)) st)
              else mk_rq_loop (rl_pre r) l (rl_other r) (rl_wake r) (rl_woken r) (rl_requeued r) st
            else if rl_requeued r <? nr_requeue then
              let st := set_f_waiters (<[w := move_waiter uaddr2 key2 x]> (f_waiters st)) st in
              let st := set_f_sched (upd_task (w_task x) (fun tk => set_wait (Some (channel uaddr2)) (t_wakeup_tick tk) tk)
                                       (f_sched st)) st in
              let n := rl_requeued r + 1 in
              if same then
                match rl_pre r with
                | [] => mk_rq_loop [] (w :: l) (rl_other r) (rl_wake r) (rl_woken r) n st
                | _ => mk_rq_loop (w :: rl_pre r) l (rl_other r) (rl_wake r) (rl_woken r) n st
                end
              else mk_rq_loop (rl_pre r) l (w :: rl_other r) (rl_wake r) (rl_woken r) n st
            else mk_rq_loop (rl_pre r ++ [w]) l (rl_other r) (rl_wake r) (rl_woken r) (rl_requeued r) st
          else mk_rq_loop (rl_pre r ++ [w]) l (rl_other r) (rl_wake r) (rl_woken r) (rl_requeued r) st
      end
  end.

(** [while ( *pp )] *)
Fixpoint requeue_loop (fuel : nat) (key1 key2 uaddr2 nr_wake nr_requeue : Z) (same : bool) (r : rq_loop) : option rq_loop :=
  match rl_rest r, fuel with
  | [], _ => Some r
  | _, O => None
  | _, S fuel' =>
      requeue_loop fuel' key1 key2 uaddr2 nr_wake nr_requeue same
        (requeue_step key1 key2 uaddr2 nr_wake nr_requeue same r)
  end.

Definition futex_requeue (fuel me : nat) (cur : option nat) (uaddr uaddr2 nr_wake nr_requeue : Z) (st : fstate)
    : option (fstate * Z) :=
  if (nr_wake <? 0) || (nr_requeue <? 0) then Some (st, - EINVAL)
  else
    let key1 := futex_get_key cur uaddr in
    let key2 := futex_get_key cur uaddr2 in
    let b1 := bucket_idx key1 in
    let b2 := bucket_idx key2 in
    let same := (b1 =? b2)%nat in
    r ← requeue_loop fuel key1 key2 uaddr2 nr_wake nr_requeue same
          (mk_rq_loop [] (bucket st b1) (bucket st b2) [] 0 0 st);
    let st := rl_st r in
    let st := if same then set_bucket b1 (rl_pre r) st
              else set_bucket b2 (rl_other r) (set_bucket b1 (rl_pre r) st) in
    Some (set_f_sched (foldl (sched_enqueue_ready me) (f_sched st) (rl_wake r)) st,
          rl_woken r + rl_requeued r).

(** ** A task that dies *)

Definition of_task (st : fstate) (t : nat) (w : nat) : bool :=
  match f_waiters st !! w with Some x => (w_task x =? t)%nat | None => false end.

Definition futex_cleanup_task (t : nat) (st : fstate) : fstate :=
  let gone := filter (fun w => of_task st t w = true) (concat (f_buckets st)) in
  mk_fstate (f_sched st) ((fun l => filter (fun w => of_task st t w = false) l) <$> f_buckets st)
    (foldr delete (f_waiters st) gone).

(** ** The system call *)

(** What [sys_futex] calls; [word] is the value of the first futex, [ts] the
    timespec at the timeout pointer. *)
Inductive futex_call :=
  | CallWait (uaddr val timeout_ns : Z)
  | CallWake (uaddr nr : Z)
  | CallRequeue (uaddr uaddr2 nr_wake nr_requeue : Z)
  | CallError (err : Z).

Definition sys_futex (user_ptr : Z -> Z -> bool) (word : Z) (ts : Z * Z) (uaddr op val timeout uaddr2 val3 : Z) : futex_call :=
  let cmd := i32 (Z.land op (Z.lnot FUTEX_PRIVATE_FLAG)) in
  if negb (user_ptr uaddr 4) then CallError (- EFAULT)
  else if cmd =? FUTEX_WAIT then
    let timeout_ns := if negb (timeout =? 0) && user_ptr timeout 16 then u64 (u64 (u64 ts.1 * 1000000000) + u64 ts.2) else 0 in
    CallWait uaddr (u32 val) timeout_ns
  else if cmd =? FUTEX_WAKE then CallWake uaddr (i32 val)
  else if (cmd =? FUTEX_REQUEUE) || (cmd =? FUTEX_CMP_REQUEUE) then
    if negb (user_ptr uaddr2 4) then CallError (- EFAULT)
    else if (cmd =? FUTEX_CMP_REQUEUE) && negb (word =? u32 val3) then CallError (- EAGAIN)
    else CallRequeue uaddr uaddr2 (i32 val) (i32 timeout)
  else CallError (- ENOSYS).

End Futex.

(** ** The invariant *)

Section Invariant.
Variable pml4 : nat -> Z.

(** Every waiter that no wake-up has removed is on the list of its bucket, and
    only those are; a task has one waiter at most. *)
Record futex_ok (st : fstate) : Prop := {
  fo_sched : sys_ok (f_sched st);
  fo_len : length (f_buckets st) = Z.to_nat FUTEX_HASH_BUCKETS;
  fo_nodup : forall b, NoDup (bucket st b);
  fo_linked : forall b w, w ∈ bucket st b -> exists x,
    f_waiters st !! w = Some x /\ bucket_idx (w_key x) = b /\ w_removed x = false;
  fo_unlinked : forall w x, f_waiters st !! w = Some x -> w_removed x = false -> w ∈ bucket st (bucket_idx (w_key x));
  fo_key : forall w x, f_waiters st !! w = Some x ->
    w_key x = futex_get_key pml4 (Some (w_task x)) (w_uaddr x);
  fo_task : forall w w' x x', f_waiters st !! w = Some x -> f_waiters st !! w' = Some x' ->
    w_task x = w_task x' -> w = w';
}.

End Invariant.

(** The waiter of a task; the task is blocked in [futex_wait] on [a]; a wake-up
    has chosen the task. *)
Definition waiter_of (st : fstate) (t w : nat) (x : futex_waiter) : Prop :=
  f_waiters st !! w = Some x /\ w_task x = t.
Definition in_futex_wait (st : fstate) (t : nat) : Prop := exists w x, waiter_of st t w x.
Definition waiting (st : fstate) (t : nat) (a : Z) : Prop :=
  exists w x, waiter_of st t w x /\ w_uaddr x = a /\ w_removed x = false /\
    state_of (f_sched st) t = Some TASK_BLOCKED.
Definition chosen (st : fstate) (t : nat) : Prop := exists w x, waiter_of st t w x /\ w_removed x = true.

Lemma bucket_idx_lt key : (bucket_idx key < Z.to_nat FUTEX_HASH_BUCKETS)%nat.
Proof.
  unfold bucket_idx, futex_hash_fn. set (k := Z.lxor _ _) at 1. unfold FUTEX_HASH_BUCKETS.
  pose proof (Z.mod_pos_bound k 256 ltac:(lia)). rewrite u32_small by lia. lia.
Qed.

Lemma bucket_set st b l x :
  (b < length (f_buckets st))%nat -> bucket (set_bucket b l st) x = if decide (x = b) then l else bucket st x.
Proof.
  intros Hb. unfold bucket, set_bucket. cbn [f_buckets]. case_decide as E.
  - subst x. by rewrite list_lookup_insert_eq.
  - by rewrite list_lookup_insert_ne.
Qed.

Lemma elem_of_remove_one w l x : NoDup l -> x ∈ remove_one w l <-> x ∈ l /\ x <> w.
Proof.
  induction l as [|y l IH]; intros Hnd; cbn [remove_one]; [set_solver|].
  apply NoDup_cons in Hnd as [Hy Hnd]. case_decide; [subst; set_solver|]. rewrite !elem_of_cons, IH by done. naive_solver.
Qed.

Lemma NoDup_remove_one w l : NoDup l -> NoDup (remove_one w l).
Proof.
  induction l as [|y l IH]; intros Hnd; cbn [remove_one]; [done|]. pose proof Hnd as Hnd'.
  apply NoDup_cons in Hnd as [Hy Hnd]. case_decide; [done|]. constructor; [|by apply IH].
  rewrite elem_of_remove_one by done. tauto.
Qed.

(** ** Marking tasks READY and enqueueing them *)

Definition mark_all (W : list nat) (s : sched) : sched := foldl (fun s t => upd_task t wake_mark s) s W.

Lemma lookup_mark_all W : forall s x,
  tasks (mark_all W s) !! x = if decide (x ∈ W) then wake_mark <$> tasks s !! x else tasks s !! x.
Proof.
  induction W as [|t W IH]; intros s x; cbn [mark_all foldl]; [done|]. fold (mark_all W (upd_task t wake_mark s)).
  rewrite IH, lookup_upd_task. destruct (decide (x = t)) as [->|Hne].
  - rewrite (decide_True (P := t ∈ t :: W)) by left. destruct (decide (t ∈ W)); [|done]. by destruct (tasks s !! t).
  - destruct (decide (x ∈ W)) as [Hin|Hin]; [by rewrite decide_True by (by right)|].
    by rewrite decide_False by (by intros [?|?]%elem_of_cons).
Qed.

Lemma mark_all_frame W : forall s,
  cpus (mark_all W s) = cpus s /\ idle_tasks (mark_all W s) = idle_tasks s /\ cpu_cores (mark_all W s) = cpu_cores s.
Proof.
  induction W as [|t W IH]; intros s; [done|]. cbn [mark_all foldl]. fold (mark_all W (upd_task t wake_mark s)).
  by destruct (IH (upd_task t wake_mark s)) as (-> & -> & ->).
Qed.

Lemma mark_all_ok W : forall Q s,
  rq_ok s Q -> tasks_ok s -> (forall t, t ∈ W -> on_rq s t = false) -> rq_ok (mark_all W s) Q /\ tasks_ok (mark_all W s).
Proof.
  induction W as [|t W IH]; intros Q s H Ht HW; [done|]. cbn [mark_all foldl]. apply IH.
  - apply rq_ok_upd_off; [done|apply HW; left|done].
  - apply (tasks_ok_upd s t wake_mark ltac:(done) TASK_READY); [done|done|by left].
  - intros x Hx. rewrite on_rq_upd_keep by done. apply HW. by right.
Qed.

Lemma blocked_enqueueable s t : tasks_ok s -> state_of s t = Some TASK_BLOCKED -> enqueueable s t.
Proof.
  intros Ht Hst. assert (is_Some (tasks s !! t)) as Hx by (unfold state_of in Hst; by destruct (tasks s !! t)).
  assert (Hni : t ∉ idle_tasks s) by (intros Hi; by destruct (to_idle _ Ht t Hi) as [? _]).
  destruct (to_task _ Ht t Hx) as (He & Hsp & c & Hc & [cpu Hcpu]). destruct Hx as [tk Htk].
  unfold has_exited, sp_ok, cpu_of in *. rewrite Htk in *. injection Hc as Hc. exists tk, c, cpu. by split_and!; [split|..].
Qed.

(** Blocked tasks marked READY and enqueued: the scheduler's invariant holds and
    exactly these tasks are runnable in addition. *)
Lemma wake_all_ok me W s :
  sys_ok s -> NoDup W -> (forall t, t ∈ W -> state_of s t = Some TASK_BLOCKED) ->
  let s' := foldl (sched_enqueue_ready me) (mark_all W s) W in
  sys_ok s' /\ idle_tasks s' = idle_tasks s /\
  (forall x, state_of s' x = if decide (x ∈ W) then Some TASK_READY else state_of s x) /\
  (forall x, x ∈ W \/ is_scheduled s x = true -> is_scheduled s' x = true).
Proof.
  intros [[Q H] Ht Hr] Hnd HW s'.
  assert (Hoff : forall t, t ∈ W -> on_rq s t = false) by (intros t Hin; by eapply off_queue; [|apply HW|]).
  destruct (mark_all_ok W Q s H Ht Hoff) as [H1 Ht1]. destruct (mark_all_frame W s) as (Ec & Ei & _).
  set (s1 := mark_all W s) in *.
  destruct (enqueue_all_ok me W Q s1 H1 Hnd) as [H2 Hco].
  { intros t Hin. destruct (blocked_enqueueable s t Ht (HW t Hin)) as (tk & c & cpu & [Htk Hid Hlv Hsp] & Hcpu & Hc).
    assert (E1 : tasks s1 !! t = Some (wake_mark tk)) by (unfold s1; by rewrite lookup_mark_all, decide_True, Htk).
    split_and!; [exists (wake_mark tk), c, cpu; split_and!; [split; try done; by rewrite Ei|done|by rewrite Ec]|..].
    - unfold state_of. by rewrite E1.
    - specialize (Hoff t Hin). unfold on_rq in *. rewrite E1. by rewrite Htk in Hoff. }
  destruct (frame_enqueue_all me W s1) as (? & Ei' & ? & ?). fold s' in H2, Hco.
  assert (F : frame s1 s') by (by split).
  assert (Est : forall x, state_of s' x = if decide (x ∈ W) then Some TASK_READY else state_of s x).
  { intros x. destruct (frame_obs _ _ F x) as (-> & _). unfold state_of, s1. rewrite lookup_mark_all.
    case_decide as Hin; [|done]. specialize (HW x Hin). unfold state_of in HW. by destruct (tasks s !! x). }
  assert (Hrq : forall x, x ∈ W \/ on_rq s x = true -> on_rq s' x = true).
  { intros x Hx. apply (on_rq_iff _ _ _ H2). destruct Hx as [Hx|[c Hc]%(on_rq_iff Q s x H)].
    - destruct (to_task _ Ht x) as (_ & _ & c & Hc & _).
      { specialize (HW x Hx). unfold state_of in HW. by destruct (tasks s !! x). }
      exists c. apply elem_of_app. right. apply list_elem_of_filter. split; [|done].
      unfold cpu_of, s1 in *. rewrite lookup_mark_all, decide_True by done. by destruct (tasks s !! x).
    - exists c. apply elem_of_app. by left. }
  split_and!; [split; [by eexists|by eapply tasks_ok_frame|]|by unfold s'; rewrite Ei'|done|].
  - intros x. rewrite Est, (fr_idle _ _ F), Ei. intros Hx Hni. apply Hrq. case_decide; [by left|right; by apply Hr].
  - intros x Hx. unfold is_scheduled in *. rewrite orb_true_iff, Est. destruct Hx as [Hx|[Hx|Hx]%orb_true_iff];
      [left; apply Hrq; tauto|left; apply Hrq; tauto|right].
    destruct (decide (x ∈ W)) as [Hin|]; [|done].
    apply bool_decide_eq_true_1 in Hx. specialize (HW x Hin). congruence.
Qed.

(** ** The walk over a bucket *)

Definition key_is (st : fstate) (key : Z) (w : nat) : bool :=
  match f_waiters st !! w with Some x => w_key x =? key | None => false end.
Definition task_of (st : fstate) (w : nat) : nat :=
  match f_waiters st !! w with Some x => w_task x | None => 0%nat end.
Definition is_blocked (st : fstate) (w : nat) : bool :=
  bool_decide (state_of (f_sched st) (task_of st w) = Some TASK_BLOCKED).
Definition mark_waiters (D : list nat) (m : gmap nat futex_waiter) : gmap nat futex_waiter :=
  foldl (fun m w => alter mark_removed w m) m D.

Lemma lookup_mark_waiters D : forall m w,
  mark_waiters D m !! w = if decide (w ∈ D) then mark_removed <$> m !! w else m !! w.
Proof.
  induction D as [|d D IH]; intros m w; cbn [mark_waiters foldl]; [done|]. fold (mark_waiters D (alter mark_removed d m)).
  rewrite IH. destruct (decide (w = d)) as [->|Hne].
  - rewrite lookup_alter_eq, (decide_True (P := d ∈ d :: D)) by left.
    destruct (decide (d ∈ D)); [|done]. by destruct (m !! d).
  - rewrite lookup_alter_ne by done. destruct (decide (w ∈ D)) as [Hin|Hin]; [by rewrite decide_True by (by right)|].
    by rewrite decide_False by (by intros [?|?]%elem_of_cons).
Qed.

(** What the walk has done when it has visited [l1]. *)
Definition removed_of (st : fstate) (key : Z) (l1 : list nat) : list nat := filter (fun w => key_is st key w = true) l1.
Definition kept_of (st : fstate) (key : Z) (l1 : list nat) : list nat := filter (fun w => key_is st key w = false) l1.
Definition woken_of (st : fstate) (key : Z) (l1 : list nat) : list nat :=
  task_of st <$> filter (fun w => is_blocked st w = true) (removed_of st key l1).
Definition visited (st : fstate) (key : Z) (l1 : list nat) : fstate :=
  mk_fstate (mark_all (woken_of st key l1) (f_sched st)) (f_buckets st)
    (mark_waiters (removed_of st key l1) (f_waiters st)).

(** The observations the walk makes of later waiters do not change. *)
Lemma visited_obs st key w x (l : list nat) :
  f_waiters st !! w = Some x -> w ∉ l -> (forall v, v ∈ l -> task_of st v <> w_task x) ->
  let st' := set_f_waiters (<[w := mark_removed x]> (f_waiters st)) st in
  forall b : bool, let st' := if b then set_f_sched (upd_task (w_task x) wake_mark (f_sched st')) st' else st' in
  forall v, v ∈ l -> key_is st' key v = key_is st key v /\ task_of st' v = task_of st v /\ is_blocked st' v = is_blocked st v.
Proof.
  intros Hw Hn Hd st1 b st' v Hv. assert (v <> w) by (by intros ->).
  assert (E : f_waiters st' !! v = f_waiters st !! v) by (destruct b; cbn; by rewrite lookup_insert_ne).
  assert (Et : task_of st' v = task_of st v) by (unfold task_of; by rewrite E).
  unfold key_is, is_blocked. rewrite Et, E. split_and!; [done|done|]. destruct b; [|done]. cbn.
  rewrite state_of_upd, decide_False; [done|]. by apply Hd.
Qed.

Lemma filter_obs st st' key (l1 : list nat) :
  (forall v, v ∈ l1 -> key_is st' key v = key_is st key v /\ task_of st' v = task_of st v /\ is_blocked st' v = is_blocked st v) ->
  removed_of st' key l1 = removed_of st key l1 /\ kept_of st' key l1 = kept_of st key l1 /\
  woken_of st' key l1 = woken_of st key l1.
Proof.
  intros H. unfold woken_of, removed_of, kept_of. induction l1 as [|v l1 IH]; [done|]. rewrite !filter_cons.
  destruct (H v ltac:(left)) as (-> & Et & Eb). destruct IH as (-> & -> & IH); [intros; apply H; by right|].
  split_and!; [done|done|]. destruct (key_is st key v); [|exact IH]. rewrite (decide_True (P := true = true)) by done.
  rewrite !filter_cons, Eb. destruct (is_blocked st v); [|exact IH]. cbn [fmap list_fmap].
  rewrite (decide_True (P := true = true)) by done. cbn [fmap list_fmap]. by rewrite Et, IH.
Qed.

Lemma insert_as_alter {A} (m : gmap nat A) w x f : m !! w = Some x -> <[w := f x]> m = alter f w m.
Proof.
  intros H. apply map_eq. intros v. destruct (decide (v = w)) as [->|].
  - by rewrite lookup_insert_eq, lookup_alter_eq, H.
  - by rewrite lookup_insert_ne, lookup_alter_ne.
Qed.

Lemma wake_scan_spec key nr (l : list nat) : forall wl n st,
  NoDup l -> (forall w, w ∈ l -> is_Some (f_waiters st !! w)) ->
  (forall v w, v ∈ l -> w ∈ l -> task_of st v = task_of st w -> v = w) ->
  exists l1 l2, l = l1 ++ l2 /\
    let W := woken_of st key l1 in
    wake_scan key nr l wl n st = (kept_of st key l1 ++ l2, wl ++ W, n + Z.of_nat (length W), visited st key l1) /\
    (n <= nr -> n + Z.of_nat (length W) <= nr) /\
    (Z.of_nat (length wl) <= MAX_DEFERRED_WAKE -> Z.of_nat (length wl + length W) <= MAX_DEFERRED_WAKE) /\
    (l2 = [] \/ nr <= n + Z.of_nat (length W) \/ MAX_DEFERRED_WAKE <= Z.of_nat (length wl + length W)).
Proof.
  induction l as [|w l IH]; intros wl n st Hnd Hex Hinj.
  { exists [], []. cbn. rewrite app_nil_r, Z.add_0_r, Nat.add_0_r. destruct st. split_and!; auto. }
  apply NoDup_cons in Hnd as [Hw Hnd]. cbn [wake_scan].
  destruct (_ && _) eqn:Elim.
  2: { exists [], (w :: l). cbn. rewrite app_nil_r, Z.add_0_r, Nat.add_0_r. destruct st. split_and!; try done.
       apply andb_false_iff in Elim as [E|E]; apply Z.ltb_ge in E; auto. }
  apply andb_true_iff in Elim as [Hn%Z.ltb_lt Hl%Z.ltb_lt]. destruct (Hex w ltac:(left)) as [x Hx]. rewrite Hx.
  assert (Hk : key_is st key w = (w_key x =? key)) by (unfold key_is; by rewrite Hx).
  assert (Ht : task_of st w = w_task x) by (unfold task_of; by rewrite Hx).
  assert (Hd : forall v, v ∈ l -> task_of st v <> w_task x).
  { intros v Hv E. apply Hw. assert (v = w) as <-; [|done]. apply Hinj; [by right|left|by rewrite Ht]. }
  destruct (w_key x =? key) eqn:Ek.
  2: { destruct (IH wl n st Hnd) as (l1 & l2 & -> & E & H1 & H2 & H3).
       { intros; apply Hex; by right. }
       { intros; apply Hinj; by right || done. }
       exists (w :: l1), l2. split; [done|].
       assert (Er : removed_of st key (w :: l1) = removed_of st key l1) by (unfold removed_of; by rewrite filter_cons, Hk).
       assert (Ekp : kept_of st key (w :: l1) = w :: kept_of st key l1) by (unfold kept_of; by rewrite filter_cons, Hk).
       unfold visited, woken_of in *. rewrite Er, Ekp, E. done. }
  cbn [set_f_waiters f_sched].
  assert (Hb : is_blocked st w = bool_decide (state_of (f_sched st) (w_task x) = Some TASK_BLOCKED)) by (unfold is_blocked; by rewrite Ht).
  set (st1 := set_f_waiters _ st).
  pose proof (visited_obs st key w x l Hx Hw Hd) as Hobs. cbv zeta in Hobs. fold st1 in Hobs.
  assert (Hdom : forall (b : bool) v, v ∈ l ->
    is_Some (f_waiters (if b then set_f_sched (upd_task (w_task x) wake_mark (f_sched st1)) st1 else st1) !! v)).
  { intros b v Hv. assert (v <> w) by (by intros ->). destruct b; cbn; rewrite lookup_insert_ne by done; apply Hex; by right. }
  destruct (bool_decide _) eqn:Eb.
  - specialize (Hobs true). specialize (Hdom true). cbn iota in Hobs, Hdom. set (st2 := set_f_sched _ st1) in *.
    destruct (IH (wl ++ [w_task x]) (n + 1) st2 Hnd Hdom) as (l1 & l2 & -> & E & H1 & H2 & H3).
    { intros v u Hv Hu. destruct (Hobs v Hv) as (_ & -> & _). destruct (Hobs u Hu) as (_ & -> & _). by apply Hinj; right. }
    exists (w :: l1), l2. split; [done|]. rewrite E. clear E.
    destruct (filter_obs st st2 key l1) as (Er & Ekp & Ew); [intros v Hv; apply Hobs; set_solver|].
    assert (EW : woken_of st key (w :: l1) = w_task x :: woken_of st2 key l1).
    { rewrite Ew. unfold woken_of, removed_of. rewrite filter_cons, Hk, decide_True, filter_cons, Hb, decide_True by done.
      cbn [fmap list_fmap]. by rewrite Ht. }
    rewrite EW. cbn [length]. rewrite length_app in H2, H3. cbn [length] in H2, H3. split_and!; try lia.
    + rewrite <- app_assoc. f_equal; [f_equal; [f_equal|lia]|].
      * rewrite Ekp. unfold kept_of. by rewrite filter_cons, Hk.
      * unfold visited. rewrite EW, Er. unfold removed_of at 2. rewrite filter_cons, Hk, decide_True by done.
        cbn [st2 st1 set_f_sched set_f_waiters f_sched f_buckets f_waiters]. by rewrite (insert_as_alter _ w x).
    + destruct H3 as [?|[?|?]]; [by left|right; left; lia|right; right; lia].
  - specialize (Hobs false). specialize (Hdom false). cbn iota in Hobs, Hdom.
    destruct (IH wl n st1 Hnd Hdom) as (l1 & l2 & -> & E & H1 & H2 & H3).
    { intros v u Hv Hu. destruct (Hobs v Hv) as (_ & -> & _). destruct (Hobs u Hu) as (_ & -> & _). by apply Hinj; right. }
    exists (w :: l1), l2. split; [done|]. rewrite E. clear E.
    destruct (filter_obs st st1 key l1) as (Er & Ekp & Ew); [intros v Hv; apply Hobs; set_solver|].
    assert (EW : woken_of st key (w :: l1) = woken_of st1 key l1).
    { rewrite Ew. unfold woken_of, removed_of. by rewrite filter_cons, Hk, decide_True, filter_cons, Hb by done. }
    rewrite EW. split_and!; try done. f_equal; [f_equal; f_equal|].
    + rewrite Ekp. unfold kept_of. by rewrite filter_cons, Hk.
    + unfold visited. rewrite EW, Er. unfold removed_of at 2. rewrite filter_cons, Hk, decide_True by done.
      cbn [st1 set_f_waiters f_sched f_buckets f_waiters]. by rewrite (insert_as_alter _ w x).
Qed.

(** ** A wake-up *)

(** The effect of a wake-up: the waiters [D] leave the table, those of them that
    are blocked belong to the tasks [W], which become READY and are enqueued. *)
Record wake_view (pml4 : nat -> Z) (key nr : Z) (st st' : fstate) (r : Z) (D W : list nat) : Prop := {
  wv_ok : futex_ok pml4 st';
  wv_count : r = Z.of_nat (length W) /\ r <= nr /\ r <= MAX_DEFERRED_WAKE;
  wv_nodup : NoDup W;
  wv_removed : forall w, w ∈ D -> exists x, f_waiters st !! w = Some x /\ w_key x = key /\ w_removed x = false;
  wv_woken : W = task_of st <$> filter (fun w => is_blocked st w = true) D;
  wv_waiters : f_waiters st' = mark_waiters D (f_waiters st);
  wv_all : r < nr -> r < MAX_DEFERRED_WAKE -> forall w x, f_waiters st !! w = Some x -> w_removed x = false -> w_key x = key -> w ∈ D;
  wv_idle : idle_tasks (f_sched st') = idle_tasks (f_sched st);
  wv_state : forall x, state_of (f_sched st') x = if decide (x ∈ W) then Some TASK_READY else state_of (f_sched st) x;
  wv_sched : forall x, x ∈ W \/ is_scheduled (f_sched st) x = true -> is_scheduled (f_sched st') x = true;
}.

Lemma elem_of_removed st key l w : w ∈ removed_of st key l <-> w ∈ l /\ key_is st key w = true.
Proof. unfold removed_of. rewrite list_elem_of_filter. tauto. Qed.

Lemma elem_of_kept st key l w : w ∈ kept_of st key l <-> w ∈ l /\ key_is st key w = false.
Proof. unfold kept_of. rewrite list_elem_of_filter. tauto. Qed.

Lemma mark_waiters_Some D m w x' :
  mark_waiters D m !! w = Some x' -> exists x, m !! w = Some x /\ w_uaddr x' = w_uaddr x /\ w_key x' = w_key x /\
    w_task x' = w_task x /\ w_removed x' = (if decide (w ∈ D) then true else w_removed x).
Proof.
  rewrite lookup_mark_waiters. case_decide; [|naive_solver]. destruct (m !! w) as [x|]; [|done]. intros [= <-]. by exists x.
Qed.

(** The table after a wake-up that visited [l1] of the bucket [l1 ++ l2]. *)
Lemma wake_table_ok pml4 st key l1 l2 s' :
  futex_ok pml4 st -> bucket st (bucket_idx key) = l1 ++ l2 -> sys_ok s' ->
  futex_ok pml4 (set_f_sched s' (set_bucket (bucket_idx key) (kept_of st key l1 ++ l2) (visited st key l1))).
Proof.
  intros [Hs Hlen Hnd Hl Hu Hk Ht] Hb Hs'. set (D := removed_of st key l1). set (b := bucket_idx key) in *.
  assert (Hbk : forall b', bucket (set_f_sched s' (set_bucket b (kept_of st key l1 ++ l2) (visited st key l1))) b' =
    if decide (b' = b) then kept_of st key l1 ++ l2 else bucket st b').
  { intros b'. change (bucket (set_f_sched s' ?u) b') with (bucket u b'). rewrite bucket_set; [done|].
    cbn. rewrite Hlen. apply bucket_idx_lt. }
  assert (HD : forall w, w ∈ D -> w ∈ bucket st b) by (intros w [? _]%elem_of_removed; rewrite Hb; set_solver).
  pose proof (Hnd b) as Hndb. rewrite Hb in Hndb. apply NoDup_app in Hndb as (Hn1 & Hn12 & Hn2).
  split; cbn [f_sched f_waiters set_f_sched set_bucket visited f_buckets]; try done.
  - by rewrite length_insert.
  - intros b'. rewrite Hbk. case_decide; [|done]. apply NoDup_app. split_and!; [by apply NoDup_filter| |done].
    intros w [? _]%elem_of_kept. by apply Hn12.
  - intros b' w. rewrite Hbk, lookup_mark_waiters. fold D. case_decide as Eb.
    + intros Hin. assert (Hin' : w ∈ bucket st b) by (rewrite Hb; rewrite elem_of_app, elem_of_kept in Hin; set_solver).
      rewrite decide_False; [subst b'; by apply Hl|]. unfold D. rewrite elem_of_removed. intros [Hw1 Hkt].
      apply elem_of_app in Hin as [[_ ?]%elem_of_kept|?]; [congruence|]. by apply (Hn12 w).
    + intros Hin. rewrite decide_False; [by apply Hl|]. intros Hin'%HD.
      destruct (Hl _ _ Hin) as (x & Hx & E1 & _), (Hl _ _ Hin') as (x' & Hx' & E2 & _). congruence.
  - intros w x' (x & Hx & _ & -> & _ & ->)%mark_waiters_Some. fold D. case_decide as Hw; [done|]. intros Hr.
    specialize (Hu w x Hx Hr). rewrite Hbk. case_decide as Eb; [|done]. rewrite Eb, Hb in Hu.
    apply elem_of_app. apply elem_of_app in Hu as [Hw1|?]; [left|by right]. apply elem_of_kept. split; [done|].
    apply not_true_iff_false. intros Hkt. apply Hw. by apply elem_of_removed.
  - intros w x' (x & Hx & -> & -> & -> & _)%mark_waiters_Some. by eapply Hk.
  - intros w w' x1' x2' (x1 & Hx1 & _ & _ & -> & _)%mark_waiters_Some (x2 & Hx2 & _ & _ & -> & _)%mark_waiters_Some. by eapply Ht.
Qed.

Lemma futex_wake_key_ok pml4 me key nr st :
  futex_ok pml4 st -> 0 < nr ->
  exists D W, wake_view pml4 key nr st (futex_wake_key me key nr st).1 (futex_wake_key me key nr st).2 D W.
Proof.
  intros Hok Hnr. unfold futex_wake_key. rewrite (proj2 (Z.leb_gt _ _)) by done. set (b := bucket_idx key).
  pose proof Hok as [Hs Hlen Hnd Hl Hu Hk Ht].
  assert (Hlk : forall w, w ∈ bucket st b -> exists x, f_waiters st !! w = Some x /\ task_of st w = w_task x /\
    key_is st key w = (w_key x =? key) /\ w_removed x = false).
  { intros w Hw. destruct (Hl _ _ Hw) as (x & Hx & _ & Hr). exists x. unfold task_of, key_is. by rewrite Hx. }
  assert (Hinj : forall v w, v ∈ bucket st b -> w ∈ bucket st b -> task_of st v = task_of st w -> v = w).
  { intros v w Hv Hw. destruct (Hlk v Hv) as (x & Hx & -> & _), (Hlk w Hw) as (y & Hy & -> & _). by apply (Ht v w x y). }
  destruct (wake_scan_spec key nr (bucket st b) [] 0 st) as (l1 & l2 & El & E & H1 & H2 & H3); [done| |done|].
  { intros w Hw. destruct (Hlk w Hw) as (x & Hx & _). by exists x. }
  rewrite E. clear E. cbn [app fst snd length Nat.add] in *. set (W := woken_of st key l1) in *. rewrite Z.add_0_l in *.
  assert (HD : forall w, w ∈ removed_of st key l1 -> w ∈ bucket st b) by (intros w [? _]%elem_of_removed; rewrite El; set_solver).
  assert (HndW : NoDup W).
  { apply NoDup_fmap_2_strong; [|apply NoDup_filter, NoDup_filter; specialize (Hnd b); rewrite El in Hnd; by apply NoDup_app in Hnd as [? _]].
    intros v w [_ Hv%HD]%list_elem_of_filter [_ Hw%HD]%list_elem_of_filter. by apply Hinj. }
  assert (HWb : forall t, t ∈ W -> state_of (f_sched st) t = Some TASK_BLOCKED).
  { intros t (w & -> & [Hb _]%list_elem_of_filter)%list_elem_of_fmap. by apply bool_decide_eq_true_1 in Hb. }
  destruct (wake_all_ok me W (f_sched st) Hs HndW HWb) as (Hs' & Hid & Hst & Hsc).
  exists (removed_of st key l1), W. split; cbn [f_sched f_waiters set_f_sched set_bucket visited]; try done.
  - by apply wake_table_ok.
  - split_and!; [done|apply H1; lia|apply H2; done].
  - intros w Hw. pose proof Hw as [_ Hkt]%elem_of_removed. destruct (Hlk w (HD w Hw)) as (x & Hx & _ & Hkx & Hr).
    exists x. split_and!; [done| |done]. rewrite Hkx in Hkt. by apply Z.eqb_eq.
  - intros Hlt1 Hlt2 w x Hx Hr Hkx. destruct H3 as [->|[?|?]]; [|lia|lia].
    apply elem_of_removed. specialize (Hu w x Hx Hr). rewrite Hkx in Hu. fold b in Hu. rewrite El, app_nil_r in Hu.
    split; [done|]. unfold key_is. rewrite Hx. by apply Z.eqb_eq.
Qed.

(** ** Going to sleep, coming back, being interrupted *)

Section Protocol.
Variable pml4 : nat -> Z.
Variable channel : Z -> nat.

Lemma futex_block_ok s t ch tick :
  sys_ok s -> is_executing s t = true ->
  let s' := upd_task t (fun tk => set_wait (Some ch) (tick tk) (set_state TASK_BLOCKED tk)) s in
  sys_ok s' /\ (forall x, state_of s' x = if decide (x = t) then Some TASK_BLOCKED else state_of s x) /\
  (forall x, x <> t -> is_scheduled s' x = is_scheduled s x).
Proof.
  intros [[Q H] Ht Hr] [Hst Hni]%is_executing_spec s'.
  set (f := fun tk => set_wait (Some ch) (tick tk) (set_state TASK_BLOCKED tk)) in s'.
  assert (Hoff : on_rq s t = false) by (by eapply off_queue).
  assert (Est : forall x, state_of s' x = if decide (x = t) then Some TASK_BLOCKED else state_of s x).
  { intros x. unfold s'. rewrite state_of_upd. case_decide; [subst x|done]. unfold state_of in Hst. by destruct (tasks s !! t). }
  assert (Erq : forall x, on_rq s' x = on_rq s x) by (intros x; by apply on_rq_upd_keep).
  split_and!; [split|done|].
  - exists Q. by apply rq_ok_upd_off.
  - apply (tasks_ok_upd s t f ltac:(done) TASK_BLOCKED); [done|done|]. by right; left.
  - intros x. rewrite Erq, Est. case_decide; [done|apply Hr].
  - intros x Hx. unfold is_scheduled. by rewrite Erq, Est, decide_False.
Qed.

Lemma futex_wait_begin_ok st t w a v timeout now :
  futex_ok pml4 st -> is_executing (f_sched st) t = true -> f_waiters st !! w = None -> ~ in_futex_wait st t ->
  exists st', futex_wait_begin pml4 channel t (Some w) a v v timeout now st = (st', None) /\ futex_ok pml4 st' /\
    f_waiters st' = <[w := mk_waiter a (futex_get_key pml4 (Some t) a) t 0xFFFFFFFF false]> (f_waiters st) /\
    (forall x, state_of (f_sched st') x = if decide (x = t) then Some TASK_BLOCKED else state_of (f_sched st) x) /\
    (forall x, x <> t -> is_scheduled (f_sched st') x = is_scheduled (f_sched st) x).
Proof.
  intros [Hs Hlen Hnd Hl Hu Hk Ht] Hex Hw Hin. unfold futex_wait_begin. rewrite Z.eqb_refl. cbn [negb].
  set (key := futex_get_key pml4 (Some t) a). set (b := bucket_idx key).
  set (st1 := set_bucket b _ _). eexists. split; [reflexivity|].
  destruct (futex_block_ok (f_sched st) t (channel a)
    (fun tk => if 0 <? timeout then u64 (now + u64 (timeout / 10000000 + 1)) else t_wakeup_tick tk) Hs Hex) as (Hs' & Hst & Hsc).
  assert (Hnl : forall b', w ∉ bucket st b') by (intros b' (x & Hx & _)%Hl; congruence).
  assert (Hbk : forall b', bucket st1 b' = if decide (b' = b) then w :: bucket st b else bucket st b').
  { intros b'. unfold st1. rewrite bucket_set; [done|]. cbn. rewrite Hlen. apply bucket_idx_lt. }
  split_and!; [split; cbn [f_sched f_waiters set_f_sched st1 set_bucket set_f_waiters f_buckets]| | |]; try done.
  - by rewrite length_insert.
  - intros b'. change (NoDup (bucket st1 b')). rewrite Hbk. case_decide; [|done]. by constructor.
  - intros b' w'. change (w' ∈ bucket st1 b' -> exists x, <[w := mk_waiter a key t 0xFFFFFFFF false]> (f_waiters st) !! w' = Some x /\
      bucket_idx (w_key x) = b' /\ w_removed x = false).
    rewrite Hbk. destruct (decide (w' = w)) as [->|Hne].
    + rewrite lookup_insert_eq. case_decide as Eb; [|intros Hx; by apply Hnl in Hx]. intros _. by eexists.
    + rewrite lookup_insert_ne by done. case_decide as Eb; [|by apply Hl]. subst b'.
      intros [?|Hx]%elem_of_cons; [done|by apply Hl].
  - intros w' x'. change (bucket (set_f_sched ?u st1)) with (bucket st1). rewrite Hbk.
    intros [[<- <-]|[Hne Hx]]%lookup_insert_Some Hr; [rewrite decide_True by done; left|].
    specialize (Hu w' x' Hx Hr). case_decide as Eb; [|done]. right. by rewrite <- Eb.
  - intros w' x' [[<- <-]|[Hne Hx]]%lookup_insert_Some; [done|by eapply Hk].
  - intros w1 w2 x1 x2 [[<- <-]|[Hne1 Hx1]]%lookup_insert_Some [[<- <-]|[Hne2 Hx2]]%lookup_insert_Some E; [done| | |by eapply Ht].
    + exfalso. apply Hin. by exists w2, x2.
    + exfalso. apply Hin. by exists w1, x1.
Qed.

Lemma futex_wait_end_ok st w x :
  futex_ok pml4 st -> f_waiters st !! w = Some x ->
  exists st', futex_wait_end w (bucket_idx (w_key x)) st = (st', if w_removed x then 0 else - ETIMEDOUT) /\
    futex_ok pml4 st' /\ f_waiters st' = delete w (f_waiters st) /\ f_sched st' = f_sched st.
Proof.
  intros Hok Hx. unfold futex_wait_end. rewrite Hx. eexists. split; [reflexivity|].
  pose proof Hok as [Hs Hlen Hnd Hl Hu Hk Ht]. set (b := bucket_idx (w_key x)).
  set (st1 := if negb (w_removed x) then _ else _).
  assert (Ew : f_waiters st1 = f_waiters st /\ f_sched st1 = f_sched st /\ length (f_buckets st1) = length (f_buckets st)).
  { unfold st1. destruct (w_removed x); [done|]. cbn. by rewrite length_insert. }
  destruct Ew as (Ew & Es & El).
  assert (Hbk : forall b' w', w' ∈ bucket st1 b' <-> w' ∈ bucket st b' /\ w' <> w).
  { intros b' w'. assert (Hself : w ∈ bucket st b' -> w_removed x = false /\ b' = b).
    { intros (y & Hy & E & Hr)%Hl. rewrite Hx in Hy. injection Hy as <-. done. }
    unfold st1. destruct (w_removed x) eqn:Er; cbn [negb].
    - split; [|tauto]. intros Hin. split; [done|]. intros ->. by destruct (Hself Hin).
    - rewrite bucket_set by (rewrite Hlen; apply bucket_idx_lt). case_decide as Eb.
      + subst b'. by rewrite elem_of_remove_one.
      + split; [|tauto]. intros Hin. split; [done|]. intros ->. by destruct (Hself Hin). }
  split_and!; [split; cbn [f_sched f_waiters set_f_waiters f_buckets]| |]; rewrite ?Ew, ?Es, ?El; try done.
  - intros b'. change (NoDup (bucket st1 b')). unfold st1. destruct (w_removed x); [done|]. cbn [negb].
    rewrite bucket_set by (rewrite Hlen; apply bucket_idx_lt). case_decide; [by apply NoDup_remove_one|done].
  - intros b' w'. change (w' ∈ bucket st1 b' -> exists y, delete w (f_waiters st) !! w' = Some y /\
      bucket_idx (w_key y) = b' /\ w_removed y = false).
    rewrite Hbk. intros [Hin Hne]. rewrite lookup_delete_ne by done. by apply Hl.
  - intros w' y [Hne Hy]%lookup_delete_Some Hr. change (w' ∈ bucket st1 (bucket_idx (w_key y))).
    apply Hbk. split; [by apply Hu|done].
  - intros w' y [_ Hy]%lookup_delete_Some. by eapply Hk.
  - intros w1 w2 x1 x2 [_ H1]%lookup_delete_Some [_ H2]%lookup_delete_Some. by eapply Ht.
Qed.

End Protocol.

(** ** The functions as a whole *)


(** The links left to visit and the requeues left bound the loop. *)
Lemma requeue_loop_enough channel key1 key2 uaddr2 nr_wake nr_requeue same fuel : forall r,
  (length (rl_rest r) + Z.to_nat (nr_requeue - rl_requeued r) <= fuel)%nat ->
  exists r', requeue_loop channel fuel key1 key2 uaddr2 nr_wake nr_requeue same r = Some r' /\ rl_rest r' = [].
Proof.
  induction fuel as [|fuel IH]; intros r Hf; unfold requeue_loop; fold requeue_loop.
  - destruct (rl_rest r) eqn:E; [by exists r|]. cbn in Hf. lia.
  - destruct (rl_rest r) as [|w l] eqn:E; [by exists r|]. apply IH. unfold requeue_step. rewrite E.
    destruct (f_waiters (rl_st r) !! w) as [x|]; [|cbn in *; lia]. destruct (w_key x =? key1); [|cbn in *; lia].
    destruct (_ && _); [destruct (bool_decide _); cbn in *; lia|]. destruct (Z.ltb_spec (rl_requeued r) nr_requeue); [|cbn in *; lia].
    destruct same; [destruct (rl_pre r)|]; cbn in *; lia.
Qed.

Lemma requeue_loop_count channel key1 key2 uaddr2 nr_wake nr_requeue same fuel : forall r r',
  0 <= rl_woken r <= nr_wake -> 0 <= rl_requeued r <= nr_requeue ->
  requeue_loop channel fuel key1 key2 uaddr2 nr_wake nr_requeue same r = Some r' ->
  0 <= rl_woken r' <= nr_wake /\ 0 <= rl_requeued r' <= nr_requeue.
Proof.
  induction fuel as [|fuel IH]; intros r r' Hw Hq; unfold requeue_loop; fold requeue_loop.
  - destruct (rl_rest r) eqn:E; [by intros [= <-]|done].
  - destruct (rl_rest r) as [|w l] eqn:E; [by intros [= <-]|]. apply IH; unfold requeue_step; rewrite E;
      (destruct (f_waiters (rl_st r) !! w) as [x|]; [|done]); (destruct (w_key x =? key1); [|done]);
      (destruct (_ && _) eqn:El; [destruct (bool_decide _); cbn; lia|]);
      (destruct (Z.ltb_spec (rl_requeued r) nr_requeue); [|done]); (destruct same; [destruct (rl_pre r)|]; cbn; lia).
Qed.


(** ** Behaviours outside the contract *)

(** The key does not identify the process: two processes can share a key for
    different addresses, so that a wake-up of one takes a waiter of the other. *)
Lemma futex_keys_collide :
  let pml4 t := if (t =? 1)%nat then 0xFFFF800000001000 else 0xFFFF800000003000 in
  pml4 1%nat <> pml4 2%nat /\
  futex_get_key pml4 (Some 1%nat) 0x604000 = futex_get_key pml4 (Some 2%nat) 0x606000.
Proof. split; [discriminate|reflexivity]. Qed.

(** A waiter that was requeued and then times out is freed while it is still on
    the list of the second futex. *)
Definition demo_requeued : option fstate :=
  let pml4 := fun _ => 0 in
  let st := (futex_wait_begin pml4 Z.to_nat 1 (Some 7%nat) 1 0 0 0 0 (futex_init demo_smp)).1 in
  '(st, _) ← futex_requeue pml4 Z.to_nat 2 1 (Some 2%nat) 1 2 0 1 st;
  let st := set_f_sched (sched_wake_task 0 (f_sched st) 1) st in
  Some (futex_wait_end 7 (bucket_idx (futex_get_key pml4 (Some 1%nat) 1)) st).1.

Lemma futex_requeue_dangles :
  exists st b, demo_requeued = Some st /\ 7%nat ∈ bucket st b /\ f_waiters st !! 7%nat = None.
Proof. eexists _, (bucket_idx 2). split; [vm_compute; reflexivity|]. split; [vm_compute; left|reflexivity]. Qed.

(** ** Witnesses *)

(** The table [futex_init] leaves, with the invariant. *)
Lemma bucket_init s b : bucket (futex_init s) b = [].
Proof.
  unfold bucket, futex_init. cbn [f_buckets]. destruct (_ !! b) as [l|] eqn:E; [|done].
  apply lookup_replicate_1 in E as [-> _]. done.
Qed.

Lemma no_waiters s w x : f_waiters (futex_init s) !! w = Some x -> False.
Proof. cbn. by intros ?%lookup_empty_Some. Qed.

Lemma futex_init_ok pml4 s : sys_ok s -> futex_ok pml4 (futex_init s).
Proof.
  intros Hs. split; [done|apply length_replicate|..].
  - intros b. rewrite bucket_init. constructor.
  - intros b w Hw. rewrite bucket_init in Hw. by apply not_elem_of_nil in Hw.
  - intros w x Hx. by apply no_waiters in Hx.
  - intros w x Hx. by apply no_waiters in Hx.
  - intros w w' x x' Hx. by apply no_waiters in Hx.
Qed.

Lemma demo_waiting : exists st, futex_ok (fun _ => 0) st /\ waiting st 1 1 /\ exists w x, waiter_of st 1 w x /\ w_key x = 1 /\ w_removed x = false.
Proof.
  destruct (futex_wait_begin_ok (fun _ => 0) Z.to_nat (futex_init demo_smp) 1 7 1 0 0 0) as (st & _ & Hok & Hws & Hst & _).
  - apply futex_init_ok, demo_smp_ok.
  - reflexivity.
  - reflexivity.
  - by intros (w & x & Hx%no_waiters & _).
  - exists st. assert (Hw : waiter_of st 1 7 (mk_waiter 1 1 1 0xFFFFFFFF false)) by (split; [by rewrite Hws, lookup_insert_eq|done]).
    split_and!; [done| |].
    + exists 7%nat, (mk_waiter 1 1 1 0xFFFFFFFF false). split_and!; done.
    + by exists 7%nat, (mk_waiter 1 1 1 0xFFFFFFFF false).
Qed.


