(* ===== verification/Threads.v ===== *)
(** * Threads that synchronise through futexes

    [FutexOps] names what a thread can do and observe through the futex system
    call, [FutexLaws] states what it may rely on; the instance shows that the
    table of the file Futex keeps the promise for the threads of one process.
    Above the interface, [program] describes the code of a synchronisation
    object as small steps over its shared memory, one access per step, and [step]
    interleaves the threads that run it with the kernel's side. *)

From Stdlib Require Import ZArith Lia Bool.
From stdpp Require Import base list gmap.
From S2P Require Import Prelude Chain Sched Wait Futex.

Open Scope Z_scope.

Definition EPERM : Z := 1.
Definition EBUSY : Z := 16.
Definition EDEADLK : Z := 35.
Definition EOWNERDEAD : Z := 130.
Definition INT_MAX : Z := 0x7FFFFFFF.

(** ** The interface *)

Class FutexOps (K : Type) := {
  fx_running : K -> nat -> bool;               (* the thread executes on a CPU *)
  fx_scheduled : K -> nat -> bool;             (* it executes or is on a run queue *)
  fx_inside : K -> nat -> Prop;                (* it is inside [futex_wait] *)
  fx_asleep : K -> nat -> Z -> Prop;           (* it is blocked there, on this word *)
  fx_chosen : K -> nat -> Prop;                (* a wake-up has chosen it *)
  fx_sleep : nat -> Z -> K -> K -> Prop;       (* [futex_wait] blocks the thread *)
  fx_return : nat -> K -> Z -> K -> Prop;      (* [futex_wait] returns *)
  fx_wake : nat -> Z -> Z -> K -> K -> Prop;   (* [futex_wake] *)
  fx_interrupt : nat -> K -> K -> Prop;        (* a signal or the timer wakes the thread *)
  fx_schedule : K -> K -> Prop;                (* a CPU runs the scheduler *)
}.

(** Two states with the same threads in the same places. *)
Definition fx_same {K : Type} `{FutexOps K} (k k' : K) : Prop :=
  (forall x, fx_inside k' x <-> fx_inside k x) /\ (forall x, fx_scheduled k x = true -> fx_scheduled k' x = true).

Class FutexLaws (K : Type) `{FutexOps K} := {
  fx_ok : K -> Prop;
  fx_limit : Z;
  fx_limit_pos : 0 < fx_limit;
  running_awake : forall k t, fx_ok k -> fx_running k t = true -> fx_scheduled k t = true /\ forall a, ~ fx_asleep k t a;
  asleep_inside : forall k t a, fx_ok k -> fx_asleep k t a -> fx_inside k t /\ ~ fx_chosen k t;
  chosen_inside : forall k t, fx_chosen k t -> fx_inside k t;
  inside_scheduled : forall k t, fx_ok k -> fx_inside k t -> (forall a, ~ fx_asleep k t a) -> fx_scheduled k t = true;
  asleep_word : forall k t a b, fx_ok k -> fx_asleep k t a -> fx_asleep k t b -> a = b;
  sleep_law : forall k t a k', fx_ok k -> fx_running k t = true -> ~ fx_inside k t -> fx_sleep t a k k' ->
    fx_ok k' /\ (forall x, fx_inside k' x <-> x = t \/ fx_inside k x) /\
    (forall x b, fx_asleep k' x b <-> (x = t /\ b = a) \/ (x <> t /\ fx_asleep k x b)) /\
    (forall x, fx_chosen k' x <-> fx_chosen k x) /\
    (forall x, x <> t -> fx_scheduled k x = true -> fx_scheduled k' x = true);
  sleep_total : forall k t a, fx_ok k -> fx_running k t = true -> ~ fx_inside k t -> exists k', fx_sleep t a k k';
  return_law : forall k t r k', fx_ok k -> fx_running k t = true -> fx_return t k r k' ->
    fx_ok k' /\ fx_inside k t /\ (forall x, fx_inside k' x <-> x <> t /\ fx_inside k x) /\
    (forall x b, fx_asleep k' x b <-> fx_asleep k x b) /\
    (forall x, fx_chosen k' x <-> x <> t /\ fx_chosen k x) /\
    (forall x, fx_scheduled k x = true -> fx_scheduled k' x = true) /\
    ((r = 0 /\ fx_chosen k t) \/ (r = - ETIMEDOUT /\ ~ fx_chosen k t));
  return_total : forall k t, fx_ok k -> fx_running k t = true -> fx_inside k t -> exists r k', fx_return t k r k';
  wake_law : forall k t a n k', fx_ok k -> fx_running k t = true -> 0 < n -> fx_wake t a n k k' ->
    fx_ok k' /\ fx_same k k' /\ exists W : list nat,
      NoDup W /\ (forall x, x ∈ W -> fx_asleep k x a) /\ Z.of_nat (length W) <= n /\
      (Z.of_nat (length W) < Z.min n fx_limit -> forall x, fx_asleep k x a -> x ∈ W) /\
      (forall x b, fx_asleep k' x b <-> fx_asleep k x b /\ x ∉ W) /\
      (forall x, x ∈ W \/ fx_chosen k x -> fx_chosen k' x);
  wake_total : forall k t a n, exists k', fx_wake t a n k k';
  interrupt_law : forall k t k', fx_ok k -> fx_interrupt t k k' ->
    fx_ok k' /\ fx_same k k' /\ (forall x b, fx_asleep k' x b <-> x <> t /\ fx_asleep k x b) /\
    (forall x, fx_chosen k' x <-> fx_chosen k x);
  schedule_law : forall k k', fx_ok k -> fx_schedule k k' ->
    fx_ok k' /\ fx_same k k' /\ (forall x b, fx_asleep k' x b <-> fx_asleep k x b) /\
    (forall x, fx_chosen k' x <-> fx_chosen k x);
}.

(** ** The kernel's side, for the threads of a process whose page table is at [p] *)

Section Kernel.
Variable p : Z.
Variable channel : Z -> nat.
Let pml4 (_ : nat) : Z := p.

Definition futex_ops : FutexOps fstate := {|
  fx_running := fun k t => is_executing (f_sched k) t;
  fx_scheduled := fun k t => is_scheduled (f_sched k) t;
  fx_inside := in_futex_wait;
  fx_asleep := waiting;
  fx_chosen := chosen;
  fx_sleep := fun t a k k' => exists w v timeout now, f_waiters k !! w = None /\
    futex_wait_begin pml4 channel t (Some w) a v v timeout now k = (k', None);
  fx_return := fun t k r k' => exists w x, waiter_of k t w x /\ futex_wait_end w (bucket_idx (w_key x)) k = (k', r);
  fx_wake := fun t a n k k' => exists me, (futex_wake pml4 me (Some t) a n k).1 = k';
  fx_interrupt := fun t k k' => exists me, k' = set_f_sched (sched_wake_task me (f_sched k) t) k;
  fx_schedule := fun k k' => exists c, k' = set_f_sched (sched_schedule (f_sched k) c).1 k;
|}.

(** A waiting thread is a user thread that runs, is ready or sleeps, and sleeps
    only until a wake-up chooses it. *)
Record threads_ok (k : fstate) : Prop := {
  th_futex : futex_ok pml4 k;
  th_state : forall w x, f_waiters k !! w = Some x -> w_task x ∉ idle_tasks (f_sched k) /\
    (state_of (f_sched k) (w_task x) = Some TASK_READY \/ state_of (f_sched k) (w_task x) = Some TASK_RUNNING \/
     (state_of (f_sched k) (w_task x) = Some TASK_BLOCKED /\ w_removed x = false));
}.

Lemma same_key t t' a b : futex_get_key pml4 (Some t) a = futex_get_key pml4 (Some t') b -> a = b.
Proof.
  unfold futex_get_key, futex_get_key_for_task, pml4. intros E.
  apply (f_equal (Z.lxor p)) in E. by rewrite <- !Z.lxor_assoc, !Z.lxor_nilpotent, !Z.lxor_0_l in E.
Qed.

Lemma waiter_unique k t w w' x x' : futex_ok pml4 k -> waiter_of k t w x -> waiter_of k t w' x' -> w = w' /\ x = x'.
Proof.
  intros Hok [Hx E] [Hx' E']. assert (w = w') as <- by (eapply (fo_task _ _ Hok); [done|done|congruence]).
  split; [done|congruence].
Qed.

Lemma waiting_of k t w x a :
  futex_ok pml4 k -> waiter_of k t w x ->
  waiting k t a <-> w_uaddr x = a /\ w_removed x = false /\ state_of (f_sched k) t = Some TASK_BLOCKED.
Proof.
  intros Hok Hw. split; [|intros; by exists w, x]. intros (w' & x' & Hw' & H).
  by destruct (waiter_unique k t w w' x x' Hok Hw Hw') as [<- <-].
Qed.

Lemma chosen_of k t w x : futex_ok pml4 k -> waiter_of k t w x -> chosen k t <-> w_removed x = true.
Proof.
  intros Hok Hw. split; [|intros; by exists w, x]. intros (w' & x' & Hw' & H).
  by destruct (waiter_unique k t w w' x x' Hok Hw Hw') as [<- <-].
Qed.

Lemma k_running_awake k t :
  threads_ok k -> is_executing (f_sched k) t = true -> is_scheduled (f_sched k) t = true /\ forall a, ~ waiting k t a.
Proof.
  intros Hok [Hst _]%is_executing_spec. split.
  - unfold is_scheduled. rewrite Hst. by rewrite bool_decide_true, orb_true_r.
  - intros a (w & x & _ & _ & _ & Hb). congruence.
Qed.

Lemma k_inside_scheduled k t :
  threads_ok k -> in_futex_wait k t -> (forall a, ~ waiting k t a) -> is_scheduled (f_sched k) t = true.
Proof.
  intros [Hok Hst] (w & x & Hw) Hn. destruct (Hst w x (proj1 Hw)) as [Hi Hc]. destruct Hw as [Hx <-].
  unfold is_scheduled. destruct Hc as [Hr|[Hr|[Hb Hr]]].
  - by rewrite (so_ready _ (fo_sched _ _ Hok) _ Hr Hi).
  - by rewrite Hr, orb_true_r.
  - exfalso. apply (Hn (w_uaddr x)). by exists w, x.
Qed.

Lemma k_sleep_law k t a k' :
  threads_ok k -> is_executing (f_sched k) t = true -> ~ in_futex_wait k t -> @fx_sleep _ futex_ops t a k k' ->
  threads_ok k' /\ (forall x, in_futex_wait k' x <-> x = t \/ in_futex_wait k x) /\
  (forall x b, waiting k' x b <-> (x = t /\ b = a) \/ (x <> t /\ waiting k x b)) /\
  (forall x, chosen k' x <-> chosen k x) /\
  (forall x, x <> t -> is_scheduled (f_sched k) x = true -> is_scheduled (f_sched k') x = true).
Proof.
  intros [Hok Hst] Hex Hin (w & v & timeout & now & Hw & E).
  destruct (futex_wait_begin_ok pml4 channel k t w a v timeout now Hok Hex Hw Hin) as (k1 & E1 & Hok' & Hws & Hst' & Hsc).
  rewrite E in E1. injection E1 as <-. pose proof Hex as [_ Hni]%is_executing_spec.
  set (x0 := mk_waiter _ _ _ _ _) in Hws.
  assert (Hid : idle_tasks (f_sched k') = idle_tasks (f_sched k)).
  { revert E. unfold futex_wait_begin. rewrite Z.eqb_refl. cbn [negb]. by intros [= <-]. }
  assert (Hold : forall y w' x', waiter_of k' y w' x' <-> (y = t /\ w' = w /\ x' = x0) \/ (y <> t /\ waiter_of k y w' x')).
  { intros y w' x'. unfold waiter_of. rewrite Hws, lookup_insert_Some. split.
    - intros [[[-> <-]|[Hne Hx]] <-]; [by left|right]. split; [|done]. intros Et. apply Hin. by exists w', x'.
    - intros [(-> & -> & ->)|(Hne & Hx & <-)]; [by split; [left|]|]. split; [right; split; [|done]|done]. congruence. }
  split_and!.
  - split; [done|]. intros w' x' Hx'. rewrite Hid, Hst'. destruct (proj1 (Hold (w_task x') w' x')) as [(-> & -> & ->)|(Hne & Hx & _)];
      [by split| |].
    + split; [done|]. rewrite decide_True by done. auto.
    + rewrite decide_False by done. by apply (Hst w').
  - intros y. unfold in_futex_wait. setoid_rewrite Hold. split.
    + intros (w' & x' & [(-> & _)|[_ Hx']]); [by left|right; by exists w', x'].
    + destruct (decide (y = t)) as [->|]; [intros _; exists w, x0; by left|].
      intros [?|(w' & x' & Hx')]; [done|]. exists w', x'. by right.
  - intros y b. unfold waiting. setoid_rewrite Hold. rewrite Hst'. split.
    + intros (w' & x' & [(-> & _ & ->)|[Hne Hx']] & <- & Hr); [by left|right]. rewrite decide_False in Hr by done.
      split; [done|]. by exists w', x'.
    + intros [[-> ->]|(Hne & w' & x' & Hx' & Ha & Hr)].
      * rewrite decide_True by done. exists w, x0. split; [by left|done].
      * rewrite decide_False by done. exists w', x'. split; [by right|done].
  - intros y. unfold chosen. setoid_rewrite Hold. split.
    + intros (w' & x' & [(_ & _ & ->)|[_ Hx']] & Hr); [done|by exists w', x'].
    + intros (w' & x' & Hx' & Hr). exists w', x'. split; [right; split; [|done]|done]. intros ->. apply Hin. by exists w', x'.
  - intros y Hy. by rewrite Hsc.
Qed.

Lemma k_sleep_total k t a :
  threads_ok k -> is_executing (f_sched k) t = true -> ~ in_futex_wait k t -> exists k', @fx_sleep _ futex_ops t a k k'.
Proof.
  intros [Hok _] Hex Hin. destruct (exist_fresh (dom (f_waiters k))) as [w Hw]. apply not_elem_of_dom in Hw.
  destruct (futex_wait_begin_ok pml4 channel k t w a 0 0 0 Hok Hex Hw Hin) as (k' & E & _).
  exists k', w, 0, 0, 0. done.
Qed.

Lemma k_return_law k t r k' :
  threads_ok k -> is_executing (f_sched k) t = true -> @fx_return _ futex_ops t k r k' ->
  threads_ok k' /\ in_futex_wait k t /\ (forall x, in_futex_wait k' x <-> x <> t /\ in_futex_wait k x) /\
  (forall x b, waiting k' x b <-> waiting k x b) /\ (forall x, chosen k' x <-> x <> t /\ chosen k x) /\
  (forall x, is_scheduled (f_sched k) x = true -> is_scheduled (f_sched k') x = true) /\
  ((r = 0 /\ chosen k t) \/ (r = - ETIMEDOUT /\ ~ chosen k t)).
Proof.
  intros [Hok Hst] Hex (w & x & Hw & E).
  destruct (futex_wait_end_ok pml4 k w x Hok (proj1 Hw)) as (k1 & E1 & Hok' & Hws & Hs). rewrite E1 in E. injection E as <- <-.
  assert (Hold : forall y w' x', waiter_of k1 y w' x' <-> y <> t /\ waiter_of k y w' x').
  { intros y w' x'. pose proof Hw as [Hx Et]. unfold waiter_of. rewrite Hws, lookup_delete_Some. split.
    - intros [[Hne Hx'] Ey]. split; [|done]. intros ->. apply Hne. symmetry.
      by apply (waiter_unique k t w' w x' x Hok); split.
    - intros (Hne & Hx' & Ey). split; [split; [|done]|done]. intros ->. apply Hne. congruence. }
  pose proof (k_running_awake k t ltac:(by split) Hex) as [_ Hna].
  split_and!.
  - split; [done|]. intros w' x' Hx'. rewrite Hs. apply (Hst w'). by apply (Hold (w_task x') w' x').
  - by exists w, x.
  - intros y. unfold in_futex_wait. setoid_rewrite Hold. split; [intros (? & ? & ? & ?)|intros (? & ? & ? & ?)]; eauto.
  - intros y b. split.
    + intros (w' & x' & [Hne Hx']%Hold & Hr). rewrite Hs in Hr. by exists w', x'.
    + intros Hb. assert (y <> t) by (intros ->; by eapply Hna). destruct Hb as (w' & x' & Hx' & Hr). exists w', x'.
      rewrite Hs. split; [by apply Hold|done].
  - intros y. unfold chosen. setoid_rewrite Hold. split; [intros (? & ? & [? ?] & ?)|intros (? & ? & ? & ? & ?)]; eauto 6.
  - by rewrite Hs.
  - pose proof (chosen_of k t w x Hok Hw) as Hc. destruct (w_removed x); [left|right]; (split; [done|]); rewrite Hc; done.
Qed.

Lemma k_return_total k t :
  threads_ok k -> is_executing (f_sched k) t = true -> in_futex_wait k t -> exists r k', @fx_return _ futex_ops t k r k'.
Proof.
  intros [Hok _] _ (w & x & Hw). destruct (futex_wait_end_ok pml4 k w x Hok (proj1 Hw)) as (k1 & E1 & _).
  by exists (if w_removed x then 0 else - ETIMEDOUT), k1, w, x.
Qed.

(** Steps that change nothing but the states of the tasks. *)
Lemma k_same_waiters k s' :
  threads_ok k -> sys_ok s' -> idle_tasks s' = idle_tasks (f_sched k) ->
  (forall w x, f_waiters k !! w = Some x ->
     state_of s' (w_task x) = Some TASK_READY \/ state_of s' (w_task x) = Some TASK_RUNNING \/
     state_of s' (w_task x) = state_of (f_sched k) (w_task x)) ->
  threads_ok (set_f_sched s' k).
Proof.
  intros [[Hs Hlen Hnd Hl Hu Hk Ht] Hst] Hs' Hid Hstate. split; [by split|]. intros w x Hx. cbn. rewrite Hid.
  destruct (Hst w x Hx) as [Hi Hc]. split; [done|]. destruct (Hstate w x Hx) as [?|[?| ->]]; auto.
Qed.

(** A wake-up in terms of waiters. *)
Section Wake.
Context (k k' : fstate) (key n r : Z) (D W : list nat).
Hypothesis V : wake_view pml4 key n k k' r D W.

Lemma wake_view_woken y :
  y ∈ W <-> exists w x, waiter_of k y w x /\ w ∈ D /\ state_of (f_sched k) y = Some TASK_BLOCKED.
Proof.
  rewrite (wv_woken _ _ _ _ _ _ _ _ V), list_elem_of_fmap. setoid_rewrite list_elem_of_filter. unfold is_blocked. split.
  - intros (w & -> & Hb%bool_decide_eq_true_1 & Hw). destruct (wv_removed _ _ _ _ _ _ _ _ V w Hw) as (x & Hx & _). exists w, x.
    split_and!; try done. unfold waiter_of, task_of. by rewrite Hx.
  - intros (w & x & [Hx <-] & Hw & Hb). exists w. unfold task_of. rewrite Hx. by rewrite bool_decide_true.
Qed.

Lemma wake_view_waiter y w x' :
  waiter_of k' y w x' <-> exists x, waiter_of k y w x /\ x' = if decide (w ∈ D) then mark_removed x else x.
Proof.
  unfold waiter_of. rewrite (wv_waiters _ _ _ _ _ _ _ _ V), lookup_mark_waiters. split.
  - intros [Hx Et]. case_decide; [|by exists x']. destruct (f_waiters k !! w) as [x|]; [|done]. injection Hx as <-. by exists x.
  - intros (x & [-> <-] & ->). by case_decide.
Qed.

Lemma wake_view_ok : threads_ok k -> threads_ok k'.
Proof.
  intros [Hok Hst]. split; [apply V|]. intros w x' Hx'.
  destruct (proj1 (wake_view_waiter (w_task x') w x')) as (x & [Hx Et] & Ex'); [by split|].
  rewrite <- Et, (wv_idle _ _ _ _ _ _ _ _ V), (wv_state _ _ _ _ _ _ _ _ V). clear Et.
  destruct (Hst w x Hx) as [Hi Hc]. split; [done|]. destruct (decide (w_task x ∈ W)) as [|Hn]; [by left|].
  destruct Hc as [?|[?|[Hb Hr]]]; [by left|by right; left|right; right]. split; [done|]. rewrite Ex', decide_False; [done|].
  intros Hw. apply Hn, wake_view_woken. by exists w, x.
Qed.

Lemma wake_view_waiting y b : waiting k' y b <-> waiting k y b /\ y ∉ W.
Proof.
  unfold waiting at 1. setoid_rewrite wake_view_waiter. rewrite (wv_state _ _ _ _ _ _ _ _ V). split.
  - intros (w & x' & (x & Hx & ->) & Ha & Hrm & Hb). destruct (decide (y ∈ W)) as [|Hy]; [done|].
    destruct (decide (w ∈ D)); [done|]. split; [by exists w, x|done].
  - intros [(w & x & Hx & Ha & Hrm & Hb) Hy]. rewrite decide_False by done. exists w, x. split_and!; try done.
    exists x. split; [done|]. rewrite decide_False; [done|]. intros Hw. apply Hy, wake_view_woken. by exists w, x.
Qed.

Lemma wake_view_chosen y : y ∈ W \/ chosen k y -> chosen k' y.
Proof.
  intros Hy. unfold chosen. setoid_rewrite wake_view_waiter.
  destruct Hy as [(w & x & Hx & Hw & Hb)%wake_view_woken|(w & x & Hx & Hrm)].
  - exists w, (mark_removed x). split; [exists x; by rewrite decide_True|done].
  - exists w, (if decide (w ∈ D) then mark_removed x else x). split; [by exists x|]. by case_decide.
Qed.

Lemma wake_view_same : @fx_same _ futex_ops k k'.
Proof.
  split; cbn.
  - intros y. unfold in_futex_wait. setoid_rewrite wake_view_waiter. split; [intros (w & ? & x & ? & _); eauto|].
    intros (w & x & Hx). by exists w, (if decide (w ∈ D) then mark_removed x else x), x.
  - intros y Hy. apply (wv_sched _ _ _ _ _ _ _ _ V). by right.
Qed.

End Wake.

Lemma k_wake_law k t a n k' :
  threads_ok k -> is_executing (f_sched k) t = true -> 0 < n -> @fx_wake _ futex_ops t a n k k' ->
  threads_ok k' /\ @fx_same _ futex_ops k k' /\ exists W : list nat,
    NoDup W /\ (forall x, x ∈ W -> waiting k x a) /\ Z.of_nat (length W) <= n /\
    (Z.of_nat (length W) < Z.min n MAX_DEFERRED_WAKE -> forall x, waiting k x a -> x ∈ W) /\
    (forall x b, waiting k' x b <-> waiting k x b /\ x ∉ W) /\
    (forall x, x ∈ W \/ chosen k x -> chosen k' x).
Proof.
  intros Hth Hex Hn [me E]. unfold futex_wake in E. set (key := futex_get_key pml4 (Some t) a) in E.
  pose proof Hth as [Hok _]. destruct (futex_wake_key_ok pml4 me key n k Hok Hn) as (D & W & V). rewrite E in V.
  destruct (wv_count _ _ _ _ _ _ _ _ V) as (Hr & Hrn & _).
  split_and!; [exact (wake_view_ok _ _ _ _ _ _ _ V Hth)|exact (wake_view_same _ _ _ _ _ _ _ V)|]. exists W.
  split_and!; [apply V| |lia| |exact (wake_view_waiting _ _ _ _ _ _ _ V)|exact (wake_view_chosen _ _ _ _ _ _ _ V)].
  - intros y (w & x & [Hx <-] & Hw & Hb)%(wake_view_woken _ _ _ _ _ _ _ V). destruct (wv_removed _ _ _ _ _ _ _ _ V w Hw) as (x1 & Hx1 & Hkey & Hrm).
    assert (x1 = x) as -> by congruence. exists w, x. split_and!; try done.
    rewrite (fo_key _ _ Hok w x Hx) in Hkey. by apply (same_key (w_task x) t).
  - intros Hlt y (w & x & [Hx <-] & Ha & Hrm & Hb). apply (wake_view_woken _ _ _ _ _ _ _ V). exists w, x. split_and!; [done| |done].
    apply (wv_all _ _ _ _ _ _ _ _ V ltac:(lia) ltac:(lia) w x Hx Hrm). by rewrite (fo_key _ _ Hok w x Hx), Ha.
Qed.

Lemma k_interrupt_law k t k' :
  threads_ok k -> @fx_interrupt _ futex_ops t k k' ->
  threads_ok k' /\ @fx_same _ futex_ops k k' /\ (forall x b, waiting k' x b <-> x <> t /\ waiting k x b) /\
  (forall x, chosen k' x <-> chosen k x).
Proof.
  intros Hth [me ->]. pose proof (fo_sched _ _ (th_futex _ Hth)) as Hs. set (s := f_sched k) in *.
  assert (Hw : sys_ok (sched_wake_task me s t) /\ idle_tasks (sched_wake_task me s t) = idle_tasks s /\
    (forall x, state_of (sched_wake_task me s t) x =
       if decide (x = t /\ state_of s t = Some TASK_BLOCKED) then Some TASK_READY else state_of s x) /\
    (forall x, is_scheduled s x = true -> is_scheduled (sched_wake_task me s t) x = true)).
  { destruct (wake_task_ok s me t Hs) as (H1 & _ & H3). split_and!; [done| | |intros; apply H3; by right].
    - unfold sched_wake_task. destruct (bool_decide_reflect (state_of s t = Some TASK_BLOCKED)) as [Hst|]; [|done].
      destruct (wake_task_blocked s me t Hs Hst) as (_ & _ & F & _). by rewrite (fr_idle _ _ F).
    - intros x. unfold sched_wake_task. destruct (bool_decide_reflect (state_of s t = Some TASK_BLOCKED)) as [Hst|Hst].
      + destruct (wake_task_blocked s me t Hs Hst) as (_ & _ & F & _). destruct (frame_obs _ _ F x) as (-> & _).
        rewrite state_of_upd. destruct (decide (x = t)) as [->|Hne].
        * rewrite decide_True by done. unfold state_of in Hst. by destruct (tasks s !! t).
        * by rewrite decide_False by tauto.
      + by rewrite decide_False by tauto. }
  destruct Hw as (Hs' & Hid & Hst & Hsc). split_and!.
  - apply k_same_waiters; [done|done|done|]. intros w x Hx. rewrite Hst. destruct (decide (_ /\ _)); [by left|by right; right].
  - by split.
  - intros x b. unfold waiting. change (waiter_of (set_f_sched ?s' k)) with (waiter_of k). cbn [f_sched set_f_sched].
    setoid_rewrite Hst. fold s. split.
    + intros (w & y & Hy & Ha & Hr & Hb). destruct (decide (_ /\ _)) as [|Hd]; [done|]. split; [|by exists w, y]. intros ->. tauto.
    + intros (Hne & w & y & Hy & Ha & Hr & Hb). exists w, y. by rewrite decide_False by tauto.
  - done.
Qed.

Lemma schedule_states s c :
  sys_ok s -> let s' := (sched_schedule s c).1 in
  idle_tasks s' = idle_tasks s /\
  forall x, (state_of s' x = Some TASK_BLOCKED <-> state_of s x = Some TASK_BLOCKED) /\
    (state_of s' x = Some TASK_READY \/ state_of s' x = Some TASK_RUNNING \/ state_of s' x = state_of s x).
Proof.
  intros Hok s'. pose proof Hok as [[Q H] Ht Hr]. destruct (cpus s !! c) as [cpu|] eqn:Hc.
  2: { unfold s', sched_schedule. rewrite (to_smp _ Ht), Hc. cbn. split; [done|]. intros x. auto. }
  destruct (to_current _ Ht c ltac:(by eexists)) as (cur & i & Hcur & _ & Hi & _).
  assert (exists n, next_task Q s c = Some n) as [n Hn].
  { unfold next_task. destruct (Q c) as [|m l]; [by exists i|by exists m]. }
  destruct (next_task_ok Q s c n H Ht ltac:(by eexists) Hn) as (_ & _ & _ & _ & Hnst).
  assert (Hnb : state_of s n <> Some TASK_BLOCKED).
  { destruct Hnst as [->|Hin]; [done|]. by destruct (to_idle _ Ht n Hin). }
  assert (V : schedule_view s s' n cur).
  { destruct (decide (n = cur)) as [->|]; [by eapply schedule_stay_view|by eapply schedule_switch_view]. }
  split; [apply V|]. intros x. rewrite (sv_state _ _ _ _ V). destruct (decide (x = n)) as [->|]; [split; [done|auto]|].
  destruct (decide (x = cur)) as [->|]; [|auto]. destruct (again s n cur) eqn:Ea; [|auto].
  unfold again, runnable in Ea. rewrite !andb_true_iff, orb_true_iff, !bool_decide_eq_true in Ea.
  destruct Ea as [[_ [[_ Hrun] _]] _]. split; [|auto]. split; [done|]. intros Hb. rewrite Hb in Hrun. by destruct Hrun.
Qed.

Lemma k_schedule_law k k' :
  threads_ok k -> @fx_schedule _ futex_ops k k' ->
  threads_ok k' /\ @fx_same _ futex_ops k k' /\ (forall x b, waiting k' x b <-> waiting k x b) /\
  (forall x, chosen k' x <-> chosen k x).
Proof.
  intros Hth [c ->]. pose proof (fo_sched _ _ (th_futex _ Hth)) as Hs.
  destruct (schedule_ok (f_sched k) c Hs) as (Hs' & _ & Hsc). destruct (schedule_states (f_sched k) c Hs) as (Hid & Hst).
  split_and!; [apply k_same_waiters; try done; intros w x Hx; by apply Hst|done| |done].
  intros x b. unfold waiting. cbn [f_sched set_f_sched]. by setoid_rewrite (proj1 (Hst x)).
Qed.

#[refine] Definition futex_laws : @FutexLaws fstate futex_ops := {| fx_ok := threads_ok; fx_limit := MAX_DEFERRED_WAKE |}.
Proof.
  - done.
  - exact k_running_awake.
  - intros k t a [Hok _] (w & x & Hw & _ & Hr & Hb). split; [by exists w, x|]. cbn.
    rewrite (chosen_of k t w x Hok Hw). congruence.
  - intros k t (w & x & Hw & _). by exists w, x.
  - exact k_inside_scheduled.
  - intros k t a b [Hok _] (w & x & Hw & <- & _) (w' & x' & Hw' & <- & _).
    by destruct (waiter_unique k t w w' x x' Hok Hw Hw') as [_ <-].
  - exact k_sleep_law.
  - exact k_sleep_total.
  - exact k_return_law.
  - exact k_return_total.
  - exact k_wake_law.
  - intros k t a n. cbn. eexists _, 0%nat. reflexivity.
  - exact k_interrupt_law.
  - exact k_schedule_law.
Defined.

End Kernel.

(** ** Programs *)

(** What a thread does next: a step on the shared memory, a call of [futex_wait]
    on word [a] with expected value [v] (the thread is at [c] while it is inside),
    a call of [futex_wake], or nothing of its own. *)
Inductive action (M P : Type) :=
  | Go (m : M) (c : P)
  | Wait (a v : Z) (c : P)
  | Wake (a n : Z) (c : P)
  | Rest.

Arguments Go {M P} m c.
Arguments Wait {M P} a v c.
Arguments Wake {M P} a n c.
Arguments Rest {M P}.

(** The code of a synchronisation object: the next action of a thread, where it
    goes when [futex_wait] returns (from the kernel's result and the [errno] it then
    reads: a variable of the whole process, so any value another thread has left
    there), the places inside [futex_wait], the words of the memory, and the calls
    a client makes. *)
Record program (M P : Type) := mk_program {
  p_next : nat -> P -> M -> action M P;
  p_after : nat -> P -> Z -> Z -> P;
  p_sleeping : P -> bool;
  p_word : M -> Z -> Z;
  p_client : nat -> M -> P -> P -> Prop;
}.

Arguments p_next {M P} p.
Arguments p_after {M P} p.
Arguments p_sleeping {M P} p.
Arguments p_word {M P} p.
Arguments p_client {M P} p.

Record program_ok {M P} (p : program M P) : Prop := {
  po_go : forall t c m m' c', p_next p t c m = Go m' c' -> p_sleeping p c = false /\ p_sleeping p c' = false;
  po_wait : forall t c m a v c', p_next p t c m = Wait a v c' -> p_sleeping p c = false /\ p_sleeping p c' = true;
  po_wake : forall t c m a n c', p_next p t c m = Wake a n c' -> p_sleeping p c = false /\ p_sleeping p c' = false /\ 0 < n;
  po_after : forall t c r e, p_sleeping p (p_after p t c r e) = false;
  po_client : forall t m c c', p_client p t m c c' -> p_sleeping p c = false /\ p_sleeping p c' = false;
}.

Record usys (K M P : Type) := mk_usys { u_mem : M; u_pcs : gmap nat P; u_k : K }.

Arguments mk_usys {K M P}.
Arguments u_mem {K M P}.
Arguments u_pcs {K M P}.
Arguments u_k {K M P}.

Section Machine.
Context {K M P : Type} `{FutexLaws K} (p : program M P).

Inductive step : usys K M P -> usys K M P -> Prop :=
  | step_go m pcs k t c m' c' :
      fx_running k t = true -> pcs !! t = Some c -> p_next p t c m = Go m' c' ->
      step (mk_usys m pcs k) (mk_usys m' (<[t := c']> pcs) k)
  | step_sleep m pcs k t c a v c' k' :
      fx_running k t = true -> pcs !! t = Some c -> p_next p t c m = Wait a v c' ->
      p_word p m a = v -> fx_sleep t a k k' ->
      step (mk_usys m pcs k) (mk_usys m (<[t := c']> pcs) k')
  | step_fail m pcs k t c a v c' r e :
      fx_running k t = true -> pcs !! t = Some c -> p_next p t c m = Wait a v c' ->
      (p_word p m a <> v /\ r = - EAGAIN) \/ r = - ENOMEM ->
      step (mk_usys m pcs k) (mk_usys m (<[t := p_after p t c' r e]> pcs) k)
  | step_return m pcs k t c r e k' :
      fx_running k t = true -> pcs !! t = Some c -> fx_return t k r k' ->
      step (mk_usys m pcs k) (mk_usys m (<[t := p_after p t c r e]> pcs) k')
  | step_wake m pcs k t c a n c' k' :
      fx_running k t = true -> pcs !! t = Some c -> p_next p t c m = Wake a n c' -> fx_wake t a n k k' ->
      step (mk_usys m pcs k) (mk_usys m (<[t := c']> pcs) k')
  | step_client m pcs k t c c' :
      fx_running k t = true -> pcs !! t = Some c -> p_client p t m c c' ->
      step (mk_usys m pcs k) (mk_usys m (<[t := c']> pcs) k)
  | step_interrupt m pcs k t k' :
      fx_interrupt t k k' -> step (mk_usys m pcs k) (mk_usys m pcs k')
  | step_schedule m pcs k k' :
      fx_schedule k k' -> step (mk_usys m pcs k) (mk_usys m pcs k').

Inductive reachable (u0 : usys K M P) : usys K M P -> Prop :=
  | reach_init : reachable u0 u0
  | reach_step u u' : reachable u0 u -> step u u' -> reachable u0 u'.

(** The threads inside [futex_wait] are those the program has there. *)
Record usys_ok (u : usys K M P) : Prop := {
  us_kernel : fx_ok (u_k u);
  us_inside : forall t, fx_inside (u_k u) t <-> exists c, u_pcs u !! t = Some c /\ p_sleeping p c = true;
}.

(** Runs, one step at a time. *)
Lemma reach_go u0 m pcs k t c m' c' :
  fx_running k t = true -> pcs !! t = Some c -> p_next p t c m = Go m' c' ->
  reachable u0 (mk_usys m pcs k) -> reachable u0 (mk_usys m' (<[t := c']> pcs) k).
Proof. intros Hr Ht E Hreach. eapply reach_step; [exact Hreach|]. by eapply step_go. Qed.

Lemma reach_client u0 m pcs k t c c' :
  fx_running k t = true -> pcs !! t = Some c -> p_client p t m c c' ->
  reachable u0 (mk_usys m pcs k) -> reachable u0 (mk_usys m (<[t := c']> pcs) k).
Proof. intros Hr Ht E Hreach. eapply reach_step; [exact Hreach|]. by eapply step_client. Qed.

Lemma reach_sleep u0 m pcs k t c a v c' :
  fx_ok k -> fx_running k t = true -> ~ fx_inside k t -> pcs !! t = Some c -> p_next p t c m = Wait a v c' -> p_word p m a = v ->
  reachable u0 (mk_usys m pcs k) ->
  exists k', reachable u0 (mk_usys m (<[t := c']> pcs) k') /\ fx_asleep k' t a.
Proof.
  intros Hk Hr Hn Ht E Hv Hreach. destruct (sleep_total k t a Hk Hr Hn) as [k' Hs]. exists k'. split.
  - eapply reach_step; [exact Hreach|]. by eapply step_sleep.
  - apply (sleep_law k t a k' Hk Hr Hn Hs). by left.
Qed.

Hypothesis Hp : program_ok p.

Lemma inside_upd (pcs : gmap nat P) (k k' : K) t c c' :
  (forall x, fx_inside k x <-> exists c, pcs !! x = Some c /\ p_sleeping p c = true) ->
  pcs !! t = Some c ->
  (forall x, fx_inside k' x <-> if decide (x = t) then p_sleeping p c' = true else fx_inside k x) ->
  forall x, fx_inside k' x <-> exists c, <[t := c']> pcs !! x = Some c /\ p_sleeping p c = true.
Proof.
  intros H1 Ht H2 x. rewrite H2. destruct (decide (x = t)) as [->|].
  - rewrite lookup_insert_eq. naive_solver.
  - by rewrite lookup_insert_ne, H1.
Qed.

Lemma inside_at u t c : usys_ok u -> u_pcs u !! t = Some c -> fx_inside (u_k u) t <-> p_sleeping p c = true.
Proof. intros [_ Hi] Ht. rewrite Hi, Ht. naive_solver. Qed.

Lemma step_ok u u' : usys_ok u -> step u u' -> usys_ok u'.
Proof.
  intros Hu Hs. pose proof Hu as [Hk Hi]. pose proof (fun t c => inside_at u t c Hu) as Hat. destruct Hs; cbn [u_mem u_pcs u_k] in *.
  - destruct (po_go _ Hp _ _ _ _ _ H3) as [E1 E2]. split; [done|]. cbn. eapply inside_upd; [done|done|].
    intros x. case_decide; [subst x; rewrite (Hat t c), E1, E2 by done; done|done].
  - destruct (po_wait _ Hp _ _ _ _ _ _ H3) as [E1 E2].
    destruct (sleep_law k t a k') as (Hk' & Hin & _); [done|done|rewrite (Hat t c), E1 by done; done|done|].
    split; [done|]. cbn. eapply inside_upd; [done|done|]. intros x. rewrite Hin. case_decide; [subst x; naive_solver|naive_solver].
  - destruct (po_wait _ Hp _ _ _ _ _ _ H3) as [E1 E2]. split; [done|]. cbn. eapply inside_upd; [done|done|].
    intros x. case_decide; [subst x; rewrite (Hat t c), E1, (po_after _ Hp) by done; done|done].
  - destruct (return_law k t r k') as (Hk' & _ & Hin & _); [done|done|done|]. split; [done|]. cbn.
    eapply inside_upd; [done|done|]. intros x. rewrite Hin. case_decide; [subst x; rewrite (po_after _ Hp); naive_solver|tauto].
  - destruct (po_wake _ Hp _ _ _ _ _ _ H3) as (E1 & E2 & Hn).
    destruct (wake_law k t a n k') as (Hk' & [Hin _] & _); [done|done|done|done|]. split; [done|]. cbn.
    eapply inside_upd; [done|done|]. intros x. rewrite Hin. case_decide; [subst x; rewrite (Hat t c), E1, E2 by done; done|done].
  - destruct (po_client _ Hp _ _ _ _ H3) as [E1 E2]. split; [done|]. cbn. eapply inside_upd; [done|done|].
    intros x. case_decide; [subst x; rewrite (Hat t c), E1, E2 by done; done|done].
  - destruct (interrupt_law k t k') as (Hk' & [Hin _] & _); [done|done|]. split; [done|]. intros x. cbn. by rewrite Hin.
  - destruct (schedule_law k k') as (Hk' & [Hin _] & _); [done|done|]. split; [done|]. intros x. cbn. by rewrite Hin.
Qed.

End Machine.

(** ** An example: two threads that run on two CPUs *)

Definition demo_ops : FutexOps fstate := futex_ops 0 Z.to_nat.
Definition demo_laws : @FutexLaws fstate demo_ops := futex_laws 0 Z.to_nat.
Definition demo_fk : fstate := futex_init demo_smp.

Lemma demo_fk_ok : @fx_ok fstate demo_ops demo_laws demo_fk.
Proof. split; [apply futex_init_ok, demo_smp_ok|]. intros w x Hx. by apply no_waiters in Hx. Qed.

Lemma demo_fk_awake t : ~ @fx_inside fstate demo_ops demo_fk t.
Proof. intros (w & x & Hx & _). by apply no_waiters in Hx. Qed.

Lemma demo_fk_running : @fx_running fstate demo_ops demo_fk 1 = true /\ @fx_running fstate demo_ops demo_fk 2 = true.
Proof. split; reflexivity. Qed.
