(* ===== verification/Mutex.v ===== *)
(** * Mutexes ([userland/libc/src/pthread/pthread_mutex.c])

    [pthread_mutex_lock], [_trylock], [_timedlock] and [_unlock] as a program over
    the memory of one mutex, one shared access per step, with all three types of
    mutex.  A thread id is the kernel's task; the robust list of a thread is
    represented by the threads that have the mutex on theirs.  Accesses are
    sequentially consistent.  No thread dies while it holds the mutex, so the
    kernel never sets the owner-died flag; the branches that test it are part of
    the program.

    The theorems: at most one thread holds the mutex, with the owner and the
    recursion count of the code describing it exactly, and no wake-up is lost. *)

From Stdlib Require Import ZArith Lia Bool.
From stdpp Require Import base list gmap.
From S2P Require Import Prelude Chain Sched Wait Futex Threads.

Open Scope Z_scope.

Definition MUTEX_UNLOCKED : Z := 0.
Definition MUTEX_LOCKED : Z := 1.
Definition MUTEX_CONTENDED : Z := 2.
Definition FUTEX_OWNER_DIED : Z := 0x40000000.
Definition FUTEX_TID_MASK : Z := 0x3FFFFFFF.

Inductive mutex_type := PTHREAD_MUTEX_NORMAL | PTHREAD_MUTEX_RECURSIVE | PTHREAD_MUTEX_ERRORCHECK.

#[export] Instance mutex_type_eq_dec : EqDecision mutex_type.
Proof. solve_decision. Defined.

(** [m_listed]: the threads with the mutex on their robust list. *)
Record pthread_mutex := mk_mutex {
  m_state : Z;
  m_owner_tid : Z;
  m_count : Z;
  m_type : mutex_type;
  m_robust : bool;
  m_listed : list nat;
}.

Definition set_m_state (x : Z) (m : pthread_mutex) : pthread_mutex :=
  mk_mutex x (m_owner_tid m) (m_count m) (m_type m) (m_robust m) (m_listed m).
Definition set_m_owner (x : Z) (m : pthread_mutex) : pthread_mutex :=
  mk_mutex (m_state m) x (m_count m) (m_type m) (m_robust m) (m_listed m).
Definition set_m_count (x : Z) (m : pthread_mutex) : pthread_mutex :=
  mk_mutex (m_state m) (m_owner_tid m) x (m_type m) (m_robust m) (m_listed m).
Definition set_m_listed (x : list nat) (m : pthread_mutex) : pthread_mutex :=
  mk_mutex (m_state m) (m_owner_tid m) (m_count m) (m_type m) (m_robust m) x.

(** [attr] is the type and the robustness of the attributes, if given. *)
Definition pthread_mutex_init (attr : option (mutex_type * bool)) : pthread_mutex :=
  match attr with
  | Some (ty, robust) => mk_mutex MUTEX_UNLOCKED 0 0 ty robust []
  | None => mk_mutex MUTEX_UNLOCKED 0 0 PTHREAD_MUTEX_NORMAL false []
  end.

(** Places in the code, named by what the thread does next.  [Ret r]: the last
    call returned [r].  In [L_...] the flag tells [pthread_mutex_timedlock]. *)
Inductive place :=
  | Ret (r : Z)
  | L_check (timed : bool)          (* read type and owner_tid *)
  | L_inc                           (* count++ *)
  | L_cas (timed : bool)            (* the fast path *)
  | L_died (old : Z)                (* take over from a dead owner *)
  | L_xchg1 (timed : bool)          (* mark the mutex contended *)
  | L_wait (timed : bool)           (* futex_wait *)
  | L_sleep (timed : bool)          (* inside futex_wait *)
  | L_xchg2 (timed : bool)          (* try to acquire *)
  | L_owner (r : Z)                 (* owner_tid = tid *)
  | L_count (r : Z)                 (* count = 1 *)
  | L_list (r : Z)                  (* add to the robust list *)
  | T_check                         (* trylock: read type and owner_tid *)
  | T_cas
  | T_died (old : Z)
  | U_check                         (* unlock: read type and owner_tid *)
  | U_dec                           (* --count *)
  | U_list                          (* remove from the robust list *)
  | U_owner                         (* owner_tid = 0 *)
  | U_count                         (* count = 0 *)
  | U_xchg                          (* release *)
  | U_wake.                         (* futex_wake *)

(** A thread: how often it holds the mutex, and where it is. *)
Record mthread := mk_mthread { held : nat; at_ : place }.

Definition died (m : pthread_mutex) (old : Z) : bool := m_robust m && negb (Z.land old FUTEX_OWNER_DIED =? 0).

(** The slow path after a failed attempt that saw [old]. *)
Definition slow (timed : bool) (old : Z) : place :=
  if old =? MUTEX_LOCKED then L_xchg1 timed
  else if negb (old =? MUTEX_UNLOCKED) then L_wait timed else L_owner 0.

Definition after_count (m : pthread_mutex) (n : nat) (r : Z) : mthread :=
  if m_robust m then mk_mthread n (L_list r) else mk_mthread (S n) (Ret r).

Definition after_dec (m : pthread_mutex) : place := if m_robust m then U_list else U_owner.

Section Mutex.
Variable addr : Z.        (* &mutex->state *)

Definition mutex_next (t : nat) (th : mthread) (m : pthread_mutex) : action pthread_mutex mthread :=
  let tid := Z.of_nat t in
  let n := held th in
  let to c := mk_mthread n c in
  let mine := m_owner_tid m =? tid in
  match at_ th with
  | Ret _ | L_sleep _ => Rest
  | L_check false =>
      if negb (bool_decide (m_type m = PTHREAD_MUTEX_NORMAL)) && mine
      then Go m (to (if bool_decide (m_type m = PTHREAD_MUTEX_RECURSIVE) then L_inc else Ret EDEADLK))
      else Go m (to (L_cas false))
  | L_check true =>
      if bool_decide (m_type m = PTHREAD_MUTEX_RECURSIVE) && mine then Go m (to L_inc)
      else if bool_decide (m_type m = PTHREAD_MUTEX_ERRORCHECK) && mine then Go m (to (Ret EDEADLK))
      else Go m (to (L_cas true))
  | L_inc => Go (set_m_count (m_count m + 1) m) (mk_mthread (S n) (Ret 0))
  | L_cas timed =>
      let old := m_state m in
      if old =? MUTEX_UNLOCKED then Go (set_m_state MUTEX_LOCKED m) (to (L_owner 0))
      else if negb timed && died m old then Go m (to (L_died old))
      else Go m (to (slow timed old))
  | L_died old =>
      if m_state m =? old
      then Go (set_m_state (Z.lor (Z.land tid FUTEX_TID_MASK) FUTEX_OWNER_DIED) m) (to (L_owner EOWNERDEAD))
      else Go m (to (slow false old))
  | L_xchg1 timed =>
      let old := m_state m in
      Go (set_m_state MUTEX_CONTENDED m) (to (if negb (old =? MUTEX_UNLOCKED) then L_wait timed else L_owner 0))
  | L_wait timed => Wait addr MUTEX_CONTENDED (to (L_sleep timed))
  | L_xchg2 timed =>
      let old := m_state m in
      Go (set_m_state MUTEX_CONTENDED m)
        (to (if negb timed && died m old then L_owner EOWNERDEAD
             else if negb (old =? MUTEX_UNLOCKED) then L_wait timed else L_owner 0))
  | L_owner r => Go (set_m_owner tid m) (to (L_count r))
  | L_count r => Go (set_m_count 1 m) (after_count m n r)
  | L_list r => Go (set_m_listed (t :: m_listed m) m) (mk_mthread (S n) (Ret r))
  | T_check =>
      if bool_decide (m_type m = PTHREAD_MUTEX_RECURSIVE) && mine then Go m (to L_inc)
      else if bool_decide (m_type m = PTHREAD_MUTEX_ERRORCHECK) && mine then Go m (to (Ret EBUSY))
      else Go m (to T_cas)
  | T_cas =>
      let old := m_state m in
      if old =? MUTEX_UNLOCKED then Go (set_m_state MUTEX_LOCKED m) (to (L_owner 0))
      else Go m (to (if died m old then T_died old else Ret EBUSY))
  | T_died old =>
      if m_state m =? old
      then Go (set_m_state (Z.lor (Z.land tid FUTEX_TID_MASK) FUTEX_OWNER_DIED) m) (to (L_owner EOWNERDEAD))
      else Go m (to (Ret EBUSY))
  | U_check =>
      if negb (bool_decide (m_type m = PTHREAD_MUTEX_NORMAL)) && negb mine then Go m (to (Ret EPERM))
      else Go m (to (if bool_decide (m_type m = PTHREAD_MUTEX_RECURSIVE) then U_dec else after_dec m))
  | U_dec =>
      let m := set_m_count (m_count m - 1) m in
      if 0 <? m_count m then Go m (mk_mthread (pred n) (Ret 0)) else Go m (to (after_dec m))
  | U_list => Go (set_m_listed (remove_one t (m_listed m)) m) (to U_owner)
  | U_owner => Go (set_m_owner 0 m) (to U_count)
  | U_count => Go (set_m_count 0 m) (to U_xchg)
  | U_xchg =>
      Go (set_m_state MUTEX_UNLOCKED m)
        (mk_mthread (pred n) (if m_state m =? MUTEX_CONTENDED then U_wake else Ret 0))
  | U_wake => Wake addr 1 (to (Ret 0))
  end.

(** [futex_wait] returned [r], and [errno] reads [e]. *)
Definition mutex_after (t : nat) (th : mthread) (r e : Z) : mthread :=
  match at_ th with
  | L_sleep true => mk_mthread (held th) (if (r <? 0) && (e =? ETIMEDOUT) then Ret ETIMEDOUT else L_xchg2 true)
  | _ => mk_mthread (held th) (L_xchg2 false)
  end.

Definition mutex_sleeping (th : mthread) : bool := match at_ th with L_sleep _ => true | _ => false end.

(** The calls: a normal mutex is unlocked by a thread that holds it only. *)
Definition mutex_client (t : nat) (m : pthread_mutex) (th th' : mthread) : Prop :=
  exists r c, at_ th = Ret r /\ th' = mk_mthread (held th) c /\
    (c = L_check false \/ c = L_check true \/ c = T_check \/
     (c = U_check /\ ((0 < held th)%nat \/ m_type m <> PTHREAD_MUTEX_NORMAL))).

Definition mutex_prog : program pthread_mutex mthread := {|
  p_next := mutex_next;
  p_after := mutex_after;
  p_sleeping := mutex_sleeping;
  p_word := fun m a => if a =? addr then m_state m else 0;
  p_client := mutex_client;
|}.

Lemma mutex_next_wait t n c m a v th' :
  mutex_next t (mk_mthread n c) m = Wait a v th' ->
  exists b, c = L_wait b /\ a = addr /\ v = MUTEX_CONTENDED /\ th' = mk_mthread n (L_sleep b).
Proof. unfold mutex_next. destruct c; cbn [at_ held]; intros E; repeat case_match; simplify_eq; eauto. Qed.

Lemma mutex_next_wake t n c m a k th' :
  mutex_next t (mk_mthread n c) m = Wake a k th' -> c = U_wake /\ a = addr /\ k = 1 /\ th' = mk_mthread n (Ret 0).
Proof. unfold mutex_next. destruct c; cbn [at_ held]; intros E; repeat case_match; by simplify_eq. Qed.

Lemma mutex_prog_ok : program_ok mutex_prog.
Proof.
  split; cbn.
  - intros t [n []] m m' c'; cbn; unfold mutex_next, mutex_sleeping, after_count, after_dec, slow; cbn; intros E;
      repeat case_match; simplify_eq; done.
  - intros t [n c] m a v c' (b & -> & _ & _ & ->)%mutex_next_wait. done.
  - intros t [n c] m a v c' (-> & _ & -> & ->)%mutex_next_wake. done.
  - intros t [n []] r0 e; unfold mutex_after, mutex_sleeping; cbn; repeat case_match; done.
  - intros t m [n c] c' (r & d & E & -> & Hd); unfold mutex_sleeping; cbn in *; subst c.
    by destruct Hd as [->|[->|[->|[-> _]]]].
Qed.

End Mutex.

(** ** Who holds the mutex *)

(** Between the acquisition and the return of the call. *)
Definition acquiring (c : place) : bool := match c with L_owner _ | L_count _ | L_list _ => true | _ => false end.
(** After the decision to release. *)
Definition releasing (c : place) : bool := match c with U_list | U_owner | U_count | U_xchg => true | _ => false end.

Definition owns (th : mthread) : bool := (0 <? held th)%nat || acquiring (at_ th).

(** The thread is the one [owner_tid] names. *)
Definition published (th : mthread) : bool :=
  match at_ th with
  | L_count _ | L_list _ => true
  | U_count | U_xchg => false
  | _ => (0 <? held th)%nat
  end.

(** The value of [count] in a recursive mutex held by the thread, where fixed. *)
Definition counted (th : mthread) : option Z :=
  match at_ th with
  | L_owner _ | L_count _ | U_list | U_owner | U_count | U_xchg => None
  | L_list _ => Some 1
  | _ => Some (Z.of_nat (held th))
  end.

(** What the place tells about the thread. *)
Definition place_ok (ty : mutex_type) (th : mthread) : Prop :=
  (acquiring (at_ th) = true -> held th = 0%nat) /\
  (releasing (at_ th) = true -> held th = 1%nat) /\
  (ty <> PTHREAD_MUTEX_RECURSIVE -> (held th <= 1)%nat) /\
  match at_ th with
  | L_inc | U_dec => ty = PTHREAD_MUTEX_RECURSIVE /\ (0 < held th)%nat
  | U_check => ty = PTHREAD_MUTEX_NORMAL -> (0 < held th)%nat
  | U_wake => held th = 0%nat
  | L_died _ | T_died _ => False
  | _ => True
  end.

(** The fields describe the owner. *)
Definition owner_fields (m : pthread_mutex) (t : nat) (th : mthread) : Prop :=
  m_owner_tid m = (if published th then Z.of_nat t else 0) /\
  (m_type m = PTHREAD_MUTEX_RECURSIVE -> forall z, counted th = Some z -> m_count m = z).

Record mutex_inv (m : pthread_mutex) (pcs : gmap nat mthread) : Prop := {
  mi_state : 0 <= m_state m <= 2;
  mi_places : forall t th, pcs !! t = Some th -> t <> 0%nat /\ place_ok (m_type m) th;
  mi_owner : exists o : option nat, (m_state m = 0 <-> o = None) /\
    (forall t th, pcs !! t = Some th -> owns th = true <-> o = Some t) /\
    match o with
    | None => m_owner_tid m = 0
    | Some t => exists th, pcs !! t = Some th /\ owner_fields m t th
    end;
}.

Section Preserve.
Context (m : pthread_mutex) (pcs : gmap nat mthread) (t : nat) (th : mthread).
Hypothesis I : mutex_inv m pcs.
Hypothesis Ht : pcs !! t = Some th.

Lemma places_upd ty th' :
  ty = m_type m -> place_ok ty th' ->
  forall x tx, <[t := th']> pcs !! x = Some tx -> x <> 0%nat /\ place_ok ty tx.
Proof.
  intros -> H x tx [[<- <-]|[_ Hx]]%lookup_insert_Some.
  - split; [by eapply (mi_places _ _ I)|done].
  - by eapply (mi_places _ _ I).
Qed.

(** A step of a thread that does not hold the mutex, before and after. *)
Lemma inv_other m' th' :
  owns th = false -> owns th' = false -> place_ok (m_type m) th' ->
  m_type m' = m_type m -> m_owner_tid m' = m_owner_tid m -> m_count m' = m_count m ->
  0 <= m_state m' <= 2 -> (m_state m' = 0 <-> m_state m = 0) -> mutex_inv m' (<[t := th']> pcs).
Proof.
  intros Hn Hn' Hp Ety Eo Ec Hs Hz. destruct (mi_owner _ _ I) as (o & Ho & Hall & Hf). split; [done|apply places_upd; [done|by rewrite Ety]|].
  assert (Hot : o <> Some t) by (rewrite <- (Hall t th Ht); congruence).
  exists o. split_and!; [by rewrite Hz| |].
  - intros x tx [[<- <-]|[_ Hx]]%lookup_insert_Some; [|by apply Hall]. split; [congruence|done].
  - destruct o as [t0|]; [|congruence]. destruct Hf as (th0 & Ht0 & Hf). exists th0.
    split; [by rewrite lookup_insert_ne by congruence|]. unfold owner_fields. by rewrite Eo, Ec, Ety.
Qed.

(** The holder of the mutex takes a step and keeps it. *)
Lemma inv_holder m' th' :
  owns th = true -> owns th' = true -> place_ok (m_type m) th' ->
  m_type m' = m_type m -> 0 <= m_state m' <= 2 -> (m_state m' = 0 <-> m_state m = 0) ->
  (owner_fields m t th -> owner_fields m' t th') -> mutex_inv m' (<[t := th']> pcs).
Proof.
  intros Hn Hn' Hp Ety Hs Hz Hf'. destruct (mi_owner _ _ I) as (o & Ho & Hall & Hf). split; [done|apply places_upd; [done|by rewrite Ety]|].
  apply (Hall t th Ht) in Hn as ->. exists (Some t). split_and!; [by rewrite Hz| |].
  - intros x tx [[<- <-]|[_ Hx]]%lookup_insert_Some; [done|by apply Hall].
  - destruct Hf as (th0 & Ht0 & Hf). assert (th0 = th) as -> by congruence. exists th'. rewrite lookup_insert_eq. auto.
Qed.

Lemma inv_acquire m' r :
  m_state m = 0 -> m_type m' = m_type m -> m_owner_tid m' = m_owner_tid m ->
  0 < m_state m' <= 2 -> mutex_inv m' (<[t := mk_mthread (held th) (L_owner r)]> pcs).
Proof.
  intros Hz Ety Eo Hs. destruct (mi_owner _ _ I) as (o & Ho & Hall & Hf). apply Ho in Hz as ->.
  assert (Hn : owns th = false) by (apply not_true_iff_false; by rewrite (Hall t th Ht)).
  unfold owns in Hn. apply orb_false_iff in Hn as [Hh%Nat.ltb_ge _].
  split; [lia|rewrite Ety; apply places_upd; [done|]|].
  - destruct (mi_places _ _ I t th Ht) as (_ & _ & _ & Hle & _). split_and!; cbn; try done; lia.
  - exists (Some t). split_and!; [split; [lia|done]| |].
    + intros x tx [[<- <-]|[Hne Hx]]%lookup_insert_Some.
      * split; [done|]. intros _. unfold owns. cbn. apply orb_true_r.
      * split; [by intros E%(Hall x tx Hx)|congruence].
    + eexists. rewrite lookup_insert_eq. split; [done|]. split; [|by intros _ z [=]]. unfold published. cbn [at_ held].
      rewrite Eo, Hf. by rewrite (proj2 (Nat.ltb_ge _ _)).
Qed.

Lemma inv_release m' th' :
  at_ th = U_xchg -> owns th' = false -> place_ok (m_type m) th' ->
  m_type m' = m_type m -> m_owner_tid m' = m_owner_tid m -> m_state m' = 0 -> mutex_inv m' (<[t := th']> pcs).
Proof.
  intros Hat Hn' Hp Ety Eo Hz. destruct (mi_owner _ _ I) as (o & Ho & Hall & Hf). split; [lia|apply places_upd; [done|by rewrite Ety]|].
  destruct (mi_places _ _ I t th Ht) as (_ & _ & Hrel & _). rewrite Hat in Hrel. specialize (Hrel eq_refl).
  assert (Hn : owns th = true) by (unfold owns; by rewrite Hrel). apply (Hall t th Ht) in Hn as ->.
  exists None. split_and!; [done| |].
  - intros x tx [[<- <-]|[Hne Hx]]%lookup_insert_Some; [split; congruence|]. rewrite (Hall x tx Hx). split; congruence.
  - destruct Hf as (th0 & Ht0 & Hf & _). assert (th0 = th) as -> by congruence. unfold published in Hf. rewrite Hat in Hf. congruence.
Qed.

End Preserve.

(** The state of a mutex never carries the owner-died flag. *)
Lemma died_never m pcs : mutex_inv m pcs -> died m (m_state m) = false.
Proof.
  intros I. pose proof (mi_state _ _ I) as H. unfold died. apply andb_false_iff. right.
  assert (m_state m = 0 \/ m_state m = 1 \/ m_state m = 2) as [->|[->| ->]] by lia; done.
Qed.

Section Step.
Context (addr : Z) (m : pthread_mutex) (pcs : gmap nat mthread) (t : nat) (n : nat) (c : place).
Hypothesis I : mutex_inv m pcs.
Hypothesis Ht : pcs !! t = Some (mk_mthread n c).

Lemma owner_mine : c <> U_count -> c <> U_xchg -> (forall r, c <> L_owner r) -> owns (mk_mthread n c) = (m_owner_tid m =? Z.of_nat t).
Proof.
  intros H1 H2 H3. destruct (mi_places _ _ I t _ Ht) as [Ht0 _]. destruct (mi_owner _ _ I) as (o & _ & Hall & Hf).
  apply eq_true_iff_eq. rewrite (Hall t _ Ht), Z.eqb_eq. destruct o as [t0|].
  - destruct Hf as (th0 & Ht0' & Ho & _). destruct (published th0) eqn:Ep; rewrite Ho.
    + split; [congruence|]. intros E. f_equal. lia.
    + split; [|lia]. intros [= ->]. assert (th0 = mk_mthread n c) as -> by congruence.
      assert (Hown : owns (mk_mthread n c) = true) by (by apply (Hall t _ Ht)).
      unfold owns, published in *. destruct c; cbn in *; rewrite ?orb_false_r in Hown; try congruence; by destruct (H3 r).
  - rewrite Hf. split; [done|lia].
Qed.

Lemma state_owned : owns (mk_mthread n c) = true -> m_state m <> 0.
Proof.
  intros Hown Hz. destruct (mi_owner _ _ I) as (o & Ho & Hall & _). apply (Hall t _ Ht) in Hown as ->. by apply Ho in Hz.
Qed.

(** A step that leaves the fields alone and neither acquires nor releases. *)
Lemma inv_move m' c' :
  acquiring c = false -> acquiring c' = false -> place_ok (m_type m) (mk_mthread n c') ->
  published (mk_mthread n c') = published (mk_mthread n c) ->
  (counted (mk_mthread n c') = counted (mk_mthread n c) \/ counted (mk_mthread n c') = None) ->
  m_type m' = m_type m -> m_owner_tid m' = m_owner_tid m -> m_count m' = m_count m ->
  0 <= m_state m' <= 2 -> (m_state m' = 0 <-> m_state m = 0) ->
  mutex_inv m' (<[t := mk_mthread n c']> pcs).
Proof.
  intros Ha Ha' Hp Epub Ecnt Ety Eo Ec Hs Hz.
  assert (Eown : owns (mk_mthread n c') = owns (mk_mthread n c)) by (unfold owns; cbn; by rewrite Ha, Ha').
  destruct (owns (mk_mthread n c)) eqn:Hown.
  - apply (inv_holder m pcs t (mk_mthread n c) I Ht); try done. unfold owner_fields. rewrite Ety, Eo, Ec, Epub. intros [H1 H2].
    split; [done|]. intros Hr z Hz'. apply H2; [done|]. by destruct Ecnt as [<-|E]; [|rewrite E in Hz'].
  - by apply (inv_other m pcs t (mk_mthread n c) I Ht).
Qed.

(** The same without a change of the memory. *)
Lemma inv_goto c' :
  acquiring c = false -> acquiring c' = false -> place_ok (m_type m) (mk_mthread n c') ->
  published (mk_mthread n c') = published (mk_mthread n c) ->
  (counted (mk_mthread n c') = counted (mk_mthread n c) \/ counted (mk_mthread n c') = None) ->
  mutex_inv m (<[t := mk_mthread n c']> pcs).
Proof. intros. apply inv_move; try done. apply (mi_state _ _ I). Qed.

(** A step of the holder that writes a field. *)
Lemma inv_field m' th' :
  owns (mk_mthread n c) = true -> owns th' = true -> place_ok (m_type m) th' ->
  m_type m' = m_type m -> m_state m' = m_state m ->
  (owner_fields m t (mk_mthread n c) -> owner_fields m' t th') -> mutex_inv m' (<[t := th']> pcs).
Proof.
  intros H1 H2 H3 H4 H5 H6. apply (inv_holder m pcs t (mk_mthread n c) I Ht); try done; rewrite H5; [|done].
  apply (mi_state _ _ I).
Qed.

End Step.

(** The side conditions of the lemmas above, at concrete places. *)
Ltac place_cond :=
  unfold place_ok, owns, published, counted; cbn; first [done | lia | naive_solver lia].

Section Go.
Context (addr : Z) (m m' : pthread_mutex) (pcs : gmap nat mthread) (t : nat) (n : nat) (th' : mthread).
Hypothesis I : mutex_inv m pcs.

Lemma mine_held c :
  pcs !! t = Some (mk_mthread n c) -> acquiring c = false -> c <> U_count -> c <> U_xchg ->
  m_owner_tid m = Z.of_nat t -> (0 < n)%nat.
Proof.
  intros Ht Ha H1 H2 E%Z.eqb_eq. rewrite <- (owner_mine m pcs t n c I Ht) in E; [|done|done|by intros r ->].
  unfold owns in E. cbn in E. rewrite Ha, orb_false_r in E. by apply Nat.ltb_lt.
Qed.

Lemma go_check c :
  c = L_check true \/ c = L_check false \/ c = T_check \/ c = U_check -> pcs !! t = Some (mk_mthread n c) ->
  mutex_next addr t (mk_mthread n c) m = Go m' th' -> mutex_inv m' (<[t := th']> pcs).
Proof.
  intros Hc Ht E. pose proof (mi_places _ _ I t _ Ht) as [_ (_ & _ & Hle & Hpl)]. pose proof (mine_held c Ht) as Hm.
  unfold mutex_next, after_dec in E. destruct Hc as [->|[->|[->| ->]]]; cbn [held at_] in *.
  all: specialize (Hm eq_refl ltac:(done) ltac:(done)).
  all: destruct (m_type m) eqn:Ety; rewrite ?Ety in *; repeat case_bool_decide; try done; cbn [negb andb] in E.
  all: destruct (m_owner_tid m =? Z.of_nat t) eqn:Eo; [apply Z.eqb_eq in Eo; specialize (Hm Eo)|].
  all: cbn [negb] in E; repeat case_match; injection E as <- <-.
  all: apply (inv_goto m pcs t n _ I Ht); rewrite ?Ety; place_cond.
Qed.

(** The attempts to take the mutex. *)
Lemma go_try c :
  (exists b, c = L_cas b \/ c = L_xchg1 b \/ c = L_xchg2 b) \/ c = T_cas -> pcs !! t = Some (mk_mthread n c) ->
  mutex_next addr t (mk_mthread n c) m = Go m' th' -> mutex_inv m' (<[t := th']> pcs).
Proof.
  intros Hc Ht E. pose proof (mi_places _ _ I t _ Ht) as [_ (_ & _ & Hle & _)]. pose proof (mi_state _ _ I) as Hst.
  unfold mutex_next in E. destruct (Z.eqb_spec (m_state m) MUTEX_UNLOCKED) as [Hz|Hz]; unfold MUTEX_UNLOCKED in Hz.
  - destruct Hc as [[b [->|[->| ->]]]| ->]; cbn [held at_ negb] in E; rewrite ?(died_never _ _ I), ?andb_false_r in E;
      injection E as <- <-; apply (inv_acquire m pcs t _ I Ht); done.
  - unfold slow in E. destruct Hc as [[b [->|[->| ->]]]| ->]; cbn [held at_ negb] in *;
      rewrite ?(died_never _ _ I), ?andb_false_r in E; injection E as <- <-.
    all: rewrite ?(proj2 (Z.eqb_neq (m_state m) MUTEX_UNLOCKED) Hz); cbn [negb]; try case_match.
    all: apply (inv_move m pcs t n _ I Ht); place_cond.
Qed.

(** The steps of the holder. *)
Definition writes_field (c : place) : bool :=
  match c with
  | L_inc | L_owner _ | L_count _ | L_list _ | U_dec | U_list | U_owner | U_count => true
  | _ => false
  end.

Lemma go_field c :
  writes_field c = true ->
  pcs !! t = Some (mk_mthread n c) ->
  mutex_next addr t (mk_mthread n c) m = Go m' th' -> mutex_inv m' (<[t := th']> pcs).
Proof.
  intros Hc Ht E. pose proof (mi_places _ _ I t _ Ht) as [Ht0 (Hacq & Hrel & Hle & Hpl)].
  unfold mutex_next, after_count, after_dec in E. destruct c; try done; cbn [acquiring releasing at_ held] in *.
  all: try specialize (Hacq eq_refl); try specialize (Hrel eq_refl).
  - destruct Hpl as [Hty Hn]. destruct n as [|k]; [lia|]. injection E as <- <-.
    apply (inv_field m pcs t _ _ I Ht); [place_cond..|]. intros [Ho Hcnt]. split; [exact Ho|]. intros Hr z [= <-].
    specialize (Hcnt Hr _ eq_refl). cbn in *. lia.
  - subst n. injection E as <- <-. apply (inv_field m pcs t _ _ I Ht); [place_cond..|]. by intros [Ho Hcnt].
  - subst n. destruct (m_robust m); injection E as <- <-; (apply (inv_field m pcs t _ _ I Ht); [place_cond..|]);
      intros [Ho Hcnt]; (split; [exact Ho|by intros Hr z [= <-]]).
  - subst n. injection E as <- <-. apply (inv_field m pcs t _ _ I Ht); [place_cond..|]. intros [Ho Hcnt].
    split; [exact Ho|]. intros Hr z [= <-]. exact (Hcnt Hr _ eq_refl).
  - destruct Hpl as [Hty Hn]. destruct n as [|k]; [lia|]. cbn [set_m_count m_count] in E.
    assert (Hcnt : m_count m = Z.of_nat (S k)).
    { destruct (mi_owner _ _ I) as (o & _ & Hall & Hf).
      assert (o = Some t) as -> by (apply (Hall t _ Ht); place_cond).
      destruct Hf as (th0 & Ht0' & _ & Hcnt). assert (th0 = mk_mthread (S k) U_dec) as -> by congruence. by apply Hcnt. }
    destruct (Z.ltb_spec 0 (m_count m - 1)) as [Hlt|Hge].
    + injection E as <- <-. destruct k as [|k]; [lia|]. apply (inv_field m pcs t _ _ I Ht); [place_cond..|].
      intros [Ho _]. split; [exact Ho|]. intros Hr z [= <-]. cbn. lia.
    + assert (k = 0)%nat as -> by lia. cbn [set_m_count m_robust] in E.
      destruct (m_robust m); injection E as <- <-; (apply (inv_field m pcs t _ _ I Ht); [place_cond..|]);
        intros [Ho _]; (split; [exact Ho|by intros]).
  - subst n. injection E as <- <-. apply (inv_field m pcs t _ _ I Ht); [place_cond..|]. by intros [Ho Hcnt].
  - subst n. injection E as <- <-. apply (inv_field m pcs t _ _ I Ht); [place_cond..|]. by intros [Ho Hcnt].
  - subst n. injection E as <- <-. apply (inv_field m pcs t _ _ I Ht); [place_cond..|]. by intros [Ho Hcnt].
Qed.

Lemma go_xchg :
  pcs !! t = Some (mk_mthread n U_xchg) ->
  mutex_next addr t (mk_mthread n U_xchg) m = Go m' th' -> mutex_inv m' (<[t := th']> pcs).
Proof.
  intros Ht [= <- <-]. pose proof (mi_places _ _ I t _ Ht) as [_ (_ & Hrel & _)]. specialize (Hrel eq_refl). cbn in Hrel. subst n.
  apply (inv_release m pcs t _ I Ht); try done; destruct (_ =? _); place_cond.
Qed.

End Go.

Lemma mutex_go_inv addr m m' pcs t th th' :
  mutex_inv m pcs -> pcs !! t = Some th -> mutex_next addr t th m = Go m' th' -> mutex_inv m' (<[t := th']> pcs).
Proof.
  destruct th as [n c]. intros I Ht E. pose proof (mi_places _ _ I t _ Ht) as [_ (_ & _ & _ & Hpl)].
  destruct (writes_field c) eqn:Hw; [by eapply go_field|].
  destruct c as [|timed| |timed| |timed| | |timed| | | | | | | | | | | | |]; try done.
  - apply (go_check addr m m' pcs t n th' I (L_check timed)); [destruct timed; tauto|done|done].
  - apply (go_try addr m m' pcs t n th' I (L_cas timed)); [left; exists timed; tauto|done|done].
  - apply (go_try addr m m' pcs t n th' I (L_xchg1 timed)); [left; exists timed; tauto|done|done].
  - apply (go_try addr m m' pcs t n th' I (L_xchg2 timed)); [left; exists timed; tauto|done|done].
  - apply (go_check addr m m' pcs t n th' I T_check); [tauto|done|done].
  - apply (go_try addr m m' pcs t n th' I T_cas); [tauto|done|done].
  - apply (go_check addr m m' pcs t n th' I U_check); [tauto|done|done].
  - by eapply go_xchg.
Qed.

(** Calls, returns and the system calls only move the thread. *)
Lemma mutex_quiet_inv m pcs t n c c' :
  mutex_inv m pcs -> pcs !! t = Some (mk_mthread n c) ->
  match c with
  | Ret _ => c' = L_check false \/ c' = L_check true \/ c' = T_check \/
             (c' = U_check /\ ((0 < n)%nat \/ m_type m <> PTHREAD_MUTEX_NORMAL))
  | L_wait b => c' = L_sleep b \/ c' = L_xchg2 b \/ exists r, c' = Ret r
  | L_sleep b => c' = L_xchg2 b \/ exists r, c' = Ret r
  | U_wake => c' = Ret 0
  | _ => False
  end -> mutex_inv m (<[t := mk_mthread n c']> pcs).
Proof.
  intros I Ht Hc. pose proof (mi_places _ _ I t _ Ht) as [_ (_ & _ & Hle & Hpl)]. cbn in Hpl, Hle.
  destruct c; try done.
  - destruct Hc as [->|[->|[->|[-> Hc]]]]; apply (inv_goto m pcs t n _ I Ht); place_cond.
  - destruct Hc as [->|[->|[r ->]]]; apply (inv_goto m pcs t n _ I Ht); place_cond.
  - destruct Hc as [->|[r ->]]; apply (inv_goto m pcs t n _ I Ht); place_cond.
  - subst c'. apply (inv_goto m pcs t n _ I Ht); place_cond.
Qed.

(** ** No wake-up is lost *)

Section Concurrent.
Context {K : Type} `{FutexLaws K} (addr : Z).

Notation mstep := (step (mutex_prog addr)).

(** The thread will look at the mutex again, or wake a thread that will. *)
Definition active (k : K) (t : nat) (th : mthread) : Prop :=
  match at_ th with
  | L_xchg1 _ | L_xchg2 _ | U_wake => True
  | L_sleep timed => (forall a, ~ fx_asleep k t a) /\ (fx_chosen k t \/ timed = false)
  | _ => False
  end.

Definition wake_inv (u : usys K pthread_mutex mthread) : Prop :=
  forall x, fx_asleep (u_k u) x addr -> m_state (u_mem u) = MUTEX_CONTENDED \/
    exists t th, u_pcs u !! t = Some th /\ active (u_k u) t th.

Record mutex_sys_inv (u : usys K pthread_mutex mthread) : Prop := {
  ms_sys : usys_ok (mutex_prog addr) u;
  ms_mutex : mutex_inv (u_mem u) (u_pcs u);
  ms_wake : wake_inv u;
}.

Lemma active_go t c m m' th' n :
  mutex_next addr t (mk_mthread n c) m = Go m' th' -> (forall old, c <> L_died old /\ c <> T_died old) ->
  (m_state m = MUTEX_CONTENDED \/ (exists b, c = L_xchg1 b \/ c = L_xchg2 b)) ->
  m_state m' = MUTEX_CONTENDED \/ at_ th' = U_wake.
Proof.
  intros E Hd Hc. destruct Hc as [Hc|[b [->| ->]]]; [|injection E as <- <-; by left|injection E as <- <-; by left].
  unfold mutex_next in E. destruct c; cbn [held at_] in E; rewrite ?Hc in E;
    try (by destruct (Hd old)); repeat case_match; try done; injection E as <- <-; auto.
Qed.

(** Threads other than the one that moves stay active. *)
Lemma active_other (k k' : K) (pcs : gmap nat mthread) t th' x :
  (exists t' th, pcs !! t' = Some th /\ active k t' th /\ t' <> t) ->
  (forall y th, y <> t -> active k y th -> active k' y th) ->
  x \/ exists t' th, <[t := th']> pcs !! t' = Some th /\ active k' t' th.
Proof.
  intros (t' & th & Ht' & Ha & Hne) Hk. right. exists t', th. rewrite lookup_insert_ne by done. auto.
Qed.

Lemma wake_inv_go m pcs (k : K) t th m' th' :
  mutex_inv m pcs -> wake_inv (mk_usys m pcs k) -> pcs !! t = Some th ->
  mutex_next addr t th m = Go m' th' -> wake_inv (mk_usys m' (<[t := th']> pcs) k).
Proof.
  intros I Hw Ht E x Hx. unfold wake_inv in Hw. cbn [u_mem u_pcs u_k] in *. destruct th as [n c]. pose proof (mi_places _ _ I t _ Ht) as [_ (_ & _ & _ & Hpl)].
  assert (Hd : forall old, c <> L_died old /\ c <> T_died old) by (intros old; split; by intros ->).
  assert (Hgo : m_state m = MUTEX_CONTENDED \/ (exists b, c = L_xchg1 b \/ c = L_xchg2 b) ->
    m_state m' = MUTEX_CONTENDED \/ exists t' th, <[t := th']> pcs !! t' = Some th /\ active k t' th).
  { intros Hc. destruct (active_go t c m m' th' n E Hd Hc) as [?|Hat]; [by left|right]. exists t, th'.
    rewrite lookup_insert_eq. split; [done|]. unfold active. by rewrite Hat. }
  destruct (Hw x Hx) as [Hst|(t' & th & Ht' & Ha)]; [by apply Hgo; left|].
  destruct (decide (t' = t)) as [->|Hne]; [|apply (active_other k k pcs t th'); [by exists t', th|done]].
  assert (th = mk_mthread n c) as -> by congruence. apply Hgo. right. unfold active in Ha. cbn in Ha.
  destruct c; try done; eauto.
Qed.

(** The thread leaves a place where it is not active. *)
Lemma wake_inv_quiet m pcs (k k' : K) t th th' :
  wake_inv (mk_usys m pcs k) -> pcs !! t = Some th -> (active k t th -> active k' t th') ->
  (forall x, fx_asleep k' x addr -> fx_asleep k x addr) ->
  (forall y th, y <> t -> active k y th -> active k' y th) -> wake_inv (mk_usys m (<[t := th']> pcs) k').
Proof.
  intros Hw Ht Ha Hsub Hk x Hx. unfold wake_inv in Hw. cbn [u_mem u_pcs u_k] in *. destruct (Hw x (Hsub x Hx)) as [Hst|(t' & th1 & Ht' & Ha')]; [by left|].
  destruct (decide (t' = t)) as [->|Hne]; [|apply (active_other k k' pcs t th'); [by exists t', th1|done]].
  right. exists t, th'. rewrite lookup_insert_eq. split; [done|]. apply Ha. by replace th with th1 by congruence.
Qed.

Lemma active_mono (k k' : K) t th :
  (forall a, fx_asleep k' t a -> fx_asleep k t a) -> (fx_chosen k t -> fx_chosen k' t) -> active k t th -> active k' t th.
Proof. intros H1 H2. unfold active. destruct (at_ th); try done. intros [H3 H4]; (split; [intros a Ha; by apply (H3 a), H1|tauto]). Qed.

(** [U_wake]: a woken thread takes over. *)
Lemma wake_inv_wake m pcs (k k' : K) t n :
  usys_ok (mutex_prog addr) (mk_usys m pcs k) -> fx_running k t = true -> pcs !! t = Some (mk_mthread n U_wake) ->
  fx_wake t addr 1 k k' -> wake_inv (mk_usys m (<[t := mk_mthread n (Ret 0)]> pcs) k').
Proof.
  intros Hu Hr Ht Hwk x Hx. pose proof Hu as [Hk Hin]. cbn [u_mem u_pcs u_k] in *.
  destruct (wake_law k t addr 1 k' Hk Hr ltac:(lia) Hwk) as (_ & _ & W & _ & HW & _ & Hall & Has & Hch).
  pose proof (proj1 (Has x addr) Hx) as [Hx0 Hxn]. right. destruct W as [|y W].
  { exfalso. apply Hxn, Hall; [|done]. cbn [length]. pose proof fx_limit_pos. lia. }
  pose proof (HW y ltac:(left)) as Hy. destruct (asleep_inside k y addr Hk Hy) as [Hyi _].
  apply Hin in Hyi as (th & Hty & Hsl). exists y, th. assert (y <> t) by (intros ->; by eapply (running_awake k t)).
  rewrite lookup_insert_ne by done. split; [done|].
  change (mutex_sleeping th = true) in Hsl. unfold mutex_sleeping in Hsl. unfold active. destruct (at_ th); try done. split; [|left; apply Hch; left; left]. intros a Ha. apply Has in Ha as [_ Ha]. apply Ha. left.
Qed.

Lemma wake_inv_step u u' : mutex_sys_inv u -> mstep u u' -> wake_inv u'.
Proof.
  intros [Hu I Hw] Hs. pose proof Hu as [Hk Hin]. destruct Hs as [m pcs k t c m' c' Hr Ht E|m pcs k t [n c] a v c' k' Hr Ht E Hv Hsl|
    m pcs k t [n c] a v c' r e Hr Ht E Hv|m pcs k t [n c] r e k' Hr Ht Hret|m pcs k t [n c] a nw c' k' Hr Ht E Hwk|
    m pcs k t [n c] c' Hr Ht Hc|m pcs k t k' Hi|m pcs k k' Hi]; cbn [u_mem u_pcs u_k] in *.
  - by eapply wake_inv_go.
  - apply mutex_next_wait in E as (b & -> & -> & -> & ->). intros x Hx. left. cbn in Hv |- *. by rewrite Z.eqb_refl in Hv.
  - apply mutex_next_wait in E as (b & -> & -> & -> & ->). by eapply wake_inv_quiet.
  - destruct (return_law k t r k' Hk Hr Hret) as (_ & _ & _ & Has & Hch & _ & Hres).
    eapply wake_inv_quiet; [done|done| |by intros x; rewrite Has|].
    + unfold active, mutex_after. cbn [p_after mutex_prog mutex_after at_ held]. destruct c; try done.
      intros [_ Hc]. destruct timed; [|done]. destruct Hc as [Hc|?]; [|done]. by destruct Hres as [[-> _]|[_ ?]].
    + intros y th Hy. apply active_mono; [intros a; by rewrite Has|intros; by rewrite Hch].
  - apply mutex_next_wake in E as (-> & -> & -> & ->). by eapply wake_inv_wake.
  - eapply wake_inv_quiet; [done|done| |done|done]. destruct Hc as (r & c1 & Ec & -> & _). cbn in Ec. subst c. done.
  - destruct (interrupt_law k t k' Hk Hi) as (_ & _ & Has & Hch). intros x Hx. apply Has in Hx as [_ Hx].
    destruct (Hw x Hx) as [?|(t' & th & Ht' & Ha)]; [by left|right]. exists t', th. split; [done|].
    eapply active_mono; [intros a Ha'; by apply Has in Ha' as [_ ?]|by rewrite Hch|done].
  - destruct (schedule_law k k' Hk Hi) as (_ & _ & Has & Hch). intros x Hx. apply Has in Hx.
    destruct (Hw x Hx) as [?|(t' & th & Ht' & Ha)]; [by left|right]. exists t', th. split; [done|].
    eapply active_mono; [intros a Ha'; by apply Has in Ha'|by rewrite Hch|done].
Qed.

Lemma mutex_inv_step u u' : mutex_sys_inv u -> mstep u u' -> mutex_inv (u_mem u') (u_pcs u').
Proof.
  intros [Hu I Hw] Hs. destruct Hs as [m pcs k t c m' c' Hr Ht E|m pcs k t [n c] a v c' k' Hr Ht E Hv Hsl|
    m pcs k t [n c] a v c' r e Hr Ht E Hv|m pcs k t [n c] r e k' Hr Ht Hret|m pcs k t [n c] a nw c' k' Hr Ht E Hwk|
    m pcs k t [n c] c' Hr Ht Hc|m pcs k t k' Hi|m pcs k k' Hi]; cbn [u_mem u_pcs u_k] in *; try done.
  - exact (mutex_go_inv addr m m' pcs t c c' I Ht E).
  - apply mutex_next_wait in E as (b & -> & -> & -> & ->). apply (mutex_quiet_inv m pcs t n _ _ I Ht). auto.
  - apply mutex_next_wait in E as (timed & -> & -> & -> & ->).
    cbn [p_after mutex_prog mutex_after at_ held]. destruct timed; [destruct (_ && _)|]; apply (mutex_quiet_inv m pcs t n _ _ I Ht); eauto.
  - destruct (return_law k t r k' (us_kernel _ _ Hu) Hr Hret) as (_ & Hin & _).
    apply (inside_at _ _ t _ Hu Ht) in Hin. cbn in Hin. unfold mutex_sleeping in Hin. cbn in Hin. destruct c; try done.
    cbn [p_after mutex_prog mutex_after at_ held]. destruct timed; [destruct (_ && _)|]; apply (mutex_quiet_inv m pcs t n _ _ I Ht); eauto.
  - apply mutex_next_wake in E as (-> & -> & -> & ->). by apply (mutex_quiet_inv m pcs t n _ _ I Ht).
  - destruct Hc as (r & c1 & Ec & -> & Hc). cbn in Ec. subst c. cbn [held] in *. by apply (mutex_quiet_inv m pcs t n _ _ I Ht).
Qed.

Lemma mutex_sys_step u u' : mutex_sys_inv u -> mstep u u' -> mutex_sys_inv u'.
Proof.
  intros Hi Hs. split; [eapply step_ok; [apply mutex_prog_ok|apply Hi|done]|by eapply mutex_inv_step|by eapply wake_inv_step].
Qed.

(** A mutex as [pthread_mutex_init] leaves it, and threads that have not used it. *)
Record initial (u : usys K pthread_mutex mthread) : Prop := {
  in_mem : exists attr, u_mem u = pthread_mutex_init attr;
  in_pcs : forall t th, u_pcs u !! t = Some th -> t <> 0%nat /\ th = mk_mthread 0 (Ret 0);
  in_kernel : fx_ok (u_k u);
  in_awake : forall t, ~ fx_inside (u_k u) t;
}.

Lemma mutex_initial_inv u : initial u -> mutex_sys_inv u.
Proof.
  intros [[attr Hm] Hp Hk Ha]. split.
  - split; [done|]. intros t. split; [by intros ?%Ha|]. intros (c & Hc & Hs). apply Hp in Hc as [_ ->]. done.
  - assert (Hz : m_state (u_mem u) = 0 /\ m_owner_tid (u_mem u) = 0) by (rewrite Hm; by destruct attr as [[]|]).
    destruct Hz as [Hz Ho]. split; [lia| |].
    + intros t th Hc. apply Hp in Hc as [? ->]. split; [done|]. split_and!; cbn; done || lia.
    + exists None. split_and!; [done| |done]. intros t th Hc. by apply Hp in Hc as [? ->].
  - intros x Hx. exfalso. by apply (Ha x), (asleep_inside (u_k u) x addr).
Qed.

Lemma mutex_reachable_inv u0 u : initial u0 -> reachable (mutex_prog addr) u0 u -> mutex_sys_inv u.
Proof. intros Hi Hr. induction Hr as [|u u' Hr IH Hs]; [by apply mutex_initial_inv|]. by eapply mutex_sys_step. Qed.

(** C9.  Mutual exclusion: whatever the threads do (lock, try, lock with a timeout,
    unlock, in any interleaving, with spurious wake-ups and failing system calls),
    at most one thread holds the mutex.  Exactly then the state is not 0; and while
    the holder is outside the calls, [owner_tid] is its id and, in a recursive
    mutex, [count] is the number of times it has locked it. *)
Theorem mutex_exclusion u0 u :
  initial u0 -> reachable (mutex_prog addr) u0 u ->
  (forall t t' th th', u_pcs u !! t = Some th -> u_pcs u !! t' = Some th' ->
     (0 < held th)%nat -> (0 < held th')%nat -> t = t') /\
  (forall t th, u_pcs u !! t = Some th -> (0 < held th)%nat -> m_state (u_mem u) <> MUTEX_UNLOCKED) /\
  (m_state (u_mem u) <> MUTEX_UNLOCKED -> exists t th, u_pcs u !! t = Some th /\ owns th = true) /\
  (forall t n r, u_pcs u !! t = Some (mk_mthread n (Ret r)) -> (0 < n)%nat ->
     m_owner_tid (u_mem u) = Z.of_nat t /\
     (m_type (u_mem u) = PTHREAD_MUTEX_RECURSIVE -> m_count (u_mem u) = Z.of_nat n) /\
     (m_type (u_mem u) <> PTHREAD_MUTEX_RECURSIVE -> n = 1%nat)).
Proof.
  intros Hi Hr. destruct (mutex_reachable_inv u0 u Hi Hr) as [_ I _]. destruct (mi_owner _ _ I) as (o & Ho & Hall & Hf).
  assert (Hheld : forall t th, u_pcs u !! t = Some th -> (0 < held th)%nat -> o = Some t).
  { intros t th Ht Hh. apply (Hall t th Ht). unfold owns. by rewrite (proj2 (Nat.ltb_lt _ _)). }
  split_and!.
  - intros t t' th th' Ht Ht' Hh Hh'. pose proof (Hheld t th Ht Hh). pose proof (Hheld t' th' Ht' Hh'). congruence.
  - intros t th Ht Hh Hz. apply Ho in Hz. pose proof (Hheld t th Ht Hh). congruence.
  - intros Hz. destruct o as [t|]; [|by destruct Hz; apply Ho]. destruct Hf as (th & Ht & _). exists t, th.
    split; [done|]. by apply (Hall t th Ht).
  - intros t n r Ht Hn. pose proof (Hheld t _ Ht Hn) as ->. destruct Hf as (th & Ht' & Hown & Hcnt).
    assert (th = mk_mthread n (Ret r)) as -> by congruence. destruct (mi_places _ _ I t _ Ht) as [_ (_ & _ & Hle & _)].
    unfold published in Hown. cbn [at_ held] in Hown, Hle. rewrite (proj2 (Nat.ltb_lt _ _)) in Hown by done.
    split_and!; [done|intros Hty; by apply Hcnt|intros Hty; specialize (Hle Hty); lia].
Qed.

(** C13.  No wake-up is lost: when a thread sleeps in [futex_wait] on the mutex, some
    thread holds the mutex in the contended state, so that its release will wake a
    thread, or some other thread can run (it executes or is on a run queue) and is
    about to mark the mutex contended, to try it again or to wake a sleeper. *)
Theorem mutex_no_lost_wakeup u0 u x :
  initial u0 -> reachable (mutex_prog addr) u0 u -> fx_asleep (u_k u) x addr ->
  (m_state (u_mem u) = MUTEX_CONTENDED /\ exists t th, u_pcs u !! t = Some th /\ owns th = true) \/
  exists t th, u_pcs u !! t = Some th /\ active (u_k u) t th /\ t <> x /\
    (mutex_sleeping th = true -> fx_scheduled (u_k u) t = true).
Proof.
  intros Hi Hr Hx. destruct (mutex_reachable_inv u0 u Hi Hr) as [Hu I Hw].
  destruct (Hw x Hx) as [Hst|(t & th & Ht & Ha)]; [left|right].
  - split; [done|]. destruct (mi_owner _ _ I) as (o & Ho & Hall & Hf). destruct o as [t|].
    + destruct Hf as (th & Ht & _). exists t, th. split; [done|]. by apply (Hall t th Ht).
    + by rewrite (proj2 Ho eq_refl) in Hst.
  - exists t, th. split_and!; [done|done| |].
    + intros ->. apply (asleep_inside _ _ _ (us_kernel _ _ Hu)) in Hx as Hin. destruct Hin as [Hin _].
      apply (inside_at _ _ x th Hu Ht) in Hin. change (mutex_sleeping th = true) in Hin. unfold mutex_sleeping in Hin.
      unfold active in Ha. destruct (at_ th); try done. by destruct Ha as [Ha _]; apply (Ha addr).
    + intros Hs. apply (inside_scheduled _ _ (us_kernel _ _ Hu)); [by apply (inside_at _ _ t th Hu Ht)|].
      unfold mutex_sleeping in Hs. unfold active in Ha. destruct (at_ th); try done. apply Ha.
Qed.

End Concurrent.

(** ** Witnesses: thread 1 takes the mutex, thread 2 goes to sleep *)

#[local] Existing Instance demo_ops.
#[local] Existing Instance demo_laws.

Definition demo_addr : Z := 0x601000.
Definition demo_mutex : usys fstate pthread_mutex mthread :=
  mk_usys (pthread_mutex_init None) {[ 1%nat := mk_mthread 0 (Ret 0); 2%nat := mk_mthread 0 (Ret 0) ]} demo_fk.

Lemma demo_mutex_initial : initial demo_mutex.
Proof.
  split; [by exists None| |exact demo_fk_ok|exact demo_fk_awake].
  intros t th Ht. cbn [u_pcs demo_mutex] in Ht. apply lookup_insert_Some in Ht as [[<- <-]|[_ [<- <-]%lookup_singleton_Some]]; done.
Qed.

Lemma demo_mutex_run : exists k pcs m,
  reachable (mutex_prog demo_addr) demo_mutex (mk_usys m pcs k) /\
  fx_asleep k 2 demo_addr /\ pcs !! 1%nat = Some (mk_mthread 1 (Ret 0)).
Proof.
  destruct demo_fk_running as [R1 R2].
  pose proof (reach_init (mutex_prog demo_addr) demo_mutex) as H. unfold demo_mutex at 2 in H.
  eapply (reach_client _ _ _ _ _ 1 _ (mk_mthread 0 (L_check false))) in H; [|exact R1|reflexivity|by eexists _, _; auto].
  do 4 (eapply (reach_go _ _ _ _ _ 1) in H; [|exact R1|apply lookup_insert_eq|reflexivity]).
  eapply (reach_client _ _ _ _ _ 2 _ (mk_mthread 0 (L_check false))) in H; [|exact R2|reflexivity|by eexists _, _; auto].
  do 3 (eapply (reach_go _ _ _ _ _ 2) in H; [|exact R2|apply lookup_insert_eq|reflexivity]).
  eapply (reach_sleep _ _ _ _ _ 2) in H;
    [|exact demo_fk_ok|exact R2|exact (demo_fk_awake 2)|apply lookup_insert_eq|reflexivity|reflexivity].
  destruct H as (k & H & Hs). eexists k, _, _. split_and!; [exact H|exact Hs|reflexivity].
Qed.

Lemma mutex_exclusion_witness :
  exists u, initial demo_mutex /\ reachable (mutex_prog demo_addr) demo_mutex u /\
    exists th, u_pcs u !! 1%nat = Some th /\ m_state (u_mem u) <> MUTEX_UNLOCKED.
Proof.
  destruct demo_mutex_run as (k & pcs & m & Hr & _ & H1). exists (mk_usys m pcs k).
  split_and!; [exact demo_mutex_initial|exact Hr|]. exists (mk_mthread 1 (Ret 0)). split; [exact H1|].
  destruct (mutex_exclusion demo_addr demo_mutex (mk_usys m pcs k) demo_mutex_initial Hr) as (_ & H & _).
  apply (H 1%nat (mk_mthread 1 (Ret 0)) H1). apply Nat.lt_0_succ.
Defined.

Lemma mutex_no_lost_wakeup_witness :
  exists u, initial demo_mutex /\ reachable (mutex_prog demo_addr) demo_mutex u /\ fx_asleep (u_k u) 2 demo_addr /\
    exists t th, u_pcs u !! t = Some th /\ (owns th = true \/ active (u_k u) t th).
Proof.
  destruct demo_mutex_run as (k & pcs & m & Hr & Hs & _). exists (mk_usys m pcs k).
  split_and!; [exact demo_mutex_initial|exact Hr|exact Hs|].
  destruct (mutex_no_lost_wakeup demo_addr demo_mutex (mk_usys m pcs k) 2 demo_mutex_initial Hr Hs)
    as [[_ (t & th & Ht & Ho)]|(t & th & Ht & Ha & _)]; exists t, th; auto.
Defined.
