(* ===== verification/Barrier.v ===== *)
(** * Barriers ([userland/libc/src/pthread/pthread_sync.c])

    [pthread_barrier_wait] as a program over the memory of one barrier, used by
    exactly as many threads as its threshold.  The theorems: no thread returns from
    its k-th wait before all have started theirs, and no thread keeps sleeping
    after its round is over. *)

From Stdlib Require Import ZArith Lia Bool.
From stdpp Require Import base list gmap fin_maps.
From S2P Require Import Prelude Chain Sched Wait Futex Threads.

Open Scope Z_scope.

Definition PTHREAD_BARRIER_SERIAL_THREAD : Z := -1.

Record pthread_barrier := mk_barrier {
  b_count : Z;
  b_generation : Z;
  b_threshold : Z;
}.

Definition pthread_barrier_init (count : Z) : Z + pthread_barrier :=
  if count =? 0 then inl EINVAL else inr (mk_barrier 0 0 count).

Inductive bplace :=
  | B_ret (r : Z)                (* outside; the last call returned [r] *)
  | B_gen                        (* gen = generation *)
  | B_add (gen : Z)              (* new_count = fetch_and_add(count, 1) + 1 *)
  | B_reset                      (* count = 0 *)
  | B_next                       (* fetch_and_add(generation, 1) *)
  | B_wake                       (* futex_wake(generation, INT_MAX) *)
  | B_loop (gen : Z)             (* generation == gen ? *)
  | B_wait (gen : Z)             (* futex_wait *)
  | B_sleep (gen : Z).           (* inside futex_wait *)

(** A thread: the calls it has started, and where it is. *)
Record bthread := mk_bthread { calls : nat; b_at : bplace }.

Section Barrier.
Variable addr : Z.       (* &barrier->generation *)

Definition barrier_next (t : nat) (th : bthread) (b : pthread_barrier) : action pthread_barrier bthread :=
  let to c := mk_bthread (calls th) c in
  match b_at th with
  | B_ret _ | B_sleep _ => Rest
  | B_gen => Go b (to (B_add (b_generation b)))
  | B_add gen =>
      let new_count := u32 (b_count b + 1) in
      Go (mk_barrier new_count (b_generation b) (b_threshold b))
        (to (if new_count =? b_threshold b then B_reset else B_loop gen))
  | B_reset => Go (mk_barrier 0 (b_generation b) (b_threshold b)) (to B_next)
  | B_next => Go (mk_barrier (b_count b) (u32 (b_generation b + 1)) (b_threshold b)) (to B_wake)
  | B_wake => Wake addr INT_MAX (to (B_ret PTHREAD_BARRIER_SERIAL_THREAD))
  | B_loop gen => Go b (to (if b_generation b =? gen then B_wait gen else B_ret 0))
  | B_wait gen => Wait addr gen (to (B_sleep gen))
  end.

Definition barrier_after (t : nat) (th : bthread) (r e : Z) : bthread :=
  match b_at th with
  | B_sleep gen => mk_bthread (calls th) (B_loop gen)
  | _ => mk_bthread (calls th) (B_ret 0)
  end.

Definition barrier_sleeping (th : bthread) : bool := match b_at th with B_sleep _ => true | _ => false end.

Definition barrier_client (t : nat) (b : pthread_barrier) (th th' : bthread) : Prop :=
  exists r, b_at th = B_ret r /\ th' = mk_bthread (S (calls th)) B_gen.

Definition barrier_prog : program pthread_barrier bthread := {|
  p_next := barrier_next;
  p_after := barrier_after;
  p_sleeping := barrier_sleeping;
  p_word := fun b a => if a =? addr then b_generation b else 0;
  p_client := barrier_client;
|}.

Lemma barrier_next_wait t n c b a v th' :
  barrier_next t (mk_bthread n c) b = Wait a v th' ->
  c = B_wait v /\ a = addr /\ th' = mk_bthread n (B_sleep v).
Proof. unfold barrier_next. destruct c; cbn [b_at calls]; intros E; by simplify_eq. Qed.

Lemma barrier_next_wake t n c b a k th' :
  barrier_next t (mk_bthread n c) b = Wake a k th' ->
  c = B_wake /\ a = addr /\ k = INT_MAX /\ th' = mk_bthread n (B_ret PTHREAD_BARRIER_SERIAL_THREAD).
Proof. unfold barrier_next. destruct c; cbn [b_at calls]; intros E; by simplify_eq. Qed.

Lemma barrier_prog_ok : program_ok barrier_prog.
Proof.
  split; cbn.
  - intros t [n c] b b' c'. unfold barrier_next, barrier_sleeping. destruct c; cbn [b_at calls]; intros E; simplify_eq;
      cbn [b_at]; first [done | by destruct (_ =? _)].
  - intros t [n c] b a v c' (-> & -> & ->)%barrier_next_wait. done.
  - intros t [n c] b a k c' (-> & -> & -> & ->)%barrier_next_wake. done.
  - intros t [n c] r e. by destruct c.
  - intros t b [n c] c' (r & E & ->). cbn in E. by subst c.
Qed.

End Barrier.

(** ** Rounds *)

(** How often the thread has arrived: the calls that have incremented the count. *)
Definition arrived (th : bthread) : nat :=
  match b_at th with B_gen | B_add _ => pred (calls th) | _ => calls th end.

Definition leads (th : bthread) : bool := match b_at th with B_reset | B_next => true | _ => false end.

(** The number of threads that have arrived [n] times. *)
Definition arrivals (n : nat) (pcs : gmap nat bthread) : nat := size (filter (fun '(_, th) => arrived th = n) pcs).

Lemma size_filter_insert {A} (P : A -> Prop) `{forall x, Decision (P x)} (m : gmap nat A) t x y :
  m !! t = Some x ->
  (size (filter (fun '(_, z) => P z) (<[t := y]> m)) + (if decide (P x) then 1 else 0) =
   size (filter (fun '(_, z) => P z) m) + (if decide (P y) then 1 else 0))%nat.
Proof.
  intros Hx. rewrite <- (insert_delete_id m t x Hx) at 2. rewrite <- (insert_delete_eq m t y) at 1.
  set (d := delete t m). assert (Hd : d !! t = None) by apply lookup_delete_eq.
  assert (Hs : forall z, size (filter (fun '(_, z) => P z) (<[t := z]> d)) =
    (size (filter (fun '(_, z) => P z) d) + (if decide (P z) then 1 else 0))%nat).
  { intros z. case_decide as Hz.
    - rewrite map_filter_insert_True by done. rewrite map_size_insert_None; [lia|].
      apply map_lookup_filter_None. by left.
    - rewrite map_filter_insert_not' by (done || intros ? E; congruence). lia. }
  rewrite !Hs. lia.
Qed.

Lemma size_filter_all {A} (P : A -> Prop) `{forall x, Decision (P x)} (m : gmap nat A) :
  size (filter (fun '(_, z) => P z) m) = size m -> forall t x, m !! t = Some x -> P x.
Proof.
  intros Hs t x Hx. destruct (decide (P x)) as [|Hn]; [done|exfalso].
  assert (Hsub : filter (fun '(_, z) => P z) m ⊆ delete t m).
  { apply map_subseteq_spec. intros i z [Hi Hz]%map_lookup_filter_Some. apply lookup_delete_Some. split; [|done].
    intros <-. congruence. }
  apply map_subseteq_size in Hsub. rewrite map_size_delete_Some in Hsub by (by exists x).
  assert (size m <> 0)%nat by (rewrite map_size_ne_0_lookup; by exists t, x || by eexists). lia.
Qed.

(** The place of a thread in round [R]: inside its wait it belongs to this round,
    or to the last one and has not noticed yet that it is over. *)
Definition bplace_ok (R : nat) (th : bthread) : Prop :=
  match b_at th with
  | B_ret _ | B_wake => calls th = R
  | B_gen | B_reset | B_next => calls th = S R
  | B_add gen => calls th = S R /\ gen = u32 (Z.of_nat R)
  | B_loop gen | B_wait gen | B_sleep gen =>
      (calls th = S R /\ gen = u32 (Z.of_nat R)) \/
      (calls th = R /\ (0 < R)%nat /\ gen = u32 (Z.of_nat (pred R)))
  end.

Record barrier_inv (N R : nat) (b : pthread_barrier) (pcs : gmap nat bthread) : Prop := {
  bi_size : size pcs = N;
  bi_range : 0 < Z.of_nat N <= INT_MAX;
  bi_threshold : b_threshold b = Z.of_nat N;
  bi_generation : b_generation b = u32 (Z.of_nat R);
  bi_place : forall t th, pcs !! t = Some th -> bplace_ok R th;
  bi_phase : exists o : option nat, (forall t th, pcs !! t = Some th -> leads th = true <-> o = Some t) /\
    match o with
    | None => b_count b = Z.of_nat (arrivals (S R) pcs) /\ (arrivals (S R) pcs < N)%nat
    | Some t => (forall t' th, pcs !! t' = Some th -> arrived th = S R) /\
        exists th, pcs !! t = Some th /\ (b_at th = B_next -> b_count b = 0)
    end;
}.

Lemma arrivals_upd n (pcs : gmap nat bthread) t th th' :
  pcs !! t = Some th ->
  (arrivals n (<[t := th']> pcs) + (if decide (arrived th = n) then 1 else 0) =
   arrivals n pcs + (if decide (arrived th' = n) then 1 else 0))%nat.
Proof. intros Ht. exact (size_filter_insert (fun th => arrived th = n) pcs t th th' Ht). Qed.

Section Preserve.
Context (N R : nat) (b : pthread_barrier) (pcs : gmap nat bthread) (t : nat) (th : bthread).
Hypothesis I : barrier_inv N R b pcs.
Hypothesis Ht : pcs !! t = Some th.

Lemma bi_size_upd th' : size (<[t := th']> pcs) = N.
Proof. rewrite map_size_insert_Some by done. apply I. Qed.

Lemma bi_place_upd th' :
  bplace_ok R th' -> forall x tx, <[t := th']> pcs !! x = Some tx -> bplace_ok R tx.
Proof. intros Hp x tx [[<- <-]|[_ Hx]]%lookup_insert_Some; [done|by apply (bi_place _ _ _ _ I x)]. Qed.

(** A step that arrives nowhere and does not touch the memory. *)
Lemma binv_move th' :
  bplace_ok R th' -> arrived th' = arrived th -> leads th = false -> leads th' = false ->
  barrier_inv N R b (<[t := th']> pcs).
Proof.
  intros Hp Ea Hl Hl'. destruct (bi_phase _ _ _ _ I) as (o & Ho & Hph).
  split; [apply bi_size_upd|apply I|apply I|apply I|by apply bi_place_upd|]. exists o. split.
  - intros x tx [[<- <-]|[_ Hx]]%lookup_insert_Some; [|by apply Ho]. rewrite <- (Ho t th Ht), Hl, Hl'. done.
  - destruct o as [l|].
    + destruct Hph as [H1 H2]. assert (l <> t) by (intros ->; by rewrite (proj2 (Ho t th Ht)) in Hl). split.
      * intros x tx [[<- <-]|[_ Hx]]%lookup_insert_Some; [rewrite Ea|]; by eapply H1.
      * by rewrite lookup_insert_ne.
    + pose proof (arrivals_upd (S R) pcs t th th' Ht) as E. rewrite Ea in E.
      assert (arrivals (S R) (<[t := th']> pcs) = arrivals (S R) pcs) as -> by lia. done.
Qed.

Lemma binv_add n gen :
  th = mk_bthread n (B_add gen) ->
  let new_count := u32 (b_count b + 1) in
  barrier_inv N R (mk_barrier new_count (b_generation b) (b_threshold b))
    (<[t := mk_bthread n (if new_count =? b_threshold b then B_reset else B_loop gen)]> pcs).
Proof.
  intros Eth new_count. set (th' := mk_bthread n _). destruct (bi_phase _ _ _ _ I) as (o & Ho & Hph).
  pose proof (bi_place _ _ _ _ I t th Ht) as Hp. rewrite Eth in Hp. destruct Hp as [Hn Hg]. cbn in Hn.
  assert (Ea : arrived th = R) by (rewrite Eth; cbn; by rewrite Hn).
  assert (Ea' : arrived th' = S R) by (unfold th', arrived; cbn; by destruct (_ =? _)).
  destruct o as [l|]; [exfalso; destruct Hph as [H1 _]; specialize (H1 t th Ht); lia|].
  destruct Hph as [Hc Hlt]. pose proof (arrivals_upd (S R) pcs t th th' Ht) as E.
  rewrite decide_False, decide_True in E by lia. pose proof (bi_range _ _ _ _ I) as Hrange. unfold INT_MAX in Hrange.
  assert (Enc : new_count = Z.of_nat (arrivals (S R) (<[t := th']> pcs))) by (unfold new_count; rewrite u32_small; lia).
  assert (Hno : forall x tx, x <> t -> pcs !! x = Some tx -> leads tx = false).
  { intros x tx _ Hx. apply not_true_iff_false. by rewrite (Ho x tx Hx). }
  split; [apply bi_size_upd|apply I|apply I|apply I| |].
  - apply bi_place_upd. unfold bplace_ok, th'. cbn. destruct (_ =? _); [done|]. left. done.
  - destruct (Z.eqb_spec new_count (b_threshold b)) as [Hlast|Hmore].
    + exists (Some t). split; [|split].
      * intros x tx Hx. destruct (decide (x = t)) as [->|Hne]; [rewrite lookup_insert_eq in Hx; by injection Hx as <-|].
        rewrite lookup_insert_ne in Hx by done. rewrite (Hno x tx Hne Hx). split; congruence.
      * rewrite (bi_threshold _ _ _ _ I) in Hlast. intros x tx Hx.
        apply (size_filter_all (fun th => arrived th = S R) (<[t := th']> pcs)) with x; [|done].
        rewrite bi_size_upd. unfold arrivals in Enc. lia.
      * exists th'. rewrite lookup_insert_eq. split; [done|]. by unfold th'.
    + exists None. split.
      * intros x tx Hx. destruct (decide (x = t)) as [->|Hne]; [rewrite lookup_insert_eq in Hx; by injection Hx as <-|].
        rewrite lookup_insert_ne in Hx by done. by rewrite (Hno x tx Hne Hx).
      * cbn. split; [done|]. rewrite (bi_threshold _ _ _ _ I) in Hmore. lia.
Qed.

Lemma binv_reset n :
  th = mk_bthread n B_reset ->
  barrier_inv N R (mk_barrier 0 (b_generation b) (b_threshold b)) (<[t := mk_bthread n B_next]> pcs).
Proof.
  intros Eth. destruct (bi_phase _ _ _ _ I) as (o & Ho & Hph). pose proof (bi_place _ _ _ _ I t th Ht) as Hp.
  assert (o = Some t) as -> by (apply (Ho t th Ht); by rewrite Eth). destruct Hph as [H1 _].
  split; [apply bi_size_upd|apply I|apply I|apply I|apply bi_place_upd; by rewrite Eth in Hp|].
  exists (Some t). split_and!; [| |by eexists; rewrite lookup_insert_eq].
  - intros x tx [[<- <-]|[Hne Hx]]%lookup_insert_Some; [done|by apply Ho].
  - intros x tx [[<- <-]|[Hne Hx]]%lookup_insert_Some; [|by eapply H1]. specialize (H1 t th Ht). by rewrite Eth in H1.
Qed.

Lemma u32_succ (n : nat) : u32 (u32 (Z.of_nat n) + 1) = u32 (Z.of_nat (S n)).
Proof. unfold u32. rewrite Nat2Z.inj_succ. rewrite Zplus_mod_idemp_l. f_equal. Qed.

Lemma binv_next n :
  th = mk_bthread n B_next ->
  barrier_inv N (S R) (mk_barrier (b_count b) (u32 (b_generation b + 1)) (b_threshold b)) (<[t := mk_bthread n B_wake]> pcs).
Proof.
  intros Eth. destruct (bi_phase _ _ _ _ I) as (o & Ho & Hph). pose proof (bi_place _ _ _ _ I t th Ht) as Hp.
  assert (o = Some t) as -> by (apply (Ho t th Ht); by rewrite Eth). destruct Hph as [H1 (th0 & Ht0 & H2)].
  assert (th0 = th) as -> by congruence.
  assert (Hnone : arrivals (S (S R)) (<[t := mk_bthread n B_wake]> pcs) = 0%nat).
  { unfold arrivals. apply map_size_empty_iff, map_empty. intros x. apply map_lookup_filter_None. right. intros tx Hx.
    apply lookup_insert_Some in Hx as [[<- <-]|[Hne Hx]]; [rewrite Eth in Hp; cbn in *; lia|]. rewrite (H1 x tx Hx). lia. }
  split; [apply bi_size_upd|apply I|apply I|cbn; by rewrite (bi_generation _ _ _ _ I), u32_succ| |].
  - intros x tx [[<- <-]|[Hne Hx]]%lookup_insert_Some; [by rewrite Eth in Hp|].
    pose proof (bi_place _ _ _ _ I x tx Hx) as Hpx. pose proof (H1 x tx Hx) as Hax.
    assert (Hlx : leads tx = false) by (apply not_true_iff_false; rewrite (Ho x tx Hx); congruence).
    unfold bplace_ok, arrived, leads in *. destruct (b_at tx); try done; try (exfalso; cbn in *; lia).
    all: right; destruct Hpx as [[? ?]|[? _]]; [split_and!; [done|lia|done]|lia].
  - exists None. cbn. rewrite Hnone. pose proof (bi_range _ _ _ _ I). split_and!; [|by apply H2; rewrite Eth|lia].
    intros x tx [[<- <-]|[Hne Hx]]%lookup_insert_Some; [done|]. rewrite (Ho x tx Hx). split; congruence.
Qed.

End Preserve.

Lemma not_all_arrived N R (pcs : gmap nat bthread) :
  size pcs = N -> (arrivals (S R) pcs < N)%nat -> exists t th, pcs !! t = Some th /\ arrived th <> S R.
Proof.
  intros Hs Hlt. destruct (decide (map_Forall (fun _ th => arrived th = S R) pcs)) as [Hall|Hn].
  - exfalso. unfold arrivals in Hlt. rewrite map_filter_id in Hlt by (intros i x Hx; by apply (Hall i)). lia.
  - apply map_not_Forall in Hn; [|apply _]. destruct Hn as (t & th & Ht & Hne). by exists t, th.
Qed.

(** ** The threads together *)

Section Concurrent.
Context {K : Type} `{FutexLaws K} (addr : Z) (N : nat).

Notation bstep := (step (barrier_prog addr)).

(** A thread asleep belongs to the current round, or the wake-up is under way. *)
Definition round_wake (R : nat) (u : usys K pthread_barrier bthread) : Prop :=
  forall x th, fx_asleep (u_k u) x addr -> u_pcs u !! x = Some th ->
    calls th = S R \/ exists t tt, u_pcs u !! t = Some tt /\ b_at tt = B_wake.

Record barrier_sys_inv (R : nat) (u : usys K pthread_barrier bthread) : Prop := {
  bs_sys : usys_ok (barrier_prog addr) u;
  bs_barrier : barrier_inv N R (u_mem u) (u_pcs u);
}.

Lemma barrier_inv_go R b pcs t th b' th' :
  barrier_inv N R b pcs -> pcs !! t = Some th -> barrier_next addr t th b = Go b' th' ->
  barrier_inv N (match b_at th with B_next => S R | _ => R end) b' (<[t := th']> pcs).
Proof.
  destruct th as [n c]. intros I Ht E. pose proof (bi_place _ _ _ _ I t _ Ht) as Hp. unfold barrier_next in E.
  unfold bplace_ok in Hp. destruct c; cbn [b_at calls] in *; try discriminate E; injection E as <- <-.
  - apply (binv_move N R b pcs t _ I Ht); try done. split; [done|]. apply I.
  - by apply (binv_add N R b pcs t _ I Ht).
  - by apply (binv_reset N R b pcs t _ I Ht).
  - by apply (binv_next N R b pcs t _ I Ht).
  - rewrite (bi_generation _ _ _ _ I). destruct (Z.eqb_spec (u32 (Z.of_nat R)) gen) as [Eg|Eg];
      apply (binv_move N R b pcs t _ I Ht); try done. destruct Hp as [[_ ?]|[? _]]; done.
Qed.

Lemma barrier_inv_quiet R b pcs t n c c' :
  barrier_inv N R b pcs -> pcs !! t = Some (mk_bthread n c) ->
  match c with
  | B_wait gen => c' = B_sleep gen \/ c' = B_loop gen
  | B_sleep gen => c' = B_loop gen
  | B_wake => exists r, c' = B_ret r
  | _ => False
  end -> barrier_inv N R b (<[t := mk_bthread n c']> pcs).
Proof.
  intros I Ht Hc. pose proof (bi_place _ _ _ _ I t _ Ht) as Hp. unfold bplace_ok in Hp. destruct c; try done; cbn in Hp.
  - destruct Hc as [r ->]. by apply (binv_move N R b pcs t _ I Ht).
  - destruct Hc as [->| ->]; by apply (binv_move N R b pcs t _ I Ht).
  - subst c'. by apply (binv_move N R b pcs t _ I Ht).
Qed.

(** The next round number. *)
Definition next_round (R : nat) (u u' : usys K pthread_barrier bthread) : Prop :=
  barrier_sys_inv R u' \/ (barrier_sys_inv (S R) u' /\ exists t tt, u_pcs u' !! t = Some tt /\ b_at tt = B_wake).

Lemma barrier_sys_step R u u' : barrier_sys_inv R u -> bstep u u' -> next_round R u u'.
Proof.
  intros [Hu I] Hs. pose proof (step_ok _ (barrier_prog_ok addr) u u' Hu Hs) as Hu'. unfold next_round.
  destruct Hs as [m pcs k t [n c] m' c' Hr Ht E|m pcs k t [n c] a v c' k' Hr Ht E Hv Hsl|
    m pcs k t [n c] a v c' r e Hr Ht E Hv|m pcs k t [n c] r e k' Hr Ht Hret|m pcs k t [n c] a nw c' k' Hr Ht E Hwk|
    m pcs k t [n c] c' Hr Ht Hc|m pcs k t k' Hi|m pcs k k' Hi]; cbn [u_mem u_pcs u_k] in *; try (left; by split).
  - pose proof (barrier_inv_go R m pcs t _ m' c' I Ht E) as I'.
    destruct c; try (left; by split). right. split; [by split|]. exists t, c'. rewrite lookup_insert_eq. split; [done|].
    by injection E as <- <-.
  - apply (barrier_next_wait addr t n c m) in E as (-> & -> & ->). left. split; [done|].
    exact (barrier_inv_quiet R m pcs t n (B_wait v) (B_sleep v) I Ht (or_introl eq_refl)).
  - apply (barrier_next_wait addr t n c m) in E as (-> & -> & ->). left. split; [done|].
    exact (barrier_inv_quiet R m pcs t n (B_wait v) (B_loop v) I Ht (or_intror eq_refl)).
  - left. split; [done|]. destruct (return_law k t r k' (us_kernel _ _ Hu) Hr Hret) as (_ & Hin & _).
    apply (inside_at _ _ t _ Hu Ht) in Hin. cbn in Hin. unfold barrier_sleeping in Hin. cbn in Hin. destruct c; try done.
    exact (barrier_inv_quiet R m pcs t n (B_sleep gen) (B_loop gen) I Ht eq_refl).
  - apply (barrier_next_wake addr t n c m) in E as (-> & -> & -> & ->). left. split; [done|].
    exact (barrier_inv_quiet R m pcs t n B_wake _ I Ht (ex_intro _ _ eq_refl)).
  - left. split; [done|]. destruct Hc as (r & Ec & ->). cbn in Ec. subst c. cbn.
    pose proof (bi_place _ _ _ _ I t _ Ht) as Hp. cbn in Hp. apply (binv_move N R m pcs t _ I Ht); try done. cbn. by rewrite Hp.
Qed.

(** The sleepers after a step within the round. *)
Lemma round_wake_quiet R b b' pcs (k k' : K) t th th' :
  round_wake R (mk_usys b pcs k) -> pcs !! t = Some th -> b_at th <> B_wake ->
  (forall x, fx_asleep k' x addr -> x <> t /\ fx_asleep k x addr) ->
  round_wake R (mk_usys b' (<[t := th']> pcs) k').
Proof.
  intros Hw Ht Hc Hsub x tx Hx Htx. cbn [u_k u_pcs] in *. destruct (Hsub x Hx) as [Hne Hx0].
  rewrite lookup_insert_ne in Htx by done. destruct (Hw x tx Hx0 Htx) as [?|(y & ty & Hy & Ey)]; [by left|right].
  exists y, ty. rewrite lookup_insert_ne; [done|]. intros <-. cbn [u_pcs] in Hy. congruence.
Qed.

(** The wake-up reaches every sleeper, if the kernel can wake that many. *)
Lemma round_wake_all R b pcs (k k' : K) t n :
  Z.of_nat N <= fx_limit + 1 -> usys_ok (barrier_prog addr) (mk_usys b pcs k) -> barrier_inv N R b pcs ->
  fx_running k t = true -> pcs !! t = Some (mk_bthread n B_wake) -> fx_wake t addr INT_MAX k k' ->
  forall x, ~ fx_asleep k' x addr.
Proof.
  intros Hlim [Hk Hin] I Hr Ht Hwk x Hx. cbn [u_k u_pcs] in *.
  destruct (wake_law k t addr INT_MAX k' Hk Hr ltac:(done) Hwk) as (_ & _ & W & Hnd & HW & _ & Hall & Has & _).
  pose proof (proj1 (Has x addr) Hx) as [Hx0 Hn]. clear Hx. rename Hx0 into Hx. apply Hn, Hall; [|done]. pose proof (proj2 (running_awake k t Hk Hr) addr) as Hta.
  assert (Hdom : forall y, fx_asleep k y addr -> is_Some (pcs !! y)).
  { intros y Hy. destruct (asleep_inside k y addr Hk Hy) as [Hyi _]. apply Hin in Hyi as (c & Hc & _). by exists c. }
  assert (Hlen : (length (x :: t :: W) <= size pcs)%nat).
  { apply length_le_size.
    - constructor; [|constructor; [|done]].
      + intros [->|?]%elem_of_cons; done.
      + intros ?%HW. done.
    - intros y [->|[->|Hy]%elem_of_cons]%elem_of_cons; [by apply Hdom|by eexists|by apply Hdom, HW]. }
  rewrite (bi_size _ _ _ _ I) in Hlen. cbn [length] in Hlen. pose proof (bi_range _ _ _ _ I). lia.
Qed.

Lemma round_wake_step R u u' :
  Z.of_nat N <= fx_limit + 1 -> barrier_sys_inv R u -> round_wake R u -> bstep u u' ->
  exists R', barrier_sys_inv R' u' /\ round_wake R' u'.
Proof.
  intros Hlim Hi Hw Hs. destruct (barrier_sys_step R u u' Hi Hs) as [Hi'|[Hi' Hwk]].
  2: { exists (S R). split; [done|]. intros x th _ _. by right. }
  exists R. split; [done|]. destruct Hi as [Hu I]. pose proof Hu as [Hk _].
  destruct Hs as [m pcs k t [n c] m' c' Hr Ht E|m pcs k t [n c] a v c' k' Hr Ht E Hv Hsl|
    m pcs k t [n c] a v c' r e Hr Ht E Hv|m pcs k t [n c] r e k' Hr Ht Hret|m pcs k t [n c] a nw c' k' Hr Ht E Hwk|
    m pcs k t [n c] c' Hr Ht Hc|m pcs k t k' Hin|m pcs k k' Hin]; cbn [u_mem u_pcs u_k] in *.
  all: try pose proof (proj2 (running_awake k t Hk Hr)) as Hna.
  - eapply round_wake_quiet; [done|done|by intros E'; cbn in E'; subst c|]. intros x Hx. split; [|done]. intros ->. by apply (Hna addr).
  - apply (barrier_next_wait addr t n c m) in E as (-> & -> & ->). cbn in Hv. rewrite Z.eqb_refl in Hv.
    assert (Hni : ~ fx_inside k t) by (by rewrite (inside_at _ _ t _ Hu Ht)).
    destruct (sleep_law k t addr k' Hk Hr Hni Hsl) as (_ & _ & Has & _). intros x th Hx. cbn [u_k u_pcs] in *.
    apply Has in Hx as [[-> _]|[Hne Hx]].
    + rewrite lookup_insert_eq. intros [= <-]. left. pose proof (bi_place _ _ _ _ I t _ Ht) as Hp. cbn in Hp.
      destruct Hp as [[? _]|(_ & HR & Ev)]; [done|exfalso]. rewrite (bi_generation _ _ _ _ I), Ev in Hv.
      destruct R as [|R]; [lia|]. cbn [pred] in Hv. unfold u32 in Hv. rewrite Nat2Z.inj_succ in Hv. zlia.
    + rewrite lookup_insert_ne by done. intros Hth. destruct (Hw x th Hx Hth) as [?|(y & ty & Hy & Ey)]; [by left|right].
      exists y, ty. rewrite lookup_insert_ne; [done|]. intros <-. cbn [u_pcs] in Hy. rewrite Ht in Hy. by injection Hy as <-.
  - apply (barrier_next_wait addr t n c m) in E as (-> & -> & ->). eapply round_wake_quiet; [done|done|done|].
    intros x Hx. split; [|done]. intros ->. by apply (Hna addr).
  - destruct (return_law k t r k' Hk Hr Hret) as (_ & Hint & _ & Has & _). apply (inside_at _ _ t _ Hu Ht) in Hint.
    eapply round_wake_quiet; [done|done|by intros E'; cbn in E'; subst c|]. intros x Hx. apply Has in Hx. split; [|done].
    intros ->. by apply (Hna addr).
  - apply (barrier_next_wake addr t n c m) in E as (-> & -> & -> & ->). intros x th Hx. exfalso. cbn [u_k] in Hx.
    by apply (round_wake_all R m pcs k k' t n Hlim Hu I Hr Ht Hwk x).
  - eapply round_wake_quiet; [done|done| |].
    + destruct Hc as (r & Ec & _). cbn in *. subst c. done.
    + intros x Hx. split; [|done]. intros ->. by apply (Hna addr).
  - destruct (interrupt_law k t k' Hk Hin) as (_ & _ & Has & _). intros x th Hx. apply Has in Hx as [_ Hx]. by apply Hw.
  - destruct (schedule_law k k' Hk Hin) as (_ & _ & Has & _). intros x th Hx. apply Has in Hx. by apply Hw.
Qed.

(** A barrier as [pthread_barrier_init] leaves it, and its [N] threads. *)
Record initial (u : usys K pthread_barrier bthread) : Prop := {
  in_mem : pthread_barrier_init (Z.of_nat N) = inr (u_mem u);
  in_size : size (u_pcs u) = N;
  in_range : Z.of_nat N <= INT_MAX;
  in_pcs : forall t th, u_pcs u !! t = Some th -> th = mk_bthread 0 (B_ret 0);
  in_kernel : fx_ok (u_k u);
  in_awake : forall t, ~ fx_inside (u_k u) t;
}.

Lemma barrier_initial_inv u : initial u -> barrier_sys_inv 0 u /\ round_wake 0 u.
Proof.
  intros [Hm Hs Hr Hp Hk Ha]. unfold pthread_barrier_init in Hm. destruct (Z.eqb_spec (Z.of_nat N) 0) as [|HN]; [done|].
  injection Hm as Hm. split.
  - split; [split; [done|]|].
    + intros t. split; [by intros ?%Ha|]. intros (c & Hc & Hsl). apply Hp in Hc as ->. done.
    + assert (Hz : arrivals 1 (u_pcs u) = 0%nat).
      { unfold arrivals. apply map_size_empty_iff, map_empty. intros x. apply map_lookup_filter_None. right.
        intros th Hth. by apply Hp in Hth as ->. }
      rewrite <- Hm. split; try done; [lia| |].
      * intros t th Hth. by apply Hp in Hth as ->.
      * exists None. rewrite Hz. split_and!; [|done|lia]. intros t th Hth. by apply Hp in Hth as ->.
  - intros x th Hx. exfalso. by apply (Ha x), (asleep_inside (u_k u) x addr).
Qed.

Lemma barrier_reachable u0 u : initial u0 -> reachable (barrier_prog addr) u0 u -> exists R, barrier_sys_inv R u.
Proof.
  intros Hi Hr. induction Hr as [|u u' Hr [R IH] Hs]; [exists 0%nat; by apply barrier_initial_inv|].
  destruct (barrier_sys_step R u u' IH Hs) as [?|[? _]]; eauto.
Qed.

Lemma barrier_reachable_wake u0 u :
  Z.of_nat N <= fx_limit + 1 -> initial u0 -> reachable (barrier_prog addr) u0 u ->
  exists R, barrier_sys_inv R u /\ round_wake R u.
Proof.
  intros Hl Hi Hr. induction Hr as [|u u' Hr (R & IH & Hw) Hs]; [exists 0%nat; by apply barrier_initial_inv|]. by eapply round_wake_step.
Qed.

(** C24.  A barrier with as many threads as its threshold separates the rounds: when a
    thread is outside, having returned from its k-th wait, every thread has started
    its k-th wait, and none has finished a later one. *)
Theorem barrier_rounds u0 u t th r t' th' :
  initial u0 -> reachable (barrier_prog addr) u0 u ->
  u_pcs u !! t = Some th -> b_at th = B_ret r -> u_pcs u !! t' = Some th' ->
  (calls th <= calls th' <= S (calls th))%nat /\
  ((exists r', b_at th' = B_ret r') -> calls th' = calls th).
Proof.
  intros Hi Hr Ht Hat Ht'. destruct (barrier_reachable u0 u Hi Hr) as [R [_ I]].
  pose proof (bi_place _ _ _ _ I t th Ht) as Hp. pose proof (bi_place _ _ _ _ I t' th' Ht') as Hp'.
  unfold bplace_ok in *. rewrite Hat in Hp. split.
  - destruct (b_at th'); try lia; naive_solver lia.
  - intros [r' E]. rewrite E in Hp'. congruence.
Qed.

(** C26.  No thread keeps sleeping in a barrier with at most 33 threads (one more than
    the kernel wakes at once): it sleeps only while a thread has still to arrive for
    its round, or while the last one to arrive is about to end the round or to wake
    the sleepers. *)
Theorem barrier_no_lost_wakeup u0 u x th :
  Z.of_nat N <= fx_limit + 1 -> initial u0 -> reachable (barrier_prog addr) u0 u ->
  fx_asleep (u_k u) x addr -> u_pcs u !! x = Some th ->
  exists t tt, u_pcs u !! t = Some tt /\ t <> x /\
    ((arrived tt < calls th)%nat \/ leads tt = true \/ b_at tt = B_wake).
Proof.
  intros Hl Hi Hr Hx Hth. destruct (barrier_reachable_wake u0 u Hl Hi Hr) as (R & [Hu I] & Hw). pose proof Hu as [Hk Hin].
  assert (Hsl : barrier_sleeping th = true).
  { apply (inside_at _ _ x th Hu Hth). by apply (asleep_inside (u_k u) x addr). }
  unfold barrier_sleeping in Hsl. destruct (Hw x th Hx Hth) as [Hc|(t & tt & Ht & Et)].
  - destruct (bi_phase _ _ _ _ I) as ([l|] & Ho & Hph).
    + destruct Hph as (_ & tl & Htl & _). exists l, tl. pose proof (proj2 (Ho l tl Htl) eq_refl) as Hlead.
      split_and!; [done| |auto]. intros ->. rewrite Hth in Htl. injection Htl as <-. unfold leads in Hlead. by destruct (b_at th).
    + destruct Hph as [_ Hlt]. destruct (not_all_arrived N R (u_pcs u) (bi_size _ _ _ _ I) Hlt) as (t & tt & Ht & Hne).
      exists t, tt. split_and!; [done| |left].
      * intros ->. rewrite Hth in Ht. injection Ht as <-. apply Hne. unfold arrived. by destruct (b_at th).
      * pose proof (bi_place _ _ _ _ I t tt Ht) as Hp. unfold bplace_ok, arrived in *. destruct (b_at tt); naive_solver lia.
  - exists t, tt. split_and!; [done| |auto]. intros ->. rewrite Hth in Ht. injection Ht as <-. by rewrite Et in Hsl.
Qed.

End Concurrent.

(** ** Witnesses: a barrier for two threads *)

#[local] Existing Instance demo_ops.
#[local] Existing Instance demo_laws.

Definition demo_baddr : Z := 0x602000.
Definition demo_barrier : usys fstate pthread_barrier bthread :=
  mk_usys (mk_barrier 0 0 2) {[ 1%nat := mk_bthread 0 (B_ret 0); 2%nat := mk_bthread 0 (B_ret 0) ]} demo_fk.

Lemma demo_barrier_initial : initial 2 demo_barrier.
Proof.
  split; [done|reflexivity|done| |exact demo_fk_ok|exact demo_fk_awake].
  intros t th Ht. cbn [u_pcs demo_barrier] in Ht. apply lookup_insert_Some in Ht as [[<- <-]|[_ [<- <-]%lookup_singleton_Some]]; done.
Qed.

(** Thread 1 has arrived and is about to sleep, thread 2 is still outside. *)
Lemma demo_barrier_run : exists pcs b,
  reachable (barrier_prog demo_baddr) demo_barrier (mk_usys b pcs demo_fk) /\ b = mk_barrier 1 0 2 /\
  pcs !! 1%nat = Some (mk_bthread 1 (B_wait 0)) /\ pcs !! 2%nat = Some (mk_bthread 0 (B_ret 0)).
Proof.
  destruct demo_fk_running as [R1 R2].
  pose proof (reach_init (barrier_prog demo_baddr) demo_barrier) as H. unfold demo_barrier at 2 in H.
  eapply (reach_client _ _ _ _ _ 1 _ (mk_bthread 1 B_gen)) in H; [|exact R1|reflexivity|by eexists].
  do 3 (eapply (reach_go _ _ _ _ _ 1) in H; [|exact R1|apply lookup_insert_eq|reflexivity]).
  eexists _, _. split; [exact H|]. split_and!; reflexivity.
Qed.

Lemma barrier_rounds_witness :
  exists u th, reachable (barrier_prog demo_baddr) demo_barrier u /\ u_pcs u !! 1%nat = Some th /\ (1 <= calls th)%nat.
Proof.
  destruct demo_fk_running as [R1 R2]. destruct demo_barrier_run as (pcs & b & H & -> & H1 & H2).
  eapply (reach_client _ _ _ _ _ 2 _ (mk_bthread 1 B_gen)) in H; [|exact R2|exact H2|by eexists].
  do 4 (eapply (reach_go _ _ _ _ _ 2) in H; [|exact R2|apply lookup_insert_eq|reflexivity]).
  destruct (wake_total demo_fk 2 demo_baddr INT_MAX) as [k Hk].
  match type of H with reachable _ _ ?u => assert (Hs : step (barrier_prog demo_baddr) u
    (mk_usys (u_mem u) (<[2%nat := mk_bthread 1 (B_ret (-1))]> (u_pcs u)) k))
    by (eapply step_wake; [exact R2|apply lookup_insert_eq|reflexivity|exact Hk]) end.
  pose proof (reach_step _ _ _ _ H Hs) as Hr. eexists _, (mk_bthread 1 (B_wait 0)). split; [exact Hr|]. split.
  - cbn [u_pcs]. rewrite !lookup_insert_ne by done. exact H1.
  - apply (barrier_rounds demo_baddr 2 demo_barrier _ 2 (mk_bthread 1 (B_ret (-1))) (-1) 1 (mk_bthread 1 (B_wait 0))
      demo_barrier_initial Hr); [apply lookup_insert_eq|reflexivity|]. cbn [u_pcs]. rewrite !lookup_insert_ne by done. exact H1.
Defined.

Lemma barrier_no_lost_wakeup_witness :
  exists u t tt, reachable (barrier_prog demo_baddr) demo_barrier u /\ fx_asleep (u_k u) 1 demo_baddr /\
    u_pcs u !! t = Some tt /\ t <> 1%nat.
Proof.
  destruct demo_fk_running as [R1 R2]. destruct demo_barrier_run as (pcs & b & H & -> & H1 & H2).
  eapply (reach_sleep _ _ _ _ _ 1) in H;
    [|exact demo_fk_ok|exact R1|exact (demo_fk_awake 1)|exact H1|reflexivity|reflexivity].
  destruct H as (k & H & Hs).
  assert (Hl : Z.of_nat 2 <= fx_limit + 1) by (change fx_limit with 32; lia).
  destruct (barrier_no_lost_wakeup demo_baddr 2 demo_barrier _ 1 (mk_bthread 1 (B_sleep 0)) Hl
    demo_barrier_initial H Hs) as (t & tt & Ht & Hne & _); [apply lookup_insert_eq|].
  eexists _, t, tt. split_and!; [exact H|exact Hs|exact Ht|exact Hne].
Defined.
