(* ===== verification/Rwlock.v ===== *)
(** * Read-write locks ([userland/libc/src/pthread/pthread_sync.c])

    The lock, try-lock, timed-lock and unlock functions of [pthread_rwlock_t] as a
    program over the memory of one lock, one shared access per step.  The counts are
    unbounded (fewer than 2^31 threads hold or wait).  The theorem: a writer excludes
    everybody else, and the state counts the readers.  The last section shows a
    schedule in which a reader falls asleep on a free lock. *)

From Stdlib Require Import ZArith Lia Bool.
From stdpp Require Import base list gmap fin_maps.
From S2P Require Import Prelude Chain Sched Wait Futex Threads.

Open Scope Z_scope.

Definition RWLOCK_UNLOCKED : Z := 0.
Definition RWLOCK_WRITELOCKED : Z := -1.

Record pthread_rwlock := mk_rwlock {
  rw_state : Z;
  waiters_readers : Z;
  waiters_writers : Z;
  writer_tid : Z;
}.

Definition pthread_rwlock_init : pthread_rwlock := mk_rwlock RWLOCK_UNLOCKED 0 0 0.

Definition set_rw_state (x : Z) (l : pthread_rwlock) : pthread_rwlock :=
  mk_rwlock x (waiters_readers l) (waiters_writers l) (writer_tid l).
Definition add_readers (d : Z) (l : pthread_rwlock) : pthread_rwlock :=
  mk_rwlock (rw_state l) (waiters_readers l + d) (waiters_writers l) (writer_tid l).
Definition add_writers (d : Z) (l : pthread_rwlock) : pthread_rwlock :=
  mk_rwlock (rw_state l) (waiters_readers l) (waiters_writers l + d) (writer_tid l).
Definition set_writer (x : Z) (l : pthread_rwlock) : pthread_rwlock :=
  mk_rwlock (rw_state l) (waiters_readers l) (waiters_writers l) x.

(** Places; [timed]: the function with a timeout, [s]: the state it has read. *)
Inductive rwplace :=
  | RW_ret (r : Z)
  | R_state (timed : bool)                (* rdlock: state = rwlock->state *)
  | R_writers (timed : bool) (s : Z)      (* waiters_writers == 0 ? *)
  | R_cas (timed : bool) (s : Z)
  | R_inc (timed : bool) (s : Z)          (* waiters_readers + 1 *)
  | R_wait (timed : bool) (s : Z)         (* futex_wait *)
  | R_sleep (timed : bool)                (* inside futex_wait *)
  | R_dec (timed out : bool)              (* waiters_readers - 1; [out]: return ETIMEDOUT *)
  | TR_state                              (* tryrdlock *)
  | TR_writers (s : Z)
  | TR_cas (s : Z)
  | W_inc (timed : bool)                  (* wrlock: waiters_writers + 1 *)
  | W_state (timed : bool)                (* state = rwlock->state *)
  | W_cas (timed : bool)
  | W_tid                                 (* writer_tid = tid *)
  | W_dec (r : Z)                         (* waiters_writers - 1, return *)
  | W_wait (timed : bool) (s : Z)
  | W_sleep (timed : bool)
  | TW_cas                                (* trywrlock *)
  | TW_tid
  | RU_state                              (* unlock: state = rwlock->state *)
  | RU_tid                                (* writer_tid = 0 *)
  | RU_store                              (* state = RWLOCK_UNLOCKED *)
  | RU_sub                                (* fetch_and_sub(state, 1) *)
  | RU_wake.                              (* futex_wake *)

(** A thread: the read locks it holds, whether it holds the write lock, its place. *)
Record rwthread := mk_rwthread { reads : nat; writes : bool; rw_at : rwplace }.

Section Rwlock.
Variable addr : Z.       (* &rwlock->state *)

Definition rwlock_next (t : nat) (th : rwthread) (l : pthread_rwlock) : action pthread_rwlock rwthread :=
  let n := reads th in
  let w := writes th in
  let to c := mk_rwthread n w c in
  match rw_at th with
  | RW_ret _ | R_sleep _ | W_sleep _ => Rest
  | R_state timed =>
      let s := rw_state l in Go l (to (if 0 <=? s then R_writers timed s else R_inc timed s))
  | R_writers timed s => Go l (to (if waiters_writers l =? 0 then R_cas timed s else R_inc timed s))
  | R_cas timed s =>
      if rw_state l =? s then Go (set_rw_state (s + 1) l) (mk_rwthread (S n) w (RW_ret 0))
      else Go l (to (R_state timed))
  | R_inc timed s => Go (add_readers 1 l) (to (R_wait timed s))
  | R_wait timed s => Wait addr s (to (R_sleep timed))
  | R_dec timed out => Go (add_readers (-1) l) (to (if out then RW_ret ETIMEDOUT else R_state timed))
  | TR_state => let s := rw_state l in Go l (to (if 0 <=? s then TR_writers s else RW_ret EBUSY))
  | TR_writers s => Go l (to (if waiters_writers l =? 0 then TR_cas s else RW_ret EBUSY))
  | TR_cas s =>
      if rw_state l =? s then Go (set_rw_state (s + 1) l) (mk_rwthread (S n) w (RW_ret 0))
      else Go l (to (RW_ret EBUSY))
  | W_inc timed => Go (add_writers 1 l) (to (W_state timed))
  | W_state timed =>
      let s := rw_state l in Go l (to (if s =? RWLOCK_UNLOCKED then W_cas timed else W_wait timed s))
  | W_cas timed =>
      if rw_state l =? RWLOCK_UNLOCKED then Go (set_rw_state RWLOCK_WRITELOCKED l) (mk_rwthread n true W_tid)
      else Go l (to (W_state timed))
  | W_tid => Go (set_writer (Z.of_nat t) l) (to (W_dec 0))
  | W_dec r => Go (add_writers (-1) l) (to (RW_ret r))
  | W_wait timed s => Wait addr s (to (W_sleep timed))
  | TW_cas =>
      if rw_state l =? RWLOCK_UNLOCKED then Go (set_rw_state RWLOCK_WRITELOCKED l) (mk_rwthread n true TW_tid)
      else Go l (to (RW_ret EBUSY))
  | TW_tid => Go (set_writer (Z.of_nat t) l) (to (RW_ret 0))
  | RU_state =>
      let s := rw_state l in
      Go l (to (if s =? RWLOCK_WRITELOCKED then RU_tid else if 0 <? s then RU_sub else RW_ret EPERM))
  | RU_tid => Go (set_writer 0 l) (to RU_store)
  | RU_store => Go (set_rw_state RWLOCK_UNLOCKED l) (mk_rwthread n false RU_wake)
  | RU_sub =>
      let s := rw_state l in
      Go (set_rw_state (s - 1) l) (mk_rwthread (pred n) w (if s =? 1 then RU_wake else RW_ret 0))
  | RU_wake => Wake addr INT_MAX (to (RW_ret 0))
  end.

Definition rwlock_after (t : nat) (th : rwthread) (r e : Z) : rwthread :=
  mk_rwthread (reads th) (writes th)
    (match rw_at th with
     | R_sleep timed => R_dec timed (timed && (r <? 0) && (e =? ETIMEDOUT))
     | W_sleep timed => if timed && (r <? 0) && (e =? ETIMEDOUT) then W_dec ETIMEDOUT else W_state timed
     | c => c
     end).

Definition rwlock_sleeping (th : rwthread) : bool := match rw_at th with R_sleep _ | W_sleep _ => true | _ => false end.

(** The calls; a thread unlocks what it holds. *)
Definition rwlock_client (t : nat) (l : pthread_rwlock) (th th' : rwthread) : Prop :=
  exists r c, rw_at th = RW_ret r /\ th' = mk_rwthread (reads th) (writes th) c /\
    (c = TR_state \/ c = TW_cas \/ (exists timed, c = R_state timed \/ c = W_inc timed) \/
     (c = RU_state /\ ((0 < reads th)%nat \/ writes th = true))).

Definition rwlock_prog : program pthread_rwlock rwthread := {|
  p_next := rwlock_next;
  p_after := rwlock_after;
  p_sleeping := rwlock_sleeping;
  p_word := fun l a => if a =? addr then rw_state l else 0;
  p_client := rwlock_client;
|}.

Lemma rwlock_next_wait t th l a v th' :
  rwlock_next t th l = Wait a v th' -> a = addr /\ reads th' = reads th /\ writes th' = writes th /\
    ((exists timed, rw_at th = R_wait timed v /\ rw_at th' = R_sleep timed) \/
     (exists timed, rw_at th = W_wait timed v /\ rw_at th' = W_sleep timed)).
Proof.
  destruct th as [n w c]. unfold rwlock_next. destruct c; cbn [rw_at reads writes]; intros E; repeat case_match; simplify_eq.
  - split_and!; try done. left. by eexists.
  - split_and!; try done. right. by eexists.
Qed.

Lemma rwlock_next_wake t th l a k th' :
  rwlock_next t th l = Wake a k th' ->
  rw_at th = RU_wake /\ a = addr /\ k = INT_MAX /\ th' = mk_rwthread (reads th) (writes th) (RW_ret 0).
Proof. destruct th as [n w c]. unfold rwlock_next. destruct c; cbn [rw_at reads writes]; intros E; repeat case_match; by simplify_eq. Qed.

Lemma rwlock_prog_ok : program_ok rwlock_prog.
Proof.
  split; cbn.
  - intros t [n w c] l l' c'. unfold rwlock_next, rwlock_sleeping. destruct c; cbn [rw_at reads writes]; intros E;
      repeat case_match; simplify_eq; done.
  - intros t [n w c] l a v [n' w' c'] (_ & _ & _ & [(b & E1 & E2)|(b & E1 & E2)])%rwlock_next_wait; cbn in *; by subst.
  - intros t [n w c] l a v c' (E & _ & -> & ->)%rwlock_next_wake. cbn in E. by subst.
  - intros t [n w c] r e. unfold rwlock_sleeping, rwlock_after. destruct c; cbn; try done. by destruct (_ && _).
  - intros t l [n w c] c' (r & d & E & -> & Hd). cbn in *. subst c. unfold rwlock_sleeping. cbn.
    destruct Hd as [->|[->|[(b & [->| ->])|[-> _]]]]; done.
Qed.

End Rwlock.

(** ** The invariant *)

Definition readers (pcs : gmap nat rwthread) : nat := map_fold (fun _ th n => (reads th + n)%nat) 0%nat pcs.

Lemma readers_insert (pcs : gmap nat rwthread) t th :
  pcs !! t = None -> readers (<[t := th]> pcs) = (reads th + readers pcs)%nat.
Proof.
  intros Ht. unfold readers. rewrite map_fold_insert_L; [done| |done]. intros j1 j2 z1 z2 y _ _ _. lia.
Qed.

Lemma readers_upd (pcs : gmap nat rwthread) t th th' :
  pcs !! t = Some th -> (readers (<[t := th']> pcs) + reads th = readers pcs + reads th')%nat.
Proof.
  intros Ht. rewrite <- (insert_delete_id pcs t th Ht) at 2. rewrite <- (insert_delete_eq pcs t th').
  rewrite !readers_insert by apply lookup_delete_eq. lia.
Qed.

Lemma readers_le (pcs : gmap nat rwthread) t th : pcs !! t = Some th -> (reads th <= readers pcs)%nat.
Proof.
  intros Ht. rewrite <- (insert_delete_id pcs t th Ht). rewrite readers_insert by apply lookup_delete_eq. lia.
Qed.

Definition rwplace_ok (th : rwthread) : Prop :=
  match rw_at th with
  | R_writers _ s | R_cas _ s | TR_writers s | TR_cas s => 0 <= s
  | RU_state => (0 < reads th)%nat \/ writes th = true
  | RU_tid | RU_store => writes th = true
  | RU_sub => (0 < reads th)%nat
  | _ => True
  end.

(** The state tells who holds the lock: one writer, or as many readers. *)
Definition write_locked (l : pthread_rwlock) (pcs : gmap nat rwthread) : Prop :=
  rw_state l = RWLOCK_WRITELOCKED /\ readers pcs = 0%nat /\ exists w tw, pcs !! w = Some tw /\ writes tw = true /\
    forall t th, pcs !! t = Some th -> writes th = true -> t = w.
Definition read_locked (l : pthread_rwlock) (pcs : gmap nat rwthread) : Prop :=
  rw_state l = Z.of_nat (readers pcs) /\ forall t th, pcs !! t = Some th -> writes th = false.

Record rwlock_inv (l : pthread_rwlock) (pcs : gmap nat rwthread) : Prop := {
  ri_place : forall t th, pcs !! t = Some th -> rwplace_ok th;
  ri_state : write_locked l pcs \/ read_locked l pcs;
}.

Section Preserve.
Context (l l' : pthread_rwlock) (pcs : gmap nat rwthread) (t : nat) (th th' : rwthread).
Hypothesis I : rwlock_inv l pcs.
Hypothesis Ht : pcs !! t = Some th.
Hypothesis Hp : rwplace_ok th'.

Lemma ri_place_upd x tx : <[t := th']> pcs !! x = Some tx -> rwplace_ok tx.
Proof. intros [[<- <-]|[_ Hx]]%lookup_insert_Some; [done|by eapply (ri_place _ _ I)]. Qed.

Lemma rwinv_move :
  rw_state l' = rw_state l -> reads th' = reads th -> writes th' = writes th -> rwlock_inv l' (<[t := th']> pcs).
Proof.
  intros Es Er Ew. pose proof (readers_upd pcs t th th' Ht) as E.
  assert (En : readers (<[t := th']> pcs) = readers pcs) by lia. split; [apply ri_place_upd|].
  destruct (ri_state _ _ I) as [(H1 & H2 & w & tw & Hw & H3 & H4)|[H1 H2]]; [left|right].
  - split_and!; [congruence|lia|]. exists w, (if decide (w = t) then th' else tw). split_and!.
    + case_decide; [subst; by rewrite lookup_insert_eq|by rewrite lookup_insert_ne].
    + case_decide; [|done]. subst w. rewrite Ew. replace th with tw by congruence. done.
    + intros x tx [[<- <-]|[_ Hx]]%lookup_insert_Some Hwx; [|by eapply H4]. apply (H4 t th Ht). congruence.
  - split; [lia|]. intros x tx [[<- <-]|[_ Hx]]%lookup_insert_Some; [|by eapply H2]. rewrite Ew. by eapply H2.
Qed.

Lemma rwinv_read :
  0 <= rw_state l -> rw_state l' = rw_state l + 1 -> reads th' = S (reads th) -> writes th' = writes th ->
  rwlock_inv l' (<[t := th']> pcs).
Proof.
  intros Hs Es Er Ew. pose proof (readers_upd pcs t th th' Ht) as E. split; [apply ri_place_upd|]. right.
  destruct (ri_state _ _ I) as [(H1 & _)|[H1 H2]]; [unfold RWLOCK_WRITELOCKED in H1; lia|].
  split; [lia|]. intros x tx [[<- <-]|[_ Hx]]%lookup_insert_Some; [rewrite Ew|]; by eapply H2.
Qed.

Lemma rwinv_write :
  rw_state l = RWLOCK_UNLOCKED -> rw_state l' = RWLOCK_WRITELOCKED -> reads th' = reads th -> writes th' = true ->
  rwlock_inv l' (<[t := th']> pcs).
Proof.
  intros Hs Es Er Ew. pose proof (readers_upd pcs t th th' Ht) as E. split; [apply ri_place_upd|]. left.
  destruct (ri_state _ _ I) as [(H1 & _)|[H1 H2]]; [unfold RWLOCK_WRITELOCKED, RWLOCK_UNLOCKED in *; lia|].
  unfold RWLOCK_UNLOCKED in Hs. split_and!; [done|lia|]. exists t, th'. rewrite lookup_insert_eq. split_and!; [done|done|].
  intros x tx [[<- <-]|[_ Hx]]%lookup_insert_Some Hw; [done|]. by rewrite (H2 x tx Hx) in Hw.
Qed.

Lemma rwinv_unwrite :
  writes th = true -> rw_state l' = RWLOCK_UNLOCKED -> reads th' = reads th -> writes th' = false ->
  rwlock_inv l' (<[t := th']> pcs).
Proof.
  intros Hw Es Er Ew. pose proof (readers_upd pcs t th th' Ht) as E. split; [apply ri_place_upd|]. right.
  destruct (ri_state _ _ I) as [(H1 & H2 & w & tw & Htw & H3 & H4)|[_ H2]]; [|by rewrite (H2 t th Ht) in Hw].
  unfold RWLOCK_UNLOCKED in Es. split; [lia|]. intros x tx [[<- <-]|[Hne Hx]]%lookup_insert_Some; [done|].
  apply not_true_iff_false. intros Hwx. apply Hne. rewrite (H4 x tx Hx Hwx). by apply (H4 t th).
Qed.

Lemma rwinv_unread :
  (0 < reads th)%nat -> rw_state l' = rw_state l - 1 -> reads th' = pred (reads th) -> writes th' = writes th ->
  rwlock_inv l' (<[t := th']> pcs).
Proof.
  intros Hr Es Er Ew. pose proof (readers_upd pcs t th th' Ht) as E. pose proof (readers_le pcs t th Ht).
  split; [apply ri_place_upd|]. right. destruct (ri_state _ _ I) as [(H1 & H2 & _)|[H1 H2]]; [lia|].
  split; [lia|]. intros x tx [[<- <-]|[_ Hx]]%lookup_insert_Some; [rewrite Ew|]; by eapply H2.
Qed.

End Preserve.

Lemma rwlock_go_inv addr l l' pcs t th th' :
  rwlock_inv l pcs -> pcs !! t = Some th -> rwlock_next addr t th l = Go l' th' -> rwlock_inv l' (<[t := th']> pcs).
Proof.
  intros I Ht E. pose proof (ri_place _ _ I t th Ht) as Hp. pose proof (readers_le pcs t th Ht) as Hle.
  destruct th as [n w c]. unfold rwlock_next in E. unfold rwplace_ok in Hp.
  destruct c; cbn [rw_at reads writes] in *; try discriminate E.
  all: try (injection E as <- <-; apply (rwinv_move l _ pcs t _ _ I Ht); [|done|done|done]; unfold rwplace_ok; cbn;
    first [done | by destruct (_ =? _) | by destruct out]).
  - injection E as <- <-. apply (rwinv_move l _ pcs t _ _ I Ht); [|done|done|done]. unfold rwplace_ok. cbn.
    destruct (Z.leb_spec 0 (rw_state l)); [lia|done].
  - destruct (Z.eqb_spec (rw_state l) s) as [Es|]; injection E as <- <-.
    + apply (rwinv_read l _ pcs t _ _ I Ht); cbn [set_rw_state rw_state reads writes]; done || lia.
    + by apply (rwinv_move l _ pcs t _ _ I Ht).
  - injection E as <- <-. apply (rwinv_move l _ pcs t _ _ I Ht); [|done|done|done]. unfold rwplace_ok. cbn.
    destruct (Z.leb_spec 0 (rw_state l)); [lia|done].
  - destruct (Z.eqb_spec (rw_state l) s) as [Es|]; injection E as <- <-.
    + apply (rwinv_read l _ pcs t _ _ I Ht); cbn [set_rw_state rw_state reads writes]; done || lia.
    + by apply (rwinv_move l _ pcs t _ _ I Ht).
  - destruct (Z.eqb_spec (rw_state l) RWLOCK_UNLOCKED) as [Es|]; injection E as <- <-.
    + by apply (rwinv_write l _ pcs t _ _ I Ht).
    + by apply (rwinv_move l _ pcs t _ _ I Ht).
  - destruct (Z.eqb_spec (rw_state l) RWLOCK_UNLOCKED) as [Es|]; injection E as <- <-.
    + by apply (rwinv_write l _ pcs t _ _ I Ht).
    + by apply (rwinv_move l _ pcs t _ _ I Ht).
  - injection E as <- <-. apply (rwinv_move l _ pcs t _ _ I Ht); [|done|done|done]. unfold rwplace_ok. cbn.
    destruct (ri_state _ _ I) as [(H1 & H2 & _)|[H1 H2]].
    + rewrite H1. cbn. destruct Hp; [lia|done].
    + specialize (H2 t _ Ht). cbn in H2. destruct Hp as [Hp|Hp]; [|congruence].
      destruct (Z.eqb_spec (rw_state l) RWLOCK_WRITELOCKED) as [Es|_]; [unfold RWLOCK_WRITELOCKED in Es; lia|].
      by destruct (0 <? rw_state l).
  - injection E as <- <-. by apply (rwinv_unwrite l _ pcs t _ _ I Ht).
  - injection E as <- <-. apply (rwinv_unread l _ pcs t _ _ I Ht); try done. unfold rwplace_ok. cbn. by destruct (_ =? _).
Qed.

Section Concurrent.
Context {K : Type} `{FutexLaws K} (addr : Z).

Lemma rwlock_step_inv u u' :
  usys_ok (rwlock_prog addr) u -> rwlock_inv (u_mem u) (u_pcs u) -> step (rwlock_prog addr) u u' ->
  rwlock_inv (u_mem u') (u_pcs u').
Proof.
  intros Hu I Hs. destruct Hs as [m pcs k t th m' c' Hr Ht E|m pcs k t th a v c' k' Hr Ht E Hv Hsl|
    m pcs k t th a v c' r e Hr Ht E Hv|m pcs k t th r e k' Hr Ht Hret|m pcs k t th a nw c' k' Hr Ht E Hwk|
    m pcs k t th c' Hr Ht Hc|m pcs k t k' Hi|m pcs k k' Hi]; cbn [u_mem u_pcs u_k] in *; try done.
  - exact (rwlock_go_inv addr m m' pcs t th c' I Ht E).
  - apply (rwlock_next_wait addr t th m) in E as (_ & Er & Ew & Hc). apply (rwinv_move m m pcs t th c' I Ht); try done.
    unfold rwplace_ok. by destruct Hc as [(b & _ & ->)|(b & _ & ->)].
  - apply (rwlock_next_wait addr t th m) in E as (_ & Er & Ew & Hc). apply (rwinv_move m m pcs t th _ I Ht); try done.
    unfold rwplace_ok. cbn. destruct Hc as [(b & _ & ->)|(b & _ & ->)]; [done|]. by destruct (_ && _).
  - destruct (return_law k t r k' (us_kernel _ _ Hu) Hr Hret) as (_ & Hin & _). apply (inside_at _ _ t _ Hu Ht) in Hin.
    apply (rwinv_move m m pcs t th _ I Ht); try done. change (rwlock_sleeping th = true) in Hin.
    unfold rwplace_ok, rwlock_sleeping in *. cbn. destruct (rw_at th); try done. by destruct (_ && _).
  - apply (rwlock_next_wake addr t th m) in E as (_ & _ & _ & ->). by apply (rwinv_move m m pcs t th _ I Ht).
  - destruct Hc as (r & c & Ec & -> & Hc). apply (rwinv_move m m pcs t th _ I Ht); try done. unfold rwplace_ok. cbn.
    destruct Hc as [->|[->|[(b & [->| ->])|[-> Hc]]]]; done.
Qed.

Record initial (u : usys K pthread_rwlock rwthread) : Prop := {
  in_mem : u_mem u = pthread_rwlock_init;
  in_pcs : forall t th, u_pcs u !! t = Some th -> th = mk_rwthread 0 false (RW_ret 0);
  in_kernel : fx_ok (u_k u);
  in_awake : forall t, ~ fx_inside (u_k u) t;
}.

Lemma rwlock_initial_inv u : initial u -> usys_ok (rwlock_prog addr) u /\ rwlock_inv (u_mem u) (u_pcs u).
Proof.
  intros [Hm Hp Hk Ha]. split; [split; [done|]|split].
  - intros t. split; [by intros ?%Ha|]. intros (c & Hc & Hs). apply Hp in Hc as ->. done.
  - intros t th Ht. by apply Hp in Ht as ->.
  - right. split; [|intros t th Ht; by apply Hp in Ht as ->]. rewrite Hm. cbn.
    assert (Hz : readers (u_pcs u) = 0%nat); [|by rewrite Hz]. revert Hp. induction (u_pcs u) as [|t th pcs Ht IH] using map_ind; [done|].
    intros Hp. rewrite readers_insert by done. rewrite IH; [|intros x tx Hx; apply (Hp x); rewrite lookup_insert_ne; [done|congruence]].
    by rewrite (Hp t th (lookup_insert_eq _ _ _)).
Qed.

Lemma rwlock_reachable u0 u :
  initial u0 -> reachable (rwlock_prog addr) u0 u -> usys_ok (rwlock_prog addr) u /\ rwlock_inv (u_mem u) (u_pcs u).
Proof.
  intros Hi Hr. induction Hr as [|u u' Hr [IH1 IH2] Hs]; [by apply rwlock_initial_inv|].
  split; [by eapply step_ok; [apply rwlock_prog_ok| |]|by eapply rwlock_step_inv].
Qed.

(** C25.  Readers and writers exclude each other: in every reachable state a thread
    that holds the write lock is the only holder of the lock, and then the state
    is -1; otherwise the state is the number of read locks held. *)
Theorem rwlock_exclusion u0 u :
  initial u0 -> reachable (rwlock_prog addr) u0 u ->
  (forall t th, u_pcs u !! t = Some th -> writes th = true ->
     rw_state (u_mem u) = RWLOCK_WRITELOCKED /\ reads th = 0%nat /\
     forall t' th', u_pcs u !! t' = Some th' -> t' <> t -> reads th' = 0%nat /\ writes th' = false) /\
  ((forall t th, u_pcs u !! t = Some th -> writes th = false) -> rw_state (u_mem u) = Z.of_nat (readers (u_pcs u))).
Proof.
  intros Hi Hr. destruct (rwlock_reachable u0 u Hi Hr) as [_ [_ Hs]]. split.
  - intros t th Ht Hw. destruct Hs as [(H1 & H2 & w & tw & Htw & _ & H4)|[_ H2]]; [|by rewrite (H2 t th Ht) in Hw].
    split_and!; [done|pose proof (readers_le _ t th Ht); lia|]. intros t' th' Ht' Hne.
    split; [pose proof (readers_le _ t' th' Ht'); lia|]. apply not_true_iff_false. intros Hw'. apply Hne.
    rewrite (H4 t' th' Ht' Hw'). symmetry. by apply (H4 t th).
  - intros Hn. destruct Hs as [(_ & _ & w & tw & Htw & H3 & _)|[H1 _]]; [|done]. by rewrite (Hn w tw Htw) in H3.
Qed.

End Concurrent.

(** ** A reader asleep on a free lock

    The reader sees state 0 and a waiting writer; before it calls [futex_wait] the
    writer takes and releases the lock, so the state is 0 again. *)

#[local] Existing Instance demo_ops.
#[local] Existing Instance demo_laws.

Definition demo_rwaddr : Z := 0x603000.
Definition demo_rwlock : usys fstate pthread_rwlock rwthread :=
  mk_usys pthread_rwlock_init {[ 1%nat := mk_rwthread 0 false (RW_ret 0); 2%nat := mk_rwthread 0 false (RW_ret 0) ]} demo_fk.

Lemma demo_rwlock_initial : initial demo_rwlock.
Proof.
  split; [done| |exact demo_fk_ok|exact demo_fk_awake].
  intros t th Ht. cbn [u_pcs demo_rwlock] in Ht. apply lookup_insert_Some in Ht as [[<- <-]|[_ [<- <-]%lookup_singleton_Some]]; done.
Qed.

(** The writer holds the lock, the reader is about to sleep. *)
Lemma demo_rwlock_run : exists pcs,
  reachable (rwlock_prog demo_rwaddr) demo_rwlock (mk_usys (mk_rwlock (-1) 1 0 2) pcs demo_fk) /\
  pcs !! 1%nat = Some (mk_rwthread 0 false (R_wait false 0)) /\ pcs !! 2%nat = Some (mk_rwthread 0 true (RW_ret 0)).
Proof.
  destruct demo_fk_running as [R1 R2].
  pose proof (reach_init (rwlock_prog demo_rwaddr) demo_rwlock) as H. unfold demo_rwlock at 2 in H.
  eapply (reach_client _ _ _ _ _ 2 _ (mk_rwthread 0 false (W_inc false))) in H; [|exact R2|reflexivity|by eexists _, _; eauto 10].
  eapply (reach_go _ _ _ _ _ 2) in H; [|exact R2|apply lookup_insert_eq|reflexivity].
  eapply (reach_client _ _ _ _ _ 1 _ (mk_rwthread 0 false (R_state false))) in H; [|exact R1|reflexivity|by eexists _, _; eauto 10].
  do 3 (eapply (reach_go _ _ _ _ _ 1) in H; [|exact R1|apply lookup_insert_eq|reflexivity]).
  do 4 (eapply (reach_go _ _ _ _ _ 2) in H; [|exact R2|reflexivity|reflexivity]).
  eexists. split; [exact H|]. split; reflexivity.
Qed.

Lemma wake_nobody t a n : @fx_wake fstate demo_ops t a n demo_fk demo_fk.
Proof.
  exists 0%nat. unfold futex_wake, futex_wake_key. destruct (n <=? 0); [done|].
  set (b := bucket_idx _). unfold demo_fk at 1. rewrite bucket_init. cbn [wake_scan foldl fst].
  unfold set_f_sched, set_bucket, demo_fk, futex_init. cbn [f_sched f_buckets f_waiters]. f_equal. apply list_insert_id.
  apply lookup_replicate_2, bucket_idx_lt.
Qed.

Lemma rwlock_reader_stranded : exists pcs k,
  reachable (rwlock_prog demo_rwaddr) demo_rwlock (mk_usys (mk_rwlock 0 1 0 0) pcs k) /\
  fx_asleep k 1 demo_rwaddr /\ pcs !! 2%nat = Some (mk_rwthread 0 false (RW_ret 0)).
Proof.
  destruct demo_fk_running as [R1 R2]. destruct demo_rwlock_run as (pcs & H & H1 & H2).
  eapply (reach_client _ _ _ _ _ 2 _ (mk_rwthread 0 true RU_state)) in H; [|exact R2|exact H2|by eexists _, _; eauto 10].
  do 3 (eapply (reach_go _ _ _ _ _ 2) in H; [|exact R2|apply lookup_insert_eq|reflexivity]).
  eapply reach_step in H; [|eapply step_wake; [exact R2|apply lookup_insert_eq|reflexivity|apply wake_nobody]].
  eapply (reach_sleep _ _ _ _ _ 1) in H; [|exact demo_fk_ok|exact R1|exact (demo_fk_awake 1)
    |rewrite !lookup_insert_ne by done; exact H1|reflexivity|reflexivity].
  destruct H as (k & H & Hs). eexists _, k. split_and!; [exact H|exact Hs|].
  rewrite lookup_insert_ne by done. apply lookup_insert_eq.
Qed.

Lemma rwlock_exclusion_witness :
  exists u, initial demo_rwlock /\ reachable (rwlock_prog demo_rwaddr) demo_rwlock u /\
    exists th, u_pcs u !! 1%nat = Some th /\ reads th = 0%nat /\ writes th = false /\ rw_state (u_mem u) = RWLOCK_WRITELOCKED.
Proof.
  destruct demo_rwlock_run as (pcs & H & H1 & H2). eexists. split_and!; [exact demo_rwlock_initial|exact H|].
  destruct (rwlock_exclusion demo_rwaddr demo_rwlock _ demo_rwlock_initial H) as [Hw _].
  destruct (Hw 2%nat _ H2 eq_refl) as (Hs & _ & Ho). eexists. split; [exact H1|].
  destruct (Ho 1%nat _ H1 ltac:(discriminate)) as [Hr Hn]. split_and!; [exact Hr|exact Hn|exact Hs].
Defined.
