(* ===== verification/Pmm.v ===== *)
(** * Physical pages ([kernel/mm/memory.c])

    The bitmap allocator of physical pages with its reference counts and its
    set-up from the firmware's memory map.  Each function runs under
    [mm_phys_lock], so it is one atomic step.  The specification is the finite
    set of free pages. *)

From Stdlib Require Import ZArith Lia Bool.
From stdpp Require Import base list gmap.
From S2P Require Import Prelude.

Open Scope Z_scope.

Definition PAGE_SIZE : Z := 0x1000.
Definition NO_PAGE : Z := 2 ^ 64 - 1.              (* (uint64_t)-1 *)
Definition DIRECT_MAP_LIMIT : Z := 16 * 1024 * 1024 * 1024.

(** [page_refcounts] is [None] before the array has been placed. *)
Record mm_state := mk_mm {
  physical_bitmap : list Z;
  total_pages : Z;
  free_pages : Z;
  memory_start : Z;
  memory_end : Z;
  page_refcounts : option (list Z);
  g_alloc_hint : Z;
}.

Definition set_bitmap (b : list Z) (s : mm_state) : mm_state :=
  mk_mm b (total_pages s) (free_pages s) (memory_start s) (memory_end s) (page_refcounts s) (g_alloc_hint s).
Definition set_free (n : Z) (s : mm_state) : mm_state :=
  mk_mm (physical_bitmap s) (total_pages s) n (memory_start s) (memory_end s) (page_refcounts s) (g_alloc_hint s).
Definition set_hint (h : Z) (s : mm_state) : mm_state :=
  mk_mm (physical_bitmap s) (total_pages s) (free_pages s) (memory_start s) (memory_end s) (page_refcounts s) h.
Definition set_refcounts (r : option (list Z)) (s : mm_state) : mm_state :=
  mk_mm (physical_bitmap s) (total_pages s) (free_pages s) (memory_start s) (memory_end s) r (g_alloc_hint s).

(** ** The bitmap *)

Definition set_page_bit (page : Z) (s : mm_state) : mm_state :=
  set_bitmap (alter (fun w => Z.lor w (u32 (Z.shiftl 1 (page mod 32)))) (Z.to_nat (page / 32)) (physical_bitmap s)) s.

Definition clear_page_bit (page : Z) (s : mm_state) : mm_state :=
  set_bitmap (alter (fun w => Z.land w (u32 (Z.lnot (Z.shiftl 1 (page mod 32))))) (Z.to_nat (page / 32)) (physical_bitmap s)) s.

(** A page outside the bitmap counts as allocated. *)
Definition is_page_allocated (s : mm_state) (page : Z) : bool :=
  match physical_bitmap s !! Z.to_nat (page / 32) with
  | Some w => has w (u32 (Z.shiftl 1 (page mod 32)))
  | None => true
  end.

(** The first clear bit of the words from number [i] on. *)
Fixpoint scan_words (i : Z) (ws : list Z) : option Z :=
  match ws with
  | [] => None
  | w :: ws' =>
      if negb (w =? 0xFFFFFFFF) then
        match find_idx (fun bit => negb (has w (u32 (Z.shiftl 1 bit)))) (seqZ 0 32) with
        | Some bit => Some (i * 32 + Z.of_nat bit)
        | None => scan_words (i + 1) ws'
        end
      else scan_words (i + 1) ws'
  end.

Definition find_free_page (s : mm_state) : mm_state * Z :=
  let start := g_alloc_hint s / 32 in
  let ws := physical_bitmap s in
  match scan_words start (drop (Z.to_nat start) ws) with
  | Some page => (set_hint (page + 1) s, page)
  | None =>
      match scan_words 0 (take (Z.to_nat start) ws) with
      | Some page => (set_hint (page + 1) s, page)
      | None => (s, NO_PAGE)
      end
  end.

(** ** Allocation and release *)

Definition put_refcount (page v : Z) (s : mm_state) : mm_state :=
  set_refcounts (alter (fun _ => v) (Z.to_nat page) <$> page_refcounts s) s.

Definition mm_allocate_physical_page (s : mm_state) : mm_state * Z :=
  if free_pages s =? 0 then (s, 0)
  else
    let '(s, page) := find_free_page s in
    if page =? NO_PAGE then (s, 0)
    else
      let s := set_page_bit page s in
      let s := set_free (u64 (free_pages s - 1)) s in
      (put_refcount page 0 s, u64 (memory_start s + page * PAGE_SIZE)).

Definition mm_free_physical_page (a : Z) (s : mm_state) : mm_state :=
  if (a <? memory_start s) || (memory_end s <=? a) then s
  else
    let page := (a - memory_start s) / PAGE_SIZE in
    if negb (is_page_allocated s page) then s
    else
      let s := clear_page_bit page s in
      let s := set_free (u64 (free_pages s + 1)) s in
      let s := if page <? g_alloc_hint s then set_hint page s else s in
      put_refcount page 0 s.

Definition mm_get_free_pages (s : mm_state) : Z := free_pages s.

Definition run_free (s : mm_state) (start count : Z) : bool :=
  forallb (fun i => negb (is_page_allocated s (start + i))) (seqZ 0 count).

Definition take_page (s : mm_state) (page : Z) : mm_state :=
  let s := set_page_bit page s in set_free (u64 (free_pages s - 1)) s.

Definition mm_allocate_contiguous_pages (s : mm_state) (page_count : Z) : mm_state * Z :=
  if page_count =? 0 then (s, 0)
  else if free_pages s <? page_count then (s, 0)
  else if total_pages s <? page_count then (s, 0)
  else
    match find_idx (fun start => run_free s start page_count) (seqZ 0 (total_pages s - page_count + 1)) with
    | Some start =>
        (foldl take_page s (seqZ (Z.of_nat start) page_count), u64 (memory_start s + Z.of_nat start * PAGE_SIZE))
    | None => (s, 0)
    end.

Definition mm_free_contiguous_pages (s : mm_state) (a page_count : Z) : mm_state :=
  foldl (fun s i => mm_free_physical_page (u64 (a + i * PAGE_SIZE)) s) s (seqZ 0 page_count).

(** ** Reference counts *)

Definition page_to_index (s : mm_state) (a : Z) : Z :=
  if (a <? memory_start s) || (memory_end s <=? a) then NO_PAGE else (a - memory_start s) / PAGE_SIZE.

Definition refcount_at (s : mm_state) (page : Z) : Z :=
  default 0 (page_refcounts s ≫= fun l => l !! Z.to_nat page).

Definition mm_incref_page (a : Z) (s : mm_state) : mm_state :=
  let idx := page_to_index s a in
  if idx =? NO_PAGE then s
  else
    let old := refcount_at s idx in
    if old <? 0xFFFF then put_refcount idx (old + 1) s else s.

(** The result tells the caller to free the page. *)
Definition mm_decref_page (a : Z) (s : mm_state) : mm_state * bool :=
  let idx := page_to_index s a in
  if idx =? NO_PAGE then (s, false)
  else
    let current := refcount_at s idx in
    if current =? 0 then (s, true)
    else (put_refcount idx (current - 1) s, current =? 1).

Definition mm_get_page_refcount (s : mm_state) (a : Z) : Z :=
  let idx := page_to_index s a in
  if idx =? NO_PAGE then 0 else refcount_at s idx.

Definition mm_init_page_refcounts (s : mm_state) : mm_state :=
  set_refcounts (option_map (map (fun _ => 0)) (page_refcounts s)) s.

(** ** Set-up *)

(** An entry of the firmware's memory map. *)
Record memory_map_entry := mk_entry { e_type : Z; physical_start : Z; number_of_pages : Z }.

(** Loader code and data, boot services code and data, conventional memory. *)
Definition mm_is_usable_memory_type (type : Z) : bool := existsb (Z.eqb type) [1; 2; 3; 4; 7].

(** [for (phys = a; phys < b; phys += PAGE_SIZE)] *)
Definition pages_between (a b : Z) : list Z :=
  (fun i => a + i * PAGE_SIZE) <$> seqZ 0 ((b - a + PAGE_SIZE - 1) / PAGE_SIZE).

(** The pages of a region inside the managed range. *)
Definition region_pages (s : mm_state) (e : memory_map_entry) : list Z :=
  let region_start := physical_start e in
  let region_end := u64 (region_start + u64 (number_of_pages e * PAGE_SIZE)) in
  if (region_end <=? memory_start s) || (memory_end s <=? region_start) then []
  else
    pages_between (if region_start <? memory_start s then memory_start s else region_start)
      (if memory_end s <? region_end then memory_end s else region_end).

Definition mark_page_free (s : mm_state) (phys : Z) : mm_state :=
  let page := (phys - memory_start s) / PAGE_SIZE in
  if (page <? total_pages s) && is_page_allocated s page then
    let s := clear_page_bit page s in set_free (u64 (free_pages s + 1)) s
  else s.

Definition mark_usable_uefi_regions (map : list memory_map_entry) (s : mm_state) : mm_state :=
  match map with
  | [] => set_free (total_pages s) (set_bitmap ((fun _ => 0) <$> physical_bitmap s) s)
  | _ =>
      foldl (fun s e => if negb (mm_is_usable_memory_type (e_type e)) then s
                        else foldl mark_page_free s (region_pages s e)) s map
  end.

Definition reserve_physical_page (s : mm_state) (phys : Z) : mm_state :=
  if (phys <? memory_start s) || (memory_end s <=? phys) then s
  else
    let page := (phys - memory_start s) / PAGE_SIZE in
    if (page <? total_pages s) && negb (is_page_allocated s page) then take_page s page else s.

(** [mapped]: what [early_virt_to_phys] finds for the pages the boot loader has
    mapped, 0 for none. *)
Definition reserve_bootloader_mapped_pages (mapped : list Z) (s : mm_state) : mm_state :=
  foldl (fun s phys => if negb (phys =? 0) && (memory_start s <=? phys) && (phys <? memory_end s)
                       then reserve_physical_page s phys else s) s mapped.

Definition reserve_uefi_memory_regions (map : list memory_map_entry) (s : mm_state) : mm_state :=
  foldl (fun s e => if mm_is_usable_memory_type (e_type e) then s
                    else foldl reserve_physical_page s (region_pages s e)) s map.

(** The search for [n] free pages in a row: the state of the loop is the start of
    the run and its length, the result is both when the loop ends. *)
Fixpoint run_scan (s : mm_state) (n : Z) (ps : list Z) (run_start run_len : Z) : Z * Z :=
  match ps with
  | [] => (run_start, run_len)
  | p :: ps' =>
      if negb (is_page_allocated s p) then
        let run_start := if run_len =? 0 then p else run_start in
        if run_len + 1 =? n then (run_start, run_len + 1) else run_scan s n ps' run_start (run_len + 1)
      else run_scan s n ps' run_start 0
  end.

Definition place_refcounts (s : mm_state) : mm_state :=
  let n := (total_pages s * 2 + PAGE_SIZE - 1) / PAGE_SIZE in
  let '(run_start, run_len) := run_scan s n (seqZ 0 (total_pages s)) NO_PAGE 0 in
  if run_len <? n then set_refcounts None s
  else set_refcounts (Some (replicate (Z.to_nat (total_pages s)) 0)) (foldl take_page s (seqZ run_start n)).

(** The pool of page-table pages lies below the managed memory. *)
Definition pt_pool_pages (memory_size : Z) : Z :=
  let n := memory_size / (2 * 1024 * 1024) + (memory_size / (1024 * 1024 * 1024) + 1) + 4 in
  let n := n * 5 / 4 in
  if n <? 256 then 256 else n.

Definition mm_initialize_physical_memory (memory_size : Z) (map : list memory_map_entry) (mapped : list Z) : mm_state :=
  let start := 32 * 1024 * 1024 + pt_pool_pages memory_size * PAGE_SIZE in
  let stop := if DIRECT_MAP_LIMIT <? memory_size then DIRECT_MAP_LIMIT else memory_size in
  let stop := if stop <=? start then start + 64 * 1024 * 1024 else stop in
  let total := (stop - start) / PAGE_SIZE in
  let bitmap_size := ((total + 7) / 8 + PAGE_SIZE - 1) / PAGE_SIZE * PAGE_SIZE in
  let s := mk_mm (replicate (Z.to_nat (bitmap_size / 4)) 0xFFFFFFFF) total 0 start stop None 0 in
  let s := mark_usable_uefi_regions map s in
  let s := reserve_bootloader_mapped_pages mapped s in
  let s := reserve_uefi_memory_regions map s in
  place_refcounts s.

(** ** The set of free pages *)

Definition pfree (s : mm_state) : gset Z :=
  list_to_set (filter (fun p => is_page_allocated s p = false) (seqZ 0 (total_pages s))).

Record pmm_ok (s : mm_state) : Prop := {
  po_words : Forall (fun w => 0 <= w < 2 ^ 32) (physical_bitmap s);
  po_total : 0 <= total_pages s <= 32 * Z.of_nat (length (physical_bitmap s));
  po_range : 0 < memory_start s /\ memory_start s + total_pages s * PAGE_SIZE <= memory_end s < 2 ^ 52;
  po_tail : forall p, total_pages s <= p -> is_page_allocated s p = true;
  po_count : free_pages s = Z.of_nat (size (pfree s));
  po_hint : 0 <= g_alloc_hint s <= 32 * Z.of_nat (length (physical_bitmap s));
  po_refs : forall l, page_refcounts s = Some l -> Z.of_nat (length l) = total_pages s;
}.

(** The address of a page. *)
Definition page_addr (s : mm_state) (p : Z) : Z := memory_start s + p * PAGE_SIZE.

Lemma elem_of_pfree s p : p ∈ pfree s <-> 0 <= p < total_pages s /\ is_page_allocated s p = false.
Proof. unfold pfree. rewrite elem_of_list_to_set, list_elem_of_filter, elem_of_seqZ. intuition lia. Qed.

(** *** Bits of a word *)

Lemma has_bit w b : 0 <= b < 32 -> has w (u32 (Z.shiftl 1 b)) = Z.testbit w b.
Proof.
  intros Hb. unfold has. rewrite Z.shiftl_1_l, u32_small by (split; [lia|apply Z.pow_lt_mono_r; lia]).
  destruct (Z.testbit w b) eqn:E.
  - apply negb_true_iff, Z.eqb_neq. intros H. assert (Z.testbit (Z.land w (2 ^ b)) b = false) as H' by (rewrite H; apply Z.bits_0).
    rewrite Z.land_spec, E, Z.pow2_bits_true in H' by lia. done.
  - apply negb_false_iff, Z.eqb_eq, Z.bits_inj'. intros n Hn. rewrite Z.land_spec, Z.pow2_bits_eqb, Z.bits_0 by lia.
    destruct (Z.eqb_spec b n) as [->|]; [by rewrite E|apply andb_false_r].
Qed.

Lemma bits_bound a : 0 <= a -> (forall i, 32 <= i -> Z.testbit a i = false) -> a < 2 ^ 32.
Proof.
  intros Ha H. assert (a = a mod 2 ^ 32) as ->.
  { apply Z.bits_inj'. intros n Hn. destruct (Z.lt_ge_cases n 32).
    - by rewrite Z.mod_pow2_bits_low by lia.
    - rewrite Z.mod_pow2_bits_high by lia. apply H. lia. }
  apply Z.mod_pos_bound. lia.
Qed.

Lemma bits_high w i : 0 <= w < 2 ^ 32 -> 32 <= i -> Z.testbit w i = false.
Proof. intros Hw Hi. rewrite <- (u32_small w) by done. unfold u32. apply Z.mod_pow2_bits_high. lia. Qed.

Lemma lor_bit w b i : 0 <= b < 32 -> 0 <= i ->
  Z.testbit (Z.lor w (u32 (Z.shiftl 1 b))) i = Z.testbit w i || (b =? i).
Proof.
  intros Hb Hi. rewrite Z.shiftl_1_l, u32_small by (split; [lia|apply Z.pow_lt_mono_r; lia]).
  by rewrite Z.lor_spec, Z.pow2_bits_eqb by lia.
Qed.

Lemma land_bit w b i : 0 <= b < 32 -> 0 <= i < 32 ->
  Z.testbit (Z.land w (u32 (Z.lnot (Z.shiftl 1 b)))) i = Z.testbit w i && negb (b =? i).
Proof.
  intros Hb Hi. rewrite Z.land_spec. unfold u32. rewrite Z.mod_pow2_bits_low, Z.lnot_spec, Z.shiftl_1_l, Z.pow2_bits_eqb by lia. done.
Qed.

Lemma lor_word w b : 0 <= b < 32 -> 0 <= w < 2 ^ 32 -> 0 <= Z.lor w (u32 (Z.shiftl 1 b)) < 2 ^ 32.
Proof.
  intros Hb Hw. pose proof (u32_range (Z.shiftl 1 b)). split; [apply Z.lor_nonneg; lia|].
  apply bits_bound; [apply Z.lor_nonneg; lia|]. intros i Hi. rewrite lor_bit, bits_high by lia. lia.
Qed.

Lemma land_word w m : 0 <= w < 2 ^ 32 -> 0 <= Z.land w (u32 m) < 2 ^ 32.
Proof.
  intros Hw. pose proof (u32_range m). split; [apply Z.land_nonneg; lia|].
  apply bits_bound; [apply Z.land_nonneg; lia|]. intros i Hi. rewrite Z.land_spec, bits_high by lia. done.
Qed.

(** *** Operations on the bitmap *)

Definition in_bitmap (s : mm_state) (p : Z) : Prop := 0 <= p < 32 * Z.of_nat (length (physical_bitmap s)).

Lemma page_word s p : in_bitmap s p -> exists w, physical_bitmap s !! Z.to_nat (p / 32) = Some w.
Proof. intros [H1 H2]. apply lookup_lt_is_Some. zlia. Qed.

Lemma page_split p q : 0 <= p -> 0 <= q -> p / 32 = q / 32 -> (p mod 32 =? q mod 32) = (p =? q).
Proof. intros Hp Hq E. pose proof (Z.div_mod p 32 ltac:(lia)). pose proof (Z.div_mod q 32 ltac:(lia)). lia. Qed.

Lemma is_allocated_bit s p w :
  0 <= p -> physical_bitmap s !! Z.to_nat (p / 32) = Some w -> is_page_allocated s p = Z.testbit w (p mod 32).
Proof. intros Hp E. unfold is_page_allocated. rewrite E. apply has_bit, Z.mod_pos_bound. lia. Qed.

Lemma is_allocated_alter s f p q :
  0 <= p -> 0 <= q -> p / 32 <> q / 32 ->
  is_page_allocated (set_bitmap (alter f (Z.to_nat (p / 32)) (physical_bitmap s)) s) q = is_page_allocated s q.
Proof. intros Hp Hq Hne. unfold is_page_allocated. cbn. rewrite list_lookup_alter_ne; [done|]. zlia. Qed.

Lemma is_allocated_set s p q :
  in_bitmap s p -> 0 <= q -> is_page_allocated (set_page_bit p s) q = is_page_allocated s q || (p =? q).
Proof.
  intros Hp Hq. pose proof (Z.mod_pos_bound p 32 ltac:(lia)). pose proof (Z.mod_pos_bound q 32 ltac:(lia)).
  destruct (decide (p / 32 = q / 32)) as [E|E].
  - destruct (page_word s p Hp) as [w Hw]. rewrite (is_allocated_bit s q w) by (rewrite <- ?E; done || lia).
    erewrite is_allocated_bit; [|done|unfold set_page_bit; cbn; rewrite <- E, list_lookup_alter_eq, Hw; done].
    rewrite lor_bit, page_split by (unfold in_bitmap in Hp; lia). done.
  - unfold set_page_bit. rewrite is_allocated_alter by (unfold in_bitmap in Hp; lia).
    rewrite (proj2 (Z.eqb_neq p q)), orb_false_r by congruence. done.
Qed.

Lemma is_allocated_clear s p q :
  in_bitmap s p -> 0 <= q -> is_page_allocated (clear_page_bit p s) q = is_page_allocated s q && negb (p =? q).
Proof.
  intros Hp Hq. pose proof (Z.mod_pos_bound p 32 ltac:(lia)). pose proof (Z.mod_pos_bound q 32 ltac:(lia)).
  destruct (decide (p / 32 = q / 32)) as [E|E].
  - destruct (page_word s p Hp) as [w Hw]. rewrite (is_allocated_bit s q w) by (rewrite <- ?E; done || lia).
    erewrite is_allocated_bit; [|done|unfold clear_page_bit; cbn; rewrite <- E, list_lookup_alter_eq, Hw; done].
    rewrite land_bit, page_split by (unfold in_bitmap in Hp; lia). done.
  - unfold clear_page_bit. rewrite is_allocated_alter by (unfold in_bitmap in Hp; lia).
    rewrite (proj2 (Z.eqb_neq p q)), andb_true_r by congruence. done.
Qed.

Lemma pfree_set s p : in_bitmap s p -> pfree (set_page_bit p s) = pfree s ∖ {[p]}.
Proof.
  intros Hp. apply set_eq. intros q. rewrite elem_of_difference, elem_of_singleton, !elem_of_pfree. cbn [total_pages set_page_bit set_bitmap].
  split.
  - intros [Hq E]. rewrite is_allocated_set in E by (done || lia). apply orb_false_iff in E as [E ?]. split; [done|lia].
  - intros [[Hq E] Hne]. split; [done|]. rewrite is_allocated_set, E by (done || lia). lia.
Qed.

Lemma pfree_clear s p : in_bitmap s p -> p < total_pages s -> pfree (clear_page_bit p s) = pfree s ∪ {[p]}.
Proof.
  intros Hp Ht. apply set_eq. intros q. rewrite elem_of_union, elem_of_singleton, !elem_of_pfree. cbn [total_pages clear_page_bit set_bitmap].
  split.
  - intros [Hq E]. rewrite is_allocated_clear in E by (done || lia). apply andb_false_iff in E as [E|E]; [auto|right; lia].
  - intros [[Hq E]| ->].
    + split; [done|]. by rewrite is_allocated_clear, E by (done || lia).
    + destruct Hp as [Hp1 Hp2]. split; [lia|]. rewrite is_allocated_clear by (done || lia). rewrite Z.eqb_refl. apply andb_false_r.
Qed.

(** The parts of the invariant that do not mention the counter. *)
Lemma pmm_ok_bitmap s s' :
  pmm_ok s -> total_pages s' = total_pages s -> memory_start s' = memory_start s -> memory_end s' = memory_end s ->
  length (physical_bitmap s') = length (physical_bitmap s) ->
  Forall (fun w => 0 <= w < 2 ^ 32) (physical_bitmap s') ->
  (forall p, total_pages s <= p -> is_page_allocated s' p = true) ->
  free_pages s' = Z.of_nat (size (pfree s')) ->
  0 <= g_alloc_hint s' <= 32 * Z.of_nat (length (physical_bitmap s)) ->
  (forall l, page_refcounts s' = Some l -> Z.of_nat (length l) = total_pages s) -> pmm_ok s'.
Proof. intros [] E1 E2 E3 E4 ? ? ? ? ?. split; rewrite ?E1, ?E2, ?E3, ?E4; auto. Qed.

Lemma pfree_in_bitmap s p : pmm_ok s -> p ∈ pfree s -> in_bitmap s p.
Proof. intros [_ H _ _ _ _ _] Hp. apply elem_of_pfree in Hp as [Hp _]. unfold in_bitmap. lia. Qed.

Lemma alter_words f i (ws : list Z) :
  (forall w, 0 <= w < 2 ^ 32 -> 0 <= f w < 2 ^ 32) ->
  Forall (fun w => 0 <= w < 2 ^ 32) ws -> Forall (fun w => 0 <= w < 2 ^ 32) (alter f i ws).
Proof. intros Hf Hw. apply Forall_alter; [done|]. intros x _ Hx. by apply Hf. Qed.

Lemma size_pfree s : pmm_ok s -> Z.of_nat (size (pfree s)) < 2 ^ 40.
Proof.
  intros [_ _ Hr _ _ _ _]. unfold pfree, PAGE_SIZE in *.
  rewrite size_list_to_set by (apply NoDup_filter, NoDup_seqZ).
  pose proof (length_filter (fun p => is_page_allocated s p = false) (seqZ 0 (total_pages s))). rewrite length_seqZ in *. lia.
Qed.

Lemma take_page_ok s p :
  pmm_ok s -> p ∈ pfree s ->
  pmm_ok (take_page s p) /\ pfree (take_page s p) = pfree s ∖ {[p]} /\
  page_refcounts (take_page s p) = page_refcounts s.
Proof.
  intros Hok Hp. pose proof (pfree_in_bitmap s p Hok Hp) as Hb. pose proof (pfree_set s p Hb) as Hf.
  assert (Hsz : size (pfree s) = S (size (pfree s ∖ {[p]}))).
  { rewrite size_difference, size_singleton by set_solver. assert (size (pfree s) <> 0%nat) by (intros E%size_empty_inv; set_solver). lia. }
  pose proof (size_pfree s Hok) as Hlt. pose proof (po_count s Hok) as Hc.
  split_and!; [|done|done].
  apply (pmm_ok_bitmap s); try done; cbn.
  - apply length_alter.
  - apply alter_words, Hok. intros w Hw. apply lor_word; [apply Z.mod_pos_bound; lia|done].
  - intros q Hq. change (is_page_allocated (set_page_bit p s) q = true). pose proof (po_total s Hok).
    rewrite is_allocated_set, (po_tail s Hok) by (done || lia). done.
  - change (pfree (take_page s p)) with (pfree (set_page_bit p s)). rewrite Hf, Hc, Hsz, u64_small by lia. lia.
  - apply Hok.
  - intros l Hl. by apply (po_refs s Hok).
Qed.

Lemma give_page_ok s p :
  pmm_ok s -> 0 <= p < total_pages s -> is_page_allocated s p = true ->
  let s' := set_free (u64 (free_pages s + 1)) (clear_page_bit p s) in
  pmm_ok s' /\ pfree s' = pfree s ∪ {[p]}.
Proof.
  intros Hok Hp Ha s'. assert (Hb : in_bitmap s p) by (pose proof (po_total s Hok); unfold in_bitmap; lia).
  pose proof (pfree_clear s p Hb ltac:(lia)) as Hf. pose proof (size_pfree s Hok). pose proof (po_count s Hok) as Hc.
  assert (p ∉ pfree s) by (rewrite elem_of_pfree; intros [_ E]; congruence).
  split; [|done]. apply (pmm_ok_bitmap s); try done; cbn.
  - apply length_alter.
  - apply alter_words, Hok. intros w Hw. by apply land_word.
  - intros q Hq. change (is_page_allocated (clear_page_bit p s) q = true).
    rewrite is_allocated_clear, (po_tail s Hok) by (done || lia). lia.
  - change (pfree s') with (pfree (clear_page_bit p s)). rewrite Hf, Hc, size_union, size_singleton, u64_small by (set_solver || lia). lia.
  - apply Hok.
  - intros l Hl. by apply (po_refs s Hok).
Qed.

(** *** The search *)

Lemma scan_words_Some i ws p :
  scan_words i ws = Some p ->
  exists k w b, ws !! k = Some w /\ p = (i + Z.of_nat k) * 32 + b /\ 0 <= b < 32 /\ Z.testbit w b = false.
Proof.
  revert i. induction ws as [|w ws IH]; intros i E; [done|]. cbn [scan_words] in E.
  assert (Hrec : scan_words (i + 1) ws = Some p ->
    exists k w' b, (w :: ws) !! k = Some w' /\ p = (i + Z.of_nat k) * 32 + b /\ 0 <= b < 32 /\ Z.testbit w' b = false).
  { intros (k & w' & b & H1 & -> & H2)%IH. exists (S k), w', b. split_and!; [done|lia|lia|lia|apply H2]. }
  destruct (negb (w =? 0xFFFFFFFF)); [|by apply Hrec].
  destruct (find_idx _ _) as [n|] eqn:Ef; [|by apply Hrec]. injection E as <-.
  apply find_idx_Some in Ef as (b & Hb & Hc & _). apply lookup_seqZ in Hb as [-> Hb].
  exists 0%nat, w, (Z.of_nat n). rewrite has_bit in Hc by lia. split_and!; [done|lia|lia|lia|by apply negb_true_iff].
Qed.

Lemma scan_words_None i ws k w b :
  scan_words i ws = None -> ws !! k = Some w -> 0 <= w < 2 ^ 32 -> 0 <= b < 32 -> Z.testbit w b = true.
Proof.
  revert i k. induction ws as [|w' ws IH]; intros i k E Hk Hw Hb; [done|]. cbn [scan_words] in E.
  destruct (Z.eqb_spec w' 0xFFFFFFFF) as [->|Hne]; cbn [negb] in E.
  - destruct k as [|k]; [|by eapply (IH (i + 1) k)]. injection Hk as <-.
    change 0xFFFFFFFF with (Z.ones 32). apply Z.ones_spec_low. lia.
  - destruct (find_idx _ _) eqn:Ef; [done|]. destruct k as [|k]; [|by eapply (IH (i + 1) k)]. injection Hk as <-.
    rewrite find_idx_None in Ef. specialize (Ef (Z.to_nat b) b ltac:(apply lookup_seqZ; lia)). rewrite has_bit in Ef by lia.
    by apply negb_false_iff.
Qed.

Lemma find_free_page_spec s :
  pmm_ok s ->
  let '(s', p) := find_free_page s in
  (p = NO_PAGE /\ s' = s /\ pfree s = ∅) \/
  (p ∈ pfree s /\ p <> NO_PAGE /\ s' = set_hint (p + 1) s /\ pmm_ok s').
Proof.
  intros Hok. pose proof (po_words s Hok) as Hw. pose proof (po_total s Hok) as Ht. pose proof (po_hint s Hok) as Hh.
  assert (Hfound : forall i ws k0 p, scan_words i ws = Some p -> 0 <= i ->
    (forall k w, ws !! k = Some w -> physical_bitmap s !! (k0 + k)%nat = Some w) -> i = Z.of_nat k0 ->
    p ∈ pfree s /\ p <> NO_PAGE /\ pmm_ok (set_hint (p + 1) s)).
  { intros i ws k0 p (k & w & b & Hk & -> & Hb & Hbit)%scan_words_Some Hi Hws ->. apply Hws in Hk.
    set (p := (Z.of_nat k0 + Z.of_nat k) * 32 + b).
    assert (Hlt : (k0 + k < length (physical_bitmap s))%nat) by (apply lookup_lt_is_Some; by eexists).
    assert (E : p / 32 = Z.of_nat (k0 + k) /\ p mod 32 = b) by (unfold p; zlia).
    assert (Ha : is_page_allocated s p = false).
    { rewrite (is_allocated_bit s p w) by (rewrite ?(proj1 E), ?Nat2Z.id; done || lia). by rewrite (proj2 E). }
    assert (Hp : p < total_pages s) by (destruct (Z.lt_ge_cases p (total_pages s)) as [?|Hge]; [done|by rewrite (po_tail s Hok) in Ha]).
    pose proof (po_range s Hok) as Hr. unfold PAGE_SIZE in Hr.
    split_and!; [apply elem_of_pfree; split; [lia|done]|unfold NO_PAGE; lia|].
    apply (pmm_ok_bitmap s); try done; try apply Hok. cbn. lia. }
  unfold find_free_page. set (st := g_alloc_hint s / 32).
  assert (Hst : 0 <= st <= Z.of_nat (length (physical_bitmap s))) by (unfold st; zlia).
  destruct (scan_words st (drop _ _)) as [p|] eqn:E1; [|destruct (scan_words 0 (take _ _)) as [p|] eqn:E2].
  - right. destruct (Hfound st _ (Z.to_nat st) p E1 ltac:(lia)) as (? & ? & ?); [intros k w; by rewrite lookup_drop|lia|done].
  - right. destruct (Hfound 0 _ 0%nat p E2 ltac:(lia)) as (? & ? & ?); [intros k w Hk; by apply lookup_take_Some in Hk as [? _]|done|done].
  - left. split_and!; [done|done|]. apply set_eq. intros p. split; [|set_solver]. intros [Hp Ha]%elem_of_pfree. exfalso.
    destruct (page_word s p) as [w Ew]; [split; lia|]. rewrite (is_allocated_bit s p w) in Ha by (done || lia).
    pose proof (Z.mod_pos_bound p 32 ltac:(lia)). assert (Hw' : 0 <= w < 2 ^ 32) by exact (Forall_lookup_1 _ _ _ _ Hw Ew).
    destruct (decide (p / 32 < st)) as [Hlt|Hge].
    + rewrite (scan_words_None 0 _ (Z.to_nat (p / 32)) w _ E2) in Ha by (try done; rewrite lookup_take_lt; done || zlia). done.
    + rewrite (scan_words_None st _ (Z.to_nat (p / 32 - st)) w _ E1) in Ha; [done| |done|done].
      rewrite lookup_drop, <- Z2Nat.inj_add by zlia. rewrite <- Ew. f_equal. lia.
Qed.

(** ** Allocation and release refine the set of free pages *)

(** The reference count of a page that has one. *)
Lemma refcount_put s p q v l :
  page_refcounts s = Some l -> 0 <= p < Z.of_nat (length l) -> 0 <= q ->
  refcount_at (put_refcount p v s) q = if decide (q = p) then v else refcount_at s q.
Proof.
  intros El Hp Hq. unfold refcount_at, put_refcount, set_refcounts. cbn. rewrite El. cbn.
  destruct (decide (q = p)) as [->|Hne].
  - destruct (lookup_lt_is_Some_2 l (Z.to_nat p)) as [x Hx]; [lia|]. by rewrite list_lookup_alter_eq, Hx.
  - by rewrite list_lookup_alter_ne by lia.
Qed.

Lemma put_refcount_ok s p v : pmm_ok s -> pmm_ok (put_refcount p v s) /\ pfree (put_refcount p v s) = pfree s.
Proof.
  intros Hok. split; [|done]. apply (pmm_ok_bitmap s); try done; try apply Hok.
  intros l. cbn. destruct (page_refcounts s) as [l0|] eqn:El; [|done]. cbn. intros [= <-]. rewrite length_alter. by apply (po_refs s Hok).
Qed.

Lemma mm_allocate_spec s :
  pmm_ok s ->
  let '(s', a) := mm_allocate_physical_page s in
  (a = 0 /\ s' = s /\ pfree s = ∅) \/
  exists p, p ∈ pfree s /\ a = page_addr s p /\ a <> 0 /\ pmm_ok s' /\ pfree s' = pfree s ∖ {[p]} /\
    s' = put_refcount p 0 (take_page (set_hint (p + 1) s) p).
Proof.
  intros Hok. unfold mm_allocate_physical_page. pose proof (po_count s Hok) as Hc.
  destruct (Z.eqb_spec (free_pages s) 0) as [E|E].
  { left. split_and!; [done|done|]. apply leibniz_equiv, size_empty_inv. lia. }
  pose proof (find_free_page_spec s Hok) as Hf. destruct (find_free_page s) as [s1 p].
  destruct Hf as [(-> & -> & He)|(Hp & Hne & -> & Hok1)]; [rewrite Z.eqb_refl; by left|].
  rewrite (proj2 (Z.eqb_neq _ _) Hne). right. exists p. change (p ∈ pfree (set_hint (p + 1) s)) in Hp.
  destruct (take_page_ok _ p Hok1 Hp) as (Hok2 & Hfr & _). destruct (put_refcount_ok _ p 0 Hok2) as [Hok3 Hfr3].
  apply elem_of_pfree in Hp as Hp'. cbn in Hp'. pose proof (po_range s Hok) as Hr. unfold page_addr, PAGE_SIZE in *.
  split_and!; [done|cbn; rewrite u64_small by lia; done|cbn; rewrite u64_small by lia; lia|done|exact Hfr|done].
Qed.

Lemma page_index s p : pmm_ok s -> 0 <= p < total_pages s ->
  (page_addr s p <? memory_start s) || (memory_end s <=? page_addr s p) = false /\
  (page_addr s p - memory_start s) / PAGE_SIZE = p.
Proof.
  intros Hok Hp. pose proof (po_range s Hok). unfold page_addr, PAGE_SIZE in *. split; [lia|].
  replace (memory_start s + p * 4096 - memory_start s) with (p * 4096) by lia. apply Z.div_mul. lia.
Qed.

(** What releasing page [p] leaves. *)
Definition released (s : mm_state) (p : Z) : mm_state :=
  let s := set_free (u64 (free_pages s + 1)) (clear_page_bit p s) in
  put_refcount p 0 (if p <? g_alloc_hint s then set_hint p s else s).

Lemma mm_free_spec s p :
  pmm_ok s -> 0 <= p < total_pages s ->
  let s' := mm_free_physical_page (page_addr s p) s in
  pmm_ok s' /\ pfree s' = pfree s ∪ {[p]} /\ s' = if is_page_allocated s p then released s p else s.
Proof.
  intros Hok Hp s'. unfold s', mm_free_physical_page. destruct (page_index s p Hok Hp) as [-> ->].
  destruct (is_page_allocated s p) eqn:Ea; cbn [negb].
  - destruct (give_page_ok s p Hok Hp Ea) as [Hok1 Hfr]. set (s1 := set_free _ _) in *.
    assert (Hok2 : pmm_ok (if p <? g_alloc_hint s1 then set_hint p s1 else s1) /\
      pfree (if p <? g_alloc_hint s1 then set_hint p s1 else s1) = pfree s1).
    { destruct (Z.ltb_spec p (g_alloc_hint s1)); [|done]. split; [|done]. apply (pmm_ok_bitmap s1); try done; try apply Hok1.
      cbn. pose proof (po_hint s1 Hok1). cbn in *. lia. }
    destruct Hok2 as [Hok2 Hfr2]. destruct (put_refcount_ok _ p 0 Hok2) as [Hok3 Hfr3].
    split_and!; [done|by rewrite Hfr3, Hfr2, Hfr|done].
  - split_and!; [done| |done]. assert (p ∈ pfree s) by (by apply elem_of_pfree). set_solver.
Qed.

(** *** Runs of pages *)

Definition run (start n : Z) : gset Z := list_to_set (seqZ start n).

Lemma elem_of_run p start n : p ∈ run start n <-> start <= p < start + n.
Proof. unfold run. rewrite elem_of_list_to_set, elem_of_seqZ. lia. Qed.

Lemma run_free_spec s start n : pmm_ok s -> 0 <= start -> start + n <= total_pages s ->
  run_free s start n = true <-> run start n ⊆ pfree s.
Proof.
  intros Hok Hs Hn. unfold run_free. rewrite forallb_forall. setoid_rewrite <- list_elem_of_In. split.
  - intros H p Hp. apply elem_of_run in Hp. apply elem_of_pfree. split; [lia|]. specialize (H (p - start) ltac:(apply elem_of_seqZ; lia)).
    replace (start + (p - start)) with p in H by lia. by apply negb_true_iff.
  - intros H i Hi. apply elem_of_seqZ in Hi. apply negb_true_iff.
    assert (Hin : start + i ∈ pfree s) by (apply H, elem_of_run; lia). by apply elem_of_pfree in Hin as [_ ?].
Qed.

Lemma take_pages_ok ps s :
  pmm_ok s -> NoDup ps -> (forall p, p ∈ ps -> p ∈ pfree s) ->
  pmm_ok (foldl take_page s ps) /\ pfree (foldl take_page s ps) = pfree s ∖ list_to_set ps /\
  page_refcounts (foldl take_page s ps) = page_refcounts s /\
  total_pages (foldl take_page s ps) = total_pages s /\ memory_start (foldl take_page s ps) = memory_start s /\
  memory_end (foldl take_page s ps) = memory_end s.
Proof.
  revert s. induction ps as [|p ps IH]; intros s Hok Hnd Hin; cbn [foldl list_to_set].
  { split_and!; try done. set_solver. }
  apply NoDup_cons in Hnd as [Hp Hnd]. destruct (take_page_ok s p Hok (Hin p ltac:(left))) as (Hok1 & Hf & Hr).
  destruct (IH (take_page s p) Hok1 Hnd) as (? & Hf2 & Hr2 & ? & ? & ?).
  { intros q Hq. rewrite Hf. assert (q <> p) by congruence. specialize (Hin q ltac:(by right)). set_solver. }
  split_and!; try done. rewrite Hf2, Hf. set_solver.
Qed.

Lemma size_run start n : 0 <= n -> Z.of_nat (size (run start n)) = n.
Proof. intros Hn. unfold run. rewrite size_list_to_set by apply NoDup_seqZ. rewrite length_seqZ. lia. Qed.

(** The search for a run, with the state it leaves. *)
Lemma contiguous_spec s n :
  pmm_ok s -> 0 < n ->
  let '(s', a) := mm_allocate_contiguous_pages s n in
  (a = 0 /\ s' = s /\ forall start, 0 <= start -> start + n <= total_pages s -> ~ run start n ⊆ pfree s) \/
  exists start, 0 <= start /\ start + n <= total_pages s /\ run start n ⊆ pfree s /\
    (forall lower, 0 <= lower < start -> ~ run lower n ⊆ pfree s) /\
    a = page_addr s start /\ a <> 0 /\ pmm_ok s' /\ pfree s' = pfree s ∖ run start n /\ s' = foldl take_page s (seqZ start n).
Proof.
  intros Hok Hn. unfold mm_allocate_contiguous_pages. rewrite (proj2 (Z.eqb_neq n 0)) by lia.
  assert (Hsmall : forall start, run start n ⊆ pfree s -> n <= free_pages s).
  { intros start Hsub. rewrite (po_count s Hok), <- (size_run start n) by lia. apply inj_le. by apply subseteq_size. }
  destruct (Z.ltb_spec (free_pages s) n) as [Hlt|Hge]; [left; split_and!; [done|done|intros st _ _ H; specialize (Hsmall st H); lia]|].
  destruct (Z.ltb_spec (total_pages s) n) as [Hlt'|Hge']; [left; split_and!; [done|done|intros; lia]|].
  destruct (find_idx _ _) as [k|] eqn:Ef.
  - right. apply find_idx_Some in Ef as (st & Hst & Hr & Hlow). apply lookup_seqZ in Hst as [-> Hk].
    rewrite Z.add_0_l in Hr. apply run_free_spec in Hr; [|done|lia|lia]. exists (Z.of_nat k).
    destruct (take_pages_ok (seqZ (Z.of_nat k) n) s Hok (NoDup_seqZ _ _)) as (Hok' & Hf & _).
    { intros p Hp. apply Hr. by apply elem_of_list_to_set. }
    pose proof (po_range s Hok). unfold page_addr, PAGE_SIZE in *. rewrite u64_small by lia.
    split_and!; try done; try lia. intros lower Hl Hsub. apply run_free_spec in Hsub; [|done|lia|lia].
    specialize (Hlow (Z.to_nat lower) lower ltac:(lia) ltac:(apply lookup_seqZ; lia)). cbn in Hlow. congruence.
  - left. split_and!; [done|done|]. intros st H1 H2 Hsub. apply run_free_spec in Hsub; [|done|lia|lia].
    rewrite find_idx_None in Ef. specialize (Ef (Z.to_nat st) st ltac:(apply lookup_seqZ; lia)). cbn in Ef. congruence.
Qed.

(** C39.  [mm_allocate_contiguous_pages] is first fit on the set of free pages: it
    takes the lowest run of [n] free pages and returns its address, and it returns 0,
    leaving the state alone, exactly when there is no such run. *)
Theorem mm_allocate_contiguous_spec s n :
  pmm_ok s -> 0 < n ->
  let '(s', a) := mm_allocate_contiguous_pages s n in
  (a = 0 /\ s' = s /\ forall start, 0 <= start -> start + n <= total_pages s -> ~ run start n ⊆ pfree s) \/
  exists start, 0 <= start /\ start + n <= total_pages s /\ run start n ⊆ pfree s /\
    (forall lower, 0 <= lower < start -> ~ run lower n ⊆ pfree s) /\
    a = page_addr s start /\ a <> 0 /\ pmm_ok s' /\ pfree s' = pfree s ∖ run start n.
Proof.
  intros Hok Hn. pose proof (contiguous_spec s n Hok Hn) as Hc. destruct (mm_allocate_contiguous_pages s n) as [s' a].
  destruct Hc as [?|(start & ? & ? & ? & ? & ? & ? & ? & ? & _)]; [by left|]. right. by exists start.
Qed.

(** ** The state after initialisation *)

Definition same_range (s s' : mm_state) : Prop :=
  total_pages s' = total_pages s /\ memory_start s' = memory_start s /\ memory_end s' = memory_end s.

Definition index_of (s : mm_state) (phys : Z) : Z := (phys - memory_start s) / PAGE_SIZE.

Lemma mark_page_free_ok s phys :
  pmm_ok s -> memory_start s <= phys ->
  let s' := mark_page_free s phys in
  pmm_ok s' /\ same_range s s' /\ forall q, q ∈ pfree s' <-> q ∈ pfree s \/ (q = index_of s phys /\ q < total_pages s).
Proof.
  intros Hok Hp s'. unfold s', mark_page_free. fold (index_of s phys).
  assert (H0 : 0 <= index_of s phys) by (apply Z.div_pos; unfold PAGE_SIZE; lia).
  destruct (Z.ltb_spec (index_of s phys) (total_pages s)) as [Hlt|Hge]; cbn [andb].
  - destruct (is_page_allocated s (index_of s phys)) eqn:Ea.
    + destruct (give_page_ok s (index_of s phys) Hok (conj H0 Hlt) Ea) as [Hok' Hf]. cbn zeta. change (free_pages (clear_page_bit _ s)) with (free_pages s).
      split_and!; try done. intros q. rewrite Hf, elem_of_union, elem_of_singleton. intuition congruence.
    + split_and!; try done. intros q. split; [tauto|]. intros [?|[-> _]]; [done|]. by apply elem_of_pfree.
  - split_and!; try done. intros q. split; [tauto|]. intros [?|[-> ?]]; [done|lia].
Qed.

Lemma reserve_page_ok s phys :
  pmm_ok s ->
  let s' := reserve_physical_page s phys in
  pmm_ok s' /\ same_range s s' /\ page_refcounts s' = page_refcounts s /\
  forall q, q ∈ pfree s' <-> q ∈ pfree s /\ ~ (memory_start s <= phys < memory_end s /\ q = index_of s phys).
Proof.
  intros Hok s'. unfold s', reserve_physical_page. fold (index_of s phys).
  destruct (Z.ltb_spec phys (memory_start s)); cbn [orb]; [split_and!; try done; intros q; intuition lia|].
  destruct (Z.leb_spec (memory_end s) phys); [split_and!; try done; intros q; intuition lia|].
  destruct (_ && _) eqn:E.
  - apply andb_true_iff in E as [E1 E2]. apply negb_true_iff in E2.
    assert (Hin : index_of s phys ∈ pfree s) by (apply elem_of_pfree; split; [unfold index_of, PAGE_SIZE in *; zlia|done]).
    destruct (take_page_ok s _ Hok Hin) as (Hok' & Hf & Hr). split_and!; try done. intros q. rewrite Hf. set_solver.
  - split_and!; try done. intros q. split; [|tauto]. intros Hq. split; [done|]. intros [_ ->]. apply elem_of_pfree in Hq as [Hq Ha].
    rewrite Ha in E. lia.
Qed.

Lemma foldl_frame (f : mm_state -> Z -> mm_state) (add : bool) s0 l s :
  same_range s0 s ->
  (forall s phys, same_range s0 s -> pmm_ok s -> phys ∈ l ->
     pmm_ok (f s phys) /\ same_range s (f s phys) /\
     forall q, q ∈ pfree (f s phys) <->
       if add then q ∈ pfree s \/ (q = index_of s phys /\ q < total_pages s)
       else q ∈ pfree s /\ ~ (memory_start s <= phys < memory_end s /\ q = index_of s phys)) ->
  pmm_ok s ->
  pmm_ok (foldl f s l) /\ same_range s (foldl f s l) /\
  forall q, q ∈ pfree (foldl f s l) <->
    if add then q ∈ pfree s \/ exists phys, phys ∈ l /\ q = index_of s phys /\ q < total_pages s
    else q ∈ pfree s /\ forall phys, phys ∈ l -> ~ (memory_start s <= phys < memory_end s /\ q = index_of s phys).
Proof.
  revert s. induction l as [|phys l IH]; intros s Hs0 Hf Hok; cbn [foldl].
  { split_and!; try done. intros q. destruct add; [split; [auto|intros [?|(x & Hx & _)]; [done|by apply not_elem_of_nil in Hx]]|].
    split; [intros ?; split; [done|]|tauto]. intros x Hx. by apply not_elem_of_nil in Hx. }
  destruct (Hf s phys Hs0 Hok ltac:(left)) as (Hok1 & (E1 & E2 & E3) & Hq1).
  destruct (IH (f s phys)) as (Hok2 & (F1 & F2 & F3) & Hq2);
    [destruct Hs0 as (? & ? & ?); unfold same_range; split_and!; congruence|intros s1 x ? ? ?; apply Hf; [done|done|by right]|done|].
  split_and!; [done|unfold same_range; split_and!; congruence|]. intros q. rewrite Hq2.
  assert (Ei : forall x, index_of (f s phys) x = index_of s x) by (intros x; unfold index_of; by rewrite E2).
  specialize (Hq1 q). destruct add; rewrite Hq1; clear Hq1 Hq2 IH Hf.
  - split.
    + intros [[?|?]|(x & Hx & E & Hlt)]; [by left|right; exists phys; split; [left|done]|].
      rewrite Ei, E1 in *. right. exists x. split; [by right|done].
    + intros [?|(x & [->|Hx]%elem_of_cons & E & Hlt)]; [auto|auto|]. right. exists x. by rewrite Ei, E1.
  - split.
    + intros [[H1 H2] H3]. split; [done|]. intros x [->|Hx]%elem_of_cons; [done|]. rewrite <- E2, <- E3, <- Ei. by apply H3.
    + intros [H1 H2]. split; [split; [done|apply H2; left]|]. intros x Hx. rewrite E2, E3, Ei. apply H2. by right.
Qed.

Definition covers (e : memory_map_entry) (a : Z) : Prop :=
  physical_start e <= a < physical_start e + number_of_pages e * PAGE_SIZE.

(** The firmware describes whole pages below 2^64. *)
Definition entry_ok (e : memory_map_entry) : Prop :=
  0 <= physical_start e /\ physical_start e mod PAGE_SIZE = 0 /\ 0 <= number_of_pages e /\
  physical_start e + number_of_pages e * PAGE_SIZE < 2 ^ 64.

Lemma elem_of_pages_between x a b :
  x ∈ pages_between a b <-> exists i, 0 <= i /\ x = a + i * PAGE_SIZE /\ x < b.
Proof.
  unfold pages_between, PAGE_SIZE. rewrite list_elem_of_fmap. setoid_rewrite elem_of_seqZ. split.
  - intros (i & -> & Hi). exists i. split_and!; [lia|done|zlia].
  - intros (i & Hi & -> & Hb). exists i. split; [done|zlia].
Qed.

Lemma region_pages_range s e x : entry_ok e -> x ∈ region_pages s e -> memory_start s <= x < memory_end s.
Proof.
  intros _. unfold region_pages. set (b := u64 _). destruct (_ || _) eqn:E; [by intros ?%not_elem_of_nil|].
  intros (i & Hi & -> & Hb)%elem_of_pages_between. unfold PAGE_SIZE in *. repeat case_if_in Hb; repeat case_if; lia.
Qed.

Lemma region_pages_spec s e p :
  pmm_ok s -> memory_start s mod PAGE_SIZE = 0 -> entry_ok e -> 0 <= p < total_pages s ->
  (exists x, x ∈ region_pages s e /\ p = index_of s x) <-> covers e (page_addr s p).
Proof.
  intros Hok Hal (H0 & Hea & Hn & Hlt) Hp. pose proof (po_range s Hok) as Hr. unfold region_pages.
  rewrite (u64_small (number_of_pages e * PAGE_SIZE)), u64_small by (unfold PAGE_SIZE in *; lia).
  unfold covers, page_addr, index_of. set (st := physical_start e) in *. set (en := st + number_of_pages e * PAGE_SIZE) in *.
  destruct (_ || _) eqn:E.
  { split; [intros (x & Hx & _); by apply not_elem_of_nil in Hx|unfold PAGE_SIZE in *; lia]. }
  set (a := if st <? memory_start s then _ else _). set (b := if memory_end s <? en then _ else _).
  assert (Ha : memory_start s <= a /\ st <= a /\ (a = st \/ a = memory_start s) /\ (a - memory_start s) mod PAGE_SIZE = 0).
  { unfold a. destruct (Z.ltb_spec st (memory_start s)); split_and!; try lia; unfold PAGE_SIZE in *; zlia. }
  assert (Hb : b <= memory_end s /\ b <= en /\ (b = en \/ b = memory_end s)) by (unfold b; destruct (Z.ltb_spec (memory_end s) en); lia).
  clearbody a b. unfold PAGE_SIZE in *. split.
  - intros (x & (i & Hi & -> & Hx)%elem_of_pages_between & ->). unfold PAGE_SIZE in *. zlia.
  - intros Hc. exists (memory_start s + p * 4096). split; [|zlia]. apply elem_of_pages_between. unfold PAGE_SIZE.
    exists ((memory_start s + p * 4096 - a) / 4096). zlia.
Qed.

Lemma mark_usable_ok map s :
  pmm_ok s -> memory_start s mod PAGE_SIZE = 0 -> Forall entry_ok map ->
  let s' := foldl (fun s e => if negb (mm_is_usable_memory_type (e_type e)) then s
                              else foldl mark_page_free s (region_pages s e)) s map in
  pmm_ok s' /\ same_range s s' /\
  forall q, q ∈ pfree s' <-> q ∈ pfree s \/ (0 <= q < total_pages s /\
    exists e, e ∈ map /\ mm_is_usable_memory_type (e_type e) = true /\ covers e (page_addr s q)).
Proof.
  revert s. induction map as [|e map IH]; intros s Hok Hal Hm; cbn [foldl].
  { split_and!; try done. intros q. split; [auto|]. intros [?|(_ & e & He & _)]; [done|by apply not_elem_of_nil in He]. }
  apply Forall_cons in Hm as [He Hm]. destruct (mm_is_usable_memory_type (e_type e)) eqn:Eu; cbn [negb].
  - destruct (foldl_frame mark_page_free true s (region_pages s e) s) as (Hok1 & (E1 & E2 & E3) & Hq1); [done| |done|].
    { intros s0 x (_ & F2 & _) Hok0 Hx. apply mark_page_free_ok; [done|]. rewrite F2. by apply (region_pages_range s e). }
    destruct (IH (foldl mark_page_free s (region_pages s e))) as (Hok2 & (F1 & F2 & F3) & Hq2); [done|by rewrite E2|done|].
    split_and!; [done|unfold same_range; split_and!; congruence|]. intros q. rewrite Hq2, Hq1. unfold page_addr. rewrite E1, E2.
    pose proof (region_pages_spec s e q Hok Hal He) as Hreg. split.
    + intros [[?|(x & Hx & Eq & Hlt)]|(Hq & e' & He' & Hc)]; [by left| |right; split; [done|]; exists e'; split; [by right|done]].
      right. assert (Hq : 0 <= q) by (apply (region_pages_range s e) in Hx; [rewrite Eq; unfold index_of, PAGE_SIZE; zlia|done]).
      split; [lia|]. exists e. split_and!; [left|done|]. apply Hreg; [lia|]. by exists x.
    + intros [?|(Hq & e' & [->|He']%elem_of_cons & Hu & Hc)]; [auto| |right; split; [done|]; by exists e'].
      left. right. apply Hreg in Hc as (x & Hx & Eq); [|done]. exists x. split_and!; [done|done|lia].
  - destruct (IH s Hok Hal Hm) as (Hok2 & Hsr & Hq2). split_and!; try done. intros q. rewrite Hq2. split.
    + intros [?|(Hq & e' & He' & Hc)]; [auto|]. right. split; [done|]. exists e'. split; [by right|done].
    + intros [?|(Hq & e' & [->|He']%elem_of_cons & Hu & Hc)]; [auto|congruence|]. right. split; [done|]. by exists e'.
Qed.

Lemma reserve_uefi_ok map s :
  pmm_ok s -> memory_start s mod PAGE_SIZE = 0 -> Forall entry_ok map ->
  let s' := reserve_uefi_memory_regions map s in
  pmm_ok s' /\ same_range s s' /\
  forall q, q ∈ pfree s' <-> q ∈ pfree s /\
    forall e, e ∈ map -> mm_is_usable_memory_type (e_type e) = false -> ~ covers e (page_addr s q).
Proof.
  unfold reserve_uefi_memory_regions. revert s. induction map as [|e map IH]; intros s Hok Hal Hm; cbn [foldl].
  { split_and!; try done. intros q. split; [|tauto]. intros ?. split; [done|]. intros e He. by apply not_elem_of_nil in He. }
  apply Forall_cons in Hm as [He Hm]. destruct (mm_is_usable_memory_type (e_type e)) eqn:Eu.
  - destruct (IH s Hok Hal Hm) as (Hok2 & Hsr & Hq2). split_and!; try done. intros q. rewrite Hq2. split.
    + intros [Hq H]. split; [done|]. intros e' [->|He']%elem_of_cons Hu; [congruence|by apply H].
    + intros [Hq H]. split; [done|]. intros e' He'. apply H. by right.
  - destruct (foldl_frame reserve_physical_page false s (region_pages s e) s) as (Hok1 & (E1 & E2 & E3) & Hq1); [done| |done|].
    { intros s0 x _ Hok0 _. by destruct (reserve_page_ok s0 x Hok0) as (? & ? & _ & ?). }
    destruct (IH (foldl reserve_physical_page s (region_pages s e))) as (Hok2 & (F1 & F2 & F3) & Hq2); [done|by rewrite E2|done|].
    split_and!; [done|unfold same_range; split_and!; congruence|]. intros q. rewrite Hq2, Hq1. unfold page_addr. rewrite E2.
    split.
    + intros [[Hq H1] H2]. split; [done|]. intros e' [->|He']%elem_of_cons Hu Hc; [|by eapply H2].
      apply (region_pages_spec s e q Hok Hal He) in Hc as (x & Hx & Eq); [|by apply elem_of_pfree in Hq as [? _]].
      apply (H1 x Hx). split; [by apply (region_pages_range s e)|done].
    + intros [Hq H]. split; [split; [done|]|intros e' He'; apply H; by right]. intros x Hx [_ Eq].
      apply (H e ltac:(left) Eu). apply (region_pages_spec s e q Hok Hal He); [by apply elem_of_pfree in Hq as [? _]|]. by exists x.
Qed.

Lemma reserve_mapped_ok mapped s :
  pmm_ok s -> memory_start s mod PAGE_SIZE = 0 -> Forall (fun x => x mod PAGE_SIZE = 0) mapped ->
  let s' := reserve_bootloader_mapped_pages mapped s in
  pmm_ok s' /\ same_range s s' /\ forall q, q ∈ pfree s' <-> q ∈ pfree s /\ page_addr s q ∉ mapped.
Proof.
  intros Hok Hal Hm s'. unfold s', reserve_bootloader_mapped_pages.
  destruct (foldl_frame (fun s phys => if negb (phys =? 0) && (memory_start s <=? phys) && (phys <? memory_end s)
                                      then reserve_physical_page s phys else s) false s mapped s) as (Hok1 & Hsr & Hq);
    [done| |done|].
  { intros s0 x _ Hok0 _. pose proof (po_range s0 Hok0). destruct (_ && _) eqn:E.
    - by destruct (reserve_page_ok s0 x Hok0) as (? & ? & _ & ?).
    - split_and!; try done. intros q. split; [|tauto]. intros ?. split; [done|]. lia. }
  split_and!; [done|done|]. intros q. rewrite Hq. pose proof (po_range s Hok) as Hr. unfold page_addr, index_of in *. split.
  - intros [Hf H]. split; [done|]. intros Hin. apply elem_of_pfree in Hf as [Hf _]. apply (H _ Hin). unfold PAGE_SIZE in *. zlia.
  - intros [Hf H]. split; [done|]. intros x Hx [Hx1 ->]. apply H. pose proof (proj1 (Forall_forall _ _) Hm x Hx) as Hx2. cbn in Hx2.
    replace (memory_start s + (x - memory_start s) / PAGE_SIZE * PAGE_SIZE) with x; [done|]. unfold PAGE_SIZE in *. zlia.
Qed.

Lemma run_scan_spec s n i m rs len rs' len' :
  0 < n -> 0 <= i -> 0 <= len < n ->
  (0 < len -> rs + len = i /\ 0 <= rs /\ forall q, rs <= q < i -> is_page_allocated s q = false) ->
  run_scan s n (seqZ i m) rs len = (rs', len') ->
  len' < n \/ (len' = n /\ 0 <= rs' /\ rs' + n <= i + m /\ forall q, rs' <= q < rs' + n -> is_page_allocated s q = false).
Proof.
  intros Hn. remember (Z.to_nat m) as k eqn:Ek. revert i m rs len Ek. induction k as [|k IH]; intros i m rs len Ek Hi Hl Hinv E.
  { rewrite seqZ_nil in E by lia. injection E as <- <-. left. lia. }
  rewrite seqZ_cons in E by lia. cbn [run_scan] in E.
  destruct (is_page_allocated s i) eqn:Ea; cbn [negb] in E.
  { destruct (IH (Z.succ i) (Z.pred m) rs 0) as [?|(? & ? & ? & ?)]; [lia|lia|lia|lia|done|by left|right]. split_and!; try done. lia. }
  set (st := if len =? 0 then i else rs) in *.
  assert (Hst : st + (len + 1) = Z.succ i /\ 0 <= st /\ forall q, st <= q < Z.succ i -> is_page_allocated s q = false).
  { unfold st. destruct (Z.eqb_spec len 0) as [->|]; [split_and!; [lia|lia|]; intros q Hq; by replace q with i by lia|].
    destruct Hinv as (H1 & H2 & H3); [lia|]. split_and!; [lia|done|]. intros q Hq.
    destruct (decide (q = i)) as [->|]; [done|apply H3; lia]. }
  clearbody st. destruct (Z.eqb_spec (len + 1) n) as [E1|E1].
  - injection E as <- <-. right. destruct Hst as (H1 & H2 & H3). split_and!; [done|done|lia|]. intros q Hq. apply H3. lia.
  - destruct (IH (Z.succ i) (Z.pred m) st (len + 1)) as [?|(? & ? & ? & ?)]; [lia|lia|lia|done|done|by left|right].
    split_and!; try done. lia.
Qed.

Lemma place_refcounts_ok s :
  pmm_ok s ->
  let s' := place_refcounts s in
  pmm_ok s' /\ same_range s s' /\
  exists start n, 0 <= n /\ run start n ⊆ pfree s /\ pfree s' = pfree s ∖ run start n /\
    (page_refcounts s' = None /\ n = 0 \/
     page_refcounts s' = Some (replicate (Z.to_nat (total_pages s)) 0) /\ total_pages s * 2 <= n * PAGE_SIZE).
Proof.
  intros Hok s'. unfold s', place_refcounts. set (n := (_ + _ - 1) / _). pose proof (po_total s Hok) as Ht.
  assert (Hn : 0 <= n /\ total_pages s * 2 <= n * PAGE_SIZE /\ (total_pages s = 0 <-> n = 0)) by (unfold n, PAGE_SIZE; zlia).
  destruct (run_scan _ _ _ _ _) as [rs len] eqn:E.
  assert (Hnone : forall s1, pmm_ok s1 -> pmm_ok (set_refcounts (Some (replicate (Z.to_nat (total_pages s1)) 0)) s1)).
  { intros s1 Hok1. apply (pmm_ok_bitmap s1); try done; try apply Hok1. cbn. intros l [= <-]. rewrite length_replicate.
    pose proof (po_total s1 Hok1). lia. }
  destruct (Z.ltb_spec len n) as [Hlt|Hge].
  - split_and!; [apply (pmm_ok_bitmap s); try done; apply Hok|done|]. exists 0, 0. change (run 0 0) with (∅ : gset Z).
    split_and!; [done|set_solver|by rewrite difference_empty_L|by left].
  - assert (Hrun : 0 <= rs /\ forall q, q ∈ seqZ rs n -> q ∈ pfree s).
    { destruct (decide (n = 0)) as [En|Hn0].
      - assert (total_pages s = 0) as E0 by lia. rewrite E0 in E. cbn in E. injection E as <- <-.
        split; [unfold NO_PAGE; lia|]. intros q Hq. apply elem_of_seqZ in Hq. lia.
      - destruct (run_scan_spec s n 0 (total_pages s) NO_PAGE 0 rs len) as [?|(-> & H1 & H2 & H3)]; [lia|lia|lia|lia|done|lia|].
        split; [done|]. intros q Hq. apply elem_of_seqZ in Hq. apply elem_of_pfree. split; [lia|]. apply H3. lia. }
    destruct Hrun as [Hrs Hrun]. destruct (take_pages_ok (seqZ rs n) s Hok (NoDup_seqZ _ _) Hrun) as (Hok1 & Hf & _ & E1 & E2 & E3).
    split_and!; [rewrite <- E1; by apply Hnone|done|]. exists rs, n. split_and!; [lia| |done|right; split; [done|lia]].
    intros q Hq. apply Hrun. by apply elem_of_list_to_set in Hq.
Qed.

Lemma initial_ok total start stop words :
  0 <= total <= 32 * Z.of_nat words -> 0 < start -> start + total * PAGE_SIZE <= stop < 2 ^ 52 ->
  let s := mk_mm (replicate words 0xFFFFFFFF) total 0 start stop None 0 in pmm_ok s /\ pfree s = ∅.
Proof.
  intros Ht Hs Hr s.
  assert (Ha : forall p, 0 <= p -> is_page_allocated s p = true).
  { intros p Hp. unfold is_page_allocated. cbn. destruct (replicate _ _ !! _) as [w|] eqn:E; [|done].
    apply lookup_replicate in E as [-> _]. pose proof (Z.mod_pos_bound p 32 ltac:(lia)). rewrite has_bit by done.
    change 0xFFFFFFFF with (Z.ones 32). by apply Z.ones_spec_low. }
  assert (Hf : pfree s = ∅).
  { apply set_eq. intros q. split; [|set_solver]. intros [Hq E]%elem_of_pfree. rewrite Ha in E by lia. done. }
  split; [|done]. split; cbn; rewrite ?length_replicate; try done; try lia.
  - apply Forall_replicate. lia.
  - intros p Hp. apply Ha. lia.
  - by rewrite Hf, size_empty.
Qed.

(**  After [mm_initialize_physical_memory] a page is free exactly when the
    firmware's map says that it is usable RAM and nowhere that it is reserved, the
    boot loader has not mapped it for the kernel, and it does not hold the array of
    reference counts; all counts are 0, and the allocator's invariant holds. *)
Theorem mm_initialize_spec memory_size map mapped :
  0 <= memory_size < 2 ^ 50 -> map <> [] -> Forall entry_ok map -> Forall (fun x => x mod PAGE_SIZE = 0) mapped ->
  let s := mm_initialize_physical_memory memory_size map mapped in
  pmm_ok s /\
  exists start n, (page_refcounts s = None /\ n = 0 \/
      page_refcounts s = Some (replicate (Z.to_nat (total_pages s)) 0) /\ total_pages s * 2 <= n * PAGE_SIZE) /\
    forall p, p ∈ pfree s <-> 0 <= p < total_pages s /\ ~ (start <= p < start + n) /\ page_addr s p ∉ mapped /\
      (exists e, e ∈ map /\ mm_is_usable_memory_type (e_type e) = true /\ covers e (page_addr s p)) /\
      (forall e, e ∈ map -> mm_is_usable_memory_type (e_type e) = false -> ~ covers e (page_addr s p)).
Proof.
  intros Hsize Hne Hm Hmapped s. unfold s, mm_initialize_physical_memory.
  set (start := 32 * 1024 * 1024 + _). set (stop0 := if DIRECT_MAP_LIMIT <? _ then _ else _).
  set (stop := if stop0 <=? start then _ else _). set (total := (stop - start) / PAGE_SIZE). set (words := Z.to_nat _).
  assert (Hst : 0 < start < 2 ^ 48 /\ start mod PAGE_SIZE = 0).
  { unfold start, pt_pool_pages. destruct (_ <? 256) eqn:E; unfold PAGE_SIZE in *; [done|]. split; [zlia|].
    by rewrite Z_mod_plus_full. }
  assert (Hsp : start < stop < 2 ^ 52).
  { unfold stop. destruct (Z.leb_spec stop0 start); [lia|]. unfold stop0, DIRECT_MAP_LIMIT in *. destruct (_ <? memory_size) eqn:E; lia. }
  clearbody start stop. clear stop0.
  assert (Htot : 0 <= total /\ start + total * PAGE_SIZE <= stop) by (unfold total, PAGE_SIZE; zlia).
  assert (Hw : total <= 32 * Z.of_nat words) by (unfold words, PAGE_SIZE; zlia).
  destruct (initial_ok total start stop words) as [Hok0 Hf0]; [lia|lia|lia|]. set (s0 := mk_mm _ _ _ _ _ _ _) in *.
  assert (Emark : mark_usable_uefi_regions map s0 = foldl (fun s e => if negb (mm_is_usable_memory_type (e_type e)) then s
    else foldl mark_page_free s (region_pages s e)) s0 map) by (by destruct map).
  rewrite Emark. destruct (mark_usable_ok map s0 Hok0 (proj2 Hst) Hm) as (Hok1 & (A1 & A2 & A3) & Hq1). set (s1 := foldl _ s0 map) in *.
  destruct (reserve_mapped_ok mapped s1 Hok1 ltac:(rewrite A2; apply Hst) Hmapped) as (Hok2 & (B1 & B2 & B3) & Hq2).
  set (s2 := reserve_bootloader_mapped_pages mapped s1) in *.
  destruct (reserve_uefi_ok map s2 Hok2 ltac:(rewrite B2, A2; apply Hst) Hm) as (Hok3 & (D1 & D2 & D3) & Hq3).
  set (s3 := reserve_uefi_memory_regions map s2) in *.
  destruct (place_refcounts_ok s3 Hok3) as (Hok4 & (F1 & F2 & F3) & rs & n & Hn & Hsub & Hf & Href).
  split; [done|]. exists rs, n. rewrite F1. split; [done|]. intros p. unfold page_addr.
  rewrite Hf, elem_of_difference, elem_of_run, Hq3, Hq2, Hq1, Hf0, F2, D2, D1, B1, A1. unfold page_addr. rewrite B2, A2.
  split.
  - intros [[[[?|[Hp Hu]] Hnm] Hnr] Hnot]; [set_solver|]. done.
  - intros (Hp & Hnot & Hnm & Hu & Hnr). split; [|done]. split; [|done]. split; [|done]. by right.
Qed.

(** ** Witnesses *)

(** 64 pages at 1 MiB, two of which are free. *)
Definition demo_mm : mm_state :=
  mark_page_free (mark_page_free (mk_mm (replicate 2 0xFFFFFFFF) 64 0 0x100000 0x140000 None 0) 0x105000) 0x106000.

Lemma demo_mm_ok : pmm_ok demo_mm.
Proof.
  destruct (initial_ok 64 0x100000 0x140000 2) as [Hok _]; [done|done|unfold PAGE_SIZE; lia|].
  apply (mark_page_free_ok _ 0x105000) in Hok as (Hok1 & _); [|cbn; lia].
  by apply (mark_page_free_ok _ 0x106000) in Hok1 as (Hok2 & _); [|by vm_compute].
Qed.

Lemma mm_allocate_contiguous_spec_witness :
  (mm_allocate_contiguous_pages demo_mm 2).2 = 0x105000 /\ pmm_ok (mm_allocate_contiguous_pages demo_mm 2).1 /\
  (mm_allocate_contiguous_pages demo_mm 3).2 = 0.
Proof.
  assert (E2 : (mm_allocate_contiguous_pages demo_mm 2).2 = 0x105000) by (by vm_compute).
  split_and!; [done| |by vm_compute].
  pose proof (mm_allocate_contiguous_spec demo_mm 2 demo_mm_ok ltac:(lia)) as H.
  destruct (mm_allocate_contiguous_pages demo_mm 2) as [s' a]. cbn in E2. subst a.
  destruct H as [(H & _)|(st & _ & _ & _ & _ & _ & _ & H & _)]; [discriminate H|exact H].
Defined.

Definition demo_map : list memory_map_entry := [mk_entry 7 0x2000000 0x8000; mk_entry 6 0x3000000 16].

Lemma mm_initialize_spec_witness : pmm_ok (mm_initialize_physical_memory 0x8000000 demo_map [0x2100000]).
Proof.
  assert (Hm : Forall entry_ok demo_map).
  { repeat apply Forall_cons_2; [..|apply Forall_nil_2]; unfold entry_ok; cbn; repeat split; lia. }
  destruct (mm_initialize_spec 0x8000000 demo_map [0x2100000] ltac:(lia) ltac:(discriminate) Hm) as [H _]; [|exact H].
  apply Forall_cons_2; [done|apply Forall_nil_2].
Defined.

(** Without a memory map the fall-back clears the whole bitmap: the bits behind the
    last page say that pages beyond the end of the memory are free. *)
Lemma mm_no_map_beyond_end s p :
  in_bitmap s p -> total_pages s <= p -> 0 <= total_pages s ->
  is_page_allocated (mark_usable_uefi_regions [] s) p = false.
Proof.
  intros Hp Ht H0. cbn. unfold is_page_allocated. cbn.
  destruct (page_word s p Hp) as [w Hw]. by rewrite list_lookup_fmap, Hw.
Qed.
