(* ===== verification/Paging.v ===== *)
(** * Page tables and copy-on-write ([kernel/mm/memory.c])

    Page tables as words in physical pages, the pool their pages come from, mapping
    and unmapping, the address spaces of processes, their duplication for [fork]
    and the handling of copy-on-write faults.  A page is named by its physical
    address; the kernel reaches it through its direct map of the physical memory,
    so [phys_to_virt] is the identity here.  TLB maintenance is not modelled, nor
    are the counters [mm_destroy_address_space] keeps for debugging. *)

From Stdlib Require Import ZArith Lia Bool.
From stdpp Require Import base list gmap.
From S2P Require Import Prelude Pmm.

Open Scope Z_scope.

Definition PAGE_PRESENT : Z := 0x001.
Definition PAGE_WRITABLE : Z := 0x002.
Definition PAGE_USER : Z := 0x004.
Definition PAGE_SIZE_FLAG : Z := 0x080.
Definition PAGE_COW : Z := 0x200.
Definition PAGE_NO_EXECUTE : Z := 0x8000000000000000.
Definition PTE_ADDR_MASK : Z := 0x000FFFFFFFFFF000.
Definition LARGE_ADDR_MASK : Z := 0x000FFFFFFFE00000.
Definition PTE_FLAGS_MASK : Z := Z.lor 0xFFF PAGE_NO_EXECUTE.
Definition KERNEL_OFFSET : Z := 0xFFFFFFFF80000000.
Definition PHYS_MAP_BASE : Z := 0xFFFF880000000000.
Definition PHYS_MAP_PML4_INDEX : nat := 272.

(** [frames]: the 512 words of every physical page. *)
Record vm := mk_vm {
  pm : mm_state;
  frames : gmap Z (list Z);
  pt_pool_phys_start : Z;
  pt_pool_size : Z;
  pt_pool_next : Z;
  pt_pool_freelist : Z;
  g_kernel_pml4_phys : Z;
}.

Definition set_pm (x : mm_state) (st : vm) : vm :=
  mk_vm x (frames st) (pt_pool_phys_start st) (pt_pool_size st) (pt_pool_next st) (pt_pool_freelist st) (g_kernel_pml4_phys st).
Definition set_frames (x : gmap Z (list Z)) (st : vm) : vm :=
  mk_vm (pm st) x (pt_pool_phys_start st) (pt_pool_size st) (pt_pool_next st) (pt_pool_freelist st) (g_kernel_pml4_phys st).
Definition set_pool (next freelist : Z) (st : vm) : vm :=
  mk_vm (pm st) (frames st) (pt_pool_phys_start st) (pt_pool_size st) next freelist (g_kernel_pml4_phys st).

Definition word (st : vm) (f : Z) (i : nat) : Z := default 0 (frames st !! f ≫= fun ws => ws !! i).
Definition put_word (f : Z) (i : nat) (v : Z) (st : vm) : vm :=
  set_frames (alter (alter (fun _ => v) i) f (frames st)) st.
Definition put_page (f : Z) (ws : list Z) (st : vm) : vm := set_frames (<[f := ws]> (frames st)) st.
Definition page_words (st : vm) (f : Z) : list Z := default [] (frames st !! f).

Definition zero_page : list Z := replicate 512 0.

Definition pte_addr (e : Z) : Z := Z.land e PTE_ADDR_MASK.

(** [(va >> s) & 0x1FF] *)
Definition table_index (va s : Z) : nat := Z.to_nat (Z.land (Z.shiftr va s) 0x1FF).

(** ** Pages for page tables *)

Definition allocate_pt_page (st : vm) : vm * Z :=
  let zeroed st phys := (put_page phys zero_page st, phys) in
  if negb (pt_pool_freelist st =? 0) then
    let phys := pt_pool_freelist st in
    zeroed (set_pool (pt_pool_next st) (word st phys 0) st) phys
  else if pt_pool_next st <? pt_pool_size st then
    zeroed (set_pool (u64 (pt_pool_next st + 1)) (pt_pool_freelist st) st)
      (u64 (pt_pool_phys_start st + pt_pool_next st * PAGE_SIZE))
  else
    let '(s, phys) := mm_allocate_physical_page (pm st) in
    if phys =? 0 then (set_pm s st, 0) else zeroed (set_pm s st) phys.

Definition free_pt_page (phys : Z) (st : vm) : vm :=
  if phys =? 0 then st
  else if (pt_pool_phys_start st <=? phys) && (phys <? u64 (pt_pool_phys_start st + pt_pool_size st * PAGE_SIZE)) then
    set_pool (pt_pool_next st) phys (put_word phys 0 (pt_pool_freelist st) st)
  else set_pm (mm_free_physical_page phys (pm st)) st.

(** ** Walking the tables *)

Definition table_flags (user : bool) : Z :=
  let flags := Z.lor PAGE_PRESENT PAGE_WRITABLE in if user then Z.lor flags PAGE_USER else flags.

(** The table behind entry [i] of table [t], created when it is missing. *)
Definition next_table (st : vm) (user create : bool) (t : Z) (i : nat) : vm * option Z :=
  let e := word st t i in
  if negb (has e PAGE_PRESENT) then
    if negb create then (st, None)
    else
      let '(st, phys) := allocate_pt_page st in
      if phys =? 0 then (st, None) else (put_word t i (Z.lor phys (table_flags user)) st, Some phys)
  else
    let st := if user && create && negb (has e PAGE_USER) then put_word t i (Z.lor e PAGE_USER) st else st in
    (st, Some (pte_addr e)).

(** A 2 MB page becomes 512 pages with flags [pte_flags]. *)
Definition split_large (st : vm) (user : bool) (pd : Z) (i : nat) (pte_flags : Z) : vm * option Z :=
  let base := Z.land (word st pd i) LARGE_ADDR_MASK in
  let '(st, pt) := allocate_pt_page st in
  if pt =? 0 then (st, None)
  else
    let st := put_page pt ((fun k => Z.lor (base + Z.of_nat k * PAGE_SIZE) pte_flags) <$> seq 0 512) st in
    (put_word pd i (Z.lor pt (table_flags user)) st, Some pt).

Definition is_large (e : Z) : bool := has e PAGE_PRESENT && has e PAGE_SIZE_FLAG.

(** The entry for [va] in the address space [pml4]: its table and index. *)
Definition mm_get_page_table_from_pml4 (st : vm) (pml4 va : Z) (create : bool) : vm * option (Z * nat) :=
  let user := va <? KERNEL_OFFSET in
  if pml4 =? 0 then (st, None)
  else
    let '(st, pdpt) := next_table st user create pml4 (table_index va 39) in
    match pdpt with
    | None => (st, None)
    | Some pdpt =>
        let '(st, pd) := next_table st user create pdpt (table_index va 30) in
        match pd with
        | None => (st, None)
        | Some pd =>
            let pd_entry := word st pd (table_index va 21) in
            let '(st, pt) :=
              if is_large pd_entry then
                if negb create then (st, None)
                else
                  let old_flags := Z.land pd_entry PTE_FLAGS_MASK in
                  let flags := Z.lor (Z.land old_flags (Z.lnot PAGE_SIZE_FLAG)) PAGE_PRESENT in
                  split_large st user pd (table_index va 21) (if user then Z.lor flags PAGE_USER else flags)
              else next_table st user create pd (table_index va 21) in
            (st, (fun pt => (pt, table_index va 12)) <$> pt)
        end
    end.

(** The same for the current address space [cr3]. *)
Definition mm_get_page_table (st : vm) (cr3 va : Z) (create : bool) : vm * option (Z * nat) :=
  let '(st, pdpt) := next_table st false create cr3 (table_index va 39) in
  match pdpt with
  | None => (st, None)
  | Some pdpt =>
      let '(st, pd) := next_table st false create pdpt (table_index va 30) in
      match pd with
      | None => (st, None)
      | Some pd =>
          let pd_entry := word st pd (table_index va 21) in
          let '(st, pt) :=
            if is_large pd_entry then
              if negb create then (st, None)
              else split_large st false pd (table_index va 21)
                     (Z.land (Z.land pd_entry 0x8000000000000E7F) (Z.lnot PAGE_SIZE_FLAG))
            else next_table st false create pd (table_index va 21) in
          (st, (fun pt => (pt, table_index va 12)) <$> pt)
      end
  end.

(** ** Mapping in the kernel's address space *)

Definition pte_of (phys flags : Z) : Z := Z.lor (Z.land phys (Z.lnot 0xFFF)) flags.

Definition mm_map_page (st : vm) (cr3 va phys flags : Z) : vm * bool :=
  match mm_get_page_table st cr3 va true with
  | (st, Some (t, i)) => (put_word t i (pte_of phys flags) st, true)
  | (st, None) => (st, false)
  end.

Definition mm_unmap_page (st : vm) (cr3 va : Z) : vm :=
  match mm_get_page_table st cr3 va false with
  | (st, Some (t, i)) => if has (word st t i) PAGE_PRESENT then put_word t i 0 st else st
  | (st, None) => st
  end.

Definition is_direct_map_addr (va : Z) : bool := (PHYS_MAP_BASE <=? va) && (va <? PHYS_MAP_BASE + 0x400000000).

Definition entry_addr (e va : Z) : Z := Z.lor (pte_addr e) (Z.land va 0xFFF).

Definition mm_get_physical_address (st : vm) (cr3 va : Z) : Z :=
  if is_direct_map_addr va then va - PHYS_MAP_BASE
  else match mm_get_page_table st cr3 va false with
       | (st, Some (t, i)) => if has (word st t i) PAGE_PRESENT then entry_addr (word st t i) va else 0
       | (_, None) => 0
       end.

Definition mm_is_page_mapped (st : vm) (cr3 va : Z) : bool :=
  match mm_get_page_table st cr3 va false with
  | (st, Some (t, i)) => has (word st t i) PAGE_PRESENT
  | (_, None) => false
  end.

Definition mm_get_page_flags (st : vm) (cr3 va : Z) : Z :=
  match mm_get_page_table st cr3 va false with
  | (st, Some (t, i)) => Z.lor (Z.land (word st t i) 0xFFF) (Z.land (word st t i) PAGE_NO_EXECUTE)
  | (_, None) => 0
  end.

Definition mm_set_page_flags (st : vm) (cr3 va flags : Z) : vm * bool :=
  match mm_get_page_table st cr3 va false with
  | (st, Some (t, i)) =>
      if has (word st t i) PAGE_PRESENT then (put_word t i (Z.lor (pte_addr (word st t i)) flags) st, true) else (st, false)
  | (st, None) => (st, false)
  end.

Definition mm_mark_page_cow (st : vm) (cr3 va : Z) : vm * bool :=
  match mm_get_page_table st cr3 va false with
  | (st, Some (t, i)) =>
      if has (word st t i) PAGE_PRESENT
      then (put_word t i (Z.lor (Z.land (word st t i) (Z.lnot PAGE_WRITABLE)) PAGE_COW) st, true) else (st, false)
  | (st, None) => (st, false)
  end.

(** ** Address spaces *)

(** Drops a reference to a user page and frees it with the last one. *)
Definition drop_page (phys : Z) (st : vm) : vm :=
  let '(s, last) := mm_decref_page phys (pm st) in
  set_pm (if last then mm_free_physical_page phys s else s) st.

(** What happens to the page behind an entry that goes. *)
Definition drop_entry (e phys : Z) (st : vm) : vm :=
  if has e PAGE_USER then drop_page phys st else set_pm (mm_free_physical_page phys (pm st)) st.

Definition mm_map_page_in_address_space (st : vm) (pml4 va phys flags : Z) : vm * bool :=
  match mm_get_page_table_from_pml4 st pml4 va true with
  | (st, Some (t, i)) => (put_word t i (pte_of phys flags) st, true)
  | (st, None) => (st, false)
  end.

Definition mm_map_user_page (st : vm) (pml4 va phys flags : Z) : vm * bool :=
  mm_map_page_in_address_space st pml4 va phys (if va <? KERNEL_OFFSET then Z.lor flags PAGE_USER else flags).

Definition mm_unmap_page_in_address_space (st : vm) (pml4 va : Z) : vm :=
  match mm_get_page_table_from_pml4 st pml4 va false with
  | (st, Some (t, i)) =>
      let e := word st t i in
      if has e PAGE_PRESENT then
        let phys := pte_addr e in
        let st := if negb (phys =? 0) then drop_entry e phys st else st in
        put_word t i 0 st
      else st
  | (st, None) => st
  end.

Definition mm_get_physical_address_from_pml4 (st : vm) (pml4 va : Z) : Z :=
  match mm_get_page_table_from_pml4 st pml4 va false with
  | (st, Some (t, i)) => if has (word st t i) PAGE_PRESENT then entry_addr (word st t i) va else 0
  | (_, None) => 0
  end.

(** The loop of [mm_map_user_stack] from page [i] on, [n] pages left. *)
Fixpoint map_stack_loop (n : nat) (st : vm) (pml4 bottom i : Z) : vm * bool :=
  match n with
  | O => (st, true)
  | S n' =>
      let undo st := foldl (fun st j => mm_unmap_page_in_address_space st pml4 (u64 (bottom + j * PAGE_SIZE))) st (seqZ 0 i) in
      let '(s, phys) := mm_allocate_physical_page (pm st) in
      let st := set_pm s st in
      if phys =? 0 then (undo st, false)
      else
        let st := put_page phys zero_page st in
        let flags := Z.lor (Z.lor (Z.lor PAGE_PRESENT PAGE_WRITABLE) PAGE_USER) PAGE_NO_EXECUTE in
        let '(st, ok) := mm_map_page_in_address_space st pml4 (u64 (bottom + i * PAGE_SIZE)) phys flags in
        if ok then map_stack_loop n' st pml4 bottom (i + 1)
        else (undo (set_pm (mm_free_physical_page phys (pm st)) st), false)
  end.

Definition mm_map_user_stack (st : vm) (pml4 stack_top stack_size : Z) : vm * bool :=
  if (pml4 =? 0) || (stack_size =? 0) then (st, false)
  else
    let pages := u64 (stack_size + PAGE_SIZE - 1) / PAGE_SIZE in
    map_stack_loop (Z.to_nat pages) st pml4 (u64 (stack_top - stack_size)) 0.

Definition mm_create_user_address_space (st : vm) : vm * Z :=
  let '(st, new) := allocate_pt_page st in
  if new =? 0 then (st, 0)
  else
    let share i st :=
      let e := word st (g_kernel_pml4_phys st) i in
      if has e PAGE_PRESENT then put_word new i e st else st in
    (share 511%nat (share PHYS_MAP_PML4_INDEX st), new).

(** *** Destruction *)

Definition destroy_pt (pt : Z) (st : vm) : vm :=
  foldl (fun st l =>
    let e := word st pt l in
    if has e PAGE_PRESENT then drop_entry e (pte_addr e) st else st) st (seq 0 512).

Definition destroy_pd (pd : Z) (st : vm) : vm :=
  foldl (fun st k =>
    let e := word st pd k in
    if has e PAGE_PRESENT then
      if has e PAGE_SIZE_FLAG then drop_entry e (Z.land e LARGE_ADDR_MASK) st
      else free_pt_page (pte_addr e) (destroy_pt (pte_addr e) st)
    else st) st (seq 0 512).

Definition destroy_pdpt (pdpt : Z) (st : vm) : vm :=
  foldl (fun st j =>
    let e := word st pdpt j in
    if has e PAGE_PRESENT then free_pt_page (pte_addr e) (destroy_pd (pte_addr e) st) else st) st (seq 0 512).

Definition destroy_pml4 (pml4 : Z) (st : vm) : vm :=
  foldl (fun st i =>
    let e := word st pml4 i in
    if has e PAGE_PRESENT then free_pt_page (pte_addr e) (destroy_pdpt (pte_addr e) st) else st) st (seq 0 256).

Definition mm_destroy_address_space (pml4 : Z) (st : vm) : vm :=
  if (pml4 =? 0) || (pml4 =? g_kernel_pml4_phys st) then st
  else free_pt_page pml4 (destroy_pml4 pml4 st).

(** *** Duplication *)

Definition cow_entry (e : Z) : Z := Z.lor (Z.land e (Z.lnot PAGE_WRITABLE)) PAGE_COW.

(** [goto fail] ends the loops. *)
Fixpoint iter (body : vm -> nat -> vm * bool) (ixs : list nat) (st : vm) : vm * bool :=
  match ixs with
  | [] => (st, true)
  | i :: ixs' => let '(st, ok) := body st i in if ok then iter body ixs' st else (st, false)
  end.

Definition is_in_shared_range (regions : list (Z * Z)) (va : Z) : bool :=
  existsb (fun '(start, stop) => (start <=? va) && (va <? stop)) regions.

(** A further reference to a page of the parent. *)
Definition share_page (phys : Z) (st : vm) : vm :=
  let s := pm st in
  let s := if mm_get_page_refcount s phys =? 0 then mm_incref_page phys s else s in
  set_pm (mm_incref_page phys s) st.

Section Clone.
Variable regions : list (Z * Z).    (* the shared mappings *)

Definition clone_pt (base src new : Z) (st : vm) (l : nat) : vm * bool :=
  let e := word st src l in
  if negb (has e PAGE_PRESENT) then (st, true)
  else if has e PAGE_USER then
    if is_in_shared_range regions (Z.lor base (Z.shiftl (Z.of_nat l) 12)) then
      (share_page (pte_addr e) (put_word new l e st), true)
    else
      (share_page (pte_addr e) (put_word new l (cow_entry e) (put_word src l (cow_entry e) st)), true)
  else (put_word new l e st, true).

(** The copy of the table behind entry [e] of the parent, for entry [i] of [new]. *)
Definition clone_table (new : Z) (i : nat) (e : Z) (below : Z -> Z -> vm -> vm * bool) (st : vm) : vm * bool :=
  let '(st, phys) := allocate_pt_page st in
  if phys =? 0 then (st, false)
  else below (pte_addr e) phys (put_word new i (Z.lor phys (Z.land e PTE_FLAGS_MASK)) st).

Definition clone_pd (base src new : Z) (st : vm) (k : nat) : vm * bool :=
  let e := word st src k in
  let vaddr_base := Z.lor base (Z.shiftl (Z.of_nat k) 21) in
  if negb (has e PAGE_PRESENT) then (st, true)
  else if has e PAGE_SIZE_FLAG then
    if has e PAGE_USER && negb (is_in_shared_range regions vaddr_base) then
      (put_word new k (cow_entry e) (put_word src k (cow_entry e) st), true)
    else (put_word new k e st, true)
  else clone_table new k e (fun s n => iter (clone_pt vaddr_base s n) (seq 0 512)) st.

Definition clone_pdpt (base src new : Z) (st : vm) (j : nat) : vm * bool :=
  let e := word st src j in
  if negb (has e PAGE_PRESENT) then (st, true)
  else clone_table new j e
         (fun s n => iter (clone_pd (Z.lor base (Z.shiftl (Z.of_nat j) 30)) s n) (seq 0 512)) st.

Definition clone_pml4 (src new : Z) (st : vm) (i : nat) : vm * bool :=
  let e := word st src i in
  if negb (has e PAGE_PRESENT) then (st, true)
  else clone_table new i e (fun s n => iter (clone_pdpt (Z.shiftl (Z.of_nat i) 39) s n) (seq 0 512)) st.

Definition mm_clone_address_space_with_shared (src : Z) (st : vm) : vm * Z :=
  if src =? 0 then (st, 0)
  else
    let '(st, new) := mm_create_user_address_space st in
    if new =? 0 then (st, 0)
    else
      let '(st, ok) := iter (clone_pml4 src new) (seq 0 256) st in
      if ok then (st, new) else (mm_destroy_address_space new st, 0).

End Clone.

(** [mm_clone_address_space] repeats this code without the shared regions. *)
Definition mm_clone_address_space (src : Z) (st : vm) : vm * Z := mm_clone_address_space_with_shared [] src st.

(** ** Copy-on-write faults *)

(** The entry after the copy: the flags without the mark, writable, the new page. *)
Definition resolved_entry (e new : Z) : Z :=
  Z.lor (Z.lor (Z.land e PAGE_NO_EXECUTE) new) (Z.lor (Z.land (Z.land e 0xFFF) (Z.lnot PAGE_COW)) PAGE_WRITABLE).

(** What the first half of the handler decides: done with a result, or to copy
    page [old] behind entry [i] of table [t], with the count it has read. *)
Inductive cow_decision :=
  | CowDone (r : bool)
  | CowCopy (t : Z) (i : nat) (old : Z) (refcount : option Z).

Definition cow_fault_check (st : vm) (cr3 fault_addr : Z) : cow_decision :=
  match mm_get_page_table st cr3 (Z.land fault_addr (Z.lnot 0xFFF)) false with
  | (_, None) => CowDone false
  | (_, Some (t, i)) =>
      let e := word st t i in
      if negb (has e PAGE_PRESENT) then CowDone false
      else if negb (has e PAGE_COW) then CowDone (has e PAGE_WRITABLE)
      else
        let old := pte_addr e in
        let idx := page_to_index (pm st) old in
        CowCopy t i old (if idx =? NO_PAGE then None else Some (refcount_at (pm st) idx))
  end.

(** The second half, outside the lock. *)
Definition cow_fault_copy (st : vm) (t : Z) (i : nat) (old : Z) (refcount : option Z) : vm * bool :=
  let '(s, new) := mm_allocate_physical_page (pm st) in
  let st := set_pm s st in
  if new =? 0 then (st, false)
  else
    let st := put_page new (page_words st old) st in
    let st := put_word t i (resolved_entry (word st t i) new) st in
    (match refcount with
     | Some rc => if 1 <=? rc then drop_page old st else st
     | None => st
     end, true).

Definition mm_handle_cow_fault (st : vm) (cr3 fault_addr : Z) : vm * bool :=
  match cow_fault_check st cr3 fault_addr with
  | CowDone r => (st, r)
  | CowCopy t i old rc => cow_fault_copy st t i old rc
  end.

(** ** Entries *)

(** A page frame: page aligned, with an address of at most 52 bits. *)
Definition frame_ok (f : Z) : Prop := f mod PAGE_SIZE = 0 /\ 0 < f < 2 ^ 52.

Lemma frame_low_bit f n : frame_ok f -> 0 <= n < 12 -> Z.testbit f n = false.
Proof.
  intros [H _] Hn. unfold PAGE_SIZE in H. apply Z.mod_divide in H as [k ->]; [|done]. change 0x1000 with (2 ^ 12).
  apply Z.mul_pow2_bits_low. lia.
Qed.

Lemma land_frame_addr f : frame_ok f -> Z.land f PTE_ADDR_MASK = f.
Proof.
  intros Hf. apply Z.bits_inj'. intros n Hn. rewrite Z.land_spec. destruct (Z.testbit f n) eqn:E; [|done]. cbn [andb].
  change PTE_ADDR_MASK with (Z.shiftl (Z.ones 40) 12). rewrite Z.shiftl_spec by lia. apply Z.ones_spec_low.
  destruct (Z.lt_ge_cases n 12) as [Hlt|Hge]; [by rewrite frame_low_bit in E|]. split; [lia|].
  destruct (Z.lt_ge_cases n 52) as [Hlt|Hge2]; [lia|]. exfalso.
  rewrite <- (Z.mod_small f (2 ^ 52)), Z.mod_pow2_bits_high in E by (destruct Hf; lia). done.
Qed.

Lemma land_frame_low f m : frame_ok f -> 0 <= m < 2 ^ 12 -> Z.land f m = 0.
Proof.
  intros Hf Hm. apply Z.bits_inj'. intros n Hn. rewrite Z.land_spec, Z.bits_0.
  destruct (Z.lt_ge_cases n 12) as [Hlt|Hge]; [by rewrite frame_low_bit|].
  rewrite <- (Z.mod_small m (2 ^ 12)), Z.mod_pow2_bits_high by lia. apply andb_false_r.
Qed.

Lemma land_frame_nx f : frame_ok f -> Z.land f PAGE_NO_EXECUTE = 0.
Proof.
  intros Hf. apply Z.bits_inj'. intros n Hn. rewrite Z.land_spec, Z.bits_0. change PAGE_NO_EXECUTE with (2 ^ 63).
  rewrite Z.pow2_bits_eqb by lia. destruct (Z.eqb_spec 63 n) as [<-|]; [|apply andb_false_r].
  rewrite <- (Z.mod_small f (2 ^ 52)), Z.mod_pow2_bits_high by (destruct Hf; lia). done.
Qed.

Lemma pte_addr_frame f flags : frame_ok f -> Z.land flags PTE_ADDR_MASK = 0 -> pte_addr (Z.lor f flags) = f.
Proof. intros Hf E. unfold pte_addr. by rewrite Z.land_lor_distr_l, E, land_frame_addr, Z.lor_0_r. Qed.

Lemma has_frame f flags m : frame_ok f -> 0 <= m < 2 ^ 12 -> has (Z.lor f flags) m = has flags m.
Proof. intros Hf Hm. unfold has. by rewrite Z.land_lor_distr_l, land_frame_low, Z.lor_0_l. Qed.

Lemma pte_addr_cow e : pte_addr (cow_entry e) = pte_addr e.
Proof.
  unfold pte_addr, cow_entry. rewrite Z.land_lor_distr_l, <- Z.land_assoc. change (Z.land PAGE_COW PTE_ADDR_MASK) with 0.
  by rewrite Z.lor_0_r.
Qed.

Lemma has_cow_entry e :
  has (cow_entry e) PAGE_PRESENT = has e PAGE_PRESENT /\ has (cow_entry e) PAGE_USER = has e PAGE_USER /\
  has (cow_entry e) PAGE_WRITABLE = false /\ has (cow_entry e) PAGE_COW = true.
Proof.
  unfold has, cow_entry. split_and!; rewrite Z.land_lor_distr_l, <- Z.land_assoc.
  - change (Z.land PAGE_COW PAGE_PRESENT) with 0. by rewrite Z.lor_0_r.
  - change (Z.land PAGE_COW PAGE_USER) with 0. by rewrite Z.lor_0_r.
  - change (Z.land (Z.lnot PAGE_WRITABLE) PAGE_WRITABLE) with 0. by rewrite Z.land_0_r.
  - change (Z.land PAGE_COW PAGE_COW) with (2 ^ 9). apply negb_true_iff, Z.eqb_neq. intros E.
    assert (H : Z.testbit (Z.lor (Z.land e (Z.land (Z.lnot PAGE_WRITABLE) PAGE_COW)) (2 ^ 9)) 9 = false) by (rewrite E; apply Z.bits_0).
    rewrite Z.lor_spec, Z.pow2_bits_true, orb_true_r in H by lia. done.
Qed.

Lemma resolved_entry_addr e new : frame_ok new -> pte_addr (resolved_entry e new) = new.
Proof.
  intros Hf. unfold pte_addr, resolved_entry. rewrite !Z.land_lor_distr_l, <- !Z.land_assoc, (land_frame_addr new) by done.
  change (Z.land PAGE_NO_EXECUTE PTE_ADDR_MASK) with 0. change (Z.land PAGE_WRITABLE PTE_ADDR_MASK) with 0.
  change (Z.land 0xFFF (Z.land (Z.lnot PAGE_COW) PTE_ADDR_MASK)) with 0. by rewrite !Z.land_0_r, Z.lor_0_l, !Z.lor_0_r.
Qed.

Lemma has_resolved_entry e new :
  frame_ok new ->
  has (resolved_entry e new) PAGE_PRESENT = has e PAGE_PRESENT /\ has (resolved_entry e new) PAGE_USER = has e PAGE_USER /\
  has (resolved_entry e new) PAGE_WRITABLE = true /\ has (resolved_entry e new) PAGE_COW = false.
Proof.
  intros Hf.
  assert (E : forall m, 0 <= m < 2 ^ 12 -> Z.land PAGE_NO_EXECUTE m = 0 -> Z.land (resolved_entry e new) m =
    Z.lor (Z.land e (Z.land 0xFFF (Z.land (Z.lnot PAGE_COW) m))) (Z.land PAGE_WRITABLE m)).
  { intros m Hm Hn. unfold resolved_entry. rewrite !Z.land_lor_distr_l, <- !Z.land_assoc, (land_frame_low new) by done.
    by rewrite Hn, Z.land_0_r, Z.lor_0_l. }
  unfold has. rewrite !E by done. split_and!.
  - change (Z.land PAGE_WRITABLE PAGE_PRESENT) with 0. by rewrite Z.lor_0_r.
  - change (Z.land PAGE_WRITABLE PAGE_USER) with 0. by rewrite Z.lor_0_r.
  - change (Z.land PAGE_WRITABLE PAGE_WRITABLE) with (2 ^ 1). apply negb_true_iff, Z.eqb_neq. intros E'.
    assert (H : Z.testbit (Z.lor (Z.land e (Z.land 0xFFF (Z.land (Z.lnot PAGE_COW) PAGE_WRITABLE))) (2 ^ 1)) 1 = false)
      by (rewrite E'; apply Z.bits_0).
    rewrite Z.lor_spec, Z.pow2_bits_true, orb_true_r in H by lia. done.
  - change (Z.land 0xFFF (Z.land (Z.lnot PAGE_COW) PAGE_COW)) with 0. change (Z.land PAGE_WRITABLE PAGE_COW) with 0.
    by rewrite Z.land_0_r.
Qed.

Lemma pte_of_frame f flags :
  frame_ok f -> 0 <= flags < 2 ^ 12 \/ (exists fl, flags = Z.lor fl PAGE_NO_EXECUTE /\ 0 <= fl < 2 ^ 12) ->
  pte_addr (pte_of f flags) = f /\ forall m, 0 <= m < 2 ^ 12 -> has (pte_of f flags) m = has flags m.
Proof.
  intros Hf Hfl. unfold pte_of. assert (E : Z.land f (Z.lnot 0xFFF) = f).
  { apply Z.bits_inj'. intros n Hn. rewrite Z.land_spec, Z.lnot_spec by lia. change 0xFFF with (Z.ones 12).
    destruct (Z.lt_ge_cases n 12); [by rewrite frame_low_bit by done|]. rewrite Z.ones_spec_high by lia. apply andb_true_r. }
  rewrite E. split; [|intros m Hm; by apply has_frame]. apply pte_addr_frame; [done|].
  assert (Hlow : forall fl, 0 <= fl < 2 ^ 12 -> Z.land fl PTE_ADDR_MASK = 0).
  { intros fl H. rewrite <- (Z.mod_small fl (2 ^ 12)), <- Z.land_ones, <- Z.land_assoc by lia.
    change (Z.land (Z.ones 12) PTE_ADDR_MASK) with 0. apply Z.land_0_r. }
  destruct Hfl as [H|(fl & -> & H)]; [by apply Hlow|]. rewrite Z.land_lor_distr_l, Hlow by done. done.
Qed.
