(* ===== verification/AddressSpace.v ===== *)
(** * Address spaces of processes: fork and copy-on-write

    The page tables of the file Paging against a simple view: every process has a
    map from pages of its address space to their contents.  Ghost state names the
    tables and the mappings: a path is the list of indices that leads to a table or
    an entry.  The theorems: [fork] copies the view of the parent, a store changes
    the page of one process only, an exit removes the pages of one process, and
    whatever happens no page is freed while it is mapped or leaked when it is not. *)

From Stdlib Require Import ZArith Lia Bool.
From stdpp Require Import base list gmap fin_maps.
From S2P Require Import Prelude Pmm Paging.

Open Scope Z_scope.

(** An address space (its root table) and a path. *)
Notation key := (Z * list nat)%type (only parsing).

(** The tables, the mappings, pages allocated but not linked yet, and the list of
    recycled table pages. *)
Record ghost := mk_ghost { gT : gmap key Z; gM : gmap key Z; gH : gset Z; gL : list Z }.

(** User space is the lower half of the root table. *)
Definition slot_ok (pi : list nat) (i : nat) : Prop := (i < match pi with [] => 256 | _ => 512 end)%nat.

Definition pool_page (st : vm) (i : Z) : Z := pt_pool_phys_start st + i * PAGE_SIZE.

Definition phys_page (st : vm) (f : Z) : Prop :=
  (exists i, 0 <= i < pt_pool_size st /\ f = pool_page st i) \/ (exists d, 0 <= d < total_pages (pm st) /\ f = page_addr (pm st) d).

Definition free_frame (st : vm) (L : list Z) (f : Z) : Prop :=
  f ∈ L \/ (exists i, pt_pool_next st <= i < pt_pool_size st /\ f = pool_page st i) \/
  (exists d, d ∈ pfree (pm st) /\ f = page_addr (pm st) d).

Fixpoint flist (st : vm) (ptr : Z) (L : list Z) : Prop :=
  match L with
  | [] => ptr = 0
  | f :: L' => ptr = f /\ flist st (word st f 0) L'
  end.

(** An entry that leads to table [g]. *)
Definition links (e g : Z) : Prop :=
  has e PAGE_PRESENT = true /\ has e PAGE_SIZE_FLAG = false /\ has e PAGE_USER = true /\ has e PAGE_WRITABLE = true /\ pte_addr e = g.

Record shape (dead : key -> Prop) (st : vm) (g : ghost) : Prop := {
  sh_pmm : pmm_ok (pm st);
  sh_refs : is_Some (page_refcounts (pm st));
  sh_layout : 0 < pt_pool_phys_start st /\ pt_pool_phys_start st mod PAGE_SIZE = 0 /\
    0 <= pt_pool_next st <= pt_pool_size st /\ memory_start (pm st) = pool_page st (pt_pool_size st);
  sh_mem : forall f, phys_page st f -> exists ws, frames st !! f = Some ws /\ length ws = 512%nat;
  sh_list : flist st (pt_pool_freelist st) (gL g) /\ NoDup (gL g) /\
    forall f, f ∈ gL g -> exists i, 0 <= i < pt_pool_next st /\ f = pool_page st i;
  sh_root : forall p f, gT g !! (p, []) = Some f -> f = p;
  sh_path : forall p pi i f, gT g !! (p, pi ++ [i]) = Some f -> (length pi < 3)%nat /\ slot_ok pi i /\ is_Some (gT g !! (p, pi));
  sh_leaf_path : forall p ka e, gM g !! (p, ka) = Some e ->
    exists pi i, ka = pi ++ [i] /\ length pi = 3%nat /\ slot_ok pi i /\ is_Some (gT g !! (p, pi));
  sh_inj : forall k k' f, gT g !! k = Some f -> gT g !! k' = Some f -> k = k';
  sh_table : forall k f, gT g !! k = Some f -> phys_page st f /\ ~ free_frame st (gL g) f /\ f ∉ gH g;
  sh_held : forall f, f ∈ gH g -> phys_page st f /\ ~ free_frame st (gL g) f;
  sh_node : forall p pi t i, gT g !! (p, pi) = Some t -> (length pi < 3)%nat -> slot_ok pi i -> ~ dead (p, pi ++ [i]) ->
    match gT g !! (p, pi ++ [i]) with
    | Some f => links (word st t i) f
    | None => has (word st t i) PAGE_PRESENT = false
    end;
  sh_leaf : forall p pi t i, gT g !! (p, pi) = Some t -> length pi = 3%nat -> slot_ok pi i -> ~ dead (p, pi ++ [i]) ->
    match gM g !! (p, pi ++ [i]) with
    | Some e => word st t i = e
    | None => has (word st t i) PAGE_PRESENT = false
    end;
  sh_data : forall k e, gM g !! k = Some e -> has e PAGE_PRESENT = true /\ has e PAGE_USER = true /\
    (exists d, 0 <= d < total_pages (pm st) /\ d ∉ pfree (pm st) /\ pte_addr e = page_addr (pm st) d) /\
    pte_addr e ∉ gH g /\ forall k', gT g !! k' <> Some (pte_addr e);
}.

Definition live (_ : key) : Prop := False.

(** How often a page is mapped. *)
Definition cnt (M : gmap key Z) (a : Z) : nat := size (filter (fun kv : key * Z => pte_addr kv.2 = a) M).

(** Reference counts: a page has the number of its mappings, or 0 when it has one. *)
Record counted (s : mm_state) (M : gmap key Z) : Prop := {
  co_count : forall d, 0 <= d < total_pages s ->
    let n := Z.of_nat (cnt M (page_addr s d)) in refcount_at s d = n \/ (refcount_at s d = 0 /\ n = 1);
  co_cow : forall k e d, M !! k = Some e -> has e PAGE_COW = true -> pte_addr e = page_addr s d -> 0 <= d < total_pages s -> 1 <= refcount_at s d;
  co_excl : forall k e, M !! k = Some e -> has e PAGE_WRITABLE = true -> cnt M (pte_addr e) = 1%nat;
}.

(** The parts of an invariant that a change keeps. *)
Ltac shape_of Hs :=
  first [done | exact (sh_pmm _ _ _ Hs) | exact (sh_refs _ _ _ Hs) | exact (sh_layout _ _ _ Hs) | exact (sh_mem _ _ _ Hs)
        | exact (sh_list _ _ _ Hs) | exact (sh_root _ _ _ Hs) | exact (sh_path _ _ _ Hs) | exact (sh_leaf_path _ _ _ Hs)
        | exact (sh_node _ _ _ Hs) | exact (sh_leaf _ _ _ Hs)
        | exact (sh_inj _ _ _ Hs) | exact (sh_table _ _ _ Hs) | exact (sh_held _ _ _ Hs) | exact (sh_data _ _ _ Hs)].

(** ** Pages *)

Section Pages.
Context (dead : key -> Prop) (st : vm) (g : ghost) (Hs : shape dead st g).

Lemma pool_page_inj i j : pool_page st i = pool_page st j -> i = j.
Proof. unfold pool_page, PAGE_SIZE. lia. Qed.

Lemma page_addr_inj d d' : page_addr (pm st) d = page_addr (pm st) d' -> d = d'.
Proof. unfold page_addr, PAGE_SIZE. lia. Qed.

Lemma pool_not_managed i d : i < pt_pool_size st -> 0 <= d -> pool_page st i <> page_addr (pm st) d.
Proof. intros Hi Hd. pose proof (sh_layout _ _ _ Hs) as (_ & _ & _ & E). unfold page_addr, pool_page, PAGE_SIZE in *. lia. Qed.

Lemma phys_page_frame f : phys_page st f -> frame_ok f.
Proof.
  pose proof (sh_layout _ _ _ Hs) as (H1 & H2 & H3 & E). pose proof (po_range _ (sh_pmm _ _ _ Hs)) as [H4 H5].
  pose proof (po_total _ (sh_pmm _ _ _ Hs)) as H6.
  unfold frame_ok, phys_page, pool_page, page_addr, PAGE_SIZE in *.
  intros [(i & Hi & ->)|(d & Hd & ->)]; split; try lia.
  - rewrite Z_mod_plus_full. done.
  - rewrite E. rewrite Z_mod_plus_full, Z_mod_plus_full. done.
Qed.

Lemma table_frame k f : gT g !! k = Some f -> frame_ok f.
Proof. intros Hk. apply phys_page_frame. by apply (sh_table _ _ _ Hs k). Qed.

Lemma data_page k e : gM g !! k = Some e -> phys_page st (pte_addr e).
Proof. intros Hk. destruct (sh_data _ _ _ Hs k e Hk) as (_ & _ & (d & Hd & _ & ->) & _). right. by exists d. Qed.

Lemma frame_words f : phys_page st f -> exists ws, frames st !! f = Some ws /\ length ws = 512%nat /\ page_words st f = ws.
Proof. intros Hf. destruct (sh_mem _ _ _ Hs f Hf) as (ws & E & Hl). exists ws. unfold page_words. by rewrite E. Qed.

(** A frame of the free list is no table. *)
Lemma list_not_table k f : gT g !! k = Some f -> f ∉ gL g.
Proof. intros Hk Hin. destruct (sh_table _ _ _ Hs k f Hk) as (_ & Hn & _). apply Hn. by left. Qed.

Lemma path_up p pi i f : gT g !! (p, pi ++ [i]) = Some f -> exists t, gT g !! (p, pi) = Some t.
Proof. intros H. by destruct (sh_path _ _ _ Hs _ _ _ _ H) as (_ & _ & [t Ht]); eauto. Qed.

End Pages.

(** *** Words *)

Lemma word_put_eq st f i v : (exists ws, frames st !! f = Some ws /\ length ws = 512%nat) -> (i < 512)%nat ->
  word (put_word f i v st) f i = v.
Proof.
  intros (ws & E & Hl) Hi. unfold word, put_word. cbn. rewrite lookup_alter_eq, E. cbn.
  destruct (lookup_lt_is_Some_2 ws i) as [x Hx]; [lia|]. by rewrite list_lookup_alter_eq, Hx.
Qed.

Lemma word_put_ne st f i v f' i' : f' <> f \/ i' <> i -> word (put_word f i v st) f' i' = word st f' i'.
Proof.
  intros Hne. unfold word, put_word. cbn. destruct (decide (f' = f)) as [->|Hf].
  - rewrite lookup_alter_eq. destruct (frames st !! f) as [ws|]; [|done]. cbn. by rewrite list_lookup_alter_ne by (destruct Hne; congruence).
  - by rewrite lookup_alter_ne.
Qed.

Lemma words_put_ne st f i v f' : f' <> f -> page_words (put_word f i v st) f' = page_words st f'.
Proof. intros Hne. unfold page_words, put_word. cbn. by rewrite lookup_alter_ne. Qed.

Lemma flist_ext st st' ptr L : (forall f, f ∈ L -> word st' f 0 = word st f 0) -> flist st ptr L -> flist st' ptr L.
Proof.
  revert ptr. induction L as [|f L IH]; intros ptr Hw; cbn [flist]; [done|]. intros [-> H]. split; [done|].
  rewrite Hw by left. apply IH; [|done]. intros f' Hf. apply Hw. by right.
Qed.

(** *** Taking a free page *)

(** The parts of the state that never change. *)
Definition same_layout (st st' : vm) : Prop :=
  pt_pool_phys_start st' = pt_pool_phys_start st /\ pt_pool_size st' = pt_pool_size st /\
  total_pages (pm st') = total_pages (pm st) /\ memory_start (pm st') = memory_start (pm st).

Lemma same_layout_page st st' f : same_layout st st' -> phys_page st' f <-> phys_page st f.
Proof. intros (E1 & E2 & E3 & E4). unfold phys_page, pool_page, page_addr. by rewrite E1, E2, E3, E4. Qed.

Lemma table_word_ne dead st g k t f : shape dead st g -> gT g !! k = Some t -> free_frame st (gL g) f -> t <> f.
Proof. intros Hs Hk Hf ->. by destruct (sh_table _ _ _ Hs k f Hk) as (_ & Hn & _). Qed.

Lemma data_not_free dead st g k e : shape dead st g -> gM g !! k = Some e -> ~ free_frame st (gL g) (pte_addr e).
Proof.
  intros Hs Hk Hf. destruct (sh_data _ _ _ Hs k e Hk) as (_ & _ & (d & Hd & Hn & E) & _). rewrite E in Hf.
  destruct Hf as [Hl|[(i & Hi & Ei)|(d' & Hd' & Ed)]].
  - destruct (proj2 (proj2 (sh_list _ _ _ Hs)) _ Hl) as (i & Hi & Ei). pose proof (sh_layout _ _ _ Hs) as (_ & _ & H3 & _).
    by eapply (pool_not_managed _ _ _ Hs i d); [lia|lia|].
  - by eapply (pool_not_managed _ _ _ Hs i d); [lia|lia|].
  - apply page_addr_inj in Ed. congruence.
Qed.

Lemma shape_take dead st st' g f ws L' :
  shape dead st g -> same_layout st st' -> pmm_ok (pm st') -> is_Some (page_refcounts (pm st')) ->
  0 <= pt_pool_next st' <= pt_pool_size st' -> free_frame st (gL g) f -> phys_page st f ->
  frames st' = <[f := ws]> (frames st) -> length ws = 512%nat ->
  flist st (pt_pool_freelist st') L' -> NoDup L' ->
  (forall x, x ∈ L' -> x <> f /\ exists i, 0 <= i < pt_pool_next st' /\ x = pool_page st i) ->
  (forall x, free_frame st' L' x -> free_frame st (gL g) x /\ x <> f) ->
  pfree (pm st') ⊆ pfree (pm st) ->
  shape dead st' (mk_ghost (gT g) (gM g) ({[f]} ∪ gH g) L').
Proof.
  intros Hs Hl Hok Href Hnx Hf Hp Efr Hlen HL1 HL2 HL3 Hfree Hsub.
  assert (Hw : forall x i, x <> f -> word st' x i = word st x i) by (intros x i Hx; unfold word; by rewrite Efr, lookup_insert_ne).
  assert (Hpg : forall x, phys_page st' x <-> phys_page st x) by (intros x; by apply same_layout_page).
  assert (HfH : f ∉ gH g) by (intros Hin; by destruct (sh_held _ _ _ Hs f Hin)).
  pose proof Hl as (E1 & E2 & E3 & E4). pose proof (sh_layout _ _ _ Hs) as (G1 & G2 & G3 & G4).
  split; cbn [gT gM gH gL]; try shape_of Hs.
  - unfold pool_page in *. rewrite E1, E2, E4. split_and!; try done; lia.
  - intros x Hx. rewrite Hpg in Hx. rewrite Efr. destruct (decide (x = f)) as [->|Hne]; [rewrite lookup_insert_eq; eauto|].
    rewrite lookup_insert_ne by done. by apply (sh_mem _ _ _ Hs).
  - split_and!; [|done|].
    + eapply flist_ext; [|done]. intros x Hx. apply Hw. by apply HL3.
    + intros x Hx. destruct (HL3 x Hx) as (_ & i & Hi & ->). exists i. split; [done|]. unfold pool_page. by rewrite E1.
  - intros k x Hk. destruct (sh_table _ _ _ Hs k x Hk) as (H1 & H2 & H3). rewrite Hpg. split_and!; [done| |].
    + intros Hx. by apply H2, Hfree.
    + pose proof (table_word_ne _ _ _ k x f Hs Hk Hf). set_solver.
  - intros x [->%elem_of_singleton|Hx]%elem_of_union.
    + rewrite Hpg. split; [done|]. intros Hx. by destruct (Hfree f Hx).
    + destruct (sh_held _ _ _ Hs x Hx) as [H1 H2]. rewrite Hpg. split; [done|]. intros Hx'. by apply H2, Hfree.
  - intros p pi t i Ht Hlt Hi Hd. rewrite Hw by exact (table_word_ne _ _ _ _ t f Hs Ht Hf). by apply (sh_node _ _ _ Hs p pi).
  - intros p pi t i Ht Hlt Hi Hd. rewrite Hw by exact (table_word_ne _ _ _ _ t f Hs Ht Hf). by apply (sh_leaf _ _ _ Hs p pi).
  - intros k e Hk. destruct (sh_data _ _ _ Hs k e Hk) as (H1 & H2 & (d & Hd & Hn & E) & H4 & H5). split_and!; try done.
    + exists d. rewrite E3. split_and!; [lia|lia|set_solver|]. unfold page_addr in *. by rewrite E4.
    + pose proof (data_not_free _ _ _ k e Hs Hk) as Hne. set_solver.
Qed.

(** No page is lost: it is free, a table, mapped, or held. *)
Definition accounted (st : vm) (g : ghost) : Prop :=
  forall f, phys_page st f ->
    free_frame st (gL g) f \/ (exists k, gT g !! k = Some f) \/ (exists k e, gM g !! k = Some e /\ pte_addr e = f) \/ f ∈ gH g.

Lemma accounted_take st st' g f L' :
  same_layout st st' -> (forall x, free_frame st (gL g) x -> x = f \/ free_frame st' L' x) ->
  accounted st g -> accounted st' (mk_ghost (gT g) (gM g) ({[f]} ∪ gH g) L').
Proof.
  intros Hl Hfree Ha x Hx. rewrite (same_layout_page st st') in Hx by done. cbn [gT gM gH gL].
  destruct (Ha x Hx) as [Hf|[Ht|[Hm|Hh]]]; [|by auto|by auto|set_solver].
  destruct (Hfree x Hf) as [->|]; [set_solver|by left].
Qed.

Definition vinv (dead : key -> Prop) (st : vm) (g : ghost) : Prop :=
  shape dead st g /\ counted (pm st) (gM g) /\ accounted st g.

(** [g] with page [f] held. *)
Definition hold (f : Z) (g : ghost) : ghost := mk_ghost (gT g) (gM g) ({[f]} ∪ gH g) (gL g).

Lemma counted_ext s s' M :
  total_pages s' = total_pages s -> memory_start s' = memory_start s ->
  (forall d, 0 <= d < total_pages s -> refcount_at s' d = refcount_at s d) -> counted s M -> counted s' M.
Proof.
  intros E1 E2 Hr [H1 H2 H3]. assert (Ea : forall d, page_addr s' d = page_addr s d) by (intros d; unfold page_addr; by rewrite E2).
  split; [| |done].
  - intros d Hd. rewrite Ea, Hr by lia. apply H1. lia.
  - intros k e d Hk Hc Ed Hd. rewrite Hr by lia. rewrite Ea in Ed. eapply H2; eauto. lia.
Qed.

Lemma cnt_zero M a : (forall k e, M !! k = Some e -> pte_addr e <> a) -> cnt M a = 0%nat.
Proof.
  intros H. unfold cnt. apply map_size_empty_iff, map_empty. intros k. destruct (filter _ M !! k) as [e|] eqn:E; [|done].
  apply map_lookup_filter_Some in E as [E1 E2]. exfalso. by eapply H.
Qed.

(** The general allocator gives page [d] out; it is filled with [ws]. *)
Lemma take_managed dead st g s' d ws :
  vinv dead st g -> d ∈ pfree (pm st) -> pmm_ok s' -> pfree s' = pfree (pm st) ∖ {[d]} -> same_layout st (set_pm s' st) ->
  is_Some (page_refcounts s') -> (forall x, 0 <= x < total_pages (pm st) -> refcount_at s' x = if decide (x = d) then 0 else refcount_at (pm st) x) ->
  length ws = 512%nat -> vinv dead (put_page (page_addr (pm st) d) ws (set_pm s' st)) (hold (page_addr (pm st) d) g).
Proof.
  intros (Hs & Hc & Ha) Hd Hok Hfr El Hrs Hrc Hlen. assert (Hd' := Hd). apply elem_of_pfree in Hd' as [Hdr _].
  assert (Hf : free_frame st (gL g) (page_addr (pm st) d)) by (right; right; by exists d).
  destruct (sh_list _ _ _ Hs) as (HL1 & HL2 & HL3). destruct (sh_layout _ _ _ Hs) as (G1 & G2 & G3 & G4). pose proof El as (E1 & E2 & E3 & E4). cbn [pm set_pm] in E3, E4.
  assert (Epa : forall x, page_addr s' x = page_addr (pm st) x) by (intros x; unfold page_addr; by rewrite E4).
  split_and!.
  - apply (shape_take dead st (put_page (page_addr (pm st) d) ws (set_pm s' st)) g _ ws (gL g)); try done.
    + right. by exists d.
    + intros x Hx. destruct (HL3 x Hx) as (i & Hi & ->). split; [|by exists i]. apply (pool_not_managed _ _ _ Hs); lia.
    + intros x [Hx|[(i & Hi & ->)|(d' & Hd2 & ->)]]; cbn [pt_pool_next pt_pool_size put_page set_frames set_pm pm] in *.
      * destruct (HL3 x Hx) as (i & Hi & ->). split; [by left|]. apply (pool_not_managed _ _ _ Hs); lia.
      * split; [right; left; by exists i|]. apply (pool_not_managed _ _ _ Hs); lia.
      * rewrite Epa. rewrite Hfr in Hd2. split; [right; right; exists d'; split; [set_solver|done]|].
        intros Ed%page_addr_inj. set_solver.
    + cbn. rewrite Hfr. set_solver.
  - cbn [pm put_page set_frames set_pm gM hold]. apply (counted_ext (pm st)); [done|done| |done].
    intros x Hx. rewrite Hrc by done. destruct (decide (x = d)) as [->|]; [|done]. destruct (co_count _ _ Hc d Hdr) as [E0|[E0 _]]; rewrite E0; [|done].
    rewrite cnt_zero; [done|]. intros k e Hk Ee. apply (data_not_free _ _ _ k e Hs Hk). by rewrite Ee.
  - apply (accounted_take st); [done| |done]. intros x [Hx|[Hx|(d' & Hd2 & ->)]]; [by right; left|by right; right; left|].
    destruct (decide (d' = d)) as [->|Hne']; [by left|]. right. right. right. exists d'. cbn [pm put_page set_frames set_pm].
    rewrite Hfr, Epa. split; [set_solver|done].
Qed.

(** Freshly allocated physical page [a], filled with [ws]. *)
Lemma take_phys dead st g s' a ws :
  vinv dead st g -> mm_allocate_physical_page (pm st) = (s', a) -> length ws = 512%nat ->
  (a = 0 /\ s' = pm st /\ pfree (pm st) = ∅) \/
  (a <> 0 /\ phys_page st a /\ free_frame st (gL g) a /\ (exists d, 0 <= d < total_pages (pm st) /\ a = page_addr (pm st) d) /\
   same_layout st (set_pm s' st) /\ vinv dead (put_page a ws (set_pm s' st)) (hold a g)).
Proof.
  intros Hv E Hlen. pose proof Hv as (Hs & _). pose proof (mm_allocate_spec (pm st) (sh_pmm _ _ _ Hs)) as H. rewrite E in H.
  destruct H as [(-> & -> & He)|(d & Hd & -> & Hne & Hok & Hfr & Es)]; [by left|right].
  assert (El : same_layout st (set_pm s' st)) by (rewrite Es; by unfold same_layout).
  assert (Hd' := Hd). apply elem_of_pfree in Hd' as [Hdr _].
  split_and!; [done|right; by exists d|right; right; by exists d|by exists d|done|].
  destruct (sh_refs _ _ _ Hs) as [rl Hrl]. apply take_managed; try done.
  - rewrite Es. cbn. rewrite Hrl. by eexists.
  - intros x Hx. rewrite Es. by rewrite (refcount_put _ d x 0 rl); [|done|pose proof (po_refs _ (sh_pmm _ _ _ Hs) rl Hrl); lia|lia].
Qed.

Lemma set_pm_same st : set_pm (pm st) st = st.
Proof. by destruct st. Qed.

Lemma alloc_pt_inv dead st g st' f :
  vinv dead st g -> allocate_pt_page st = (st', f) ->
  (f = 0 /\ st' = st) \/
  (f <> 0 /\ phys_page st f /\ free_frame st (gL g) f /\ same_layout st st' /\ frames st' = <[f := zero_page]> (frames st) /\
   exists L, vinv dead st' (mk_ghost (gT g) (gM g) ({[f]} ∪ gH g) L)).
Proof.
  intros Hv E. pose proof Hv as (Hs & Hc & Ha). destruct (sh_list _ _ _ Hs) as (HL1 & HL2 & HL3).
  pose proof (sh_layout _ _ _ Hs) as (G1 & G2 & G3 & G4). unfold allocate_pt_page in E. cbn zeta in E.
  destruct (Z.eqb_spec (pt_pool_freelist st) 0) as [E0|Hne]; cbn [negb] in E; [destruct (Z.ltb_spec (pt_pool_next st) (pt_pool_size st)) as [Hlt|Hge]|].
  - (* an unused page of the pool *)
    pose proof (po_range _ (sh_pmm _ _ _ Hs)) as Hr. pose proof (po_total _ (sh_pmm _ _ _ Hs)).
    assert (Hbound : pool_page st (pt_pool_size st) < 2 ^ 52) by (rewrite <- G4; unfold PAGE_SIZE in *; lia).
    rewrite !u64_small in E by (unfold pool_page, PAGE_SIZE in *; lia). fold (pool_page st (pt_pool_next st)) in E.
    injection E as <- <-. right. assert (Hf : free_frame st (gL g) (pool_page st (pt_pool_next st))) by (right; left; exists (pt_pool_next st); split; [lia|done]).
    split_and!; [unfold pool_page, PAGE_SIZE; lia|left; exists (pt_pool_next st); split; [lia|done]|done|done|done|].
    exists (gL g). split_and!; [|done|apply (accounted_take st); [done| |done]; intros x [Hx|[(i & Hi & ->)|Hx]]; [by right; left| |by right; right; right];
      destruct (decide (i = pt_pool_next st)) as [->|]; [by left|right; right; left; exists i; split; [cbn; lia|done]]].
    apply (shape_take dead st _ g _ zero_page (gL g)); try done; try exact (sh_pmm _ _ _ Hs); try exact (sh_refs _ _ _ Hs);
      cbn [pt_pool_next pt_pool_size set_pool put_page set_frames pm]; try lia.
    + left. exists (pt_pool_next st). split; [lia|done].
    + intros x Hx. destruct (HL3 x Hx) as (i & Hi & ->). split; [intros Ei%pool_page_inj; lia|]. exists i. split; [lia|done].
    + intros x [Hx|[(i & Hi & ->)|(d' & Hd2 & ->)]]; cbn [pt_pool_next pt_pool_size set_pool put_page set_frames pm] in *.
      * destruct (HL3 x Hx) as (i & Hi & ->). split; [by left|]. intros Ei%pool_page_inj. lia.
      * change (pool_page _ i) with (pool_page st i). split; [right; left; exists i; split; [lia|done]|]. intros Ei%pool_page_inj. lia.
      * split; [right; right; by exists d'|]. intros Ei. apply elem_of_pfree in Hd2. exact (pool_not_managed _ _ _ Hs (pt_pool_next st) d' ltac:(lia) ltac:(lia) (eq_sym Ei)).
  - (* the general allocator *)
    destruct (mm_allocate_physical_page (pm st)) as [s' a] eqn:Ea.
    destruct (take_phys dead st g s' a zero_page Hv Ea eq_refl) as [(-> & -> & _)|(Hne & Hp & Hf & _ & Hl & Hv')].
    + injection E as <- <-. left. by rewrite set_pm_same.
    + rewrite (proj2 (Z.eqb_neq _ _) Hne) in E. injection E as <- <-. right. split_and!; try done. by exists (gL g).
  - (* a recycled page *)
    destruct (gL g) as [|f0 L] eqn:EL; [by cbn in HL1|]. cbn in HL1. destruct HL1 as [Ef HL1]. apply NoDup_cons in HL2 as [HfL HL2].
    rewrite Ef in *. injection E as <- <-. destruct (HL3 f0 ltac:(left)) as (i0 & Hi0 & Ei0). right.
    assert (Hf : free_frame st (gL g) f0) by (left; rewrite EL; left).
    assert (Hp : phys_page st f0) by (left; exists i0; split; [lia|done]).
    split_and!; [done|done|by rewrite <- EL|done|done|].
    exists L. split_and!; [|done|apply (accounted_take st); [done| |by rewrite <- EL in *]; rewrite EL; intros x [[->|Hx]%elem_of_cons|[Hx|Hx]]; [by left|by right; left|by right; right; left|by right; right; right]].
    apply (shape_take dead st _ g _ zero_page L); try done; try exact (sh_pmm _ _ _ Hs); try exact (sh_refs _ _ _ Hs).
    + intros x Hx. split; [congruence|]. apply HL3. by right.
    + intros x [Hx|[(i & Hi & ->)|(d' & Hd2 & ->)]]; cbn [pt_pool_next pt_pool_size set_pool put_page set_frames pm] in *.
      * split; [left; rewrite EL; by right|congruence].
      * change (pool_page _ i) with (pool_page st i). split; [right; left; by exists i|]. rewrite Ei0. intros Ei%pool_page_inj. lia.
      * split; [right; right; by exists d'|]. rewrite Ei0. intros Ei. apply elem_of_pfree in Hd2.
        exact (pool_not_managed _ _ _ Hs i0 d' ltac:(lia) ltac:(lia) (eq_sym Ei)).
Qed.

(** *** Changing entries *)

Lemma app_one_inj {A} (l l' : list A) x y : l ++ [x] = l' ++ [y] -> l = l' /\ x = y.
Proof. intros H. by apply app_inj_tail in H. Qed.

Lemma put_word_layout f i v st : same_layout st (put_word f i v st).
Proof. done. Qed.

Lemma put_word_mem st f i v x :
  (exists ws, frames st !! x = Some ws /\ length ws = 512%nat) ->
  exists ws, frames (put_word f i v st) !! x = Some ws /\ length ws = 512%nat.
Proof.
  intros (ws & E & Hl). cbn. destruct (decide (x = f)) as [->|Hne].
  - rewrite lookup_alter_eq, E. eexists. split; [done|]. by rewrite length_alter.
  - rewrite lookup_alter_ne by done. eauto.
Qed.

(** A store into a page that is not free keeps what does not read that page. *)
Lemma shape_put dead st g t i v T M H dead' :
  shape dead st g -> ~ free_frame st (gL g) t ->
  let g' := mk_ghost T M H (gL g) in
  (forall p f, T !! (p, []) = Some f -> f = p) ->
  (forall p pi j f, T !! (p, pi ++ [j]) = Some f -> (length pi < 3)%nat /\ slot_ok pi j /\ is_Some (T !! (p, pi))) ->
  (forall p ka e, M !! (p, ka) = Some e -> exists pi j, ka = pi ++ [j] /\ length pi = 3%nat /\ slot_ok pi j /\ is_Some (T !! (p, pi))) ->
  (forall k k' f, T !! k = Some f -> T !! k' = Some f -> k = k') ->
  (forall k f, T !! k = Some f -> phys_page st f /\ ~ free_frame st (gL g) f /\ f ∉ H) ->
  (forall f, f ∈ H -> f ∈ gH g) ->
  (forall p pi t' j, T !! (p, pi) = Some t' -> (length pi < 3)%nat -> slot_ok pi j -> ~ dead' (p, pi ++ [j]) ->
     match T !! (p, pi ++ [j]) with
     | Some f => links (word (put_word t i v st) t' j) f
     | None => has (word (put_word t i v st) t' j) PAGE_PRESENT = false
     end) ->
  (forall p pi t' j, T !! (p, pi) = Some t' -> length pi = 3%nat -> slot_ok pi j -> ~ dead' (p, pi ++ [j]) ->
     match M !! (p, pi ++ [j]) with
     | Some e => word (put_word t i v st) t' j = e
     | None => has (word (put_word t i v st) t' j) PAGE_PRESENT = false
     end) ->
  (forall k e, M !! k = Some e -> has e PAGE_PRESENT = true /\ has e PAGE_USER = true /\
    (exists d, 0 <= d < total_pages (pm st) /\ d ∉ pfree (pm st) /\ pte_addr e = page_addr (pm st) d) /\
    pte_addr e ∉ H /\ forall k', T !! k' <> Some (pte_addr e)) ->
  shape dead' (put_word t i v st) g'.
Proof.
  intros Hs Ht g' H1 H2 H3 H4 H5 H6 H7 H8 H9. split; cbn [gT gM gH gL g' put_word set_frames pm]; try done; try apply Hs.
  - intros f Hf. apply put_word_mem. by apply (sh_mem _ _ _ Hs).
  - destruct (sh_list _ _ _ Hs) as (HL1 & HL2 & HL3). split_and!; [|done|done].
    eapply flist_ext; [|exact HL1]. intros f Hf. apply word_put_ne. left. intros ->. apply Ht. by left.
  - intros f Hf. destruct (sh_held _ _ _ Hs f (H6 f Hf)) as [? ?]. done.
Qed.

Section Change.
Context (dead : key -> Prop) (st : vm) (g : ghost) (Hs : shape dead st g).

Lemma other_word k k' t t' i j v : gT g !! k = Some t -> gT g !! k' = Some t' -> k' <> k \/ j <> i ->
  word (put_word t i v st) t' j = word st t' j.
Proof.
  intros Hk Hk' Hne. apply word_put_ne. destruct (decide (t' = t)) as [->|]; [|by left].
  right. destruct Hne as [Hne|]; [|done]. by rewrite (sh_inj _ _ _ Hs k k' t) in Hne.
Qed.

Lemma held_word f k t j i v : f ∈ gH g -> gT g !! k = Some t -> word (put_word t i v st) f j = word st f j.
Proof. intros Hf Hk. apply word_put_ne. left. intros ->. by destruct (sh_table _ _ _ Hs k t Hk) as (_ & _ & ?). Qed.

Lemma table_has_words k t : gT g !! k = Some t -> exists ws, frames st !! t = Some ws /\ length ws = 512%nat.
Proof. intros Hk. apply (sh_mem _ _ _ Hs). by apply (sh_table _ _ _ Hs k). Qed.

Lemma slot_lt pi i : slot_ok pi i -> (i < 512)%nat.
Proof. unfold slot_ok. destruct pi; lia. Qed.

(** Linking a held page without entries as a table. *)
Lemma link_table p pi t i f e :
  gT g !! (p, pi) = Some t -> (length pi < 3)%nat -> slot_ok pi i -> gT g !! (p, pi ++ [i]) = None ->
  f ∈ gH g -> (forall j, has (word st f j) PAGE_PRESENT = false) -> links e f ->
  shape dead (put_word t i e st) (mk_ghost (<[(p, pi ++ [i]) := f]> (gT g)) (gM g) (gH g ∖ {[f]}) (gL g)).
Proof.
  intros Ht Hlen Hi Hnone Hf Hempty He. destruct (sh_table _ _ _ Hs _ _ Ht) as (Htp & Htf & HtH).
  destruct (sh_held _ _ _ Hs f Hf) as [Hfp Hff].
  assert (HnT : forall k, gT g !! k <> Some f) by (intros k Hk; by destruct (sh_table _ _ _ Hs k f Hk) as (_ & _ & ?)).
  assert (Hsub : forall j, gT g !! (p, (pi ++ [i]) ++ [j]) = None /\ gM g !! (p, (pi ++ [i]) ++ [j]) = None).
  { intros j. split.
    - destruct (gT g !! (p, (pi ++ [i]) ++ [j])) as [x|] eqn:E; [|done]. apply (sh_path _ _ _ Hs) in E as (_ & _ & [y Hy]). congruence.
    - destruct (gM g !! (p, (pi ++ [i]) ++ [j])) as [x|] eqn:E; [|done].
      apply (sh_leaf_path _ _ _ Hs) in E as (pi' & i' & E' & _ & _ & [y Hy]). apply app_one_inj in E' as [<- _]. congruence. }
  apply (shape_put dead st g t i e); [done|done|..].
  - intros q x Hx. rewrite lookup_insert_ne in Hx by (intros [= -> E]; by destruct pi). by apply (sh_root _ _ _ Hs).
  - intros q pi' j x Hx. destruct (decide ((q, pi' ++ [j]) = (p, pi ++ [i]))) as [[= -> E]|Hne].
    + apply app_one_inj in E as [-> ->]. split_and!; [done|done|]. rewrite lookup_insert_ne by (intros [= E]; by apply (f_equal length) in E; rewrite length_app in E; cbn in E; lia). by eexists.
    + rewrite lookup_insert_ne in Hx by done. apply (sh_path _ _ _ Hs) in Hx as (H1 & H2 & [y Hy]). split_and!; [done|done|].
      rewrite lookup_insert_ne by (intros [= <- <-]; congruence). by eexists.
  - intros q ka x Hx. apply (sh_leaf_path _ _ _ Hs) in Hx as (pi' & j & -> & H1 & H2 & [y Hy]). exists pi', j. split_and!; try done.
    rewrite lookup_insert_ne by (intros [= <- <-]; congruence). by eexists.
  - intros k k' x Hk Hk'. apply lookup_insert_Some in Hk as [[<- <-]|[Hk1 Hk]]; apply lookup_insert_Some in Hk' as [[<- Ex]|[Hk1' Hk']]; try done.
    + by destruct (HnT k').
    + subst x. by destruct (HnT k).
    + by apply (sh_inj _ _ _ Hs k k' x).
  - intros k x Hk. apply lookup_insert_Some in Hk as [[<- <-]|[_ Hk]]; [split_and!; [done|done|set_solver]|].
    destruct (sh_table _ _ _ Hs k x Hk) as (H1 & H2 & H3). split_and!; [done|done|set_solver].
  - set_solver.
  - intros q pi' t' j Hk Hl Hj Hd. apply lookup_insert_Some in Hk as [[[= <- <-] <-]|[Hk1 Hk]].
    + rewrite (held_word f (p, pi) t j i e) by done. rewrite lookup_insert_ne; [|intros [= E]; by apply (f_equal length) in E; rewrite !length_app in E; cbn in E; lia].
      rewrite (proj1 (Hsub j)). apply Hempty.
    + destruct (decide ((q, pi' ++ [j]) = (p, pi ++ [i]))) as [[= -> E]|Hne].
      * apply app_one_inj in E as [-> ->]. rewrite lookup_insert_eq. assert (t' = t) as -> by congruence.
        rewrite word_put_eq; [done|by apply (table_has_words (p, pi))|by eapply slot_lt].
      * rewrite lookup_insert_ne by done. rewrite (other_word (p, pi) (q, pi') t t' i j e Ht Hk) by (destruct (decide (j = i)) as [->|]; [left; congruence|by right]).
        by apply (sh_node _ _ _ Hs q pi').
  - intros q pi' t' j Hk Hl Hj Hd. apply lookup_insert_Some in Hk as [[[= <- <-] <-]|[Hk1 Hk]].
    + rewrite (held_word f (p, pi) t j i e) by done. rewrite (proj2 (Hsub j)). apply Hempty.
    + rewrite (other_word (p, pi) (q, pi') t t' i j e Ht Hk) by (left; intros [= -> ->]; lia). by apply (sh_leaf _ _ _ Hs q pi').
  - intros k x Hk. destruct (sh_data _ _ _ Hs k x Hk) as (H1 & H2 & H3 & H4 & H5). split_and!; try done; [set_solver|].
    intros k'. rewrite lookup_insert_Some. intros [[_ E]|[_ E]]; [|by apply (H5 k')]. apply H4. by rewrite <- E.
Qed.
(** An entry of a lowest table gets a page. *)
Lemma put_leaf (dead' : key -> Prop) p pi t i e :
  (forall k, dead k -> dead' k \/ k = (p, pi ++ [i])) -> gT g !! (p, pi) = Some t -> length pi = 3%nat -> slot_ok pi i ->
  has e PAGE_PRESENT = true -> has e PAGE_USER = true ->
  (exists d, 0 <= d < total_pages (pm st) /\ d ∉ pfree (pm st) /\ pte_addr e = page_addr (pm st) d) ->
  (forall k', gT g !! k' <> Some (pte_addr e)) ->
  shape dead' (put_word t i e st) (mk_ghost (gT g) (<[(p, pi ++ [i]) := e]> (gM g)) (gH g ∖ {[pte_addr e]}) (gL g)).
Proof.
  intros Hdead Ht Hlen Hi He1 He2 He3 He4. destruct (sh_table _ _ _ Hs _ _ Ht) as (Htp & Htf & HtH).
  apply (shape_put dead st g t i e); try shape_of Hs.
  - intros q ka x Hx. apply lookup_insert_Some in Hx as [[[= <- <-] _]|[_ Hx]]; [exists pi, i; split_and!; try done; by eexists|by apply (sh_leaf_path _ _ _ Hs) in Hx].
  - intros k f Hk. destruct (sh_table _ _ _ Hs k f Hk) as (H1 & H2 & H3). split_and!; [done|done|set_solver].
  - set_solver.
  - intros q pi' t' j Hk Hl Hj Hd. rewrite (other_word (p, pi) (q, pi') t t' i j e Ht Hk) by (left; intros [= -> ->]; lia). apply (sh_node _ _ _ Hs q pi'); try done.
    intros [?|[= _ E]]%Hdead; [done|]. apply app_one_inj in E as [-> _]. lia.
  - intros q pi' t' j Hk Hl Hj Hd. destruct (decide ((q, pi' ++ [j]) = (p, pi ++ [i]))) as [[= -> E]|Hne].
    + apply app_one_inj in E as [-> ->]. rewrite lookup_insert_eq. assert (t' = t) as -> by congruence.
      rewrite word_put_eq; [done|by apply (table_has_words (p, pi))|by eapply slot_lt].
    + rewrite lookup_insert_ne by done. rewrite (other_word (p, pi) (q, pi') t t' i j e Ht Hk) by (destruct (decide (j = i)) as [->|]; [left; congruence|by right]).
      apply (sh_leaf _ _ _ Hs q pi'); try done. by intros [|]%Hdead.
  - intros k x Hk. apply lookup_insert_Some in Hk as [[_ <-]|[_ Hk]]; [split_and!; try done; set_solver|].
    destruct (sh_data _ _ _ Hs k x Hk) as (H1 & H2 & H3 & H4 & H5). split_and!; try done. set_solver.
Qed.

(** An entry of a lowest table is cleared. *)
Lemma clear_leaf (dead' : key -> Prop) p pi t i v :
  (forall k, dead k -> dead' k \/ k = (p, pi ++ [i])) -> gT g !! (p, pi) = Some t -> length pi = 3%nat -> slot_ok pi i -> has v PAGE_PRESENT = false ->
  shape dead' (put_word t i v st) (mk_ghost (gT g) (delete (p, pi ++ [i]) (gM g)) (gH g) (gL g)).
Proof.
  intros Hdead Ht Hlen Hi Hv. destruct (sh_table _ _ _ Hs _ _ Ht) as (Htp & Htf & HtH).
  apply (shape_put dead st g t i v); try shape_of Hs.
  - intros q ka x Hx. apply lookup_delete_Some in Hx as [_ Hx]. by apply (sh_leaf_path _ _ _ Hs) in Hx.
  - intros q pi' t' j Hk Hl Hj Hd. rewrite (other_word (p, pi) (q, pi') t t' i j v Ht Hk) by (left; intros [= -> ->]; lia). apply (sh_node _ _ _ Hs q pi'); try done.
    intros [?|[= _ E]]%Hdead; [done|]. apply app_one_inj in E as [-> _]. lia.
  - intros q pi' t' j Hk Hl Hj Hd. destruct (decide ((q, pi' ++ [j]) = (p, pi ++ [i]))) as [[= -> E]|Hne].
    + apply app_one_inj in E as [-> ->]. rewrite lookup_delete_eq. assert (t' = t) as -> by congruence.
      rewrite word_put_eq; [done|by apply (table_has_words (p, pi))|by eapply slot_lt].
    + rewrite lookup_delete_ne by done. rewrite (other_word (p, pi) (q, pi') t t' i j v Ht Hk) by (destruct (decide (j = i)) as [->|]; [left; congruence|by right]).
      apply (sh_leaf _ _ _ Hs q pi'); try done. by intros [|]%Hdead.
  - intros k x Hk. apply lookup_delete_Some in Hk as [_ Hk]. by apply (sh_data _ _ _ Hs k).
Qed.

(** Stores into a held page. *)
Lemma put_held f i v : f ∈ gH g -> shape dead (put_word f i v st) g.
Proof.
  intros Hf. destruct (sh_held _ _ _ Hs f Hf) as [Hp Hn]. destruct g as [T M H L] eqn:Eg.
  assert (Hw : forall k t j, T !! k = Some t -> word (put_word f i v st) t j = word st t j).
  { intros k t j Hk. apply word_put_ne. left. intros ->. by destruct (sh_table _ _ _ Hs k f Hk) as (_ & _ & ?). }
  apply (shape_put dead st (mk_ghost T M H L) f i v); try shape_of Hs.
  - intros q pi' t' j Hk Hl Hj Hd. rewrite (Hw (q, pi')) by done. by apply (sh_node _ _ _ Hs q pi').
  - intros q pi' t' j Hk Hl Hj Hd. rewrite (Hw (q, pi')) by done. by apply (sh_leaf _ _ _ Hs q pi').
Qed.

(** A held page becomes the root of a new address space. *)
Lemma new_root f :
  f ∈ gH g -> (forall j, (j < 256)%nat -> has (word st f j) PAGE_PRESENT = false) ->
  shape dead st (mk_ghost (<[(f, []) := f]> (gT g)) (gM g) (gH g ∖ {[f]}) (gL g)) /\
  (forall pi, gT g !! (f, pi) = None) /\ forall ka, gM g !! (f, ka) = None.
Proof.
  intros Hf Hempty. destruct (sh_held _ _ _ Hs f Hf) as [Hfp Hff].
  assert (HnT : forall k, gT g !! k <> Some f) by (intros k Hk; by destruct (sh_table _ _ _ Hs k f Hk) as (_ & _ & ?)).
  assert (Hno : forall pi, gT g !! (f, pi) = None).
  { intros pi. induction pi as [|i pi IH] using rev_ind.
    - destruct (gT g !! (f, [])) as [x|] eqn:E; [|done]. pose proof (sh_root _ _ _ Hs _ _ E) as ->. by destruct (HnT (f, [])).
    - destruct (gT g !! (f, pi ++ [i])) as [x|] eqn:E; [|done]. apply (sh_path _ _ _ Hs) in E as (_ & _ & [y Hy]). congruence. }
  assert (HnoM : forall ka, gM g !! (f, ka) = None).
  { intros ka. destruct (gM g !! (f, ka)) as [x|] eqn:E; [|done]. apply (sh_leaf_path _ _ _ Hs) in E as (pi & i & -> & _ & _ & [y Hy]).
    by rewrite Hno in Hy. }
  split; [|done]. split; cbn [gT gM gH gL]; try shape_of Hs.
  - intros q x Hx. apply lookup_insert_Some in Hx as [[[= <-] <-]|[_ Hx]]; [done|]. by apply (sh_root _ _ _ Hs).
  - intros q pi i x Hx. rewrite lookup_insert_ne in Hx by (intros [= _ E]; by destruct pi).
    apply (sh_path _ _ _ Hs) in Hx as (H1 & H2 & [y Hy]). split_and!; [done|done|].
    rewrite lookup_insert_ne by (intros [= -> <-]; by rewrite Hno in Hy). by eexists.
  - intros q ka x Hx. apply (sh_leaf_path _ _ _ Hs) in Hx as (pi & j & -> & H1 & H2 & [y Hy]). exists pi, j. split_and!; try done.
    rewrite lookup_insert_ne by (intros [= -> <-]; by rewrite Hno in Hy). by eexists.
  - intros k k' x Hk Hk'. apply lookup_insert_Some in Hk as [[<- <-]|[Hk1 Hk]]; apply lookup_insert_Some in Hk' as [[<- Ex]|[Hk1' Hk']]; try done.
    + by destruct (HnT k').
    + subst x. by destruct (HnT k).
    + by apply (sh_inj _ _ _ Hs k k' x).
  - intros k x Hk. apply lookup_insert_Some in Hk as [[<- <-]|[_ Hk]]; [split_and!; [done|done|set_solver]|].
    destruct (sh_table _ _ _ Hs k x Hk) as (H1 & H2 & H3). split_and!; [done|done|set_solver].
  - intros x Hx. apply (sh_held _ _ _ Hs). set_solver.
  - intros q pi t i Hk Hl Hi Hd. apply lookup_insert_Some in Hk as [[[= <- <-] <-]|[Hk1 Hk]].
    + rewrite lookup_insert_ne by done. rewrite Hno. by apply Hempty.
    + rewrite lookup_insert_ne by (intros [= _ E]; by destruct pi). by apply (sh_node _ _ _ Hs q pi).
  - intros q pi t i Hk Hl Hi Hd. apply lookup_insert_Some in Hk as [[[= <- <-] <-]|[Hk1 Hk]]; [done|]. by apply (sh_leaf _ _ _ Hs q pi).
  - intros k x Hk. destruct (sh_data _ _ _ Hs k x Hk) as (H1 & H2 & H3 & H4 & H5). split_and!; try done; [set_solver|].
    intros k'. rewrite lookup_insert_Some. intros [[_ E]|[_ E]]; [|by apply (H5 k')]. apply H4. by rewrite <- E.
Qed.

End Change.

(** ** Reference counts *)

Lemma alter_const_twice {A} (v w : A) i (l : list A) : alter (fun _ => w) i (alter (fun _ => v) i l) = alter (fun _ => w) i l.
Proof.
  apply list_eq. intros j. destruct (decide (j = i)) as [->|]; [|by rewrite !list_lookup_alter_ne].
  rewrite !list_lookup_alter_eq. by destruct (l !! i).
Qed.

Definition one_if (a b : Z) : nat := if decide (a = b) then 1 else 0.

Lemma cnt_insert M k e a : M !! k = None -> cnt (<[k := e]> M) a = (one_if (pte_addr e) a + cnt M a)%nat.
Proof.
  intros Hk. unfold cnt, one_if. destruct (decide (pte_addr e = a)) as [E|E].
  - rewrite map_filter_insert_True by done. rewrite map_size_insert_None; [done|].
    apply map_lookup_filter_None. left. done.
  - rewrite map_filter_insert_False by done. rewrite delete_id by done. done.
Qed.

Lemma cnt_delete M k e a : M !! k = Some e -> cnt M a = (one_if (pte_addr e) a + cnt (delete k M) a)%nat.
Proof. intros Hk. rewrite <- (cnt_insert (delete k M) k e a) by apply lookup_delete_eq. by rewrite insert_delete_id. Qed.

Lemma cnt_replace M k e e' a : M !! k = Some e -> pte_addr e' = pte_addr e -> cnt (<[k := e']> M) a = cnt M a.
Proof.
  intros Hk E. rewrite (cnt_delete M k e a Hk), <- insert_delete_eq, cnt_insert by apply lookup_delete_eq. by rewrite E.
Qed.

Lemma cnt_pos M k e : M !! k = Some e -> (0 < cnt M (pte_addr e))%nat.
Proof. intros Hk. rewrite (cnt_delete M k e) by done. unfold one_if. rewrite decide_True by done. lia. Qed.

Lemma cnt_one M k k' e e' : cnt M (pte_addr e) = 1%nat -> M !! k = Some e -> M !! k' = Some e' -> pte_addr e' = pte_addr e -> k' = k.
Proof.
  intros H1 Hk Hk' E. destruct (decide (k' = k)) as [|Hne]; [done|exfalso].
  rewrite (cnt_delete M k e) in H1 by done. rewrite (cnt_delete (delete k M) k' e') in H1 by (by rewrite lookup_delete_ne).
  unfold one_if in H1. rewrite !decide_True in H1 by done. lia.
Qed.

Section Counts.
Context (s : mm_state) (Hok : pmm_ok s) (d : Z) (Hd : 0 <= d < total_pages s) (rl : list Z) (Hrl : page_refcounts s = Some rl).

Lemma page_to_index_page : page_to_index s (page_addr s d) = d /\ (d =? NO_PAGE) = false.
Proof.
  unfold page_to_index. destruct (page_index s d Hok Hd) as [-> ->]. split; [done|].
  pose proof (po_range s Hok). unfold NO_PAGE, PAGE_SIZE in *. lia.
Qed.

Lemma put_refcount_at v x : 0 <= x -> refcount_at (put_refcount d v s) x = if decide (x = d) then v else refcount_at s x.
Proof. intros Hx. apply (refcount_put s d x v rl Hrl); [|done]. rewrite (po_refs s Hok rl Hrl). done. Qed.

Lemma get_refcount_page : mm_get_page_refcount s (page_addr s d) = refcount_at s d.
Proof. unfold mm_get_page_refcount. destruct page_to_index_page as [-> ->]. done. Qed.

Lemma incref_page : refcount_at s d < 0xFFFF -> mm_incref_page (page_addr s d) s = put_refcount d (refcount_at s d + 1) s.
Proof. intros H. unfold mm_incref_page. destruct page_to_index_page as [-> ->]. by rewrite (proj2 (Z.ltb_lt _ _)). Qed.

Lemma decref_page : mm_decref_page (page_addr s d) s =
  if refcount_at s d =? 0 then (s, true) else (put_refcount d (refcount_at s d - 1) s, refcount_at s d =? 1).
Proof. unfold mm_decref_page. destruct page_to_index_page as [-> ->]. done. Qed.

Lemma put_refcount_twice v w : put_refcount d w (put_refcount d v s) = put_refcount d w s.
Proof. unfold put_refcount, set_refcounts. cbn. rewrite Hrl. cbn. by rewrite alter_const_twice. Qed.
End Counts.

Lemma shape_refcount dead st g d v : shape dead st g -> shape dead (set_pm (put_refcount d v (pm st)) st) g.
Proof.
  intros Hs. destruct (sh_refs _ _ _ Hs) as [rl Hrl]. split; cbn [set_pm pm]; try shape_of Hs.
  - by apply put_refcount_ok, (sh_pmm _ _ _ Hs).
  - cbn. rewrite Hrl. by eexists.
  - destruct (sh_list _ _ _ Hs) as (HL1 & HL2 & HL3). split_and!; [by apply (flist_ext st (set_pm (put_refcount d v (pm st)) st))|done|done].
Qed.

(** The next count of a page that is shared once more. *)
Definition shared_count (rc : Z) : Z := if rc =? 0 then 2 else rc + 1.

Lemma share_page_eq dead st g d :
  shape dead st g -> 0 <= d < total_pages (pm st) -> refcount_at (pm st) d < 0xFFFE ->
  0 <= refcount_at (pm st) d ->
  share_page (page_addr (pm st) d) st = set_pm (put_refcount d (shared_count (refcount_at (pm st) d)) (pm st)) st.
Proof.
  intros Hs Hd Hlt H0. destruct (sh_refs _ _ _ Hs) as [rl Hrl]. pose proof (sh_pmm _ _ _ Hs) as Hok.
  unfold share_page, shared_count. rewrite (get_refcount_page _ Hok d Hd). destruct (Z.eqb_spec (refcount_at (pm st) d) 0) as [E|E].
  - rewrite (incref_page _ Hok d Hd), E by lia. f_equal. set (s1 := put_refcount d (0 + 1) (pm st)).
    destruct (put_refcount_ok (pm st) d (0 + 1) Hok) as [Hok1 _]. fold s1 in Hok1.
    assert (Hr1 : page_refcounts s1 = Some (alter (fun _ => 0 + 1) (Z.to_nat d) rl)) by (cbn; by rewrite Hrl).
    assert (E1 : refcount_at s1 d = 1) by (unfold s1; rewrite (put_refcount_at _ Hok d Hd rl Hrl) by lia; by rewrite decide_True).
    change (page_addr (pm st) d) with (page_addr s1 d). rewrite (incref_page s1 Hok1 d Hd), E1 by lia.
    unfold s1. by rewrite (put_refcount_twice _ d rl Hrl).
  - by rewrite (incref_page _ Hok d Hd) by lia.
Qed.

Lemma counted_put s M M' d v :
  pmm_ok s -> is_Some (page_refcounts s) -> 0 <= d < total_pages s ->
  (forall x, 0 <= x < total_pages s -> x <> d -> cnt M' (page_addr s x) = cnt M (page_addr s x)) ->
  (let n := Z.of_nat (cnt M' (page_addr s d)) in v = n \/ (v = 0 /\ n = 1)) ->
  (forall k e, M' !! k = Some e -> has e PAGE_COW = true -> pte_addr e <> page_addr s d -> M !! k = Some e) ->
  (forall k e, M' !! k = Some e -> has e PAGE_COW = true -> pte_addr e = page_addr s d -> 1 <= v) ->
  (forall k e, M' !! k = Some e -> has e PAGE_WRITABLE = true -> cnt M' (pte_addr e) = 1%nat) ->
  counted s M -> counted (put_refcount d v s) M'.
Proof.
  intros Hok [rl Hrl] Hd Hcnt Hv Hcow1 Hcow2 Hex [H1 H2 H3]. pose proof (put_refcount_at s Hok d Hd rl Hrl v) as Hr.
  split; [| |done].
  - intros x Hx. cbn [total_pages put_refcount set_refcounts] in Hx. change (page_addr (put_refcount d v s) x) with (page_addr s x). rewrite Hr by lia.
    destruct (decide (x = d)) as [->|Hne]; [done|]. rewrite Hcnt by done. by apply H1.
  - intros k e x Hk Hc Ex Hx. change (page_addr (put_refcount d v s) x) with (page_addr s x) in Ex. cbn in Hx. rewrite Hr by lia.
    destruct (decide (x = d)) as [->|Hne]; [by eapply Hcow2|]. eapply (H2 k e x); try done. apply Hcow1; try done.
    rewrite Ex. unfold page_addr, PAGE_SIZE. lia.
Qed.

(** ** Paths *)

Definition under (pi ka : list nat) : Prop := pi `prefix_of` ka.

Lemma under_same pi i j ka : under (pi ++ [i]) ka -> under (pi ++ [j]) ka -> i = j.
Proof.
  intros [r ->] [r' E]. rewrite <- !app_assoc in E. apply app_inv_head in E. by injection E.
Qed.

Lemma under_cons pi j r : under (pi ++ [j]) (pi ++ j :: r).
Proof. exists r. by rewrite <- app_assoc. Qed.

Lemma table_prefix dead st g x pi r t : shape dead st g -> gT g !! (x, pi ++ r) = Some t -> is_Some (gT g !! (x, pi)).
Proof.
  intros Hs. revert t. induction r as [|y r IH] using rev_ind; intros t Ht; [rewrite app_nil_r in Ht; by eexists|].
  rewrite app_assoc in Ht. destruct (path_up _ _ _ Hs _ _ _ _ Ht) as [t' Ht']. by apply (IH t').
Qed.

Lemma map_slot dead st g x pi j r e :
  shape dead st g -> gM g !! (x, pi ++ j :: r) = Some e -> slot_ok pi j /\ is_Some (gT g !! (x, pi)).
Proof.
  intros Hs (pi' & i & E & Hl & Hi & [t Ht])%(sh_leaf_path _ _ _ Hs). destruct r as [|y r] using rev_ind.
  - apply app_one_inj in E as [<- <-]. split; [done|by eexists].
  - rewrite app_comm_cons, app_assoc in E. apply app_one_inj in E as [<- _].
    destruct (table_prefix dead st g x (pi ++ [j]) r t Hs) as [u Hu]; [by rewrite <- app_assoc|].
    by destruct (sh_path _ _ _ Hs _ _ _ _ Hu) as (_ & ? & ?).
Qed.

Lemma no_table_no_map dead st g x pi ka :
  shape dead st g -> (length pi <= 3)%nat -> gT g !! (x, pi) = None -> under pi ka -> gM g !! (x, ka) = None.
Proof.
  intros Hs Hlen Hn [r ->]. destruct (gM g !! (x, pi ++ r)) as [e|] eqn:E; [|done]. exfalso. destruct r as [|j r].
  - apply (sh_leaf_path _ _ _ Hs) in E as (pi' & i & E & Hl & _). apply (f_equal length) in E. rewrite !length_app in E. cbn in E. lia.
  - destruct (map_slot dead st g x pi j r e Hs E) as [_ [t Ht]]. congruence.
Qed.

Lemma below_leaf dead st g x pi l ka :
  shape dead st g -> length pi = 3%nat -> under (pi ++ [l]) ka ->
  gT g !! (x, ka) = None /\ (ka <> pi ++ [l] -> gM g !! (x, ka) = None).
Proof.
  intros Hs Hlen [r ->]. split.
  - destruct (gT g !! (x, (pi ++ [l]) ++ r)) as [t|] eqn:E; [|done].
    destruct (table_prefix dead st g x (pi ++ [l]) r t Hs E) as [u Hu]. apply (sh_path _ _ _ Hs) in Hu as [? _]. lia.
  - intros Hne. destruct (gM g !! (x, (pi ++ [l]) ++ r)) as [e|] eqn:E; [|done].
    apply (sh_leaf_path _ _ _ Hs) in E as (pi' & i & E & Hl' & _). apply (f_equal length) in E. rewrite !length_app in E. cbn in E.
    destruct r; [by rewrite app_nil_r in Hne|cbn in E; lia].
Qed.

(** ** Linking tables *)

Lemma link_vinv st g x pi t i f e :
  vinv live st g -> gT g !! (x, pi) = Some t -> (length pi < 3)%nat -> slot_ok pi i -> gT g !! (x, pi ++ [i]) = None ->
  f ∈ gH g -> (forall j, has (word st f j) PAGE_PRESENT = false) -> links e f ->
  vinv live (put_word t i e st) (mk_ghost (<[(x, pi ++ [i]) := f]> (gT g)) (gM g) (gH g ∖ {[f]}) (gL g)).
Proof.
  intros (Hs & Hc & Ha) Ht Hlen Hi Hnone Hf Hempty He. split_and!; [by apply link_table|done|].
  intros y Hy. cbn [gT gM gH gL]. destruct (Ha y Hy) as [H|[[k Hk]|[H|H]]]; [by left| |by right; right; left|].
  - right. left. exists k. rewrite lookup_insert_ne; [done|]. intros <-. by pose proof (eq_trans (eq_sym Hnone) Hk).
  - destruct (decide (y = f)) as [->|Hne]; [|right; right; right; set_solver]. right. left. eexists. apply lookup_insert_eq.
Qed.

Lemma links_copy e t f : frame_ok f -> links e t -> links (Z.lor f (Z.land e PTE_FLAGS_MASK)) f.
Proof.
  intros Hf (H1 & H2 & H3 & H4 & _).
  assert (Hh : forall m, 0 <= m < 2 ^ 12 -> Z.land PTE_FLAGS_MASK m = m -> has (Z.lor f (Z.land e PTE_FLAGS_MASK)) m = has e m).
  { intros m Hm E. rewrite has_frame by done. unfold has. by rewrite <- Z.land_assoc, E. }
  unfold links. rewrite !Hh by done. split_and!; try done. apply pte_addr_frame; [done|]. rewrite <- Z.land_assoc.
  change (Z.land PTE_FLAGS_MASK PTE_ADDR_MASK) with 0. apply Z.land_0_r.
Qed.

Lemma word_zero_page st f j : frames st !! f = Some zero_page -> word st f j = 0.
Proof.
  intros E. unfold word. rewrite E. cbn [mbind option_bind]. destruct (zero_page !! j) as [v|] eqn:Ev; [|done].
  unfold zero_page in Ev. by apply lookup_replicate in Ev as [-> _].
Qed.
