(* ===== verification/Fork.v ===== *)
(** * Fork

    [mm_clone_address_space] of the file Paging gives the child a page table of its
    own with the parent's pages, all of them marked copy-on-write in both tables.
    The relation [forkrel] says what a part of the work has done; it composes along
    the loops over the entries of the four levels of tables. *)

From Stdlib Require Import ZArith Lia Bool.
From stdpp Require Import base list gmap fin_maps.
From S2P Require Import Prelude Pmm Paging AddressSpace.

Open Scope Z_scope.

(** ** One step of a fork *)

Lemma cow_entry_idemp e : cow_entry (cow_entry e) = cow_entry e.
Proof.
  unfold cow_entry. rewrite Z.land_lor_distr_l, <- Z.land_assoc, Z.land_diag. change (Z.land PAGE_COW (Z.lnot PAGE_WRITABLE)) with PAGE_COW.
  by rewrite <- Z.lor_assoc, Z.lor_diag.
Qed.

(** Both mappings of the page at [ka] after it has been shared. *)
Definition fork_maps (p q : Z) (ka : list nat) (e : Z) (M : gmap key Z) : gmap key Z :=
  <[(q, ka) := cow_entry e]> (<[(p, ka) := cow_entry e]> M).

Lemma cnt_fork p q ka e M a :
  p <> q -> M !! (p, ka) = Some e -> M !! (q, ka) = None -> cnt (fork_maps p q ka e M) a = (one_if (pte_addr e) a + cnt M a)%nat.
Proof.
  intros Hne Hp Hq. unfold fork_maps. rewrite cnt_insert by (rewrite lookup_insert_ne by congruence; done).
  rewrite pte_addr_cow, (cnt_replace M _ e) by (done || apply pte_addr_cow). done.
Qed.

Lemma counted_fork s M p q ka e d :
  pmm_ok s -> is_Some (page_refcounts s) -> 0 <= d < total_pages s -> pte_addr e = page_addr s d ->
  p <> q -> M !! (p, ka) = Some e -> M !! (q, ka) = None -> counted s M ->
  counted (put_refcount d (shared_count (refcount_at s d)) s) (fork_maps p q ka e M).
Proof.
  intros Hok Hrl Hd Ed Hne Hp Hq Hc. pose proof (cnt_fork p q ka e M) as Hcf. pose proof (cnt_pos M _ e Hp) as Hpos.
  assert (Hother : forall k x, fork_maps p q ka e M !! k = Some x -> M !! k = Some x /\ k <> (p, ka) \/ x = cow_entry e).
  { intros k x. unfold fork_maps. rewrite !lookup_insert_Some. intros [[_ <-]|[_ [[_ <-]|[? ?]]]]; auto. }
  pose proof (co_count _ _ Hc d Hd) as Hrc. cbn zeta in Hrc. rewrite <- Ed in Hrc.
  apply (counted_put s M); try done.
  - intros x Hx Hxd. rewrite Hcf by done. unfold one_if. rewrite decide_False; [done|]. rewrite Ed. unfold page_addr, PAGE_SIZE. lia.
  - cbn zeta. left. rewrite <- Ed, Hcf by done. unfold one_if, shared_count. rewrite decide_True by done. destruct (Z.eqb_spec (refcount_at s d) 0); lia.
  - intros k x Hk Hcow Hx. destruct (Hother k x Hk) as [[? _]| ->]; [done|]. by rewrite pte_addr_cow in Hx.
  - intros k x Hk Hcow Hx. unfold shared_count. destruct (Z.eqb_spec (refcount_at s d) 0); lia.
  - intros k x Hk Hw. destruct (Hother k x Hk) as [[Hk' Hkn]| ->]; [|by rewrite (proj1 (proj2 (proj2 (has_cow_entry e)))) in Hw].
    pose proof (co_excl _ _ Hc k x Hk' Hw) as H1. rewrite Hcf by done. unfold one_if. destruct (decide (pte_addr e = pte_addr x)) as [E|E]; [|lia].
    exfalso. apply Hkn. symmetry. by apply (cnt_one M k (p, ka) x e).
Qed.

(** A fork of [p] into [q] has treated the mapping at [ka], or (unless [full]) left it alone. *)
Definition forked_at (full : bool) (p q : Z) (M M' : gmap key Z) (ka : list nat) : Prop :=
  (M' !! (p, ka) = cow_entry <$> M !! (p, ka) /\ M' !! (q, ka) = cow_entry <$> M !! (p, ka)) \/
  (full = false /\ M' !! (p, ka) = M !! (p, ka) /\ M' !! (q, ka) = M !! (q, ka)).

(** Part of a fork, below the paths [D]; complete there when [full]. *)
Record forkrel (full : bool) (p q : Z) (D : list nat -> Prop) (st st' : vm) (g g' : ghost) : Prop := {
  fk_inv : vinv live st' g';
  fk_held : gH g' = gH g;
  fk_layout : same_layout st st' /\ g_kernel_pml4_phys st' = g_kernel_pml4_phys st;
  fk_tables : forall k f, gT g !! k = Some f -> gT g' !! k = Some f;
  fk_new : forall x ka f, gT g' !! (x, ka) = Some f -> gT g !! (x, ka) = Some f \/ (x = q /\ D ka);
  fk_any : forall ka, forked_at false p q (gM g) (gM g') ka;
  fk_full : full = true -> forall ka, D ka -> forked_at true p q (gM g) (gM g') ka;
  fk_out : forall x ka, (x <> p /\ x <> q) \/ ~ D ka -> gM g' !! (x, ka) = gM g !! (x, ka);
  fk_data : forall f, phys_page st f -> (forall k, gT g' !! k <> Some f) -> page_words st' f = page_words st f;
}.

Lemma same_layout_trans st st' st'' : same_layout st st' -> same_layout st' st'' -> same_layout st st''.
Proof. intros (H1 & H2 & H3 & H4) (H5 & H6 & H7 & H8). unfold same_layout. by rewrite H5, H6, H7, H8. Qed.

Lemma forked_at_trans p q M M1 M2 ka : forked_at false p q M M1 ka -> forked_at false p q M1 M2 ka -> forked_at false p q M M2 ka.
Proof.
  assert (Hi : forall o : option Z, cow_entry <$> (cow_entry <$> o) = cow_entry <$> o) by (intros [e|]; cbn; [by rewrite cow_entry_idemp|done]).
  intros [[A1 A2]|(_ & A1 & A2)] [[B1 B2]|(_ & B1 & B2)]; unfold forked_at; rewrite B1, B2, ?A1, ?A2, ?Hi; by auto.
Qed.

Lemma forkrel_trans b1 b2 p q (D1 D2 D : list nat -> Prop) st st1 st2 g g1 g2 :
  (forall ka, D1 ka -> D2 ka -> False) -> (forall ka, D ka <-> D1 ka \/ D2 ka) ->
  forkrel b1 p q D1 st st1 g g1 -> forkrel b2 p q D2 st1 st2 g1 g2 -> forkrel (b1 && b2) p q D st st2 g g2.
Proof.
  intros Hdis HD [A1 A2 [A3 A3'] A4 A5 A6 A7 A8 A9] [B1 B2 [B3 B3'] B4 B5 B6 B7 B8 B9].
  split; [done|by rewrite B2|split; [by eapply same_layout_trans|by rewrite B3']|by auto| | | | |].
  - intros x ka f [Hf|[-> Hf]]%B5; [|right; split; [done|apply HD; by right]]. apply A5 in Hf as [|[-> Hf]]; [by left|right]. split; [done|].
    apply HD. by left.
  - intros ka. by eapply forked_at_trans.
  - intros [-> ->]%andb_true_iff ka [Hk|Hk]%HD.
    + destruct (A7 eq_refl ka Hk) as [[E1 E2]|[? _]]; [|done]. assert (Hn : ~ D2 ka) by (intros ?; by eapply Hdis). left.
      by rewrite !B8 by (by right).
    + destruct (B7 eq_refl ka Hk) as [[E1 E2]|[? _]]; [|done]. assert (Hn : ~ D1 ka) by (intros ?; by eapply Hdis). left.
      by rewrite E1, E2, !A8 by (by right).
  - intros x ka Hx. rewrite B8, A8; [done| |]; (destruct Hx as [|Hx]; [by left|right; intros ?; apply Hx, HD; by auto]).
  - intros f Hf Hn. rewrite B9, A9; [done|done| |by rewrite (same_layout_page st)|done]. intros k Hk. by eapply Hn, B4.
Qed.

Lemma forkrel_refl full p q (D : list nat -> Prop) st g :
  vinv live st g -> (full = true -> forall ka, D ka -> gM g !! (p, ka) = None /\ gM g !! (q, ka) = None) -> forkrel full p q D st st g g.
Proof.
  intros Hv HD. split; try done; [by left|by right|]. intros Hf ka Hk. destruct (HD Hf ka Hk) as [E1 E2]. left. by rewrite E1, E2.
Qed.

(** *** How often pages are mapped during a fork *)

Definition grown (p q : Z) (M0 M : gmap key Z) : Prop :=
  forall x ka e, M !! (x, ka) = Some e ->
    exists e0, M0 !! (if decide (x = q) then p else x, ka) = Some e0 /\ pte_addr e0 = pte_addr e.

Lemma grown_forkrel p q M0 b D st st' g g' : p <> q -> grown p q M0 (gM g) -> forkrel b p q D st st' g g' -> grown p q M0 (gM g').
Proof.
  intros Hne Hg Hf x ka e He.
  assert (Hp : forall e, cow_entry <$> gM g !! (p, ka) = Some e -> exists e0, M0 !! (p, ka) = Some e0 /\ pte_addr e0 = pte_addr e).
  { intros y (e1 & H1 & ->)%fmap_Some. apply Hg in H1. rewrite decide_False in H1 by done. by rewrite pte_addr_cow. }
  destruct (decide (x = q)) as [->|Hq]; [|destruct (decide (x = p)) as [->|Hxp]].
  - destruct (fk_any _ _ _ _ _ _ _ _ Hf ka) as [[E1 E2]|(_ & E1 & E2)]; [apply Hp; congruence|]. rewrite E2 in He. apply Hg in He.
    by rewrite decide_True in He.
  - destruct (fk_any _ _ _ _ _ _ _ _ Hf ka) as [[E1 E2]|(_ & E1 & E2)]; [apply Hp; congruence|]. rewrite E1 in He. apply Hg in He.
    by rewrite decide_False in He.
  - rewrite (fk_out _ _ _ _ _ _ _ _ Hf) in He by (by left). apply Hg in He. by rewrite decide_False in He.
Qed.

Lemma size_list_to_set_le (l : list key) : (size (list_to_set l : gset key) <= length l)%nat.
Proof.
  induction l as [|x l IH]; [done|]. rewrite list_to_set_cons. cbn [length]. rewrite size_union_alt, size_singleton.
  etrans; [|apply le_n_S, IH]. apply le_n_S, subseteq_size. set_solver.
Qed.

Lemma grown_cnt p q M0 M a : grown p q M0 M -> (cnt M a <= 2 * cnt M0 a)%nat.
Proof.
  intros Hg. unfold cnt. rewrite <- !size_dom. set (K0 := dom (filter _ M0)).
  assert (Hin : forall k e, M0 !! k = Some e -> pte_addr e = a -> k ∈ K0).
  { intros k e Hk E. apply elem_of_dom. exists e. by apply map_lookup_filter_Some. }
  transitivity (size (K0 ∪ list_to_set ((fun k => (q, k.2)) <$> elements K0))).
  - apply subseteq_size. intros [x ka] [e He]%elem_of_dom. apply map_lookup_filter_Some in He as [He Ea]. cbn in Ea.
    destruct (Hg x ka e He) as (e0 & H0 & E0). apply Hin in H0; [|congruence]. apply elem_of_union. destruct (decide (x = q)) as [->|]; [right|by left].
    apply elem_of_list_to_set, list_elem_of_fmap. exists (p, ka). split; [done|]. by apply elem_of_elements.
  - rewrite size_union_alt. set (K1 := list_to_set _). assert (H1 : (size (K1 ∖ K0) <= size K1)%nat) by (apply subseteq_size; set_solver).
    assert (H2 : (size K1 <= size K0)%nat) by (unfold K1; etrans; [apply size_list_to_set_le|]; by rewrite length_fmap). lia.
Qed.

(** *** The steps *)

Section Fork.
Context (p q : Z) (Hpq : p <> q) (M0 : gmap key Z) (Hroom : forall a, Z.of_nat (cnt M0 a) < 0x7FFF).

Lemma share_step st g pi l src new e :
  vinv live st g -> grown p q M0 (gM g) -> gT g !! (p, pi) = Some src -> gT g !! (q, pi) = Some new -> length pi = 3%nat -> slot_ok pi l ->
  gM g !! (p, pi ++ [l]) = Some e -> gM g !! (q, pi ++ [l]) = None ->
  vinv live (share_page (pte_addr e) (put_word new l (cow_entry e) (put_word src l (cow_entry e) st)))
    (mk_ghost (gT g) (fork_maps p q (pi ++ [l]) e (gM g)) (gH g) (gL g)).
Proof.
  intros (Hs & Hc & Ha) Hg Hsrc Hnew Hlen Hl He Hnone.
  destruct (sh_data _ _ _ Hs _ _ He) as (E1 & E2 & (d & Hd & Hdf & Ed) & E4 & E5).
  destruct (has_cow_entry e) as (C1 & C2 & _ & _).
  assert (Hdiff : gH g ∖ {[pte_addr (cow_entry e)]} = gH g) by (rewrite pte_addr_cow; set_solver).
  assert (Hs1 := put_leaf _ _ _ Hs live p pi src l (cow_entry e) ltac:(by intros ? []) Hsrc Hlen Hl ltac:(congruence) ltac:(congruence)).
  rewrite pte_addr_cow in Hs1. specialize (Hs1 (ex_intro _ d (conj Hd (conj Hdf Ed))) E5). rewrite pte_addr_cow in Hdiff. rewrite Hdiff in Hs1.
  set (st1 := put_word src l (cow_entry e) st) in *.
  assert (Hs2 := put_leaf _ _ _ Hs1 live q pi new l (cow_entry e) ltac:(by intros ? []) Hnew Hlen Hl ltac:(congruence) ltac:(congruence)).
  rewrite pte_addr_cow in Hs2. specialize (Hs2 (ex_intro _ d (conj Hd (conj Hdf Ed))) E5). cbn [gT gM gH gL] in Hs2. rewrite Hdiff in Hs2.
  set (st2 := put_word new l (cow_entry e) st1) in *. fold (fork_maps p q (pi ++ [l]) e (gM g)) in Hs2.
  assert (Hrc : 0 <= refcount_at (pm st) d < 0xFFFE).
  { pose proof (grown_cnt p q M0 (gM g) (page_addr (pm st) d) Hg). pose proof (Hroom (page_addr (pm st) d)).
    pose proof (co_count _ _ Hc d Hd) as Hcc. cbn zeta in Hcc. lia. }
  change (pm st) with (pm st2) in Hrc, Hd, Ed. rewrite Ed, (share_page_eq _ _ _ d Hs2) by lia.
  split_and!.
  - by apply shape_refcount.
  - cbn [pm set_pm gM]. by apply counted_fork; [exact (sh_pmm _ _ _ Hs)|exact (sh_refs _ _ _ Hs)|..].
  - intros f Hf. cbn [gT gM gH gL]. destruct (Ha f Hf) as [Hx|[Hx|[(k & x & Hk & Hx)|Hx]]]; [by left|by right; left| |by right; right; right].
    right. right. left. unfold fork_maps. destruct (decide (k = (p, pi ++ [l]))) as [->|Hne].
    + exists (p, pi ++ [l]), (cow_entry e). rewrite lookup_insert_ne by congruence. rewrite lookup_insert_eq, pte_addr_cow. split; [done|].
      pose proof (eq_trans (eq_sym He) Hk) as [= ->]. done.
    + exists k, x. split; [|done]. rewrite lookup_insert_ne by (intros <-; by pose proof (eq_trans (eq_sym Hnone) Hk)). by rewrite lookup_insert_ne.
Qed.

Lemma fork_leaf base pi st g l src new :
  vinv live st g -> grown p q M0 (gM g) -> gT g !! (p, pi) = Some src -> gT g !! (q, pi) = Some new -> length pi = 3%nat -> slot_ok pi l ->
  gM g !! (q, pi ++ [l]) = None ->
  exists st' g', clone_pt [] base src new st l = (st', true) /\ forkrel true p q (under (pi ++ [l])) st st' g g'.
Proof.
  intros Hv Hg Hsrc Hnew Hlen Hl Hnone. pose proof Hv as (Hs & Hc & Ha).
  pose proof (sh_leaf _ _ _ Hs p pi src l Hsrc Hlen Hl ltac:(by intros [])) as Hw. unfold clone_pt. cbn zeta.
  assert (Hlong : forall x ka, under (pi ++ [l]) ka -> ka <> pi ++ [l] -> gM g !! (x, ka) = None).
  { intros x ka Hu. by apply (below_leaf live st g x pi l ka). }
  destruct (gM g !! (p, pi ++ [l])) as [e|] eqn:He.
  - destruct (sh_data _ _ _ Hs _ _ He) as (E1 & E2 & (d & Hd & Hdf & Ed) & E4 & E5). rewrite Hw, E1, E2. cbn [negb is_in_shared_range existsb].
    eexists _, _. split; [done|]. pose proof (share_step st g pi l src new e Hv Hg Hsrc Hnew Hlen Hl He Hnone) as Hv'.
    assert (Hmine : forked_at true p q (gM g) (fork_maps p q (pi ++ [l]) e (gM g)) (pi ++ [l])).
    { left. unfold fork_maps. rewrite lookup_insert_eq, lookup_insert_ne by congruence. by rewrite lookup_insert_eq, He. }
    assert (Hother : forall x ka, (x <> p /\ x <> q) \/ ka <> pi ++ [l] -> fork_maps p q (pi ++ [l]) e (gM g) !! (x, ka) = gM g !! (x, ka)).
    { intros x ka Hx. unfold fork_maps. rewrite !lookup_insert_ne by (intros [= <- <-]; naive_solver). done. }
    split; [exact Hv'|done| |done|by left| | | |].
    + destruct Hv' as (Hs' & _). unfold share_page. repeat case_if; split; unfold mm_incref_page, put_refcount; repeat case_if; done.
    + intros ka. destruct (decide (ka = pi ++ [l])) as [->|Hne]; [by destruct Hmine as [?|[? _]]; [left|]|]. right. by rewrite !Hother by (by right).
    + intros _ ka Hk. destruct (decide (ka = pi ++ [l])) as [->|Hne]; [done|]. left. cbn [gM]. rewrite !Hother by (by right).
      by rewrite !Hlong.
    + intros x ka Hx. apply Hother. destruct Hx as [|Hx]; [by left|right]. intros ->. by apply Hx.
    + intros f Hf Hn. cbn [gT] in Hn. change (page_words (share_page _ ?s) f) with (page_words s f).
      rewrite !words_put_ne; [done|intros ->; by eapply Hn|intros ->; by eapply Hn].
  - rewrite Hw. cbn [negb]. exists st, g. split; [done|]. apply forkrel_refl; [done|]. intros _ ka Hk.
    destruct (decide (ka = pi ++ [l])) as [->|]; [done|]. split; by apply Hlong.
Qed.

(** *** Loops *)

Definition clean (g : ghost) (pi : list nat) : Prop := forall ka, under pi ka -> gT g !! (q, ka) = None /\ gM g !! (q, ka) = None.

Definition body_clones (pi : list nat) (body : Z -> Z -> vm -> nat -> vm * bool) : Prop :=
  forall st g src new i,
    vinv live st g -> grown p q M0 (gM g) -> gT g !! (p, pi) = Some src -> gT g !! (q, pi) = Some new ->
    slot_ok pi i -> clean g (pi ++ [i]) ->
    exists st' b g', body src new st i = (st', b) /\ forkrel b p q (under (pi ++ [i])) st st' g g'.

Definition below_slots (pi ka : list nat) : Prop := exists i, slot_ok pi i /\ under (pi ++ [i]) ka.

Definition clones (pi : list nat) (below : Z -> Z -> vm -> vm * bool) : Prop :=
  forall st g src new,
    vinv live st g -> grown p q M0 (gM g) -> gT g !! (p, pi) = Some src -> gT g !! (q, pi) = Some new ->
    (forall i, slot_ok pi i -> clean g (pi ++ [i])) ->
    exists st' b g', below src new st = (st', b) /\ forkrel b p q (below_slots pi) st st' g g'.

Lemma forkrel_mono full (D D' : list nat -> Prop) st st' g g' :
  (forall ka, D ka -> D' ka) ->
  (full = true -> forall ka, D' ka -> D ka \/ (~ D ka /\ gM g !! (p, ka) = None /\ gM g !! (q, ka) = None)) ->
  forkrel full p q D st st' g g' -> forkrel full p q D' st st' g g'.
Proof.
  intros H1 H2 [A1 A2 A3 A4 A5 A6 A7 A8 A9]. split; try done.
  - intros x ka f [|[-> Hf]]%A5; auto.
  - intros Hf ka [Hk|(Hn & E1 & E2)]%(H2 Hf); [by apply A7|]. left. by rewrite !A8, E1, E2 by (by right).
  - intros x ka Hx. apply A8. destruct Hx as [|Hx]; [by left|right]. intros Hd. by apply Hx, H1.
Qed.

Lemma iter_clones pi body : body_clones pi body -> forall ixs st g src new,
  NoDup ixs -> (forall i, i ∈ ixs -> slot_ok pi i) ->
  vinv live st g -> grown p q M0 (gM g) -> gT g !! (p, pi) = Some src -> gT g !! (q, pi) = Some new ->
  (forall i, i ∈ ixs -> clean g (pi ++ [i])) ->
  exists st' b g', iter (body src new) ixs st = (st', b) /\ forkrel b p q (fun ka => exists i, i ∈ ixs /\ under (pi ++ [i]) ka) st st' g g'.
Proof.
  intros Hb ixs. induction ixs as [|i ixs IH]; intros st g src new Hnd Hok Hv Hg Hp Hq Hcl; cbn [iter].
  { exists st, true, g. split; [done|]. apply forkrel_refl; [done|]. intros _ ka (i & Hi & _). by apply not_elem_of_nil in Hi. }
  apply NoDup_cons in Hnd as [Hni Hnd].
  destruct (Hb st g src new i Hv Hg Hp Hq ltac:(apply Hok; left) ltac:(apply Hcl; left)) as (st1 & b & g1 & -> & H1). destruct b.
  - destruct (IH st1 g1 src new) as (st2 & b & g2 & -> & H2); try done.
    + intros j Hj. apply Hok. by right.
    + exact (fk_inv _ _ _ _ _ _ _ _ H1).
    + exact (grown_forkrel _ _ _ _ _ _ _ _ _ Hpq Hg H1).
    + by apply (fk_tables _ _ _ _ _ _ _ _ H1).
    + by apply (fk_tables _ _ _ _ _ _ _ _ H1).
    + intros j Hj ka Hk. destruct (Hcl j ltac:(by right) ka Hk) as [C1 C2].
      assert (Hn : ~ under (pi ++ [i]) ka) by (intros Hu; by rewrite (under_same _ _ _ _ Hu Hk) in Hni).
      rewrite (fk_out _ _ _ _ _ _ _ _ H1) by (by right). split; [|done].
      destruct (gT g1 !! (q, ka)) as [f|] eqn:E; [|done]. by apply (fk_new _ _ _ _ _ _ _ _ H1) in E as [E|[_ E]]; [rewrite C1 in E|].
    + exists st2, b, g2. split; [done|]. change b with (true && b).
      eapply (forkrel_trans true b p q (under (pi ++ [i])) (fun ka => exists j, j ∈ ixs /\ under (pi ++ [j]) ka)); [| |done|done].
      * intros ka Hu (j & Hj & Hu'). by rewrite (under_same _ _ _ _ Hu Hu') in Hni.
      * intros ka. setoid_rewrite elem_of_cons. naive_solver.
  - exists st1, false, g1. split; [done|]. eapply forkrel_mono; [| |exact H1]; [|done]. intros ka Hk. exists i. split; [left|done].
Qed.

Lemma loop_clones pi body n :
  body_clones pi body -> n = match pi with [] => 256%nat | _ => 512%nat end -> clones pi (fun src new => iter (body src new) (seq 0 n)).
Proof.
  intros Hb Hn st g src new Hv Hg Hp Hq Hcl.
  assert (Hseq : forall i, i ∈ seq 0 n <-> slot_ok pi i) by (intros i; rewrite elem_of_seq, Hn; unfold slot_ok; destruct pi; lia).
  destruct (iter_clones pi body Hb (seq 0 n) st g src new) as (st' & b & g' & E & H); try done.
  - apply NoDup_seq.
  - intros i Hi. by apply Hseq.
  - intros i Hi. by apply Hcl, Hseq.
  - exists st', b, g'. split; [done|]. eapply forkrel_mono; [| |exact H].
    + intros ka (i & Hi & Hu). exists i. split; [by apply Hseq|done].
    + intros _ ka (i & Hi & Hu). left. exists i. split; [by apply Hseq|done].
Qed.

(** *** Copying a table *)

Lemma alloc_kernel_root st st' f : allocate_pt_page st = (st', f) -> g_kernel_pml4_phys st' = g_kernel_pml4_phys st.
Proof.
  unfold allocate_pt_page. cbn zeta. repeat case_if; try (by intros [= <- <-]).
  destruct (mm_allocate_physical_page (pm st)) as [s a]. repeat case_if; by intros [= <- <-].
Qed.

(** A new table for [q] at [pi ++ [i]], like the one of [p]. *)
Lemma fork_table st g pi i src new s :
  vinv live st g -> gT g !! (p, pi) = Some src -> gT g !! (q, pi) = Some new -> (length pi < 3)%nat -> slot_ok pi i ->
  gT g !! (p, pi ++ [i]) = Some s -> gT g !! (q, pi ++ [i]) = None ->
  let e := word st src i in let '(st1, phys) := allocate_pt_page st in
  links e s /\
  ((phys = 0 /\ st1 = st) \/
   (phys <> 0 /\ exists g', gT g' = <[(q, pi ++ [i]) := phys]> (gT g) /\ gM g' = gM g /\
      forkrel true p q (eq (pi ++ [i])) st (put_word new i (Z.lor phys (Z.land e PTE_FLAGS_MASK)) st1) g g')).
Proof.
  intros Hv Hp Hq Hlen Hi Hs' Hnone. cbn zeta. pose proof Hv as (Hs & Hc & Ha).
  pose proof (sh_node _ _ _ Hs p pi src i Hp Hlen Hi ltac:(by intros [])) as He. rewrite Hs' in He.
  destruct (allocate_pt_page st) as [st1 phys] eqn:Ealloc. split; [done|].
  destruct (alloc_pt_inv _ _ _ _ _ Hv Ealloc) as [[-> ->]|(Hne & Hph & Hfree & Hlay & Efr & L & Hv1)]; [by left|right]. split; [done|].
  assert (HpH : phys ∉ gH g) by (intros Hin; by destruct (sh_held _ _ _ Hs phys Hin)).
  assert (Hlk := links_copy _ _ phys (phys_page_frame _ _ _ Hs phys Hph) He).
  assert (Hv2 := link_vinv st1 _ q pi new i phys _ Hv1 Hq Hlen Hi Hnone ltac:(set_solver)
    ltac:(intros j; rewrite (word_zero_page st1 phys j); [done|rewrite Efr; apply lookup_insert_eq]) Hlk).
  cbn [gT gM gH gL] in Hv2. assert (EH : ({[phys]} ∪ gH g) ∖ {[phys]} = gH g) by set_solver. rewrite EH in Hv2.
  assert (Hshort : forall x, gM g !! (x, pi ++ [i]) = None).
  { intros x. destruct (gM g !! (x, pi ++ [i])) as [y|] eqn:E; [|done].
    apply (sh_leaf_path _ _ _ Hs) in E as (pi' & j & E & Hl & _). apply app_one_inj in E as [<- _]. lia. }
  eexists. split; [|split]; [| |split; [exact Hv2|..]]; cbn [gT gM gH gL]; try done.
  - split; [done|]. exact (alloc_kernel_root _ _ _ Ealloc).
  - intros k f Hk. rewrite lookup_insert_ne; [done|]. intros <-. by pose proof (eq_trans (eq_sym Hnone) Hk).
  - intros x ka f. rewrite lookup_insert_Some. intros [[[= <- <-] _]|[_ Hx]]; [by right|by left].
  - intros ka. by right.
  - intros _ ka <-. left. by rewrite !Hshort.
  - intros f Hf Hn. rewrite words_put_ne.
    + unfold page_words. rewrite Efr, lookup_insert_ne; [done|]. intros ->. apply (Hn (q, pi ++ [i])). apply lookup_insert_eq.
    + intros ->. apply (Hn (q, pi)). rewrite lookup_insert_ne; [done|]. intros [= E]. apply (f_equal length) in E. rewrite length_app in E. cbn in E. lia.
Qed.

Lemma fork_node st g pi i src new below :
  clones (pi ++ [i]) below -> (length pi < 3)%nat ->
  vinv live st g -> grown p q M0 (gM g) -> gT g !! (p, pi) = Some src -> gT g !! (q, pi) = Some new ->
  slot_ok pi i -> clean g (pi ++ [i]) ->
  exists st' b g',
    (if negb (has (word st src i) PAGE_PRESENT) then (st, true) else clone_table new i (word st src i) below st) = (st', b) /\
    (has (word st src i) PAGE_PRESENT = true -> has (word st src i) PAGE_SIZE_FLAG = false) /\
    forkrel b p q (under (pi ++ [i])) st st' g g'.
Proof.
  intros Hb Hlen Hv Hg Hp Hq Hi Hcl. pose proof Hv as (Hs & _ & _).
  pose proof (sh_node _ _ _ Hs p pi src i Hp Hlen Hi ltac:(by intros [])) as He.
  assert (Hclq := fun ka Hk => proj2 (Hcl ka Hk)).
  assert (Hself : under (pi ++ [i]) (pi ++ [i])) by (by exists []; rewrite app_nil_r).
  destruct (gT g !! (p, pi ++ [i])) as [s|] eqn:Es.
  2:{ rewrite He. cbn [negb]. exists st, true, g. split_and!; [done|done|]. apply forkrel_refl; [done|]. intros _ ka Hk. split; [|by apply Hclq].
      eapply no_table_no_map; [done| |done|done]. rewrite length_app. cbn. lia. }
  pose proof (fork_table st g pi i src new s Hv Hp Hq Hlen Hi Es (proj1 (Hcl _ Hself))) as Hft.
  unfold clone_table. cbn zeta in Hft. destruct (allocate_pt_page st) as [st1 phys]. destruct Hft as [(H1 & H2 & H3 & H4 & H5) Hft].
  rewrite H1, H5. cbn [negb]. destruct Hft as [[-> ->]|(Hne & g1 & ET & EM & H)].
  { exists st, false, g. split_and!; [done|done|]. by apply forkrel_refl. }
  rewrite (proj2 (Z.eqb_neq _ _) Hne).
  assert (Hne1 : forall (j : nat) ka, under ((pi ++ [i]) ++ [j]) ka -> pi ++ [i] <> ka).
  { intros j ka [r ->] E. apply (f_equal length) in E. rewrite !length_app in E. cbn in E. lia. }
  destruct (Hb _ g1 s phys (fk_inv _ _ _ _ _ _ _ _ H)) as (st2 & b & g2 & -> & H').
  - exact (grown_forkrel _ _ _ _ _ _ _ _ _ Hpq Hg H).
  - rewrite ET, lookup_insert_ne by congruence. done.
  - rewrite ET. apply lookup_insert_eq.
  - intros j Hj ka Hk. rewrite ET, EM. rewrite lookup_insert_ne by (intros [= E]; by eapply Hne1). apply Hcl.
    etrans; [|exact Hk]. by exists [j].
  - exists st2, b, g2. split_and!; [done|done|]. change b with (true && b).
    eapply forkrel_mono; [| |eapply (forkrel_trans true b p q (eq (pi ++ [i])) (below_slots (pi ++ [i])) (fun ka => pi ++ [i] = ka \/ below_slots (pi ++ [i]) ka)); [|done|exact H|exact H']].
    + intros ka [<-|(j & _ & Hu)]; [done|]. etrans; [|exact Hu]. by exists [j].
    + intros _ ka Hk. pose proof Hk as [r ->]. destruct r as [|j r]; [left; left; by rewrite app_nil_r|].
      destruct (decide (j < 512)%nat) as [Hj|Hj]; [left; right; exists j; split; [by destruct pi|apply under_cons]|].
      destruct (gM g !! (p, (pi ++ [i]) ++ j :: r)) as [e|] eqn:E.
      * exfalso. destruct (map_slot live st g p (pi ++ [i]) j r e Hs E) as [Hj' _]. apply Hj. eapply slot_lt. exact Hj'.
      * right. split_and!; [|done|by apply Hclq]. intros [E1|(j' & Hj' & Hu)]; [by eapply (Hne1 j); [apply under_cons|]|].
        assert (j' = j) as -> by (eapply under_same; [exact Hu|apply under_cons]). apply Hj. eapply slot_lt. exact Hj'.
    + intros ka <- (j & _ & Hu). by eapply Hne1.
Qed.

(** *** The four levels *)

Lemma clones_pt base pi : length pi = 3%nat -> clones pi (fun src new => iter (clone_pt [] base src new) (seq 0 512)).
Proof.
  intros Hl. apply loop_clones; [|by destruct pi]. intros st g src new i Hv Hg Hp Hq Hi Hcl.
  destruct (fork_leaf base pi st g i src new) as (st' & g' & E & H); try done; [|by exists st', true, g'].
  apply Hcl. by exists []; rewrite app_nil_r.
Qed.

Lemma clones_pd base pi : length pi = 2%nat -> clones pi (fun src new => iter (clone_pd [] base src new) (seq 0 512)).
Proof.
  intros Hl. apply loop_clones; [|by destruct pi]. intros st g src new i Hv Hg Hp Hq Hi Hcl. unfold clone_pd. cbn zeta.
  destruct (fork_node st g pi i src new _ (clones_pt (Z.lor base (Z.shiftl (Z.of_nat i) 21)) (pi ++ [i]) ltac:(rewrite length_app; cbn; lia))
    ltac:(lia) Hv Hg Hp Hq Hi Hcl) as (st' & b & g' & E & Hps & H).
  exists st', b, g'. split; [|done]. destruct (has (word st src i) PAGE_PRESENT); [|done]. cbn [negb] in *. by rewrite Hps.
Qed.

Lemma clones_pdpt base pi : length pi = 1%nat -> clones pi (fun src new => iter (clone_pdpt [] base src new) (seq 0 512)).
Proof.
  intros Hl. apply loop_clones; [|by destruct pi]. intros st g src new i Hv Hg Hp Hq Hi Hcl. unfold clone_pdpt. cbn zeta.
  destruct (fork_node st g pi i src new _ (clones_pd (Z.lor base (Z.shiftl (Z.of_nat i) 30)) (pi ++ [i]) ltac:(rewrite length_app; cbn; lia))
    ltac:(lia) Hv Hg Hp Hq Hi Hcl) as (st' & b & g' & E & _ & H).
  by exists st', b, g'.
Qed.

Lemma clones_pml4 : clones [] (fun src new => iter (clone_pml4 [] src new) (seq 0 256)).
Proof.
  apply loop_clones; [|done]. intros st g src new i Hv Hg Hp Hq Hi Hcl. unfold clone_pml4. cbn zeta.
  destruct (fork_node st g [] i src new _ (clones_pdpt (Z.shiftl (Z.of_nat i) 39) ([] ++ [i]) eq_refl)
    ltac:(cbn; lia) Hv Hg Hp Hq Hi Hcl) as (st' & b & g' & E & _ & H).
  by exists st', b, g'.
Qed.

End Fork.

(** ** New address spaces *)

(** The kernel's root table belongs to no process. *)
Definition kernel_root (st : vm) (g : ghost) : Prop :=
  g_kernel_pml4_phys st ∈ gH g \/ ~ phys_page st (g_kernel_pml4_phys st).

Lemma create_spec st g st' q :
  vinv live st g -> mm_create_user_address_space st = (st', q) ->
  (q = 0 /\ st' = st) \/
  (q <> 0 /\ (forall ka, gT g !! (q, ka) = None /\ gM g !! (q, ka) = None) /\ phys_page st q /\ q ∉ gH g /\
   same_layout st st' /\ g_kernel_pml4_phys st' = g_kernel_pml4_phys st /\
   (forall f, f <> q -> page_words st' f = page_words st f) /\
   exists L, vinv live st' (mk_ghost (<[(q, []) := q]> (gT g)) (gM g) (gH g) L)).
Proof.
  intros Hv E. unfold mm_create_user_address_space in E. destruct (allocate_pt_page st) as [st1 f] eqn:Ea.
  pose proof (alloc_kernel_root _ _ _ Ea) as Ek.
  destruct (alloc_pt_inv _ _ _ _ _ Hv Ea) as [[-> ->]|(Hne & Hp & Hfree & Hlay & Efr & L & Hv1)]; [injection E as <- <-; by left|right].
  rewrite (proj2 (Z.eqb_neq _ _) Hne) in E. destruct Hv as (Hs & _ & _). destruct Hv1 as (Hs1 & Hc1 & Ha1).
  assert (HfH : f ∉ gH g) by (intros Hin; by destruct (sh_held _ _ _ Hs f Hin)).
  assert (EH : ({[f]} ∪ gH g) ∖ {[f]} = gH g) by (clear - HfH; set_solver).
  set (share := fun i st => if has (word st (g_kernel_pml4_phys st) i) PAGE_PRESENT then put_word f i (word st (g_kernel_pml4_phys st) i) st else st).
  assert (E' : st' = share 511%nat (share PHYS_MAP_PML4_INDEX st1) /\ q = f) by (by injection E as <- <-). destruct E' as [-> ->]. clear E.
  assert (Hshare : forall i s, (256 <= i)%nat -> shape live s (mk_ghost (gT g) (gM g) ({[f]} ∪ gH g) L) ->
    shape live (share i s) (mk_ghost (gT g) (gM g) ({[f]} ∪ gH g) L) /\ (forall j, (j < 256)%nat -> word (share i s) f j = word s f j) /\
    (forall x, x <> f -> page_words (share i s) x = page_words s x) /\ pm (share i s) = pm s /\ same_layout s (share i s) /\
    g_kernel_pml4_phys (share i s) = g_kernel_pml4_phys s /\ (forall x, free_frame s L x -> free_frame (share i s) L x)).
  { intros i s Hi Hsh. unfold share. destruct (has _ _); [|done]. split_and!; try done.
    - apply put_held; [done|]. set_solver.
    - intros j Hj. apply word_put_ne. right. lia.
    - intros x Hx. by apply words_put_ne. }
  destruct (Hshare PHYS_MAP_PML4_INDEX st1 ltac:(unfold PHYS_MAP_PML4_INDEX; lia) Hs1) as (S1 & W1 & P1 & M1 & L1 & K1 & F1).
  destruct (Hshare 511%nat _ ltac:(lia) S1) as (S2 & W2 & P2 & M2 & L2 & K2 & F2).
  set (st2 := share 511%nat (share PHYS_MAP_PML4_INDEX st1)) in *.
  destruct (new_root live st2 _ S2 f) as (S3 & N1 & N2); cbn [gT gM gH gL] in *; [by apply elem_of_union_l, elem_of_singleton| |].
  { intros j Hj. rewrite W2, W1, (word_zero_page st1 f j); [done|rewrite Efr; apply lookup_insert_eq|done|done]. }
  rewrite EH in S3.
  assert (Hl : same_layout st1 st2) by (by eapply same_layout_trans).
  split_and!; try done; [|congruence| |exists L; split_and!; [done|by rewrite M2, M1|]].
  - by eapply same_layout_trans.
  - intros x Hx. rewrite P2, P1 by done. unfold page_words. by rewrite Efr, lookup_insert_ne.
  - intros x Hx. rewrite (same_layout_page st1 st2) in Hx by done. cbn [gT gM gH gL].
    destruct (Ha1 x Hx) as [H|[[k Hk]|[H|H]]]; cbn [gT gM gH gL] in *; [left; by apply F2, F1| |by right; right; left|].
    + right. left. exists k. rewrite lookup_insert_ne; [done|]. intros <-. by pose proof (eq_trans (eq_sym (N1 [])) Hk).
    + destruct (decide (x = f)) as [->|Hne']; [right; left; eexists; apply lookup_insert_eq|]. right. right. right. by apply elem_of_union in H as [->%elem_of_singleton|].
Qed.

(** ** The loops of [mm_clone_address_space] *)

Lemma clone_tables p st g st1 q :
  vinv live st g -> gT g !! (p, []) = Some p -> (forall a, Z.of_nat (cnt (gM g) a) < 0x7FFF) ->
  mm_create_user_address_space st = (st1, q) -> q <> 0 ->
  exists st2 ok g2, iter (clone_pml4 [] p q) (seq 0 256) st1 = (st2, ok) /\ p <> q /\
    forkrel ok p q (fun _ => True) st st2 g g2 /\ gT g2 !! (q, []) = Some q /\ ~ free_frame st2 (gL g2) q /\
    (kernel_root st g -> kernel_root st2 g2 /\ q <> g_kernel_pml4_phys st2) /\ (forall ka, gT g !! (q, ka) = None /\ gM g !! (q, ka) = None).
Proof.
  intros Hv Hp Hroom E Hq. pose proof Hv as (Hs & _ & _).
  destruct (create_spec _ _ _ _ Hv E) as [[? _]|(_ & Hno & Hqp & HqH & Hlay & Hk & Hw & L & Hv1)]; [done|].
  assert (Hpq : p <> q) by (intros ->; by rewrite (proj1 (Hno [])) in Hp).
  set (g1 := mk_ghost (<[(q, []) := q]> (gT g)) (gM g) (gH g) L) in *.
  assert (Hg : grown p q (gM g) (gM g1)).
  { intros x ka e He. destruct (decide (x = q)) as [->|]; [cbn [gM g1] in He; by rewrite (proj2 (Hno ka)) in He|]. by exists e. }
  destruct (clones_pml4 p q Hpq (gM g) Hroom st1 g1 p q Hv1 Hg) as (st2 & b & g2 & E2 & H2); cbn [gT gM g1].
  - by rewrite lookup_insert_ne by congruence.
  - apply lookup_insert_eq.
  - intros i Hi ka Hk'. cbn [gT gM g1]. rewrite lookup_insert_ne; [apply Hno|]. intros [= <-]. by destruct Hk' as [r ?].
  - pose proof (fk_tables _ _ _ _ _ _ _ _ H2 (q, []) q (lookup_insert_eq _ _ _)) as Hqt.
    exists st2, b, g2. split_and!; try done.
    + pose proof H2 as [A1 A2 [A3 A3'] A4 A5 A6 A7 A8 A9]. split; try done.
      * split; [by eapply same_layout_trans|congruence].
      * intros k f Hk'. apply A4. cbn [gT g1]. rewrite lookup_insert_ne; [done|]. intros <-. by pose proof (eq_trans (eq_sym (proj1 (Hno []))) Hk').
      * intros x ka f [Hf|[-> _]]%A5; [|by right]. cbn [gT g1] in Hf. apply lookup_insert_Some in Hf as [[[= <- <-] _]|[_ Hf]]; [by right|by left].
      * intros Hb ka _. destruct (gM g !! (p, ka)) as [e|] eqn:Ep.
        -- destruct ka as [|i r]; [by apply (sh_leaf_path _ _ _ Hs) in Ep as ([|? ?] & ? & ? & _)|].
           apply (A7 Hb). exists i. destruct (map_slot _ st g p [] i r e Hs Ep) as [Hi _]. split; [done|by exists r].
        -- destruct (A6 ka) as [?|(_ & E1 & E3)]; [by left|]. left. rewrite E1, E3. cbn [gM g1]. by rewrite (proj2 (Hno ka)), Ep.
      * intros x ka [Hx|Hx]; [apply A8; by left|by destruct (Hx I)].
      * intros f Hf Hn. rewrite A9; [|by rewrite (same_layout_page st)|done]. apply Hw. intros ->. by apply (Hn (q, [])).
    + destruct (fk_inv _ _ _ _ _ _ _ _ H2) as (Hs2 & _ & _). by destruct (sh_table _ _ _ Hs2 _ _ Hqt) as (_ & ? & _).
    + intros Hkr. pose proof (fk_held _ _ _ _ _ _ _ _ H2) as EH. destruct (fk_layout _ _ _ _ _ _ _ _ H2) as [Hl2 Ek2]. cbn [gH g1] in EH.
      unfold kernel_root. rewrite EH, Ek2, Hk. rewrite (same_layout_page st1 st2), (same_layout_page st st1) by done.
      split; [done|]. intros ->. destruct Hkr; contradiction.
Qed.
