(* ===== verification/Destroy.v ===== *)
(** * Exit

    [mm_destroy_address_space] of the file Paging walks the tables of a process and
    gives up its pages and tables one by one.  An entry that has been dealt with
    still holds its old value; [dead_of] names these entries, and [killrel] says
    what a part of the work has done. *)

From Stdlib Require Import ZArith Lia Bool.
From stdpp Require Import base list gmap fin_maps.
From S2P Require Import Prelude Pmm Paging AddressSpace Fork.

Open Scope Z_scope.

(** ** Giving pages back *)

Lemma shape_dead (dead dead' : key -> Prop) st g : (forall k, dead k -> dead' k) -> shape dead st g -> shape dead' st g.
Proof.
  intros H Hs. split; try shape_of Hs.
  - intros p pi t i Ht Hl Hi Hd. apply (sh_node _ _ _ Hs p pi t i); auto.
  - intros p pi t i Ht Hl Hi Hd. apply (sh_leaf _ _ _ Hs p pi t i); auto.
Qed.

(** Every page but [f] is accounted for. *)
Definition accounted_but (f : Z) (st : vm) (g : ghost) : Prop :=
  forall x, phys_page st x ->
    x = f \/ free_frame st (gL g) x \/ (exists k, gT g !! k = Some x) \/ (exists k e, gM g !! k = Some e /\ pte_addr e = x) \/ x ∈ gH g.

(** Page [f] is neither a table, nor mapped, nor held. *)
Definition unowned (f : Z) (g : ghost) : Prop :=
  (forall k, gT g !! k <> Some f) /\ (forall k e, gM g !! k = Some e -> pte_addr e <> f) /\ f ∉ gH g.

Lemma free_refcounts s d x :
  pmm_ok s -> 0 <= d < total_pages s -> d ∉ pfree s -> is_Some (page_refcounts s) -> 0 <= x ->
  let s' := mm_free_physical_page (page_addr s d) s in
  refcount_at s' x = (if decide (x = d) then 0 else refcount_at s x) /\ is_Some (page_refcounts s') /\
  total_pages s' = total_pages s /\ memory_start s' = memory_start s.
Proof.
  intros Hok Hd Hn [rl Hrl] Hx s'. destruct (mm_free_spec s d Hok Hd) as (_ & _ & E). fold s' in E.
  destruct (is_page_allocated s d) eqn:Ea; [|by destruct Hn; apply elem_of_pfree]. rewrite E. unfold released. cbn zeta.
  set (s1 := set_free _ _). set (s2 := if d <? g_alloc_hint s1 then set_hint d s1 else s1).
  assert (Es2 : page_refcounts s2 = Some rl /\ total_pages s2 = total_pages s /\ memory_start s2 = memory_start s /\ refcount_at s2 x = refcount_at s x)
    by (unfold s2; destruct (d <? g_alloc_hint s1); by cbn).
  destruct Es2 as (E1 & E2 & E3 & E4). pose proof (po_refs s Hok rl Hrl) as Hl.
  rewrite (refcount_put s2 d x 0 rl E1 ltac:(lia) Hx), E4. split_and!; try done. cbn. rewrite E1. by eexists.
Qed.

Lemma release dead st g d :
  shape dead st g -> counted (pm st) (gM g) -> 0 <= d < total_pages (pm st) -> d ∉ pfree (pm st) -> refcount_at (pm st) d = 0 ->
  unowned (page_addr (pm st) d) g -> accounted_but (page_addr (pm st) d) st g ->
  vinv dead (set_pm (mm_free_physical_page (page_addr (pm st) d) (pm st)) st) g.
Proof.
  intros Hs Hc Hd Hn Hr0 (U1 & U2 & U3) Ha. set (s' := mm_free_physical_page _ _).
  destruct (mm_free_spec (pm st) d (sh_pmm _ _ _ Hs) Hd) as (Hok & Hfr & _). fold s' in Hok, Hfr.
  pose proof (fun x Hx => free_refcounts (pm st) d x (sh_pmm _ _ _ Hs) Hd Hn (sh_refs _ _ _ Hs) Hx) as Hr. fold s' in Hr. cbn zeta in Hr.
  destruct (Hr 0 ltac:(lia)) as (_ & Hrefs & E1 & E2).
  assert (Hl : same_layout st (set_pm s' st)) by (unfold same_layout; cbn; by rewrite E1, E2).
  assert (Epa : forall x, page_addr s' x = page_addr (pm st) x) by (intros x; unfold page_addr; by rewrite E2).
  assert (Hfree : forall x, free_frame (set_pm s' st) (gL g) x <-> x = page_addr (pm st) d \/ free_frame st (gL g) x).
  { intros x. unfold free_frame. cbn [pm set_pm pt_pool_next pt_pool_size]. rewrite Hfr. setoid_rewrite elem_of_union. setoid_rewrite elem_of_singleton.
    setoid_rewrite Epa. change (pool_page (set_pm s' st)) with (pool_page st). naive_solver. }
  split_and!.
  - split; cbn [set_pm pm]; try shape_of Hs.
    + rewrite E2. exact (sh_layout _ _ _ Hs).
    + intros f Hf. apply (sh_mem _ _ _ Hs). by rewrite (same_layout_page st) in Hf.
    + destruct (sh_list _ _ _ Hs) as (HL1 & HL2 & HL3). split_and!; [by apply (flist_ext st (set_pm s' st))|done|done].
    + intros k f Hk. rewrite Hfree, (same_layout_page st) by done. destruct (sh_table _ _ _ Hs k f Hk) as (H1 & H2 & H3).
      split_and!; [done| |done]. intros [->|?]; [by apply (U1 k)|done].
    + intros f Hf. rewrite Hfree, (same_layout_page st) by done. destruct (sh_held _ _ _ Hs f Hf) as [H1 H2].
      split; [done|]. intros [->|?]; done.
    + intros k e Hk. destruct (sh_data _ _ _ Hs k e Hk) as (H1 & H2 & (x & Hx & Hxn & Ex) & H4). split_and!; try done; try apply H4.
      exists x. rewrite E1, Epa, Hfr. split_and!; try done; try apply Hx. apply not_elem_of_union. split; [done|].
      intros ->%elem_of_singleton. by apply (U2 k e).
  - cbn [pm set_pm]. apply (counted_ext (pm st)); [done|done| |done]. intros x Hx. rewrite (proj1 (Hr x ltac:(lia))).
    by destruct (decide (x = d)) as [->|].
  - intros x Hx. rewrite (same_layout_page st) in Hx by done. rewrite Hfree. destruct (Ha x Hx) as [->|[H|H]]; auto.
Qed.

(** ** Dropping a mapping *)

Lemma shape_unmap dead (dead' : key -> Prop) st g k :
  shape dead st g -> (forall k, dead k -> dead' k) -> dead' k -> shape dead' st (mk_ghost (gT g) (delete k (gM g)) (gH g) (gL g)).
Proof.
  intros Hs Hd Hk. apply (shape_dead dead dead') in Hs; [|done]. split; cbn [gT gM gH gL]; try shape_of Hs.
  - intros p ka e He. apply lookup_delete_Some in He as [_ He]. by apply (sh_leaf_path _ _ _ Hs) in He.
  - intros p pi t i Ht Hl Hi Hn. rewrite lookup_delete_ne by (intros ->; done). by apply (sh_leaf _ _ _ Hs p pi).
  - intros k' e He. apply lookup_delete_Some in He as [_ He]. by apply (sh_data _ _ _ Hs k').
Qed.

Lemma drop_map dead (dead' : key -> Prop) st g k e :
  vinv dead st g -> gM g !! k = Some e -> (forall k, dead k -> dead' k) -> dead' k ->
  vinv dead' (drop_page (pte_addr e) st) (mk_ghost (gT g) (delete k (gM g)) (gH g) (gL g)).
Proof.
  intros (Hs & Hc & Ha) Hk Hd Hdk. pose proof (sh_pmm _ _ _ Hs) as Hok. destruct (sh_refs _ _ _ Hs) as [rl Hrl].
  destruct (sh_data _ _ _ Hs _ _ Hk) as (E1 & E2 & (d & Hdr & Hdf & Ed) & E4 & E5).
  pose proof (shape_unmap dead dead' st g k Hs Hd Hdk) as Hs'. set (g' := mk_ghost _ _ _ _) in *.
  pose proof (fun a => cnt_delete (gM g) k e a Hk) as Hcnt. pose proof (co_count _ _ Hc d Hdr) as Hrc. cbn zeta in Hrc.
  assert (Hd1 : cnt (gM g) (page_addr (pm st) d) = S (cnt (gM g') (page_addr (pm st) d))).
  { rewrite (Hcnt (page_addr (pm st) d)). unfold one_if. by rewrite decide_True. }
  assert (Hput : forall v, v = Z.of_nat (cnt (gM g') (page_addr (pm st) d)) -> counted (put_refcount d v (pm st)) (gM g')).
  { intros v Hv. apply (counted_put (pm st) (gM g)); try done; cbn [gM g'].
    - intros x Hx Hne. rewrite (Hcnt (page_addr (pm st) x)). unfold one_if. rewrite decide_False; [done|]. rewrite Ed. intros ?%page_addr_inj. congruence.
    - by left.
    - intros k' e' [_ Hk']%lookup_delete_Some. done.
    - intros k' e' Hk' _ Ee. rewrite Hv. rewrite <- Ee. pose proof (cnt_pos (gM g') k' e' Hk'). lia.
    - intros k' e' Hk' Hw. pose proof (cnt_pos (gM g') k' e' Hk'). apply lookup_delete_Some in Hk' as [_ Hk'].
      pose proof (co_excl _ _ Hc k' e' Hk' Hw) as H1. rewrite (Hcnt (pte_addr e')) in H1. cbn [gM g'] in *. lia. }
  assert (Hacc : accounted_but (page_addr (pm st) d) st g').
  { intros x Hx. cbn [gT gM gH gL g']. destruct (Ha x Hx) as [H|[H|[(k' & e' & Hk' & Ee)|H]]]; [by auto|by auto| |by auto].
    destruct (decide (k' = k)) as [->|Hne]; [left; congruence|]. do 3 right. left. exists k', e'. by rewrite lookup_delete_ne. }
  assert (Hun : cnt (gM g') (page_addr (pm st) d) = 0%nat -> unowned (page_addr (pm st) d) g').
  { intros H0. split_and!; cbn [gT gM gH g']; [by rewrite <- Ed|..|by rewrite <- Ed].
    intros k' e' Hk' Ee. pose proof (cnt_pos (gM g') k' e' Hk') as H. rewrite Ee in H. lia. }
  rewrite Ed. unfold drop_page. rewrite (decref_page _ Hok d Hdr). destruct (Z.eqb_spec (refcount_at (pm st) d) 0) as [E0|E0].
  - apply release; try done; [|by apply Hun; lia]. apply (counted_ext (put_refcount d 0 (pm st))); [done|done| |apply Hput; lia].
    intros x Hx. rewrite (put_refcount_at _ Hok d Hdr rl Hrl) by (cbn in Hx; lia). by destruct (decide (x = d)) as [->|].
  - destruct (Z.eqb_spec (refcount_at (pm st) d) 1) as [E1'|E1'].
    + rewrite E1'. set (st1 := set_pm (put_refcount d (1 - 1) (pm st)) st).
      change (vinv dead' (set_pm (mm_free_physical_page (page_addr (pm st1) d) (pm st1)) st1) g').
      apply release; try done; [by apply shape_refcount|by apply Hput; lia| |by apply Hun; lia].
      cbn [pm st1 set_pm]. rewrite (put_refcount_at _ Hok d Hdr rl Hrl) by lia. by rewrite decide_True.
    + split_and!; [by apply shape_refcount|by apply Hput; lia|]. intros x Hx. destruct (Hacc x Hx) as [->|H]; [|done].
      right. right. left. assert (Hpos : (0 < cnt (gM g') (page_addr (pm st) d))%nat) by lia. unfold cnt in Hpos.
      destruct (map_choose (filter (fun kv : key * Z => pte_addr kv.2 = page_addr (pm st) d) (gM g'))) as (k' & e' & [H1 H2]%map_lookup_filter_Some).
      * intros Hem. rewrite Hem, map_size_empty in Hpos. lia.
      * by exists k', e'.
Qed.

(** ** Giving up a table *)

Lemma unlink_table dead st g q pi f :
  shape dead st g -> gT g !! (q, pi) = Some f ->
  (forall i, gT g !! (q, pi ++ [i]) = None /\ gM g !! (q, pi ++ [i]) = None) -> pi = [] \/ dead (q, pi) ->
  shape dead st (mk_ghost (delete (q, pi) (gT g)) (gM g) (gH g) (gL g)).
Proof.
  intros Hs Hf Hch Hd.
  assert (Hkeep : forall p pi' i, is_Some (gT g !! (p, pi')) -> gT g !! (p, pi' ++ [i]) <> None \/ gM g !! (p, pi' ++ [i]) <> None ->
    is_Some (delete (q, pi) (gT g) !! (p, pi'))).
  { intros p pi' i [t Ht] Hx. rewrite lookup_delete_ne; [by eexists|]. intros [= <- <-]. destruct (Hch i) as [E1 E2]. by destruct Hx. }
  split; cbn [gT gM gH gL]; try shape_of Hs.
  - intros p x [_ Hx]%lookup_delete_Some. by apply (sh_root _ _ _ Hs).
  - intros p pi' i x [_ Hx]%lookup_delete_Some. destruct (sh_path _ _ _ Hs _ _ _ _ Hx) as (H1 & H2 & H3). split_and!; [done|done|].
    apply (Hkeep p pi' i H3). left. congruence.
  - intros p ka e He. destruct (sh_leaf_path _ _ _ Hs p ka e He) as (pi' & i & -> & H1 & H2 & H3). exists pi', i. split_and!; try done.
    apply (Hkeep p pi' i H3). right. congruence.
  - intros k k' x [_ Hk]%lookup_delete_Some [_ Hk']%lookup_delete_Some. by apply (sh_inj _ _ _ Hs k k' x).
  - intros k x [_ Hk]%lookup_delete_Some. by apply (sh_table _ _ _ Hs k).
  - intros p pi' t i [_ Ht]%lookup_delete_Some Hl Hi Hn. rewrite lookup_delete_ne; [by apply (sh_node _ _ _ Hs p pi')|].
    intros [= <- ->]. destruct Hd as [E|?]; [by destruct pi'|done].
  - intros p pi' t i [_ Ht]%lookup_delete_Some Hl Hi Hn. by apply (sh_leaf _ _ _ Hs p pi').
  - intros k e Hk. destruct (sh_data _ _ _ Hs k e Hk) as (H1 & H2 & H3 & H4 & H5). split_and!; try done.
    intros k' [_ Hk']%lookup_delete_Some. by apply (H5 k').
Qed.

Lemma push_pool dead st g i :
  let f := pool_page st i in
  shape dead st g -> counted (pm st) (gM g) -> 0 <= i < pt_pool_next st -> f ∉ gL g -> unowned f g -> accounted_but f st g ->
  vinv dead (set_pool (pt_pool_next st) f (put_word f 0 (pt_pool_freelist st) st)) (mk_ghost (gT g) (gM g) (gH g) (f :: gL g)).
Proof.
  intros f Hs Hc Hi HfL (U1 & U2 & U3) Ha. pose proof (sh_layout _ _ _ Hs) as (G1 & G2 & G3 & G4).
  set (st' := set_pool _ _ _).
  assert (Hp : phys_page st f) by (left; exists i; split; [lia|done]).
  assert (Hw : forall x j, x <> f -> word st' x j = word st x j) by (intros x j Hx; change (word st' x j) with (word (put_word f 0 (pt_pool_freelist st) st) x j); apply word_put_ne; by left).
  assert (Hfree : forall x, free_frame st' (f :: gL g) x <-> x = f \/ free_frame st (gL g) x).
  { intros x. unfold free_frame. rewrite elem_of_cons. change (pt_pool_next st') with (pt_pool_next st). change (pt_pool_size st') with (pt_pool_size st).
    change (pool_page st') with (pool_page st). change (pm st') with (pm st). tauto. }
  assert (HT : forall k t, gT g !! k = Some t -> t <> f) by (intros k t Hk ->; by apply (U1 k)).
  split_and!; [|done|].
  - split; cbn [gT gM gH gL]; try shape_of Hs.
    + intros x Hx. change (frames st') with (frames (put_word f 0 (pt_pool_freelist st) st)). apply put_word_mem. by apply (sh_mem _ _ _ Hs).
    + destruct (sh_list _ _ _ Hs) as (HL1 & HL2 & HL3). split_and!.
      * split; [done|]. change (word st' f 0) with (word (put_word f 0 (pt_pool_freelist st) st) f 0). rewrite word_put_eq by (by apply (sh_mem _ _ _ Hs) || lia).
        apply (flist_ext st st'); [|done]. intros x Hx. apply Hw. by intros ->.
      * by apply NoDup_cons.
      * intros x [->|Hx]%elem_of_cons; [by exists i|by apply HL3].
    + intros k x Hk. rewrite Hfree. destruct (sh_table _ _ _ Hs k x Hk) as (H1 & H2 & H3). split_and!; [done| |done].
      intros [->|?]; [by apply (U1 k)|done].
    + intros x Hx. rewrite Hfree. destruct (sh_held _ _ _ Hs x Hx) as [H1 H2]. split; [done|]. by intros [->|?].
    + intros p pi t j Ht Hl Hj Hn. rewrite Hw by (by eapply HT). by apply (sh_node _ _ _ Hs p pi).
    + intros p pi t j Ht Hl Hj Hn. rewrite Hw by (by eapply HT). by apply (sh_leaf _ _ _ Hs p pi).
  - intros x Hx. rewrite Hfree. cbn [gT gM gH gL]. destruct (Ha x Hx) as [->|[H|H]]; auto.
Qed.

Lemma free_table dead st g q pi f :
  vinv dead st g -> gT g !! (q, pi) = Some f ->
  (forall i, gT g !! (q, pi ++ [i]) = None /\ gM g !! (q, pi ++ [i]) = None) -> pi = [] \/ dead (q, pi) ->
  exists L, vinv dead (free_pt_page f st) (mk_ghost (delete (q, pi) (gT g)) (gM g) (gH g) L).
Proof.
  intros (Hs & Hc & Ha) Hf Hch Hd. pose proof (unlink_table dead st g q pi f Hs Hf Hch Hd) as Hs'. set (g' := mk_ghost _ _ _ _) in Hs'.
  pose proof (sh_layout _ _ _ Hs) as (G1 & G2 & G3 & G4). destruct (sh_table _ _ _ Hs _ _ Hf) as (Hp & Hnf & HfH).
  assert (Hun : unowned f g').
  { split_and!; cbn [gT gM gH g']; [|..|done].
    - intros k [Hne Hk]%lookup_delete_Some. apply Hne. by apply (sh_inj _ _ _ Hs _ _ f).
    - intros k e Hk E. destruct (sh_data _ _ _ Hs k e Hk) as (_ & _ & _ & _ & H5). apply (H5 (q, pi)). by rewrite E. }
  assert (Hacc : accounted_but f st g').
  { intros x Hx. cbn [gT gM gH gL g']. destruct (Ha x Hx) as [H|[[k Hk]|H]]; [by auto| |by auto].
    destruct (decide (k = (q, pi))) as [->|Hne]; [left; by pose proof (eq_trans (eq_sym Hk) Hf) as [= ->]|]. right. right. left. exists k. by rewrite lookup_delete_ne. }
  pose proof (phys_page_frame _ _ _ Hs f Hp) as [_ Hpos]. unfold free_pt_page. rewrite (proj2 (Z.eqb_neq f 0)) by lia.
  pose proof (po_range _ (sh_pmm _ _ _ Hs)) as Hr. pose proof (po_total _ (sh_pmm _ _ _ Hs)) as Ht.
  rewrite (u64_small (pt_pool_phys_start st + _)) by (unfold pool_page, PAGE_SIZE in *; lia).
  destruct Hp as [(i & Hi & ->)|(d & Hdr & ->)].
  - replace (_ && _) with true by (symmetry; apply andb_true_iff; unfold pool_page, PAGE_SIZE; lia).
    exists (pool_page st i :: gL g'). apply (push_pool dead st g' i); try done.
    + split; [lia|]. destruct (Z.lt_ge_cases i (pt_pool_next st)); [done|]. exfalso. apply Hnf. right. left. exists i. split; [lia|done].
    + intros Hin. apply Hnf. by left.
  - replace (_ && _) with false by (symmetry; apply andb_false_iff; right; unfold page_addr, pool_page, PAGE_SIZE in *; lia).
    exists (gL g'). apply release; try done.
    + intros Hin. apply Hnf. right. right. by exists d.
    + assert (E0 : cnt (gM g) (page_addr (pm st) d) = 0%nat) by (apply cnt_zero; by apply (proj1 (proj2 Hun))).
      pose proof (co_count _ _ Hc d Hdr) as Hcc. cbn zeta in Hcc. lia.
Qed.

(** ** The walk *)

Definition dead_of (q : Z) (D : list nat -> Prop) (k : key) : Prop := k.1 = q /\ D k.2.

(** Process [q] has lost everything below the paths [D]; entries at [D0] had been
    dealt with before. *)
Record killrel (q : Z) (D0 D : list nat -> Prop) (st st' : vm) (g g' : ghost) : Prop := {
  kl_inv : vinv (dead_of q (fun ka => D0 ka \/ D ka)) st' g';
  kl_held : gH g' = gH g;
  kl_layout : same_layout st st' /\ g_kernel_pml4_phys st' = g_kernel_pml4_phys st;
  kl_gone : forall ka, D ka -> gT g' !! (q, ka) = None /\ gM g' !! (q, ka) = None;
  kl_keep : forall x ka, x <> q \/ ~ D ka -> gT g' !! (x, ka) = gT g !! (x, ka) /\ gM g' !! (x, ka) = gM g !! (x, ka);
  kl_data : forall f, (forall ka, gT g !! (q, ka) <> Some f) -> page_words st' f = page_words st f;
}.

Lemma vinv_dead (dead dead' : key -> Prop) st g : (forall k, dead k -> dead' k) -> vinv dead st g -> vinv dead' st g.
Proof. intros H (Hs & ?). split; [|done]. by eapply shape_dead. Qed.

Lemma killrel_trans q (D0 D1 D2 D : list nat -> Prop) st st1 st2 g g1 g2 :
  (forall ka, D1 ka -> D2 ka -> False) -> (forall ka, D ka <-> D1 ka \/ D2 ka) ->
  killrel q D0 D1 st st1 g g1 -> killrel q (fun ka => D0 ka \/ D1 ka) D2 st1 st2 g1 g2 -> killrel q D0 D st st2 g g2.
Proof.
  intros Hdis HD [A1 A2 [A3 A3'] A4 A5 A6] [B1 B2 [B3 B3'] B4 B5 B6].
  split; [|by rewrite B2|split; [by eapply same_layout_trans|by rewrite B3']|..].
  - eapply vinv_dead; [|exact B1]. intros k [E H]. split; [done|]. rewrite HD. tauto.
  - intros ka [H|H]%HD; [|by apply B4]. assert (Hn : ~ D2 ka) by (intros ?; by eapply Hdis).
    destruct (B5 q ka (or_intror Hn)) as [-> ->]. by apply A4.
  - intros x ka Hx. destruct (B5 x ka) as [-> ->]; [destruct Hx as [|Hx]; [by left|right; intros ?; apply Hx, HD; by right]|].
    apply A5. destruct Hx as [|Hx]; [by left|right; intros ?; apply Hx, HD; by left].
  - intros f Hf. rewrite B6, A6; [done|done|]. intros ka Hk.
    assert (Hn : ~ D1 ka) by (intros H; destruct (A4 ka H) as [E _]; congruence).
    rewrite (proj1 (A5 q ka (or_intror Hn))) in Hk. by apply (Hf ka).
Qed.

Lemma killrel_mono q (D0 D D' : list nat -> Prop) st st' g g' :
  (forall ka, D ka -> D' ka) -> (forall ka, D' ka -> D ka \/ (gT g' !! (q, ka) = None /\ gM g' !! (q, ka) = None)) ->
  killrel q D0 D st st' g g' -> killrel q D0 D' st st' g g'.
Proof.
  intros H1 H2 [A1 A2 A3 A4 A5 A6]. split; try done.
  - eapply vinv_dead; [|exact A1]. intros k [E [H|H]]; split; auto.
  - intros ka [H|H]%H2; [by apply A4|done].
  - intros x ka Hx. apply A5. destruct Hx as [|Hx]; [by left|right; intros ?; by apply Hx, H1].
Qed.

Section Destroy.
Variable q : Z.

Definition body_kills (pi : list nat) (body : Z -> vm -> nat -> vm) : Prop :=
  forall D0 st g t i, vinv (dead_of q D0) st g -> gT g !! (q, pi) = Some t -> slot_ok pi i ->
    (forall ka, under (pi ++ [i]) ka -> ~ D0 ka) ->
    exists g', killrel q D0 (under (pi ++ [i])) st (body t st i) g g'.

Definition kills (pi : list nat) (f : Z -> vm -> vm) : Prop :=
  forall D0 st g t, vinv (dead_of q D0) st g -> gT g !! (q, pi) = Some t ->
    (forall i ka, under (pi ++ [i]) ka -> ~ D0 ka) ->
    exists g', killrel q D0 (below_slots pi) st (f t st) g g'.

Lemma under_app_ne pi i : ~ under (pi ++ [i]) pi.
Proof. intros [r E]. apply (f_equal length) in E. rewrite !length_app in E. cbn in E. lia. Qed.

Lemma fold_kills pi body : body_kills pi body -> forall ixs D0 st g t,
  NoDup ixs -> (forall i, i ∈ ixs -> slot_ok pi i) -> vinv (dead_of q D0) st g -> gT g !! (q, pi) = Some t ->
  (forall i ka, i ∈ ixs -> under (pi ++ [i]) ka -> ~ D0 ka) ->
  exists g', killrel q D0 (fun ka => exists i, i ∈ ixs /\ under (pi ++ [i]) ka) st (foldl (body t) st ixs) g g'.
Proof.
  intros Hb ixs. induction ixs as [|i ixs IH]; intros D0 st g t Hnd Hok Hv Ht Hcl; cbn [foldl].
  { exists g. split; try done; [eapply vinv_dead; [|exact Hv]; intros k [E H]; by split; auto|].
    intros ka (i & Hi & _). by apply not_elem_of_nil in Hi. }
  apply NoDup_cons in Hnd as [Hni Hnd].
  destruct (Hb D0 st g t i Hv Ht ltac:(apply Hok; left) (fun ka => Hcl i ka ltac:(left))) as (g1 & H1).
  destruct (IH (fun ka => D0 ka \/ under (pi ++ [i]) ka) (body t st i) g1 t) as (g2 & H2); try done.
  - intros j Hj. apply Hok. by right.
  - exact (kl_inv _ _ _ _ _ _ _ H1).
  - by rewrite (proj1 (kl_keep _ _ _ _ _ _ _ H1 q pi (or_intror (under_app_ne pi i)))).
  - intros j ka Hj Hu [H|H]; [by apply (Hcl j ka); [right|..]|]. by rewrite (under_same _ _ _ _ H Hu) in Hni.
  - exists g2. eapply (killrel_trans q D0 (under (pi ++ [i])) (fun ka => exists j, j ∈ ixs /\ under (pi ++ [j]) ka)); [| |done|done].
    + intros ka Hu (j & Hj & Hu'). by rewrite (under_same _ _ _ _ Hu Hu') in Hni.
    + intros ka. setoid_rewrite elem_of_cons. naive_solver.
Qed.

Lemma loop_kills pi body n :
  body_kills pi body -> n = match pi with [] => 256%nat | _ => 512%nat end -> kills pi (fun t st => foldl (body t) st (seq 0 n)).
Proof.
  intros Hb Hn D0 st g t Hv Ht Hcl.
  assert (Hseq : forall i, i ∈ seq 0 n <-> slot_ok pi i) by (intros i; rewrite elem_of_seq, Hn; unfold slot_ok; destruct pi; lia).
  destruct (fold_kills pi body Hb (seq 0 n) D0 st g t) as (g' & H); try done.
  - apply NoDup_seq.
  - intros i Hi. by apply Hseq.
  - intros i ka _. apply Hcl.
  - exists g'. eapply killrel_mono; [| |exact H].
    + intros ka (i & Hi & Hu). exists i. split; [by apply Hseq|done].
    + intros ka (i & Hi & Hu). left. exists i. split; [by apply Hseq|done].
Qed.

(** *** Pages *)

Lemma free_layout a s : total_pages (mm_free_physical_page a s) = total_pages s /\ memory_start (mm_free_physical_page a s) = memory_start s.
Proof. unfold mm_free_physical_page. cbn zeta. repeat case_if; done. Qed.

Lemma drop_layout a st : same_layout st (drop_page a st).
Proof.
  unfold drop_page, mm_decref_page, same_layout. cbn zeta. repeat case_if; cbn [set_pm pm pt_pool_phys_start pt_pool_size];
    rewrite ?(proj1 (free_layout a _)), ?(proj2 (free_layout a _)); done.
Qed.

Lemma drop_kernel a st : g_kernel_pml4_phys (drop_page a st) = g_kernel_pml4_phys st /\ frames (drop_page a st) = frames st.
Proof. unfold drop_page. destruct (mm_decref_page a (pm st)). done. Qed.

Lemma kill_leaf pi : length pi = 3%nat ->
  body_kills pi (fun pt st l => let e := word st pt l in if has e PAGE_PRESENT then drop_entry e (pte_addr e) st else st).
Proof.
  intros Hlen D0 st g t i Hv Ht Hi Hcl. pose proof Hv as (Hs & _ & _). cbn zeta.
  assert (Hself : under (pi ++ [i]) (pi ++ [i])) by (by exists []; rewrite app_nil_r).
  pose proof (sh_leaf _ _ _ Hs q pi t i Ht Hlen Hi ltac:(intros [_ H]; by apply (Hcl _ Hself))) as Hw.
  pose proof (fun ka => below_leaf _ st g q pi i ka Hs Hlen) as Hb.
  destruct (gM g !! (q, pi ++ [i])) as [e|] eqn:He.
  - destruct (sh_data _ _ _ Hs _ _ He) as (E1 & E2 & _). rewrite Hw, E1. unfold drop_entry. rewrite E2.
    exists (mk_ghost (gT g) (delete (q, pi ++ [i]) (gM g)) (gH g) (gL g)). split; cbn [gT gM gH]; try done.
    + eapply drop_map; [exact Hv|done| |]; [intros k [E H]; split; auto|split; [done|by right]].
    + split; [apply drop_layout|apply drop_kernel].
    + intros ka Hu. destruct (Hb ka Hu) as [-> H]. split; [done|]. destruct (decide (ka = pi ++ [i])) as [->|Hne]; [apply lookup_delete_eq|].
      rewrite lookup_delete_ne by congruence. by apply H.
    + intros x ka Hx. split; [done|]. rewrite lookup_delete_ne; [done|]. intros [= <- <-]. by destruct Hx.
    + intros f _. unfold page_words. by rewrite (proj2 (drop_kernel _ _)).
  - rewrite Hw. exists g. split; try done.
    + eapply vinv_dead; [|exact Hv]. intros k [E H]; split; auto.
    + intros ka Hu. destruct (Hb ka Hu) as [-> H]. split; [done|]. by destruct (decide (ka = pi ++ [i])) as [->|Hne]; [|apply H].
Qed.

(** *** Tables *)

Lemma free_pt_layout f st : same_layout st (free_pt_page f st) /\ g_kernel_pml4_phys (free_pt_page f st) = g_kernel_pml4_phys st.
Proof.
  unfold free_pt_page, same_layout. repeat case_if; cbn [set_pm pm pt_pool_phys_start pt_pool_size set_pool put_word set_frames];
    rewrite ?(proj1 (free_layout f _)), ?(proj2 (free_layout f _)); done.
Qed.

Lemma free_pt_words f st x : x <> f -> page_words (free_pt_page f st) x = page_words st x.
Proof. intros Hx. unfold free_pt_page. repeat case_if; try done. by apply words_put_ne. Qed.

(** The subtree of table [s] at [pi], and the table. *)
Lemma kill_table D0 st g pi s f :
  kills pi f -> vinv (dead_of q D0) st g -> gT g !! (q, pi) = Some s -> (forall i ka, under (pi ++ [i]) ka -> ~ D0 ka) ->
  exists g', killrel q D0 (under pi) st (free_pt_page s (f s st)) g g'.
Proof.
  intros Hf Hv Hs Hcl. destruct (Hf D0 st g s Hv Hs Hcl) as (g1 & H). destruct (kl_inv _ _ _ _ _ _ _ H) as (Hs1 & _ & _).
  assert (Hself : under pi pi) by (by exists []; rewrite app_nil_r).
  assert (Hbelow : forall j r, gT g1 !! (q, pi ++ j :: r) = None /\ gM g1 !! (q, pi ++ j :: r) = None).
  { intros j r. assert (Hg : slot_ok pi j -> gT g1 !! (q, pi ++ j :: r) = None /\ gM g1 !! (q, pi ++ j :: r) = None).
    { intros Hj. apply (kl_gone _ _ _ _ _ _ _ H). exists j. split; [done|apply under_cons]. }
    split.
    - destruct (gT g1 !! (q, pi ++ j :: r)) as [x|] eqn:E; [|done]. apply Hg.
      destruct (table_prefix _ _ g1 q (pi ++ [j]) r x Hs1) as [u Hu]; [by rewrite <- app_assoc|]. by destruct (sh_path _ _ _ Hs1 _ _ _ _ Hu) as (_ & ? & _).
    - destruct (gM g1 !! (q, pi ++ j :: r)) as [x|] eqn:E; [|done]. apply Hg. by destruct (map_slot _ _ g1 q pi j r x Hs1 E). }
  assert (Hnb : ~ below_slots pi pi) by (intros (i & _ & Hu); by apply under_app_ne in Hu).
  assert (Hs' : gT g1 !! (q, pi) = Some s) by (by rewrite (proj1 (kl_keep _ _ _ _ _ _ _ H q pi (or_intror Hnb)))).
  destruct (free_table (dead_of q (fun ka => D0 ka \/ under pi ka)) (f s st) g1 q pi s) as (L & Hv2); try done.
  - eapply vinv_dead; [|exact (kl_inv _ _ _ _ _ _ _ H)]. intros k [E [Hk|(i & _ & Hu)]]; split; auto. right. etrans; [|exact Hu]. by exists [i].
  - right. split; [done|by right].
  - destruct (kl_layout _ _ _ _ _ _ _ H) as [Hl Hk]. destruct (free_pt_layout s (f s st)) as [Hl' Hk'].
    eexists. split; [exact Hv2|..]; cbn [gT gM gH].
    + exact (kl_held _ _ _ _ _ _ _ H).
    + split; [by eapply same_layout_trans|congruence].
    + intros ka [r ->]. destruct r as [|j r]; [rewrite app_nil_r, lookup_delete_eq; split; [done|]|].
      * destruct (gM g1 !! (q, pi)) as [e|] eqn:E; [|done]. destruct (sh_leaf_path _ _ _ Hs1 _ _ _ E) as (pi' & i & -> & Hl4 & _).
        by destruct (below_leaf _ _ g1 q pi' i (pi' ++ [i]) Hs1 Hl4 Hself) as [? _]; congruence.
      * rewrite lookup_delete_ne; [apply Hbelow|]. intros [= E]. apply (f_equal length) in E. rewrite length_app in E. cbn in E. lia.
    + intros x ka Hx. rewrite lookup_delete_ne by (intros [= <- <-]; by destruct Hx). apply (kl_keep _ _ _ _ _ _ _ H).
      destruct Hx as [|Hx]; [by left|right]. intros (i & _ & Hu). apply Hx. etrans; [|exact Hu]. by exists [i].
    + intros x Hx. rewrite free_pt_words; [by apply (kl_data _ _ _ _ _ _ _ H)|]. intros ->. by apply (Hx pi).
Qed.

Lemma kill_node pi f (body : Z -> vm -> nat -> vm) : (length pi < 3)%nat -> (forall i, kills (pi ++ [i]) f) ->
  (forall t st i, let e := word st t i in
     (has e PAGE_PRESENT = false -> body t st i = st) /\
     (has e PAGE_PRESENT = true -> has e PAGE_SIZE_FLAG = false -> body t st i = free_pt_page (pte_addr e) (f (pte_addr e) st))) ->
  body_kills pi body.
Proof.
  intros Hlen Hf Hbody D0 st g t i Hv Ht Hi Hcl. pose proof Hv as (Hs & _ & _). cbn zeta.
  assert (Hself : under (pi ++ [i]) (pi ++ [i])) by (by exists []; rewrite app_nil_r).
  pose proof (sh_node _ _ _ Hs q pi t i Ht Hlen Hi ltac:(intros [_ H]; by apply (Hcl _ Hself))) as Hw.
  destruct (gT g !! (q, pi ++ [i])) as [s|] eqn:Es.
  - destruct Hw as (H1 & H2 & _ & _ & H5). rewrite (proj2 (Hbody t st i)), H5 by done. apply kill_table; try done.
    intros j ka Hu. apply Hcl. etrans; [|exact Hu]. by exists [j].
  - rewrite (proj1 (Hbody t st i)) by done. exists g. split; try done.
    + eapply vinv_dead; [|exact Hv]. intros k [E H]; split; auto.
    + intros ka Hu. split; [|eapply (no_table_no_map _ st g q (pi ++ [i]) ka Hs); [rewrite length_app; cbn; lia|done|done]].
      destruct Hu as [r ->]. destruct (gT g !! (q, (pi ++ [i]) ++ r)) as [x|] eqn:E; [|done].
      destruct (table_prefix _ st g q _ r x Hs E) as [u Hu]. congruence.
Qed.

(** *** The four levels *)

Lemma kills_pt pi : length pi = 3%nat -> kills pi destroy_pt.
Proof. intros Hl. apply (loop_kills pi _ 512 (kill_leaf pi Hl)). by destruct pi. Qed.

Lemma kills_pd pi : length pi = 2%nat -> kills pi destroy_pd.
Proof.
  intros Hl. refine (loop_kills pi _ 512 (kill_node pi destroy_pt _ _ _ _) _); [lia|..|by destruct pi].
  - intros i. apply kills_pt. rewrite length_app. cbn. lia.
  - intros t st i e. subst e. cbv beta zeta. split; [by intros ->|by intros -> ->].
Qed.

Lemma kills_pdpt pi : length pi = 1%nat -> kills pi destroy_pdpt.
Proof.
  intros Hl. refine (loop_kills pi _ 512 (kill_node pi destroy_pd _ _ _ _) _); [lia|..|by destruct pi].
  - intros i. apply kills_pd. rewrite length_app. cbn. lia.
  - intros t st i e. subst e. cbv beta zeta. split; [by intros ->|by intros -> _].
Qed.

Lemma kills_pml4 : kills [] destroy_pml4.
Proof.
  refine (loop_kills [] _ 256 (kill_node [] destroy_pdpt _ _ _ _) _); [cbn; lia|..|done].
  - intros i. by apply kills_pdpt.
  - intros t st i e. subst e. cbv beta zeta. split; [by intros ->|by intros -> _].
Qed.

End Destroy.

Lemma vinv_live q D st g : (forall ka, gT g !! (q, ka) = None) -> vinv (dead_of q D) st g -> vinv live st g.
Proof.
  intros Hn (Hs & ?). split; [|done]. split; try shape_of Hs.
  - intros p pi t i Ht Hl Hi _. apply (sh_node _ _ _ Hs p pi t i); try done. intros [E _]. cbn in E. subst p. by rewrite Hn in Ht.
  - intros p pi t i Ht Hl Hi _. apply (sh_leaf _ _ _ Hs p pi t i); try done. intros [E _]. cbn in E. subst p. by rewrite Hn in Ht.
Qed.

(** What [mm_destroy_address_space] does to the address spaces. *)
Record destroyed (q : Z) (st st' : vm) (g g' : ghost) : Prop := {
  de_inv : vinv live st' g';
  de_held : gH g' = gH g;
  de_layout : same_layout st st' /\ g_kernel_pml4_phys st' = g_kernel_pml4_phys st;
  de_gone : forall ka, gT g' !! (q, ka) = None /\ gM g' !! (q, ka) = None;
  de_keep : forall x ka, x <> q -> gT g' !! (x, ka) = gT g !! (x, ka) /\ gM g' !! (x, ka) = gM g !! (x, ka);
  de_data : forall f, (forall ka, gT g !! (q, ka) <> Some f) -> page_words st' f = page_words st f;
}.

Lemma destroy_eq q st :
  q <> 0 -> q <> g_kernel_pml4_phys st -> mm_destroy_address_space q st = free_pt_page q (destroy_pml4 q st).
Proof. intros H1 H2. unfold mm_destroy_address_space. by rewrite (proj2 (Z.eqb_neq q 0)), (proj2 (Z.eqb_neq q _)) by done. Qed.

Lemma destroy_spec q st g :
  vinv live st g -> gT g !! (q, []) = Some q -> q <> g_kernel_pml4_phys st ->
  exists g', destroyed q st (mm_destroy_address_space q st) g g'.
Proof.
  intros Hv Hq Hk. pose proof Hv as (Hs & _ & _). destruct (table_frame _ _ _ Hs _ _ Hq) as [_ Hpos].
  rewrite (destroy_eq q st) by (done || lia).
  destruct (kill_table q (fun _ => False) st g [] q destroy_pml4) as (g' & H); try done.
  - apply kills_pml4.
  - eapply vinv_dead; [|exact Hv]. by intros k [].
  - intros i ka _ [].
  - exists g'. assert (Hg : forall ka, gT g' !! (q, ka) = None /\ gM g' !! (q, ka) = None).
    { intros ka. apply (kl_gone _ _ _ _ _ _ _ H). by exists ka. }
    split; [|exact (kl_held _ _ _ _ _ _ _ H)|exact (kl_layout _ _ _ _ _ _ _ H)|done| |exact (kl_data _ _ _ _ _ _ _ H)].
    + apply (vinv_live q _ _ _ (fun ka => proj1 (Hg ka)) (kl_inv _ _ _ _ _ _ _ H)).
    + intros x ka Hx. apply (kl_keep _ _ _ _ _ _ _ H). by left.
Qed.
