(* ===== verification/UserMemory.v ===== *)
(** * The memory of processes

    What a program sees through its page tables.  [mmu_walk] is the processor's
    walk; a store to a page that is not writable ends in [exception_handler]
    ([kernel/ke/interrupt.c]), which copies a shared page and lets the program go
    on.  The lemmas relate stores, [fork] and exit to a simple view, in which each
    process has its own words. *)

From Stdlib Require Import ZArith Lia Bool.
From stdpp Require Import base list gmap fin_maps.
From S2P Require Import Prelude Pmm Paging AddressSpace Fork Destroy.

Open Scope Z_scope.

(** ** The processor *)

(** The table behind an entry, for a program. *)
Definition mmu_next (st : vm) (t : Z) (i : nat) : option (Z * bool) :=
  let e := word st t i in
  if has e PAGE_PRESENT && has e PAGE_USER && negb (has e PAGE_SIZE_FLAG) then Some (pte_addr e, has e PAGE_WRITABLE) else None.

(** The entry that maps [va], and whether stores are allowed. *)
Definition mmu_walk (st : vm) (cr3 va : Z) : option (Z * bool) :=
  '(pdpt, w1) ← mmu_next st cr3 (table_index va 39);
  '(pd, w2) ← mmu_next st pdpt (table_index va 30);
  '(pt, w3) ← mmu_next st pd (table_index va 21);
  let e := word st pt (table_index va 12) in
  if has e PAGE_PRESENT && has e PAGE_USER then Some (e, w1 && w2 && w3 && has e PAGE_WRITABLE) else None.

(** The 64-bit word at [va]. *)
Definition user_load (st : vm) (cr3 va : Z) : option Z :=
  (fun ew => word st (pte_addr ew.1) (table_index va 3)) <$> mmu_walk st cr3 va.

(** The part of [exception_handler] for a page fault with error code [err]: whether
    the program goes on. *)
Definition page_fault (st : vm) (cr3 cr2 err : Z) : vm * bool :=
  if (Z.land err 3 =? 3) && (cr2 <? 0x8000000000000000) then mm_handle_cow_fault st cr3 cr2 else (st, false).

(** A store; a program that goes on repeats it.  The result tells whether it was done. *)
Fixpoint user_store (n : nat) (st : vm) (cr3 va v : Z) : vm * bool :=
  match n with
  | O => (st, false)
  | S n' =>
      match mmu_walk st cr3 va with
      | Some (e, true) => (put_word (pte_addr e) (table_index va 3) v st, true)
      | Some (e, false) => let '(st, ok) := page_fault st cr3 va 7 in if ok then user_store n' st cr3 va v else (st, false)
      | None => ((page_fault st cr3 va 6).1, false)
      end
  end.

(** ** Walking the tables of a process *)

Definition user_addr (va : Z) : Prop := 0 <= va < 2 ^ 47.

Definition upath (va : Z) : list nat := [table_index va 39; table_index va 30; table_index va 21].
Definition uslot (va : Z) : list nat := upath va ++ [table_index va 12].

Lemma table_index_lt va s : (table_index va s < 512)%nat.
Proof.
  unfold table_index. change 0x1FF with (Z.ones 9). rewrite Z.land_ones by lia.
  pose proof (Z.mod_pos_bound (Z.shiftr va s) (2 ^ 9)). lia.
Qed.

Lemma table_index_top va : user_addr va -> (table_index va 39 < 256)%nat.
Proof.
  intros [H1 H2]. unfold table_index. change 0x1FF with (Z.ones 9). rewrite Z.land_ones, Z.shiftr_div_pow2 by lia.
  assert (0 <= va / 2 ^ 39 < 256) by (split; [apply Z.div_pos; lia|apply Z.div_lt_upper_bound; lia]).
  rewrite Z.mod_small by lia. lia.
Qed.

Lemma uslot_ok va : user_addr va ->
  slot_ok [] (table_index va 39) /\ slot_ok [table_index va 39] (table_index va 30) /\
  slot_ok [table_index va 39; table_index va 30] (table_index va 21) /\ slot_ok (upath va) (table_index va 12).
Proof. intros H. split_and!; [by apply table_index_top|apply table_index_lt..]. Qed.

Section Walk.
Context (st : vm) (g : ghost) (Hv : vinv live st g) (p : Z).

Lemma mmu_next_spec pi t i :
  gT g !! (p, pi) = Some t -> (length pi < 3)%nat -> slot_ok pi i ->
  mmu_next st t i = (fun f => (f, true)) <$> gT g !! (p, pi ++ [i]).
Proof.
  intros Ht Hl Hi. destruct Hv as (Hs & _ & _). pose proof (sh_node _ _ _ Hs p pi t i Ht Hl Hi ltac:(by intros [])) as Hn.
  unfold mmu_next. cbn zeta. destruct (gT g !! (p, pi ++ [i])) as [f|]; [|by rewrite Hn].
  destruct Hn as (-> & -> & -> & -> & ->). done.
Qed.

Lemma next_table_spec user pi t i :
  gT g !! (p, pi) = Some t -> (length pi < 3)%nat -> slot_ok pi i ->
  next_table st user false t i = (st, gT g !! (p, pi ++ [i])) /\
  (is_Some (gT g !! (p, pi ++ [i])) -> has (word st t i) PAGE_SIZE_FLAG = false).
Proof.
  intros Ht Hl Hi. destruct Hv as (Hs & _ & _). pose proof (sh_node _ _ _ Hs p pi t i Ht Hl Hi ltac:(by intros [])) as Hn.
  unfold next_table. cbn zeta. destruct (gT g !! (p, pi ++ [i])) as [f|]; [|rewrite Hn; split; [done|by intros []]].
  destruct Hn as (-> & E & _ & _ & ->). rewrite andb_false_r. done.
Qed.

Lemma no_upper_table pi r : gT g !! (p, pi) = None -> gT g !! (p, pi ++ r) = None.
Proof.
  intros Hn. destruct Hv as (Hs & _ & _). destruct (gT g !! (p, pi ++ r)) as [t|] eqn:E; [|done].
  destruct (table_prefix _ st g p pi r t Hs E). congruence.
Qed.

Context (Hp : gT g !! (p, []) = Some p) (va : Z) (Hva : user_addr va).

Lemma walk_spec : mmu_walk st p va = (fun e => (e, has e PAGE_WRITABLE)) <$> gM g !! (p, uslot va).
Proof.
  destruct (uslot_ok va Hva) as (S1 & S2 & S3 & S4). pose proof Hv as (Hs & _ & _). unfold mmu_walk.
  assert (Hno : forall pi r, gT g !! (p, pi) = None -> uslot va = pi ++ r -> (length pi <= 3)%nat -> gM g !! (p, uslot va) = None).
  { intros pi r Hn E Hl. eapply no_table_no_map; [exact Hs|exact Hl|exact Hn|by exists r]. }
  rewrite (mmu_next_spec [] p _ Hp) by (done || cbn; lia). cbn [app]. destruct (gT g !! (p, [table_index va 39])) as [t1|] eqn:E1; cbn [fmap option_fmap option_map mbind option_bind].
  2:{ by rewrite (Hno [table_index va 39] _ E1) by (done || cbn; lia). }
  rewrite (mmu_next_spec [table_index va 39] t1 _ E1) by (done || cbn; lia). cbn [app].
  destruct (gT g !! (p, [table_index va 39; table_index va 30])) as [t2|] eqn:E2; cbn [fmap option_fmap option_map mbind option_bind].
  2:{ by rewrite (Hno [table_index va 39; table_index va 30] _ E2) by (done || cbn; lia). }
  rewrite (mmu_next_spec [table_index va 39; table_index va 30] t2 _ E2) by (done || cbn; lia). cbn [app].
  destruct (gT g !! (p, [table_index va 39; table_index va 30; table_index va 21])) as [t3|] eqn:E3; cbn [fmap option_fmap option_map mbind option_bind].
  2:{ by rewrite (Hno (upath va) _ E3) by (done || cbn; lia). }
  pose proof (sh_leaf _ _ _ Hs p (upath va) t3 (table_index va 12) E3 eq_refl S4 ltac:(by intros [])) as Hw.
  fold (uslot va) in Hw. destruct (gM g !! (p, uslot va)) as [e|] eqn:E4; [|by rewrite Hw].
  destruct (sh_data _ _ _ Hs _ _ E4) as (D1 & D2 & _). rewrite Hw, D1, D2. done.
Qed.

Lemma get_table_spec user :
  (let '(st, pdpt) := next_table st user false p (table_index va 39) in
   match pdpt with
   | None => (st, None)
   | Some pdpt =>
       let '(st, pd) := next_table st user false pdpt (table_index va 30) in
       match pd with
       | None => (st, None)
       | Some pd =>
           let '(st, pt) := if is_large (word st pd (table_index va 21)) then (st, None) else next_table st user false pd (table_index va 21) in
           (st, (fun pt => (pt, table_index va 12)) <$> pt)
       end
   end) = (st, (fun t => (t, table_index va 12)) <$> gT g !! (p, upath va)).
Proof.
  destruct (uslot_ok va Hva) as (S1 & S2 & S3 & S4).
  rewrite (proj1 (next_table_spec user [] p _ Hp ltac:(cbn; lia) S1)). cbn [app].
  destruct (gT g !! (p, [table_index va 39])) as [t1|] eqn:E1.
  2:{ by rewrite (no_upper_table [table_index va 39] [table_index va 30; table_index va 21] E1 : gT g !! (p, upath va) = None). }
  rewrite (proj1 (next_table_spec user [table_index va 39] t1 _ E1 ltac:(cbn; lia) S2)). cbn [app].
  destruct (gT g !! (p, [table_index va 39; table_index va 30])) as [t2|] eqn:E2.
  2:{ by rewrite (no_upper_table [table_index va 39; table_index va 30] [table_index va 21] E2 : gT g !! (p, upath va) = None). }
  destruct (next_table_spec user [table_index va 39; table_index va 30] t2 _ E2 ltac:(cbn; lia) S3) as [-> Hl]. cbn [app] in *.
  fold (upath va) in *. unfold is_large. destruct (gT g !! (p, upath va)) as [t3|] eqn:E3.
  - by rewrite Hl, andb_false_r by done.
  - destruct (has _ PAGE_PRESENT && _); done.
Qed.

Lemma get_page_table_spec : mm_get_page_table st p va false = (st, (fun t => (t, table_index va 12)) <$> gT g !! (p, upath va)).
Proof. rewrite <- (get_table_spec false). done. Qed.

Lemma user_addr_low : (va <? KERNEL_OFFSET) = true.
Proof. destruct Hva. unfold KERNEL_OFFSET. lia. Qed.

Lemma get_page_table_from_spec :
  mm_get_page_table_from_pml4 st p va false = (st, (fun t => (t, table_index va 12)) <$> gT g !! (p, upath va)).
Proof.
  unfold mm_get_page_table_from_pml4. rewrite user_addr_low. destruct Hv as (Hs & _ & _). destruct (table_frame _ _ _ Hs _ _ Hp) as [_ Hpos].
  rewrite (proj2 (Z.eqb_neq p 0)) by lia. rewrite <- (get_table_spec true). done.
Qed.

End Walk.

(** ** A held page is mapped *)

Lemma counted_new s M k e d :
  counted s M -> M !! k = None -> pte_addr e = page_addr s d -> (forall k e', M !! k = Some e' -> pte_addr e' <> pte_addr e) ->
  has e PAGE_COW = false -> counted s (<[k := e]> M).
Proof.
  intros Hc Hk Ed Hfresh Hcow. pose proof (cnt_zero M (pte_addr e) Hfresh) as H0. pose proof (fun a => cnt_insert M k e a Hk) as Hcnt.
  split.
  - intros x Hx. cbn zeta. rewrite Hcnt. pose proof (co_count _ _ Hc x Hx) as Hcc. cbn zeta in Hcc. unfold one_if.
    destruct (decide (pte_addr e = page_addr s x)) as [E|E]; [|done]. rewrite <- E, H0 in *. lia.
  - intros k' e' x Hk' Hc' Ex Hx. apply lookup_insert_Some in Hk' as [[_ <-]|[_ Hk']]; [congruence|]. by eapply (co_cow _ _ Hc).
  - intros k' e' Hk' Hw. rewrite Hcnt. unfold one_if. apply lookup_insert_Some in Hk' as [[_ <-]|[_ Hk']].
    + rewrite decide_True by done. lia.
    + rewrite decide_False by (intros E; by apply (Hfresh k' e')). by apply (co_excl _ _ Hc k').
Qed.

Lemma held_unmapped dead st g f : shape dead st g -> f ∈ gH g -> unowned f (mk_ghost (gT g) (gM g) ∅ (gL g)).
Proof.
  intros Hs Hf. split_and!; cbn [gT gM gH]; [..|done].
  - intros k Hk. by destruct (sh_table _ _ _ Hs k f Hk) as (_ & _ & ?).
  - intros k e Hk <-. by destruct (sh_data _ _ _ Hs k e Hk) as (_ & _ & _ & ? & _).
Qed.

Lemma map_held dead (dead' : key -> Prop) st g p pi t i e d :
  vinv dead st g -> (forall k, dead k -> dead' k \/ k = (p, pi ++ [i])) ->
  gT g !! (p, pi) = Some t -> length pi = 3%nat -> slot_ok pi i -> gM g !! (p, pi ++ [i]) = None ->
  pte_addr e ∈ gH g -> 0 <= d < total_pages (pm st) -> pte_addr e = page_addr (pm st) d ->
  has e PAGE_PRESENT = true -> has e PAGE_USER = true -> has e PAGE_COW = false ->
  vinv dead' (put_word t i e st) (mk_ghost (gT g) (<[(p, pi ++ [i]) := e]> (gM g)) (gH g ∖ {[pte_addr e]}) (gL g)).
Proof.
  intros (Hs & Hc & Ha) Hd Ht Hl Hi Hn Hh Hdr Ed He1 He2 He3. destruct (sh_held _ _ _ Hs _ Hh) as [_ Hnf].
  destruct (held_unmapped _ _ _ _ Hs Hh) as (U1 & U2 & _). cbn [gT gM] in U1, U2.
  split_and!.
  - eapply put_leaf; try done. exists d. split_and!; try done; try apply Hdr. intros Hin. apply Hnf. right. right. by exists d.
  - cbn [gM]. by eapply counted_new.
  - intros x Hx. cbn [gT gM gH gL]. destruct (Ha x Hx) as [H|[H|[(k & e' & Hk & Ee)|H]]]; [by left|by right; left| |].
    + right. right. left. exists k, e'. rewrite lookup_insert_ne; [done|]. intros <-. by pose proof (eq_trans (eq_sym Hn) Hk).
    + destruct (decide (x = pte_addr e)) as [->|Hne]; [|right; right; right; set_solver].
      right. right. left. exists (p, pi ++ [i]), e. by rewrite lookup_insert_eq.
Qed.

(** ** Copy-on-write faults *)

Lemma table_index_page va s : 12 <= s -> table_index (Z.land va (Z.lnot 0xFFF)) s = table_index va s.
Proof.
  intros Hs. unfold table_index. f_equal. apply Z.bits_inj'. intros n Hn. rewrite !Z.land_spec, !Z.shiftr_spec, Z.land_spec by lia.
  destruct (Z.testbit 0x1FF n) eqn:E; [|by rewrite !andb_false_r]. rewrite !andb_true_r, Z.lnot_spec by lia.
  change 0xFFF with (Z.ones 12). rewrite Z.ones_spec_high by lia. apply andb_true_r.
Qed.

Lemma user_addr_page va : user_addr va -> user_addr (Z.land va (Z.lnot 0xFFF)).
Proof.
  intros [H1 H2]. unfold user_addr. assert (E : Z.land va (Z.lnot 0xFFF) = 2 ^ 12 * (va / 2 ^ 12)).
  { change 0xFFF with (Z.ones 12). rewrite <- Z.ldiff_land, Z.ldiff_ones_r, Z.shiftl_mul_pow2, Z.shiftr_div_pow2 by lia. lia. }
  rewrite E. pose proof (Z.mul_div_le va (2 ^ 12)). pose proof (Z.div_pos va (2 ^ 12)). lia.
Qed.

Lemma drop_put_word a t i v st : drop_page a (put_word t i v st) = put_word t i v (drop_page a st).
Proof. unfold drop_page. cbn [pm put_word set_frames]. by destruct (mm_decref_page a (pm st)). Qed.

(** What a successful fault does: the mapping leads to a copy. *)
Record resolved (k : key) (e new : Z) (st st' : vm) (g g' : ghost) : Prop := {
  rs_inv : vinv live st' g';
  rs_tables : gT g' = gT g;
  rs_held : gH g' = gH g;
  rs_maps : gM g' = <[k := resolved_entry e new]> (gM g);
  rs_frame : frame_ok new;
  rs_layout : same_layout st st' /\ g_kernel_pml4_phys st' = g_kernel_pml4_phys st;
  rs_fresh : forall k' e', gM g !! k' = Some e' -> pte_addr e' <> new;
  rs_copy : page_words st' new = page_words st (pte_addr e);
  rs_data : forall f, f <> new -> (forall k, gT g !! k <> Some f) -> page_words st' f = page_words st f;
}.

Lemma cow_copy_spec st g p pi t i e :
  vinv live st g -> gT g !! (p, pi) = Some t -> length pi = 3%nat -> slot_ok pi i -> gM g !! (p, pi ++ [i]) = Some e ->
  has e PAGE_COW = true ->
  let rc := let idx := page_to_index (pm st) (pte_addr e) in if idx =? NO_PAGE then None else Some (refcount_at (pm st) idx) in
  let '(st', ok) := cow_fault_copy st t i (pte_addr e) rc in
  if ok then exists new g', resolved (p, pi ++ [i]) e new st st' g g' else st' = st /\ pfree (pm st) = ∅.
Proof.
  intros Hv Ht Hl Hi Hk Hcow. pose proof Hv as (Hs & Hc & _). destruct (sh_data _ _ _ Hs _ _ Hk) as (D1 & D2 & (d & Hd & Hdf & Ed) & D4 & D5).
  destruct (page_to_index_page (pm st) (sh_pmm _ _ _ Hs) d Hd) as [Ei En]. cbn zeta. rewrite Ed, Ei, En.
  pose proof (co_cow _ _ Hc _ _ d Hk Hcow Ed Hd) as Hrc. unfold cow_fault_copy.
  destruct (mm_allocate_physical_page (pm st)) as [s' new] eqn:Ea.
  destruct (frame_words _ _ _ Hs _ (data_page _ _ _ Hs _ _ Hk)) as (ws & _ & Hlen & Ews).
  destruct (take_phys _ _ _ _ _ ws Hv Ea Hlen) as [(-> & -> & He)|(Hne & Hph & Hfree & (dn & Hdn & Edn) & Hlay & Hv1)].
  { rewrite Z.eqb_refl. split; [apply set_pm_same|done]. }
  rewrite (proj2 (Z.eqb_neq _ _) Hne), (proj2 (Z.leb_le 1 _)) by done.
  change (page_words (set_pm s' st) (page_addr (pm st) d)) with (page_words st (page_addr (pm st) d)). rewrite <- Ed, Ews.
  set (st1 := put_page new ws (set_pm s' st)) in *.
  assert (Hfr1 : forall f, f <> new -> frames st1 !! f = frames st !! f) by (intros f Hf; cbn; by rewrite lookup_insert_ne).
  assert (Hwt : word st1 t i = e).
  { unfold word. rewrite Hfr1 by (eapply table_word_ne; [exact Hs|exact Ht|exact Hfree]).
    pose proof (sh_leaf _ _ _ Hs p pi t i Ht Hl Hi ltac:(by intros [])) as Hw. rewrite Hk in Hw. exact Hw. }
  rewrite Hwt, drop_put_word. pose proof (phys_page_frame _ _ _ Hs new Hph) as Hfo.
  destruct (has_resolved_entry e new Hfo) as (R1 & R2 & R3 & R4). pose proof (resolved_entry_addr e new Hfo) as Ra.
  pose proof (drop_map live (eq (p, pi ++ [i])) st1 (hold new g) (p, pi ++ [i]) e Hv1 Hk ltac:(by intros ? []) eq_refl) as Hv2.
  destruct (drop_layout (pte_addr e) st1) as (L1 & L2 & L3 & L4).
  assert (Hv3 := map_held _ live _ _ p pi t i (resolved_entry e new) dn Hv2).
  cbn [gT gM gH gL hold] in Hv3. rewrite Ra in Hv3.
  assert (HnH : new ∉ gH g) by (intros Hin; by destruct (sh_held _ _ _ Hs new Hin)).
  assert (EH : ({[new]} ∪ gH g) ∖ {[new]} = gH g) by (clear - HnH; set_solver).
  rewrite insert_delete_eq, EH in Hv3. exists new. eexists. split.
  - apply Hv3; try done; [by intros k <-; right|apply lookup_delete_eq|by apply elem_of_union_l, elem_of_singleton| | |by rewrite R1|by rewrite R2].
    + rewrite L3. exact (eq_ind_r (fun x => 0 <= dn < x) Hdn (proj1 (proj2 (proj2 Hlay)))).
    + rewrite Edn. unfold page_addr. rewrite L4. by rewrite <- (proj2 (proj2 (proj2 Hlay))).
  - done.
  - done.
  - done.
  - done.
  - split; [apply (same_layout_trans _ st1); [exact Hlay|apply drop_layout]|]. apply (proj1 (drop_kernel (pte_addr e) st1)).
  - intros k' e' Hk' <-. by apply (data_not_free _ _ _ k' e' Hs Hk').
  - rewrite words_put_ne by (intros ->; by eapply (table_word_ne _ _ _ _ _ _ Hs Ht Hfree)). unfold page_words. rewrite (proj2 (drop_kernel _ st1)).
    cbn. by rewrite lookup_insert_eq.
  - intros f Hf Hn. rewrite words_put_ne by (intros ->; by eapply Hn). unfold page_words. by rewrite (proj2 (drop_kernel _ st1)), Hfr1.
Qed.

Lemma cow_fault_spec st g p va e :
  vinv live st g -> gT g !! (p, []) = Some p -> user_addr va -> gM g !! (p, uslot va) = Some e -> has e PAGE_WRITABLE = false ->
  let '(st', ok) := mm_handle_cow_fault st p va in
  if ok then has e PAGE_COW = true /\ exists new g', resolved (p, uslot va) e new st st' g g'
  else st' = st /\ (has e PAGE_COW = true -> pfree (pm st) = ∅).
Proof.
  intros Hv Hp Hva Hk Hw. pose proof Hv as (Hs & _ & _). unfold mm_handle_cow_fault, cow_fault_check.
  rewrite (get_page_table_spec st g Hv p Hp _ (user_addr_page va Hva)). unfold upath at 1. rewrite !table_index_page by lia. fold (upath va).
  destruct (map_slot _ st g p (upath va) (table_index va 12) [] e Hs Hk) as [Hi [t Ht]]. rewrite Ht. cbn [fmap option_fmap option_map].
  pose proof (sh_leaf _ _ _ Hs p (upath va) t _ Ht eq_refl Hi ltac:(by intros [])) as Hwd. fold (uslot va) in Hwd. rewrite Hk in Hwd.
  destruct (sh_data _ _ _ Hs _ _ Hk) as (D1 & _). cbn zeta. rewrite Hwd, D1, Hw. cbn [negb].
  destruct (has e PAGE_COW) eqn:Hc; cbn [negb]; [|done].
  pose proof (cow_copy_spec st g p (upath va) t _ e Hv Ht eq_refl Hi Hk Hc) as H. cbn zeta in H.
  destruct (cow_fault_copy _ _ _ _ _) as [st' ok]. destruct ok; [by split|]. destruct H as [-> ?]. by split.
Qed.

(** ** What processes see *)

(** The page behind a mapping. *)
Definition content (st : vm) (g : ghost) (k : key) : option (list Z) := (fun e => page_words st (pte_addr e)) <$> gM g !! k.

Lemma word_page st f i : word st f i = default 0 (page_words st f !! i).
Proof. unfold word, page_words. by destruct (frames st !! f). Qed.

Lemma load_spec st g p va :
  vinv live st g -> gT g !! (p, []) = Some p -> user_addr va ->
  user_load st p va = (fun ws => default 0 (ws !! table_index va 3)) <$> content st g (p, uslot va).
Proof.
  intros Hv Hp Hva. unfold user_load, content. rewrite (walk_spec st g Hv p Hp va Hva). destruct (gM g !! (p, uslot va)) as [e|]; cbn; [|done].
  by rewrite word_page.
Qed.

(** Whether the program may store at [va]. *)
Definition writable (st : vm) (cr3 va : Z) : bool :=
  match mmu_walk st cr3 va with
  | Some (e, w) => w || has e PAGE_COW
  | None => false
  end.

Lemma table_index_div va s : 0 <= va -> 0 <= s -> Z.of_nat (table_index va s) = (va / 2 ^ s) mod 512.
Proof.
  intros Ha Hs. unfold table_index. change 0x1FF with (Z.ones 9). rewrite Z.land_ones, Z.shiftr_div_pow2 by lia.
  apply Z2Nat.id. by apply Z.mod_pos_bound.
Qed.

Lemma same_word va va' : user_addr va -> user_addr va' ->
  (uslot va = uslot va' /\ table_index va 3 = table_index va' 3) <-> va / 8 = va' / 8.
Proof.
  intros [H1 H2] [H3 H4].
  assert (E : forall a s, 0 <= a -> 0 <= s -> Z.of_nat (table_index a (3 + s)) = (a / 8 / 2 ^ s) mod 512).
  { intros a s Ha Hs. rewrite table_index_div, Z.pow_add_r by lia. by rewrite Z.div_div by lia. }
  split.
  - intros [[= E1 E2 E3 E4] E5]. apply (f_equal Z.of_nat) in E1, E2, E3, E4, E5.
    rewrite !(E _ 0) in E5 by lia. rewrite !(E _ 9) in E4 by lia. rewrite !(E _ 18) in E3 by lia.
    rewrite !(E _ 27) in E2 by lia. rewrite !(E _ 36) in E1 by lia.
    assert (D : forall x y s, 0 <= s -> x / 2 ^ (s + 9) = y / 2 ^ (s + 9) -> (x / 2 ^ s) mod 512 = (y / 2 ^ s) mod 512 -> x / 2 ^ s = y / 2 ^ s).
    { intros x y s Hs A1 A2. rewrite Z.pow_add_r, <- !Z.div_div in A1 by lia. change (2 ^ 9) with 512 in A1.
      rewrite (Z.div_mod (x / 2 ^ s) 512), (Z.div_mod (y / 2 ^ s) 512) by lia. by rewrite A1, A2. }
    assert (B : forall a, 0 <= a < 2 ^ 47 -> (a / 8 / 2 ^ 36) mod 512 = a / 8 / 2 ^ 36).
    { intros a Ha. apply Z.mod_small. rewrite Z.div_div by lia. split; [apply Z.div_pos; lia|apply Z.div_lt_upper_bound; lia]. }
    rewrite !B in E1 by done. rewrite <- (Z.div_1_r (va / 8)), <- (Z.div_1_r (va' / 8)). change 1 with (2 ^ 0).
    apply (D _ _ 0), E5; [lia|]. apply (D _ _ 9), E4; [lia|]. apply (D _ _ 18), E3; [lia|]. apply (D _ _ 27), E2; [lia|]. exact E1.
  - intros Ew. assert (Ei : forall s, 0 <= s -> table_index va (3 + s) = table_index va' (3 + s)).
    { intros s Hs. apply Nat2Z.inj. rewrite !E by lia. by rewrite Ew. }
    unfold uslot, upath.
    rewrite (Ei 36 ltac:(lia) : table_index va 39 = _), (Ei 27 ltac:(lia) : table_index va 30 = _), (Ei 18 ltac:(lia) : table_index va 21 = _).
    by rewrite (Ei 9 ltac:(lia) : table_index va 12 = _), (Ei 0 ltac:(lia) : table_index va 3 = _).
Qed.

(** *** Stores *)

Lemma store_page st g k e i v :
  vinv live st g -> gM g !! k = Some e -> vinv live (put_word (pte_addr e) i v st) g.
Proof.
  intros (Hs & Hc & Ha) Hk. split_and!; [|done|done]. pose proof (data_not_free _ _ _ k e Hs Hk) as Hnf.
  destruct (sh_data _ _ _ Hs k e Hk) as (_ & _ & _ & _ & H5).
  assert (Hw : forall k' t j, gT g !! k' = Some t -> word (put_word (pte_addr e) i v st) t j = word st t j).
  { intros k' t j Ht. apply word_put_ne. left. intros ->. by apply (H5 k'). }
  destruct g as [T M H L]. apply (shape_put live st (mk_ghost T M H L)); try shape_of Hs; try done.
  - intros p pi t j Ht Hl Hj Hd. rewrite (Hw (p, pi)) by done. by apply (sh_node _ _ _ Hs p pi).
  - intros p pi t j Ht Hl Hj Hd. rewrite (Hw (p, pi)) by done. by apply (sh_leaf _ _ _ Hs p pi).
Qed.

(** A step that keeps the tables and what is held. *)
Record kept (st st' : vm) (g g' : ghost) : Prop := {
  kp_inv : vinv live st' g';
  kp_tables : gT g' = gT g;
  kp_held : gH g' = gH g;
  kp_layout : same_layout st st' /\ g_kernel_pml4_phys st' = g_kernel_pml4_phys st;
}.

Lemma store_content st g k k' e i v :
  vinv live st g -> gM g !! k = Some e -> has e PAGE_WRITABLE = true ->
  content (put_word (pte_addr e) i v st) g k' = if decide (k' = k) then alter (fun _ => v) i <$> content st g k else content st g k'.
Proof.
  intros (Hs & Hc & _) Hk Hw. unfold content. destruct (decide (k' = k)) as [->|Hne].
  - rewrite Hk. cbn [fmap option_fmap option_map]. f_equal. unfold page_words. cbn. rewrite lookup_alter_eq. by destruct (frames st !! pte_addr e).
  - destruct (gM g !! k') as [e'|] eqn:Ek'; [|done]. cbn. f_equal. apply words_put_ne. intros E. apply Hne.
    by apply (cnt_one (gM g) k k' e e'); [apply (co_excl _ _ Hc k)|..].
Qed.

Lemma resolved_content k e new st st' g g' k' :
  shape live st g -> gM g !! k = Some e -> resolved k e new st st' g g' -> content st' g' k' = content st g k'.
Proof.
  intros Hs Hk [A1 A2 A3 A4 A5 A6 A7 A8 A9]. unfold content. rewrite A4. destruct (decide (k' = k)) as [->|Hne].
  - rewrite lookup_insert_eq, Hk. cbn. by rewrite resolved_entry_addr, A8.
  - rewrite lookup_insert_ne by done. destruct (gM g !! k') as [e'|] eqn:E; [|done]. cbn. f_equal. apply A9; [by eapply A7|].
    by destruct (sh_data _ _ _ Hs _ _ E) as (_ & _ & _ & _ & ?).
Qed.

Lemma user_store_spec st g p va v :
  vinv live st g -> gT g !! (p, []) = Some p -> user_addr va ->
  let '(st', ok) := user_store 2 st p va v in
  exists g', kept st st' g g' /\
    (forall k, content st' g' k =
       if decide (ok = true /\ k = (p, uslot va)) then alter (fun _ => v) (table_index va 3) <$> content st g k else content st g k) /\
    (ok = true -> is_Some (content st g (p, uslot va))) /\
    (writable st p va = false -> ok = false) /\ (writable st p va = true -> pfree (pm st) <> ∅ -> ok = true).
Proof.
  intros Hv Hp Hva. pose proof Hv as (Hs & _ & _). pose proof (walk_spec st g Hv p Hp va Hva) as Hwalk.
  assert (Hkept : kept st st g g) by (by split).
  assert (Hput : forall st1 g1 e, kept st st1 g g1 -> (forall k, content st1 g1 k = content st g k) -> gM g1 !! (p, uslot va) = Some e -> has e PAGE_WRITABLE = true ->
    kept st (put_word (pte_addr e) (table_index va 3) v st1) g g1 /\
    forall k, content (put_word (pte_addr e) (table_index va 3) v st1) g1 k =
      if decide (true = true /\ k = (p, uslot va)) then alter (fun _ => v) (table_index va 3) <$> content st g k else content st g k).
  { intros st1 g1 e [K1 K2 K3 K4] Hc Hk Hw. split; [split; try done; by apply (store_page st1 g1 _ e _ _ K1 Hk)|].
    intros k. rewrite (store_content st1 g1 (p, uslot va) k e _ _ K1 Hk Hw), !Hc. destruct (decide (k = _)) as [->|Hne].
    - by rewrite decide_True.
    - rewrite decide_False; [done|]. by intros [_ ?]. }
  assert (Hsome : forall e, gM g !! (p, uslot va) = Some e -> is_Some (content st g (p, uslot va))) by (intros e Hk; unfold content; rewrite Hk; by eexists).
  unfold writable. rewrite Hwalk. cbn [user_store]. rewrite Hwalk. destruct (gM g !! (p, uslot va)) as [e|] eqn:Hk; cbn [fmap option_fmap option_map].
  2:{ exists g. split_and!; try done. }
  destruct (has e PAGE_WRITABLE) eqn:Hw.
  { exists g. destruct (Hput st g e Hkept ltac:(done) Hk Hw). split_and!; try done. intros _. by eapply Hsome. }
  unfold page_fault. assert (Hlow : (va <? 0x8000000000000000) = true) by (destruct Hva; lia). rewrite Hlow. change (Z.land 7 3 =? 3) with true. cbn [andb].
  pose proof (cow_fault_spec st g p va e Hv Hp Hva Hk Hw) as Hf. destruct (mm_handle_cow_fault st p va) as [st1 ok]. destruct ok.
  - destruct Hf as (Hc & new & g1 & R). destruct (has_resolved_entry e new (rs_frame _ _ _ _ _ _ _ R)) as (_ & _ & R3 & _).
    assert (Hk1 : gM g1 !! (p, uslot va) = Some (resolved_entry e new)) by (rewrite (rs_maps _ _ _ _ _ _ _ R); apply lookup_insert_eq).
    assert (Hp1 : gT g1 !! (p, []) = Some p) by (by rewrite (rs_tables _ _ _ _ _ _ _ R)).
    rewrite (walk_spec st1 g1 (rs_inv _ _ _ _ _ _ _ R) p Hp1 va Hva), Hk1. cbn [fmap option_fmap option_map]. rewrite R3.
    exists g1. destruct (Hput st1 g1 (resolved_entry e new)) as [K1 K2]; try done.
    + split; [exact (rs_inv _ _ _ _ _ _ _ R)|exact (rs_tables _ _ _ _ _ _ _ R)|exact (rs_held _ _ _ _ _ _ _ R)|exact (rs_layout _ _ _ _ _ _ _ R)].
    + intros k. by eapply resolved_content.
    + split_and!; try done; [intros _; by eapply Hsome|]. cbn [orb]. congruence.
  - destruct Hf as [-> Hf]. exists g. split_and!; try done. cbn [orb]. intros Hc Hne. by destruct Hne; apply Hf.
Qed.

(** *** Fork and exit *)

Lemma content_eq st st' g g' k k' :
  shape live st' g' -> pte_addr <$> gM g' !! k' = pte_addr <$> gM g !! k ->
  (forall e, gM g' !! k' = Some e -> page_words st' (pte_addr e) = page_words st (pte_addr e)) -> content st' g' k' = content st g k.
Proof.
  intros Hs E Hw. unfold content. destruct (gM g' !! k') as [e'|], (gM g !! k) as [e|]; try done. cbn in *. injection E as <-. by rewrite Hw.
Qed.

Lemma forkrel_content b p q D st st' g g' x ka :
  shape live st g -> forkrel b p q D st st' g g' -> x <> q -> content st' g' (x, ka) = content st g (x, ka).
Proof.
  intros Hs Hf Hx. destruct (fk_inv _ _ _ _ _ _ _ _ Hf) as (Hs' & _ & _). assert (E : pte_addr <$> gM g' !! (x, ka) = pte_addr <$> gM g !! (x, ka)).
  { destruct (decide (x = p)) as [->|]; [|by rewrite (fk_out _ _ _ _ _ _ _ _ Hf) by (by left)].
    destruct (fk_any _ _ _ _ _ _ _ _ Hf ka) as [[-> _]|(_ & -> & _)]; [|done]. destruct (gM g !! (p, ka)); cbn; [by rewrite pte_addr_cow|done]. }
  apply content_eq; [done|done|]. intros e He. apply (fk_data _ _ _ _ _ _ _ _ Hf).
  - apply (same_layout_page st st'); [by destruct (fk_layout _ _ _ _ _ _ _ _ Hf)|]. by apply (data_page _ _ _ Hs' (x, ka)).
  - by destruct (sh_data _ _ _ Hs' _ _ He) as (_ & _ & _ & _ & ?).
Qed.

Lemma forked_content p q D st st' g g' ka :
  shape live st g -> forkrel true p q D st st' g g' -> D ka -> content st' g' (q, ka) = content st g (p, ka).
Proof.
  intros Hs Hf HD. destruct (fk_inv _ _ _ _ _ _ _ _ Hf) as (Hs' & _ & _).
  destruct (fk_full _ _ _ _ _ _ _ _ Hf eq_refl ka HD) as [[_ E2]|[? _]]; [|done].
  apply content_eq; [done|rewrite E2; destruct (gM g !! (p, ka)); cbn; [by rewrite pte_addr_cow|done]|]. intros e He. apply (fk_data _ _ _ _ _ _ _ _ Hf).
  - apply (same_layout_page st st'); [by destruct (fk_layout _ _ _ _ _ _ _ _ Hf)|]. by apply (data_page _ _ _ Hs' (q, ka)).
  - by destruct (sh_data _ _ _ Hs' _ _ He) as (_ & _ & _ & _ & ?).
Qed.

Lemma destroyed_content q st st' g g' x ka :
  shape live st g -> destroyed q st st' g g' -> x <> q -> content st' g' (x, ka) = content st g (x, ka).
Proof.
  intros Hs Hd Hx. destruct (de_inv _ _ _ _ _ Hd) as (Hs' & _ & _). destruct (de_keep _ _ _ _ _ Hd x ka Hx) as [_ E].
  apply content_eq; [done|by rewrite E|]. intros e He. rewrite E in He. apply (de_data _ _ _ _ _ Hd).
  destruct (sh_data _ _ _ Hs _ _ He) as (_ & _ & _ & _ & H). intros ka'. apply H.
Qed.

Lemma kernel_root_kept st st' g g' :
  same_layout st st' -> g_kernel_pml4_phys st' = g_kernel_pml4_phys st -> gH g' = gH g -> kernel_root st g -> kernel_root st' g'.
Proof. intros Hl Ek EH. unfold kernel_root. rewrite Ek, EH, (same_layout_page st st') by done. done. Qed.

(** What an operation leaves alone: held pages, the kernel's table, and what all
    processes but [q] see. *)
Record others_kept (q : Z) (st st' : vm) (g g' : ghost) : Prop := {
  ok_inv : vinv live st' g';
  ok_kernel : kernel_root st' g';
  ok_held : gH g' = gH g;
  ok_roots : forall x, x <> q -> gT g' !! (x, []) = gT g !! (x, []);
  ok_content : forall x ka, x <> q -> content st' g' (x, ka) = content st g (x, ka);
}.

Lemma exit_inv st g p :
  vinv live st g -> kernel_root st g -> gT g !! (p, []) = Some p ->
  exists g', others_kept p st (mm_destroy_address_space p st) g g' /\ forall ka, gT g' !! (p, ka) = None /\ gM g' !! (p, ka) = None.
Proof.
  intros Hv Hk Hp. pose proof Hv as (Hs & _ & _).
  destruct (destroy_spec p st g Hv Hp) as (g' & Hd).
  { intros ->. destruct (sh_table _ _ _ Hs _ _ Hp) as (H1 & _ & H3). by destruct Hk. }
  exists g'. split; [|exact (de_gone _ _ _ _ _ Hd)]. destruct (de_layout _ _ _ _ _ Hd) as [Hl Ek]. split.
  - exact (de_inv _ _ _ _ _ Hd).
  - by apply (kernel_root_kept st _ g g' Hl Ek (de_held _ _ _ _ _ Hd)).
  - exact (de_held _ _ _ _ _ Hd).
  - intros x Hx. by apply (de_keep _ _ _ _ _ Hd).
  - intros x ka Hx. by apply (destroyed_content p _ _ g g').
Qed.

Lemma cnt_refcount st g a : vinv live st g -> (forall d, refcount_at (pm st) d < 0x7FFF) -> Z.of_nat (cnt (gM g) a) < 0x7FFF.
Proof.
  intros (Hs & Hc & _) Hr. destruct (decide (cnt (gM g) a = 0%nat)) as [->|Hne]; [lia|].
  destruct (map_choose (filter (fun kv : key * Z => pte_addr kv.2 = a) (gM g))) as (k & e & [Hk Ea]%map_lookup_filter_Some).
  { intros E. apply Hne. unfold cnt. by rewrite E, map_size_empty. }
  destruct (sh_data _ _ _ Hs k e Hk) as (_ & _ & (d & Hd & _ & Ed) & _). cbn in Ea. rewrite Ea in Ed.
  pose proof (co_count _ _ Hc d Hd) as Hcc. cbn zeta in Hcc. rewrite <- Ed in Hcc. pose proof (Hr d). lia.
Qed.

Lemma fork_inv st g p :
  vinv live st g -> kernel_root st g -> gT g !! (p, []) = Some p -> (forall d, refcount_at (pm st) d < 0x7FFF) ->
  let '(st', q) := mm_clone_address_space p st in
  exists g', others_kept q st st' g g' /\ gT g !! (q, []) = None /\
    if q =? 0 then gT g' !! (q, []) = None
    else gT g' !! (q, []) = Some q /\ (forall ka, content st' g' (q, ka) = content st g (p, ka)) /\
      (forall ka e, gM g' !! (q, ka) = Some e \/ gM g' !! (p, ka) = Some e -> has e PAGE_COW = true).
Proof.
  intros Hv Hk Hp Hr. pose proof Hv as (Hs & _ & _). destruct (table_frame _ _ _ Hs _ _ Hp) as [_ Hpos].
  assert (H0 : forall g0 st0, vinv live st0 g0 -> gT g0 !! (0, []) = None).
  { intros g0 st0 (Hs0 & _). destruct (gT g0 !! (0, [])) as [f|] eqn:E; [|done]. pose proof (sh_root _ _ _ Hs0 _ _ E) as ->.
    destruct (table_frame _ _ _ Hs0 _ _ E) as [_ ?]. lia. }
  unfold mm_clone_address_space, mm_clone_address_space_with_shared. rewrite (proj2 (Z.eqb_neq p 0)) by lia.
  destruct (mm_create_user_address_space st) as [st1 q] eqn:Ec. destruct (Z.eqb_spec q 0) as [->|Hq].
  { destruct (create_spec _ _ _ _ Hv Ec) as [[_ ->]|[? _]]; [|done]. exists g. rewrite Z.eqb_refl. split_and!; [by split|by eapply H0|by eapply H0]. }
  destruct (clone_tables p st g st1 q Hv Hp (fun a => cnt_refcount st g a Hv Hr) Ec Hq) as (st2 & ok & g2 & -> & Hpq & Hf & Hq2 & _ & Hk2 & Hno).
  destruct (Hk2 Hk) as [Hkr Hqk]. destruct (fk_inv _ _ _ _ _ _ _ _ Hf) as (Hs2 & _).
  assert (Hroots : forall x, x <> q -> gT g2 !! (x, []) = gT g !! (x, [])).
  { intros x Hx. destruct (gT g2 !! (x, [])) as [f|] eqn:E; [by destruct (fk_new _ _ _ _ _ _ _ _ Hf _ _ _ E) as [->|[? _]]|].
    destruct (gT g !! (x, [])) as [f|] eqn:E'; [|done]. apply (fk_tables _ _ _ _ _ _ _ _ Hf) in E'. congruence. }
  destruct ok.
  - exists g2. rewrite (proj2 (Z.eqb_neq q 0)) by done. split_and!; [|apply Hno|done|intros ka; by eapply forked_content|].
    + split; [exact (fk_inv _ _ _ _ _ _ _ _ Hf)|done|exact (fk_held _ _ _ _ _ _ _ _ Hf)|done|]. intros x ka Hx. by eapply forkrel_content.
    + intros ka e He. destruct (fk_full _ _ _ _ _ _ _ _ Hf eq_refl ka I) as [[E1 E2]|[? _]]; [|done]. rewrite E1, E2 in He.
      destruct (gM g !! (p, ka)) as [e0|]; cbn in He; destruct He as [[= <-]|[= <-]]; apply has_cow_entry.
  - destruct (exit_inv st2 g2 q (fk_inv _ _ _ _ _ _ _ _ Hf) Hkr Hq2) as (g3 & [A1 A2 A3 A4 A5] & Hg3). exists g3. rewrite Z.eqb_refl.
    split_and!; [|by eapply H0|by eapply H0]. split; [done|done|rewrite A3; exact (fk_held _ _ _ _ _ _ _ _ Hf)|..].
    + intros x _. destruct (decide (x = q)) as [->|Hx]; [by rewrite (proj1 (Hg3 [])), (proj1 (Hno []))|]. by rewrite A4, Hroots.
    + intros x ka _. destruct (decide (x = q)) as [->|Hx].
      * unfold content. by rewrite (proj2 (Hg3 ka)), (proj2 (Hno ka)).
      * rewrite A5 by done. by eapply forkrel_content.
Qed.
