(* ===== verification/Brk.v ===== *)
(** * The heap of a process

    [sys_brk] ([kernel/ke/syscall.c]) maps zeroed pages above the end of a heap and
    takes them back when memory runs out half-way.  With it the operations on the
    memory of processes are complete: the theorems at the end say that a store
    changes one word of one process, that a child starts with the words of its
    parent, that an exit takes nothing from anyone else, and that no page is lost or
    given to two owners, in any order of the operations. *)

From Stdlib Require Import ZArith Lia Bool.
From stdpp Require Import base list gmap fin_maps.
From S2P Require Import Prelude Pmm Paging AddressSpace Fork Destroy UserMemory.

Open Scope Z_scope.

(** ** [sys_brk] *)

Record task := mk_task { pml4 : Z; brk_start : Z; brk : Z; user_stack_top : Z }.

Definition PAGE_ALIGN (a : Z) : Z := Z.land (u64 (a + PAGE_SIZE - 1)) (Z.lnot 0xFFF).

Definition brk_flags : Z := Z.lor (Z.lor (Z.lor PAGE_PRESENT PAGE_WRITABLE) PAGE_USER) PAGE_NO_EXECUTE.

(** The loop, [n] pages left from [addr] on; [old_page] is where it started. *)
Fixpoint brk_loop (n : nat) (st : vm) (pml4 old_page addr : Z) : vm * bool :=
  match n with
  | O => (st, true)
  | S n' =>
      let undo st := foldl (fun st k => mm_unmap_page_in_address_space st pml4 (old_page + k * PAGE_SIZE)) st
        (seqZ 0 ((addr - old_page) / PAGE_SIZE)) in
      let '(s, phys) := mm_allocate_physical_page (pm st) in
      let st := set_pm s st in
      if phys =? 0 then (undo st, false)
      else
        let st := put_page phys zero_page st in
        let '(st, ok) := mm_map_page_in_address_space st pml4 addr phys brk_flags in
        if ok then brk_loop n' st pml4 old_page (addr + PAGE_SIZE)
        else (undo (set_pm (mm_free_physical_page phys (pm st)) st), false)
  end.

Definition sys_brk (st : vm) (cur : task) (new_brk : Z) : vm * task * Z :=
  if new_brk =? 0 then (st, cur, brk cur)
  else if new_brk <? brk_start cur then (st, cur, brk cur)
  else if u64 (user_stack_top cur - 2 * 1024 * 1024) <=? new_brk then (st, cur, brk cur)
  else
    let done := mk_task (pml4 cur) (brk_start cur) new_brk (user_stack_top cur) in
    if brk cur <? new_brk then
      let old_page := PAGE_ALIGN (brk cur) in
      let new_page := PAGE_ALIGN new_brk in
      let '(st, ok) := brk_loop (Z.to_nat ((new_page - old_page) / PAGE_SIZE)) st (pml4 cur) old_page old_page in
      if ok then (st, done, new_brk) else (st, cur, brk cur)
    else (st, done, new_brk).

(** ** Creating tables *)

(** Process [p] has got new tables, without any page. *)
Record grows (p : Z) (st st' : vm) (g g' : ghost) : Prop := {
  gr_inv : vinv live st' g';
  gr_maps : gM g' = gM g;
  gr_held : gH g' = gH g;
  gr_layout : same_layout st st' /\ g_kernel_pml4_phys st' = g_kernel_pml4_phys st;
  gr_tables : forall k f, gT g !! k = Some f -> gT g' !! k = Some f;
  gr_new : forall x ka f, gT g' !! (x, ka) = Some f -> gT g !! (x, ka) = Some f \/ (x = p /\ ka <> []);
  gr_data : forall f, phys_page st f -> (forall k, gT g' !! k <> Some f) -> page_words st' f = page_words st f;
}.

Lemma grows_refl p st g : vinv live st g -> grows p st st g g.
Proof. intros Hv. split; try done. by left. Qed.

Lemma grows_trans p st st1 st2 g g1 g2 : grows p st st1 g g1 -> grows p st1 st2 g1 g2 -> grows p st st2 g g2.
Proof.
  intros [A1 A2 A3 [A4 A4'] A5 A6 A7] [B1 B2 B3 [B4 B4'] B5 B6 B7].
  split; [done|congruence|congruence|split; [by eapply same_layout_trans|congruence]|by auto|..].
  - intros x ka f [H|H]%B6; [by apply A6|by right].
  - intros f Hf Hn. rewrite B7, A7; [done|done| |by rewrite (same_layout_page st)|done]. intros k Hk. by eapply Hn, B5.
Qed.

Lemma links_new f : frame_ok f -> links (Z.lor f (table_flags true)) f.
Proof. intros Hf. unfold links. rewrite !has_frame by done. split_and!; try done. by apply pte_addr_frame. Qed.

Lemma next_table_create st g p pi t i :
  vinv live st g -> gT g !! (p, pi) = Some t -> (length pi < 3)%nat -> slot_ok pi i ->
  let '(st', r) := next_table st true true t i in
  exists g', grows p st st' g g' /\ match r with Some t' => gT g' !! (p, pi ++ [i]) = Some t' | None => True end.
Proof.
  intros Hv Ht Hl Hi. pose proof Hv as (Hs & _ & _). pose proof (sh_node _ _ _ Hs p pi t i Ht Hl Hi ltac:(by intros [])) as Hn.
  unfold next_table. cbn zeta. destruct (gT g !! (p, pi ++ [i])) as [t'|] eqn:E.
  { destruct Hn as (-> & _ & -> & _ & ->). cbn [negb andb]. exists g. split; [by apply grows_refl|done]. }
  rewrite Hn. cbn [negb]. destruct (allocate_pt_page st) as [st1 phys] eqn:Ea.
  destruct (alloc_pt_inv _ _ _ _ _ Hv Ea) as [[-> ->]|(Hne & Hph & Hfree & Hlay & Efr & L & Hv1)].
  { rewrite Z.eqb_refl. exists g. split; [by apply grows_refl|done]. }
  rewrite (proj2 (Z.eqb_neq _ _) Hne).
  assert (HpH : phys ∉ gH g) by (intros Hin; by destruct (sh_held _ _ _ Hs phys Hin)).
  assert (EH : ({[phys]} ∪ gH g) ∖ {[phys]} = gH g) by (clear - HpH; set_solver).
  assert (Hv2 := link_vinv st1 _ p pi t i phys _ Hv1 Ht Hl Hi E ltac:(by apply elem_of_union_l, elem_of_singleton)
    ltac:(intros j; rewrite (word_zero_page st1 phys j); [done|rewrite Efr; apply lookup_insert_eq])
    (links_new phys (phys_page_frame _ _ _ Hs phys Hph))). cbn [gT gM gH gL] in Hv2. rewrite EH in Hv2.
  eexists. split; [split; [exact Hv2|..]|]; cbn [gT gM gH gL]; try done.
  - split; [done|]. exact (alloc_kernel_root _ _ _ Ea).
  - intros k f Hk. rewrite lookup_insert_ne; [done|]. intros <-. congruence.
  - intros x ka f. rewrite lookup_insert_Some. intros [[[= <- <-] _]|[_ Hx]]; [right; split; [done|by destruct pi]|by left].
  - intros f Hf Hnf. rewrite words_put_ne.
    + unfold page_words. rewrite Efr, lookup_insert_ne; [done|]. intros ->. apply (Hnf (p, pi ++ [i])). apply lookup_insert_eq.
    + intros ->. apply (Hnf (p, pi)). rewrite lookup_insert_ne; [done|]. intros [= E']. apply (f_equal length) in E'. rewrite length_app in E'. cbn in E'. lia.
  - apply lookup_insert_eq.
Qed.

Lemma get_table_create st g p va :
  vinv live st g -> gT g !! (p, []) = Some p -> user_addr va ->
  let '(st', r) := mm_get_page_table_from_pml4 st p va true in
  exists g', grows p st st' g g' /\ match r with Some (t, i) => i = table_index va 12 /\ gT g' !! (p, upath va) = Some t | None => True end.
Proof.
  intros Hv Hp Hva. destruct (uslot_ok va Hva) as (S1 & S2 & S3 & S4). unfold mm_get_page_table_from_pml4. rewrite (user_addr_low va Hva).
  pose proof Hv as (Hs & _). destruct (table_frame _ _ _ Hs _ _ Hp) as [_ Hpos]. rewrite (proj2 (Z.eqb_neq p 0)) by lia.
  pose proof (next_table_create st g p [] p _ Hv Hp ltac:(cbn; lia) S1) as H1. destruct (next_table st true true p _) as [st1 [t1|]].
  2:{ destruct H1 as (g1 & G1 & _). by exists g1. }
  destruct H1 as (g1 & G1 & T1).
  pose proof (next_table_create st1 g1 p _ t1 _ (gr_inv _ _ _ _ _ G1) T1 ltac:(cbn; lia) S2) as H2. destruct (next_table st1 true true t1 _) as [st2 [t2|]].
  2:{ destruct H2 as (g2 & G2 & _). exists g2. split; [by eapply grows_trans|done]. }
  destruct H2 as (g2 & G2 & T2). pose proof (gr_inv _ _ _ _ _ G2) as (Hs2 & _).
  pose proof (sh_node _ _ _ Hs2 p _ t2 _ T2 ltac:(cbn; lia) S3 ltac:(by intros [])) as Hn.
  assert (Hlarge : is_large (word st2 t2 (table_index va 21)) = false).
  { unfold is_large. cbn [app] in Hn. destruct (gT g2 !! (p, [table_index va 39; table_index va 30; table_index va 21])); [destruct Hn as (_ & -> & _); apply andb_false_r|by rewrite Hn]. }
  rewrite Hlarge. pose proof (next_table_create st2 g2 p _ t2 _ (gr_inv _ _ _ _ _ G2) T2 ltac:(cbn; lia) S3) as H3.
  destruct (next_table st2 true true t2 _) as [st3 r]. destruct H3 as (g3 & G3 & T3). exists g3. split; [by eapply grows_trans, grows_trans|].
  by destruct r.
Qed.

(** ** Mapping and unmapping a page *)

Lemma free_held dead st g d :
  let f := page_addr (pm st) d in
  vinv dead st g -> f ∈ gH g -> 0 <= d < total_pages (pm st) ->
  vinv dead (set_pm (mm_free_physical_page f (pm st)) st) (mk_ghost (gT g) (gM g) (gH g ∖ {[f]}) (gL g)).
Proof.
  intros f (Hs & Hc & Ha) Hf Hd. destruct (held_unmapped _ _ _ _ Hs Hf) as (U1 & U2 & _). cbn [gT gM] in U1, U2.
  destruct (sh_held _ _ _ Hs f Hf) as [_ Hnf]. apply release; try done; cbn [gM].
  - split; cbn [gT gM gH gL]; try shape_of Hs.
    + intros k t Hk. destruct (sh_table _ _ _ Hs k t Hk) as (H1 & H2 & H3). split_and!; [done|done|set_solver].
    + intros x Hx. apply (sh_held _ _ _ Hs). set_solver.
    + intros k e Hk. destruct (sh_data _ _ _ Hs k e Hk) as (H1 & H2 & H3 & H4 & H5). split_and!; try done. set_solver.
  - intros Hin. apply Hnf. right. right. by exists d.
  - pose proof (co_count _ _ Hc d Hd) as Hcc. cbn zeta in Hcc. rewrite (cnt_zero (gM g) (page_addr (pm st) d)) in Hcc by (exact U2). lia.
  - split_and!; cbn [gT gM gH]; [done|done|set_solver].
  - intros x Hx. cbn [gT gM gH gL]. destruct (decide (x = f)) as [->|Hne]; [by left|right]. destruct (Ha x Hx) as [?|[?|[?|?]]]; [by auto..|].
    right. right. right. set_solver.
Qed.

(** Process [p] sees page [ws] at [va], or none; everything else is as before. *)
Record page_set (p va : Z) (ws : option (list Z)) (st st' : vm) (g g' : ghost) : Prop := {
  ps_inv : vinv live st' g';
  ps_held : gH g' = gH g;
  ps_layout : same_layout st st' /\ g_kernel_pml4_phys st' = g_kernel_pml4_phys st;
  ps_roots : forall x, gT g' !! (x, []) = gT g !! (x, []);
  ps_content : forall k, content st' g' k = if decide (k = (p, uslot va)) then ws else content st g k;
}.

Lemma grows_roots p st st' g g' x : grows p st st' g g' -> gT g' !! (x, []) = gT g !! (x, []).
Proof.
  intros H. destruct (gT g' !! (x, [])) as [f|] eqn:E; [by destruct (gr_new _ _ _ _ _ H _ _ _ E) as [->|[_ ?]]|].
  destruct (gT g !! (x, [])) as [f|] eqn:E'; [|done]. apply (gr_tables _ _ _ _ _ H) in E'. congruence.
Qed.

Lemma grows_content p st st' g g' k : grows p st st' g g' -> content st' g' k = content st g k.
Proof.
  intros H. destruct (gr_inv _ _ _ _ _ H) as (Hs' & _). apply content_eq; [done|by rewrite (gr_maps _ _ _ _ _ H)|].
  intros e He. apply (gr_data _ _ _ _ _ H).
  - apply (same_layout_page st st'); [by destruct (gr_layout _ _ _ _ _ H)|]. by apply (data_page _ _ _ Hs' k).
  - by destruct (sh_data _ _ _ Hs' _ _ He) as (_ & _ & _ & _ & ?).
Qed.

Definition brk_entry (phys : Z) : Z := pte_of phys brk_flags.

Lemma brk_entry_spec f : frame_ok f ->
  pte_addr (brk_entry f) = f /\ has (brk_entry f) PAGE_PRESENT = true /\ has (brk_entry f) PAGE_USER = true /\
  has (brk_entry f) PAGE_COW = false.
Proof.
  intros Hf. destruct (pte_of_frame f brk_flags Hf) as [E H]; [right; eexists; split; [done|]; vm_compute; done|].
  unfold brk_entry. by rewrite !H.
Qed.

(** One turn of the loop of [sys_brk]. *)
Lemma map_zero_page st g p va :
  vinv live st g -> gT g !! (p, []) = Some p -> user_addr va -> content st g (p, uslot va) = None ->
  let '(s, phys) := mm_allocate_physical_page (pm st) in
  let st1 := set_pm s st in
  if phys =? 0 then st1 = st
  else
    let '(st2, ok) := mm_map_page_in_address_space (put_page phys zero_page st1) p va phys brk_flags in
    exists g', page_set p va (if ok then Some zero_page else None) st
      (if ok then st2 else set_pm (mm_free_physical_page phys (pm st2)) st2) g g'.
Proof.
  intros Hv Hp Hva Hno. destruct (mm_allocate_physical_page (pm st)) as [s phys] eqn:Ea. pose proof Hv as (Hs & _).
  destruct (take_phys _ _ _ _ _ zero_page Hv Ea ltac:(done)) as [(-> & -> & _)|(Hne & Hph & Hfree & (d & Hd & Ed) & Hlay & Hv1)].
  { rewrite Z.eqb_refl. apply set_pm_same. }
  cbn zeta. rewrite (proj2 (Z.eqb_neq _ _) Hne). set (st1 := put_page phys zero_page (set_pm s st)) in *.
  assert (HnH : phys ∉ gH g) by (intros Hin; by destruct (sh_held _ _ _ Hs phys Hin)).
  assert (EH : ({[phys]} ∪ gH g) ∖ {[phys]} = gH g) by (clear - HnH; set_solver).
  assert (Hc1 : forall k, content st1 (hold phys g) k = content st g k).
  { intros k. unfold content. cbn [gM hold]. destruct (gM g !! k) as [e|] eqn:E; [|done]. cbn. f_equal. unfold page_words. cbn.
    rewrite lookup_insert_ne; [done|]. intros E'. apply (data_not_free _ _ _ k e Hs E). by rewrite <- E'. }
  unfold mm_map_page_in_address_space. pose proof (get_table_create st1 (hold phys g) p va Hv1 Hp Hva) as Hg.
  destruct (mm_get_page_table_from_pml4 st1 p va true) as [st2 r]. destruct Hg as (g2 & G & Hr).
  destruct (gr_layout _ _ _ _ _ G) as [L1 K1]. pose proof (gr_held _ _ _ _ _ G) as EH2. cbn [gH hold] in EH2.
  pose proof (gr_inv _ _ _ _ _ G) as Hv2. pose proof (phys_page_frame _ _ _ Hs phys Hph) as Hfo.
  assert (Hl2 : same_layout st st2) by (by apply (same_layout_trans _ st1)).
  assert (Hd2 : 0 <= d < total_pages (pm st2)) by (by rewrite (proj1 (proj2 (proj2 Hl2)))).
  assert (Ed2 : phys = page_addr (pm st2) d) by (rewrite Ed; unfold page_addr; by rewrite (proj2 (proj2 (proj2 Hl2)))).
  destruct r as [[t i]|].
  - destruct Hr as [-> Ht]. fold (brk_entry phys). destruct (brk_entry_spec phys Hfo) as (B1 & B2 & B3 & B4).
    assert (HM : gM g2 !! (p, uslot va) = None).
    { rewrite (gr_maps _ _ _ _ _ G). cbn [gM hold]. unfold content in Hno. by destruct (gM g !! (p, uslot va)). }
    pose proof (map_held live live st2 g2 p (upath va) t (table_index va 12) (brk_entry phys) d Hv2 ltac:(by intros ? []) Ht eq_refl
      (table_index_lt va 12) HM) as Hv3. fold (uslot va) in Hv3. rewrite B1 in Hv3. eexists. split; [apply Hv3; try done; rewrite EH2; by apply elem_of_union_l, elem_of_singleton|..]; cbn [gT gM gH].
    + by rewrite EH2, EH.
    + done.
    + intros x. by rewrite (grows_roots _ _ _ _ _ x G).
    + intros k. unfold content. cbn [gM]. destruct (decide (k = (p, uslot va))) as [->|Hk].
      * rewrite lookup_insert_eq. cbn. rewrite B1. f_equal. rewrite words_put_ne.
        -- rewrite (gr_data _ _ _ _ _ G); [unfold page_words; cbn; by rewrite lookup_insert_eq|by apply (same_layout_page st)|].
           intros k' Hk'. destruct Hv2 as (Hs2 & _). destruct (sh_table _ _ _ Hs2 _ _ Hk') as (_ & _ & H3). apply H3. rewrite EH2. by apply elem_of_union_l, elem_of_singleton.
        -- intros ->. destruct Hv2 as (Hs2 & _). destruct (sh_table _ _ _ Hs2 _ _ Ht) as (_ & _ & H3). apply H3. rewrite EH2. by apply elem_of_union_l, elem_of_singleton.
      * rewrite lookup_insert_ne by done. fold (content st g k). rewrite <- (Hc1 k), <- (grows_content _ _ _ _ _ k G). unfold content.
        destruct (gM g2 !! k) as [e|] eqn:E; [|done]. cbn. f_equal. apply words_put_ne. intros Et. destruct Hv2 as (Hs2 & _).
        destruct (sh_data _ _ _ Hs2 _ _ E) as (_ & _ & _ & _ & H5). apply (H5 (p, upath va)). by rewrite Et.
  - rewrite Ed2. eexists. split; [apply (free_held live st2 g2 d Hv2)|..]; cbn [gT gM gH]; try (rewrite <- Ed2); try done.
    + rewrite EH2. by apply elem_of_union_l, elem_of_singleton.
    + by rewrite EH2, EH.
    + split; [|exact K1]. apply (same_layout_trans _ st2); [done|]. unfold same_layout. cbn [pm set_pm pt_pool_phys_start pt_pool_size].
      by rewrite (proj1 (free_layout phys (pm st2))), (proj2 (free_layout phys (pm st2))).
    + intros x. by rewrite (grows_roots _ _ _ _ _ x G).
    + intros k. change (content _ _ k) with (content st2 g2 k) at 1. rewrite (grows_content _ _ _ _ _ k G), Hc1. by destruct (decide (k = (p, uslot va))) as [->|].
Qed.

Lemma unmap_page st g p va :
  vinv live st g -> gT g !! (p, []) = Some p -> user_addr va ->
  exists g', page_set p va None st (mm_unmap_page_in_address_space st p va) g g'.
Proof.
  intros Hv Hp Hva. pose proof Hv as (Hs & _). unfold mm_unmap_page_in_address_space. rewrite (get_page_table_from_spec st g Hv p Hp va Hva).
  assert (Hsame : gM g !! (p, uslot va) = None -> page_set p va None st st g g).
  { intros E. split; try done. intros k. destruct (decide (k = _)) as [->|]; [|done]. unfold content. by rewrite E. }
  destruct (gT g !! (p, upath va)) as [t|] eqn:Et; cbn [fmap option_fmap option_map].
  2:{ exists g. apply Hsame. eapply (no_table_no_map _ st g p (upath va) (uslot va) Hs); [cbn; lia|done|by eexists]. }
  pose proof (sh_leaf _ _ _ Hs p (upath va) t _ Et eq_refl (table_index_lt va 12) ltac:(by intros [])) as Hw. fold (uslot va) in Hw.
  cbn zeta. destruct (gM g !! (p, uslot va)) as [e|] eqn:Ek; [|rewrite Hw; exists g; by apply Hsame].
  destruct (sh_data _ _ _ Hs _ _ Ek) as (D1 & D2 & _). rewrite Hw, D1.
  destruct (phys_page_frame _ _ _ Hs _ (data_page _ _ _ Hs _ _ Ek)) as [_ Hpos]. rewrite (proj2 (Z.eqb_neq (pte_addr e) 0)) by lia. cbn [negb].
  unfold drop_entry. rewrite D2.
  destruct (drop_map live (eq (p, uslot va)) st g (p, uslot va) e Hv Ek ltac:(by intros ? []) eq_refl) as (Hs1 & Hc1 & Ha1).
  pose proof (clear_leaf _ _ _ Hs1 live p (upath va) t (table_index va 12) 0 ltac:(by intros k <-; right) Et eq_refl (table_index_lt va 12) eq_refl) as Hs2.
  cbn [gT gM gH gL] in Hs2. fold (uslot va) in Hs2. rewrite delete_delete_eq in Hs2.
  exists (mk_ghost (gT g) (delete (p, uslot va) (gM g)) (gH g) (gL g)). split; try done.
  - split; [apply drop_layout|apply (proj1 (drop_kernel (pte_addr e) st))].
  - intros k. unfold content. cbn [gM]. destruct (decide (k = (p, uslot va))) as [->|Hk]; [by rewrite lookup_delete_eq|].
    rewrite lookup_delete_ne by done. destruct (gM g !! k) as [e'|] eqn:E'; [|done]. cbn. f_equal. rewrite words_put_ne.
    + unfold page_words. by rewrite (proj2 (drop_kernel _ _)).
    + intros E2. destruct (sh_data _ _ _ Hs _ _ E') as (_ & _ & _ & _ & H5). apply (H5 (p, upath va)). by rewrite E2.
Qed.

(** ** The loop *)

Section Loop.
Context (p old : Z) (Hold : old mod PAGE_SIZE = 0).

Definition heap_addr (i : Z) : Z := old + i * PAGE_SIZE.
Definition heap_keys (l : list Z) : list key := (fun i => (p, uslot (heap_addr i))) <$> l.

(** The pages of [l] are [ws] now. *)
Record pages_set (l : list Z) (ws : option (list Z)) (st st' : vm) (g g' : ghost) : Prop := {
  pg_inv : vinv live st' g';
  pg_held : gH g' = gH g;
  pg_layout : same_layout st st' /\ g_kernel_pml4_phys st' = g_kernel_pml4_phys st;
  pg_roots : forall x, gT g' !! (x, []) = gT g !! (x, []);
  pg_content : forall k, content st' g' k = if decide (k ∈ heap_keys l) then ws else content st g k;
}.

Lemma pages_set_nil ws st g : vinv live st g -> pages_set [] ws st st g g.
Proof. intros Hv. split; try done. Qed.

Lemma pages_set_snoc l i ws st st1 st2 g g1 g2 :
  pages_set l ws st st1 g g1 -> page_set p (heap_addr i) ws st1 st2 g1 g2 -> pages_set (l ++ [i]) ws st st2 g g2.
Proof.
  intros [A1 A2 [A3 A3'] A4 A5] [B1 B2 [B3 B3'] B4 B5]. split; [done|congruence|split; [by eapply same_layout_trans|congruence]|by intros x; rewrite B4|].
  intros k. rewrite B5, A5. unfold heap_keys. rewrite fmap_app. cbn [fmap list_fmap].
  destruct (decide (k = (p, uslot (heap_addr i)))) as [->|Hne].
  - rewrite decide_True by (apply elem_of_app; right; apply list_elem_of_singleton; done). done.
  - destruct (decide (k ∈ _)) as [Hin|Hin]; [rewrite decide_True by (apply elem_of_app; by left); done|].
    rewrite decide_False; [done|]. rewrite elem_of_app, list_elem_of_singleton. by intros [?|?].
Qed.

Lemma undo_spec l st g :
  vinv live st g -> gT g !! (p, []) = Some p -> (forall i, i ∈ l -> user_addr (heap_addr i)) ->
  exists g', pages_set l None st (foldl (fun st k => mm_unmap_page_in_address_space st p (heap_addr k)) st l) g g'.
Proof.
  intros Hv Hp. induction l as [|i l IH] using rev_ind; intros Hl; [exists g; by apply pages_set_nil|].
  destruct IH as (g1 & H1); [intros j Hj; apply Hl; set_solver|]. rewrite foldl_app. cbn [foldl].
  edestruct (unmap_page _ g1 p (heap_addr i) (pg_inv _ _ _ _ _ _ H1)) as (g2 & H2).
  - by rewrite (pg_roots _ _ _ _ _ _ H1).
  - apply Hl. set_solver.
  - exists g2. by eapply pages_set_snoc.
Qed.

Lemma heap_addr_inj i j : user_addr (heap_addr i) -> user_addr (heap_addr j) -> uslot (heap_addr i) = uslot (heap_addr j) -> i = j.
Proof.
  intros Hi Hj E.
  assert (Hz : forall k, user_addr (heap_addr k) -> table_index (heap_addr k) 3 = 0%nat).
  { intros k [Hk _]. apply Nat2Z.inj. rewrite table_index_div by lia. change (Z.of_nat 0) with 0. unfold heap_addr, PAGE_SIZE in *.
    apply Z.mod_divide in Hold as [m Em]; [|lia]. rewrite Em. replace (m * 4096 + k * 4096) with ((m + k) * 512 * 2 ^ 3) by lia.
    rewrite Z.div_mul by lia. apply Z.mod_mul. lia. }
  assert (Hw : heap_addr i / 8 = heap_addr j / 8) by (apply same_word; try done; by rewrite !Hz).
  unfold heap_addr, PAGE_SIZE in *. apply Z.mod_divide in Hold as [m Em]; [|lia]. rewrite Em in Hw.
  replace (m * 4096 + i * 4096) with ((m + i) * 512 * 8) in Hw by lia. replace (m * 4096 + j * 4096) with ((m + j) * 512 * 8) in Hw by lia.
  rewrite !Z.div_mul in Hw by lia. lia.
Qed.

Lemma pages_set_undo l st st1 st2 g g1 g2 :
  (forall k, k ∈ heap_keys l -> content st g k = None) ->
  pages_set l (Some zero_page) st st1 g g1 -> pages_set l None st1 st2 g1 g2 -> pages_set [] (Some zero_page) st st2 g g2.
Proof.
  intros Hn [A1 A2 [A3 A3'] A4 A5] [B1 B2 [B3 B3'] B4 B5]. split; [done|congruence|split; [by eapply same_layout_trans|congruence]|by intros x; rewrite B4|].
  intros k. rewrite B5, A5. destruct (decide (k ∈ heap_keys l)); [|done]. by rewrite Hn.
Qed.

Lemma brk_loop_spec n : forall j st0 g0 st g, 0 <= j ->
  gT g0 !! (p, []) = Some p -> pages_set (seqZ 0 j) (Some zero_page) st0 st g0 g ->
  (forall i, 0 <= i < j + Z.of_nat n -> user_addr (heap_addr i) /\ content st0 g0 (p, uslot (heap_addr i)) = None) ->
  let '(st', ok) := brk_loop n st p old (heap_addr j) in
  exists g', pages_set (if ok then seqZ 0 (j + Z.of_nat n) else []) (Some zero_page) st0 st' g0 g'.
Proof.
  induction n as [|n IH]; intros j st0 g0 st g Hj Hp H Hun; cbn [brk_loop].
  { exists g. by rewrite Z.add_0_r. }
  pose proof (pg_inv _ _ _ _ _ _ H) as Hv.
  assert (Hp' : gT g !! (p, []) = Some p) by (by rewrite (pg_roots _ _ _ _ _ _ H)).
  assert (Hundo : forall st1 g1, pages_set (seqZ 0 j) (Some zero_page) st0 st1 g0 g1 ->
    exists g', pages_set [] (Some zero_page) st0 (foldl (fun st k => mm_unmap_page_in_address_space st p (old + k * PAGE_SIZE)) st1
      (seqZ 0 ((heap_addr j - old) / PAGE_SIZE))) g0 g').
  { intros st1 g1 H1. replace ((heap_addr j - old) / PAGE_SIZE) with j by (unfold heap_addr, PAGE_SIZE; rewrite Z.add_simpl_l, Z.div_mul; lia).
    destruct (undo_spec (seqZ 0 j) st1 g1 (pg_inv _ _ _ _ _ _ H1)) as (g2 & H2).
    - by rewrite (pg_roots _ _ _ _ _ _ H1).
    - intros i Hi%elem_of_seqZ. apply Hun. lia.
    - exists g2. eapply pages_set_undo; [|exact H1|exact H2]. intros k (i & -> & Hi%elem_of_seqZ)%list_elem_of_fmap. apply Hun. lia. }
  destruct (Hun j ltac:(lia)) as [Hva Hnone].
  assert (Hno : content st g (p, uslot (heap_addr j)) = None).
  { rewrite (pg_content _ _ _ _ _ _ H), decide_False; [done|]. intros (i & E & Hi%elem_of_seqZ)%list_elem_of_fmap.
    pose proof (heap_addr_inj j i Hva (proj1 (Hun i ltac:(lia))) (f_equal snd E : uslot (heap_addr j) = uslot (heap_addr i))). lia. }
  pose proof (map_zero_page st g p (heap_addr j) Hv Hp' Hva Hno) as Hm. destruct (mm_allocate_physical_page (pm st)) as [s phys]. cbn zeta in Hm.
  destruct (phys =? 0); [rewrite Hm; by eapply Hundo|].
  destruct (mm_map_page_in_address_space _ p _ phys brk_flags) as [st2 ok]. destruct Hm as (g2 & Hm). destruct ok.
  - replace (heap_addr j + PAGE_SIZE) with (heap_addr (j + 1)) by (unfold heap_addr, PAGE_SIZE; lia).
    replace (j + Z.of_nat (S n)) with (j + 1 + Z.of_nat n) by lia. apply (IH (j + 1) st0 g0 st2 g2); [lia|done| |intros i Hi; apply Hun; lia].
    rewrite seqZ_app, Z.add_0_l by lia. by eapply pages_set_snoc.
  - apply (Hundo _ g2). destruct H as [A1 A2 [A3 A3'] A4 A5], Hm as [B1 B2 [B3 B3'] B4 B5].
    split; [done|congruence|split; [by eapply same_layout_trans|congruence]|by intros x; rewrite B4|].
    intros k. rewrite B5. destruct (decide (k = _)) as [->|]; [by rewrite <- A5|done].
Qed.

End Loop.
