(* ===== verification/Memory.v ===== *)
(** * The memory of processes, in any order of operations

    Fork, exit, stores and growing heaps as steps of one machine over the physical
    memory, and the simple machine they implement: every process has words of its
    own.  [memory_refines] is the simulation, [memory_no_leak] says what is left
    when the last process has gone. *)

From Stdlib Require Import ZArith Lia Bool.
From stdpp Require Import base list gmap fin_maps relations.
From S2P Require Import Prelude Pmm Paging AddressSpace Fork Destroy UserMemory Brk.

Open Scope Z_scope.

(** ** Pages and addresses *)

Lemma table_index_shift va s : 0 <= va -> 0 <= s -> Z.of_nat (table_index va (12 + s)) = (va / 4096 / 2 ^ s) mod 512.
Proof. intros Ha Hs. rewrite table_index_div, Z.pow_add_r by lia. by rewrite Z.div_div by lia. Qed.

Lemma uslot_page va va' : 0 <= va -> 0 <= va' -> va / 4096 = va' / 4096 -> uslot va = uslot va'.
Proof.
  intros H1 H2 E. assert (Ei : forall s, 0 <= s -> table_index va (12 + s) = table_index va' (12 + s)).
  { intros s Hs. apply Nat2Z.inj. rewrite !table_index_shift by lia. by rewrite E. }
  unfold uslot, upath.
  rewrite (Ei 27 ltac:(lia) : table_index va 39 = _), (Ei 18 ltac:(lia) : table_index va 30 = _), (Ei 9 ltac:(lia) : table_index va 21 = _).
  by rewrite (Ei 0 ltac:(lia) : table_index va 12 = _).
Qed.

Lemma same_page va va' : user_addr va -> user_addr va' -> uslot va = uslot va' <-> va / 4096 = va' / 4096.
Proof.
  intros Hva Hva'. split; [|destruct Hva, Hva'; by apply uslot_page]. intros E.
  assert (Hb : forall a, user_addr a -> user_addr (4096 * (a / 4096)) /\ uslot (4096 * (a / 4096)) = uslot a /\ table_index (4096 * (a / 4096)) 3 = 0%nat).
  { intros a [H1 H2]. pose proof (Z.mul_div_le a 4096 ltac:(lia)). pose proof (Z.div_pos a 4096 H1 ltac:(lia)). split_and!; [split; lia| |].
    - apply uslot_page; [lia|lia|]. by rewrite Z.mul_comm, Z.div_mul by lia.
    - apply Nat2Z.inj. rewrite table_index_div by lia. replace (4096 * (a / 4096)) with (a / 4096 * 512 * 2 ^ 3) by lia. rewrite Z.div_mul by lia.
      by apply Z.mod_mul. }
  destruct (Hb va Hva) as (A1 & A2 & A3), (Hb va' Hva') as (B1 & B2 & B3).
  assert (Hw : 4096 * (va / 4096) / 8 = 4096 * (va' / 4096) / 8) by (apply same_word; [done|done|by rewrite A2, B2, A3, B3]).
  replace (4096 * (va / 4096)) with (va / 4096 * 512 * 8) in Hw by lia. replace (4096 * (va' / 4096)) with (va' / 4096 * 512 * 8) in Hw by lia.
  rewrite !Z.div_mul in Hw by lia. lia.
Qed.

Lemma PAGE_ALIGN_spec a : 0 <= a < 2 ^ 48 -> PAGE_ALIGN a = 4096 * ((a + 4095) / 4096).
Proof.
  intros Ha. unfold PAGE_ALIGN, PAGE_SIZE. rewrite u64_small by lia. replace (a + 4096 - 1) with (a + 4095) by lia. change 0xFFF with (Z.ones 12).
  rewrite <- Z.ldiff_land, Z.ldiff_ones_r, Z.shiftl_mul_pow2, Z.shiftr_div_pow2 by lia. change (2 ^ 12) with 4096. lia.
Qed.

(** Loads after pages have been set. *)
Lemma pages_load p old n st st' g g' x va :
  old mod PAGE_SIZE = 0 -> vinv live st g -> gT g !! (x, []) = Some x -> user_addr va ->
  (forall i, 0 <= i < n -> user_addr (heap_addr old i)) -> 0 <= n ->
  pages_set p old (seqZ 0 n) (Some zero_page) st st' g g' ->
  user_load st' x va = if (x =? p) && (old <=? va) && (va <? old + n * PAGE_SIZE) then Some 0 else user_load st x va.
Proof.
  intros Hold Hv Hx Hva Hu Hn H. apply Z.mod_divide in Hold as [m Em]; [|done]. unfold PAGE_SIZE in *.
  rewrite (load_spec st' g' x va (pg_inv _ _ _ _ _ _ _ _ H)) by (done || by rewrite (pg_roots _ _ _ _ _ _ _ _ H)).
  rewrite (pg_content _ _ _ _ _ _ _ _ H), (load_spec st g x va Hv Hx Hva).
  destruct (decide ((x, uslot va) ∈ heap_keys p old (seqZ 0 n))) as [Hin|Hin].
  - apply list_elem_of_fmap in Hin as (i & E & Hi%elem_of_seqZ). assert (Hx' : x = p) by exact (f_equal fst E).
    pose proof (f_equal snd E : uslot va = uslot (heap_addr old i)) as E'. apply same_page in E'; [|done|apply Hu; lia].
    unfold heap_addr, PAGE_SIZE in E'. rewrite Em in E'. replace (m * 4096 + i * 4096) with ((m + i) * 4096) in E' by lia. rewrite Z.div_mul in E' by lia.
    pose proof (Z.div_mod va 4096). pose proof (Z.mod_pos_bound va 4096).
    replace (_ && _) with true by (symmetry; rewrite !andb_true_iff; lia). cbn [fmap option_fmap option_map]. f_equal.
    unfold zero_page. by rewrite lookup_replicate_2 by apply table_index_lt.
  - destruct ((x =? p) && (old <=? va) && (va <? old + n * 4096)) eqn:Eb; [|done]. exfalso. apply Hin.
    apply andb_true_iff in Eb as [[Exp H1]%andb_true_iff H2]. apply Z.eqb_eq in Exp as ->.
    pose proof (Z.div_mod va 4096). pose proof (Z.mod_pos_bound va 4096). set (i := va / 4096 - m).
    apply list_elem_of_fmap. exists i. split; [|apply elem_of_seqZ; unfold i; lia]. f_equal. apply same_page; [done|apply Hu; unfold i; lia|].
    unfold heap_addr, PAGE_SIZE. rewrite Em. replace (m * 4096 + i * 4096) with ((va / 4096) * 4096) by (unfold i; lia). by rewrite Z.div_mul by lia.
Qed.

(** The pages a heap needs for a new end are not mapped yet. *)
Definition heap_free (st : vm) (cur : task) (new_brk : Z) : Prop :=
  0 <= brk cur < 2 ^ 47 /\ 0 <= new_brk /\ 2 * 1024 * 1024 <= user_stack_top cur <= 2 ^ 47 /\
  forall va, PAGE_ALIGN (brk cur) <= va < PAGE_ALIGN new_brk -> user_addr va -> user_load st (pml4 cur) va = None.

Lemma sys_brk_inv st g cur new_brk :
  vinv live st g -> gT g !! (pml4 cur, []) = Some (pml4 cur) -> heap_free st cur new_brk ->
  let old := PAGE_ALIGN (brk cur) in
  let '(st', cur', r) := sys_brk st cur new_brk in
  exists g' n, 0 <= n /\ pages_set (pml4 cur) old (seqZ 0 n) (Some zero_page) st st' g g' /\
    (forall i, 0 <= i < n -> user_addr (heap_addr old i)) /\
    r = brk cur' /\ cur' = mk_task (pml4 cur) (brk_start cur) (brk cur') (user_stack_top cur) /\ (brk cur' = brk cur \/ brk cur' = new_brk) /\
    old mod PAGE_SIZE = 0 /\ old + n * PAGE_SIZE = Z.max old (PAGE_ALIGN (brk cur')).
Proof.
  intros Hv Hp (Hb & Hn & Ht & Hun) old. assert (Hmod : old mod PAGE_SIZE = 0).
  { unfold old. rewrite PAGE_ALIGN_spec by lia. unfold PAGE_SIZE. by rewrite Z.mul_comm, Z.mod_mul by lia. }
  assert (Hsame : exists g' n, 0 <= n /\ pages_set (pml4 cur) old (seqZ 0 n) (Some zero_page) st st g g' /\ (forall i, 0 <= i < n -> user_addr (heap_addr old i)) /\
    brk cur = brk cur /\ cur = mk_task (pml4 cur) (brk_start cur) (brk cur) (user_stack_top cur) /\ (brk cur = brk cur \/ brk cur = new_brk) /\
    old mod PAGE_SIZE = 0 /\ old + n * PAGE_SIZE = Z.max old (PAGE_ALIGN (brk cur))).
  { exists g, 0. split_and!; try done; [lia|by destruct cur|by left|]. unfold old, PAGE_SIZE. lia. }
  unfold sys_brk. rewrite u64_small by lia. destruct (new_brk =? 0); [done|]. destruct (new_brk <? brk_start cur); [done|].
  destruct (Z.leb_spec (user_stack_top cur - 2 * 1024 * 1024) new_brk) as [_|Hlt]; [done|]. cbn zeta. fold old.
  destruct (Z.ltb_spec (brk cur) new_brk) as [Hgrow|Hshrink].
  2:{ exists g, 0. cbn [brk]. split_and!; try done; [lia|by right|]. unfold old, PAGE_SIZE. rewrite !PAGE_ALIGN_spec by lia.
      pose proof (Z.div_le_mono (new_brk + 4095) (brk cur + 4095) 4096). lia. }
  set (N := (PAGE_ALIGN new_brk - old) / PAGE_SIZE).
  assert (HN : 0 <= N /\ old + N * PAGE_SIZE = PAGE_ALIGN new_brk).
  { unfold N, old, PAGE_SIZE. rewrite !PAGE_ALIGN_spec by lia. rewrite <- Z.mul_sub_distr_l, (Z.mul_comm 4096 (_ - _)), Z.div_mul by lia.
    pose proof (Z.div_le_mono (brk cur + 4095) (new_brk + 4095) 4096). lia. }
  destruct HN as [HN0 HN].
  assert (Hend : PAGE_ALIGN new_brk < 2 ^ 47).
  { rewrite PAGE_ALIGN_spec by lia. pose proof (Z.mul_div_le (new_brk + 4095) 4096). lia. }
  assert (Hold0 : 0 <= old) by (unfold old; rewrite PAGE_ALIGN_spec by lia; pose proof (Z.div_pos (brk cur + 4095) 4096); lia).
  assert (Hu : forall i, 0 <= i < N -> user_addr (heap_addr old i) /\ content st g (pml4 cur, uslot (heap_addr old i)) = None).
  { intros i Hi. assert (Hr : old <= heap_addr old i < PAGE_ALIGN new_brk) by (unfold heap_addr, PAGE_SIZE in *; lia).
    assert (Hua : user_addr (heap_addr old i)) by (split; lia). split; [done|]. specialize (Hun _ Hr Hua).
    rewrite (load_spec st g _ _ Hv Hp Hua) in Hun. by destruct (content _ _ _). }
  pose proof (brk_loop_spec (pml4 cur) old Hmod (Z.to_nat N) 0 st g st g ltac:(lia) Hp (pages_set_nil _ _ _ st g Hv)
    ltac:(intros i Hi; apply Hu; lia)) as Hloop. unfold heap_addr in Hloop. rewrite Z.mul_0_l, Z.add_0_r in Hloop.
  destruct (brk_loop _ _ _ _ _) as [st' ok]. destruct Hloop as (g' & H). destruct ok.
  - rewrite Z.add_0_l, Z2Nat.id in H by done. exists g', N. cbn [brk]. split_and!; try done; [intros i Hi; by apply Hu|by right|]. rewrite HN.
    unfold PAGE_SIZE in *. lia.
  - exists g', 0. split_and!; try done; [lia|by destruct cur|by left|]. unfold old, PAGE_SIZE. lia.
Qed.

(** ** The machine *)

(** Memory in order for the processes [P]; the pages [H] belong to the kernel. *)
Definition memory_ok (st : vm) (P : gset Z) (H : gset Z) : Prop :=
  exists g, vinv live st g /\ kernel_root st g /\ gH g = H /\ forall p, p ∈ P <-> is_Some (gT g !! (p, [])).

Inductive mop :=
  | New
  | Fork (p : Z)
  | Exit (p : Z)
  | Store (p va v : Z)
  | Brk (cur : task) (new_brk : Z).

Inductive mstep : vm * gset Z -> mop -> vm * gset Z -> Prop :=
  | m_new st P st' q :
      mm_create_user_address_space st = (st', q) -> mstep (st, P) New (st', if q =? 0 then P else {[q]} ∪ P)
  | m_fork st P p st' q :
      p ∈ P -> (forall d, refcount_at (pm st) d < 0x7FFF) -> mm_clone_address_space p st = (st', q) ->
      mstep (st, P) (Fork p) (st', if q =? 0 then P else {[q]} ∪ P)
  | m_exit st P p : p ∈ P -> mstep (st, P) (Exit p) (mm_destroy_address_space p st, P ∖ {[p]})
  | m_store st P p va v : p ∈ P -> user_addr va -> mstep (st, P) (Store p va v) ((user_store 2 st p va v).1, P)
  | m_brk st P cur new_brk :
      pml4 cur ∈ P -> heap_free st cur new_brk -> mstep (st, P) (Brk cur new_brk) ((sys_brk st cur new_brk).1.1, P).

(** *** The specification *)

(** The word a process finds at an address. *)
Definition view : Type := Z -> Z -> option Z.

Definition same_view (P : gset Z) (V V' : view) : Prop := forall x va, x ∈ P -> user_addr va -> V' x va = V x va.

Inductive astep : gset Z * view -> mop -> gset Z * view -> Prop :=
  | a_none P V V' op : same_view P V V' -> (forall p, op <> Exit p) -> astep (P, V) op (P, V')
  | a_new P V V' q :
      q ∉ P -> same_view P V V' -> (forall va, user_addr va -> V' q va = None) -> astep (P, V) New ({[q]} ∪ P, V')
  | a_fork P V V' p q :
      q ∉ P -> same_view P V V' -> (forall va, user_addr va -> V' q va = V p va) -> astep (P, V) (Fork p) ({[q]} ∪ P, V')
  | a_exit P V V' p : same_view (P ∖ {[p]}) V V' -> astep (P, V) (Exit p) (P ∖ {[p]}, V')
  | a_store P V V' p va v :
      is_Some (V p va) ->
      (forall x a, x ∈ P -> user_addr a -> V' x a = if (x =? p) && (a / 8 =? va / 8) then Some v else V x a) ->
      astep (P, V) (Store p va v) (P, V')
  | a_brk P V V' cur new_brk :
      (forall x a, x ∈ P -> user_addr a ->
         V' x a = if (x =? pml4 cur) && (PAGE_ALIGN (brk cur) <=? a) && (a <? PAGE_ALIGN new_brk) then Some 0 else V x a) ->
      astep (P, V) (Brk cur new_brk) (P, V').

(** *** The simulation *)

Lemma root_eq st g p : vinv live st g -> is_Some (gT g !! (p, [])) -> gT g !! (p, []) = Some p.
Proof. intros (Hs & _) [f Hf]. by rewrite (sh_root _ _ _ Hs _ _ Hf) in Hf. Qed.

Lemma load_content st st' g g' x x' va :
  vinv live st g -> vinv live st' g' -> gT g !! (x, []) = Some x -> gT g' !! (x', []) = Some x' -> user_addr va ->
  content st' g' (x', uslot va) = content st g (x, uslot va) -> user_load st' x' va = user_load st x va.
Proof. intros Hv Hv' Hx Hx' Hva E. by rewrite (load_spec st' g' x' va), (load_spec st g x va), E. Qed.

Lemma new_step st P H st' q :
  memory_ok st P H -> mm_create_user_address_space st = (st', q) ->
  memory_ok st' (if q =? 0 then P else {[q]} ∪ P) H /\
  astep (P, user_load st) New (if q =? 0 then P else {[q]} ∪ P, user_load st').
Proof.
  intros (g & Hv & Hk & HH & HP) E. destruct (create_spec st g st' q Hv E) as [[-> ->]|(Hq & Hno & Hph & HqH & Hl & Ek & Hw & L & Hv')].
  { rewrite Z.eqb_refl. split; [by exists g|by apply a_none]. }
  rewrite (proj2 (Z.eqb_neq q 0)) by done. set (g' := mk_ghost _ _ _ _) in Hv'. pose proof Hv as (Hs & _).
  assert (HqP : q ∉ P) by (intros Hin%HP; rewrite (proj1 (Hno [])) in Hin; by destruct Hin).
  assert (Hr : forall x, x <> q -> gT g' !! (x, []) = gT g !! (x, [])) by (intros x Hx; cbn; by rewrite lookup_insert_ne by congruence).
  split; [exists g'; split_and!; [done|by apply (kernel_root_kept st _ g g')|done|]|apply a_new; [done|..]].
  - intros x. rewrite elem_of_union, elem_of_singleton. destruct (decide (x = q)) as [->|Hne]; [cbn; rewrite lookup_insert_eq; split; [by eexists|by left]|].
    rewrite Hr, HP by done. split; [by intros [|]|by right].
  - intros x va Hx Hva. assert (Hxq : x <> q) by congruence. apply HP in Hx. pose proof (root_eq st g x Hv Hx) as Hxr.
    apply (load_content st st' g g' x x va Hv Hv' Hxr); [by rewrite Hr|done|]. apply content_eq; [by destruct Hv'|done|].
    intros e He. apply Hw. intros Eq. destruct Hv' as (Hs' & _). destruct (sh_data _ _ _ Hs' _ _ He) as (_ & _ & _ & _ & H5).
    apply (H5 (q, [])). cbn [gT g']. rewrite Eq. apply lookup_insert_eq.
  - intros va Hva. rewrite (load_spec st' g' q va Hv'); [|cbn; apply lookup_insert_eq|done]. unfold content. cbn [gM g']. by rewrite (proj2 (Hno _)).
Qed.

Lemma fork_step st P H p st' q :
  memory_ok st P H -> p ∈ P -> (forall d, refcount_at (pm st) d < 0x7FFF) -> mm_clone_address_space p st = (st', q) ->
  memory_ok st' (if q =? 0 then P else {[q]} ∪ P) H /\
  astep (P, user_load st) (Fork p) (if q =? 0 then P else {[q]} ∪ P, user_load st').
Proof.
  intros (g & Hv & Hk & HH & HP) Hp Hr E. pose proof (root_eq st g p Hv (proj1 (HP p) Hp)) as Hroot.
  pose proof (fork_inv st g p Hv Hk Hroot Hr) as Hf. rewrite E in Hf. destruct Hf as (g' & [A1 A2 A3 A4 A5] & Hq & Hf).
  assert (HqP : q ∉ P) by (intros Hin%HP; rewrite Hq in Hin; by destruct Hin).
  assert (Hview : same_view P (user_load st) (user_load st')).
  { intros x va Hx Hva. assert (Hxq : x <> q) by congruence. apply HP in Hx. pose proof (root_eq st g x Hv Hx) as Hxr.
    apply (load_content st st' g g' x x va Hv A1 Hxr); [by rewrite A4|done|by apply A5]. }
  assert (HP' : forall x, x <> q -> x ∈ P <-> is_Some (gT g' !! (x, []))) by (intros x Hx; rewrite A4 by done; apply HP).
  destruct (q =? 0).
  - split; [|by apply a_none]. exists g'. split_and!; try done; [congruence|]. intros x. destruct (decide (x = q)) as [->|]; [|by apply HP'].
    rewrite Hf. split; [done|by intros []].
  - destruct Hf as (Hq' & Hc & _). split.
    + exists g'. split_and!; try done; [congruence|]. intros x. rewrite elem_of_union, elem_of_singleton.
      destruct (decide (x = q)) as [->|Hne]; [rewrite Hq'; split; [by eexists|by left]|]. rewrite HP' by done. split; [by intros [|]|by right].
    + apply a_fork; [done|done|]. intros va Hva. by apply (load_content st st' g g' p q va).
Qed.

Lemma exit_step st P H p :
  memory_ok st P H -> p ∈ P ->
  memory_ok (mm_destroy_address_space p st) (P ∖ {[p]}) H /\
  astep (P, user_load st) (Exit p) (P ∖ {[p]}, user_load (mm_destroy_address_space p st)).
Proof.
  intros (g & Hv & Hk & HH & HP) Hp. pose proof (root_eq st g p Hv (proj1 (HP p) Hp)) as Hroot.
  destruct (exit_inv st g p Hv Hk Hroot) as (g' & [A1 A2 A3 A4 A5] & Hgone). split.
  - exists g'. split_and!; try done; [congruence|]. intros x. rewrite elem_of_difference, elem_of_singleton, HP.
    destruct (decide (x = p)) as [->|Hne]; [rewrite (proj1 (Hgone [])); split; [by intros [_ ?]|by intros []]|]. rewrite A4 by done. tauto.
  - apply a_exit. intros x va [Hx Hne%not_elem_of_singleton]%elem_of_difference Hva. apply HP in Hx. pose proof (root_eq st g x Hv Hx) as Hxr.
    apply (load_content st _ g g' x x va Hv A1 Hxr); [by rewrite A4|done|by apply A5].
Qed.

Lemma store_step st P H p va v :
  memory_ok st P H -> p ∈ P -> user_addr va ->
  let '(st', ok) := user_store 2 st p va v in
  memory_ok st' P H /\
  (forall x a, x ∈ P -> user_addr a -> user_load st' x a = if ok && (x =? p) && (a / 8 =? va / 8) then Some v else user_load st x a) /\
  (ok = true -> is_Some (user_load st p va)) /\
  (writable st p va = false -> ok = false) /\ (writable st p va = true -> pfree (pm st) <> ∅ -> ok = true).
Proof.
  intros (g & Hv & Hk & HH & HP) Hp Hva. pose proof (root_eq st g p Hv (proj1 (HP p) Hp)) as Hroot.
  pose proof (user_store_spec st g p va v Hv Hroot Hva) as Hs. destruct (user_store 2 st p va v) as [st' ok].
  destruct Hs as (g' & [K1 K2 K3 [K4 K5]] & Hc & Hm & Hw). split_and!; try apply Hw.
  - exists g'. split_and!; [done|by apply (kernel_root_kept st _ g g')|congruence|by rewrite K2].
  - intros x a Hx Ha. apply HP in Hx. pose proof (root_eq st g x Hv Hx) as Hxr.
    rewrite (load_spec st' g' x a K1 ltac:(by rewrite K2) Ha), Hc, (load_spec st g x a Hv Hxr Ha).
    destruct ok; cbn [andb]; [|rewrite decide_False by (by intros [? _]); done].
    destruct (decide (true = true /\ (x, uslot a) = (p, uslot va))) as [[_ E]|Hne].
    + assert (Ex : x = p) by exact (f_equal fst E). pose proof (f_equal snd E : uslot a = uslot va) as Ea. subst x. rewrite Z.eqb_refl. cbn [andb].
      destruct (Hm eq_refl) as [ws Hws]. rewrite Ea, Hws. cbn [fmap option_fmap option_map].
      destruct (Z.eqb_spec (a / 8) (va / 8)) as [E8|E8].
      * apply same_word in E8 as [_ ->]; [|done|done]. rewrite list_lookup_alter_eq.
        assert (Hlen : length ws = 512%nat).
        { unfold content in Hws. apply fmap_Some in Hws as (e & He & ->). destruct Hv as (Hs & _).
          destruct (frame_words _ _ _ Hs _ (data_page _ _ _ Hs _ _ He)) as (ws & _ & Hl & ->). done. }
        destruct (lookup_lt_is_Some_2 ws (table_index va 3)) as [y Hy]; [rewrite Hlen; apply table_index_lt|]. by rewrite Hy.
      * rewrite list_lookup_alter_ne; [done|]. intros E3. apply E8, same_word; try done.
    + destruct ((x =? p) && (a / 8 =? va / 8)) eqn:Eb; [|done]. exfalso. apply Hne. apply andb_true_iff in Eb as [->%Z.eqb_eq E8%Z.eqb_eq].
      apply same_word in E8 as [-> _]; done.
  - intros Hok. destruct (Hm Hok) as [ws Hws]. rewrite (load_spec st g p va Hv Hroot Hva), Hws. by eexists.
Qed.

Lemma brk_step st P H cur new_brk :
  memory_ok st P H -> pml4 cur ∈ P -> heap_free st cur new_brk ->
  let '(st', cur', r) := sys_brk st cur new_brk in
  memory_ok st' P H /\
  (forall x a, x ∈ P -> user_addr a -> user_load st' x a =
     if (x =? pml4 cur) && (PAGE_ALIGN (brk cur) <=? a) && (a <? PAGE_ALIGN (brk cur')) then Some 0 else user_load st x a) /\
  r = brk cur' /\ cur' = mk_task (pml4 cur) (brk_start cur) (brk cur') (user_stack_top cur) /\ (brk cur' = brk cur \/ brk cur' = new_brk).
Proof.
  intros (g & Hv & Hk & HH & HP) Hp Hh. pose proof (root_eq st g _ Hv (proj1 (HP _) Hp)) as Hroot.
  pose proof (sys_brk_inv st g cur new_brk Hv Hroot Hh) as Hb. cbn zeta in Hb. destruct (sys_brk st cur new_brk) as [[st' cur'] r].
  destruct Hb as (g' & n & Hn & Hpg & Hu & Hr & Hcur & Hor & Hmod & Hend). split_and!; try done.
  - destruct Hpg as [A1 A2 [A3 A3'] A4 A5]. exists g'. split_and!; [done|by apply (kernel_root_kept st _ g g')|congruence|]. intros x. by rewrite A4.
  - intros x a Hx Ha. apply HP in Hx. rewrite (pages_load _ _ n st st' g g' x a Hmod Hv (root_eq st g x Hv Hx) Ha Hu Hn Hpg), Hend.
    destruct (x =? pml4 cur); [|done]. cbn [andb]. destruct (Z.leb_spec (PAGE_ALIGN (brk cur)) a); [|done]. cbn [andb].
    destruct (Z.ltb_spec a (Z.max (PAGE_ALIGN (brk cur)) (PAGE_ALIGN (brk cur')))), (Z.ltb_spec a (PAGE_ALIGN (brk cur'))); try done; lia.
Qed.

Lemma mstep_sim s op s' H :
  mstep s op s' -> memory_ok s.1 s.2 H -> memory_ok s'.1 s'.2 H /\ astep (s.2, user_load s.1) op (s'.2, user_load s'.1).
Proof.
  intros [st P st' q E|st P p st' q Hp Hr E|st P p Hp|st P p va v Hp Hva|st P cur new_brk Hp Hh] Hok; cbn [fst snd] in *.
  - by apply new_step.
  - by apply fork_step.
  - by apply exit_step.
  - pose proof (store_step st P H p va v Hok Hp Hva) as Hs. destruct (user_store 2 st p va v) as [st' ok]. cbn [fst].
    destruct Hs as (Hok' & Hl & Hm & _). split; [done|]. destruct ok; [by apply a_store; [apply Hm|]|]. apply a_none; [|done].
    intros x a Hx Ha. by rewrite Hl.
  - pose proof (brk_step st P H cur new_brk Hok Hp Hh) as Hs. destruct (sys_brk st cur new_brk) as [[st' cur'] r]. cbn [fst].
    destruct Hs as (Hok' & Hl & _ & _ & [E|E]); rewrite E in Hl; split; [done| |done|by apply a_brk].
    apply a_none; [|done]. intros x a Hx Ha. rewrite Hl by done.
    destruct (Z.leb_spec (PAGE_ALIGN (brk cur)) a), (Z.ltb_spec a (PAGE_ALIGN (brk cur))); try lia; by rewrite ?andb_false_r.
Qed.

(** *** Runs *)

Inductive mrun : vm * gset Z -> list mop -> vm * gset Z -> Prop :=
  | mrun_nil s : mrun s [] s
  | mrun_cons s op s1 ops s' : mstep s op s1 -> mrun s1 ops s' -> mrun s (op :: ops) s'.

Inductive arun : gset Z * view -> list mop -> gset Z * view -> Prop :=
  | arun_nil s : arun s [] s
  | arun_cons s op s1 ops s' : astep s op s1 -> arun s1 ops s' -> arun s (op :: ops) s'.

Lemma mrun_sim_pair s ops s' H :
  mrun s ops s' -> memory_ok s.1 s.2 H -> memory_ok s'.1 s'.2 H /\ arun (s.2, user_load s.1) ops (s'.2, user_load s'.1).
Proof.
  induction 1 as [s|s op s1 ops s' Hs Hr IH]; intros Hok; [split; [done|constructor]|].
  destruct (mstep_sim s op s1 H Hs Hok) as [Hok1 Ha]. destruct (IH Hok1) as [Hok' Har]. split; [done|by econstructor].
Qed.

Lemma mrun_sim st P H ops st' P' :
  memory_ok st P H -> mrun (st, P) ops (st', P') -> memory_ok st' P' H /\ arun (P, user_load st) ops (P', user_load st').
Proof. intros Hok Hr. exact (mrun_sim_pair _ _ _ H Hr Hok). Qed.

(** ** The theorems *)

(** C2. Processes have memory of their own, in every order of operations: creating,
    forking and ending processes, stores (with the page faults they cause) and
    growing heaps keep the page tables, the reference counts and the free pages
    consistent, and what the processes read is what the simple machine [astep]
    allows: a store changes one word of one process, a child starts with all the
    words of its parent, new heap pages are zero, and everything else stays. *)
Theorem memory_refines st P H ops st' P' :
  memory_ok st P H -> mrun (st, P) ops (st', P') -> memory_ok st' P' H /\ arun (P, user_load st) ops (P', user_load st').
Proof. apply mrun_sim. Qed.

(** C5. No page is lost: after any run that ends without processes, every physical
    page and every page of the pool for tables is free again, except those the
    kernel held from the start. *)
Theorem memory_no_leak st P H ops st' :
  memory_ok st P H -> mrun (st, P) ops (st', ∅) ->
  exists L, flist st' (pt_pool_freelist st') L /\ forall f, phys_page st' f -> f ∈ H \/ free_frame st' L f.
Proof.
  intros Hok Hr. destruct (mrun_sim _ _ H _ _ _ Hok Hr) as [(g & (Hs & _ & Ha) & _ & HH & HP) _]. cbn [fst snd] in *.
  assert (HT : forall p pi, gT g !! (p, pi) = None).
  { intros p pi. destruct (gT g !! (p, pi)) as [t|] eqn:E; [|done]. destruct (table_prefix _ _ g p [] pi t Hs E) as [u Hu].
    assert (Hin : p ∈ (∅ : gset Z)) by (apply HP; by eexists). set_solver. }
  exists (gL g). split; [apply (sh_list _ _ _ Hs)|]. intros f Hf. destruct (Ha f Hf) as [?|[[[p pi] Hk]|[([p ka] & e & He & _)|?]]]; [by right| | |].
  - by rewrite HT in Hk.
  - destruct (sh_leaf_path _ _ _ Hs _ _ _ He) as (pi & i & _ & _ & _ & [t Ht]). by rewrite HT in Ht.
  - left. congruence.
Qed.

(** C14. A program can store wherever it may: if the page is writable, or shared
    copy-on-write, and a physical page is free, the store is done (after at most one
    page fault), the program reads the value back, and no other process and no other
    word changes. *)
Theorem user_store_done st P H p va v :
  memory_ok st P H -> p ∈ P -> user_addr va -> writable st p va = true -> pfree (pm st) <> ∅ ->
  let '(st', ok) := user_store 2 st p va v in
  ok = true /\ user_load st' p va = Some v /\
  forall x a, x ∈ P -> user_addr a -> x <> p \/ a / 8 <> va / 8 -> user_load st' x a = user_load st x a.
Proof.
  intros Hok Hp Hva Hw Hf. pose proof (store_step st P H p va v Hok Hp Hva) as Hs. destruct (user_store 2 st p va v) as [st' ok].
  destruct Hs as (_ & Hl & _ & _ & Hd). specialize (Hd Hw Hf). subst ok. split_and!; [done|..].
  - rewrite Hl by done. by rewrite !Z.eqb_refl.
  - intros x a Hx Ha Hne. rewrite Hl by done. destruct (Z.eqb_spec x p), (Z.eqb_spec (a / 8) (va / 8)); try done. by destruct Hne.
Qed.

(** C38. [sys_brk] returns the end of the heap, which is the old or the requested
    one; the pages between are zero, and nothing else changes for any process, also
    when memory runs out half-way. *)
Theorem sys_brk_spec st P H cur new_brk :
  memory_ok st P H -> pml4 cur ∈ P -> heap_free st cur new_brk ->
  let '(st', cur', r) := sys_brk st cur new_brk in
  memory_ok st' P H /\ r = brk cur' /\ (brk cur' = brk cur \/ brk cur' = new_brk) /\
  forall x a, x ∈ P -> user_addr a -> user_load st' x a =
    if (x =? pml4 cur) && (PAGE_ALIGN (brk cur) <=? a) && (a <? PAGE_ALIGN (brk cur')) then Some 0 else user_load st x a.
Proof.
  intros Hok Hp Hh. pose proof (brk_step st P H cur new_brk Hok Hp Hh) as Hs. destruct (sys_brk st cur new_brk) as [[st' cur'] r].
  destruct Hs as (H1 & H2 & H3 & _ & H5). by split_and!.
Qed.

(** ** A small machine *)

Definition demo_pm : mm_state := mk_mm [0] 32 32 0x20000 0x40000 (Some (replicate 32 0)) 0.

Definition demo_vm : vm :=
  mk_vm demo_pm (list_to_map ((fun i => (0x10000 + i * PAGE_SIZE, zero_page)) <$> seqZ 0 48)) 0x10000 16 0 0 0x1000.

Lemma demo_pm_ok : pmm_ok demo_pm.
Proof.
  split; cbn [physical_bitmap total_pages memory_start memory_end free_pages g_alloc_hint page_refcounts demo_pm].
  - by repeat constructor.
  - cbn. lia.
  - unfold PAGE_SIZE. lia.
  - intros p Hp. unfold is_page_allocated. cbn [physical_bitmap demo_pm]. pose proof (Z.div_le_mono 32 p 32 ltac:(lia) Hp) as Hq. change (32 / 32) with 1 in Hq.
    rewrite lookup_ge_None_2; [done|cbn; lia].
  - by vm_compute.
  - cbn. lia.
  - by intros l [= <-].
Qed.

Lemma demo_ok : memory_ok demo_vm ∅ ∅.
Proof.
  exists (mk_ghost ∅ ∅ ∅ []). split_and!; [split_and!|..]; [split| | | | |]; cbn [gT gM gH gL]; try done.
  - exact demo_pm_ok.
  - intros f Hf. exists zero_page. split; [|done]. cbn [frames demo_vm]. apply elem_of_list_to_map_1.
    + rewrite <- list_fmap_compose. apply NoDup_fmap_2_strong; [|apply NoDup_seqZ]. intros i j _ _. cbn. unfold PAGE_SIZE. lia.
    + apply list_elem_of_fmap. destruct Hf as [(i & Hi & ->)|(d & Hd & ->)]; cbn in *; unfold pool_page, page_addr in *; cbn.
      * exists i. split; [done|apply elem_of_seqZ; lia].
      * exists (16 + d). unfold PAGE_SIZE. split; [f_equal; lia|apply elem_of_seqZ; lia].
  - split_and!; [done|constructor|by intros f Hf%not_elem_of_nil].
  - split.
    + intros d Hd. left. rewrite cnt_zero by (by intros k e He). unfold refcount_at. cbn [page_refcounts pm demo_vm demo_pm mbind option_bind].
      destruct (replicate 32 0 !! Z.to_nat d) as [x|] eqn:E; [|done]. by apply lookup_replicate in E as [-> _].
    + by intros k e d He.
    + by intros k e He.
  - intros f [(i & Hi & ->)|(d & Hd & ->)]; left; right; [left; exists i|right; exists d]; [by cbn in *|]. split; [|done].
    apply elem_of_pfree. split; [done|]. cbn in Hd. unfold is_page_allocated. cbn.
    rewrite (Z.div_small d 32) by lia. cbn. done.
  - right. intros [(i & Hi & E)|(d & Hd & E)]; cbn in *; unfold pool_page, page_addr, PAGE_SIZE in *; cbn in E; lia.
  - intros p. rewrite lookup_empty. split; [set_solver|by intros []].
Qed.

Definition demo_p : Z := 0x10000.
Definition demo_1 : vm := (mm_create_user_address_space demo_vm).1.
Definition demo_task : task := mk_task demo_p 0x400000 0x400000 0x7FF00000.
Definition demo_2 : vm := (sys_brk demo_1 demo_task 0x401000).1.1.
Definition demo_3 : vm := (mm_clone_address_space demo_p demo_2).1.
Definition demo_q : Z := (mm_clone_address_space demo_p demo_2).2.
Definition demo_4 : vm := (user_store 2 demo_3 demo_q 0x400008 7).1.
Definition demo_5 : vm := mm_destroy_address_space demo_p demo_4.
Definition demo_6 : vm := mm_destroy_address_space demo_q demo_5.

#[local] Strategy expand [demo_1 demo_2 demo_3 demo_4 demo_5 demo_6].

Lemma demo_values :
  (mm_create_user_address_space demo_vm).2 = demo_p /\ demo_q <> 0 /\ demo_q <> demo_p /\
  user_load demo_4 demo_p 0x400008 = Some 0 /\ user_load demo_4 demo_q 0x400008 = Some 7 /\ user_load demo_5 demo_q 0x400008 = Some 7 /\
  mm_get_free_pages (pm demo_4) = 30 /\ mm_get_free_pages (pm demo_6) = 32.
Proof. split_and!; by vm_compute. Qed.

(** A new process has nothing. *)
Lemma new_empty st P H st' q va :
  memory_ok st P H -> mm_create_user_address_space st = (st', q) -> q <> 0 -> user_addr va -> user_load st' q va = None.
Proof.
  intros (g & Hv & _) E Hq Hva. destruct (create_spec st g st' q Hv E) as [[? _]|(_ & Hno & _ & _ & _ & _ & _ & L & Hv')]; [done|].
  rewrite (load_spec st' _ q va Hv'); [|cbn; apply lookup_insert_eq|done]. unfold content. cbn [gM]. by rewrite (proj2 (Hno _)).
Qed.

Lemma few_references st l : page_refcounts (pm st) = Some l -> forallb (fun x => x <? 0x7FFF) l = true -> forall d, refcount_at (pm st) d < 0x7FFF.
Proof.
  intros E Hl d. unfold refcount_at. rewrite E. cbn [mbind option_bind]. destruct (l !! Z.to_nat d) as [x|] eqn:Ex; [|done]. cbn.
  apply Z.ltb_lt. eapply forallb_forall in Hl; [exact Hl|]. apply list_elem_of_In, list_elem_of_lookup. by eexists.
Qed.

Lemma demo_create : mm_create_user_address_space demo_vm = (demo_1, demo_p).
Proof. unfold demo_1. rewrite <- (proj1 demo_values). apply surjective_pairing. Qed.

Lemma demo_heap_free : heap_free demo_1 demo_task 0x401000.
Proof.
  split_and!; cbn; try lia. intros va _ Hva. by apply (new_empty demo_vm ∅ ∅ demo_1 demo_p va demo_ok demo_create).
Qed.

Lemma mrun_app s ops s1 ops' s' : mrun s ops s1 -> mrun s1 ops' s' -> mrun s (ops ++ ops') s'.
Proof. induction 1; intros Hr; [done|]. cbn. econstructor; eauto. Qed.

Lemma demo_run_3 :
  mrun (demo_vm, ∅) [New; Brk demo_task 0x401000; Fork demo_p] (demo_3, {[demo_q]} ∪ ({[demo_p]} ∪ ∅)).
Proof.
  eapply mrun_cons; [exact (m_new demo_vm ∅ demo_1 demo_p demo_create)|].
  eapply mrun_cons; [apply m_brk; [|exact demo_heap_free]; set_solver|].
  change ((sys_brk demo_1 demo_task 0x401000).1.1) with demo_2. eapply mrun_cons.
  { eapply (m_fork _ _ demo_p demo_3 demo_q); [set_solver| |apply surjective_pairing].
    eapply few_references; [by vm_compute|by vm_compute]. }
  rewrite (proj2 (Z.eqb_neq demo_q 0)) by apply demo_values. apply mrun_nil.
Qed.

Lemma demo_run :
  mrun (demo_vm, ∅) ([New; Brk demo_task 0x401000; Fork demo_p] ++ [Store demo_q 0x400008 7; Exit demo_p; Exit demo_q]) (demo_6, ∅).
Proof.
  eapply mrun_app; [exact demo_run_3|]. destruct demo_values as (_ & _ & Hqp & _).
  eapply mrun_cons; [apply m_store; [set_solver|split; lia]|]. change ((user_store 2 demo_3 demo_q 0x400008 7).1) with demo_4.
  eapply mrun_cons; [apply (m_exit _ _ demo_p); set_solver|]. eapply mrun_cons; [apply (m_exit _ _ demo_q); set_solver|].
  change (mm_destroy_address_space demo_q (mm_destroy_address_space demo_p demo_4)) with demo_6.
  match goal with |- mrun (_, ?X) _ _ => assert (X = ∅) as -> by set_solver end. apply mrun_nil.
Qed.

Lemma demo_3_ok : memory_ok demo_3 ({[demo_q]} ∪ ({[demo_p]} ∪ ∅)) ∅.
Proof. exact (proj1 (mrun_sim demo_vm ∅ ∅ _ demo_3 _ demo_ok demo_run_3)). Qed.

Lemma memory_refines_witness : memory_ok demo_3 ({[demo_q]} ∪ ({[demo_p]} ∪ ∅)) ∅ /\ user_load demo_3 demo_q 0x400008 = Some 0.
Proof.
  split; [|by vm_compute]. exact (proj1 (memory_refines demo_vm ∅ ∅ _ demo_3 _ demo_ok demo_run_3)).
Defined.

Lemma memory_no_leak_witness :
  exists L, flist demo_6 (pt_pool_freelist demo_6) L /\ forall f, phys_page demo_6 f -> f ∈ (∅ : gset Z) \/ free_frame demo_6 L f.
Proof. exact (memory_no_leak demo_vm ∅ ∅ _ demo_6 demo_ok demo_run). Defined.

(** The child stores into a page it shares with its parent. *)
Lemma user_store_done_witness : (user_store 2 demo_3 demo_q 0x400008 7).2 = true /\ user_load demo_4 demo_q 0x400008 = Some 7.
Proof.
  pose proof demo_3_ok as Hok.
  assert (Hf : pfree (pm demo_3) <> ∅) by (intros E; apply (f_equal size) in E; vm_compute in E; done).
  pose proof (user_store_done demo_3 _ ∅ demo_q 0x400008 7 Hok ltac:(set_solver) ltac:(split; lia) ltac:(by vm_compute) Hf) as H.
  unfold demo_4. destruct (user_store 2 demo_3 demo_q 0x400008 7) as [st' ok]. destruct H as (H1 & H2 & _). cbn [fst snd]. by split.
Defined.

Lemma sys_brk_spec_witness : memory_ok demo_2 ({[demo_p]} ∪ ∅) ∅ /\ (sys_brk demo_1 demo_task 0x401000).2 = 0x401000.
Proof.
  split; [|by vm_compute].
  assert (Hok : memory_ok demo_1 ({[demo_p]} ∪ ∅) ∅) by exact (proj1 (new_step demo_vm ∅ ∅ demo_1 demo_p demo_ok demo_create)).
  pose proof (sys_brk_spec demo_1 _ ∅ demo_task 0x401000 Hok ltac:(cbn; set_solver) demo_heap_free) as H.
  unfold demo_2. destruct (sys_brk demo_1 demo_task 0x401000) as [[st' cur'] r]. exact (proj1 H).
Defined.

(** ** What goes wrong *)

(** [fork] marks every page of the parent copy-on-write, read-only ones included; the
    fault handler then makes them writable. *)
Lemma fork_makes_writable st P H p st' q va :
  memory_ok st P H -> p ∈ P -> (forall d, refcount_at (pm st) d < 0x7FFF) -> mm_clone_address_space p st = (st', q) -> q <> 0 ->
  user_addr va -> is_Some (user_load st p va) -> writable st' p va = true /\ writable st' q va = true.
Proof.
  intros (g & Hv & Hk & _ & HP) Hp Hr E Hq Hva Hl. pose proof (root_eq st g p Hv (proj1 (HP p) Hp)) as Hroot.
  pose proof (fork_inv st g p Hv Hk Hroot Hr) as Hf. rewrite E, (proj2 (Z.eqb_neq q 0)) in Hf by done.
  destruct Hf as (g' & [A1 A2 A3 A4 A5] & Hno & Hq' & Hc & Hcow).
  assert (Hpq : p <> q) by congruence. assert (Hp' : gT g' !! (p, []) = Some p) by (by rewrite A4).
  rewrite (load_spec st g p va Hv Hroot Hva) in Hl. destruct (content st g (p, uslot va)) as [ws|] eqn:Ec; [|by destruct Hl].
  pose proof (Hc (uslot va)) as Hcq. pose proof (A5 p (uslot va) Hpq) as Hcp. rewrite Ec in Hcq, Hcp. unfold content in Hcq, Hcp.
  apply fmap_Some in Hcq as (eq' & Heq & _). apply fmap_Some in Hcp as (ep & Hep & _).
  unfold writable. rewrite (walk_spec st' g' A1 p Hp' va Hva), (walk_spec st' g' A1 q Hq' va Hva), Heq, Hep. cbn [fmap option_fmap option_map].
  by rewrite (Hcow (uslot va) ep), (Hcow (uslot va) eq'), !orb_true_r by auto.
Qed.

(** Two threads of a process store into the same shared page at once: both see the
    mark, both copy, and both drop the reference to the page, which is freed although
    the other process still has it. *)
Lemma cow_race :
  match cow_fault_check demo_3 demo_q 0x400008 with
  | CowCopy t i old rc =>
      let st := (cow_fault_copy (cow_fault_copy demo_3 t i old rc).1 t i old rc).1 in
      is_page_allocated (pm st) (page_to_index (pm st) old) = false /\
      (fun ew => pte_addr ew.1) <$> mmu_walk st demo_p 0x400008 = Some old
  | CowDone _ => False
  end.
Proof. vm_compute. done. Qed.

(** A heap that shrinks keeps its pages mapped; growing it again maps new pages over
    them, and the old ones are never freed. *)
Lemma brk_shrink_leaks :
  let '(st, cur, _) := sys_brk demo_1 demo_task 0x401000 in
  let '(st, cur, _) := sys_brk st cur 0x400000 in
  let '(st, cur, _) := sys_brk st cur 0x401000 in
  mm_get_free_pages (pm demo_vm) = 32 /\ mm_get_free_pages (pm (mm_destroy_address_space demo_p st)) = 31.
Proof. vm_compute. done. Qed.
