(* ===== verification/Slab.v ===== *)
(** * The kernel heap ([kernel/mm/slab.c])

    Blocks of up to 2048 bytes are objects of slab pages, one page size class at a
    time; larger blocks get pages of their own.  The physical pages and the kernel's
    page tables are behind the interface [PageOps].  A pointer is its address, a
    pointer to a slab page an [option].  The header of a slab page is a record in
    [slabs]; every other byte of the heap is in [mem], by its physical address, and
    is reached through the mapping, so that an access to an address that is not
    mapped is a page fault ([None]).

    A call under a lock is one step; where the code drops the lock of a cache, in
    [slab_alloc] and [slab_free], the function is cut into the parts that run under
    it.  Getting a page, giving one back and a large block are one step each, though
    the code takes the locks of the physical pages, of the addresses and of the page
    tables one after the other; so are the checks of [slab_free], which it makes
    before it takes the lock.  The statistics the code updates without a lock are
    updated in the step they belong to.  Messages and TLB shootdowns are left out. *)

From Stdlib Require Import ZArith Lia Bool.
From stdpp Require Import base list gmap.
From S2P Require Import Prelude Wire Pmm.

Open Scope Z_scope.

Definition SLAB_NUM_CLASSES : nat := 7.
Definition SLAB_MAX_SIZE : Z := 2048.
Definition SLAB_MAGIC : Z := 0x534C4142.
Definition SLAB_LARGE_MAGIC : Z := 0x4C524745.
Definition SLAB_VIRT_BASE : Z := 0xFFFFFFFF88000000.
Definition SLAB_VIRT_END : Z := 0xFFFFFFFF90000000.
Definition SLAB_MAX_FREE_RANGES : nat := 1024.
Definition sizeof_slab_page : Z := 112.
Definition sizeof_slab_cache : Z := 72.
Definition sizeof_large_header : Z := 24.

Definition size_classes : list Z := [32; 64; 128; 256; 512; 1024; 2048].

(** What the heap uses of [kernel/mm/memory.c], and the address of [slab_caches]. *)
Class PageOps (P : Type) := {
  pg_alloc : P -> P * Z;                  (* mm_allocate_physical_page *)
  pg_free : Z -> P -> P;                  (* mm_free_physical_page *)
  pg_alloc_n : P -> Z -> P * Z;           (* mm_allocate_contiguous_pages *)
  pg_free_n : P -> Z -> Z -> P;           (* mm_free_contiguous_pages *)
  pg_map : P -> Z -> Z -> P * bool;       (* mm_map_page, present, writable, not executable *)
  pg_unmap : Z -> P -> P;                 (* mm_unmap_page *)
  pg_phys : P -> Z -> Z;                  (* the page behind a page of addresses, or 0 *)
  slab_caches_addr : Z;
}.

Record slab_page := mk_slab {
  s_object_size : Z;
  s_total_objects : Z;
  s_free_count : Z;
  s_bitmap : list Z;
  s_next : option Z;
  s_prev : option Z;
  s_cache : nat;
  s_phys_addr : Z;
}.

Record slab_cache := mk_cache {
  c_object_size : Z;
  c_objects_per_slab : Z;
  partial_slabs : option Z;
  full_slabs : option Z;
  empty_slabs : option Z;
  c_total_allocs : Z;
  c_total_frees : Z;
  slab_count : Z;
  empty_slab_count : Z;
}.

Record slab_stats := mk_stats {
  total_allocations : Z;
  total_frees : Z;
  total_pages_used : Z;
  large_allocations : Z;
  large_frees : Z;
  cache_hits : Z;
  cache_misses : Z;
}.

Record heap (P : Type) := mk_heap {
  slab_caches : list slab_cache;
  slabs : gmap Z slab_page;
  mem : Z -> Z;
  slab_next_virt_addr : Z;
  slab_free_ranges : list (Z * Z);
  slab_global_stats : slab_stats;
  slab_initialized : bool;
  pg : P;
}.
Arguments mk_heap {P} _ _ _ _ _ _ _ _.
Arguments slab_caches {P} _.
Arguments slabs {P} _.
Arguments mem {P} _ _.
Arguments slab_next_virt_addr {P} _.
Arguments slab_free_ranges {P} _.
Arguments slab_global_stats {P} _.
Arguments slab_initialized {P} _.
Arguments pg {P} _.

(** ** Updates *)

Definition set_objects (free_count : Z) (bitmap : list Z) (h : slab_page) : slab_page :=
  mk_slab (s_object_size h) (s_total_objects h) free_count bitmap (s_next h) (s_prev h) (s_cache h) (s_phys_addr h).
Definition set_s_next (x : option Z) (h : slab_page) : slab_page :=
  mk_slab (s_object_size h) (s_total_objects h) (s_free_count h) (s_bitmap h) x (s_prev h) (s_cache h) (s_phys_addr h).
Definition set_s_prev (x : option Z) (h : slab_page) : slab_page :=
  mk_slab (s_object_size h) (s_total_objects h) (s_free_count h) (s_bitmap h) (s_next h) x (s_cache h) (s_phys_addr h).

Inductive slab_list := Partial | Full | Empty.

Definition head (w : slab_list) (c : slab_cache) : option Z :=
  match w with Partial => partial_slabs c | Full => full_slabs c | Empty => empty_slabs c end.
Definition set_head (w : slab_list) (x : option Z) (c : slab_cache) : slab_cache :=
  mk_cache (c_object_size c) (c_objects_per_slab c)
    (match w with Partial => x | _ => partial_slabs c end)
    (match w with Full => x | _ => full_slabs c end)
    (match w with Empty => x | _ => empty_slabs c end)
    (c_total_allocs c) (c_total_frees c) (slab_count c) (empty_slab_count c).
Definition count_alloc (c : slab_cache) : slab_cache :=
  mk_cache (c_object_size c) (c_objects_per_slab c) (partial_slabs c) (full_slabs c) (empty_slabs c)
    (u64 (c_total_allocs c + 1)) (c_total_frees c) (slab_count c) (empty_slab_count c).
Definition count_free (c : slab_cache) : slab_cache :=
  mk_cache (c_object_size c) (c_objects_per_slab c) (partial_slabs c) (full_slabs c) (empty_slabs c)
    (c_total_allocs c) (u64 (c_total_frees c + 1)) (slab_count c) (empty_slab_count c).
Definition count_slabs (n : Z) (c : slab_cache) : slab_cache :=
  mk_cache (c_object_size c) (c_objects_per_slab c) (partial_slabs c) (full_slabs c) (empty_slabs c)
    (c_total_allocs c) (c_total_frees c) (u32 (slab_count c + n)) (empty_slab_count c).
Definition count_empty (n : Z) (c : slab_cache) : slab_cache :=
  mk_cache (c_object_size c) (c_objects_per_slab c) (partial_slabs c) (full_slabs c) (empty_slabs c)
    (c_total_allocs c) (c_total_frees c) (slab_count c) (u32 (empty_slab_count c + n)).

(** What a call adds to the counters. *)
Definition add_stats (allocs frees pages large lfrees hits misses : Z) (x : slab_stats) : slab_stats :=
  mk_stats (u64 (total_allocations x + allocs)) (u64 (total_frees x + frees)) (u64 (total_pages_used x + pages))
    (u64 (large_allocations x + large)) (u64 (large_frees x + lfrees)) (u64 (cache_hits x + hits)) (u64 (cache_misses x + misses)).

Section Heap.
Context {P : Type}.

Definition on_caches (f : list slab_cache -> list slab_cache) (s : heap P) : heap P :=
  mk_heap (f (slab_caches s)) (slabs s) (mem s) (slab_next_virt_addr s) (slab_free_ranges s) (slab_global_stats s) (slab_initialized s) (pg s).
Definition on_cache (i : nat) (f : slab_cache -> slab_cache) : heap P -> heap P := on_caches (alter f i).
Definition on_slabs (f : gmap Z slab_page -> gmap Z slab_page) (s : heap P) : heap P :=
  mk_heap (slab_caches s) (f (slabs s)) (mem s) (slab_next_virt_addr s) (slab_free_ranges s) (slab_global_stats s) (slab_initialized s) (pg s).
Definition on_slab (a : Z) (f : slab_page -> slab_page) : heap P -> heap P := on_slabs (alter f a).
Definition set_mem (m : Z -> Z) (s : heap P) : heap P :=
  mk_heap (slab_caches s) (slabs s) m (slab_next_virt_addr s) (slab_free_ranges s) (slab_global_stats s) (slab_initialized s) (pg s).
Definition set_virt (next : Z) (ranges : list (Z * Z)) (s : heap P) : heap P :=
  mk_heap (slab_caches s) (slabs s) (mem s) next ranges (slab_global_stats s) (slab_initialized s) (pg s).
Definition on_stats (f : slab_stats -> slab_stats) (s : heap P) : heap P :=
  mk_heap (slab_caches s) (slabs s) (mem s) (slab_next_virt_addr s) (slab_free_ranges s) (f (slab_global_stats s)) (slab_initialized s) (pg s).
Definition set_pg (p : P) (s : heap P) : heap P :=
  mk_heap (slab_caches s) (slabs s) (mem s) (slab_next_virt_addr s) (slab_free_ranges s) (slab_global_stats s) (slab_initialized s) p.

End Heap.

(** ** Free ranges of addresses: lists of a start and a size *)

(** Entry [i] replaced by the last one, which goes. *)
Definition swap_remove (i : nat) (l : list (Z * Z)) : list (Z * Z) :=
  match last l with
  | Some r => take (length l - 1) (<[i := r]> l)
  | None => l
  end.

Definition slab_alloc_virt_range (size : Z) (l : list (Z * Z)) : list (Z * Z) * Z :=
  match find_idx (fun r => size <=? r.2) l with
  | Some i =>
      match l !! i with
      | Some (start, sz) =>
          if sz =? size then (swap_remove i l, start)
          else (<[i := (u64 (start + size), u64 (sz - size))]> l, start)
      | None => (l, 0)
      end
  | None => (l, 0)
  end.

Definition slab_free_virt_range (start size : Z) (l : list (Z * Z)) : list (Z * Z) :=
  match find_idx (fun r => (u64 (r.1 + r.2) =? start) || (u64 (start + size) =? r.1)) l with
  | Some i =>
      match l !! i with
      | Some (st, sz) =>
          if u64 (st + sz) =? start then
            let sz := u64 (sz + size) in
            let l := <[i := (st, sz)]> l in
            match find_idx (fun x => negb (x.1 =? i)%nat && (x.2.1 =? u64 (st + sz))) (imap pair l) with
            | Some j =>
                match l !! j with
                | Some (_, szj) => swap_remove j (<[i := (st, u64 (sz + szj))]> l)
                | None => l
                end
            | None => l
            end
          else <[i := (start, u64 (sz + size))]> l
      | None => l
      end
  | None => if (SLAB_MAX_FREE_RANGES <=? length l)%nat then l else l ++ [(start, size)]
  end.

(** ** Size classes and bitmaps *)

Definition slab_get_size_class (size : Z) : option nat := find_idx (fun c => size <=? c) size_classes.

Definition calc_objects_per_slab (object_size : Z) : Z := (PAGE_SIZE - sizeof_slab_page) / object_size.

Definition ALL_ONES : Z := 0xFFFFFFFFFFFFFFFF.

(** The inner loop of [bitmap_find_free] from [bit] on, [n] bits left; [None] when
    it ends without a return. *)
Fixpoint scan_bits (n : nat) (w base bit total : Z) : option (option Z) :=
  match n with
  | O => None
  | S n' =>
      let obj_idx := base + bit in
      if total <=? obj_idx then Some None
      else if negb (has w (u64 (Z.shiftl 1 bit))) then Some (Some obj_idx)
      else scan_bits n' w base (bit + 1) total
  end.

(** The outer loop from word [i] on. *)
Fixpoint scan_bitmap (ws : list Z) (i total : Z) : option Z :=
  match ws with
  | [] => None
  | w :: ws' =>
      if i <? (total + 63) / 64 then
        if negb (w =? ALL_ONES) then
          match scan_bits 64 w (i * 64) 0 total with
          | Some r => r
          | None => scan_bitmap ws' (i + 1) total
          end
        else scan_bitmap ws' (i + 1) total
      else None
  end.

Definition bitmap_find_free (bitmap : list Z) (total : Z) : option Z := scan_bitmap bitmap 0 total.

Definition bitmap_set (index : Z) (bitmap : list Z) : list Z :=
  alter (fun w => Z.lor w (u64 (Z.shiftl 1 (index mod 64)))) (Z.to_nat (index / 64)) bitmap.

Definition bitmap_clear (index : Z) (bitmap : list Z) : list Z :=
  alter (fun w => Z.land w (u64 (Z.lnot (Z.shiftl 1 (index mod 64))))) (Z.to_nat (index / 64)) bitmap.

Definition bitmap_is_set (bitmap : list Z) (index : Z) : bool :=
  match bitmap !! Z.to_nat (index / 64) with
  | Some w => has w (u64 (Z.shiftl 1 (index mod 64)))
  | None => true
  end.

Definition slab_get_object (page : Z) (h : slab_page) (index : Z) : Z :=
  u64 (page + sizeof_slab_page + u32 (index * s_object_size h)).

Definition slab_get_object_index (page : Z) (h : slab_page) (ptr : Z) : option Z :=
  let base := page + sizeof_slab_page in
  if ptr <? base then None
  else
    let offset := ptr - base in
    let index := u32 (offset / s_object_size h) in
    if negb (offset mod s_object_size h =? 0) then None
    else if s_total_objects h <=? index then None
    else Some index.

Definition le64 (v : Z) : list Z := le32 (v mod 2 ^ 32) ++ le32 (v / 2 ^ 32).

Definition page_of (a : Z) : Z := a / PAGE_SIZE * PAGE_SIZE.

Section Slab.
Context {P : Type} `{PageOps P}.
Implicit Types s : heap P.

(** ** Memory *)

Definition cache_addr (i : nat) : Z := slab_caches_addr + Z.of_nat i * sizeof_slab_cache.

Definition pointer (x : option Z) : Z := default 0 x.

(** The header as it lies in memory. *)
Definition slab_page_bytes (h : slab_page) : list Z :=
  le32 SLAB_MAGIC ++ le32 (s_object_size h) ++ le16 (s_total_objects h) ++ le16 (s_free_count h) ++ replicate 4 0 ++
  concat (le64 <$> s_bitmap h) ++ le64 (pointer (s_next h)) ++ le64 (pointer (s_prev h)) ++ le64 (cache_addr (s_cache h)) ++
  le64 (s_phys_addr h).

Definition load8 (s : heap P) (a : Z) : option Z :=
  let f := pg_phys (pg s) (page_of a) in
  let off := a mod PAGE_SIZE in
  if f =? 0 then None
  else match slabs s !! page_of a with
       | Some h => Some (if off <? sizeof_slab_page then byte_at (slab_page_bytes h) (Z.to_nat off) else mem s (f + off))
       | None => Some (mem s (f + off))
       end.

Fixpoint load_bytes (s : heap P) (a : Z) (n : nat) : option (list Z) :=
  match n with
  | O => Some []
  | S n' =>
      match load8 s a, load_bytes s (a + 1) n' with
      | Some b, Some bs => Some (b :: bs)
      | _, _ => None
      end
  end.

Definition load32 (s : heap P) (a : Z) : option Z := (fun bs => ld32 bs 0) <$> load_bytes s a 4.
Definition load64 (s : heap P) (a : Z) : option Z := (fun bs => ld32 bs 0 + 2 ^ 32 * ld32 bs 4) <$> load_bytes s a 8.

(** A store to an address that is mapped and not in a header. *)
Definition store8 (a b : Z) (s : heap P) : heap P :=
  let c := pg_phys (pg s) (page_of a) + a mod PAGE_SIZE in
  set_mem (fun x => if x =? c then b else mem s x) s.

Fixpoint store_bytes (a : Z) (bs : list Z) (s : heap P) : heap P :=
  match bs with
  | [] => s
  | b :: bs' => store_bytes (a + 1) bs' (store8 a b s)
  end.

(** ** Slab pages *)

Definition slab_alloc_virt_addr (s : heap P) : heap P * Z :=
  let '(ranges, addr) := slab_alloc_virt_range PAGE_SIZE (slab_free_ranges s) in
  if negb (addr =? 0) then (set_virt (slab_next_virt_addr s) ranges s, addr)
  else if SLAB_VIRT_END <=? slab_next_virt_addr s then (s, 0)
  else (set_virt (u64 (slab_next_virt_addr s + PAGE_SIZE)) ranges s, slab_next_virt_addr s).

Definition slab_alloc_page (i : nat) (s : heap P) : heap P * option Z :=
  let '(p, phys) := pg_alloc (pg s) in
  let s := set_pg p s in
  if phys =? 0 then (s, None)
  else
    let '(s, virt) := slab_alloc_virt_addr s in
    if virt =? 0 then (set_pg (pg_free phys (pg s)) s, None)
    else
      let '(p, ok) := pg_map (pg s) virt phys in
      let s := set_pg p s in
      if negb ok then (set_pg (pg_free phys (pg s)) s, None)
      else
        match slab_caches s !! i with
        | Some c =>
            let s := store_bytes virt (replicate (Z.to_nat PAGE_SIZE) 0) s in
            let total := u16 (c_objects_per_slab c) in
            let h := mk_slab (c_object_size c) total total (replicate 8 0) None None i phys in
            let s := on_slabs (insert virt h) s in
            let s := on_cache i (count_slabs 1) s in
            (on_stats (add_stats 0 0 1 0 0 0 0) s, Some virt)
        | None => (s, None)
        end.

(** The bytes of the header stay behind in the physical page. *)
Definition slab_free_page (page : Z) (s : heap P) : heap P :=
  match slabs s !! page with
  | None => s
  | Some h =>
      let s := on_cache (s_cache h) (count_slabs (-1)) s in
      let s := on_stats (add_stats 0 0 (-1) 0 0 0 0) s in
      let s := on_slabs (delete page) (store_bytes page (slab_page_bytes h) s) in
      let s := set_pg (pg_unmap page (pg s)) s in
      let s := set_pg (pg_free (s_phys_addr h) (pg s)) s in
      set_virt (slab_next_virt_addr s) (slab_free_virt_range page PAGE_SIZE (slab_free_ranges s)) s
  end.

Definition head_of (i : nat) (w : slab_list) (s : heap P) : option Z := slab_caches s !! i ≫= head w.

(** Out of the list it is in. *)
Definition slab_unlink (page : Z) (i : nat) (from : slab_list) (s : heap P) : heap P :=
  match slabs s !! page with
  | None => s
  | Some h =>
      let s := match s_prev h with
               | Some q => on_slab q (set_s_next (s_next h)) s
               | None => if decide (head_of i from s = Some page) then on_cache i (set_head from (s_next h)) s else s
               end in
      match s_next h with Some q => on_slab q (set_s_prev (s_prev h)) s | None => s end
  end.

(** To the head of a list; its [prev] is NULL. *)
Definition slab_add (page : Z) (i : nat) (to : slab_list) (s : heap P) : heap P :=
  let s := on_slab page (set_s_next (head_of i to s)) s in
  let s := match head_of i to s with Some q => on_slab q (set_s_prev (Some page)) s | None => s end in
  on_cache i (set_head to (Some page)) s.

Definition slab_move_to_list (page : Z) (i : nat) (from to : slab_list) (s : heap P) : heap P :=
  slab_add page i to (on_slab page (set_s_prev None) (slab_unlink page i from s)).

(** The head of a list taken off it, as the code does it for empty pages. *)
Definition slab_pop (page : Z) (i : nat) (s : heap P) : heap P :=
  match slabs s !! page with
  | None => s
  | Some h =>
      let s := on_cache i (set_head Empty (s_next h)) s in
      let s := match s_next h with Some q => on_slab q (set_s_prev None) s | None => s end in
      on_cache i (count_empty (-1)) s
  end.

Definition init_cache (object_size : Z) : slab_cache :=
  let n := calc_objects_per_slab object_size in
  let n := if n =? 0 then 1 else n in
  let n := if 512 <? n then 512 else n in
  mk_cache object_size n None None None 0 0 0 0.

Definition slab_init (s : heap P) : heap P :=
  mk_heap (init_cache <$> size_classes) (slabs s) (mem s) (slab_next_virt_addr s) (slab_free_ranges s)
    (mk_stats 0 0 0 0 0 0 0) true (pg s).

(** ** Allocation *)

(** The loop that maps a large block from page [i] on, [n] pages left; the index of
    the page that could not be mapped. *)
Fixpoint map_pages (n : nat) (virt phys i : Z) (p : P) : P * option Z :=
  match n with
  | O => (p, None)
  | S n' =>
      match pg_map p (u64 (virt + i * PAGE_SIZE)) (u64 (phys + i * PAGE_SIZE)) with
      | (p, true) => map_pages n' virt phys (i + 1) p
      | (p, false) => (p, Some i)
      end
  end.

Definition unmap_pages (virt n : Z) (p : P) : P :=
  foldl (fun p i => pg_unmap (u64 (virt + i * PAGE_SIZE)) p) p (seqZ 0 n).

Definition large_header_bytes (page_count size phys : Z) : list Z :=
  le32 SLAB_LARGE_MAGIC ++ le32 (u32 page_count) ++ le64 size ++ le64 phys.

Definition slab_alloc_large (size : Z) (s : heap P) : heap P * Z :=
  let total_size := u64 (size + sizeof_large_header) in
  let page_count := u64 (total_size + PAGE_SIZE - 1) / PAGE_SIZE in
  let alloc_bytes := u64 (page_count * PAGE_SIZE) in
  let '(p, phys) := pg_alloc_n (pg s) page_count in
  let s := set_pg p s in
  if phys =? 0 then (s, 0)
  else
    let '(ranges, virt) := slab_alloc_virt_range alloc_bytes (slab_free_ranges s) in
    let '(s, virt) :=
      if negb (virt =? 0) then (set_virt (slab_next_virt_addr s) ranges s, virt)
      else if SLAB_VIRT_END <? u64 (slab_next_virt_addr s + alloc_bytes) then (s, 0)
      else (set_virt (u64 (slab_next_virt_addr s + alloc_bytes)) ranges s, slab_next_virt_addr s) in
    if virt =? 0 then (set_pg (pg_free_n (pg s) phys page_count) s, 0)
    else
      let s := on_stats (add_stats 1 0 page_count 1 0 0 0) s in
      match map_pages (Z.to_nat page_count) virt phys 0 (pg s) with
      | (p, Some i) =>
          let p := unmap_pages virt i p in
          (set_pg (pg_free_n p phys page_count) s, 0)
      | (p, None) =>
          (store_bytes virt (large_header_bytes page_count size phys) (set_pg p s), u64 (virt + sizeof_large_header))
      end.

(** The part of [slab_alloc] up to the choice of a page; [None] when a new page is
    needed, for which the lock is dropped. *)
Definition slab_alloc_pick (i : nat) (s : heap P) : heap P * option Z :=
  match head_of i Partial s with
  | Some page => (on_stats (add_stats 0 0 0 0 0 1 0) s, Some page)
  | None =>
      match head_of i Empty s with
      | Some page =>
          let s := slab_move_to_list page i Empty Partial s in
          let s := on_cache i (count_empty (-1)) s in
          (on_stats (add_stats 0 0 0 0 0 1 0) s, Some page)
      | None => (s, None)
      end
  end.

(** The rest: an object of the page. *)
Definition slab_alloc_object (i : nat) (page : Z) (s : heap P) : heap P * Z :=
  match slabs s !! page with
  | None => (s, 0)
  | Some h =>
      match bitmap_find_free (s_bitmap h) (s_total_objects h) with
      | None => (s, 0)
      | Some k =>
          let n := u16 (s_free_count h - 1) in
          let s := on_slab page (set_objects n (bitmap_set k (s_bitmap h))) s in
          let s := if n =? 0 then slab_move_to_list page i Partial Full s else s in
          let s := on_cache i count_alloc s in
          let s := on_stats (add_stats 1 0 0 0 0 0 0) s in
          (s, slab_get_object page h k)
      end
  end.

(** A new page, and an object of it. *)
Definition slab_alloc_new (i : nat) (page : Z) (s : heap P) : heap P * Z :=
  let s := slab_add page i Partial s in
  let s := on_stats (add_stats 0 0 0 0 0 0 1) s in
  slab_alloc_object i page s.

(** Up to the point where a new page is needed for cache [i] ([inr i]). *)
Definition slab_alloc_begin (size : Z) (s : heap P) : heap P * (Z + nat) :=
  if size =? 0 then (s, inl 0)
  else if negb (slab_initialized s) then (s, inl 0)
  else if SLAB_MAX_SIZE <? size then let '(s, p) := slab_alloc_large size s in (s, inl p)
  else
    match slab_get_size_class size with
    | None => (s, inl 0)
    | Some i =>
        match slab_alloc_pick i s with
        | (s, Some page) => let '(s, p) := slab_alloc_object i page s in (s, inl p)
        | (s, None) => (s, inr i)
        end
    end.

Definition slab_alloc (size : Z) (s : heap P) : heap P * Z :=
  match slab_alloc_begin size s with
  | (s, inl p) => (s, p)
  | (s, inr i) =>
      match slab_alloc_page i s with
      | (s, Some page) => slab_alloc_new i page s
      | (s, None) => (s, 0)
      end
  end.

(** ** Release.  [None]: an access to an address that is not mapped, or bytes of a
    block taken for the header of a slab page. *)

Definition slab_free_large (header : Z) (s : heap P) : option (heap P) :=
  page_count ← load32 s (header + 4);
  phys ← load64 s (header + 16);
  let p := unmap_pages header page_count (pg s) in
  let s := set_pg (pg_free_n p phys page_count) s in
  let s := set_virt (slab_next_virt_addr s) (slab_free_virt_range header (u64 (page_count * PAGE_SIZE)) (slab_free_ranges s)) s in
  Some (on_stats (add_stats 0 1 (- page_count) 0 1 0 0) s).

(** Under the lock of the cache; the second component is a page to give back, for
    which the lock is dropped. *)
Definition slab_free_object (page : Z) (i : nat) (k : Z) (s : heap P) : heap P * option Z :=
  match slabs s !! page with
  | None => (s, None)
  | Some h =>
      let was_full := s_free_count h =? 0 in
      let n := u16 (s_free_count h + 1) in
      let s := on_slab page (set_objects n (bitmap_clear k (s_bitmap h))) s in
      if was_full then (slab_move_to_list page i Full Partial s, None)
      else if n =? s_total_objects h then
        let s := slab_move_to_list page i Partial Empty s in
        let s := on_cache i (count_empty 1) s in
        match slab_caches s !! i with
        | Some c =>
            if 2 <? empty_slab_count c then
              match empty_slabs c with
              | Some to_free => (slab_pop to_free i s, Some to_free)
              | None => (s, None)
              end
            else (s, None)
        | None => (s, None)
        end
      else (s, None)
  end.

Definition slab_free_count (i : nat) (s : heap P) : heap P :=
  on_stats (add_stats 0 1 0 0 0 0 0) (on_cache i count_free s).

Inductive free_plan :=
  | FLarge (header : Z)
  | FObject (page : Z) (i : nat) (k : Z)
  | FNothing.

(** The checks of [slab_free], made without a lock. *)
Definition slab_free_check (ptr : Z) (s : heap P) : option free_plan :=
  if ptr =? 0 then Some FNothing
  else if negb (slab_initialized s) then Some FNothing
  else
    let header := u64 (ptr - sizeof_large_header) in
    magic ← load32 s header;
    if magic =? SLAB_LARGE_MAGIC then Some (FLarge header)
    else if (ptr <? SLAB_VIRT_BASE) || (slab_next_virt_addr s <=? ptr) then Some FNothing
    else
      magic ← load32 s (page_of ptr);
      if negb (magic =? SLAB_MAGIC) then Some FNothing
      else
        h ← slabs s !! page_of ptr;
        if cache_addr (s_cache h) <? 0xFFFFFFFF80000000 then Some FNothing
        else
          match slab_get_object_index (page_of ptr) h ptr with
          | None => Some FNothing
          | Some k => Some (if negb (bitmap_is_set (s_bitmap h) k) then FNothing else FObject (page_of ptr) (s_cache h) k)
          end.

(** Up to the point where a page of cache [i] is to be given back. *)
Definition slab_free_begin (ptr : Z) (s : heap P) : option (heap P * option (nat * Z)) :=
  plan ← slab_free_check ptr s;
  match plan with
  | FNothing => Some (s, None)
  | FLarge header => s ← slab_free_large header s; Some (s, None)
  | FObject page i k =>
      match slab_free_object page i k s with
      | (s, Some to_free) => Some (s, Some (i, to_free))
      | (s, None) => Some (slab_free_count i s, None)
      end
  end.

Definition slab_free_end (i : nat) (page : Z) (s : heap P) : heap P := slab_free_count i (slab_free_page page s).

Definition slab_free (ptr : Z) (s : heap P) : option (heap P) :=
  r ← slab_free_begin ptr s;
  match r with
  | (s, Some (i, to_free)) => Some (slab_free_end i to_free s)
  | (s, None) => Some s
  end.

(** The size of the block at [ptr], as [slab_realloc] finds it. *)
Definition slab_old_size (ptr : Z) (s : heap P) : option (option Z) :=
  let header := u64 (ptr - sizeof_large_header) in
  magic ← load32 s header;
  if magic =? SLAB_LARGE_MAGIC then Some <$> load64 s (header + 8)
  else
    magic ← load32 s (page_of ptr);
    if magic =? SLAB_MAGIC then h ← slabs s !! page_of ptr; Some (Some (s_object_size h)) else Some None.

Definition slab_realloc (ptr new_size : Z) (s : heap P) : option (heap P * Z) :=
  if ptr =? 0 then Some (slab_alloc new_size s)
  else if new_size =? 0 then s ← slab_free ptr s; Some (s, 0)
  else
    old_size ← slab_old_size ptr s;
    match old_size with
    | None => Some (s, 0)
    | Some old_size =>
        let same_class :=
          match slab_get_size_class old_size, slab_get_size_class new_size with
          | Some a, Some b => (a =? b)%nat
          | _, _ => false
          end in
        if (new_size <=? old_size) && (same_class || ((SLAB_MAX_SIZE <? old_size) && (SLAB_MAX_SIZE <? new_size)))
        then Some (s, ptr)
        else
          let '(s, new_ptr) := slab_alloc new_size s in
          if new_ptr =? 0 then Some (s, 0)
          else
            bs ← load_bytes s ptr (Z.to_nat (Z.min old_size new_size));
            s ← slab_free ptr (store_bytes new_ptr bs s);
            Some (s, new_ptr)
    end.

Definition slab_calloc (count size : Z) (s : heap P) : heap P * Z :=
  let total_size := u64 (count * size) in
  let '(s, ptr) := slab_alloc total_size s in
  if ptr =? 0 then (s, 0) else (store_bytes ptr (replicate (Z.to_nat total_size) 0) s, ptr).

(** ** Upkeep *)

(** The loop over a list of slab pages: does every page pass? *)
Fixpoint validate_list (fuel : nat) (ok : slab_page -> bool) (p : option Z) (s : heap P) : bool :=
  match fuel, p with
  | _, None => true
  | O, _ => false
  | S fuel', Some page =>
      match slabs s !! page with
      | Some h => ok h && validate_list fuel' ok (s_next h) s
      | None => false
      end
  end.

Definition slab_validate (s : heap P) : bool :=
  let fuel := S (size (slabs s)) in
  forallb (fun c =>
    validate_list fuel (fun h => negb (s_free_count h =? 0)) (partial_slabs c) s &&
    validate_list fuel (fun h => s_free_count h =? 0) (full_slabs c) s &&
    validate_list fuel (fun h => s_free_count h =? s_total_objects h) (empty_slabs c) s) (slab_caches s).

(** The loop of [slab_shrink] for one cache; the counter bounds it. *)
Fixpoint shrink_cache (fuel : nat) (i : nat) (s : heap P) : heap P :=
  match fuel, slab_caches s !! i with
  | S fuel', Some c =>
      match empty_slabs c with
      | Some page => if 1 <? empty_slab_count c then shrink_cache fuel' i (slab_free_page page (slab_pop page i s)) else s
      | None => s
      end
  | _, _ => s
  end.

Definition slab_shrink (s : heap P) : heap P :=
  foldl (fun s i => shrink_cache (Z.to_nat (default 0 (empty_slab_count <$> slab_caches s !! i))) i s) s (seq 0 SLAB_NUM_CLASSES).

Definition slab_is_slab_ptr (ptr : Z) (s : heap P) : option bool :=
  if ptr =? 0 then Some false else (fun magic => magic =? SLAB_MAGIC) <$> load32 s (page_of ptr).

Definition slab_is_large_ptr (ptr : Z) (s : heap P) : option bool :=
  if ptr =? 0 then Some false else (fun magic => magic =? SLAB_LARGE_MAGIC) <$> load32 s (u64 (ptr - sizeof_large_header)).

End Slab.
