(* ===== verification/SlabParts.v ===== *)
(** * The parts of the kernel heap: bitmaps, address ranges, linked pages

    Lemmas about the three data structures of the file Slab, each against what it
    stands for: a bitmap for a set of objects, the table of free ranges for a set of
    addresses, the [next] and [prev] fields of slab pages for a list. *)

From Stdlib Require Import ZArith Lia Bool.
From stdpp Require Import base list gmap sorting.
From S2P Require Import Prelude Wire Pmm Slab.

Open Scope Z_scope.

(** ** Bitmaps *)

Definition word_ok (w : Z) : Prop := 0 <= w < 2 ^ 64.

Definition bitmap_ok (bm : list Z) : Prop := length bm = 8%nat /\ Forall word_ok bm.

Lemma shift_one b : 0 <= b < 64 -> u64 (Z.shiftl 1 b) = 2 ^ b.
Proof.
  intros Hb. rewrite Z.shiftl_1_l. apply u64_small. split; [apply Z.pow_nonneg; lia|]. apply Z.pow_lt_mono_r; lia.
Qed.

Lemma has_pow w b : 0 <= b -> has w (2 ^ b) = Z.testbit w b.
Proof.
  intros Hb. unfold has. destruct (Z.testbit w b) eqn:E.
  - apply negb_true_iff, Z.eqb_neq. intros E0. assert (F : Z.testbit (Z.land w (2 ^ b)) b = false) by (rewrite E0; apply Z.bits_0).
    rewrite Z.land_spec, E, Z.pow2_bits_true in F by done. done.
  - apply negb_false_iff, Z.eqb_eq, Z.bits_inj'. intros n Hn. rewrite Z.land_spec, Z.bits_0, Z.pow2_bits_eqb by lia.
    destruct (Z.eqb_spec b n) as [->|]; [by rewrite E|apply andb_false_r].
Qed.

Lemma has_bit64 w b : 0 <= b < 64 -> has w (u64 (Z.shiftl 1 b)) = Z.testbit w b.
Proof. intros Hb. rewrite shift_one by done. apply has_pow. lia. Qed.

Lemma word_high w i : word_ok w -> 64 <= i -> Z.testbit w i = false.
Proof. intros Hw Hi. rewrite <- (Z.mod_small w (2 ^ 64)) by apply Hw. apply Z.mod_pow2_bits_high. lia. Qed.

Lemma word_bits w : 0 <= w -> (forall i, 64 <= i -> Z.testbit w i = false) -> word_ok w.
Proof.
  intros H0 H. split; [done|]. assert (E : w = w mod 2 ^ 64); [|rewrite E; by apply Z.mod_pos_bound].
  apply Z.bits_inj'. intros n Hn. destruct (Z.lt_ge_cases n 64).
  - by rewrite Z.mod_pow2_bits_low.
  - rewrite Z.mod_pow2_bits_high by lia. by apply H.
Qed.

Lemma bits_set w b i : 0 <= b < 64 -> Z.testbit (Z.lor w (u64 (Z.shiftl 1 b))) i = (b =? i) || Z.testbit w i.
Proof. intros Hb. rewrite shift_one, Z.lor_spec, Z.pow2_bits_eqb by lia. apply orb_comm. Qed.

Lemma bits_clear w b i : 0 <= b < 64 -> 0 <= i < 64 ->
  Z.testbit (Z.land w (u64 (Z.lnot (Z.shiftl 1 b)))) i = negb (b =? i) && Z.testbit w i.
Proof.
  intros Hb Hi. unfold u64. rewrite Z.land_spec, Z.mod_pow2_bits_low, Z.lnot_spec, Z.shiftl_1_l, Z.pow2_bits_eqb by lia.
  apply andb_comm.
Qed.

Lemma word_set w b : 0 <= b < 64 -> word_ok w -> word_ok (Z.lor w (u64 (Z.shiftl 1 b))).
Proof.
  intros Hb Hw. apply word_bits; [apply Z.lor_nonneg; split; [apply Hw|apply u64_range]|].
  intros i Hi. rewrite bits_set, (word_high w) by (done || lia). rewrite orb_false_r. apply Z.eqb_neq. lia.
Qed.

Lemma word_clear w m : word_ok w -> word_ok (Z.land w (u64 m)).
Proof.
  intros Hw. apply word_bits; [apply Z.land_nonneg; left; apply Hw|].
  intros i Hi. by rewrite Z.land_spec, (word_high w).
Qed.

Lemma alter_ok (f : Z -> Z) k bm : (forall w, word_ok w -> word_ok (f w)) -> bitmap_ok bm -> bitmap_ok (alter f k bm).
Proof.
  intros Hf [Hl Hw]. split; [by rewrite length_alter|]. apply Forall_alter; [done|]. intros w Hk _. apply Hf.
  by apply (Forall_lookup_1 _ _ _ _ Hw Hk).
Qed.

Lemma bit_pos k : 0 <= k mod 64 < 64.
Proof. apply Z.mod_pos_bound. lia. Qed.

Lemma bitmap_set_ok k bm : bitmap_ok bm -> bitmap_ok (bitmap_set k bm).
Proof. apply alter_ok. intros w. apply word_set, bit_pos. Qed.

Lemma bitmap_clear_ok k bm : bitmap_ok bm -> bitmap_ok (bitmap_clear k bm).
Proof. apply alter_ok. intros w. apply word_clear. Qed.

Lemma bitmap_word bm k : bitmap_ok bm -> 0 <= k < 512 -> exists w, bm !! Z.to_nat (k / 64) = Some w /\ word_ok w.
Proof.
  intros [Hl Hw] Hk. destruct (lookup_lt_is_Some_2 bm (Z.to_nat (k / 64))) as [w E]; [zlia|].
  exists w. split; [done|]. by apply (Forall_lookup_1 _ _ _ _ Hw E).
Qed.

Lemma bit_split k j : 0 <= k -> 0 <= j -> Z.to_nat (j / 64) = Z.to_nat (k / 64) -> (k mod 64 =? j mod 64) = (k =? j).
Proof. intros. destruct (Z.eqb_spec k j), (Z.eqb_spec (k mod 64) (j mod 64)); try done; zlia. Qed.

Lemma is_set_word bm k w : bm !! Z.to_nat (k / 64) = Some w -> bitmap_is_set bm k = Z.testbit w (k mod 64).
Proof. intros E. unfold bitmap_is_set. rewrite E. apply has_bit64, bit_pos. Qed.

Lemma is_set_alter f bm k j : bitmap_ok bm -> 0 <= k < 512 -> 0 <= j < 512 ->
  bitmap_is_set (alter f (Z.to_nat (k / 64)) bm) j =
  if decide (Z.to_nat (j / 64) = Z.to_nat (k / 64)) then Z.testbit (f (default 0 (bm !! Z.to_nat (j / 64)))) (j mod 64)
  else bitmap_is_set bm j.
Proof.
  intros Hok Hk Hj. destruct (bitmap_word bm j Hok Hj) as (w & E & _). case_decide as D.
  - rewrite E. apply is_set_word. rewrite <- D. by rewrite list_lookup_alter_eq, E.
  - rewrite (is_set_word bm j w E). apply is_set_word. by rewrite list_lookup_alter_ne by done.
Qed.

Lemma is_set_set bm k j : bitmap_ok bm -> 0 <= k < 512 -> 0 <= j < 512 ->
  bitmap_is_set (bitmap_set k bm) j = (k =? j) || bitmap_is_set bm j.
Proof.
  intros Hok Hk Hj. unfold bitmap_set. rewrite is_set_alter by done. destruct (bitmap_word bm j Hok Hj) as (w & E & _). case_decide as D.
  - rewrite E. cbn [default]. rewrite bits_set, (bit_split k j), (is_set_word bm j w E) by (apply bit_pos || done || lia). done.
  - destruct (Z.eqb_spec k j) as [->|]; done.
Qed.

Lemma is_set_clear bm k j : bitmap_ok bm -> 0 <= k < 512 -> 0 <= j < 512 ->
  bitmap_is_set (bitmap_clear k bm) j = negb (k =? j) && bitmap_is_set bm j.
Proof.
  intros Hok Hk Hj. unfold bitmap_clear. rewrite is_set_alter by done. destruct (bitmap_word bm j Hok Hj) as (w & E & _). case_decide as D.
  - rewrite E. cbn [default]. rewrite bits_clear, (bit_split k j), (is_set_word bm j w E) by (apply bit_pos || done || lia). done.
  - destruct (Z.eqb_spec k j) as [->|]; done.
Qed.

(** *** The search *)

Lemma scan_bits_spec n w base bit total :
  0 <= bit -> bit + Z.of_nat n <= 64 ->
  match scan_bits n w base bit total with
  | None => forall b, bit <= b < bit + Z.of_nat n -> base + b < total /\ Z.testbit w b = true
  | Some None => exists b, bit <= b < bit + Z.of_nat n /\ total <= base + b /\ forall c, bit <= c < b -> Z.testbit w c = true
  | Some (Some k) => exists b, bit <= b < 64 /\ k = base + b /\ k < total /\ Z.testbit w b = false
  end.
Proof.
  revert bit. induction n as [|n IH]; intros bit Hb Hn; cbn [scan_bits]; [lia|].
  destruct (Z.leb_spec total (base + bit)); [exists bit; split_and!; [lia|lia|lia|]; intros c; lia|]. rewrite has_bit64 by lia.
  destruct (Z.testbit w bit) eqn:E; cbn [negb]; [|exists bit; split_and!; [lia|lia|lia|lia|done]].
  specialize (IH (bit + 1) ltac:(lia) ltac:(lia)).
  destruct (scan_bits n w base (bit + 1) total) as [[k|]|].
  - destruct IH as (b & Hb' & Hrest). exists b. split; [lia|done].
  - destruct IH as (b & Hb' & Ht & Hc). exists b. split_and!; [lia|lia|done|]. intros c Hc'.
    destruct (decide (c = bit)) as [->|]; [done|]. apply Hc. lia.
  - intros b Hb'. destruct (decide (b = bit)) as [->|]; [done|]. apply IH. lia.
Qed.

Lemma all_ones_bit b : 0 <= b < 64 -> Z.testbit ALL_ONES b = true.
Proof. change ALL_ONES with (Z.ones 64). apply Z.ones_spec_low. Qed.

Lemma scan_bitmap_spec ws i total :
  0 <= i ->
  match scan_bitmap ws i total with
  | Some k => exists j b w, ws !! j = Some w /\ 0 <= b < 64 /\ k = (i + Z.of_nat j) * 64 + b /\ k < total /\ Z.testbit w b = false
  | None => forall j b w, ws !! j = Some w -> 0 <= b < 64 -> (i + Z.of_nat j) * 64 + b < total -> Z.testbit w b = true
  end.
Proof.
  revert i. induction ws as [|w ws IH]; intros i Hi; cbn [scan_bitmap]; [by intros j|].
  assert (Hnext : match scan_bitmap ws (i + 1) total with
    | Some k => exists j b v, (w :: ws) !! j = Some v /\ 0 <= b < 64 /\ k = (i + Z.of_nat j) * 64 + b /\ k < total /\ Z.testbit v b = false
    | None => (forall b, 0 <= b < 64 -> Z.testbit w b = true) -> forall j b v, (w :: ws) !! j = Some v -> 0 <= b < 64 ->
        (i + Z.of_nat j) * 64 + b < total -> Z.testbit v b = true
    end).
  { specialize (IH (i + 1) ltac:(lia)). destruct (scan_bitmap ws (i + 1) total) as [k|].
    - destruct IH as (j & b & v & E & Hb & -> & Hr). exists (S j), b, v. split_and!; [done|lia|lia|lia|lia|apply Hr].
    - intros Hw [|j] b v E Hb Ht; [injection E as <-; by apply Hw|]. apply (IH j b v E Hb). lia. }
  destruct (Z.ltb_spec i ((total + 63) / 64)) as [Hlt|Hge].
  - destruct (Z.eqb_spec w ALL_ONES) as [->|Hne]; cbn [negb].
    + destruct (scan_bitmap ws (i + 1) total); [done|]. apply Hnext. intros b. apply all_ones_bit.
    + pose proof (scan_bits_spec 64 w (i * 64) 0 total ltac:(lia) ltac:(lia)) as Hs.
      destruct (scan_bits 64 w (i * 64) 0 total) as [[k|]|].
      * destruct Hs as (b & Hb & -> & Ht & E). exists 0%nat, b, w. split_and!; [done|lia|lia|lia|lia|done].
      * destruct Hs as (b & Hb & Ht & Hc). intros [|j] c v E Hc' Hlt'; [|lia]. injection E as <-. apply Hc. lia.
      * destruct (scan_bitmap ws (i + 1) total); [done|]. apply Hnext. intros b Hb. apply Hs. lia.
  - intros j b v E Hb Ht. zlia.
Qed.

(** [bitmap_find_free] finds a free object when there is one. *)
Lemma find_free_spec bm total :
  bitmap_ok bm -> total <= 512 ->
  match bitmap_find_free bm total with
  | Some k => 0 <= k < total /\ bitmap_is_set bm k = false
  | None => forall k, 0 <= k < total -> bitmap_is_set bm k = true
  end.
Proof.
  intros Hok Ht. pose proof (scan_bitmap_spec bm 0 total ltac:(lia)) as Hs. unfold bitmap_find_free.
  destruct (scan_bitmap bm 0 total) as [k|].
  - destruct Hs as (j & b & w & E & Hb & -> & Hlt & Hbit). split; [lia|].
    rewrite (is_set_word bm _ w); [by replace ((_ + b) mod 64) with b by zlia|].
    by replace (Z.to_nat _) with j by zlia.
  - intros k Hk. destruct (bitmap_word bm k Hok ltac:(lia)) as (w & E & _). rewrite (is_set_word bm k w E).
    apply (Hs (Z.to_nat (k / 64))); [done|apply bit_pos|zlia].
Qed.

(** *** Counting free objects *)

Definition free_objects (bm : list Z) (total : Z) : Z :=
  Z.of_nat (length (filter (fun k => bitmap_is_set bm k = false) (seqZ 0 total))).

Lemma filter_bits_ext {A} (Q R : A -> Prop) `{!forall x, Decision (Q x), !forall x, Decision (R x)} (l : list A) :
  (forall x, x ∈ l -> Q x <-> R x) -> filter Q l = filter R l.
Proof.
  intros He. induction l as [|x l IH]; [done|]. rewrite !filter_cons, IH by (intros y Hy; apply He; by right).
  destruct (decide (Q x)) as [Hx|Hx]; rewrite (He x) in Hx by left; [by rewrite decide_True|by rewrite decide_False].
Qed.

Lemma filter_flip (f g : Z -> bool) (l : list Z) k :
  NoDup l -> k ∈ l -> g k = false -> f k = true -> (forall j, j <> k -> f j = g j) ->
  length (filter (fun j => g j = false) l) = S (length (filter (fun j => f j = false) l)).
Proof.
  intros Hnd Hk Hg Hf Hj. induction Hnd as [|x l Hx Hnd IH]; [by apply elem_of_nil in Hk|].
  rewrite !filter_cons. destruct (decide (x = k)) as [->|Hne].
  - rewrite (decide_True (P := g k = false)), (decide_False (P := f k = false)) by congruence. cbn [length]. f_equal.
    f_equal. apply filter_bits_ext. intros y Hy. rewrite Hj; [done|]. by intros ->.
  - rewrite (Hj x Hne). assert (k ∈ l) by (by apply elem_of_cons in Hk as [->|]). case_decide; cbn [length]; rewrite IH; done.
Qed.

Lemma free_objects_range bm total : 0 <= total -> 0 <= free_objects bm total <= total.
Proof.
  intros Ht. unfold free_objects. pose proof (length_filter (fun k => bitmap_is_set bm k = false) (seqZ 0 total)) as Hl.
  rewrite length_seqZ in Hl. lia.
Qed.

Lemma free_objects_set bm total k : bitmap_ok bm -> total <= 512 -> 0 <= k < total -> bitmap_is_set bm k = false ->
  free_objects (bitmap_set k bm) total = free_objects bm total - 1.
Proof.
  intros Hok Ht Hk E. unfold free_objects.
  assert (Hext : forall j, j ∈ seqZ 0 total -> bitmap_is_set (bitmap_set k bm) j = (k =? j) || bitmap_is_set bm j).
  { intros j Hj%elem_of_seqZ. apply is_set_set; [done|lia|lia]. }
  rewrite (filter_bits_ext _ (fun j => (k =? j) || bitmap_is_set bm j = false)) by (intros j Hj; by rewrite Hext).
  rewrite (filter_flip (fun j => (k =? j) || bitmap_is_set bm j) (bitmap_is_set bm) _ k); [lia|apply NoDup_seqZ|apply elem_of_seqZ; lia|done| |].
  - by rewrite Z.eqb_refl.
  - intros j Hj. by rewrite (proj2 (Z.eqb_neq k j)) by done.
Qed.

Lemma free_objects_clear bm total k : bitmap_ok bm -> total <= 512 -> 0 <= k < total -> bitmap_is_set bm k = true ->
  free_objects (bitmap_clear k bm) total = free_objects bm total + 1.
Proof.
  intros Hok Ht Hk E. unfold free_objects.
  assert (Hext : forall j, j ∈ seqZ 0 total -> bitmap_is_set (bitmap_clear k bm) j = negb (k =? j) && bitmap_is_set bm j).
  { intros j Hj%elem_of_seqZ. apply is_set_clear; [done|lia|lia]. }
  rewrite (filter_bits_ext _ (fun j => negb (k =? j) && bitmap_is_set bm j = false)) by (intros j Hj; by rewrite Hext).
  rewrite (filter_flip (bitmap_is_set bm) (fun j => negb (k =? j) && bitmap_is_set bm j) _ k); [lia|apply NoDup_seqZ|apply elem_of_seqZ; lia| |done|].
  - by rewrite Z.eqb_refl.
  - intros j Hj. by rewrite (proj2 (Z.eqb_neq k j)) by done.
Qed.

Lemma free_objects_zero bm total : (forall k, 0 <= k < total -> bitmap_is_set bm k = true) <-> free_objects bm total = 0.
Proof.
  unfold free_objects. split.
  - intros Hs. destruct (filter _ (seqZ 0 total)) as [|k l] eqn:E; [done|exfalso].
    assert (Hk : k ∈ k :: l) by left. rewrite <- E in Hk. apply list_elem_of_filter in Hk as [Ek Hk%elem_of_seqZ]. rewrite Hs in Ek; [done|lia].
  - intros E k Hk. destruct (bitmap_is_set bm k) eqn:Ek; [done|].
    assert (Hin : k ∈ filter (fun k => bitmap_is_set bm k = false) (seqZ 0 total)).
    { apply list_elem_of_filter. split; [done|]. apply elem_of_seqZ. lia. }
    destruct (filter _ _); [by apply elem_of_nil in Hin|done].
Qed.

Lemma free_objects_all bm total : 0 <= total -> (forall k, 0 <= k < total -> bitmap_is_set bm k = false) <-> free_objects bm total = total.
Proof.
  intros Ht. unfold free_objects. split.
  - intros Hs. rewrite (filter_bits_ext _ (fun _ => True)) by (intros k Hk%elem_of_seqZ; split; [done|intros _; apply Hs; lia]).
    assert (E : filter (fun _ : Z => True) (seqZ 0 total) = seqZ 0 total).
    { induction (seqZ 0 total) as [|x l IH]; [done|]. by rewrite filter_cons_True, IH. }
    rewrite E, length_seqZ. lia.
  - intros E k Hk. destruct (bitmap_is_set bm k) eqn:Ek; [|done].
    assert (Hlt : (length (filter (fun k => bitmap_is_set bm k = false) (seqZ 0 total)) < length (seqZ 0 total))%nat); [|rewrite length_seqZ in Hlt; lia].
    apply (length_filter_lt _ _ k); [apply elem_of_seqZ; lia|congruence].
Qed.

(** ** Ranges of addresses *)

Definition apart (r q : Z * Z) : Prop := r.1 + r.2 <= q.1 \/ q.1 + q.2 <= r.1.

Definition range_ok (hi : Z) (r : Z * Z) : Prop :=
  SLAB_VIRT_BASE <= r.1 /\ 0 < r.2 /\ r.1 + r.2 <= hi /\ r.1 mod PAGE_SIZE = 0 /\ r.2 mod PAGE_SIZE = 0.

(** Ranges below [hi] that do not overlap. *)
Definition ranges_ok (hi : Z) (l : list (Z * Z)) : Prop := Forall (range_ok hi) l /\ ForallOrdPairs apart l.

Definition within (r : Z * Z) (a : Z) : Prop := r.1 <= a < r.1 + r.2.

Definition covered (l : list (Z * Z)) (a : Z) : Prop := exists r, r ∈ l /\ within r a.

Lemma apart_sym r q : apart r q -> apart q r.
Proof. unfold apart. lia. Qed.

Lemma pairs_perm l l' : l ≡ₚ l' -> ForallOrdPairs apart l -> ForallOrdPairs apart l'.
Proof.
  induction 1 as [|x l l' Hp IH|x y l|l1 l2 l3 _ IH1 _ IH2]; intros Hd; [done| | |by apply IH2, IH1].
  - inversion Hd; subst. constructor; [by rewrite <- Hp|by apply IH].
  - inversion Hd as [|? ? Hx Hd']; subst. inversion Hd' as [|? ? Hy Hd'']; subst. inversion Hx; subst.
    constructor; [constructor; [by apply apart_sym|done]|]. by constructor.
Qed.

Lemma ranges_perm hi l l' : l ≡ₚ l' -> ranges_ok hi l -> ranges_ok hi l'.
Proof. intros Hp (H1 & H2). split; [by rewrite <- Hp|by eapply pairs_perm]. Qed.

Lemma covered_perm l l' a : l ≡ₚ l' -> covered l a <-> covered l' a.
Proof. intros Hp. unfold covered. by setoid_rewrite Hp. Qed.

Lemma covered_cons r l a : covered (r :: l) a <-> within r a \/ covered l a.
Proof.
  unfold covered. split.
  - intros (q & [->|Hq]%elem_of_cons & Hw); eauto.
  - intros [Hw|(q & Hq & Hw)]; [exists r; split; [left|done]|exists q; split; [by right|done]].
Qed.

Lemma ranges_cons hi r l : ranges_ok hi (r :: l) <-> range_ok hi r /\ Forall (apart r) l /\ ranges_ok hi l.
Proof.
  unfold ranges_ok. rewrite Forall_cons. split.
  - intros ([Hr Hl] & Hd). by inversion Hd; subst.
  - intros (Hr & Ha & Hl & Hd). split; [done|by constructor].
Qed.

(** Entry [i] in front of the others. *)
Lemma range_front (l : list (Z * Z)) i r : l !! i = Some r -> l ≡ₚ r :: delete i l.
Proof. intros E. by apply delete_Permutation. Qed.

Lemma insert_front (l : list (Z * Z)) i r q : l !! i = Some r -> <[i := q]> l ≡ₚ q :: delete i l.
Proof.
  intros E. rewrite insert_take_drop by by eapply lookup_lt_Some. rewrite delete_take_drop. symmetry. apply Permutation_middle.
Qed.

Lemma swap_remove_front (l : list (Z * Z)) i r : l !! i = Some r -> swap_remove i l ≡ₚ delete i l.
Proof.
  intros E. pose proof (lookup_lt_Some _ _ _ E) as Hi. destruct l as [|q l _] using rev_ind; [by rewrite lookup_nil in E|].
  unfold swap_remove. rewrite last_snoc, length_app in *. cbn [length] in *. rewrite Nat.add_sub.
  destruct (decide (i = length l)) as [->|Hne].
  - rewrite delete_take_drop, take_app_length, drop_ge by (rewrite length_app; cbn; lia).
    rewrite take_insert_ge, take_app_length, app_nil_r by done. done.
  - assert (Hlt : (i < length l)%nat) by lia. rewrite lookup_app_l in E by done.
    rewrite insert_app_l by done. rewrite take_app_length' by by rewrite length_insert.
    rewrite (insert_front l i r q E). rewrite !delete_take_drop, take_app_le, drop_app_le by lia.
    rewrite app_assoc. rewrite (Permutation_app_comm _ [q]). done.
Qed.

Section Ranges.
Context (hi : Z) (Hhi : hi <= SLAB_VIRT_END).

Lemma range_bounds r : range_ok hi r -> 0 < r.1 /\ 0 < r.2 /\ r.1 + r.2 < 2 ^ 64.
Proof. unfold range_ok, SLAB_VIRT_BASE, SLAB_VIRT_END in *. lia. Qed.

Lemma range_end r : range_ok hi r -> u64 (r.1 + r.2) = r.1 + r.2.
Proof. intros Hr%range_bounds. apply u64_small. lia. Qed.

(** Taking a range: the addresses it covered and the addresses of the block. *)
Lemma alloc_range_spec size l :
  ranges_ok hi l -> 0 < size -> size mod PAGE_SIZE = 0 ->
  let '(l', a) := slab_alloc_virt_range size l in
  (a = 0 /\ l' = l) \/
  (range_ok hi (a, size) /\ ranges_ok hi l' /\ Forall (apart (a, size)) l' /\
   forall x, covered l x <-> within (a, size) x \/ covered l' x).
Proof.
  intros Hok Hs Hm. unfold slab_alloc_virt_range. destruct (find_idx _ l) as [i|] eqn:Ef; [|by left].
  apply find_idx_Some in Ef as (r & Er & Hsz & _). cbn in Hsz. apply Z.leb_le in Hsz. rewrite Er. destruct r as [st sz]. cbn [fst snd] in *.
  pose proof (ranges_perm _ _ _ (range_front _ _ _ Er) Hok) as Hr. apply ranges_cons in Hr as (Hr & Ha & Hl).
  assert (Hb := Hr). apply range_bounds in Hb. cbn in Hb. destruct (Z.eqb_spec sz size) as [->|Hne]; right.
  - pose proof (swap_remove_front _ _ _ Er) as Hp. split_and!; [done|by apply (ranges_perm _ (delete i l))| |].
    + by rewrite Hp.
    + intros x. by rewrite (covered_perm _ _ x Hp), (covered_perm l _ x (range_front _ _ _ Er)), covered_cons.
  - rewrite !u64_small by lia. pose proof (insert_front _ _ _ (st + size, sz - size) Er) as Hp.
    assert (Hr' : range_ok hi (st + size, sz - size)).
    { unfold range_ok, PAGE_SIZE in *. cbn in *. split_and!; try lia; zlia. }
    split_and!.
    + unfold range_ok in *. cbn in *. split_and!; lia || done || apply Hr.
    + apply (ranges_perm _ ((st + size, sz - size) :: delete i l)); [done|]. apply ranges_cons. split_and!; try done.
      eapply Forall_impl; [exact Ha|]. intros q. unfold apart. cbn. lia.
    + rewrite Hp. constructor; [unfold apart; cbn; lia|]. eapply Forall_impl; [exact Ha|]. intros q. unfold apart. cbn. lia.
    + intros x. rewrite (covered_perm _ _ x Hp), (covered_perm l _ x (range_front _ _ _ Er)), !covered_cons. unfold within. cbn.
      assert (E : st <= x < st + sz <-> st <= x < st + size \/ st + size <= x < st + size + (sz - size)) by lia.
      rewrite E. tauto.
Qed.

(** Two ranges side by side are one. *)
Lemma merge_ok st sz sz' l :
  ranges_ok hi ((st, sz) :: (st + sz, sz') :: l) ->
  ranges_ok hi ((st, sz + sz') :: l) /\
  forall x, covered ((st, sz + sz') :: l) x <-> covered ((st, sz) :: (st + sz, sz') :: l) x.
Proof.
  rewrite !ranges_cons. intros (H1 & Ha1 & H2 & Ha2 & Hl). apply Forall_cons in Ha1 as [_ Ha1]. split.
  - split_and!; [|rewrite Forall_forall in *; intros q Hq; pose proof (Ha1 q Hq) as A1; pose proof (Ha2 q Hq) as A2|done].
    + unfold range_ok, PAGE_SIZE in *. cbn in *. split_and!; try lia; zlia.
    + destruct Hl as [Hl _]. rewrite Forall_forall in Hl. specialize (Hl q Hq). unfold range_ok, apart in *. cbn in *. lia.
  - intros x. rewrite !covered_cons. unfold within. cbn. unfold range_ok in *. cbn in *.
    assert (E : st <= x < st + (sz + sz') <-> st <= x < st + sz \/ st + sz <= x < st + sz + sz') by lia.
    rewrite E. tauto.
Qed.

(** Two entries of a list in front of the others. *)
Lemma two_front (l : list (Z * Z)) i j a b :
  i <> j -> l !! i = Some a -> l !! j = Some b -> a <> b ->
  exists rest, l ≡ₚ a :: b :: rest /\ forall c, swap_remove j (<[i := c]> l) ≡ₚ c :: rest.
Proof.
  intros Hij Hi Hj Hab. assert (Hb : b ∈ delete i l).
  { assert (Hin : b ∈ l) by (by eapply list_elem_of_lookup_2). rewrite (range_front _ _ _ Hi) in Hin.
    by apply elem_of_cons in Hin as [->|]. }
  apply elem_of_Permutation in Hb as [rest Hr]. exists rest. split; [by rewrite (range_front _ _ _ Hi), Hr|].
  intros c. assert (Hj' : <[i := c]> l !! j = Some b) by (by rewrite list_lookup_insert_ne).
  rewrite (swap_remove_front _ _ _ Hj'). apply (Permutation_cons_inv (a := b)).
  rewrite <- (range_front _ _ _ Hj'), (insert_front _ _ _ c Hi), Hr. apply perm_swap.
Qed.

(** Giving a range back; the list loses it when it is full. *)
Lemma free_range_spec start size l :
  ranges_ok hi l -> range_ok hi (start, size) -> Forall (apart (start, size)) l ->
  let l' := slab_free_virt_range start size l in
  ranges_ok hi l' /\
  ((forall x, covered l' x <-> within (start, size) x \/ covered l x) \/ (l' = l /\ (SLAB_MAX_FREE_RANGES <= length l)%nat)).
Proof.
  intros Hok Hr Ha l'. assert (Hall : ranges_ok hi ((start, size) :: l)) by by apply ranges_cons.
  pose proof (range_bounds _ Hr) as Hb. cbn in Hb. unfold l', slab_free_virt_range. destruct (find_idx _ l) as [i|] eqn:Ef.
  2:{ destruct (Nat.leb_spec SLAB_MAX_FREE_RANGES (length l)); [by eauto|]. assert (Hp : (start, size) :: l ≡ₚ l ++ [(start, size)]) by apply Permutation_cons_append.
      split; [by apply (ranges_perm _ _ _ Hp)|]. left. intros x. by rewrite <- (covered_perm _ _ x Hp), covered_cons. }
  apply find_idx_Some in Ef as ([st sz] & Er & Hsz & _). rewrite Er. cbn [fst snd] in *.
  assert (Hri : range_ok hi (st, sz)). { destruct Hok as [Hf _]. by apply (Forall_lookup_1 _ _ _ _ Hf Er). }
  pose proof (range_bounds _ Hri) as Hbi. cbn in Hbi. rewrite (u64_small (st + sz)), (u64_small (start + size)) in * by lia.
  pose proof (range_front _ _ _ Er) as Hp. destruct (Z.eqb_spec (st + sz) start) as [<-|Hne].
  - assert (Hm : ranges_ok hi ((st, sz) :: (st + sz, size) :: delete i l)).
    { eapply ranges_perm; [|exact Hall]. etransitivity; [apply perm_skip, Hp|apply perm_swap]. }
    apply merge_ok in Hm as [Hm Hc]. rewrite (u64_small (sz + size)), (u64_small (st + (sz + size))) by lia. set (l1 := <[i := (st, sz + size)]> l).
    assert (Hp1 : l1 ≡ₚ (st, sz + size) :: delete i l) by by eapply insert_front.
    assert (Hc1 : forall x, covered l1 x <-> within (st + sz, size) x \/ covered l x).
    { intros x. rewrite (covered_perm _ _ x Hp1), Hc, (covered_perm l _ x Hp), !covered_cons. tauto. }
    destruct (find_idx _ (imap pair l1)) as [j|] eqn:Ej.
    2:{ split; [by eapply ranges_perm|by left]. }
    apply find_idx_Some in Ej as ([j' q] & Elj & Hq & _). rewrite list_lookup_imap in Elj.
    destruct (l1 !! j) as [[stj szj]|] eqn:Elj'; [|done]. cbn in Elj. injection Elj as <- <-. cbn in Hq.
    apply andb_true_iff in Hq as [Hji Hst]. apply negb_true_iff, Nat.eqb_neq in Hji. apply Z.eqb_eq in Hst. subst stj.
    assert (Ei : l1 !! i = Some (st, sz + size)) by (by apply list_lookup_insert_eq; eapply lookup_lt_Some).
    destruct (two_front l1 i j (st, sz + size) (st + (sz + size), szj)) as (rest & Hp2 & Hc2); [done|done|done|intros [=]; lia|].
    assert (Hm2 : ranges_ok hi l1) by exact (ranges_perm hi _ _ (Permutation_sym Hp1) Hm).
    assert (Hj : range_ok hi (st + (sz + size), szj)) by (destruct Hm2 as [Hf _]; by apply (Forall_lookup_1 _ _ _ _ Hf Elj')).
    apply range_bounds in Hj. cbn in Hj. rewrite u64_small by lia.
    apply (ranges_perm _ _ _ Hp2), merge_ok in Hm2 as [Hm2 Hc3]. split; [by eapply ranges_perm; [symmetry; apply Hc2|]|].
    left. intros x. by rewrite (covered_perm _ _ x (Hc2 _)), Hc3, <- (covered_perm _ _ x Hp2), Hc1.
  - cbn in Hsz. apply Z.eqb_eq in Hsz. subst st.
    assert (Hm : ranges_ok hi ((start, size) :: (start + size, sz) :: delete i l)) by (eapply ranges_perm; [|exact Hall]; by apply perm_skip).
    apply merge_ok in Hm as [Hm Hc]. rewrite u64_small by lia. rewrite (Z.add_comm sz size).
    pose proof (insert_front _ _ _ (start, size + sz) Er) as Hp1. split; [by eapply ranges_perm|]. left. intros x.
    rewrite (covered_perm _ _ x Hp1), Hc, (covered_perm l _ x Hp), !covered_cons. tauto.
Qed.
End Ranges.

(** ** Linked pages *)

Definition links (m : gmap Z slab_page) (x : Z) : option (option Z * option Z) :=
  (fun h => (s_next h, s_prev h)) <$> m !! x.

(** From [p], whose predecessor is [prev], through the pages of [l] to [p'], whose
    predecessor is [prev']. *)
Fixpoint dseg (m : gmap Z slab_page) (prev p : option Z) (l : list Z) (prev' p' : option Z) : Prop :=
  match l with
  | [] => prev = prev' /\ p = p'
  | x :: l' => p = Some x /\ exists n, links m x = Some (n, prev) /\ dseg m (Some x) n l' prev' p'
  end.

Definition dll (m : gmap Z slab_page) (p : option Z) (l : list Z) : Prop := exists e, dseg m None p l e None.

(** Setting the [prev] of the first page of a list. *)
Definition set_first (r p : option Z) (m : gmap Z slab_page) : gmap Z slab_page :=
  match p with Some q => alter (set_s_prev r) q m | None => m end.

(** Setting the [next] of the page before. *)
Definition set_before (n pv : option Z) (m : gmap Z slab_page) : gmap Z slab_page :=
  match pv with Some q => alter (set_s_next n) q m | None => m end.

Lemma links_next m n q x : links (alter (set_s_next n) q m) x = if decide (x = q) then (fun l => (n, l.2)) <$> links m x else links m x.
Proof.
  unfold links. case_decide as D; [subst; rewrite lookup_alter_eq|by rewrite lookup_alter_ne by done]. by destruct (m !! q).
Qed.

Lemma links_prev m r q x : links (alter (set_s_prev r) q m) x = if decide (x = q) then (fun l => (l.1, r)) <$> links m x else links m x.
Proof.
  unfold links. case_decide as D; [subst; rewrite lookup_alter_eq|by rewrite lookup_alter_ne by done]. by destruct (m !! q).
Qed.

Lemma links_first m r p x : links (set_first r p m) x = if decide (p = Some x) then (fun l => (l.1, r)) <$> links m x else links m x.
Proof.
  destruct p as [q|]; cbn [set_first]; [|done]. rewrite links_prev.
  repeat case_decide; try done; congruence.
Qed.

Lemma links_before m n pv x : links (set_before n pv m) x = if decide (pv = Some x) then (fun l => (n, l.2)) <$> links m x else links m x.
Proof.
  destruct pv as [q|]; cbn [set_before]; [|done]. rewrite links_next.
  repeat case_decide; try done; congruence.
Qed.

Lemma dseg_ext m m' prev p l prev' p' :
  (forall x, x ∈ l -> links m' x = links m x) -> dseg m prev p l prev' p' -> dseg m' prev p l prev' p'.
Proof.
  revert prev p. induction l as [|x l IH]; intros prev p He; cbn [dseg]; [done|].
  intros (-> & n & E & H). split; [done|]. exists n. rewrite He by left. split; [done|].
  apply IH; [|done]. intros y Hy. apply He. by right.
Qed.

Lemma dll_ext m m' p l : (forall x, x ∈ l -> links m' x = links m x) -> dll m p l -> dll m' p l.
Proof. intros He [e H]. exists e. by eapply dseg_ext. Qed.

Lemma dseg_app m prev p l1 l2 prev' p' :
  dseg m prev p (l1 ++ l2) prev' p' <-> exists r q, dseg m prev p l1 r q /\ dseg m r q l2 prev' p'.
Proof.
  revert prev p. induction l1 as [|x l1 IH]; intros prev p; cbn [app dseg].
  - split; [by eauto|]. by intros (r & q & [-> ->] & H).
  - setoid_rewrite IH. split.
    + intros (-> & n & E & r & q & H1 & H2). exists r, q. split; [|done]. split; [done|]. by exists n.
    + intros (r & q & (-> & n & E & H1) & H2). split; [done|]. exists n. split; [done|]. by exists r, q.
Qed.

Lemma dseg_set_first m prev p l e r : NoDup l -> dseg m prev p l e None -> exists e', dseg (set_first r p m) r p l e' None.
Proof.
  destruct l as [|x l]; cbn [dseg]; [intros _ [_ ->]; by eexists|]. intros Hnd (-> & n & E & H). apply NoDup_cons in Hnd as [Hx Hnd].
  exists e. split; [done|]. exists n. rewrite links_first, decide_True, E by done. split; [done|].
  eapply dseg_ext; [|exact H]. intros y Hy. rewrite links_first, decide_False; [done|]. intros [= ->]. done.
Qed.

Lemma dll_head m p x l : dll m p (x :: l) -> p = Some x /\ exists n, links m x = Some (n, None).
Proof. intros (e & -> & n & E & _). eauto. Qed.

Lemma dll_nil m p : dll m p [] <-> p = None.
Proof. split; [by intros (e & _ & ->)|intros ->; by exists None]. Qed.

Lemma dll_cons_inv m p l x : dll m p l -> p = Some x -> exists l', l = x :: l'.
Proof. destruct l as [|y l]; [rewrite dll_nil; by intros ->|]. intros [-> _]%dll_head [= ->]. by eauto. Qed.

(** A page at the head. *)
Lemma dll_add m p l page :
  NoDup (page :: l) -> dll m p l -> (exists n, links m page = Some (n, None)) ->
  dll (set_first (Some page) p (alter (set_s_next p) page m)) (Some page) (page :: l).
Proof.
  intros [Hp Hnd]%NoDup_cons [e H] [n E]. set (m1 := alter (set_s_next p) page m).
  assert (H1 : dseg m1 None p l e None).
  { eapply dseg_ext; [|exact H]. intros x Hx. unfold m1. rewrite links_next, decide_False; [done|]. by intros ->. }
  destruct (dseg_set_first _ _ _ _ _ (Some page) Hnd H1) as [e' H2]. exists e'. split; [done|]. exists p. split; [|done].
  assert (Hne : p <> Some page).
  { intros ->. destruct l as [|y l]; [by destruct H as [_ ?]|]. destruct H as [[= ->] _]. apply Hp. left. }
  rewrite links_first, decide_False by done. unfold m1. rewrite links_next, decide_True, E by done. done.
Qed.

(** A page taken out. *)
Lemma dll_unlink m p l1 page l2 n pv :
  NoDup (l1 ++ page :: l2) -> dll m p (l1 ++ page :: l2) -> links m page = Some (n, pv) ->
  let m' := set_first pv n (set_before n pv m) in
  dll m' (match pv with Some _ => p | None => n end) (l1 ++ l2) /\ (pv = None <-> p = Some page).
Proof.
  intros Hnd [e H] E m'. apply dseg_app in H as (r & q & H1 & -> & n' & E' & H2). rewrite E in E'. injection E' as <- <-.
  apply NoDup_app in Hnd as (Hnd1 & Hd & [Hp Hnd2]%NoDup_cons).
  assert (Hother : forall x, x ∈ l1 -> pv <> Some x -> links m' x = links m x).
  { intros x Hx Hpv. unfold m'. rewrite links_first, decide_False, links_before, decide_False; [done|done|].
    intros ->. destruct l2 as [|y l2]; [by destruct H2|]. destruct H2 as [[= ->] _]. apply (Hd y Hx). right. left. }
  assert (H2b : dseg (set_before n pv m) (Some page) n l2 e None).
  { eapply dseg_ext; [|exact H2]. intros x Hx. rewrite links_before, decide_False; [done|]. intros ->.
    destruct l1 as [|y l1 _] using rev_ind; [by destruct H1|]. apply dseg_app in H1 as (a & b & _ & -> & n' & Ey & [= <-] & _).
    apply (Hd y); [set_solver|by right]. }
  destruct (dseg_set_first _ _ _ _ _ pv Hnd2 H2b) as [e' H2'].
  destruct l1 as [|y l1 _] using rev_ind.
  - destruct H1 as [<- ->]. split; [by exists e'|done].
  - apply dseg_app in H1 as (a & b & H1 & -> & n' & Ey & Epv & ->). subst pv. split.
    + exists e'. apply dseg_app. exists (Some y), n. split; [|done]. apply dseg_app. exists a, (Some y). split.
      * eapply dseg_ext; [|exact H1]. intros x Hx. apply Hother; [set_solver|]. intros [= ->]. apply NoDup_app in Hnd1 as (_ & Hl & _).
        apply (Hl x Hx). left.
      * split; [done|]. exists n. split; [|done]. unfold m'. rewrite links_first, decide_False, links_before, decide_True, Ey by
          (done || (intros ->; destruct l2 as [|z l2]; [by destruct H2|]; destruct H2 as [[= ->] _]; apply (Hd z); [set_solver|right; left])). done.
    + split; [done|]. intros ->. exfalso. apply (Hd page); [|left].
      destruct l1 as [|x l1]; cbn [app dseg] in H1; [destruct H1 as [_ [= ->]]; left|destruct H1 as [[= ->] _]; left].
Qed.

(** The links of pages elsewhere do not change. *)
Lemma links_unlink_ne m p l1 page l2 n pv x :
  dll m p (l1 ++ page :: l2) -> links m page = Some (n, pv) -> x ∉ l1 ++ page :: l2 ->
  links (set_first pv n (set_before n pv m)) x = links m x.
Proof.
  intros [e H] E Hx. apply dseg_app in H as (r & q & H1 & -> & n' & E' & H2). rewrite E in E'. injection E' as <- <-.
  rewrite links_first, decide_False, links_before, decide_False; [done| |].
  - intros ->. apply Hx. destruct l1 as [|y l1 _] using rev_ind; [by destruct H1|].
    apply dseg_app in H1 as (a & b & _ & -> & n' & Ey & [= <-] & _). set_solver.
  - intros ->. apply Hx. destruct l2 as [|y l2]; [by destruct H2|]. destruct H2 as [[= ->] _]. set_solver.
Qed.

Lemma links_add_ne m p l page x :
  dll m p l -> x <> page -> x ∉ l -> links (set_first (Some page) p (alter (set_s_next p) page m)) x = links m x.
Proof.
  intros [e H] Hne Hx. rewrite links_first, decide_False, links_next, decide_False; [done|done|].
  intros ->. destruct l as [|y l]; [by destruct H|]. destruct H as [[= ->] _]. apply Hx. left.
Qed.
