(* ===== verification/SlabSpace.v ===== *)
(** * The address space of the kernel heap

    What the heap asks of the page allocator and the page tables ([PageLaws]), and
    the regions of addresses it has mapped: a slab page is a region of one page, a
    large block a region of its own.  Regions do not overlap, neither in the address
    space nor in physical memory, and the free ranges are apart from them. *)

From Stdlib Require Import ZArith Lia Bool.
From stdpp Require Import base list gmap.
From S2P Require Import Prelude Wire Pmm Slab SlabParts.

Open Scope Z_scope.

Definition heap_page (v : Z) : Prop := v mod PAGE_SIZE = 0 /\ SLAB_VIRT_BASE <= v < SLAB_VIRT_END.

(** The [n] physical pages from [a] on. *)
Definition frames_at (a n : Z) : gset Z := list_to_set ((fun i => a + i * PAGE_SIZE) <$> seqZ 0 n).

Definition same_maps {P} `{PageOps P} (p p' : P) : Prop := forall v, heap_page v -> pg_phys p' v = pg_phys p v.

(** [pg_ok p H]: the pages of [H] are the heap's; nobody else uses them. *)
Class PageLaws (P : Type) `{PageOps P} := {
  pg_ok : P -> gset Z -> Prop;
  law_caches : 0xFFFFFFFF80000000 <= slab_caches_addr /\ slab_caches_addr + 7 * sizeof_slab_cache < 2 ^ 64;
  law_page : forall p H a, pg_ok p H -> a ∈ H -> 0 < a < 2 ^ 52 /\ a mod PAGE_SIZE = 0;
  law_alloc : forall p H p' a, pg_ok p H -> pg_alloc p = (p', a) ->
    same_maps p p' /\ ((a = 0 /\ pg_ok p' H) \/ (a <> 0 /\ a ∉ H /\ pg_ok p' ({[a]} ∪ H)));
  law_free : forall p H a, pg_ok p H -> a ∈ H -> same_maps p (pg_free a p) /\ pg_ok (pg_free a p) (H ∖ {[a]});
  law_alloc_n : forall p H n p' a, pg_ok p H -> 0 < n -> pg_alloc_n p n = (p', a) ->
    same_maps p p' /\ ((a = 0 /\ pg_ok p' H) \/ (a <> 0 /\ frames_at a n ## H /\ pg_ok p' (frames_at a n ∪ H)));
  law_free_n : forall p H a n, pg_ok p H -> frames_at a n ⊆ H ->
    same_maps p (pg_free_n p a n) /\ pg_ok (pg_free_n p a n) (H ∖ frames_at a n);
  law_map : forall p H v a p' b, pg_ok p H -> heap_page v -> a ∈ H -> pg_map p v a = (p', b) ->
    pg_ok p' H /\ forall w, heap_page w -> pg_phys p' w = if b && (w =? v) then a else pg_phys p w;
  law_unmap : forall p H v, pg_ok p H -> heap_page v ->
    pg_ok (pg_unmap v p) H /\ forall w, heap_page w -> pg_phys (pg_unmap v p) w = if w =? v then 0 else pg_phys p w;
}.

Lemma elem_of_frames_at x a n : x ∈ frames_at a n <-> exists i, 0 <= i < n /\ x = a + i * PAGE_SIZE.
Proof.
  unfold frames_at. rewrite elem_of_list_to_set, list_elem_of_fmap. split.
  - intros (i & -> & Hi%elem_of_seqZ). exists i. split; [lia|done].
  - intros (i & Hi & ->). exists i. split; [done|]. apply elem_of_seqZ. lia.
Qed.

(** Regions: the number of pages and the physical address. *)
Notation regions := (gmap Z (Z * Z)) (only parsing).

Definition in_region (R : regions) (x : Z) : Prop := exists a n ph, R !! a = Some (n, ph) /\ within (a, n * PAGE_SIZE) x.

Definition in_frames (R : regions) (f : Z) : Prop := exists a n ph, R !! a = Some (n, ph) /\ f ∈ frames_at ph n.

(** Address [x] is at physical address [y]. *)
Definition phys_at (R : regions) (x y : Z) : Prop :=
  exists a n ph, R !! a = Some (n, ph) /\ within (a, n * PAGE_SIZE) x /\ y = ph + (x - a).

Record space_ok {P} `{PageLaws P} (R : regions) (next : Z) (ranges : list (Z * Z)) (p : P) : Prop := {
  so_next : SLAB_VIRT_BASE <= next <= SLAB_VIRT_END /\ next mod PAGE_SIZE = 0;
  so_ranges : ranges_ok next ranges;
  so_region : forall a n ph, R !! a = Some (n, ph) -> range_ok next (a, n * PAGE_SIZE) /\ Forall (apart (a, n * PAGE_SIZE)) ranges;
  so_apart : forall a n ph a' n' ph', R !! a = Some (n, ph) -> R !! a' = Some (n', ph') -> a <> a' ->
    apart (a, n * PAGE_SIZE) (a', n' * PAGE_SIZE) /\ frames_at ph n ## frames_at ph' n';
  so_held : exists H, pg_ok p H /\ forall f, f ∈ H <-> in_frames R f;
  so_maps : forall a n ph i, R !! a = Some (n, ph) -> 0 <= i < n -> pg_phys p (a + i * PAGE_SIZE) = ph + i * PAGE_SIZE;
  so_unmapped : forall v, heap_page v -> ~ in_region R v -> pg_phys p v = 0;
}.

Section Space.
Context {P : Type} `{PageLaws P}.
Implicit Types (R : regions) (p : P).

(** ** Regions *)

Lemma range_pages hi a n : hi <= SLAB_VIRT_END -> range_ok hi (a, n * PAGE_SIZE) ->
  0 < n < 2 ^ 20 /\ 0 < a /\ a + n * PAGE_SIZE < 2 ^ 64 /\ forall i, 0 <= i < n -> heap_page (a + i * PAGE_SIZE).
Proof.
  intros Hhi (H1 & H2 & H3 & H4 & _). unfold heap_page, PAGE_SIZE, SLAB_VIRT_BASE, SLAB_VIRT_END in *. cbn in *.
  split_and!; try lia. intros i Hi. split_and!; try lia. by rewrite Z_mod_plus_full.
Qed.

Lemma page_of_range x : x = page_of x + x mod PAGE_SIZE /\ 0 <= x mod PAGE_SIZE < PAGE_SIZE.
Proof. unfold page_of, PAGE_SIZE. zlia. Qed.

Lemma page_of_add v i : v mod PAGE_SIZE = 0 -> 0 <= i < PAGE_SIZE -> page_of (v + i) = v /\ (v + i) mod PAGE_SIZE = i.
Proof. unfold page_of, PAGE_SIZE. intros. zlia. Qed.

Lemma page_of_page v : v mod PAGE_SIZE = 0 -> page_of v = v.
Proof. unfold page_of, PAGE_SIZE. intros. zlia. Qed.

(** The page of an address of a region. *)
Lemma region_page a n x : a mod PAGE_SIZE = 0 -> within (a, n * PAGE_SIZE) x ->
  exists i, 0 <= i < n /\ page_of x = a + i * PAGE_SIZE /\ x mod PAGE_SIZE = x - a - i * PAGE_SIZE.
Proof.
  unfold within, page_of, PAGE_SIZE. cbn. intros Ha Hx. exists ((x - a) / 4096). split_and!; zlia.
Qed.

Section Facts.
Context R next ranges p (Hso : space_ok R next ranges p).

Lemma region_facts a n ph : R !! a = Some (n, ph) ->
  range_ok next (a, n * PAGE_SIZE) /\ heap_page a /\ 0 < n < 2 ^ 20 /\ a + n * PAGE_SIZE <= next /\
  forall i, 0 <= i < n -> heap_page (a + i * PAGE_SIZE).
Proof.
  intros E. destruct (so_region _ _ _ _ Hso a n ph E) as [Hr _]. pose proof (so_next _ _ _ _ Hso) as [Hn _].
  destruct (range_pages next a n ltac:(lia) Hr) as (H1 & H2 & H3 & H4).
  pose proof (H4 0 ltac:(lia)) as H5. rewrite Z.add_0_r in H5. split_and!; [done|done|lia|lia|apply Hr|done].
Qed.

Lemma region_frame a n ph : R !! a = Some (n, ph) -> 0 < ph /\ ph mod PAGE_SIZE = 0 /\ ph + n * PAGE_SIZE < 2 ^ 53.
Proof.
  intros E. destruct (so_held _ _ _ _ Hso) as (H' & Hok & Hf). destruct (region_facts a n ph E) as (_ & _ & Hn & _).
  assert (Hin : forall i, 0 <= i < n -> 0 < ph + i * PAGE_SIZE < 2 ^ 52 /\ (ph + i * PAGE_SIZE) mod PAGE_SIZE = 0).
  { intros i Hi. apply (law_page p H' _ Hok). apply Hf. exists a, n, ph. split; [done|]. apply elem_of_frames_at. by exists i. }
  destruct (Hin 0 ltac:(lia)) as [H1 H2]. destruct (Hin (n - 1) ltac:(lia)) as [H3 _]. rewrite Z.add_0_r in *. unfold PAGE_SIZE in *. lia.
Qed.

Lemma region_unique a n ph a' n' ph' x :
  R !! a = Some (n, ph) -> R !! a' = Some (n', ph') -> within (a, n * PAGE_SIZE) x -> within (a', n' * PAGE_SIZE) x -> a = a'.
Proof.
  intros E E' Hx Hx'. destruct (decide (a = a')) as [|Hne]; [done|].
  destruct (so_apart _ _ _ _ Hso _ _ _ _ _ _ E E' Hne) as [Ha _]. unfold apart, within in *. cbn in *. lia.
Qed.

Lemma phys_at_page x y : phys_at R x y -> pg_phys p (page_of x) + x mod PAGE_SIZE = y /\ pg_phys p (page_of x) <> 0.
Proof.
  intros (a & n & ph & E & Hx & ->). destruct (region_facts a n ph E) as (_ & [Ha _] & _).
  destruct (region_page a n x Ha Hx) as (i & Hi & -> & ->). rewrite (so_maps _ _ _ _ Hso a n ph i E Hi).
  destruct (region_frame a n ph E). unfold PAGE_SIZE. lia.
Qed.

(** Different addresses are at different physical addresses. *)
Lemma phys_at_inj x x' y : phys_at R x y -> phys_at R x' y -> x = x'.
Proof.
  intros (a & n & ph & E & Hx & ->) (a' & n' & ph' & E' & Hx' & Ey).
  destruct (decide (a = a')) as [->|Hne]; [rewrite E in E'; injection E' as <- <-; lia|]. exfalso.
  destruct (so_apart _ _ _ _ Hso _ _ _ _ _ _ E E' Hne) as [_ Hd].
  destruct (region_facts a n ph E) as (_ & [Ha _] & _). destruct (region_facts a' n' ph' E') as (_ & [Ha' _] & _).
  destruct (region_frame a n ph E) as (_ & Hp & _). destruct (region_frame a' n' ph' E') as (_ & Hp' & _).
  apply (Hd (page_of (ph + (x - a)))); apply elem_of_frames_at; [exists ((x - a) / PAGE_SIZE)|exists ((x' - a') / PAGE_SIZE)];
    unfold within, page_of, PAGE_SIZE in *; cbn in *; zlia.
Qed.
End Facts.

Lemma phys_at_region R a n ph x : R !! a = Some (n, ph) -> within (a, n * PAGE_SIZE) x -> phys_at R x (ph + (x - a)).
Proof. intros E Hx. by exists a, n, ph. Qed.

(** ** Mapping and unmapping a run of pages *)

Lemma slab_map_pages_spec n virt phys i p H' p' r :
  pg_ok p H' -> map_pages n virt phys i p = (p', r) -> 0 <= i ->
  range_ok SLAB_VIRT_END (virt, (i + Z.of_nat n) * PAGE_SIZE) -> frames_at phys (i + Z.of_nat n) ⊆ H' ->
  pg_ok p' H' /\
  let k := match r with None => i + Z.of_nat n | Some k => k end in
  i <= k <= i + Z.of_nat n /\
  forall w, heap_page w -> pg_phys p' w = if decide (virt + i * PAGE_SIZE <= w < virt + k * PAGE_SIZE) then phys + (w - virt) else pg_phys p w.
Proof.
  revert i p. induction n as [|n IH]; intros i p Hok Hm Hi Hr Hf.
  - injection Hm as <- <-. split; [done|]. split; [lia|]. intros w _. rewrite decide_False by lia. done.
  - destruct (range_pages _ _ _ ltac:(reflexivity) Hr) as (Hn & Hv & Hend & Hpages).
    assert (Hin : phys + i * PAGE_SIZE ∈ H') by (apply Hf, elem_of_frames_at; exists i; split; [lia|done]).
    pose proof (law_page _ _ _ Hok Hin) as Hpg. cbn [map_pages] in Hm.
    rewrite (u64_small (virt + i * PAGE_SIZE)), (u64_small (phys + i * PAGE_SIZE)) in Hm by (unfold PAGE_SIZE in *; lia).
    destruct (pg_map p (virt + i * PAGE_SIZE) (phys + i * PAGE_SIZE)) as [p1 b] eqn:Em.
    destruct (law_map _ _ _ _ _ _ Hok (Hpages i ltac:(lia)) Hin Em) as [Hok1 Hph]. destruct b.
    + replace (i + Z.of_nat (S n)) with (i + 1 + Z.of_nat n) in * by lia.
      destruct (IH (i + 1) p1 Hok1 Hm ltac:(lia) Hr Hf) as (Hok' & Hk & Hw). split; [done|]. cbn zeta in *.
      set (k := match r with None => _ | Some k => k end) in *. split; [lia|]. intros w Hp. rewrite Hw, Hph by done. cbn [andb].
      destruct (Z.eqb_spec w (virt + i * PAGE_SIZE)) as [->|Hne].
      * rewrite decide_False, decide_True by (unfold PAGE_SIZE; lia). lia.
      * destruct (Hpages i ltac:(lia)) as [Hal _]. destruct Hp as [Hpw _].
        assert (Eq : virt + (i + 1) * PAGE_SIZE <= w < virt + k * PAGE_SIZE <-> virt + i * PAGE_SIZE <= w < virt + k * PAGE_SIZE) by (unfold PAGE_SIZE in *; zlia).
        by rewrite (decide_ext _ _ _ _ Eq).
    + injection Hm as <- <-. split; [done|]. split; [lia|]. intros w Hp. rewrite Hph by done. by rewrite decide_False by lia.
Qed.

Lemma seqZ_snoc k : 0 <= k -> seqZ 0 (Z.succ k) = seqZ 0 k ++ [k].
Proof. intros Hk. replace (Z.succ k) with (k + 1) by lia. rewrite seqZ_app by lia. f_equal. Qed.

Lemma unmap_pages_spec virt n p H' :
  pg_ok p H' -> 0 <= n -> (n = 0 \/ range_ok SLAB_VIRT_END (virt, n * PAGE_SIZE)) ->
  let p' := unmap_pages virt n p in
  pg_ok p' H' /\ forall w, heap_page w -> pg_phys p' w = if decide (virt <= w < virt + n * PAGE_SIZE) then 0 else pg_phys p w.
Proof.
  intros Hok Hn Hr p'. unfold p', unmap_pages.
  destruct Hr as [->|Hr]; [split; [done|]; intros w _; by rewrite decide_False by lia|].
  destruct (range_pages _ _ _ ltac:(reflexivity) Hr) as (_ & Hv & Hend & Hpages). clear Hr.
  assert (Hgen : forall k, 0 <= k <= n -> let q := foldl (fun p i => pg_unmap (u64 (virt + i * PAGE_SIZE)) p) p (seqZ 0 k) in
    pg_ok q H' /\ forall w, heap_page w -> pg_phys q w = if decide (virt <= w < virt + k * PAGE_SIZE) then 0 else pg_phys p w); [|apply Hgen; lia].
  intros k [Hk Hkn]. revert Hkn. pattern k. apply natlike_ind; [| |exact Hk].
  - intros _. split; [done|]. intros w _. by rewrite decide_False by lia.
  - clear k Hk. intros k Hk IH Hkn. destruct (IH ltac:(lia)) as [Hq Hw]. rewrite seqZ_snoc, foldl_app by done. cbn [foldl].
    set (q := foldl _ p (seqZ 0 k)) in *. rewrite (u64_small (virt + k * PAGE_SIZE)) by (unfold PAGE_SIZE in *; lia).
    destruct (law_unmap q H' _ Hq (Hpages k ltac:(lia))) as [Hq' Hw']. split; [done|]. intros w Hp. rewrite Hw', Hw by done.
    destruct (Hpages k ltac:(lia)) as [Hal _]. destruct Hp as [Hpw _]. destruct (Z.eqb_spec w (virt + k * PAGE_SIZE)) as [->|Hne].
    + by rewrite decide_True by (unfold PAGE_SIZE; lia).
    + assert (Eq : virt <= w < virt + k * PAGE_SIZE <-> virt <= w < virt + Z.succ k * PAGE_SIZE) by (unfold PAGE_SIZE in *; zlia).
      by rewrite (decide_ext _ _ _ _ Eq).
Qed.
(** ** Taking and giving back addresses *)

Lemma apart_iff r q : 0 < r.2 -> 0 < q.2 -> apart r q <-> forall x, within r x -> ~ within q x.
Proof.
  intros Hr Hq. unfold apart, within. split; [lia|]. intros Hx.
  destruct (Z.le_gt_cases (r.1 + r.2) q.1); [by left|]. destruct (Z.le_gt_cases (q.1 + q.2) r.1); [by right|]. exfalso.
  apply (Hx (Z.max r.1 q.1)); lia.
Qed.

Lemma apart_covered hi q l : 0 < q.2 -> Forall (range_ok hi) l -> Forall (apart q) l <-> forall x, within q x -> ~ covered l x.
Proof.
  intros Hq Hl. rewrite Forall_forall in *. split.
  - intros Ha x Hx (r & Hr & Hw). destruct (Hl r Hr) as (_ & Hs & _). apply (proj1 (apart_iff q r Hq Hs) (Ha r Hr) x Hx Hw).
  - intros Hx r Hr. destruct (Hl r Hr) as (_ & Hs & _). apply apart_iff; [done|done|]. intros x Hxq Hw. apply (Hx x Hxq). by exists r.
Qed.

(** Addresses in use by nobody. *)
Definition fresh_range R (next : Z) (ranges : list (Z * Z)) (a size : Z) : Prop :=
  range_ok next (a, size) /\ Forall (apart (a, size)) ranges /\
  forall b n ph, R !! b = Some (n, ph) -> apart (a, size) (b, n * PAGE_SIZE).

Lemma take_range R next ranges p n ranges' a :
  space_ok R next ranges p -> 0 < n -> slab_alloc_virt_range (n * PAGE_SIZE) ranges = (ranges', a) -> a <> 0 ->
  space_ok R next ranges' p /\ fresh_range R next ranges' a (n * PAGE_SIZE).
Proof.
  intros Hso Hn E Ha. pose proof (so_next _ _ _ _ Hso) as [Hnx _]. pose proof (so_ranges _ _ _ _ Hso) as Hr.
  pose proof (alloc_range_spec next ltac:(lia) (n * PAGE_SIZE) ranges Hr ltac:(unfold PAGE_SIZE; lia) ltac:(apply Z_mod_mult)) as Hs.
  rewrite E in Hs. destruct Hs as [[-> _]|(Hra & Hr' & Hap & Hc)]; [done|].
  assert (Hreg : forall b m ph, R !! b = Some (m, ph) -> Forall (apart (b, m * PAGE_SIZE)) ranges' /\ apart (a, n * PAGE_SIZE) (b, m * PAGE_SIZE)).
  { intros b m ph Eb. destruct (so_region _ _ _ _ Hso b m ph Eb) as [Hb Hba]. assert (0 < (b, m * PAGE_SIZE).2) by apply Hb.
    rewrite (apart_covered next) in Hba by (done || apply Hr). split.
    - apply (apart_covered next); [done|apply Hr'|]. intros x Hx Hcx. apply (Hba x Hx), Hc. by right.
    - apply apart_iff; [apply Hra|done|]. intros x Hx Hbx. apply (Hba x Hbx), Hc. by left. }
  split.
  - destruct Hso. constructor; try done. intros b m ph Eb. split; [by apply (so_region0 b m ph)|by apply (Hreg b m ph)].
  - split_and!; [done|done|]. intros b m ph Eb. by apply (Hreg b m ph).
Qed.

Lemma range_ok_mono hi hi' r : hi <= hi' -> range_ok hi r -> range_ok hi' r.
Proof. unfold range_ok. intros ? (? & ? & ? & ? & ?). split_and!; try done; lia. Qed.

Lemma bump_range R next ranges p n :
  space_ok R next ranges p -> 0 < n -> next + n * PAGE_SIZE <= SLAB_VIRT_END ->
  space_ok R (next + n * PAGE_SIZE) ranges p /\ fresh_range R (next + n * PAGE_SIZE) ranges next (n * PAGE_SIZE).
Proof.
  intros Hso Hn Hend. pose proof (so_next _ _ _ _ Hso) as [Hnx Hal]. assert (Hpos : 0 < n * PAGE_SIZE) by (unfold PAGE_SIZE; lia).
  pose proof (so_ranges _ _ _ _ Hso) as [Hf Hd]. split.
  - constructor; try apply Hso.
    + split; [lia|]. by rewrite Z_mod_plus_full.
    + split; [|done]. eapply Forall_impl; [exact Hf|]. intros r. apply range_ok_mono. lia.
    + intros b m ph Eb. destruct (so_region _ _ _ _ Hso b m ph Eb) as [Hb Hba]. split; [|done]. eapply range_ok_mono; [|exact Hb]. lia.
  - split_and!.
    + unfold range_ok. cbn [fst snd]. split_and!; [lia|lia|lia|done|apply Z_mod_mult].
    + eapply Forall_impl; [exact Hf|]. intros r (_ & _ & Hr & _). right. cbn. lia.
    + intros b m ph Eb. destruct (so_region _ _ _ _ Hso b m ph Eb) as [(_ & _ & Hb & _) _]. right. cbn in *. lia.
Qed.

Lemma give_range R next ranges p a size :
  space_ok R next ranges p -> fresh_range R next ranges a size -> space_ok R next (slab_free_virt_range a size ranges) p.
Proof.
  intros Hso (Hra & Hap & Hreg). pose proof (so_next _ _ _ _ Hso) as [Hnx _]. pose proof (so_ranges _ _ _ _ Hso) as Hr.
  destruct (free_range_spec next ltac:(lia) a size ranges Hr Hra Hap) as [Hr' Hc]. constructor; try apply Hso; [done|].
  intros b m ph Eb. destruct (so_region _ _ _ _ Hso b m ph Eb) as [Hb Hba]. split; [done|].
  destruct Hc as [Hc|[-> _]]; [|done]. assert (0 < (b, m * PAGE_SIZE).2) by apply Hb.
  rewrite (apart_covered next) in Hba by (done || apply Hr). apply (apart_covered next); [done|apply Hr'|]. intros x Hx [Hxa|Hxr]%Hc.
  - specialize (Hreg b m ph Eb). rewrite apart_iff in Hreg by (done || apply Hra). by apply (Hreg x).
  - by apply (Hba x).
Qed.

(** ** Adding and removing a region *)

Lemma space_pages R next ranges p p' :
  space_ok R next ranges p -> (forall H', pg_ok p H' -> (forall f, f ∈ H' <-> in_frames R f) -> pg_ok p' H') -> same_maps p p' ->
  space_ok R next ranges p'.
Proof.
  intros Hso Hok Hsm. destruct (so_held _ _ _ _ Hso) as (H' & Hp & Hf). constructor; try apply Hso.
  - exists H'. split; [by apply Hok|done].
  - intros a n ph i E Hi. destruct (region_facts _ _ _ _ Hso a n ph E) as (_ & _ & _ & _ & Hpg). rewrite Hsm by by apply Hpg.
    by apply (so_maps _ _ _ _ Hso a n ph i).
  - intros v Hv Hn. rewrite Hsm by done. by apply (so_unmapped _ _ _ _ Hso).
Qed.

Lemma add_region R next ranges p H' p' a n ph :
  space_ok R next ranges p -> fresh_range R next ranges a (n * PAGE_SIZE) ->
  (forall f, f ∈ H' <-> in_frames R f) -> frames_at ph n ## H' -> pg_ok p' (frames_at ph n ∪ H') ->
  (forall w, heap_page w -> pg_phys p' w = if decide (within (a, n * PAGE_SIZE) w) then ph + (w - a) else pg_phys p w) ->
  R !! a = None /\ space_ok (<[a := (n, ph)]> R) next ranges p'.
Proof.
  intros Hso (Hra & Hap & Hreg) Hf Hd Hok Hw. pose proof (so_next _ _ _ _ Hso) as [Hnx _].
  destruct (range_pages next a n ltac:(lia) Hra) as (Hn & _ & _ & Hpages).
  assert (Ea : R !! a = None).
  { destruct (R !! a) as [[m q]|] eqn:E; [exfalso|done]. specialize (Hreg a m q E).
    destruct (so_region _ _ _ _ Hso a m q E) as [(_ & Hs & _) _]. destruct Hra as (_ & Hs' & _). unfold apart in Hreg. cbn in *. lia. }
  assert (Hframe : forall b m q, R !! b = Some (m, q) -> frames_at ph n ## frames_at q m).
  { intros b m q E x Hx Hx'. apply (Hd x Hx), Hf. by exists b, m, q. }
  split; [done|]. constructor; try apply Hso.
  - intros b m q [[<- [= <- <-]]|[_ E]]%lookup_insert_Some; [done|]. by apply (so_region _ _ _ _ Hso b m q).
  - intros b m q b' m' q' [[<- [= <- <-]]|[_ E]]%lookup_insert_Some [[<- [= <- <-]]|[_ E']]%lookup_insert_Some Hne; [done| | |].
    + split; [by apply (Hreg b' m' q')|by apply (Hframe b' m' q')].
    + split; [by apply apart_sym, (Hreg b m q)|by symmetry; apply (Hframe b m q)].
    + by apply (so_apart _ _ _ _ Hso b m q b' m' q').
  - exists (frames_at ph n ∪ H'). split; [done|]. intros f. rewrite elem_of_union, Hf. unfold in_frames. split.
    + intros [Hx|(b & m & q & E & Hx)]; [exists a, n, ph; by rewrite lookup_insert_eq|].
      exists b, m, q. rewrite lookup_insert_ne; [done|]. congruence.
    + intros (b & m & q & [[<- [= <- <-]]|[_ E]]%lookup_insert_Some & Hx); [by left|right; by exists b, m, q].
  - intros b m q i [[<- [= <- <-]]|[_ E]]%lookup_insert_Some Hi.
    + rewrite Hw, decide_True by (by apply Hpages || (unfold within, PAGE_SIZE; cbn; lia)). lia.
    + destruct (region_facts _ _ _ _ Hso b m q E) as (_ & _ & _ & _ & Hpg). rewrite Hw, decide_False.
      * by apply (so_maps _ _ _ _ Hso b m q i).
      * specialize (Hreg b m q E). unfold within, apart, PAGE_SIZE in *. cbn in *. lia.
      * by apply Hpg.
  - intros v Hv Hnv. rewrite Hw, decide_False by (done || (intros Hx; apply Hnv; exists a, n, ph; by rewrite lookup_insert_eq)).
    apply (so_unmapped _ _ _ _ Hso); [done|]. intros (b & m & q & E & Hx). apply Hnv. exists b, m, q. rewrite lookup_insert_ne; [done|]. congruence.
Qed.

Lemma remove_region R next ranges p H' p' a n ph :
  space_ok R next ranges p -> R !! a = Some (n, ph) ->
  (forall f, f ∈ H' <-> in_frames R f) -> pg_ok p' (H' ∖ frames_at ph n) ->
  (forall w, heap_page w -> pg_phys p' w = if decide (within (a, n * PAGE_SIZE) w) then 0 else pg_phys p w) ->
  space_ok (delete a R) next ranges p' /\ fresh_range (delete a R) next ranges a (n * PAGE_SIZE).
Proof.
  intros Hso Ea Hf Hok Hw. destruct (so_region _ _ _ _ Hso a n ph Ea) as [Hra Hap].
  assert (Hreg : forall b m q, delete a R !! b = Some (m, q) -> R !! b = Some (m, q) /\ a <> b).
  { intros b m q [? ?]%lookup_delete_Some. done. }
  split.
  - constructor; try apply Hso.
    + intros b m q [E _]%Hreg. by apply (so_region _ _ _ _ Hso b m q).
    + intros b m q b' m' q' [E _]%Hreg [E' _]%Hreg. by apply (so_apart _ _ _ _ Hso b m q b' m' q').
    + exists (H' ∖ frames_at ph n). split; [done|]. intros f. rewrite elem_of_difference, Hf. split.
      * intros [(b & m & q & E & Hx) Hnx]. exists b, m, q. rewrite lookup_delete_ne; [done|]. intros ->. congruence.
      * intros (b & m & q & [E Hne]%Hreg & Hx). split; [by exists b, m, q|]. intros Hx'.
        destruct (so_apart _ _ _ _ Hso a n ph b m q Ea E Hne) as [_ Hd]. by apply (Hd f).
    + intros b m q i [E Hne]%Hreg Hi. destruct (region_facts _ _ _ _ Hso b m q E) as (_ & _ & _ & _ & Hpg).
      rewrite Hw, decide_False; [by apply (so_maps _ _ _ _ Hso b m q i)| |by apply Hpg].
      destruct (so_apart _ _ _ _ Hso a n ph b m q Ea E Hne) as [Hb _]. unfold within, apart, PAGE_SIZE in *. cbn in *. lia.
    + intros v Hv Hnv. rewrite Hw by done. case_decide as D; [done|]. apply (so_unmapped _ _ _ _ Hso); [done|].
      intros (b & m & q & E & Hx). apply Hnv. exists b, m, q. rewrite lookup_delete_ne; [done|]. intros ->. congruence.
  - split_and!; [done|done|]. intros b m q [E Hne]%Hreg. by apply (so_apart _ _ _ _ Hso a n ph b m q).
Qed.
(** Different regions share no physical address. *)
Lemma regions_cells R next ranges p a n ph a' n' ph' y :
  space_ok R next ranges p -> R !! a = Some (n, ph) -> R !! a' = Some (n', ph') -> a <> a' ->
  ph <= y < ph + n * PAGE_SIZE -> ~ ph' <= y < ph' + n' * PAGE_SIZE.
Proof.
  intros Hso E E' Hne Hy Hy'. apply Hne. enough (a + (y - ph) = a' + (y - ph')) as Eq.
  { apply (region_unique _ _ _ _ Hso _ _ _ _ _ _ (a + (y - ph)) E E'); unfold within; cbn; lia. }
  apply (phys_at_inj _ _ _ _ Hso _ _ y).
  - exists a, n, ph. split_and!; [done|unfold within; cbn; lia|lia].
  - exists a', n', ph'. split_and!; [done|unfold within; cbn; lia|lia].
Qed.

Lemma frames_at_one a : frames_at a 1 = {[a]}.
Proof. apply set_eq. intros x. rewrite elem_of_frames_at, elem_of_singleton. split; [intros (i & Hi & ->)|intros ->; exists 0]; unfold PAGE_SIZE; lia. Qed.

End Space.
