(* ===== verification/SlabLists.v ===== *)
(** * The lists of slab pages

    Every cache has three doubly linked lists of pages.  [linked] says that they
    represent the lists of addresses [lst (i, Some w)], that every slab page is on
    exactly one of them or, for [lst (i, None)], in the hands of a call that runs
    outside the lock of cache [i], and the lemmas below say what the list operations of the file Slab do
    to the represented lists. *)

From Stdlib Require Import ZArith Lia Bool.
From stdpp Require Import base list gmap.
From S2P Require Import Prelude Wire Pmm Slab SlabParts.

Open Scope Z_scope.

#[export] Instance slab_list_eq_dec : EqDecision slab_list.
Proof. solve_decision. Defined.

(** A list of a cache, or its pages on no list. *)
Notation place := (nat * option slab_list)%type.

Definition put {A} (k : place) (v : A) (f : place -> A) : place -> A := fun x => if decide (x = k) then v else f x.

Lemma put_eq {A} k (v : A) f : put k v f k = v.
Proof. unfold put. by rewrite decide_True. Qed.

Lemma put_ne {A} k k' (v : A) f : k' <> k -> put k v f k' = f k'.
Proof. intros. unfold put. by rewrite decide_False. Qed.

(** A page without its links, a cache without its heads and statistics, and the part
    of the heap list operations do not touch. *)
Definition core (h : slab_page) : slab_page := set_s_next None (set_s_prev None h).
Definition cfg (c : slab_cache) : Z * Z * Z := (c_object_size c, c_objects_per_slab c, empty_slab_count c).
Definition rest {P} (s : heap P) := (mem s, slab_next_virt_addr s, slab_free_ranges s, slab_initialized s, pg s).

(** [page] from place [k], where [l] remains, to place [k']. *)
Definition moved (k k' : place) (l : list Z) (page : Z) (lst : place -> list Z) : place -> list Z :=
  put k' (page :: lst k') (put k l lst).

Record linked (cs : list slab_cache) (m : gmap Z slab_page) (lst : place -> list Z) : Prop := {
  li_len : length cs = SLAB_NUM_CLASSES;
  li_dll : forall i c w, cs !! i = Some c -> dll m (head w c) (lst (i, Some w));
  li_idx : forall i w x, x ∈ lst (i, Some w) -> (i < SLAB_NUM_CLASSES)%nat;
  li_flight : forall i x, x ∈ lst (i, None) -> exists n, links m x = Some (n, None);
  li_nodup : forall k, NoDup (lst k);
  li_one : forall k k' x, x ∈ lst k -> x ∈ lst k' -> k = k';
  li_all : forall x, is_Some (m !! x) <-> exists k, x ∈ lst k;
}.

Lemma linked_ext cs m lst lst' : (forall k, lst' k = lst k) -> linked cs m lst -> linked cs m lst'.
Proof.
  intros He [H1 H2 H3 H7 H4 H5 H6]. constructor; [done|..].
  - intros i c w. rewrite He. apply H2.
  - intros i w x. rewrite He. apply H3.
  - intros i x. rewrite He. apply H7.
  - intros k. rewrite He. apply H4.
  - intros k k' x. rewrite !He. apply H5.
  - intros x. setoid_rewrite He. apply H6.
Qed.

Lemma core_links (m : gmap Z slab_page) f (x : Z) : (forall h, core (f h) = core h) -> core <$> alter f x m = core <$> m.
Proof.
  intros Hf. apply map_eq. intros y. rewrite !lookup_fmap. destruct (decide (y = x)) as [->|Hne].
  - rewrite lookup_alter_eq. destruct (m !! x) as [h|]; [|done]. cbn. by rewrite Hf.
  - by rewrite lookup_alter_ne.
Qed.

Lemma core_first m r p : core <$> set_first r p m = core <$> m.
Proof. destruct p; [by apply core_links|done]. Qed.

Lemma core_before m n pv : core <$> set_before n pv m = core <$> m.
Proof. destruct pv; [by apply core_links|done]. Qed.

Lemma core_some {m m' : gmap Z slab_page} : core <$> m' = core <$> m -> forall x, is_Some (m' !! x) <-> is_Some (m !! x).
Proof. intros E x. apply (f_equal (lookup x)) in E. rewrite !lookup_fmap in E. destruct (m !! x), (m' !! x); try done; by rewrite !is_Some_alt. Qed.

Lemma cfg_alter (cs : list slab_cache) f (i : nat) : (forall c, cfg (f c) = cfg c) -> cfg <$> alter f i cs = cfg <$> cs.
Proof.
  intros Hf. apply list_eq. intros j. rewrite !list_lookup_fmap. destruct (decide (j = i)) as [->|Hne].
  - rewrite list_lookup_alter_eq. destruct (cs !! i) as [c|]; [|done]. cbn. by rewrite Hf.
  - by rewrite list_lookup_alter_ne by done.
Qed.

Lemma head_set_head w w' x c : head w (set_head w' x c) = if decide (w = w') then x else head w c.
Proof. by destruct w, w'. Qed.

Lemma links_some m x : is_Some (m !! x) <-> exists n pv, links m x = Some (n, pv).
Proof.
  unfold links. split; [intros [h ->]; cbn; by eauto|]. intros (n & pv & E). destruct (m !! x); [by eauto|done].
Qed.

Section Lists.
Context {P : Type}.
Implicit Types s : heap P.

(** Taking a page out of its list. *)
Lemma unlink_eq s lst i w l1 page l2 :
  linked (slab_caches s) (slabs s) lst -> lst (i, Some w) = l1 ++ page :: l2 ->
  exists n pv c, links (slabs s) page = Some (n, pv) /\ slab_caches s !! i = Some c /\ (pv = None <-> head w c = Some page) /\
  dll (set_first pv n (set_before n pv (slabs s))) (match pv with Some _ => head w c | None => n end) (l1 ++ l2) /\
  slab_unlink page i w s =
    on_slabs (fun m => set_first pv n (set_before n pv m))
      (match pv with Some _ => s | None => on_cache i (set_head w n) s end).
Proof.
  intros Hl El. assert (Hin : page ∈ lst (i, Some w)) by (rewrite El; set_solver).
  assert (Hsome : is_Some (slabs s !! page)) by (apply (li_all _ _ _ Hl); by eexists). destruct Hsome as [h Eh].
  destruct (lookup_lt_is_Some_2 (slab_caches s) i) as [c Ec]; [rewrite (li_len _ _ _ Hl); by apply (li_idx _ _ _ Hl i w page)|].
  pose proof (li_dll _ _ _ Hl i c w Ec) as Hd. pose proof (li_nodup _ _ _ Hl (i, Some w)) as Hnd. rewrite El in *.
  assert (Elk : links (slabs s) page = Some (s_next h, s_prev h)) by (unfold links; by rewrite Eh).
  destruct (dll_unlink _ _ _ _ _ _ _ Hnd Hd Elk) as [Hd' Hpv].
  exists (s_next h), (s_prev h), c. split_and!; [done|done|done|done|].
  unfold slab_unlink. rewrite Eh. destruct (s_prev h) as [q|] eqn:Ep.
  - destruct (s_next h); [|by destruct s]. by destruct s.
  - rewrite decide_True by (unfold head_of; rewrite Ec; by apply Hpv). destruct (s_next h); by destruct s.
Qed.

Lemma moved_places cs m lst k k' l1 page l2 :
  linked cs m lst -> k <> k' -> lst k = l1 ++ page :: l2 ->
  let lst' := moved k k' (l1 ++ l2) page lst in
  (forall j, NoDup (lst' j)) /\ (forall j j' x, x ∈ lst' j -> x ∈ lst' j' -> j = j') /\
  (forall x, (exists j, x ∈ lst j) <-> exists j, x ∈ lst' j) /\
  forall j x, x ∈ lst' j -> (j = k' /\ x = page) \/ (x ∈ lst j /\ x <> page).
Proof.
  intros Hl Hk El lst'. pose proof (li_nodup _ _ _ Hl) as Hnd. pose proof (li_one _ _ _ Hl) as Ho.
  assert (Hp : page ∈ lst k) by (rewrite El; set_solver). pose proof (Hnd k) as Hndn. rewrite El in Hndn.
  rewrite <- Permutation_middle in Hndn. apply NoDup_cons in Hndn as [Hpn Hnd12].
  assert (Hkp : page ∉ lst k') by (intros Hx; apply Hk; by apply (Ho k k' page)).
  assert (Hsub : forall j x, x ∈ lst' j -> (j = k' /\ x = page) \/ (x ∈ lst j /\ x <> page)).
  { intros j x. unfold lst', moved. destruct (decide (j = k')) as [->|Hj]; [rewrite put_eq, elem_of_cons|rewrite put_ne by done].
    - intros [->|Hx]; [by left|]. right. split; [done|]. by intros ->.
    - destruct (decide (j = k)) as [->|Hn]; [rewrite put_eq|rewrite put_ne by done]; intros Hx; right.
      + split; [rewrite El; set_solver|]. by intros ->.
      + split; [done|]. intros ->. apply Hn. by apply (Ho j k page). }
  split_and!; [| | |done].
  - intros j. unfold lst', moved. destruct (decide (j = k')) as [->|Hj]; [rewrite put_eq; by apply NoDup_cons|rewrite put_ne by done].
    destruct (decide (j = k)) as [->|Hn]; [by rewrite put_eq|by rewrite put_ne].
  - intros j j' x Hx Hx'. apply Hsub in Hx as [[-> ->]|[Hx Hne]], Hx' as [[-> ?]|[Hx' Hne']]; try done. by apply (Ho j j' x).
  - intros x. split.
    + intros [j Hx]. destruct (decide (x = page)) as [->|Hne]; [exists k'; unfold lst', moved; rewrite put_eq; left|].
      exists j. unfold lst', moved. destruct (decide (j = k')) as [->|Hj]; [rewrite put_eq; by right|rewrite put_ne by done].
      destruct (decide (j = k)) as [->|Hn]; [rewrite put_eq|by rewrite put_ne]. rewrite El in Hx. set_solver.
    + intros [j [[-> ->]|[Hx _]]%Hsub]; eauto.
Qed.

(** Out of its list, into the hands of a call. *)
Lemma unlink_linked s lst i w l1 page l2 :
  linked (slab_caches s) (slabs s) lst -> lst (i, Some w) = l1 ++ page :: l2 ->
  let s' := on_slab page (set_s_prev None) (slab_unlink page i w s) in
  linked (slab_caches s') (slabs s') (moved (i, Some w) (i, None) (l1 ++ l2) page lst) /\
  core <$> slabs s' = core <$> slabs s /\ cfg <$> slab_caches s' = cfg <$> slab_caches s /\ rest s' = rest s.
Proof.
  intros Hl El s'. destruct (unlink_eq s lst i w l1 page l2 Hl El) as (n & pv & c & Elk & Ec & Hpv & Hd & Es).
  destruct (moved_places _ _ _ (i, Some w) (i, None) _ _ _ Hl ltac:(done) El) as (H1 & H2 & H3 & H4). unfold s'. rewrite Es.
  set (m1 := set_first pv n (set_before n pv (slabs s))) in *. set (m' := alter (set_s_prev None) page m1).
  set (s1 := match pv with Some _ => s | None => on_cache i (set_head w n) s end).
  assert (Em : slabs (on_slab page (set_s_prev None) (on_slabs (fun m => set_first pv n (set_before n pv m)) s1)) = m') by (unfold s1; by destruct pv).
  assert (Hcore : core <$> m' = core <$> slabs s) by (unfold m', m1; rewrite core_links by done; by rewrite core_first, core_before).
  pose proof (li_dll _ _ _ Hl i c w Ec) as Hdw. rewrite El in Hdw.
  assert (Hne : forall x, x <> page -> links m' x = links m1 x) by (intros x Hx; unfold m'; by rewrite links_prev, decide_False).
  assert (Hout : forall j x, x ∈ lst j -> j <> (i, Some w) -> links m' x = links (slabs s) x).
  { intros j x Hx Hj. assert (Hx' : x ∉ l1 ++ page :: l2) by (rewrite <- El; intros Hx'; by apply Hj, (li_one _ _ _ Hl _ _ x)).
    rewrite Hne by set_solver. by apply (links_unlink_ne _ _ _ _ _ _ _ _ Hdw Elk). }
  assert (Hcs : forall j c', slab_caches s1 !! j = Some c' ->
    exists c0, slab_caches s !! j = Some c0 /\ forall u, head u c' = if decide ((j, u) = (i, w)) then match pv with Some _ => head w c | None => n end else head u c0).
  { unfold s1. intros j c' E. destruct pv as [q|].
    - exists c'. split; [done|]. intros u. case_decide as D; [|done]. injection D as -> ->. congruence.
    - cbn in E. destruct (decide (j = i)) as [->|Hji].
      + rewrite list_lookup_alter_eq, Ec in E. injection E as <-. exists c. split; [done|]. intros u. rewrite head_set_head.
        repeat case_decide; congruence.
      + rewrite list_lookup_alter_ne in E by done. exists c'. split; [done|]. intros u. rewrite decide_False; [done|]. congruence. }
  split_and!; [|by rewrite Em|unfold s1; destruct pv; [done|by apply cfg_alter]|unfold s1; by destruct pv]. rewrite Em. constructor; [|..|done|done|].
  - unfold s1. destruct pv; [apply Hl|]. cbn. rewrite length_alter. apply Hl.
  - intros j c' u E. destruct (Hcs j c' E) as (c0 & E0 & ->). unfold moved. rewrite put_ne by congruence. case_decide as D.
    + injection D as -> ->. rewrite put_eq. eapply dll_ext; [|exact Hd]. intros x Hx. apply Hne. intros ->.
      pose proof (li_nodup _ _ _ Hl (i, Some w)) as Hnd. rewrite El, <- Permutation_middle in Hnd. by apply NoDup_cons in Hnd as [? _].
    + rewrite put_ne by congruence. eapply dll_ext; [|by apply (li_dll _ _ _ Hl j c0 u)]. intros x Hx. apply (Hout _ x Hx). congruence.
  - intros j u x [[? _]|[Hx _]]%H4; [done|]. by apply (li_idx _ _ _ Hl j u x).
  - intros j x [[Hj ->]|[Hx Hxp]]%H4.
    + unfold m'. rewrite links_prev, decide_True by done. destruct (proj1 (links_some m1 page)) as (a & b & ->); [|by exists a].
      apply (core_some (m := slabs s)); [unfold m1; by rewrite core_first, core_before|]. apply links_some. by eauto.
    + rewrite (Hout _ x Hx) by done. by apply (li_flight _ _ _ Hl j).
  - intros x. rewrite (core_some Hcore), (li_all _ _ _ Hl x). apply H3.
Qed.

(** To the head of a list. *)
Lemma add_linked s lst i w l1 page l2 :
  linked (slab_caches s) (slabs s) lst -> (i < SLAB_NUM_CLASSES)%nat -> lst (i, None) = l1 ++ page :: l2 ->
  let s' := slab_add page i w s in
  linked (slab_caches s') (slabs s') (moved (i, None) (i, Some w) (l1 ++ l2) page lst) /\
  core <$> slabs s' = core <$> slabs s /\ cfg <$> slab_caches s' = cfg <$> slab_caches s /\ rest s' = rest s.
Proof.
  intros Hl Hi El s'. destruct (lookup_lt_is_Some_2 (slab_caches s) i) as [c Ec]; [by rewrite (li_len _ _ _ Hl)|].
  pose proof (li_dll _ _ _ Hl i c w Ec) as Hd. pose proof (li_nodup _ _ _ Hl) as Hnd. pose proof (li_one _ _ _ Hl) as Ho.
  set (p := head w c) in *. assert (Hh : head_of i w s = p) by (unfold head_of; by rewrite Ec).
  set (m' := set_first (Some page) p (alter (set_s_next p) page (slabs s))).
  assert (Es : s' = on_slabs (fun _ => m') (on_cache i (set_head w (Some page)) s)).
  { unfold s', slab_add. rewrite Hh. unfold m'. change (head_of i w (on_slab page (set_s_next p) s)) with (head_of i w s). rewrite Hh.
    by destruct p, s. }
  assert (Hcore : core <$> m' = core <$> slabs s) by (unfold m'; rewrite core_first; by apply core_links).
  assert (Hp : page ∈ lst (i, None)) by (rewrite El; set_solver).
  assert (Hpn : page ∉ lst (i, Some w)) by (intros Hx; by pose proof (Ho _ _ _ Hp Hx)).
  destruct (moved_places _ _ _ (i, None) (i, Some w) l1 page l2 Hl ltac:(done) El) as (H1 & H2 & H3 & H4).
  assert (Hout : forall j x, x ∈ lst j -> x <> page -> j <> (i, Some w) -> links m' x = links (slabs s) x).
  { intros j x Hx Hne Hj. apply (links_add_ne _ _ (lst (i, Some w))); [done|done|]. intros Hx'. by apply Hj, (Ho _ _ x). }
  rewrite Es. cbn [slabs slab_caches on_slabs on_cache on_caches]. split_and!; [|done|by apply cfg_alter|done]. constructor; [|..|done|done|].
  - rewrite length_alter. apply Hl.
  - intros j c' u E. destruct (decide ((j, u) = (i, w))) as [D|D].
    + injection D as -> ->. rewrite list_lookup_alter_eq, Ec in E. injection E as <-. rewrite head_set_head, decide_True by done.
      unfold moved. rewrite put_eq. apply dll_add; [by apply NoDup_cons|done|by apply (li_flight _ _ _ Hl i)].
    + assert (Hc0 : exists c0, slab_caches s !! j = Some c0 /\ head u c' = head u c0).
      { destruct (decide (j = i)) as [->|Hne]; [|rewrite list_lookup_alter_ne in E by done; by eauto].
        rewrite list_lookup_alter_eq, Ec in E. injection E as <-. exists c. split; [done|]. rewrite head_set_head, decide_False; [done|congruence]. }
      destruct Hc0 as (c0 & E0 & ->). unfold moved. rewrite !put_ne by congruence.
      eapply dll_ext; [|by apply (li_dll _ _ _ Hl j c0 u)]. intros x Hx. apply (Hout (j, Some u)); [done| |congruence].
      intros ->. by pose proof (Ho _ _ _ Hp Hx).
  - intros j u x [[[= -> ->] _]|[Hx _]]%H4; [done|]. by apply (li_idx _ _ _ Hl j u x).
  - intros j x [[? _]|[Hx Hne]]%H4; [done|]. rewrite (Hout _ x Hx Hne) by done. by apply (li_flight _ _ _ Hl j).
  - intros x. rewrite (core_some Hcore), (li_all _ _ _ Hl x). apply H3.
Qed.

(** From one list to another. *)
Lemma move_linked s lst i w w' l1 page l2 :
  linked (slab_caches s) (slabs s) lst -> w <> w' -> lst (i, Some w) = l1 ++ page :: l2 ->
  let s' := slab_move_to_list page i w w' s in
  linked (slab_caches s') (slabs s') (moved (i, Some w) (i, Some w') (l1 ++ l2) page lst) /\
  core <$> slabs s' = core <$> slabs s /\ cfg <$> slab_caches s' = cfg <$> slab_caches s /\ rest s' = rest s.
Proof.
  intros Hl Hw El s'. assert (Hi : (i < SLAB_NUM_CLASSES)%nat) by (apply (li_idx _ _ _ Hl i w page); rewrite El; set_solver).
  destruct (unlink_linked s lst i w l1 page l2 Hl El) as (Hl1 & Hc1 & Hg1 & Hr1). unfold s', slab_move_to_list.
  set (s1 := on_slab page _ _) in *. set (lst1 := moved _ _ _ _ _) in *.
  assert (E1 : lst1 (i, None) = [] ++ page :: lst (i, None)) by (unfold lst1, moved; by rewrite put_eq).
  destruct (add_linked s1 lst1 i w' [] page (lst (i, None)) Hl1 Hi E1) as (Hl3 & Hc3 & Hg3 & Hr3).
  split_and!; [|by rewrite Hc3|by rewrite Hg3|by rewrite Hr3]. eapply linked_ext; [|exact Hl3]. intros k. unfold lst1, moved, put.
  repeat case_decide; subst; try done; congruence.
Qed.

(** The head of the list of empty pages. *)
Lemma pop_linked s lst i page l :
  linked (slab_caches s) (slabs s) lst -> lst (i, Some Empty) = page :: l ->
  let s' := slab_pop page i s in
  linked (slab_caches s') (slabs s') (moved (i, Some Empty) (i, None) l page lst) /\
  core <$> slabs s' = core <$> slabs s /\ cfg <$> slab_caches s' = cfg <$> alter (count_empty (-1)) i (slab_caches s) /\ rest s' = rest s.
Proof.
  intros Hl El s'. destruct (unlink_linked s lst i Empty [] page l Hl El) as (Hl1 & Hc1 & Hg1 & Hr1).
  destruct (unlink_eq s lst i Empty [] page l Hl El) as (n & pv & c & Elk & Ec & Hpv & _ & Es).
  pose proof (li_dll _ _ _ Hl i c Empty Ec) as Hd. rewrite El in Hd. apply dll_head in Hd as [Eh _]. apply Hpv in Eh. subst pv.
  set (s1 := on_slab page _ _) in *. assert (Es' : s' = on_cache i (count_empty (-1)) s1).
  { assert (Eid : s1 = slab_unlink page i Empty s).
    { unfold s1, on_slab, on_slabs. rewrite alter_id; [by destruct (slab_unlink page i Empty s)|]. rewrite Es. intros h E.
      assert (Hlk : links (set_first None n (slabs s)) page = Some (n, None)) by (rewrite links_first, Elk; by case_decide).
      unfold links in Hlk. cbn in E. rewrite E in Hlk. destruct h. cbn in *. by injection Hlk as -> ->. }
    rewrite Eid. unfold s', slab_pop. rewrite Es. unfold links in Elk. destruct (slabs s !! page) as [h|]; [|done]. cbn in Elk. injection Elk as -> Ep.
    destruct n; by destruct s. }
  rewrite Es'. cbn [slabs slab_caches on_cache on_caches]. split_and!; [|done| |done].
  - constructor; try apply Hl1; [rewrite length_alter; apply Hl1|]. intros j c' w E.
    destruct (decide (j = i)) as [->|Hne]; [|rewrite list_lookup_alter_ne in E by done; by apply (li_dll _ _ _ Hl1 j c' w)].
    rewrite list_lookup_alter_eq in E. destruct (slab_caches s1 !! i) as [c1|] eqn:E1; [|done]. injection E as <-.
    by apply (li_dll _ _ _ Hl1 i c1 w).
  - apply list_eq. intros j. apply (f_equal (lookup j)) in Hg1. rewrite !list_lookup_fmap in *. destruct (decide (j = i)) as [->|Hne].
    + rewrite !list_lookup_alter_eq. destruct (slab_caches s1 !! i), (slab_caches s !! i); try done.
      cbn in *. injection Hg1 as E1 E2 E3. unfold cfg, count_empty. cbn. by rewrite E1, E2, E3.
    + by rewrite !list_lookup_alter_ne by done.
Qed.

End Lists.
