(* ===== verification/SlabHeap.v ===== *)
(** * The invariant of the kernel heap

    [slab_ok] ties the lists of slab pages, the bitmaps, the regions of the address
    space and the headers of large blocks together; [block] says which blocks are
    allocated.  Blocks do not overlap, and reading one gives the bytes of the
    physical pages behind it. *)

From Stdlib Require Import ZArith Lia Bool.
From stdpp Require Import base list gmap.
From S2P Require Import Prelude Wire Pmm Slab SlabParts SlabSpace SlabLists.

Open Scope Z_scope.

Definition class_size (i : nat) : Z := default 0 (size_classes !! i).

Record page_ok (h : slab_page) : Prop := {
  pk_class : (s_cache h < SLAB_NUM_CLASSES)%nat;
  pk_size : s_object_size h = class_size (s_cache h);
  pk_total : s_total_objects h = calc_objects_per_slab (class_size (s_cache h));
  pk_bitmap : bitmap_ok (s_bitmap h);
  pk_free : s_free_count h = free_objects (s_bitmap h) (s_total_objects h);
}.

(** What a place says about the pages on it. *)
Definition kind (k : place) (h : slab_page) : Prop :=
  s_cache h = k.1 /\
  match k.2 with
  | Some Partial => 0 < s_free_count h
  | Some Full => s_free_count h = 0
  | Some Empty | None => s_free_count h = s_total_objects h
  end.

(** A large block: its pages, the size asked for and the physical address. *)
Record large := mk_large { l_pages : Z; l_size : Z; l_phys : Z }.

Definition regions_of (m : gmap Z slab_page) (L : gmap Z large) : gmap Z (Z * Z) :=
  ((fun h => (1, s_phys_addr h)) <$> m) ∪ ((fun x => (l_pages x, l_phys x)) <$> L).

Record large_ok (mem : Z -> Z) (x : large) : Prop := {
  lk_size : SLAB_MAX_SIZE < l_size x /\ l_size x + sizeof_large_header <= l_pages x * PAGE_SIZE;
  lk_header : forall k, 0 <= k < sizeof_large_header ->
    mem (l_phys x + k) = byte_at (large_header_bytes (l_pages x) (l_size x) (l_phys x)) (Z.to_nat k);
}.

(** Everything but the lists. *)
Record base_ok {P} `{PageLaws P} (L : gmap Z large) (s : heap P) : Prop := {
  ok_init : slab_initialized s = true;
  ok_space : space_ok (regions_of (slabs s) L) (slab_next_virt_addr s) (slab_free_ranges s) (pg s);
  ok_disjoint : forall b x, L !! b = Some x -> slabs s !! b = None;
  ok_large : forall b x, L !! b = Some x -> large_ok (mem s) x;
}.

Record lists_ok {P} (lst : place -> list Z) (s : heap P) : Prop := {
  ok_linked : linked (slab_caches s) (slabs s) lst;
  ok_pages : forall x h, slabs s !! x = Some h -> page_ok h;
  ok_kind : forall k x h, x ∈ lst k -> slabs s !! x = Some h -> kind k h;
  ok_caches : forall i c, slab_caches s !! i = Some c ->
    cfg c = (class_size i, calc_objects_per_slab (class_size i), Z.of_nat (length (lst (i, Some Empty))));
}.

Definition slab_ok {P} `{PageLaws P} (lst : place -> list Z) (L : gmap Z large) (s : heap P) : Prop :=
  base_ok L s /\ lists_ok lst s /\ forall i, (length (lst (i, Some Empty)) <= 2)%nat.

(** The allocated blocks: their address and the bytes a client may use. *)
Inductive block (m : gmap Z slab_page) (L : gmap Z large) : Z -> Z -> Prop :=
  | block_object page h k : m !! page = Some h -> 0 <= k < s_total_objects h -> bitmap_is_set (s_bitmap h) k = true ->
      block m L (page + sizeof_slab_page + k * s_object_size h) (s_object_size h)
  | block_large b x : L !! b = Some x -> block m L (b + sizeof_large_header) (l_size x).

(** The heap as its clients see it: blocks with their contents. *)
Definition rel {P} `{PageOps P} (s : heap P) (L : gmap Z large) (A : gmap Z (list Z)) : Prop :=
  forall p bs, A !! p = Some bs <-> block (slabs s) L p (Z.of_nat (length bs)) /\ load_bytes s p (length bs) = Some bs.

(** ** Size classes *)

Lemma class_bounds i : (i < SLAB_NUM_CLASSES)%nat ->
  32 <= class_size i <= 2048 /\ 1 <= calc_objects_per_slab (class_size i) <= 124 /\
  sizeof_slab_page + calc_objects_per_slab (class_size i) * class_size i <= PAGE_SIZE.
Proof.
  unfold SLAB_NUM_CLASSES. intros Hi. do 7 (destruct i as [|i]; [by vm_compute|]). lia.
Qed.

Lemma size_class_spec size : 0 < size <= SLAB_MAX_SIZE -> exists i, slab_get_size_class size = Some i /\ (i < SLAB_NUM_CLASSES)%nat /\ size <= class_size i.
Proof.
  intros Hs. unfold slab_get_size_class. destruct (find_idx _ size_classes) as [i|] eqn:E.
  - exists i. apply find_idx_Some in E as (c & Ec & Hc & _). split; [done|]. split.
    + by apply lookup_lt_Some in Ec.
    + unfold class_size. rewrite Ec. by apply Z.leb_le.
  - exfalso. assert (Hn : (size <=? 2048) = false) by (by apply (proj1 (find_idx_None _ _) E 6%nat 2048)).
    apply Z.leb_gt in Hn. unfold SLAB_MAX_SIZE in Hs. lia.
Qed.

Lemma page_bounds h : page_ok h ->
  32 <= s_object_size h <= 2048 /\ 1 <= s_total_objects h <= 124 /\ sizeof_slab_page + s_total_objects h * s_object_size h <= PAGE_SIZE /\
  0 <= s_free_count h <= s_total_objects h.
Proof.
  intros [Hc Hs Ht Hb Hf]. destruct (class_bounds _ Hc) as (H1 & H2 & H3). rewrite Hs, Ht in *.
  pose proof (free_objects_range (s_bitmap h) (calc_objects_per_slab (class_size (s_cache h))) ltac:(lia)). lia.
Qed.

Section Heap.
Context {P : Type} `{PageLaws P}.
Implicit Types (s : heap P) (L : gmap Z large).

(** ** Regions and blocks *)

Lemma region_slab m L page h : m !! page = Some h -> regions_of m L !! page = Some (1, s_phys_addr h).
Proof. intros E. apply lookup_union_Some_l. by rewrite lookup_fmap, E. Qed.

Lemma region_large m L b x : m !! b = None -> L !! b = Some x -> regions_of m L !! b = Some (l_pages x, l_phys x).
Proof. intros En E. unfold regions_of. rewrite lookup_union_r by (by rewrite lookup_fmap, En). by rewrite lookup_fmap, E. Qed.

Lemma region_cases m L a n ph : regions_of m L !! a = Some (n, ph) ->
  (exists h, m !! a = Some h /\ n = 1 /\ ph = s_phys_addr h) \/ (exists x, m !! a = None /\ L !! a = Some x /\ n = l_pages x /\ ph = l_phys x).
Proof.
  unfold regions_of. rewrite lookup_union_Some_raw, !lookup_fmap. intros [E|[E1 E2]].
  - left. destruct (m !! a) as [h|]; [|done]. exists h. by injection E as <- <-.
  - right. destruct (m !! a); [done|]. destruct (L !! a) as [x|]; [|done]. exists x. by injection E2 as <- <-.
Qed.

Lemma base_rest L s s' :
  rest s' = rest s -> s_phys_addr <$> slabs s' = s_phys_addr <$> slabs s -> base_ok L s -> base_ok L s'.
Proof.
  intros Er Ep [H1 H2 H3 H4]. unfold rest in Er. injection Er as Em En Era Ei Eg.
  assert (E : regions_of (slabs s') L = regions_of (slabs s) L).
  { unfold regions_of. f_equal. change (fun h => (1, s_phys_addr h)) with (pair 1 ∘ s_phys_addr). by rewrite !map_fmap_compose, Ep. }
  constructor; [congruence|by rewrite E, En, Era, Eg| |by rewrite Em].
  intros b x Eb. specialize (H3 b x Eb). apply (f_equal (lookup b)) in Ep. rewrite !lookup_fmap, H3 in Ep. by destruct (slabs s' !! b).
Qed.

Section Facts.
Context L s (Hb : base_ok L s) (Hp : forall x h, slabs s !! x = Some h -> page_ok h).

Notation R := (regions_of (slabs s) L).

Lemma slab_page_facts page h : slabs s !! page = Some h ->
  heap_page page /\ page + PAGE_SIZE <= slab_next_virt_addr s /\ 0 < s_phys_addr h < 2 ^ 53 /\ pg_phys (pg s) page = s_phys_addr h.
Proof.
  intros E. pose proof (region_slab _ L _ _ E) as Er. pose proof (ok_space _ _ Hb) as Hso.
  destruct (region_facts _ _ _ _ Hso _ _ _ Er) as (_ & Hh & _ & Hn & _). destruct (region_frame _ _ _ _ Hso _ _ _ Er) as (H1 & _ & H3).
  pose proof (so_maps _ _ _ _ Hso _ _ _ 0 Er ltac:(lia)) as Hm. rewrite !Z.add_0_r in Hm.
  split_and!; try done; try apply Hh; unfold PAGE_SIZE in *; lia.
Qed.

Lemma large_facts b x : L !! b = Some x ->
  regions_of (slabs s) L !! b = Some (l_pages x, l_phys x) /\ heap_page b /\ 0 < l_pages x < 2 ^ 20 /\
  b + l_pages x * PAGE_SIZE <= slab_next_virt_addr s /\ 0 < l_phys x < 2 ^ 53.
Proof.
  intros E. pose proof (region_large _ _ _ _ (ok_disjoint _ _ Hb b x E) E) as Er. pose proof (ok_space _ _ Hb) as Hso.
  destruct (region_facts _ _ _ _ Hso _ _ _ Er) as (_ & Hh & Hn & Hnx & _). destruct (region_frame _ _ _ _ Hso _ _ _ Er) as (H1 & _ & H3).
  split_and!; try done; try lia. unfold PAGE_SIZE in *. lia.
Qed.

(** A block lies in a region, after the header. *)
Definition in_data (a n ph p size : Z) : Prop :=
  R !! a = Some (n, ph) /\ a <= p /\ p + size <= a + n * PAGE_SIZE /\ (is_Some (slabs s !! a) -> n = 1 /\ a + sizeof_slab_page <= p).

Lemma block_data p size : block (slabs s) L p size -> exists a n ph, in_data a n ph p size.
Proof.
  intros [page h k E Hk _|b x E].
  - destruct (page_bounds h (Hp _ _ E)) as (H1 & H2 & H3 & _). exists page, 1, (s_phys_addr h).
    unfold in_data. rewrite (region_slab _ _ _ _ E). unfold sizeof_slab_page, PAGE_SIZE in *. split_and!; [done|nia|nia|]. intros _. nia.
  - destruct (large_facts b x E) as (Er & _). exists b, (l_pages x), (l_phys x). pose proof (lk_size _ _ (ok_large _ _ Hb b x E)) as [_ Hs].
    unfold in_data. rewrite Er, (ok_disjoint _ _ Hb b x E). unfold sizeof_large_header in *. split_and!; try done; lia.
Qed.

Lemma block_pos p size : block (slabs s) L p size -> 0 < size /\ SLAB_VIRT_BASE < p /\ p + size <= slab_next_virt_addr s /\ p + size < 2 ^ 64.
Proof.
  intros Hbl. destruct (block_data p size Hbl) as (a & n & ph & Er & H1 & H2 & H3). pose proof (ok_space _ _ Hb) as Hso.
  destruct (region_facts _ _ _ _ Hso _ _ _ Er) as (_ & Hh & Hn & Hnx & _). pose proof (so_next _ _ _ _ Hso) as [Hnext _].
  unfold heap_page, SLAB_VIRT_END, SLAB_VIRT_BASE in *. inversion Hbl as [page h k E Hk Hs|b x E]; subst.
  - destruct (page_bounds h (Hp _ _ E)) as (B1 & B2 & B3 & _). destruct (slab_page_facts page h E) as (Hpg & _).
    unfold heap_page, sizeof_slab_page, SLAB_VIRT_BASE in *. split_and!; lia.
  - destruct (large_facts b x E) as (_ & Hpg & _). pose proof (lk_size _ _ (ok_large _ _ Hb b x E)) as [Hs _].
    unfold heap_page, sizeof_large_header, SLAB_MAX_SIZE, SLAB_VIRT_BASE in *. split_and!; lia.
Qed.

(** Blocks do not overlap. *)
Lemma blocks_apart p n q m : block (slabs s) L p n -> block (slabs s) L q m -> p <> q -> apart (p, n) (q, m).
Proof.
  intros Hp1 Hq1 Hne. destruct (block_data p n Hp1) as (a & na & pa & Ea & A1 & A2 & _). destruct (block_data q m Hq1) as (b & nb & pb & Eb & B1 & B2 & _).
  destruct (decide (a = b)) as [<-|Hab].
  2:{ destruct (so_apart _ _ _ _ (ok_space _ _ Hb) _ _ _ _ _ _ Ea Eb Hab) as [Hap _]. unfold apart in *. cbn in *. lia. }
  assert (Hin : forall r k, block (slabs s) L r k -> a <= r -> r + k <= a + na * PAGE_SIZE ->
    (exists h j, slabs s !! a = Some h /\ 0 <= j /\ k = s_object_size h /\ r = a + sizeof_slab_page + j * s_object_size h) \/
    (slabs s !! a = None /\ r = a + sizeof_large_header)).
  { intros r k Hbl R1 R2. destruct (block_pos r k Hbl) as (Hk & _). assert (Hr : within (a, na * PAGE_SIZE) r) by (unfold within; cbn; lia).
    destruct Hbl as [page h j E Hj _|c x E].
    - destruct (page_bounds h (Hp _ _ E)) as (C1 & C2 & C3 & _). assert (page = a) as ->; [|left; exists h, j; split_and!; [done|lia|done|done]].
      eapply (region_unique _ _ _ _ (ok_space _ _ Hb) _ _ _ _ _ _ _ (region_slab _ L _ _ E) Ea); [|exact Hr].
      unfold within, sizeof_slab_page, PAGE_SIZE in *. cbn. nia.
    - destruct (large_facts c x E) as (Ec & _). pose proof (lk_size _ _ (ok_large _ _ Hb c x E)) as [_ Hs].
      assert (c = a) as ->; [|right; split; [by apply (ok_disjoint _ _ Hb a x)|done]].
      eapply (region_unique _ _ _ _ (ok_space _ _ Hb) _ _ _ _ _ _ _ Ec Ea); [|exact Hr]. unfold within, sizeof_large_header in *. cbn. lia. }
  rewrite Ea in Eb. injection Eb as <- <-.
  destruct (Hin p n Hp1 A1 A2) as [(h & j & E & Hj & -> & ->)|(E & ->)], (Hin q m Hq1 B1 B2) as [(h' & j' & E' & Hj' & -> & ->)|(E' & ->)];
    try congruence. rewrite E in E'. injection E' as <-. destruct (page_bounds h (Hp _ _ E)) as (C1 & _).
  assert (j <> j') by (by intros ->). destruct (Z.lt_ge_cases j j'); [left|right]; cbn; nia.
Qed.

(** ** Reading a block *)

Lemma load8_data a n ph p size x : in_data a n ph p size -> p <= x < p + size -> load8 s x = Some (mem s (ph + (x - a))).
Proof.
  intros (Er & H1 & H2 & Hs) Hx. assert (Hw : within (a, n * PAGE_SIZE) x) by (unfold within; cbn; lia).
  destruct (phys_at_page _ _ _ _ (ok_space _ _ Hb) x _ (phys_at_region _ _ _ _ _ Er Hw)) as [Ey Hf].
  unfold load8. rewrite (proj2 (Z.eqb_neq _ _) Hf), Ey. destruct (slabs s !! page_of x) as [h|] eqn:Eh; [|done].
  assert (page_of x = a) as Ea.
  { destruct (slab_page_facts _ h Eh) as ([Hal _] & _). destruct (page_of_range x) as [Ex Hxr].
    apply (region_unique _ _ _ _ (ok_space _ _ Hb) _ _ _ _ _ _ x (region_slab _ L _ _ Eh) Er); [|done]. unfold within, PAGE_SIZE in *. cbn. lia. }
  rewrite Ea in *. destruct (Hs ltac:(by eexists)) as [-> Hlow]. destruct (page_of_range x) as [Ex _]. rewrite Ea in Ex.
  by rewrite (proj2 (Z.ltb_ge _ _)) by lia.
Qed.

Lemma load_bytes_data a n ph p size k m : in_data a n ph p size -> 0 <= k -> k + Z.of_nat m <= size ->
  load_bytes s (p + k) m = Some ((fun j => mem s (ph + (p + k - a) + Z.of_nat j)) <$> seq 0 m).
Proof.
  intros Hd. revert k. induction m as [|m IH]; intros k Hk Hm; [done|]. cbn [load_bytes seq fmap list_fmap].
  rewrite (load8_data _ _ _ _ _ _ Hd) by lia. replace (p + k + 1) with (p + (k + 1)) by lia. rewrite IH by lia.
  rewrite <- fmap_S_seq, <- list_fmap_compose. do 2 f_equal; [f_equal; lia|]. apply list_fmap_ext. intros j x _. cbn. f_equal. lia.
Qed.

Lemma block_load p size : block (slabs s) L p size -> exists bs, load_bytes s p (Z.to_nat size) = Some bs /\ length bs = Z.to_nat size.
Proof.
  intros Hbl. destruct (block_data p size Hbl) as (a & n & ph & Hd). destruct (block_pos p size Hbl) as (Hpos & _).
  pose proof (load_bytes_data _ _ _ _ _ 0 (Z.to_nat size) Hd ltac:(lia) ltac:(lia)) as E. rewrite Z.add_0_r in E.
  eexists. split; [exact E|]. by rewrite length_fmap, length_seq.
Qed.
End Facts.
End Heap.
