(* ===== verification/SlabOps.v ===== *)
(** * The operations of the kernel heap keep its invariant

    One lemma per part of [slab_alloc] and [slab_free], each saying which blocks
    the part adds or removes and that the contents of the others stay. *)

From Stdlib Require Import ZArith Lia Bool.
From stdpp Require Import base list gmap.
From S2P Require Import Prelude Wire Pmm Slab SlabParts SlabSpace SlabLists SlabHeap.

Open Scope Z_scope.

Section Ops.
Context {P : Type} `{PageLaws P}.
Implicit Types (s : heap P) (L : gmap Z large).

(** ** Contents *)

(** The regions of [D] are still there, and nobody wrote to them. *)
Definition keeps (L : gmap Z large) s (L' : gmap Z large) s' (D : Z -> Prop) : Prop :=
  forall a n ph, regions_of (slabs s) L !! a = Some (n, ph) -> D a ->
    regions_of (slabs s') L' !! a = Some (n, ph) /\ (is_Some (slabs s' !! a) -> is_Some (slabs s !! a)) /\
    forall y, ph <= y < ph + n * PAGE_SIZE -> mem s' y = mem s y.

Lemma keeps_load L s L' s' D a n ph p size k :
  base_ok L s -> base_ok L' s' -> keeps L s L' s' D -> in_data L s a n ph p size -> D a -> Z.of_nat k <= size ->
  load_bytes s' p k = load_bytes s p k.
Proof.
  intros Hb Hb' Hk Hd Da Hle. destruct (Hk a n ph (proj1 Hd) Da) as (Er & Hs & Hm).
  assert (Hd' : in_data L' s' a n ph p size) by (destruct Hd as (_ & H1 & H2 & H3); split_and!; auto).
  pose proof (load_bytes_data L s Hb a n ph p size 0 k Hd ltac:(lia) ltac:(lia)) as E.
  pose proof (load_bytes_data L' s' Hb' a n ph p size 0 k Hd' ltac:(lia) ltac:(lia)) as E'.
  rewrite Z.add_0_r in *. rewrite E, E'. f_equal. apply list_fmap_ext. intros j x Hj%lookup_seq. apply Hm.
  destruct Hd as (_ & H1 & H2 & _). lia.
Qed.

Definition pages_ok s : Prop := forall x h, slabs s !! x = Some h -> page_ok h.

(** Block [p] of [size] bytes is new. *)
Definition adds L s L' s' (p size : Z) : Prop :=
  base_ok L s /\ pages_ok s /\ base_ok L' s' /\ pages_ok s' /\ keeps L s L' s' (fun _ => True) /\ (forall n, ~ block (slabs s) L p n) /\
  forall q n, block (slabs s') L' q n <-> block (slabs s) L q n \/ (q = p /\ n = size).

(** The blocks are the same. *)
Definition same L s L' s' : Prop :=
  base_ok L s /\ pages_ok s /\ base_ok L' s' /\ pages_ok s' /\ keeps L s L' s' (fun _ => True) /\
  forall q n, block (slabs s') L' q n <-> block (slabs s) L q n.

(** The regions of the blocks of [s'] are the ones they had in [s]. *)
Definition survives L s L' s' : Prop :=
  exists D, keeps L s L' s' D /\ forall a n ph q size, in_data L s a n ph q size -> block (slabs s') L' q size -> D a.

(** Block [p] is gone. *)
Definition dels L s L' s' (p : Z) : Prop :=
  base_ok L s /\ pages_ok s /\ base_ok L' s' /\ pages_ok s' /\ survives L s L' s' /\
  forall q n, block (slabs s') L' q n <-> block (slabs s) L q n /\ q <> p.

Lemma keeps_block L s L' s' D p n :
  base_ok L s -> pages_ok s -> base_ok L' s' -> keeps L s L' s' D ->
  (forall a m ph, in_data L s a m ph p (Z.of_nat n) -> D a) -> block (slabs s) L p (Z.of_nat n) -> load_bytes s' p n = load_bytes s p n.
Proof.
  intros Hb Hp Hb' Hk HD Hbl. destruct (block_data L s Hb Hp p _ Hbl) as (a & m & ph & Hd).
  by apply (keeps_load L s L' s' D a m ph p (Z.of_nat n)); eauto.
Qed.

Lemma same_rel L s L' s' A : same L s L' s' -> rel s L A -> rel s' L' A.
Proof.
  intros (Hb & Hp & Hb' & Hp' & Hk & Hbl) HA q bs. rewrite (HA q bs), Hbl. split; intros [H1 H2]; split; try done.
  - rewrite <- H2. by apply (keeps_block L s L' s' (fun _ => True)).
  - rewrite <- H2. symmetry. by apply (keeps_block L s L' s' (fun _ => True)).
Qed.

Lemma adds_rel L s L' s' p size A :
  adds L s L' s' p size -> rel s L A ->
  A !! p = None /\ exists bs, Z.of_nat (length bs) = size /\ load_bytes s' p (length bs) = Some bs /\ rel s' L' (<[p := bs]> A).
Proof.
  intros (Hb & Hp & Hb' & Hp' & Hk & Hnew & Hbl) HA.
  assert (EA : A !! p = None). { destruct (A !! p) as [bs|] eqn:E; [exfalso|done]. apply HA in E as [E _]. by apply Hnew in E. }
  assert (Hpb : block (slabs s') L' p size) by (apply Hbl; by right). destruct (block_pos L' s' Hb' Hp' p size Hpb) as (Hpos & _).
  destruct (block_load L' s' Hb' Hp' p size Hpb) as (bs & E & El). assert (Esz : Z.of_nat (length bs) = size) by lia.
  split; [done|]. exists bs. split; [done|]. rewrite El. split; [done|]. intros q cs. destruct (decide (q = p)) as [->|Hne].
  - rewrite lookup_insert_eq, Hbl. split.
    + intros [= <-]. rewrite El. split; [right; lia|done].
    + intros [[Hq|[_ Hn]] Hl]; [by apply Hnew in Hq|]. assert (length cs = length bs) as Ec by lia. rewrite Ec, El, E in Hl. congruence.
  - rewrite lookup_insert_ne, (HA q cs), Hbl by done. split; intros [H1 H2].
    + split; [by left|]. rewrite <- H2. by apply (keeps_block L s L' s' (fun _ => True)).
    + destruct H1 as [H1|[-> _]]; [|done]. split; [done|]. rewrite <- H2. symmetry. by apply (keeps_block L s L' s' (fun _ => True)).
Qed.

Lemma dels_rel L s L' s' p A : dels L s L' s' p -> rel s L A -> rel s' L' (delete p A).
Proof.
  intros (Hb & Hp & Hb' & Hp' & (D & Hk & HD) & Hbl) HA q cs. destruct (decide (q = p)) as [->|Hne].
  - rewrite lookup_delete_eq, Hbl. split; [done|]. by intros [[_ ?] _].
  - rewrite lookup_delete_ne, (HA q cs) by done. split; intros [H1 H2].
    + assert (Hq : block (slabs s') L' q (Z.of_nat (length cs))) by by apply Hbl. split; [done|]. rewrite <- H2.
      apply (keeps_block L s L' s' D); try done. intros a m ph Hd. by apply (HD a m ph q _ Hd).
    + pose proof H1 as Hq. apply Hbl in H1 as [H1 _]. split; [done|]. rewrite <- H2. symmetry.
      apply (keeps_block L s L' s' D); try done. intros a m ph Hd. by apply (HD a m ph q _ Hd).
Qed.

Lemma keeps_trans L s L1 s1 L' s' : keeps L s L1 s1 (fun _ => True) -> keeps L1 s1 L' s' (fun _ => True) -> keeps L s L' s' (fun _ => True).
Proof.
  intros H1 H2 a n ph E _. destruct (H1 a n ph E I) as (E1 & Hs1 & Hm1). destruct (H2 a n ph E1 I) as (E2 & Hs2 & Hm2).
  split_and!; [done|auto|]. intros y Hy. by rewrite Hm2, Hm1.
Qed.

Lemma same_adds L s L1 s1 L' s' p size : same L s L1 s1 -> adds L1 s1 L' s' p size -> adds L s L' s' p size.
Proof.
  intros (Hb & Hp & _ & _ & Hk & Hbl) (_ & _ & Hb' & Hp' & Hk' & Hnew & Hbl'). unfold adds. split_and!; try done; [by eapply keeps_trans| |].
  - intros n Hn. by apply (Hnew n), Hbl.
  - intros q n. by rewrite Hbl', Hbl.
Qed.

Lemma same_trans L s L1 s1 L' s' : same L s L1 s1 -> same L1 s1 L' s' -> same L s L' s'.
Proof.
  intros (Hb & Hp & _ & _ & Hk & Hbl) (_ & _ & Hb' & Hp' & Hk' & Hbl'). unfold same. split_and!; try done; [by eapply keeps_trans|].
  intros q n. by rewrite Hbl', Hbl.
Qed.

(** ** Writing *)

Lemma store_bytes_spec R next ranges s q bs a n ph :
  space_ok R next ranges (pg s) -> R !! a = Some (n, ph) -> a <= q -> q + Z.of_nat (length bs) <= a + n * PAGE_SIZE ->
  exists f, store_bytes q bs s = set_mem f s /\
    forall y, f y = if decide (ph + (q - a) <= y < ph + (q - a) + Z.of_nat (length bs))
                    then byte_at bs (Z.to_nat (y - (ph + (q - a)))) else mem s y.
Proof.
  revert q s. induction bs as [|b bs IH]; intros q s Hso Er Hq Hlen; cbn [length] in Hlen.
  - exists (mem s). split; [by destruct s|]. intros y. by rewrite decide_False by (cbn; lia).
  - assert (Hw : within (a, n * PAGE_SIZE) q) by (unfold within; cbn; lia).
    destruct (phys_at_page _ _ _ _ Hso q _ (phys_at_region _ _ _ _ _ Er Hw)) as [Ey _].
    destruct (IH (q + 1) (store8 q b s) Hso Er ltac:(lia) ltac:(lia)) as (f & Ef & Hf). exists f. split; [exact Ef|].
    intros y. rewrite Hf. unfold store8. cbn [mem set_mem]. rewrite Ey. cbn [length]. unfold byte_at.
    destruct (decide (ph + (q + 1 - a) <= y < ph + (q + 1 - a) + Z.of_nat (length bs))) as [D|D].
    + rewrite decide_True by lia. replace (Z.to_nat (y - (ph + (q - a)))) with (S (Z.to_nat (y - (ph + (q + 1 - a))))) by lia. done.
    + destruct (Z.eqb_spec y (ph + (q - a))) as [->|Hne].
      * rewrite decide_True by lia. by rewrite Z.sub_diag.
      * by rewrite decide_False by lia.
Qed.

(** ** Changes to links and counters *)

Lemma core_lookup {m m' : gmap Z slab_page} : core <$> m' = core <$> m -> forall x h', m' !! x = Some h' -> exists h, m !! x = Some h /\ core h' = core h.
Proof. intros E x h' Eh. apply (f_equal (lookup x)) in E. rewrite !lookup_fmap, Eh in E. destruct (m !! x) as [h|]; [|done]. exists h. split; [done|]. by apply (inj Some) in E. Qed.

Lemma core_page_ok h h' : core h' = core h -> page_ok h -> page_ok h'.
Proof. destruct h, h'. cbn. intros [= -> -> -> -> -> ->] [H1 H2 H3 H4 H5]. by constructor. Qed.

Lemma core_kind k h h' : core h' = core h -> kind k h -> kind k h'.
Proof. destruct h, h'. cbn. intros [= -> -> -> -> -> ->]. by destruct k as [i [[]|]]. Qed.

Lemma core_block m m' L p n : core <$> m' = core <$> m -> block m L p n -> block m' L p n.
Proof.
  intros E [page h k Eh Hk Hs|b x Eb]; [|by apply block_large]. symmetry in E. destruct (core_lookup E _ _ Eh) as (h' & Eh' & Ec).
  assert (Eo : s_object_size h = s_object_size h' /\ s_total_objects h = s_total_objects h' /\ s_bitmap h = s_bitmap h').
  { destruct h, h'. cbn in *. by injection Ec as -> -> -> -> -> ->. }
  destruct Eo as (E1 & E2 & E3). rewrite E1. apply block_object; [done|by rewrite <- E2|by rewrite <- E3].
Qed.

Lemma core_phys {m m' : gmap Z slab_page} : core <$> m' = core <$> m -> s_phys_addr <$> m' = s_phys_addr <$> m.
Proof.
  intros E. assert (F : forall m : gmap Z slab_page, s_phys_addr <$> m = s_phys_addr <$> (core <$> m)) by (intros; by rewrite <- map_fmap_compose).
  by rewrite F, E, <- F.
Qed.

Lemma keeps_rest L s s' : rest s' = rest s -> s_phys_addr <$> slabs s' = s_phys_addr <$> slabs s -> keeps L s L s' (fun _ => True).
Proof.
  intros Er Ep a n ph Ea _. unfold rest in Er. injection Er as Em _ _ _ _.
  assert (E : regions_of (slabs s') L = regions_of (slabs s) L).
  { unfold regions_of. f_equal. change (fun h => (1, s_phys_addr h)) with (pair 1 ∘ s_phys_addr). by rewrite !map_fmap_compose, Ep. }
  rewrite E, Em. split_and!; [done| |done]. apply (f_equal (lookup a)) in Ep. rewrite !lookup_fmap in Ep.
  by destruct (slabs s !! a), (slabs s' !! a).
Qed.

Lemma same_core L s s' : base_ok L s -> pages_ok s -> rest s' = rest s -> core <$> slabs s' = core <$> slabs s -> same L s L s'.
Proof.
  intros Hb Hp Er Ec. pose proof (core_phys Ec) as Ep. split_and!; [done|done|by eapply base_rest| |by apply keeps_rest|].
  - intros x h E. destruct (core_lookup Ec _ _ E) as (h0 & E0 & Eh). by apply (core_page_ok h0); [|eapply Hp].
  - intros q n. split; apply core_block; done.
Qed.

Lemma lists_core lst lst' s s' :
  lists_ok lst s -> linked (slab_caches s') (slabs s') lst' -> core <$> slabs s' = core <$> slabs s ->
  (forall k x h, x ∈ lst' k -> slabs s !! x = Some h -> kind k h) ->
  (forall i c, slab_caches s' !! i = Some c -> cfg c = (class_size i, calc_objects_per_slab (class_size i), Z.of_nat (length (lst' (i, Some Empty))))) ->
  lists_ok lst' s'.
Proof.
  intros Hl Hl' Ec Hk Hc. constructor; [done| | |done].
  - intros x h E. destruct (core_lookup Ec _ _ E) as (h0 & E0 & Eh). by apply (core_page_ok h0); [|eapply (ok_pages _ _ Hl)].
  - intros k x h Hx E. destruct (core_lookup Ec _ _ E) as (h0 & E0 & Eh). by apply (core_kind k h0); [|eapply Hk].
Qed.

Lemma cfg_lookup {cs cs' : list slab_cache} : cfg <$> cs' = cfg <$> cs -> forall i c', cs' !! i = Some c' -> exists c, cs !! i = Some c /\ cfg c' = cfg c.
Proof. intros E i c' Ei. apply (f_equal (lookup i)) in E. rewrite !list_lookup_fmap, Ei in E. destruct (cs !! i) as [c|]; [|done]. exists c. split; [done|]. by apply (inj Some) in E. Qed.

(** A counter of a cache. *)
Lemma linked_cache cs m lst i f : (forall c w, head w (f c) = head w c) -> linked cs m lst -> linked (alter f i cs) m lst.
Proof.
  intros Hf Hl. constructor; try apply Hl; [rewrite length_alter; apply Hl|]. intros j c w E.
  destruct (decide (j = i)) as [->|Hne]; [|rewrite list_lookup_alter_ne in E by done; by apply (li_dll _ _ _ Hl)].
  rewrite list_lookup_alter_eq in E. destruct (cs !! i) as [c0|] eqn:E0; [|done]. injection E as <-. rewrite Hf. by apply (li_dll _ _ _ Hl).
Qed.

Lemma lists_cache lst s i f : (forall c w, head w (f c) = head w c) -> (forall c, cfg (f c) = cfg c) -> lists_ok lst s -> lists_ok lst (on_cache i f s).
Proof.
  intros Hh Hc Hl. constructor; try apply Hl; [by apply linked_cache, Hl|]. intros j c E.
  destruct (cfg_lookup (cfg_alter (slab_caches s) f i Hc) j c E) as (c0 & E0 & ->). by apply (ok_caches _ _ Hl).
Qed.

Lemma lists_stats lst s f : lists_ok lst s -> lists_ok lst (on_stats f s).
Proof. intros [H1 H2 H3 H4]. by constructor. Qed.

Lemma slab_ok_same lst L s s' : slab_ok lst L s -> rest s' = rest s -> core <$> slabs s' = core <$> slabs s -> lists_ok lst s' -> slab_ok lst L s'.
Proof. intros (Hb & _ & He) Er Ec Hl. split_and!; [|done|done]. eapply base_rest; [done|by apply core_phys|done]. Qed.

(** ** Changes to one page *)

(** The lists after page [page] became [hp] and perhaps changed its place. *)
Lemma lists_page lst lst' s s' page hp :
  lists_ok lst s -> linked (slab_caches s') (slabs s') lst' -> core <$> slabs s' = <[page := core hp]> (core <$> slabs s) ->
  page_ok hp -> (forall k x, x ∈ lst' k -> x <> page -> x ∈ lst k) -> (forall k, page ∈ lst' k -> kind k hp) ->
  (forall i c, slab_caches s' !! i = Some c -> cfg c = (class_size i, calc_objects_per_slab (class_size i), Z.of_nat (length (lst' (i, Some Empty))))) ->
  lists_ok lst' s'.
Proof.
  intros Hl Hl' Ec Hp Hin Hkp Hc.
  assert (Hh : forall x h, slabs s' !! x = Some h -> (x = page /\ core h = core hp) \/ (x <> page /\ exists h0, slabs s !! x = Some h0 /\ core h = core h0)).
  { intros x h E. apply (f_equal (lookup x)) in Ec. rewrite lookup_fmap, E in Ec. symmetry in Ec.
    apply lookup_insert_Some in Ec as [[<- Ec]|[Hne Ec]]; [by left|]. right. split; [done|].
    rewrite lookup_fmap in Ec. destruct (slabs s !! x) as [h0|]; [|done]. exists h0. split; [done|]. by apply (inj Some) in Ec. }
  constructor; [done| | |done].
  - intros x h E. destruct (Hh x h E) as [[-> Eh]|(Hne & h0 & E0 & Eh)]; [by apply (core_page_ok hp)|].
    by apply (core_page_ok h0); [|eapply (ok_pages _ _ Hl)].
  - intros k x h Hx E. destruct (Hh x h E) as [[-> Eh]|(Hne & h0 & E0 & Eh)]; [by apply (core_kind k hp); [|apply Hkp]|].
    apply (core_kind k h0); [done|]. apply (ok_kind _ _ Hl k x h0); [by apply Hin|done].
Qed.

(** An object of a page is allocated exactly when its bit is set. *)
Lemma object_block L s page h k n :
  base_ok L s -> pages_ok s -> slabs s !! page = Some h -> 0 <= k < s_total_objects h ->
  block (slabs s) L (page + sizeof_slab_page + k * s_object_size h) n <-> bitmap_is_set (s_bitmap h) k = true /\ n = s_object_size h.
Proof.
  intros Hb Hp E Hk. split; [|intros [Hs ->]; by apply block_object]. destruct (page_bounds h (Hp _ _ E)) as (B1 & B2 & B3 & _).
  assert (Hw : within (page, 1 * PAGE_SIZE) (page + sizeof_slab_page + k * s_object_size h)).
  { unfold within, sizeof_slab_page, PAGE_SIZE in *. cbn. nia. }
  intros Hbl. inversion Hbl as [page' h' k' E' Hk' Hs' Ep|b x Eb Ep]; subst.
  - destruct (page_bounds h' (Hp _ _ E')) as (C1 & C2 & C3 & _). assert (page' = page) as ->.
    { eapply (region_unique _ _ _ _ (ok_space _ _ Hb) _ _ _ _ _ _ _ (region_slab _ L _ _ E') (region_slab _ L _ _ E)); [|exact Hw].
      rewrite <- Ep. unfold within, sizeof_slab_page, PAGE_SIZE in *. cbn. nia. }
    rewrite E in E'. injection E' as <-. assert (k' = k) as -> by nia. done.
  - destruct (large_facts L s Hb b x Eb) as (Er & _). pose proof (lk_size _ _ (ok_large _ _ Hb b x Eb)) as [Hsz Hs].
    assert (b = page) as ->; [|by rewrite (ok_disjoint _ _ Hb page x Eb) in E].
    eapply (region_unique _ _ _ _ (ok_space _ _ Hb) _ _ _ _ _ _ _ Er (region_slab _ L _ _ E)); [|exact Hw].
    rewrite <- Ep. unfold within, sizeof_large_header, SLAB_MAX_SIZE in *. cbn. lia.
Qed.

(** A block has one size. *)
Lemma blocks_same L s p n m : base_ok L s -> pages_ok s -> block (slabs s) L p n -> block (slabs s) L p m -> m = n.
Proof.
  intros Hb Hp H1 H2. inversion H1 as [page h k Eh Hk Hs Ep|b x Ex Ep]; subst.
  - by apply (object_block L s page h k _ Hb Hp Eh Hk) in H2 as [_ ->].
  - inversion H2 as [page h k Eh Hk Hs Ep|b' x' Ex' Ep]; subst; [|assert (b' = b) by lia; congruence].
    rewrite <- Ep in H1. apply (object_block L s page h k _ Hb Hp Eh Hk) in H1 as [_ H1]. congruence.
Qed.

(** The blocks after the bitmap of a page changed. *)
Lemma page_blocks m m' L page h hp :
  m !! page = Some h -> core <$> m' = <[page := core hp]> (core <$> m) -> s_object_size hp = s_object_size h -> s_total_objects hp = s_total_objects h ->
  forall q n, block m' L q n <->
    (exists k, q = page + sizeof_slab_page + k * s_object_size h /\ n = s_object_size h /\ 0 <= k < s_total_objects h /\ bitmap_is_set (s_bitmap hp) k = true) \/
    block (delete page m) L q n.
Proof.
  intros E Ec Eo Et q n. assert (Ec' : core <$> m' = core <$> <[page := hp]> m) by by rewrite fmap_insert.
  assert (Hbl : block m' L q n <-> block (<[page := hp]> m) L q n) by (split; apply core_block; done). rewrite Hbl. split.
  - intros [page' h' k [[<- <-]|[Hne E']]%lookup_insert_Some Hk Hs|b x Eb]; [| |right; by apply block_large].
    + left. exists k. by rewrite Eo, Et in *.
    + right. apply block_object; [by rewrite lookup_delete_ne|done|done].
  - intros [(k & -> & -> & Hk & Hs)|Hd].
    + rewrite <- Eo. apply block_object; [by rewrite lookup_insert_eq|by rewrite Et|done].
    + destruct Hd as [page' h' k [Hne E']%lookup_delete_Some Hk Hs|b x Eb]; [|by apply block_large].
      apply block_object; [by rewrite lookup_insert_ne|done|done].
Qed.

Lemma delete_blocks m L page h : m !! page = Some h -> forall q n, block m L q n <->
    (exists k, q = page + sizeof_slab_page + k * s_object_size h /\ n = s_object_size h /\ 0 <= k < s_total_objects h /\ bitmap_is_set (s_bitmap h) k = true) \/
    block (delete page m) L q n.
Proof.
  intros E. apply (page_blocks m m L page h h E); [|done|done]. by rewrite insert_id by (by rewrite lookup_fmap, E).
Qed.

Lemma page_core_phys (m m' : gmap Z slab_page) page h hp : m !! page = Some h -> core <$> m' = <[page := core hp]> (core <$> m) ->
  s_phys_addr hp = s_phys_addr h -> s_phys_addr <$> m' = s_phys_addr <$> m.
Proof.
  intros E Ec Ep. assert (F : forall m : gmap Z slab_page, s_phys_addr <$> m = s_phys_addr <$> (core <$> m)) by (intros; by rewrite <- map_fmap_compose).
  rewrite (F m'), Ec, fmap_insert, (F m). apply insert_id. rewrite !lookup_fmap, E. cbn. by f_equal.
Qed.

(** ** An object of a page is taken or given back, and the page changes its list *)

Lemma objects_linked s lst page n bm : linked (slab_caches s) (slabs s) lst -> linked (slab_caches s) (alter (set_objects n bm) page (slabs s)) lst.
Proof.
  intros Hl. assert (Hx : forall x, links (alter (set_objects n bm) page (slabs s)) x = links (slabs s) x).
  { intros x. unfold links. destruct (decide (x = page)) as [->|Hne]; [rewrite lookup_alter_eq; by destruct (slabs s !! page)|by rewrite lookup_alter_ne]. }
  constructor; try apply Hl.
  - intros i c w E. eapply dll_ext; [|by apply (li_dll _ _ _ Hl)]. intros x _. apply Hx.
  - intros i x Hi. rewrite Hx. by apply (li_flight _ _ _ Hl i).
  - intros x. rewrite <- (li_all _ _ _ Hl x). destruct (decide (x = page)) as [->|Hne]; [rewrite lookup_alter_eq|by rewrite lookup_alter_ne].
    by destruct (slabs s !! page).
Qed.

Lemma core_alter (m : gmap Z slab_page) page h f : m !! page = Some h -> core <$> alter f page m = <[page := core (f h)]> (core <$> m).
Proof.
  intros E. apply map_eq. intros x. rewrite lookup_fmap. destruct (decide (x = page)) as [->|Hne].
  - by rewrite lookup_alter_eq, E, lookup_insert_eq.
  - by rewrite lookup_alter_ne, lookup_insert_ne, lookup_fmap.
Qed.

(** The page stays where it is. *)
Lemma lists_objects lst s k page h n bm :
  lists_ok lst s -> page ∈ lst k -> slabs s !! page = Some h -> page_ok (set_objects n bm h) -> kind k (set_objects n bm h) ->
  lists_ok lst (on_slab page (set_objects n bm) s).
Proof.
  intros Hl Hx E Hpk Hk. apply (lists_page lst lst s _ page (set_objects n bm h)); try done.
  - exact (objects_linked s lst page n bm (ok_linked _ _ Hl)).
  - by apply core_alter.
  - intros k' Hx'. by rewrite (li_one _ _ _ (ok_linked _ _ Hl) k' k page Hx' Hx).
  - apply (ok_caches _ _ Hl).
Qed.

(** The page goes from list [w] to list [w']. *)
Lemma lists_moved lst s i w w' l1 page l2 h n bm g :
  lists_ok lst s -> w <> w' -> lst (i, Some w) = l1 ++ page :: l2 -> slabs s !! page = Some h ->
  page_ok (set_objects n bm h) -> kind (i, Some w') (set_objects n bm h) -> (forall c u, head u (g c) = head u c) ->
  let lst' := moved (i, Some w) (i, Some w') (l1 ++ l2) page lst in
  (forall c, cfg c = (class_size i, calc_objects_per_slab (class_size i), Z.of_nat (length (lst (i, Some Empty)))) ->
             cfg (g c) = (class_size i, calc_objects_per_slab (class_size i), Z.of_nat (length (lst' (i, Some Empty))))) ->
  let s' := on_cache i g (slab_move_to_list page i w w' (on_slab page (set_objects n bm) s)) in
  lists_ok lst' s' /\ core <$> slabs s' = <[page := core (set_objects n bm h)]> (core <$> slabs s) /\ rest s' = rest s.
Proof.
  intros Hl Hw El E Hpk Hk Hgh lst' Hg. set (s1 := on_slab page (set_objects n bm) s).
  pose proof (objects_linked s lst page n bm (ok_linked _ _ Hl)) as Hl1.
  destruct (move_linked s1 lst i w w' l1 page l2 Hl1 Hw El) as (Hl2 & Hc2 & Hg2 & Hr2). fold lst' in Hl2.
  destruct (moved_places _ _ _ (i, Some w) (i, Some w') l1 page l2 Hl1 ltac:(congruence) El) as (_ & Hone & _ & Hsub). fold lst' in Hone, Hsub.
  generalize dependent (slab_move_to_list page i w w' s1). intros s2 Hl2 Hc2 Hg2 Hr2 s'.
  assert (Hc : core <$> slabs s' = <[page := core (set_objects n bm h)]> (core <$> slabs s)) by (unfold s'; cbn; rewrite Hc2; by apply core_alter).
  assert (Hem : forall j, j <> i -> lst' (j, Some Empty) = lst (j, Some Empty)) by (intros j Hj; unfold lst', moved; by rewrite !put_ne by congruence).
  split_and!; [|done|exact Hr2]. apply (lists_page lst lst' s s' page (set_objects n bm h)); [done|by apply linked_cache|done|done| | |].
  - intros k x [[_ ->]|[Hx _]]%Hsub Hne; done.
  - intros k Hx. rewrite (Hone k (i, Some w') page Hx); [done|]. unfold lst', moved. rewrite put_eq. left.
  - intros j c Ej. unfold s' in Ej. cbn [slab_caches on_cache on_caches] in Ej. destruct (decide (j = i)) as [->|Hne].
    + rewrite list_lookup_alter_eq in Ej. destruct (slab_caches s2 !! i) as [c1|] eqn:E1; [|done]. injection Ej as <-.
      apply Hg. destruct (cfg_lookup Hg2 i c1 E1) as (c0 & E0 & ->). by apply (ok_caches _ _ Hl).
    + rewrite list_lookup_alter_ne in Ej by done. rewrite Hem by done. destruct (cfg_lookup Hg2 j c Ej) as (c0 & E0 & ->). by apply (ok_caches _ _ Hl).
Qed.

End Ops.
