(* ===== verification/SlabAlloc.v ===== *)
(** * Allocation from the kernel heap

    The parts of [slab_alloc]: choosing a page, taking an object of it, making a new
    page, and the pages of a large block. *)

From Stdlib Require Import ZArith Lia Bool.
From stdpp Require Import base list gmap.
From S2P Require Import Prelude Wire Pmm Slab SlabParts SlabSpace SlabLists SlabHeap SlabOps.

Open Scope Z_scope.

Section Alloc.
Context {P : Type} `{PageLaws P}.
Implicit Types (s : heap P) (L : gmap Z large).

Lemma slab_pages lst L s : slab_ok lst L s -> pages_ok s.
Proof. intros (_ & Hl & _). exact (ok_pages _ _ Hl). Qed.

Lemma cache_some lst s i : lists_ok lst s -> (i < SLAB_NUM_CLASSES)%nat -> exists c, slab_caches s !! i = Some c /\
  (forall w, dll (slabs s) (head w c) (lst (i, Some w))) /\ head_of i Partial s = partial_slabs c /\ head_of i Empty s = empty_slabs c.
Proof.
  intros Hl Hi. destruct (lookup_lt_is_Some_2 (slab_caches s) i) as [c Ec]; [by rewrite (li_len _ _ _ (ok_linked _ _ Hl))|].
  exists c. split_and!; [done|intros w; by apply (li_dll _ _ _ (ok_linked _ _ Hl))|..]; unfold head_of; by rewrite Ec.
Qed.

Lemma place_page lst s k x : lists_ok lst s -> x ∈ lst k -> exists h, slabs s !! x = Some h /\ page_ok h /\ kind k h.
Proof.
  intros Hl Hx. destruct (proj2 (li_all _ _ _ (ok_linked _ _ Hl) x)) as [h E]; [by eexists|].
  exists h. split_and!; [done|by apply (ok_pages _ _ Hl x)|by apply (ok_kind _ _ Hl k x)].
Qed.

(** ** Choosing a page *)

Lemma pick_spec lst L s i :
  slab_ok lst L s -> (i < SLAB_NUM_CLASSES)%nat ->
  match slab_alloc_pick i s with
  | (s', Some page) => exists lst', slab_ok lst' L s' /\ same L s L s' /\ page ∈ lst' (i, Some Partial) /\ (forall j, lst' (j, None) = lst (j, None))
  | (s', None) => s' = s
  end.
Proof.
  intros Hok Hi. pose proof Hok as (Hb & Hl & He). pose proof (slab_pages _ _ _ Hok) as Hp.
  destruct (cache_some lst s i Hl Hi) as (c & Ec & Hd & Eh1 & Eh2). unfold slab_alloc_pick. rewrite Eh1.
  destruct (partial_slabs c) as [page|] eqn:Ep.
  - exists lst. split_and!; [apply (slab_ok_same lst L s); try done; by apply lists_stats|by apply same_core| |done].
    destruct (dll_cons_inv _ _ _ page (Hd Partial) Ep) as [l ->]. left.
  - rewrite Eh2. destruct (empty_slabs c) as [page|] eqn:Ee; [|done].
    destruct (dll_cons_inv _ _ _ page (Hd Empty) Ee) as [l El]. pose proof (He i) as Hle. rewrite El in Hle. cbn in Hle.
    destruct (place_page lst s (i, Some Empty) page Hl ltac:(rewrite El; left)) as (h & E & Hpk & Ekc & Ekf). cbn in Ekc, Ekf.
    destruct (page_bounds h Hpk) as (_ & Ht & _).
    assert (Eid : set_objects (s_free_count h) (s_bitmap h) h = h) by by destruct h.
    assert (Es : on_slab page (set_objects (s_free_count h) (s_bitmap h)) s = s).
    { unfold on_slab, on_slabs. rewrite alter_id; [by destruct s|]. intros h0 E0. by rewrite E in E0; injection E0 as <-. }
    set (lst1 := moved (i, Some Empty) (i, Some Partial) l page lst).
    assert (El1 : forall j, lst1 (j, Some Empty) = if decide (j = i) then l else lst (j, Some Empty)).
    { intros j. unfold lst1, moved. rewrite put_ne by congruence. unfold put. repeat case_decide; try done; congruence. }
    destruct (lists_moved lst s i Empty Partial [] page l h (s_free_count h) (s_bitmap h) (count_empty (-1))) as (Hl2 & Hc2 & Hr2);
      rewrite ?Eid, ?Es in *; try done.
    { split; cbn; [done|lia]. }
    { intros c0 Hc0. cbn [app]. fold lst1. rewrite El1, decide_True by done. unfold cfg in *. rewrite El in Hc0. cbn in *.
      injection Hc0 as -> -> ->. rewrite u32_small by lia. do 2 f_equal. lia. }
    cbn [app] in Hl2. fold lst1 in Hl2. rewrite insert_id in Hc2 by by rewrite lookup_fmap, E.
    exists lst1. split_and!.
    + split_and!; [eapply base_rest; [exact Hr2|by apply core_phys|done]|by apply lists_stats|]. intros j. rewrite El1. case_decide; [lia|done].
    + by apply same_core.
    + unfold lst1, moved. rewrite put_eq. left.
    + intros j. unfold lst1, moved. by rewrite !put_ne by congruence.
Qed.

(** ** An object of a page *)

Lemma get_object L s page h k : base_ok L s -> pages_ok s -> slabs s !! page = Some h -> 0 <= k < s_total_objects h ->
  slab_get_object page h k = page + sizeof_slab_page + k * s_object_size h.
Proof.
  intros Hb Hp E Hk. destruct (page_bounds h (Hp _ _ E)) as (B1 & B2 & B3 & _). destruct (slab_page_facts L s Hb page h E) as ([_ Hpg] & _).
  unfold slab_get_object. unfold sizeof_slab_page, PAGE_SIZE, SLAB_VIRT_BASE, SLAB_VIRT_END in *.
  rewrite (u32_small (k * s_object_size h)) by nia. apply u64_small. nia.
Qed.

Lemma alloc_object_spec lst L s i page :
  slab_ok lst L s -> page ∈ lst (i, Some Partial) ->
  let '(s', p) := slab_alloc_object i page s in
  p <> 0 /\ exists lst', slab_ok lst' L s' /\ (forall j, lst' (j, None) = lst (j, None)) /\ adds L s L s' p (class_size i).
Proof.
  intros Hok Hx. pose proof Hok as (Hb & Hl & He). pose proof (slab_pages _ _ _ Hok) as Hp.
  destruct (place_page lst s _ page Hl Hx) as (h & E & Hpk & Eki & Ekf). cbn in Eki, Ekf. destruct (page_bounds h Hpk) as (B1 & B2 & B3 & B4).
  unfold slab_alloc_object. rewrite E. pose proof (find_free_spec (s_bitmap h) (s_total_objects h) (pk_bitmap h Hpk) ltac:(lia)) as Hff.
  destruct (bitmap_find_free (s_bitmap h) (s_total_objects h)) as [k|].
  2:{ exfalso. apply free_objects_zero in Hff. rewrite (pk_free h Hpk) in Ekf. lia. }
  destruct Hff as [Hk Hfree]. rewrite u16_small by lia. set (n := s_free_count h - 1). set (hp := set_objects n (bitmap_set k (s_bitmap h)) h).
  assert (Hpk' : page_ok hp).
  { destruct Hpk as [H1 H2 H3 H4 H5]. constructor; try done; [by apply bitmap_set_ok|]. cbn. rewrite free_objects_set by (done || lia). lia. }
  set (s1 := on_slab page (set_objects n (bitmap_set k (s_bitmap h))) s).
  set (s3 := on_stats _ (on_cache i count_alloc (if n =? 0 then slab_move_to_list page i Partial Full s1 else s1))).
  assert (H3 : exists lst', lists_ok lst' s3 /\ (forall j, lst' (j, None) = lst (j, None) /\ lst' (j, Some Empty) = lst (j, Some Empty)) /\
    core <$> slabs s3 = <[page := core hp]> (core <$> slabs s) /\ rest s3 = rest s).
  { unfold s3. destruct (Z.eqb_spec n 0) as [En|En].
    - apply list_elem_of_split in Hx as (l1 & l2 & El).
      destruct (lists_moved lst s i Partial Full l1 page l2 h n (bitmap_set k (s_bitmap h)) count_alloc) as (Hl2 & Hc2 & Hr2); try done.
      { intros c. unfold moved. by rewrite !put_ne by congruence. }
      eexists. split_and!; [by apply lists_stats| |done|done]. intros j. unfold moved. by rewrite !put_ne by congruence.
    - exists lst. split_and!; [|done|by apply core_alter|done]. apply lists_stats, lists_cache; [done|done|].
      apply (lists_objects lst s (i, Some Partial) page h); try done. split; cbn; [done|]. unfold n in *. lia. }
  destruct H3 as (lst' & Hl3 & Hn3 & Hc3 & Hr3).
  rewrite (get_object L s page h k Hb Hp E Hk).
  assert (Hphys : s_phys_addr <$> slabs s3 = s_phys_addr <$> slabs s).
  { by apply (page_core_phys _ _ page h hp E). }
  assert (Hb3 : base_ok L s3) by (eapply base_rest; [exact Hr3|exact Hphys|done]).
  assert (Hnew : forall m, ~ block (slabs s) L (page + sizeof_slab_page + k * s_object_size h) m).
  { intros m Hm. apply (object_block L s page h k m Hb Hp E Hk) in Hm as [Hs _]. congruence. }
  assert (Hbl : forall q m, block (slabs s3) L q m <-> block (slabs s) L q m \/ (q = page + sizeof_slab_page + k * s_object_size h /\ m = class_size i)).
  { intros q m. rewrite (page_blocks (slabs s) (slabs s3) L page h hp E) by done.
    rewrite (delete_blocks _ L page h E q m). replace (class_size i) with (s_object_size h) by (rewrite (pk_size h Hpk); by rewrite Eki).
    assert (Hset : forall j, 0 <= j < s_total_objects h -> bitmap_is_set (bitmap_set k (s_bitmap h)) j = (k =? j) || bitmap_is_set (s_bitmap h) j).
    { intros j Hj. apply is_set_set; [apply Hpk|lia|lia]. }
    cbn [s_bitmap hp set_objects]. split.
    - intros [(j & -> & -> & Hj & Hs)|Hd]; [|by left; right]. rewrite Hset in Hs by done. apply orb_true_iff in Hs as [->%Z.eqb_eq|Hs]; [by right|].
      left. left. by exists j.
    - intros [[(j & -> & -> & Hj & Hs)|Hd]|[-> ->]]; [|by right|]; left.
      + exists j. rewrite Hset, Hs, orb_true_r by done. done.
      + exists k. rewrite Hset, Z.eqb_refl by done. done. }
  split.
  - assert (Hpb : block (slabs s3) L (page + sizeof_slab_page + k * s_object_size h) (class_size i)) by (apply Hbl; by right).
    apply (block_pos L s3 Hb3 (ok_pages _ _ Hl3)) in Hpb as (_ & Hpb & _). unfold SLAB_VIRT_BASE in Hpb. lia.
  - exists lst'. split_and!; [split_and!; [done|done|intros j; rewrite (proj2 (Hn3 j)); apply He]|apply Hn3|]. unfold adds. split_and!; [done|done|done|exact (ok_pages _ _ Hl3)| |done|done].
    by apply keeps_rest.
Qed.

(** ** A new region *)

Lemma virt_addr_spec R s p :
  space_ok R (slab_next_virt_addr s) (slab_free_ranges s) p ->
  let '(s', virt) := slab_alloc_virt_addr s in
  exists next ranges, s' = set_virt next ranges s /\ space_ok R next ranges p /\ (virt <> 0 -> fresh_range R next ranges virt (1 * PAGE_SIZE)).
Proof.
  intros Hso. unfold slab_alloc_virt_addr. destruct (slab_alloc_virt_range PAGE_SIZE (slab_free_ranges s)) as [ranges a] eqn:E.
  pose proof (so_next _ _ _ _ Hso) as [Hn Hal]. destruct (Z.eqb_spec a 0) as [->|Ha]; cbn [negb].
  - destruct (Z.leb_spec SLAB_VIRT_END (slab_next_virt_addr s)).
    + exists (slab_next_virt_addr s), (slab_free_ranges s). split_and!; [by destruct s|done|done].
    + assert (ranges = slab_free_ranges s) as ->.
      { pose proof (alloc_range_spec _ (proj2 Hn) PAGE_SIZE _ (so_ranges _ _ _ _ Hso) ltac:(done) ltac:(done)) as Hs. rewrite E in Hs.
        destruct Hs as [[_ ->]|[(Hc & _) _]]; [done|]. cbn in Hc. unfold SLAB_VIRT_BASE in Hc. lia. }
      assert (Hend : slab_next_virt_addr s + 1 * PAGE_SIZE <= SLAB_VIRT_END) by (unfold PAGE_SIZE, SLAB_VIRT_END in *; zlia).
      destruct (bump_range _ _ _ _ 1 Hso ltac:(lia) Hend) as [Hso' Hf].
      rewrite u64_small by (unfold PAGE_SIZE, SLAB_VIRT_END, SLAB_VIRT_BASE in *; lia).
      eexists _, _. split; [done|]. by rewrite Z.mul_1_l in *.
  - destruct (take_range R _ _ p 1 ranges a Hso ltac:(lia) E Ha) as [Hso' Hf]. eexists _, _. by split_and!.
Qed.

(** What a new region does to the others. *)
Lemma new_region_keeps L s L' s' a n ph :
  regions_of (slabs s) L !! a = None -> regions_of (slabs s') L' = <[a := (n, ph)]> (regions_of (slabs s) L) ->
  space_ok (regions_of (slabs s') L') (slab_next_virt_addr s') (slab_free_ranges s') (pg s') ->
  (forall x, x <> a -> slabs s' !! x = slabs s !! x) -> (forall y, ~ ph <= y < ph + n * PAGE_SIZE -> mem s' y = mem s y) ->
  keeps L s L' s' (fun _ => True).
Proof.
  intros En Er Hso Hs Hm b m q Eb _. assert (Hne : b <> a) by congruence.
  assert (Eb' : regions_of (slabs s') L' !! b = Some (m, q)) by (by rewrite Er, lookup_insert_ne).
  split_and!; [done|by rewrite Hs|]. intros y Hy. apply Hm. eapply regions_cells; [exact Hso|exact Eb'| |done|done].
  by rewrite Er, lookup_insert_eq.
Qed.

Lemma keeps_large L s L' s' b x D : base_ok L s -> keeps L s L' s' D -> L !! b = Some x -> D b -> large_ok (mem s') x.
Proof.
  intros Hb Hk E Db. destruct (large_facts L s Hb b x E) as (Er & _ & Hn & _). destruct (Hk b _ _ Er Db) as (_ & _ & Hm).
  destruct (ok_large _ _ Hb b x E) as [Hs Hh]. constructor; [done|]. intros k Hk'. rewrite Hm; [by apply Hh|].
  unfold sizeof_large_header, PAGE_SIZE in *. lia.
Qed.

(** ** A new slab page *)

Lemma linked_new cs m lst i page h : linked cs m lst -> m !! page = None -> s_prev h = None ->
  linked cs (<[page := h]> m) (put (i, None) (page :: lst (i, None)) lst).
Proof.
  intros Hl En Eh. assert (Hnot : forall k, page ∉ lst k).
  { intros k Hx. assert (is_Some (m !! page)) as [? ?] by (apply (li_all _ _ _ Hl); by eexists). congruence. }
  assert (Hput : forall k x, x ∈ put (i, None) (page :: lst (i, None)) lst k <-> (k = (i, None) /\ x = page) \/ x ∈ lst k).
  { intros k x. destruct (decide (k = (i, None))) as [->|Hk]; [rewrite put_eq, elem_of_cons|rewrite put_ne by done]; naive_solver. }
  assert (Hlk : forall k x, x ∈ lst k -> links (<[page := h]> m) x = links m x).
  { intros k x Hx. unfold links. rewrite lookup_insert_ne; [done|]. intros <-. by apply Hnot in Hx. }
  constructor; [apply Hl|..].
  - intros j c w E. rewrite put_ne by congruence. eapply dll_ext; [|by apply (li_dll _ _ _ Hl)]. intros x Hx. by apply (Hlk (j, Some w)).
  - intros j w x Hx. rewrite put_ne in Hx by congruence. by apply (li_idx _ _ _ Hl j w x).
  - intros j x [[_ ->]|Hx]%Hput; [|rewrite (Hlk _ x Hx); by apply (li_flight _ _ _ Hl j)].
    exists (s_next h). unfold links. rewrite lookup_insert_eq. cbn. by rewrite Eh.
  - intros k. destruct (decide (k = (i, None))) as [->|Hk]; [rewrite put_eq; apply NoDup_cons; split; [done|apply Hl]|rewrite put_ne by done; apply Hl].
  - intros k k' x [[-> ->]|Hx]%Hput [[-> ?]|Hx']%Hput; subst; try done; [by apply Hnot in Hx'|by apply Hnot in Hx|by apply (li_one _ _ _ Hl k k' x)].
  - intros x. setoid_rewrite Hput. destruct (decide (x = page)) as [->|Hne].
    + rewrite lookup_insert_eq. split; [intros _; exists (i, None); by left|by eauto].
    + rewrite lookup_insert_ne, (li_all _ _ _ Hl x) by done. naive_solver.
Qed.

Definition new_slab (i : nat) (phys : Z) : slab_page :=
  mk_slab (class_size i) (calc_objects_per_slab (class_size i)) (calc_objects_per_slab (class_size i)) (replicate 8 0) None None i phys.

Lemma empty_bitmap k : bitmap_is_set (replicate 8 0) k = false \/ 512 <= k.
Proof.
  unfold bitmap_is_set. destruct (replicate 8 0 !! Z.to_nat (k / 64)) as [w|] eqn:E.
  - apply lookup_replicate in E as [-> _]. by left.
  - right. apply lookup_ge_None in E. rewrite length_replicate in E. zlia.
Qed.

Lemma new_slab_ok i phys : (i < SLAB_NUM_CLASSES)%nat -> page_ok (new_slab i phys) /\ kind (i, None) (new_slab i phys).
Proof.
  intros Hi. destruct (class_bounds i Hi) as (_ & Ht & _). split; [|done]. constructor; [done|done|done|split; [done|by apply Forall_replicate]|].
  symmetry. apply free_objects_all; [cbn; lia|]. intros k Hk. cbn in Hk. destruct (empty_bitmap k); [done|lia].
Qed.

Lemma lists_new lst s page i phys f : lists_ok lst s -> (i < SLAB_NUM_CLASSES)%nat -> slabs s !! page = None ->
  lists_ok (put (i, None) (page :: lst (i, None)) lst) (on_cache i (count_slabs 1) (on_slabs (insert page (new_slab i phys)) (set_mem f s))).
Proof.
  intros Hl Hi En. destruct (new_slab_ok i phys Hi) as [Hpk Hkn]. apply lists_cache; [done|done|].
  constructor; cbn [slabs slab_caches on_slabs set_mem]; [by apply linked_new; [apply Hl|..]| | |].
  - intros x h [[<- <-]|[Hne E]]%lookup_insert_Some; [done|by apply (ok_pages _ _ Hl x)].
  - intros k x h Hx [[<- <-]|[Hne E]]%lookup_insert_Some.
    + destruct (decide (k = (i, None))) as [->|Hk]; [done|]. rewrite put_ne in Hx by done.
      destruct (place_page _ _ _ _ Hl Hx) as (h' & E' & _). congruence.
    + apply (ok_kind _ _ Hl k x); [|done]. destruct (decide (k = (i, None))) as [->|Hk]; [|by rewrite put_ne in Hx].
      rewrite put_eq in Hx. by apply elem_of_cons in Hx as [->|?].
  - intros j c E. rewrite put_ne by congruence. by apply (ok_caches _ _ Hl).
Qed.

Lemma regions_insert m L page h : regions_of (<[page := h]> m) L = <[page := (1, s_phys_addr h)]> (regions_of m L).
Proof. unfold regions_of. by rewrite fmap_insert, insert_union_l. Qed.

Lemma same_pages lst L s s' :
  slab_ok lst L s -> slabs s' = slabs s -> slab_caches s' = slab_caches s -> mem s' = mem s -> slab_initialized s' = slab_initialized s ->
  space_ok (regions_of (slabs s) L) (slab_next_virt_addr s') (slab_free_ranges s') (pg s') -> slab_ok lst L s' /\ same L s L s'.
Proof.
  intros (Hb & Hl & He) Es Ec Em Ei Hso. assert (Hb' : base_ok L s').
  { destruct Hb as [H1 H2 H3 H4]. constructor; [congruence|by rewrite Es|by rewrite Es|by rewrite Em]. }
  assert (Hl' : lists_ok lst s'). { destruct Hl as [H1 H2 H3 H4]. constructor; try done; by rewrite ?Es, ?Ec. }
  split; [done|]. split_and!; [done|exact (ok_pages _ _ Hl)|done|exact (ok_pages _ _ Hl')| |by rewrite Es].
  intros a n ph Ea _. rewrite Es, Em. done.
Qed.

Lemma alloc_page_end lst L s i virt phys p next ranges :
  slab_ok lst L s -> (i < SLAB_NUM_CLASSES)%nat -> regions_of (slabs s) L !! virt = None ->
  space_ok (<[virt := (1, phys)]> (regions_of (slabs s) L)) next ranges p ->
  match slab_caches s !! i with
  | Some c =>
      let s1 := store_bytes virt (replicate (Z.to_nat PAGE_SIZE) 0) (set_pg p (set_virt next ranges s)) in
      let s2 := on_slabs (insert virt (mk_slab (c_object_size c) (u16 (c_objects_per_slab c)) (u16 (c_objects_per_slab c)) (replicate 8 0) None None i phys)) s1 in
      let s' := on_stats (add_stats 0 0 1 0 0 0 0) (on_cache i (count_slabs 1) s2) in
      slab_ok (put (i, None) (virt :: lst (i, None)) lst) L s' /\ same L s L s' /\ exists phys, slabs s' !! virt = Some (new_slab i phys)
  | None => False
  end.
Proof.
  intros (Hb & Hl & He) Hi En Hso. destruct (cache_some lst s i Hl Hi) as (c & Ec & _). rewrite Ec.
  assert (Hz : Z.of_nat (length (replicate (Z.to_nat PAGE_SIZE) 0)) = PAGE_SIZE) by (by rewrite length_replicate, Z2Nat.id).
  revert Hz. generalize (replicate (Z.to_nat PAGE_SIZE) 0). intros zs Hz s1 s2 s'.
  pose proof (ok_caches _ _ Hl i c Ec) as Ecf. unfold cfg in Ecf. injection Ecf as Eo Eper _. destruct (class_bounds i Hi) as (_ & Ht & _).
  destruct (store_bytes_spec _ next ranges (set_pg p (set_virt next ranges s)) virt zs virt 1 phys Hso)
    as (f & Ef & Hf); [by rewrite lookup_insert_eq|lia|lia|].
  assert (Es2 : s2 = on_slabs (insert virt (new_slab i phys)) (set_mem f (set_pg p (set_virt next ranges s)))).
  { unfold s2, s1. rewrite Ef, Eo, Eper, u16_small by lia. done. }
  assert (Ens : slabs s !! virt = None). { destruct (slabs s !! virt) as [h|] eqn:Eh; [|done]. by rewrite (region_slab _ L _ _ Eh) in En. }
  assert (Er : regions_of (slabs s') L = <[virt := (1, phys)]> (regions_of (slabs s) L)).
  { unfold s'. rewrite Es2. cbn. by rewrite regions_insert. }
  assert (Hl' : lists_ok (put (i, None) (virt :: lst (i, None)) lst) s').
  { unfold s'. rewrite Es2. apply lists_stats. apply (lists_new lst (set_pg p (set_virt next ranges s))); [|done|done].
    destruct Hl as [H1 H2 H3 H4]. by constructor. }
  assert (Hk : keeps L s L s' (fun _ => True)).
  { apply (new_region_keeps L s L s' virt 1 phys); [done|done| | |]; unfold s'; rewrite Es2; cbn.
    - by rewrite regions_insert.
    - intros x Hne. by rewrite lookup_insert_ne.
    - intros y Hy. rewrite Hf, decide_False; [done|]. lia. }
  assert (Hb' : base_ok L s').
  { constructor.
    - unfold s'. rewrite Es2. apply Hb.
    - rewrite Er. unfold s'. rewrite Es2. exact Hso.
    - intros b x E. unfold s'. rewrite Es2. cbn. rewrite lookup_insert_ne; [by apply (ok_disjoint _ _ Hb b x)|]. intros ->.
      by rewrite (region_large _ _ _ _ (ok_disjoint _ _ Hb b x E) E) in En.
    - intros b x E. by apply (keeps_large L s L s' b x (fun _ => True)). }
  split_and!; [split_and!; [done|done|intros j; by rewrite put_ne by congruence]| |exists phys; unfold s'; rewrite Es2; cbn; by rewrite lookup_insert_eq].
  split_and!; [done|exact (ok_pages _ _ Hl)|done|exact (ok_pages _ _ Hl')|done|].
  intros q n. unfold s'. rewrite Es2. cbn. rewrite (delete_blocks (<[virt := new_slab i phys]> (slabs s)) L virt (new_slab i phys)) by by rewrite lookup_insert_eq.
  rewrite delete_insert_id by done. split; [|by right]. intros [(k & _ & _ & Hk' & Hs)|?]; [|done]. cbn [s_bitmap s_total_objects new_slab] in *.
  destruct (empty_bitmap k); [congruence|lia].
Qed.

Lemma alloc_page_spec lst L s i :
  slab_ok lst L s -> (i < SLAB_NUM_CLASSES)%nat ->
  match slab_alloc_page i s with
  | (s', None) => slab_ok lst L s' /\ same L s L s'
  | (s', Some page) => slab_ok (put (i, None) (page :: lst (i, None)) lst) L s' /\ same L s L s' /\ exists phys, slabs s' !! page = Some (new_slab i phys)
  end.
Proof.
  intros Hok Hi. pose proof Hok as (Hb & Hl & He). pose proof (ok_space _ _ Hb) as Hso. destruct (so_held _ _ _ _ Hso) as (H' & Hpg & Hf).
  unfold slab_alloc_page. destruct (pg_alloc (pg s)) as [p phys] eqn:Ea. destruct (law_alloc _ _ _ _ Hpg Ea) as [Hsm Hcase].
  destruct (Z.eqb_spec phys 0) as [->|Hph].
  { apply (same_pages lst L s); try done. cbn. apply (space_pages _ _ _ (pg s)); [done| |done].
    destruct Hcase as [[_ Hp]|[? _]]; [|done]. intros H1 Hp1 Hf1. assert (H1 = H') as -> by (apply set_eq; intros; by rewrite Hf1, Hf). done. }
  destruct Hcase as [[? _]|(_ & Hnin & Hpg1)]; [done|].
  pose proof (virt_addr_spec (regions_of (slabs s) L) (set_pg p s) (pg s) Hso) as Hv.
  destruct (slab_alloc_virt_addr (set_pg p s)) as [s2 virt]. destruct Hv as (next & ranges & -> & Hso2 & Hfresh).
  assert (Hback : forall p', pg_ok p' ({[phys]} ∪ H') -> same_maps (pg s) p' ->
    space_ok (regions_of (slabs s) L) next ranges (pg_free phys p')).
  { intros p' Hp' Hsm'. destruct (law_free _ _ phys Hp' ltac:(set_solver)) as [Hsf Hpf].
    replace (({[phys]} ∪ H') ∖ {[phys]}) with H' in Hpf by set_solver.
    apply (space_pages _ _ _ (pg s)); [done| |intros v Hv; by rewrite Hsf, Hsm']. intros H1 Hp1 Hf1.
    assert (H1 = H') as -> by (apply set_eq; intros; by rewrite Hf1, Hf). done. }
  destruct (Z.eqb_spec virt 0) as [->|Hvn]; [apply (same_pages lst L s); try done; cbn; by apply Hback|].
  specialize (Hfresh Hvn). cbn [pg set_virt set_pg]. destruct (pg_map p virt phys) as [p2 ok] eqn:Em.
  pose proof (so_next _ _ _ _ Hso2) as [Hnx _]. destruct (range_pages next virt 1 ltac:(lia) (proj1 Hfresh)) as (_ & _ & _ & Hpages).
  assert (Hpv : heap_page virt) by (specialize (Hpages 0 ltac:(lia)); by rewrite Z.add_0_r in Hpages).
  assert (Hin : phys ∈ {[phys]} ∪ H') by set_solver. destruct (law_map _ _ _ _ _ _ Hpg1 Hpv Hin Em) as [Hpg2 Hw]. destruct ok; cbn [negb].
  2:{ apply (same_pages lst L s); try done. cbn. apply Hback; [done|]. intros v Hv. rewrite Hw by done. by apply Hsm. }
  destruct (add_region _ _ _ _ H' p2 virt 1 phys Hso2 Hfresh Hf ltac:(rewrite frames_at_one; set_solver) ltac:(by rewrite frames_at_one)) as [En Hso3].
  { intros w Hpw. rewrite Hw by done. cbn [andb]. destruct (Z.eqb_spec w virt) as [->|Hne].
    - rewrite decide_True by (unfold within, PAGE_SIZE; cbn; lia). lia.
    - rewrite decide_False; [by apply Hsm|]. destruct Hpw as [A1 _], Hpv as [A2 _]. unfold within, PAGE_SIZE in *. cbn. zlia. }
  pose proof (alloc_page_end lst L s i virt phys p2 next ranges Hok Hi En Hso3) as Hend.
  cbn [slab_caches set_pg set_virt]. destruct (slab_caches s !! i); [exact Hend|done].
Qed.

(** A page that a call holds goes on the list of its cache. *)
Lemma alloc_new_spec lst L s i page l1 l2 :
  slab_ok lst L s -> (i < SLAB_NUM_CLASSES)%nat -> lst (i, None) = l1 ++ page :: l2 ->
  let '(s', p) := slab_alloc_new i page s in
  p <> 0 /\ exists lst', slab_ok lst' L s' /\ lst' (i, None) = l1 ++ l2 /\ (forall j, j <> i -> lst' (j, None) = lst (j, None)) /\
  adds L s L s' p (class_size i).
Proof.
  intros Hok Hi El. pose proof Hok as (Hb & Hl & He). unfold slab_alloc_new.
  destruct (add_linked s lst i Partial l1 page l2 (ok_linked _ _ Hl) Hi El) as (Hl1 & Hc1 & Hg1 & Hr1).
  set (lst1 := moved _ _ _ _ _) in *. generalize dependent (slab_add page i Partial s). intros s1 Hl1 Hc1 Hg1 Hr1.
  destruct (moved_places _ _ _ (i, None) (i, Some Partial) l1 page l2 (ok_linked _ _ Hl) ltac:(done) El) as (_ & _ & _ & Hsub). fold lst1 in Hsub.
  assert (Hem : forall j w, w <> Partial -> lst1 (j, Some w) = lst (j, Some w)) by (intros j w Hw; unfold lst1, moved; by rewrite !put_ne by congruence).
  assert (Hl1' : lists_ok lst1 s1).
  { apply (lists_core lst lst1 s); [done|done|done| |].
    - intros k x h [[-> ->]|[Hx _]]%Hsub E; [|by apply (ok_kind _ _ Hl k x)].
      destruct (place_page lst s (i, None) page Hl ltac:(rewrite El; set_solver)) as (h' & E' & Hpk & Ek & Ef). rewrite E in E'. injection E' as <-.
      destruct (page_bounds h Hpk) as (_ & Ht & _). cbn in Ef. split; cbn; [done|lia].
    - intros j c Ej. rewrite Hem by done. destruct (cfg_lookup Hg1 j c Ej) as (c0 & E0 & ->). by apply (ok_caches _ _ Hl). }
  assert (Hok1 : slab_ok lst1 L (on_stats (add_stats 0 0 0 0 0 0 1) s1)).
  { split_and!; [eapply base_rest; [exact Hr1|by apply core_phys|done]|by apply lists_stats|]. intros j. rewrite Hem by done. apply He. }
  assert (Hx : page ∈ lst1 (i, Some Partial)) by (unfold lst1, moved; rewrite put_eq; left).
  pose proof (alloc_object_spec lst1 L _ i page Hok1 Hx) as Ha. destruct (slab_alloc_object i page _) as [s' p].
  destruct Ha as (Hp & lst' & Hok' & Hn' & Hadds). split; [done|]. exists lst'. split_and!; [done| | |].
  - rewrite Hn'. unfold lst1, moved. by rewrite put_ne, put_eq by congruence.
  - intros j Hj. rewrite Hn'. unfold lst1, moved. by rewrite !put_ne by congruence.
  - eapply same_adds; [|exact Hadds]. apply same_core; try done. exact (ok_pages _ _ Hl).
Qed.

(** ** Large blocks *)

Lemma regions_insert_large m L b x : m !! b = None -> regions_of m (<[b := x]> L) = <[b := (l_pages x, l_phys x)]> (regions_of m L).
Proof. intros E. unfold regions_of. rewrite fmap_insert. symmetry. apply insert_union_r. by rewrite lookup_fmap, E. Qed.

Lemma length_large_header n size phys : length (large_header_bytes n size phys) = 24%nat.
Proof. done. Qed.

Lemma large_virt_spec R s p n :
  space_ok R (slab_next_virt_addr s) (slab_free_ranges s) p -> 0 < n <= 2 ^ 18 + 1 ->
  let '(ranges, v) := slab_alloc_virt_range (n * PAGE_SIZE) (slab_free_ranges s) in
  let '(s', virt) :=
    if negb (v =? 0) then (set_virt (slab_next_virt_addr s) ranges s, v)
    else if SLAB_VIRT_END <? u64 (slab_next_virt_addr s + n * PAGE_SIZE) then (s, 0)
    else (set_virt (u64 (slab_next_virt_addr s + n * PAGE_SIZE)) ranges s, slab_next_virt_addr s) in
  exists next ranges, s' = set_virt next ranges s /\ space_ok R next ranges p /\ (virt <> 0 -> fresh_range R next ranges virt (n * PAGE_SIZE)).
Proof.
  intros Hso Hn. pose proof (so_next _ _ _ _ Hso) as [Hnx _]. destruct (slab_alloc_virt_range (n * PAGE_SIZE) (slab_free_ranges s)) as [ranges a] eqn:E.
  destruct (Z.eqb_spec a 0) as [->|Ha]; cbn [negb].
  - assert (ranges = slab_free_ranges s) as ->.
    { pose proof (alloc_range_spec _ (proj2 Hnx) (n * PAGE_SIZE) _ (so_ranges _ _ _ _ Hso) ltac:(unfold PAGE_SIZE; lia) ltac:(apply Z_mod_mult)) as Hs.
      rewrite E in Hs. destruct Hs as [[_ ->]|[(Hc & _) _]]; [done|]. cbn in Hc. unfold SLAB_VIRT_BASE in Hc. lia. }
    rewrite u64_small by (unfold PAGE_SIZE, SLAB_VIRT_END, SLAB_VIRT_BASE in *; lia).
    destruct (Z.ltb_spec SLAB_VIRT_END (slab_next_virt_addr s + n * PAGE_SIZE)).
    + exists (slab_next_virt_addr s), (slab_free_ranges s). split_and!; [by destruct s|done|done].
    + destruct (bump_range _ _ _ _ n Hso ltac:(lia) ltac:(lia)) as [Hso' Hf]. eexists _, _. by split_and!.
  - destruct (take_range R _ _ p n ranges a Hso ltac:(lia) E Ha) as [Hso' Hf]. eexists _, _. by split_and!.
Qed.

(** The pages of a large block are mapped and its header is written. *)
Lemma alloc_large_end lst L s size n virt phys p next ranges g :
  slab_ok lst L s -> SLAB_MAX_SIZE < size -> size + sizeof_large_header <= n * PAGE_SIZE -> regions_of (slabs s) L !! virt = None ->
  space_ok (<[virt := (n, phys)]> (regions_of (slabs s) L)) next ranges p ->
  let s' := store_bytes virt (large_header_bytes n size phys) (set_pg p (on_stats g (set_virt next ranges s))) in
  let L' := <[virt := mk_large n size phys]> L in
  u64 (virt + sizeof_large_header) <> 0 /\ slab_ok lst L' s' /\ adds L s L' s' (u64 (virt + sizeof_large_header)) size.
Proof.
  intros (Hb & Hl & He) Hsz Hfit En Hso s' L'. unfold sizeof_large_header in *.
  assert (Ev : <[virt := (n, phys)]> (regions_of (slabs s) L) !! virt = Some (n, phys)) by by rewrite lookup_insert_eq.
  destruct (region_facts _ _ _ _ Hso virt n phys Ev) as (_ & [_ Hv] & Hn & Hnx & _). pose proof (so_next _ _ _ _ Hso) as [Hnext _].
  rewrite u64_small by (unfold SLAB_VIRT_BASE, SLAB_VIRT_END, PAGE_SIZE in *; lia).
  destruct (store_bytes_spec _ next ranges (set_pg p (on_stats g (set_virt next ranges s))) virt (large_header_bytes n size phys) virt n phys Hso)
    as (f & Ef & Hf); [done|lia|rewrite length_large_header; unfold PAGE_SIZE in *; lia|]. rewrite length_large_header in Hf.
  unfold s'. rewrite Ef. clear s' Ef. set (s' := set_mem f _).
  assert (Ens : slabs s !! virt = None). { destruct (slabs s !! virt) as [h|] eqn:Eh; [|done]. by rewrite (region_slab _ L _ _ Eh) in En. }
  assert (EnL : L !! virt = None). { destruct (L !! virt) as [x|] eqn:Ex; [|done]. by rewrite (region_large _ _ _ _ Ens Ex) in En. }
  assert (Er : regions_of (slabs s') L' = <[virt := (n, phys)]> (regions_of (slabs s) L)) by (unfold L'; by rewrite regions_insert_large).
  assert (Hk : keeps L s L' s' (fun _ => True)).
  { apply (new_region_keeps L s L' s' virt n phys); [done|done|by rewrite Er|done|].
    intros y Hy. unfold s'. cbn [mem set_mem]. rewrite Hf, decide_False; [done|]. unfold PAGE_SIZE in *. lia. }
  assert (Hb' : base_ok L' s').
  { constructor; [apply Hb|rewrite Er; exact Hso| |].
    - intros b x [[<- _]|[_ Eb]]%lookup_insert_Some; [done|by apply (ok_disjoint _ _ Hb b x)].
    - intros b x [[<- <-]|[_ Eb]]%lookup_insert_Some; [|by apply (keeps_large L s L' s' b x (fun _ => True))].
      constructor; [done|]. cbn [l_phys l_pages l_size]. intros k Hk'. unfold s'. cbn [mem set_mem].
      rewrite Hf, decide_True by (unfold sizeof_large_header in *; lia). f_equal. lia. }
  assert (Hl' : lists_ok lst s') by (destruct Hl as [H1 H2 H3 H4]; by constructor).
  split_and!; [unfold SLAB_VIRT_BASE in *; lia|done|]. unfold adds. split_and!; try done; [exact (ok_pages _ _ Hl)|exact (ok_pages _ _ Hl')| |].
  - intros m Hm. destruct (block_data L s Hb (ok_pages _ _ Hl) _ _ Hm) as (a & na & pa & Ea & A1 & A2 & _).
    destruct (block_pos L s Hb (ok_pages _ _ Hl) _ _ Hm) as (Hpos & _). assert (a = virt) as ->; [|congruence].
    apply (region_unique _ _ _ _ Hso a na pa virt n phys (virt + 24)); [by rewrite lookup_insert_ne by congruence|done|..]; unfold within; cbn; unfold PAGE_SIZE in *; lia.
  - intros q m. split.
    + intros [page h k E Hk' Hs|b x [[<- <-]|[Hne Eb]]%lookup_insert_Some]; [by left; apply block_object|by right|by left; apply block_large].
    + intros [[page h k E Hk' Hs|b x Eb]|[-> ->]]; [by apply block_object| |].
      * apply block_large. unfold L'. rewrite lookup_insert_ne; [done|congruence].
      * apply (block_large (slabs s') L' virt (mk_large n size phys)). unfold L'. by rewrite lookup_insert_eq.
Qed.

Lemma alloc_large_spec lst L s size :
  slab_ok lst L s -> SLAB_MAX_SIZE < size < 2 ^ 30 ->
  let '(s', p) := slab_alloc_large size s in
  exists L', slab_ok lst L' s' /\ ((p = 0 /\ same L s L' s') \/ (p <> 0 /\ adds L s L' s' p size)).
Proof.
  intros Hok Hsz. pose proof Hok as (Hb & Hl & He). pose proof (ok_space _ _ Hb) as Hso. destruct (so_held _ _ _ _ Hso) as (H' & Hpg & Hf).
  unfold slab_alloc_large. unfold sizeof_large_header. rewrite (u64_small (size + 24)), (u64_small (size + 24 + PAGE_SIZE - 1)) by (unfold PAGE_SIZE, SLAB_MAX_SIZE in *; lia).
  set (n := (size + 24 + PAGE_SIZE - 1) / PAGE_SIZE). assert (Hn : 0 < n <= 2 ^ 18 + 1 /\ size + 24 <= n * PAGE_SIZE) by (unfold n, PAGE_SIZE, SLAB_MAX_SIZE in *; zlia).
  rewrite (u64_small (n * PAGE_SIZE)) by (unfold PAGE_SIZE in *; lia).
  destruct (pg_alloc_n (pg s) n) as [p1 phys] eqn:Ea. destruct (law_alloc_n (pg s) H' n p1 phys Hpg ltac:(lia) Ea) as [Hsm Hcase].
  assert (Heq : forall H1, (forall f, f ∈ H1 <-> in_frames (regions_of (slabs s) L) f) -> H1 = H') by (intros H1 Hf1; apply set_eq; intros; by rewrite Hf1, Hf).
  destruct (Z.eqb_spec phys 0) as [->|Hph].
  { exists L. destruct (same_pages lst L s (set_pg p1 s) Hok) as [? ?]; try done; [|split; [done|by left]]. apply (space_pages _ _ _ (pg s)); [done| |done].
    destruct Hcase as [[_ Hp]|[? _]]; [|done]. intros H1 _ Hf1. by rewrite (Heq H1 Hf1). }
  destruct Hcase as [[? _]|(_ & Hdis & Hpg1)]; [done|].
  assert (Hback : forall p' next ranges, space_ok (regions_of (slabs s) L) next ranges (pg s) -> pg_ok p' (frames_at phys n ∪ H') -> same_maps (pg s) p' ->
    space_ok (regions_of (slabs s) L) next ranges (pg_free_n p' phys n)).
  { intros p' next ranges Hso' Hp' Hsm'. destruct (law_free_n _ _ phys n Hp' ltac:(set_solver)) as [Hsf Hpf].
    replace ((frames_at phys n ∪ H') ∖ frames_at phys n) with H' in Hpf by set_solver.
    apply (space_pages _ _ _ (pg s)); [done| |intros v Hv; by rewrite Hsf, Hsm']. intros H1 _ Hf1. by rewrite (Heq H1 Hf1). }
  pose proof (large_virt_spec (regions_of (slabs s) L) (set_pg p1 s) (pg s) n Hso ltac:(lia)) as Hv. cbn zeta. cbn [slab_free_ranges set_pg] in *.
  destruct (slab_alloc_virt_range (n * PAGE_SIZE) (slab_free_ranges s)) as [ranges' v0].
  destruct (if negb (v0 =? 0) then _ else _) as [s2 virt]. destruct Hv as (next & ranges & -> & Hso2 & Hfresh).
  destruct (Z.eqb_spec virt 0) as [->|Hvn].
  { exists L. destruct (same_pages lst L s (set_pg (pg_free_n p1 phys n) (set_virt next ranges (set_pg p1 s))) Hok) as [? ?]; try done; [|split; [done|by left]].
    cbn. by apply Hback. }
  specialize (Hfresh Hvn). pose proof (so_next _ _ _ _ Hso2) as [Hnx _].
  destruct (map_pages (Z.to_nat n) virt phys 0 (pg (on_stats _ _))) as [p2 r] eqn:Em. cbn [pg on_stats set_virt set_pg] in Em.
  assert (Hro : range_ok SLAB_VIRT_END (virt, n * PAGE_SIZE)) by (eapply range_ok_mono; [|exact (proj1 Hfresh)]; lia).
  destruct (slab_map_pages_spec (Z.to_nat n) virt phys 0 p1 _ p2 r Hpg1 Em ltac:(lia) ltac:(rewrite Z2Nat.id, Z.add_0_l by lia; exact Hro)
    ltac:(rewrite Z2Nat.id, Z.add_0_l by lia; set_solver)) as (Hpg2 & Hk & Hw). rewrite Z2Nat.id, Z.add_0_l in * by lia. destruct r as [i|].
  - exists L. assert (Hri : i = 0 \/ range_ok SLAB_VIRT_END (virt, i * PAGE_SIZE)).
    { destruct (decide (i = 0)); [by left|right]. destruct Hro as (R1 & R2 & R3 & R4 & R5). unfold range_ok, PAGE_SIZE in *. cbn in *. split_and!; try lia. apply Z_mod_mult. }
    destruct (unmap_pages_spec virt i p2 _ Hpg2 ltac:(lia) Hri) as [Hpg3 Hw3].
    match goal with |- slab_ok _ _ ?s' /\ _ => destruct (same_pages lst L s s' Hok) as [? ?] end; try done; [|split; [done|by left]].
    cbn. apply Hback; [done|done|]. intros w Hpw. rewrite Hw3, Hw by done. rewrite Z.mul_0_l, Z.add_0_r in *. case_decide as D.
    + symmetry. apply (so_unmapped _ _ _ _ Hso); [done|]. intros (b & m & q & Eb & Hwb). destruct Hfresh as (_ & _ & Hreg). specialize (Hreg b m q Eb).
      unfold apart, within, PAGE_SIZE in *. cbn in *. lia.
    + by apply Hsm.
  - destruct (add_region _ _ _ _ H' p2 virt n phys Hso2 Hfresh Hf Hdis Hpg2) as [En Hso3].
    { intros w Hpw. rewrite Hw, Z.mul_0_l, Z.add_0_r by done. unfold within. cbn [fst snd]. case_decide; [done|by apply Hsm]. }
    destruct (alloc_large_end lst L s size n virt phys p2 next ranges (add_stats 1 0 n 1 0 0 0) Hok ltac:(lia) ltac:(unfold sizeof_large_header; lia) En Hso3)
      as (Hp & Hok' & Hadds). eexists. split; [exact Hok'|]. right. split; [exact Hp|exact Hadds].
Qed.

(** ** [slab_alloc] *)

(** The bytes a client gets for a request. *)
Definition capacity (size : Z) : Z :=
  match slab_get_size_class size with Some i => class_size i | None => size end.

Lemma capacity_large size : SLAB_MAX_SIZE < size -> capacity size = size.
Proof.
  intros Hs. unfold capacity. destruct (slab_get_size_class size) as [i|] eqn:E; [exfalso|done].
  apply find_idx_Some in E as (c & Ec & Hc%Z.leb_le & _). pose proof (class_bounds i (lookup_lt_Some _ _ _ Ec)) as [Hb _].
  unfold class_size in Hb. rewrite Ec in Hb. unfold SLAB_MAX_SIZE in Hs. cbn in Hb. lia.
Qed.

Lemma capacity_le size : 0 < size -> size <= capacity size.
Proof.
  intros Hs. destruct (Z.lt_ge_cases SLAB_MAX_SIZE size); [rewrite capacity_large; lia|]. unfold capacity.
  by destruct (size_class_spec size ltac:(lia)) as (i & -> & _ & ?).
Qed.

Lemma alloc_begin_spec lst L s size :
  slab_ok lst L s -> 0 <= size < 2 ^ 30 ->
  match slab_alloc_begin size s with
  | (s', inl p) => exists lst' L', slab_ok lst' L' s' /\ (forall j, lst' (j, None) = lst (j, None)) /\
      ((p = 0 /\ same L s L' s') \/ (p <> 0 /\ 0 < size /\ adds L s L' s' p (capacity size)))
  | (s', inr i) => s' = s /\ 0 < size /\ (i < SLAB_NUM_CLASSES)%nat /\ capacity size = class_size i
  end.
Proof.
  intros Hok Hsz. pose proof Hok as (Hb & Hl & He). pose proof (slab_pages _ _ _ Hok) as Hp.
  assert (Hself : same L s L s) by by apply same_core. unfold slab_alloc_begin. rewrite (ok_init _ _ Hb). cbn [negb].
  destruct (Z.eqb_spec size 0) as [->|Hne]; [exists lst, L; split_and!; [done..|by left]|].
  destruct (Z.ltb_spec SLAB_MAX_SIZE size) as [Hlt|Hge].
  { pose proof (alloc_large_spec lst L s size Hok ltac:(lia)) as Ha. destruct (slab_alloc_large size s) as [s' p].
    destruct Ha as (L' & Hok' & Hc). exists lst, L'. rewrite capacity_large by done. split_and!; [done..|]. destruct Hc as [?|[? ?]]; [by left|right]. split_and!; [done|lia|done]. }
  destruct (size_class_spec size ltac:(lia)) as (i & Ei & Hi & Hcap).
  assert (Hc : capacity size = class_size i) by (unfold capacity; by rewrite Ei). rewrite Ei, Hc.
  pose proof (pick_spec lst L s i Hok Hi) as Hpick. destruct (slab_alloc_pick i s) as [s1 [page|]]; [|split_and!; [done|lia|done|done]].
  destruct Hpick as (lst1 & Hok1 & Hs1 & Hx & Hn1). pose proof (alloc_object_spec lst1 L s1 i page Hok1 Hx) as Ha.
  destruct (slab_alloc_object i page s1) as [s' p]. destruct Ha as (Hp0 & lst' & Hok' & Hn' & Hadds). exists lst', L.
  split_and!; [done|intros j; by rewrite Hn', Hn1|]. right. split_and!; [done|lia|]. by eapply same_adds.
Qed.

Lemma slab_alloc_ok lst L s size :
  slab_ok lst L s -> 0 <= size < 2 ^ 30 ->
  let '(s', p) := slab_alloc size s in
  exists lst' L', slab_ok lst' L' s' /\ (forall j, lst' (j, None) = lst (j, None)) /\
  ((p = 0 /\ same L s L' s') \/ (p <> 0 /\ 0 < size /\ adds L s L' s' p (capacity size))).
Proof.
  intros Hok Hsz. pose proof (alloc_begin_spec lst L s size Hok Hsz) as Hbeg. unfold slab_alloc. destruct (slab_alloc_begin size s) as [s1 [p|i]]; [done|].
  destruct Hbeg as (-> & Hpos & Hi & ->). pose proof (alloc_page_spec lst L s i Hok Hi) as Hpage. destruct (slab_alloc_page i s) as [s1 [page|]].
  2:{ exists lst, L. split_and!; [apply Hpage|done|]. left. split; [done|apply Hpage]. }
  destruct Hpage as (Hok1 & Hs1 & _). set (lst1 := put _ _ _) in *.
  pose proof (alloc_new_spec lst1 L s1 i page [] (lst (i, None)) Hok1 Hi ltac:(unfold lst1; by rewrite put_eq)) as Ha.
  destruct (slab_alloc_new i page s1) as [s' p]. destruct Ha as (Hp0 & lst' & Hok' & Hn' & Hn'' & Hadds). exists lst', L. split_and!; [done| |].
  - intros j. destruct (decide (j = i)) as [->|Hj]; [done|]. rewrite Hn'' by done. unfold lst1. by rewrite put_ne by congruence.
  - right. split_and!; [done|done|]. by eapply same_adds.
Qed.

End Alloc.
