(* ===== verification/SlabFree.v ===== *)
(** * Release to the kernel heap

    The parts of [slab_free]: the checks, giving an object back to its page, giving
    an empty page back to the page allocator, and releasing a large block. *)

From Stdlib Require Import ZArith Lia Bool.
From stdpp Require Import base list gmap.
From S2P Require Import Prelude Wire Pmm Slab SlabParts SlabSpace SlabLists SlabHeap SlabOps SlabAlloc.

Open Scope Z_scope.

Section Free.
Context {P : Type} `{PageLaws P}.
Implicit Types (s : heap P) (L : gmap Z large).

(** The blocks stay, in regions nobody wrote to. *)
Definition trims L s L' s' : Prop :=
  base_ok L s /\ pages_ok s /\ base_ok L' s' /\ pages_ok s' /\ survives L s L' s' /\
  forall q n, block (slabs s') L' q n <-> block (slabs s) L q n.

Lemma trims_rel L s L' s' A : trims L s L' s' -> rel s L A -> rel s' L' A.
Proof.
  intros (Hb & Hp & Hb' & Hp' & (D & Hk & HD) & Hbl) HA q bs. rewrite (HA q bs), Hbl.
  assert (E : block (slabs s) L q (Z.of_nat (length bs)) -> load_bytes s' q (length bs) = load_bytes s q (length bs)).
  { intros Hq. apply (keeps_block L s L' s' D); try done. intros a m ph Hd. by apply (HD a m ph q _ Hd), Hbl. }
  split; intros [H1 H2]; split; try done; rewrite <- H2; [|symmetry]; by apply E.
Qed.

Lemma survives_trans L s L1 s1 L' s' :
  survives L s L1 s1 -> survives L1 s1 L' s' -> (forall q n, block (slabs s') L' q n -> block (slabs s1) L1 q n) -> survives L s L' s'.
Proof.
  intros (D & Hk & HD) (D' & Hk' & HD') Hbl. exists (fun a => D a /\ D' a). split.
  - intros a n ph E [Da Da']. destruct (Hk a n ph E Da) as (E1 & Hs1 & Hm1). destruct (Hk' a n ph E1 Da') as (E2 & Hs2 & Hm2).
    split_and!; [done|auto|]. intros y Hy. by rewrite Hm2, Hm1.
  - intros a n ph q size Hd Hq. pose proof (HD a n ph q size Hd (Hbl _ _ Hq)) as Da. split; [done|].
    destruct Hd as (E & H1 & H2 & H3). destruct (Hk a n ph E Da) as (E1 & Hs1 & _). apply (HD' a n ph q size); [|done]. split_and!; auto.
Qed.

Lemma dels_trims L s L1 s1 L' s' p : dels L s L1 s1 p -> trims L1 s1 L' s' -> dels L s L' s' p.
Proof.
  intros (Hb & Hp & _ & _ & Hv & Hbl) (_ & _ & Hb' & Hp' & Hv' & Hbl'). unfold dels. split_and!; try done; [|intros q n; by rewrite Hbl', Hbl].
  eapply survives_trans; [done..|]. intros q n. by rewrite Hbl'.
Qed.

Lemma trims_trans L s L1 s1 L' s' : trims L s L1 s1 -> trims L1 s1 L' s' -> trims L s L' s'.
Proof.
  intros (Hb & Hp & _ & _ & Hv & Hbl) (_ & _ & Hb' & Hp' & Hv' & Hbl'). unfold trims. split_and!; try done; [|intros q n; by rewrite Hbl', Hbl].
  eapply survives_trans; [done..|]. intros q n. by rewrite Hbl'.
Qed.

Lemma same_trims L s L' s' : same L s L' s' -> trims L s L' s'.
Proof. intros (Hb & Hp & Hb' & Hp' & Hk & Hbl). unfold trims. split_and!; try done. by exists (fun _ => True). Qed.

(** ** An object *)

Lemma cleared_blocks L s s' page h k n :
  base_ok L s -> pages_ok s -> slabs s !! page = Some h -> 0 <= k < s_total_objects h -> bitmap_is_set (s_bitmap h) k = true ->
  page_ok (set_objects n (bitmap_clear k (s_bitmap h)) h) -> pages_ok s' -> rest s' = rest s ->
  core <$> slabs s' = <[page := core (set_objects n (bitmap_clear k (s_bitmap h)) h)]> (core <$> slabs s) ->
  dels L s L s' (page + sizeof_slab_page + k * s_object_size h).
Proof.
  intros Hb Hp E Hk Hs Hpk Hp' Er Ec. set (hp := set_objects n _ h) in *.
  assert (Hphys : s_phys_addr <$> slabs s' = s_phys_addr <$> slabs s) by by apply (page_core_phys _ _ page h hp).
  destruct (page_bounds h (Hp _ _ E)) as (B1 & B2 & _). unfold dels. split_and!; [done|done|by eapply base_rest|done| |].
  - exists (fun _ => True). split; [by apply keeps_rest|done].
  - intros q m. rewrite (page_blocks (slabs s) (slabs s') L page h hp E Ec eq_refl eq_refl).
    assert (Hset : forall j, 0 <= j < s_total_objects h -> bitmap_is_set (bitmap_clear k (s_bitmap h)) j = negb (k =? j) && bitmap_is_set (s_bitmap h) j).
    { intros j Hj. apply is_set_clear; [apply (Hp _ _ E)|lia|lia]. }
    assert (Hdel : block (delete page (slabs s)) L q m -> q <> page + sizeof_slab_page + k * s_object_size h).
    { intros Hd ->. assert (Hbl : block (slabs s) L (page + sizeof_slab_page + k * s_object_size h) m) by (apply (delete_blocks _ L page h E); by right).
      inversion Hd as [page' h' k' E' Hk' Hs' Ep|b x Eb Ep]; subst.
      - apply lookup_delete_Some in E' as [Hne E']. assert (H' : block (slabs s) L (page' + sizeof_slab_page + k' * s_object_size h') (s_object_size h')) by by apply block_object.
        destruct (page_bounds h' (Hp _ _ E')) as (C1 & C2 & C3 & _). destruct (page_bounds h (Hp _ _ E)) as (_ & _ & B3 & _).
        apply Hne. apply (region_unique _ _ _ _ (ok_space _ _ Hb) _ _ _ _ _ _ (page + sizeof_slab_page + k * s_object_size h) (region_slab _ L _ _ E) (region_slab _ L _ _ E')).
        + unfold within, sizeof_slab_page, PAGE_SIZE in *. cbn. nia.
        + rewrite <- Ep. unfold within, sizeof_slab_page, PAGE_SIZE in *. cbn. nia.
      - apply (object_block L s page h k (l_size x) Hb Hp E Hk) in Hbl as [_ Hsz]. pose proof (lk_size _ _ (ok_large _ _ Hb b x Eb)) as [Hlt _].
        unfold SLAB_MAX_SIZE in Hlt. lia. }
    rewrite (delete_blocks _ L page h E q m). cbn [s_bitmap hp set_objects]. split.
    + intros [(j & -> & -> & Hj & Hsj)|Hd]; [|split; [by right|by apply Hdel]]. rewrite Hset in Hsj by done. apply andb_true_iff in Hsj as [Hkj Hsj].
      apply negb_true_iff, Z.eqb_neq in Hkj. split; [left; by exists j|]. intros Heq. apply Hkj. nia.
    + intros [[(j & -> & -> & Hj & Hsj)|Hd] Hne]; [|by right]. left. exists j. rewrite Hset, Hsj by done. split_and!; try done; lia.
Qed.

(** Where a page with an allocated object is. *)
Lemma used_page lst s page h k :
  lists_ok lst s -> slabs s !! page = Some h -> 0 <= k < s_total_objects h -> bitmap_is_set (s_bitmap h) k = true ->
  s_free_count h < s_total_objects h /\
  page ∈ lst (s_cache h, Some (if s_free_count h =? 0 then Full else Partial)).
Proof.
  intros Hl E Hk Hs. pose proof (ok_pages _ _ Hl page h E) as Hpk. destruct (page_bounds h Hpk) as (_ & Ht & _ & Hf).
  assert (Hlt : s_free_count h < s_total_objects h).
  { rewrite (pk_free h Hpk) in *. assert (free_objects (s_bitmap h) (s_total_objects h) <> s_total_objects h); [|lia].
    intros Ha. rewrite (proj2 (free_objects_all (s_bitmap h) (s_total_objects h) ltac:(lia)) Ha k Hk) in Hs. done. }
  split; [done|]. destruct (proj1 (li_all _ _ _ (ok_linked _ _ Hl) page)) as [[i w] Hx]; [by eauto|].
  destruct (ok_kind _ _ Hl _ page h Hx E) as [Hi Hw]. cbn in Hi, Hw. subst i.
  destruct w as [[]|]; [|..|lia].
  - rewrite (proj2 (Z.eqb_neq _ _)) by lia. done.
  - by rewrite (proj2 (Z.eqb_eq _ _)) by done.
  - lia.
Qed.

(** The first empty page is taken off its list. *)
Lemma pop_ok lst L s i page l :
  base_ok L s -> lists_ok lst s -> lst (i, Some Empty) = page :: l -> (length l <= 2)%nat ->
  let s' := slab_pop page i s in
  let lst' := moved (i, Some Empty) (i, None) l page lst in
  lists_ok lst' s' /\ same L s L s' /\ lst' (i, Some Empty) = l /\ lst' (i, None) = page :: lst (i, None) /\
  forall j w, j <> i -> lst' (j, w) = lst (j, w).
Proof.
  intros Hb Hl El Hlen s' lst'. destruct (pop_linked s lst i page l (ok_linked _ _ Hl) El) as (Hl3 & Hc3 & Hg3 & Hr3).
  destruct (moved_places _ _ _ (i, Some Empty) (i, None) [] page l (ok_linked _ _ Hl) ltac:(done) El) as (_ & _ & _ & Hsub).
  fold lst' in Hsub, Hl3. fold s' in Hl3, Hc3, Hg3, Hr3. generalize dependent s'. intros s3 Hl3 Hc3 Hg3 Hr3.
  assert (E1 : lst' (i, Some Empty) = l) by (unfold lst', moved; by rewrite put_ne, put_eq by congruence).
  assert (E2 : lst' (i, None) = page :: lst (i, None)) by (unfold lst', moved; by rewrite put_eq).
  assert (E3 : forall j w, j <> i -> lst' (j, w) = lst (j, w)) by (intros j w Hj; unfold lst', moved; by rewrite !put_ne by congruence).
  split_and!; try done; [|by apply (same_core L s s3 Hb (ok_pages _ _ Hl))]. apply (lists_core lst lst' s); try done.
  - intros k x h [[-> ->]|[Hx _]]%Hsub E; [|by apply (ok_kind _ _ Hl k x)]. assert (Hx : page ∈ lst (i, Some Empty)) by (rewrite El; left).
    destruct (ok_kind _ _ Hl _ page h Hx E) as [Hc Hf]. by split.
  - intros j c' Ej. destruct (cfg_lookup Hg3 j c' Ej) as (c0 & E0 & ->). destruct (decide (j = i)) as [->|Hj].
    + rewrite list_lookup_alter_eq in E0. destruct (slab_caches s !! i) as [c|] eqn:Ec; [|done]. injection E0 as <-.
      pose proof (ok_caches _ _ Hl i c Ec) as Ecf. rewrite El in Ecf. unfold cfg in *. injection Ecf as Eo Eper Ecnt. cbn [length] in Ecnt.
      cbn. rewrite Eo, Eper, Ecnt, E1, u32_small by lia. do 2 f_equal. lia.
    + rewrite list_lookup_alter_ne in E0 by done. by rewrite (ok_caches _ _ Hl j c0 E0), E3.
Qed.

(** The page that became empty is kept, or handed out when there are enough. *)
Lemma free_empty_spec lst lst1 L s s2 i page p :
  lists_ok lst1 s2 -> dels L s L s2 p -> (i < SLAB_NUM_CLASSES)%nat -> (forall j, (length (lst (j, Some Empty)) <= 2)%nat) ->
  (forall j, lst1 (j, Some Empty) = if decide (j = i) then page :: lst (i, Some Empty) else lst (j, Some Empty)) ->
  (forall j, lst1 (j, None) = lst (j, None)) ->
  let '(s', r) :=
    match slab_caches s2 !! i with
    | Some c =>
        if 2 <? empty_slab_count c then
          match empty_slabs c with Some to_free => (slab_pop to_free i s2, Some to_free) | None => (s2, None) end
        else (s2, None)
    | None => (s2, None)
    end in
  exists lst', slab_ok lst' L s' /\ dels L s L s' p /\
    forall j, lst' (j, None) = match r with Some to_free => if decide (j = i) then to_free :: lst (j, None) else lst (j, None) | None => lst (j, None) end.
Proof.
  intros Hl Hd Hi He El1 En1. destruct (cache_some lst1 s2 i Hl Hi) as (c & Ec & Hdl & _ & _). rewrite Ec.
  pose proof (ok_caches _ _ Hl i c Ec) as Ecf. rewrite El1, decide_True in Ecf by done. unfold cfg in Ecf. injection Ecf as Eo Eper Ecnt. cbn [length] in Ecnt.
  specialize (Hdl Empty). rewrite El1, decide_True in Hdl by done. pose proof (proj1 (dll_head _ _ _ _ Hdl)) as Eh. cbn in Eh. rewrite Ecnt, Eh.
  pose proof Hd as (_ & _ & Hb2 & Hp2 & _). destruct (Z.ltb_spec 2 (Z.of_nat (S (length (lst (i, Some Empty)))))) as [Hgt|Hle].
  2:{ exists lst1. split_and!; [split_and!; [done|done|]|done|done]. intros j. rewrite El1. case_decide; [cbn; lia|apply He]. }
  destruct (pop_ok lst1 L s2 i page (lst (i, Some Empty)) Hb2 Hl ltac:(by rewrite El1, decide_True) (He i)) as (Hl3 & Hs3 & E1 & E2 & E3).
  set (lst3 := moved _ _ _ _ _) in *. generalize dependent (slab_pop page i s2). intros s3 Hl3 Hs3. exists lst3. split_and!.
  - split_and!; [apply Hs3|done|]. intros j. destruct (decide (j = i)) as [->|Hj]; [by rewrite E1|]. rewrite E3, El1, decide_False by done. apply He.
  - eapply dels_trims; [exact Hd|by apply same_trims].
  - intros j. destruct (decide (j = i)) as [->|Hj]; [by rewrite E2, En1|]. by rewrite E3, En1 by done.
Qed.

Lemma free_object_spec lst L s page h k :
  slab_ok lst L s -> slabs s !! page = Some h -> 0 <= k < s_total_objects h -> bitmap_is_set (s_bitmap h) k = true ->
  let '(s', r) := slab_free_object page (s_cache h) k s in
  exists lst', slab_ok lst' L s' /\ dels L s L s' (page + sizeof_slab_page + k * s_object_size h) /\
    forall j, lst' (j, None) = match r with Some to_free => if decide (j = s_cache h) then to_free :: lst (j, None) else lst (j, None) | None => lst (j, None) end.
Proof.
  intros Hok E Hk Hs. pose proof Hok as (Hb & Hl & He). pose proof (slab_pages _ _ _ Hok) as Hp. set (i := s_cache h).
  destruct (used_page lst s page h k Hl E Hk Hs) as [Hlt Hx]. fold i in Hx. pose proof (Hp _ _ E) as Hpk. destruct (page_bounds h Hpk) as (_ & Ht & _ & Hf).
  unfold slab_free_object. rewrite E, (u16_small (s_free_count h + 1)) by lia. set (n := s_free_count h + 1). set (bm := bitmap_clear k (s_bitmap h)).
  assert (Hpk' : page_ok (set_objects n bm h)).
  { destruct Hpk as [H1 H2 H3 H4 H5]. constructor; try done; [by apply bitmap_clear_ok|]. cbn. unfold bm. rewrite free_objects_clear by (done || lia). lia. }
  assert (Hdels : forall s', pages_ok s' -> rest s' = rest s -> core <$> slabs s' = <[page := core (set_objects n bm h)]> (core <$> slabs s) ->
    dels L s L s' (page + sizeof_slab_page + k * s_object_size h)) by (intros s' ? ? ?; by apply (cleared_blocks L s s' page h k n)).
  assert (Hbase : forall s', rest s' = rest s -> core <$> slabs s' = <[page := core (set_objects n bm h)]> (core <$> slabs s) -> base_ok L s').
  { intros s' Er Ec. eapply base_rest; [exact Er|by apply (page_core_phys _ _ page h (set_objects n bm h))|done]. }
  destruct (Z.eqb_spec (s_free_count h) 0) as [Ez|Ez].
  - apply list_elem_of_split in Hx as (l1 & l2 & El).
    destruct (lists_moved lst s i Full Partial l1 page l2 h n bm (fun c => c)) as (Hl2 & Hc2 & Hr2); try done.
    { split; cbn; [done|unfold n; lia]. }
    { intros c. unfold moved. by rewrite !put_ne by congruence. }
    assert (Eid : forall s, on_cache i (fun c => c) s = s) by (intros s0; unfold on_cache, on_caches; rewrite list_alter_id by done; by destruct s0).
    rewrite Eid in *. eexists. split_and!; [split_and!; [by apply Hbase|exact Hl2|]|apply Hdels; [exact (ok_pages _ _ Hl2)|done|done]|].
    + intros j. unfold moved. rewrite !put_ne by congruence. apply He.
    + intros j. unfold moved. by rewrite !put_ne by congruence.
  - destruct (Z.eqb_spec n (s_total_objects h)) as [En|En].
    2:{ assert (Hl2 : lists_ok lst (on_slab page (set_objects n bm) s)).
        { apply (lists_objects lst s (i, Some Partial) page h); try done. split; cbn; [done|unfold n; lia]. }
        exists lst. assert (Hc2 : core <$> slabs (on_slab page (set_objects n bm) s) = <[page := core (set_objects n bm h)]> (core <$> slabs s)) by by apply core_alter.
        split_and!; [split_and!; [by apply Hbase|done|done]|apply Hdels; [exact (ok_pages _ _ Hl2)|done|done]|done]. }
    apply list_elem_of_split in Hx as (l1 & l2 & El). set (lst1 := moved (i, Some Partial) (i, Some Empty) (l1 ++ l2) page lst).
    assert (El1 : forall j, lst1 (j, Some Empty) = if decide (j = i) then page :: lst (i, Some Empty) else lst (j, Some Empty)).
    { intros j. unfold lst1, moved, put. repeat case_decide; try done; congruence. }
    destruct (lists_moved lst s i Partial Empty l1 page l2 h n bm (count_empty 1)) as (Hl2 & Hc2 & Hr2); try done.
    { intros c Hc. fold lst1. rewrite El1, decide_True by done. unfold cfg in *. cbn in *. injection Hc as -> -> ->. pose proof (He i).
      rewrite u32_small by lia. do 2 f_equal. lia. }
    fold lst1 in Hl2. generalize dependent (on_cache i (count_empty 1) (slab_move_to_list page i Partial Empty (on_slab page (set_objects n bm) s))).
    intros s2 Hl2 Hc2 Hr2. apply (free_empty_spec lst lst1 L s s2 i page); [done|apply Hdels; [exact (ok_pages _ _ Hl2)|done|done]|apply Hpk|done|done|].
    intros j. unfold lst1, moved. by rewrite !put_ne by congruence.
Qed.

(** ** A page *)

Lemma linked_delete cs m lst i l1 page l2 : linked cs m lst -> lst (i, None) = l1 ++ page :: l2 ->
  linked cs (delete page m) (put (i, None) (l1 ++ l2) lst).
Proof.
  intros Hl El. assert (Hx : page ∈ lst (i, None)) by (rewrite El; set_solver).
  pose proof (li_nodup _ _ _ Hl (i, None)) as Hnd. rewrite El in Hnd. rewrite <- Permutation_middle in Hnd. apply NoDup_cons in Hnd as [Hpn Hnd].
  assert (Hput : forall k x, x ∈ put (i, None) (l1 ++ l2) lst k <-> x ∈ lst k /\ x <> page).
  { intros k x. destruct (decide (k = (i, None))) as [->|Hk]; [rewrite put_eq, El|rewrite put_ne by done].
    - split; [|set_solver]. intros Hx'. split; [set_solver|]. by intros ->.
    - split; [|by intros [? _]]. intros Hx'. split; [done|]. intros ->. by apply Hk, (li_one _ _ _ Hl _ _ page). }
  assert (Hlk : forall x, x <> page -> links (delete page m) x = links m x) by (intros x Hne; unfold links; by rewrite lookup_delete_ne).
  constructor; [apply Hl|..].
  - intros j c w E. rewrite put_ne by congruence. eapply dll_ext; [|by apply (li_dll _ _ _ Hl)]. intros x Hx'. apply Hlk. intros ->.
    by pose proof (li_one _ _ _ Hl _ _ _ Hx Hx').
  - intros j w x [Hx' _]%Hput. by apply (li_idx _ _ _ Hl j w x).
  - intros j x [Hx' Hne]%Hput. rewrite Hlk by done. by apply (li_flight _ _ _ Hl j).
  - intros k. destruct (decide (k = (i, None))) as [->|Hk]; [by rewrite put_eq|rewrite put_ne by done; apply Hl].
  - intros k k' x [H1 _]%Hput [H2 _]%Hput. by apply (li_one _ _ _ Hl k k' x).
  - intros x. setoid_rewrite Hput. destruct (decide (x = page)) as [->|Hne].
    + rewrite lookup_delete_eq. split; [by intros [? ?]|by intros (k & _ & ?)].
    + rewrite lookup_delete_ne, (li_all _ _ _ Hl x) by done. naive_solver.
Qed.

Lemma regions_delete m L page h : m !! page = Some h -> L !! page = None -> regions_of (delete page m) L = delete page (regions_of m L).
Proof. intros E En. unfold regions_of. rewrite fmap_delete, delete_union. f_equal. rewrite delete_id; [done|]. by rewrite lookup_fmap, En. Qed.

Lemma length_words ws : length (concat (le64 <$> ws)) = (8 * length ws)%nat.
Proof. induction ws as [|w ws IH]; [done|]. cbn [fmap list_fmap concat]. rewrite length_app. change (list_fmap Z (list Z) le64 ws) with (le64 <$> ws). rewrite IH. cbn. lia. Qed.

Lemma length_slab_bytes h : page_ok h -> length (slab_page_bytes h) = 112%nat.
Proof. intros Hp. destruct (pk_bitmap h Hp) as [Hl _]. unfold slab_page_bytes. rewrite !length_app, length_words, Hl. done. Qed.

(** What removing a region does to the others. *)
Lemma old_region_keeps L s L' s' a n ph :
  base_ok L s -> regions_of (slabs s) L !! a = Some (n, ph) -> regions_of (slabs s') L' = delete a (regions_of (slabs s) L) ->
  (forall x, x <> a -> slabs s' !! x = slabs s !! x) -> (forall y, ~ ph <= y < ph + n * PAGE_SIZE -> mem s' y = mem s y) ->
  keeps L s L' s' (fun b => b <> a).
Proof.
  intros Hb Ea Er Hs Hm b m q Eb Hne. split_and!; [by rewrite Er, lookup_delete_ne|by rewrite Hs|]. intros y Hy. apply Hm.
  by eapply regions_cells; [apply (ok_space _ _ Hb)|exact Eb|exact Ea|done|].
Qed.

(** The region of a page or block, unmapped and given back. *)
Lemma release_region L s a n ph p :
  base_ok L s -> regions_of (slabs s) L !! a = Some (n, ph) ->
  (forall H' : gset Z, pg_ok (pg s) H' -> frames_at ph n ⊆ H' -> pg_ok p (H' ∖ frames_at ph n)) ->
  (forall w, heap_page w -> pg_phys p w = if decide (within (a, n * PAGE_SIZE) w) then 0 else pg_phys (pg s) w) ->
  space_ok (delete a (regions_of (slabs s) L)) (slab_next_virt_addr s) (slab_free_virt_range a (n * PAGE_SIZE) (slab_free_ranges s)) p.
Proof.
  intros Hb E Hok Hw. pose proof (ok_space _ _ Hb) as Hso. destruct (so_held _ _ _ _ Hso) as (H' & Hpg & Hf).
  destruct (remove_region _ _ _ _ H' p a n ph Hso E Hf) as [Hso1 Hfr]; [|done|by apply give_range].
  apply Hok; [done|]. intros x Hx. apply Hf. by exists a, n, ph.
Qed.

Lemma free_page_spec lst L s i l1 page l2 :
  slab_ok lst L s -> lst (i, None) = l1 ++ page :: l2 ->
  let s' := slab_free_page page s in slab_ok (put (i, None) (l1 ++ l2) lst) L s' /\ trims L s L s'.
Proof.
  intros (Hb & Hl & He) El. destruct (place_page lst s (i, None) page Hl ltac:(rewrite El; set_solver)) as (h & E & Hpk & Hc & Hf). cbn in Hc, Hf.
  unfold slab_free_page. rewrite E. pose proof (region_slab _ L _ _ E) as Er. pose proof (ok_space _ _ Hb) as Hso.
  destruct (slab_page_facts L s Hb page h E) as (Hhp & _ & Hph & _).
  destruct (store_bytes_spec _ _ _ (on_stats (add_stats 0 0 (-1) 0 0 0 0) (on_cache (s_cache h) (count_slabs (-1)) s)) page (slab_page_bytes h) page 1 (s_phys_addr h) Hso Er)
    as (f & -> & Hfm); [lia|rewrite length_slab_bytes by done; unfold PAGE_SIZE; lia|]. rewrite length_slab_bytes in Hfm by done.
  assert (EnL : L !! page = None). { destruct (L !! page) as [x|] eqn:Ex; [|done]. by rewrite (ok_disjoint _ _ Hb page x Ex) in E. }
  set (s' := set_virt _ _ _). assert (Ers : regions_of (slabs s') L = delete page (regions_of (slabs s) L)) by (by apply (regions_delete _ _ _ h)).
  assert (Hk : keeps L s L s' (fun b => b <> page)).
  { apply (old_region_keeps L s L s' page 1 (s_phys_addr h)); [done|done|done|intros x Hne; unfold s'; cbn; by rewrite lookup_delete_ne|].
    intros y Hy. unfold s'. cbn [mem set_virt set_pg on_slabs set_mem]. rewrite Hfm, decide_False; [done|]. unfold PAGE_SIZE in *. lia. }
  assert (Hb' : base_ok L s').
  { constructor; [apply Hb| | |].
    - rewrite Ers. unfold s'. cbn [pg slab_next_virt_addr slab_free_ranges set_virt set_pg on_slabs set_mem on_stats on_cache on_caches].
      replace PAGE_SIZE with (1 * PAGE_SIZE) at 1 by done. apply (release_region L s page 1 (s_phys_addr h)); [done|done| |].
      + intros H' Hpg Hsub. rewrite frames_at_one in *. destruct (law_unmap _ _ _ Hpg Hhp) as [Hpg1 _]. apply law_free; [done|set_solver].
      + intros w Hpw. destruct (so_held _ _ _ _ Hso) as (H' & Hpg & Hin). destruct (law_unmap _ _ _ Hpg Hhp) as [Hpg1 Hw1].
        assert (HH : s_phys_addr h ∈ H') by (apply Hin; exists page, 1, (s_phys_addr h); split; [done|rewrite frames_at_one; set_solver]).
        rewrite (proj1 (law_free _ _ _ Hpg1 HH)), Hw1 by done. destruct Hpw as [A1 _], Hhp as [A2 _]. unfold within, PAGE_SIZE in *. cbn.
        destruct (Z.eqb_spec w page); [by rewrite decide_True by lia|rewrite decide_False; [done|zlia]].
    - intros b x Eb. unfold s'. cbn. destruct (decide (b = page)) as [->|Hne]; [by rewrite lookup_delete_eq|].
      rewrite lookup_delete_ne by done. by apply (ok_disjoint _ _ Hb b x).
    - intros b x Eb. apply (keeps_large L s L s' b x (fun b => b <> page)); [done|done|done|]. intros ->. congruence. }
  assert (Hl' : lists_ok (put (i, None) (l1 ++ l2) lst) s').
  { constructor; cbn [slabs slab_caches s' set_virt set_pg on_slabs set_mem on_stats on_cache on_caches].
    - apply linked_cache; [done|]. by apply linked_delete, El; apply Hl.
    - intros x h' [_ Eh]%lookup_delete_Some. by apply (ok_pages _ _ Hl x).
    - intros k x h' Hx [_ Eh]%lookup_delete_Some. apply (ok_kind _ _ Hl k x); [|done]. unfold put in Hx. case_decide; [subst; rewrite El; set_solver|done].
    - intros j c Ej. rewrite put_ne by congruence. destruct (cfg_lookup (cfg_alter (slab_caches s) (count_slabs (-1)) (s_cache h) ltac:(done)) j c Ej) as (c0 & E0 & ->).
      by apply (ok_caches _ _ Hl). }
  split; [split_and!; [done|done|intros j; by rewrite put_ne by congruence]|]. pose proof (ok_pages _ _ Hl) as Hp.
  unfold trims. split_and!; [done|done|done|exact (ok_pages _ _ Hl')| |].
  - exists (fun b => b <> page). split; [done|]. intros a n ph q size Hd Hq ->. destruct (page_bounds h Hpk) as (_ & Ht & _).
    assert (Hq' : block (slabs s) L q size) by (apply (delete_blocks _ L page h E); by right).
    destruct (block_data L s' Hb' (ok_pages _ _ Hl') q size Hq) as (b & nb & pb & Eb & B1 & B2 & _).
    destruct (block_pos L s Hb Hp q size Hq') as (Hpos & _). destruct Hd as (Ea & A1 & A2 & _). rewrite Ers in Eb. apply lookup_delete_Some in Eb as [Hne Eb].
    apply Hne. apply (region_unique _ _ _ _ Hso page n ph b nb pb q); [done|done|..]; unfold within; cbn; lia.
  - intros q m. rewrite (delete_blocks (slabs s) L page h E q m). split; [by right|]. intros [(k & _ & _ & Hk' & Hs)|?]; [|done].
    destruct (page_bounds h Hpk) as (_ & Ht & _). rewrite (pk_free h Hpk) in Hf.
    rewrite (proj2 (free_objects_all (s_bitmap h) (s_total_objects h) ltac:(lia)) Hf k Hk') in Hs. done.
Qed.

(** ** A large block *)

Lemma ld32_bytes v : urange 32 v -> ld32 (le32 v) 0 = v.
Proof. intros Hv. exact (ld32_le32 [] v [] Hv). Qed.

Lemma ld64_bytes v : urange 64 v -> ld32 (le64 v) 0 + 2 ^ 32 * ld32 (le64 v) 4 = v.
Proof.
  intros Hv. unfold urange in Hv. assert (H1 : urange 32 (v mod 2 ^ 32)) by (apply Z.mod_pos_bound; lia).
  assert (H2 : urange 32 (v / 2 ^ 32)) by (unfold urange; split; [apply Z.div_pos; lia|apply Z.div_lt_upper_bound; lia]).
  pose proof (ld32_le32 [] (v mod 2 ^ 32) (le32 (v / 2 ^ 32)) H1) as E1.
  pose proof (ld32_le32 (le32 (v mod 2 ^ 32)) (v / 2 ^ 32) [] H2) as E2. rewrite app_nil_r in E2. cbn [app length] in E1.
  unfold le64. rewrite E1. change 4%nat with (length (le32 (v mod 2 ^ 32))). rewrite E2. pose proof (Z.div_mod v (2 ^ 32)). lia.
Qed.

(** The header of a large block reads as it was written. *)
Lemma large_header L s b x : base_ok L s -> L !! b = Some x ->
  load32 s b = Some SLAB_LARGE_MAGIC /\ load32 s (b + 4) = Some (l_pages x) /\ load64 s (b + 8) = Some (l_size x) /\
  load64 s (b + 16) = Some (l_phys x).
Proof.
  intros Hb E. destruct (large_facts L s Hb b x E) as (Er & _ & Hn & Hnx & Hph). destruct (ok_large _ _ Hb b x E) as [Hs Hh].
  assert (Hd : in_data L s b (l_pages x) (l_phys x) b 24).
  { split_and!; [done|lia|unfold sizeof_large_header, SLAB_MAX_SIZE in *; lia|]. rewrite (ok_disjoint _ _ Hb b x E). by intros [? ?]. }
  assert (Hload : forall k m, (k + m <= 24)%nat -> load_bytes s (b + Z.of_nat k) m =
    Some ((fun j => byte_at (large_header_bytes (l_pages x) (l_size x) (l_phys x)) (k + j)) <$> seq 0 m)).
  { intros k m Hkm. rewrite (load_bytes_data L s Hb _ _ _ _ _ (Z.of_nat k) m Hd) by lia. f_equal. apply list_fmap_ext. intros j y [-> Hj]%lookup_seq.
    rewrite <- (Nat2Z.id (k + (0 + j))), <- Hh by (unfold sizeof_large_header; lia). f_equal. lia. }
  pose proof (Hload 0%nat 4%nat ltac:(lia)) as E0. pose proof (Hload 4%nat 4%nat ltac:(lia)) as E4.
  pose proof (Hload 8%nat 8%nat ltac:(lia)) as E8. pose proof (Hload 16%nat 8%nat ltac:(lia)) as E16.
  unfold load32, load64. rewrite Z.add_0_r in E0. change (Z.of_nat 4) with 4 in E4. change (Z.of_nat 8) with 8 in E8. change (Z.of_nat 16) with 16 in E16. rewrite E0, E4, E8, E16. split_and!; [done|..].
  - transitivity (Some (ld32 (le32 (u32 (l_pages x))) 0)); [done|]. rewrite ld32_bytes by (apply Z.mod_pos_bound; lia). by rewrite u32_small by lia.
  - transitivity (Some (ld32 (le64 (l_size x)) 0 + 2 ^ 32 * ld32 (le64 (l_size x)) 4)); [done|]. rewrite ld64_bytes; [done|]. unfold urange, sizeof_large_header, SLAB_MAX_SIZE, PAGE_SIZE in *. lia.
  - transitivity (Some (ld32 (le64 (l_phys x)) 0 + 2 ^ 32 * ld32 (le64 (l_phys x)) 4)); [done|]. rewrite ld64_bytes; [done|]. unfold urange. lia.
Qed.

Lemma free_large_spec lst L s b x :
  slab_ok lst L s -> L !! b = Some x ->
  exists s', slab_free_large b s = Some s' /\ slab_ok lst (delete b L) s' /\ dels L s (delete b L) s' (b + sizeof_large_header).
Proof.
  intros (Hb & Hl & He) E. pose proof (ok_pages _ _ Hl) as Hp. pose proof (ok_space _ _ Hb) as Hso.
  destruct (large_facts L s Hb b x E) as (Er & Hhp & Hn & Hnx & Hph). destruct (large_header L s b x Hb E) as (_ & E4 & _ & E16).
  unfold slab_free_large. rewrite E4, E16. cbn [mbind option_bind]. eexists. split; [done|].
  destruct (region_facts _ _ _ _ Hso _ _ _ Er) as (Hro & _). pose proof (so_next _ _ _ _ Hso) as [Hnext _].
  rewrite (u64_small (l_pages x * PAGE_SIZE)) by (unfold PAGE_SIZE in *; lia). set (s' := on_stats _ _).
  pose proof (ok_disjoint _ _ Hb b x E) as Ens.
  assert (Ers : regions_of (slabs s') (delete b L) = delete b (regions_of (slabs s) L)).
  { unfold regions_of. cbn. rewrite fmap_delete, delete_union. f_equal. rewrite delete_id; [done|]. by rewrite lookup_fmap, Ens. }
  assert (Hk : keeps L s (delete b L) s' (fun a => a <> b)) by by apply (old_region_keeps L s _ s' b (l_pages x) (l_phys x)).
  assert (Hum : forall H' : gset Z, pg_ok (pg s) H' -> frames_at (l_phys x) (l_pages x) ⊆ H' ->
    pg_ok (pg s') (H' ∖ frames_at (l_phys x) (l_pages x)) /\
    forall w, heap_page w -> pg_phys (pg s') w = if decide (within (b, l_pages x * PAGE_SIZE) w) then 0 else pg_phys (pg s) w).
  { intros H' Hpg Hsub. destruct (unmap_pages_spec b (l_pages x) (pg s) H' Hpg ltac:(lia)) as [Hpg1 Hw1]; [right; eapply range_ok_mono; [|exact Hro]; lia|].
    destruct (law_free_n _ _ _ _ Hpg1 Hsub) as [Hsm Hpg2]. split; [exact Hpg2|]. intros w Hw. unfold s'. cbn. rewrite Hsm, Hw1 by done. done. }
  assert (Hb' : base_ok (delete b L) s').
  { constructor; [apply Hb| | |].
    - rewrite Ers. apply (release_region L s b (l_pages x) (l_phys x)); [done|done|intros H' Hpg Hsub; by apply Hum|].
      destruct (so_held _ _ _ _ Hso) as (H' & Hpg & Hin). apply (Hum H' Hpg). intros f Hf. apply Hin. by exists b, (l_pages x), (l_phys x).
    - intros a y [_ Ey]%lookup_delete_Some. by apply (ok_disjoint _ _ Hb a y).
    - intros a y [Hne Ey]%lookup_delete_Some. by apply (keeps_large L s (delete b L) s' a y (fun a => a <> b)). }
  assert (Hl' : lists_ok lst s') by (destruct Hl as [H1 H2 H3 H4]; by constructor).
  split; [done|]. unfold dels. split_and!; [done|done|done|exact (ok_pages _ _ Hl')| |].
  - exists (fun a => a <> b). split; [done|]. intros a n ph q size Hd Hq ->.
    destruct (block_data _ s' Hb' (ok_pages _ _ Hl') q size Hq) as (c & nc & pc & Ec & C1 & C2 & _).
    destruct (block_pos _ s' Hb' (ok_pages _ _ Hl') q size Hq) as (Hpos & _). destruct Hd as (Ea & A1 & A2 & _). rewrite Ers in Ec. apply lookup_delete_Some in Ec as [Hne Ec].
    apply Hne. apply (region_unique _ _ _ _ Hso b n ph c nc pc q); [done|done|..]; unfold within; cbn; lia.
  - intros q m. split.
    + intros Hq. assert (Hq' : block (slabs s) L q m).
      { destruct Hq as [page h k Eh Hk' Hs|a y [_ Ey]%lookup_delete_Some]; [by apply block_object|by apply block_large]. }
      split; [done|]. intros ->. destruct (block_data _ s' Hb' (ok_pages _ _ Hl') _ m Hq) as (c & nc & pc & Ec & C1 & C2 & _).
      destruct (block_pos _ s' Hb' (ok_pages _ _ Hl') _ m Hq) as (Hpos & _). rewrite Ers in Ec. apply lookup_delete_Some in Ec as [Hne Ec].
      apply Hne. apply (region_unique _ _ _ _ Hso b _ _ c nc pc (b + sizeof_large_header) Er Ec); unfold within, sizeof_large_header, PAGE_SIZE in *; cbn; lia.
    + intros [Hq Hne]. destruct Hq as [page h k Eh Hk' Hs|a y Ey]; [by apply block_object|]. apply block_large. rewrite lookup_delete_ne; [done|]. by intros ->.
Qed.

(** ** The checks *)

(** No bytes of a block pass for the header of a large block. *)
Definition genuine L s (ptr : Z) : Prop :=
  load32 s (u64 (ptr - sizeof_large_header)) = Some SLAB_LARGE_MAGIC -> is_Some (L !! (ptr - sizeof_large_header)).

Lemma slab_load8 L s page h j : base_ok L s -> slabs s !! page = Some h -> 0 <= j < PAGE_SIZE ->
  load8 s (page + j) = Some (if j <? sizeof_slab_page then byte_at (slab_page_bytes h) (Z.to_nat j) else mem s (s_phys_addr h + j)).
Proof.
  intros Hb E Hj. destruct (slab_page_facts L s Hb page h E) as ([Hal _] & _ & Hph & Ep). destruct (page_of_add page j Hal Hj) as [E1 E2].
  unfold load8. rewrite E1, E2, Ep, E. by rewrite (proj2 (Z.eqb_neq _ _)) by lia.
Qed.

Lemma slab_load32 L s page h j : base_ok L s -> slabs s !! page = Some h -> 0 <= j <= PAGE_SIZE - 4 -> is_Some (load32 s (page + j)).
Proof.
  intros Hb E Hj. unfold load32. cbn [load_bytes]. rewrite <- !Z.add_assoc. rewrite !(slab_load8 L s page h) by (done || lia). by eexists.
Qed.

Lemma slab_magic L s page h : base_ok L s -> slabs s !! page = Some h -> load32 s page = Some SLAB_MAGIC.
Proof.
  intros Hb E. unfold load32. cbn [load_bytes]. rewrite <- !Z.add_assoc. rewrite <- (Z.add_0_r page) at 1.
  rewrite !(slab_load8 L s page h) by (done || unfold PAGE_SIZE; lia). done.
Qed.

Lemma cache_in_kernel i : (i < SLAB_NUM_CLASSES)%nat -> (cache_addr i <? 0xFFFFFFFF80000000) = false.
Proof. intros Hi. destruct law_caches as [H1 _]. apply Z.ltb_ge. unfold cache_addr, sizeof_slab_cache. lia. Qed.

Lemma object_index h page k : page_ok h -> 0 <= k < s_total_objects h ->
  slab_get_object_index page h (page + sizeof_slab_page + k * s_object_size h) = Some k.
Proof.
  intros Hpk Hk. destruct (page_bounds h Hpk) as (B1 & B2 & B3 & _). unfold slab_get_object_index.
  rewrite (proj2 (Z.ltb_ge _ _)) by nia. replace (page + sizeof_slab_page + k * s_object_size h - (page + sizeof_slab_page)) with (k * s_object_size h) by lia.
  rewrite Z.div_mul, Z_mod_mult by lia. cbn [negb Z.eqb]. rewrite u32_small by lia. by rewrite (proj2 (Z.leb_gt _ _)) by lia.
Qed.

(** The words [slab_free] reads for an object: four bytes in front of it, and its page. *)
Lemma object_words lst L s page h k :
  slab_ok lst L s -> slabs s !! page = Some h -> 0 <= k < s_total_objects h -> bitmap_is_set (s_bitmap h) k = true ->
  let p := page + sizeof_slab_page + k * s_object_size h in
  genuine L s p ->
  (exists v, load32 s (u64 (p - sizeof_large_header)) = Some v /\ v <> SLAB_LARGE_MAGIC) /\ page_of p = page /\
  SLAB_VIRT_BASE < p < slab_next_virt_addr s.
Proof.
  intros Hok E Hk Hs p Hg. pose proof Hok as (Hb & Hl & _). pose proof (slab_pages _ _ _ Hok) as Hp. pose proof (Hp _ _ E) as Hpk.
  destruct (page_bounds h Hpk) as (B1 & B2 & B3 & _). destruct (slab_page_facts L s Hb page h E) as (Hhp & Hnx & Hph & Ep).
  assert (Hbl : block (slabs s) L p (s_object_size h)) by by apply block_object.
  destruct (block_pos L s Hb Hp p _ Hbl) as (_ & Hp0 & Hpn & Hp64). unfold SLAB_VIRT_BASE in Hp0.
  unfold genuine in Hg. rewrite u64_small in * by (unfold sizeof_large_header; lia).
  assert (Hoff : 0 <= p - page < PAGE_SIZE /\ 112 <= p - page) by (unfold p, sizeof_slab_page in *; nia).
  destruct (page_of_add page (p - page) (proj1 Hhp) (proj1 Hoff)) as [Hpo _]. replace (page + (p - page)) with p in Hpo by lia.
  destruct (slab_load32 L s page h (p - sizeof_large_header - page) Hb E) as [v Ev]; [unfold sizeof_large_header; lia|].
  replace (page + (p - sizeof_large_header - page)) with (p - sizeof_large_header) in Ev by lia. split_and!; [|done|unfold SLAB_VIRT_BASE; lia|lia].
  exists v. split; [done|]. intros ->. destruct (Hg Ev) as [x Ex]. destruct (large_facts L s Hb _ x Ex) as (_ & [Hal _] & _).
  assert (p - sizeof_large_header = page) as Eq; [|by rewrite Eq in Ex; rewrite (ok_disjoint _ _ Hb page x Ex) in E].
  destruct Hhp as [Hal' _]. unfold sizeof_large_header, PAGE_SIZE in *. zlia.
Qed.

Lemma free_check_object lst L s page h k :
  slab_ok lst L s -> slabs s !! page = Some h -> 0 <= k < s_total_objects h -> bitmap_is_set (s_bitmap h) k = true ->
  let p := page + sizeof_slab_page + k * s_object_size h in
  genuine L s p -> slab_free_check p s = Some (FObject page (s_cache h) k).
Proof.
  intros Hok E Hk Hs p Hg. pose proof Hok as (Hb & Hl & _). pose proof (slab_pages _ _ _ Hok _ _ E) as Hpk.
  destruct (object_words lst L s page h k Hok E Hk Hs Hg) as ((v & Ev & Hv) & Hpo & Hr). fold p in Ev, Hpo, Hr. unfold SLAB_VIRT_BASE in Hr.
  unfold slab_free_check. rewrite (proj2 (Z.eqb_neq p 0)), (ok_init _ _ Hb), Ev by lia. cbn [negb mbind option_bind].
  rewrite (proj2 (Z.eqb_neq _ _) Hv), (proj2 (Z.ltb_ge _ _)), (proj2 (Z.leb_gt _ _)) by (unfold SLAB_VIRT_BASE; lia). cbn [orb].
  rewrite Hpo, (slab_magic L s page h Hb E), E. cbn [mbind option_bind]. rewrite Z.eqb_refl. cbn [negb].
  rewrite cache_in_kernel by apply Hpk. unfold p. rewrite object_index by done. by rewrite Hs.
Qed.

Lemma free_check_large lst L s b x : slab_ok lst L s -> L !! b = Some x -> slab_free_check (b + sizeof_large_header) s = Some (FLarge b).
Proof.
  intros Hok E. pose proof Hok as (Hb & Hl & _). destruct (large_facts L s Hb b x E) as (_ & [_ Hv] & _). unfold SLAB_VIRT_BASE, SLAB_VIRT_END in Hv.
  unfold slab_free_check. rewrite (proj2 (Z.eqb_neq _ 0)), (ok_init _ _ Hb) by (unfold sizeof_large_header; lia). cbn [negb].
  rewrite Z.add_simpl_r, u64_small by lia. destruct (large_header L s b x Hb E) as (-> & _). done.
Qed.

(** ** [slab_free] *)

Lemma free_count_same lst L s i : slab_ok lst L s -> slab_ok lst L (slab_free_count i s) /\ same L s L (slab_free_count i s).
Proof.
  intros (Hb & Hl & He). assert (Hsame : same L s L (slab_free_count i s)) by (by apply same_core; [|exact (ok_pages _ _ Hl)|..]).
  split; [|done]. split_and!; [apply Hsame|by apply lists_stats, lists_cache|exact He].
Qed.

Lemma free_begin_spec lst L s p n :
  slab_ok lst L s -> block (slabs s) L p n -> genuine L s p ->
  exists s' r lst' L', slab_free_begin p s = Some (s', r) /\ slab_ok lst' L' s' /\ dels L s L' s' p /\
    forall j, lst' (j, None) = match r with Some (i, page) => if decide (j = i) then page :: lst (j, None) else lst (j, None) | None => lst (j, None) end.
Proof.
  intros Hok Hbl Hg. unfold slab_free_begin. inversion Hbl as [page h k E Hk Hs|b x E]; subst.
  - rewrite (free_check_object lst L s page h k Hok E Hk Hs Hg). cbn [mbind option_bind].
    pose proof (free_object_spec lst L s page h k Hok E Hk Hs) as Hf. destruct (slab_free_object page (s_cache h) k s) as [s1 [to_free|]];
      destruct Hf as (lst1 & Hok1 & Hd1 & Hn1); [by eexists _, _, lst1, L|].
    destruct (free_count_same lst1 L s1 (s_cache h) Hok1) as [Hok2 Hs2]. eexists _, _, lst1, L. split_and!; [done|done| |exact Hn1].
    eapply dels_trims; [exact Hd1|by apply same_trims].
  - rewrite (free_check_large lst L s b x Hok E). cbn [mbind option_bind]. destruct (free_large_spec lst L s b x Hok E) as (s' & -> & Hok' & Hd).
    by eexists s', None, lst, (delete b L).
Qed.

Lemma free_end_spec lst L s i l1 page l2 :
  slab_ok lst L s -> lst (i, None) = l1 ++ page :: l2 ->
  slab_ok (put (i, None) (l1 ++ l2) lst) L (slab_free_end i page s) /\ trims L s L (slab_free_end i page s).
Proof.
  intros Hok El. destruct (free_page_spec lst L s i l1 page l2 Hok El) as [Hok1 Ht1].
  destruct (free_count_same _ L _ i Hok1) as [Hok2 Hs2]. split; [exact Hok2|]. eapply trims_trans; [exact Ht1|by apply same_trims].
Qed.

Lemma slab_free_ok lst L s p n :
  slab_ok lst L s -> block (slabs s) L p n -> genuine L s p ->
  exists s' lst' L', slab_free p s = Some s' /\ slab_ok lst' L' s' /\ (forall j, lst' (j, None) = lst (j, None)) /\ dels L s L' s' p.
Proof.
  intros Hok Hbl Hg. destruct (free_begin_spec lst L s p n Hok Hbl Hg) as (s1 & r & lst1 & L1 & E & Hok1 & Hd1 & Hn1).
  unfold slab_free. rewrite E. cbn [mbind option_bind]. destruct r as [[i page]|]; [|by exists s1, lst1, L1].
  destruct (free_end_spec lst1 L1 s1 i [] page (lst (i, None)) Hok1) as [Hok2 Ht2]; [by rewrite Hn1, decide_True|].
  eexists _, _, L1. split_and!; [done|exact Hok2| |by eapply dels_trims]. intros j.
  destruct (decide (j = i)) as [->|Hj]; [by rewrite put_eq|]. by rewrite put_ne, Hn1, decide_False by congruence.
Qed.

(** A pointer that is no allocated block changes nothing. *)
Lemma slab_free_nothing lst L s p s' :
  slab_ok lst L s -> (forall n, ~ block (slabs s) L p n) -> genuine L s p -> slab_free p s = Some s' -> s' = s.
Proof.
  intros Hok Hno Hg. pose proof Hok as (Hb & Hl & _). pose proof (slab_pages _ _ _ Hok) as Hp. unfold slab_free, slab_free_begin, slab_free_check.
  destruct (Z.eqb_spec p 0) as [->|Hp0]; [by intros [= <-]|]. rewrite (ok_init _ _ Hb). cbn [negb].
  unfold genuine in Hg. destruct (load32 s (u64 (p - sizeof_large_header))) as [v|]; [|done]. cbn [mbind option_bind].
  destruct (Z.eqb_spec v SLAB_LARGE_MAGIC) as [->|_].
  { exfalso. destruct (Hg eq_refl) as [x Ex]. apply (Hno (l_size x)). replace p with (p - sizeof_large_header + sizeof_large_header) by lia. by apply block_large. }
  destruct (_ || _); [by intros [= <-]|]. destruct (load32 s (page_of p)) as [v'|]; [|done]. cbn [mbind option_bind].
  destruct (negb _); [by intros [= <-]|]. destruct (slabs s !! page_of p) as [h|] eqn:E; [|done]. cbn [mbind option_bind].
  destruct (_ <? _); [by intros [= <-]|]. destruct (slab_get_object_index (page_of p) h p) as [k|] eqn:Ek; [|by intros [= <-]].
  destruct (bitmap_is_set (s_bitmap h) k) eqn:Es; [exfalso|by intros [= <-]].
  pose proof (Hp _ _ E) as Hpk. destruct (page_bounds h Hpk) as (B1 & B2 & B3 & _). unfold slab_get_object_index in Ek.
  destruct (Z.ltb_spec p (page_of p + sizeof_slab_page)); [done|]. set (off := p - (page_of p + sizeof_slab_page)) in *.
  destruct (Z.eqb_spec (off mod s_object_size h) 0) as [Em|]; [|done]. cbn [negb] in Ek. destruct (page_of_range p) as [Er Hr].
  assert (Hdiv : 0 <= off / s_object_size h < 2 ^ 32).
  { unfold off, sizeof_slab_page, PAGE_SIZE in *. split; [apply Z.div_pos; lia|]. apply Z.div_lt_upper_bound; nia. }
  rewrite u32_small in Ek by done. destruct (Z.leb_spec (s_total_objects h) (off / s_object_size h)); [done|]. injection Ek as <-.
  apply (Hno (s_object_size h)). assert (Eoff : p = page_of p + sizeof_slab_page + off / s_object_size h * s_object_size h).
  { pose proof (Z.div_mod off (s_object_size h) ltac:(lia)). unfold off in *. lia. }
  rewrite Eoff at 1. apply block_object; [done|lia|done].
Qed.

End Free.
