(* ===== verification/SlabCalls.v ===== *)
(** * The calls of the kernel heap

    Writing to a block, [slab_calloc], [slab_realloc], [slab_shrink] and
    [slab_validate], each against the blocks and their contents. *)

From Stdlib Require Import ZArith Lia Bool.
From stdpp Require Import base list gmap.
From S2P Require Import Prelude Wire Pmm Slab SlabParts SlabSpace SlabLists SlabHeap SlabOps SlabAlloc SlabFree.

Open Scope Z_scope.

Section Calls.
Context {P : Type} `{PageLaws P}.
Implicit Types (s : heap P) (L : gmap Z large).

(** ** Writing *)

(** The physical bytes of different blocks are different. *)
Lemma cells_apart L s p n q m a na pa b nb pb y :
  base_ok L s -> pages_ok s -> block (slabs s) L p n -> block (slabs s) L q m -> p <> q -> in_data L s a na pa p n -> in_data L s b nb pb q m ->
  pa + (p - a) <= y < pa + (p - a) + n -> ~ pb + (q - b) <= y < pb + (q - b) + m.
Proof.
  intros Hb Hp Hbp Hbq Hne (Ea & A1 & A2 & _) (Eb & B1 & B2 & _) Hy Hy'.
  pose proof (blocks_apart L s Hb Hp p n q m Hbp Hbq Hne) as Hap. assert (y - pa + a = y - pb + b) as Eq.
  { apply (phys_at_inj _ _ _ _ (ok_space _ _ Hb) _ _ y).
    - exists a, na, pa. split_and!; [done|unfold within; cbn; lia|lia].
    - exists b, nb, pb. split_and!; [done|unfold within; cbn; lia|lia]. }
  unfold apart in Hap. cbn in Hap. lia.
Qed.

Lemma block_header L s p n b x k :
  base_ok L s -> pages_ok s -> block (slabs s) L p n -> L !! b = Some x -> forall a na pa, in_data L s a na pa p n -> 0 <= k < sizeof_large_header ->
  ~ pa + (p - a) <= l_phys x + k < pa + (p - a) + n.
Proof.
  intros Hb Hp Hbl E a na pa (Ea & A1 & A2 & A3) Hk Hy. destruct (large_facts L s Hb b x E) as (Er & _ & Hn & _).
  assert (Hlow : b + k = a + (l_phys x + k - pa)).
  { apply (phys_at_inj _ _ _ _ (ok_space _ _ Hb) _ _ (l_phys x + k)).
    - exists b, (l_pages x), (l_phys x). split_and!; [done|unfold within, sizeof_large_header, PAGE_SIZE in *; cbn; lia|lia].
    - exists a, na, pa. split_and!; [done|unfold within; cbn; lia|lia]. }
  assert (b = a) as ->.
  { apply (region_unique _ _ _ _ (ok_space _ _ Hb) _ _ _ _ _ _ (b + k) Er Ea); [unfold within, sizeof_large_header, PAGE_SIZE in *; cbn; lia|].
    unfold within. cbn. lia. }
  inversion Hbl as [page h j Eh Hj Hs|c z Ez]; subst.
  - destruct (page_bounds h (Hp _ _ Eh)) as (B1 & B2 & B3 & _). assert (page = a) as ->.
    { apply (region_unique _ _ _ _ (ok_space _ _ Hb) _ _ _ _ _ _ (page + sizeof_slab_page + j * s_object_size h) (region_slab _ L _ _ Eh) Ea);
        unfold within, sizeof_slab_page, PAGE_SIZE in *; cbn; nia. }
    by rewrite (ok_disjoint _ _ Hb a x E) in Eh.
  - destruct (large_facts L s Hb c z Ez) as (Ec & _ & Hnc & _). pose proof (lk_size _ _ (ok_large _ _ Hb c z Ez)) as [Hz1 Hz2].
    unfold sizeof_large_header, SLAB_MAX_SIZE in *. assert (c = a) as ->.
    { apply (region_unique _ _ _ _ (ok_space _ _ Hb) _ _ _ _ _ _ (c + 24) Ec Ea); unfold within; cbn; lia. }
    rewrite Er in Ec. injection Ec as _ Eph. lia.
Qed.

(** A client writes within its block. *)
Lemma write_ok lst L s p n off bs :
  slab_ok lst L s -> block (slabs s) L p n -> 0 <= off -> off + Z.of_nat (length bs) <= n ->
  let s' := store_bytes (p + off) bs s in
  slab_ok lst L s' /\ slabs s' = slabs s /\ forall A old, rel s L A -> A !! p = Some old -> rel s' L (<[p := write_at (Z.to_nat off) bs old]> A).
Proof.
  intros (Hb & Hl & He) Hbl Hoff Hlen s'. pose proof (ok_pages _ _ Hl) as Hp. destruct (block_data L s Hb Hp p n Hbl) as (a & na & pa & Hd).
  pose proof Hd as (Ea & A1 & A2 & A3).
  destruct (store_bytes_spec _ _ _ s (p + off) bs a na pa (ok_space _ _ Hb) Ea ltac:(lia) ltac:(lia)) as (f & Es & Hf).
  unfold s'. rewrite Es. clear s' Es. set (s' := set_mem f s).
  assert (Hb' : base_ok L s').
  { destruct Hb as [H1 H2 H3 H4]. constructor; try done. intros b x E. destruct (H4 b x E) as [Hs Hh]. constructor; [done|]. intros k Hk.
    unfold s'. cbn [mem set_mem]. rewrite Hf, decide_False; [by apply Hh|]. pose proof (block_header L s p n b x k ltac:(by constructor) Hp Hbl E a na pa Hd Hk). lia. }
  assert (Hok' : slab_ok lst L s') by (split_and!; [done|by destruct Hl as [H1 H2 H3 H4]; constructor|done]).
  split_and!; [done|done|]. intros A old HA Eo q cs.
  assert (Hself : forall q b nb pb m, block (slabs s) L q (Z.of_nat m) -> in_data L s b nb pb q (Z.of_nat m) ->
    load_bytes s' q m = Some ((fun j => f (pb + (q - b) + Z.of_nat j)) <$> seq 0 m)).
  { intros q' b nb pb m Hq Hdq. pose proof (load_bytes_data L s' Hb' b nb pb q' (Z.of_nat m) 0 m Hdq ltac:(lia) ltac:(lia)) as E. by rewrite Z.add_0_r in E. }
  apply HA in Eo as [Ho Eo]. pose proof (blocks_same L s p n _ Hb Hp Hbl Ho) as Hn.
  subst n. assert (Eold : load_bytes s p (length old) = Some ((fun j => mem s (pa + (p - a) + Z.of_nat j)) <$> seq 0 (length old))).
  { pose proof (load_bytes_data L s Hb a na pa p _ 0 (length old) Hd ltac:(lia) ltac:(lia)) as E. by rewrite Z.add_0_r in E. }
  rewrite Eold in Eo. injection Eo as Eo. destruct (decide (q = p)) as [->|Hne].
  - rewrite lookup_insert_eq. change (slabs s') with (slabs s). set (w := write_at (Z.to_nat off) bs old).
    assert (Hw : length w = length old) by apply length_write_at. assert (Ew : load_bytes s' p (length old) = Some w).
    { rewrite (Hself p a na pa (length old) Hbl Hd). f_equal. apply list_eq. intros j. unfold w. rewrite lookup_write_at by lia.
      destruct (decide (j < length old)%nat) as [Hj|Hj].
      - rewrite list_lookup_fmap, lookup_seq_lt by done. cbn [fmap option_fmap option_map]. rewrite Hf.
        destruct (decide (Z.to_nat off <= j < Z.to_nat off + length bs)%nat) as [D|D].
        + rewrite decide_True by lia. unfold byte_at. replace (Z.to_nat _) with (j - Z.to_nat off)%nat by lia.
          destruct (lookup_lt_is_Some_2 bs (j - Z.to_nat off)) as [v ->]; [lia|done].
        + rewrite decide_False by lia. rewrite <- Eo, list_lookup_fmap, lookup_seq_lt by done. done.
      - rewrite (lookup_ge_None_2 (_ <$> _)) by (rewrite length_fmap, length_seq; lia). rewrite decide_False by lia. symmetry. apply lookup_ge_None_2. lia. }
    split.
    + intros [= <-]. rewrite Hw. done.
    + intros [Hq Hlq]. apply (blocks_same L s p _ _ Hb Hp Hbl) in Hq. assert (length cs = length old) as Ec by lia. rewrite Ec, Ew in Hlq. congruence.
  - rewrite lookup_insert_ne by done. rewrite (HA q cs). change (slabs s') with (slabs s).
    assert (E : block (slabs s) L q (Z.of_nat (length cs)) -> load_bytes s' q (length cs) = load_bytes s q (length cs)).
    { intros Hq. destruct (block_data L s Hb Hp q _ Hq) as (b & nb & pb & Hdq). rewrite (Hself q b nb pb (length cs) Hq Hdq).
      pose proof (load_bytes_data L s Hb b nb pb q _ 0 (length cs) Hdq ltac:(lia) ltac:(lia)) as Eq. rewrite Z.add_0_r in Eq. rewrite Eq. f_equal.
      apply list_fmap_ext. intros j x [-> Hj]%lookup_seq. rewrite Hf, decide_False; [done|].
      pose proof (cells_apart L s q _ p _ b nb pb a na pa (pb + (q - b) + Z.of_nat (0 + j)) Hb Hp Hq Hbl Hne Hdq Hd). lia. }
    split; intros [H1 H2]; (split; [done|]); rewrite <- H2; [|symmetry]; by apply E.
Qed.

(** ** [slab_calloc] *)

Lemma slab_calloc_ok lst L s count size :
  slab_ok lst L s -> 0 <= count * size < 2 ^ 30 ->
  let '(s', p) := slab_calloc count size s in
  exists lst' L', slab_ok lst' L' s' /\ (forall j, lst' (j, None) = lst (j, None)) /\
  forall A, rel s L A ->
    (p = 0 /\ rel s' L' A) \/
    (p <> 0 /\ A !! p = None /\ exists bs, Z.of_nat (length bs) = capacity (count * size) /\
     read_at 0 (Z.to_nat (count * size)) bs = replicate (Z.to_nat (count * size)) 0 /\ rel s' L' (<[p := bs]> A)).
Proof.
  intros Hok Hsz. unfold slab_calloc. rewrite u64_small by lia. set (n := count * size) in *.
  pose proof (slab_alloc_ok lst L s n Hok Hsz) as Ha. destruct (slab_alloc n s) as [s1 p]. destruct Ha as (lst' & L' & Hok1 & Hn1 & Hc).
  destruct (Z.eqb_spec p 0) as [->|Hp0].
  { exists lst', L'. split_and!; [done|done|]. intros A HA. left. split; [done|]. destruct Hc as [[_ Hs]|[? _]]; [|done]. by eapply same_rel. }
  destruct Hc as [[? _]|(_ & Hpos & Hadds)]; [done|]. pose proof (capacity_le n Hpos) as Hcap.
  assert (Hbl : block (slabs s1) L' p (capacity n)) by (destruct Hadds as (_ & _ & _ & _ & _ & _ & Hbl); apply Hbl; by right).
  destruct (write_ok lst' L' s1 p (capacity n) 0 (replicate (Z.to_nat n) 0) Hok1 Hbl ltac:(lia) ltac:(rewrite length_replicate; lia)) as (Hok2 & _ & Hrel).
  rewrite Z.add_0_r in *. exists lst', L'. split_and!; [done|done|]. intros A HA. right.
  destruct (adds_rel L s L' s1 p _ A Hadds HA) as (En & bs & Hl & _ & HA1).
  specialize (Hrel _ bs HA1 ltac:(by rewrite lookup_insert_eq)). rewrite insert_insert_eq in Hrel. split_and!; [done|done|].
  pose proof (read_write_at (Z.to_nat 0) (replicate (Z.to_nat n) 0) bs) as Hrw. rewrite length_replicate in Hrw.
  eexists. split_and!; [|apply Hrw; lia|exact Hrel]. by rewrite length_write_at.
Qed.

(** ** [slab_realloc] *)

Lemma load_bytes_take s p k bs : (k <= length bs)%nat -> load_bytes s p (length bs) = Some bs -> load_bytes s p k = Some (take k bs).
Proof.
  revert p bs. induction k as [|k IH]; intros p bs Hk E; [by rewrite take_0|]. destruct bs as [|b bs]; [cbn in Hk; lia|].
  cbn [length load_bytes] in *. destruct (load8 s p) as [v|]; [|done]. destruct (load_bytes s (p + 1) (length bs)) as [l|] eqn:El; [|done].
  injection E as -> ->. by rewrite (IH (p + 1) bs) by (done || lia).
Qed.

Lemma class_of_class i : (i < SLAB_NUM_CLASSES)%nat -> slab_get_size_class (class_size i) = Some i.
Proof. unfold SLAB_NUM_CLASSES. intros Hi. do 7 (destruct i as [|i]; [done|]). lia. Qed.

Lemma dseg_prev m x n pv l : forall prev p e p', dseg m prev p l e p' -> x ∈ l -> links m x = Some (n, pv) -> pv = prev \/ exists y, y ∈ l /\ pv = Some y.
Proof.
  induction l as [|z l IH]; intros prev p e p' Hd Hx E; [by apply elem_of_nil in Hx|]. cbn [dseg] in Hd. destruct Hd as (_ & n' & En & Hd).
  apply elem_of_cons in Hx as [->|Hx]; [left; congruence|]. destruct (IH _ _ _ _ Hd Hx E) as [->|(y & Hy & ->)]; right; eexists; split; set_solver.
Qed.

(** The links of a page are addresses of pages. *)
Lemma prev_aligned lst L s page h : slab_ok lst L s -> slabs s !! page = Some h -> pointer (s_prev h) mod PAGE_SIZE = 0.
Proof.
  intros (Hb & Hl & _) E. pose proof (ok_linked _ _ Hl) as Hk. destruct (proj1 (li_all _ _ _ Hk page) ltac:(by rewrite E)) as ([i w] & Hx).
  assert (El : links (slabs s) page = Some (s_next h, s_prev h)) by (unfold links; by rewrite E). destruct w as [w|].
  - pose proof (li_idx _ _ _ Hk i w page Hx) as Hi. rewrite <- (li_len _ _ _ Hk) in Hi. apply lookup_lt_is_Some_2 in Hi as [c Ec].
    destruct (li_dll _ _ _ Hk i c w Ec) as [e Hd]. destruct (dseg_prev _ _ _ _ _ _ _ _ _ Hd Hx El) as [->|(y & Hy & ->)]; [done|].
    destruct (proj2 (li_all _ _ _ Hk y) ltac:(by exists (i, Some w))) as [h' Eh']. by destruct (slab_page_facts L s Hb y h' Eh') as ([Hal _] & _).
  - destruct (li_flight _ _ _ Hk i page Hx) as [n En]. rewrite El in En. by injection En as _ ->.
Qed.

Lemma prev_byte h : length (s_bitmap h) = 8%nat -> byte_at (slab_page_bytes h) 88 = pointer (s_prev h) mod 2 ^ 32 mod 256.
Proof. intros Hl. unfold slab_page_bytes. destruct (s_bitmap h) as [|? [|? [|? [|? [|? [|? [|? [|? [|? ?]]]]]]]]]; try done. Qed.

(** The first object of a page never passes for a large block: the word in front of
    it is half of a pointer to a page. *)
Lemma genuine_first lst L s page h : slab_ok lst L s -> slabs s !! page = Some h -> genuine L s (page + sizeof_slab_page).
Proof.
  intros Hok E Hm. exfalso. pose proof (prev_aligned lst L s page h Hok E) as Hal0. destruct Hok as (Hb & Hl & _).
  pose proof (pk_bitmap _ (ok_pages _ _ Hl _ _ E)) as [Hbm _].
  destruct (slab_page_facts L s Hb page h E) as ([Hal Hv] & _ & Hph & _).
  unfold sizeof_slab_page, sizeof_large_header, SLAB_VIRT_BASE, SLAB_VIRT_END in *. rewrite u64_small in Hm by lia.
  replace (page + 112 - 24) with (page + 88) in Hm by lia. unfold load32 in Hm. cbn [load_bytes] in Hm.
  rewrite <- !Z.add_assoc in Hm. rewrite !(slab_load8 L s page h) in Hm by (done || unfold PAGE_SIZE; lia).
  cbn -[slab_page_bytes SLAB_LARGE_MAGIC] in Hm. apply (inj Some) in Hm. unfold ld32 in Hm.
  change (Pos.to_nat 88) with 88%nat in Hm. rewrite prev_byte in Hm by done.
  unfold SLAB_LARGE_MAGIC, PAGE_SIZE in *. generalize dependent (pointer (s_prev h)). intros v Hm Hv0.
  assert (v mod 2 ^ 32 mod 256 = 0) as Hz by zlia. rewrite Hz in Hm.
  match type of Hm with context [byte_at (0 :: ?l) 0%nat] => change (byte_at (0 :: l) 0%nat) with 0 in Hm end. clear -Hm. lia.
Qed.

(** The region of a block of a slab page is the page. *)
Lemma object_region L s page h q n a na pa :
  base_ok L s -> pages_ok s -> slabs s !! page = Some h -> block (slabs s) L q n -> in_data L s a na pa q n -> a = page -> n = s_object_size h.
Proof.
  intros Hb Hp E Hbl (Ea & A1 & A2 & A3) ->. inversion Hbl as [page' h' k' E' Hk' _|b x Ex]; subst.
  - destruct (page_bounds h' (Hp _ _ E')) as (B1 & B2 & B3 & _). assert (page' = page) as ->; [|congruence].
    apply (region_unique _ _ _ _ (ok_space _ _ Hb) _ _ _ _ _ _ (page' + sizeof_slab_page + k' * s_object_size h') (region_slab _ L _ _ E') Ea);
      unfold within, sizeof_slab_page, PAGE_SIZE in *; cbn; nia.
  - destruct (large_facts L s Hb b x Ex) as (Er & _). pose proof (lk_size _ _ (ok_large _ _ Hb b x Ex)) as Hz.
    assert (b = page) as ->; [|by rewrite (ok_disjoint _ _ Hb page x Ex) in E].
    apply (region_unique _ _ _ _ (ok_space _ _ Hb) _ _ _ _ _ _ (b + sizeof_large_header) Er Ea);
      unfold within, sizeof_large_header, SLAB_MAX_SIZE in *; cbn; lia.
Qed.

(** Writing to a block leaves the bytes of other regions alone. *)
Lemma store_apart L s p n bs b nb pb q m k :
  base_ok L s -> pages_ok s -> base_ok L (store_bytes p bs s) -> block (slabs s) L p n -> Z.of_nat (length bs) <= n ->
  (forall a na pa, in_data L s a na pa p n -> a <> b) -> in_data L s b nb pb q m -> Z.of_nat k <= m ->
  load_bytes (store_bytes p bs s) q k = load_bytes s q k.
Proof.
  intros Hb Hp Hb' Hbl Hlen Hne Hd Hk. destruct (block_data L s Hb Hp p n Hbl) as (a & na & pa & Hda). pose proof Hda as (Ea & A1 & A2 & _).
  destruct (store_bytes_spec _ _ _ s p bs a na pa (ok_space _ _ Hb) Ea ltac:(lia) ltac:(lia)) as (f & Es & Hf). rewrite Es in *.
  pose proof (load_bytes_data L s Hb b nb pb q m 0 k Hd ltac:(lia) ltac:(lia)) as E.
  pose proof (load_bytes_data L (set_mem f s) Hb' b nb pb q m 0 k Hd ltac:(lia) ltac:(lia)) as E'. rewrite Z.add_0_r in *.
  rewrite E, E'. f_equal. apply list_fmap_ext. intros j x Hj%lookup_seq. cbn [mem set_mem]. rewrite Hf, decide_False; [done|].
  destruct Hd as (Eb & B1 & B2 & _). intros Hy. pose proof (Hne _ _ _ Hda) as Hab.
  assert (a + (pb + (q - b) + Z.of_nat x - pa) = q + Z.of_nat x) as Eq.
  { apply (phys_at_inj _ _ _ _ (ok_space _ _ Hb) _ _ (pb + (q - b) + Z.of_nat x)).
    - exists a, na, pa. split_and!; [done|unfold within; cbn; lia|lia].
    - exists b, nb, pb. split_and!; [done|unfold within; cbn; lia|lia]. }
  apply Hab, (region_unique _ _ _ _ (ok_space _ _ Hb) _ _ _ _ _ _ (q + Z.of_nat x) Ea Eb); unfold within; cbn; lia.
Qed.

(** Whether the word in front of block [p] passes for a header does not depend on
    what is written to a new block of another size. *)
Lemma genuine_store lst L s L1 s1 q cap bs p n :
  slab_ok lst L1 (store_bytes q bs s1) -> adds L s L1 s1 q cap -> slabs (store_bytes q bs s1) = slabs s1 ->
  block (slabs s) L p n -> n <> cap \/ SLAB_MAX_SIZE < n -> Z.of_nat (length bs) <= cap -> genuine L s p -> genuine L1 (store_bytes q bs s1) p.
Proof.
  intros Hok2 (Hb & Hp & Hb1 & Hp1 & Hk & _ & Hbl1) Es Hbl Hn Hlen Hg.
  assert (Hp2 : block (slabs s1) L1 p n) by (apply Hbl1; by left).
  assert (Hq : block (slabs s1) L1 q cap) by (apply Hbl1; by right).
  inversion Hp2 as [page h k Eh Hkb Hs Epk En|b x Ex Eb En]; [|intros _; exists x; by replace (b + _ - _) with b by lia].
  rewrite <- Es in Eh. destruct (decide (k = 0)) as [->|Hk0].
  { rewrite Z.mul_0_l, Z.add_0_r. by eapply genuine_first. }
  rewrite Es in Eh. pose proof (Hp1 _ _ Eh) as Hpk. destruct (page_bounds h Hpk) as (B1 & B2 & B3 & _).
  rewrite Epk. destruct (block_data L s Hb Hp p n Hbl) as (a & na & pa & Ea & A1 & A2 & A3). destruct (Hk a na pa Ea I) as (Ea1 & Ha1 & _).
  destruct (block_pos L1 s1 Hb1 Hp1 p n Hp2) as (_ & Hlow & _ & Hup). pose proof (region_slab _ L1 _ _ Eh) as Er.
  assert (a = page) as ->.
  { apply (region_unique _ _ _ _ (ok_space _ _ Hb1) _ _ _ _ _ _ p Ea1 Er); unfold within, sizeof_slab_page, PAGE_SIZE in *; cbn; nia. }
  rewrite Er in Ea1. injection Ea1 as <- <-. destruct (A3 ltac:(by apply Ha1)) as [_ Hhdr].
  set (x := p - sizeof_large_header) in *. unfold SLAB_VIRT_BASE in Hlow.
  assert (Hx : page + sizeof_slab_page < x /\ x + 4 <= page + PAGE_SIZE) by (unfold x, sizeof_large_header, sizeof_slab_page, PAGE_SIZE in *; nia).
  assert (Hd : in_data L s page 1 (s_phys_addr h) x 4) by (unfold in_data, sizeof_slab_page in *; split_and!; try done; try lia; intros _; lia).
  assert (Hd1 : in_data L1 s1 page 1 (s_phys_addr h) x 4) by (unfold in_data, sizeof_slab_page in *; split_and!; try done; try lia; intros _; lia).
  intros Hm. unfold genuine, load32 in *. fold x in Hm, Hg.
  assert (Ex : u64 x = x) by (apply u64_small; unfold x, sizeof_large_header; lia). rewrite Ex in Hm, Hg. fold x.
  rewrite (store_apart L1 s1 q cap bs page 1 (s_phys_addr h) x 4 4), (keeps_load L s L1 s1 _ page 1 (s_phys_addr h) x 4 4 Hb Hb1 Hk Hd I) in Hm;
    try done; try lia; [|apply Hok2|].
  - exfalso. destruct (Hg Hm) as [y Ey]. destruct (large_facts L s Hb x y Ey) as (_ & [Hal _] & _).
    destruct (slab_page_facts L1 s1 Hb1 page h Eh) as ([Hal' _] & _). unfold sizeof_slab_page, PAGE_SIZE in *. zlia.
  - intros a na pa Ha ->. pose proof (object_region L1 s1 page h q cap page na pa Hb1 Hp1 Eh Hq Ha eq_refl). unfold SLAB_MAX_SIZE in Hn. lia.
Qed.

Lemma old_size_spec lst L s p n : slab_ok lst L s -> block (slabs s) L p n -> genuine L s p -> slab_old_size p s = Some (Some n).
Proof.
  intros Hok Hbl Hg. pose proof Hok as (Hb & Hl & _). unfold slab_old_size. inversion Hbl as [page h k E Hk Hs|b x Ex]; subst.
  - destruct (object_words lst L s page h k Hok E Hk Hs Hg) as ((v & Ev & Hv) & Hpo & _). rewrite Ev. cbn [mbind option_bind].
    rewrite (proj2 (Z.eqb_neq _ _) Hv), Hpo, (slab_magic L s page h Hb E). cbn [mbind option_bind]. by rewrite Z.eqb_refl, E.
  - destruct (large_header L s b x Hb Ex) as (E1 & _ & E2 & _). destruct (large_facts L s Hb b x Ex) as (_ & [_ Hv] & _).
    replace (b + sizeof_large_header - sizeof_large_header) with b by lia. unfold SLAB_VIRT_BASE, SLAB_VIRT_END in Hv.
    rewrite u64_small, E1 by lia. cbn [mbind option_bind]. by rewrite Z.eqb_refl, E2.
Qed.

(** A new block of the size of the old one means that the request was in its class. *)
Lemma capacity_ne n size : 0 < size ->
  (size <=? n) && (match slab_get_size_class n, slab_get_size_class size with Some a, Some b => (a =? b)%nat | _, _ => false end ||
                   ((SLAB_MAX_SIZE <? n) && (SLAB_MAX_SIZE <? size))) = false ->
  n <> capacity size \/ SLAB_MAX_SIZE < n.
Proof.
  intros Hpos Hf. destruct (decide (SLAB_MAX_SIZE < n)) as [|Hn]; [by right|]. left. intros ->.
  pose proof (capacity_le size Hpos) as Hc. unfold capacity in *. destruct (size_class_spec size) as (i & Ei & Hi & _).
  { destruct (slab_get_size_class size) as [i|] eqn:Ei; lia. }
  rewrite Ei in *. rewrite class_of_class in Hf by done. by rewrite Nat.eqb_refl, (proj2 (Z.leb_le _ _) Hc) in Hf.
Qed.

Lemma slab_realloc_ok lst L s p old size :
  slab_ok lst L s -> forall A, rel s L A -> A !! p = Some old -> genuine L s p -> 0 < size < 2 ^ 30 ->
  exists s' q lst' L', slab_realloc p size s = Some (s', q) /\ slab_ok lst' L' s' /\ (forall j, lst' (j, None) = lst (j, None)) /\
  ((q = 0 /\ rel s' L' A) \/
   (q = p /\ s' = s /\ L' = L /\ size <= Z.of_nat (length old)) \/
   (q <> 0 /\ A !! q = None /\ exists bs, size <= Z.of_nat (length bs) /\
    read_at 0 (Nat.min (length old) (Z.to_nat size)) bs = take (Nat.min (length old) (Z.to_nat size)) old /\
    rel s' L' (<[q := bs]> (delete p A)))).
Proof.
  intros Hok A HA Ep Hg Hsz. pose proof Hok as (Hb & Hl & _). pose proof (slab_pages _ _ _ Hok) as Hp. pose proof Ep as [Hbl Hld]%HA.
  set (n := Z.of_nat (length old)) in *. destruct (block_pos L s Hb Hp p n Hbl) as (Hn0 & Hp0 & _). unfold SLAB_VIRT_BASE in Hp0.
  unfold slab_realloc. rewrite (proj2 (Z.eqb_neq p 0)), (proj2 (Z.eqb_neq size 0)) by lia.
  rewrite (old_size_spec lst L s p n Hok Hbl Hg). cbn [mbind option_bind].
  destruct ((size <=? n) && _) eqn:Ec.
  { exists s, p, lst, L. split_and!; try done. right. left. split_and!; try done. by apply andb_true_iff in Ec as [?%Z.leb_le _]. }
  apply capacity_ne in Ec; [|lia]. pose proof (slab_alloc_ok lst L s size Hok ltac:(lia)) as Ha.
  destruct (slab_alloc size s) as [s1 q]. destruct Ha as (lst1 & L1 & Hok1 & Hn1 & Hc). destruct (Z.eqb_spec q 0) as [->|Hq0].
  { exists s1, 0, lst1, L1. split_and!; try done. left. split; [done|]. destruct Hc as [[_ Hs]|[? _]]; [|done]. by eapply same_rel. }
  destruct Hc as [[? _]|(_ & Hpos & Hadds)]; [done|]. pose proof (capacity_le size Hpos) as Hcap.
  assert (Hbl1 : block (slabs s1) L1 q (capacity size)) by (destruct Hadds as (_ & _ & _ & _ & _ & _ & Hbs); apply Hbs; by right).
  destruct (adds_rel L s L1 s1 q _ A Hadds HA) as (En & bs & Hlen & _ & HA1).
  assert (q <> p) as Hqp by (intros ->; by rewrite En in Ep).
  assert (E1 : load_bytes s1 p (length old) = Some old) by (apply HA1; by rewrite lookup_insert_ne).
  set (k := Nat.min (length old) (Z.to_nat size)). replace (Z.to_nat (Z.min n size)) with k by (unfold n, k; lia).
  rewrite (load_bytes_take s1 p k old) by (done || unfold k; lia). cbn [mbind option_bind].
  assert (Hk : length (take k old) = k) by (rewrite length_take; unfold k; lia).
  destruct (write_ok lst1 L1 s1 q (capacity size) 0 (take k old) Hok1 Hbl1 ltac:(lia) ltac:(unfold k in *; lia)) as (Hok2 & Es2 & Hrel).
  rewrite Z.add_0_r in *. specialize (Hrel _ bs HA1 ltac:(by rewrite lookup_insert_eq)). rewrite insert_insert_eq in Hrel.
  assert (Hbl2 : block (slabs (store_bytes q (take k old) s1)) L1 p n).
  { rewrite Es2. destruct Hadds as (_ & _ & _ & _ & _ & _ & Hbs). apply Hbs. by left. }
  pose proof (genuine_store lst1 L s L1 s1 q _ (take k old) p n Hok2 Hadds Es2 Hbl Ec ltac:(unfold k in *; lia) Hg) as Hg2.
  destruct (slab_free_ok lst1 L1 _ p n Hok2 Hbl2 Hg2) as (s3 & lst3 & L3 & -> & Hok3 & Hn3 & Hdel). cbn [mbind option_bind].
  exists s3, q, lst3, L3. split_and!; [done|done|intros j; by rewrite Hn3|]. right. right. split_and!; [done|done|].
  pose proof (dels_rel _ _ _ _ p _ Hdel Hrel) as HA3. rewrite delete_insert_ne in HA3 by done.
  pose proof (read_write_at (Z.to_nat 0) (take k old) bs ltac:(unfold k in *; lia)) as Hrw. rewrite Hk in Hrw.
  eexists. split_and!; [|exact Hrw|exact HA3]. rewrite length_write_at. lia.
Qed.

(** ** [slab_shrink] *)

Lemma trims_refl lst L s : slab_ok lst L s -> trims L s L s.
Proof. intros (Hb & Hl & _). by apply same_trims, (same_core L s s Hb (ok_pages _ _ Hl)). Qed.

Lemma shrink_cache_ok i fuel : (i < SLAB_NUM_CLASSES)%nat -> forall lst L s, slab_ok lst L s ->
  let s' := shrink_cache fuel i s in
  exists lst', slab_ok lst' L s' /\ trims L s L s' /\ (forall j, lst' (j, None) = lst (j, None)) /\
    (forall j, j <> i -> lst' (j, Some Empty) = lst (j, Some Empty)) /\
    (length (lst' (i, Some Empty)) <= Nat.max 1 (length (lst (i, Some Empty)) - fuel))%nat.
Proof.
  intros Hi. pose proof trims_refl as Hrefl.
  induction fuel as [|fuel IH]; intros lst L s Hok; cbn [shrink_cache].
  { exists lst. split_and!; eauto. lia. }
  pose proof Hok as (Hb & Hl & He). destruct (cache_some lst s i Hl Hi) as (c & Ec & Hdl & _ & _). rewrite Ec.
  pose proof (ok_caches _ _ Hl i c Ec) as Ecf. unfold cfg in Ecf. injection Ecf as _ _ Ecnt. specialize (Hdl Empty).
  pose proof (He i) as Hlen. destruct (lst (i, Some Empty)) as [|page l] eqn:El; cbn [length] in *.
  { apply dll_nil in Hdl. cbn in Hdl. rewrite Hdl. exists lst. split_and!; eauto. rewrite El. cbn. lia. }
  pose proof (proj1 (dll_head _ _ _ _ Hdl)) as Eh. cbn in Eh. rewrite Eh, Ecnt.
  destruct (Z.ltb_spec 1 (Z.of_nat (S (length l)))) as [Hgt|Hle]; [|exists lst; split_and!; eauto; rewrite El; cbn; lia].
  destruct (pop_ok lst L s i page l Hb Hl El ltac:(lia)) as (Hl1 & Hs1 & E1 & E2 & E3).
  set (lst1 := moved _ _ _ _ _) in *. generalize dependent (slab_pop page i s). intros s1 Hl1 Hs1.
  assert (Hok1 : slab_ok lst1 L s1).
  { split_and!; [apply Hs1|done|]. intros j. destruct (decide (j = i)) as [->|Hj]; [rewrite E1; lia|]. rewrite E3 by done. apply He. }
  destruct (free_page_spec lst1 L s1 i [] page (lst (i, None)) Hok1 E2) as [Hok2 Ht2]. cbn [app] in Hok2.
  destruct (IH _ L _ Hok2) as (lst' & Hok' & Ht' & Hn' & He' & Hle'). exists lst'. split_and!; [done| | | |].
  - eapply trims_trans; [by apply same_trims|]. by eapply trims_trans.
  - intros j. rewrite Hn'. destruct (decide (j = i)) as [->|Hj]; [by rewrite put_eq|]. by rewrite put_ne, E3 by congruence.
  - intros j Hj. rewrite He', put_ne, E3 by congruence. done.
  - rewrite put_ne, E1 in Hle' by congruence. cbn. lia.
Qed.

Lemma slab_shrink_ok lst L s : slab_ok lst L s ->
  exists lst', slab_ok lst' L (slab_shrink s) /\ trims L s L (slab_shrink s) /\ (forall j, lst' (j, None) = lst (j, None)) /\
    forall i, (i < SLAB_NUM_CLASSES)%nat -> (length (lst' (i, Some Empty)) <= 1)%nat.
Proof.
  intros Hok. unfold slab_shrink. enough (Hn : forall n, (n <= SLAB_NUM_CLASSES)%nat -> forall s', foldl (fun s i =>
    shrink_cache (Z.to_nat (default 0 (empty_slab_count <$> slab_caches s !! i))) i s) s (seq 0 n) = s' ->
    exists lst', slab_ok lst' L s' /\ trims L s L s' /\ (forall j, lst' (j, None) = lst (j, None)) /\ forall i, (i < n)%nat -> (length (lst' (i, Some Empty)) <= 1)%nat).
  { by apply (Hn SLAB_NUM_CLASSES). }
  induction n as [|n IH]; intros Hn s' <-.
  { exists lst. split_and!; try done; [by eapply trims_refl|lia]. }
  rewrite seq_S, foldl_app, Nat.add_0_l. cbn [foldl]. specialize (IH ltac:(lia) _ eq_refl). destruct IH as (lst1 & Hok1 & Ht1 & Hn1 & Hle1).
  generalize dependent (foldl (fun s i => shrink_cache (Z.to_nat (default 0 (empty_slab_count <$> slab_caches s !! i))) i s) s (seq 0 n)).
  intros s1 Hok1 Ht1. pose proof Hok1 as (_ & Hl1 & _). destruct (cache_some lst1 s1 n Hl1 ltac:(lia)) as (c & Ec & Hdl).
  pose proof (ok_caches _ _ Hl1 n c Ec) as Ecf. unfold cfg in Ecf. injection Ecf as _ _ Ecnt. rewrite Ec. cbn [fmap option_fmap option_map default].
  destruct (shrink_cache_ok n (Z.to_nat (empty_slab_count c)) ltac:(lia) lst1 L s1 Hok1) as (lst2 & Hok2 & Ht2 & Hn2 & He2 & Hle2).
  exists lst2. split_and!; [done|by eapply trims_trans|intros j; by rewrite Hn2|]. intros i Hi.
  destruct (decide (i = n)) as [->|Hne]; [lia|]. rewrite He2 by done. apply Hle1. lia.
Qed.

(** ** [slab_validate] *)

Lemma validate_list_ok s ok : forall fuel l prev p e,
  dseg (slabs s) prev p l e None -> (length l <= fuel)%nat -> (forall x h, x ∈ l -> slabs s !! x = Some h -> ok h = true) ->
  validate_list fuel ok p s = true.
Proof.
  induction fuel as [|fuel IH]; intros l prev p e Hd Hl Hk; (destruct l as [|x l]; [destruct Hd as [_ ->]; done|]); cbn [length] in Hl; [lia|].
  cbn [dseg] in Hd. destruct Hd as (-> & n & En & Hd). cbn [validate_list]. unfold links in En.
  destruct (slabs s !! x) as [h|] eqn:E; [|done]. injection En as <- _. rewrite (Hk x h) by (done || left). cbn [andb].
  apply (IH l _ _ _ Hd); [lia|]. intros y h' Hy. apply Hk. by right.
Qed.

Lemma list_fits cs m lst k : linked cs m lst -> (length (lst k) <= S (size m))%nat.
Proof.
  intros Hl. assert (Hsz : size (list_to_set (lst k) : gset Z) = length (lst k)) by (apply size_list_to_set, Hl).
  rewrite <- Hsz, <- size_dom. apply le_S, subseteq_size. intros x Hx%elem_of_list_to_set. apply elem_of_dom, (li_all _ _ _ Hl). by exists k.
Qed.

Lemma slab_validate_true lst L s : slab_ok lst L s -> slab_validate s = true.
Proof.
  intros (Hb & Hl & _). unfold slab_validate. apply forallb_forall. intros c [i Ec]%list_elem_of_In%list_elem_of_lookup_1.
  pose proof (ok_linked _ _ Hl) as Hk. assert (Hv : forall w ok,
    (forall h, page_ok h -> kind (i, Some w) h -> ok h = true) -> validate_list (S (size (slabs s))) ok (head w c) s = true).
  { intros w ok Hok. destruct (li_dll _ _ _ Hk i c w Ec) as [e Hd]. apply (validate_list_ok s ok _ _ _ _ _ Hd); [by eapply list_fits|].
    intros x h Hx E. apply Hok; [by apply (ok_pages _ _ Hl x)|by apply (ok_kind _ _ Hl _ x)]. }
  rewrite (Hv Partial), (Hv Full), (Hv Empty); [done|..]; intros h _ [_ Hf]; cbn in Hf; [by apply Z.eqb_eq..|].
  apply negb_true_iff, Z.eqb_neq. lia.
Qed.

End Calls.
