(* ===== verification/SlabRefines.v ===== *)
(** * Calls of the kernel heap on several processors

    [slab_alloc] and [slab_free] drop the lock of a cache around the calls that get a
    page or give one back, so the calls of other processors run in between.  A state
    is the heap and the calls that are at such a point; [step] is one part of a call
    that runs under the lock, and shows what its caller sees.  [spec_step] is the
    heap its clients are promised: blocks with their contents that do not overlap.
    Every run of clients that keep to their blocks is a run of that heap. *)

From Stdlib Require Import ZArith Lia Bool.
From stdpp Require Import base list gmap.
From S2P Require Import Prelude Wire Pmm Slab SlabParts SlabSpace SlabLists SlabHeap SlabOps SlabAlloc SlabFree SlabCalls.

Open Scope Z_scope.

(** A call between two parts: it needs a page for cache [i], has one that is on no
    list yet, or gives one back. *)
Inductive pending :=
  | NeedPage (i : nat) (size : Z)
  | HavePage (i : nat) (size page : Z)
  | GiveBack (i : nat) (page : Z).

(** What the clients see.  [EForged]: the four bytes in front of the block handed to
    [slab_free] are the magic number of a large block, but are not in its place. *)
Inductive event :=
  | EAlloc (size p : Z)
  | EFree (p : Z)
  | EStore (p off : Z) (bs : list Z)
  | ELoad (p off : Z) (bs : list Z)
  | EForged (p : Z)
  | EFreeFault (p : Z)
  | ELoadFault (p off : Z) (n : nat).

Section Steps.
Context {P : Type} `{PageOps P}.

Definition forged (s : heap P) (p : Z) : bool :=
  match load32 s (u64 (p - sizeof_large_header)) with
  | Some magic => (magic =? SLAB_LARGE_MAGIC) && negb ((p - sizeof_large_header) mod PAGE_SIZE =? 0)
  | None => false
  end.

Definition world : Type := heap P * list pending.

Inductive step : world -> option event -> world -> Prop :=
  | step_alloc s s' K size p : 0 <= size -> slab_alloc_begin size s = (s', inl p) -> step (s, K) (Some (EAlloc size p)) (s', K)
  | step_alloc_need s s' K size i : 0 <= size -> slab_alloc_begin size s = (s', inr i) -> step (s, K) None (s', NeedPage i size :: K)
  | step_page s s' K1 K2 i size page : slab_alloc_page i s = (s', Some page) ->
      step (s, K1 ++ NeedPage i size :: K2) None (s', K1 ++ HavePage i size page :: K2)
  | step_no_page s s' K1 K2 i size : slab_alloc_page i s = (s', None) ->
      step (s, K1 ++ NeedPage i size :: K2) (Some (EAlloc size 0)) (s', K1 ++ K2)
  | step_new s s' K1 K2 i size page p : slab_alloc_new i page s = (s', p) ->
      step (s, K1 ++ HavePage i size page :: K2) (Some (EAlloc size p)) (s', K1 ++ K2)
  | step_free s s' K p r : slab_free_begin p s = Some (s', r) ->
      step (s, K) (Some (if forged s p then EForged p else EFree p)) (s', match r with Some (i, page) => GiveBack i page :: K | None => K end)
  | step_free_fault s K p : slab_free_begin p s = None -> step (s, K) (Some (if forged s p then EForged p else EFreeFault p)) (s, K)
  | step_give s K1 K2 i page : step (s, K1 ++ GiveBack i page :: K2) None (slab_free_end i page s, K1 ++ K2)
  | step_store s K p off bs : step (s, K) (Some (EStore p off bs)) (store_bytes (p + off) bs s, K)
  | step_load s K p off n bs : load_bytes s (p + off) n = Some bs -> step (s, K) (Some (ELoad p off bs)) (s, K)
  | step_load_fault s K p off n : load_bytes s (p + off) n = None -> step (s, K) (Some (ELoadFault p off n)) (s, K).

Inductive run : world -> list event -> world -> Prop :=
  | run_nil w : run w [] w
  | run_tau w w1 w' tr : step w None w1 -> run w1 tr w' -> run w tr w'
  | run_event w e w1 w' tr : step w (Some e) w1 -> run w1 tr w' -> run w (e :: tr) w'.

End Steps.

(** ** The clients *)

Definition may_access (live : gmap Z Z) (p off : Z) (n : nat) : bool :=
  match live !! p with
  | Some size => (0 <=? off) && (off + Z.of_nat n <=? size)
  | None => false
  end.

(** The blocks the clients hold, with the sizes they asked for, after the events of
    a trace; [None] when a client did something it may not. *)
Definition live_step (live : gmap Z Z) (e : event) : option (gmap Z Z) :=
  match e with
  | EAlloc size p =>
      if (0 <=? size) && (size <? 2 ^ 30) then Some (if p =? 0 then live else <[p := size]> live) else None
  | EFree p => if p =? 0 then Some live else match live !! p with Some _ => Some (delete p live) | None => None end
  | EStore p off bs | ELoad p off bs => if may_access live p off (length bs) then Some live else None
  | EFreeFault p => if (p =? 0) || bool_decide (is_Some (live !! p)) then Some live else None
  | ELoadFault p off n => if may_access live p off n then Some live else None
  | EForged _ => None
  end.

Fixpoint live_after (live : gmap Z Z) (tr : list event) : option (gmap Z Z) :=
  match tr with
  | [] => Some live
  | e :: tr' => live1 ← live_step live e; live_after live1 tr'
  end.

(** ** What they are promised *)

Inductive spec_step : gmap Z (list Z) -> event -> gmap Z (list Z) -> Prop :=
  | spec_alloc_fails A size : spec_step A (EAlloc size 0) A
  | spec_alloc A size p bs : p <> 0 -> p mod 8 = 0 -> SLAB_VIRT_BASE <= p -> p + Z.of_nat (length bs) <= SLAB_VIRT_END ->
      0 < size <= Z.of_nat (length bs) -> A !! p = None ->
      (forall q cs, A !! q = Some cs -> apart (p, Z.of_nat (length bs)) (q, Z.of_nat (length cs))) ->
      spec_step A (EAlloc size p) (<[p := bs]> A)
  | spec_free_null A : spec_step A (EFree 0) A
  | spec_free A p bs : A !! p = Some bs -> spec_step A (EFree p) (delete p A)
  | spec_store A p off bs old : A !! p = Some old -> 0 <= off -> off + Z.of_nat (length bs) <= Z.of_nat (length old) ->
      spec_step A (EStore p off bs) (<[p := write_at (Z.to_nat off) bs old]> A)
  | spec_load A p off bs old : A !! p = Some old -> bs = read_at (Z.to_nat off) (length bs) old -> spec_step A (ELoad p off bs) A.

Inductive spec_run : gmap Z (list Z) -> list event -> gmap Z (list Z) -> Prop :=
  | spec_nil A : spec_run A [] A
  | spec_cons A e A1 A' tr : spec_step A e A1 -> spec_run A1 tr A' -> spec_run A (e :: tr) A'.

(** ** The simulation *)

(** The page of cache [i] a call holds. *)
Definition held1 (i : nat) (k : pending) : list Z :=
  match k with
  | NeedPage _ _ => []
  | HavePage j _ page | GiveBack j page => if decide (j = i) then [page] else []
  end.

Definition held (i : nat) (K : list pending) : list Z := K ≫= held1 i.

(** A call that gets a page knows its cache. *)
Definition call_ok (k : pending) : Prop :=
  match k with
  | NeedPage i size | HavePage i size _ => (i < SLAB_NUM_CLASSES)%nat /\ 0 < size /\ capacity size = class_size i
  | GiveBack _ _ => True
  end.

Definition lives (live : gmap Z Z) (A : gmap Z (list Z)) : Prop :=
  (forall p, is_Some (live !! p) <-> is_Some (A !! p)) /\ forall p n bs, live !! p = Some n -> A !! p = Some bs -> n <= Z.of_nat (length bs).

Section Refines.
Context {P : Type} `{PageLaws P}.
Implicit Types (s : heap P).

Definition sim (w : @world P) (A : gmap Z (list Z)) : Prop :=
  exists lst L, slab_ok lst L w.1 /\ rel w.1 L A /\ (forall i, lst (i, None) ≡ₚ held i w.2) /\ Forall call_ok w.2.

Lemma held_app i K1 K2 : held i (K1 ++ K2) = held i K1 ++ held i K2.
Proof. unfold held. by rewrite bind_app. Qed.

Lemma held_cons i k K : held i (k :: K) = held1 i k ++ held i K.
Proof. done. Qed.

Lemma block_aligned L s p n : base_ok L s -> pages_ok s -> block (slabs s) L p n -> p mod 8 = 0.
Proof.
  intros Hb Hp [page h k E Hk _|b x Ex].
  - destruct (slab_page_facts L s Hb page h E) as ([Hal _] & _). pose proof (Hp _ _ E) as Hpk. rewrite (pk_size _ Hpk).
    assert (class_size (s_cache h) mod 8 = 0).
    { pose proof (pk_class _ Hpk) as Hc. unfold SLAB_NUM_CLASSES in Hc. destruct (s_cache h) as [|[|[|[|[|[|[|]]]]]]]; done. }
    unfold PAGE_SIZE, sizeof_slab_page in *. rewrite <- Z.add_assoc. rewrite Z.add_mod, (Z.add_mod 112), Z.mul_mod by lia.
    replace (class_size (s_cache h) mod 8) with 0. replace (page mod 8) with 0 by zlia. by rewrite Z.mul_0_r.
  - destruct (large_facts L s Hb b x Ex) as (_ & [Hal _] & _). unfold PAGE_SIZE, sizeof_large_header in *. zlia.
Qed.

(** A new block is one the specification may give out. *)
Lemma spec_adds lst' L s L' s' p cap size A :
  slab_ok lst' L' s' -> adds L s L' s' p cap -> rel s L A -> 0 < size <= cap ->
  exists bs, spec_step A (EAlloc size p) (<[p := bs]> A) /\ rel s' L' (<[p := bs]> A) /\ Z.of_nat (length bs) = cap.
Proof.
  intros Hok Ha HA Hsz. destruct (adds_rel L s L' s' p cap A Ha HA) as (En & bs & Hl & _ & HA'). exists bs. split_and!; [|done|done].
  destruct Ha as (_ & _ & Hb' & Hp' & _ & Hnew & Hbl). assert (Hb : block (slabs s') L' p cap) by (apply Hbl; by right).
  destruct (block_pos L' s' Hb' Hp' p cap Hb) as (_ & H1 & H2 & _). pose proof (so_next _ _ _ _ (ok_space _ _ Hb')) as [Hn _].
  apply spec_alloc; unfold SLAB_VIRT_BASE in *; try lia; try done; [by eapply block_aligned|].
  intros q cs Eq. pose proof Eq as [Hq _]%HA. rewrite Hl. apply (blocks_apart L' s' Hb' Hp'); [done|apply Hbl; by left|]. intros ->. by rewrite En in Eq.
Qed.

Lemma lives_insert live A p size bs : lives live A -> size <= Z.of_nat (length bs) -> lives (<[p := size]> live) (<[p := bs]> A).
Proof.
  intros [H1 H2] Hl. split.
  - intros q. destruct (decide (q = p)) as [->|Hq]; [by rewrite !lookup_insert_eq; split; eauto|]. by rewrite !lookup_insert_ne by done.
  - intros q n cs. destruct (decide (q = p)) as [->|Hq]; [rewrite !lookup_insert_eq; by intros [= <-] [= <-]|].
    rewrite !lookup_insert_ne by done. apply H2.
Qed.

Lemma lives_delete live A p : lives live A -> lives (delete p live) (delete p A).
Proof.
  intros [H1 H2]. split.
  - intros q. destruct (decide (q = p)) as [->|Hq]; [by rewrite !lookup_delete_eq|]. by rewrite !lookup_delete_ne by done.
  - intros q n cs. destruct (decide (q = p)) as [->|Hq]; [by rewrite lookup_delete_eq|]. rewrite !lookup_delete_ne by done. apply H2.
Qed.

Lemma lives_access live A p off n : lives live A -> may_access live p off n = true ->
  exists old, A !! p = Some old /\ 0 <= off /\ off + Z.of_nat n <= Z.of_nat (length old).
Proof.
  intros [H1 H2] Hm. unfold may_access in Hm. destruct (live !! p) as [size|] eqn:E; [|done].
  apply andb_true_iff in Hm as [H3%Z.leb_le H4%Z.leb_le]. destruct (proj1 (H1 p) ltac:(by rewrite E)) as [old Eo].
  exists old. split_and!; [done|done|]. pose proof (H2 p size old E Eo). lia.
Qed.

Lemma unforged_genuine lst L s p n : slab_ok lst L s -> block (slabs s) L p n -> forged s p = false -> genuine L s p.
Proof.
  intros (Hb & Hl & _) Hbl Hf Hm. unfold forged in Hf. rewrite Hm, Z.eqb_refl in Hf. cbn [andb] in Hf. apply negb_false_iff, Z.eqb_eq in Hf.
  inversion Hbl as [page h k E Hk Hs|b x Ex]; subst; [exfalso|exists x; by replace (b + _ - _) with b by lia].
  destruct (slab_page_facts L s Hb page h E) as ([Hal _] & _). pose proof (ok_pages _ _ Hl _ _ E) as Hpk. rewrite (pk_size _ Hpk) in Hf.
  assert (Hc : exists c, class_size (s_cache h) = 32 * c).
  { pose proof (pk_class _ Hpk) as Hc. unfold SLAB_NUM_CLASSES in Hc.
    destruct (s_cache h) as [|[|[|[|[|[|[|]]]]]]]; [exists 1|exists 2|exists 4|exists 8|exists 16|exists 32|exists 64|lia]; done. }
  destruct Hc as [c Hc]. rewrite Hc in Hf. unfold PAGE_SIZE, sizeof_slab_page, sizeof_large_header in *.
  replace (page + 112 + k * (32 * c) - 24) with (page + 88 + 32 * (k * c)) in Hf by lia. generalize dependent (k * c). intros z Hz. zlia.
Qed.

Lemma held_change i K1 k k' K2 l : l ≡ₚ held i (K1 ++ k :: K2) -> held1 i k = [] -> held1 i k' ++ l ≡ₚ held i (K1 ++ k' :: K2).
Proof. intros -> E. rewrite !held_app, !held_cons, E. cbn [app]. by rewrite Permutation_app_swap_app. Qed.

Lemma held_drop i K1 k K2 l : l ≡ₚ held i (K1 ++ k :: K2) -> held1 i k = [] -> l ≡ₚ held i (K1 ++ K2).
Proof. intros -> E. by rewrite !held_app, held_cons, E. Qed.

(** A call that holds a page is done with it. *)
Lemma held_split (lst : place -> list Z) i K1 k K2 page : (forall j, lst (j, None) ≡ₚ held j (K1 ++ k :: K2)) -> (forall j, held1 j k = if decide (i = j) then [page] else []) ->
  exists l1 l2, lst (i, None) = l1 ++ page :: l2 /\ l1 ++ l2 ≡ₚ held i (K1 ++ K2) /\ forall j, j <> i -> lst (j, None) ≡ₚ held j (K1 ++ K2).
Proof.
  intros Hh Hk. assert (Hx : page ∈ lst (i, None)).
  { rewrite (Hh i), held_app, held_cons, Hk, decide_True by done. set_solver. }
  apply list_elem_of_split in Hx as (l1 & l2 & El). exists l1, l2. split_and!; [done| |].
  - pose proof (Hh i) as Hi. rewrite El, held_app, held_cons, Hk, decide_True in Hi by done. cbn [app] in Hi.
    rewrite held_app. apply (Permutation_cons_inv (a := page)). by rewrite Permutation_middle, Hi, <- Permutation_middle.
  - intros j Hj. apply (held_drop j K1 k); [apply Hh|]. by rewrite Hk, decide_False.
Qed.

Lemma sim_tau w w' A : sim w A -> step w None w' -> sim w' A.
Proof.
  intros (lst & L & Hok & HA & Hh & HK) Hst. inversion Hst as [|s s' K size i Hsz E| s s' K1 K2 i size page E| | | | |s K1 K2 i page| | |]; subst; cbn [fst snd] in *.
  - assert (Hs : size < 2 ^ 30).
    { unfold slab_alloc_begin in E. destruct (size =? 0); [done|]. destruct (negb (slab_initialized s)); [done|]. destruct (Z.ltb_spec SLAB_MAX_SIZE size).
      - by destruct (slab_alloc_large size s).
      - unfold SLAB_MAX_SIZE in *. lia. }
    pose proof (alloc_begin_spec lst L s size Hok ltac:(lia)) as Ha. rewrite E in Ha. destruct Ha as (-> & Hp & Hi & Hc). exists lst, L.
    split_and!; [done|done|done|]. by constructor.
  - apply Forall_app in HK as [HK1 [[Hi Hk] HK2]%Forall_cons]. pose proof (alloc_page_spec lst L s i Hok Hi) as Ha. rewrite E in Ha.
    destruct Ha as (Hok' & Hsm & _). eexists _, L. split_and!; [exact Hok'|by eapply same_rel| |].
    + intros j. destruct (decide (j = i)) as [->|Hj].
      * rewrite put_eq. pose proof (held_change i K1 (NeedPage i size) (HavePage i size page) K2 (lst (i, None)) (Hh i) eq_refl) as Hp.
        cbn [held1] in Hp. by rewrite decide_True in Hp.
      * rewrite put_ne by congruence. pose proof (held_change j K1 (NeedPage i size) (HavePage i size page) K2 (lst (j, None)) (Hh j) eq_refl) as Hp.
        cbn [held1] in Hp. by rewrite decide_False in Hp by done.
    + by apply Forall_app; split; [|constructor].
  - destruct (held_split lst i K1 (GiveBack i page) K2 page Hh ltac:(done)) as (l1 & l2 & El & Hi & Hj).
    destruct (free_end_spec lst L s i l1 page l2 Hok El) as [Hok' Ht]. eexists _, L. split_and!; [exact Hok'|by eapply trims_rel| |].
    + intros j. destruct (decide (j = i)) as [->|Hne]; [by rewrite put_eq|]. rewrite put_ne by congruence. by apply Hj.
    + apply Forall_app in HK as [HK1 HK2]. apply Forall_app. split; [done|]. by apply Forall_cons in HK2 as [_ ?].
Qed.

(** A call of [slab_alloc] returns. *)
Lemma sim_alloc lst L s L' s' K A live live' size p cap :
  rel s L A -> lives live A -> live_step live (EAlloc size p) = Some live' -> slab_ok lst L' s' ->
  (p = 0 /\ same L s L' s') \/ (p <> 0 /\ 0 < size <= cap /\ adds L s L' s' p cap) ->
  (forall i, lst (i, None) ≡ₚ held i K) -> Forall call_ok K ->
  exists A', spec_step A (EAlloc size p) A' /\ sim (s', K) A' /\ lives live' A'.
Proof.
  intros HA Hlv Hev Hok Hc Hh HK. cbn [live_step] in Hev. destruct (_ && _); [|done]. destruct Hc as [[-> Hs]|(Hp & Hsz & Ha)].
  - injection Hev as <-. exists A. split_and!; [constructor| |done]. exists lst, L'. split_and!; [done|by eapply same_rel|done|done].
  - rewrite (proj2 (Z.eqb_neq p 0)) in Hev by done. injection Hev as <-.
    destruct (spec_adds lst L s L' s' p cap size A Hok Ha HA Hsz) as (bs & Hst & HA' & Hl). exists (<[p := bs]> A).
    split_and!; [done| |apply lives_insert; [done|lia]]. by exists lst, L'.
Qed.

(** A call of [slab_free] takes the block. *)
Lemma sim_free lst L s K p r s' A live live' :
  slab_ok lst L s -> rel s L A -> (forall i, lst (i, None) ≡ₚ held i K) -> Forall call_ok K -> lives live A -> forged s p = false ->
  slab_free_begin p s = Some (s', r) -> live_step live (EFree p) = Some live' ->
  exists A', spec_step A (EFree p) A' /\ sim (s', match r with Some (i, page) => GiveBack i page :: K | None => K end) A' /\ lives live' A'.
Proof.
  intros Hok HA Hh HK Hlv Hf E Hev. cbn [live_step] in Hev. destruct (Z.eqb_spec p 0) as [->|Hp0].
  { injection Hev as <-. injection E as <- <-. exists A. split_and!; [constructor| |done]. by exists lst, L. }
  destruct (live !! p) as [size|] eqn:El; [|done]. injection Hev as <-. destruct (proj1 (proj1 Hlv p) ltac:(by rewrite El)) as [bs Eb].
  pose proof Eb as [Hbl _]%HA. pose proof (unforged_genuine lst L s p _ Hok Hbl Hf) as Hg.
  destruct (free_begin_spec lst L s p _ Hok Hbl Hg) as (s1 & r1 & lst' & L' & E1 & Hok' & Hd & Hn). rewrite E in E1. injection E1 as <- <-.
  exists (delete p A). split_and!; [by econstructor| |by apply lives_delete]. exists lst', L'. split_and!; [done|by eapply dels_rel| |].
  - intros j. rewrite Hn. destruct r as [[i page]|]; [|apply Hh]. cbn [snd]. rewrite held_cons. cbn [held1].
    destruct (decide (j = i)) as [->|Hj]; [rewrite decide_True by done|rewrite decide_False by done]; cbn [app]; by rewrite Hh.
  - by destruct r as [[i page]|]; [constructor|].
Qed.

Lemma lives_write live A p old new : lives live A -> A !! p = Some old -> length new = length old -> lives live (<[p := new]> A).
Proof.
  intros [H1 H2] Eo Hl. split.
  - intros q. rewrite H1. destruct (decide (q = p)) as [->|Hq]; [rewrite lookup_insert_eq, Eo; split; eauto|]. by rewrite lookup_insert_ne by done.
  - intros q n cs En. destruct (decide (q = p)) as [->|Hq]; [|rewrite lookup_insert_ne by done; by apply H2].
    rewrite lookup_insert_eq. intros [= <-]. rewrite Hl. by apply (H2 p).
Qed.

Lemma load_bytes_drop s k : forall p bs, (k <= length bs)%nat -> load_bytes s p (length bs) = Some bs ->
  load_bytes s (p + Z.of_nat k) (length (drop k bs)) = Some (drop k bs).
Proof.
  induction k as [|k IH]; intros p bs Hk E; [by rewrite Z.add_0_r, drop_0|]. destruct bs as [|b bs]; [cbn in Hk; lia|].
  cbn [length load_bytes drop] in *. destruct (load8 s p) as [v|]; [|done]. destruct (load_bytes s (p + 1) (length bs)) as [l|] eqn:El; [|done].
  injection E as -> ->. replace (p + Z.of_nat (S k)) with (p + 1 + Z.of_nat k) by lia. apply IH; [lia|done].
Qed.

Lemma load_bytes_length s n : forall p bs, load_bytes s p n = Some bs -> length bs = n.
Proof.
  induction n as [|n IH]; intros p bs E; [by injection E as <-|]. cbn [load_bytes] in E. destruct (load8 s p) as [v|]; [|done].
  destruct (load_bytes s (p + 1) n) as [l|] eqn:El; [|done]. injection E as <-. cbn. f_equal. by apply (IH (p + 1)).
Qed.

(** A client reads from its block what was written there. *)
Lemma load_read s L A p old off n : rel s L A -> A !! p = Some old -> 0 <= off -> off + Z.of_nat n <= Z.of_nat (length old) ->
  load_bytes s (p + off) n = Some (read_at (Z.to_nat off) n old).
Proof.
  intros HA Eo Hoff Hn. apply HA in Eo as [_ E]. pose proof (load_bytes_drop s (Z.to_nat off) p old ltac:(lia) E) as Ed.
  rewrite Z2Nat.id in Ed by done. unfold read_at. apply load_bytes_take; [rewrite length_drop; lia|done].
Qed.

Lemma sim_event w e w' A live live' : sim w A -> lives live A -> step w (Some e) w' -> live_step live e = Some live' ->
  exists A', spec_step A e A' /\ sim w' A' /\ lives live' A'.
Proof.
  intros (lst & L & Hok & HA & Hh & HK) Hlv Hst Hev.
  inversion Hst as [s s' K size p Hsz E| | |s s' K1 K2 i size E|s s' K1 K2 i size page p E|s s' K p r E|s K p E| |s K p off bs|s K p off n bs E|s K p off n E];
    subst; cbn [fst snd] in *.
  - assert (Hlt : size < 2 ^ 30).
    { cbn [live_step] in Hev. destruct (_ && _) eqn:Eb; [|done]. by apply andb_true_iff in Eb as [_ ?%Z.ltb_lt]. }
    pose proof (alloc_begin_spec lst L s size Hok ltac:(lia)) as Ha. rewrite E in Ha. destruct Ha as (lst' & L' & Hok' & Hn & Hc).
    apply (sim_alloc lst' L s L' s' K A live live' size p (capacity size)); try done; [|intros j; by rewrite Hn].
    destruct Hc as [Hc|(Hc & Hpos & Ha)]; [by left|right]. pose proof (capacity_le size Hpos). split_and!; try done.
  - apply Forall_app in HK as [HK1 [[Hi Hk] HK2]%Forall_cons]. pose proof (alloc_page_spec lst L s i Hok Hi) as Ha. rewrite E in Ha.
    destruct Ha as [Hok' Hsm]. apply (sim_alloc lst L s L s' _ A live live' size 0 0); try done; [by left| |by apply Forall_app].
    intros j. by apply (held_drop j K1 (NeedPage i size)).
  - apply Forall_app in HK as [HK1 [(Hi & Hpos & Hcap) HK2]%Forall_cons].
    destruct (held_split lst i K1 (HavePage i size page) K2 page Hh ltac:(done)) as (l1 & l2 & El & Hl1 & Hl2).
    pose proof (alloc_new_spec lst L s i page l1 l2 Hok Hi El) as Ha. rewrite E in Ha. destruct Ha as (Hp0 & lst' & Hok' & Ei & Ej & Hadd).
    pose proof (capacity_le size Hpos). apply (sim_alloc lst' L s L s' _ A live live' size p (class_size i)); try done; [| |by apply Forall_app].
    + right. split_and!; [done|done|lia|done].
    + intros j. destruct (decide (j = i)) as [->|Hj]; [by rewrite Ei|]. rewrite Ej by done. by apply Hl2.
  - destruct (forged s p) eqn:Ef; [done|]. by apply (sim_free lst L s K p r s' A live).
  - exfalso. destruct (forged s p) eqn:Ef; [done|]. cbn [live_step] in Hev. destruct (Z.eqb_spec p 0) as [->|Hp0]; [done|]. cbn [orb] in Hev.
    destruct (bool_decide _) eqn:Eb; [|done]. apply bool_decide_eq_true in Eb. apply (proj1 Hlv p) in Eb as [bs Eb].
    pose proof Eb as [Hbl _]%HA. pose proof (unforged_genuine lst L s p _ Hok Hbl Ef) as Hg.
    destruct (free_begin_spec lst L s p _ Hok Hbl Hg) as (s1 & r1 & lst' & L' & E1 & _). congruence.
  - cbn [live_step] in Hev. destruct (may_access _ _ _ _) eqn:Em; [|done]. injection Hev as <-.
    destruct (lives_access live A p off (length bs) Hlv Em) as (old & Eo & Hoff & Hlen). pose proof Eo as [Hbl _]%HA.
    destruct (write_ok lst L s p _ off bs Hok Hbl Hoff Hlen) as (Hok' & _ & Hrel). exists (<[p := write_at (Z.to_nat off) bs old]> A).
    split_and!; [by constructor|by exists lst, L; split_and!; [|apply Hrel|..]|].
    apply (lives_write live A p old); [done|done|apply length_write_at].
  - cbn [live_step] in Hev. destruct (may_access _ _ _ _) eqn:Em; [|done]. injection Hev as <-.
    destruct (lives_access live A p off (length bs) Hlv Em) as (old & Eo & Hoff & Hlen). exists A. split_and!; [|by exists lst, L|done].
    apply (spec_load A p off bs old); [done|]. assert (n = length bs) as -> by (symmetry; by eapply load_bytes_length).
    rewrite (load_read s L A p old off) in E by done. by injection E.
  - exfalso. cbn [live_step] in Hev. destruct (may_access _ _ _ _) eqn:Em; [|done].
    destruct (lives_access live A p off n Hlv Em) as (old & Eo & Hoff & Hlen). by rewrite (load_read s L A p old off) in E by done.
Qed.

Lemma run_sim w tr w' : run w tr w' -> forall A live live', sim w A -> lives live A -> live_after live tr = Some live' ->
  exists A', spec_run A tr A' /\ sim w' A' /\ lives live' A'.
Proof.
  induction 1 as [w|w w1 w' tr Hst _ IH|w e w1 w' tr Hst _ IH]; intros A live live' Hs Hlv Htr; cbn [live_after] in Htr.
  - injection Htr as <-. exists A. split_and!; [constructor|done|done].
  - apply (IH A live); [by eapply sim_tau|done|done].
  - destruct (live_step live e) as [live1|] eqn:El; [|done]. cbn [mbind option_bind] in Htr.
    destruct (sim_event w e w1 A live live1 Hs Hlv Hst El) as (A1 & Hsp & Hs1 & Hlv1).
    destruct (IH A1 live1 live' Hs1 Hlv1 Htr) as (A' & Hr & Hs' & Hlv'). exists A'. split_and!; [by econstructor|done|done].
Qed.

(** The heap as the kernel starts with it. *)
Definition boot (s : heap P) : Prop :=
  slabs s = ∅ /\ slab_next_virt_addr s = SLAB_VIRT_BASE /\ slab_free_ranges s = [] /\ pg_ok (pg s) ∅ /\
  forall v, heap_page v -> pg_phys (pg s) v = 0.

Lemma slab_boot_ok s : boot s -> slab_ok (fun _ => []) ∅ (slab_init s).
Proof.
  intros (Es & En & Er & Hpg & Hm). assert (Ereg : regions_of (slabs (slab_init s)) ∅ = ∅) by (cbn; rewrite Es; by apply map_eq; intros i).
  split_and!; [constructor|constructor|intros; cbn; lia].
  - done.
  - rewrite Ereg. cbn. rewrite En, Er. constructor; try done; [by repeat constructor|by exists ∅; split; [|intros f; split; [set_solver|intros (? & ? & ? & ? & _)]]|].
    intros v Hv _. by apply Hm.
  - done.
  - done.
  - constructor; try done; try (intros; by set_solver).
    + intros i c w E. cbn [slab_init slab_caches] in E. apply dll_nil. rewrite list_lookup_fmap in E.
      destruct (size_classes !! i); [|done]. injection E as <-. by destruct w.
    + intros; constructor.
    + intros x. cbn [slab_init slabs]. rewrite Es. split; [by intros [? ?]|intros [k Hk]; set_solver].
  - intros x h E. cbn [slab_init slabs] in E. by rewrite Es in E.
  - intros k x h Hx. set_solver.
  - intros i c E. cbn [slab_init slab_caches] in E. assert (Hi : (i < 7)%nat) by (apply lookup_lt_Some in E; done).
    do 7 (destruct i as [|i]; [by injection E as <-|]). lia.
Qed.

Lemma boot_sim s : boot s -> sim (slab_init s, []) ∅ /\ lives ∅ ∅.
Proof.
  intros Hs. split; [|split; [intros p; by rewrite !lookup_empty, !is_Some_alt|by intros p n bs ?%lookup_empty_Some]]. exists (fun _ => []), ∅. split_and!; [by apply slab_boot_ok| |done|done].
  intros p bs. split; [done|]. destruct Hs as (Es & _). intros [Hb _]. cbn [fst slab_init slabs] in Hb. rewrite Es in Hb.
  by inversion Hb as [? ? ? E|? ? E].
Qed.

(** Every run of clients that keep to their blocks is a run of the promised heap. *)
Lemma slab_refines s tr w live :
  boot s -> run (slab_init s, []) tr w -> live_after ∅ tr = Some live ->
  exists A, spec_run ∅ tr A /\ lives live A /\ sim w A.
Proof.
  intros Hs Hr Hl. destruct (boot_sim s Hs) as [H1 H2]. destruct (run_sim _ _ _ Hr ∅ ∅ live H1 H2 Hl) as (A & ? & ? & ?). by exists A.
Qed.

(** A call that nobody interrupts is a run. *)
Lemma slab_alloc_run s K size s' p : 0 <= size -> slab_alloc size s = (s', p) -> run (s, K) [EAlloc size p] (s', K).
Proof.
  intros Hsz E. unfold slab_alloc in E. destruct (slab_alloc_begin size s) as [s1 [q|i]] eqn:E1.
  { injection E as -> ->. eapply run_event; [by apply step_alloc|apply run_nil]. }
  eapply run_tau; [by apply (step_alloc_need s s1 K size i)|]. destruct (slab_alloc_page i s1) as [s2 [page|]] eqn:E2.
  - eapply run_tau; [by apply (step_page s1 s2 [] K i size page)|]. eapply run_event; [by apply (step_new s2 s' [] K i size page)|apply run_nil].
  - injection E as -> <-. eapply run_event; [by apply (step_no_page s1 s' [] K i size)|apply run_nil].
Qed.

Lemma slab_free_run s K p s' : forged s p = false -> slab_free p s = Some s' -> run (s, K) [EFree p] (s', K).
Proof.
  intros Hf E. unfold slab_free in E. destruct (slab_free_begin p s) as [[s1 r]|] eqn:E1; [|done]. cbn [mbind option_bind] in E.
  pose proof (step_free s s1 K p r E1) as Hst. rewrite Hf in Hst. eapply run_event; [exact Hst|]. destruct r as [[i page]|]; injection E as <-.
  - eapply run_tau; [exact (step_give s1 [] K i page)|apply run_nil].
  - apply run_nil.
Qed.

Lemma run_app (w : @world P) tr w1 tr' w' : run w tr w1 -> run w1 tr' w' -> run w (tr ++ tr') w'.
Proof. induction 1; intros Hr; [done|by eapply run_tau; eauto|by cbn; eapply run_event; eauto]. Qed.

(** ** Other calls *)

(** C27. [slab_realloc] of a block that is not behind a forged header returns, with the
    other calls where they were: it fails and changes no block, or finds that the
    block is large enough, or moves the block to a new one that is large enough and
    starts with the bytes of the old one; every other block is as before. *)
Theorem slab_realloc_spec s K A p old size :
  sim (s, K) A -> A !! p = Some old -> forged s p = false -> 0 < size < 2 ^ 30 ->
  let k := Nat.min (length old) (Z.to_nat size) in
  exists s' q, slab_realloc p size s = Some (s', q) /\
  ((q = 0 /\ sim (s', K) A) \/
   (q = p /\ s' = s /\ size <= Z.of_nat (length old)) \/
   (q <> 0 /\ A !! q = None /\ exists bs, size <= Z.of_nat (length bs) /\ read_at 0 k bs = read_at 0 k old /\ sim (s', K) (<[q := bs]> (delete p A)))).
Proof.
  intros (lst & L & Hok & HA & Hh & HK) Ep Hf Hsz k. cbn [fst snd] in *. pose proof Ep as [Hbl _]%HA.
  pose proof (unforged_genuine lst L s p _ Hok Hbl Hf) as Hg.
  destruct (slab_realloc_ok lst L s p old size Hok A HA Ep Hg Hsz) as (s' & q & lst' & L' & E & Hok' & Hn & Hc). exists s', q. split; [done|].
  assert (Hh' : forall i, lst' (i, None) ≡ₚ held i K) by (intros i; by rewrite Hn).
  destruct Hc as [[-> HA']|[(-> & -> & -> & Hle)|(Hq & En & bs & Hle & Eb & HA')]].
  - left. split; [done|]. by exists lst', L'.
  - right. left. done.
  - right. right. split_and!; [done|done|]. exists bs. split_and!; [done|exact Eb|]. by exists lst', L'.
Qed.

(** C28. [slab_free] of anything that is not a block, and not behind the magic number of
    a large block, changes nothing if it returns; and it does return when the page is
    still a slab page, as it is when a block of one is freed twice. *)
Theorem slab_free_ignores s K A p :
  sim (s, K) A -> A !! p = None -> load32 s (u64 (p - sizeof_large_header)) <> Some SLAB_LARGE_MAGIC ->
  (forall s', slab_free p s = Some s' -> s' = s) /\
  (is_Some (slabs s !! page_of p) -> page_of p + sizeof_large_header <= p -> slab_free p s = Some s).
Proof.
  intros (lst & L & Hok & HA & _) Ep Hm. cbn [fst snd] in *. pose proof Hok as (Hb & _). pose proof (slab_pages _ _ _ Hok) as Hp.
  assert (Hno : forall n, ~ block (slabs s) L p n).
  { intros n Hbl. destruct (block_load L s Hb Hp p n Hbl) as (bs & El & Hl). destruct (block_pos L s Hb Hp p n Hbl) as (Hn & _).
    assert (A !! p = Some bs); [|congruence]. apply HA. rewrite Hl, Z2Nat.id by lia. done. }
  assert (Hig : forall s', slab_free p s = Some s' -> s' = s) by (intros s'; apply (slab_free_nothing lst L); [done|done|]; by intros Hm').
  split; [done|]. intros [h Eh] Hlow. enough (is_Some (slab_free p s)) as [s' Es] by (by rewrite (Hig s') in Es).
  destruct (slab_page_facts L s Hb _ h Eh) as ([_ Hv] & _).
  assert (Hup : p < page_of p + PAGE_SIZE) by (unfold page_of, PAGE_SIZE; zlia). unfold SLAB_VIRT_BASE, SLAB_VIRT_END, sizeof_large_header in *.
  rewrite u64_small in Hm by (unfold PAGE_SIZE in *; lia). destruct (slab_load32 L s (page_of p) h (p - 24 - page_of p) Hb Eh) as [v Ev]; [lia|].
  replace (page_of p + (p - 24 - page_of p)) with (p - 24) in Ev by lia. rewrite Ev in Hm.
  assert (Hplan : exists plan, slab_free_check p s = Some plan /\ match plan with FLarge _ => False | _ => True end).
  { unfold slab_free_check. destruct (_ =? 0); [by eexists|]. destruct (negb _); [by eexists|]. cbn zeta. unfold sizeof_large_header.
    rewrite u64_small, Ev by (unfold PAGE_SIZE in *; lia). cbn [mbind option_bind]. rewrite (proj2 (Z.eqb_neq v _)) by congruence.
    destruct (_ || _); [by eexists|]. rewrite (slab_magic L s _ h Hb Eh). cbn [mbind option_bind]. destruct (negb _); [by eexists|]. rewrite Eh.
    cbn [mbind option_bind]. destruct (_ <? _); [by eexists|]. destruct (slab_get_object_index _ _ _); [|by eexists]. by destruct (negb _); eexists. }
  destruct Hplan as (plan & E & Hpl). unfold slab_free, slab_free_begin. rewrite E. cbn [mbind option_bind].
  destruct plan as [header|page i k|]; [done| |by eexists]. by destruct (slab_free_object page i k s) as [s1 [to_free|]]; eexists.
Qed.

(** [slab_shrink], while no other call is in its way, keeps every block and its
    bytes and leaves at most one empty page in every cache. *)
Theorem slab_shrink_spec s K A : sim (s, K) A ->
  sim (slab_shrink s, K) A /\ Forall (fun c => empty_slab_count c <= 1) (slab_caches (slab_shrink s)).
Proof.
  intros (lst & L & Hok & HA & Hh & HK). cbn [fst snd] in *. destruct (slab_shrink_ok lst L s Hok) as (lst' & Hok' & Ht & Hn & Hle). split.
  - exists lst', L. split_and!; [done|by eapply trims_rel|intros i; by rewrite Hn|done].
  - destruct Hok' as (_ & Hl & _). apply Forall_lookup. intros i c Ec. pose proof (ok_caches _ _ Hl i c Ec) as Ecf. unfold cfg in Ecf. injection Ecf as _ _ ->.
    apply lookup_lt_Some in Ec. rewrite (li_len _ _ _ (ok_linked _ _ Hl)) in Ec. specialize (Hle i Ec). lia.
Qed.

End Refines.
