(* ===== verification/SlabPages.v ===== *)
(** * The pages of the kernel heap

    The interface the heap is proved against, implemented by the physical memory
    manager and the kernel's page tables ([kernel/mm/memory.c]).  The tables that
    translate the heap's addresses are pages held by the kernel beside the address
    spaces of the processes: the invariant of those, [vinv], stays true. *)

From Stdlib Require Import ZArith Lia Bool.
From stdpp Require Import base list gmap.
From S2P Require Import Prelude Pmm Paging AddressSpace Fork Destroy UserMemory Brk.
From S2P Require Import Slab SlabSpace.

Open Scope Z_scope.

Definition slab_flags : Z := Z.lor (Z.lor PAGE_PRESENT PAGE_WRITABLE) PAGE_NO_EXECUTE.

(** The current address space is the kernel's; the others share its upper tables.
    [caches]: the address of the array [slab_caches]. *)
Definition vm_pages (caches : Z) : PageOps vm := {|
  pg_alloc st := let '(s, a) := mm_allocate_physical_page (pm st) in (set_pm s st, a);
  pg_free a st := set_pm (mm_free_physical_page a (pm st)) st;
  pg_alloc_n st n := let '(s, a) := mm_allocate_contiguous_pages (pm st) n in (set_pm s st, a);
  pg_free_n st a n := set_pm (mm_free_contiguous_pages (pm st) a n) st;
  pg_map st va a := mm_map_page st (g_kernel_pml4_phys st) va a slab_flags;
  pg_unmap va st := mm_unmap_page st (g_kernel_pml4_phys st) va;
  pg_phys st va := mm_get_physical_address st (g_kernel_pml4_phys st) va;
  slab_caches_addr := caches;
|}.

(** ** The tables of the heap's addresses *)

Definition klinks (e f : Z) : Prop := has e PAGE_PRESENT = true /\ has e PAGE_SIZE_FLAG = false /\ pte_addr e = f.

Definition pd_index (va : Z) : nat := table_index va 21.
Definition pt_index (va : Z) : nat := table_index va 12.

(** [T]: the tables by their path. *)
Record ktables (st : vm) (g : ghost) (H : gset Z) (T : gmap (list nat) Z) (pdpt pd : Z) : Prop := {
  kt_inv : vinv live st g;
  kt_heap : forall a, a ∈ H -> a ∈ gH g /\ exists d, 0 <= d < total_pages (pm st) /\ a = page_addr (pm st) d;
  kt_table : forall k f, T !! k = Some f -> f ∈ gH g /\ f ∉ H;
  kt_inj : forall k k' f, T !! k = Some f -> T !! k' = Some f -> k = k';
  kt_root : T !! [] = Some (g_kernel_pml4_phys st);
  kt_pdpt : T !! [511%nat] = Some pdpt /\ klinks (word st (g_kernel_pml4_phys st) 511) pdpt;
  kt_pd : T !! [511; 510]%nat = Some pd /\ klinks (word st pdpt 510) pd;
  kt_pt : forall i, (64 <= i < 128)%nat ->
    match T !! [511; 510; i]%nat with
    | Some f => klinks (word st pd i) f
    | None => has (word st pd i) PAGE_PRESENT = false
    end;
}.

Definition heap_pages (st : vm) (H : gset Z) : Prop := exists g T pdpt pd, ktables st g H T pdpt pd.

(** What the tables say about a page of addresses. *)
Definition leaf (st : vm) (T : gmap (list nat) Z) (va : Z) : Z :=
  match T !! [511; 510; pd_index va]%nat with
  | Some pt => let e := word st pt (pt_index va) in if has e PAGE_PRESENT then pte_addr e else 0
  | None => 0
  end.

Lemma index_mod va s : 0 <= va -> 0 <= s -> table_index va s = Z.to_nat (va / 2 ^ s mod 512).
Proof. intros Hv Hs. unfold table_index. rewrite Z.shiftr_div_pow2 by lia. change 0x1FF with (Z.ones 9). by rewrite Z.land_ones. Qed.

Lemma heap_index va : heap_page va ->
  table_index va 39 = 511%nat /\ table_index va 30 = 510%nat /\ (64 <= pd_index va < 128)%nat /\ (pt_index va < 512)%nat /\
  va = 0xFFFFFFFF80000000 + Z.of_nat (pd_index va) * 2 ^ 21 + Z.of_nat (pt_index va) * 2 ^ 12.
Proof.
  intros [Hal Hv]. unfold pd_index, pt_index, SLAB_VIRT_BASE, SLAB_VIRT_END, PAGE_SIZE in *. rewrite !index_mod by lia.
  assert (E1 : va / 2 ^ 39 = 33554431) by zlia. assert (E2 : va / 2 ^ 30 = 17179869182) by zlia. rewrite E1, E2.
  assert (E3 : va / 2 ^ 21 mod 512 = va / 2 ^ 21 - 8796093021184) by zlia. rewrite E3.
  split_and!; try done; zlia.
Qed.

Lemma index_inj v w : heap_page v -> heap_page w -> pd_index v = pd_index w -> pt_index v = pt_index w -> v = w.
Proof. intros Hv Hw E1 E2. destruct (heap_index v Hv) as (_ & _ & _ & _ & ->). destruct (heap_index w Hw) as (_ & _ & _ & _ & ->). by rewrite E1, E2. Qed.

Section Tables.
Context (st : vm) (g : ghost) (H : gset Z) (T : gmap (list nat) Z) (pdpt pd : Z) (Hk : ktables st g H T pdpt pd).

(** The walk that creates nothing. *)
Lemma walk_find va : heap_page va ->
  mm_get_page_table st (g_kernel_pml4_phys st) va false = (st, (fun pt => (pt, pt_index va)) <$> T !! [511; 510; pd_index va]%nat).
Proof.
  intros Hv. destruct (heap_index va Hv) as (E1 & E2 & Hi & _). destruct (kt_pdpt _ _ _ _ _ _ Hk) as (_ & P1 & P2 & P3).
  destruct (kt_pd _ _ _ _ _ _ Hk) as (_ & Q1 & Q2 & Q3). pose proof (kt_pt _ _ _ _ _ _ Hk (pd_index va) Hi) as Hpt.
  unfold mm_get_page_table, next_table. rewrite E1, P1. cbn [negb andb]. rewrite P3, E2, Q1. cbn [negb andb]. rewrite Q3. fold (pd_index va).
  unfold is_large. destruct (T !! _) as [pt|] eqn:Ep.
  - destruct Hpt as (R1 & R2 & R3). by rewrite R1, R2, R3.
  - by rewrite Hpt.
Qed.

Lemma phys_leaf va : heap_page va -> mm_get_physical_address st (g_kernel_pml4_phys st) va = leaf st T va.
Proof.
  intros Hv. unfold mm_get_physical_address, leaf. rewrite walk_find by done. destruct Hv as [Hal Hv].
  unfold is_direct_map_addr, PHYS_MAP_BASE, SLAB_VIRT_BASE in *. rewrite (proj2 (Z.ltb_ge _ _)), andb_false_r by lia.
  destruct (T !! _) as [pt|]; [|done]. cbn [fmap option_fmap option_map]. destruct (has _ _); [|done]. unfold entry_addr.
  change 0xFFF with (Z.ones 12). rewrite Z.land_ones by lia. unfold PAGE_SIZE in Hal. change (2 ^ 12) with 0x1000. by rewrite Hal, Z.lor_0_r.
Qed.

Lemma table_phys k f : T !! k = Some f -> phys_page st f /\ frame_ok f /\ exists ws, frames st !! f = Some ws /\ length ws = 512%nat.
Proof.
  intros E. destruct (kt_table _ _ _ _ _ _ Hk k f E) as [Hf _]. destruct (kt_inv _ _ _ _ _ _ Hk) as (Hs & _).
  destruct (sh_held _ _ _ Hs f Hf) as [Hp _]. split_and!; [done|by eapply phys_page_frame|by apply (sh_mem _ _ _ Hs)].
Qed.

End Tables.

(** Only page bookkeeping changed. *)
Lemma ktables_pm st g g' H H' T pdpt pd s' :
  ktables st g H T pdpt pd -> vinv live (set_pm s' st) g' -> same_layout st (set_pm s' st) -> H' ⊆ gH g' ->
  (forall a, a ∈ H' -> exists d, 0 <= d < total_pages (pm st) /\ a = page_addr (pm st) d) ->
  (forall k f, T !! k = Some f -> f ∈ gH g' /\ f ∉ H') -> ktables (set_pm s' st) g' H' T pdpt pd.
Proof.
  intros Hk Hv (_ & _ & E3 & E4) HH Hm Ht. destruct Hk as [_ _ _ K4 K5 K6 K7 K8]. constructor; try done. intros a Ha. split; [set_solver|].
  destruct (Hm a Ha) as (d & Hd & ->). exists d. rewrite E3. split; [done|]. unfold page_addr. by rewrite E4.
Qed.

Lemma pm_maps st g H T pdpt pd s' g' H' va : ktables st g H T pdpt pd -> ktables (set_pm s' st) g' H' T pdpt pd -> heap_page va ->
  mm_get_physical_address (set_pm s' st) (g_kernel_pml4_phys (set_pm s' st)) va = mm_get_physical_address st (g_kernel_pml4_phys st) va.
Proof. intros Hk Hk' Hv. rewrite (phys_leaf _ _ _ _ _ _ Hk'), (phys_leaf _ _ _ _ _ _ Hk) by done. done. Qed.

(** ** Physical pages *)

Lemma free_refcount st g d : vinv live st g -> d ∈ pfree (pm st) -> refcount_at (pm st) d = 0.
Proof.
  intros (Hs & Hc & _) Hd. apply elem_of_pfree in Hd as Hd'. destruct (co_count _ _ Hc d (proj1 Hd')) as [->|[-> _]]; [|done].
  rewrite cnt_zero; [done|]. intros k e Ek Ee. apply (data_not_free _ _ _ k e Hs Ek). rewrite Ee. right. right. by exists d.
Qed.

(** The heap gets page [d]. *)
Lemma hold_page st g H T pdpt pd s' d :
  ktables st g H T pdpt pd -> d ∈ pfree (pm st) -> pmm_ok s' -> pfree s' = pfree (pm st) ∖ {[d]} -> same_layout st (set_pm s' st) ->
  is_Some (page_refcounts s') -> (forall x, 0 <= x < total_pages (pm st) -> refcount_at s' x = if decide (x = d) then 0 else refcount_at (pm st) x) ->
  let a := page_addr (pm st) d in a ∉ H /\ ktables (set_pm s' st) (hold a g) ({[a]} ∪ H) T pdpt pd.
Proof.
  intros Hk Hd Hok Hfr Hl Hrs Hrc a. pose proof (kt_inv _ _ _ _ _ _ Hk) as Hv. pose proof Hv as (Hs & _).
  pose proof Hd as Hdr. apply elem_of_pfree in Hdr as [Hdr _].
  assert (Hf : free_frame st (gL g) a) by (right; right; by exists d). assert (Hp : phys_page st a) by (right; by exists d).
  destruct (frame_words _ _ _ Hs a Hp) as (ws & Ew & Hlen & _).
  pose proof (take_managed live st g s' d ws Hv Hd Hok Hfr Hl Hrs Hrc Hlen) as Hv'. fold a in Hv'.
  assert (Es : put_page a ws (set_pm s' st) = set_pm s' st) by (unfold put_page, set_frames; cbn; by rewrite insert_id). rewrite Es in Hv'.
  assert (HnH : a ∉ gH g) by (intros Hin; by destruct (sh_held _ _ _ Hs a Hin)).
  assert (Ha : a ∉ H) by (intros Hin; by apply (kt_heap _ _ _ _ _ _ Hk) in Hin as [? _]). split; [done|].
  apply (ktables_pm st g (hold a g) H); try done; cbn [hold gH].
  - intros x [->%elem_of_singleton|Hx]%elem_of_union; [set_solver|]. apply (kt_heap _ _ _ _ _ _ Hk) in Hx as [? _]. set_solver.
  - intros x [->%elem_of_singleton|Hx]%elem_of_union; [by exists d|]. by apply (kt_heap _ _ _ _ _ _ Hk).
  - intros k f E. destruct (kt_table _ _ _ _ _ _ Hk k f E) as [H1 H2]. assert (f <> a) by (intros ->; done). set_solver.
Qed.

Lemma vm_alloc st g H T pdpt pd s' a : ktables st g H T pdpt pd -> mm_allocate_physical_page (pm st) = (s', a) ->
  (a = 0 /\ s' = pm st) \/ (a <> 0 /\ a ∉ H /\ ktables (set_pm s' st) (hold a g) ({[a]} ∪ H) T pdpt pd).
Proof.
  intros Hk E. pose proof (kt_inv _ _ _ _ _ _ Hk) as Hv. pose proof Hv as (Hs & _).
  pose proof (mm_allocate_spec (pm st) (sh_pmm _ _ _ Hs)) as Ha. rewrite E in Ha.
  destruct Ha as [(-> & -> & _)|(d & Hd & -> & Hne & Hok & Hfr & Es)]; [by left|right]. split; [done|].
  pose proof Hd as Hdr. apply elem_of_pfree in Hdr as [Hdr _]. destruct (sh_refs _ _ _ Hs) as [rl Hrl].
  apply (hold_page st g H T pdpt pd s' d); try done.
  - rewrite Es. by unfold same_layout.
  - rewrite Es. cbn. rewrite Hrl. by eexists.
  - intros x Hx. rewrite Es. by rewrite (refcount_put _ d x 0 rl); [|done|pose proof (po_refs _ (sh_pmm _ _ _ Hs) rl Hrl); lia|lia].
Qed.

Lemma vm_free st g H T pdpt pd a : ktables st g H T pdpt pd -> a ∈ H ->
  ktables (set_pm (mm_free_physical_page a (pm st)) st) (mk_ghost (gT g) (gM g) (gH g ∖ {[a]}) (gL g)) (H ∖ {[a]}) T pdpt pd /\
  same_layout st (set_pm (mm_free_physical_page a (pm st)) st).
Proof.
  intros Hk Ha. pose proof (kt_inv _ _ _ _ _ _ Hk) as Hv. destruct (kt_heap _ _ _ _ _ _ Hk a Ha) as (HaH & d & Hd & Ea).
  pose proof (free_held live st g d Hv) as Hf. rewrite <- Ea in Hf. specialize (Hf HaH Hd). destruct Hv as (Hs & _).
  assert (Hl : same_layout st (set_pm (mm_free_physical_page a (pm st)) st)).
  { destruct (mm_free_spec (pm st) d (sh_pmm _ _ _ Hs) Hd) as (_ & _ & E). rewrite <- Ea in E. rewrite E.
    unfold same_layout, released. destruct (is_page_allocated _ _); [|done]. cbn. by destruct (_ <? _). }
  split; [|done]. apply (ktables_pm st g _ H); try done; cbn [gH].
  - intros x Hx. apply elem_of_difference in Hx as [Hx Hne]. destruct (kt_heap _ _ _ _ _ _ Hk x Hx) as [? _]. set_solver.
  - intros x Hx. apply (kt_heap _ _ _ _ _ _ Hk). set_solver.
  - intros k f E. destruct (kt_table _ _ _ _ _ _ Hk k f E) as [H1 H2]. set_solver.
Qed.

(** *** Runs of pages *)

Lemma take_run ps : forall st g H T pdpt pd, ktables st g H T pdpt pd -> NoDup ps -> (forall d, d ∈ ps -> d ∈ pfree (pm st)) ->
  let s' := foldl take_page (pm st) ps in
  list_to_set (page_addr (pm st) <$> ps) ## H /\ exists g', ktables (set_pm s' st) g' (list_to_set (page_addr (pm st) <$> ps) ∪ H) T pdpt pd.
Proof.
  induction ps as [|d ps IH]; intros st g H T pdpt pd Hk Hnd Hin.
  { cbn. split; [set_solver|]. exists g. rewrite set_pm_same, union_empty_l_L. done. }
  apply NoDup_cons in Hnd as [Hd Hnd]. pose proof (kt_inv _ _ _ _ _ _ Hk) as Hv. pose proof Hv as (Hs & _).
  assert (Hdf : d ∈ pfree (pm st)) by (apply Hin; left). destruct (take_page_ok (pm st) d (sh_pmm _ _ _ Hs) Hdf) as (Hok & Hfr & Hrc).
  destruct (hold_page st g H T pdpt pd (take_page (pm st) d) d Hk Hdf Hok Hfr) as [Hn Hk1]; [done|rewrite Hrc; apply (sh_refs _ _ _ Hs)| |].
  { intros x Hx. destruct (decide (x = d)) as [->|]; [|done]. exact (free_refcount st g d Hv Hdf). }
  destruct (IH _ _ _ _ _ _ Hk1 Hnd) as [Hdis (g' & Hk')].
  { intros x Hx. cbn [pm set_pm]. rewrite Hfr. assert (x <> d) by congruence. specialize (Hin x ltac:(by right)). set_solver. }
  cbn [foldl fmap list_fmap list_to_set]. change (page_addr (pm (set_pm (take_page (pm st) d) st))) with (page_addr (pm st)) in *.
  split; [set_solver|]. exists g'. cbn [pm set_pm] in Hk'. by rewrite (union_comm_L {[_]}), <- union_assoc_L.
Qed.

Lemma frames_run s start n : frames_at (page_addr s start) n = list_to_set (page_addr s <$> seqZ start n).
Proof.
  apply set_eq. intros x. rewrite elem_of_frames_at, elem_of_list_to_set, list_elem_of_fmap. unfold page_addr. split.
  - intros (i & Hi & ->). exists (start + i). split; [lia|]. apply elem_of_seqZ. lia.
  - intros (d & -> & Hd%elem_of_seqZ). exists (d - start). split; [lia|lia].
Qed.

Lemma vm_alloc_n st g H T pdpt pd n s' a : ktables st g H T pdpt pd -> 0 < n -> mm_allocate_contiguous_pages (pm st) n = (s', a) ->
  (a = 0 /\ s' = pm st) \/
  (a <> 0 /\ frames_at a n ## H /\ exists g', ktables (set_pm s' st) g' (frames_at a n ∪ H) T pdpt pd).
Proof.
  intros Hk Hn E. destruct (kt_inv _ _ _ _ _ _ Hk) as (Hs & _). pose proof (contiguous_spec (pm st) n (sh_pmm _ _ _ Hs) Hn) as Ha. rewrite E in Ha.
  destruct Ha as [(-> & -> & _)|(start & _ & _ & Hsub & _ & -> & Hne & _ & _ & ->)]; [by left|right]. split; [done|]. rewrite frames_run.
  apply (take_run _ st g H T pdpt pd Hk (NoDup_seqZ _ _)). intros d Hd. apply Hsub. by apply elem_of_list_to_set.
Qed.

Lemma vm_free_n n : forall st g H T pdpt pd a i, ktables st g H T pdpt pd -> 0 <= i -> 0 < a -> frames_at (a + i * PAGE_SIZE) (Z.of_nat n) ⊆ H ->
  let s' := foldl (fun s i => mm_free_physical_page (u64 (a + i * PAGE_SIZE)) s) (pm st) (seqZ i (Z.of_nat n)) in
  exists g', ktables (set_pm s' st) g' (H ∖ frames_at (a + i * PAGE_SIZE) (Z.of_nat n)) T pdpt pd.
Proof.
  induction n as [|n IH]; intros st g H T pdpt pd a i Hk Hi Ha Hsub.
  { exists g. rewrite seqZ_nil by lia. cbn [foldl]. rewrite set_pm_same. change (frames_at _ (Z.of_nat 0)) with (∅ : gset Z). by rewrite difference_empty_L. }
  assert (Hin : a + i * PAGE_SIZE ∈ H). { apply Hsub, elem_of_frames_at. exists 0. lia. }
  destruct (vm_free st g H T pdpt pd _ Hk Hin) as [Hk1 _]. destruct (kt_heap _ _ _ _ _ _ Hk _ Hin) as (_ & d & Hd & Ed).
  destruct (kt_inv _ _ _ _ _ _ Hk) as (Hs & _). pose proof (po_range _ (sh_pmm _ _ _ Hs)) as Hr.
  rewrite seqZ_cons by lia. cbn [foldl]. replace (Z.pred (Z.of_nat (S n))) with (Z.of_nat n) by lia. replace (Z.succ i) with (i + 1) by lia.
  rewrite u64_small by (rewrite Ed; unfold page_addr, PAGE_SIZE in *; lia).
  assert (Ef : frames_at (a + i * PAGE_SIZE) (Z.of_nat (S n)) = {[a + i * PAGE_SIZE]} ∪ frames_at (a + (i + 1) * PAGE_SIZE) (Z.of_nat n)).
  { apply set_eq. intros x. rewrite elem_of_union, elem_of_singleton, !elem_of_frames_at. split.
    - intros (j & Hj & ->). destruct (decide (j = 0)) as [->|]; [left; lia|right]. exists (j - 1). lia.
    - intros [->|(j & Hj & ->)]; [exists 0; lia|]. exists (j + 1). lia. }
  rewrite Ef in *. destruct (IH _ _ _ _ _ _ a (i + 1) Hk1 ltac:(lia) Ha) as (g' & Hk').
  { intros x Hx. assert (x <> a + i * PAGE_SIZE); [|set_solver]. apply elem_of_frames_at in Hx as (j & Hj & ->). unfold PAGE_SIZE. lia. }
  exists g'. cbn [pm set_pm] in Hk'. by rewrite <- difference_difference_l_L.
Qed.

(** ** Mapping *)

Lemma put_held_inv dead st g f i v : vinv dead st g -> f ∈ gH g -> vinv dead (put_word f i v st) g.
Proof. intros (Hs & Hc & Ha) Hf. split_and!; [by apply put_held|done|done]. Qed.

(** A store to one of the tables that leaves the links alone. *)
Lemma put_entry st g H T pdpt pd i pt l v : ktables st g H T pdpt pd -> T !! [511; 510; i]%nat = Some pt -> ktables (put_word pt l v st) g H T pdpt pd.
Proof.
  intros Hk Ep. destruct (kt_table _ _ _ _ _ _ Hk _ _ Ep) as [Hpt _]. destruct (kt_pdpt _ _ _ _ _ _ Hk) as [P1 P2]. destruct (kt_pd _ _ _ _ _ _ Hk) as [Q1 Q2].
  assert (Hne : forall k f, T !! k = Some f -> k <> [511; 510; i]%nat -> f <> pt).
  { intros k f E Hkne ->. by apply Hkne, (kt_inj _ _ _ _ _ _ Hk k _ pt). }
  pose proof (kt_root _ _ _ _ _ _ Hk) as R. pose proof (put_held_inv live st g pt l v (kt_inv _ _ _ _ _ _ Hk) Hpt) as Hv.
  constructor; try apply Hk; try done.
  - split; [done|]. by rewrite word_put_ne by (left; by apply (Hne [])).
  - split; [done|]. by rewrite word_put_ne by (left; by apply (Hne [511%nat])).
  - intros j Hj. rewrite word_put_ne by (left; by apply (Hne [511; 510]%nat)). by apply (kt_pt _ _ _ _ _ _ Hk).
Qed.

Lemma leaf_put st g H T pdpt pd va w pt v : ktables st g H T pdpt pd -> heap_page va -> heap_page w -> T !! [511; 510; pd_index va]%nat = Some pt ->
  leaf (put_word pt (pt_index va) v st) T w = if w =? va then (if has v PAGE_PRESENT then pte_addr v else 0) else leaf st T w.
Proof.
  intros Hk Hv Hw Ep. unfold leaf. destruct (Z.eqb_spec w va) as [->|Hne].
  - rewrite Ep. cbn zeta. destruct (table_phys _ _ _ _ _ _ Hk _ _ Ep) as (_ & _ & Hws). destruct (heap_index va Hv) as (_ & _ & _ & Hl & _).
    by rewrite word_put_eq.
  - destruct (T !! [511; 510; pd_index w]%nat) as [pt'|] eqn:E'; [|done]. cbn zeta. rewrite word_put_ne; [done|].
    destruct (decide (pt' = pt)) as [->|]; [|by left]. right. intros El. apply Hne. apply index_inj; try done.
    pose proof (kt_inj _ _ _ _ _ _ Hk _ _ _ Ep E') as Eq. congruence.
Qed.

Lemma alloc_pt_kernel st st' f : allocate_pt_page st = (st', f) -> g_kernel_pml4_phys st' = g_kernel_pml4_phys st.
Proof.
  unfold allocate_pt_page. cbn zeta. destruct (negb _); [by intros [= <- <-]|]. destruct (_ <? _); [by intros [= <- <-]|].
  destruct (mm_allocate_physical_page (pm st)) as [s a]. by destruct (a =? 0); intros [= <- <-].
Qed.

(** A new table of the lowest level. *)
Lemma new_table st g H T pdpt pd i st1 f :
  ktables st g H T pdpt pd -> (64 <= i < 128)%nat -> T !! [511; 510; i]%nat = None -> allocate_pt_page st = (st1, f) -> f <> 0 ->
  let st' := put_word pd i (Z.lor f (table_flags false)) st1 in
  exists g', ktables st' g' H (<[[511; 510; i]%nat := f]> T) pdpt pd /\ g_kernel_pml4_phys st' = g_kernel_pml4_phys st /\
    forall w, heap_page w -> leaf st' (<[[511; 510; i]%nat := f]> T) w = leaf st T w.
Proof.
  intros Hk Hi En Ea Hf0 st'. pose proof (kt_inv _ _ _ _ _ _ Hk) as Hv. pose proof Hv as (Hs & _). pose proof (alloc_pt_kernel _ _ _ Ea) as Eg.
  destruct (alloc_pt_inv live st g st1 f Hv Ea) as [[? _]|(_ & Hp & Hf & Hl & Efr & L & Hv1)]; [done|].
  destruct (kt_pdpt _ _ _ _ _ _ Hk) as [P1 P2]. destruct (kt_pd _ _ _ _ _ _ Hk) as [Q1 Q2]. pose proof (kt_root _ _ _ _ _ _ Hk) as R1.
  assert (HfH : f ∉ gH g) by (intros Hin; by destruct (sh_held _ _ _ Hs f Hin)). pose proof (phys_page_frame _ _ _ Hs f Hp) as Hfo.
  assert (Hne : forall k t, T !! k = Some t -> t <> f) by (intros k t E ->; by destruct (kt_table _ _ _ _ _ _ Hk k f E) as [? _]).
  assert (Hw1 : forall t j, t <> f -> word st1 t j = word st t j) by (intros t j Ht; unfold word; by rewrite Efr, lookup_insert_ne).
  assert (Hpd : forall k t, T !! k = Some t -> k <> [511; 510]%nat -> t <> pd) by (intros k t E Hkne ->; by apply Hkne, (kt_inj _ _ _ _ _ _ Hk k _ pd)).
  assert (Hw : forall t j, t <> f -> t <> pd \/ j <> i -> word st' t j = word st t j).
  { intros t j Ht Hd. unfold st'. rewrite word_put_ne by done. by apply Hw1. }
  destruct (kt_table _ _ _ _ _ _ Hk _ _ Q1) as [HpdH _]. set (g' := mk_ghost (gT g) (gM g) ({[f]} ∪ gH g) L) in *.
  assert (Hv' : vinv live st' g') by (apply put_held_inv; [done|set_solver]). exists g'. split_and!.
  - constructor; try done.
    + intros a Ha. destruct (kt_heap _ _ _ _ _ _ Hk a Ha) as (H1 & d & H2 & ->). split; [set_solver|]. destruct Hl as (_ & _ & E3 & E4).
      exists d. unfold st', page_addr. cbn [pm put_word set_frames]. by rewrite E3, E4.
    + intros k t E. destruct (decide (k = [511; 510; i]%nat)) as [->|Hkne].
      * rewrite lookup_insert_eq in E. injection E as <-. split; [set_solver|]. intros Hin. by destruct (kt_heap _ _ _ _ _ _ Hk f Hin) as [? _].
      * rewrite lookup_insert_ne in E by done. destruct (kt_table _ _ _ _ _ _ Hk k t E) as [H1 H2]. split; [set_solver|done].
    + intros k k' t. destruct (decide (k = [511; 510; i]%nat)) as [->|H1], (decide (k' = [511; 510; i]%nat)) as [->|H2];
        rewrite ?lookup_insert_eq, ?lookup_insert_ne by done; [done| | |by apply (kt_inj _ _ _ _ _ _ Hk)].
      * intros [= <-] E. by apply Hne in E.
      * intros E [= <-]. by apply Hne in E.
    + rewrite lookup_insert_ne by done. unfold st'. cbn. by rewrite Eg.
    + rewrite lookup_insert_ne by done. split; [done|]. change (g_kernel_pml4_phys st') with (g_kernel_pml4_phys st1).
      rewrite Eg, Hw; [done|by eapply Hne|left; by eapply Hpd].
    + rewrite lookup_insert_ne by done. split; [done|]. rewrite Hw; [done|by eapply Hne|left; by eapply Hpd].
    + intros j Hj. destruct (decide (j = i)) as [->|Hji].
      * rewrite lookup_insert_eq. unfold st'. rewrite word_put_eq; [|destruct (table_phys _ _ _ _ _ _ Hk _ _ Q1) as (_ & _ & ws & Ew & Hlen)|lia].
        -- split_and!; [by rewrite has_frame by done|by rewrite has_frame by done|by apply pte_addr_frame].
        -- exists ws. by rewrite Efr, lookup_insert_ne by (symmetry; by eapply Hne).
      * rewrite lookup_insert_ne by congruence. rewrite Hw by (by eapply Hne || right). by apply (kt_pt _ _ _ _ _ _ Hk).
  - exact Eg.
  - intros w Hwp. unfold leaf. destruct (heap_index w Hwp) as (_ & _ & _ & Hlt & _). destruct (decide (pd_index w = i)) as [->|Hji].
    + rewrite lookup_insert_eq, En. cbn zeta. unfold st'. rewrite word_put_ne by (left; intros ->; by eapply Hne).
      unfold word. rewrite Efr, lookup_insert_eq. cbn [mbind option_bind]. unfold zero_page. by rewrite lookup_replicate_2.
    + rewrite lookup_insert_ne by congruence. destruct (T !! [511; 510; pd_index w]%nat) as [pt|] eqn:Ept; [|done].
      rewrite Hw; [done|by eapply Hne|left; by eapply Hpd].
Qed.

(** The walk that creates the table it does not find. *)
Lemma walk_create st g H T pdpt pd va : ktables st g H T pdpt pd -> heap_page va ->
  match mm_get_page_table st (g_kernel_pml4_phys st) va true with
  | (st', Some (pt, l)) => l = pt_index va /\ g_kernel_pml4_phys st' = g_kernel_pml4_phys st /\
      exists g' T', ktables st' g' H T' pdpt pd /\ T' !! [511; 510; pd_index va]%nat = Some pt /\ forall w, heap_page w -> leaf st' T' w = leaf st T w
  | (st', None) => st' = st
  end.
Proof.
  intros Hk Hv. destruct (heap_index va Hv) as (E1 & E2 & Hi & _). destruct (kt_pdpt _ _ _ _ _ _ Hk) as (_ & P1 & P2 & P3).
  destruct (kt_pd _ _ _ _ _ _ Hk) as (_ & Q1 & Q2 & Q3). pose proof (kt_pt _ _ _ _ _ _ Hk (pd_index va) Hi) as Hpt.
  unfold mm_get_page_table, next_table. rewrite E1, P1. cbn [negb andb]. rewrite P3, E2, Q1. cbn [negb andb]. rewrite Q3. fold (pd_index va).
  unfold is_large. destruct (T !! [511; 510; pd_index va]%nat) as [pt|] eqn:Ep.
  - destruct Hpt as (R1 & R2 & R3). rewrite R1, R2. cbn [andb negb fmap option_fmap option_map]. rewrite R3. split_and!; try done. by exists g, T.
  - rewrite Hpt. cbn [andb negb]. destruct (allocate_pt_page st) as [st1 f] eqn:Ea. destruct (Z.eqb_spec f 0) as [->|Hf].
    + cbn [fmap option_fmap option_map]. by destruct (alloc_pt_inv live st g st1 0 (kt_inv _ _ _ _ _ _ Hk) Ea) as [[_ ?]|[? _]].
    + cbn [fmap option_fmap option_map]. destruct (new_table st g H T pdpt pd (pd_index va) st1 f Hk Hi Ep Ea Hf) as (g' & Hk' & Eg & Hlf).
      split_and!; [done|done|]. exists g', (<[[511; 510; pd_index va]%nat := f]> T). by rewrite lookup_insert_eq.
Qed.

Lemma slab_entry a : frame_ok a -> has (pte_of a slab_flags) PAGE_PRESENT = true /\ pte_addr (pte_of a slab_flags) = a.
Proof.
  intros Ha. destruct (pte_of_frame a slab_flags Ha) as [E Hh]; [right; exists (Z.lor PAGE_PRESENT PAGE_WRITABLE); done|].
  split; [|done]. by rewrite Hh.
Qed.

Lemma vm_map st H va a st' b : heap_pages st H -> heap_page va -> a ∈ H -> mm_map_page st (g_kernel_pml4_phys st) va a slab_flags = (st', b) ->
  heap_pages st' H /\ forall w, heap_page w -> mm_get_physical_address st' (g_kernel_pml4_phys st') w =
    if b && (w =? va) then a else mm_get_physical_address st (g_kernel_pml4_phys st) w.
Proof.
  intros (g & T & pdpt & pd & Hk) Hv Ha E. unfold mm_map_page in E. pose proof (walk_create st g H T pdpt pd va Hk Hv) as Hw.
  destruct (mm_get_page_table st (g_kernel_pml4_phys st) va true) as [st1 [[pt l]|]]; injection E as <- <-.
  2:{ subst st1. split; [by exists g, T, pdpt, pd|done]. }
  destruct Hw as (-> & Eg & g' & T' & Hk1 & Ep & Hlf). pose proof (put_entry _ _ _ _ _ _ _ pt (pt_index va) (pte_of a slab_flags) Hk1 Ep) as Hk2.
  split; [by exists g', T', pdpt, pd|]. intros w Hw. rewrite (phys_leaf _ _ _ _ _ _ Hk2), (phys_leaf _ _ _ _ _ _ Hk) by done.
  rewrite (leaf_put _ _ _ _ _ _ _ _ _ _ Hk1 Hv Hw Ep), Hlf by done. destruct (kt_heap _ _ _ _ _ _ Hk a Ha) as [HaH _].
  destruct (kt_inv _ _ _ _ _ _ Hk) as (Hs & _). destruct (sh_held _ _ _ Hs a HaH) as [Hp _].
  destruct (slab_entry a (phys_page_frame _ _ _ Hs a Hp)) as [-> ->]. done.
Qed.

Lemma vm_unmap st H va : heap_pages st H -> heap_page va ->
  heap_pages (mm_unmap_page st (g_kernel_pml4_phys st) va) H /\ forall w, heap_page w ->
    mm_get_physical_address (mm_unmap_page st (g_kernel_pml4_phys st) va) (g_kernel_pml4_phys (mm_unmap_page st (g_kernel_pml4_phys st) va)) w =
    if w =? va then 0 else mm_get_physical_address st (g_kernel_pml4_phys st) w.
Proof.
  intros (g & T & pdpt & pd & Hk) Hv. unfold mm_unmap_page. rewrite (walk_find _ _ _ _ _ _ Hk) by done.
  assert (Hsame : leaf st T va = 0 -> forall w, heap_page w ->
    mm_get_physical_address st (g_kernel_pml4_phys st) w = if w =? va then 0 else mm_get_physical_address st (g_kernel_pml4_phys st) w).
  { intros E0 w Hw. destruct (Z.eqb_spec w va) as [->|]; [|done]. by rewrite (phys_leaf _ _ _ _ _ _ Hk). }
  destruct (T !! [511; 510; pd_index va]%nat) as [pt|] eqn:Ep; cbn [fmap option_fmap option_map].
  2:{ split; [by exists g, T, pdpt, pd|]. apply Hsame. unfold leaf. by rewrite Ep. }
  destruct (has (word st pt (pt_index va)) PAGE_PRESENT) eqn:Eh.
  2:{ split; [by exists g, T, pdpt, pd|]. apply Hsame. unfold leaf. by rewrite Ep, Eh. }
  pose proof (put_entry _ _ _ _ _ _ _ pt (pt_index va) 0 Hk Ep) as Hk2. split; [by exists g, T, pdpt, pd|]. intros w Hw.
  rewrite (phys_leaf _ _ _ _ _ _ Hk2), (phys_leaf _ _ _ _ _ _ Hk) by done. by rewrite (leaf_put _ _ _ _ _ _ _ _ _ _ Hk Hv Hw Ep).
Qed.

(** ** The interface *)

Section Laws.
Context (caches : Z) (Hcaches : 0xFFFFFFFF80000000 <= caches /\ caches + 7 * sizeof_slab_cache < 2 ^ 64).

#[local] Instance vm_ops : PageOps vm := vm_pages caches.

Lemma vm_law_page st H a : heap_pages st H -> a ∈ H -> 0 < a < 2 ^ 52 /\ a mod PAGE_SIZE = 0.
Proof.
  intros (g & T & pdpt & pd & Hk) Ha. destruct (kt_heap _ _ _ _ _ _ Hk a Ha) as [HaH _]. destruct (kt_inv _ _ _ _ _ _ Hk) as (Hs & _).
  destruct (sh_held _ _ _ Hs a HaH) as [Hp _]. by destruct (phys_page_frame _ _ _ Hs a Hp).
Qed.

Lemma vm_law_alloc st H st' a : heap_pages st H -> pg_alloc st = (st', a) ->
  same_maps st st' /\ ((a = 0 /\ heap_pages st' H) \/ (a <> 0 /\ a ∉ H /\ heap_pages st' ({[a]} ∪ H))).
Proof.
  intros (g & T & pdpt & pd & Hk) E. cbn in E. destruct (mm_allocate_physical_page (pm st)) as [s' a'] eqn:Ea. injection E as <- <-.
  destruct (vm_alloc _ _ _ _ _ _ _ _ Hk Ea) as [[-> ->]|(Hne & Hn & Hk')].
  - rewrite set_pm_same. split; [done|]. left. split; [done|by exists g, T, pdpt, pd].
  - split; [intros v Hv; by eapply pm_maps|]. right. split_and!; [done|done|]. by eexists _, T, pdpt, pd.
Qed.

Lemma vm_law_free st H a : heap_pages st H -> a ∈ H -> same_maps st (pg_free a st) /\ heap_pages (pg_free a st) (H ∖ {[a]}).
Proof.
  intros (g & T & pdpt & pd & Hk) Ha. destruct (vm_free _ _ _ _ _ _ a Hk Ha) as [Hk' _].
  split; [intros v Hv; by eapply pm_maps|]. by eexists _, T, pdpt, pd.
Qed.

Lemma vm_law_alloc_n st H n st' a : heap_pages st H -> 0 < n -> pg_alloc_n st n = (st', a) ->
  same_maps st st' /\ ((a = 0 /\ heap_pages st' H) \/ (a <> 0 /\ frames_at a n ## H /\ heap_pages st' (frames_at a n ∪ H))).
Proof.
  intros (g & T & pdpt & pd & Hk) Hn E. cbn in E. destruct (mm_allocate_contiguous_pages (pm st) n) as [s' a'] eqn:Ea. injection E as <- <-.
  destruct (vm_alloc_n _ _ _ _ _ _ _ _ _ Hk Hn Ea) as [[-> ->]|(Hne & Hd & g' & Hk')].
  - rewrite set_pm_same. split; [done|]. left. split; [done|by exists g, T, pdpt, pd].
  - split; [intros v Hv; by eapply pm_maps|]. right. split_and!; [done|done|]. by exists g', T, pdpt, pd.
Qed.

Lemma vm_law_free_n st H a n : heap_pages st H -> frames_at a n ⊆ H -> same_maps st (pg_free_n st a n) /\ heap_pages (pg_free_n st a n) (H ∖ frames_at a n).
Proof.
  intros Hp Hsub. pose proof Hp as (g & T & pdpt & pd & Hk). destruct (Z.lt_ge_cases 0 n) as [Hn|Hn].
  - assert (Ha : 0 < a). { apply (vm_law_page st H a Hp), Hsub, elem_of_frames_at. exists 0. unfold PAGE_SIZE. lia. }
    destruct (vm_free_n (Z.to_nat n) st g H T pdpt pd a 0 Hk ltac:(lia) Ha) as (g' & Hk'); [by rewrite Z2Nat.id, Z.add_0_r by lia|].
    rewrite Z2Nat.id, Z.add_0_r in Hk' by lia. split; [intros v Hv; by eapply pm_maps|]. by exists g', T, pdpt, pd.
  - cbn. unfold mm_free_contiguous_pages. rewrite seqZ_nil by lia. cbn [foldl]. rewrite set_pm_same. split; [done|].
    assert (E : frames_at a n = ∅) by (unfold frames_at; by rewrite seqZ_nil by lia). by rewrite E, difference_empty_L.
Qed.

#[local] Instance vm_laws : PageLaws vm := {|
  pg_ok := heap_pages;
  law_caches := Hcaches;
  law_page := vm_law_page;
  law_alloc := vm_law_alloc;
  law_free := vm_law_free;
  law_alloc_n := vm_law_alloc_n;
  law_free_n := vm_law_free_n;
  law_map := vm_map;
  law_unmap := vm_unmap;
|}.

End Laws.
