(* ===== verification/SlabRun.v ===== *)
(** * The kernel heap on the kernel's pages

    The heap with the physical memory manager and the page tables behind it: what its
    clients are promised, with the machines that show that the promises are about
    something. *)

From Stdlib Require Import ZArith Lia Bool.
From stdpp Require Import base list gmap.
From S2P Require Import Prelude Wire Pmm Paging AddressSpace Fork Destroy UserMemory Brk Memory.
From S2P Require Import Slab SlabParts SlabSpace SlabLists SlabHeap SlabOps SlabAlloc SlabFree SlabCalls SlabRefines SlabPages.

Open Scope Z_scope.

Section Kernel.
Context (caches : Z) (Hcaches : 0xFFFFFFFF80000000 <= caches /\ caches + 7 * sizeof_slab_cache < 2 ^ 64).

#[local] Instance kernel_ops : PageOps vm := vm_ops caches.
#[local] Instance kernel_laws : PageLaws vm := vm_laws caches Hcaches.


End Kernel.

(** ** A small machine *)

Definition kvm_1 : vm := (allocate_pt_page demo_vm).1.
Definition kvm_2 : vm := (allocate_pt_page kvm_1).1.
Definition kvm_3 : vm := (allocate_pt_page kvm_2).1.
Definition kvm_4 : vm := put_word 0x10000 511 0x11003 (put_word 0x11000 510 0x12003 kvm_3).

Definition demo_kvm : vm :=
  mk_vm (pm kvm_4) (frames kvm_4) (pt_pool_phys_start kvm_4) (pt_pool_size kvm_4) (pt_pool_next kvm_4) (pt_pool_freelist kvm_4) 0x10000.

Lemma kvm_pages : (allocate_pt_page demo_vm).2 = 0x10000 /\ (allocate_pt_page kvm_1).2 = 0x11000 /\ (allocate_pt_page kvm_2).2 = 0x12000.
Proof. split_and!; by vm_compute. Qed.

Lemma kvm_inv : exists g, vinv live kvm_4 g /\ gH g = {[0x12000]} ∪ ({[0x11000]} ∪ ({[0x10000]} ∪ ∅)).
Proof.
  destruct demo_ok as (g & Hv & _ & Hg & _). destruct kvm_pages as (E1 & E2 & E3).
  destruct (alloc_pt_inv live demo_vm g kvm_1 0x10000 Hv) as [[? _]|(_ & _ & _ & _ & _ & L1 & Hv1)]; [rewrite <- E1; apply surjective_pairing|done|].
  destruct (alloc_pt_inv live kvm_1 _ kvm_2 0x11000 Hv1) as [[? _]|(_ & _ & _ & _ & _ & L2 & Hv2)]; [rewrite <- E2; apply surjective_pairing|done|].
  destruct (alloc_pt_inv live kvm_2 _ kvm_3 0x12000 Hv2) as [[? _]|(_ & _ & _ & _ & _ & L3 & Hv3)]; [rewrite <- E3; apply surjective_pairing|done|].
  cbn [gT gM gH gL] in *. rewrite Hg in *. exists (mk_ghost (gT g) (gM g) ({[0x12000]} ∪ ({[0x11000]} ∪ ({[0x10000]} ∪ ∅))) L3). split; [|done].
  apply put_held_inv; [apply put_held_inv; [exact Hv3|]|]; cbn [gH]; set_solver.
Qed.

Definition kvm_tables : gmap (list nat) Z := <[[] := 0x10000]> (<[[511%nat] := 0x11000]> (<[[511; 510]%nat := 0x12000]> ∅)).

Lemma kvm_tables_lookup k f : kvm_tables !! k = Some f ->
  (k = [] /\ f = 0x10000) \/ (k = [511%nat] /\ f = 0x11000) \/ (k = [511; 510]%nat /\ f = 0x12000).
Proof. unfold kvm_tables. rewrite !lookup_insert_Some, lookup_empty. naive_solver. Qed.

Lemma kvm_pd_empty : forallb (fun i => negb (has (word demo_kvm 0x12000 i) PAGE_PRESENT)) (seq 64 64) = true.
Proof. by vm_compute. Qed.

(** The invariant does not depend on the kernel's root table. *)
Lemma vinv_kernel dead pm frames start size next freelist root root' g :
  vinv dead (mk_vm pm frames start size next freelist root) g -> vinv dead (mk_vm pm frames start size next freelist root') g.
Proof.
  intros ([] & Hc & Ha). split_and!; [constructor; try assumption|done|done]. destruct sh_list as (H1 & H2 & H3).
  split_and!; [|done|done]. by eapply flist_ext; [|exact H1].
Qed.

Lemma kvm_ok : exists g, ktables demo_kvm g ∅ kvm_tables 0x11000 0x12000.
Proof.
  destruct kvm_inv as (g & Hv & Hg). exists g. constructor.
  - unfold demo_kvm. apply (vinv_kernel _ _ _ _ _ _ _ (g_kernel_pml4_phys kvm_4)). generalize dependent kvm_4. by intros [].
  - set_solver.
  - intros k f [[_ ->]|[[_ ->]|[_ ->]]]%kvm_tables_lookup; rewrite Hg; set_solver.
  - intros k k' f H1%kvm_tables_lookup H2%kvm_tables_lookup. naive_solver.
  - done.
  - split; [done|]. split_and!; by vm_compute.
  - split; [done|]. split_and!; by vm_compute.
  - intros i Hi. destruct (kvm_tables !! [511; 510; i]%nat) as [f|] eqn:E; [by apply kvm_tables_lookup in E as [[? _]|[[? _]|[? _]]]|].
    pose proof kvm_pd_empty as Hp. eapply forallb_forall in Hp; [by apply negb_true_iff, Hp|]. apply in_seq. lia.
Qed.

Definition demo_caches : Z := 0xFFFFFFFF80200000.

#[local] Instance demo_ops : PageOps vm := vm_ops demo_caches.

Lemma demo_caches_ok : 0xFFFFFFFF80000000 <= demo_caches /\ demo_caches + 7 * sizeof_slab_cache < 2 ^ 64.
Proof. by vm_compute. Qed.

#[local] Instance demo_laws : PageLaws vm := vm_laws demo_caches demo_caches_ok.

Definition demo_heap : heap vm := mk_heap [] ∅ (fun _ => 0) SLAB_VIRT_BASE [] (mk_stats 0 0 0 0 0 0 0) false demo_kvm.

Lemma demo_boot : boot demo_heap.
Proof.
  destruct kvm_ok as (g & Hk). split_and!; [done|done|done|by exists g, kvm_tables, 0x11000, 0x12000|].
  intros v Hv. etrans; [exact (phys_leaf _ _ _ _ _ _ Hk v Hv)|]. unfold leaf.
  destruct (kvm_tables !! [511; 510; pd_index v]%nat) as [f|] eqn:E; [|done]. by apply kvm_tables_lookup in E as [[? _]|[[? _]|[? _]]].
Qed.

(** ** Sequences of calls *)

Inductive call :=
  | CAlloc (size : Z)
  | CFree (p : Z)
  | CStore (p off : Z) (bs : list Z)
  | CLoad (p off : Z) (n : nat).

Definition play1 (c : call) (s : heap vm) : option (heap vm * event) :=
  match c with
  | CAlloc size => if 0 <=? size then let '(s', p) := slab_alloc size s in Some (s', EAlloc size p) else None
  | CFree p => if forged s p then None else s' ← slab_free p s; Some (s', EFree p)
  | CStore p off bs => Some (store_bytes (p + off) bs s, EStore p off bs)
  | CLoad p off n => bs ← load_bytes s (p + off) n; Some (s, ELoad p off bs)
  end.

Fixpoint play (cs : list call) (s : heap vm) : option (heap vm * list event) :=
  match cs with
  | [] => Some (s, [])
  | c :: cs' => '(s1, e) ← play1 c s; '(s', tr) ← play cs' s1; Some (s', e :: tr)
  end.

Lemma play_run cs : forall s s' tr, play cs s = Some (s', tr) -> SlabRefines.run (s, []) tr (s', []).
Proof.
  induction cs as [|c cs IH]; intros s s' tr E; cbn [play] in E; [injection E as -> <-; apply run_nil|].
  destruct (play1 c s) as [[s1 e]|] eqn:E1; [|done]. cbn [mbind option_bind] in E. destruct (play cs s1) as [[s2 tr']|] eqn:E2; [|done].
  cbn [mbind option_bind] in E. injection E as <- <-. apply (run_app _ [e] (s1, [])); [|by apply IH].
  destruct c as [size|p|p off bs|p off n]; cbn [play1] in E1.
  - destruct (Z.leb_spec 0 size); [|done]. destruct (slab_alloc size s) as [s3 p] eqn:E3. injection E1 as <- <-. by apply slab_alloc_run.
  - destruct (forged s p) eqn:Ef; [done|]. destruct (slab_free p s) as [s3|] eqn:E3; [|done]. injection E1 as <- <-. by apply slab_free_run.
  - injection E1 as <- <-. eapply run_event; [apply step_store|apply run_nil].
  - destruct (load_bytes s (p + off) n) as [bs|] eqn:E3; [|done]. injection E1 as <- <-. eapply run_event; [by apply (step_load _ _ _ _ n)|apply run_nil].
Qed.

Lemma some_pair_is {A B} (x : option (A * B)) d b : snd <$> x = Some b -> x = Some (default d (fst <$> x), b).
Proof. destruct x as [[a b']|]; [|done]. by intros [= ->]. Qed.

(** The heap after the calls. *)
Definition played (cs : list call) : heap vm := default (slab_init demo_heap) (fst <$> play cs (slab_init demo_heap)).

Lemma played_run cs tr : snd <$> play cs (slab_init demo_heap) = Some tr -> SlabRefines.run (slab_init demo_heap, []) tr (played cs, []).
Proof. intros E. apply (play_run cs). exact (some_pair_is (play cs (slab_init demo_heap)) (slab_init demo_heap) tr E). Qed.

Lemma played_sim cs tr lv : snd <$> play cs (slab_init demo_heap) = Some tr -> live_after ∅ tr = Some lv -> exists A, lives lv A /\ sim (played cs, []) A.
Proof.
  intros E Hl. destruct (slab_refines demo_heap tr (played cs, []) lv demo_boot) as (A & _ & ? & ?); [by apply played_run|done|]. by exists A.
Qed.

(** Four blocks of 1000 bytes, in two pages, and a large one; then the four are freed. *)
Definition blocks_at : list Z := [0xFFFFFFFF88000070; 0xFFFFFFFF88000470; 0xFFFFFFFF88000870; 0xFFFFFFFF88001070].
Definition block_at : Z := 0xFFFFFFFF88000470.
Definition large_at : Z := 0xFFFFFFFF88002018.

Definition used : list call :=
  replicate 4 (CAlloc 1000) ++ [CAlloc 3000; CStore block_at 0 [1; 2; 3]; CStore large_at 2990 [7]; CLoad block_at 1 2; CLoad large_at 2990 1].

Definition used_trace : list event :=
  (EAlloc 1000 <$> blocks_at) ++
  [EAlloc 3000 large_at; EStore block_at 0 [1; 2; 3]; EStore large_at 2990 [7]; ELoad block_at 1 [2; 3]; ELoad large_at 2990 [7]].

Definition freed : list call := used ++ (CFree <$> blocks_at).
Definition freed_trace : list event := used_trace ++ (EFree <$> blocks_at).

(** One evaluation for everything that is used of these states. *)
Lemma heap_demo_values :
  (fun x => (x.2, forged x.1 block_at,
    (fun y => (y.2, load32 y.1 (u64 (block_at - sizeof_large_header)), bool_decide (is_Some (slabs y.1 !! page_of block_at)),
               empty_slab_count <$> slab_caches y.1)) <$> play (CFree <$> blocks_at) x.1)) <$> play used (slab_init demo_heap) =
  Some (used_trace, false, Some (EFree <$> blocks_at, Some 0, true, [0; 0; 0; 0; 0; 2; 0])).
Proof. vm_compute. done. Qed.

Lemma play_app cs cs' s : play (cs ++ cs') s = '(s1, tr) ← play cs s; '(s', tr') ← play cs' s1; Some (s', tr ++ tr').
Proof.
  revert s. induction cs as [|c cs IH]; intros s; cbn [app play].
  - cbn [mbind option_bind]. by destruct (play cs' s) as [[]|].
  - destruct (play1 c s) as [[s1 e]|]; [|done]. cbn [mbind option_bind]. rewrite IH. destruct (play cs s1) as [[s2 tr]|]; [|done].
    cbn [mbind option_bind]. by destruct (play cs' s2) as [[]|].
Qed.

Lemma some_3 {A B C D} (x : option A) (f : A -> B) (g : A -> C) (h : A -> D) b c d :
  (fun a => (f a, g a, h a)) <$> x = Some (b, c, d) -> exists a, x = Some a /\ f a = b /\ g a = c /\ h a = d.
Proof. destruct x as [a|]; [|done]. intros [= <- <- <-]. by exists a. Qed.

Lemma some_4 {A B C D E} (x : option A) (f : A -> B) (g : A -> C) (h : A -> D) (k : A -> E) b c d e :
  (fun a => (f a, g a, h a, k a)) <$> x = Some (b, c, d, e) -> exists a, x = Some a /\ f a = b /\ g a = c /\ h a = d /\ k a = e.
Proof. destruct x as [a|]; [|done]. intros [= <- <- <- <-]. by exists a. Qed.

Lemma demo_states : exists s s',
  play used (slab_init demo_heap) = Some (s, used_trace) /\ forged s block_at = false /\
  play (CFree <$> blocks_at) s = Some (s', EFree <$> blocks_at) /\ load32 s' (u64 (block_at - sizeof_large_header)) = Some 0 /\
  bool_decide (is_Some (slabs s' !! page_of block_at)) = true /\ (empty_slab_count <$> slab_caches s') = [0; 0; 0; 0; 0; 2; 0].
Proof.
  destruct (some_3 _ _ _ _ _ _ _ heap_demo_values) as ([s tr] & E1 & E2 & E3 & E4).
  destruct (some_4 _ _ _ _ _ _ _ _ _ E4) as ([s' tr'] & F1 & F2 & F3 & F4 & F5). cbn [fst snd] in *. subst tr tr'. exists s, s'.
  exact (conj E1 (conj E3 (conj F1 (conj F3 (conj F4 F5))))).
Qed.

Lemma used_values : snd <$> play used (slab_init demo_heap) = Some used_trace /\ forged (played used) block_at = false.
Proof. destruct demo_states as (s & s' & E & Ef & _). unfold played. rewrite E. exact (conj eq_refl Ef). Qed.

Lemma freed_values :
  snd <$> play freed (slab_init demo_heap) = Some freed_trace /\ load32 (played freed) (u64 (block_at - sizeof_large_header)) = Some 0 /\
  bool_decide (is_Some (slabs (played freed) !! page_of block_at)) = true /\ (empty_slab_count <$> slab_caches (played freed)) = [0; 0; 0; 0; 0; 2; 0].
Proof.
  destruct demo_states as (s & s' & E1 & _ & E2 & E3 & E4 & E5).
  assert (E : play freed (slab_init demo_heap) = Some (s', freed_trace)) by (unfold freed; rewrite play_app, E1; cbn [mbind option_bind]; rewrite E2; reflexivity).
  unfold played. rewrite E. exact (conj eq_refl (conj E3 (conj E4 E5))).
Qed.


#[local] Opaque played.

Lemma slab_realloc_spec_witness : exists s' q, slab_realloc block_at 2000 (played used) = Some (s', q).
Proof.
  destruct used_values as [E Ef]. destruct (played_sim used _ _ E eq_refl) as (A & [Hd Hl] & Hs).
  destruct (proj1 (Hd block_at) ltac:(by vm_compute; eexists)) as [old Eo].
  destruct (slab_realloc_spec (played used) [] A block_at old 2000 Hs Eo Ef ltac:(lia)) as (s' & q & Eq & _). by exists s', q.
Defined.

Lemma slab_free_ignores_witness : slab_free block_at (played freed) = Some (played freed).
Proof.
  destruct freed_values as (E & Em & Ep & _). destruct (played_sim freed _ _ E eq_refl) as (A & [Hd _] & Hs).
  assert (En : A !! block_at = None) by (apply eq_None_not_Some; by rewrite <- Hd).
  apply (slab_free_ignores (played freed) [] A block_at Hs En); [by rewrite Em|by apply bool_decide_eq_true in Ep|by vm_compute].
Defined.

Lemma slab_shrink_spec_witness :
  (empty_slab_count <$> slab_caches (played freed)) = [0; 0; 0; 0; 0; 2; 0] /\ Forall (fun c => empty_slab_count c <= 1) (slab_caches (slab_shrink (played freed))).
Proof.
  destruct freed_values as (E & _ & _ & Ec). destruct (played_sim freed _ _ E eq_refl) as (A & _ & Hs). split; [exact Ec|].
  apply (slab_shrink_spec (played freed) [] A Hs).
Defined.

(** ** Behaviour outside the rules *)

(** A request of [2^64 - 1] bytes wraps around with its header and is given one page;
    [slab_calloc] of 1085102592571150096 objects of 17 bytes is given 32 bytes. *)
Lemma slab_sizes_wrap :
  (slab_alloc (2 ^ 64 - 1) (slab_init demo_heap)).2 = 0xFFFFFFFF88000018 /\
  (slab_calloc 1085102592571150096 17 (slab_init demo_heap)).2 = 0xFFFFFFFF88000070.
Proof. vm_compute. done. Qed.

(** A client that writes the magic number in the right place of its own block makes
    [slab_free] of the next block free pages of the client's choice. *)
Lemma slab_header_forged :
  (fun x => (forged x.1 0xFFFFFFFF880000F0, slab_free_check 0xFFFFFFFF880000F0 x.1)) <$>
    play [CAlloc 100; CAlloc 100; CStore 0xFFFFFFFF88000070 104 [0x45; 0x47; 0x52; 0x4C]] (slab_init demo_heap) =
  Some (true, Some (FLarge 0xFFFFFFFF880000D8)).
Proof. vm_compute. done. Qed.

(** A page with room for one object goes from the list of full pages to that of
    partial ones when the object is freed, and is never given back. *)
Lemma slab_single_kept :
  (fun x => (empty_slab_count <$> slab_caches x.1, dom (slabs (slab_shrink x.1)))) <$>
    play [CAlloc 2000; CFree 0xFFFFFFFF88000070] (slab_init demo_heap) =
  Some ([0; 0; 0; 0; 0; 0; 0], {[0xFFFFFFFF88000000]}).
Proof. vm_compute. done. Qed.
