(* ===== verification/TcpConn.v ===== *)
(** * TCP connections ([kernel/net/tcp.c], [include/kernel/net.h])

    The connection block [tcp_conn_t], the state a TCP operation works on, and the
    helpers of [tcp.c] that touch one connection: the receive ring, the queue of
    unacknowledged segments, the retransmission timer of RFC 6298, SipHash
    ([kernel/hal/random.c]) with the initial sequence numbers and time stamps
    derived from it, and the SYN cookies.

    A pointer to a connection is its index in [tcp_connections].  The live prefix of
    an array with its count ([inflight], [ooo], [sack_blocks]) is a list; the code
    reads nothing beyond it.  [timer_ticks()], [timer_get_precise_us()] and the
    random numbers are fields of [tcp_io]; an operation sees one value of the clock.
    The IP layer below is the interface [IpLayer]. *)

From Stdlib Require Import ZArith Lia Bool.
From stdpp Require Import base list.
From S2P Require Import Prelude Wire.

Open Scope Z_scope.

(** ** Constants *)

Definition TCP_FIN : Z := 0x01.
Definition TCP_SYN : Z := 0x02.
Definition TCP_RST : Z := 0x04.
Definition TCP_PSH : Z := 0x08.
Definition TCP_ACK : Z := 0x10.
Definition TCP_URG : Z := 0x20.

Definition TCP_MAX_CONNECTIONS : nat := 64.
Definition TCP_WINDOW_SIZE : Z := 32768.
Definition TCP_MSS : Z := 1460.
Definition TCP_RX_BUF_SIZE : Z := 65536.
Definition TCP_TIME_WAIT_TICKS : Z := 6000.
Definition TCP_MAX_RETRANSMITS : Z := 5.
Definition TCP_SYN_RETRANSMIT_TICKS : Z := 300.
Definition TCP_MAX_OPTIONS : Z := 40.
Definition TCP_MAX_INFLIGHT : nat := 32.
Definition TCP_MAX_OOO : nat := 16.
Definition TCP_MAX_SACK_BLOCKS : nat := 4.
Definition sizeof_tcp_header : Z := 20.
Definition TCP_RTO_MIN_US : Z := 200000.
Definition TCP_RTO_MAX_US : Z := 60000000.
Definition TCP_RTO_INITIAL_US : Z := 1000000.
Definition ECONNREFUSED : Z := 111.
Definition ECONNRESET : Z := 104.
Definition ETIMEDOUT : Z := 110.

(** ** The connection block *)

Inductive tcp_st :=
| CLOSED | LISTEN | SYN_SENT | SYN_RECEIVED | ESTABLISHED | FIN_WAIT_1 | FIN_WAIT_2
| CLOSE_WAIT | CLOSING | LAST_ACK | TIME_WAIT.

#[global] Instance tcp_st_eq_dec : EqDecision tcp_st.
Proof. solve_decision. Defined.

(** [tcp_inflight_segment_t]; [seg->len] is the length of the data. *)
Record inflight_segment := mk_inflight {
  if_seq : Z;
  if_flags : Z;
  if_retransmit_count : Z;
  if_send_us : Z;
  if_data : list Z;
}.

(** An element of [ooo]. *)
Record ooo_segment := mk_ooo { oo_seq : Z; oo_data : list Z }.

(** [conn->owner_socket]: NULL, the connection itself, or a socket. *)
Inductive owner := NoOwner | SelfOwner | OwnedBy (sock : nat).

#[global] Instance owner_eq_dec : EqDecision owner.
Proof. solve_decision. Defined.

(** The fields in the order of the C structure; [rx_buf] is [None] for NULL.  The
    transmit ring ([tx_buf], [tx_head], [tx_tail]) is allocated but never used. *)
#[local] Set Primitive Projections.
Record tcp_conn := mk_tcp_conn {
  state : tcp_st;
  local_ip : Z;
  remote_ip : Z;
  local_port : Z;
  remote_port : Z;
  snd_una : Z;
  snd_nxt : Z;
  snd_wnd : Z;
  rcv_nxt : Z;
  rcv_wnd : Z;
  iss : Z;
  irs : Z;
  rx_buf : option (list Z);
  rx_head : Z;
  rx_tail : Z;
  rx_buf_size : Z;
  retransmit_tick : Z;
  retransmit_count : Z;
  peer_mss : Z;
  max_seg_size : Z;
  inflight : list inflight_segment;
  time_wait_tick : Z;
  accept_queue : list (option nat);
  accept_head : Z;
  accept_tail : Z;
  backlog : Z;
  parent : option nat;
  conn_dev : devptr;
  active : bool;
  error : Z;
  rx_ready : bool;
  tx_ready : bool;
  accept_ready : bool;
  connect_done : bool;
  srtt_us : Z;
  rttvar_us : Z;
  rto_us : Z;
  rto_backoff : Z;
  cwnd : Z;
  ssthresh : Z;
  dup_acks : Z;
  total_retrans : Z;
  nodelay : bool;
  keepalive : bool;
  keepidle_ticks : Z;
  keepintvl_ticks : Z;
  keepcnt : Z;
  keep_probes_sent : Z;
  keep_next_tick : Z;
  last_rx_tick : Z;
  ts_enabled : bool;
  ts_recent : Z;
  ts_recent_age : Z;
  ts_offset : Z;
  ws_enabled : bool;
  snd_wscale : Z;
  rcv_wscale : Z;
  sack_ok : bool;
  sack_blocks : list (Z * Z);
  ooo : list ooo_segment;
  delayed_ack_pending : bool;
  segs_since_ack : Z;
  delayed_ack_deadline : Z;
  cork : bool;
  cork_deadline : Z;
  fin_wait_2_deadline : Z;
  urgent_valid : bool;
  urgent_byte : Z;
  snd_up : Z;
  rcv_up : Z;
  snd_urg_pending : Z;
  detached : bool;
  owner_socket : owner;
}.
#[local] Unset Primitive Projections.

(** ** Field updates *)

(** The structure rebuilt from its fields. *)
Definition conn_eta (c : tcp_conn) : tcp_conn :=
  mk_tcp_conn (state c) (local_ip c) (remote_ip c) (local_port c) (remote_port c) (snd_una c) (snd_nxt c)
    (snd_wnd c) (rcv_nxt c) (rcv_wnd c) (iss c) (irs c) (rx_buf c) (rx_head c) (rx_tail c)
    (rx_buf_size c) (retransmit_tick c) (retransmit_count c) (peer_mss c) (max_seg_size c)
    (inflight c) (time_wait_tick c) (accept_queue c) (accept_head c) (accept_tail c) (backlog c)
    (parent c) (conn_dev c) (active c) (error c) (rx_ready c) (tx_ready c) (accept_ready c)
    (connect_done c) (srtt_us c) (rttvar_us c) (rto_us c) (rto_backoff c) (cwnd c) (ssthresh c)
    (dup_acks c) (total_retrans c) (nodelay c) (keepalive c) (keepidle_ticks c) (keepintvl_ticks c)
    (keepcnt c) (keep_probes_sent c) (keep_next_tick c) (last_rx_tick c) (ts_enabled c)
    (ts_recent c) (ts_recent_age c) (ts_offset c) (ws_enabled c) (snd_wscale c) (rcv_wscale c)
    (sack_ok c) (sack_blocks c) (ooo c) (delayed_ack_pending c) (segs_since_ack c)
    (delayed_ack_deadline c) (cork c) (cork_deadline c) (fin_wait_2_deadline c) (urgent_valid c)
    (urgent_byte c) (snd_up c) (rcv_up c) (snd_urg_pending c) (detached c) (owner_socket c).

(** The function [fun v c => {| ...; f := v; ... |}]. *)
Ltac field_setter f :=
  let v := fresh "v" in let c := fresh "c" in
  intros v c;
  let e := eval cbv beta delta [conn_eta] in (conn_eta c) in
  match eval pattern (f c) in e with
  | ?g _ => let r := eval cbv beta in (g v) in exact r
  end.

Definition set_state : tcp_st -> tcp_conn -> tcp_conn := ltac:(field_setter state).
Definition set_local_ip : Z -> tcp_conn -> tcp_conn := ltac:(field_setter local_ip).
Definition set_remote_ip : Z -> tcp_conn -> tcp_conn := ltac:(field_setter remote_ip).
Definition set_local_port : Z -> tcp_conn -> tcp_conn := ltac:(field_setter local_port).
Definition set_remote_port : Z -> tcp_conn -> tcp_conn := ltac:(field_setter remote_port).
Definition set_snd_una : Z -> tcp_conn -> tcp_conn := ltac:(field_setter snd_una).
Definition set_snd_nxt : Z -> tcp_conn -> tcp_conn := ltac:(field_setter snd_nxt).
Definition set_snd_wnd : Z -> tcp_conn -> tcp_conn := ltac:(field_setter snd_wnd).
Definition set_rcv_nxt : Z -> tcp_conn -> tcp_conn := ltac:(field_setter rcv_nxt).
Definition set_rcv_wnd : Z -> tcp_conn -> tcp_conn := ltac:(field_setter rcv_wnd).
Definition set_iss : Z -> tcp_conn -> tcp_conn := ltac:(field_setter iss).
Definition set_irs : Z -> tcp_conn -> tcp_conn := ltac:(field_setter irs).
Definition set_rx_buf : option (list Z) -> tcp_conn -> tcp_conn := ltac:(field_setter rx_buf).
Definition set_rx_head : Z -> tcp_conn -> tcp_conn := ltac:(field_setter rx_head).
Definition set_rx_tail : Z -> tcp_conn -> tcp_conn := ltac:(field_setter rx_tail).
Definition set_rx_buf_size : Z -> tcp_conn -> tcp_conn := ltac:(field_setter rx_buf_size).
Definition set_retransmit_tick : Z -> tcp_conn -> tcp_conn := ltac:(field_setter retransmit_tick).
Definition set_retransmit_count : Z -> tcp_conn -> tcp_conn := ltac:(field_setter retransmit_count).
Definition set_peer_mss : Z -> tcp_conn -> tcp_conn := ltac:(field_setter peer_mss).
Definition set_max_seg_size : Z -> tcp_conn -> tcp_conn := ltac:(field_setter max_seg_size).
Definition set_inflight : list inflight_segment -> tcp_conn -> tcp_conn := ltac:(field_setter inflight).
Definition set_time_wait_tick : Z -> tcp_conn -> tcp_conn := ltac:(field_setter time_wait_tick).
Definition set_accept_queue : list (option nat) -> tcp_conn -> tcp_conn := ltac:(field_setter accept_queue).
Definition set_accept_head : Z -> tcp_conn -> tcp_conn := ltac:(field_setter accept_head).
Definition set_accept_tail : Z -> tcp_conn -> tcp_conn := ltac:(field_setter accept_tail).
Definition set_backlog : Z -> tcp_conn -> tcp_conn := ltac:(field_setter backlog).
Definition set_parent : option nat -> tcp_conn -> tcp_conn := ltac:(field_setter parent).
Definition set_conn_dev : devptr -> tcp_conn -> tcp_conn := ltac:(field_setter conn_dev).
Definition set_active : bool -> tcp_conn -> tcp_conn := ltac:(field_setter active).
Definition set_error : Z -> tcp_conn -> tcp_conn := ltac:(field_setter error).
Definition set_rx_ready : bool -> tcp_conn -> tcp_conn := ltac:(field_setter rx_ready).
Definition set_tx_ready : bool -> tcp_conn -> tcp_conn := ltac:(field_setter tx_ready).
Definition set_accept_ready : bool -> tcp_conn -> tcp_conn := ltac:(field_setter accept_ready).
Definition set_connect_done : bool -> tcp_conn -> tcp_conn := ltac:(field_setter connect_done).
Definition set_srtt_us : Z -> tcp_conn -> tcp_conn := ltac:(field_setter srtt_us).
Definition set_rttvar_us : Z -> tcp_conn -> tcp_conn := ltac:(field_setter rttvar_us).
Definition set_rto_us : Z -> tcp_conn -> tcp_conn := ltac:(field_setter rto_us).
Definition set_rto_backoff : Z -> tcp_conn -> tcp_conn := ltac:(field_setter rto_backoff).
Definition set_cwnd : Z -> tcp_conn -> tcp_conn := ltac:(field_setter cwnd).
Definition set_ssthresh : Z -> tcp_conn -> tcp_conn := ltac:(field_setter ssthresh).
Definition set_dup_acks : Z -> tcp_conn -> tcp_conn := ltac:(field_setter dup_acks).
Definition set_total_retrans : Z -> tcp_conn -> tcp_conn := ltac:(field_setter total_retrans).
Definition set_nodelay : bool -> tcp_conn -> tcp_conn := ltac:(field_setter nodelay).
Definition set_keepalive : bool -> tcp_conn -> tcp_conn := ltac:(field_setter keepalive).
Definition set_keepidle_ticks : Z -> tcp_conn -> tcp_conn := ltac:(field_setter keepidle_ticks).
Definition set_keepintvl_ticks : Z -> tcp_conn -> tcp_conn := ltac:(field_setter keepintvl_ticks).
Definition set_keepcnt : Z -> tcp_conn -> tcp_conn := ltac:(field_setter keepcnt).
Definition set_keep_probes_sent : Z -> tcp_conn -> tcp_conn := ltac:(field_setter keep_probes_sent).
Definition set_keep_next_tick : Z -> tcp_conn -> tcp_conn := ltac:(field_setter keep_next_tick).
Definition set_last_rx_tick : Z -> tcp_conn -> tcp_conn := ltac:(field_setter last_rx_tick).
Definition set_ts_enabled : bool -> tcp_conn -> tcp_conn := ltac:(field_setter ts_enabled).
Definition set_ts_recent : Z -> tcp_conn -> tcp_conn := ltac:(field_setter ts_recent).
Definition set_ts_recent_age : Z -> tcp_conn -> tcp_conn := ltac:(field_setter ts_recent_age).
Definition set_ts_offset : Z -> tcp_conn -> tcp_conn := ltac:(field_setter ts_offset).
Definition set_ws_enabled : bool -> tcp_conn -> tcp_conn := ltac:(field_setter ws_enabled).
Definition set_snd_wscale : Z -> tcp_conn -> tcp_conn := ltac:(field_setter snd_wscale).
Definition set_rcv_wscale : Z -> tcp_conn -> tcp_conn := ltac:(field_setter rcv_wscale).
Definition set_sack_ok : bool -> tcp_conn -> tcp_conn := ltac:(field_setter sack_ok).
Definition set_sack_blocks : list (Z * Z) -> tcp_conn -> tcp_conn := ltac:(field_setter sack_blocks).
Definition set_ooo : list ooo_segment -> tcp_conn -> tcp_conn := ltac:(field_setter ooo).
Definition set_delayed_ack_pending : bool -> tcp_conn -> tcp_conn := ltac:(field_setter delayed_ack_pending).
Definition set_segs_since_ack : Z -> tcp_conn -> tcp_conn := ltac:(field_setter segs_since_ack).
Definition set_delayed_ack_deadline : Z -> tcp_conn -> tcp_conn := ltac:(field_setter delayed_ack_deadline).
Definition set_cork : bool -> tcp_conn -> tcp_conn := ltac:(field_setter cork).
Definition set_cork_deadline : Z -> tcp_conn -> tcp_conn := ltac:(field_setter cork_deadline).
Definition set_fin_wait_2_deadline : Z -> tcp_conn -> tcp_conn := ltac:(field_setter fin_wait_2_deadline).
Definition set_urgent_valid : bool -> tcp_conn -> tcp_conn := ltac:(field_setter urgent_valid).
Definition set_urgent_byte : Z -> tcp_conn -> tcp_conn := ltac:(field_setter urgent_byte).
Definition set_snd_up : Z -> tcp_conn -> tcp_conn := ltac:(field_setter snd_up).
Definition set_rcv_up : Z -> tcp_conn -> tcp_conn := ltac:(field_setter rcv_up).
Definition set_snd_urg_pending : Z -> tcp_conn -> tcp_conn := ltac:(field_setter snd_urg_pending).
Definition set_detached : bool -> tcp_conn -> tcp_conn := ltac:(field_setter detached).
Definition set_owner_socket : owner -> tcp_conn -> tcp_conn := ltac:(field_setter owner_socket).

Declare Scope tcp_scope.
Delimit Scope tcp_scope with tcp.
(** Field updates in the order of the assignments of the code. *)
Notation "c |> f" := (f c) (at level 61, left associativity, only parsing) : tcp_scope.
Open Scope tcp_scope.

(** ** The state of an operation *)

(** What TCP uses of the layer below: [ipv4_send] and the MTU of a device. *)
Class IpLayer (N : Type) := {
  ip_send : N -> devptr -> Z -> Z -> list Z -> N * Z;
  dev_mtu : N -> nat -> Z;
}.

(** [ipv4_send] returns 0 or a negative number. *)
Class IpLaws (N : Type) `{IpLayer N} :=
  ip_send_rc : forall n dev dst proto msg, snd (ip_send n dev dst proto msg) <= 0.

(** The static variables of [tcp.c] beside the table, the clock, the random numbers
    and the layer below.  [trace] records the messages [ipv4_send] accepted, with
    their destinations. *)
Record tcp_io (N : Type) := mk_tcp_io {
  io_net : N;
  trace : list (Z * list Z);
  timer_ticks : Z;
  precise_us : Z;
  randoms : list Z;
  tcp_isn_secret : list Z;
  tcp_syncookie_secret : list Z;
  tcp_ts_offset : Z;
  tcp_ts_offset_set : bool;
  ca_counter : Z;
}.
Arguments mk_tcp_io {N}.
Arguments io_net {N}.
Arguments trace {N}.
Arguments timer_ticks {N}.
Arguments precise_us {N}.
Arguments randoms {N}.
Arguments tcp_isn_secret {N}.
Arguments tcp_syncookie_secret {N}.
Arguments tcp_ts_offset {N}.
Arguments tcp_ts_offset_set {N}.
Arguments ca_counter {N}.

Section Io.
Context {N : Type}.
Implicit Types (s : tcp_io N).

(** [ipv4_send] returned [rc]. *)
Definition log_send (n : N) (rc dst : Z) (msg : list Z) s : tcp_io N :=
  mk_tcp_io n (trace s ++ if rc =? 0 then [(dst, msg)] else []) (timer_ticks s) (precise_us s) (randoms s) (tcp_isn_secret s)
    (tcp_syncookie_secret s) (tcp_ts_offset s) (tcp_ts_offset_set s) (ca_counter s).

Definition set_ts_offset_global (rs : list Z) (off : Z) s : tcp_io N :=
  mk_tcp_io (io_net s) (trace s) (timer_ticks s) (precise_us s) rs (tcp_isn_secret s)
    (tcp_syncookie_secret s) off true (ca_counter s).

Definition set_ca_counter (v : Z) s : tcp_io N :=
  mk_tcp_io (io_net s) (trace s) (timer_ticks s) (precise_us s) (randoms s) (tcp_isn_secret s)
    (tcp_syncookie_secret s) (tcp_ts_offset s) (tcp_ts_offset_set s) v.

(** Time passes. *)
Definition set_clock (ticks us : Z) s : tcp_io N :=
  mk_tcp_io (io_net s) (trace s) ticks us (randoms s) (tcp_isn_secret s)
    (tcp_syncookie_secret s) (tcp_ts_offset s) (tcp_ts_offset_set s) (ca_counter s).

End Io.

(** ** SipHash-2-4 *)

Definition sip_rotl (x b : Z) : Z := Z.lor (u64 (Z.shiftl x b)) (Z.shiftr x (64 - b)).

Record sip := mk_sip { v0 : Z; v1 : Z; v2 : Z; v3 : Z }.

Definition SIPROUND (s : sip) : sip :=
  let '(mk_sip a b c d) := s in
  let a := u64 (a + b) in let b := sip_rotl b 13 in let b := Z.lxor b a in let a := sip_rotl a 32 in
  let c := u64 (c + d) in let d := sip_rotl d 16 in let d := Z.lxor d c in
  let a := u64 (a + d) in let d := sip_rotl d 21 in let d := Z.lxor d a in
  let c := u64 (c + b) in let b := sip_rotl b 17 in let b := Z.lxor b c in let c := sip_rotl c 32 in
  mk_sip a b c d.

(** The bytes as a little-endian number. *)
Fixpoint le_bytes (l : list Z) : Z :=
  match l with [] => 0 | b :: l' => Z.lor b (Z.shiftl (le_bytes l') 8) end.

Definition sip_block (m : Z) (s : sip) : sip :=
  let s := mk_sip (v0 s) (v1 s) (v2 s) (Z.lxor (v3 s) m) in
  let s := SIPROUND (SIPROUND s) in
  mk_sip (Z.lxor (v0 s) m) (v1 s) (v2 s) (v3 s).

(** [while (left >= 8)]; returns the rest of the data. *)
Fixpoint sip_blocks (fuel : nat) (data : list Z) (s : sip) : list Z * sip :=
  match fuel with
  | O => (data, s)
  | S fuel' =>
      if (8 <=? length data)%nat
      then sip_blocks fuel' (drop 8 data) (sip_block (le_bytes (take 8 data)) s)
      else (data, s)
  end.

Definition siphash_2_4 (key data : list Z) : Z :=
  let k0 := le_bytes (take 8 key) in
  let k1 := le_bytes (take 8 (drop 8 key)) in
  let s := mk_sip (Z.lxor k0 0x736f6d6570736575) (Z.lxor k1 0x646f72616e646f6d)
                  (Z.lxor k0 0x6c7967656e657261) (Z.lxor k1 0x7465646279746573) in
  let '(rest, s) := sip_blocks (length data) data s in
  let b := Z.lor (u64 (Z.shiftl (Z.of_nat (length data)) 56)) (le_bytes rest) in
  let s := sip_block b s in
  let s := mk_sip (v0 s) (v1 s) (Z.lxor (v2 s) 0xff) (v3 s) in
  let s := SIPROUND (SIPROUND (SIPROUND (SIPROUND s))) in
  Z.lxor (Z.lxor (Z.lxor (v0 s) (v1 s)) (v2 s)) (v3 s).

(** ** Numbers derived from the addresses *)

Definition be_bytes32 (v : Z) : list Z :=
  [u8 (Z.shiftr v 24); u8 (Z.shiftr v 16); u8 (Z.shiftr v 8); u8 v].
Definition be_bytes16 (v : Z) : list Z := [u8 (Z.shiftr v 8); u8 v].

(** The array [data] of the hash computations. *)
Definition tuple_bytes (ip1 ip2 port1 port2 : Z) : list Z :=
  be_bytes32 ip1 ++ be_bytes32 ip2 ++ be_bytes16 port1 ++ be_bytes16 port2.

Section Derived.
Context {N : Type}.
Implicit Types (s : tcp_io N).

Definition tcp_ts_offset_global s : tcp_io N * Z :=
  if tcp_ts_offset_set s then (s, tcp_ts_offset s)
  else
    let r := u32 (default 0 (head (randoms s))) in
    (set_ts_offset_global (tail (randoms s)) r s, r).

Definition tcp_compute_ts_offset s (local_ip remote_ip local_port remote_port : Z) : Z :=
  let h := siphash_2_4 (tcp_isn_secret s) (tuple_bytes local_ip remote_ip local_port remote_port) in
  u32 (Z.lxor h 0x54534F46).

Definition tcp_ts_now_for s (c : tcp_conn) : tcp_io N * Z :=
  let '(s, off) := if negb (ts_offset c =? 0) then (s, ts_offset c) else tcp_ts_offset_global s in
  (s, u32 (u32 (timer_ticks s) + off)).

Definition tcp_generate_isn s (src_ip dst_ip src_port dst_port : Z) : Z :=
  let hash := siphash_2_4 (tcp_isn_secret s) (tuple_bytes src_ip dst_ip src_port dst_port) in
  let time_comp := u32 (Z.shiftl (timer_ticks s / 4) 8) in
  u32 (u32 hash + time_comp).

(** ** SYN cookies *)

Definition syncookie_mss_table : list Z := [536; 1024; 1460; 1480; 4312; 8960; 1440; 1452].
Definition mss_entry (i : nat) : Z := default 0 (syncookie_mss_table !! i).

Definition mss_to_index (mss : Z) : nat :=
  fold_left (fun best i => if (mss_entry i <=? mss) && (mss_entry best <=? mss_entry i) then i else best)
    (seq 0 8) O.

Definition cookie_hash s (src_ip dst_ip src_port dst_port time_slot : Z) : Z :=
  Z.land (u32 (siphash_2_4 (tcp_syncookie_secret s)
                 (tuple_bytes src_ip dst_ip src_port dst_port ++ be_bytes32 time_slot)))
         (u32 (Z.lnot 7)).

(** The argument [seq] of the C function is not used. *)
Definition tcp_syncookie_generate s (src_ip dst_ip src_port dst_port mss : Z) : Z :=
  let time_slot := u32 (timer_ticks s / 600) in
  Z.lor (cookie_hash s src_ip dst_ip src_port dst_port time_slot) (Z.of_nat (mss_to_index mss)).

(** The MSS of a valid cookie. *)
Definition tcp_syncookie_validate s (src_ip dst_ip src_port dst_port cookie : Z) : option Z :=
  let mss_idx := Z.land cookie 7 in
  let expected delta :=
    Z.lor (cookie_hash s src_ip dst_ip src_port dst_port (u32 (u32 (timer_ticks s / 600) - delta))) mss_idx in
  if (expected 0 =? cookie) || (expected 1 =? cookie) then Some (mss_entry (Z.to_nat mss_idx)) else None.

End Derived.

(** ** Segment sizes *)

Definition clamp_mss (mss : Z) : Z :=
  let mss := if TCP_MSS <? mss then TCP_MSS else mss in
  if mss <? 536 then 536 else mss.

Definition tcp_local_mss {N} `{IpLayer N} (n : N) (dev : devptr) : Z :=
  let mtu :=
    match dev with
    | Some d => if sizeof_ipv4_header + sizeof_tcp_header <=? dev_mtu n d then dev_mtu n d else NET_MTU_DEFAULT
    | None => NET_MTU_DEFAULT
    end in
  clamp_mss (u16 (mtu - sizeof_ipv4_header - sizeof_tcp_header)).

Definition tcp_effective_mss (c : tcp_conn) : Z :=
  clamp_mss (if negb (max_seg_size c =? 0) then max_seg_size c else TCP_MSS).

(** ** The receive ring *)

Definition ring_used (head tail size : Z) : Z := u32 (u32 (tail - head) + size) mod size.
Definition ring_free (head tail size : Z) : Z := u32 (size - 1 - ring_used head tail size).
Definition rx_free (c : tcp_conn) : Z := ring_free (rx_head c) (rx_tail c) (rx_buf_size c).

(** [rx_buf[rx_tail] = b; rx_tail = (rx_tail + 1) % rx_buf_size], for every byte. *)
Definition rx_put (bs : list Z) (c : tcp_conn) : tcp_conn :=
  fold_left (fun c b => c |> set_rx_buf (<[Z.to_nat (rx_tail c) := b]> <$> rx_buf c)
                          |> set_rx_tail (u32 (rx_tail c + 1) mod rx_buf_size c)) bs c.

(** The copy of [sock_recv] under the lock of the connection ([kernel/net/socket.c]):
    the bytes read, or [None] for -EBADF. *)
Definition sock_recv_copy (len : Z) (peek : bool) (c : tcp_conn) : tcp_conn * option (list Z) :=
  match active c, rx_buf c with
  | true, Some buf =>
      let avail := ring_used (rx_head c) (rx_tail c) (rx_buf_size c) in
      let copy := if len <? avail then u32 len else avail in
      let bs := map (fun i => byte_at buf (Z.to_nat ((rx_head c + Z.of_nat i) mod rx_buf_size c)))
                  (seq 0 (Z.to_nat copy)) in
      let c' :=
        if peek then c
        else
          let c := c |> set_rx_head (u32 (rx_head c + copy) mod rx_buf_size c) in
          if rx_head c =? rx_tail c then c |> set_rx_ready false else c in
      (c', Some bs)
  | _, _ => (c, None)
  end.

Definition tcp_advertised_window (c : tcp_conn) : Z :=
  let avail := rx_free c in
  if avail =? 0 then 0
  else
    let shifted := Z.shiftr avail (rcv_wscale c) in
    if 0xFFFF <? shifted then 0xFFFF else shifted.

(** ** The queue of unacknowledged segments *)

Definition may_queue (c : tcp_conn) : bool := (length (inflight c) <? TCP_MAX_INFLIGHT)%nat.

Definition tcp_queue_inflight {N} (s : tcp_io N) (seq flags : Z) (data : list Z) (c : tcp_conn) : tcp_conn :=
  if negb (may_queue c) then c |> set_tx_ready false
  else
    let c := c |> set_inflight (inflight c ++ [mk_inflight seq flags 0 (precise_us s) data]) in
    c |> set_tx_ready (may_queue c).

Definition tcp_drop_first_inflight (c : tcp_conn) : tcp_conn :=
  match inflight c with
  | [] => c
  | _ :: rest => c |> set_inflight rest |> set_tx_ready true
  end.

Definition is_syn_fin (flags : Z) : bool := has flags (Z.lor TCP_SYN TCP_FIN).

Definition seg_end (x : inflight_segment) : Z :=
  u32 (if_seq x + Z.of_nat (length (if_data x)) + (if is_syn_fin (if_flags x) then 1 else 0)).

(** The loop of [tcp_ack_inflight]; every round but the last removes a segment. *)
Fixpoint ack_queue (ack : Z) (l : list inflight_segment) : list inflight_segment :=
  match l with
  | [] => []
  | x :: rest =>
      if seg_end x <=? ack then ack_queue ack rest
      else if (if_seq x <? ack) && (0 <? Z.of_nat (length (if_data x))) && negb (is_syn_fin (if_flags x)) then
        let trim := u16 (ack - if_seq x) in
        let trim := if Z.of_nat (length (if_data x)) <? trim then Z.of_nat (length (if_data x)) else trim in
        mk_inflight ack (if_flags x) (if_retransmit_count x) (if_send_us x) (drop (Z.to_nat trim) (if_data x)) :: rest
      else x :: rest
  end.

Definition tcp_ack_inflight (ack : Z) (c : tcp_conn) : tcp_conn :=
  let c := c |> set_inflight (ack_queue ack (inflight c)) in
  c |> set_tx_ready (may_queue c).

Definition tcp_fail_connection (err : Z) (c : tcp_conn) : tcp_conn :=
  c |> set_state CLOSED |> set_error err |> set_connect_done true |> set_rx_ready true
    |> set_tx_ready true |> set_inflight [].

(** ** The retransmission timer *)

Definition tcp_update_rtt (r_us : Z) (c : tcp_conn) : tcp_conn :=
  if r_us =? 0 then c
  else
    let c :=
      if srtt_us c =? 0 then c |> set_srtt_us r_us |> set_rttvar_us (r_us / 2)
      else
        let diff := if r_us <? srtt_us c then srtt_us c - r_us else r_us - srtt_us c in
        let c := c |> set_rttvar_us (u32 (u32 (rttvar_us c * 3) + diff) / 4) in
        c |> set_srtt_us (u32 (u32 (srtt_us c * 7) + r_us) / 8) in
    let rto := srtt_us c + 4 * rttvar_us c in
    let rto := if rto <? TCP_RTO_MIN_US then TCP_RTO_MIN_US else rto in
    let rto := if TCP_RTO_MAX_US <? rto then TCP_RTO_MAX_US else rto in
    c |> set_rto_us (u32 rto) |> set_rto_backoff 0.

Definition tcp_rto_ticks (c : tcp_conn) : Z :=
  let rto := if negb (rto_us c =? 0) then rto_us c else TCP_RTO_INITIAL_US in
  let rto :=
    if negb (rto_backoff c =? 0) then
      let shift := if 6 <? rto_backoff c then 6 else rto_backoff c in
      if Z.shiftr TCP_RTO_MAX_US shift <? rto then TCP_RTO_MAX_US else u32 (Z.shiftl rto shift)
    else rto in
  let ticks := rto / 10000 in
  if ticks <? 1 then 1 else ticks.

(** ** SipHash and cookies: theorems *)

(** The test vector of the reference implementation. *)
Lemma siphash_reference :
  siphash_2_4 (map Z.of_nat (seq 0 16)) (map Z.of_nat (seq 0 15)) = 0xa129ca6149be45e5.
Proof. vm_compute. reflexivity. Qed.

Lemma land_low_mask a i : 0 <= i < 8 -> Z.land (Z.lor (Z.land a (u32 (Z.lnot 7))) i) 7 = i.
Proof.
  intros Hi. rewrite Z.land_lor_distr_l, <- Z.land_assoc. change (Z.land (u32 (Z.lnot 7)) 7) with 0.
  rewrite Z.land_0_r, Z.lor_0_l. change 7 with (Z.ones 3). rewrite Z.land_ones by lia. by apply Z.mod_small.
Qed.

(** The index of the greatest entry that does not exceed the MSS. *)
Lemma mss_scan_spec mss n :
  (n <= 8)%nat ->
  let i := fold_left (fun best i => if (mss_entry i <=? mss) && (mss_entry best <=? mss_entry i) then i else best) (seq 0 n) O in
  (i < 8)%nat /\
  (536 <= mss -> mss_entry i <= mss /\ forall j, (j < n)%nat -> mss_entry j <= mss -> mss_entry j <= mss_entry i).
Proof.
  induction n as [|n IH]; intros Hn.
  - cbn. split; [lia|]. intros Hm. change (mss_entry 0) with 536. split; [done|]. intros; lia.
  - rewrite seq_S, fold_left_app. cbn [fold_left]. destruct (IH ltac:(lia)) as [H1 H2].
    set (best := fold_left _ (seq 0 n) 0%nat) in *. clearbody best. cbn [Nat.add].
    destruct ((mss_entry n <=? mss) && (mss_entry best <=? mss_entry n)) eqn:E.
    + zify_bool. split; [lia|]. intros Hm. destruct (H2 Hm) as [H3 H4]. split; [done|]. intros j Hj Hle.
      destruct (decide (j = n)) as [->|]; [lia|]. specialize (H4 j ltac:(lia) Hle). lia.
    + split; [done|]. intros Hm. destruct (H2 Hm) as [H3 H4]. split; [done|]. intros j Hj Hle.
      destruct (decide (j = n)) as [->|]; [|apply H4; [lia|done]].
      apply andb_false_iff in E as [E|E]; zify_bool; lia.
Qed.

(** C40. A SYN cookie is accepted as long as the 6-second slot is the one it was made in or
    the next, whatever else the host did in between, and gives back the greatest MSS of
    the table that does not exceed the one encoded. *)
Theorem tcp_syncookie_roundtrip {N} (s s' : tcp_io N) src_ip dst_ip src_port dst_port mss :
  tcp_syncookie_secret s' = tcp_syncookie_secret s -> 536 <= mss ->
  0 <= timer_ticks s -> timer_ticks s' < 600 * 2 ^ 32 ->
  timer_ticks s / 600 <= timer_ticks s' / 600 <= timer_ticks s / 600 + 1 ->
  exists v, tcp_syncookie_validate s' src_ip dst_ip src_port dst_port
              (tcp_syncookie_generate s src_ip dst_ip src_port dst_port mss) = Some v /\
    v ∈ syncookie_mss_table /\ v <= mss /\ forall w, w ∈ syncookie_mss_table -> w <= mss -> w <= v.
Proof.
  intros Hsec Hmss H0 Hmax Hslot. destruct (mss_scan_spec mss 8 (le_n 8)) as [Hi Hbest].
  fold (mss_to_index mss) in *. destruct (Hbest Hmss) as [Hle Hgr]. set (i := mss_to_index mss) in *.
  exists (mss_entry i). split; [|split_and!; try done].
  - unfold tcp_syncookie_validate, tcp_syncookie_generate, cookie_hash. fold i. rewrite !land_low_mask by lia. rewrite Nat2Z.id.
    assert (Hk : u32 (u32 (timer_ticks s' / 600) - (timer_ticks s' / 600 - timer_ticks s / 600)) = u32 (timer_ticks s / 600)).
    { rewrite (u32_small (timer_ticks s' / 600)) by zlia. f_equal. lia. }
    rewrite Hsec. generalize (siphash_2_4 (tcp_syncookie_secret s)). intros h.
    assert (timer_ticks s' / 600 - timer_ticks s / 600 = 0 \/ timer_ticks s' / 600 - timer_ticks s / 600 = 1) as [E|E] by lia;
      rewrite E in Hk; rewrite Hk, Z.eqb_refl; by rewrite ?orb_true_r.
  - assert (is_Some (syncookie_mss_table !! i)) as [v Hv] by (apply lookup_lt_is_Some_2; done).
    unfold mss_entry. rewrite Hv. by apply list_elem_of_lookup_2 with i.
  - intros w Hw Hwm. apply list_elem_of_lookup_1 in Hw as [j Hj].
    assert (w = mss_entry j) as -> by (unfold mss_entry; by rewrite Hj).
    apply Hgr; [by apply lookup_lt_Some in Hj|done].
Qed.

(** ** Bounds of the retransmission timer *)

Definition rto_ok (c : tcp_conn) : Prop := rto_us c = TCP_RTO_INITIAL_US \/ TCP_RTO_MIN_US <= rto_us c <= TCP_RTO_MAX_US.

(** After any sample the timeout is between 200 ms and a minute, and with any
    back-off a retransmission is due after at least one and at most 6000 ticks. *)
Theorem tcp_rto_bounds c r_us backoff :
  rto_ok c -> 0 <= backoff ->
  rto_ok (tcp_update_rtt r_us c) /\ 1 <= tcp_rto_ticks (tcp_update_rtt r_us c |> set_rto_backoff backoff) <= 6000.
Proof.
  intros Hok Hb.
  assert (Hrto : rto_ok (tcp_update_rtt r_us c)).
  { unfold tcp_update_rtt, rto_ok. case_if; [done|]. right.
    match goal with |- context [set_rto_us (u32 ?r)] => set (rto := r) end.
    assert (TCP_RTO_MIN_US <= rto <= TCP_RTO_MAX_US).
    { unfold rto, TCP_RTO_MIN_US, TCP_RTO_MAX_US. repeat case_if; zify_bool; lia. }
    change (TCP_RTO_MIN_US <= u32 rto <= TCP_RTO_MAX_US). rewrite u32_small; unfold TCP_RTO_MAX_US, TCP_RTO_MIN_US in *; lia. }
  split; [done|]. unfold tcp_rto_ticks.
  change (rto_us (tcp_update_rtt r_us c |> set_rto_backoff backoff)) with (rto_us (tcp_update_rtt r_us c)).
  change (rto_backoff (tcp_update_rtt r_us c |> set_rto_backoff backoff)) with backoff.
  set (r := rto_us (tcp_update_rtt r_us c)) in *.
  assert (Hr : TCP_RTO_MIN_US <= r <= TCP_RTO_MAX_US) by (unfold rto_ok, TCP_RTO_MIN_US, TCP_RTO_MAX_US, TCP_RTO_INITIAL_US in *; lia).
  clearbody r. clear Hrto Hok. unfold TCP_RTO_MIN_US, TCP_RTO_MAX_US, TCP_RTO_INITIAL_US in *.
  destruct (Z.eqb_spec r 0); [lia|]. cbn [negb].
  destruct (Z.eqb_spec backoff 0) as [|Hb0]; cbn [negb]; [case_if; zify_bool; zlia|].
  assert (Hs : exists k, (if 6 <? backoff then 6 else backoff) = k /\ 1 <= k <= 6) by (eexists; split; [done|case_if; zify_bool; lia]).
  destruct Hs as (k & -> & Hk). rewrite Z.shiftr_div_pow2, Z.shiftl_mul_pow2 by lia.
  assert (0 < 2 ^ k <= 64) by (split; [|change 64 with (2 ^ 6); apply Z.pow_le_mono_r]; lia).
  destruct (Z.ltb_spec (60000000 / 2 ^ k) r); [done|].
  assert (r * 2 ^ k <= 60000000) by (etransitivity; [apply Z.mul_le_mono_nonneg_r; [lia|done]|rewrite Z.mul_comm; apply Z.mul_div_le; lia]).
  rewrite u32_small by nia. assert (200000 <= r * 2 ^ k) by nia. case_if; zify_bool; zlia.
Qed.
