(* ===== verification/TcpWire.v ===== *)
(** * TCP segments ([kernel/net/tcp.c])

    The options parser and builder, the construction of a segment with its checksum,
    and the functions that send one. *)

From Stdlib Require Import ZArith Lia Bool.
From stdpp Require Import base list.
From S2P Require Import Prelude Wire TcpConn.

Open Scope Z_scope.
Open Scope tcp_scope.

Definition TCP_OPT_END : Z := 0.
Definition TCP_OPT_NOP : Z := 1.
Definition TCP_OPT_MSS : Z := 2.
Definition TCP_OPT_MSS_LEN : Z := 4.
Definition TCP_OPT_WSCALE : Z := 3.
Definition TCP_OPT_WSCALE_LEN : Z := 3.
Definition TCP_OPT_SACK_PERM : Z := 4.
Definition TCP_OPT_SACK_PERM_LEN : Z := 2.
Definition TCP_OPT_SACK : Z := 5.
Definition TCP_OPT_TIMESTAMP : Z := 8.
Definition TCP_OPT_TIMESTAMP_LEN : Z := 10.

(** ** The options parser *)

(** [tcp_parsed_opts_t]; [sack] has [sack_count] elements. *)
Record tcp_parsed_opts := mk_opts {
  po_mss : Z;
  po_wscale : Z;
  po_sack_perm : bool;
  po_ts_present : bool;
  po_tsval : Z;
  po_tsecr : Z;
  po_sack : list (Z * Z);
}.

Definition no_opts : tcp_parsed_opts := mk_opts 0 (-1) false false 0 0 [].

(** The big-endian value at [l[i..i+3]]. *)
Definition get_be32 (l : list Z) (i : nat) : Z :=
  Z.lor (Z.lor (Z.lor (Z.shiftl (byte_at l i) 24) (Z.shiftl (byte_at l (i + 1)) 16))
               (Z.shiftl (byte_at l (i + 2)) 8))
        (byte_at l (i + 3)).

Definition get_be16 (l : list Z) (i : nat) : Z :=
  u16 (Z.lor (Z.shiftl (byte_at l i) 8) (byte_at l (i + 1))).

(** The [switch] on the kind [k]; [o] are the bytes of the option from [opts[i]]. *)
Definition parse_option (k l : Z) (o : list Z) (out : tcp_parsed_opts) : tcp_parsed_opts :=
  let '(mk_opts mss ws sp tp tv te sk) := out in
  if k =? TCP_OPT_MSS then
    if l =? 4 then mk_opts (get_be16 o 2) ws sp tp tv te sk else out
  else if k =? TCP_OPT_WSCALE then
    if l =? 3 then
      let s := byte_at o 2 in
      mk_opts mss (if 14 <? s then 14 else s) sp tp tv te sk
    else out
  else if k =? TCP_OPT_SACK_PERM then
    if l =? 2 then mk_opts mss ws true tp tv te sk else out
  else if k =? TCP_OPT_TIMESTAMP then
    if l =? 10 then mk_opts mss ws sp true (get_be32 o 2) (get_be32 o 6) sk else out
  else if k =? TCP_OPT_SACK then
    let blocks := Nat.min (Z.to_nat ((l - 2) / 8)) TCP_MAX_SACK_BLOCKS in
    mk_opts mss ws sp tp tv te
      (map (fun b => (get_be32 o (2 + b * 8), get_be32 o (6 + b * 8))) (seq 0 blocks))
  else out.

(** [while (i < opt_len)]; [o] are the bytes [opts[i .. opt_len)], and every round
    removes at least one. *)
Fixpoint parse_options (fuel : nat) (o : list Z) (out : tcp_parsed_opts) : tcp_parsed_opts :=
  match fuel with
  | O => out
  | S fuel' =>
      match o with
      | [] => out
      | k :: t =>
          if k =? TCP_OPT_END then out
          else if k =? TCP_OPT_NOP then parse_options fuel' t out
          else
            match t with
            | [] => out
            | l :: _ =>
                if (l <? 2) || (Z.of_nat (length o) <? l) then out
                else parse_options fuel' (drop (Z.to_nat l) o) (parse_option k l o out)
            end
      end
  end.

Definition tcp_parse_options (tcp : list Z) (data_offset : Z) : tcp_parsed_opts :=
  if data_offset <=? sizeof_tcp_header then no_opts
  else
    let opt_len := Z.to_nat (data_offset - sizeof_tcp_header) in
    parse_options opt_len (map (fun i => byte_at tcp (20 + i)) (seq 0 opt_len)) no_opts.

(** ** The options builder *)

(** The coalesced blocks of the out-of-order queue. *)
Fixpoint sack_build (l : list ooo_segment) (blocks : list (Z * Z)) : list (Z * Z) :=
  match l with
  | [] => blocks
  | e :: l' =>
      if (TCP_MAX_SACK_BLOCKS <=? length blocks)%nat then blocks
      else
        let left := oo_seq e in
        let right := u32 (left + Z.of_nat (length (oo_data e))) in
        sack_build l'
          (match last blocks with
           | Some (bl, br) =>
               if br =? left then removelast blocks ++ [(bl, right)] else blocks ++ [(left, right)]
           | None => blocks ++ [(left, right)]
           end)
  end.

(** [while (n & 3) buf[n++] = TCP_OPT_NOP;] *)
Definition pad_options (buf : list Z) : list Z :=
  buf ++ replicate (Nat.modulo (4 - Nat.modulo (length buf) 4) 4) TCP_OPT_NOP.

Section Send.
Context {N : Type} `{IpLayer N}.
Implicit Types (s : tcp_io N) (c : tcp_conn).

(** Every caller passes a connection. *)
Definition tcp_build_options s c (flags mss_to_advertise : Z) : tcp_io N * list Z :=
  let is_syn := has flags TCP_SYN in
  let is_synack := is_syn && has flags TCP_ACK in
  let b :=
    if is_syn then [TCP_OPT_MSS; TCP_OPT_MSS_LEN; u8 (Z.shiftr mss_to_advertise 8); u8 mss_to_advertise]
    else [] in
  let b := b ++
    (if is_syn && (negb is_synack || sack_ok c)
     then [TCP_OPT_NOP; TCP_OPT_NOP; TCP_OPT_SACK_PERM; TCP_OPT_SACK_PERM_LEN] else []) in
  let b := b ++
    (if is_syn && (negb is_synack || ws_enabled c)
     then [TCP_OPT_NOP; TCP_OPT_WSCALE; TCP_OPT_WSCALE_LEN; if negb (rcv_wscale c =? 0) then rcv_wscale c else 7]
     else []) in
  let '(s, b) :=
    if is_syn || ts_enabled c then
      let '(s, tsval) := tcp_ts_now_for s c in
      let tsecr := if ts_enabled c then ts_recent c else 0 in
      (s, b ++ [TCP_OPT_NOP; TCP_OPT_NOP; TCP_OPT_TIMESTAMP; TCP_OPT_TIMESTAMP_LEN]
            ++ be_bytes32 tsval ++ be_bytes32 tsecr)
    else (s, b) in
  let b := b ++
    (if negb is_syn && sack_ok c && negb (bool_decide (ooo c = [])) then
       let blocks := sack_build (ooo c) [] in
       if (0 <? Z.of_nat (length blocks)) &&
          (Z.of_nat (length b) + 2 + Z.of_nat (length blocks) * 8 + 2 <=? TCP_MAX_OPTIONS)
       then [TCP_OPT_NOP; TCP_OPT_NOP; TCP_OPT_SACK; u8 (2 + Z.of_nat (length blocks) * 8)]
              ++ concat (map (fun '(l, r) => be_bytes32 l ++ be_bytes32 r) blocks)
       else []
     else []) in
  (s, pad_options b).

(** ** Segments *)

(** The arguments of [tcp_send_segment_ex]. *)
Record seg_out := mk_seg_out {
  so_src_ip : Z;
  so_dst_ip : Z;
  so_src_port : Z;
  so_dst_port : Z;
  so_seq : Z;
  so_ack : Z;
  so_flags : Z;
  so_window : Z;
  so_data : list Z;
  so_options : list Z;
}.

Definition tcp_header_bytes (src_port dst_port seq ack data_offset flags window checksum urg : Z) : list Z :=
  le16 (net_htons src_port) ++ le16 (net_htons dst_port) ++ le32 (net_htonl seq) ++ le32 (net_htonl ack)
    ++ [data_offset; flags] ++ le16 (net_htons window) ++ le16 checksum ++ le16 (net_htons urg).

Definition tcp_pseudo_header (src_ip dst_ip tcp_len : Z) : list Z :=
  be_bytes32 src_ip ++ be_bytes32 dst_ip ++ [0; IP_PROTO_TCP] ++ be_bytes16 tcp_len.

(** The options padded with zeros. *)
Definition padded_options (options : list Z) : list Z :=
  options ++ replicate (Nat.modulo (4 - Nat.modulo (length options) 4) 4) 0.

Definition tcp_data_offset (options : list Z) : Z :=
  u8 (Z.shiftl ((sizeof_tcp_header + Z.of_nat (length (padded_options options))) / 4) 4).

(** The packet with the given checksum field. *)
Definition tcp_packet (x : seg_out) (checksum : Z) : list Z :=
  tcp_header_bytes (so_src_port x) (so_dst_port x) (so_seq x) (so_ack x) (tcp_data_offset (so_options x))
    (so_flags x) (so_window x) checksum 0
    ++ padded_options (so_options x) ++ so_data x.

Definition tcp_len (x : seg_out) : Z :=
  u16 (sizeof_tcp_header + Z.of_nat (length (padded_options (so_options x))) + Z.of_nat (length (so_data x))).

(** The message, or [None] where the function returns -1. *)
Definition tcp_message (x : seg_out) : option (list Z) :=
  if TCP_MAX_OPTIONS <? Z.of_nat (length (padded_options (so_options x))) then None
  else if sizeof_tcp_header + TCP_MAX_OPTIONS + TCP_MSS <? tcp_len x then None
  else
    let pseudo := tcp_pseudo_header (so_src_ip x) (so_dst_ip x) (tcp_len x) ++ tcp_packet x 0 in
    Some (tcp_packet x (ipv4_checksum pseudo (u16 (12 + tcp_len x)))).

Definition tcp_send_segment_ex s (dev : devptr) (x : seg_out) : tcp_io N * Z :=
  match tcp_message x with
  | None => (s, -1)
  | Some msg =>
      let '(n, rc) := ip_send (io_net s) dev (so_dst_ip x) IP_PROTO_TCP msg in
      (log_send n rc (so_dst_ip x) msg s, rc)
  end.

(** A segment of connection [c]. *)
Definition conn_seg c (seq ack flags window : Z) (data options : list Z) : seg_out :=
  mk_seg_out (local_ip c) (remote_ip c) (local_port c) (remote_port c) seq ack flags window data options.

(** [tcp_send_segment] on the addresses of [c]. *)
Definition tcp_send_segment s c (seq ack flags window : Z) (data : list Z) : tcp_io N * Z :=
  tcp_send_segment_ex s (conn_dev c) (conn_seg c seq ack flags window data []).

Definition tcp_send_ack s c : tcp_io N * tcp_conn :=
  let '(s, opts) := tcp_build_options s c TCP_ACK 0 in
  let win := tcp_advertised_window c in
  let '(s, _) := tcp_send_segment_ex s (conn_dev c) (conn_seg c (snd_nxt c) (rcv_nxt c) TCP_ACK win [] opts) in
  (s, c |> set_delayed_ack_pending false |> set_segs_since_ack 0).

Definition tcp_send_rst s (dev : devptr) (src_ip dst_ip src_port dst_port seq ack : Z) : tcp_io N :=
  fst (tcp_send_segment_ex s dev
         (mk_seg_out src_ip dst_ip src_port dst_port seq ack (Z.lor TCP_RST TCP_ACK) 0 [] [])).

(** [tcp_send_syn_packet] as its callers use it: the SYN of connection [c]. *)
Definition tcp_send_syn_packet s c : tcp_io N :=
  let '(s', opts) := tcp_build_options s c TCP_SYN (tcp_local_mss (io_net s) (conn_dev c)) in
  fst (tcp_send_segment_ex s' (conn_dev c) (conn_seg c (iss c) 0 TCP_SYN TCP_WINDOW_SIZE [] opts)).

Definition tcp_send_synack_conn s c (window : Z) : tcp_io N :=
  let flags := Z.lor TCP_SYN TCP_ACK in
  let '(s', opts) := tcp_build_options s c flags (tcp_local_mss (io_net s) (conn_dev c)) in
  fst (tcp_send_segment_ex s' (conn_dev c) (conn_seg c (iss c) (rcv_nxt c) flags window [] opts)).

(** The packet [tcp_send_oob] builds, with the given checksum field. *)
Definition oob_packet c (opts : list Z) (b checksum : Z) : list Z :=
  let off := u8 (Z.shiftl ((sizeof_tcp_header + Z.of_nat (length opts)) / 4) 4) in
  tcp_header_bytes (local_port c) (remote_port c) (snd_nxt c) (rcv_nxt c) off
    (Z.lor (Z.lor TCP_ACK TCP_URG) TCP_PSH) (tcp_advertised_window c) checksum 1 ++ opts ++ [b].

(** The addresses of its pseudo-header pass through [net_htonl]. *)
Definition oob_message c (opts : list Z) (b : Z) : list Z :=
  let len := u16 (sizeof_tcp_header + Z.of_nat (length opts) + 1) in
  let pseudo := tcp_pseudo_header (net_htonl (local_ip c)) (net_htonl (remote_ip c)) len ++ oob_packet c opts b 0 in
  oob_packet c opts b (ipv4_checksum pseudo (u16 (12 + len))).

Definition tcp_send_oob s c (b : Z) : tcp_io N * tcp_conn * Z :=
  if negb (bool_decide (state c = ESTABLISHED)) then (s, c, -1)
  else
    let flags := Z.lor (Z.lor TCP_ACK TCP_URG) TCP_PSH in
    let '(s, opts) := tcp_build_options s c flags 0 in
    let msg := oob_message c opts b in
    let '(n, rv) := ip_send (io_net s) (conn_dev c) (remote_ip c) IP_PROTO_TCP msg in
    let s := log_send n rv (remote_ip c) msg s in
    if rv =? 0 then
      let c := c |> set_snd_up (u32 (snd_nxt c + 1)) |> set_snd_nxt (u32 (snd_nxt c + 1)) in
      (s, tcp_queue_inflight s (u32 (snd_nxt c - 1)) flags [b] c, rv)
    else (s, c, rv).

(** ** Sending data *)

Definition flightsize c : Z := fold_left (fun a x => u32 (a + Z.of_nat (length (if_data x)))) (inflight c) 0.

(** The [while (sent < len)] loop; [data] is what is left of the buffer, [sent] the
    number of bytes sent so far.  Every round sends at least one byte. *)
Fixpoint send_loop (fuel : nat) s c (seg_mss flight budget sent : Z) (data : list Z) : tcp_io N * tcp_conn * Z :=
  match fuel with
  | O => (s, c, sent)
  | S fuel' =>
      if bool_decide (data = []) then (s, c, sent)
      else if negb (may_queue c) then (s, c |> set_tx_ready false, sent)
      else if budget =? 0 then (s, if sent =? 0 then c |> set_tx_ready false else c, sent)
      else
        let seg_len := Z.of_nat (length data) in
        let seg_len := if seg_mss <? seg_len then seg_mss else seg_len in
        let seg_len := if budget <? seg_len then u16 budget else seg_len in
        if negb (nodelay c) && (0 <? flight) && (seg_len <? seg_mss) && (0 <? sent) then (s, c, sent)
        else
          let c := if cork c && (seg_len <? seg_mss) && (cork_deadline c =? 0)
                   then c |> set_cork_deadline (u64 (timer_ticks s + 20)) else c in
          if cork c && (seg_len <? seg_mss) && (timer_ticks s <? cork_deadline c) then (s, c, sent)
          else
            let c := if cork c && (seg_len <? seg_mss) then c |> set_cork_deadline 0 else c in
            let flags := Z.lor TCP_ACK TCP_PSH in
            let '(s, opts) := tcp_build_options s c flags 0 in
            let seg := take (Z.to_nat seg_len) data in
            let '(s, rc) := tcp_send_segment_ex s (conn_dev c)
                              (conn_seg c (snd_nxt c) (rcv_nxt c) flags (tcp_advertised_window c) seg opts) in
            if rc <? 0 then (s, c, sent)
            else
              let c := tcp_queue_inflight s (snd_nxt c) flags seg c in
              let c := c |> set_snd_nxt (u32 (snd_nxt c + seg_len)) in
              send_loop fuel' s c seg_mss (u32 (flight + seg_len)) (u32 (budget - seg_len)) (u16 (sent + seg_len))
                (drop (Z.to_nat seg_len) data)
  end.

(** [len] is a [uint16_t]. *)
Definition tcp_send_data s c (data : list Z) : tcp_io N * tcp_conn * Z :=
  if negb (bool_decide (state c = ESTABLISHED)) then (s, c, -1)
  else if bool_decide (data = []) then (s, c, 0)
  else
    let seg_mss := tcp_effective_mss c in
    let seg_mss := if ts_enabled c && (12 <? seg_mss) then seg_mss - 12 else seg_mss in
    let flight := flightsize c in
    let cwnd_bytes := u32 (cwnd c * seg_mss) in
    let window_bytes := if negb (snd_wnd c =? 0) then snd_wnd c else seg_mss in
    let allowed := if cwnd_bytes <? window_bytes then cwnd_bytes else window_bytes in
    let budget := if flight <? allowed then allowed - flight else 0 in
    let '(s, c, sent) := send_loop (S (length data)) s c seg_mss flight budget 0 data in
    if sent =? 0 then (s, c |> set_tx_ready false, 0)
    else (s, c |> set_retransmit_tick (u64 (timer_ticks s + tcp_rto_ticks c)) |> set_retransmit_count 0, sent).

End Send.
