(* ===== verification/TcpRx.v ===== *)
(** * Receiving a TCP segment ([tcp_rx] of [kernel/net/tcp.c])

    The fields of a received segment and the [switch] of [tcp_rx] on the state of the
    connection, one definition per state.  A handler returns the connection and what
    is left to do with the table: whether the connection became established and has
    to be put into the accept queue of its parent, and whether it is freed after the
    lock is dropped. *)

From Stdlib Require Import ZArith Lia Bool.
From stdpp Require Import base list.
From S2P Require Import Prelude Wire TcpConn TcpWire.

Open Scope Z_scope.
Open Scope tcp_scope.

(** ** The fields of a segment *)

Record seg_in := mk_seg_in {
  si_src_port : Z;
  si_dst_port : Z;
  si_seq : Z;
  si_ack : Z;
  si_flags : Z;
  si_window : Z;
  si_opts : tcp_parsed_opts;
  si_urg_ptr : Z;
  si_payload : list Z;
}.

Definition payload_len (g : seg_in) : Z := Z.of_nat (length (si_payload g)).

(** [None] where [tcp_rx] drops the message before it looks for a connection. *)
Definition tcp_parse (data : list Z) : option seg_in :=
  let len := Z.of_nat (length data) in
  if len <? sizeof_tcp_header then None
  else
    let data_offset := Z.shiftr (byte_at data 12) 4 * 4 in
    let pop := tcp_parse_options data data_offset in
    if len <? data_offset then None
    else
      Some (mk_seg_in (net_ntohs (ld16 data 0)) (net_ntohs (ld16 data 2)) (net_ntohl (ld32 data 4))
              (net_ntohl (ld32 data 8)) (byte_at data 13) (net_ntohs (ld16 data 14)) pop
              (net_ntohs (ld16 data 18)) (drop (Z.to_nat data_offset) data)).

Record rx_then := mk_then { enqueue : bool; release : bool }.
Definition Keep : rx_then := mk_then false false.

Section Rx.
Context {N : Type} `{IpLayer N}.
Implicit Types (s : tcp_io N) (c : tcp_conn) (g : seg_in).

(** ** Connection set-up *)

(** The options of the peer's SYN; without window scaling ours is off. *)
Definition adopt_options s g c : tcp_conn :=
  let pop := si_opts g in
  let c := if po_ts_present pop
           then c |> set_ts_enabled true |> set_ts_recent (po_tsval pop) |> set_ts_recent_age (u32 (timer_ticks s))
           else c in
  let c := if 0 <=? po_wscale pop then c |> set_ws_enabled true |> set_snd_wscale (u8 (po_wscale pop))
           else c |> set_rcv_wscale 0 in
  if po_sack_perm pop then c |> set_sack_ok true else c.

Definition or_mss (mss : Z) : Z := if negb (mss =? 0) then mss else TCP_MSS.

Definition rx_syn_sent s g c : tcp_io N * tcp_conn :=
  let flags := si_flags g in
  let pop := si_opts g in
  if has flags TCP_SYN && has flags TCP_ACK then
    if si_ack g =? snd_nxt c then
      let c := c |> set_irs (si_seq g) |> set_rcv_nxt (u32 (si_seq g + 1)) |> set_snd_una (si_ack g)
                 |> set_snd_wnd (si_window g) |> set_peer_mss (or_mss (po_mss pop))
                 |> set_max_seg_size (or_mss (po_mss pop)) |> set_state ESTABLISHED |> set_connect_done true in
      tcp_send_ack s (adopt_options s g c)
    else (s, c)
  else if has flags TCP_RST then (s, tcp_fail_connection ECONNREFUSED c)
  else if has flags TCP_SYN && negb (has flags TCP_ACK) then
    let c := c |> set_irs (si_seq g) |> set_rcv_nxt (u32 (si_seq g + 1)) |> set_snd_wnd (si_window g) in
    let c := if po_ts_present pop then c |> set_ts_enabled true |> set_ts_recent (po_tsval pop) else c in
    let c := if 0 <=? po_wscale pop then c |> set_ws_enabled true |> set_snd_wscale (u8 (po_wscale pop)) else c in
    let c := if po_sack_perm pop then c |> set_sack_ok true else c in
    let c := c |> set_state SYN_RECEIVED |> set_retransmit_count 0
               |> set_retransmit_tick (u64 (timer_ticks s + TCP_SYN_RETRANSMIT_TICKS)) in
    (tcp_send_synack_conn s c (tcp_advertised_window c), c)
  else (s, c).

(** [scaled <<= conn->snd_wscale] if scaling is on. *)
Definition scaled_window g c : Z :=
  if ws_enabled c then u32 (Z.shiftl (si_window g) (snd_wscale c)) else si_window g.

Definition rx_syn_received s g c : tcp_io N * tcp_conn * rx_then :=
  let flags := si_flags g in
  if has flags TCP_SYN && negb (has flags TCP_ACK) && (si_seq g =? irs c)
  then (tcp_send_synack_conn s c (tcp_advertised_window c), c, Keep)
  else
    let established := has flags TCP_ACK && (si_ack g =? snd_nxt c) in
    let c :=
      if established then
        c |> set_snd_una (si_ack g) |> set_snd_wnd (scaled_window g c)
          |> set_max_seg_size (or_mss (peer_mss c)) |> set_state ESTABLISHED
          |> set_retransmit_tick 0 |> set_retransmit_count 0
      else c in
    if has flags TCP_RST then (s, c |> set_state CLOSED, mk_then established true)
    else (s, c, mk_then established false).

(** ** The established state *)

(** PAWS; [None] if the segment is dropped. *)
Definition rx_paws s g c : option tcp_conn :=
  let pop := si_opts g in
  if ts_enabled c && po_ts_present pop then
    if (i32 (po_tsval pop - ts_recent c) <? 0) && (0 <? payload_len g) then None
    else if (i32 (si_seq g - rcv_nxt c) <=? 0) && (0 <=? i32 (po_tsval pop - ts_recent c))
    then Some (c |> set_ts_recent (po_tsval pop) |> set_ts_recent_age (u32 (timer_ticks s)))
    else Some c
  else Some c.

Definition rx_urgent g c : tcp_conn :=
  if has (si_flags g) TCP_URG then
    let c := c |> set_rcv_up (u32 (si_seq g + si_urg_ptr g)) in
    if (0 <? si_urg_ptr g) && (si_urg_ptr g <=? payload_len g)
    then c |> set_urgent_byte (byte_at (si_payload g) (Z.to_nat (si_urg_ptr g - 1))) |> set_urgent_valid true
    else c
  else c.

(** The round-trip sample a new acknowledgement gives. *)
Definition rx_rtt s g c : tcp_io N * tcp_conn :=
  let pop := si_opts g in
  if ts_enabled c && po_ts_present pop && negb (po_tsecr pop =? 0) then
    let '(s, now_ts) := tcp_ts_now_for s c in
    let elapsed := u32 (now_ts - po_tsecr pop) in
    (s, tcp_update_rtt (u32 (elapsed * 10000)) c)
  else
    match list_find (fun x => seg_end x <= si_ack g /\ if_retransmit_count x = 0 /\ if_send_us x <> 0) (inflight c) with
    | Some (_, x) =>
        (s, if if_send_us x <? precise_us s then tcp_update_rtt (u32 (precise_us s - if_send_us x)) c else c)
    | None => (s, c)
    end.

(** NewReno on a new acknowledgement; [ca_counter] is shared by all connections. *)
Definition rx_newreno s c : tcp_io N * tcp_conn :=
  if cwnd c <? ssthresh c then
    let c := c |> set_cwnd (u32 (cwnd c + 1)) in
    (s, if 65535 <? cwnd c then c |> set_cwnd 65535 else c)
  else
    let s := set_ca_counter (u32 (ca_counter s + 1)) s in
    if cwnd c <=? ca_counter s then (set_ca_counter 0 s, c |> set_cwnd (u32 (cwnd c + 1))) else (s, c).

(** Resends the first unacknowledged segment and counts it. *)
Definition resend_first s c : tcp_io N * tcp_conn :=
  match inflight c with
  | [] => (s, c)
  | x :: rest =>
      let '(s, _) := tcp_send_segment s c (if_seq x) (rcv_nxt c) (if_flags x) (tcp_advertised_window c) (if_data x) in
      (s, c |> set_inflight (mk_inflight (if_seq x) (if_flags x) (u8 (if_retransmit_count x + 1)) (if_send_us x) (if_data x) :: rest))
  end.

(** New values of the thresholds when a segment is taken for lost. *)
Definition half_flight c : Z :=
  let flight := Z.of_nat (length (inflight c)) in
  if 2 <? flight then flight / 2 else 2.

Definition rx_ack s g c : tcp_io N * tcp_conn :=
  if negb (has (si_flags g) TCP_ACK) then (s, c)
  else
    let ack := si_ack g in
    let c := if sack_ok c && negb (bool_decide (po_sack (si_opts g) = []))
             then c |> set_sack_blocks (po_sack (si_opts g)) else c in
    if (snd_una c <? ack) && (ack <=? snd_nxt c) then
      let '(s, c) := rx_rtt s g c in
      let c := tcp_ack_inflight ack (c |> set_snd_una ack) in
      let c := c |> set_retransmit_count 0 in
      let c := c |> set_retransmit_tick (u64 (timer_ticks s + tcp_rto_ticks c)) in
      let c := c |> set_tx_ready (may_queue c) |> set_dup_acks 0 in
      rx_newreno s c
    else if (ack =? snd_una c) && (payload_len g =? 0) && negb (bool_decide (inflight c = [])) then
      let c := c |> set_dup_acks (u32 (dup_acks c + 1)) in
      if dup_acks c =? 3 then
        let c := c |> set_ssthresh (half_flight c) in
        let c := c |> set_cwnd (u32 (ssthresh c + 3)) in
        let '(s, c) := resend_first s c in
        (s, c |> set_total_retrans (u32 (total_retrans c + 1)))
      else if 3 <? dup_acks c then (s, c |> set_cwnd (u32 (cwnd c + 1)))
      else (s, c)
    else (s, c).

(** At most [rx_free] of the bytes go into the ring. *)
Definition rx_store (bs : list Z) c : tcp_conn :=
  let copy := Z.min (Z.of_nat (length bs)) (rx_free c) in
  let c := rx_put (take (Z.to_nat copy) bs) c in
  c |> set_rcv_nxt (u32 (rcv_nxt c + copy)).

(** [while (progress && conn->ooo_count > 0)]; a round with progress removes an
    element. *)
Fixpoint rx_drain (fuel : nat) c : tcp_conn :=
  match fuel with
  | O => c
  | S fuel' =>
      match find_idx (fun e => oo_seq e =? rcv_nxt c) (ooo c) with
      | None => c
      | Some k =>
          let bs := default [] (oo_data <$> ooo c !! k) in
          let c := rx_store bs c in
          rx_drain fuel' (c |> set_ooo (delete k (ooo c)))
      end
  end.

(** Insertion in the order of the sequence numbers; a segment that starts where a
    queued one starts is dropped. *)
Definition ooo_insert (seq : Z) (data : list Z) c : tcp_conn :=
  let pos := default (length (ooo c))
               (find_idx (fun e => (oo_seq e =? seq) || (i32 (seq - oo_seq e) <? 0)) (ooo c)) in
  let dup := match ooo c !! pos with Some e => oo_seq e =? seq | None => false end in
  if negb dup && (length (ooo c) <? TCP_MAX_OOO)%nat
  then c |> set_ooo (take pos (ooo c) ++ mk_ooo seq data :: drop pos (ooo c))
  else c.

Definition rx_data s g c : tcp_io N * tcp_conn :=
  if payload_len g =? 0 then (s, c)
  else if si_seq g =? rcv_nxt c then
    let c := rx_store (si_payload g) c |> set_rx_ready true in
    let c := rx_drain (length (ooo c)) c in
    let c := c |> set_segs_since_ack (u8 (segs_since_ack c + 1)) in
    if (2 <=? segs_since_ack c) || negb (bool_decide (ooo c = [])) || has (si_flags g) TCP_PSH then tcp_send_ack s c
    else if negb (delayed_ack_pending c)
    then (s, c |> set_delayed_ack_pending true |> set_delayed_ack_deadline (u64 (timer_ticks s + 20)))
    else (s, c)
  else if (0 <? i32 (si_seq g - rcv_nxt c)) && (payload_len g <=? TCP_MSS)
  then tcp_send_ack s (ooo_insert (si_seq g) (si_payload g) c)
  else tcp_send_ack s c.

(** [conn->rcv_nxt = seq + payload_len + 1] and the new state. *)
Definition take_fin g (st : tcp_st) c : tcp_conn :=
  c |> set_rcv_nxt (u32 (si_seq g + payload_len g + 1)) |> set_state st.

Definition rx_established s g c : tcp_io N * tcp_conn :=
  if has (si_flags g) TCP_RST then (s, tcp_fail_connection ECONNRESET c)
  else
    let c := c |> set_last_rx_tick (timer_ticks s) |> set_keep_probes_sent 0 in
    match rx_paws s g c with
    | None => tcp_send_ack s c
    | Some c =>
        let c := c |> set_snd_wnd (scaled_window g c) in
        let c := rx_urgent g c in
        let '(s, c) := rx_ack s g c in
        let '(s, c) := rx_data s g c in
        if has (si_flags g) TCP_FIN then tcp_send_ack s (take_fin g CLOSE_WAIT c |> set_rx_ready true) else (s, c)
    end.

(** ** Closing *)

(** Everything up to [snd_nxt] is acknowledged. *)
Definition all_acked g c : bool := has (si_flags g) TCP_ACK && (si_ack g =? snd_nxt c).
Definition take_ack g c : tcp_conn := tcp_ack_inflight (si_ack g) (c |> set_snd_una (si_ack g)).
Definition enter_time_wait s c : tcp_conn :=
  c |> set_state TIME_WAIT |> set_time_wait_tick (u64 (timer_ticks s + TCP_TIME_WAIT_TICKS)).

Definition rx_fin_wait_1 s g c : tcp_io N * tcp_conn :=
  let fin := has (si_flags g) TCP_FIN in
  if all_acked g c then
    let c := take_ack g c in
    if fin then tcp_send_ack s (enter_time_wait s (take_fin g TIME_WAIT c))
    else (s, c |> set_state FIN_WAIT_2 |> set_fin_wait_2_deadline (u64 (timer_ticks s + 6000)))
  else if fin then tcp_send_ack s (take_fin g CLOSING c)
  else (s, c).

Definition rx_fin_wait_2 s g c : tcp_io N * tcp_conn :=
  if has (si_flags g) TCP_FIN then tcp_send_ack s (enter_time_wait s (take_fin g TIME_WAIT c)) else (s, c).

Definition rx_time_wait s g c : tcp_io N * tcp_conn :=
  if has (si_flags g) TCP_FIN then
    let '(s, c) := tcp_send_ack s c in
    (s, c |> set_time_wait_tick (u64 (timer_ticks s + TCP_TIME_WAIT_TICKS)))
  else (s, c).

(** ** The switch *)

Definition rx_switch s g c : tcp_io N * tcp_conn * rx_then :=
  match state c with
  | SYN_SENT => (rx_syn_sent s g c, Keep)
  | SYN_RECEIVED => rx_syn_received s g c
  | ESTABLISHED => (rx_established s g c, Keep)
  | FIN_WAIT_1 => (rx_fin_wait_1 s g c, Keep)
  | FIN_WAIT_2 => (rx_fin_wait_2 s g c, Keep)
  | CLOSING => (s, if all_acked g c then enter_time_wait s (take_ack g c) else c, Keep)
  | LAST_ACK => if all_acked g c then (s, take_ack g c |> set_state CLOSED, mk_then false true) else (s, c, Keep)
  | TIME_WAIT => (rx_time_wait s g c, Keep)
  | _ => (s, c, Keep)
  end.

(** The re-validation under the lock. *)
Definition rx_matches (src_ip local : Z) g c : bool :=
  active c && (local_port c =? si_dst_port g) && (remote_port c =? si_src_port g) && (remote_ip c =? src_ip)
  && ((local_ip c =? local) || (local_ip c =? 0)).

End Rx.
