(* ===== verification/TcpSegment.v ===== *)
(** * TCP segments on the wire: what is sent is what is received

    The receiver's parser ([tcp_parse], [tcp_parse_options]) reads back the fields
    and options the sender wrote, and the checksum verifies. *)

From Stdlib Require Import ZArith Lia Bool.
From stdpp Require Import base list.
From S2P Require Import Prelude Wire TcpConn TcpWire TcpRx.

Open Scope Z_scope.
Open Scope tcp_scope.

(** ** Big-endian numbers *)

Lemma length_be32 v : length (be_bytes32 v) = 4%nat.
Proof. done. Qed.

Lemma length_be16 v : length (be_bytes16 v) = 2%nat.
Proof. done. Qed.

Lemma be32_value a b c d :
  byte a -> byte b -> byte c -> byte d ->
  Z.lor (Z.lor (Z.lor (Z.shiftl a 24) (Z.shiftl b 16)) (Z.shiftl c 8)) d
  = d + 256 * c + 65536 * b + 16777216 * a.
Proof.
  intros Ha Hb Hc Hd. unfold byte in *.
  rewrite (Z.lor_comm _ d), (Z.lor_comm _ (Z.shiftl c 8)), (Z.lor_comm (Z.shiftl a 24)), !Z.lor_assoc.
  rewrite !Z.shiftl_mul_pow2 by lia.
  rewrite (lor_add _ _ 8), (lor_add _ _ 16), (lor_add _ _ 24) by lia. lia.
Qed.

Lemma get_put_be32 pre v post :
  urange 32 v -> get_be32 (pre ++ be_bytes32 v ++ post) (length pre) = v.
Proof.
  intros Hv. unfold get_be32. rewrite <- (Nat.add_0_r (length pre)) at 1. rewrite !byte_at_app_r.
  cbn [be_bytes32 byte_at app lookup list_lookup default].
  unfold byte_at. cbn [be_bytes32 app lookup list_lookup default from_option id].
  rewrite be32_value by apply u8_range. unfold u8. rewrite !Z.shiftr_div_pow2 by lia.
  change (2 ^ 24) with 16777216. change (2 ^ 16) with 65536. change (2 ^ 8) with 256.
  symmetry. by apply sum_of_bytes.
Qed.

Lemma get_put_be16 pre v post :
  urange 16 v -> get_be16 (pre ++ be_bytes16 v ++ post) (length pre) = v.
Proof.
  intros Hv. unfold get_be16, urange in *. rewrite <- (Nat.add_0_r (length pre)) at 1. rewrite !byte_at_app_r.
  unfold byte_at. cbn [be_bytes16 app lookup list_lookup default from_option id].
  rewrite Z.lor_comm. unfold u8. rewrite Z.shiftl_mul_pow2, lor_add, Z.shiftr_div_pow2 by zlia.
  rewrite u16_small; zlia.
Qed.

(** A value read in network byte order has 32 bits. *)
Lemma net_ntohl_urange x : urange 32 (net_ntohl x).
Proof.
  unfold net_ntohl, net_htonl, urange.
  change 0xFF with (255 * 2 ^ 0). change 0xFF00 with (255 * 2 ^ 8).
  change 0xFF0000 with (255 * 2 ^ 16). change 0xFF000000 with (255 * 2 ^ 24).
  rewrite !land_byte_mask by lia. rewrite Z.pow_0_r, Z.mul_1_r.
  match goal with |- context [Z.lor (Z.lor (Z.lor ?a (?b * _)) (?c * _)) (?d * _)] =>
    assert (0 <= a < 256 /\ 0 <= b < 256 /\ 0 <= c < 256 /\ 0 <= d < 256) as (? & ? & ? & ?)
      by (split_and!; apply Z.mod_pos_bound; lia) end.
  rewrite (lor_add _ _ 8), (lor_add _ _ 16), (lor_add _ _ 24) by lia. lia.
Qed.

Lemma tcp_parse_range data g : tcp_parse data = Some g -> urange 32 (si_seq g) /\ urange 32 (si_ack g).
Proof.
  unfold tcp_parse. case_if; [done|]. case_if; [done|]. intros [= <-]. split; apply net_ntohl_urange.
Qed.

(** ** The header *)

Lemma length_tcp_header a b c d e f g h i : length (tcp_header_bytes a b c d e f g h i) = 20%nat.
Proof. done. Qed.

Lemma data_offset_roundtrip (n : nat) :
  (n mod 4 = 0)%nat -> Z.of_nat n <= TCP_MAX_OPTIONS ->
  Z.shiftr (u8 (Z.shiftl ((sizeof_tcp_header + Z.of_nat n) / 4) 4)) 4 * 4 = sizeof_tcp_header + Z.of_nat n.
Proof.
  intros Hm Hn. unfold TCP_MAX_OPTIONS, sizeof_tcp_header in *.
  apply Nat.Div0.mod_divides in Hm as [k ->].
  replace ((20 + Z.of_nat (4 * k)) / 4) with (5 + Z.of_nat k) by zlia.
  rewrite Z.shiftl_mul_pow2, u8_small, Z.shiftr_div_pow2 by lia. zlia.
Qed.

Lemma map_byte_at pre o post :
  map (fun i => byte_at (pre ++ o ++ post) (length pre + i)) (seq 0 (length o)) = o.
Proof.
  apply list_eq. intros i. rewrite list_lookup_fmap.
  destruct (decide (i < length o)%nat) as [Hi|Hi].
  - rewrite lookup_seq_lt by done. cbn [fmap option_fmap option_map]. rewrite byte_at_app_r. unfold byte_at.
    rewrite lookup_app_l by done. destruct (lookup_lt_is_Some_2 o i Hi) as [x Hx]. by rewrite Nat.add_0_l, Hx.
  - rewrite lookup_seq_ge by lia. symmetry. cbn. apply lookup_ge_None. lia.
Qed.

(** The segment the parser makes of a header, options and data. *)
Lemma tcp_parse_bytes sp dp sq ak fl win ck urg o data :
  let off := u8 (Z.shiftl ((sizeof_tcp_header + Z.of_nat (length o)) / 4) 4) in
  (length o mod 4 = 0)%nat -> Z.of_nat (length o) <= TCP_MAX_OPTIONS ->
  exists g, tcp_parse (tcp_header_bytes sp dp sq ak off fl win ck urg ++ o ++ data) = Some g /\
    (urange 16 sp -> si_src_port g = sp) /\ (urange 16 dp -> si_dst_port g = dp) /\
    (urange 32 sq -> si_seq g = sq) /\ (urange 32 ak -> si_ack g = ak) /\
    si_flags g = fl /\ (urange 16 win -> si_window g = win) /\ (urange 16 urg -> si_urg_ptr g = urg) /\
    si_opts g = parse_options (length o) o no_opts /\ si_payload g = data.
Proof.
  intros off Hm Hn. pose proof (data_offset_roundtrip _ Hm Hn) as Hoff. fold off in Hoff. clearbody off.
  unfold tcp_parse. set (l := tcp_header_bytes sp dp sq ak off fl win ck urg ++ o ++ data).
  assert (Hl : length l = (20 + length o + length data)%nat) by (unfold l; by rewrite !length_app).
  assert (byte_at l 12 = off) as -> by done. rewrite Hoff.
  assert (Hopts : tcp_parse_options l (sizeof_tcp_header + Z.of_nat (length o)) = parse_options (length o) o no_opts).
  { unfold tcp_parse_options. destruct (Z.leb_spec (sizeof_tcp_header + Z.of_nat (length o)) sizeof_tcp_header).
    - by destruct o; [|simpl in *; lia].
    - replace (Z.to_nat (sizeof_tcp_header + Z.of_nat (length o) - sizeof_tcp_header)) with (length o) by lia.
      f_equal. apply (map_byte_at (tcp_header_bytes sp dp sq ak off fl win ck urg)). }
  rewrite Hopts, Hl. unfold sizeof_tcp_header.
  rewrite (proj2 (Z.ltb_ge _ _)), (proj2 (Z.ltb_ge _ _)) by lia.
  eexists. split; [reflexivity|]. cbn [si_src_port si_dst_port si_seq si_ack si_flags si_window si_urg_ptr si_opts si_payload].
  assert (H16 : forall v, urange 16 (net_htons v)) by (intros; apply net_htons_range).
  assert (H32 : forall v, urange 32 v -> urange 32 (net_htonl v)) by (intros; by apply net_htonl_range).
  split_and!; try done.
  - intros. rewrite (ld16_le16 [] _ _ (H16 sp) : ld16 l 0 = _). by apply net_ntohs_htons.
  - intros. rewrite (ld16_le16 (le16 (net_htons sp)) _ _ (H16 dp) : ld16 l 2 = _). by apply net_ntohs_htons.
  - intros. rewrite (ld32_le32 (le16 (net_htons sp) ++ le16 (net_htons dp)) _ _ (H32 sq H) : ld32 l 4 = _).
    by apply net_ntohl_htonl.
  - intros. rewrite (ld32_le32 (le16 (net_htons sp) ++ le16 (net_htons dp) ++ le32 (net_htonl sq)) _ _ (H32 ak H) : ld32 l 8 = _).
    by apply net_ntohl_htonl.
  - intros. rewrite (ld16_le16 (le16 (net_htons sp) ++ le16 (net_htons dp) ++ le32 (net_htonl sq) ++ le32 (net_htonl ak)
      ++ [off; fl]) _ _ (H16 win) : ld16 l 14 = _). by apply net_ntohs_htons.
  - intros. rewrite (ld16_le16 (le16 (net_htons sp) ++ le16 (net_htons dp) ++ le32 (net_htonl sq) ++ le32 (net_htonl ak)
      ++ [off; fl] ++ le16 (net_htons win) ++ le16 ck) _ _ (H16 urg) : ld16 l 18 = _). by apply net_ntohs_htons.
  - replace (Z.to_nat (20 + Z.of_nat (length o))) with (20 + length o)%nat by lia.
    unfold l. rewrite app_assoc. apply drop_app_length'. by rewrite length_app.
Qed.

(** ** Options *)

Lemma parse_fuel f o out : (length o <= f)%nat -> parse_options f o out = parse_options (length o) o out.
Proof.
  revert o out. induction (lt_wf f) as [f _ IH]. intros o out Hf.
  destruct o as [|k t]; [by destruct f|]. destruct f as [|f]; [simpl in Hf; lia|].
  cbn [parse_options length] in *. case_if; [done|]. case_if.
  - rewrite IH by lia. done.
  - destruct t as [|l t']; [done|]. case_if; [done|].
    apply orb_false_iff in E1 as [E1 E2]. apply Z.ltb_ge in E1, E2.
    rewrite (IH f), (IH (length (l :: t'))); [done|..]; try lia; rewrite length_drop; cbn [length] in *; lia.
Qed.

Lemma parse_nop t out : parse_options (length (TCP_OPT_NOP :: t)) (TCP_OPT_NOP :: t) out = parse_options (length t) t out.
Proof. done. Qed.

Lemma parse_nops n out : parse_options (length (replicate n TCP_OPT_NOP)) (replicate n TCP_OPT_NOP) out = out.
Proof. induction n as [|n IH]; [done|]. apply IH. Qed.

Lemma parse_opt k l body rest out :
  k <> TCP_OPT_END -> k <> TCP_OPT_NOP -> l = 2 + Z.of_nat (length body) ->
  let o := [k; l] ++ body ++ rest in
  parse_options (length o) o out = parse_options (length rest) rest (parse_option k l o out).
Proof.
  intros Hk1 Hk2 Hl o. unfold o. cbn [app length].
  assert (Hf : (length rest <= S (length (body ++ rest)))%nat) by (rewrite length_app; lia).
  set (f := S (length (body ++ rest))) in *. clearbody f. cbn [parse_options length].
  rewrite (proj2 (Z.eqb_neq _ _) Hk1), (proj2 (Z.eqb_neq _ _) Hk2).
  rewrite (proj2 (Z.ltb_ge _ _)), (proj2 (Z.ltb_ge _ _)) by (rewrite ?length_app; lia). cbn [orb].
  assert (drop (Z.to_nat l) (k :: l :: body ++ rest) = rest) as ->.
  { replace (Z.to_nat l) with (S (S (length body))) by lia. cbn [drop]. apply drop_app_length. }
  by apply parse_fuel.
Qed.

Lemma parse_mss mss rest out :
  urange 16 mss ->
  let o := [TCP_OPT_MSS; TCP_OPT_MSS_LEN; u8 (Z.shiftr mss 8); u8 mss] ++ rest in
  parse_options (length o) o out =
  parse_options (length rest) rest
    (mk_opts mss (po_wscale out) (po_sack_perm out) (po_ts_present out) (po_tsval out) (po_tsecr out) (po_sack out)).
Proof.
  intros Hm o. etransitivity; [by apply (parse_opt TCP_OPT_MSS 4 [u8 (Z.shiftr mss 8); u8 mss])|].
  f_equal. destruct out. unfold parse_option. cbn [Z.eqb TCP_OPT_MSS Pos.eqb]. f_equal.
  by apply (get_put_be16 [TCP_OPT_MSS; 4]).
Qed.

Lemma parse_sack_perm rest out :
  let o := [TCP_OPT_NOP; TCP_OPT_NOP; TCP_OPT_SACK_PERM; TCP_OPT_SACK_PERM_LEN] ++ rest in
  parse_options (length o) o out =
  parse_options (length rest) rest
    (mk_opts (po_mss out) (po_wscale out) true (po_ts_present out) (po_tsval out) (po_tsecr out) (po_sack out)).
Proof.
  intros o. do 2 (etransitivity; [apply parse_nop|]).
  etransitivity; [by apply (parse_opt TCP_OPT_SACK_PERM 2 [])|]. by destruct out.
Qed.

Lemma parse_wscale ws rest out :
  0 <= ws <= 14 ->
  let o := [TCP_OPT_NOP; TCP_OPT_WSCALE; TCP_OPT_WSCALE_LEN; ws] ++ rest in
  parse_options (length o) o out =
  parse_options (length rest) rest
    (mk_opts (po_mss out) ws (po_sack_perm out) (po_ts_present out) (po_tsval out) (po_tsecr out) (po_sack out)).
Proof.
  intros Hw o. etransitivity; [apply parse_nop|].
  etransitivity; [by apply (parse_opt TCP_OPT_WSCALE 3 [ws])|]. f_equal. destruct out.
  unfold parse_option. cbn [Z.eqb TCP_OPT_MSS TCP_OPT_WSCALE Pos.eqb]. unfold byte_at. cbn. f_equal.
  destruct (Z.ltb_spec 14 ws); lia.
Qed.

Lemma parse_timestamp tv te rest out :
  urange 32 tv -> urange 32 te ->
  let o := ([TCP_OPT_NOP; TCP_OPT_NOP; TCP_OPT_TIMESTAMP; TCP_OPT_TIMESTAMP_LEN] ++ be_bytes32 tv ++ be_bytes32 te) ++ rest in
  parse_options (length o) o out =
  parse_options (length rest) rest
    (mk_opts (po_mss out) (po_wscale out) (po_sack_perm out) true tv te (po_sack out)).
Proof.
  intros Hv He o. do 2 (etransitivity; [apply parse_nop|]).
  etransitivity; [by apply (parse_opt TCP_OPT_TIMESTAMP 10 (be_bytes32 tv ++ be_bytes32 te))|]. f_equal. destruct out.
  unfold parse_option. cbn [Z.eqb TCP_OPT_MSS TCP_OPT_WSCALE TCP_OPT_SACK_PERM TCP_OPT_TIMESTAMP Pos.eqb]. f_equal.
  - by apply (get_put_be32 [TCP_OPT_TIMESTAMP; 10]).
  - by apply (get_put_be32 ([TCP_OPT_TIMESTAMP; 10] ++ be_bytes32 tv)).
Qed.

(** The blocks as bytes. *)
Definition sack_bytes (blocks : list (Z * Z)) : list Z :=
  concat (map (fun '(l, r) => be_bytes32 l ++ be_bytes32 r) blocks).

Lemma length_sack_bytes blocks : length (sack_bytes blocks) = (8 * length blocks)%nat.
Proof. induction blocks as [|[l r] bs IH]; [done|]. unfold sack_bytes in *. cbn [map concat]. rewrite !length_app, IH. simpl. lia. Qed.

Lemma get_sack_bytes pre blocks rest :
  Forall (fun '(l, r) => urange 32 l /\ urange 32 r) blocks ->
  map (fun b => (get_be32 (pre ++ sack_bytes blocks ++ rest) (length pre + b * 8),
                 get_be32 (pre ++ sack_bytes blocks ++ rest) (length pre + 4 + b * 8))) (seq 0 (length blocks)) = blocks.
Proof.
  revert pre. induction blocks as [|[l r] bs IH]; intros pre Hb; [done|].
  apply Forall_cons in Hb as [[Hl Hr] Hb]. cbn [length seq map]. f_equal.
  - unfold sack_bytes. cbn [map concat]. rewrite <- !app_assoc. rewrite Nat.mul_0_l, !Nat.add_0_r. f_equal.
    + by apply get_put_be32.
    + rewrite app_assoc. replace (length pre + 4)%nat with (length (pre ++ be_bytes32 l)) by (rewrite length_app; done).
      by apply get_put_be32.
  - rewrite <- seq_shift, map_map. specialize (IH (pre ++ be_bytes32 l ++ be_bytes32 r) Hb).
    unfold sack_bytes in *. cbn [map concat]. rewrite <- !app_assoc in *. rewrite !length_app, !length_be32 in IH.
    etransitivity; [|apply IH]. apply map_ext. intros b. f_equal; f_equal; lia.
Qed.

Lemma parse_sack blocks rest out :
  Forall (fun '(l, r) => urange 32 l /\ urange 32 r) blocks -> (length blocks <= TCP_MAX_SACK_BLOCKS)%nat ->
  let o := ([TCP_OPT_NOP; TCP_OPT_NOP; TCP_OPT_SACK; u8 (2 + Z.of_nat (length blocks) * 8)] ++ sack_bytes blocks) ++ rest in
  parse_options (length o) o out =
  parse_options (length rest) rest
    (mk_opts (po_mss out) (po_wscale out) (po_sack_perm out) (po_ts_present out) (po_tsval out) (po_tsecr out) blocks).
Proof.
  intros Hb Hn o. unfold TCP_MAX_SACK_BLOCKS in Hn. do 2 (etransitivity; [apply parse_nop|]).
  etransitivity; [apply (parse_opt TCP_OPT_SACK _ (sack_bytes blocks)); [done..|]|].
  { rewrite u8_small, length_sack_bytes by lia. lia. }
  f_equal. destruct out. unfold parse_option.
  cbn [Z.eqb TCP_OPT_MSS TCP_OPT_WSCALE TCP_OPT_SACK_PERM TCP_OPT_TIMESTAMP TCP_OPT_SACK Pos.eqb]. f_equal.
  rewrite u8_small by lia. replace (2 + Z.of_nat (length blocks) * 8 - 2) with (Z.of_nat (length blocks) * 8) by lia.
  rewrite Z.div_mul, Nat2Z.id, Nat.min_l by (unfold TCP_MAX_SACK_BLOCKS; lia).
  etransitivity; [|by apply (get_sack_bytes [TCP_OPT_SACK; 2 + Z.of_nat (length blocks) * 8] blocks rest)].
  apply map_ext. intros b. f_equal; f_equal; simpl; lia.
Qed.

Lemma sack_build_ok l blocks :
  Forall (fun e => urange 32 (oo_seq e)) l -> Forall (fun '(l, r) => urange 32 l /\ urange 32 r) blocks ->
  (length blocks <= TCP_MAX_SACK_BLOCKS)%nat ->
  let b := sack_build l blocks in
  Forall (fun '(l, r) => urange 32 l /\ urange 32 r) b /\ (length b <= TCP_MAX_SACK_BLOCKS)%nat /\
  (l <> [] \/ blocks <> [] -> b <> []).
Proof.
  revert blocks. induction l as [|e l IH]; intros blocks Hl Hb Hn; cbn [sack_build].
  - split_and!; try done. by intros [|].
  - apply Forall_cons in Hl as [He Hl]. case_if.
    { apply Nat.leb_le in E. unfold TCP_MAX_SACK_BLOCKS in *. split_and!; try done. destruct blocks; simpl in *; [lia|done]. }
    apply Nat.leb_gt in E.
    assert (Hr : urange 32 (u32 (oo_seq e + Z.of_nat (length (oo_data e))))) by apply u32_range.
    assert (Happ : Forall (fun '(l, r) => urange 32 l /\ urange 32 r)
              (blocks ++ [(oo_seq e, u32 (oo_seq e + Z.of_nat (length (oo_data e))))]))
      by (apply Forall_app; split; [done|by apply Forall_singleton]).
    match goal with |- context [sack_build l ?x] => set (bs := x) end.
    assert (Forall (fun '(l, r) => urange 32 l /\ urange 32 r) bs /\ (length bs <= TCP_MAX_SACK_BLOCKS)%nat /\ bs <> [])
      as (H1 & H2 & H3).
    { unfold bs. destruct (last blocks) as [[bl br]|] eqn:Hlast.
      - apply last_Some in Hlast as [pre ->]. rewrite removelast_last. apply Forall_app in Hb as [Hb1 Hb2].
        rewrite length_app in E, Hn. cbn [length] in E, Hn. apply Forall_singleton in Hb2 as [? ?].
        case_if; split_and!; try done; try (rewrite !length_app; cbn [length]; lia).
        + apply Forall_app; split; [done|by apply Forall_singleton].
        + by destruct pre.
        + by destruct pre.
      - apply last_None in Hlast as ->. split_and!; done. }
    destruct (IH bs Hl H1 H2) as (? & ? & ?). split_and!; auto.
Qed.

(** Ranges of the fields the options carry. *)
Record opts_ok (c : tcp_conn) : Prop := {
  ok_rcv_wscale : 0 <= rcv_wscale c <= 14;
  ok_ts_recent : urange 32 (ts_recent c);
  ok_ooo_seq : Forall (fun e => urange 32 (oo_seq e)) (ooo c);
}.

(** The options a segment of connection [c] announces. *)
Definition sent_opts {N} (s : tcp_io N) (c : tcp_conn) (flags mss : Z) : tcp_parsed_opts :=
  let syn := has flags TCP_SYN in
  let offer := negb (has flags TCP_ACK) in
  let ts := syn || ts_enabled c in
  let blocks := sack_build (ooo c) [] in
  mk_opts (if syn then mss else 0)
    (if syn && (offer || ws_enabled c) then if negb (rcv_wscale c =? 0) then rcv_wscale c else 7 else -1)
    (syn && (offer || sack_ok c))
    ts (if ts then snd (tcp_ts_now_for s c) else 0) (if ts_enabled c then ts_recent c else 0)
    (if negb syn && sack_ok c
        && ((if ts_enabled c then 12 else 0) + 4 + Z.of_nat (length blocks) * 8 <=? TCP_MAX_OPTIONS)
     then blocks else []).

Lemma ts_now_range {N} (s : tcp_io N) c : urange 32 (snd (tcp_ts_now_for s c)).
Proof.
  unfold tcp_ts_now_for. destruct (if negb (ts_offset c =? 0) then _ else _) as [s' off]. apply u32_range.
Qed.

Lemma pad_ok b : (length (pad_options b) mod 4 = 0)%nat /\ (length b <= length (pad_options b) < length b + 4)%nat.
Proof.
  unfold pad_options. rewrite length_app, length_replicate.
  pose proof (Nat.Div0.div_mod (length b) 4). pose proof (Nat.mod_upper_bound (length b) 4 ltac:(lia)).
  set (q := (length b / 4)%nat) in *. set (r := (length b mod 4)%nat) in *.
  assert (Hp : exists p, (r + (4 - r) mod 4 = 4 * p)%nat /\ ((4 - r) mod 4 < 4)%nat).
  { assert (r = 0 \/ r = 1 \/ r = 2 \/ r = 3)%nat as [->|[->|[->| ->]]] by lia; [exists 0%nat|exists 1%nat..]; cbn; lia. }
  destruct Hp as (p & Hp1 & Hp2). split; [|lia].
  replace (length b + (4 - r) mod 4)%nat with ((q + p) * 4)%nat by lia. apply Nat.Div0.mod_mul.
Qed.

Lemma pad_aligned b m out :
  length b = (m * 4)%nat -> Z.of_nat (m * 4) <= TCP_MAX_OPTIONS -> parse_options (length b) b no_opts = out ->
  (length (pad_options b) mod 4 = 0)%nat /\ Z.of_nat (length (pad_options b)) <= TCP_MAX_OPTIONS /\
  parse_options (length (pad_options b)) (pad_options b) no_opts = out.
Proof.
  intros Hm Hle Hp. assert (pad_options b = b) as ->.
  { unfold pad_options. rewrite Hm, Nat.Div0.mod_mul. cbn. apply app_nil_r. }
  split_and!; [by rewrite Hm, Nat.Div0.mod_mul|lia|done].
Qed.

Definition ts_bytes (tv te : Z) : list Z :=
  [TCP_OPT_NOP; TCP_OPT_NOP; TCP_OPT_TIMESTAMP; TCP_OPT_TIMESTAMP_LEN] ++ be_bytes32 tv ++ be_bytes32 te.

(** The options of a segment without SYN. *)
Lemma plain_options_ok (ts inc : bool) tv te blocks :
  urange 32 tv -> urange 32 te -> Forall (fun '(l, r) => urange 32 l /\ urange 32 r) blocks ->
  (length blocks <= TCP_MAX_SACK_BLOCKS)%nat ->
  (if ts then 12 else 0) + (if inc then 4 + Z.of_nat (length blocks) * 8 else 0) <= TCP_MAX_OPTIONS ->
  let b := pad_options ((if ts then ts_bytes tv te else [])
      ++ (if inc then [TCP_OPT_NOP; TCP_OPT_NOP; TCP_OPT_SACK; u8 (2 + Z.of_nat (length blocks) * 8)] ++ sack_bytes blocks
          else [])) in
  (length b mod 4 = 0)%nat /\ Z.of_nat (length b) <= TCP_MAX_OPTIONS /\
  parse_options (length b) b no_opts =
    mk_opts 0 (-1) false ts (if ts then tv else 0) (if ts then te else 0) (if inc then blocks else []).
Proof.
  intros Hv He Hb Hn Hle. apply (pad_aligned _ ((if ts then 3 else 0) + (if inc then 1 + 2 * length blocks else 0))).
  - rewrite length_app. destruct ts, inc; rewrite ?length_app, ?length_sack_bytes; cbn [length ts_bytes be_bytes32 app]; lia.
  - destruct ts, inc; lia.
  - rewrite <- (app_nil_r (if inc then _ else _)).
    assert (Hsack : forall out, parse_options (length ((if inc then [TCP_OPT_NOP; TCP_OPT_NOP; TCP_OPT_SACK;
        u8 (2 + Z.of_nat (length blocks) * 8)] ++ sack_bytes blocks else []) ++ []))
        ((if inc then [TCP_OPT_NOP; TCP_OPT_NOP; TCP_OPT_SACK;
        u8 (2 + Z.of_nat (length blocks) * 8)] ++ sack_bytes blocks else []) ++ []) out =
      mk_opts (po_mss out) (po_wscale out) (po_sack_perm out) (po_ts_present out) (po_tsval out) (po_tsecr out)
        (if inc then blocks else po_sack out)).
    { intros out. destruct inc; [|by destruct out]. by rewrite (parse_sack blocks [] out Hb Hn). }
    destruct ts; [|apply Hsack]. etransitivity; [by apply (parse_timestamp tv te)|apply Hsack].
Qed.

Section Build.
Context {N : Type} `{IpLayer N}.

(** The options of a segment fit in the header and are read back as announced. *)
Lemma build_options_ok (s : tcp_io N) c flags mss :
  opts_ok c -> urange 16 mss ->
  let b := snd (tcp_build_options s c flags mss) in
  (length b mod 4 = 0)%nat /\ Z.of_nat (length b) <= TCP_MAX_OPTIONS /\
  parse_options (length b) b no_opts = sent_opts s c flags mss.
Proof.
  intros [Hws Hts Hooo] Hmss. unfold tcp_build_options, sent_opts.
  pose proof (ts_now_range s c) as Hnow. destruct (tcp_ts_now_for s c) as [s' tv]. cbn [snd] in Hnow |- *.
  destruct (sack_build_ok (ooo c) [] Hooo) as (Hb1 & Hb2 & Hb3); [done|unfold TCP_MAX_SACK_BLOCKS; cbn; lia|].
  assert (Hw : 0 <= (if negb (rcv_wscale c =? 0) then rcv_wscale c else 7) <= 14) by (case_if; lia).
  set (ws := if negb (rcv_wscale c =? 0) then rcv_wscale c else 7) in *. clearbody ws.
  assert (Hb0 : ooo c = [] -> sack_build (ooo c) [] = []) by (by intros ->).
  set (blocks := sack_build (ooo c) []) in *. clearbody blocks. fold (sack_bytes blocks).
  destruct (has flags TCP_SYN); cbn [andb orb negb].
  - (* SYN: MSS, then what is offered, then the time stamp *)
    destruct (has flags TCP_ACK), (sack_ok c), (ws_enabled c), (ts_enabled c); cbn [andb orb negb snd app];
      match goal with |- context [pad_options ?b] => destruct (pad_ok b) as [H1 H2]; remember (pad_options b) as P eqn:HP end;
      (split_and!; [done|unfold TCP_MAX_OPTIONS; cbn in H2; lia|]); subst P; unfold pad_options;
      match goal with |- context [replicate ?n TCP_OPT_NOP] => generalize n; intros n0 end; clear H1 H2.
    all: etransitivity; [apply (parse_mss mss); done|].
    all: try (etransitivity; [apply parse_sack_perm|]).
    all: try (etransitivity; [apply (parse_wscale ws); done|]).
    all: etransitivity; [apply parse_timestamp; done|].
    all: apply parse_nops.
  - (* otherwise the time stamp and the blocks *)
    set (inc := sack_ok c && negb (bool_decide (ooo c = [])) && ((0 <? Z.of_nat (length blocks)) &&
                  ((if ts_enabled c then 12 else 0) + 4 + Z.of_nat (length blocks) * 8 <=? TCP_MAX_OPTIONS))).
    assert (Hle : (if ts_enabled c then 12 else 0) + (if inc then 4 + Z.of_nat (length blocks) * 8 else 0) <= TCP_MAX_OPTIONS).
    { destruct inc eqn:Ei; [unfold inc in Ei; zify_bool; lia|]. unfold TCP_MAX_OPTIONS. case_if; lia. }
    assert (Hinc : (if inc then blocks else []) =
      if sack_ok c && ((if ts_enabled c then 12 else 0) + 4 + Z.of_nat (length blocks) * 8 <=? TCP_MAX_OPTIONS) then blocks else []).
    { unfold inc. destruct (sack_ok c); [|done]. cbn [andb]. case_bool_decide as Ho; cbn [negb andb].
      - rewrite (Hb0 Ho). by case_if.
      - destruct blocks; [by case_if|done]. }
    rewrite <- Hinc.
    destruct (plain_options_ok (ts_enabled c) inc tv (ts_recent c) blocks) as (P1 & P2 & P3); try done.
    assert (Hadd : forall n x, n + 2 + x + 2 = n + 4 + x) by lia.
    unfold inc in *. clear inc Hinc Hle.
    destruct (ts_enabled c); cbn [snd app]; rewrite Hadd;
      (destruct (sack_ok c && negb (bool_decide (ooo c = []))); cbn [andb] in *); exact (conj P1 (conj P2 P3)).
Qed.

(** The lengths, for any connection. *)
Lemma build_options_len (s : tcp_io N) c flags mss :
  let b := snd (tcp_build_options s c flags mss) in
  (length b mod 4 = 0)%nat /\ Z.of_nat (length b) <= TCP_MAX_OPTIONS.
Proof.
  assert (Hpad : forall b m, length b = (m * 4)%nat -> (m <= 10)%nat ->
            (length (pad_options b) mod 4 = 0)%nat /\ Z.of_nat (length (pad_options b)) <= TCP_MAX_OPTIONS).
  { intros b m Hm Hle. destruct (pad_aligned b m (parse_options (length b) b no_opts) Hm) as (H1 & H2 & _);
      [unfold TCP_MAX_OPTIONS; lia|done..]. }
  unfold tcp_build_options. destruct (tcp_ts_now_for s c) as [s' tv]. fold (sack_bytes (sack_build (ooo c) [])).
  destruct (has flags TCP_SYN), (has flags TCP_ACK), (sack_ok c), (ws_enabled c), (ts_enabled c);
    cbn [andb orb negb snd app].
  all: repeat match goal with |- context [if negb (bool_decide ?P) then _ else _] => destruct (bool_decide P); cbn [negb] end.
  all: try (match goal with |- context [if ?b then _ else _] => destruct b eqn:E end; zify_bool).
  all: first [apply (Hpad _ 0%nat); [reflexivity|lia] | apply (Hpad _ 3%nat); [reflexivity|lia]
             | apply (Hpad _ 4%nat); [reflexivity|lia] | apply (Hpad _ 5%nat); [reflexivity|lia]
             | apply (Hpad _ 6%nat); [reflexivity|lia]
             | apply (Hpad _ (1 + 2 * length (sack_build (ooo c) []))%nat);
               [cbn [length app be_bytes32]; rewrite length_sack_bytes; lia|unfold TCP_MAX_OPTIONS in *; cbn in *; lia]
             | apply (Hpad _ (4 + 2 * length (sack_build (ooo c) []))%nat);
               [cbn [length app be_bytes32]; rewrite length_sack_bytes; lia|unfold TCP_MAX_OPTIONS in *; cbn in *; lia] ].
Qed.

Lemma build_options_bytes (s : tcp_io N) c flags mss :
  0 <= rcv_wscale c <= 14 -> bytes (snd (tcp_build_options s c flags mss)).
Proof.
  intros Hws. unfold tcp_build_options.
  assert (H8 : forall z, byte (u8 z)) by (intros; apply u8_range).
  assert (Hk : forall z, 0 <= z <= 14 -> byte z) by (intros; unfold byte; lia).
  assert (H32 : forall v, bytes (be_bytes32 v)) by (intros; repeat constructor; apply u8_range).
  assert (Hsk : forall bs, bytes (concat (map (fun '(l, r) => be_bytes32 l ++ be_bytes32 r) bs))).
  { induction bs as [|[l r] bs IH]; [constructor|]. cbn [map concat]. apply bytes_app. split; [|done]. by apply bytes_app. }
  assert (Hpad : forall b, bytes b -> bytes (pad_options b)).
  { intros b Hb. apply bytes_app. split; [done|]. apply Forall_replicate, Hk. unfold TCP_OPT_NOP. lia. }
  assert (Hpair : forall (q : tcp_io N * list Z) (f : list Z -> list Z), (bytes (snd q)) -> (forall b, bytes b -> bytes (f b)) ->
            bytes (snd (let '(s, b) := q in (s, f b)))) by (intros [? ?] f H1 H2; apply H2, H1).
  apply (Hpair _ (fun b => pad_options (b ++ _))).
  - assert (Hcons : forall x l, byte x -> bytes l -> bytes (x :: l)) by (by constructor).
    assert (Hnil : bytes []) by constructor.
    assert (Hw : byte (if negb (rcv_wscale c =? 0) then rcv_wscale c else 7)) by (case_if; apply Hk; lia).
    destruct (tcp_ts_now_for s c) as [s' tv].
    assert (Hb : forall b : list Z, bytes b -> bytes (snd (if has flags TCP_SYN || ts_enabled c then
       (s', b ++ [TCP_OPT_NOP; TCP_OPT_NOP; TCP_OPT_TIMESTAMP; TCP_OPT_TIMESTAMP_LEN]
            ++ be_bytes32 tv ++ be_bytes32 (if ts_enabled c then ts_recent c else 0)) else (s, b)))).
    { intros b Hb. case_if; [|done]. apply bytes_app; split; [done|]. repeat (apply Hcons; [by apply Hk|]). by apply bytes_app. }
    apply Hb. repeat (apply bytes_app; split); case_if; auto;
      repeat (apply Hcons; [first [done|apply Hk; done|apply H8]|]); done.
  - intros b Hb. apply Hpad, bytes_app. split; [done|]. repeat case_if; try constructor.
    all: try (apply Hk; done). repeat (constructor; [first [apply H8|apply Hk; done]|]). apply Hsk.
Qed.

End Build.

(** ** The checksum *)

(** The checksum computed over a zero field completes the data to sum 0. *)
Lemma checksum_completes pre post :
  bytes pre -> bytes post -> Nat.Even (length pre) -> 0 < word_sum pre ->
  let len := Z.of_nat (length pre + 2 + length post) in
  len <= 65535 ->
  ipv4_checksum (pre ++ le16 (ipv4_checksum (pre ++ le16 0 ++ post) len) ++ post) len = 0.
Proof.
  intros Hpre Hpost Hev Hpos len Hlen.
  assert (H0 : urange 16 0) by (unfold urange; lia).
  assert (Hb : forall v, bytes (pre ++ le16 v ++ post)).
  { intros. repeat (apply bytes_app; split); auto with likeos. }
  assert (Ht : forall v, take (Z.to_nat len) (pre ++ le16 v ++ post) = pre ++ le16 v ++ post).
  { intros. apply take_ge. rewrite !length_app. cbn [length le16]. lia. }
  assert (Hs : forall v, urange 16 v -> word_sum (pre ++ le16 v ++ post) = word_sum pre + (v + word_sum post)).
  { intros. by rewrite word_sum_app, word_sum_le16. }
  set (ck := ipv4_checksum (pre ++ le16 0 ++ post) len).
  assert (Hck : ck = 65535 - ones_residue (word_sum pre + (0 + word_sum post))).
  { unfold ck. rewrite ipv4_checksum_residue, Ht, Hs; try done. lia. }
  assert (Hr : urange 16 ck) by apply u16_range.
  apply ipv4_checksum_zero; [done|lia|]. rewrite Ht, Hs by done.
  pose proof (word_sum_bounds _ Hpost). unfold ones_residue in Hck. unfold urange in Hr.
  destruct (Z.eqb_spec (word_sum pre + (0 + word_sum post)) 0); [lia|]. split; [lia|].
  rewrite Hck. clear Hck Hb Ht Hs. zlia.
Qed.

(** What the arguments of [tcp_send_segment_ex] have to satisfy. *)
Record seg_out_ok (x : seg_out) : Prop := {
  ok_src_port : urange 16 (so_src_port x);
  ok_dst_port : urange 16 (so_dst_port x);
  ok_seq : urange 32 (so_seq x);
  ok_ack : urange 32 (so_ack x);
  ok_flags : byte (so_flags x);
  ok_window : urange 16 (so_window x);
  ok_options : bytes (so_options x);
  ok_options_len : (length (so_options x) mod 4 = 0)%nat /\ Z.of_nat (length (so_options x)) <= TCP_MAX_OPTIONS;
  ok_data : bytes (so_data x);
  ok_data_len : Z.of_nat (length (so_data x)) <= TCP_MSS;
}.

Lemma padded_aligned o : (length o mod 4 = 0)%nat -> padded_options o = o.
Proof. intros Ho. unfold padded_options. rewrite Ho. cbn. apply app_nil_r. Qed.

(** What [tcp_parse] makes of the message of a well-formed call. *)
Definition seg_read (x : seg_out) : seg_in :=
  mk_seg_in (so_src_port x) (so_dst_port x) (so_seq x) (so_ack x) (so_flags x) (so_window x)
    (parse_options (length (so_options x)) (so_options x) no_opts) 0 (so_data x).

Lemma tcp_parse_packet x ck : seg_out_ok x -> tcp_parse (tcp_packet x ck) = Some (seg_read x).
Proof.
  intros [Hsp Hdp Hsq Hak Hfl Hwin Hopt [Ho1 Ho2] Hdata Hlen]. unfold tcp_packet, tcp_data_offset.
  rewrite padded_aligned by done.
  destruct (tcp_parse_bytes (so_src_port x) (so_dst_port x) (so_seq x) (so_ack x) (so_flags x) (so_window x) ck
      0 (so_options x) (so_data x) Ho1 Ho2) as (g & -> & E1 & E2 & E3 & E4 & E5 & E6 & E7 & E8 & E9).
  f_equal. destruct g as [g1 g2 g3 g4 g5 g6 g7 g8 g9].
  cbn [si_src_port si_dst_port si_seq si_ack si_flags si_window si_opts si_urg_ptr si_payload] in *.
  assert (H0 : urange 16 0) by (unfold urange; lia). unfold seg_read. f_equal; auto.
Qed.

Lemma tcp_len_ok x :
  seg_out_ok x ->
  tcp_len x = sizeof_tcp_header + Z.of_nat (length (so_options x)) + Z.of_nat (length (so_data x)) /\
  forall ck, Z.of_nat (length (tcp_packet x ck)) = tcp_len x.
Proof.
  intros [Hsp Hdp Hsq Hak Hfl Hwin Hopt [Ho1 Ho2] Hdata Hlen].
  assert (Hl : tcp_len x = sizeof_tcp_header + Z.of_nat (length (so_options x)) + Z.of_nat (length (so_data x))).
  { unfold tcp_len. rewrite padded_aligned by done.
    unfold sizeof_tcp_header, TCP_MSS, TCP_MAX_OPTIONS in *. apply u16_small. lia. }
  split; [done|]. intros ck. rewrite Hl. unfold tcp_packet, sizeof_tcp_header.
  rewrite padded_aligned, !length_app, length_tcp_header by done. lia.
Qed.

Lemma bytes_be32 v : bytes (be_bytes32 v).
Proof. repeat constructor; apply u8_range. Qed.

Lemma bytes_be16 v : bytes (be_bytes16 v).
Proof. repeat constructor; apply u8_range. Qed.

#[local] Hint Resolve bytes_be32 bytes_be16 : likeos.

(** The checksum of a packet verifies. *)
Lemma tcp_packet_checksum x :
  seg_out_ok x ->
  let pseudo := tcp_pseudo_header (so_src_ip x) (so_dst_ip x) (tcp_len x) in
  ipv4_checksum (pseudo ++ tcp_packet x (ipv4_checksum (pseudo ++ tcp_packet x 0) (12 + tcp_len x))) (12 + tcp_len x) = 0.
Proof.
  intros Hok pseudo. destruct (tcp_len_ok x Hok) as [Hl Hpl]. destruct Hok as [Hsp Hdp Hsq Hak Hfl Hwin Hopt [Ho1 Ho2] Hdata Hlen].
  set (pre := le16 (net_htons (so_src_port x)) ++ le16 (net_htons (so_dst_port x)) ++ le32 (net_htonl (so_seq x))
    ++ le32 (net_htonl (so_ack x)) ++ [tcp_data_offset (so_options x); so_flags x] ++ le16 (net_htons (so_window x))).
  set (post := le16 (net_htons 0) ++ so_options x ++ so_data x).
  assert (Hsplit : forall ck, pseudo ++ tcp_packet x ck = (pseudo ++ pre) ++ le16 ck ++ post).
  { intros. unfold tcp_packet, tcp_header_bytes, pre, post. rewrite padded_aligned by done. by rewrite <- !app_assoc. }
  assert (Hps : bytes pseudo).
  { unfold pseudo, tcp_pseudo_header. repeat (apply bytes_app; split); auto with likeos. by repeat constructor. }
  assert (Hpre : bytes pre).
  { unfold pre. repeat (apply bytes_app; split); auto with likeos.
    constructor; [apply u8_range|]. by constructor. }
  assert (Hsum : 0 < word_sum (pseudo ++ pre)).
  { assert (Hev : Nat.Even (length (be_bytes32 (so_src_ip x) ++ be_bytes32 (so_dst_ip x)))) by (by exists 4%nat).
    unfold pseudo, tcp_pseudo_header. rewrite <- !app_assoc, (app_assoc (be_bytes32 (so_src_ip x))), word_sum_app by done.
    cbn [app word_sum]. unfold IP_PROTO_TCP.
    pose proof (word_sum_bounds (be_bytes32 (so_src_ip x) ++ be_bytes32 (so_dst_ip x))
      ltac:(apply bytes_app; auto with likeos)).
    pose proof (word_sum_bounds (be_bytes16 (tcp_len x) ++ pre) ltac:(apply bytes_app; auto with likeos)). lia. }
  assert (Hlen12 : 12 + tcp_len x = Z.of_nat (length (pseudo ++ pre) + 2 + length post)).
  { rewrite <- (Hpl 0), <- (Nat2Z.inj_add 12). f_equal. transitivity (length (pseudo ++ tcp_packet x 0)).
    - by rewrite length_app.
    - rewrite Hsplit, !length_app. cbn [length le16]. lia. }
  rewrite !Hsplit, Hlen12. apply checksum_completes.
  - by apply bytes_app.
  - unfold post. repeat (apply bytes_app; split); auto with likeos.
  - by exists 14%nat.
  - done.
  - rewrite <- Hlen12, Hl. unfold sizeof_tcp_header, TCP_MSS, TCP_MAX_OPTIONS in *. lia.
Qed.

Lemma tcp_message_ok x :
  seg_out_ok x ->
  exists m, tcp_message x = Some m /\ tcp_parse m = Some (seg_read x) /\ Z.of_nat (length m) = tcp_len x /\
    ipv4_checksum (tcp_pseudo_header (so_src_ip x) (so_dst_ip x) (tcp_len x) ++ m) (12 + tcp_len x) = 0.
Proof.
  intros Hok. destruct (tcp_len_ok x Hok) as [Hl Hpl].
  pose proof (tcp_packet_checksum x Hok) as Hck. destruct Hok as [Hsp Hdp Hsq Hak Hfl Hwin Hopt [Ho1 Ho2] Hdata Hlen] eqn:Eok.
  unfold tcp_message. rewrite padded_aligned by done.
  assert (Hb : 0 <= tcp_len x <= 1520) by (rewrite Hl; unfold sizeof_tcp_header, TCP_MSS, TCP_MAX_OPTIONS in *; lia).
  rewrite u16_small by lia. rewrite (proj2 (Z.ltb_ge _ _)), (proj2 (Z.ltb_ge _ _)) by (done || (unfold sizeof_tcp_header, TCP_MSS, TCP_MAX_OPTIONS; lia)).
  eexists. split; [reflexivity|]. split; [by apply tcp_parse_packet|]. split; [apply Hpl|done].
Qed.

(** What the receiver sees of a message that was sent. *)
Lemma message_fields x m :
  tcp_message x = Some m -> urange 32 (so_seq x) ->
  exists g, tcp_parse m = Some g /\ si_seq g = so_seq x /\ si_flags g = so_flags x /\ si_payload g = so_data x /\
    (urange 32 (so_ack x) -> si_ack g = so_ack x).
Proof.
  unfold tcp_message. case_if; [done|]. case_if; [done|]. intros [= <-] Hsq. zify_bool.
  assert (Ho : (length (padded_options (so_options x)) mod 4 = 0)%nat).
  { destruct (pad_ok (so_options x)) as [H _]. unfold pad_options, padded_options in *. by rewrite length_app, length_replicate in *. }
  generalize (ipv4_checksum (tcp_pseudo_header (so_src_ip x) (so_dst_ip x) (tcp_len x) ++ tcp_packet x 0) (u16 (12 + tcp_len x))).
  intros ck. unfold tcp_packet, tcp_data_offset.
  edestruct tcp_parse_bytes as (g & -> & E1 & E2 & E3 & E4 & E5 & E6 & E7 & E8 & E9); [exact Ho|done|].
  exists g. split_and!; auto.
Qed.

Lemma oob_fields {N} `{IpLayer N} (s : tcp_io N) c b :
  let m := oob_message c (snd (tcp_build_options s c (Z.lor (Z.lor TCP_ACK TCP_URG) TCP_PSH) 0)) b in
  urange 32 (snd_nxt c) ->
  exists g, tcp_parse m = Some g /\ si_seq g = snd_nxt c /\ si_flags g = Z.lor (Z.lor TCP_ACK TCP_URG) TCP_PSH /\
    si_payload g = [b] /\ (urange 32 (rcv_nxt c) -> si_ack g = rcv_nxt c).
Proof.
  intros m Hsq. destruct (build_options_len s c (Z.lor (Z.lor TCP_ACK TCP_URG) TCP_PSH) 0) as [H1 H2].
  unfold m, oob_message. set (o := snd _) in *.
  match goal with |- context [oob_packet c o b ?k] => generalize k end. intros ck. unfold oob_packet.
  edestruct tcp_parse_bytes as (g & -> & E1 & E2 & E3 & E4 & E5 & E6 & E7 & E8 & E9); [exact H1|exact H2|].
  exists g. split_and!; auto.
Qed.

(** ** Segments of a connection *)

Record conn_wire_ok (c : tcp_conn) : Prop := {
  ok_conn_opts : opts_ok c;
  ok_local_port : urange 16 (local_port c);
  ok_remote_port : urange 16 (remote_port c);
}.

