(* ===== verification/Tcp.v ===== *)
(** * The TCP connection table ([kernel/net/tcp.c])

    The operations on [tcp_connections]: allocation and release of a slot, the
    lookups, opening, accepting and closing, the receive path and the timer.  A
    sequence of critical sections of one function runs here without interruption;
    the pieces of the deferred release ([tcp_defer_free], [reap_pop],
    [tcp_free_conn]) are definitions of their own.  The results of [slab_alloc] and
    of [spin_trylock] are arguments. *)

From Stdlib Require Import ZArith Lia Bool.
From stdpp Require Import base list.
From S2P Require Import Prelude Wire TcpConn TcpWire TcpRx.

Open Scope Z_scope.
Open Scope tcp_scope.

Record tcp_host (N : Type) := mk_host {
  conns : list tcp_conn;             (* tcp_connections *)
  pending_free : list nat;           (* tcp_pending_free *)
  io : tcp_io N;
}.
Arguments mk_host {N}.
Arguments conns {N}.
Arguments pending_free {N}.
Arguments io {N}.

(** The two buffers of a new connection: the memory of the first, if both were
    allocated. *)
Definition buffers : Type := option (list Z).

(** The memory of a slot before [tcp_init]. *)
Definition zero_conn : tcp_conn :=
  mk_tcp_conn CLOSED 0 0 0 0 0 0 0 0 0 0 0 None 0 0 0 0 0 0 0 [] 0 (repeat None 16) 0 0 0 None None false 0 false false
    false false 0 0 0 0 0 0 0 0 false false 0 0 0 0 0 0 false 0 0 0 false 0 0 false [] [] false 0 0 false 0 0 false 0 0 0
    0 false NoOwner.

Section Host.
Context {N : Type} `{IpLayer N}.
Implicit Types (h : tcp_host N) (c : tcp_conn) (i : nat).

Definition set_conns (l : list tcp_conn) h : tcp_host N := mk_host l (pending_free h) (io h).
Definition set_pending (l : list nat) h : tcp_host N := mk_host (conns h) l (io h).
Definition set_io (s : tcp_io N) h : tcp_host N := mk_host (conns h) (pending_free h) s.
Definition upd i (f : tcp_conn -> tcp_conn) h : tcp_host N := set_conns (alter f i (conns h)) h.

(** [tcp_init]; [isn] and [cookie] are the answers of [random_get_bytes]. *)
Definition tcp_init (isn cookie : list Z) h : tcp_host N :=
  let s := io h in
  mk_host (map (fun c => c |> set_active false |> set_state CLOSED) (conns h)) (pending_free h)
    (mk_tcp_io (io_net s) (trace s) (timer_ticks s) (precise_us s) (randoms s) isn cookie (tcp_ts_offset s)
       (tcp_ts_offset_set s) (ca_counter s)).

(** ** Release of a slot *)

Definition tcp_defer_free i h : tcp_host N :=
  if bool_decide (i ∈ pending_free h) then h
  else if (length (pending_free h) <? TCP_MAX_CONNECTIONS)%nat then set_pending (pending_free h ++ [i]) h
  else h.

Definition free_conn c : tcp_conn :=
  if negb (active c) then c
  else c |> set_rx_buf None |> set_parent None |> set_state CLOSED |> set_local_ip 0 |> set_local_port 0
         |> set_remote_ip 0 |> set_remote_port 0 |> set_active false.

Definition tcp_free_conn i h : tcp_host N := upd i free_conn h.

(** One [tcp_pending_free[--tcp_pending_free_count]]. *)
Definition reap_pop h : tcp_host N * option nat :=
  match last (pending_free h) with
  | None => (h, None)
  | Some i => (set_pending (removelast (pending_free h)) h, Some i)
  end.

Fixpoint reap_loop (fuel : nat) h : tcp_host N :=
  match fuel with
  | O => h
  | S fuel' =>
      match reap_pop h with
      | (h, None) => h
      | (h, Some i) => reap_loop fuel' (tcp_free_conn i h)
      end
  end.

Definition tcp_reap_pending h : tcp_host N := reap_loop (S (length (pending_free h))) h.

Definition tcp_reap_time_wait_slots h : tcp_host N :=
  set_conns (map (fun c => if active c && bool_decide (state c = TIME_WAIT) then free_conn c else c) (conns h)) h.

Definition tcp_detach_listener_children (listener : nat) h : tcp_host N :=
  set_conns (map (fun c => if active c && bool_decide (parent c = Some listener) then c |> set_parent None else c)
               (conns h)) h.

(** ** Allocation of a slot *)

(** The assignments of [tcp_alloc_conn] to the slot. *)
Definition init_conn (ticks : Z) (rx : list Z) c : tcp_conn :=
  c |> set_state CLOSED |> set_error 0 |> set_rx_ready false |> set_tx_ready true |> set_accept_ready false
    |> set_connect_done false |> set_accept_head 0 |> set_accept_tail 0 |> set_backlog 0 |> set_parent None
    |> set_retransmit_count 0 |> set_retransmit_tick 0 |> set_time_wait_tick 0 |> set_peer_mss TCP_MSS
    |> set_max_seg_size TCP_MSS |> set_inflight [] |> set_detached false |> set_owner_socket SelfOwner
    |> set_srtt_us 0 |> set_rttvar_us 0 |> set_rto_us TCP_RTO_INITIAL_US |> set_rto_backoff 0
    |> set_cwnd 10 |> set_ssthresh 0xFFFFFFFF |> set_dup_acks 0 |> set_total_retrans 0
    |> set_nodelay false |> set_keepalive false |> set_keepidle_ticks (7200 * 100) |> set_keepintvl_ticks (75 * 100)
    |> set_keepcnt 9 |> set_keep_probes_sent 0 |> set_keep_next_tick 0 |> set_last_rx_tick ticks
    |> set_ts_enabled false |> set_ts_recent 0 |> set_ts_recent_age 0 |> set_ws_enabled false |> set_snd_wscale 0
    |> set_rcv_wscale 7 |> set_sack_ok false |> set_sack_blocks [] |> set_ooo [] |> set_delayed_ack_pending false
    |> set_segs_since_ack 0 |> set_delayed_ack_deadline 0 |> set_cork false |> set_cork_deadline 0
    |> set_fin_wait_2_deadline 0 |> set_urgent_valid false |> set_urgent_byte 0 |> set_snd_up 0 |> set_rcv_up 0
    |> set_snd_urg_pending 0 |> set_rx_buf (Some rx) |> set_rx_buf_size TCP_RX_BUF_SIZE
    |> set_rx_head 0 |> set_rx_tail 0.

(** The slot stays inactive; the callers write the rest and publish it. *)
Definition tcp_alloc_conn (rx : list Z) h : option (nat * tcp_host N) :=
  i ← find_idx (fun c => negb (active c)) (conns h);
  Some (i, upd i (init_conn (timer_ticks (io h)) rx) h).

Definition tcp_publish_conn c : tcp_conn := c |> set_active true.

(** [tcp_alloc_conn], tried again after the slots in TIME_WAIT are freed. *)
Definition alloc_or_reap (rx : list Z) h : tcp_host N * option nat :=
  match tcp_alloc_conn rx h with
  | Some (i, h) => (h, Some i)
  | None =>
      let h := tcp_reap_time_wait_slots h in
      match tcp_alloc_conn rx h with
      | Some (i, h) => (h, Some i)
      | None => (h, None)
      end
  end.

(** ** Lookups *)

Definition tuple_match (local local_p remote remote_p : Z) c : bool :=
  active c && negb (bool_decide (state c = LISTEN)) && (local_port c =? local_p) && (remote_port c =? remote_p)
  && ((local_ip c =? local) || (local_ip c =? 0)) && (remote_ip c =? remote).

Definition tcp_find_conn h (local local_p remote remote_p : Z) : option nat :=
  find_idx (tuple_match local local_p remote remote_p) (conns h).

Definition listens (local_p : Z) c : bool :=
  active c && bool_decide (state c = LISTEN) && (local_port c =? local_p).

Fixpoint find_listener (l : list tcp_conn) (i : nat) (local local_p : Z) (wildcard : option nat) : option nat :=
  match l with
  | [] => wildcard
  | c :: l' =>
      if listens local_p c then
        if local_ip c =? local then Some i
        else
          find_listener l' (S i) local local_p
            (match wildcard with
             | None => if local_ip c =? 0 then Some i else None
             | Some _ => wildcard
             end)
      else find_listener l' (S i) local local_p wildcard
  end.

Definition tcp_find_listener h (local local_p : Z) : option nat := find_listener (conns h) 0 local local_p None.

(** ** Opening *)

(** The assignments of [tcp_connect] to the new slot. *)
Definition active_open (s : tcp_io N) (dev : devptr) (local dst src_port dst_port : Z) c : tcp_conn :=
  let isn := tcp_generate_isn s local dst src_port dst_port in
  c |> set_conn_dev dev |> set_local_ip local |> set_remote_ip dst |> set_local_port src_port
    |> set_remote_port dst_port |> set_ts_offset (tcp_compute_ts_offset s local dst src_port dst_port)
    |> set_iss isn |> set_snd_una isn |> set_snd_nxt (u32 (isn + 1)) |> set_snd_wnd TCP_WINDOW_SIZE
    |> set_rcv_wnd TCP_WINDOW_SIZE |> set_peer_mss TCP_MSS |> set_max_seg_size (tcp_local_mss (io_net s) dev)
    |> set_state SYN_SENT |> set_retransmit_tick (u64 (timer_ticks s + TCP_SYN_RETRANSMIT_TICKS))
    |> set_retransmit_count 0 |> tcp_publish_conn.

(** The slots in TIME_WAIT with the same addresses and ports. *)
Definition recycle_tuple (local dst src_port dst_port : Z) h : tcp_host N :=
  set_conns (map (fun c =>
    if active c && bool_decide (state c = TIME_WAIT) && (local_port c =? src_port) && (remote_port c =? dst_port)
       && (local_ip c =? local) && (remote_ip c =? dst)
    then free_conn c else c) (conns h)) h.

(** The connection, or NULL. *)
Definition tcp_connect (dev : devptr) (local dst src_port dst_port : Z) (mem : buffers) h
    : tcp_host N * option nat :=
  let h := tcp_reap_pending h in
  match mem with
  | None => (h, None)
  | Some rx =>
      let h := recycle_tuple local dst src_port dst_port h in
      match alloc_or_reap rx h with
      | (h, None) => (h, None)
      | (h, Some i) =>
          let h := upd i (active_open (io h) dev local dst src_port dst_port) h in
          match conns h !! i with
          | Some c => (set_io (tcp_send_syn_packet (io h) c) h, Some i)
          | None => (h, Some i)
          end
      end
  end.

Definition listen_open (s : tcp_io N) (dev : devptr) (local local_p backlog : Z) c : tcp_conn :=
  c |> set_conn_dev dev |> set_local_ip local |> set_local_port local_p |> set_remote_ip 0 |> set_remote_port 0
    |> set_state LISTEN |> set_backlog (if 16 <? backlog then 16 else backlog)
    |> set_max_seg_size (tcp_local_mss (io_net s) dev) |> tcp_publish_conn.

Definition tcp_listen (dev : devptr) (local local_p backlog : Z) (mem : buffers) h : tcp_host N * option nat :=
  let h := tcp_reap_pending h in
  match mem with
  | None => (h, None)
  | Some rx =>
      match alloc_or_reap rx h with
      | (h, None) => (h, None)
      | (h, Some i) => (upd i (listen_open (io h) dev local local_p backlog) h, Some i)
      end
  end.

(** ** Accepting *)

Definition accept_orphan (l : nat) lc c : bool :=
  active c && (bool_decide (state c = ESTABLISHED) || bool_decide (state c = CLOSE_WAIT))
  && (bool_decide (parent c = Some l)
      || (bool_decide (parent c = None) && (local_port c =? local_port lc) && negb (remote_port c =? 0)
          && ((local_ip lc =? 0) || (local_ip c =? local_ip lc)))).

Definition tcp_accept (l : nat) h : tcp_host N * option nat :=
  match conns h !! l with
  | None => (h, None)
  | Some lc =>
      if negb (bool_decide (state lc = LISTEN)) then (h, None)
      else if negb (accept_head lc =? accept_tail lc) then
        let conn := default None (accept_queue lc !! Z.to_nat (accept_head lc)) in
        let pop c :=
          let c := c |> set_accept_head ((accept_head c + 1) mod 16) in
          if accept_head c =? accept_tail c then c |> set_accept_ready false else c in
        let h := upd l pop h in
        match conn with
        | Some i => (upd i (set_parent None) h, Some i)
        | None => (h, None)
        end
      else
        match find_idx (accept_orphan l lc) (conns h) with
        | Some i => (upd i (set_parent None) h, Some i)
        | None => (h, None)
        end
  end.

(** Puts connection [i] into the accept queue of [p], or drops the stale link. *)
Definition enqueue_child (p i : nat) h : tcp_host N :=
  match conns h !! p, conns h !! i with
  | Some pc, Some c =>
      if active pc && bool_decide (state pc = LISTEN) && (local_port pc =? local_port c) then
        let next := (accept_tail pc + 1) mod 16 in
        if negb (next =? accept_head pc) then
          upd p (fun pc => pc |> set_accept_queue (<[Z.to_nat (accept_tail pc) := Some i]> (accept_queue pc))
                              |> set_accept_tail next |> set_accept_ready true) h
        else h
      else upd i (set_parent None) h
  | _, _ => h
  end.

(** ** Closing *)

(** FIN, and its copy in the queue if it could be sent. *)
Definition send_fin (s : tcp_io N) (st : tcp_st) c : tcp_io N * tcp_conn :=
  let flags := Z.lor TCP_FIN TCP_ACK in
  let '(s, rc) := tcp_send_segment s c (snd_nxt c) (rcv_nxt c) flags (u16 (rcv_wnd c)) [] in
  let c := if rc =? 0 then
             let c := tcp_queue_inflight s (snd_nxt c) flags [] c in
             c |> set_snd_nxt (u32 (snd_nxt c + 1))
           else c in
  (s, c |> set_state st).

(** The cases of [tcp_close] that concern the connection alone. *)
Definition close_conn (s : tcp_io N) c : tcp_io N * tcp_conn :=
  match state c with
  | ESTABLISHED | SYN_RECEIVED => send_fin s FIN_WAIT_1 c
  | CLOSE_WAIT => send_fin s LAST_ACK c
  | LISTEN | SYN_SENT => (s, free_conn (c |> set_state CLOSED))
  | CLOSED => (s, free_conn c)
  | _ => (s, c |> set_detached true)
  end.

Definition tcp_close i h : tcp_host N * Z :=
  match conns h !! i with
  | None => (h, -1)
  | Some c =>
      let h := if bool_decide (state c = LISTEN) then tcp_detach_listener_children i h else h in
      let '(s, c) := close_conn (io h) (default c (conns h !! i)) in
      (tcp_reap_pending (set_io s (upd i (fun _ => c) h)), 0)
  end.

Definition abort_conn (s : tcp_io N) c : tcp_io N * tcp_conn :=
  let s :=
    match conn_dev c with
    | Some _ =>
        if negb (bool_decide (state c = CLOSED))
        then tcp_send_rst s (conn_dev c) (local_ip c) (remote_ip c) (local_port c) (remote_port c)
               (snd_nxt c) (rcv_nxt c)
        else s
    | None => s
    end in
  (s, free_conn (c |> set_state CLOSED)).

Definition tcp_abort i h : tcp_host N :=
  match conns h !! i with
  | None => h
  | Some c => let '(s, c) := abort_conn (io h) c in set_io s (upd i (fun _ => c) h)
  end.

(** ** Receiving *)

(** The assignments of [tcp_rx] to the slot of a new connection of a listener. *)
Definition passive_open (s : tcp_io N) (dev : devptr) (local src_ip : Z) (g : seg_in) (listener : nat) c : tcp_conn :=
  let isn := tcp_generate_isn s local src_ip (si_dst_port g) (si_src_port g) in
  c |> set_conn_dev dev |> set_local_ip local |> set_remote_ip src_ip |> set_local_port (si_dst_port g)
    |> set_remote_port (si_src_port g)
    |> set_ts_offset (tcp_compute_ts_offset s local src_ip (si_dst_port g) (si_src_port g))
    |> set_iss isn |> set_irs (si_seq g) |> set_snd_una isn |> set_snd_nxt (u32 (isn + 1))
    |> set_rcv_nxt (u32 (si_seq g + 1)) |> set_snd_wnd (si_window g) |> set_rcv_wnd TCP_WINDOW_SIZE
    |> set_peer_mss (or_mss (po_mss (si_opts g))) |> set_max_seg_size (or_mss (po_mss (si_opts g)))
    |> set_state SYN_RECEIVED |> set_parent (Some listener) |> set_retransmit_count 0
    |> set_retransmit_tick (u64 (timer_ticks s + TCP_SYN_RETRANSMIT_TICKS))
    |> adopt_options s g |> tcp_publish_conn.

(** The same for an acknowledgement that carries a valid cookie. *)
Definition cookie_open (dev : devptr) (local src_ip : Z) (g : seg_in) (cookie mss : Z) (listener : nat) c : tcp_conn :=
  c |> set_conn_dev dev |> set_local_ip local |> set_remote_ip src_ip |> set_local_port (si_dst_port g)
    |> set_remote_port (si_src_port g) |> set_iss cookie |> set_irs (u32 (si_seq g - 1))
    |> set_snd_una (u32 (cookie + 1)) |> set_snd_nxt (u32 (cookie + 1)) |> set_rcv_nxt (si_seq g)
    |> set_snd_wnd (si_window g) |> set_rcv_wnd TCP_WINDOW_SIZE |> set_peer_mss (or_mss mss)
    |> set_max_seg_size (or_mss mss) |> set_state ESTABLISHED |> set_parent (Some listener) |> tcp_publish_conn.

(** The SYN+ACK with a cookie. *)
Definition send_cookie (dev : devptr) (local src_ip : Z) (g : seg_in) h : tcp_host N :=
  let cookie := tcp_syncookie_generate (io h) src_ip local (si_src_port g) (si_dst_port g) TCP_MSS in
  set_io (fst (tcp_send_segment_ex (io h) dev
    (mk_seg_out local src_ip (si_dst_port g) (si_src_port g) cookie (u32 (si_seq g + 1))
       (Z.lor TCP_SYN TCP_ACK) TCP_WINDOW_SIZE [] []))) h.

Definition rx_listen_syn (dev : devptr) (local src_ip : Z) (g : seg_in) (l : nat) (mem : buffers) h : tcp_host N :=
  match conns h !! l with
  | None => h
  | Some lc =>
      let queue_used := Z.rem (accept_tail lc - accept_head lc + 16) 16 in
      if backlog lc <=? queue_used then send_cookie dev local src_ip g h
      else
        match mem with
        | None => send_cookie dev local src_ip g h
        | Some rx =>
            match alloc_or_reap rx h with
            | (h, None) => send_cookie dev local src_ip g h
            | (h, Some i) =>
                let h := upd i (passive_open (io h) dev local src_ip g l) h in
                match conns h !! i with
                | Some c => set_io (tcp_send_synack_conn (io h) c (tcp_advertised_window c)) h
                | None => h
                end
            end
        end
  end.

(** No connection: RST in answer to everything but RST. *)
Definition rst_reply (s : tcp_io N) (dev : devptr) (local src_ip : Z) (g : seg_in) : tcp_io N :=
  if has (si_flags g) TCP_RST then s
  else
    let '(sq, ak) :=
      if has (si_flags g) TCP_ACK then (si_ack g, 0)
      else (0, u32 (si_seq g + payload_len g + (if has (si_flags g) TCP_SYN then 1 else 0))) in
    tcp_send_rst s dev local src_ip (si_dst_port g) (si_src_port g) sq ak.

Definition rx_no_conn (dev : devptr) (local src_ip : Z) (g : seg_in) h : tcp_host N :=
  set_io (rst_reply (io h) dev local src_ip g) h.

Definition rx_unknown (dev : devptr) (local src_ip : Z) (g : seg_in) (mem : buffers) h : tcp_host N :=
  let syn := has (si_flags g) TCP_SYN in
  let ack := has (si_flags g) TCP_ACK in
  match tcp_find_listener h local (si_dst_port g) with
  | Some l =>
      if syn && negb ack then rx_listen_syn dev local src_ip g l mem h
      else if ack && negb syn then
        let cookie := u32 (si_ack g - 1) in
        match tcp_syncookie_validate (io h) src_ip local (si_src_port g) (si_dst_port g) cookie with
        | None => rx_no_conn dev local src_ip g h
        | Some mss =>
            match mem with
            | None => h
            | Some rx =>
                match alloc_or_reap rx h with
                | (h, None) => h
                | (h, Some i) => enqueue_child l i (upd i (cookie_open dev local src_ip g cookie mss l) h)
                end
            end
        end
      else rx_no_conn dev local src_ip g h
  | None => rx_no_conn dev local src_ip g h
  end.

(** The part under the lock of connection [i]. *)
Definition rx_conn (local src_ip : Z) (g : seg_in) i h : tcp_host N :=
  match conns h !! i with
  | None => h
  | Some c =>
      if negb (rx_matches src_ip local g c) then h
      else
        let '(s, c, what) := rx_switch (io h) g c in
        let h := set_io s (upd i (fun _ => c) h) in
        let h := match parent c with
                 | Some p => if enqueue what then enqueue_child p i h else h
                 | None => h
                 end in
        if release what then tcp_free_conn i h else h
  end.

Definition tcp_rx (dev : devptr) (src_ip dst_ip : Z) (data : list Z) (mem : buffers) h : tcp_host N :=
  match tcp_parse data with
  | None => h
  | Some g =>
      match tcp_find_conn h dst_ip (si_dst_port g) src_ip (si_src_port g) with
      | None => rx_unknown dev dst_ip src_ip g mem h
      | Some i =>
          if bool_decide (state <$> conns h !! i = Some TIME_WAIT) && has (si_flags g) TCP_SYN
             && negb (has (si_flags g) TCP_ACK)
          then rx_unknown dev dst_ip src_ip g mem (tcp_free_conn i h)
          else rx_conn dst_ip src_ip g i h
      end
  end.

(** ** The timer *)

(** The segment at the head of the queue lies in a block of the peer. *)
Definition sacked c (x : inflight_segment) : bool :=
  sack_ok c && existsb (fun '(l, r) =>
    (i32 (l - if_seq x) <=? 0) && (0 <=? i32 (r - u32 (if_seq x + Z.of_nat (length (if_data x)))))) (sack_blocks c).

(** Retransmission of data and FIN after a timeout. *)
Definition timer_retransmit (s : tcp_io N) c : tcp_io N * tcp_conn :=
  match inflight c with
  | [] => (s, c)
  | x :: rest =>
      if timer_ticks s <? retransmit_tick c then (s, c)
      else if TCP_MAX_RETRANSMITS <=? retransmit_count c then (s, tcp_fail_connection ETIMEDOUT c)
      else
        let c := c |> set_ssthresh (half_flight c) |> set_cwnd 1 |> set_dup_acks 0
                   |> set_rto_backoff (u8 (rto_backoff c + 1)) in
        let '(s, c) :=
          if sacked c x then (s, tcp_drop_first_inflight c)
          else
            let '(s, _) := tcp_send_segment s c (if_seq x) (rcv_nxt c) (if_flags x) (tcp_advertised_window c) (if_data x) in
            (s, c |> set_inflight (mk_inflight (if_seq x) (if_flags x) (u8 (if_retransmit_count x + 1)) 0 (if_data x) :: rest)) in
        let c := c |> set_retransmit_count (u32 (retransmit_count c + 1)) |> set_total_retrans (u32 (total_retrans c + 1)) in
        (s, c |> set_retransmit_tick (u64 (timer_ticks s + tcp_rto_ticks c)))
  end.

(** The probe of [SO_KEEPALIVE]. *)
Definition keepalive_probe (s : tcp_io N) c : tcp_io N :=
  fst (tcp_send_segment s c (u32 (snd_una c - 1)) (rcv_nxt c) TCP_ACK (u16 (rcv_wnd c)) []).

Definition timer_keepalive (s : tcp_io N) c : tcp_io N * tcp_conn :=
  if keepalive c && bool_decide (state c = ESTABLISHED) && bool_decide (inflight c = []) then
    let now := timer_ticks s in
    let idle := u64 (now - last_rx_tick c) in
    if (keep_probes_sent c =? 0) && (keepidle_ticks c <=? idle) then
      (keepalive_probe s c, c |> set_keep_probes_sent 1 |> set_keep_next_tick (u64 (now + keepintvl_ticks c)))
    else if (0 <? keep_probes_sent c) && (keep_next_tick c <=? now) then
      if keepcnt c <=? keep_probes_sent c then (s, tcp_fail_connection ETIMEDOUT c)
      else
        (keepalive_probe s c, c |> set_keep_probes_sent (u32 (keep_probes_sent c + 1))
                                |> set_keep_next_tick (u64 (now + keepintvl_ticks c)))
    else (s, c)
  else (s, c).

(** Retransmission of the SYN; [true] if the connection failed. *)
Definition timer_syn (s : tcp_io N) c : tcp_io N * tcp_conn * bool :=
  if bool_decide (state c = SYN_SENT) && (retransmit_tick c <=? timer_ticks s) then
    if TCP_MAX_RETRANSMITS <=? retransmit_count c then (s, tcp_fail_connection ETIMEDOUT c, true)
    else
      (tcp_send_syn_packet s c,
       c |> set_retransmit_count (u32 (retransmit_count c + 1))
         |> set_retransmit_tick (u64 (timer_ticks s + TCP_SYN_RETRANSMIT_TICKS)), false)
  else (s, c, false).

(** Retransmission of the SYN+ACK; [true] if the slot is to be freed. *)
Definition timer_synack (s : tcp_io N) c : tcp_io N * tcp_conn * bool :=
  if bool_decide (state c = SYN_RECEIVED) && negb (retransmit_tick c =? 0) && (retransmit_tick c <=? timer_ticks s) then
    if TCP_MAX_RETRANSMITS <=? retransmit_count c then (s, c |> set_state CLOSED, true)
    else
      (tcp_send_synack_conn s c (tcp_advertised_window c),
       c |> set_retransmit_count (u32 (retransmit_count c + 1))
         |> set_retransmit_tick (u64 (timer_ticks s + TCP_SYN_RETRANSMIT_TICKS)), false)
  else (s, c, false).

Definition may_retransmit c : bool :=
  match state c with ESTABLISHED | FIN_WAIT_1 | LAST_ACK | CLOSING => true | _ => false end.

(** The slot can be freed: nobody owns it, or its last timer ran out. *)
Definition timer_expired (now : Z) c : bool :=
  (detached c && bool_decide (state c = CLOSED))
  || (bool_decide (owner_socket c = NoOwner) && bool_decide (state c = CLOSED))
  || (bool_decide (state c = TIME_WAIT) && (time_wait_tick c <=? now))
  || (bool_decide (state c = FIN_WAIT_2) && negb (fin_wait_2_deadline c =? 0) && (fin_wait_2_deadline c <=? now)).

(** The body of the loop for a slot whose lock was free; the flag is [do_free]. *)
Definition timer_conn (s : tcp_io N) c : tcp_io N * tcp_conn * bool :=
  let now := timer_ticks s in
  if timer_expired now c then (s, c |> set_state CLOSED, true)
  else
    let '(s, c) :=
      if bool_decide (state c = ESTABLISHED) && delayed_ack_pending c && (delayed_ack_deadline c <=? now)
      then tcp_send_ack s c else (s, c) in
    let c := if cork c && negb (cork_deadline c =? 0) && (cork_deadline c <=? now)
             then c |> set_cork_deadline 0 |> set_tx_ready true else c in
    let '(s, c, failed) := timer_syn s c in
    if failed then (s, c, false)
    else
      let '(s, c, free) := timer_synack s c in
      if free then (s, c, true)
      else
        let '(s, c) := if may_retransmit c then timer_retransmit s c else (s, c) in
        let '(s, c) := timer_keepalive s c in
        (s, c, false).

Definition timer_slot (busy : nat -> bool) h i : tcp_host N :=
  match conns h !! i with
  | None => h
  | Some c =>
      if negb (active c) || busy i then h
      else
        let '(s, c, free) := timer_conn (io h) c in
        let h := set_io s (upd i (fun _ => c) h) in
        if free then tcp_defer_free i h else h
  end.

(** [busy i] says that [spin_trylock] fails for slot [i]. *)
Definition tcp_timer_tick (busy : nat -> bool) h : tcp_host N :=
  fold_left (timer_slot busy) (seq 0 (length (conns h))) h.

(** ** Path MTU *)

Definition clamp_pmtu (new_mss : Z) c : tcp_conn :=
  let c := if new_mss <? max_seg_size c then c |> set_max_seg_size new_mss else c in
  if new_mss <? peer_mss c then c |> set_peer_mss new_mss else c.

Definition tcp_handle_pmtu (local local_p remote remote_p new_mtu : Z) h : tcp_host N :=
  if new_mtu <? 68 then h
  else
    let new_mss := u16 (new_mtu - sizeof_ipv4_header - sizeof_tcp_header) in
    let new_mss := if new_mss <? 256 then 256 else new_mss in
    set_conns (map (fun c =>
      if active c && (local_port c =? local_p) && (remote_port c =? remote_p) && (local_ip c =? local)
         && (remote_ip c =? remote)
      then clamp_pmtu new_mss c else c) (conns h)) h.

(** [SIOCATMARK]. *)
Definition tcp_at_mark c : bool := rcv_nxt c =? rcv_up c.

(** ** Calls of the socket layer on one connection *)

(** [tcp_send_data], [tcp_send_oob] and the copy of [sock_recv] on slot [i]. *)
Definition host_send i (data : list Z) h : tcp_host N * Z :=
  match conns h !! i with
  | None => (h, -1)
  | Some c => let '(s, c, r) := tcp_send_data (io h) c data in (set_io s (upd i (fun _ => c) h), r)
  end.

Definition host_send_oob i (b : Z) h : tcp_host N * Z :=
  match conns h !! i with
  | None => (h, -1)
  | Some c => let '(s, c, r) := tcp_send_oob (io h) c b in (set_io s (upd i (fun _ => c) h), r)
  end.

Definition host_recv i (len : Z) (peek : bool) h : tcp_host N * option (list Z) :=
  match conns h !! i with
  | None => (h, None)
  | Some c => let '(c, r) := sock_recv_copy len peek c in (upd i (fun _ => c) h, r)
  end.

End Host.
