(* ===== verification/TcpData.v ===== *)
(** * The data path of one TCP connection

    The receive ring as a queue of bytes, and the segments of a byte stream: what the
    functions of [tcp.c] that move data do to them. *)

From Stdlib Require Import ZArith Lia Bool.
From stdpp Require Import base list.
From S2P Require Import Prelude Wire TcpConn TcpWire TcpRx.

Open Scope Z_scope.
Open Scope tcp_scope.

(** ** The receive ring *)

(** The [u] bytes of the ring [buf] of size [n] from position [h]. *)
Definition ring_list (buf : list Z) (h u n : Z) : list Z :=
  map (fun i => byte_at buf (Z.to_nat ((h + Z.of_nat i) mod n))) (seq 0 (Z.to_nat u)).

Definition rx_contents (c : tcp_conn) : list Z :=
  match rx_buf c with
  | Some buf => ring_list buf (rx_head c) (ring_used (rx_head c) (rx_tail c) (rx_buf_size c)) (rx_buf_size c)
  | None => []
  end.

Record rx_ring_ok (c : tcp_conn) : Prop := {
  ok_ring_buf : exists buf, rx_buf c = Some buf /\ Z.of_nat (length buf) = rx_buf_size c;
  ok_ring_size : 1 < rx_buf_size c < 2 ^ 31;
  ok_ring_head : 0 <= rx_head c < rx_buf_size c;
  ok_ring_tail : 0 <= rx_tail c < rx_buf_size c;
}.

Lemma length_ring_list buf h u n : length (ring_list buf h u n) = Z.to_nat u.
Proof. unfold ring_list. by rewrite length_map, length_seq. Qed.

Lemma lookup_ring_list buf h u n i :
  (i < Z.to_nat u)%nat -> ring_list buf h u n !! i = Some (byte_at buf (Z.to_nat ((h + Z.of_nat i) mod n))).
Proof. intros Hi. unfold ring_list. rewrite list_lookup_fmap, lookup_seq_lt by done. done. Qed.

Lemma ring_used_eq h t n :
  0 <= h < n -> 0 <= t < n -> n < 2 ^ 31 -> ring_used h t n = if h <=? t then t - h else t - h + n.
Proof.
  intros Hh Ht Hn. unfold ring_used, u32. destruct (Z.leb_spec h t).
  - rewrite (Z.mod_small (t - h)), (Z.mod_small (t - h + n)) by lia.
    rewrite <- (Z.mul_1_l n) at 1. rewrite Z.mod_add by lia. apply Z.mod_small. lia.
  - rewrite <- (Z.mod_add (t - h) 1 (2 ^ 32)), Z.mul_1_l, (Z.mod_small (t - h + 2 ^ 32)) by lia.
    replace (t - h + 2 ^ 32 + n) with (t - h + n + 1 * 2 ^ 32) by lia. rewrite Z.mod_add by lia.
    rewrite (Z.mod_small (t - h + n) (2 ^ 32)) by lia. apply Z.mod_small. lia.
Qed.

Lemma ring_used_range h t n : 0 <= h < n -> 0 <= t < n -> n < 2 ^ 31 -> 0 <= ring_used h t n < n.
Proof. intros. rewrite ring_used_eq by done. case_if; zify_bool; lia. Qed.

Lemma ring_free_eq h t n :
  0 <= h < n -> 0 <= t < n -> n < 2 ^ 31 -> ring_free h t n = n - 1 - ring_used h t n.
Proof. intros. pose proof (ring_used_range h t n). unfold ring_free. apply u32_small. lia. Qed.

Lemma rx_ring_mod h i n : 0 <= h < n -> 0 <= i <= n -> (h + i) mod n = if h + i <? n then h + i else h + i - n.
Proof.
  intros. destruct (Z.ltb_spec (h + i) n); [apply Z.mod_small; lia|].
  symmetry. apply (Z.mod_unique_pos _ _ 1); lia.
Qed.

Lemma length_rx_contents c :
  rx_ring_ok c -> Z.of_nat (length (rx_contents c)) = ring_used (rx_head c) (rx_tail c) (rx_buf_size c).
Proof.
  intros [(buf & Hb & Hl) Hs Hh Ht]. unfold rx_contents. rewrite Hb, length_ring_list.
  pose proof (ring_used_range (rx_head c) (rx_tail c) (rx_buf_size c)). lia.
Qed.

Lemma rx_free_eq c : rx_ring_ok c -> rx_free c = rx_buf_size c - 1 - Z.of_nat (length (rx_contents c)).
Proof.
  intros Hr. rewrite length_rx_contents by done. destruct Hr as [? ? ? ?]. unfold rx_free. apply ring_free_eq; lia.
Qed.

(** One byte is appended. *)
Lemma rx_put_one b c :
  rx_ring_ok c -> 0 < rx_free c ->
  rx_ring_ok (rx_put [b] c) /\ rx_contents (rx_put [b] c) = rx_contents c ++ [b].
Proof.
  intros Hr Hf. pose proof (rx_free_eq c Hr) as Hfe. rewrite (length_rx_contents c Hr) in Hfe.
  destruct Hr as [(buf & Hb & Hl) Hs Hh Ht]. cbn [rx_put fold_left].
  set (c1 := set_rx_tail _ _).
  assert (E1 : rx_buf c1 = Some (<[Z.to_nat (rx_tail c) := b]> buf)) by (unfold c1; cbn; by rewrite Hb).
  assert (E2 : rx_tail c1 = (rx_tail c + 1) mod rx_buf_size c).
  { unfold c1. cbn. rewrite u32_small by lia. done. }
  assert (E3 : rx_head c1 = rx_head c) by done. assert (E4 : rx_buf_size c1 = rx_buf_size c) by done.
  clearbody c1. rewrite rx_ring_mod in E2 by lia.
  set (n := rx_buf_size c) in *. set (h := rx_head c) in *. set (t := rx_tail c) in *.
  assert (Hu : ring_used h (rx_tail c1) n = ring_used h t n + 1).
  { rewrite !ring_used_eq, E2 in * by (rewrite ?E2; try case_if; zify_bool; lia).
    repeat case_if; zify_bool; lia. }
  assert (Hok : rx_ring_ok c1).
  { split; rewrite ?E1, ?E2, ?E3, ?E4; fold n h t; try lia.
    - eexists. split; [done|]. by rewrite length_insert.
    - case_if; zify_bool; lia. }
  split; [done|]. unfold rx_contents. rewrite E1, E3, E4, Hb, Hu. fold n h t.
  pose proof (ring_used_range h t n ltac:(lia) ltac:(lia) ltac:(lia)) as Hur. rewrite ring_used_eq in Hfe by lia.
  apply list_eq. intros i. destruct (decide (i < Z.to_nat (ring_used h t n))%nat) as [Hi|Hi].
  - rewrite lookup_app_l by (by rewrite length_ring_list). rewrite !lookup_ring_list by lia. f_equal. unfold byte_at.
    rewrite list_lookup_insert_ne; [done|]. rewrite rx_ring_mod by lia.
    rewrite ring_used_eq in Hi, Hur by lia. destruct (Z.leb_spec h t); case_if; zify_bool; lia.
  - rewrite lookup_app_r by (rewrite length_ring_list; lia). rewrite length_ring_list.
    destruct (decide (i = Z.to_nat (ring_used h t n))) as [->|Hne].
    + rewrite lookup_ring_list by lia. rewrite Nat.sub_diag. cbn. f_equal. unfold byte_at.
      rewrite Z2Nat.id by lia. replace (Z.to_nat ((h + ring_used h t n) mod n)) with (Z.to_nat t).
      * rewrite list_lookup_insert_eq; [done|]. lia.
      * f_equal. rewrite rx_ring_mod by lia. rewrite ring_used_eq in * by lia. destruct (Z.leb_spec h t); case_if; zify_bool; lia.
    + rewrite !lookup_ge_None_2; [done|cbn; lia|rewrite length_ring_list; lia].
Qed.

Lemma rx_put_app l k c : rx_put (l ++ k) c = rx_put k (rx_put l c).
Proof. unfold rx_put. by rewrite fold_left_app. Qed.

(** Only the buffer and the tail change. *)
Lemma rx_put_frame bs c : exists b t, rx_put bs c = (c |> set_rx_buf b |> set_rx_tail t).
Proof.
  induction bs as [|x bs IH] using rev_ind; [by exists (rx_buf c), (rx_tail c)|].
  destruct IH as (b & t & IH). rewrite rx_put_app, IH. cbn. by eexists _, _.
Qed.

Lemma rx_put_ok bs c :
  rx_ring_ok c -> Z.of_nat (length bs) <= rx_free c ->
  rx_ring_ok (rx_put bs c) /\ rx_contents (rx_put bs c) = rx_contents c ++ bs.
Proof.
  intros Hr. induction bs as [|x bs IH] using rev_ind; intros Hf; [by rewrite app_nil_r|].
  rewrite length_app in Hf. cbn [length] in Hf. destruct IH as [Hr' Hc]; [lia|]. rewrite rx_put_app.
  pose proof (rx_free_eq c Hr). pose proof (rx_free_eq _ Hr') as Hf'. rewrite Hc, length_app in Hf'.
  destruct (rx_put_frame bs c) as (b & t & Hfr).
  assert (rx_buf_size (rx_put bs c) = rx_buf_size c) as Hsz by (by rewrite Hfr).
  destruct (rx_put_one x _ Hr') as [H1 H2]; [lia|]. split; [done|]. by rewrite H2, Hc, <- app_assoc.
Qed.

(** [rx_store] appends what fits and moves [rcv_nxt] by as much. *)
Lemma rx_store_ok bs c :
  rx_ring_ok c ->
  exists k b t, (k <= length bs)%nat /\ (Z.of_nat (length bs) <= rx_free c -> k = length bs) /\
    rx_store bs c = (c |> set_rx_buf b |> set_rx_tail t |> set_rcv_nxt (u32 (rcv_nxt c + Z.of_nat k))) /\
    rx_ring_ok (rx_store bs c) /\ rx_contents (rx_store bs c) = rx_contents c ++ take k bs.
Proof.
  intros Hr. set (k := Z.to_nat (Z.min (Z.of_nat (length bs)) (rx_free c))).
  pose proof (rx_free_eq c Hr) as Hf. pose proof (length_rx_contents c Hr).
  pose proof (ring_used_range (rx_head c) (rx_tail c) (rx_buf_size c)) as Hu.
  assert (0 <= rx_free c) by (destruct Hr; lia).
  destruct (rx_put_frame (take k bs) c) as (b & t & Hfr). exists k, b, t.
  destruct (rx_put_ok (take k bs) c Hr) as [H1 H2]; [rewrite length_take; lia|].
  assert (Hst : rx_store bs c = (rx_put (take k bs) c |> set_rcv_nxt (u32 (rcv_nxt c + Z.of_nat k)))).
  { unfold rx_store. fold k. cbn beta zeta. rewrite Hfr. unfold k. by rewrite Z2Nat.id by lia. }
  split_and!; [lia|lia|by rewrite Hst, Hfr|..]; rewrite Hst; [|done]. by destruct H1.
Qed.

Lemma ring_list_take buf h u n k : (k <= Z.to_nat u)%nat -> take k (ring_list buf h u n) = ring_list buf h (Z.of_nat k) n.
Proof.
  intros Hk. apply list_eq. intros i. destruct (decide (i < k)%nat).
  - rewrite lookup_take_lt, !lookup_ring_list by lia. done.
  - rewrite !lookup_ge_None_2; [done|rewrite length_ring_list; lia|rewrite length_take, length_ring_list; lia].
Qed.

Lemma ring_list_drop buf h u n k :
  0 < n -> (k <= Z.to_nat u)%nat ->
  drop k (ring_list buf h u n) = ring_list buf ((h + Z.of_nat k) mod n) (u - Z.of_nat k) n.
Proof.
  intros Hn Hk. apply list_eq. intros i. rewrite lookup_drop. destruct (decide (k + i < Z.to_nat u)%nat).
  - rewrite !lookup_ring_list by lia. rewrite Z.add_mod_idemp_l by lia. do 4 f_equal. lia.
  - rewrite !lookup_ge_None_2; [done|rewrite length_ring_list; lia..].
Qed.

(** Reading: the bytes at the front of the queue, which [peek] leaves there. *)
Lemma sock_recv_ok len peek c :
  rx_ring_ok c -> active c = true -> 0 <= len < 2 ^ 32 ->
  exists n h r, (n <= length (rx_contents c))%nat /\
    sock_recv_copy len peek c = (c |> set_rx_head h |> set_rx_ready r, Some (take n (rx_contents c))) /\
    rx_ring_ok (c |> set_rx_head h |> set_rx_ready r) /\
    rx_contents (c |> set_rx_head h |> set_rx_ready r) = if peek then rx_contents c else drop n (rx_contents c).
Proof.
  intros Hr Ha Hlen. pose proof (length_rx_contents c Hr) as Hlc. destruct Hr as [(buf & Hb & Hl) Hs Hh Ht].
  pose proof (ring_used_range (rx_head c) (rx_tail c) (rx_buf_size c)) as Hu.
  set (u := ring_used (rx_head c) (rx_tail c) (rx_buf_size c)) in *.
  set (k := Z.min len u). assert (Hk : (if len <? u then u32 len else u) = k).
  { destruct (Z.ltb_spec len u); [rewrite u32_small|]; lia. }
  assert (Hcon : rx_contents c = ring_list buf (rx_head c) u (rx_buf_size c)) by (unfold rx_contents; by rewrite Hb).
  assert (Hbs : take (Z.to_nat k) (rx_contents c) = ring_list buf (rx_head c) k (rx_buf_size c)).
  { rewrite Hcon, ring_list_take by lia. by rewrite Z2Nat.id by lia. }
  exists (Z.to_nat k). unfold sock_recv_copy. rewrite Ha, Hb. fold u. rewrite Hk, Hbs. destruct peek.
  { exists (rx_head c), (rx_ready c). split_and!; [lia|done|..|done]. by split; [exists buf|..]. }
  exists ((rx_head c + k) mod rx_buf_size c), (if (rx_head c + k) mod rx_buf_size c =? rx_tail c then false else rx_ready c).
  assert (Hh' : 0 <= (rx_head c + k) mod rx_buf_size c < rx_buf_size c) by (apply Z.mod_pos_bound; lia).
  split_and!; [lia|..].
  - rewrite u32_small by lia. cbn. by case_if.
  - split; cbn; try done. by exists buf.
  - unfold rx_contents at 1. cbn [rx_buf set_rx_head set_rx_ready rx_head rx_tail rx_buf_size]. rewrite Hb, Hcon, ring_list_drop by lia.
    rewrite Z2Nat.id by lia. f_equal. assert (Hku : 0 <= k <= u) by lia. clearbody k. unfold u in *. rewrite rx_ring_mod in * by lia. rewrite !ring_used_eq in * by lia.
    destruct (Z.leb_spec (rx_head c) (rx_tail c)); repeat case_if; zify_bool; lia.
Qed.

(** ** Pieces of a byte stream *)

(** [data] is the piece of stream [W] at sequence number [sq]; the first byte of [W]
    has sequence number [I + 1]. *)
Definition in_stream (I : Z) (W : list Z) (sq : Z) (data : list Z) : Prop :=
  exists off, sq = u32 (I + 1 + Z.of_nat off) /\ take (length data) (drop off W) = data.

Lemma piece_len (W data : list Z) off : take (length data) (drop off W) = data -> data = [] \/ (off + length data <= length W)%nat.
Proof.
  intros H. destruct data as [|x data]; [by left|]. right.
  apply (f_equal length) in H. rewrite length_take, length_drop in H. cbn [length] in *. lia.
Qed.

Lemma u32_add_l a b : u32 (u32 a + b) = u32 (a + b).
Proof. unfold u32. by rewrite Z.add_mod_idemp_l by lia. Qed.

Lemma in_stream_nil I W sq : urange 32 sq -> in_stream I W sq [].
Proof.
  intros Hr. exists (Z.to_nat (u32 (sq - I - 1))). split; [|done].
  rewrite Z2Nat.id by (apply u32_range). unfold u32. rewrite Z.add_mod_idemp_r by lia.
  replace (I + 1 + (sq - I - 1)) with sq by lia. symmetry. apply Z.mod_small. apply Hr.
Qed.

Lemma in_stream_mono I W X sq data : in_stream I W sq data -> in_stream I (W ++ X) sq data.
Proof.
  intros (off & Hsq & Hd). exists off. split; [done|].
  destruct (piece_len _ _ _ Hd) as [->|Hl]; [done|].
  rewrite drop_app_le, take_app_le by (rewrite ?length_drop; lia). done.
Qed.

(** Sequence numbers of the stream identify positions. *)
Lemma seq_inj I a b : 0 <= a < 2 ^ 32 -> 0 <= b < 2 ^ 32 -> u32 (I + 1 + a) = u32 (I + 1 + b) -> a = b.
Proof. intros Ha Hb Heq. unfold u32 in Heq. Z.div_mod_to_equations. lia. Qed.

(** What follows a prefix is its continuation. *)
Lemma stream_continues I W P data :
  Z.of_nat (length W) < 2 ^ 32 -> P `prefix_of` W -> in_stream I W (u32 (I + 1 + Z.of_nat (length P))) data ->
  P ++ data `prefix_of` W.
Proof.
  intros HW HP (off & Hsq & Hd). pose proof (prefix_length _ _ HP) as Hlp.
  destruct (piece_len _ _ _ Hd) as [->|Hl]; [by rewrite app_nil_r|].
  apply seq_inj in Hsq; [|lia..]. apply Nat2Z.inj in Hsq as <-.
  destruct HP as [Q ->]. rewrite drop_app_length in Hd.
  exists (drop (length data) Q). rewrite <- app_assoc. f_equal. rewrite <- Hd at 1. by rewrite take_drop.
Qed.

Lemma in_stream_drop I W sq data n :
  in_stream I W sq data -> (n <= length data)%nat -> in_stream I W (u32 (sq + Z.of_nat n)) (drop n data).
Proof.
  intros (off & -> & Hd) Hn. exists (off + n)%nat. split.
  - rewrite u32_add_l. f_equal. lia.
  - rewrite <- Hd at 2. rewrite skipn_firstn_comm, length_drop, <- drop_drop. done.
Qed.

(** ** The queue of unacknowledged segments *)

Definition piece_ok (I : Z) (W : list Z) (e : inflight_segment) : Prop :=
  urange 32 (if_seq e) /\ has (if_flags e) TCP_SYN = false /\ (length (if_data e) <= 1460)%nat /\
  in_stream I W (if_seq e) (if_data e).

Lemma piece_ok_mono I W X e : piece_ok I W e -> piece_ok I (W ++ X) e.
Proof. intros (? & ? & ? & ?). split_and!; try done. by apply in_stream_mono. Qed.

(** Acknowledged segments disappear; what is left are pieces of the stream. *)
Lemma ack_queue_ok I W ack l : urange 32 ack -> Forall (piece_ok I W) l -> Forall (piece_ok I W) (ack_queue ack l).
Proof.
  intros Ha. induction 1 as [|e l (He1 & He2 & He3 & He4) Hl IH]; cbn [ack_queue]; [done|].
  case_if; [done|]. case_if; [|constructor; [split_and!|]; done]. zify_bool.
  unfold seg_end in E. rewrite H0, Z.add_0_r in E. unfold urange in *.
  assert (Hlt : if_seq e + Z.of_nat (length (if_data e)) < 2 ^ 32).
  { destruct (Z.ltb_spec (if_seq e + Z.of_nat (length (if_data e))) (2 ^ 32)); [done|]. exfalso. unfold u32 in E. zlia. }
  rewrite u32_small in E by lia. rewrite u16_small by lia. rewrite (proj2 (Z.ltb_ge _ _)) by lia.
  constructor; [|done]. split_and!; cbn [if_seq if_flags if_data]; try done; [rewrite length_drop; lia|].
  pose proof (in_stream_drop I W _ _ (Z.to_nat (ack - if_seq e)) He4 ltac:(lia)) as Hd.
  rewrite Z2Nat.id, u32_small in Hd by lia. by replace (if_seq e + (ack - if_seq e)) with ack in Hd by lia.
Qed.

(** ** The receiving side *)

(** [R] has been read; with what is in the ring it is a prefix of [W], and [rcv_nxt]
    is the sequence number of what follows. *)
Record rcv_inv (I : Z) (W R : list Z) (c : tcp_conn) : Prop := {
  rcv_ring : rx_ring_ok c;
  rcv_prefix : R ++ rx_contents c `prefix_of` W;
  rcv_next : rcv_nxt c = u32 (I + 1 + Z.of_nat (length (R ++ rx_contents c)));
  rcv_ooo : Forall (fun e => in_stream I W (oo_seq e) (oo_data e)) (ooo c);
}.

(** The fields it depends on. *)
Definition rview (c : tcp_conn) := (rcv_nxt c, (rx_buf c, rx_head c, rx_tail c, rx_buf_size c), ooo c).

Lemma rx_ring_ext c c' :
  (rx_buf c, rx_head c, rx_tail c, rx_buf_size c) = (rx_buf c', rx_head c', rx_tail c', rx_buf_size c') ->
  rx_ring_ok c -> rx_ring_ok c' /\ rx_contents c' = rx_contents c.
Proof.
  intros [= E1 E2 E3 E4] [H1 H2 H3 H4]. unfold rx_contents. rewrite <- E1, <- E2, <- E3, <- E4.
  split; [|done]. split; by rewrite <- ?E1, <- ?E2, <- ?E3, <- ?E4.
Qed.

Lemma rx_ring_frame c c' :
  (rx_buf c, rx_head c, rx_tail c, rx_buf_size c) = (rx_buf c', rx_head c', rx_tail c', rx_buf_size c') ->
  rx_ring_ok c -> rx_ring_ok c'.
Proof. intros E H. exact (proj1 (rx_ring_ext c c' E H)). Qed.

Lemma rcv_inv_ext I W R c c' : rview c = rview c' -> rcv_inv I W R c -> rcv_inv I W R c'.
Proof.
  intros E [H1 H2 H3 H4]. injection E as E1 E2 E3 E4 E5 E6.
  destruct (rx_ring_ext c c' ltac:(congruence) H1) as [H5 H6].
  split; [done|by rewrite H6|by rewrite H6, <- E1|by rewrite <- E6].
Qed.

Lemma rcv_inv_mono I W X R c : rcv_inv I W R c -> rcv_inv I (W ++ X) R c.
Proof.
  intros [H1 H2 H3 H4]. split; try done; [by apply prefix_app_r|].
  eapply Forall_impl; [done|]. intros e. apply in_stream_mono.
Qed.

Section Receiver.
Variables (I : Z) (W R : list Z).
Hypothesis HW : Z.of_nat (length W) < 2 ^ 32.

Lemma rx_store_inv bs c :
  rcv_inv I W R c -> in_stream I W (rcv_nxt c) bs -> rcv_inv I W R (rx_store bs c).
Proof.
  intros [H1 H2 H3 H4] Hbs. destruct (rx_store_ok bs c H1) as (k & b & t & Hk & _ & Hst & Hr & Hc).
  rewrite H3 in Hbs. pose proof (stream_continues I W _ _ HW H2 Hbs) as Hp.
  split; [done|..].
  - rewrite Hc, app_assoc. etransitivity; [|exact Hp]. apply prefix_app. by exists (drop k bs); rewrite take_drop.
  - rewrite Hc, Hst. cbn. rewrite H3, u32_add_l. f_equal. rewrite !length_app, length_take. lia.
  - by rewrite Hst.
Qed.

Lemma rx_store_frame bs c : exists b t r, rx_store bs c = (c |> set_rx_buf b |> set_rx_tail t |> set_rcv_nxt r).
Proof.
  unfold rx_store. destruct (rx_put_frame (take (Z.to_nat (Z.min (Z.of_nat (length bs)) (rx_free c))) bs) c) as (b & t & ->).
  by eexists b, t, _.
Qed.

Lemma rx_drain_inv n c : rcv_inv I W R c -> rcv_inv I W R (rx_drain n c).
Proof.
  revert c. induction n as [|n IH]; intros c Hc; cbn [rx_drain]; [done|].
  destruct (find_idx _ _) as [k|] eqn:Ek; [|done].
  apply find_idx_Some in Ek as (e & He & Heq & _). apply Z.eqb_eq in Heq. rewrite He. cbn [fmap option_fmap option_map default from_option id].
  apply IH. pose proof (rcv_ooo _ _ _ _ Hc) as Ho. rewrite Forall_lookup in Ho.
  pose proof (Ho k e He) as Hin. rewrite Heq in Hin.
  destruct (rx_store_inv _ c Hc Hin) as [H1 H2 H3 H4].
  split; [by eapply rx_ring_frame, H1|done|done|]. cbn [ooo set_ooo]. by apply Forall_delete.
Qed.

(** Only the receive fields change. *)
Lemma rx_drain_frame n c :
  exists b t r o, rx_drain n c = (c |> set_rx_buf b |> set_rx_tail t |> set_rcv_nxt r |> set_ooo o).
Proof.
  revert c. induction n as [|n IH]; intros c; cbn [rx_drain]; [by exists (rx_buf c), (rx_tail c), (rcv_nxt c), (ooo c)|].
  destruct (find_idx _ _) as [k|]; [|by exists (rx_buf c), (rx_tail c), (rcv_nxt c), (ooo c)].
  destruct (rx_store_frame (default [] (oo_data <$> ooo c !! k)) c) as (b & t & r & ->).
  destruct (IH (c |> set_rx_buf b |> set_rx_tail t |> set_rcv_nxt r
     |> set_ooo (delete k (ooo (c |> set_rx_buf b |> set_rx_tail t |> set_rcv_nxt r))))) as (b' & t' & r' & o' & ->).
  exists b', t', r', o'. reflexivity.
Qed.

Lemma ooo_insert_inv sq data c : in_stream I W sq data -> rcv_inv I W R c -> rcv_inv I W R (ooo_insert sq data c).
Proof.
  intros Hin [H1 H2 H3 H4]. unfold ooo_insert. case_if; [|done].
  split; [by eapply rx_ring_frame, H1|done|done|]. cbn [ooo set_ooo].
  apply Forall_app. split; [by apply Forall_take|]. constructor; [done|by apply Forall_drop].
Qed.

End Receiver.
