(* ===== verification/TcpStream.v ===== *)
(** * A TCP connection between two hosts

    Two end points run the code of [kernel/net/tcp.c] over a network that may lose,
    duplicate, delay and reorder their messages.  The operations are those the socket
    layer, the timer and the receive path call on a connection; the invariant relates
    what one end wrote to what the other end has and will read. *)

From Stdlib Require Import ZArith Lia Bool.
From stdpp Require Import base list relations.
From S2P Require Import Prelude Wire TcpConn TcpWire TcpRx TcpSegment Tcp TcpData.

Open Scope Z_scope.
Open Scope tcp_scope.

(** ** Messages *)

(** A message of the stream [W] with initial sequence number [I]. *)
Definition msg_ok (I : Z) (W m : list Z) : Prop :=
  forall g, tcp_parse m = Some g ->
    in_stream I W (si_seq g) (si_payload g) /\ (has (si_flags g) TCP_SYN = true -> si_seq g = I /\ si_payload g = []).

Definition msgs_ok {N} (I : Z) (W : list Z) (s : tcp_io N) : Prop := Forall (fun '(_, m) => msg_ok I W m) (trace s).

Lemma msg_ok_mono I W X m : msg_ok I W m -> msg_ok I (W ++ X) m.
Proof. intros H g Hg. destruct (H g Hg) as [H1 H2]. split; [by apply in_stream_mono|done]. Qed.

Lemma msgs_ok_mono {N} I W X (s : tcp_io N) : msgs_ok I W s -> msgs_ok I (W ++ X) s.
Proof. intros H. eapply Forall_impl; [exact H|]. intros [a m]. apply msg_ok_mono. Qed.

(** What a sent segment has to be. *)
Definition seg_fits (I : Z) (W : list Z) (sq flags : Z) (data : list Z) : Prop :=
  urange 32 sq /\ in_stream I W sq data /\ (has flags TCP_SYN = true -> sq = I /\ data = []).

Lemma seg_fits_plain I W sq flags : urange 32 sq -> has flags TCP_SYN = false -> seg_fits I W sq flags [].
Proof. intros H Hs. split_and!; [done|by apply in_stream_nil|congruence]. Qed.

Lemma seg_fits_syn I W flags : urange 32 I -> seg_fits I W I flags [].
Proof. intros H. split_and!; [done|by apply in_stream_nil|done]. Qed.

Lemma seg_fits_piece I W e : piece_ok I W e -> seg_fits I W (if_seq e) (if_flags e) (if_data e).
Proof. intros (H1 & H2 & _ & H3). split_and!; [done|done|congruence]. Qed.

#[local] Hint Resolve seg_fits_plain seg_fits_syn seg_fits_piece : likeos.

Section Ops.
Context {N : Type} `{IpLayer N} `{!IpLaws N}.
Implicit Types (s : tcp_io N) (c : tcp_conn).
Variables (I : Z) (W : list Z).

Lemma message_ok x m : tcp_message x = Some m -> seg_fits I W (so_seq x) (so_flags x) (so_data x) -> msg_ok I W m.
Proof.
  intros Hm (H1 & H2 & H3) g Hg. destruct (message_fields x m Hm H1) as (g' & Hg' & E1 & E2 & E3 & _).
  assert (g' = g) as -> by congruence. rewrite E1, E2, E3. done.
Qed.

Lemma log_send_ok n rc dst m s : msgs_ok I W s -> (rc = 0 -> msg_ok I W m) -> msgs_ok I W (log_send n rc dst m s).
Proof.
  intros Hs Hm. unfold msgs_ok. cbn. apply Forall_app. split; [done|].
  destruct (Z.eqb_spec rc 0); [|done]. apply Forall_singleton. auto.
Qed.

Lemma send_segment_ok s dev x :
  msgs_ok I W s -> seg_fits I W (so_seq x) (so_flags x) (so_data x) -> msgs_ok I W (fst (tcp_send_segment_ex s dev x)).
Proof.
  intros Hs Hx. unfold tcp_send_segment_ex. destruct (tcp_message x) as [m|] eqn:Em; [|done].
  destruct (ip_send _ _ _ _ _) as [n rc]. apply log_send_ok; [done|]. intros _. by eapply message_ok.
Qed.

Lemma build_options_trace s c flags mss : trace (fst (tcp_build_options s c flags mss)) = trace s.
Proof.
  unfold tcp_build_options.
  assert (Hts : trace (fst (tcp_ts_now_for s c)) = trace s).
  { unfold tcp_ts_now_for, tcp_ts_offset_global. by repeat case_if. }
  destruct (tcp_ts_now_for s c) as [s' tv]. cbn [fst] in Hts. by destruct (has flags TCP_SYN || ts_enabled c).
Qed.

Lemma build_options_msgs s c flags mss : msgs_ok I W s -> msgs_ok I W (fst (tcp_build_options s c flags mss)).
Proof. intros Hs. unfold msgs_ok. by rewrite build_options_trace. Qed.

Lemma send_ack_msgs s c : msgs_ok I W s -> urange 32 (snd_nxt c) -> msgs_ok I W (fst (tcp_send_ack s c)).
Proof.
  intros Hs Hn. unfold tcp_send_ack. pose proof (build_options_msgs s c TCP_ACK 0 Hs) as Hb.
  destruct (tcp_build_options s c TCP_ACK 0) as [s1 o]. cbn [fst] in Hb.
  match goal with |- context [tcp_send_segment_ex ?s ?d ?x] =>
    pose proof (send_segment_ok s d x Hb) as Hx; destruct (tcp_send_segment_ex s d x) as [s2 rc] end.
  apply Hx. cbn. auto with likeos.
Qed.

(** ** The sending side *)

Definition opening c : bool := match state c with SYN_SENT | SYN_RECEIVED | ESTABLISHED => true | _ => false end.

(** The queue holds pieces of [W], and before FIN the next byte is the next of [W]. *)
Record snd_inv c : Prop := {
  snd_iss : iss c = I;
  snd_irange : urange 32 I;
  snd_queue : Forall (piece_ok I W) (inflight c);
  snd_range : urange 32 (snd_nxt c);
  snd_next : opening c = true -> snd_nxt c = u32 (I + 1 + Z.of_nat (length W));
}.

(** The fields the invariants depend on. *)
Definition sview c := (iss c, snd_nxt c, inflight c).
Definition view c := (state c, sview c, rview c).

Lemma snd_inv_ext c c' : state c = state c' -> sview c = sview c' -> snd_inv c -> snd_inv c'.
Proof.
  intros Est [= E1 E2 E3] [H1 H2 H3 H4 H5]. unfold opening in *. rewrite Est in H5.
  split; by rewrite <- ?E1, <- ?E2, <- ?E3.
Qed.

(** A connection that leaves the opening states keeps the rest. *)
Lemma snd_inv_close c c' :
  opening c' = false -> iss c' = iss c -> Forall (piece_ok I W) (inflight c') -> urange 32 (snd_nxt c') -> snd_inv c -> snd_inv c'.
Proof. intros Ho Ei Hq Hr [H1 H2 H3 H4 H5]. split; congruence || done. Qed.

Lemma send_ack_view s c : view (snd (tcp_send_ack s c)) = view c.
Proof.
  unfold tcp_send_ack. destruct (tcp_build_options s c TCP_ACK 0) as [s1 o].
  by destruct (tcp_send_segment_ex _ _ _).
Qed.

Lemma update_rtt_view r c : view (tcp_update_rtt r c) = view c.
Proof. unfold tcp_update_rtt. case_if; [done|]. by case_if. Qed.

Lemma ts_now_trace s c : trace (fst (tcp_ts_now_for s c)) = trace s.
Proof. unfold tcp_ts_now_for, tcp_ts_offset_global. by repeat case_if. Qed.

Lemma rx_rtt_frame s g c : view (snd (rx_rtt s g c)) = view c /\ trace (fst (rx_rtt s g c)) = trace s.
Proof.
  unfold rx_rtt. case_if.
  - pose proof (ts_now_trace s c) as Ht. destruct (tcp_ts_now_for s c) as [s1 tv]. split; [apply update_rtt_view|done].
  - destruct (list_find _ _) as [[k x]|]; [|done]. split; [|done]. cbn [snd]. case_if; [apply update_rtt_view|done].
Qed.

Lemma rx_newreno_frame s c : view (snd (rx_newreno s c)) = view c /\ trace (fst (rx_newreno s c)) = trace s.
Proof. unfold rx_newreno. case_if; [cbn; by case_if|]. by case_if. Qed.

Lemma resend_first_ok s c :
  msgs_ok I W s -> snd_inv c ->
  let '(s', c') := resend_first s c in msgs_ok I W s' /\ snd_inv c' /\ state c' = state c /\ rview c' = rview c.
Proof.
  intros Hs Hc. unfold resend_first. destruct (inflight c) as [|e l] eqn:El; [done|].
  pose proof (snd_queue c Hc) as Hq. rewrite El in Hq. apply Forall_cons in Hq as [He Hl].
  unfold tcp_send_segment.
  match goal with |- context [tcp_send_segment_ex ?s ?d ?x] =>
    pose proof (send_segment_ok s d x Hs) as Hx; destruct (tcp_send_segment_ex s d x) as [s2 rc] end.
  split; [apply Hx; cbn; auto with likeos|]. split; [|done].
  destruct Hc as [H1 H2 H3 H4 H5]. split; try done. cbn. constructor; [exact He|done].
Qed.

Lemma ack_inflight_ok ack c : urange 32 ack -> snd_inv c -> snd_inv (tcp_ack_inflight ack c).
Proof. intros Ha [H1 H2 H3 H4 H5]. split; try done. cbn. by apply ack_queue_ok. Qed.

Lemma rx_ack_ok s g c :
  msgs_ok I W s -> snd_inv c -> urange 32 (si_ack g) ->
  let '(s', c') := rx_ack s g c in msgs_ok I W s' /\ snd_inv c' /\ state c' = state c /\ rview c' = rview c.
Proof.
  intros Hs Hc Ha. unfold rx_ack. case_if; [done|].
  set (c1 := if sack_ok c && _ then _ else _).
  assert (Hv : view c1 = view c) by (unfold c1; by case_if). injection Hv as Es E1 E2 E3 R1 R2 R3 R4 R5 R6.
  assert (Hr : rview c1 = rview c) by (unfold rview; congruence).
  assert (Hc1 : snd_inv c1) by (eapply snd_inv_ext; [..|exact Hc]; unfold sview; congruence).
  clearbody c1. rewrite <- Es, <- Hr. clear Es E1 E2 E3 R1 R2 R3 R4 R5 R6 Hr Hc c.
  case_if; [|case_if; [|done]].
  - destruct (rx_rtt_frame s g c1) as [Hv Ht]. destruct (rx_rtt s g c1) as [s2 c2]. cbn [fst snd] in Hv, Ht.
    injection Hv as Es E1' E2' E3' R1 R2 R3 R4 R5 R6.
    match goal with |- context [rx_newreno s2 ?e] =>
      destruct (rx_newreno_frame s2 e) as [Hv3 Ht3]; destruct (rx_newreno s2 e) as [s3 c3] end.
    cbn [fst snd] in Hv3, Ht3. split; [unfold msgs_ok; by rewrite Ht3, Ht|].
    assert (Hc2 : snd_inv (c2 |> set_snd_una (si_ack g))).
    { eapply snd_inv_ext; [..|exact Hc1]; unfold sview; cbn; congruence. }
    apply (ack_inflight_ok (si_ack g)) in Hc2; [|done].
    injection Hv3 as Es3 E13 E23 E33 R13 R23 R33 R43 R53 R63.
    split; [eapply snd_inv_ext; [..|exact Hc2]; unfold sview; cbn; congruence|].
    split; [congruence|]. unfold rview. congruence.
  - case_if; [|case_if; (split; [done|split; [by eapply snd_inv_ext, Hc1|done]])].
    match goal with |- context [resend_first s ?e] =>
      pose proof (resend_first_ok s e Hs) as Hx; destruct (resend_first s e) as [s3 c3] end.
    destruct Hx as (Hx1 & Hx2 & Hx3 & Hx4); [by eapply snd_inv_ext, Hc1|]. split; [done|].
    split; [by eapply snd_inv_ext, Hx2|]. split; [done|]. unfold rview in *. done.
Qed.

(** ** Both sides of an end point

    [V] is the stream of the peer with initial sequence number [J]; [R] is what has
    been read here. *)

Variables (J : Z) (V R : list Z).
Hypothesis HV : Z.of_nat (length V) < 2 ^ 32.

Definition rcv_fresh c : Prop := rx_ring_ok c /\ R = [] /\ rx_contents c = [] /\ ooo c = [].
Definition rcv_closed c : Prop := (rx_buf c = None \/ rx_ring_ok c) /\ R ++ rx_contents c `prefix_of` V.

Definition rcv_state c : Prop :=
  match state c with
  | SYN_SENT => rcv_fresh c
  | SYN_RECEIVED | ESTABLISHED => rcv_inv J V R c
  | _ => rcv_closed c
  end.

Definition end_inv (s : tcp_io N) c : Prop := msgs_ok I W s /\ snd_inv c /\ rcv_state c.

Lemma rcv_closed_ext c c' :
  (rx_buf c, rx_head c, rx_tail c, rx_buf_size c) = (rx_buf c', rx_head c', rx_tail c', rx_buf_size c') ->
  rcv_closed c -> rcv_closed c'.
Proof.
  intros E [H1 H2]. injection E as E1 E2 E3 E4. unfold rcv_closed, rx_contents in *.
  rewrite <- E1, <- E2, <- E3, <- E4. split; [|done]. destruct H1 as [H1|H1]; [left; congruence|right].
  eapply rx_ring_frame; [|exact H1]. congruence.
Qed.

Lemma rview_ring c c' : rview c = rview c' ->
  (rx_buf c, rx_head c, rx_tail c, rx_buf_size c) = (rx_buf c', rx_head c', rx_tail c', rx_buf_size c').
Proof. intros E. injection E. congruence. Qed.

Lemma rcv_fresh_closed c : rcv_fresh c -> rcv_closed c.
Proof. intros (H1 & H2 & H3 & H4). split; [by right|]. rewrite H2, H3. apply prefix_nil. Qed.

Lemma rcv_inv_closed c : rcv_inv J V R c -> rcv_closed c.
Proof. intros [H1 H2 H3 H4]. split; [by right|done]. Qed.

Lemma rcv_state_closed c : rcv_state c -> rcv_closed c.
Proof. unfold rcv_state. destruct (state c); auto using rcv_fresh_closed, rcv_inv_closed. Qed.

Lemma rcv_fresh_open c c' : rcv_fresh c -> rview c' = rview (c |> set_rcv_nxt (u32 (J + 1))) -> rcv_inv J V R c'.
Proof.
  intros (H1 & H2 & H3 & H4) E. eapply rcv_inv_ext; [symmetry; exact E|]. 
  assert (Hc : rx_contents (c |> set_rcv_nxt (u32 (J + 1))) = []) by exact H3.
  split; [by eapply rx_ring_frame, H1|..].
  - rewrite Hc, H2. apply prefix_nil.
  - rewrite Hc, H2. cbn. by rewrite Z.add_0_r.
  - cbn. by rewrite H4.
Qed.

Lemma rcv_state_ext c c' : state c = state c' -> rview c = rview c' -> rcv_state c -> rcv_state c'.
Proof.
  intros Es Er. unfold rcv_state. rewrite <- Es.
  assert (Hf : rcv_fresh c -> rcv_fresh c').
  { intros (H1 & H2 & H3 & H4). injection Er as E1 E2 E3 E4 E5 E6.
    destruct (rx_ring_ext c c' ltac:(congruence) H1) as [H5 H6]. unfold rcv_fresh. rewrite H6, <- E6. done. }
  destruct (state c); eauto using rcv_inv_ext, rcv_closed_ext, rview_ring.
Qed.

(** In a state where nothing is received any more. *)
Lemma rcv_state_close c c' : opening c' = false -> rview c = rview c' -> rcv_state c -> rcv_state c'.
Proof.
  intros Ho Er Hc. apply rcv_state_closed in Hc. apply (rcv_closed_ext _ _ (rview_ring _ _ Er)) in Hc.
  unfold rcv_state, opening in *. by destruct (state c').
Qed.

Lemma end_inv_ext s c c' : view c = view c' -> end_inv s c -> end_inv s c'.
Proof.
  intros E (H1 & H2 & H3). injection E as Es E1 E2 E3 R1 R2 R3 R4 R5 R6. split; [done|]. split.
  - eapply snd_inv_ext; [exact Es|..|exact H2]. unfold sview. congruence.
  - eapply rcv_state_ext; [exact Es|..|exact H3]. unfold rview. congruence.
Qed.

Lemma send_ack_ok s c : end_inv s c -> let '(s', c') := tcp_send_ack s c in end_inv s' c'.
Proof.
  intros (H1 & H2 & H3). pose proof (send_ack_view s c) as Hv. pose proof (send_ack_msgs s c H1 (snd_range c H2)) as Hm.
  destruct (tcp_send_ack s c) as [s' c']. cbn [fst snd] in *. eapply end_inv_ext; [symmetry; exact Hv|]. done.
Qed.

Lemma rx_data_ok s g c :
  end_inv s c -> state c = ESTABLISHED -> in_stream J V (si_seq g) (si_payload g) ->
  let '(s', c') := rx_data s g c in end_inv s' c' /\ state c' = ESTABLISHED.
Proof.
  intros (H1 & H2 & H3) Hst Hin. unfold rcv_state in H3. rewrite Hst in H3.
  assert (Hack : forall c1, end_inv s c1 -> state c1 = ESTABLISHED ->
            let '(s', c') := tcp_send_ack s c1 in end_inv s' c' /\ state c' = ESTABLISHED).
  { intros c1 Hc1 Hs1. pose proof (send_ack_ok s c1 Hc1) as Ha. pose proof (send_ack_view s c1) as Hv.
    destruct (tcp_send_ack s c1) as [s' c']. split; [done|]. cbn in Hv. injection Hv as E _. congruence. }
  assert (Hkeep : forall c1, rcv_inv J V R c1 -> state c1 = state c -> sview c1 = sview c -> end_inv s c1 /\ state c1 = ESTABLISHED).
  { intros c1 Hr1 Hs1 Hv1. split; [|congruence]. split; [done|]. split; [by eapply snd_inv_ext, H2|].
    unfold rcv_state. by rewrite Hs1, Hst. }
  unfold rx_data. case_if; [by apply Hkeep|]. case_if.
  - zify_bool. rewrite E0 in Hin.
    set (c1 := rx_store (si_payload g) c |> set_rx_ready true).
    assert (Hr1 : rcv_inv J V R c1) by (eapply rcv_inv_ext; [|by apply rx_store_inv]; done).
    pose proof (rx_drain_inv J V R HV (length (ooo c1)) c1 Hr1) as Hr2.
    destruct (rx_store_frame (si_payload g) c) as (b & t & r & Hf1).
    destruct (rx_drain_frame (length (ooo c1)) c1) as (b' & t' & r' & o' & Hf2).
    set (c2 := rx_drain (length (ooo c1)) c1) in *.
    assert (Hs2 : state c2 = state c /\ sview c2 = sview c) by (rewrite Hf2; unfold c1; by rewrite Hf1).
    clearbody c2. destruct Hs2 as [Hs2 Hv2].
    destruct (Hkeep (c2 |> set_segs_since_ack (u8 (segs_since_ack c2 + 1)))) as [K1 K2]; [by eapply rcv_inv_ext, Hr2|done..|].
    case_if; [by apply Hack|]. case_if; [|done]. split; [by eapply end_inv_ext, K1|done].
  - case_if.
    + destruct (Hkeep (ooo_insert (si_seq g) (si_payload g) c)) as [K1 K2].
      * by apply ooo_insert_inv.
      * unfold ooo_insert. by case_if.
      * unfold ooo_insert. by case_if.
      * by apply Hack.
    + destruct (Hkeep c) as [K1 K2]; [done..|]. by apply Hack.
Qed.

(** ** Receiving *)

(** The new state is no opening state, [snd_nxt] and the received data are as before;
    the queue may have lost acknowledged segments. *)
Lemma end_inv_close s c c' :
  end_inv s c -> opening c' = false -> iss c' = iss c -> snd_nxt c' = snd_nxt c ->
  Forall (piece_ok I W) (inflight c') ->
  (rx_buf c', rx_head c', rx_tail c', rx_buf_size c') = (rx_buf c, rx_head c, rx_tail c, rx_buf_size c) ->
  end_inv s c'.
Proof.
  intros (H1 & H2 & H3) Ho Ei En Hq Er. split; [done|]. split.
  - eapply snd_inv_close; [done..| |exact H2]. rewrite En. apply H2.
  - assert (Hc : rcv_closed c') by (apply (rcv_closed_ext c); [done|by apply rcv_state_closed]).
    unfold rcv_state, opening in *. by destruct (state c').
Qed.

Lemma rx_established_ok s g c :
  end_inv s c -> state c = ESTABLISHED -> in_stream J V (si_seq g) (si_payload g) -> urange 32 (si_ack g) ->
  let '(s', c') := rx_established s g c in end_inv s' c'.
Proof.
  intros Hc Hst Hin Ha. unfold rx_established. case_if.
  { by eapply end_inv_close; [exact Hc|..]; try apply Forall_nil. }
  set (c1 := c |> set_last_rx_tick (timer_ticks s) |> set_keep_probes_sent 0).
  assert (Hc1 : end_inv s c1) by (by eapply end_inv_ext, Hc). assert (Hs1 : state c1 = ESTABLISHED) by done. clearbody c1.
  assert (Hp : forall c2, rx_paws s g c1 = Some c2 -> view c2 = view c1).
  { unfold rx_paws. intros c2. repeat case_if; try done; intros [= <-]; done. }
  destruct (rx_paws s g c1) as [c2|]; [|by apply send_ack_ok]. specialize (Hp c2 eq_refl).
  set (c3 := rx_urgent g (c2 |> set_snd_wnd (scaled_window g c2))).
  assert (Hv3 : view c3 = view c1) by (unfold c3, rx_urgent; rewrite <- Hp; by repeat case_if).
  assert (Hc3 : end_inv s c3) by (by eapply end_inv_ext, Hc1).
  assert (Hs3 : state c3 = ESTABLISHED) by (injection Hv3 as E3 _; congruence). clearbody c3.
  pose proof (rx_ack_ok s g c3) as Hk. destruct (rx_ack s g c3) as [s4 c4].
  destruct Hk as (K1 & K2 & K3 & K4); [by destruct Hc3 as (? & ? & ?)..|done|].
  assert (Hc4 : end_inv s4 c4).
  { split; [done|]. split; [done|]. eapply rcv_state_ext; [symmetry; exact K3|symmetry; exact K4|]. apply Hc3. }
  pose proof (rx_data_ok s4 g c4 Hc4 ltac:(congruence) Hin) as Hd. destruct (rx_data s4 g c4) as [s5 c5].
  destruct Hd as [Hc5 Hs5]. case_if; [|done]. apply send_ack_ok.
  eapply end_inv_close; [exact Hc5|done|done|done|apply Hc5|done].
Qed.

Lemma take_ack_queue g c : snd_inv c -> urange 32 (si_ack g) -> Forall (piece_ok I W) (inflight (take_ack g c)).
Proof. intros Hc Ha. cbn. apply ack_queue_ok; [done|apply Hc]. Qed.

Lemma synack_ok s c w : end_inv s c -> iss c = I -> end_inv (tcp_send_synack_conn s c w) c.
Proof.
  intros (H1 & H2 & H3) Hi. split; [|done]. unfold tcp_send_synack_conn.
  match goal with |- context [tcp_build_options ?s ?c ?f ?m] =>
    pose proof (build_options_msgs s c f m H1) as Hb; destruct (tcp_build_options s c f m) as [s1 o] end.
  apply send_segment_ok; [done|]. cbn. rewrite Hi. apply seg_fits_syn, H2.
Qed.

Lemma syn_ok s c : end_inv s c -> end_inv (tcp_send_syn_packet s c) c.
Proof.
  intros (H1 & H2 & H3). split; [|done]. unfold tcp_send_syn_packet.
  match goal with |- context [tcp_build_options ?s ?c ?f ?m] =>
    pose proof (build_options_msgs s c f m H1) as Hb; destruct (tcp_build_options s c f m) as [s1 o] end.
  apply send_segment_ok; [done|]. cbn. rewrite (snd_iss c H2). apply seg_fits_syn, H2.
Qed.

Lemma adopt_options_view s g c : view (adopt_options s g c) = view c.
Proof. unfold adopt_options. by repeat case_if. Qed.

Lemma rx_syn_sent_ok s g c :
  end_inv s c -> state c = SYN_SENT -> (has (si_flags g) TCP_SYN = true -> si_seq g = J) ->
  let '(s', c') := rx_syn_sent s g c in end_inv s' c'.
Proof.
  intros Hc Hst Hsyn. pose proof Hc as (H1 & H2 & H3). unfold rcv_state in H3. rewrite Hst in H3.
  assert (Hopen : forall c1, (state c1 = ESTABLISHED \/ state c1 = SYN_RECEIVED) -> sview c1 = sview c ->
            rview c1 = rview (c |> set_rcv_nxt (u32 (J + 1))) -> end_inv s c1).
  { intros c1 Hs1 Hv1 Hr1. split; [done|]. pose proof (rcv_fresh_open c c1 H3 Hr1) as Hri. split.
    - destruct H2 as [G1 G2 G3 G4 G5]. injection Hv1 as E1 E2 E3. split; rewrite ?E1, ?E2, ?E3; try done.
      intros _. apply G5. unfold opening. by rewrite Hst.
    - unfold rcv_state. by destruct Hs1 as [-> | ->]. }
  unfold rx_syn_sent. case_if; [|case_if; [|case_if; [|done]]].
  - apply andb_true_iff in E as [Ey _]. case_if; [|done]. rewrite (Hsyn Ey).
    apply send_ack_ok. match goal with |- end_inv s (adopt_options s g ?e) =>
      eapply (end_inv_ext s e); [symmetry; apply adopt_options_view|] end.
    apply Hopen; [by left|done..].
  - eapply end_inv_close; [exact Hc|done|done|done|by apply Forall_nil|done].
  - apply andb_true_iff in E1 as [Ey _]. rewrite (Hsyn Ey). apply synack_ok.
    + apply Hopen; [by right|by repeat case_if..].
    + repeat case_if; apply H2.
Qed.

Lemma rx_syn_received_ok s g c :
  end_inv s c -> state c = SYN_RECEIVED ->
  let '(s', c', _) := rx_syn_received s g c in end_inv s' c'.
Proof.
  intros Hc Hst. pose proof Hc as (H1 & H2 & H3). unfold rcv_state in H3. rewrite Hst in H3.
  unfold rx_syn_received. case_if; [apply synack_ok; [done|apply H2]|].
  set (c1 := if has (si_flags g) TCP_ACK && _ then _ else c).
  assert (Hc1 : end_inv s c1).
  { unfold c1. case_if; [|done]. split; [done|]. split.
    - destruct H2 as [G1 G2 G3 G4 G5]. split; try done. intros _. apply G5. unfold opening. by rewrite Hst.
    - by eapply rcv_inv_ext, H3. }
  clearbody c1. case_if; [|done]. eapply end_inv_close; [exact Hc1|done|done|done|apply Hc1|done].
Qed.

(** Every segment of the peer is handled well. *)
Lemma rx_switch_ok s g c :
  end_inv s c -> in_stream J V (si_seq g) (si_payload g) -> urange 32 (si_ack g) ->
  (has (si_flags g) TCP_SYN = true -> si_seq g = J) ->
  let '(s', c', _) := rx_switch s g c in end_inv s' c'.
Proof.
  intros Hc Hin Ha Hsyn. pose proof Hc as (H1 & H2 & H3). pose proof (take_ack_queue g c H2 Ha) as Hq.
  assert (Hcl : forall c1, opening c1 = false -> iss c1 = iss c -> snd_nxt c1 = snd_nxt c ->
            (inflight c1 = inflight c \/ inflight c1 = inflight (take_ack g c)) ->
            (rx_buf c1, rx_head c1, rx_tail c1, rx_buf_size c1) = (rx_buf c, rx_head c, rx_tail c, rx_buf_size c) -> end_inv s c1).
  { intros c1 Ho Ei En Hi Er. eapply end_inv_close; [exact Hc|done..| |done]. destruct Hi as [-> | ->]; [apply H2|done]. }
  unfold rx_switch. destruct (state c) eqn:Hst; try exact Hc.
  - pose proof (rx_syn_sent_ok s g c Hc Hst Hsyn). by destruct (rx_syn_sent s g c).
  - by apply rx_syn_received_ok.
  - pose proof (rx_established_ok s g c Hc Hst Hin Ha). by destruct (rx_established s g c).
  - assert (let '(s', c') := rx_fin_wait_1 s g c in end_inv s' c') as Hx; [|by destruct (rx_fin_wait_1 s g c)].
    unfold rx_fin_wait_1. repeat case_if; try done; try apply send_ack_ok; (apply Hcl; auto).
  - assert (let '(s', c') := rx_fin_wait_2 s g c in end_inv s' c') as Hx; [|by destruct (rx_fin_wait_2 s g c)].
    unfold rx_fin_wait_2. case_if; [|done]. apply send_ack_ok. apply Hcl; auto.
  - case_if; [|done]. apply Hcl; auto.
  - case_if; [|done]. apply Hcl; auto.
  - assert (let '(s', c') := rx_time_wait s g c in end_inv s' c') as Hx; [|by destruct (rx_time_wait s g c)].
    unfold rx_time_wait. case_if; [|done]. pose proof (send_ack_ok s c Hc) as Hs. destruct (tcp_send_ack s c) as [s' c'].
    by eapply end_inv_ext, Hs.
Qed.

(** ** Closing and the timer *)

Lemma send_plain_ok s c sq ack flags w :
  msgs_ok I W s -> urange 32 sq -> has flags TCP_SYN = false -> msgs_ok I W (fst (tcp_send_segment s c sq ack flags w [])).
Proof. intros Hs Hq Hf. apply send_segment_ok; [done|]. cbn. auto with likeos. Qed.

Lemma queue_inflight_ok s sq flags data c :
  Forall (piece_ok I W) (inflight c) -> piece_ok I W (mk_inflight sq flags 0 (precise_us s) data) ->
  Forall (piece_ok I W) (inflight (tcp_queue_inflight s sq flags data c)).
Proof.
  intros Hq Hp. unfold tcp_queue_inflight. case_if; [done|]. cbn. apply Forall_app. split; [done|]. by apply Forall_singleton.
Qed.

Lemma queue_inflight_frame (s : tcp_io N) sq flags data c :
  exists l t, tcp_queue_inflight s sq flags data c = (c |> set_inflight l |> set_tx_ready t).
Proof.
  unfold tcp_queue_inflight. case_if; [by exists (inflight c), false|]. by eexists _, _.
Qed.

Lemma rcv_state_ring c c' :
  opening c' = false ->
  (rx_buf c, rx_head c, rx_tail c, rx_buf_size c) = (rx_buf c', rx_head c', rx_tail c', rx_buf_size c') ->
  rcv_state c -> rcv_state c'.
Proof.
  intros Ho Er Hc. apply rcv_state_closed, (rcv_closed_ext _ _ Er) in Hc. unfold rcv_state, opening in *. by destruct (state c').
Qed.

Lemma send_fin_ok s c st :
  end_inv s c -> (forall c, state c = st -> opening c = false) -> let '(s', c') := send_fin s st c in end_inv s' c'.
Proof.
  intros (H1 & H2 & H3) Hst. unfold send_fin.
  pose proof (send_plain_ok s c (snd_nxt c) (rcv_nxt c) (Z.lor TCP_FIN TCP_ACK) (u16 (rcv_wnd c)) H1 (snd_range c H2) eq_refl) as Hs.
  destruct (tcp_send_segment _ _ _ _ _ _ _) as [s1 rc]. cbn [fst] in Hs. split; [done|]. case_if.
  - assert (Hq := queue_inflight_ok s1 (snd_nxt c) (Z.lor TCP_FIN TCP_ACK) [] c (snd_queue c H2)).
    destruct (queue_inflight_frame s1 (snd_nxt c) (Z.lor TCP_FIN TCP_ACK) [] c) as (l & t & Hf). rewrite Hf in *.
    specialize (Hq ltac:(split_and!; [apply H2|done|cbn; lia|apply in_stream_nil, H2])).
    split; [|by eapply rcv_state_ring, H3; [apply Hst|]].
    apply (snd_inv_close c); [by apply Hst|done|exact Hq|apply u32_range|exact H2].
  - split; [|by eapply rcv_state_ring, H3; [apply Hst|]].
    apply (snd_inv_close c); [by apply Hst|done|apply H2|apply H2|exact H2].
Qed.

Lemma free_conn_ok s c : end_inv s c -> end_inv s (free_conn c).
Proof.
  intros (H1 & H2 & H3). split; [done|]. unfold free_conn. case_if; [done|]. split.
  - apply (snd_inv_close c); [done|done|apply H2|apply H2|exact H2].
  - apply rcv_state_closed in H3 as [_ Hp]. split; [by left|]. cbn. rewrite app_nil_r. by apply prefix_app_l in Hp.
Qed.

Lemma close_conn_ok s c : end_inv s c -> let '(s', c') := close_conn s c in end_inv s' c'.
Proof.
  intros Hc. unfold close_conn.
  assert (Hcl : end_inv s (free_conn (c |> set_state CLOSED))).
  { apply free_conn_ok. eapply end_inv_close; [exact Hc|done|done|done|apply Hc|done]. }
  assert (Hd : end_inv s (c |> set_detached true)) by (by eapply end_inv_ext, Hc).
  destruct (state c); try exact Hcl; try exact Hd; try (by apply free_conn_ok).
  - apply send_fin_ok; [done|]. intros c' Hs. unfold opening. by rewrite Hs.
  - apply send_fin_ok; [done|]. intros c' Hs. unfold opening. by rewrite Hs.
  - apply send_fin_ok; [done|]. intros c' Hs. unfold opening. by rewrite Hs.
Qed.

Lemma rst_ok s dev a b p q sq ack : msgs_ok I W s -> urange 32 sq -> msgs_ok I W (tcp_send_rst s dev a b p q sq ack).
Proof. intros Hs Hq. apply send_segment_ok; [done|]. cbn. by apply seg_fits_plain. Qed.

Lemma abort_conn_ok s c : end_inv s c -> let '(s', c') := abort_conn s c in end_inv s' c'.
Proof.
  intros Hc. unfold abort_conn. apply free_conn_ok.
  assert (Hcl : end_inv s (c |> set_state CLOSED)).
  { eapply end_inv_close; [exact Hc|done|done|done|apply Hc|done]. }
  destruct Hcl as (H1 & H2 & H3). split; [|done]. destruct (conn_dev c); [|done]. case_if; [|done].
  apply rst_ok; [done|]. apply Hc.
Qed.

Lemma timer_retransmit_ok s c : end_inv s c -> let '(s', c') := timer_retransmit s c in end_inv s' c'.
Proof.
  intros Hc. unfold timer_retransmit. destruct (inflight c) as [|e l] eqn:El; [done|]. case_if; [done|]. case_if.
  { eapply end_inv_close; [exact Hc|done|done|done|by apply Forall_nil|done]. }
  set (c1 := set_rto_backoff _ _). assert (Hv : view c1 = view c) by done. assert (Ei : inflight c1 = e :: l) by exact El.
  assert (Hc1 : end_inv s c1) by (by eapply end_inv_ext, Hc). clearbody c1.
  pose proof Hc1 as (H1 & H2 & H3). pose proof (snd_queue c1 H2) as Hq. rewrite Ei in Hq. apply Forall_cons in Hq as [He Hl].
  assert (Hup : forall s' l' c2, msgs_ok I W s' -> Forall (piece_ok I W) l' -> view c2 = view (c1 |> set_inflight l') -> end_inv s' c2).
  { intros s' l' c2 Hm Hl' Hv2. eapply end_inv_ext; [symmetry; exact Hv2|]. split; [done|]. split.
    - destruct H2 as [G1 G2 G3 G4 G5]. by split.
    - by eapply rcv_state_ext, H3. }
  case_if.
  - unfold tcp_drop_first_inflight. rewrite Ei. by apply (Hup s l).
  - unfold tcp_send_segment.
    match goal with |- context [tcp_send_segment_ex ?s ?d ?x] =>
      pose proof (send_segment_ok s d x H1) as Hx; destruct (tcp_send_segment_ex s d x) as [s2 rc] end.
    eapply (Hup s2); [apply Hx; cbn; by apply seg_fits_piece| |reflexivity]. constructor; [exact He|done].
Qed.

Lemma timer_keepalive_ok s c : end_inv s c -> let '(s', c') := timer_keepalive s c in end_inv s' c'.
Proof.
  intros Hc. pose proof Hc as (H1 & H2 & H3). unfold timer_keepalive.
  assert (Hp : msgs_ok I W (keepalive_probe s c)) by (apply send_plain_ok; [done|apply u32_range|done]).
  assert (Hk : end_inv (keepalive_probe s c) c) by (by split).
  repeat case_if; try done; try (by eapply end_inv_ext, Hk).
  eapply end_inv_close; [exact Hc|done|done|done|by apply Forall_nil|done].
Qed.

Lemma timer_syn_ok s c : end_inv s c -> let '(s', c', _) := timer_syn s c in end_inv s' c'.
Proof.
  intros Hc. unfold timer_syn. case_if; [|done]. case_if.
  - eapply end_inv_close; [exact Hc|done|done|done|by apply Forall_nil|done].
  - by eapply end_inv_ext, syn_ok.
Qed.

Lemma timer_synack_ok s c : end_inv s c -> let '(s', c', _) := timer_synack s c in end_inv s' c'.
Proof.
  intros Hc. unfold timer_synack. case_if; [|done]. case_if.
  - eapply end_inv_close; [exact Hc|done|done|done|apply Hc|done].
  - eapply end_inv_ext, synack_ok; [done|done|apply Hc].
Qed.

Lemma timer_conn_ok s c : end_inv s c -> let '(s', c', _) := timer_conn s c in end_inv s' c'.
Proof.
  intros Hc. unfold timer_conn. case_if.
  { eapply end_inv_close; [exact Hc|done|done|done|apply Hc|done]. }
  match goal with |- context [if ?b then tcp_send_ack s c else _] =>
    assert (Ha : let '(s', c') := (if b then tcp_send_ack s c else (s, c)) in end_inv s' c')
      by (destruct b; [by apply send_ack_ok|done]);
    destruct (if b then tcp_send_ack s c else (s, c)) as [s1 c1] end.
  set (c2 := if cork c1 && _ && _ then _ else c1).
  assert (Hc2 : end_inv s1 c2) by (unfold c2; case_if; [by eapply end_inv_ext, Ha|done]). clearbody c2.
  pose proof (timer_syn_ok s1 c2 Hc2) as H3. destruct (timer_syn s1 c2) as [[s3 c3] [|]]; [done|].
  pose proof (timer_synack_ok s3 c3 H3) as H4. destruct (timer_synack s3 c3) as [[s4 c4] [|]]; [done|].
  assert (H5 : let '(s', c') := (if may_retransmit c4 then timer_retransmit s4 c4 else (s4, c4)) in end_inv s' c')
    by (case_if; [by apply timer_retransmit_ok|done]).
  destruct (if may_retransmit c4 then _ else _) as [s5 c5].
  pose proof (timer_keepalive_ok s5 c5 H5) as H6. by destruct (timer_keepalive s5 c5).
Qed.

End Ops.

(** ** Sending and reading data *)

Section Data.
Context {N : Type} `{IpLayer N} `{!IpLaws N}.
Implicit Types (s : tcp_io N) (c : tcp_conn) (W : list Z).
Variable I : Z.

Lemma snd_inv_mono W X c : snd_inv I W c -> opening c = false -> snd_inv I (W ++ X) c.
Proof.
  intros [H1 H2 H3 H4 H5] Ho. split; try done; [|congruence]. eapply Forall_impl; [done|]. intros e. apply piece_ok_mono.
Qed.

(** One more piece is sent and queued. *)
Lemma snd_inv_push W s flags data c :
  snd_inv I W c -> state c = ESTABLISHED -> has flags TCP_SYN = false -> (length data <= 1460)%nat ->
  in_stream I (W ++ data) (snd_nxt c) data /\
  forall c', c' = (tcp_queue_inflight s (snd_nxt c) flags data c |> set_snd_nxt (u32 (snd_nxt c + Z.of_nat (length data)))) ->
    snd_inv I (W ++ data) c' /\ state c' = state c /\ rview c' = rview c.
Proof.
  intros [H1 H2 H3 H4 H5] Hst Hfl Hlen.
  assert (Hn : snd_nxt c = u32 (I + 1 + Z.of_nat (length W))) by (apply H5; unfold opening; by rewrite Hst).
  assert (Hin : in_stream I (W ++ data) (snd_nxt c) data).
  { exists (length W). split; [done|]. by rewrite drop_app_length, firstn_all. }
  split; [done|]. intros c' ->.
  assert (Hq : Forall (piece_ok I (W ++ data)) (inflight (tcp_queue_inflight s (snd_nxt c) flags data c))).
  { apply queue_inflight_ok; [|by split_and!]. eapply Forall_impl; [done|]. intros e. apply piece_ok_mono. }
  destruct (queue_inflight_frame s (snd_nxt c) flags data c) as (l & t & Hf). rewrite Hf in *.
  split; [|done]. split; try done; [apply u32_range|]. intros _. cbn. rewrite Hn, u32_add_l, length_app. f_equal. lia.
Qed.

Lemma send_failed s dev x s' rc : tcp_send_segment_ex s dev x = (s', rc) -> rc <> 0 -> trace s' = trace s.
Proof.
  unfold tcp_send_segment_ex. destruct (tcp_message x) as [m|]; [|by intros [= <- <-]].
  destruct (ip_send _ _ _ _ _) as [n r]. intros [= <- <-] Hr. cbn. rewrite (proj2 (Z.eqb_neq _ _) Hr). apply app_nil_r.
Qed.

(** [k] bytes of [data] were sent between [(s, c)] and [(s', c')]. *)
Definition sent_some W c data (k : nat) s' c' : Prop :=
  (k <= length data)%nat /\ msgs_ok I (W ++ take k data) s' /\ snd_inv I (W ++ take k data) c' /\
  state c' = state c /\ rview c' = rview c.

Lemma sent_none W s c data s' c' :
  snd_inv I W c -> msgs_ok I W s -> trace s' = trace s -> view c' = view c -> sent_some W c data 0 s' c'.
Proof.
  intros Hc Hs Ht Hv. injection Hv as Es E1 E2 E3 R1 R2 R3 R4 R5 R6. unfold sent_some. cbn [take]. rewrite app_nil_r.
  split_and!; [lia|unfold msgs_ok; by rewrite Ht| |done|unfold rview; congruence].
  eapply snd_inv_ext; [symmetry; exact Es| |exact Hc]. unfold sview. congruence.
Qed.

(** What the loop of [tcp_send_data] sends extends the stream. *)
Lemma send_loop_ok fuel s c W mss flight budget sent data :
  snd_inv I W c -> msgs_ok I W s -> state c = ESTABLISHED -> 0 <= mss <= 1460 -> 0 <= budget < 2 ^ 32 ->
  0 <= sent -> sent + Z.of_nat (length data) <= 65535 ->
  let '(s', c', r) := send_loop fuel s c mss flight budget sent data in
  exists k, r = sent + Z.of_nat k /\ sent_some W c data k s' c'.
Proof.
  revert s c W flight budget sent data. induction fuel as [|fuel IH]; intros s c W flight budget sent data Hc Hs Hst Hmss Hbud Hsent Hlen.
  all: assert (Hstop : forall s1 c1, trace s1 = trace s -> view c1 = view c ->
    exists k, sent = sent + Z.of_nat k /\ sent_some W c data k s1 c1)
    by (intros; exists 0%nat; split; [lia|by apply (sent_none W s)]).
  all: cbn [send_loop]. 1: by apply Hstop.
  case_if; [by apply Hstop|]. case_if; [by apply Hstop|]. case_if; [apply Hstop; [done|by case_if]|].
  set (sl := if budget <? _ then _ else _).
  assert (Hsl : 0 <= sl <= Z.of_nat (length data) /\ sl <= 1460 /\ sl <= budget).
  { unfold sl. destruct (Z.ltb_spec mss (Z.of_nat (length data)));
      match goal with |- context [budget <? ?x] => destruct (Z.ltb_spec budget x) end; rewrite ?u16_small by lia; lia. }
  clearbody sl. destruct Hsl as (Hsl1 & Hsl2 & Hsl3). case_if; [by apply Hstop|].
  set (c1 := if cork c && _ && _ then _ else c). assert (Hv1 : view c1 = view c) by (unfold c1; by case_if). clearbody c1.
  case_if; [by apply Hstop|].
  set (c2 := if cork c1 && _ then _ else c1). assert (Hv2 : view c2 = view c) by (unfold c2; rewrite <- Hv1; by case_if).
  clearbody c2. clear c1 Hv1 E3.
  set (flags := Z.lor TCP_ACK TCP_PSH). pose proof (build_options_trace s c2 flags 0) as Ht.
  destruct (tcp_build_options s c2 flags 0) as [s1 o]. cbn [fst] in Ht. set (seg := take (Z.to_nat sl) data).
  assert (Hseg : Z.of_nat (length seg) = sl) by (unfold seg; rewrite length_take; lia).
  pose proof (sent_none W s c data s c2 Hc Hs eq_refl Hv2) as (_ & _ & Hc2 & Es & Er). cbn [take] in Hc2. rewrite app_nil_r in Hc2.
  match goal with |- context [tcp_send_segment_ex s1 ?d ?x] =>
    pose proof (send_failed s1 d x) as Hfail; pose proof (send_segment_ok I (W ++ seg) s1 d x) as Hok;
    destruct (tcp_send_segment_ex s1 d x) as [s2 rc] end.
  case_if; [apply Hstop; [rewrite <- Ht; apply (Hfail s2 rc); [done|zify_bool; lia]|done]|].
  destruct (snd_inv_push W s2 flags seg c2 Hc2 ltac:(congruence) eq_refl ltac:(lia)) as [Hin Hpush].
  assert (Hs2 : msgs_ok I (W ++ seg) s2).
  { apply Hok; [unfold msgs_ok; rewrite Ht; by apply msgs_ok_mono|]. cbn. split_and!; [apply Hc2|done|done]. }
  destruct (queue_inflight_frame s2 (snd_nxt c2) flags seg c2) as (l & t & Hf).
  match goal with |- context [send_loop fuel s2 ?e] => set (c3 := e) end.
  destruct (Hpush c3) as (Hc3 & Es3 & Er3); [unfold c3; rewrite Hf, Hseg; done|]. clearbody c3. clear Hf Hpush.
  rewrite (u32_small (budget - sl)), u16_small by lia.
  specialize (IH s2 c3 (W ++ seg) (u32 (flight + sl)) (budget - sl) (sent + sl) (drop (Z.to_nat sl) data) Hc3 Hs2
    ltac:(congruence) Hmss ltac:(lia) ltac:(lia) ltac:(rewrite length_drop; lia)).
  destruct (send_loop fuel s2 c3 _ _ _ _ _) as [[s4 c4] r]. destruct IH as (k & -> & Hk1 & Hk2 & Hk3 & Hk4 & Hk5).
  rewrite length_drop in Hk1. exists (Z.to_nat sl + k)%nat. split; [lia|].
  rewrite <- app_assoc in Hk2, Hk3. unfold seg in Hk2, Hk3. rewrite take_take_drop in Hk2, Hk3.
  split_and!; [lia|done|done|congruence|congruence].
Qed.

Lemma clamp_mss_range mss : 536 <= clamp_mss mss <= 1460.
Proof. unfold clamp_mss, TCP_MSS. repeat case_if; zify_bool; lia. Qed.

Lemma flightsize_nonneg c : 0 <= flightsize c.
Proof.
  unfold flightsize. destruct (inflight c) as [|x l _] using rev_ind; [done|]. rewrite fold_left_app. apply u32_range.
Qed.

(** [tcp_send_data] appends the bytes it reports to the stream. *)
Lemma send_data_ok s c W data :
  snd_inv I W c -> msgs_ok I W s -> Z.of_nat (length data) <= 65535 ->
  let '(s', c', r) := tcp_send_data s c data in sent_some W c data (Z.to_nat r) s' c' /\ -1 <= r.
Proof.
  intros Hc Hs Hlen. unfold tcp_send_data. case_if; [split; [by apply (sent_none W s)|lia]|]. zify_bool.
  apply bool_decide_eq_true in E. case_if; [split; [by apply (sent_none W s)|lia]|].
  set (mss := if ts_enabled c && _ then _ else _).
  assert (Hmss : 0 <= mss <= 1460).
  { assert (Hm : 536 <= tcp_effective_mss c <= 1460) by apply clamp_mss_range. unfold mss. case_if; lia. }
  set (budget := if flightsize c <? _ then _ else 0).
  assert (Hbud : 0 <= budget < 2 ^ 32).
  { pose proof (flightsize_nonneg c). unfold budget. pose proof (u32_range (cwnd c * mss)).
    generalize (if negb (snd_wnd c =? 0) then snd_wnd c else mss). intros w.
    destruct (Z.ltb_spec (u32 (cwnd c * mss)) w); case_if; zify_bool; lia. }
  clearbody mss budget. pose proof (send_loop_ok (S (length data)) s c W mss (flightsize c) budget 0 data Hc Hs E Hmss Hbud ltac:(lia) ltac:(lia)) as Hl.
  destruct (send_loop _ _ _ _ _ _ _ _) as [[s1 c1] r]. destruct Hl as (k & -> & H1 & H2 & H3 & H4 & H5). rewrite Z.add_0_l.
  assert (Hv : forall c2, view c2 = view c1 -> sent_some W c data k s1 c2).
  { intros c2 Hv. injection Hv as Es E1 E2 E3 R1 R2 R3 R4 R5 R6. split_and!; [done|done| |congruence|unfold rview in *; congruence].
    eapply snd_inv_ext; [symmetry; exact Es| |exact H3]. unfold sview. congruence. }
  destruct (Z.eqb_spec (Z.of_nat k) 0) as [Hk|Hk].
  - destruct k; [|lia]. split; [by apply Hv|lia].
  - split; [rewrite Nat2Z.id; by apply Hv|lia].
Qed.

(** [tcp_send_oob] appends its byte if it succeeds. *)
Lemma send_oob_ok s c W b :
  snd_inv I W c -> msgs_ok I W s ->
  let '(s', c', r) := tcp_send_oob s c b in sent_some W c [b] (if r =? 0 then 1 else 0) s' c'.
Proof.
  intros Hc Hs. unfold tcp_send_oob. case_if; [by apply (sent_none W s)|]. zify_bool. apply bool_decide_eq_true in E.
  set (flags := Z.lor (Z.lor TCP_ACK TCP_URG) TCP_PSH).
  pose proof (oob_fields s c b (snd_range I W c Hc)) as Hf. fold flags in Hf.
  pose proof (build_options_trace s c flags 0) as Ht. destruct (tcp_build_options s c flags 0) as [s1 o]. cbn [fst snd] in *.
  destruct (ip_send _ _ _ _ _) as [n rv]. set (s2 := log_send n rv (remote_ip c) (oob_message c o b) s1).
  destruct (snd_inv_push W s2 flags [b] c Hc E eq_refl ltac:(cbn; lia)) as [Hin Hpush].
  case_if; rewrite E0.
  - set (c1 := tcp_queue_inflight _ _ _ _ _).
    destruct (Hpush _ eq_refl) as (P1 & P2 & P3).
    set (c2 := tcp_queue_inflight s2 (snd_nxt c) flags [b] c |> set_snd_nxt (u32 (snd_nxt c + Z.of_nat (length [b])))) in *.
    assert (Hv : view c1 = view c2).
    { unfold c1, c2. change (Z.of_nat (length [b])) with 1.
      cbn [snd_nxt set_snd_nxt set_snd_up].
      replace (u32 (u32 (snd_nxt c + 1) - 1)) with (snd_nxt c).
      - unfold tcp_queue_inflight. change (may_queue (c |> set_snd_up (u32 (snd_nxt c + 1)) |> set_snd_nxt (u32 (snd_nxt c + 1)))) with (may_queue c).
        by case_if.
      - pose proof (snd_range I W c Hc) as Hr. unfold urange in Hr. rewrite <- Z.add_opp_r, u32_add_l.
        rewrite <- (u32_small (snd_nxt c)) at 1 by lia. f_equal. lia. }
    clearbody c1 c2. injection Hv as Es E1 E2 E3 R1 R2 R3 R4 R5 R6.
    split_and!; [cbn; lia| |eapply snd_inv_ext; [symmetry; exact Es| |exact P1]; unfold sview; congruence|congruence|unfold rview in *; congruence].
    apply log_send_ok; [unfold msgs_ok; rewrite Ht; by apply msgs_ok_mono|]. intros _ g Hg.
    destruct Hf as (g' & Hg' & F1 & F2 & F3 & _). assert (g' = g) as -> by congruence. rewrite F1, F2, F3. done.
  - apply (sent_none W s); [done|done| |done]. unfold s2. cbn. rewrite E0, app_nil_r. done.
Qed.

End Data.

(** Reading takes bytes from the ring. *)
Lemma sock_recv_state J V R len peek c c' bs :
  rcv_state J V R c -> 0 <= len < 2 ^ 32 -> sock_recv_copy len peek c = (c', Some bs) ->
  rcv_state J V (if peek then R else R ++ bs) c' /\ state c' = state c /\ sview c' = sview c.
Proof.
  intros Hc Hlen Hrd.
  assert (active c = true /\ rx_buf c <> None) as [Ha Hb].
  { unfold sock_recv_copy in Hrd. destruct (active c), (rx_buf c); naive_solver. }
  assert (Hr : rx_ring_ok c) by (destruct (rcv_state_closed _ _ _ _ Hc) as [[?|?] _]; done).
  destruct (sock_recv_ok len peek c Hr Ha Hlen) as (n & h & r & Hn & Heq & Hr' & Hcon).
  rewrite Heq in Hrd. injection Hrd as <- <-. set (c' := set_rx_ready r (set_rx_head h c)) in *.
  split; [|done].
  assert (Happ : (if peek then R else R ++ take n (rx_contents c)) ++ rx_contents c' = R ++ rx_contents c).
  { rewrite Hcon. destruct peek; [done|]. by rewrite <- app_assoc, take_drop. }
  assert (Es : state c' = state c) by done. assert (En : rcv_nxt c' = rcv_nxt c) by done.
  assert (Eo : ooo c' = ooo c) by done. clearbody c'.
  unfold rcv_state in *. rewrite Es. destruct (state c); try (destruct Hc as [H1 H2]; split; [by right|by rewrite Happ]).
  - destruct Hc as (H1 & H2 & H3 & H4). rewrite H3, take_nil in *. rewrite drop_nil in Hcon.
    split_and!; [done| |by destruct peek|congruence]. rewrite H2. by destruct peek.
  - destruct Hc as [H1 H2 H3 H4]. split; [done|by rewrite Happ|by rewrite Happ, En|by rewrite Eo].
  - destruct Hc as [H1 H2 H3 H4]. split; [done|by rewrite Happ|by rewrite Happ, En|by rewrite Eo].
Qed.

(** ** The two end points and the network *)

Inductive side := Left | Right.

#[global] Instance side_eq_dec : EqDecision side.
Proof. solve_decision. Defined.

Definition other (x : side) : side := match x with Left => Right | Right => Left end.

Definition fset {A} (x : side) (v : A) (f : side -> A) : side -> A := fun y => if decide (y = x) then v else f y.

(** [p_conn] is [None] as long as a listening socket waits for the SYN; [p_written]
    and [p_read] are the bytes the two applications have written and read. *)
Record pair_state (N : Type) := mk_pair {
  p_io : side -> tcp_io N;
  p_conn : side -> option tcp_conn;
  p_written : side -> list Z;
  p_read : side -> list Z;
}.
Arguments mk_pair {N}.
Arguments p_io {N}.
Arguments p_conn {N}.
Arguments p_written {N}.
Arguments p_read {N}.

Section System.
Context {N : Type} `{IpLayer N} `{!IpLaws N}.
Implicit Types (s : tcp_io N) (c : tcp_conn) (p : pair_state N).

(** The operations of an end point itself, with the bytes they write and read: time
    passes; the owner changes options and the like; data is sent and read; the
    connection is closed, aborted, freed; the timer fires. *)
Inductive act s c : tcp_io N -> tcp_conn -> list Z -> list Z -> Prop :=
| A_clock ticks us : act s c (set_clock ticks us s) c [] []
| A_env c' : view c' = view c -> act s c s c' [] []
| A_send data s' c' r :
    Z.of_nat (length data) <= 65535 -> tcp_send_data s c data = (s', c', r) -> act s c s' c' (take (Z.to_nat r) data) []
| A_oob b s' c' r : tcp_send_oob s c b = (s', c', r) -> act s c s' c' (if r =? 0 then [b] else []) []
| A_recv len peek c' bs :
    0 <= len < 2 ^ 32 -> sock_recv_copy len peek c = (c', Some bs) -> act s c s c' [] (if peek then [] else bs)
| A_close s' c' : close_conn s c = (s', c') -> act s c s' c' [] []
| A_abort s' c' : abort_conn s c = (s', c') -> act s c s' c' [] []
| A_tick s' c' free : timer_conn s c = (s', c', free) -> act s c s' c' [] []
| A_free : act s c s (free_conn c) [] [].

Definition put (x : side) s c (w r : list Z) p : pair_state N :=
  mk_pair (fset x s (p_io p)) (fset x (Some c) (p_conn p)) (fset x (p_written p x ++ w) (p_written p))
    (fset x (p_read p x ++ r) (p_read p)).

Definition put_io (x : side) s p : pair_state N := mk_pair (fset x s (p_io p)) (p_conn p) (p_written p) (p_read p).

(** A message of the other side, possibly late or for the second time. *)
Definition arrives p (x : side) (g : seg_in) : Prop :=
  exists dst m, (dst, m) ∈ trace (p_io p (other x)) /\ tcp_parse m = Some g.

(** The first two assignments of a new connection, before it is published. *)
Definition fresh_conn s (rx : list Z) c : tcp_conn := init_conn (timer_ticks s) rx c.

Inductive step p : pair_state N -> Prop :=
| P_act x c s' c' w r :
    p_conn p x = Some c -> act (p_io p x) c s' c' w r -> step p (put x s' c' w r p)
| P_rx x c g src local s' c' what :
    p_conn p x = Some c -> arrives p x g -> rx_matches src local g c = true ->
    rx_switch (p_io p x) g c = (s', c', what) ->
    step p (put x s' (if release what then free_conn c' else c') [] [] p)
| P_open x c0 rx g dev local src l c :
    p_conn p x = None -> arrives p x g -> has (si_flags g) TCP_SYN && negb (has (si_flags g) TCP_ACK) = true ->
    Z.of_nat (length rx) = TCP_RX_BUF_SIZE ->
    c = passive_open (p_io p x) dev local src g l (fresh_conn (p_io p x) rx c0) ->
    step p (put x (tcp_send_synack_conn (p_io p x) c (tcp_advertised_window c)) c [] [] p)
| P_rst x g dev local src :
    arrives p x g -> (forall c, p_conn p x = Some c -> active c = false) ->
    step p (put_io x (rst_reply (p_io p x) dev local src g) p)
| P_clock x ticks us : step p (put_io x (set_clock ticks us (p_io p x)) p).

(** An end point after [tcp_connect] or [tcp_listen]. *)
Definition init_end (x : side) p : Prop :=
  p_written p x = [] /\ p_read p x = [] /\
  ((p_conn p x = None /\ trace (p_io p x) = []) \/
   exists s dev local dst src_port dst_port rx c0 c,
     trace s = [] /\ Z.of_nat (length rx) = TCP_RX_BUF_SIZE /\
     c = active_open s dev local dst src_port dst_port (fresh_conn s rx c0) /\
     p_conn p x = Some c /\ p_io p x = tcp_send_syn_packet s c).

Definition reachable p : Prop := exists p0, (forall x, init_end x p0) /\ rtc step p0 p.

(** What the peer of [x] has received so far: read, or waiting in the ring. *)
Definition received p (x : side) : list Z := p_read p x ++ default [] (rx_contents <$> p_conn p x).

(** ** The invariant *)

Definition linked c : bool := match state c with SYN_RECEIVED | ESTABLISHED => true | _ => false end.

Definition quiet_msg (m : list Z) : Prop :=
  forall g, tcp_parse m = Some g -> si_payload g = [] /\ has (si_flags g) TCP_SYN = false.

Definition side_inv (I : side -> Z) p (x : side) : Prop :=
  match p_conn p x with
  | Some c =>
      end_inv (I x) (p_written p x) (I (other x)) (p_written p (other x)) (p_read p x) (p_io p x) c /\
      (linked c = true -> p_conn p (other x) <> None)
  | None => p_written p x = [] /\ p_read p x = [] /\ Forall (fun '(_, m) => quiet_msg m) (trace (p_io p x))
  end.

Definition bounded p : Prop := forall x, Z.of_nat (length (p_written p x)) < 2 ^ 32.

Lemma fset_eq {A} x (v : A) f : fset x v f x = v.
Proof. unfold fset. by rewrite decide_True. Qed.

Lemma fset_other {A} x (v : A) f : fset x v f (other x) = f (other x).
Proof. unfold fset. by destruct x. Qed.

Lemma quiet_ok I W m : quiet_msg m -> msg_ok I W m.
Proof.
  intros Hq g Hg. destruct (Hq g Hg) as [-> Hs]. split; [|congruence]. apply in_stream_nil.
  by destruct (tcp_parse_range _ _ Hg).
Qed.

Lemma rcv_state_mono J V X R c : rcv_state J V R c -> rcv_state J (V ++ X) R c.
Proof.
  unfold rcv_state. destruct (state c); auto using rcv_inv_mono; intros [H1 H2]; split; try done; by apply prefix_app_r.
Qed.

Lemma end_inv_mono I W J V X R s c : end_inv I W J V R s c -> end_inv I W J (V ++ X) R s c.
Proof. intros (H1 & H2 & H3). split; [done|]. split; [done|]. by apply rcv_state_mono. Qed.

(** ** Steps preserve it *)

Lemma linked_view c c' : view c' = view c -> linked c' = linked c.
Proof. intros E. injection E as Es _. unfold linked. by rewrite Es. Qed.

(** The timer leaves the state as it is or closes the connection. *)
Lemma timer_conn_state s c : let '(_, c', _) := timer_conn s c in state c' = state c \/ state c' = CLOSED.
Proof.
  unfold timer_conn. case_if; [by right|].
  match goal with |- context [if ?b then tcp_send_ack s c else _] =>
    assert (H1 : state (snd (if b then tcp_send_ack s c else (s, c))) = state c);
    [|destruct (if b then tcp_send_ack s c else (s, c)) as [s1 c1]; cbn [snd] in H1] end.
  { case_if; [|done]. pose proof (send_ack_view s c) as Hv. by injection Hv as Es _. }
  set (c2 := if cork c1 && _ && _ then _ else c1). assert (H2 : state c2 = state c) by (unfold c2; by case_if). clearbody c2.
  assert (H3 : let '(_, c', f) := timer_syn s1 c2 in (f = true /\ state c' = CLOSED) \/ (f = false /\ state c' = state c)).
  { unfold timer_syn. repeat case_if; cbn; auto. }
  destruct (timer_syn s1 c2) as [[s3 c3] f3]. destruct H3 as [[-> H3]|[-> H3]]; [by right|].
  assert (H4 : let '(_, c', f) := timer_synack s3 c3 in (f = true /\ state c' = CLOSED) \/ (f = false /\ state c' = state c)).
  { unfold timer_synack. repeat case_if; cbn; auto. }
  destruct (timer_synack s3 c3) as [[s4 c4] f4]. destruct H4 as [[-> H4]|[-> H4]]; [by right|].
  assert (H5 : let '(_, c') := if may_retransmit c4 then timer_retransmit s4 c4 else (s4, c4) in
            state c' = state c \/ state c' = CLOSED).
  { case_if; [|by left]. unfold timer_retransmit. destruct (inflight c4) as [|e l] eqn:El; [by left|].
    case_if; [by left|]. case_if; [by right|]. case_if.
    - unfold tcp_drop_first_inflight. cbn. rewrite El. by left.
    - destruct (tcp_send_segment _ _ _ _ _ _ _). by left. }
  destruct (if may_retransmit c4 then _ else _) as [s5 c5].
  assert (H6 : let '(_, c') := timer_keepalive s5 c5 in state c' = state c5 \/ state c' = CLOSED).
  { unfold timer_keepalive. repeat case_if; auto. }
  destruct (timer_keepalive s5 c5) as [s6 c6]. destruct H6 as [->|]; [done|by right].
Qed.

Lemma send_fin_state s st c : state (snd (send_fin s st c)) = st.
Proof. unfold send_fin. by destruct (tcp_send_segment _ _ _ _ _ _ _). Qed.

Lemma free_conn_linked c : linked (free_conn c) = true -> linked c = true.
Proof. unfold free_conn. by case_if. Qed.

(** Only a SYN links a connection to its peer. *)
Lemma rx_switch_linked s g c :
  let '(_, c', _) := rx_switch s g c in linked c' = true -> linked c = true \/ has (si_flags g) TCP_SYN = true.
Proof.
  assert (Hack : forall s c1, linked (snd (tcp_send_ack s c1)) = linked c1) by (intros; apply linked_view, send_ack_view).
  unfold rx_switch. destruct (state c) eqn:Es; try (intros Hl; left; exact Hl).
  - destruct (rx_syn_sent s g c) as [s1 c1] eqn:Er. intros Hl. unfold rx_syn_sent in Er.
    destruct (has (si_flags g) TCP_SYN); [by right|]. cbn [andb] in Er. left.
    destruct (has (si_flags g) TCP_RST); injection Er as <- <-; [done|exact Hl].
  - destruct (rx_syn_received s g c) as [[s1 c1] w]. left. unfold linked. by rewrite Es.
  - destruct (rx_established s g c). left. unfold linked. by rewrite Es.
  - assert (Hf : linked (snd (rx_fin_wait_1 s g c)) = false).
    { unfold rx_fin_wait_1. repeat case_if; rewrite ?Hack; try done. unfold linked. cbn. by rewrite Es. }
    destruct (rx_fin_wait_1 s g c). cbn in Hf |- *. congruence.
  - assert (Hf : linked (snd (rx_fin_wait_2 s g c)) = false).
    { unfold rx_fin_wait_2. case_if; rewrite ?Hack; try done. unfold linked. cbn. by rewrite Es. }
    destruct (rx_fin_wait_2 s g c). cbn in Hf |- *. congruence.
  - case_if; [done|]. by left.
  - case_if; [done|]. by left.
  - assert (Hf : linked (snd (rx_time_wait s g c)) = false).
    { unfold rx_time_wait. case_if; [|unfold linked; cbn; by rewrite Es]. pose proof (Hack s c) as Hk.
      destruct (tcp_send_ack s c) as [s1 c1]. cbn in *. unfold linked in *. cbn. rewrite Hk. by rewrite Es. }
    destruct (rx_time_wait s g c). cbn in Hf |- *. congruence.
Qed.

Lemma act_ok I W J V R s c s' c' w r :
  end_inv I W J V R s c -> act s c s' c' w r ->
  end_inv I (W ++ w) J V (R ++ r) s' c' /\ (linked c' = true -> linked c = true).
Proof.
  intros Hc Hact. pose proof Hc as (H1 & H2 & H3). destruct Hact as
    [ticks us|c' Hv|data s' c' r Hl Hd|b s' c' r Hd|len peek c' bs Hl Hd|s' c' Hd|s' c' Hd|s' c' f Hd|]; rewrite ?app_nil_r.
  - done.
  - split; [by eapply end_inv_ext, Hc|]. by rewrite (linked_view _ _ Hv).
  - pose proof (send_data_ok I s c W data H2 H1 Hl) as Hs. rewrite Hd in Hs. destruct Hs as [(_ & G1 & G2 & G3 & G4) _].
    split; [|unfold linked; by rewrite G3]. split; [done|]. split; [done|]. by eapply rcv_state_ext, H3.
  - pose proof (send_oob_ok I s c W b H2 H1) as Hs. rewrite Hd in Hs. destruct Hs as (_ & G1 & G2 & G3 & G4).
    replace (take (if r =? 0 then 1 else 0) [b]) with (if r =? 0 then [b] else []) in * by (by case_if).
    split; [|unfold linked; by rewrite G3]. split; [done|]. split; [done|]. by eapply rcv_state_ext, H3.
  - destruct (sock_recv_state J V R len peek c c' bs H3 Hl Hd) as (G1 & G2 & G3).
    split; [|unfold linked; by rewrite G2]. split; [done|]. split; [by eapply snd_inv_ext, H2|].
    destruct peek; [by rewrite app_nil_r|done].
  - pose proof (close_conn_ok I W J V R s c Hc) as Hs. rewrite Hd in Hs. split; [done|].
    unfold close_conn in Hd.
    destruct (state c) eqn:Es; try (unfold linked; by rewrite Es).
    1-3: apply (f_equal snd) in Hd; cbn [snd] in Hd; subst c'; intros Hl; apply free_conn_linked in Hl; unfold linked in *; cbn in *; congruence.
    3: pose proof (send_fin_state s LAST_ACK c) as Hf; rewrite Hd in Hf; cbn in Hf; unfold linked; by rewrite Hf.
    all: injection Hd as <- <-; intros Hl; exact Hl.
  - pose proof (abort_conn_ok I W J V R s c Hc) as Hs. rewrite Hd in Hs. split; [done|].
    apply (f_equal snd) in Hd. cbn [snd] in Hd. subst c'. intros Hl. apply free_conn_linked in Hl. unfold linked in Hl. cbn in Hl. congruence.
  - pose proof (timer_conn_ok I W J V R s c Hc) as Hs. rewrite Hd in Hs. split; [done|].
    pose proof (timer_conn_state s c) as Ht. rewrite Hd in Ht. unfold linked. destruct Ht as [-> | ->]; [done|done].
  - split; [by apply free_conn_ok|]. apply free_conn_linked.
Qed.

Lemma side_cases x y : y = x \/ y = other x.
Proof. destruct x, y; auto. Qed.

Lemma other_other x : other (other x) = x.
Proof. by destruct x. Qed.

(** A connection that has not seen a SYN says nothing of the peer's numbers. *)
Lemma end_inv_unlinked I W J J' V R s c : linked c = false -> end_inv I W J V R s c -> end_inv I W J' V R s c.
Proof.
  intros Hl (H1 & H2 & H3). split; [done|]. split; [done|]. unfold linked, rcv_state in *. by destruct (state c).
Qed.

(** One end changes; it may choose its initial sequence number if it had none. *)
Lemma put_inv I I' p x s' c' w r :
  (forall y, side_inv I p y) -> I' (other x) = I (other x) -> (I' x = I x \/ p_conn p x = None) ->
  end_inv (I' x) (p_written p x ++ w) (I (other x)) (p_written p (other x)) (p_read p x ++ r) s' c' ->
  (linked c' = true -> p_conn p (other x) <> None) -> forall y, side_inv I' (put x s' c' w r p) y.
Proof.
  intros Hp Ho Hx Hc Hl y. unfold side_inv, put. cbn. destruct (side_cases x y) as [-> | ->].
  - rewrite !fset_eq, !fset_other, Ho. done.
  - specialize (Hp (other x)). unfold side_inv in Hp. rewrite !fset_other, other_other, !fset_eq, Ho in *.
    destruct (p_conn p (other x)) as [co|]; [|done]. destruct Hp as [He Hk]. split; [|done].
    apply end_inv_mono. destruct Hx as [-> | Hx]; [done|]. eapply end_inv_unlinked, He.
    destruct (linked co); [|done]. by destruct (Hk eq_refl).
Qed.

(** What arrives is part of the peer's stream, and a SYN carries its first number. *)
Lemma arrives_ok I p x g :
  (forall y, side_inv I p y) -> arrives p x g ->
  in_stream (I (other x)) (p_written p (other x)) (si_seq g) (si_payload g) /\
  urange 32 (si_seq g) /\ urange 32 (si_ack g) /\
  (has (si_flags g) TCP_SYN = true -> si_seq g = I (other x) /\ p_conn p (other x) <> None).
Proof.
  intros Hp (dst & m & Hin & Hg). specialize (Hp (other x)). unfold side_inv in Hp.
  destruct (tcp_parse_range _ _ Hg) as [Hs Ha]. destruct (p_conn p (other x)) as [c|].
  - destruct Hp as [(Hm & _) _]. unfold msgs_ok in Hm. rewrite Forall_forall in Hm. destruct (Hm _ Hin g Hg) as [H1 H2].
    split_and!; [done..|]. intros Hy. by destruct (H2 Hy).
  - destruct Hp as (_ & _ & Hq). rewrite Forall_forall in Hq. destruct (Hq _ Hin g Hg) as [-> Hn].
    split_and!; [by apply in_stream_nil|done..|congruence].
Qed.

Lemma put_io_inv I p x s' :
  (forall y, side_inv I p y) ->
  (forall I W, msgs_ok I W (p_io p x) -> msgs_ok I W s') ->
  (Forall (fun '(_, m) => quiet_msg m) (trace (p_io p x)) -> Forall (fun '(_, m) => quiet_msg m) (trace s')) ->
  forall y, side_inv I (put_io x s' p) y.
Proof.
  intros Hp H1 H2 y. specialize (Hp y). unfold side_inv, put_io in *. cbn. destruct (side_cases x y) as [-> | ->].
  - rewrite fset_eq. destruct (p_conn p x) as [c|]; [|naive_solver]. destruct Hp as [(Hm & Hc) Hl]. split; [|done]. split; auto.
  - by rewrite fset_other.
Qed.

Lemma rst_quiet s dev a b sp dp sq ack :
  urange 32 sq -> Forall (fun '(_, m) => quiet_msg m) (trace s) ->
  Forall (fun '(_, m) => quiet_msg m) (trace (tcp_send_rst s dev a b sp dp sq ack)).
Proof.
  intros Hq Hs. unfold tcp_send_rst, tcp_send_segment_ex. destruct (tcp_message _) as [m|] eqn:Em; [|done].
  destruct (ip_send _ _ _ _ _) as [n rc]. cbn. apply Forall_app. split; [done|]. case_if; [|done].
  apply Forall_singleton. intros g Hg. destruct (message_fields _ m Em Hq) as (g' & Hg' & E1 & E2 & E3 & _).
  assert (g' = g) as -> by congruence. rewrite E2, E3. done.
Qed.

Lemma rst_reply_seq s dev local src g :
  urange 32 (si_ack g) -> (rst_reply s dev local src g = s) \/
  exists sq ack, urange 32 sq /\ rst_reply s dev local src g = tcp_send_rst s dev local src (si_dst_port g) (si_src_port g) sq ack.
Proof.
  intros Ha. unfold rst_reply. case_if; [by left|]. right. case_if; eexists _, _; (split; [|reflexivity]); [done|unfold urange; lia].
Qed.

(** A new connection in state [st] with initial sequence number [isn]. *)
Definition new_view (st : tcp_st) (isn rnxt : Z) (rx : list Z) :=
  (st, (isn, u32 (isn + 1), @nil inflight_segment), (rnxt, (Some rx, 0, 0, TCP_RX_BUF_SIZE), @nil ooo_segment)).

Lemma passive_open_view s dev local src g l rx c0 :
  exists isn, urange 32 isn /\
  view (passive_open s dev local src g l (fresh_conn s rx c0)) = new_view SYN_RECEIVED isn (u32 (si_seq g + 1)) rx.
Proof.
  exists (tcp_generate_isn s local src (si_dst_port g) (si_src_port g)). split; [apply u32_range|].
  unfold passive_open. generalize (tcp_generate_isn s local src (si_dst_port g) (si_src_port g)). intros isn.
  etransitivity; [apply adopt_options_view|]. reflexivity.
Qed.

Lemma active_open_view s dev local dst sp dp rx c0 :
  exists isn rnxt, urange 32 isn /\
  view (active_open s dev local dst sp dp (fresh_conn s rx c0)) = new_view SYN_SENT isn rnxt rx.
Proof.
  exists (tcp_generate_isn s local dst sp dp), (rcv_nxt c0). split; [apply u32_range|].
  unfold active_open. generalize (tcp_generate_isn s local dst sp dp). intros isn. reflexivity.
Qed.

Lemma new_snd_inv st isn rnxt rx c :
  urange 32 isn -> view c = new_view st isn rnxt rx -> iss c = isn /\ state c = st /\ snd_inv isn [] c.
Proof.
  intros Hi E. injection E as Es E1 E2 E3 R1 R2 R3 R4 R5 R6. split; [done|]. split; [done|].
  split; [done|done|by rewrite E3; apply Forall_nil|rewrite E2; apply u32_range|]. intros _. by rewrite E2, Z.add_0_r.
Qed.

Lemma new_rcv_fresh st isn rnxt rx c :
  Z.of_nat (length rx) = TCP_RX_BUF_SIZE -> view c = new_view st isn rnxt rx -> rcv_fresh [] c /\ rcv_nxt c = rnxt.
Proof.
  intros Hr E. injection E as Es E1 E2 E3 R1 R2 R3 R4 R5 R6. split; [|done]. unfold rcv_fresh. split_and!; [|done| |done].
  - split; rewrite ?R2, ?R3, ?R4, ?R5; [by exists rx|by vm_compute..].
  - unfold rx_contents. by rewrite R2, R3, R4, R5.
Qed.

Lemma pair_step_inv p p' :
  step p p' -> bounded p -> (exists I, forall y, side_inv I p y) -> exists I, forall y, side_inv I p' y.
Proof.
  intros Hst Hb [I Hp]. destruct Hst as
    [x c s' c' w r Hc Ha|x c g src local s' c' what Hc Ha _ Hr|x c0 rx g dev local src l c Hn Ha Hf Hrx Hc|x g dev local src Ha _|x ticks us].
  - exists I. pose proof (Hp x) as Hx. unfold side_inv in Hx. rewrite Hc in Hx. destruct Hx as [He Hl].
    destruct (act_ok _ _ _ _ _ _ _ _ _ _ _ He Ha) as [He' Hl']. apply (put_inv I); auto.
  - exists I. pose proof (Hp x) as Hx. unfold side_inv in Hx. rewrite Hc in Hx. destruct Hx as [He Hl].
    destruct (arrives_ok I p x g Hp Ha) as (H1 & H2 & H3 & H4).
    pose proof (rx_switch_ok _ _ _ _ _ (Hb (other x)) _ g c He H1 H3 (fun Hs => proj1 (H4 Hs))) as He'.
    pose proof (rx_switch_linked (p_io p x) g c) as Hl'. rewrite Hr in He', Hl'.
    apply (put_inv I); rewrite ?app_nil_r; auto.
    + destruct (release what); [by apply free_conn_ok|done].
    + intros Hk. destruct Hl' as [Hk'|Hk']; [|by apply Hl|by apply H4].
      destruct (release what); [by apply free_conn_linked|done].
  - pose proof (Hp x) as Hx. unfold side_inv in Hx. rewrite Hn in Hx. destruct Hx as (Hw & Hrd & Hq).
    destruct (arrives_ok I p x g Hp Ha) as (H1 & H2 & H3 & H4). apply andb_true_iff in Hf as [Hsyn _].
    destruct (H4 Hsyn) as [Hseq Hnn]. exists (fset x (iss c) I).
    apply (put_inv I); [done|by rewrite fset_other|by right| |done]. rewrite fset_eq, Hw, Hrd. cbn [app].
    destruct (passive_open_view (p_io p x) dev local src g l rx c0) as (isn & Hi & Hv). rewrite <- Hc in Hv. clear Hc.
    destruct (new_snd_inv _ _ _ _ _ Hi Hv) as (-> & Hst & Hs). destruct (new_rcv_fresh _ _ _ _ _ Hrx Hv) as [Hfr Hnx].
    apply synack_ok; [|apply Hs]. split; [|split; [done|]].
    + eapply Forall_impl; [exact Hq|]. intros [a m]. apply quiet_ok.
    + unfold rcv_state. rewrite Hst. eapply rcv_fresh_open; [exact Hfr|]. unfold rview. cbn. by rewrite Hnx, Hseq.
  - exists I. destruct (arrives_ok I p x g Hp Ha) as (_ & _ & H3 & _).
    destruct (rst_reply_seq (p_io p x) dev local src g H3) as [-> |(sq & ack & Hsq & ->)];
      apply put_io_inv; auto using rst_quiet. intros; by apply rst_ok.
  - exists I. by apply put_io_inv.
Qed.

Lemma pair_init_inv p : (forall x, init_end x p) -> exists I, forall y, side_inv I p y.
Proof.
  intros Hi. exists (fun x => default 0 (iss <$> p_conn p x)). intros x. destruct (Hi x) as (Hw & Hr & Hc). unfold side_inv.
  destruct Hc as [[-> ->]|(s & dev & local & dst & sp & dp & rx & c0 & c & Ht & Hrx & Hc & Hcx & Hio)].
  - split_and!; [done|done|by apply Forall_nil].
  - cbn beta. rewrite Hcx, Hio, Hw, Hr, (proj1 (Hi (other x))). cbn [fmap option_fmap option_map default from_option id]. split.
    + destruct (active_open_view s dev local dst sp dp rx c0) as (isn & rnxt & Hri & Hv). rewrite <- Hc in Hv. clear Hc Hcx Hio.
      destruct (new_snd_inv _ _ _ _ _ Hri Hv) as (<- & Hst & Hs). destruct (new_rcv_fresh _ _ _ _ _ Hrx Hv) as [Hfr Hnx].
      apply syn_ok. split; [unfold msgs_ok; rewrite Ht; by apply Forall_nil|]. split; [done|]. unfold rcv_state. by rewrite Hst.
    + subst c. done.
Qed.

Lemma step_bounded p p' : step p p' -> bounded p' -> bounded p.
Proof.
  intros Hst Hb x. specialize (Hb x). destruct Hst as [y|y|y|y|y]; cbn in Hb; try done.
  all: unfold fset in Hb; destruct (decide (x = y)) as [-> |]; [|done]; rewrite length_app in Hb; lia.
Qed.

Lemma pair_inv p : reachable p -> bounded p -> exists I, forall y, side_inv I p y.
Proof.
  intros (p0 & Hi & Hs). revert p Hs. refine (rtc_ind_r _ p0 _ _); [by intros _; apply pair_init_inv|].
  intros p p' _ Hst IH Hb. pose proof (step_bounded p p' Hst Hb) as Hb0. by eapply pair_step_inv; [|..|apply IH].
Qed.

(** C1. Two hosts exchange data over a network that loses, duplicates, delays and
    reorders messages as it likes: whatever the applications, the timers and the
    network do, the bytes one application has received are a prefix of those the
    other one wrote.  Nothing is made up, altered, repeated or delivered out of order. *)
Theorem tcp_stream p x :
  reachable p -> bounded p -> received p x `prefix_of` p_written p (other x).
Proof.
  intros Hr Hb. destruct (pair_inv p Hr Hb) as [I Hp]. specialize (Hp x). unfold side_inv, received in *.
  destruct (p_conn p x) as [c|]; cbn.
  - destruct Hp as [(_ & _ & Hc) _]. by destruct (rcv_state_closed _ _ _ _ Hc).
  - destruct Hp as (_ & -> & _). apply prefix_nil.
Qed.

(** C7. In every reachable state the sequence numbers of the two ends agree: a
    connection that takes data has a peer and expects the byte after the last one it
    received; the next byte to send follows everything written; and what waits for an
    acknowledgement are pieces of what was written, numbered by their place. *)
Theorem tcp_synchronized p x c :
  reachable p -> bounded p -> p_conn p x = Some c -> linked c = true ->
  (exists d, p_conn p (other x) = Some d /\ rcv_nxt c = u32 (iss d + 1 + Z.of_nat (length (received p x)))) /\
  snd_nxt c = u32 (iss c + 1 + Z.of_nat (length (p_written p x))) /\
  Forall (fun e => in_stream (iss c) (p_written p x) (if_seq e) (if_data e)) (inflight c).
Proof.
  intros Hr Hb Hc Hl. destruct (pair_inv p Hr Hb) as [I Hp].
  pose proof (Hp x) as Hx. pose proof (Hp (other x)) as Ho. unfold side_inv, received in *. rewrite Hc in *. cbn.
  destruct Hx as [(_ & [H1 H2 H3 H4 H5] & Hv) Hk]. split.
  - destruct (p_conn p (other x)) as [d|]; [|by destruct (Hk Hl)]. exists d. split; [done|].
    destruct Ho as [(_ & Hs & _) _]. rewrite (snd_iss _ _ _ Hs).
    unfold rcv_state, linked in *. destruct (state c); try discriminate Hl; apply Hv.
  - rewrite H1. split.
    + apply H5. unfold linked, opening in *. by destruct (state c).
    + eapply Forall_impl; [exact H3|]. intros e (_ & _ & _ & E1). exact E1.
Qed.

End System.
