(* ===== verification/TcpTable.v ===== *)
(** * The state of the TCP connection table

    Every field of the table stays in the range its C type and its array allow:
    sequence numbers are 32-bit values, the indices of the receive ring and of the
    accept queue lie inside their arrays, the queues of unacknowledged, out-of-order
    and selectively acknowledged segments hold no more than their arrays, links
    between slots are slots, and a free slot is closed.  Every operation on the table
    keeps this. *)

From Stdlib Require Import ZArith Lia Bool.
From stdpp Require Import base list relations.
From S2P Require Import Prelude Wire TcpConn TcpWire TcpRx TcpSegment Tcp TcpData TcpStream.

Open Scope Z_scope.
Open Scope tcp_scope.

(** ** One connection *)

(** The ring: a buffer of the right length, and positions inside it. *)
Definition ring_fields (buf : option (list Z)) (h t n : Z) : Prop :=
  (exists b, buf = Some b /\ Z.of_nat (length b) = n) /\ 1 < n < 2 ^ 31 /\ 0 <= h < n /\ 0 <= t < n.

Lemma ring_fields_ok c : ring_fields (rx_buf c) (rx_head c) (rx_tail c) (rx_buf_size c) <-> rx_ring_ok c.
Proof. split; [intros (? & ? & ? & ?); by split|intros [H1 H2 H3 H4]; exact (conj H1 (conj H2 (conj H3 H4)))]. Qed.

Definition slot_in (n : nat) (o : option nat) : Prop := match o with Some i => (i < n)%nat | None => True end.

(** What holds of the fields of a slot, for a table of [n] slots; [a] says that the
    slot is in use. *)
Record fields_ok (n : nat) (a act : bool) (una nxt rnxt : Z) (buf : option (list Z)) (h t size : Z)
    (infl : list inflight_segment) (oo : list ooo_segment) (sk : list (Z * Z)) (aq : list (option nat)) (ah at_ : Z)
    (par : option nat) (rto : Z) : Prop := {
  f_active : act = a;
  f_una : urange 32 una;
  f_nxt : urange 32 nxt;
  f_rnxt : urange 32 rnxt;
  f_ring : a = true -> ring_fields buf h t size;
  f_infl : (length infl <= TCP_MAX_INFLIGHT)%nat /\ Forall (fun e => urange 32 (if_seq e) /\ (length (if_data e) <= 1460)%nat) infl;
  f_ooo : (length oo <= TCP_MAX_OOO)%nat /\ Forall (fun e => (length (oo_data e) <= 1460)%nat) oo;
  f_sack : (length sk <= TCP_MAX_SACK_BLOCKS)%nat;
  f_accept : length aq = 16%nat /\ 0 <= ah < 16 /\ 0 <= at_ < 16 /\ Forall (slot_in n) aq;
  f_parent : slot_in n par;
  f_rto : a = true -> rto = TCP_RTO_INITIAL_US \/ TCP_RTO_MIN_US <= rto <= TCP_RTO_MAX_US;
}.
Arguments f_ring {n a act una nxt rnxt buf h t size infl oo sk aq ah at_ par rto} _.
Arguments f_infl {n a act una nxt rnxt buf h t size infl oo sk aq ah at_ par rto} _.
Arguments f_ooo {n a act una nxt rnxt buf h t size infl oo sk aq ah at_ par rto} _.
Arguments f_accept {n a act una nxt rnxt buf h t size infl oo sk aq ah at_ par rto} _.

Definition slot_ok (n : nat) (a : bool) (c : tcp_conn) : Prop :=
  fields_ok n a (active c) (snd_una c) (snd_nxt c) (rcv_nxt c) (rx_buf c) (rx_head c) (rx_tail c) (rx_buf_size c)
    (inflight c) (ooo c) (sack_blocks c) (accept_queue c) (accept_head c) (accept_tail c) (parent c) (rto_us c).

(** A slot that is not in use is closed. *)
Definition conn_ok (n : nat) (c : tcp_conn) : Prop := slot_ok n (active c) c /\ (active c = false -> state c = CLOSED).

(** What a parsed segment satisfies. *)
Definition seg_ok (g : seg_in) : Prop :=
  urange 32 (si_seq g) /\ urange 32 (si_ack g) /\ (length (po_sack (si_opts g)) <= TCP_MAX_SACK_BLOCKS)%nat.

Lemma parse_options_sack fuel o out :
  (length (po_sack out) <= TCP_MAX_SACK_BLOCKS)%nat -> (length (po_sack (parse_options fuel o out)) <= TCP_MAX_SACK_BLOCKS)%nat.
Proof.
  revert o out. induction fuel as [|fuel IH]; intros o out Ho; cbn [parse_options]; [done|].
  destruct o as [|k t]; [done|]. case_if; [done|]. case_if; [by apply IH|]. destruct t as [|l t]; [done|]. case_if; [done|].
  apply IH. destruct out as [mss ws sp tp tv te sk]. unfold parse_option.
  repeat (case_if; try exact Ho). cbn. rewrite length_map, length_seq. lia.
Qed.

Lemma tcp_parse_ok data g : tcp_parse data = Some g -> seg_ok g.
Proof.
  intros Hg. destruct (tcp_parse_range data g Hg) as [H1 H2]. split; [done|]. split; [done|].
  unfold tcp_parse in Hg. case_if_in Hg; [done|]. case_if_in Hg; [done|]. injection Hg as <-. cbn.
  unfold tcp_parse_options. case_if; [cbn; lia|]. apply parse_options_sack. cbn. lia.
Qed.

Section Slot.
Context {N : Type} `{IpLayer N} `{!IpLaws N}.
Variable (n : nat).
Implicit Types (s : tcp_io N) (c : tcp_conn) (a : bool).

(** ** Assignments *)

Lemma slot_una a v c : urange 32 v -> slot_ok n a c -> slot_ok n a (c |> set_snd_una v).
Proof. intros Hv []. by split. Qed.

Lemma slot_nxt a v c : slot_ok n a c -> slot_ok n a (c |> set_snd_nxt (u32 v)).
Proof. intros []. split; try done. apply u32_range. Qed.

Lemma slot_rnxt a v c : slot_ok n a c -> slot_ok n a (c |> set_rcv_nxt (u32 v)).
Proof. intros []. split; try done. apply u32_range. Qed.

Lemma slot_inflight a l c :
  (length l <= TCP_MAX_INFLIGHT)%nat -> Forall (fun e => urange 32 (if_seq e) /\ (length (if_data e) <= 1460)%nat) l ->
  slot_ok n a c -> slot_ok n a (c |> set_inflight l).
Proof. intros H1 H2 []. by split. Qed.

Lemma slot_ooo a l c :
  (length l <= TCP_MAX_OOO)%nat -> Forall (fun e => (length (oo_data e) <= 1460)%nat) l ->
  slot_ok n a c -> slot_ok n a (c |> set_ooo l).
Proof. intros H1 H2 []. by split. Qed.

Lemma slot_sack a l c : (length l <= TCP_MAX_SACK_BLOCKS)%nat -> slot_ok n a c -> slot_ok n a (c |> set_sack_blocks l).
Proof. intros H1 []. by split. Qed.

Lemma slot_parent a o c : slot_in n o -> slot_ok n a c -> slot_ok n a (c |> set_parent o).
Proof. intros H1 []. by split. Qed.

Lemma slot_rto a v c :
  TCP_RTO_MIN_US <= v <= TCP_RTO_MAX_US -> slot_ok n a c -> slot_ok n a (c |> set_rto_us v).
Proof. intros H1 []. split; try done. by right. Qed.

(** ** Operations on the queues *)

Lemma slot_queue a s sq flags data c :
  urange 32 sq -> (length data <= 1460)%nat -> slot_ok n a c -> slot_ok n a (tcp_queue_inflight s sq flags data c).
Proof.
  intros Hq Hd Hc. unfold tcp_queue_inflight, may_queue. case_if; [exact Hc|]. zify_bool. apply Nat.ltb_lt in E.
  eapply slot_inflight; [..|exact Hc]; [rewrite length_app; cbn; lia|].
  apply Forall_app. split; [apply (f_infl Hc)|by apply Forall_singleton].
Qed.

Lemma ack_queue_fields ack l :
  urange 32 ack -> Forall (fun e => urange 32 (if_seq e) /\ (length (if_data e) <= 1460)%nat) l ->
  (length (ack_queue ack l) <= length l)%nat /\
  Forall (fun e => urange 32 (if_seq e) /\ (length (if_data e) <= 1460)%nat) (ack_queue ack l).
Proof.
  intros Ha. induction 1 as [|e l [H1 H2] Hl IH]; cbn [ack_queue]; [by split|]. case_if; [cbn; split; [lia|apply IH]|].
  case_if; (split; [done|]); constructor; try done. cbn. split; [done|]. rewrite length_drop. lia.
Qed.

Lemma slot_ack a ack c : urange 32 ack -> slot_ok n a c -> slot_ok n a (tcp_ack_inflight ack c).
Proof.
  intros Ha Hc. pose proof (f_infl Hc) as [H1 H2].
  destruct (ack_queue_fields ack (inflight c) Ha H2) as [H3 H4]. eapply slot_inflight; [lia|done|exact Hc].
Qed.

Lemma slot_fail a err c : slot_ok n a c -> slot_ok n a (tcp_fail_connection err c).
Proof. intros Hc. eapply (slot_inflight a []); [cbn; lia|by apply Forall_nil|exact Hc]. Qed.

Lemma slot_rtt a r c : slot_ok n a c -> slot_ok n a (tcp_update_rtt r c).
Proof.
  intros Hc. unfold tcp_update_rtt. case_if; [done|].
  set (c1 := if srtt_us c =? 0 then _ else _). assert (Hc1 : slot_ok n a c1) by (unfold c1; case_if; exact Hc). clearbody c1.
  match goal with |- context [set_rto_us (u32 ?r)] => set (rto := r) end.
  assert (Hr : TCP_RTO_MIN_US <= rto <= TCP_RTO_MAX_US).
  { unfold rto, TCP_RTO_MIN_US, TCP_RTO_MAX_US. repeat case_if; zify_bool; lia. }
  clearbody rto. eapply (slot_rto a (u32 rto)); [|exact Hc1].
  rewrite u32_small; unfold TCP_RTO_MAX_US, TCP_RTO_MIN_US in *; lia.
Qed.

Lemma slot_ring a c c' :
  (active c', snd_una c', snd_nxt c', inflight c', (ooo c', sack_blocks c', accept_queue c', accept_head c'), (accept_tail c', parent c', rto_us c')) =
  (active c, snd_una c, snd_nxt c, inflight c, (ooo c, sack_blocks c, accept_queue c, accept_head c), (accept_tail c, parent c, rto_us c)) ->
  urange 32 (rcv_nxt c') -> (a = true -> rx_ring_ok c') -> slot_ok n a c -> slot_ok n a c'.
Proof.
  intros E Hr Hring []. injection E as E1 E2 E3 E4 E5 E6 E7 E8 E9 E10 E11.
  split; rewrite ?E1, ?E2, ?E3, ?E4, ?E5, ?E6, ?E7, ?E8, ?E9, ?E10, ?E11; try done.
  intros Ha. by apply ring_fields_ok, Hring.
Qed.

Lemma slot_rx_store bs c : slot_ok n true c -> slot_ok n true (rx_store bs c).
Proof.
  intros Hc. pose proof (f_ring Hc eq_refl) as Hr. apply ring_fields_ok in Hr.
  destruct (rx_store_ok bs c Hr) as (k & b & t & _ & _ & Hst & Hr' & _). rewrite Hst in *.
  eapply slot_ring, Hc; [done|apply u32_range|done].
Qed.

Lemma slot_drain fuel c : slot_ok n true c -> slot_ok n true (rx_drain fuel c).
Proof.
  revert c. induction fuel as [|fuel IH]; intros c Hc; cbn [rx_drain]; [done|]. destruct (find_idx _ _) as [k|]; [|done].
  apply IH. pose proof (slot_rx_store (default [] (oo_data <$> ooo c !! k)) c Hc) as Hs.
  pose proof (f_ooo Hs) as [H1 H2].
  eapply slot_ooo; [..|exact Hs]; [|by apply Forall_delete].
  pose proof (sublist_length _ _ (sublist_delete (ooo (rx_store (default [] (oo_data <$> ooo c !! k)) c)) k)). lia.
Qed.

Lemma slot_ooo_insert a sq data c :
  (length data <= 1460)%nat -> slot_ok n a c -> slot_ok n a (ooo_insert sq data c).
Proof.
  intros Hd Hc. pose proof (f_ooo Hc) as [H1 H2]. unfold ooo_insert.
  match goal with |- context [take ?p _] => generalize p; intros pos end. case_if; [|done].
  apply andb_true_iff in E as [_ E]. apply Nat.ltb_lt in E. eapply slot_ooo; [..|exact Hc].
  - rewrite length_app. cbn. rewrite length_take, length_drop. lia.
  - apply Forall_app. split; [by apply Forall_take|]. constructor; [done|by apply Forall_drop].
Qed.

(** ** Receiving *)

Lemma slot_send_ack a s c : slot_ok n a c -> slot_ok n a (snd (tcp_send_ack s c)).
Proof.
  intros Hc. unfold tcp_send_ack. destruct (tcp_build_options s c TCP_ACK 0). destruct (tcp_send_segment_ex _ _ _). exact Hc.
Qed.

Lemma slot_rx_rtt a s g c : slot_ok n a c -> slot_ok n a (snd (rx_rtt s g c)).
Proof.
  intros Hc. unfold rx_rtt. case_if; [destruct (tcp_ts_now_for s c); by apply slot_rtt|].
  destruct (list_find _ _) as [[i e]|]; [|done]. cbn. case_if; [by apply slot_rtt|done].
Qed.

Lemma slot_newreno a s c : slot_ok n a c -> slot_ok n a (snd (rx_newreno s c)).
Proof. intros Hc. unfold rx_newreno. repeat case_if; exact Hc. Qed.

Lemma slot_resend a s c : slot_ok n a c -> slot_ok n a (snd (resend_first s c)).
Proof.
  intros Hc. unfold resend_first. destruct (inflight c) as [|e l] eqn:El; [done|].
  destruct (tcp_send_segment _ _ _ _ _ _ _). pose proof (f_infl Hc) as Hi. rewrite El in Hi. destruct Hi as [H1 H2].
  inversion H2 as [|? ? He Hl]; subst. eapply slot_inflight; [..|exact Hc]; [done|by constructor].
Qed.

Lemma slot_rx_ack a s g c : seg_ok g -> slot_ok n a c -> slot_ok n a (snd (rx_ack s g c)).
Proof.
  intros (_ & Ha & Hk) Hc. unfold rx_ack. case_if; [done|].
  set (c1 := if sack_ok c && _ then _ else c).
  assert (Hc1 : slot_ok n a c1) by (unfold c1; case_if; [by apply slot_sack|done]). clearbody c1. case_if.
  - pose proof (slot_rx_rtt a s g c1 Hc1) as Hr. destruct (rx_rtt s g c1) as [s2 c2].
    apply slot_newreno. eapply (slot_ack a (si_ack g)); [done|]. by apply slot_una.
  - case_if; [|done]. case_if; [|case_if; exact Hc1].
    match goal with |- context [resend_first s ?e] => pose proof (slot_resend a s e) as Hr; destruct (resend_first s e) as [s2 c2] end.
    apply Hr. exact Hc1.
Qed.

Lemma slot_rx_data s g c : seg_ok g -> slot_ok n true c -> slot_ok n true (snd (rx_data s g c)).
Proof.
  intros Hg Hc. unfold rx_data. case_if; [done|]. case_if.
  - match goal with |- context [rx_drain ?k ?e] => pose proof (slot_drain k e) as Hd; set (c1 := rx_drain k e) in * end.
    assert (Hc1 : slot_ok n true c1) by (apply Hd; by apply (slot_rx_store (si_payload g) c)). clearbody c1. clear Hd.
    case_if; [apply slot_send_ack; exact Hc1|]. case_if; exact Hc1.
  - case_if; apply slot_send_ack; [|done]. apply slot_ooo_insert; [|done].
    apply andb_true_iff in E1 as [_ E1]. unfold payload_len, TCP_MSS in E1. zify_bool. lia.
Qed.

Lemma slot_paws a s g c : slot_ok n a c -> match rx_paws s g c with Some c' => slot_ok n a c' | None => True end.
Proof. intros Hc. unfold rx_paws. repeat case_if; exact Hc || done. Qed.

Lemma slot_urgent a g c : slot_ok n a c -> slot_ok n a (rx_urgent g c).
Proof. intros Hc. unfold rx_urgent. repeat case_if; exact Hc. Qed.

Lemma slot_established s g c : seg_ok g -> slot_ok n true c -> slot_ok n true (snd (rx_established s g c)).
Proof.
  intros Hg Hc. unfold rx_established. case_if; [by apply slot_fail|].
  match goal with |- context [rx_paws s g ?e] => pose proof (slot_paws true s g e Hc) as Hp; destruct (rx_paws s g e) as [c1|] end;
    [|apply slot_send_ack; exact Hc].
  match goal with |- context [rx_ack s g ?e] => pose proof (slot_rx_ack true s g e Hg) as Ha; destruct (rx_ack s g e) as [s2 c2] end.
  specialize (Ha ltac:(apply slot_urgent; exact Hp)). pose proof (slot_rx_data s2 g c2 Hg Ha) as Hd.
  destruct (rx_data s2 g c2) as [s3 c3]. case_if; [|exact Hd]. apply slot_send_ack.
  eapply (slot_rnxt true (si_seq g + payload_len g + 1)); exact Hd.
Qed.

Lemma slot_take_ack a g c : seg_ok g -> slot_ok n a c -> slot_ok n a (take_ack g c).
Proof. intros (_ & Ha & _) Hc. by apply slot_ack, slot_una. Qed.

Lemma slot_take_fin a g st c : slot_ok n a c -> slot_ok n a (take_fin g st c).
Proof. intros Hc. eapply (slot_rnxt a (si_seq g + payload_len g + 1)); exact Hc. Qed.

Lemma slot_adopt a s g c : slot_ok n a c -> slot_ok n a (adopt_options s g c).
Proof. intros Hc. unfold adopt_options. repeat case_if; exact Hc. Qed.

Lemma slot_syn_sent a s g c : seg_ok g -> slot_ok n a c -> slot_ok n a (snd (rx_syn_sent s g c)).
Proof.
  intros (Hs & Ha & Hk) Hc. unfold rx_syn_sent. case_if; [|case_if; [by apply slot_fail|case_if; [|done]]].
  - case_if; [|done]. apply slot_send_ack, slot_adopt. eapply (slot_una a (si_ack g)); [done|].
    eapply (slot_rnxt a (si_seq g + 1)); exact Hc.
  - assert (Hc1 : slot_ok n a (c |> set_rcv_nxt (u32 (si_seq g + 1)))) by by apply slot_rnxt. repeat case_if; exact Hc1.
Qed.

(** The whole state machine. *)
Lemma slot_rx_switch s g c : seg_ok g -> slot_ok n true c -> let '(_, c', _) := rx_switch s g c in slot_ok n true c'.
Proof.
  intros Hg Hc. pose proof Hg as (Hs & Ha & Hk). unfold rx_switch. destruct (state c); try exact Hc.
  - pose proof (slot_syn_sent true s g c Hg Hc) as Hx. by destruct (rx_syn_sent s g c).
  - unfold rx_syn_received. case_if; [done|]. repeat case_if; try exact Hc; eapply (slot_una true (si_ack g)); [done|exact Hc|done|exact Hc].
  - pose proof (slot_established s g c Hg Hc) as Hx. by destruct (rx_established s g c).
  - assert (Hx : slot_ok n true (snd (rx_fin_wait_1 s g c))); [|by destruct (rx_fin_wait_1 s g c)].
    unfold rx_fin_wait_1. repeat case_if; try exact Hc; try apply slot_send_ack.
    + eapply (slot_take_fin true g TIME_WAIT). by apply slot_take_ack.
    + by apply (slot_take_ack true g c).
    + by apply slot_take_fin.
  - assert (Hx : slot_ok n true (snd (rx_fin_wait_2 s g c))); [|by destruct (rx_fin_wait_2 s g c)].
    unfold rx_fin_wait_2. case_if; [|done]. apply slot_send_ack. by eapply (slot_take_fin true g TIME_WAIT).
  - case_if; [|done]. by apply (slot_take_ack true g c).
  - case_if; [|done]. by apply (slot_take_ack true g c).
  - assert (Hx : slot_ok n true (snd (rx_time_wait s g c))); [|by destruct (rx_time_wait s g c)].
    unfold rx_time_wait. case_if; [|done]. pose proof (slot_send_ack true s c Hc) as Hx. destruct (tcp_send_ack s c). exact Hx.
Qed.

(** ** Sending *)

Lemma slot_send_loop fuel a s c mss flight budget sent data :
  0 <= mss <= 1460 -> 0 <= budget -> slot_ok n a c ->
  let '(_, c', _) := send_loop fuel s c mss flight budget sent data in slot_ok n a c'.
Proof.
  revert s c flight budget sent data. induction fuel as [|fuel IH]; intros s c flight budget sent data Hm Hb Hc; cbn [send_loop]; [done|].
  case_if; [done|]. case_if; [done|]. case_if; [case_if; exact Hc|].
  set (sl := if budget <? _ then _ else _).
  assert (Hsl : 0 <= sl <= 1460).
  { unfold sl. destruct (Z.ltb_spec mss (Z.of_nat (length data)));
      match goal with |- context [budget <? ?x] => destruct (Z.ltb_spec budget x) end; rewrite ?u16_small by lia; lia. }
  clearbody sl. case_if; [done|]. set (c1 := if cork c && _ && _ then _ else c).
  assert (Hc1 : slot_ok n a c1) by (unfold c1; case_if; exact Hc). clearbody c1. case_if; [done|].
  set (c2 := if cork c1 && _ then _ else c1). assert (Hc2 : slot_ok n a c2) by (unfold c2; case_if; exact Hc1). clearbody c2.
  destruct (tcp_build_options s c2 _ 0) as [s1 o]. destruct (tcp_send_segment_ex _ _ _) as [s2 rc]. case_if; [done|].
  apply IH; [done|apply u32_range|]. eapply (slot_nxt a). apply slot_queue; [apply Hc2|rewrite length_take; lia|exact Hc2].
Qed.

Lemma slot_send_data a s c data : slot_ok n a c -> let '(_, c', _) := tcp_send_data s c data in slot_ok n a c'.
Proof.
  intros Hc. unfold tcp_send_data. case_if; [done|]. case_if; [done|].
  match goal with |- context [send_loop ?f s c ?m ?fl ?b 0 data] =>
    pose proof (slot_send_loop f a s c m fl b 0 data) as Hl; destruct (send_loop f s c m fl b 0 data) as [[s1 c1] r] end.
  assert (Hc1 : slot_ok n a c1).
  { apply Hl; [| |done].
    - assert (Hm : 536 <= tcp_effective_mss c <= 1460) by apply clamp_mss_range. case_if; lia.
    - repeat case_if; zify_bool; lia. }
  case_if; exact Hc1.
Qed.

Lemma slot_send_oob a s c b : slot_ok n a c -> let '(_, c', _) := tcp_send_oob s c b in slot_ok n a c'.
Proof.
  intros Hc. unfold tcp_send_oob. case_if; [done|]. destruct (tcp_build_options _ _ _ _) as [s1 o].
  destruct (ip_send _ _ _ _ _) as [m rv]. case_if; [|done].
  apply slot_queue; [apply u32_range|cbn; lia|]. eapply (slot_nxt a); exact Hc.
Qed.

Lemma slot_recv len peek c : 0 <= len < 2 ^ 32 -> slot_ok n true c -> slot_ok n true (fst (sock_recv_copy len peek c)).
Proof.
  intros Hl Hc. pose proof (f_ring Hc eq_refl) as Hr. apply ring_fields_ok in Hr.
  destruct (sock_recv_ok len peek c Hr (f_active _ _ _ _ _ _ _ _ _ _ _ _ _ _ _ _ _ _ Hc) Hl) as (k & h & r & _ & -> & Hr' & _).
  eapply slot_ring, Hc; [done|apply Hc|by intros _].
Qed.

(** ** Closing and the timer *)

Lemma slot_send_fin a s st c : slot_ok n a c -> slot_ok n a (snd (send_fin s st c)).
Proof.
  intros Hc. unfold send_fin. destruct (tcp_send_segment _ _ _ _ _ _ _) as [s1 rc]. cbn [snd]. case_if; [|exact Hc].
  eapply (slot_nxt a). apply slot_queue; [apply Hc|cbn; lia|exact Hc].
Qed.

Lemma slot_timer_retransmit a s c : slot_ok n a c -> slot_ok n a (snd (timer_retransmit s c)).
Proof.
  intros Hc. unfold timer_retransmit. destruct (inflight c) as [|e l] eqn:El; [done|]. case_if; [done|].
  case_if; [by apply slot_fail|]. pose proof (f_infl Hc) as Hi. rewrite El in Hi. destruct Hi as [H1 H2].
  inversion H2 as [|? ? He Hl]; subst. case_if.
  - unfold tcp_drop_first_inflight. cbn [inflight set_inflight set_rto_backoff set_dup_acks set_cwnd set_ssthresh]. rewrite El.
    eapply (slot_inflight a l); [cbn in H1; lia|done|exact Hc].
  - destruct (tcp_send_segment _ _ _ _ _ _ _) as [s1 rc]. eapply slot_inflight; [..|exact Hc]; [done|by constructor].
Qed.

Lemma slot_keepalive a s c : slot_ok n a c -> slot_ok n a (snd (timer_keepalive s c)).
Proof. intros Hc. unfold timer_keepalive. repeat case_if; try exact Hc. by apply slot_fail. Qed.

Lemma slot_timer a s c : slot_ok n a c -> let '(_, c', _) := timer_conn s c in slot_ok n a c'.
Proof.
  intros Hc. unfold timer_conn. case_if; [exact Hc|].
  match goal with |- context [if ?b then tcp_send_ack s c else _] =>
    assert (H1 : slot_ok n a (snd (if b then tcp_send_ack s c else (s, c)))) by (case_if; [by apply slot_send_ack|done]);
    destruct (if b then tcp_send_ack s c else (s, c)) as [s1 c1] end.
  set (c2 := if cork c1 && _ && _ then _ else c1). assert (H2 : slot_ok n a c2) by (unfold c2; case_if; exact H1). clearbody c2.
  assert (H3 : let '(_, c', _) := timer_syn s1 c2 in slot_ok n a c').
  { unfold timer_syn. repeat case_if; try exact H2. by apply slot_fail. }
  destruct (timer_syn s1 c2) as [[s3 c3] f3]. destruct f3; [done|].
  assert (H4 : let '(_, c', _) := timer_synack s3 c3 in slot_ok n a c') by (unfold timer_synack; repeat case_if; exact H3).
  destruct (timer_synack s3 c3) as [[s4 c4] f4]. destruct f4; [done|].
  assert (H5 : slot_ok n a (snd (if may_retransmit c4 then timer_retransmit s4 c4 else (s4, c4))))
    by (case_if; [by apply slot_timer_retransmit|done]).
  destruct (if may_retransmit c4 then _ else _) as [s5 c5]. pose proof (slot_keepalive a s5 c5 H5) as H6.
  by destruct (timer_keepalive s5 c5).
Qed.

(** ** Opening *)

Lemma conn_slot c : conn_ok n c -> active c = true -> slot_ok n true c.
Proof. intros [Hc _] Ha. by rewrite Ha in Hc. Qed.

Lemma slot_conn c : slot_ok n true c -> conn_ok n c.
Proof. intros Hc. pose proof (f_active _ _ _ _ _ _ _ _ _ _ _ _ _ _ _ _ _ _ Hc) as Ha. split; rewrite Ha; done. Qed.

Lemma slot_close c : slot_ok n true c -> conn_ok n (free_conn c).
Proof.
  intros Hc. pose proof (f_active _ _ _ _ _ _ _ _ _ _ _ _ _ _ _ _ _ _ Hc) as Ha. unfold free_conn. rewrite Ha. cbn [negb].
  split; [|done]. destruct Hc. by split.
Qed.

Lemma free_conn_ok' c : conn_ok n c -> conn_ok n (free_conn c).
Proof.
  intros Hc. destruct (active c) eqn:Ha; [by apply slot_close, conn_slot|]. unfold free_conn. by rewrite Ha.
Qed.

Lemma free_closed_ok c : conn_ok n c -> conn_ok n (free_conn (c |> set_state CLOSED)).
Proof.
  intros [H1 H2]. apply free_conn_ok'. split; [exact H1|done].
Qed.

Lemma close_conn_fields s c : conn_ok n c -> conn_ok n (snd (close_conn s c)).
Proof.
  intros Hc. unfold close_conn.
  assert (Hact : state c <> CLOSED -> slot_ok n true c).
  { intros Hs. apply conn_slot; [done|]. destruct (active c) eqn:Ha; [done|]. destruct Hs. apply Hc. exact Ha. }
  destruct (state c) eqn:Es; try (by apply free_closed_ok); try (by apply free_conn_ok');
    try (apply slot_conn, slot_send_fin, Hact; done); apply slot_conn, Hact; done.
Qed.

(** The assignments that open a connection. *)
Lemma init_slot ticks rx c :
  Z.of_nat (length rx) = TCP_RX_BUF_SIZE -> conn_ok n c -> active c = false -> slot_ok n true (init_conn ticks rx c |> set_active true).
Proof.
  intros Hr [Hc _] Ha. rewrite Ha in Hc. destruct Hc. split; try done; cbn; try (by split; [lia|]).
  - intros _. split; [by exists rx|]. unfold TCP_RX_BUF_SIZE. lia.
  - unfold TCP_MAX_SACK_BLOCKS. lia.
  - destruct f_accept0 as (H1 & _ & _ & H4). split; [done|]. split; [lia|]. split; [lia|done].
  - by left.
Qed.

Lemma init_idle ticks rx c : conn_ok n c -> active c = false -> conn_ok n (init_conn ticks rx c).
Proof.
  intros [Hc _] Ha. rewrite Ha in Hc. split; [|done]. cbn. rewrite Ha. destruct Hc.
  split; try done; cbn; try (by split; [lia|]); [unfold TCP_MAX_SACK_BLOCKS; lia|].
  destruct f_accept0 as (H1 & _ & _ & H4). split; [done|]. split; [lia|]. split; [lia|done].
Qed.

Lemma active_open_slot s dev local dst sp dp c :
  slot_ok n true (c |> set_active true) -> slot_ok n true (active_open s dev local dst sp dp c).
Proof.
  intros Hc. unfold active_open.
  assert (Hi : urange 32 (tcp_generate_isn s local dst sp dp)) by apply u32_range.
  revert Hi. generalize (tcp_generate_isn s local dst sp dp). intros isn Hi.
  apply (slot_una true isn) in Hc; [|done]. apply (slot_nxt true (isn + 1)) in Hc. exact Hc.
Qed.

Lemma passive_open_slot s dev local src g l c :
  (l < n)%nat -> slot_ok n true (c |> set_active true) -> slot_ok n true (passive_open s dev local src g l c).
Proof.
  intros Hl Hc. unfold passive_open.
  assert (Hi : urange 32 (tcp_generate_isn s local src (si_dst_port g) (si_src_port g))) by apply u32_range.
  revert Hi. generalize (tcp_generate_isn s local src (si_dst_port g) (si_src_port g)). intros isn Hi.
  apply (slot_parent true (Some l)) in Hc; [|done]. apply (slot_rnxt true (si_seq g + 1)) in Hc.
  apply (slot_una true isn) in Hc; [|done]. apply (slot_nxt true (isn + 1)) in Hc.
  unfold tcp_publish_conn, adopt_options. repeat case_if; exact Hc.
Qed.

Lemma cookie_open_slot dev local src g cookie mss l c :
  (l < n)%nat -> seg_ok g -> slot_ok n true (c |> set_active true) -> slot_ok n true (cookie_open dev local src g cookie mss l c).
Proof.
  intros Hl (Hs & _) Hc. apply (slot_parent true (Some l)) in Hc; [|done].
  apply (slot_una true (u32 (cookie + 1))) in Hc; [|apply u32_range]. apply (slot_nxt true (cookie + 1)) in Hc.
  destruct Hc. split; done.
Qed.

Lemma listen_open_slot s dev local lp bl c :
  slot_ok n true (c |> set_active true) -> slot_ok n true (listen_open s dev local lp bl c).
Proof. intros Hc. exact Hc. Qed.

End Slot.

(** ** The table *)

Definition host_ok {N} (h : tcp_host N) : Prop :=
  length (conns h) = TCP_MAX_CONNECTIONS /\ Forall (conn_ok TCP_MAX_CONNECTIONS) (conns h) /\
  NoDup (pending_free h) /\ Forall (fun i => (i < TCP_MAX_CONNECTIONS)%nat) (pending_free h).

(** [slab_alloc] gives as much memory as asked for. *)
Definition mem_ok (mem : buffers) : Prop := match mem with Some rx => Z.of_nat (length rx) = TCP_RX_BUF_SIZE | None => True end.

Section Table.
Context {N : Type} `{IpLayer N} `{!IpLaws N}.
Implicit Types (h : tcp_host N) (c : tcp_conn) (i : nat).

Lemma host_conn i c h : host_ok h -> conns h !! i = Some c -> conn_ok TCP_MAX_CONNECTIONS c /\ (i < TCP_MAX_CONNECTIONS)%nat.
Proof.
  intros (H1 & H2 & _) Hc. split; [by eapply Forall_lookup_1|]. rewrite <- H1. by eapply lookup_lt_Some.
Qed.

Lemma upd_ok i f h :
  (forall c, conns h !! i = Some c -> conn_ok TCP_MAX_CONNECTIONS c -> conn_ok TCP_MAX_CONNECTIONS (f c)) ->
  host_ok h -> host_ok (upd i f h).
Proof.
  intros Hf (H1 & H2 & H3 & H4). split_and!; [cbn; by rewrite length_alter| |done|done].
  apply Forall_lookup. intros j c Hj. cbn in Hj. destruct (decide (j = i)) as [-> |Hne].
  - rewrite list_lookup_alter_eq in Hj. apply fmap_Some in Hj as (c0 & Hc0 & ->). apply Hf; [done|by eapply Forall_lookup_1].
  - rewrite list_lookup_alter_ne in Hj by done. by eapply Forall_lookup_1.
Qed.

Lemma upd_const_ok i c h : conn_ok TCP_MAX_CONNECTIONS c -> host_ok h -> host_ok (upd i (fun _ => c) h).
Proof. intros Hc. by apply upd_ok. Qed.

Lemma map_ok f h :
  (forall c, conn_ok TCP_MAX_CONNECTIONS c -> conn_ok TCP_MAX_CONNECTIONS (f c)) -> host_ok h -> host_ok (set_conns (map f (conns h)) h).
Proof.
  intros Hf (H1 & H2 & H3 & H4). split_and!; [cbn; by rewrite length_map| |done|done]. cbn. apply Forall_map.
  eapply Forall_impl; [exact H2|]. exact Hf.
Qed.

Lemma table_free_ok i h : host_ok h -> host_ok (tcp_free_conn i h).
Proof. apply upd_ok. intros c _. apply free_conn_ok'. Qed.

Lemma defer_ok i h : (i < TCP_MAX_CONNECTIONS)%nat -> host_ok h -> host_ok (tcp_defer_free i h).
Proof.
  intros Hi (H1 & H2 & H3 & H4). unfold tcp_defer_free. case_if; [done|]. case_if; [|done].
  apply bool_decide_eq_false in E. split_and!; [done|done| |].
  - cbn. apply NoDup_app. split; [done|]. split; [|apply NoDup_singleton]. intros j Hj ->%list_elem_of_singleton. done.
  - cbn. apply Forall_app. split; [done|by apply Forall_singleton].
Qed.

Lemma reap_ok h : host_ok h -> host_ok (tcp_reap_pending h).
Proof.
  unfold tcp_reap_pending. generalize (S (length (pending_free h))). intros fuel. revert h.
  induction fuel as [|fuel IH]; intros h Hh; cbn [reap_loop]; [done|]. unfold reap_pop.
  destruct (pending_free h) as [|x l _] eqn:Ep using rev_ind; [done|]. rewrite last_snoc, removelast_last.
  apply IH, table_free_ok. destruct Hh as (H1 & H2 & H3 & H4). rewrite Ep in H3, H4. split_and!; [done|done|..]; cbn.
  - apply NoDup_app in H3 as [H3 _]. exact H3.
  - apply Forall_app in H4 as [H4 _]. exact H4.
Qed.

Lemma reap_tw_ok h : host_ok h -> host_ok (tcp_reap_time_wait_slots h).
Proof. apply map_ok. intros c Hc. case_if; [by apply free_conn_ok'|done]. Qed.

Lemma detach_ok l h : host_ok h -> host_ok (tcp_detach_listener_children l h).
Proof.
  apply map_ok. intros c [H1 H2]. case_if; [|done]. split; [|done]. by apply slot_parent.
Qed.

(** A new slot holds what [tcp_alloc_conn] wrote. *)
Lemma alloc_ok rx h :
  host_ok h -> match tcp_alloc_conn rx h with
  | Some (i, h') => host_ok h' /\ exists c, conn_ok TCP_MAX_CONNECTIONS c /\ active c = false /\
                      conns h' !! i = Some (init_conn (timer_ticks (io h)) rx c) /\ io h' = io h
  | None => True
  end.
Proof.
  intros Hh. unfold tcp_alloc_conn. destruct (find_idx _ _) as [i|] eqn:Ei; [|done]. cbn.
  apply find_idx_Some in Ei as (c & Hc & Ha & _). apply negb_true_iff in Ha.
  destruct (host_conn i c h Hh Hc) as [Hok _]. split.
  - apply upd_ok; [|done]. intros c' Hc' Hok'. assert (c' = c) as -> by congruence. by apply init_idle.
  - exists c. split; [done|]. split; [done|]. split; [|done]. cbn. by rewrite list_lookup_alter_eq, Hc.
Qed.

Definition fresh_slot (rx : list Z) i h : Prop :=
  exists t c, conn_ok TCP_MAX_CONNECTIONS c /\ active c = false /\ conns h !! i = Some (init_conn t rx c).

Lemma alloc_or_reap_ok rx h :
  host_ok h -> let '(h', o) := alloc_or_reap rx h in
  host_ok h' /\ match o with Some i => fresh_slot rx i h' | None => True end.
Proof.
  intros Hh. unfold alloc_or_reap. pose proof (alloc_ok rx h Hh) as H1. destruct (tcp_alloc_conn rx h) as [[i h1]|].
  { destruct H1 as (H1 & c & H2 & H3 & H4 & _). split; [done|]. by eexists _, c. }
  apply reap_tw_ok in Hh. pose proof (alloc_ok rx _ Hh) as H2. destruct (tcp_alloc_conn rx _) as [[i h1]|]; [|done].
  destruct H2 as (H2 & c & H3 & H4 & H5 & _). split; [done|]. by eexists _, c.
Qed.

(** The callers open a new slot. *)
Lemma open_ok rx i (f : tcp_conn -> tcp_conn) h :
  Z.of_nat (length rx) = TCP_RX_BUF_SIZE -> fresh_slot rx i h ->
  (forall c, slot_ok TCP_MAX_CONNECTIONS true (c |> set_active true) -> slot_ok TCP_MAX_CONNECTIONS true (f c)) ->
  host_ok h -> host_ok (upd i f h).
Proof.
  intros Hr (t & c & Hc & Ha & Hi) Hf. apply upd_ok. intros c' Hc' _. assert (c' = init_conn t rx c) as -> by congruence.
  apply slot_conn, Hf. by apply init_slot.
Qed.

Lemma connect_ok dev local dst sp dp mem h : mem_ok mem -> host_ok h -> host_ok (fst (tcp_connect dev local dst sp dp mem h)).
Proof.
  intros Hm Hh. unfold tcp_connect. destruct mem as [rx|]; [|by apply reap_ok].
  assert (H1 : host_ok (recycle_tuple local dst sp dp (tcp_reap_pending h))).
  { apply map_ok; [|by apply reap_ok]. intros c Hc. case_if; [by apply free_conn_ok'|done]. }
  pose proof (alloc_or_reap_ok rx _ H1) as H2. destruct (alloc_or_reap rx _) as [h2 [i|]]; [|by destruct H2].
  destruct H2 as [H2 H3].
  assert (H4 : host_ok (upd i (active_open (io h2) dev local dst sp dp) h2))
    by (eapply open_ok; [exact Hm|exact H3| |exact H2]; intros c; apply active_open_slot).
  destruct (conns (upd i _ h2) !! i); exact H4.
Qed.

Lemma listen_ok dev local lp bl mem h : mem_ok mem -> host_ok h -> host_ok (fst (tcp_listen dev local lp bl mem h)).
Proof.
  intros Hm Hh. unfold tcp_listen. apply reap_ok in Hh. destruct mem as [rx|]; [|done].
  pose proof (alloc_or_reap_ok rx _ Hh) as H2. destruct (alloc_or_reap rx _) as [h2 [i|]]; [|by destruct H2].
  destruct H2 as [H2 H3]. eapply open_ok; [exact Hm|exact H3| |exact H2]. intros c. apply listen_open_slot.
Qed.

Lemma conn_parent c o : slot_in TCP_MAX_CONNECTIONS o -> conn_ok TCP_MAX_CONNECTIONS c -> conn_ok TCP_MAX_CONNECTIONS (c |> set_parent o).
Proof. intros Ho [H1 H2]. split; [|done]. by apply slot_parent. Qed.

Lemma accept_ok l h : host_ok h -> host_ok (fst (tcp_accept l h)).
Proof.
  intros Hh. unfold tcp_accept. destruct (conns h !! l) as [lc|]; [|done]. case_if; [done|].
  assert (Hp : forall i h, host_ok h -> host_ok (upd i (set_parent None) h)) by (intros; apply upd_ok; [|done]; intros; by apply conn_parent).
  case_if.
  - match goal with |- context [upd l ?f h] => assert (H1 : host_ok (upd l f h)) end.
    { apply upd_ok; [|done]. intros c _ [[] H2].
      assert (0 <= (accept_head c + 1) mod 16 < 16) by (apply Z.mod_pos_bound; lia).
      destruct f_accept0 as (A1 & A2 & A3 & A4). case_if; (split; [|done]); split; done. }
    destruct (default None _) as [i|]; [|done]. by apply Hp.
  - destruct (find_idx _ _) as [i|]; [|done]. by apply Hp.
Qed.

Lemma enqueue_ok p i h : host_ok h -> host_ok (enqueue_child p i h).
Proof.
  intros Hh. unfold enqueue_child. destruct (conns h !! p) as [pc|]; [|done]. destruct (conns h !! i) as [c|] eqn:Hi; [|done].
  destruct (host_conn i c h Hh Hi) as [_ Hlt]. case_if; [|apply upd_ok; [|done]; intros; by apply conn_parent].
  case_if; [|done]. apply upd_ok; [|done]. intros c' _ [[] H2]. split; [|done].
  assert (0 <= (accept_tail pc + 1) mod 16 < 16) by (apply Z.mod_pos_bound; lia).
  destruct f_accept0 as (A1 & A2 & A3 & A4). split; try done. cbn. rewrite length_insert. split; [done|]. split; [done|].
  split; [done|]. by apply Forall_insert.
Qed.

Lemma close_ok i h : host_ok h -> host_ok (fst (tcp_close i h)).
Proof.
  intros Hh. unfold tcp_close. destruct (conns h !! i) as [c|] eqn:Hc; [|done].
  set (h1 := if bool_decide (state c = LISTEN) then _ else h).
  assert (H1 : host_ok h1) by (unfold h1; case_if; [by apply detach_ok|done]). clearbody h1.
  set (c1 := default c (conns h1 !! i)). assert (Hc1 : conn_ok TCP_MAX_CONNECTIONS c1).
  { unfold c1. destruct (conns h1 !! i) as [c2|] eqn:E2; cbn; [|by destruct (host_conn i c h Hh Hc)].
    by destruct (host_conn i c2 h1 H1 E2). }
  pose proof (close_conn_fields _ (io h1) c1 Hc1) as H2. destruct (close_conn (io h1) c1) as [s2 c2].
  apply reap_ok. exact (upd_const_ok i c2 h1 H2 H1).
Qed.

Lemma abort_ok i h : host_ok h -> host_ok (tcp_abort i h).
Proof.
  intros Hh. unfold tcp_abort. destruct (conns h !! i) as [c|] eqn:Hc; [|done]. destruct (host_conn i c h Hh Hc) as [Hok _].
  apply (upd_const_ok i (free_conn (c |> set_state CLOSED)) h); [|done]. by apply free_closed_ok.
Qed.

(** An operation on a slot in use. *)
Lemma slot_upd_ok i c c' h :
  host_ok h -> conns h !! i = Some c -> active c = true ->
  (slot_ok TCP_MAX_CONNECTIONS true c -> slot_ok TCP_MAX_CONNECTIONS true c') -> host_ok (upd i (fun _ => c') h).
Proof.
  intros Hh Hc Ha Hf. destruct (host_conn i c h Hh Hc) as [Hok _]. apply upd_const_ok; [|done].
  by apply slot_conn, Hf, conn_slot.
Qed.

Lemma rx_listen_ok dev local src g l mem h :
  mem_ok mem -> host_ok h -> host_ok (rx_listen_syn dev local src g l mem h).
Proof.
  intros Hm Hh. unfold rx_listen_syn. destruct (conns h !! l) as [lc|] eqn:Hl; [|done].
  destruct (host_conn l lc h Hh Hl) as [_ Hlt]. case_if; [done|]. destruct mem as [rx|]; [|done].
  pose proof (alloc_or_reap_ok rx _ Hh) as H2. destruct (alloc_or_reap rx _) as [h2 [i|]]; [|by destruct H2].
  destruct H2 as [H2 H3].
  assert (H4 : host_ok (upd i (passive_open (io h2) dev local src g l) h2))
    by (eapply open_ok; [exact Hm|exact H3| |exact H2]; intros c; by apply passive_open_slot).
  destruct (conns (upd i _ h2) !! i); exact H4.
Qed.

Lemma find_listener_lt l i local lp w k :
  find_listener l i local lp w = Some k -> w = Some k \/ (i <= k < i + length l)%nat.
Proof.
  revert i w. induction l as [|c l IH]; intros i w; cbn [find_listener length]; [by left|]. case_if; [case_if|].
  - intros [= ->]. right. lia.
  - intros Hf. apply IH in Hf as [Hf|Hf]; [|right; lia]. destruct w; [by left|]. case_if_in Hf; [|done]. injection Hf as ->. right. lia.
  - intros Hf. apply IH in Hf as [Hf|Hf]; [by left|right; lia].
Qed.

Lemma rx_unknown_ok dev local src g mem h :
  seg_ok g -> mem_ok mem -> host_ok h -> host_ok (rx_unknown dev local src g mem h).
Proof.
  intros Hg Hm Hh. unfold rx_unknown. destruct (tcp_find_listener h local (si_dst_port g)) as [l|] eqn:El; [|done].
  assert (Hl : (l < TCP_MAX_CONNECTIONS)%nat).
  { apply find_listener_lt in El as [?|El]; [done|]. pose proof (proj1 Hh). lia. }
  case_if; [by apply rx_listen_ok|]. case_if; [|done]. destruct (tcp_syncookie_validate _ _ _ _ _ _) as [mss|]; [|done].
  destruct mem as [rx|]; [|done].
  pose proof (alloc_or_reap_ok rx _ Hh) as H2. destruct (alloc_or_reap rx _) as [h2 [i|]]; [|by destruct H2].
  destruct H2 as [H2 H3]. apply enqueue_ok. eapply open_ok; [exact Hm|exact H3| |exact H2]. intros c. by apply cookie_open_slot.
Qed.

Lemma rx_ok dev src dst data mem h : mem_ok mem -> host_ok h -> host_ok (tcp_rx dev src dst data mem h).
Proof.
  intros Hm Hh. unfold tcp_rx. destruct (tcp_parse data) as [g|] eqn:Hg; [|done]. apply tcp_parse_ok in Hg.
  destruct (tcp_find_conn _ _ _ _ _) as [i|]; [|by apply rx_unknown_ok]. case_if; [by apply rx_unknown_ok; [..|apply table_free_ok]|].
  unfold rx_conn. destruct (conns h !! i) as [c|] eqn:Hc; [|done]. destruct (rx_matches src dst g c) eqn:Em; [|done]. cbn [negb].
  unfold rx_matches in Em. repeat (apply andb_true_iff in Em as [Em _]).
  pose proof (slot_rx_switch TCP_MAX_CONNECTIONS (io h) g c Hg) as Hs. destruct (rx_switch (io h) g c) as [[s1 c1] what].
  pose proof (slot_upd_ok i c c1 h Hh Hc Em Hs) as H1.
  set (h1 := set_io s1 (upd i (fun _ => c1) h)). assert (H2 : host_ok h1) by exact H1. clearbody h1.
  set (h2 := match parent c1 with Some p => _ | None => h1 end).
  assert (H3 : host_ok h2) by (unfold h2; destruct (parent c1); [case_if; [by apply enqueue_ok|done]|done]). clearbody h2.
  case_if; [by apply table_free_ok|done].
Qed.

Lemma tick_ok busy h : host_ok h -> host_ok (tcp_timer_tick busy h).
Proof.
  unfold tcp_timer_tick. generalize (seq 0 (length (conns h))). intros l. revert h. induction l as [|i l IH]; intros h Hh; [done|].
  apply IH. unfold timer_slot. destruct (conns h !! i) as [c|] eqn:Hc; [|done].
  destruct (host_conn i c h Hh Hc) as [_ Hi]. case_if; [done|]. apply orb_false_iff in E as [Ha _]. apply negb_false_iff in Ha.
  pose proof (slot_timer TCP_MAX_CONNECTIONS true (io h) c) as Hs. destruct (timer_conn (io h) c) as [[s1 c1] f].
  pose proof (slot_upd_ok i c c1 h Hh Hc Ha Hs) as H1. case_if; [|exact H1]. by apply defer_ok.
Qed.

Lemma pmtu_ok local lp remote rp mtu h : host_ok h -> host_ok (tcp_handle_pmtu local lp remote rp mtu h).
Proof.
  intros Hh. unfold tcp_handle_pmtu. case_if; [done|].
  match goal with |- context [clamp_pmtu ?m] => generalize m; intros mss end. apply map_ok; [|done].
  intros c Hc. case_if; [|done]. unfold clamp_pmtu. repeat case_if; exact Hc.
Qed.

(** A connection that is not closed is in use. *)
Lemma open_active i c h : host_ok h -> conns h !! i = Some c -> state c <> CLOSED -> active c = true.
Proof.
  intros Hh Hc Hs. destruct (host_conn i c h Hh Hc) as [[_ Hok] _]. destruct (active c); [done|]. by destruct Hs, Hok.
Qed.

Lemma send_ok i data h : host_ok h -> host_ok (fst (host_send i data h)).
Proof.
  intros Hh. unfold host_send. destruct (conns h !! i) as [c|] eqn:Hc; [|done].
  destruct (decide (state c = ESTABLISHED)) as [Hs|Hs].
  - pose proof (slot_send_data TCP_MAX_CONNECTIONS true (io h) c data) as Hd.
    destruct (tcp_send_data (io h) c data) as [[s1 c1] r]. apply (slot_upd_ok i c c1 h Hh Hc); [|done].
    by eapply open_active; [..|rewrite Hs].
  - unfold tcp_send_data. rewrite bool_decide_false by done. cbn. apply (upd_const_ok i c h); [|done]. by destruct (host_conn i c h Hh Hc).
Qed.

Lemma send_oob_table_ok i b h : host_ok h -> host_ok (fst (host_send_oob i b h)).
Proof.
  intros Hh. unfold host_send_oob. destruct (conns h !! i) as [c|] eqn:Hc; [|done].
  destruct (decide (state c = ESTABLISHED)) as [Hs|Hs].
  - pose proof (slot_send_oob TCP_MAX_CONNECTIONS true (io h) c b) as Hd.
    destruct (tcp_send_oob (io h) c b) as [[s1 c1] r]. apply (slot_upd_ok i c c1 h Hh Hc); [|done].
    by eapply open_active; [..|rewrite Hs].
  - unfold tcp_send_oob. rewrite bool_decide_false by done. cbn. apply (upd_const_ok i c h); [|done]. by destruct (host_conn i c h Hh Hc).
Qed.

Lemma recv_ok i len peek h : 0 <= len < 2 ^ 32 -> host_ok h -> host_ok (fst (host_recv i len peek h)).
Proof.
  intros Hl Hh. unfold host_recv. destruct (conns h !! i) as [c|] eqn:Hc; [|done]. destruct (active c) eqn:Ha.
  - pose proof (slot_recv TCP_MAX_CONNECTIONS len peek c Hl) as Hd. destruct (sock_recv_copy len peek c) as [c1 r].
    by apply (slot_upd_ok i c c1 h Hh Hc Ha).
  - unfold sock_recv_copy. rewrite Ha. apply (upd_const_ok i c h); [|done]. by destruct (host_conn i c h Hh Hc).
Qed.

(** The calls into [tcp.c], in any order. *)
Inductive tcp_call h : tcp_host N -> Prop :=
| C_connect dev local dst sp dp mem : mem_ok mem -> tcp_call h (fst (tcp_connect dev local dst sp dp mem h))
| C_listen dev local lp bl mem : mem_ok mem -> tcp_call h (fst (tcp_listen dev local lp bl mem h))
| C_accept l : tcp_call h (fst (tcp_accept l h))
| C_close i : tcp_call h (fst (tcp_close i h))
| C_abort i : tcp_call h (tcp_abort i h)
| C_rx dev src dst data mem : mem_ok mem -> tcp_call h (tcp_rx dev src dst data mem h)
| C_tick busy : tcp_call h (tcp_timer_tick busy h)
| C_reap : tcp_call h (tcp_reap_pending h)
| C_pmtu local lp remote rp mtu : tcp_call h (tcp_handle_pmtu local lp remote rp mtu h)
| C_send i data : tcp_call h (fst (host_send i data h))
| C_oob i b : tcp_call h (fst (host_send_oob i b h))
| C_recv i len peek : 0 <= len < 2 ^ 32 -> tcp_call h (fst (host_recv i len peek h))
| C_clock ticks us : tcp_call h (set_io (set_clock ticks us (io h)) h).

Lemma call_ok h h' : tcp_call h h' -> host_ok h -> host_ok h'.
Proof.
  destruct 1; eauto using connect_ok, listen_ok, accept_ok, close_ok, abort_ok, rx_ok, tick_ok, reap_ok, pmtu_ok, send_ok,
    send_oob_table_ok, recv_ok.
Qed.

(** The table at start: zeroed memory, then [tcp_init]. *)
Definition boot (isn cookie : list Z) (s : tcp_io N) : tcp_host N :=
  tcp_init isn cookie (mk_host (replicate TCP_MAX_CONNECTIONS zero_conn) [] s).

Lemma zero_conn_ok : conn_ok TCP_MAX_CONNECTIONS (zero_conn |> set_active false |> set_state CLOSED).
Proof.
  split; [|done]. split; cbn; try done; try (unfold urange; lia); try (by split; [lia|]).
  split_and!; try lia. repeat constructor.
Qed.

Lemma boot_ok isn cookie s : host_ok (boot isn cookie s).
Proof.
  split_and!; [done| |by apply NoDup_nil|by apply Forall_nil]. unfold boot, tcp_init. cbn [conns].
  apply Forall_map, Forall_replicate. exact zero_conn_ok.
Qed.

(** C6. Whatever calls are made from the start on, with whatever arguments, segments and
    answers of the environment, the table is well formed: no index leaves its array,
    no queue outgrows its array, no link leaves the table, the retransmission timeout
    is between 200 ms and a minute, and a free slot is closed. *)
Theorem tcp_table_ok isn cookie s h : rtc tcp_call (boot isn cookie s) h -> host_ok h.
Proof.
  intros Hs. pose proof (boot_ok isn cookie s) as H0. revert Hs H0. generalize (boot isn cookie s). intros h0 Hs.
  induction Hs as [|h1 h2 h3 Hc _ IH]; [done|]. intros H0. eapply IH, call_ok, H0. exact Hc.
Qed.

End Table.
