(* ===== verification/TcpHandshake.v ===== *)
(** * Opening a TCP connection between two hosts

    The calls and messages of a connection set-up without losses, on the connection
    tables of two hosts: [tcp_connect] here, a listening socket there, SYN, SYN+ACK and
    ACK through [tcp_rx], and [tcp_accept].  Both ends are established and agree on
    the sequence numbers. *)

From Stdlib Require Import ZArith Lia Bool.
From stdpp Require Import base list relations.
From S2P Require Import Prelude Wire TcpConn TcpWire TcpRx TcpSegment Tcp TcpData TcpStream TcpTable.

Open Scope Z_scope.
Open Scope tcp_scope.

(** ** Messages of a connection *)

Section Messages.
Context {N : Type} `{IpLayer N}.
Implicit Types (s : tcp_io N) (c : tcp_conn).

(** The network accepts every message. *)
Hypothesis net_up : forall n dev dst proto m, snd (ip_send (N := N) n dev dst proto m) = 0.

(** [s'] has sent one message more, which is read as [g]. *)
Definition sent s s' (g : seg_in) : Prop := exists dst m, trace s' = trace s ++ [(dst, m)] /\ tcp_parse m = Some g.

(** What is read of a segment without data. *)
Definition empty_seg c (sq ak flags : Z) (g : seg_in) : Prop :=
  si_src_port g = local_port c /\ si_dst_port g = remote_port c /\ si_seq g = sq /\ si_ack g = ak /\ si_flags g = flags /\
  si_payload g = [].

Definition wire_conn c : Prop := urange 16 (local_port c) /\ urange 16 (remote_port c) /\ 0 <= rcv_wscale c <= 14.

Lemma advertised_range c : rx_ring_ok c -> 0 <= rcv_wscale c -> urange 16 (tcp_advertised_window c).
Proof.
  intros Hr Hw. unfold tcp_advertised_window. pose proof (rx_free_eq c Hr) as Hf.
  pose proof (length_rx_contents c Hr) as Hl. pose proof (ring_used_range (rx_head c) (rx_tail c) (rx_buf_size c)) as Hu.
  assert (0 <= rx_free c) by (destruct Hr; lia). case_if; [unfold urange; lia|].
  assert (0 <= Z.shiftr (rx_free c) (rcv_wscale c)) by (by apply Z.shiftr_nonneg).
  case_if; zify_bool; unfold urange; lia.
Qed.

Lemma send_empty s c sq ak flags window mss :
  wire_conn c -> urange 32 sq -> urange 32 ak -> byte flags -> urange 16 window ->
  let '(s1, o) := tcp_build_options s c flags mss in
  exists g, sent s (fst (tcp_send_segment_ex s1 (conn_dev c) (conn_seg c sq ak flags window [] o))) g /\
    empty_seg c sq ak flags g.
Proof.
  intros (Hlp & Hrp & Hws) Hsq Hak Hfl Hwin.
  pose proof (build_options_bytes s c flags mss Hws) as Hb. pose proof (build_options_len s c flags mss) as Hl.
  pose proof (build_options_trace s c flags mss) as Ht.
  destruct (tcp_build_options s c flags mss) as [s1 o]. cbn [fst snd] in *.
  set (x := conn_seg c sq ak flags window [] o).
  assert (Hx : seg_out_ok x) by (split; try done; by apply Forall_nil).
  destruct (tcp_message_ok x Hx) as (m & Hm & Hp & _). exists (seg_read x). split; [|by split_and!].
  exists (remote_ip c), m. split; [|exact Hp]. unfold tcp_send_segment_ex. rewrite Hm.
  pose proof (net_up (io_net s1) (conn_dev c) (so_dst_ip x) IP_PROTO_TCP m) as Hrc.
  destruct (ip_send _ _ _ _ _) as [n rc]. cbn [snd] in Hrc. subst rc. cbn. by rewrite Ht.
Qed.

Lemma send_syn s c :
  wire_conn c -> urange 32 (iss c) ->
  exists g, sent s (tcp_send_syn_packet s c) g /\ empty_seg c (iss c) 0 TCP_SYN g.
Proof.
  intros Hc Hi. unfold tcp_send_syn_packet.
  pose proof (send_empty s c (iss c) 0 TCP_SYN TCP_WINDOW_SIZE (tcp_local_mss (io_net s) (conn_dev c)) Hc Hi) as He.
  destruct (tcp_build_options _ _ _ _) as [s1 o]. apply He; [by unfold urange|by vm_compute|by unfold urange, TCP_WINDOW_SIZE].
Qed.

Lemma send_synack s c :
  wire_conn c -> rx_ring_ok c -> urange 32 (iss c) -> urange 32 (rcv_nxt c) ->
  exists g, sent s (tcp_send_synack_conn s c (tcp_advertised_window c)) g /\
    empty_seg c (iss c) (rcv_nxt c) (Z.lor TCP_SYN TCP_ACK) g.
Proof.
  intros Hc Hr Hi Hn. unfold tcp_send_synack_conn.
  pose proof (send_empty s c (iss c) (rcv_nxt c) (Z.lor TCP_SYN TCP_ACK) (tcp_advertised_window c)
    (tcp_local_mss (io_net s) (conn_dev c)) Hc Hi Hn) as He.
  destruct (tcp_build_options _ _ _ _) as [s1 o]. apply He; [by vm_compute|]. apply advertised_range; [done|apply Hc].
Qed.

Lemma send_ack_sent s c :
  wire_conn c -> rx_ring_ok c -> urange 32 (snd_nxt c) -> urange 32 (rcv_nxt c) ->
  exists g, sent s (fst (tcp_send_ack s c)) g /\ empty_seg c (snd_nxt c) (rcv_nxt c) TCP_ACK g.
Proof.
  intros Hc Hr Hi Hn. unfold tcp_send_ack.
  pose proof (send_empty s c (snd_nxt c) (rcv_nxt c) TCP_ACK (tcp_advertised_window c) 0 Hc Hi Hn ltac:(by vm_compute)) as He.
  destruct (tcp_build_options _ _ _ _) as [s1 o]. specialize (He (advertised_range c Hr (proj1 (proj2 (proj2 Hc))))).
  by destruct (tcp_send_segment_ex _ _ _).
Qed.

End Messages.

(** ** The tables *)

Section Tables.
Context {N : Type} `{IpLayer N}.
Implicit Types (h : tcp_host N) (c : tcp_conn) (i : nat).

(** Some slots of [h] are freed, nothing else. *)
Definition freed h h' : Prop :=
  length (conns h') = length (conns h) /\
  forall i c, conns h !! i = Some c -> conns h' !! i = Some c \/ conns h' !! i = Some (free_conn c).

Definition no_match (f : tcp_conn -> bool) h : Prop := forall i c, conns h !! i = Some c -> f c = false.
Definition has_free h : Prop := exists i c, conns h !! i = Some c /\ active c = false.

Lemma freed_refl h : freed h h.
Proof. split; [done|]. auto. Qed.

Lemma free_free c : free_conn (free_conn c) = free_conn c.
Proof. unfold free_conn. destruct (active c) eqn:Ha; cbn; [done|by rewrite Ha]. Qed.

Lemma freed_trans h1 h2 h3 : freed h1 h2 -> freed h2 h3 -> freed h1 h3.
Proof.
  intros [L1 H1] [L2 H2]. split; [congruence|]. intros i c Hc.
  destruct (H1 i c Hc) as [E|E], (H2 i _ E) as [E'|E']; rewrite ?free_free in E'; auto.
Qed.

Lemma upd_free_freed i h : freed h (tcp_free_conn i h).
Proof.
  split; [cbn; apply length_alter|]. intros j c Hc. cbn. destruct (decide (j = i)) as [-> |Hne].
  - right. by rewrite list_lookup_alter_eq, Hc.
  - left. by rewrite list_lookup_alter_ne.
Qed.

Lemma map_freed (f : tcp_conn -> bool) h : freed h (set_conns (map (fun c => if f c then free_conn c else c) (conns h)) h).
Proof.
  split; [cbn; apply length_map|]. intros i c Hc. cbn. rewrite list_lookup_fmap, Hc. cbn. case_if; auto.
Qed.

Lemma reap_freed h : freed h (tcp_reap_pending h) /\ io (tcp_reap_pending h) = io h.
Proof.
  unfold tcp_reap_pending. generalize (S (length (pending_free h))). intros fuel. revert h.
  induction fuel as [|fuel IH]; intros h; cbn [reap_loop]; [split; [apply freed_refl|done]|].
  unfold reap_pop. destruct (last (pending_free h)) as [i|]; [|split; [apply freed_refl|done]].
  set (h1 := set_pending _ h). destruct (IH (tcp_free_conn i h1)) as [H1 H2]. split; [|by rewrite H2].
  eapply freed_trans; [|exact H1]. apply (upd_free_freed i h1).
Qed.

Lemma freed_inactive_match local lp remote rp h h' :
  freed h h' -> no_match (tuple_match local lp remote rp) h -> no_match (tuple_match local lp remote rp) h'.
Proof.
  intros [Hl Hf] Hm i c Hc. assert (is_Some (conns h !! i)) as [c0 Hc0].
  { apply lookup_lt_is_Some. rewrite <- Hl. by eapply lookup_lt_Some. }
  destruct (Hf i c0 Hc0) as [E|E]; rewrite E in Hc; injection Hc as <-; [by eapply Hm|].
  unfold free_conn. destruct (active c0) eqn:Ha; cbn; [done|by eapply Hm].
Qed.

Lemma freed_has_free h h' : freed h h' -> has_free h -> has_free h'.
Proof.
  intros [_ Hf] (i & c & Hc & Ha). destruct (Hf i c Hc) as [E|E]; [by exists i, c|].
  exists i, (free_conn c). split; [done|]. unfold free_conn. by rewrite Ha.
Qed.

Lemma upd_at i f c h : conns h !! i = Some c -> upd i f h = set_conns (<[i := f c]> (conns h)) h.
Proof.
  intros Hc. unfold upd. f_equal. rewrite list_insert_alter. apply list_alter_ext; [|done]. intros x Hx. congruence.
Qed.

(** The slot [tcp_alloc_conn] takes. *)
Lemma alloc_free rx h :
  has_free h -> exists i c, conns h !! i = Some c /\ active c = false /\
    alloc_or_reap rx h = (set_conns (<[i := init_conn (timer_ticks (io h)) rx c]> (conns h)) h, Some i).
Proof.
  intros (j & cj & Hj & Haj). unfold alloc_or_reap, tcp_alloc_conn.
  destruct (find_idx (fun c => negb (active c)) (conns h)) as [i|] eqn:Ei.
  - apply find_idx_Some in Ei as (c & Hc & Ha & _). exists i, c. split; [done|]. split; [by apply negb_true_iff|].
    cbn [mbind option_bind]. by rewrite (upd_at i _ c).
  - exfalso. rewrite find_idx_None in Ei. specialize (Ei j cj Hj). by rewrite Haj in Ei.
Qed.

(** The only slot that matches is found. *)
Lemma find_only f i c (l : list tcp_conn) :
  (i < length l)%nat -> (forall j d, l !! j = Some d -> f d = false) -> f c = true -> find_idx f (<[i := c]> l) = Some i.
Proof.
  intros Hi Hf Hc. apply find_idx_Some. exists c. split; [by apply list_lookup_insert_eq|]. split; [done|].
  intros j y Hj Hy. rewrite list_lookup_insert_ne in Hy by lia. by eapply Hf.
Qed.

(** A connection that was opened with these addresses and ports. *)
Record opened (loc lp rem rp : Z) c : Prop := {
  o_active : active c = true;
  o_loc : local_ip c = loc;
  o_lp : local_port c = lp;
  o_rem : remote_ip c = rem;
  o_rp : remote_port c = rp;
  o_ring : rx_ring_ok c;
  o_wire : wire_conn c;
  o_iss : urange 32 (iss c);
  o_nxt : snd_nxt c = u32 (iss c + 1);
}.

Lemma opened_match loc lp rem rp c : opened loc lp rem rp c -> state c <> LISTEN -> tuple_match loc lp rem rp c = true.
Proof.
  intros [H1 H2 H3 H4 H5 _ _ _ _] Hs. unfold tuple_match. rewrite H1, H2, H3, H4, H5, !Z.eqb_refl, bool_decide_false by done. done.
Qed.

Lemma opened_rx loc lp rem rp c g :
  opened loc lp rem rp c -> si_dst_port g = lp -> si_src_port g = rp -> rx_matches rem loc g c = true.
Proof.
  intros [H1 H2 H3 H4 H5 _ _ _ _] E1 E2. unfold rx_matches. rewrite H1, H2, H3, H4, H5, E1, E2, !Z.eqb_refl. done.
Qed.

Lemma init_ring rx c :
  Z.of_nat (length rx) = TCP_RX_BUF_SIZE ->
  (rx_buf c, rx_head c, rx_tail c, rx_buf_size c) = (Some rx, 0, 0, TCP_RX_BUF_SIZE) -> rx_ring_ok c.
Proof.
  intros Hr E. injection E as E1 E2 E3 E4. split; rewrite ?E1, ?E2, ?E3, ?E4; [by exists rx|by vm_compute..].
Qed.

Lemma active_opened (s : tcp_io N) dev loc lp rem rp t rx c0 :
  urange 16 lp -> urange 16 rp -> Z.of_nat (length rx) = TCP_RX_BUF_SIZE ->
  opened loc lp rem rp (active_open s dev loc rem lp rp (init_conn t rx c0)).
Proof.
  intros Hlp Hrp Hr. unfold active_open. assert (Hi : urange 32 (tcp_generate_isn s loc rem lp rp)) by apply u32_range.
  revert Hi. generalize (tcp_generate_isn s loc rem lp rp). intros isn Hi. split; try done. by eapply (init_ring rx).
Qed.

Lemma passive_opened (s : tcp_io N) dev loc src g l t rx c0 :
  urange 16 (si_dst_port g) -> urange 16 (si_src_port g) -> Z.of_nat (length rx) = TCP_RX_BUF_SIZE ->
  let c := passive_open s dev loc src g l (init_conn t rx c0) in
  opened loc (si_dst_port g) src (si_src_port g) c /\ state c = SYN_RECEIVED /\ irs c = si_seq g /\
  rcv_nxt c = u32 (si_seq g + 1) /\ parent c = Some l.
Proof.
  intros Hlp Hrp Hr c. unfold c, passive_open.
  assert (Hi : urange 32 (tcp_generate_isn s loc src (si_dst_port g) (si_src_port g))) by apply u32_range.
  revert Hi. generalize (tcp_generate_isn s loc src (si_dst_port g) (si_src_port g)). intros isn Hi.
  unfold adopt_options. split; [|by repeat case_if].
  split; try (by repeat case_if). eapply (init_ring rx); [done|by repeat case_if].
Qed.

(** ** The three messages *)

Hypothesis net_up : forall n dev dst proto m, snd (ip_send (N := N) n dev dst proto m) = 0.

(** [tcp_connect] takes a slot and sends SYN. *)
Lemma connect_syn dev loc rem lp rp rx h :
  urange 16 lp -> urange 16 rp -> Z.of_nat (length rx) = TCP_RX_BUF_SIZE ->
  has_free h -> no_match (tuple_match loc lp rem rp) h ->
  exists h' i c g, tcp_connect dev loc rem lp rp (Some rx) h = (h', Some i) /\
    conns h' !! i = Some c /\ tcp_find_conn h' loc lp rem rp = Some i /\ opened loc lp rem rp c /\ state c = SYN_SENT /\
    sent (io h) (io h') g /\ empty_seg c (iss c) 0 TCP_SYN g.
Proof.
  intros Hlp Hrp Hrx Hfree Hno. unfold tcp_connect. destruct (reap_freed h) as [Hf Hio].
  set (h1 := recycle_tuple loc rem lp rp (tcp_reap_pending h)).
  assert (Hf1 : freed h h1) by (eapply freed_trans; [exact Hf|apply map_freed]).
  assert (Hio1 : io h1 = io h) by (unfold h1; cbn; exact Hio). clearbody h1. clear Hf Hio.
  destruct (alloc_free rx h1 (freed_has_free _ _ Hf1 Hfree)) as (i & c0 & Hc0 & Ha0 & ->).
  assert (Hi : (i < length (conns h1))%nat) by (by eapply lookup_lt_Some).
  set (c1 := init_conn (timer_ticks (io h1)) rx c0).
  set (h2 := set_conns (<[i := c1]> (conns h1)) h1).
  rewrite (upd_at i _ c1) by (cbn; by apply list_lookup_insert_eq).
  set (c := active_open (io h2) dev loc rem lp rp c1).
  assert (Hop : opened loc lp rem rp c) by (by apply active_opened).
  assert (Hst : state c = SYN_SENT) by done. clearbody c.
  cbn [conns set_conns]. rewrite list_lookup_insert_eq by (cbn; by rewrite length_insert).
  destruct (send_syn net_up (io h2) c (o_wire _ _ _ _ _ Hop) (o_iss _ _ _ _ _ Hop)) as (g & Hsent & Hg).
  eexists _, i, c, g. split; [reflexivity|]. cbn. rewrite list_insert_insert_eq. split_and!; try done.
  - by apply list_lookup_insert_eq.
  - apply find_only; [done| |by apply opened_match; [|rewrite Hst]].
    exact (freed_inactive_match _ _ _ _ _ _ Hf1 Hno).
  - by rewrite <- Hio1.
Qed.

Lemma find_listener_listens l i loc lp w k :
  find_listener l i loc lp w = Some k -> w = Some k \/ exists c, l !! (k - i)%nat = Some c /\ (i <= k)%nat /\ listens lp c = true.
Proof.
  revert i w. induction l as [|c l IH]; intros i w; cbn [find_listener]; [by left|].
  assert (Hrec : (exists d, l !! (k - S i)%nat = Some d /\ (S i <= k)%nat /\ listens lp d = true) ->
            exists d, (c :: l) !! (k - i)%nat = Some d /\ (i <= k)%nat /\ listens lp d = true).
  { intros (d & Hd & Hk & Hl). exists d. replace (k - i)%nat with (S (k - S i)) by lia. split_and!; [done|lia|done]. }
  case_if; [case_if|].
  - intros [= ->]. right. exists c. rewrite Nat.sub_diag. auto.
  - intros Hf. apply IH in Hf as [Hf|Hf]; [|auto]. destruct w; [by left|]. case_if_in Hf; [|done]. injection Hf as ->.
    right. exists c. rewrite Nat.sub_diag. auto.
  - intros Hf. apply IH in Hf as [Hf|Hf]; auto.
Qed.

Lemma tcp_find_listener_listens h loc lp l :
  tcp_find_listener h loc lp = Some l ->
  exists c, conns h !! l = Some c /\ active c = true /\ state c = LISTEN /\ local_port c = lp.
Proof.
  intros Hf. apply find_listener_listens in Hf as [?|(c & Hc & _ & Hl)]; [done|]. rewrite Nat.sub_0_r in Hc. exists c.
  unfold listens in Hl. apply andb_true_iff in Hl as [[H1 H2]%andb_true_iff H3]. apply bool_decide_eq_true in H2. zify_bool. auto.
Qed.

(** A listening socket answers SYN with SYN+ACK. *)
Lemma listen_synack dev loc src m g l lc rx h :
  tcp_parse m = Some g -> si_flags g = TCP_SYN -> urange 16 (si_dst_port g) -> urange 16 (si_src_port g) ->
  Z.of_nat (length rx) = TCP_RX_BUF_SIZE ->
  tcp_find_listener h loc (si_dst_port g) = Some l -> conns h !! l = Some lc -> accept_head lc = accept_tail lc -> 0 < backlog lc ->
  has_free h -> no_match (tuple_match loc (si_dst_port g) src (si_src_port g)) h ->
  let h' := tcp_rx dev src loc m (Some rx) h in
  exists j c g', conns h' !! j = Some c /\ j <> l /\ conns h' !! l = Some lc /\
    tcp_find_conn h' loc (si_dst_port g) src (si_src_port g) = Some j /\
    opened loc (si_dst_port g) src (si_src_port g) c /\ state c = SYN_RECEIVED /\ parent c = Some l /\ irs c = si_seq g /\
    rcv_nxt c = u32 (si_seq g + 1) /\ sent (io h) (io h') g' /\ empty_seg c (iss c) (rcv_nxt c) (Z.lor TCP_SYN TCP_ACK) g'.
Proof.
  intros Hg Hfl Hdp Hsp Hrx Hlis Hl Hq Hbl Hfree Hno. unfold tcp_rx. rewrite Hg.
  assert (tcp_find_conn h loc (si_dst_port g) src (si_src_port g) = None) as -> by (by apply find_idx_None).
  unfold rx_unknown. rewrite Hlis, Hfl. cbn [andb negb]. change (has TCP_SYN TCP_SYN && negb (has TCP_SYN TCP_ACK)) with true.
  unfold rx_listen_syn. rewrite Hl, Hq. replace (accept_tail lc - accept_tail lc + 16) with 16 by lia.
  change (Z.rem 16 16) with 0. destruct (Z.leb_spec (backlog lc) 0); [lia|].
  destruct (alloc_free rx h Hfree) as (j & c0 & Hc0 & Ha0 & ->).
  assert (Hj : (j < length (conns h))%nat) by (by eapply lookup_lt_Some).
  destruct (tcp_find_listener_listens _ _ _ _ Hlis) as (lc' & Hl' & Hact & _). assert (lc' = lc) as -> by congruence.
  assert (Hne : j <> l) by (intros ->; congruence).
  set (c1 := init_conn (timer_ticks (io h)) rx c0). set (h2 := set_conns (<[j := c1]> (conns h)) h).
  rewrite (upd_at j _ c1) by (cbn; by apply list_lookup_insert_eq).
  set (c := passive_open (io h2) dev loc src g l c1).
  destruct (passive_opened (io h2) dev loc src g l (timer_ticks (io h)) rx c0 Hdp Hsp Hrx) as (Hop & Hst & Hirs & Hrn & Hpar).
  fold c1 in Hop, Hst, Hirs, Hrn, Hpar. fold c in Hop, Hst, Hirs, Hrn, Hpar. clearbody c.
  cbn [conns set_conns]. rewrite list_lookup_insert_eq by (cbn; by rewrite length_insert).
  destruct (send_synack net_up (io h2) c (o_wire _ _ _ _ _ Hop) (o_ring _ _ _ _ _ Hop) (o_iss _ _ _ _ _ Hop)) as (g' & Hsent & Hg').
  { rewrite Hrn. apply u32_range. }
  exists j, c, g'. cbn. rewrite list_insert_insert_eq. split_and!; try done.
  - by apply list_lookup_insert_eq.
  - by rewrite list_lookup_insert_ne.
  - apply find_only; [done|exact Hno|by apply opened_match; [|rewrite Hst]].
Qed.

(** The segment goes to the slot that matches. *)
Lemma rx_found dev src loc m g mem i c h :
  tcp_parse m = Some g -> tcp_find_conn h loc (si_dst_port g) src (si_src_port g) = Some i -> conns h !! i = Some c ->
  state c <> TIME_WAIT -> tcp_rx dev src loc m mem h = rx_conn loc src g i h.
Proof.
  intros Hg Hf Hc Hs. unfold tcp_rx. rewrite Hg, Hf, Hc. cbn [fmap option_fmap option_map].
  rewrite bool_decide_false by congruence. done.
Qed.

(** The connecting side takes SYN+ACK and acknowledges it. *)
Lemma synack_ack dev loc lp rem rp m g mem i c h :
  tcp_parse m = Some g -> si_dst_port g = lp -> si_src_port g = rp -> si_flags g = Z.lor TCP_SYN TCP_ACK -> si_ack g = snd_nxt c ->
  conns h !! i = Some c -> tcp_find_conn h loc lp rem rp = Some i -> opened loc lp rem rp c -> state c = SYN_SENT ->
  let h' := tcp_rx dev rem loc m mem h in
  exists c' g', conns h' !! i = Some c' /\ opened loc lp rem rp c' /\ state c' = ESTABLISHED /\ connect_done c' = true /\
    snd_nxt c' = snd_nxt c /\ rcv_nxt c' = u32 (si_seq g + 1) /\
    sent (io h) (io h') g' /\ empty_seg c' (snd_nxt c') (rcv_nxt c') TCP_ACK g'.
Proof.
  intros Hg Hdp Hsp Hfl Hak Hc Hf Hop Hst.
  rewrite (rx_found dev rem loc m g mem i c) by (try done; by rewrite ?Hdp, ?Hsp, ?Hst). unfold rx_conn. rewrite Hc.
  rewrite (opened_rx _ _ _ _ _ g Hop Hdp Hsp). cbn [negb]. unfold rx_switch. rewrite Hst. unfold rx_syn_sent.
  rewrite Hfl, Hak, Z.eqb_refl. change (has (Z.lor TCP_SYN TCP_ACK) TCP_SYN && has (Z.lor TCP_SYN TCP_ACK) TCP_ACK) with true. cbn iota.
  match goal with |- context [tcp_send_ack (io h) ?e] => set (c1 := e) end.
  assert (Hop1 : opened loc lp rem rp c1).
  { destruct Hop as [O1 O2 O3 O4 O5 O6 [O7 [O8 O9]] O10 O11]. unfold c1, adopt_options.
    split; try (by repeat case_if). eapply rx_ring_frame, O6. by repeat case_if. }
  assert (Hf1 : state c1 = ESTABLISHED /\ connect_done c1 = true /\ snd_nxt c1 = snd_nxt c /\ rcv_nxt c1 = u32 (si_seq g + 1))
    by (unfold c1, adopt_options; by repeat case_if).
  clearbody c1. destruct Hf1 as (F1 & F2 & F3 & F4).
  destruct (send_ack_sent net_up (io h) c1 (o_wire _ _ _ _ _ Hop1) (o_ring _ _ _ _ _ Hop1)) as (g' & Hs & Hg').
  { rewrite (o_nxt _ _ _ _ _ Hop1). apply u32_range. }
  { rewrite F4. apply u32_range. }
  assert (Hi : (i < length (conns h))%nat) by (by eapply lookup_lt_Some).
  unfold tcp_send_ack in *. destruct (tcp_build_options _ _ _ _) as [s1 o]. destruct (tcp_send_segment_ex _ _ _) as [s2 rc].
  cbn [fst] in Hs. set (c2 := c1 |> set_delayed_ack_pending false |> set_segs_since_ack 0).
  exists c2, g'. cbn [enqueue release Keep].
  replace (match parent c2 with Some p => set_io s2 (upd i (fun _ => c2) h) | None => set_io s2 (upd i (fun _ => c2) h) end)
    with (set_io s2 (upd i (fun _ => c2) h)) by (by destruct (parent c2)).
  split_and!; try done.
  - cbn. by rewrite list_lookup_alter_eq, Hc.
  - destruct Hop1 as [O1 O2 O3 O4 O5 O6 [O7 [O8 O9]] O10 O11]. split; try done. by eapply rx_ring_frame, O6.
Qed.

(** The listening side takes ACK, and [tcp_accept] returns the connection. *)
Lemma ack_accept dev loc lp rem rp m g mem j l c lc h :
  tcp_parse m = Some g -> si_dst_port g = lp -> si_src_port g = rp -> si_flags g = TCP_ACK -> si_ack g = snd_nxt c ->
  conns h !! j = Some c -> tcp_find_conn h loc lp rem rp = Some j -> opened loc lp rem rp c -> state c = SYN_RECEIVED ->
  parent c = Some l -> j <> l -> conns h !! l = Some lc -> active lc = true -> state lc = LISTEN -> local_port lc = lp ->
  accept_head lc = accept_tail lc -> 0 <= accept_tail lc < 16 -> length (accept_queue lc) = 16%nat ->
  exists h' c', tcp_accept l (tcp_rx dev rem loc m mem h) = (h', Some j) /\ conns h' !! j = Some c' /\
    opened loc lp rem rp c' /\ state c' = ESTABLISHED /\ parent c' = None /\ snd_nxt c' = snd_nxt c /\ rcv_nxt c' = rcv_nxt c.
Proof.
  intros Hg Hdp Hsp Hfl Hak Hc Hf Hop Hst Hpar Hne Hl Hla Hls Hlp Hq Hr Hlen.
  rewrite (rx_found dev rem loc m g mem j c) by (try done; by rewrite ?Hdp, ?Hsp, ?Hst). unfold rx_conn. rewrite Hc.
  rewrite (opened_rx _ _ _ _ _ g Hop Hdp Hsp). cbn [negb]. unfold rx_switch. rewrite Hst. unfold rx_syn_received.
  rewrite Hfl, Hak, Z.eqb_refl. cbn [andb]. change (has TCP_ACK TCP_SYN) with false. change (has TCP_ACK TCP_ACK) with true.
  change (has TCP_ACK TCP_RST) with false. cbn [andb negb enqueue release].
  match goal with |- context [set_io _ (upd j (fun _ => ?e) h)] => set (c1 := e) end.
  assert (Hop1 : opened loc lp rem rp c1) by (destruct Hop as [O1 O2 O3 O4 O5 O6 O7 O8 O9]; split; try done; by eapply rx_ring_frame, O6).
  assert (Hf1 : state c1 = ESTABLISHED /\ parent c1 = Some l /\ snd_nxt c1 = snd_nxt c /\ rcv_nxt c1 = rcv_nxt c) by done.
  clearbody c1. destruct Hf1 as (F1 & F2 & F3 & F4). rewrite F2.
  set (h1 := set_io (io h) (upd j (fun _ => c1) h)).
  assert (Hj1 : conns h1 !! j = Some c1) by (cbn; by rewrite list_lookup_alter_eq, Hc).
  assert (Hl1 : conns h1 !! l = Some lc) by (cbn; by rewrite list_lookup_alter_ne).
  clearbody h1. unfold enqueue_child. rewrite Hl1, Hj1, Hla, Hls, Hlp, (o_lp _ _ _ _ _ Hop1), Z.eqb_refl. cbn [andb]. rewrite bool_decide_true by done. cbn [andb].
  assert (Hn : (accept_tail lc + 1) mod 16 <> accept_tail lc).
  { intros E. pose proof (Z.div_mod (accept_tail lc + 1) 16). lia. }
  rewrite Hq, (proj2 (Z.eqb_neq _ _) Hn). cbn [negb]. rewrite (upd_at l _ lc) by done.
  set (lc1 := lc |> set_accept_queue _ |> set_accept_tail _ |> set_accept_ready true).
  set (h2 := set_conns (<[l := lc1]> (conns h1)) h1).
  assert (Hll : (l < length (conns h1))%nat) by (by eapply lookup_lt_Some).
  assert (Hl2 : conns h2 !! l = Some lc1) by (cbn; by apply list_lookup_insert_eq).
  assert (Hj2 : conns h2 !! j = Some c1) by (cbn; by rewrite list_lookup_insert_ne).
  unfold tcp_accept. rewrite Hl2. cbn [state accept_head accept_tail accept_queue lc1 set_accept_queue set_accept_tail set_accept_ready].
  rewrite bool_decide_true by done. cbn [negb]. rewrite Hq, (proj2 (Z.eqb_neq _ _) (not_eq_sym Hn)). cbn [negb].
  rewrite list_lookup_insert_eq by lia. cbn [default from_option id].
  match goal with |- context [upd l ?f h2] => set (h3 := upd l f h2) end.
  assert (Hj3 : conns h3 !! j = Some c1) by (cbn -[h2]; by rewrite list_lookup_alter_ne). clearbody h3.
  eexists _, (c1 |> set_parent None). split; [reflexivity|]. split; [cbn; by rewrite list_lookup_alter_eq, Hj3|].
  split_and!; try done. destruct Hop1 as [O1 O2 O3 O4 O5 O6 O7 O8 O9]; split; try done; by eapply rx_ring_frame, O6.
Qed.

(** What a host sent last. *)
Definition last_message h : list Z := default [] (snd <$> last (trace (io h))).

Lemma sent_last h h' g : sent (io h) (io h') g -> tcp_parse (last_message h') = Some g.
Proof. intros (dst & m & Ht & Hm). unfold last_message. by rewrite Ht, last_snoc. Qed.

(** C8. A connection set-up in which no message is lost succeeds: a host with a free slot
    connects to a port on which another host listens, and the three messages are
    delivered; then [tcp_accept] returns the connection, both ends are established
    with each other's addresses and ports, and each expects the sequence number the
    other will send next. *)
Theorem tcp_handshake devA devB a b pa pb rxA rxB l lc hA hB :
  urange 16 pa -> urange 16 pb -> Z.of_nat (length rxA) = TCP_RX_BUF_SIZE -> Z.of_nat (length rxB) = TCP_RX_BUF_SIZE ->
  has_free hA -> no_match (tuple_match a pa b pb) hA ->
  host_ok hB -> tcp_find_listener hB b pb = Some l -> conns hB !! l = Some lc -> accept_head lc = accept_tail lc ->
  0 < backlog lc -> has_free hB -> no_match (tuple_match b pb a pa) hB ->
  let '(hA1, oi) := tcp_connect devA a b pa pb (Some rxA) hA in
  let hB1 := tcp_rx devB a b (last_message hA1) (Some rxB) hB in
  let hA2 := tcp_rx devA b a (last_message hB1) None hA1 in
  let hB2 := tcp_rx devB a b (last_message hA2) None hB1 in
  let '(hB3, oj) := tcp_accept l hB2 in
  exists cA cB, (oi ≫= fun i => conns hA2 !! i) = Some cA /\ (oj ≫= fun j => conns hB3 !! j) = Some cB /\
    state cA = ESTABLISHED /\ state cB = ESTABLISHED /\ connect_done cA = true /\
    snd_nxt cA = rcv_nxt cB /\ snd_nxt cB = rcv_nxt cA /\ opened a pa b pb cA /\ opened b pb a pa cB.
Proof.
  intros Hpa Hpb HrA HrB HfA HnA HokB Hlis Hl Hq Hbl HfB HnB.
  destruct (connect_syn devA a b pa pb rxA hA Hpa Hpb HrA HfA HnA) as (hA1 & i & c1 & g1 & -> & Hc1 & Hfi & Hop1 & Hst1 & Hs1 & Hg1).
  cbv zeta. apply sent_last in Hs1. destruct Hg1 as (G1 & G2 & G3 & G4 & G5 & _).
  rewrite (o_lp _ _ _ _ _ Hop1) in G1. rewrite (o_rp _ _ _ _ _ Hop1) in G2.
  pose proof (listen_synack devB b a _ g1 l lc rxB hB Hs1 G5) as HL. rewrite G1, G2 in HL.
  destruct (HL Hpb Hpa HrB Hlis Hl Hq Hbl HfB HnB) as
    (j & c2 & g2 & Hc2 & Hne & Hl1 & Hfj & Hop2 & Hst2 & Hpar & Hirs & Hrn2 & Hs2 & Hg2). clear HL.
  set (hB1 := tcp_rx devB a b (last_message hA1) (Some rxB) hB) in *. clearbody hB1.
  apply sent_last in Hs2. destruct Hg2 as (K1 & K2 & K3 & K4 & K5 & _).
  rewrite (o_lp _ _ _ _ _ Hop2) in K1. rewrite (o_rp _ _ _ _ _ Hop2) in K2.
  assert (Hak : si_ack g2 = snd_nxt c1) by (by rewrite K4, Hrn2, G3, (o_nxt _ _ _ _ _ Hop1)).
  destruct (synack_ack devA a pa b pb _ g2 None i c1 hA1 Hs2 K2 K1 K5 Hak Hc1 Hfi Hop1 Hst1) as
    (c3 & g3 & Hc3 & Hop3 & Hst3 & Hdone & Hsn3 & Hrn3 & Hs3 & Hg3).
  set (hA2 := tcp_rx devA b a (last_message hB1) None hA1) in *. clearbody hA2.
  apply sent_last in Hs3. destruct Hg3 as (M1 & M2 & M3 & M4 & M5 & _).
  rewrite (o_lp _ _ _ _ _ Hop3) in M1. rewrite (o_rp _ _ _ _ _ Hop3) in M2.
  destruct (tcp_find_listener_listens _ _ _ _ Hlis) as (lc' & Hl' & Hla & Hls & Hlp). assert (lc' = lc) as -> by congruence.
  destruct (host_conn l lc hB HokB Hl) as [[Hok _] _]. destruct (f_accept Hok) as (A1 & _ & A3 & _).
  assert (Hak' : si_ack g3 = snd_nxt c2) by (by rewrite M4, Hrn3, K3, (o_nxt _ _ _ _ _ Hop2)).
  destruct (ack_accept devB b pb a pa _ g3 None j l c2 lc hB1 Hs3 M2 M1 M5 Hak' Hc2 Hfj Hop2 Hst2 Hpar Hne Hl1 Hla Hls Hlp Hq A3 A1) as
    (hB3 & c4 & -> & Hc4 & Hop4 & Hst4 & _ & Hsn4 & Hrn4).
  exists c3, c4. split; [exact Hc3|]. split; [exact Hc4|]. split; [exact Hst3|]. split; [exact Hst4|]. split; [exact Hdone|].
  split; [by rewrite Hsn3, Hrn4, Hrn2, G3, (o_nxt _ _ _ _ _ Hop1)|].
  split; [by rewrite Hsn4, Hrn3, K3, (o_nxt _ _ _ _ _ Hop2)|by split].
Qed.

End Tables.
