(* ===== verification/TcpRun.v ===== *)
(** * Runs of two TCP end points

    The steps of the system of two hosts as a function, so that scripts of sends,
    deliveries and reads can be executed; every run is one of the step relation.  One
    run over a network that accepts everything shows that the end points connect and
    that data arrives when segments are lost, repeated and reordered on the way. *)

From Stdlib Require Import ZArith Lia Bool.
From stdpp Require Import base list relations.
From S2P Require Import Prelude Wire TcpConn TcpWire TcpRx TcpSegment Tcp TcpData TcpStream TcpTable TcpHandshake.

Open Scope Z_scope.
Open Scope tcp_scope.

(** [Deliver] and [Open] hand message [n] of the other side to side [x]. *)
Inductive command :=
| Send (x : side) (data : list Z)
| Recv (x : side) (len : Z)
| Deliver (x : side) (n : nat) (src local : Z)
| Open (x : side) (n : nat) (src local : Z)
| Clock (x : side) (ticks us : Z)
| Tick (x : side)
| Close (x : side).

Section Run.
Context {N : Type} `{IpLayer N} `{!IpLaws N}.
Implicit Types (p : pair_state N).

Definition message_for p (x : side) (n : nat) : option seg_in :=
  m ← trace (p_io p (other x)) !! n; tcp_parse (snd m).

Definition rx_memory : list Z := repeat 0 (Z.to_nat TCP_RX_BUF_SIZE).

Lemma rx_memory_length : Z.of_nat (length rx_memory) = TCP_RX_BUF_SIZE.
Proof. unfold rx_memory. rewrite repeat_length. apply Z2Nat.id. by vm_compute. Qed.

Definition exec p (o : command) : option (pair_state N) :=
  match o with
  | Send x data =>
      c ← p_conn p x;
      if Z.of_nat (length data) <=? 65535 then
        let '(s, c, r) := tcp_send_data (p_io p x) c data in Some (put x s c (take (Z.to_nat r) data) [] p)
      else None
  | Recv x len =>
      c ← p_conn p x;
      if (0 <=? len) && (len <? 2 ^ 32) then
        match sock_recv_copy len false c with
        | (c, Some bs) => Some (put x (p_io p x) c [] bs p)
        | _ => None
        end
      else None
  | Deliver x n src local =>
      c ← p_conn p x;
      g ← message_for p x n;
      if rx_matches src local g c then
        let '(s, c, what) := rx_switch (p_io p x) g c in
        Some (put x s (if release what then free_conn c else c) [] [] p)
      else None
  | Open x n src local =>
      match p_conn p x with
      | Some _ => None
      | None =>
          g ← message_for p x n;
          if has (si_flags g) TCP_SYN && negb (has (si_flags g) TCP_ACK) then
            let c := passive_open (p_io p x) None local src g 0
                       (fresh_conn (p_io p x) rx_memory zero_conn) in
            Some (put x (tcp_send_synack_conn (p_io p x) c (tcp_advertised_window c)) c [] [] p)
          else None
      end
  | Clock x ticks us => Some (put_io x (set_clock ticks us (p_io p x)) p)
  | Tick x => c ← p_conn p x; let '(s, c, _) := timer_conn (p_io p x) c in Some (put x s c [] [] p)
  | Close x => c ← p_conn p x; let '(s, c) := close_conn (p_io p x) c in Some (put x s c [] [] p)
  end.

(** A script; what cannot be done is skipped. *)
Definition run (script : list command) p : pair_state N := fold_left (fun p o => default p (exec p o)) script p.

Lemma message_arrives p x n g : message_for p x n = Some g -> arrives p x g.
Proof.
  unfold message_for. intros ([dst m] & Hm & Hg)%bind_Some. exists dst, m. split; [|done].
  by eapply list_elem_of_lookup_2.
Qed.

Lemma exec_step p o p' : exec p o = Some p' -> step p p'.
Proof.
  destruct o as [x data|x len|x n src local|x n src local|x ticks us|x|x]; cbn [exec].
  - intros (c & Hc & Ho)%bind_Some. case_if_in Ho; [|done]. destruct (tcp_send_data _ _ _) as [[s c'] r] eqn:E1.
    injection Ho as <-. eapply P_act; [done|]. eapply A_send; [zify_bool; lia|done].
  - intros (c & Hc & Ho)%bind_Some. case_if_in Ho; [|done]. destruct (sock_recv_copy _ _ _) as [c' [bs|]] eqn:E1; [|done].
    injection Ho as <-. eapply P_act; [done|]. eapply (A_recv _ _ len false); [zify_bool; lia|done].
  - intros (c & Hc & (g & Hg & Ho)%bind_Some)%bind_Some. case_if_in Ho; [|done].
    destruct (rx_switch _ _ _) as [[s c'] w] eqn:E1. injection Ho as <-. eapply P_rx; eauto using message_arrives.
  - destruct (p_conn p x) eqn:Hn; [done|]. intros (g & Hg & Ho)%bind_Some. case_if_in Ho; [|done].
    apply (inj Some) in Ho. subst p'. eapply (P_open p x zero_conn); eauto using message_arrives, rx_memory_length.
  - intros [= <-]. apply P_clock.
  - intros (c & Hc & Ho)%bind_Some. destruct (timer_conn _ _) as [[s c'] f] eqn:E1. injection Ho as <-.
    eapply P_act; [done|]. by eapply A_tick.
  - intros (c & Hc & Ho)%bind_Some. destruct (close_conn _ _) as [s c'] eqn:E1. injection Ho as <-.
    eapply P_act; [done|]. by eapply A_close.
Qed.

Lemma run_steps script p : rtc step p (run script p).
Proof.
  revert p. induction script as [|o l IH]; intros p; [done|]. cbn. destruct (exec p o) as [p'|] eqn:E; [|apply IH].
  eapply rtc_l; [by eapply exec_step|apply IH].
Qed.

End Run.

(** ** A network that accepts every message *)

#[global] Instance unit_net : IpLayer unit := {| ip_send n _ _ _ _ := (n, 0); dev_mtu _ _ := 1500 |}.

#[global] Instance unit_laws : IpLaws unit.
Proof. intros ? ? ? ? ?. cbn. lia. Qed.

Definition zero_io (seed : Z) : tcp_io unit := mk_tcp_io tt [] 100 1000000 [] (repeat seed 16) (repeat seed 16) 0 true 0.

(** Side [Left] connects, side [Right] listens. *)
Definition start : pair_state unit :=
  let c := active_open (zero_io 1) None 10 20 4000 80
             (fresh_conn (zero_io 1) rx_memory zero_conn) in
  mk_pair (fun x => match x with Left => tcp_send_syn_packet (zero_io 1) c | Right => zero_io 2 end)
    (fun x => match x with Left => Some c | Right => None end) (fun _ => []) (fun _ => []).

Lemma start_init x : init_end x start.
Proof.
  split; [done|]. split; [done|]. destruct x; [right|by left].
  eexists (zero_io 1), None, 10, 20, 4000, 80, rx_memory, zero_conn, _.
  split_and!; [done|apply rx_memory_length|reflexivity|reflexivity|reflexivity].
Qed.

Lemma run_reachable script : reachable (run script start).
Proof. exists start. split; [exact start_init|apply run_steps]. Qed.

(** Handshake; of three segments the second arrives first, the first one twice, and
    the last is lost and sent again by the timer. *)
Definition demo : list command :=
  [Open Right 0 10 20; Deliver Left 0 20 10; Deliver Right 1 10 20;
   Send Left [1; 2; 3]; Send Left [4; 5]; Send Left [6];
   Deliver Right 3 10 20; Deliver Right 2 10 20; Deliver Right 2 10 20; Recv Right 3;
   Deliver Left 1 20 10; Deliver Left 2 20 10; Deliver Left 3 20 10;
   Clock Left 1000 10000000; Tick Left; Deliver Right 5 10 20].

Definition demo_end : pair_state unit := run demo start.

Lemma demo_bounded : bounded demo_end.
Proof. intros x. by destruct x; vm_compute. Qed.

Lemma tcp_stream_witness :
  received demo_end Right = [1; 2; 3; 4; 5; 6] /\ received demo_end Right `prefix_of` p_written demo_end Left.
Proof.
  split; [by vm_compute|]. apply (tcp_stream demo_end Right); [apply run_reachable|apply demo_bounded].
Defined.

Lemma demo_left : exists c, p_conn demo_end Left = Some c /\ (length (inflight c) = 1)%nat /\ linked c = true.
Proof.
  assert (Hb : option_map (fun c => (length (inflight c), linked c)) (p_conn demo_end Left) = Some (1%nat, true))
    by (vm_compute; reflexivity).
  revert Hb. generalize (p_conn demo_end Left). intros [c|] Hb; [|discriminate Hb]. exists c. injection Hb as H1 H2. auto.
Qed.

Lemma tcp_synchronized_witness :
  exists c, p_conn demo_end Left = Some c /\ (length (inflight c) = 1)%nat /\
    snd_nxt c = u32 (iss c + 1 + Z.of_nat (length (p_written demo_end Left))).
Proof.
  destruct demo_left as (c & E & H1 & H2). exists c. split; [exact E|]. split; [exact H1|].
  apply (tcp_synchronized demo_end Left c (run_reachable demo) demo_bounded E H2).
Defined.

(** ** The other theorems at concrete inputs *)

Definition demo_conn : tcp_conn :=
  zero_conn |> set_local_ip 10 |> set_remote_ip 20 |> set_local_port 4000 |> set_remote_port 80 |> set_ts_enabled true
    |> set_sack_ok true |> set_ooo [mk_ooo 500 [9; 9]].


Lemma tcp_syncookie_roundtrip_witness :
  tcp_syncookie_validate (set_clock 700 0 (zero_io 2)) 10 20 4000 80
    (tcp_syncookie_generate (zero_io 2) 10 20 4000 80 1460) = Some 1460.
Proof.
  destruct (tcp_syncookie_roundtrip (zero_io 2) (set_clock 700 0 (zero_io 2)) 10 20 4000 80 1460) as (v & H1 & H2 & H3 & H4);
    [reflexivity|lia|cbn; lia|cbn; lia|vm_compute; split; discriminate|].
  assert (1460 <= v) by (apply H4; [by vm_compute; right; right; left|lia]). rewrite H1. f_equal. lia.
Defined.

Lemma tcp_rto_bounds_witness : 1 <= tcp_rto_ticks (tcp_update_rtt 70000000 (init_conn 0 [] zero_conn) |> set_rto_backoff 9) <= 6000.
Proof. apply (tcp_rto_bounds (init_conn 0 [] zero_conn) 70000000 9); [by left|lia]. Defined.

(** A host that listens and receives the SYN of [start]. *)
Definition syn_host : tcp_host unit :=
  let h := fst (tcp_listen None 20 80 5 (Some rx_memory) (boot (repeat 2 16) (repeat 2 16) (zero_io 2))) in
  tcp_rx None 10 20 (default [] (snd <$> last (trace (p_io start Left)))) (Some rx_memory) h.

Lemma tcp_table_ok_witness :
  host_ok syn_host /\ map state (take 3 (conns syn_host)) = [LISTEN; SYN_RECEIVED; CLOSED].
Proof.
  split; [|by vm_compute]. apply (tcp_table_ok (repeat 2 16) (repeat 2 16) (zero_io 2)).
  eapply rtc_l; [|apply rtc_once]; [apply (C_listen _ None 20 80 5 (Some rx_memory)); exact rx_memory_length|].
  apply C_rx. exact rx_memory_length.
Defined.

(** Two hosts after [tcp_init], one of which listens on port 80. *)
Definition client : tcp_host unit := boot (repeat 1 16) (repeat 1 16) (zero_io 1).
Definition server : tcp_host unit :=
  fst (tcp_listen None 20 80 5 (Some rx_memory) (boot (repeat 2 16) (repeat 2 16) (zero_io 2))).

Lemma boot_no_match (isn cookie : list Z) (s : tcp_io unit) l lp r rp i c :
  conns (boot isn cookie s) !! i = Some c -> tuple_match l lp r rp c = false.
Proof.
  unfold boot, tcp_init. cbn [conns]. rewrite list_lookup_fmap. intros (c0 & _ & ->)%fmap_Some. done.
Qed.

Lemma server_slots i c : conns server !! i = Some c -> i = 0%nat /\ state c = LISTEN \/ active c = false.
Proof.
  assert (Hb : forallb (fun c => negb (active c)) (list.tail (conns server)) && bool_decide (state <$> head (conns server) = Some LISTEN) = true)
    by (vm_compute; reflexivity).
  apply andb_true_iff in Hb as [Hb1 Hb2]. apply bool_decide_eq_true in Hb2. rewrite forallb_forall in Hb1.
  destruct (conns server) as [|c0 l]; [done|]. destruct i as [|i]; cbn.
  - intros [= <-]. left. split; [done|]. cbn in Hb2. congruence.
  - intros Hi. right. apply negb_true_iff, Hb1. cbn. apply list_elem_of_In. by eapply list_elem_of_lookup_2.
Qed.

Lemma tcp_handshake_witness :
  let '(hA1, oi) := tcp_connect None 10 20 4000 80 (Some rx_memory) client in
  let hB1 := tcp_rx None 10 20 (last_message hA1) (Some rx_memory) server in
  let hA2 := tcp_rx None 20 10 (last_message hB1) None hA1 in
  let hB2 := tcp_rx None 10 20 (last_message hA2) None hB1 in
  let '(hB3, oj) := tcp_accept 0 hB2 in
  exists cA cB, (oi ≫= fun i => conns hA2 !! i) = Some cA /\ (oj ≫= fun j => conns hB3 !! j) = Some cB /\
    state cA = ESTABLISHED /\ state cB = ESTABLISHED.
Proof.
  assert (Hl : option_map (fun c => (accept_head c =? accept_tail c, 0 <? backlog c)) (conns server !! 0%nat) = Some (true, true))
    by (vm_compute; reflexivity).
  destruct (conns server !! 0%nat) as [lc|] eqn:El; [|discriminate Hl]. injection Hl as Hl1 Hl2.
  apply Z.eqb_eq in Hl1. apply Z.ltb_lt in Hl2.
  assert (Hp : forall z, 0 <= z <= 5000 -> urange 16 z) by (unfold urange; lia).
  assert (Hfree : has_free client /\ has_free server).
  { split; [exists 0%nat|exists 1%nat].
    - eexists. split; [reflexivity|reflexivity].
    - destruct (conns server !! 1%nat) as [c|] eqn:E1; [|by exfalso; revert E1; vm_compute]. exists c. split; [done|].
      by destruct (server_slots 1 c E1) as [[? _]|]. }
  assert (Hfl : tcp_find_listener server 20 80 = Some 0%nat) by (vm_compute; reflexivity).
  assert (HnA : no_match (tuple_match 10 4000 20 80) client) by (intros i c; apply boot_no_match).
  assert (HnB : no_match (tuple_match 20 80 10 4000) server).
  { intros i c Hc. unfold tuple_match. destruct (server_slots i c Hc) as [[_ ->]| ->]; [|done]. by rewrite bool_decide_true, andb_false_r. }
  assert (HokB : host_ok server) by (apply listen_ok; [exact rx_memory_length|apply boot_ok]).
  pose proof (tcp_handshake (fun _ _ _ _ _ => eq_refl) None None 10 20 4000 80 rx_memory rx_memory 0 lc client server
    (Hp 4000 ltac:(lia)) (Hp 80 ltac:(lia)) rx_memory_length rx_memory_length (proj1 Hfree) HnA HokB Hfl El Hl1 Hl2 (proj2 Hfree) HnB) as HH.
  destruct (tcp_connect None 10 20 4000 80 (Some rx_memory) client) as [hA1 oi]. cbv zeta in HH |- *.
  destruct (tcp_accept 0 _) as [hB3 oj]. destruct HH as (cA & cB & H1 & H2 & H3 & H4 & _). by exists cA, cB.
Defined.

(** ** Behaviour at the edges *)

Definition message_of (x : side) (n : nat) (p : pair_state unit) : list Z := default [] (snd <$> trace (p_io p x) !! n).

(** The host of [syn_host] after the last message of the handshake. *)
Definition accepted_host : tcp_host unit :=
  tcp_rx None 10 20 (message_of Left 1 (run [Open Right 0 10 20; Deliver Left 0 20 10] start)) None syn_host.

(** [tcp_accept] returns the same connection a second time. *)
Lemma tcp_accept_twice :
  snd (tcp_accept 0 accepted_host) = Some 1%nat /\ snd (tcp_accept 0 (fst (tcp_accept 0 accepted_host))) = Some 1%nat.
Proof. split; by vm_compute. Qed.

(** RST together with the acknowledgement of the SYN+ACK: the connection is put into
    the accept queue and freed; [tcp_accept] returns the free slot. *)
Lemma tcp_accept_freed :
  let c := default zero_conn (conns syn_host !! 1%nat) in
  let m := tcp_packet (mk_seg_out 10 20 4000 80 0 (snd_nxt c) (Z.lor TCP_RST TCP_ACK) 0 [] []) 0 in
  let h := tcp_rx None 10 20 m None syn_host in
  snd (tcp_accept 0 h) = Some 1%nat /\ active <$> conns h !! 1%nat = Some false.
Proof. split; by vm_compute. Qed.

(** The slot is deferred, taken from the list, deferred again before it is freed, and
    given to the next connection: the next round frees the connection that lives. *)
Lemma tcp_deferred_twice :
  let h := fst (reap_pop (tcp_defer_free 1 syn_host)) in
  let h := tcp_free_conn 1 (tcp_defer_free 1 h) in
  let h := tcp_rx None 10 20 (message_of Left 0 start) (Some rx_memory) h in
  state <$> conns h !! 1%nat = Some SYN_RECEIVED /\
  (fun c => (active c, state c)) <$> conns (tcp_reap_pending h) !! 1%nat = Some (false, CLOSED).
Proof. split; by vm_compute. Qed.

(** FIN overtakes the data before it: the data is lost, though it arrives. *)
Lemma tcp_fin_loses_data :
  let p := run [Open Right 0 10 20; Deliver Left 0 20 10; Deliver Right 1 10 20; Send Left [1; 2; 3]; Close Left;
                Deliver Right 3 10 20; Deliver Right 2 10 20] start in
  p_written p Left = [1; 2; 3] /\ received p Right = [] /\ state <$> p_conn p Right = Some CLOSE_WAIT.
Proof. split_and!; by vm_compute. Qed.

(** An acknowledgement beyond the wrap-around of the sequence numbers is ignored. *)
Lemma tcp_ack_wraps :
  let c := zero_conn |> set_state ESTABLISHED |> set_snd_una (2 ^ 32 - 2) |> set_snd_nxt 2
             |> set_inflight [mk_inflight (2 ^ 32 - 2) TCP_ACK 0 0 [1; 2; 3; 4]] in
  let g := mk_seg_in 80 4000 0 2 TCP_ACK 1000 no_opts 0 [] in
  length (inflight (snd (rx_ack (zero_io 1) g c))) = 1%nat.
Proof. by vm_compute. Qed.

(** The checksum of an urgent byte is wrong. *)
Lemma tcp_oob_checksum :
  let m := oob_message demo_conn [] 7 in
  ipv4_checksum (tcp_pseudo_header (local_ip demo_conn) (remote_ip demo_conn) (Z.of_nat (length m)) ++ m)
    (12 + Z.of_nat (length m)) <> 0.
Proof. by vm_compute. Qed.

(** Four blocks and a timestamp do not fit, and none is announced. *)
Lemma tcp_four_sacks :
  let c := demo_conn |> set_ooo (map (fun i => mk_ooo (500 + 10 * Z.of_nat i) [9]) (seq 0 4)) in
  let g := tcp_parse (default [] (tcp_message (conn_seg c 1 1 TCP_ACK 0 [] (snd (tcp_build_options (zero_io 1) c TCP_ACK 0))))) in
  (fun g => po_sack (si_opts g)) <$> g = Some [].
Proof. by vm_compute. Qed.

(** A retransmitted segment has no timestamp, also on a connection that uses them. *)
Lemma tcp_retransmit_no_timestamp :
  let p := run [Open Right 0 10 20; Deliver Left 0 20 10; Deliver Right 1 10 20; Send Left [1; 2; 3];
                Clock Left 1000 10000000; Tick Left] start in
  let ts m := (fun g => po_ts_present (si_opts g)) <$> tcp_parse m in
  ts (message_of Left 2 p) = Some true /\ ts (message_of Left 3 p) = Some false.
Proof. split; by vm_compute. Qed.
